(* ===== verification/_CoqProject ===== *)
-Q . S2P
Prelude.v
Time.v
HttpTime.v
SendVec.v
Cache.v
CacheLru.v
Index.v
DList.v
Base64.v
Utf8.v
JsonScan.v
JsonParse.v
JsonGrammar.v
JsonComplete.v
JsonSound.v
JsonEmit.v
JsonSet.v
Str.v
AcceptEncoding.v
Range.v
Chunked.v
Sockaddr.v
UrlTables.v
UrlEncode.v
NsSet.v
Header.v
Path.v
Url.v
ReqLine.v
SockRead.v
Pipeline.v
Requests.v
ConnState.v
Form.v
Sched.v
UrlSpace.v
UrlSpaceMap.v
UrlSpaceGet.v
Dispatch.v
Procs.v
Cbor.v
Locks.v
Output.v
Cookies.v
DbPool.v
ConnQueue.v
Adp.v
AdpSafe.v
AdpPage.v
HtmlEntities.v
Html.v
HtmlParse.v
