(* ===== verification/Prelude.v ===== *)
(** * The NaviServer core: a verification library

    NaviServer is a multi-protocol web server in C: a core (nsd/) that accepts
    connections, parses requests, dispatches them to Tcl or C procedures and writes
    responses, on top of a thread library (nsthread/).  This library models the path of a
    request through the core, from the bytes of a connection to the file or procedure it
    is mapped to and the bytes that are sent back, and the data structures and string
    routines that all parts share, and proves what makes them correct.  Sockets, threads,
    Tcl and the C library appear as arguments or are written out.

    ** The parts and how they interact

    - nsd/driver.c reads requests: [SockRead] receives bytes and [SockParse] takes lines
      off the buffer, with the request line and the header fields of nsd/request.c, the
      chunks of a body, and [RequestFree] between two requests of a connection;
    - nsd/request.c takes a request target apart with nsd/url.c, nsd/urlencode.c and
      nsd/pathname.c, and nsd/url2file.c maps the URL to a file below the page root of
      the virtual host; nsd/urlspace.c finds what is registered for a URL;
    - nsd/queue.c hands requests to the connection threads of a pool and runs them there: the filters of nsd/filter.c, the
      authorization of nsd/auth.c, the procedure of nsd/op.c, traces and cleanups;
    - nsd/form.c parses a query string with the decoder of urlencode.c into a set of
      nsd/set.c, the ordered multi-map that also holds header fields;
    - nsd/range.c selects the parts of a file, and nsd/sock.c, nsd/sockfile.c and
      nsd/connio.c send buffers and parts of files; nsd/httptime.c has the dates;
    - nsd/connio.c and nsd/return.c write the header of a response and its body, in one
      piece or in chunks; nsd/cookies.c sets and finds the cookies in header fields;
    - nsd/cache.c is the size-limited cache of files, pages and Tcl values;
    - nsd/sockaddr.c decides which addresses are trusted;
    - nsd/index.c and nsd/dlist.c are containers, nsd/str.c and nsd/dstring.c the string
      routines, nsd/uuencode.c the base64 codec;
    - nsd/sched.c runs procedures at times of nsthread/time.c from a heap of events;
    - nsd/tcljson.c parses and prints JSON for Tcl, nsd/tclcbor.c decodes CBOR;
    - nsd/adpparse.c and adpeval.c parse and run pages with embedded Tcl;
    - nsd/quotehtml.c quotes text for HTML pages, decodes entities and takes pages apart;
    - nsdb/dbinit.c has the pools of database handles that requests use;
    - nsthread/cslock.c, sema.c and rwlock.c are the locks all threads use.

    ** The files

    - Prelude: machine integers, C arrays as lists of cells, the monad [outcome] of code
      that can fault ([Fault]: undefined behaviour) or stop the server ([Fatal]), bytes,
      characters, the tactics [zcases] and [lens], the rewrite database [lens].
    - Time: nsthread/time.c.  [Ns_Time] is the struct, [tval] the microseconds it stands
      for.  Differences and increments are exact on normal times, with one wrong carry
      in [Ns_DiffTime] described exactly; [Ns_RelativeTime] undoes [Ns_AbsoluteTime].
    - HttpTime: nsd/httptime.c.  Dates from 1970 to 9999 are parsed back to the second
      they were printed from; parsing never leaves the string.
    - SendVec: vectors of buffers and of file ranges (nsd/sock.c, nsd/sockfile.c,
      nsd/connio.c).  For all partial writes exactly the bytes of the vectors are sent;
      beyond UIO_MAXIOV buffers the code overruns its window.
    - Cache, CacheLru: nsd/cache.c.  Entries in memory with their links, both tables, the
      size, transactions and waiting.  Refinement of a map with an order of use, the
      invariant of the lists and of the size, bounded size, values freed once.
    - Index: nsd/index.c.  Operations on the element array, against the classes
      [CmpOrder] and [KeyOrder] of comparison functions and [Bsearch] of the C library's
      [bsearch], which the repository's own [NsBsearch] is shown to implement.
      Refinement of a bag; soundness and completeness of the finds.
    - DList: nsd/dlist.c.  Static and heap cells, the capacity policy, the calls of the
      free procedure as a log.  Refinement of a plain list that owns its elements or
      not; two operations that break the list or free twice.
    - Base64: nsd/uuencode.c.  Round trip; the interleavings of concurrent encoders, which
      share a static pointer, as a step relation: safe for one alphabet, not for two.
    - Utf8: the UTF-8 part of nsd/str.c.  [Ns_Valid_UTF8] decides well-formed UTF-8, and
      the word-wise [Ns_Is7bit] equals the byte-wise test.
    - JsonScan, JsonParse: the scanners of nsd/tcljson.c, which work a word at a time, and
      the parser.  JsonGrammar has the grammar of RFC 8259 as relations between texts and
      values (without the unpaired surrogates that its ABNF allows in escapes), the Tcl
      values and limits, and shows that the parser ends; JsonComplete
      that every such text is accepted with its value, JsonSound that what is accepted is
      such a text, up to four bytes that the word-wise test takes for white space.
    - JsonEmit: the printer of nsd/tcljson.c, for Tcl's conversions as the class
      [TclValues].  What was parsed is printed and parsed back; printing stays in bounds.
    - JsonSet: JSON into a set under key paths, equal to flattening the triples; key paths
      and JSON pointers are taken apart into the names they are made of.
    - Str: trimming, search, number parsing and the host header check of nsd/str.c, and
      [Ns_DStringAppendEscaped] of nsd/dstring.c.
    - AcceptEncoding: the Accept-Encoding part of nsd/request.c, on IEEE doubles.  The
      choice is that of a rule on thousandths.
    - Range: nsd/range.c.  Parsing and merging of ranges stays within its arrays and
      covers exactly the requested bytes; with SendVec, from the header field to the socket,
      the reply has these bytes and the length that is announced.
    - Chunked: Content-Length, Transfer-Encoding and [ChunkedDecode] of nsd/driver.c.  The
      decoder works in place, piece by piece; it gives what decoding the whole body at
      once gives, and inverts the encoding.
    - Sockaddr: masks and CIDR strings of nsd/sockaddr.c.  Matching is equality of the
      first bits.
    - UrlTables, UrlEncode: nsd/urlencode.c.  The tables as data; Tcl's character sets as
      the class [TclEncoding].  The pre-sized buffer is filled exactly, decoding inverts
      encoding for all schemes, decoding is total, encoded text is in the right alphabet.
    - NsSet: nsd/set.c.  All strings of a set are in one [Tcl_DString] that may move;
      fields hold addresses.  The class [TclDString] has the buffer operations,
      [TclDStringLaws] what Tcl documents of them.  Refinement of a list of tuples;
      copy, move, merge and truncation; three defects.
    - Header: [Ns_ParseHeader] of nsd/request.c on these sets, refining a list of fields,
      and the check for repeated fields of nsd/driver.c.
    - Path: nsd/pathname.c, the target part of nsd/request.c and the default mapping of
      nsd/url2file.c, without a procedure of the application for the root or the file.  A
      path is a list of names; normalisation is a walk through them, virtual hosts
      stay below their directory; and a target that gets out through a backslash.
    - Url: nsd/url.c and [Ns_HttpParseHost2] of nsd/tclhttp.c.  Absolute URLs are parsed
      to the parts they are printed from; references are resolved.
    - ReqLine: [Ns_ParseRequest] of nsd/request.c.  Every line, with a target of any form, is
      parsed or refused without a fault, and with Path the files of accepted requests without a
      backslash are below the page root; which lines of the origin form are accepted; the
      asterisk form never is.  [RequestParser] is what reading needs of it.
    - SockRead: [EndOfHeader], [SockParse], [SockRead], [RequestFree] of nsd/driver.c and
      [CheckKeep] of nsd/connio.c, for any [RequestParser].
    - Pipeline: reading does not depend on the pieces in which bytes arrive.
    - Requests: messages with Content-Length or without a body, sent one behind the other, are
      read as these messages, up to one behind which the connection is not kept; the framing
      of accepted requests is unambiguous; an empty chunked body is left over.
    - ConnState: the states of a connection as an inductive relation; all are well-formed.
    - Form: [ParseQuery] of nsd/form.c, proved against the theorems of UrlEncode and
      NsSet: a query made of encoded pairs parses into exactly these pairs.
    - Sched: nsd/sched.c.  The heap as an array of addresses of events, the table of ids,
      the operations and the rounds of the scheduler thread; [Calendar] has the C
      library's date functions.  A round runs exactly the due events in time order;
      queuing keeps the heap; and three defects of cancelling, pausing and resuming.
    - UrlSpace, UrlSpaceMap, UrlSpaceGet: nsd/urlspace.c.  A junction with its channels,
      tries and nodes in memory.  Refinement of a table from filters and paths to data;
      searches find the longest path among what matches; two defects.
    - Dispatch: nsd/filter.c, nsd/auth.c, nsd/op.c and [ConnRun] of nsd/queue.c, on a
      connection whose callbacks are the class [Connection], with a log of what is called.
      Nothing runs before it is authorized, cleanups always run; two defects.
    - Procs: the proxy procedures of nsd/op.c with their reference counts, as steps of any
      threads.  Counts are the numbers of references; each is deleted once.
    - Cbor: nsd/tclcbor.c, the encodings of byte strings of nsd/tclobjv.c and
      nsd/tclmisc.c.  The decoder accepts exactly the encodings of items, by a grammar of
      RFC 8949 (integers, strings, arrays, maps, booleans, null and undefined, of definite
      length; tags, floats and the rest are refused), and ends.  Byte strings are encoded in a
      scratch space, behind which base64 writes from 93 bytes on.
    - Locks: nsthread/cslock.c, sema.c and rwlock.c (the lock for platforms without one, not the
      one that wraps that of POSIX), as steps of any threads on condition variables that may wake without a signal: exclusion, counters,
      and no waiting thread is left behind.
    - Output: nsd/connio.c and nsd/return.c.  A streamed response is its header and what was
      written, in chunks that Chunked decodes to it, as it is, or skipped; a kept connection has a framed response; values of
      fields do not split the header; when the array of vectors is too small.
    - Cookies: nsd/cookies.c, on UrlEncode and the output headers of Output.  Cookies that
      are set come back with their values; searching ends on every request.
    - DbPool: the handles of nsdb/dbinit.c, with the condition variables of Locks, as steps
      of any threads.  Handles are with one thread or free, turns are not lost without
      timeouts; two defects.
    - ConnQueue: [NsQueueConn] and [NsConnThread] of nsd/queue.c as steps of any drivers and
      threads.  A connection is in one place, and none is lost without timeouts; two
      races that lose or delay a request.
    - Adp: nsd/adpparse.c, [AdpExec] of nsd/adpeval.c and [NsAdpAppend] of nsd/adpcmds.c; Tcl's
      list elements, lower case and evaluation are parameters.  AdpSafe: the parser ends
      inside of the page, except for one ending of a page, and its blocks fit the text.
      AdpPage: pages made of texts, scripts and tags, by a grammar of items, are parsed to the
      blocks of these items, and running them, one by one or as a single script, is running
      the items; two defects of attributes.
    - HtmlEntities: the tables of entities of nsd/quotehtml.c.  Html: quoting, decoding of
      entities and stripping of tags.  Quoting is undone and leaves no markup, the index of
      the tables finds what a search of all finds, both loops end within the string, and a
      page is stripped to its texts, where a tag ends at its first ">".  HtmlParse: ns_parsehtml.  The elements are the page, and
      tags are parsed to the name and attributes they are printed from.

    ** Conventions

    Functions keep their C names; loops are named after the function ([bin_loop],
    [parse_loop]).  [NULL] results are [None]; an access outside of an array, of a stale
    address or of an indeterminate value is [Fault] (or an outer [None] where a file says
    so), so that "the result is [Ret _]" is memory safety.  Integers that can wrap or be
    cut ([size_t], [unsigned char], the cast to [int]) do so explicitly.  A
    lock-protected operation is one step.

    ** Fuel

    Loops that are not structural take fuel: the length of the input for scans and for
    the loops over ranges, words and chunks (each round consumes a byte), the number of
    cells for binary searches (the interval shrinks), the heap's size for [swim] and
    [sink] (the position is halved or doubled), the number of queued events for a round
    of the scheduler, of entries for pruning and flushing a cache and of tries for
    truncating a junction (each round takes one off), one more than the unread bytes for
    [header_loop] (each round takes a line), the length for [sendfile_loop], 3 n + 3 for
    the JSON parser on n bytes (at most three calls for a byte), twice the nesting of a
    value and one more for printing it, 2 n + 1 for the CBOR decoder on n bytes (a call
    and a round of a loop for a byte), the length of a field for cookies and one more than
    the number of fields for deleting them, 2 n + 2 rounds for a page of n bytes (each moves
    on or starts inline code), n + 1 for its tags and attributes, the length of the string
    for the loops on HTML (one more for quoting and unquoting, which also look at its end), and
    2 n + 1 for [serve] on n bytes (each round receives a byte or takes over what was
    left).  That this is enough is part of the theorems, which state results and not
    only what holds of a result.

    ** What is not modelled

    Poll loops, accepting and closing of sockets, spool files, spooler and writer threads
    and virtual servers of nsd/driver.c, limits and shutdown of thread pools (nsd/queue.c), threads, mutexes and
    condition variables (nsthread/, which wrap those of the platform), TLS, QUIC and
    cryptography, database drivers, most Tcl commands (nsd/tcl*.c), caches and includes of ADP pages, logging, configuration, and
    the loadable modules: they are input and output, calls of libraries that are not part
    of the repository, or glue around the parts above.  Logging inside of modelled
    functions has no effect on their state.  Of the modelled files, what is left are the
    updates of triples and the schemas of nsd/tcljson.c, multipart forms of nsd/form.c,
    compressed output and files as the source of a response in nsd/connio.c, and the
    reference counts of the procedures in the URL space (nsd/op.c). *)

From stdpp Require Export base numbers list sorting strings gmap fin_maps.
From Stdlib Require Export ZArith Lia Sorted.

#[global] Open Scope Z_scope.

(** ** Machine integers *)

Definition SIZE_MAX : Z := 2 ^ 64 - 1.
Definition wrap64 (z : Z) : Z := z mod 2 ^ 64.
Definition in_int64 (z : Z) : Prop := - 2 ^ 63 <= z < 2 ^ 63.

(** ** Case analysis on the boolean comparisons of the source *)

Ltac zcases_step :=
  match goal with
  | |- context [Z.ltb ?a ?b] => destruct (Z.ltb_spec a b)
  | |- context [Z.leb ?a ?b] => destruct (Z.leb_spec a b)
  | |- context [Z.eqb ?a ?b] => destruct (Z.eqb_spec a b)
  | H : context [Z.ltb ?a ?b] |- _ => destruct (Z.ltb_spec a b)
  | H : context [Z.leb ?a ?b] |- _ => destruct (Z.leb_spec a b)
  | H : context [Z.eqb ?a ?b] |- _ => destruct (Z.eqb_spec a b)
  end; cbn [andb orb negb] in *.
Ltac zcases := repeat zcases_step.

(** C's cast to [int]: the low 32 bits, as a signed number. *)
Definition c_int (z : Z) : Z := (z + 2 ^ 31) mod 2 ^ 32 - 2 ^ 31.

Lemma c_int_id z : - 2 ^ 31 <= z < 2 ^ 31 -> c_int z = z.
Proof. intros. unfold c_int. rewrite Z.mod_small; lia. Qed.

(** ** C arrays

    An array is a list of cells; reading or writing outside of it is undefined
    behaviour in C and [None] here, so that "the operation returns [Some _]" is
    memory safety.  A cell of type [option A] models a pointer cell whose
    [None] is NULL or not initialised. *)

Definition aget {A} (a : list A) (i : Z) : option A :=
  if i <? 0 then None else a !! Z.to_nat i.

Definition aset {A} (a : list A) (i : Z) (x : A) : option (list A) :=
  if (0 <=? i) && (i <? Z.of_nat (length a)) then Some (<[Z.to_nat i := x]> a) else None.

Lemma aget_nat {A} (a : list A) (i : nat) : aget a (Z.of_nat i) = a !! i.
Proof. unfold aget. destruct (Z.ltb_spec (Z.of_nat i) 0); [lia|]. by rewrite Nat2Z.id. Qed.

Lemma aget_Some {A} (a : list A) i x : aget a i = Some x -> 0 <= i < Z.of_nat (length a).
Proof.
  unfold aget. destruct (Z.ltb_spec i 0); [done|].
  intros ?%lookup_lt_Some. lia.
Qed.

Lemma aset_nat {A} (a : list A) (i : nat) x :
  (i < length a)%nat -> aset a (Z.of_nat i) x = Some (<[i := x]> a).
Proof.
  intros. unfold aset. destruct (Z.leb_spec 0 (Z.of_nat i)); [|lia].
  destruct (Z.ltb_spec (Z.of_nat i) (Z.of_nat (length a))); [|lia]. by rewrite Nat2Z.id.
Qed.

Lemma aset_None {A} (a : list A) i x : Z.of_nat (length a) <= i -> aset a i x = None.
Proof. intros. unfold aset. destruct (Z.ltb_spec i (Z.of_nat (length a))); [lia|]. by rewrite andb_false_r. Qed.

(** ** Outcomes

    The result of code that can leave the defined part of C ([Fault]: an access
    outside an array or the use of an indeterminate value) or stop the server
    ([Fatal]: a call of [Ns_Fatal]). *)

Inductive outcome (A : Type) := Ret (a : A) | Fault | Fatal.
Arguments Ret {A} _.
Arguments Fault {A}.
Arguments Fatal {A}.

#[export] Instance outcome_ret : MRet outcome := @Ret.
#[export] Instance outcome_bind : MBind outcome := fun A B f m =>
  match m with Ret a => f a | Fault => Fault | Fatal => Fatal end.

(** An array access, with its failure as a fault. *)
Definition checked {A} (o : option A) : outcome A :=
  match o with Some a => Ret a | None => Fault end.

(** [memset], [memcpy] and [memmove] on cells: [afill a i l] writes the cells of
    [l] at [i], [aslice a i k] reads [k] cells from [i]. *)
Definition aslice {A} (a : list A) (i k : Z) : option (list A) :=
  if (0 <=? i) && (0 <=? k) && (i + k <=? Z.of_nat (length a))
  then Some (take (Z.to_nat k) (drop (Z.to_nat i) a)) else None.

Definition afill {A} (a : list A) (i : Z) (l : list A) : option (list A) :=
  if (0 <=? i) && (i + Z.of_nat (length l) <=? Z.of_nat (length a))
  then Some (take (Z.to_nat i) a ++ l ++ drop (Z.to_nat i + length l) a) else None.

Lemma aslice_app {A} (p q s : list A) :
  aslice (p ++ q ++ s) (Z.of_nat (length p)) (Z.of_nat (length q)) = Some q.
Proof.
  unfold aslice. destruct (Z.leb_spec 0 (Z.of_nat (length p))), (Z.leb_spec 0 (Z.of_nat (length q))); try lia.
  destruct (Z.leb_spec (Z.of_nat (length p) + Z.of_nat (length q)) (Z.of_nat (length (p ++ q ++ s))));
    [|rewrite !length_app in *; lia].
  cbn. by rewrite !Nat2Z.id, drop_app_length, take_app_length.
Qed.

Lemma afill_app {A} (p q s l : list A) :
  length l = length q -> afill (p ++ q ++ s) (Z.of_nat (length p)) l = Some (p ++ l ++ s).
Proof.
  intros Hl. unfold afill. destruct (Z.leb_spec 0 (Z.of_nat (length p))); [|lia].
  destruct (Z.leb_spec (Z.of_nat (length p) + Z.of_nat (length l)) (Z.of_nat (length (p ++ q ++ s))));
    [|rewrite !length_app in *; lia].
  cbn. rewrite Nat2Z.id, take_app_length, Hl.
  rewrite <- drop_drop, drop_app_length. by rewrite drop_app_length.
Qed.

Lemma aslice_prefix {A} (q s : list A) k :
  k = Z.of_nat (length q) -> aslice (q ++ s) 0 k = Some q.
Proof. intros ->. apply (aslice_app [] q s). Qed.

Lemma afill_prefix {A} (a l : list A) :
  (length l <= length a)%nat -> afill a 0 l = Some (l ++ drop (length l) a).
Proof.
  intros. rewrite <- (take_drop (length l) a) at 1.
  apply (afill_app [] (take (length l) a) _ l). rewrite length_take. lia.
Qed.

Lemma wrap64_id z : 0 <= z < 2 ^ 64 -> wrap64 z = z.
Proof. apply Z.mod_small. Qed.

Lemma afill_at {A} (p r l : list A) :
  (length l <= length r)%nat -> afill (p ++ r) (Z.of_nat (length p)) l = Some (p ++ l ++ drop (length l) r).
Proof.
  intros. rewrite <- (take_drop (length l) r) at 1. apply afill_app. rewrite length_take. lia.
Qed.

(** ** Lengths

    [lens] closes goals on the lengths of lists built from the usual operations. *)

Create Rewrite HintDb lens.
#[export] Hint Rewrite @length_app @length_fmap @length_replicate @length_take @length_drop
  @length_insert @length_cons @length_reverse @length_nil : lens.
Ltac lens := repeat (autorewrite with lens in *; cbn [length] in * ); lia.

Lemma aset_mid {A} (p : list A) x q v i :
  i = Z.of_nat (length p) -> aset (p ++ x :: q) i v = Some (p ++ v :: q).
Proof. intros ->. rewrite aset_nat by lens. by rewrite insert_app_r_alt, Nat.sub_diag by lia. Qed.

Lemma aget_mid {A} (p : list A) x q i : i = Z.of_nat (length p) -> aget (p ++ x :: q) i = Some x.
Proof. intros ->. rewrite aget_nat. by rewrite lookup_app_r, Nat.sub_diag by lia. Qed.

(** ** Bytes

    A byte is an integer in [0, 256), a C string the list of the bytes before
    its terminating NUL.  [bytes] turns a literal into a list of bytes. *)

Definition bytes (s : string) : list Z :=
  Z.of_nat ∘ Ascii.nat_of_ascii <$> String.list_ascii_of_string s.

Definition is_byte (z : Z) : Prop := 0 <= z < 256.
Definition is_bytes (l : list Z) : Prop := Forall is_byte l.

(** The [UCHAR] cast of the source. *)
Definition UCHAR (z : Z) : Z := z mod 256.

Lemma UCHAR_byte z : is_byte (UCHAR z).
Proof. apply Z.mod_pos_bound. lia. Qed.

Lemma testbit_UCHAR z i : 0 <= i -> Z.testbit (UCHAR z) i = (i <? 8) && Z.testbit z i.
Proof.
  intros. unfold UCHAR. change 256 with (2 ^ 8). destruct (Z.ltb_spec i 8); cbn.
  - apply Z.mod_pow2_bits_low. lia.
  - by apply Z.mod_pow2_bits_high; lia.
Qed.

Lemma byte_high a i : is_byte a -> 8 <= i -> Z.testbit a i = false.
Proof.
  intros [? ?] ?. destruct (decide (a = 0)) as [->|]; [apply Z.bits_0|].
  apply Z.bits_above_log2; [lia|]. apply Z.log2_lt_pow2; [lia|].
  pose proof (Z.pow_le_mono_r 2 8 i ltac:(lia) ltac:(lia)). lia.
Qed.

Lemma byte_of_bits a : 0 <= a -> (forall i, 8 <= i -> Z.testbit a i = false) -> is_byte a.
Proof.
  intros Ha Hb. split; [done|]. rewrite <- (Z.mod_small a (2 ^ 64 * 256 + a + 1)) by lia.
  assert (a mod 2 ^ 8 = a) as <-; [|rewrite Z.mod_small by (split; [apply Z.mod_pos_bound; lia|
    pose proof (Z.mod_pos_bound a (2 ^ 8)); lia]); apply Z.mod_pos_bound; lia].
  apply Z.bits_inj'. intros i Hi. destruct (Z.lt_ge_cases i 8).
  - apply Z.mod_pow2_bits_low. lia.
  - rewrite Z.mod_pow2_bits_high by lia. symmetry. apply Hb. lia.
Qed.

Lemma lor_byte a b : is_byte a -> is_byte b -> is_byte (Z.lor a b).
Proof.
  intros Ha Hb. apply byte_of_bits.
  - apply Z.lor_nonneg. split; [apply Ha|apply Hb].
  - intros i Hi. by rewrite Z.lor_spec, !byte_high.
Qed.

Lemma shiftr_byte a k : is_byte a -> 0 <= k -> is_byte (Z.shiftr a k).
Proof.
  intros [? ?] ?. rewrite Z.shiftr_div_pow2 by done. split; [apply Z.div_pos; lia|].
  apply Z.div_lt_upper_bound; [lia|]. nia.
Qed.

Lemma land_byte a b : is_byte b -> is_byte (Z.land a b).
Proof.
  intros [? ?]. apply byte_of_bits; [apply Z.land_nonneg; auto|].
  intros i Hi. rewrite Z.land_spec, (byte_high b) by done. apply andb_false_r.
Qed.

(** Two bytes with the same eight bits are equal. *)
Lemma byte_ext a b :
  is_byte a -> is_byte b -> (forall i, 0 <= i < 8 -> Z.testbit a i = Z.testbit b i) -> a = b.
Proof.
  intros Ha Hb H. apply Z.bits_inj'. intros i Hi. destruct (Z.lt_ge_cases i 8); [by apply H; lia|].
  by rewrite !byte_high by done.
Qed.

Create Rewrite HintDb bits.
#[export] Hint Rewrite Z.lor_spec Z.land_spec : bits.
#[export] Hint Rewrite testbit_UCHAR Z.shiftr_spec Z.shiftl_spec using lia : bits.

Ltac byte_range :=
  repeat first [assumption | apply UCHAR_byte | apply lor_byte | apply shiftr_byte; [|lia]
    | apply land_byte; unfold is_byte; lia | unfold is_byte; lia].

(** Proves an equality of byte expressions by comparing the eight bits; the bits
    of the variables above the seventh are zero. *)
Ltac bit_consts :=
  repeat match goal with
  | H : is_byte ?a |- context [Z.testbit ?a ?k] => rewrite (byte_high a k H) by (vm_compute; discriminate)
  | |- context [Z.testbit ?a (Zneg ?p)] => rewrite (Z.testbit_neg_r a (Zneg p)) by reflexivity
  end.
Ltac byte_bits :=
  apply byte_ext; [byte_range|byte_range|];
  let i := fresh "i" in let Hi := fresh "Hi" in
  intros i Hi;
  assert (i = 0 \/ i = 1 \/ i = 2 \/ i = 3 \/ i = 4 \/ i = 5 \/ i = 6 \/ i = 7) as Hi' by lia;
  repeat (destruct Hi' as [-> |Hi']); try subst i;
  autorewrite with bits;
  cbn [Z.add Z.sub Z.opp Z.pos_sub Pos.add Pos.succ Pos.pred_double Z.double Z.succ_double Z.pred_double];
  bit_consts; cbn; rewrite ?andb_true_r, ?andb_false_r, ?orb_false_r, ?andb_true_l; try reflexivity.

(** ** Characters

    The [CHARTYPE] and [CHARCONV] macros of the source: C's [isspace], [isupper],
    ... in the C locale, on a byte. *)

Definition isspace (c : Z) : bool := (c =? 32) || ((9 <=? c) && (c <=? 13)).
Definition isupper (c : Z) : bool := (65 <=? c) && (c <=? 90).
Definition islower (c : Z) : bool := (97 <=? c) && (c <=? 122).
Definition isdigit (c : Z) : bool := (48 <=? c) && (c <=? 57).
Definition isalnum (c : Z) : bool := isupper c || islower c || isdigit c.
Definition tolower (c : Z) : Z := if isupper c then c + 32 else c.
Definition toupper (c : Z) : Z := if islower c then c - 32 else c.

(** [strchr]: the text before the first [c] and, if there is one, the text behind it. *)
Fixpoint strchr (c : Z) (l : list Z) : list Z * option (list Z) :=
  match l with
  | [] => ([], None)
  | x :: l => if x =? c then ([], Some l) else let '(p, q) := strchr c l in (x :: p, q)
  end.

Lemma strchr_none c l : Forall (fun x => x <> c) l -> strchr c l = (l, None).
Proof. induction 1 as [|x l Hx _ IH]; [done|]. cbn. destruct (Z.eqb_spec x c); [done|]. by rewrite IH. Qed.

Lemma strchr_app c p q : Forall (fun x => x <> c) p -> strchr c (p ++ c :: q) = (p, Some q).
Proof.
  induction 1 as [|x p Hx _ IH]; cbn; [by rewrite Z.eqb_refl|]. destruct (Z.eqb_spec x c); [done|]. by rewrite IH.
Qed.

(** The C string that starts at the first byte. *)
Fixpoint before_nul (bs : list Z) : list Z :=
  match bs with
  | [] => []
  | b :: bs => if b =? 0 then [] else b :: before_nul bs
  end.

Lemma before_nul_stop s rest : Forall (fun c => c <> 0) s -> before_nul (s ++ 0 :: rest) = s.
Proof. induction 1 as [|c s Hc _ IH]; [done|]. cbn. destruct (Z.eqb_spec c 0); [done|]. by rewrite IH. Qed.

Lemma before_nul_id l : Forall (fun c => c <> 0) l -> before_nul l = l.
Proof. induction 1 as [|c l Hc _ IH]; [done|]. cbn. destruct (Z.eqb_spec c 0); [done|]. by rewrite IH. Qed.

(** ** Formatted numbers

    [printf]'s [%d] and [%u] on numbers that are not negative (20 digits are enough
    for 64 bits), and [%02d]. *)
Fixpoint dec_digits (fuel : nat) (n : Z) (acc : list Z) : list Z :=
  match fuel with
  | O => acc
  | S fuel => if n <? 10 then 48 + n :: acc else dec_digits fuel (n / 10) (48 + n mod 10 :: acc)
  end.
Definition dec (n : Z) : list Z := dec_digits 20 n [].
Definition dec2 (n : Z) : list Z := let l := dec n in replicate (2 - length l) 48 ++ l.

Lemma dec2_spec n : 0 <= n < 100 -> dec2 n = [48 + n / 10; 48 + n mod 10].
Proof.
  intros Hn. unfold dec2, dec. cbn [dec_digits]. destruct (Z.ltb_spec n 10).
  - cbn. by rewrite Z.div_small, Z.mod_small by lia.
  - destruct (Z.ltb_spec (n / 10) 10) as [|Hge]; [done|].
    pose proof (Z.div_lt_upper_bound n 10 10). lia.
Qed.

Lemma isdigit_range c : isdigit c = true <-> 48 <= c <= 57.
Proof. unfold isdigit. zcases; lia. Qed.
