(* ===== verification/Time.v ===== *)
(** * Time: the [Ns_Time] arithmetic of nsthread/time.c.

    A time is a pair of seconds and microseconds.  Negative times are kept in
    sign-magnitude form: the sign is on [sec], and on [usec] only when [sec] is
    zero.  [tval] is the number of microseconds a time stands for and [normal]
    the representation invariant; the theorems relate the field arithmetic of
    the source to integer arithmetic on [tval]. *)

From S2P Require Import Prelude.

(** ** Data and operations *)

Record Ns_Time := mkTime { sec : Z; usec : Z }.

#[export] Instance Ns_Time_eq_dec : EqDecision Ns_Time.
Proof. solve_decision. Defined.

(** C's [/] and [%] truncate towards zero: [Z.quot] and [Z.rem]. *)
Definition Ns_AdjTime (t : Ns_Time) : Ns_Time :=
  if (usec t <? 0) && (0 <? sec t) then
    mkTime (sec t + (Z.quot (usec t) 1000000 - 1))
           (Z.rem (usec t) 1000000 + 1000000)
  else if 1000000 <=? usec t then
    mkTime (sec t + Z.quot (usec t) 1000000) (Z.rem (usec t) 1000000)
  else t.

(** The first step of [Ns_DiffTime]: the magnitude and the sign of a time
    ([t0p], [t0pos] and [t1p], [t1pos] in the source). *)
Definition magnitude (t : Ns_Time) : Ns_Time * bool :=
  if sec t <? 0 then (mkTime (- sec t) (usec t), false)
  else if (sec t =? 0) && (usec t <? 0) then (mkTime (- sec t) (- usec t), false)
  else (mkTime (sec t) (usec t), true).

(** The [isNegative] comparison of the two subtracting branches. *)
Definition mag_lt (a b : Ns_Time) : bool :=
  (sec a <? sec b) || ((sec a =? sec b) && (usec a <? usec b)).

(** The [if (subtract)] branch, on the chosen [t1Ptr] and [t0Ptr]. *)
Definition mag_sub (t1 t0 : Ns_Time) : Ns_Time :=
  if usec t0 <=? usec t1 then mkTime (sec t1 - sec t0) (usec t1 - usec t0)
  else
    let s := sec t1 - sec t0 - 1 in
    if s <? 0 then mkTime (sec t0 - sec t1) (usec t0 - usec t1)
    else mkTime s (1000000 + usec t1 - usec t0).

(** The result is the returned ordering and the contents of [*diffPtr]. *)
Definition Ns_DiffTime (t1 t0 : Ns_Time) : Z * Ns_Time :=
  let '(t0p, t0pos) := magnitude t0 in
  let '(t1p, t1pos) := magnitude t1 in
  let '(d, isNegative) :=
    if t1pos then
      if t0pos then
        if mag_lt t1p t0p then (mag_sub t0p t1p, true) else (mag_sub t1p t0p, false)
      else (mkTime (sec t0p + sec t1p) (usec t0p + usec t1p), false)
    else
      if t0pos then (mkTime (sec t0p + sec t1p) (usec t0p + usec t1p), true)
      else
        if mag_lt t0p t1p then (mag_sub t1p t0p, true) else (mag_sub t0p t1p, false) in
  let d := if isNegative then
             if sec d =? 0 then mkTime (sec d) (- usec d) else mkTime (- sec d) (usec d)
           else d in
  let d := Ns_AdjTime d in
  (if sec d <? 0 then -1
   else if (sec d =? 0) && (usec d =? 0) then 0
   else if (sec d =? 0) && (usec d <? 0) then -1
   else 1, d).

(** A negative increment is reported on stderr and ignored. *)
Definition Ns_IncrTime (t : Ns_Time) (s us : Z) : Ns_Time :=
  if (us <? 0) || (s <? 0) then t
  else Ns_AdjTime (mkTime (sec t + s) (usec t + us)).

(** [now] is what [Ns_GetTime] delivers; [None] is the NULL pointer. *)
Definition Ns_AbsoluteTime (now : Ns_Time) (adj : option Ns_Time) : option Ns_Time :=
  match adj with
  | Some a => if sec a <? 1000000000 then Some (Ns_IncrTime now (sec a) (usec a)) else Some a
  | None => None
  end.

Definition Ns_RelativeTime (now : Ns_Time) (abs : option Ns_Time) : option Ns_Time :=
  match abs with
  | Some a => if 1000000000 <? sec a then Some (Ns_DiffTime a now).2 else Some a
  | None => None
  end.

Definition Ns_TimeToMilliseconds (t : Ns_Time) : Z :=
  let r := if 0 <=? sec t then sec t * 1000 + Z.quot (usec t) 1000
           else sec t * 1000 - Z.quot (usec t) 1000 in
  if (r =? 0) && (sec t =? 0) && negb (usec t =? 0) then 1 else r.

(** ** Meaning and invariant *)

Definition tval (t : Ns_Time) : Z :=
  if sec t <? 0 then sec t * 1000000 - usec t else sec t * 1000000 + usec t.

Definition normal (t : Ns_Time) : Prop :=
  -1000000 < usec t < 1000000 /\ (usec t < 0 -> sec t = 0).

(** The carry of [Ns_DiffTime] that its [NEG - POS] branch mishandles: the
    microseconds of a negative [t1] and a positive [t0] add up to a second or
    more while the sum of their seconds is not zero. *)
Definition neg_pos_carry (t1 t0 : Ns_Time) : Prop :=
  tval t1 < 0 /\ 0 <= tval t0 /\
  1000000 <= Z.abs (usec t1) + usec t0 /\ sec t1 - sec t0 <> 0.

Ltac time_unfold :=
  unfold Ns_DiffTime, Ns_IncrTime, Ns_TimeToMilliseconds, magnitude, mag_lt, mag_sub,
    Ns_AdjTime, tval, normal, neg_pos_carry in *; cbn [sec usec fst snd] in *.
(** Evaluates the innermost comparison first, and drops impossible cases. *)
Ltac tcase :=
  repeat (match goal with
  | |- context [Z.ltb ?a ?b] => destruct (Z.ltb_spec a b)
  | |- context [Z.leb ?a ?b] => destruct (Z.leb_spec a b)
  | |- context [Z.eqb ?a ?b] => destruct (Z.eqb_spec a b)
  end; cbn [andb orb negb sec usec fst snd] in *; try (exfalso; lia)).

Lemma normal_inj t u : normal t -> normal u -> tval t = tval u -> t = u.
Proof.
  destruct t as [s us], u as [s' us']; time_unfold; intros.
  assert (s = s' /\ us = us') as [-> ->]; [|done].
  revert H1; tcase; lia.
Qed.

Lemma AdjTime_nonneg t :
  0 <= usec t -> 0 <= sec t ->
  normal (Ns_AdjTime t) /\ tval (Ns_AdjTime t) = tval t /\ 0 <= sec (Ns_AdjTime t).
Proof.
  destruct t as [s us]; time_unfold; intros.
  pose proof (Z.quot_rem' us 1000000). pose proof (Z.rem_bound_pos us 1000000).
  pose proof (Z.quot_pos us 1000000).
  tcase; repeat split; lia.
Qed.

Lemma AdjTime_id t : usec t < 1000000 -> (usec t < 0 -> sec t <= 0) -> Ns_AdjTime t = t.
Proof. destruct t as [s us]; time_unfold; intros. tcase; try lia; done. Qed.

(** ** Supporting lemmas *)

(** A magnitude: both fields non-negative, [usec] below a second. *)
Definition mag (m : Ns_Time) : Prop := 0 <= sec m /\ 0 <= usec m < 1000000.
Definition mval (m : Ns_Time) : Z := sec m * 1000000 + usec m.

Lemma magnitude_spec t :
  normal t ->
  mag (magnitude t).1 /\
  tval t = (if (magnitude t).2 then mval (magnitude t).1 else - mval (magnitude t).1) /\
  ((magnitude t).2 = false -> 0 < mval (magnitude t).1) /\
  usec (magnitude t).1 = Z.abs (usec t) /\ sec (magnitude t).1 = Z.abs (sec t).
Proof.
  destruct t as [s us]; unfold mag, mval; time_unfold; intros.
  tcase; repeat split; try discriminate; lia.
Qed.

Lemma mag_sub_spec a b :
  mag a -> mag b -> mag_lt a b = false ->
  mag (mag_sub a b) /\ mval (mag_sub a b) = mval a - mval b.
Proof.
  destruct a as [s us], b as [s' us']; unfold mag, mval; time_unfold.
  intros Ha Hb; tcase; try discriminate; intros _; repeat split; lia.
Qed.

Lemma mag_lt_spec a b : mag a -> mag b -> mag_lt a b = (mval a <? mval b).
Proof.
  destruct a as [s us], b as [s' us']; unfold mag, mval; time_unfold; intros; tcase; lia.
Qed.

(** The order code that [Ns_DiffTime] returns, as a function of the result. *)
Definition order_code (d : Ns_Time) : Z :=
  if sec d <? 0 then -1
  else if (sec d =? 0) && (usec d =? 0) then 0
  else if (sec d =? 0) && (usec d <? 0) then -1
  else 1.

(** The end of [Ns_DiffTime]: sign, normalisation, order code. *)
Definition settle (d : Ns_Time) (isNegative : bool) : Z * Ns_Time :=
  let d := if isNegative then
             if sec d =? 0 then mkTime (sec d) (- usec d) else mkTime (- sec d) (usec d)
           else d in
  (order_code (Ns_AdjTime d), Ns_AdjTime d).

Lemma order_code_sgn d :
  (usec d < 0 -> sec d = 0) -> (sec d < 0 -> usec d < 1000000) ->
  order_code d = Z.sgn (tval d).
Proof. destruct d as [s us]; unfold order_code; time_unfold; intros; tcase; lia. Qed.

Lemma settle_pos d :
  0 <= sec d -> 0 <= usec d ->
  (settle d false).1 = Z.sgn (mval d) /\
  tval (settle d false).2 = mval d /\ normal (settle d false).2.
Proof.
  intros Hs Hu. unfold settle; cbn [fst snd].
  destruct (AdjTime_nonneg d) as (Hn & Hv & ?); [done..|].
  assert (tval d = mval d) as Hd by (unfold tval, mval; tcase; lia).
  rewrite order_code_sgn by (destruct Hn; lia).
  rewrite Hv, Hd; auto.
Qed.

Lemma settle_neg d :
  mag d ->
  (settle d true).1 = - Z.sgn (mval d) /\
  tval (settle d true).2 = - mval d /\ normal (settle d true).2.
Proof.
  destruct d as [s us]; unfold settle, order_code, mag, mval; time_unfold.
  intros ?; tcase; repeat split; lia.
Qed.

Lemma DiffTime_settle t1 t0 :
  normal t1 -> normal t0 ->
  exists d neg, Ns_DiffTime t1 t0 = settle d neg /\
    tval t1 - tval t0 = (if neg then - mval d else mval d) /\
    0 <= sec d /\ 0 <= usec d /\
    (neg = true -> (mag d /\ ~ (tval t1 < 0 /\ 0 <= tval t0)) \/
       (tval t1 < 0 /\ 0 <= tval t0 /\
        d = mkTime (Z.abs (sec t0) + Z.abs (sec t1)) (Z.abs (usec t0) + Z.abs (usec t1)))).
Proof.
  intros N1 N0. unfold Ns_DiffTime, settle.
  destruct (magnitude_spec t1 N1) as (M1 & V1 & P1 & U1 & S1).
  destruct (magnitude_spec t0 N0) as (M0 & V0 & P0 & U0 & S0).
  destruct (magnitude t0) as [m0 p0], (magnitude t1) as [m1 p1]; cbn [fst snd] in *.
  destruct p1, p0; rewrite V1, V0.
  - destruct (mag_lt m1 m0) eqn:E.
    + exists (mag_sub m0 m1), true. destruct (mag_sub_spec m0 m1) as [Hm Hv]; [done..| |].
      { rewrite mag_lt_spec in * by done. lia. }
      repeat split; try reflexivity; [lia|apply Hm|apply Hm|].
      intros _; left; split; [done|]. unfold mag, mval in *; lia.
    + exists (mag_sub m1 m0), false. destruct (mag_sub_spec m1 m0) as [Hm Hv]; [done..|].
      repeat split; try reflexivity; [lia|apply Hm|apply Hm|congruence].
  - eexists (mkTime _ _), false; repeat split; try reflexivity;
      unfold mag, mval in *; cbn [sec usec] in *; lia || congruence.
  - eexists (mkTime _ _), true; repeat split; try reflexivity;
      unfold mag, mval in *; cbn [sec usec] in *; try lia.
    intros _; right. specialize (P1 eq_refl). repeat split; try lia. congruence.
  - destruct (mag_lt m0 m1) eqn:E.
    + exists (mag_sub m1 m0), true. destruct (mag_sub_spec m1 m0) as [Hm Hv]; [done..| |].
      { rewrite mag_lt_spec in * by done. lia. }
      repeat split; try reflexivity; [lia|apply Hm|apply Hm|].
      intros _; left; split; [done|]. specialize (P0 eq_refl). lia.
    + exists (mag_sub m0 m1), false. destruct (mag_sub_spec m0 m1) as [Hm Hv]; [done..|].
      repeat split; try reflexivity; [lia|apply Hm|apply Hm|congruence].
Qed.

(** On times that are not negative the comparison is exact: the form in which
    the cache, the scheduler and the locks use it. *)
Lemma DiffTime_order t1 t0 :
  normal t1 -> normal t0 -> 0 <= tval t1 ->
  (Ns_DiffTime t1 t0).1 = Z.sgn (tval t1 - tval t0) /\
  tval (Ns_DiffTime t1 t0).2 = tval t1 - tval t0 /\ normal (Ns_DiffTime t1 t0).2.
Proof.
  intros N1 N0 P1. destruct (DiffTime_settle t1 t0 N1 N0) as (d & neg & -> & V & Hs & Hu & Hneg).
  destruct neg; rewrite V.
  - destruct (Hneg eq_refl) as [[Hm _]|]; [|lia].
    destruct (settle_neg d Hm) as (-> & -> & ?). split; [lia|done].
  - destruct (settle_pos d Hs Hu) as (-> & -> & ?); done.
Qed.

Lemma IncrTime_val t s us :
  normal t -> 0 <= tval t -> 0 <= s -> 0 <= us ->
  tval (Ns_IncrTime t s us) = tval t + s * 1000000 + us /\ normal (Ns_IncrTime t s us).
Proof.
  intros Hn Hp Hs Hu. unfold Ns_IncrTime.
  destruct (Z.ltb_spec us 0), (Z.ltb_spec s 0); try lia; cbn [orb].
  assert (0 <= usec t /\ 0 <= sec t) by (destruct t; time_unfold; revert Hp; tcase; lia).
  destruct (AdjTime_nonneg (mkTime (sec t + s) (usec t + us))) as (? & -> & _); cbn [sec usec]; [lia..|].
  split; [|done]. destruct t; time_unfold; tcase; lia.
Qed.

Lemma neg_zero_carry t1 t0 :
  normal t1 -> normal t0 -> ~ neg_pos_carry t1 t0 -> tval t1 < 0 -> 0 <= tval t0 ->
  1000000 <= Z.abs (usec t0) + Z.abs (usec t1) -> sec t1 = 0 /\ sec t0 = 0.
Proof.
  destruct t1 as [s1 u1], t0 as [s0 u0]. intros N1 N0 Hc T1 T0 Hu.
  unfold neg_pos_carry, normal in *; cbn [sec usec] in *.
  assert (s1 - s0 = 0) by (destruct (Z.eq_dec (s1 - s0) 0); [done|];
    exfalso; apply Hc; repeat split; try done; unfold tval in *; cbn [sec usec] in *; revert T0; tcase; lia).
  unfold tval in *; cbn [sec usec] in *; revert T0 T1; tcase; lia.
Qed.

(** ** Theorems *)

(** [Ns_DiffTime] computes the signed difference of two times and returns its
    sign, on all normal inputs except the carry of the [NEG - POS] branch; the
    difference is again normal when the microseconds do not add up to a second. *)
Theorem DiffTime_correct t1 t0 :
  normal t1 -> normal t0 -> ~ neg_pos_carry t1 t0 ->
  (Ns_DiffTime t1 t0).1 = Z.sgn (tval t1 - tval t0) /\
  tval (Ns_DiffTime t1 t0).2 = tval t1 - tval t0 /\
  (Z.abs (usec t1) + Z.abs (usec t0) < 1000000 -> normal (Ns_DiffTime t1 t0).2).
Proof.
  intros N1 N0 Hc. destruct (DiffTime_settle t1 t0 N1 N0) as (d & neg & -> & V & Hs & Hu & Hneg).
  destruct neg; rewrite V.
  - destruct (Hneg eq_refl) as [[Hm _]|(T1 & T0 & ->)].
    + destruct (settle_neg d Hm) as (-> & -> & ?). split; [lia|done].
    + clear Hneg. destruct (Z.lt_ge_cases (Z.abs (usec t0) + Z.abs (usec t1)) 1000000) as [Hl|Hg].
      * edestruct settle_neg as (-> & -> & ?); [|split; [lia|done]]. by split; cbn; lia.
      * destruct (neg_zero_carry t1 t0) as [E1 E0]; [done..|]. destruct t1, t0; cbn in *; subst.
        unfold settle, order_code, mval; time_unfold. tcase; repeat split; lia.
  - destruct (settle_pos d Hs Hu) as (-> & -> & ?); done.
Qed.

Lemma DiffTime_correct_witness :
  (Ns_DiffTime (mkTime (-1) 500000) (mkTime 10 250000)).1 = -1 /\
  tval (Ns_DiffTime (mkTime (-1) 500000) (mkTime 10 250000)).2 = -11750000.
Proof.
  destruct (DiffTime_correct (mkTime (-1) 500000) (mkTime 10 250000)) as (H1 & H2 & _).
  - split; cbn; lia.
  - split; cbn; lia.
  - unfold neg_pos_carry; cbn; lia.
  - rewrite H1, H2. split; reflexivity.
Defined.

(** In the excluded case the code is wrong: [Ns_AdjTime] adds the carried second
    to the already negated seconds, so the magnitude shrinks instead of growing,
    and when the seconds add up to one the order code comes out positive although
    [t1] is before [t0]. *)
Theorem DiffTime_neg_pos_carry_wrong t1 t0 :
  normal t1 -> normal t0 -> neg_pos_carry t1 t0 ->
  (Ns_DiffTime t1 t0).2 =
    mkTime (sec t1 - sec t0 + 1) (Z.abs (usec t1) + usec t0 - 1000000) /\
  tval t1 - tval t0 < tval (Ns_DiffTime t1 t0).2 /\
  (sec t0 - sec t1 = 1 -> 1000000 < Z.abs (usec t1) + usec t0 -> (Ns_DiffTime t1 t0).1 = 1).
Proof.
  intros N1 N0 Hc. destruct (DiffTime_settle t1 t0 N1 N0) as (d & neg & -> & V & Hs & Hu & Hneg).
  destruct neg; [|exfalso; unfold neg_pos_carry, mval in *; lia].
  destruct (Hneg eq_refl) as [[_ Hn]|(T1 & T0 & ->)]; [by destruct Hn; split; apply Hc|].
  clear Hneg. destruct t1 as [s1 u1], t0 as [s0 u0].
    unfold settle, order_code, mval in *; time_unfold.
    assert (1 * 1000000 <= Z.abs u0 + Z.abs u1 < 2 * 1000000) as Hr by lia.
    assert (Z.quot (Z.abs u0 + Z.abs u1) 1000000 = 1) as Hq
      by (rewrite Z.quot_div_nonneg by lia; symmetry; apply Z.div_unique with (Z.abs u0 + Z.abs u1 - 1000000); lia).
    pose proof (Z.quot_rem' (Z.abs u0 + Z.abs u1) 1000000) as Hqr. rewrite Hq in Hqr.
    revert Hc T1 T0 V; tcase; intros; try rewrite Hq; repeat split; try f_equal; try lia.
Qed.

Lemma DiffTime_neg_pos_carry_wrong_witness :
  tval (mkTime 0 (-600000)) < tval (mkTime 1 600000) /\
  (Ns_DiffTime (mkTime 0 (-600000)) (mkTime 1 600000)).1 = 1.
Proof.
  destruct (DiffTime_neg_pos_carry_wrong (mkTime 0 (-600000)) (mkTime 1 600000)) as (_ & _ & H).
  - split; cbn; lia.
  - split; cbn; lia.
  - unfold neg_pos_carry; cbn; lia.
  - split; [cbn; lia|]. apply H; cbn; lia.
Defined.

(** [Ns_RelativeTime] undoes [Ns_AbsoluteTime]: an interval made absolute and
    then relative, at one reading of the clock, is the interval again. *)
Theorem Relative_Absolute_roundtrip now adj :
  normal now -> 1000000000 < sec now ->
  normal adj -> 0 <= tval adj -> sec adj < 1000000000 ->
  Ns_RelativeTime now (Ns_AbsoluteTime now (Some adj)) = Some adj.
Proof.
  intros Nn Hnow Na Hpos Hsm. unfold Ns_AbsoluteTime.
  destruct (Z.ltb_spec (sec adj) 1000000000); [|lia]. cbn.
  assert (0 <= sec adj /\ 0 <= usec adj /\ tval adj = sec adj * 1000000 + usec adj) as (? & ? & Ha)
    by (destruct adj; time_unfold; revert Hpos; tcase; lia).
  assert (1000000000000000 < tval now) by (destruct now; time_unfold; tcase; lia).
  destruct (IncrTime_val now (sec adj) (usec adj)) as [Hv Hn]; [done|lia..|].
  set (abs := Ns_IncrTime now (sec adj) (usec adj)) in *.
  assert (1000000000 < sec abs) as Hb.
  { unfold abs, Ns_IncrTime. destruct (Z.ltb_spec (usec adj) 0), (Z.ltb_spec (sec adj) 0); cbn [orb]; try lia.
    destruct now; time_unfold; tcase; try lia.
    pose proof (Z.quot_pos (usec0 + usec adj) 1000000). lia. }
  destruct (Z.ltb_spec 1000000000 (sec abs)); [|lia]. f_equal.
  destruct (DiffTime_order abs now) as (_ & Hd & Hdn); [done..|lia|].
  apply normal_inj; [done..|]. lia.
Qed.

Lemma Relative_Absolute_roundtrip_witness :
  Ns_RelativeTime (mkTime 1700000000 900000)
    (Ns_AbsoluteTime (mkTime 1700000000 900000) (Some (mkTime 300 200000))) = Some (mkTime 300 200000).
Proof.
  apply (Relative_Absolute_roundtrip (mkTime 1700000000 900000) (mkTime 300 200000));
    try (split; cbn; lia); vm_compute; done.
Defined.

(** [Ns_TimeToMilliseconds] is zero for the zero time only, and otherwise the
    number of whole milliseconds towards zero, rounded up to one when that is
    zero; a time and its milliseconds agree up to one millisecond. *)
Theorem TimeToMilliseconds_spec t :
  normal t ->
  (Ns_TimeToMilliseconds t = 0 <-> t = mkTime 0 0) /\
  (Ns_TimeToMilliseconds t = Z.quot (tval t) 1000 \/
   (Ns_TimeToMilliseconds t = 1 /\ Z.abs (tval t) < 1000)).
Proof.
  destruct t as [s us]; intros Hn; time_unfold.
  pose proof (Z.quot_rem' us 1000) as Hq.
  assert (-1000 < Z.rem us 1000 < 1000) as Hr by (pose proof (Z.rem_bound_abs us 1000); lia).
  assert (0 <= us -> 0 <= Z.rem us 1000) by (intros; apply Z.rem_nonneg; lia).
  assert (us <= 0 -> Z.rem us 1000 <= 0) by (intros; apply Z.rem_nonpos; lia).
  assert (0 <= s -> 0 <= us \/ s = 0 -> Z.quot (s * 1000000 + us) 1000 = s * 1000 + Z.quot us 1000) as Hp.
  { intros ? [?| ->]; [|by rewrite !Z.mul_0_l, !Z.add_0_l].
    rewrite !Z.quot_div_nonneg by lia. rewrite Z.add_comm.
    replace (s * 1000000) with (s * 1000 * 1000) by lia. rewrite Z.div_add by lia. lia. }
  assert (s < 0 -> 0 <= us -> Z.quot (s * 1000000 - us) 1000 = s * 1000 - Z.quot us 1000) as Hm.
  { intros. replace (s * 1000000 - us) with (- ((- s) * 1000 * 1000 + us)) by lia.
    rewrite Z.quot_opp_l, !Z.quot_div_nonneg by lia.
    rewrite Z.add_comm, Z.div_add by lia. lia. }
  split.
  - split; [|intros [= -> ->]; reflexivity].
    tcase; intros; assert (s = 0 /\ us = 0) as [-> ->]; try done; lia.
  - tcase; try (right; split; lia); left; rewrite ?Hp, ?Hm by lia; lia.
Qed.

Lemma TimeToMilliseconds_spec_witness : Ns_TimeToMilliseconds (mkTime 0 7) <> 0.
Proof.
  destruct (TimeToMilliseconds_spec (mkTime 0 7)) as [H _]; [split; cbn; lia|].
  intros E. apply H in E. discriminate.
Defined.
