(* ===== verification/HttpTime.v ===== *)
(** * HttpTime: HTTP dates, nsd/httptime.c.

    [Ns_HttpTime] prints a time as an RFC 1123 date and [Ns_ParseHttpTime] reads the
    three date formats of HTTP.  The calendar functions of the C library, [gmtime]
    and [timegm], are written out for the proleptic Gregorian calendar; a read
    behind the terminating NUL of a string is [None]. *)

From S2P Require Import Prelude.

(** ** The calendar of the C library *)

Record tm := mkTm {
  tm_year : Z;  (* years since 1900 *)
  tm_mon : Z;   (* 0 .. 11 *)
  tm_mday : Z;
  tm_hour : Z;
  tm_min : Z;
  tm_sec : Z;
  tm_wday : Z   (* 0: Sunday *)
}.

(** Days since 1970-01-01, in years that start in March and eras of 400 years. *)
Definition days_before_month (mp : Z) : Z := (153 * mp + 2) / 5.
Definition days_of_era (yoe : Z) : Z := 365 * yoe + yoe / 4 - yoe / 100.

Definition days_from_civil (year mon mday : Z) : Z :=
  let y := if mon <=? 2 then year - 1 else year in
  let mp := if 2 <? mon then mon - 3 else mon + 9 in
  (y / 400) * 146097 + days_of_era (y mod 400) + (days_before_month mp + mday - 1) - 719468.

Definition civil_from_days (days : Z) : Z * Z * Z :=
  let z := days + 719468 in
  let era := z / 146097 in
  let doe := z mod 146097 in
  let yoe := (doe - doe / 1460 + doe / 36524 - doe / 146096) / 365 in
  let doy := doe - days_of_era yoe in
  let mp := (5 * doy + 2) / 153 in
  let mday := doy - days_before_month mp + 1 in
  let mon := if mp <? 10 then mp + 3 else mp - 9 in
  let year := yoe + era * 400 in
  (if mon <=? 2 then year + 1 else year, mon, mday).

Definition gmtime (t : Z) : tm :=
  let days := t / 86400 in
  let secs := t mod 86400 in
  let '(year, mon, mday) := civil_from_days days in
  mkTm (year - 1900) (mon - 1) mday (secs / 3600) (secs / 60 mod 60) (secs mod 60) ((days + 4) mod 7).

Definition timegm (i : tm) : Z :=
  days_from_civil (tm_year i + 1900) (tm_mon i + 1) (tm_mday i) * 86400
  + tm_hour i * 3600 + tm_min i * 60 + tm_sec i.

(** ** The operations of the source *)

Definition month_names : list (list Z) :=
  bytes <$> ["Jan"; "Feb"; "Mar"; "Apr"; "May"; "Jun"; "Jul"; "Aug"; "Sep"; "Oct"; "Nov"; "Dec"]%string.
Definition week_names : list (list Z) :=
  bytes <$> ["Sun"; "Mon"; "Tue"; "Wed"; "Thu"; "Fri"; "Sat"]%string.

(** An index outside of the name tables is [None]. *)
Definition Ns_HttpTime (when : Z) : option (list Z) :=
  let i := gmtime when in
  wd ← aget week_names (tm_wday i);
  mo ← aget month_names (tm_mon i);
  Some (wd ++ bytes ", " ++ dec2 (tm_mday i) ++ bytes " " ++ mo ++ bytes " " ++ dec (tm_year i + 1900)
    ++ bytes " " ++ dec2 (tm_hour i) ++ bytes ":" ++ dec2 (tm_min i) ++ bytes ":" ++ dec2 (tm_sec i)
    ++ bytes " GMT").

(** The character at [s + i], the terminating NUL included. *)
Definition char_at (s : list Z) (i : Z) : option Z := aget (s ++ [0]) i.

Definition MakeNum (s : list Z) (i : Z) : option Z :=
  a ← char_at s i;
  b ← char_at s (i + 1);
  Some (if isdigit a then 10 * (UCHAR a - 48) + (UCHAR b - 48) else UCHAR b - 48).

(** [strncasecmp(name, s, 3) == 0] for a name of three letters: the comparison ends
    at the first difference, hence at the end of [s] at the latest. *)
Fixpoint strncaseeq (name s : list Z) : bool :=
  match name, s with
  | [], _ => true
  | x :: name, y :: s => (tolower x =? tolower y) && strncaseeq name s
  | _ :: _, [] => false
  end.

Fixpoint month_loop (names : list (list Z)) (i : Z) (s : list Z) : Z :=
  match names with
  | [] => 0
  | name :: names => if strncaseeq name s then i else month_loop names (i + 1) s
  end.
Definition MakeMonth (s : list Z) (i : Z) : Z := month_loop month_names 0 (drop (Z.to_nat i) s).

Fixpoint skip_spaces (s : list Z) : list Z :=
  match s with
  | c :: rest => if c =? 32 then skip_spaces rest else s
  | [] => []
  end.

(** The fields at the given offsets of [s]. *)
Definition fields (s : list Z) (mday mon : Z) (year : option Z) (hour min sec : Z) : option tm :=
  d ← MakeNum s mday;
  y ← year;
  h ← MakeNum s hour;
  mi ← MakeNum s min;
  se ← MakeNum s sec;
  Some (mkTm y (MakeMonth s mon) d h mi se 0).

Definition parse_fields (chars : list Z) : option (option tm) :=
  match strchr 44 chars with
  | (_, Some s) =>
      let s := skip_spaces s in
      match (strchr 45 s).2 with
      | Some _ =>
          if Z.of_nat (length s) <? 18 then Some None
          else Some <$> fields s 0 3 (MakeNum s 7) 10 13 16
      | None =>
          if c_int (Z.of_nat (length s)) <? 20 then Some None
          else Some <$> fields s 0 3 (c ← MakeNum s 7; y ← MakeNum s 9; Some (100 * c - 1900 + y)) 12 15 18
      end
  | (_, None) =>
      let s := skip_spaces chars in
      if c_int (Z.of_nat (length s)) <? 24 then Some None
      else Some <$> fields s 8 4 (MakeNum s 22) 11 14 17
  end.

Definition possible (i : tm) : bool :=
  negb ((tm_sec i <? 0) || (59 <? tm_sec i) || (tm_min i <? 0) || (59 <? tm_min i)
     || (tm_hour i <? 0) || (23 <? tm_hour i) || (tm_mday i <? 1) || (31 <? tm_mday i)
     || (tm_mon i <? 0) || (11 <? tm_mon i) || (tm_year i <? 70)).

Definition Ns_ParseHttpTime (chars : list Z) : option Z :=
  r ← parse_fields chars;
  Some (match r with
        | None => 0
        | Some i => if possible i then timegm i else 0
        end).

(** ** Lemmas *)

Lemma era_bounds doe :
  0 <= doe < 146097 ->
  let yoe := (doe - doe / 1460 + doe / 36524 - doe / 146096) / 365 in
  0 <= yoe <= 399 /\ 0 <= doe - days_of_era yoe <= 365.
Proof.
  intros H yoe. subst yoe. unfold days_of_era. Z.to_euclidean_division_equations. lia.
Qed.

Lemma month_bounds doy :
  0 <= doy <= 365 ->
  let mp := (5 * doy + 2) / 153 in
  0 <= mp <= 11 /\ 1 <= doy - days_before_month mp + 1 <= 31.
Proof. intros H mp. subst mp. unfold days_before_month. Z.to_euclidean_division_equations. lia. Qed.

(** [gmtime]'s date of a day, and back. *)
Lemma civil_from_days_spec days :
  let '(year, mon, mday) := civil_from_days days in
  1 <= mon <= 12 /\ 1 <= mday <= 31 /\ days_from_civil year mon mday = days.
Proof.
  unfold civil_from_days. set (z := days + 719468).
  pose proof (Z.mod_pos_bound z 146097 ltac:(lia)) as Hdoe.
  pose proof (Z.div_mod z 146097 ltac:(lia)) as Hz.
  set (doe := z mod 146097) in *. set (era := z / 146097) in *.
  destruct (era_bounds doe Hdoe) as [Hy Hd]. cbv zeta in Hy, Hd.
  set (yoe := (doe - doe / 1460 + doe / 36524 - doe / 146096) / 365) in *.
  set (doy := doe - days_of_era yoe) in *.
  destruct (month_bounds doy Hd) as [Hm Hday]. cbv zeta in Hm, Hday.
  set (mp := (5 * doy + 2) / 153) in *. set (mday := doy - days_before_month mp + 1) in *.
  assert (Hera : forall e, (yoe + e * 400) / 400 = e /\ (yoe + e * 400) mod 400 = yoe).
  { intros e. rewrite Z.div_add, Z.mod_add, Z.div_small, Z.mod_small by lia. lia. }
  unfold days_from_civil.
  destruct (Z.ltb_spec mp 10).
  - destruct (Z.leb_spec (mp + 3) 2), (Z.ltb_spec 2 (mp + 3)); try lia.
    replace (mp + 3 - 3) with mp by lia. destruct (Hera era) as [-> ->]. subst mday doy z. lia.
  - destruct (Z.leb_spec (mp - 9) 2), (Z.ltb_spec 2 (mp - 9)); try lia.
    replace (mp - 9 + 9) with mp by lia. replace (yoe + era * 400 + 1 - 1) with (yoe + era * 400) by lia.
    destruct (Hera era) as [-> ->]. subst mday doy z. lia.
Qed.

(** The years of the days from 1970-01-01 to 9999-12-31. *)
Lemma civil_year days :
  0 <= days < 2932897 -> let '(year, _, _) := civil_from_days days in 1970 <= year <= 9999.
Proof.
  intros H. unfold civil_from_days. set (z := days + 719468).
  pose proof (Z.mod_pos_bound z 146097 ltac:(lia)) as Hdoe.
  pose proof (Z.div_mod z 146097 ltac:(lia)) as Hz.
  assert (Hera : 4 <= z / 146097 <= 24) by (Z.to_euclidean_division_equations; lia).
  set (doe := z mod 146097) in *. set (era := z / 146097) in *. clearbody doe era. subst z.
  destruct (era_bounds doe Hdoe) as [Hy Hd]. cbv zeta in Hy, Hd.
  set (yoe := (doe - doe / 1460 + doe / 36524 - doe / 146096) / 365) in *.
  set (doy := doe - days_of_era yoe) in *.
  destruct (month_bounds doy Hd) as [Hm Hday]. cbv zeta in Hm, Hday.
  set (mp := (5 * doy + 2) / 153) in *.
  assert (Hlow : era = 4 -> 369 <= yoe /\ (yoe = 369 -> 10 <= mp)).
  { intros He. assert (135080 <= doe) by lia. split; [subst yoe; Z.to_euclidean_division_equations; lia|].
    intros H9. subst mp doy. rewrite H9. change (days_of_era 369) with 134774. Z.to_euclidean_division_equations. lia. }
  assert (Hup : era = 24 -> yoe = 399 -> mp < 10).
  { intros He H9. assert (doe < 146037) by lia. subst mp doy. rewrite H9. change (days_of_era 399) with 145731.
    Z.to_euclidean_division_equations. lia. }
  destruct (Z.ltb_spec mp 10); [destruct (Z.leb_spec (mp + 3) 2)|destruct (Z.leb_spec (mp - 9) 2)]; lia.
Qed.

Lemma gmtime_spec t :
  let i := gmtime t in
  0 <= tm_mon i < 12 /\ 1 <= tm_mday i <= 31 /\ 0 <= tm_hour i < 24 /\ 0 <= tm_min i < 60 /\
  0 <= tm_sec i < 60 /\ 0 <= tm_wday i < 7 /\ timegm i = t.
Proof.
  unfold gmtime. pose proof (civil_from_days_spec (t / 86400)) as H.
  destruct (civil_from_days (t / 86400)) as [[year mon] mday]. destruct H as (Hm & Hd & He).
  unfold timegm. cbn [tm_year tm_mon tm_mday tm_hour tm_min tm_sec tm_wday].
  replace (year - 1900 + 1900) with year by lia. replace (mon - 1 + 1) with mon by lia. rewrite He.
  clear He. Z.to_euclidean_division_equations. lia.
Qed.

Lemma dec_year n :
  1000 <= n < 10000 ->
  dec n = [48 + (n / 100) / 10; 48 + (n / 100) mod 10; 48 + (n mod 100) / 10; 48 + (n mod 100) mod 10].
Proof.
  intros Hn. unfold dec. cbn [dec_digits]. zcases; try (exfalso; Z.to_euclidean_division_equations; lia).
  assert (E1 : n / 10 / 10 = n / 100) by (Z.to_euclidean_division_equations; lia).
  assert (E2 : (n / 10) mod 10 = n mod 100 / 10) by (Z.to_euclidean_division_equations; lia).
  assert (E3 : n mod 10 = (n mod 100) mod 10) by (Z.to_euclidean_division_equations; lia).
  by rewrite E1, E2, E3.
Qed.

Lemma MakeNum_at s i n :
  0 <= n < 100 -> char_at s i = Some (48 + n / 10) -> char_at s (i + 1) = Some (48 + n mod 10) ->
  MakeNum s i = Some n.
Proof.
  intros Hn Ha Hb. unfold MakeNum. rewrite Ha, Hb. cbn [mbind option_bind].
  pose proof (Z.div_lt_upper_bound n 10 10 ltac:(lia)). pose proof (Z.div_pos n 10 ltac:(lia) ltac:(lia)).
  pose proof (Z.mod_pos_bound n 10 ltac:(lia)). pose proof (Z.div_mod n 10 ltac:(lia)).
  rewrite (proj2 (isdigit_range _)) by lia. unfold UCHAR. rewrite !Z.mod_small by lia. f_equal. lia.
Qed.

(** The names of the tables: three letters, and for a month the index that
    [MakeMonth] finds. *)
Lemma week_name w : 0 <= w < 7 ->
  exists a b c, aget week_names w = Some [a; b; c] /\ a <> 44 /\ b <> 44 /\ c <> 44.
Proof.
  intros H. assert (w = 0 \/ w = 1 \/ w = 2 \/ w = 3 \/ w = 4 \/ w = 5 \/ w = 6) as Hw by lia.
  repeat (destruct Hw as [-> |Hw]); try subst w; eexists _, _, _; (split; [vm_compute; reflexivity|]); split_and!; lia.
Qed.

Lemma month_name n : 0 <= n < 12 ->
  exists a b c, aget month_names n = Some [a; b; c] /\ a <> 45 /\ b <> 45 /\ c <> 45 /\
    forall rest, month_loop month_names 0 (a :: b :: c :: rest) = n.
Proof.
  intros H. assert (Hn : n ∈ seqZ 0 12) by (apply elem_of_seqZ; lia). vm_compute in Hn.
  repeat (apply elem_of_cons in Hn as [-> |Hn]; [eexists _, _, _; (split; [vm_compute; reflexivity|]); split_and!; try lia; done|]).
  by apply elem_of_nil in Hn.
Qed.

(** ** Theorems *)

Lemma Ns_HttpTime_shape t :
  0 <= t < 253402300800 ->
  exists w1 w2 w3 m1 m2 m3 d h mi se y,
    let i := gmtime t in
    d = tm_mday i /\ h = tm_hour i /\ mi = tm_min i /\ se = tm_sec i /\ y = tm_year i + 1900 /\ 1970 <= y <= 9999 /\
    w1 <> 44 /\ w2 <> 44 /\ w3 <> 44 /\ m1 <> 45 /\ m2 <> 45 /\ m3 <> 45 /\
    (forall rest, month_loop month_names 0 (m1 :: m2 :: m3 :: rest) = tm_mon i) /\
    Ns_HttpTime t = Some (w1 :: w2 :: w3 :: 44 :: 32 :: 48 + d / 10 :: 48 + d mod 10 :: 32 :: m1 :: m2 :: m3 :: 32
      :: 48 + (y / 100) / 10 :: 48 + (y / 100) mod 10 :: 48 + (y mod 100) / 10 :: 48 + (y mod 100) mod 10 :: 32
      :: 48 + h / 10 :: 48 + h mod 10 :: 58 :: 48 + mi / 10 :: 48 + mi mod 10 :: 58
      :: 48 + se / 10 :: 48 + se mod 10 :: bytes " GMT").
Proof.
  intros Ht. destruct (gmtime_spec t) as (Hmo & Hd & Hh & Hmi & Hse & Hw & _).
  assert (Hy : 1970 <= tm_year (gmtime t) + 1900 <= 9999).
  { pose proof (civil_year (t / 86400)) as H. unfold gmtime. destruct (civil_from_days (t / 86400)) as [[year mon] mday].
    cbn. assert (0 <= t / 86400 < 2932897) by (Z.to_euclidean_division_equations; lia). specialize (H ltac:(done)). lia. }
  destruct (week_name _ Hw) as (w1 & w2 & w3 & Ew & ? & ? & ?).
  destruct (month_name _ Hmo) as (m1 & m2 & m3 & Em & ? & ? & ? & Hml).
  exists w1, w2, w3, m1, m2, m3. eexists _, _, _, _, _. cbv zeta.
  do 13 (split; [done|]). unfold Ns_HttpTime. rewrite Ew, Em. cbn [mbind option_bind].
  by rewrite !dec2_spec, dec_year by lia.
Qed.

(** A time from 1970 to 9999 printed as an HTTP date is read back as the same
    time. *)
Theorem HttpTime_roundtrip t :
  0 <= t < 253402300800 ->
  exists s, Ns_HttpTime t = Some s /\ Ns_ParseHttpTime s = Some t.
Proof.
  intros Ht. destruct (gmtime_spec t) as (Hmo & Hd & Hh & Hmi & Hse & _ & Hinv).
  destruct (Ns_HttpTime_shape t Ht) as (w1 & w2 & w3 & m1 & m2 & m3 & d & h & mi & se & y & Ed & Eh & Emi & Ese & Ey & Hy
    & Hw1 & Hw2 & Hw3 & Hm1 & Hm2 & Hm3 & Hml & ->).
  eexists. split; [done|]. unfold Ns_ParseHttpTime, parse_fields.
  assert (Hdig : forall n, 0 <= n < 100 -> 48 <= 48 + n / 10 <= 57 /\ 48 <= 48 + n mod 10 <= 57)
    by (intros; Z.to_euclidean_division_equations; lia).
  pose proof (Hdig d ltac:(lia)). pose proof (Hdig h ltac:(lia)). pose proof (Hdig mi ltac:(lia)).
  pose proof (Hdig se ltac:(lia)). pose proof (Hdig (y / 100) ltac:(Z.to_euclidean_division_equations; lia)).
  pose proof (Hdig (y mod 100) ltac:(Z.to_euclidean_division_equations; lia)).
  set (s := 48 + d / 10 :: _).
  assert (Hs : strchr 45 s = (s, None)).
  { subst s. cbn -[Z.div Z.modulo Z.add]. repeat match goal with |- context [?a =? 45] =>
      rewrite (proj2 (Z.eqb_neq a 45)) by lia end. reflexivity. }
  assert (Hsk : skip_spaces (32 :: s) = s).
  { subst s. cbn -[Z.div Z.modulo Z.add]. by rewrite (proj2 (Z.eqb_neq (48 + d / 10) 32)) by lia. }
  cbn [strchr]. rewrite (proj2 (Z.eqb_neq w1 44)), (proj2 (Z.eqb_neq w2 44)), (proj2 (Z.eqb_neq w3 44)) by done.
  cbn [Z.eqb Pos.eqb]. rewrite Hsk, Hs. cbn [snd]. change (c_int (Z.of_nat (length s)) <? 20) with false. cbv iota.
  unfold fields. rewrite (MakeNum_at s 0 d), (MakeNum_at s 7 (y / 100)), (MakeNum_at s 9 (y mod 100)), (MakeNum_at s 12 h),
    (MakeNum_at s 15 mi), (MakeNum_at s 18 se) by (try reflexivity; try lia; Z.to_euclidean_division_equations; lia).
  cbn [mbind option_bind]. unfold MakeMonth. change (drop (Z.to_nat 3) s) with (m1 :: m2 :: m3 :: drop 6 s). rewrite Hml.
  cbn [fmap option_fmap option_map mbind option_bind].
  replace (100 * (y / 100) - 1900 + y mod 100) with (tm_year (gmtime t))
    by (rewrite Ey; Z.to_euclidean_division_equations; lia).
  set (i := mkTm _ _ _ _ _ _ _). assert (Hp : possible i = true).
  { unfold possible. subst i; cbn [tm_sec tm_min tm_hour tm_mday tm_mon tm_year]. zcases; lia. }
  rewrite Hp. f_equal. etransitivity; [|exact Hinv]. unfold timegm. subst i.
  cbn [tm_year tm_mon tm_mday tm_hour tm_min tm_sec]. by rewrite Ed, Eh, Emi, Ese.
Qed.

Lemma HttpTime_roundtrip_witness :
  Ns_HttpTime 784111777 = Some (bytes "Sun, 06 Nov 1994 08:49:37 GMT") /\
  Ns_ParseHttpTime (bytes "Sun, 06 Nov 1994 08:49:37 GMT") = Some 784111777.
Proof.
  destruct (HttpTime_roundtrip 784111777) as (s & Hs & Hp); [lia|].
  assert (E : Ns_HttpTime 784111777 = Some (bytes "Sun, 06 Nov 1994 08:49:37 GMT")) by (vm_compute; reflexivity).
  rewrite E in Hs. injection Hs as <-. by split.
Defined.

Lemma char_at_Some s i : 0 <= i <= Z.of_nat (length s) -> exists c, char_at s i = Some c.
Proof.
  intros Hi. unfold char_at, aget. destruct (Z.ltb_spec i 0); [lia|].
  apply lookup_lt_is_Some_2. rewrite length_app. cbn. lia.
Qed.

Lemma MakeNum_Some s i : 0 <= i -> i + 1 <= Z.of_nat (length s) -> exists n, MakeNum s i = Some n.
Proof.
  intros H0 H1. unfold MakeNum. destruct (char_at_Some s i) as [a ->]; [lia|].
  destruct (char_at_Some s (i + 1)) as [b ->]; [lia|]. by eexists.
Qed.

Lemma fields_Some s mday mon year hour min sec :
  (exists y, year = Some y) -> 0 <= mday -> 0 <= hour -> 0 <= min -> 0 <= sec ->
  mday + 1 <= Z.of_nat (length s) -> hour + 1 <= Z.of_nat (length s) -> min + 1 <= Z.of_nat (length s) ->
  sec + 1 <= Z.of_nat (length s) ->
  exists i, fields s mday mon year hour min sec = Some i /\ year = Some (tm_year i).
Proof.
  intros [y ->] ? ? ? ? ? ? ? ?. unfold fields.
  destruct (MakeNum_Some s mday) as [d Hd], (MakeNum_Some s hour) as [h Hh], (MakeNum_Some s min) as [mi Hmi],
    (MakeNum_Some s sec) as [se Hse]; try lia.
  rewrite Hd. cbn [mbind option_bind]. rewrite Hh. cbn [mbind option_bind]. rewrite Hmi. cbn [mbind option_bind].
  rewrite Hse. by eexists.
Qed.

Lemma c_int_le z n : 0 <= z -> n <= c_int z -> 0 <= n -> n <= z.
Proof. unfold c_int. intros. Z.to_euclidean_division_equations. lia. Qed.

(** Reading a date never leaves the string, whatever its contents, and gives 0 or
    the time of a date whose fields are possible. *)
Theorem ParseHttpTime_total chars :
  exists t, Ns_ParseHttpTime chars = Some t /\ (t <> 0 -> exists i, possible i = true /\ t = timegm i).
Proof.
  assert (H : exists r, parse_fields chars = Some r).
  { unfold parse_fields. destruct (strchr 44 chars) as [_ [s|]].
    - destruct ((strchr 45 (skip_spaces s)).2).
      + destruct (Z.ltb_spec (Z.of_nat (length (skip_spaces s))) 18); [by eexists|].
        destruct (fields_Some (skip_spaces s) 0 3 (MakeNum (skip_spaces s) 7) 10 13 16) as (i & -> & _);
          try lia; [apply MakeNum_Some; lia|by eexists].
      + destruct (Z.ltb_spec (c_int (Z.of_nat (length (skip_spaces s)))) 20) as [|Hl]; [by eexists|].
        apply c_int_le in Hl; [|lia..]. destruct (MakeNum_Some (skip_spaces s) 7) as [c Hc], (MakeNum_Some (skip_spaces s) 9)
          as [y Hy]; try lia. rewrite Hc, Hy. cbn [mbind option_bind].
        destruct (fields_Some (skip_spaces s) 0 3 (Some (100 * c - 1900 + y)) 12 15 18) as (i & -> & _); try lia; by eexists.
    - destruct (Z.ltb_spec (c_int (Z.of_nat (length (skip_spaces chars)))) 24) as [|Hl]; [by eexists|].
      apply c_int_le in Hl; [|lia..].
      destruct (fields_Some (skip_spaces chars) 8 4 (MakeNum (skip_spaces chars) 22) 11 14 17) as (i & -> & _);
        try lia; [apply MakeNum_Some; lia|by eexists]. }
  destruct H as [r Hr]. unfold Ns_ParseHttpTime. rewrite Hr. eexists. split; [reflexivity|]. destruct r as [i|]; [|done].
  destruct (possible i) eqn:Hp; [|done]. intros _. by exists i.
Qed.

(** The third format is read with two digits of the year only: a date in the
    format of [asctime] from 2000 to 2069 is taken for an error. *)
Theorem asctime_after_1999_rejected chars yy :
  (strchr 44 chars).2 = None -> 24 <= Z.of_nat (length (skip_spaces chars)) < 2 ^ 31 ->
  MakeNum (skip_spaces chars) 22 = Some yy -> yy < 70 ->
  Ns_ParseHttpTime chars = Some 0.
Proof.
  intros Hc Hl Hy H70. unfold Ns_ParseHttpTime, parse_fields. destruct (strchr 44 chars) as [p q]. cbn in Hc. subst q.
  rewrite c_int_id by lia. destruct (Z.ltb_spec (Z.of_nat (length (skip_spaces chars))) 24); [lia|].
  destruct (fields_Some (skip_spaces chars) 8 4 (MakeNum (skip_spaces chars) 22) 11 14 17) as (i & -> & Hi); try lia;
    [by eexists|]. rewrite Hy in Hi. injection Hi as Hi. cbn.
  assert (Hp : possible i = false).
  { unfold possible. apply negb_false_iff. rewrite <- Hi. rewrite (proj2 (Z.ltb_lt yy 70)) by lia. by rewrite !orb_true_r. }
  by rewrite Hp.
Qed.

Lemma asctime_after_1999_rejected_witness :
  Ns_ParseHttpTime (bytes "Wed Jun  9 01:29:59 2004") = Some 0 /\
  Ns_ParseHttpTime (bytes "Wed Jun  9 01:29:59 1993") = Some 739589399.
Proof.
  split; [|vm_compute; reflexivity].
  apply (asctime_after_1999_rejected (bytes "Wed Jun  9 01:29:59 2004") 4); vm_compute; try reflexivity. split; congruence.
Defined.
