(* ===== verification/SendVec.v ===== *)
(** * SendVec: sending vectors of buffers and file ranges, nsd/sock.c,
    nsd/sockfile.c and the loop of [Ns_ConnSendFileVec] in nsd/connio.c.

    A socket takes any part of what it is given: what it answers comes from lists
    of responses, arbitrary numbers that are cut off at the number of bytes
    offered.  [out] is what has gone to the socket.  Reading or writing outside of
    an array is [None]. *)

From S2P Require Import Prelude.

(** ** Vectors of buffers (nsd/sock.c) *)

(** [iov_base] is the memory behind the pointer, [None] for NULL. *)
Record iovec := mkIov { iov_base : option (list Z); iov_len : Z }.

(** The bytes a buffer stands for. *)
Definition iov_data (v : iovec) : list Z :=
  match iov_base v with Some d => take (Z.to_nat (iov_len v)) d | None => [] end.

Definition Ns_SetVec (bufs : list iovec) (i : Z) (data : option (list Z)) (len : Z) : option (list iovec) :=
  aset bufs i (mkIov data len).

(** The loop of [Ns_ResetVec] from index [i], for [n] more buffers. *)
Fixpoint reset_loop (n : nat) (i : Z) (bufs : list iovec) (sent : Z) : option (list iovec * Z) :=
  match n with
  | O => Some (bufs, i)
  | S n =>
      if sent =? 0 then Some (bufs, i) else
      v ← aget bufs i;
      if 0 <? iov_len v then
        if iov_len v <=? sent
        then bufs ← Ns_SetVec bufs i None 0; reset_loop n (i + 1) bufs (sent - iov_len v)
        else bufs ← Ns_SetVec bufs i (drop (Z.to_nat sent) <$> iov_base v) (iov_len v - sent); Some (bufs, i)
      else reset_loop n (i + 1) bufs sent
  end.

(** [base] is the index of the first buffer: the callers pass a pointer into an array. *)
Definition Ns_ResetVec (bufs : list iovec) (base nbufs sent : Z) : option (list iovec * Z) :=
  '(bufs, i) ← reset_loop (Z.to_nat nbufs) base bufs sent; Some (bufs, i - base).

Fixpoint Ns_SumVec (bufs : list iovec) : Z :=
  match bufs with
  | [] => 0
  | v :: bufs => (if 0 <? iov_len v then iov_len v else 0) + Ns_SumVec bufs
  end.

(** One call of [NsDriverSend]: the driver takes [r] bytes, or fails. *)
Definition driver_send (r : Z) (data : list Z) : Z * list Z :=
  if r <? 0 then (-1, []) else let n := Z.min r (Z.of_nat (length data)) in (n, take (Z.to_nat n) data).

(** What the environment does in one round of [Ns_SockSendBufs]: the first send,
    whether the socket becomes writable when nothing could be sent, and the send
    after that. *)
Record Round := mkRound { first : Z; writable : bool; second : Z }.

(** The local variables of [Ns_SockSendBufs]; [rest] are the buffers from [bufIdx] on. *)
Record SendState := mkSend {
  sbufs : list iovec;
  sbufPtr : Z;
  sbufLen : Z;
  nsbufs : Z;
  toWrite : Z;
  rest : list iovec;
  nWrote : Z;
  out : list Z
}.

Inductive SendResult := Running (st : SendState) | Sent (n : Z) (out : list Z).

(** The inner loop: fills the window at [sbufPtr] from [sbufIdx] on. *)
Fixpoint fill (l : list iovec) (sbufIdx : Z) (st : SendState) : option SendState :=
  match l with
  | [] => Some (mkSend (sbufs st) (sbufPtr st) (sbufLen st) (nsbufs st) (toWrite st) [] (nWrote st) (out st))
  | v :: l' =>
      if sbufIdx <? sbufLen st then
        match iov_base v with
        | Some data =>
            if 0 <? iov_len v then
              s ← Ns_SetVec (sbufs st) (sbufPtr st + sbufIdx) (Some data) (iov_len v);
              fill l' (sbufIdx + 1) (mkSend s (sbufPtr st) (sbufLen st) (nsbufs st + 1)
                (wrap64 (toWrite st + iov_len v)) l' (nWrote st) (out st))
            else fill l' sbufIdx st
        | None => fill l' sbufIdx st
        end
      else Some (mkSend (sbufs st) (sbufPtr st) (sbufLen st) (nsbufs st) (toWrite st) l (nWrote st) (out st))
  end.

(** The window passed to the driver. *)
Definition window (st : SendState) : option (list Z) :=
  w ← aslice (sbufs st) (sbufPtr st) (nsbufs st); Some (concat (iov_data <$> w)).

(** One round of the outer loop; [inr] is the end of the function after an error. *)
Definition send_round (r : Round) (st : SendState) : option (SendState + list Z) :=
  st ← fill (rest st) 0 st;
  data ← window st;
  let '(sent, o) := driver_send (first r) data in
  let '(sent, o) := if (sent =? 0) && writable r then driver_send (second r) data else (sent, o) in
  let o := out st ++ o in
  if sent =? -1 then Some (inr o) else
  let toWrite := wrap64 (toWrite st - sent) in
  let nWrote := nWrote st + sent in
  if toWrite =? 0
  then Some (inl (mkSend (sbufs st) (sbufPtr st) (sbufLen st) 0 toWrite (rest st) nWrote o))
  else
    '(s, sbufIdx) ← Ns_ResetVec (sbufs st) (sbufPtr st) (nsbufs st) sent;
    let nsbufs := nsbufs st - sbufIdx in
    if 1 <? Z.of_nat (length (rest st)) then
      moved ← aslice s (sbufPtr st + sbufIdx) nsbufs;
      s ← afill s (sbufPtr st) moved;
      Some (inl (mkSend s (sbufPtr st) (sbufLen st) nsbufs toWrite (rest st) nWrote o))
    else Some (inl (mkSend s (sbufPtr st + sbufIdx) (nsbufs - sbufIdx) nsbufs toWrite (rest st) nWrote o)).

Fixpoint send_loop (rounds : list Round) (st : SendState) : option SendResult :=
  if bool_decide (rest st = []) && (toWrite st =? 0) then Some (Sent (nWrote st) (out st)) else
  match rounds with
  | [] => Some (Running st)
  | r :: rounds =>
      st ← send_round r st;
      match st with
      | inl st => send_loop rounds st
      | inr o => Some (Sent (-1) o)
      end
  end.

(** [maxiov] is [UIO_MAXIOV]; the array is zeroed. *)
Definition Ns_SockSendBufs (maxiov : Z) (bufs : list iovec) (rounds : list Round) : option SendResult :=
  send_loop rounds (mkSend (replicate (Z.to_nat maxiov) (mkIov None 0)) 0 maxiov 0 0 bufs 0 []).

(** ** Vectors of file ranges (nsd/sockfile.c, nsd/connio.c) *)

(** [fd < 0] (NS_INVALID_FD) is a range of memory. *)
Record FileVec := mkFileVec { buffer : option (list Z); length_ : Z; offset : Z; fd : Z }.

Definition Ns_SetFileVec (bufs : list FileVec) (i : Z) (fd : Z) (data : option (list Z)) (offset len : Z)
  : option (list FileVec * Z) :=
  bufs ← aset bufs i (mkFileVec data len offset fd); Some (bufs, len).

Fixpoint Ns_ResetFileVec (bufs : list FileVec) (sent : Z) : list FileVec * Z :=
  match bufs with
  | [] => ([], 0)
  | v :: rest =>
      if sent =? 0 then (bufs, 0) else
      if 0 <? length_ v then
        if length_ v <=? sent
        then let '(rest, i) := Ns_ResetFileVec rest (sent - length_ v) in (mkFileVec None 0 0 (fd v) :: rest, i + 1)
        else (mkFileVec (buffer v) (length_ v - sent) (offset v + sent) (fd v) :: rest, 0)
      else let '(rest, i) := Ns_ResetFileVec rest sent in (v :: rest, i + 1)
  end.

Section Files.

(** The contents of the files, by descriptor. *)
Variable files : Z -> list Z.
Variable maxiov : Z.
(** The driver can use the system's [sendfile]. *)
Variable native : bool.

(** The answers of the driver and of the system to the calls, in their order; when
    they run out the socket takes nothing. *)
Definition answer (rs : list Z) : Z * list Z := match rs with [] => (0, []) | r :: rs => (r, rs) end.

(** [pread]: the bytes of a file from an offset, at most [count]. *)
Definition pread (fd count offset : Z) : list Z :=
  take (Z.to_nat count) (drop (Z.to_nat offset) (files fd)).

(** The emulation of [sendfile] with a buffer of 16384 bytes; every round reads at
    least a byte. *)
Fixpoint sendfile_loop (fuel : nat) (fd offset toread nwrote : Z) (o : list Z) (rs : list Z)
  : option (Z * list Z * list Z) :=
  if toread <=? 0 then Some (nwrote, o, rs) else
  match fuel with
  | O => None
  | S fuel =>
      let buf := pread fd (Z.min toread 16384) offset in
      let nread := Z.of_nat (length buf) in
      if nread <=? 0 then Some (-1, o, rs) else
      let '(r, rs) := answer rs in
      let '(sent, s) := driver_send r buf in
      let o := o ++ s in
      if sent =? -1 then Some (-1, o, rs) else
      let nwrote := nwrote + sent in
      if negb (sent =? nread) then Some (nwrote, o, rs)
      else sendfile_loop fuel fd (offset + nread) (toread - nread) nwrote o rs
  end.

Definition ns_sendfile (fd offset len : Z) (rs : list Z) : option (Z * list Z * list Z) :=
  sendfile_loop (Z.to_nat len) fd offset len 0 [] rs.

(** The answer of a system call that is not supported for the file (EINVAL, ENOSYS). *)
Definition ENOSYS : Z := -2.

(** The system call of Linux sends a part of the range, or fails, or is not
    supported. *)
Definition SendFile (fd offset len : Z) (rs : list Z) : option (Z * list Z * list Z) :=
  if negb native then ns_sendfile fd offset len rs else
  let '(r, rs) := answer rs in
  if r =? ENOSYS then ns_sendfile fd offset len rs else
  let '(sent, s) := driver_send r (pread fd len offset) in Some (sent, s, rs).

(** The loop of [Ns_SockSendFileBufs] over the vectors from index [i] on; [sb] are
    the pending memory buffers. *)
Fixpoint sendbufs_loop (l : list FileVec) (sb : list iovec) (towrite nwrote : Z) (o : list Z) (rs : list Z)
  : option (Z * list Z * list Z) :=
  match l with
  | [] => Some (nwrote, o, rs)
  | v :: l =>
      if length_ v =? 0 then sendbufs_loop l sb towrite nwrote o rs else
      let towrite := towrite + length_ v in
      let memory := fd v <? 0 in
      let sb := if memory
                then sb ++ [mkIov (drop (Z.to_nat (offset v)) <$> buffer v) (length_ v)] else sb in
      let nsbufs := Z.of_nat (length sb) in
      if maxiov <? nsbufs then None else
      if (memory && ((nsbufs =? maxiov) || bool_decide (l = []))) || (negb memory && (0 <? nsbufs)) then
        let '(r, rs) := answer rs in
        let '(sent, s) := driver_send r (concat (iov_data <$> sb)) in
        let o := o ++ s in
        if sent =? -1 then Some (-1, o, rs) else
        let nwrote := nwrote + sent in
        if sent <? towrite then Some (nwrote, o, rs) else
        if memory then sendbufs_loop l [] towrite nwrote o rs else
        '(sent, s, rs) ← SendFile (fd v) (offset v) (length_ v) rs;
        let o := o ++ s in
        if sent =? -1 then Some (-1, o, rs) else
        let nwrote := nwrote + sent in
        if sent <? towrite then Some (nwrote, o, rs) else sendbufs_loop l [] 0 nwrote o rs
      else if memory then sendbufs_loop l sb towrite nwrote o rs else
        '(sent, s, rs) ← SendFile (fd v) (offset v) (length_ v) rs;
        let o := o ++ s in
        if sent =? -1 then Some (-1, o, rs) else
        let nwrote := nwrote + sent in
        if sent <? towrite then Some (nwrote, o, rs) else sendbufs_loop l sb 0 nwrote o rs
  end.

Definition Ns_SockSendFileBufs (bufs : list FileVec) (rs : list Z) : option (Z * list Z * list Z) :=
  sendbufs_loop bufs [] 0 0 [] rs.

Inductive ConnResult := ConnRunning (bufs : list FileVec) (o : list Z) | ConnOk (o : list Z) | ConnError (o : list Z).

(** The loop of [Ns_ConnSendFileVec]: per round the answers to one call of
    [Ns_SockSendFileBufs], and whether the wait for the socket succeeds. *)
Fixpoint conn_loop (rounds : list (list Z * bool)) (bufs : list FileVec) (nwrote towrite : Z) (o : list Z)
  : option ConnResult :=
  if nwrote <? towrite then
    match rounds with
    | [] => Some (ConnRunning bufs o)
    | (rs, ready) :: rounds =>
        '(sent, s, _) ← Ns_SockSendFileBufs bufs rs;
        let o := o ++ s in
        if sent =? -1 then Some (ConnError o) else
        let nwrote := nwrote + sent in
        if nwrote <? towrite then
          let bufs := if 0 <? sent then (Ns_ResetFileVec bufs sent).1 else bufs in
          if ready then conn_loop rounds bufs nwrote towrite o else Some (ConnError o)
        else conn_loop rounds bufs nwrote towrite o
    end
  else Some (if nwrote =? towrite then ConnOk o else ConnError o).

Definition sum_lengths (bufs : list FileVec) : Z := foldr (fun v acc => length_ v + acc) 0 bufs.

Definition Ns_ConnSendFileVec (bufs : list FileVec) (rounds : list (list Z * bool)) : option ConnResult :=
  conn_loop rounds bufs 0 (sum_lengths bufs) [].

(** The bytes of a vector. *)
Definition vec_data (v : FileVec) : list Z :=
  if fd v <? 0
  then match buffer v with Some b => take (Z.to_nat (length_ v)) (drop (Z.to_nat (offset v)) b) | None => [] end
  else take (Z.to_nat (length_ v)) (drop (Z.to_nat (offset v)) (files (fd v))).
Definition content (bufs : list FileVec) : list Z := concat (vec_data <$> bufs).

(** The range lies within its memory or file. *)
Definition vec_wf (v : FileVec) : Prop :=
  0 <= length_ v /\ 0 <= offset v /\ Z.of_nat (length (vec_data v)) = length_ v.

End Files.

(** ** Lemmas on vectors of buffers *)

Definition iov_wf (v : iovec) : Prop :=
  match iov_base v with Some d => iov_len v = Z.of_nat (length d) | None => 0 <= iov_len v end.
Definition nonempty (v : iovec) : bool :=
  match iov_base v with Some _ => 0 <? iov_len v | None => false end.
Definition iov_content (l : list iovec) : list Z := concat (iov_data <$> l).

Lemma iov_content_app l1 l2 : iov_content (l1 ++ l2) = iov_content l1 ++ iov_content l2.
Proof. unfold iov_content. by rewrite fmap_app, concat_app. Qed.

Lemma iov_data_wf d : iov_data (mkIov (Some d) (Z.of_nat (length d))) = d.
Proof. unfold iov_data; cbn. by rewrite Nat2Z.id, firstn_all. Qed.

Lemma driver_send_spec r data :
  let '(sent, o) := driver_send r data in
  (sent = -1 /\ o = []) \/
  (0 <= sent <= Z.of_nat (length data) /\ o = take (Z.to_nat sent) data /\ (0 < r -> data <> [] -> 0 < sent)).
Proof.
  unfold driver_send. destruct (Z.ltb_spec r 0); [by left|]. right. split; [lia|]. split; [done|].
  intros ? Hne. destruct data; [done|]. cbn [length]. lia.
Qed.

(** The cells of the window: full buffers, or emptied ones. *)
Definition cell_wf (v : iovec) : Prop :=
  match iov_base v with Some d => iov_len v = Z.of_nat (length d) | None => iov_len v = 0 end.

(** [Ns_ResetVec] on the window [w]: what is left from the returned index on is what
    was not sent. *)
Lemma reset_loop_ok w p q sent :
  Forall cell_wf w -> 0 <= sent <= Z.of_nat (length (iov_content w)) ->
  exists w' k, reset_loop (length w) (Z.of_nat (length p)) (p ++ w ++ q) sent
      = Some (p ++ w' ++ q, Z.of_nat (length p + k)) /\
    length w' = length w /\ (k <= length w)%nat /\ Forall cell_wf (drop k w') /\
    iov_content (drop k w') = drop (Z.to_nat sent) (iov_content w).
Proof.
  revert p sent. induction w as [|v w IH]; intros p sent Hw Hs; cbn [reset_loop length].
  { exists [], 0%nat. rewrite Nat.add_0_r. cbn in *. split_and!; try done. by rewrite drop_nil. }
  apply Forall_cons in Hw as [Hv Hw]. destruct (Z.eqb_spec sent 0) as [->|Hs0].
  { exists (v :: w), 0%nat. rewrite Nat.add_0_r. split_and!; try done; [lia|by apply Forall_cons]. }
  cbn [app]. rewrite aget_mid by done. cbn [mbind option_bind].
  assert (Hlen : iov_content (v :: w) = iov_data v ++ iov_content w) by done. rewrite Hlen in *. rewrite length_app in Hs.
  assert (Hd : iov_data v = default [] (iov_base v)).
  { unfold iov_data, cell_wf in *. destruct (iov_base v) as [d|]; [|done]. by rewrite Hv, Nat2Z.id, firstn_all. }
  assert (Hnext : forall v' sent', 0 <= sent' <= Z.of_nat (length (iov_content w)) ->
    drop (Z.to_nat sent') (iov_content w) = drop (Z.to_nat sent) (iov_data v ++ iov_content w) ->
    exists w' k, reset_loop (length w) (Z.of_nat (length p) + 1) (p ++ v' :: w ++ q) sent'
      = Some (p ++ w' ++ q, Z.of_nat (length p + k)) /\
    length w' = S (length w) /\ (k <= S (length w))%nat /\ Forall cell_wf (drop k w') /\
    iov_content (drop k w') = drop (Z.to_nat sent) (iov_data v ++ iov_content w)).
  { intros v' sent' Hs' Hdrop. destruct (IH (p ++ [v']) sent' Hw Hs') as (w' & k & HI & Hl & Hk & Hwf & Hc).
    exists (v' :: w'), (S k). rewrite <- !app_assoc in HI. cbn [app] in HI.
    replace (Z.of_nat (length (p ++ [v']))) with (Z.of_nat (length p) + 1) in HI by lens.
    rewrite HI. cbn [length drop]. split_and!; [|lia|lia|done|by rewrite Hc]. do 3 f_equal. lens. }
  destruct (Z.ltb_spec 0 (iov_len v)) as [Hpos|Hz].
  - destruct (Z.leb_spec (iov_len v) sent) as [Hle|Hgt].
    + unfold Ns_SetVec. rewrite aset_mid by done. cbn [mbind option_bind].
      apply Hnext; rewrite Hd in *; unfold cell_wf in Hv; destruct (iov_base v) as [d|]; cbn in *; [lia|lia| |lia].
      rewrite drop_app_ge by lia. f_equal. lia.
    + unfold Ns_SetVec. rewrite aset_mid by done. cbn [mbind option_bind]. unfold cell_wf in Hv.
      destruct (iov_base v) as [d|]; cbn in Hd; [|lia]. cbn [fmap option_fmap option_map].
      set (v' := mkIov _ _). exists (v' :: w), 0%nat. rewrite Nat.add_0_r.
      assert (Hv' : v' = mkIov (Some (drop (Z.to_nat sent) d)) (Z.of_nat (length (drop (Z.to_nat sent) d))))
        by (subst v'; f_equal; lens).
      split_and!; [done|done|cbn; lia| |].
      * apply Forall_cons. split; [by rewrite Hv'|done].
      * cbn [drop]. change (iov_content (v' :: w)) with (iov_data v' ++ iov_content w).
        rewrite Hv', iov_data_wf, Hd, drop_app_le by lia. done.
  - apply Hnext; rewrite Hd in *; unfold cell_wf in Hv; destruct (iov_base v) as [d|]; cbn in *; try lia; try done.
    destruct d; [done|cbn in *; lia].
Qed.

Lemma ResetVec_ok p w q sent :
  Forall cell_wf w -> 0 <= sent <= Z.of_nat (length (iov_content w)) ->
  exists w' k, Ns_ResetVec (p ++ w ++ q) (Z.of_nat (length p)) (Z.of_nat (length w)) sent
      = Some (p ++ w' ++ q, Z.of_nat k) /\
    length w' = length w /\ (k <= length w)%nat /\ Forall cell_wf (drop k w') /\
    iov_content (drop k w') = drop (Z.to_nat sent) (iov_content w).
Proof.
  intros Hw Hs. destruct (reset_loop_ok w p q sent Hw Hs) as (w' & k & HR & H).
  exists w', k. split; [|exact H]. unfold Ns_ResetVec. rewrite Nat2Z.id, HR. cbn [mbind option_bind].
  do 2 f_equal. lia.
Qed.

(** The first filling of the array takes all the buffers that are not empty. *)
Definition filled (l : list iovec) : list iovec := List.filter nonempty l.

Lemma filled_cons v l : filled (v :: l) = if nonempty v then v :: filled l else filled l.
Proof. done. Qed.

Lemma iov_content_cons v l : iov_content (v :: l) = iov_data v ++ iov_content l.
Proof. done. Qed.

(** A buffer that is skipped has no bytes. *)
Lemma nonempty_cases v :
  iov_wf v ->
  if nonempty v then cell_wf v /\ 0 < iov_len v /\ iov_len v = Z.of_nat (length (iov_data v)) else iov_data v = [].
Proof.
  unfold iov_wf, nonempty, cell_wf, iov_data. destruct v as [[d|] n]; cbn; [|done]. intros ->.
  rewrite Nat2Z.id, firstn_all. destruct (Z.ltb_spec 0 (Z.of_nat (length d))); [done|]. by destruct d.
Qed.

Lemma filled_spec l :
  Forall iov_wf l ->
  Forall cell_wf (filled l) /\ iov_content (filled l) = iov_content l /\ (length (filled l) <= length l)%nat /\
  Ns_SumVec (filled l) = Z.of_nat (length (iov_content l)).
Proof.
  induction 1 as [|v l Hv _ (H1 & H2 & H3 & H4)]; [done|]. rewrite filled_cons, iov_content_cons.
  apply nonempty_cases in Hv. destruct (nonempty v).
  - destruct Hv as (Hc & Hp & Hl). rewrite iov_content_cons. cbn [length Ns_SumVec].
    split_and!; [by apply Forall_cons|by rewrite H2|lia|]. destruct (Z.ltb_spec 0 (iov_len v)); lens.
  - rewrite Hv. cbn [app length]. split_and!; [done|done|lia|done].
Qed.

Lemma fill_ok l p q st :
  Forall iov_wf l -> sbufs st = p ++ q -> sbufPtr st = 0 -> nsbufs st = Z.of_nat (length p) ->
  sbufLen st = Z.of_nat (length (p ++ q)) -> (length l <= length q)%nat -> 0 <= toWrite st < 2 ^ 64 ->
  exists q', fill l (Z.of_nat (length p)) st =
    Some (mkSend (p ++ filled l ++ q') 0 (sbufLen st) (Z.of_nat (length (p ++ filled l)))
      (wrap64 (toWrite st + Ns_SumVec (filled l))) [] (nWrote st) (out st)).
Proof.
  revert p q st. induction l as [|v l IH]; intros p q st Hw Hs Hp Hn Hl Hlen Ht.
  { exists q. cbn. by rewrite Z.add_0_r, wrap64_id, Hs, Hp, Hn, app_nil_r. }
  apply Forall_cons in Hw as [Hv Hw]. cbn [length] in Hlen. cbn [fill]. rewrite filled_cons.
  destruct (Z.ltb_spec (Z.of_nat (length p)) (sbufLen st)); [|lens].
  apply nonempty_cases in Hv. destruct v as [base n]. unfold nonempty in *. cbn [iov_base iov_len] in *.
  destruct base as [d|]; [|apply (IH p q); try done; lia].
  destruct (0 <? n) eqn:Hn0; [|apply (IH p q); try done; lia].
  destruct q as [|x q]; [cbn in Hlen; lia|]. unfold Ns_SetVec. rewrite Hs, Hp, aset_mid by lia. cbn [mbind option_bind].
  destruct (IH (p ++ [mkIov (Some d) n]) q (mkSend (p ++ mkIov (Some d) n :: q) 0 (sbufLen st) (nsbufs st + 1)
    (wrap64 (toWrite st + n)) l (nWrote st) (out st))) as [q' Hq']; cbn [sbufs sbufPtr sbufLen nsbufs toWrite] in *;
    try done; [by rewrite <- app_assoc|lens|rewrite Hl; lens|lens|apply Z.mod_pos_bound; lia|].
  exists q'. replace (Z.of_nat (length (p ++ [mkIov (Some d) n]))) with (Z.of_nat (length p) + 1) in Hq' by lens.
  rewrite Hq'. cbn [nWrote out]. rewrite <- !app_assoc. cbn [app]. do 2 f_equal. cbn [Ns_SumVec iov_len]. rewrite Hn0.
  unfold wrap64. rewrite Zplus_mod_idemp_l. f_equal. lia.
Qed.

(** *** The invariant of the loop of [Ns_SockSendBufs] *)

(** All the buffers are in the window, which holds what is still to be sent. *)
Record sending (total : list Z) (st : SendState) : Prop := {
  s_rest : rest st = [];
  s_window : exists p w q, sbufs st = p ++ w ++ q /\ sbufPtr st = Z.of_nat (length p) /\
    nsbufs st = Z.of_nat (length w) /\ Forall cell_wf w /\
    total = out st ++ iov_content w /\ toWrite st = Z.of_nat (length (iov_content w));
  s_wrote : nWrote st = Z.of_nat (length (out st))
}.

(** A round in which a call of the driver fails, if it is made. *)
Definition fails (r : Round) : Prop := first r < 0 \/ second r < 0.

Lemma driver_send_fails n data o : driver_send n data = (-1, o) -> n < 0.
Proof. unfold driver_send. destruct (Z.ltb_spec n 0); [done|]. intros [= E _]. lia. Qed.

Lemma send_round_ok total r st :
  sending total st -> Z.of_nat (length total) < 2 ^ 64 ->
  (exists st', send_round r st = Some (inl st') /\ sending total st' /\
     exists o, out st' = out st ++ o /\ (0 < first r -> total <> out st -> o <> [])) \/
  (send_round r st = Some (inr (out st)) /\ fails r).
Proof.
  intros [Hr (p & w & q & Hs & Hp & Hn & Hw & Htot & Ht) Hwr] Hbig.
  unfold send_round. rewrite Hr. cbn [fill mbind option_bind]. unfold window.
  cbn [sbufs sbufPtr sbufLen nsbufs toWrite rest nWrote out]. rewrite Hs, Hp, Hn, aslice_app. cbn [mbind option_bind].
  change (concat (iov_data <$> w)) with (iov_content w).
  set (data := iov_content w) in *.
  assert (Hsend : exists sent o, (let '(sent, o) := driver_send (first r) data in
      if (sent =? 0) && writable r then driver_send (second r) data else (sent, o)) = (sent, o) /\
    ((sent = -1 /\ o = [] /\ fails r) \/ (0 <= sent <= Z.of_nat (length data) /\ o = take (Z.to_nat sent) data /\
      (0 < first r -> data <> [] -> 0 < sent)))).
  { pose proof (driver_send_spec (first r) data) as H1. pose proof (driver_send_spec (second r) data) as H2.
    destruct (driver_send (first r) data) as [s1 o1] eqn:E1, (driver_send (second r) data) as [s2 o2] eqn:E2.
    destruct ((s1 =? 0) && writable r) eqn:E.
    2: { exists s1, o1. split; [done|]. destruct H1 as [[-> ->]|H1]; [left|by right]. split_and!; [done|done|]. left. by eapply driver_send_fails. }
    exists s2, o2. split; [done|]. apply andb_true_iff in E as [E%Z.eqb_eq _]. subst s1.
    destruct H1 as [[? _]|(_ & _ & H1)]; [done|]. destruct H2 as [[-> ->]|(H2 & H3 & _)]; [left; split_and!; [done|done|]; right; by eapply driver_send_fails|right].
    split_and!; [lia|lia|done|]. intros Hf Hd. specialize (H1 Hf Hd). lia. }
  destruct Hsend as (sent & o & Heq & Hcase). destruct (driver_send (first r) data) as [s1 o1].
  rewrite Heq. clear Heq s1 o1. destruct Hcase as [(-> & -> & Hfail)|(Hsent & Ho & Hprog)].
  { right. cbn. by rewrite app_nil_r. }
  left. destruct (Z.eqb_spec sent (-1)); [lia|].
  assert (Hlen : Z.of_nat (length data) < 2 ^ 64) by (rewrite Htot in Hbig; lens).
  rewrite Ht, wrap64_id by lia.
  assert (Hout : total = (out st ++ o) ++ drop (Z.to_nat sent) data).
  { rewrite <- app_assoc, Ho, take_drop. done. }
  assert (Hol : Z.of_nat (length o) = sent) by (rewrite Ho, length_take; lia).
  assert (Hno : 0 < first r -> total <> out st -> o <> []).
  { intros Hf Hd Ho0. rewrite Ho0 in Hol. cbn in Hol. specialize (Hprog Hf). destruct data; [|specialize (Hprog ltac:(done)); lia].
    apply Hd. by rewrite Htot, app_nil_r. }
  destruct (Z.eqb_spec (Z.of_nat (length data) - sent) 0) as [Hz|Hnz].
  - eexists. split; [reflexivity|]. split; [|by exists o]. split; cbn [rest nWrote out sbufs sbufPtr nsbufs toWrite].
    + done.
    + exists p, [], (w ++ q). split_and!; try done. rewrite Hout, drop_ge by lia. done.
    + rewrite Hwr, length_app. lia.
  - destruct (ResetVec_ok p w q sent Hw Hsent) as (w' & k & HR & Hl' & Hk & Hwf' & Hc'). rewrite HR.
    cbn [mbind option_bind length]. change (1 <? Z.of_nat 0) with false. cbv iota.
    eexists. split; [reflexivity|]. split; [|by exists o]. split; cbn [rest nWrote out sbufs sbufPtr nsbufs toWrite].
    + done.
    + exists (p ++ take k w'), (drop k w'), q. rewrite Hc'. split_and!; try done; [|lens|lens|fold data; lens].
      rewrite <- app_assoc. f_equal. by rewrite app_assoc, take_drop.
    + rewrite Hwr, length_app. lia.
Qed.

Lemma send_loop_ok total rounds st :
  sending total st -> Z.of_nat (length total) < 2 ^ 64 ->
  (exists n o, send_loop rounds st = Some (Sent n o) /\
     ((n = Z.of_nat (length total) /\ o = total) \/ (n = -1 /\ o `prefix_of` total /\ Exists fails rounds))) \/
  (exists st', send_loop rounds st = Some (Running st') /\ out st' `prefix_of` total /\
     (Forall (fun r => 0 < first r) rounds -> (length rounds + length (out st) <= length (out st'))%nat /\ out st' <> total)).
Proof.
  revert st. induction rounds as [|r rounds IH]; intros st Hst Hbig.
  - pose proof Hst as [Hr (p & w & q & Hs & Hp & Hn & Hw & Htot & Ht) Hwr]. cbn [send_loop]. rewrite Hr, bool_decide_eq_true_2 by done.
    cbn [andb]. rewrite Ht. destruct (Z.eqb_spec (Z.of_nat (length (iov_content w))) 0) as [Hz|Hz].
    + left. eexists _, _. split; [reflexivity|]. left. destruct (iov_content w); [|cbn in Hz; lia].
      rewrite app_nil_r in Htot. by rewrite Htot.
    + right. eexists. split; [reflexivity|]. split; [by exists (iov_content w)|]. intros _. split; [cbn; lia|].
      intros Heq. rewrite Htot in Heq. apply (f_equal length) in Heq. rewrite length_app in Heq. lia.
  - pose proof Hst as [Hr (p & w & q & Hs & Hp & Hn & Hw & Htot & Ht) Hwr]. cbn [send_loop]. rewrite Hr, bool_decide_eq_true_2 by done.
    cbn [andb]. rewrite Ht. destruct (Z.eqb_spec (Z.of_nat (length (iov_content w))) 0) as [Hz|Hz].
    + left. eexists _, _. split; [reflexivity|]. left. destruct (iov_content w); [|cbn in Hz; lia].
      rewrite app_nil_r in Htot. by rewrite Htot.
    + assert (Hne : total <> out st).
      { intros Heq. rewrite Htot in Heq. apply (f_equal length) in Heq. rewrite length_app in Heq. lia. }
      destruct (send_round_ok total r st Hst Hbig) as [(st' & -> & Hst' & o & Ho & Hprog)|[-> Hfail]]; cbn [mbind option_bind].
      2:{ left. eexists _, _. split; [reflexivity|]. right. split_and!; [done|by exists (iov_content w)|by left]. }
      destruct (IH st' Hst' Hbig) as [(n & o' & H & Hc)|(st2 & H & Hpre & Hlen)]; [left|right].
      { exists n, o'. split; [done|]. destruct Hc as [Hc|(Hc1 & Hc2 & Hc3)]; [by left|right]. split_and!; [done|done|by right]. }
      exists st2. split; [done|]. split; [done|]. intros [Hf Hfs]%Forall_cons. destruct (Hlen Hfs) as [Hl Hd].
      split; [|done]. specialize (Hprog Hf Hne). rewrite Ho, length_app in Hl. destruct o; [done|]. cbn in *. lia.
Qed.

Lemma sends_or_runs maxiov bufs rounds :
  Forall iov_wf bufs -> 0 < maxiov -> Z.of_nat (length bufs) <= maxiov ->
  Z.of_nat (length (iov_content bufs)) < 2 ^ 64 ->
  exists res, Ns_SockSendBufs maxiov bufs rounds = Some res /\
    match res with
    | Sent n o => (n = Z.of_nat (length (iov_content bufs)) /\ o = iov_content bufs)
                  \/ (n = -1 /\ o `prefix_of` iov_content bufs /\ Exists fails rounds)
    | Running st => out st `prefix_of` iov_content bufs
    end /\
    (Forall (fun r => 0 < first r) rounds -> (length (iov_content bufs) < length rounds)%nat ->
     exists n o, res = Sent n o).
Proof.
  intros Hw Hm Hlen Hbig. unfold Ns_SockSendBufs. set (st0 := mkSend _ _ _ _ _ _ _ _).
  destruct (fill_ok bufs [] (replicate (Z.to_nat maxiov) (mkIov None 0)) st0) as [q Hfill]; try done; [cbn; lens..|].
  destruct (filled_spec bufs Hw) as (Hcell & Hcont & _ & Hsum). cbn [app length] in Hfill.
  assert (Hst1 : forall st1, fill bufs 0 st0 = Some st1 -> sending (iov_content bufs) st1 /\ out st1 = []).
  { intros st1 E. change (Z.of_nat 0) with 0 in Hfill. rewrite Hfill in E. injection E as <-. split; [|done].
    split; [done| |done]. exists [], (filled bufs), q. cbn [sbufs sbufPtr nsbufs out toWrite app length]. rewrite Hcont, Hsum.
    split_and!; try done. apply wrap64_id. cbn. lia. }
  destruct rounds as [|r rounds]; cbn [send_loop].
  { change (rest st0) with bufs. change (toWrite st0 =? 0) with true. rewrite andb_true_r. case_bool_decide as Hb.
    - eexists. split; [reflexivity|]. split; [left; by rewrite Hb|intros; by eexists _, _].
    - eexists. split; [reflexivity|]. split; [apply prefix_nil|]. cbn. lia. }
  change (rest st0) with bufs. change (toWrite st0 =? 0) with true. rewrite andb_true_r. case_bool_decide as Hb.
  { eexists. split; [reflexivity|]. split; [left; by rewrite Hb|intros; by eexists _, _]. }
  set (st1 := mkSend _ _ _ _ _ _ _ _) in Hfill. change (Z.of_nat 0) with 0 in Hfill.
  destruct (Hst1 st1 Hfill) as [Hsend Ho1].
  assert (Hround : send_round r st0 = send_round r st1).
  { unfold send_round. change (rest st0) with bufs. by rewrite Hfill. }
  rewrite Hround. destruct (send_round_ok _ r st1 Hsend Hbig) as [(st2 & -> & Hst2 & o & Ho & _)|[-> Hfail]]; cbn [mbind option_bind].
  2:{ eexists. split; [reflexivity|]. split; [right; split_and!; [done|apply prefix_nil|by left]|intros; by eexists _, _]. }
  destruct (send_loop_ok _ rounds st2 Hst2 Hbig) as [(n & o' & -> & H)|(st' & -> & Hpre & Hlive)].
  - eexists. split; [reflexivity|]. split; [|intros; by eexists _, _]. destruct H as [H|(H1 & H2 & H3)]; [by left|right]. split_and!; [done|done|by right].
  - eexists. split; [reflexivity|]. split; [done|]. intros [_ Hf]%Forall_cons Hl. exfalso.
    destruct (Hlive Hf) as [Hl2 Hne]. destruct Hpre as [t Ht]. rewrite Ht in Hl. rewrite length_app in Hl. cbn in Hl.
    apply Hne. rewrite Ht. destruct t; [by rewrite app_nil_r|cbn in *; lia].
Qed.

(** C29.  [Ns_SockSendBufs] with at most [UIO_MAXIOV] buffers keeps to its arrays and, whatever
    part of the data the socket takes in each call, sends the bytes of the
    buffers in order, each once: it returns their number after the last one, or
    -1 after a beginning of them, but only when a call of the driver fails.  When no call
    fails and the driver takes at least a byte in the first call of every round, it returns after
    as many rounds as there are bytes, with all bytes sent. *)
Theorem SockSendBufs_sends_all maxiov bufs rounds :
  Forall iov_wf bufs -> 0 < maxiov -> Z.of_nat (length bufs) <= maxiov ->
  Z.of_nat (length (iov_content bufs)) < 2 ^ 64 ->
  exists res, Ns_SockSendBufs maxiov bufs rounds = Some res /\
    match res with
    | Sent n o => (n = Z.of_nat (length (iov_content bufs)) /\ o = iov_content bufs)
                  \/ (n = -1 /\ o `prefix_of` iov_content bufs /\ Exists fails rounds)
    | Running st => out st `prefix_of` iov_content bufs
    end /\
    (Forall (fun r => 0 < first r /\ 0 <= second r) rounds -> (length (iov_content bufs) < length rounds)%nat ->
     res = Sent (Z.of_nat (length (iov_content bufs))) (iov_content bufs)).
Proof.
  intros Hw Hm Hlen Hbig. destruct (sends_or_runs maxiov bufs rounds Hw Hm Hlen Hbig) as (res & E & Hres & Hlive). exists res. split; [done|]. split; [done|].
  intros Hr Hl. destruct Hlive as (n & o & ->); [eapply Forall_impl; [exact Hr|]; by intros r [? _]|done|].
  destruct Hres as [[-> ->]|(_ & _ & Hf)]; [done|]. exfalso. apply Exists_exists in Hf as (r & Hin & Hf). rewrite Forall_forall in Hr. destruct (Hr r Hin), Hf; lia.
Qed.

Lemma SockSendBufs_sends_all_witness :
  exists res, Ns_SockSendBufs 16 [mkIov (Some [1; 2; 3]) 3; mkIov None 0; mkIov (Some [4; 5]) 2]
      [mkRound 2 true 0; mkRound 1 true 2; mkRound 1 true 0; mkRound 9 false 0; mkRound 1 true 0; mkRound 1 true 0] = Some res /\ res = Sent 5 [1; 2; 3; 4; 5].
Proof.
  destruct (SockSendBufs_sends_all 16 [mkIov (Some [1; 2; 3]) 3; mkIov None 0; mkIov (Some [4; 5]) 2]
    [mkRound 2 true 0; mkRound 1 true 2; mkRound 1 true 0; mkRound 9 false 0; mkRound 1 true 0; mkRound 1 true 0]) as (res & Hres & _ & Hall).
  - repeat (apply Forall_cons; split; [done|]). by apply Forall_nil_2.
  - done.
  - done.
  - done.
  - exists res. split; [exact Hres|]. apply Hall; [|change (5 < 6)%nat; lia]. repeat (apply Forall_cons; split; [cbn; lia|]). by apply Forall_nil_2.
Defined.

(** With more buffers than the array holds, a send that takes only a part of the
    first ones makes the function put the next buffers over those that were not
    sent: with an array of 16 and buffers of one byte, 32 of them make it read
    behind the array, and of 18 the one that was not sent is left out. *)
Theorem SockSendBufs_overruns :
  Ns_SockSendBufs 16 ((fun i => mkIov (Some [i]) 1) <$> seqZ 0 32) [mkRound 1 true 0; mkRound 1 true 0] = None /\
  exists st, Ns_SockSendBufs 16 ((fun i => mkIov (Some [i]) 1) <$> seqZ 0 18) [mkRound 15 true 0; mkRound 9 true 0]
    = Some (Running st) /\ out st = seqZ 0 15 ++ [16; 17].
Proof. split; [vm_compute; reflexivity|]. eexists. split; vm_compute; reflexivity. Qed.

(** ** Lemmas on vectors of file ranges *)

Section FileLemmas.

Variable files : Z -> list Z.
Variable maxiov : Z.
Variable native : bool.
Hypothesis maxiov_pos : 0 < maxiov.

(** An answer: the number of bytes and the bytes that went out, a beginning of
    [data]; after an error the number is -1. *)
Definition took (data : list Z) (sent : Z) (o : list Z) : Prop :=
  (sent = -1 /\ o `prefix_of` data) \/ (0 <= sent <= Z.of_nat (length data) /\ o = take (Z.to_nat sent) data).

Lemma took_prefix data sent o : took data sent o -> o `prefix_of` data.
Proof. intros [[_ H]|[_ ->]]; [done|]. exists (drop (Z.to_nat sent) data). by rewrite take_drop. Qed.

Lemma driver_took r data : took data (driver_send r data).1 (driver_send r data).2.
Proof.
  pose proof (driver_send_spec r data) as H. destruct (driver_send r data) as [sent o]; cbn.
  destruct H as [[-> ->]|(H & -> & _)]; [left; split; [done|apply prefix_nil]|by right].
Qed.

Lemma sendfile_loop_ok fuel fdn offset toread nwrote o rs data :
  0 <= offset -> (Z.to_nat toread <= fuel)%nat -> 0 <= toread ->
  data = take (Z.to_nat toread) (drop (Z.to_nat offset) (files fdn)) -> Z.of_nat (length data) = toread ->
  exists sent s rs', sendfile_loop files fuel fdn offset toread nwrote o rs = Some (sent, o ++ s, rs') /\
    ((sent = -1 /\ s `prefix_of` data) \/ (sent = nwrote + Z.of_nat (length s) /\ s `prefix_of` data)).
Proof.
  revert offset toread nwrote o rs data.
  induction fuel as [|fuel IH]; intros offset toread nwrote o rs data Ho Hf Ht Hd Hl; cbn [sendfile_loop].
  - destruct (Z.leb_spec toread 0); [|lia]. exists nwrote, [], rs. rewrite app_nil_r. split; [done|]. right. cbn.
    split; [lia|apply prefix_nil].
  - destruct (Z.leb_spec toread 0).
    { exists nwrote, [], rs. rewrite app_nil_r. split; [done|]. right. cbn. split; [lia|apply prefix_nil]. }
    unfold pread. set (n := Z.min toread 16384). set (buf := take (Z.to_nat n) (drop (Z.to_nat offset) (files fdn))).
    assert (Hbuf : buf = take (Z.to_nat n) data).
    { subst buf. rewrite Hd, take_take. f_equal. lia. }
    assert (Hbl : Z.of_nat (length buf) = n) by (rewrite Hbuf, length_take; lia).
    destruct (Z.leb_spec (Z.of_nat (length buf)) 0); [lia|].
    destruct (answer rs) as [r rs1]. pose proof (driver_send_spec r buf) as HS.
    destruct (driver_send r buf) as [sent s]. destruct HS as [[-> ->]|(Hs & Hso & _)].
    { exists (-1), [], rs1. split; [done|]. left. split; [done|apply prefix_nil]. }
    destruct (Z.eqb_spec sent (-1)); [lia|].
    assert (Hpre : forall k, take k buf `prefix_of` data).
    { intros k. rewrite Hbuf, take_take. exists (drop (k `min` Z.to_nat n) data). by rewrite take_drop. }
    destruct (Z.eqb_spec sent (Z.of_nat (length buf))) as [Hall|Hpart]; cbn [negb].
    2:{ exists (nwrote + sent), s, rs1. split; [done|]. right. split; [rewrite Hso, length_take; lia|].
        rewrite Hso. apply Hpre. }
    assert (Hsb : s = buf) by (rewrite Hso, Hall, Nat2Z.id; apply firstn_all).
    destruct (IH (offset + Z.of_nat (length buf)) (toread - Z.of_nat (length buf)) (nwrote + sent) (o ++ s) rs1
      (drop (Z.to_nat n) data)) as (sent' & s' & rs' & HI & Hc); [lia|lia|lia| |lens|].
    { rewrite Hd. replace (Z.to_nat toread) with (Z.to_nat n + Z.to_nat (toread - Z.of_nat (length buf)))%nat by lia.
      rewrite <- take_drop_commute, drop_drop. do 2 f_equal. lia. }
    exists sent', (s ++ s'), rs'. rewrite app_assoc. split; [done|].
    assert (Hext : s' `prefix_of` drop (Z.to_nat n) data -> s ++ s' `prefix_of` data).
    { intros [t Hx]. exists t. rewrite <- (take_drop (Z.to_nat n) data), Hx, Hsb, Hbuf. by rewrite app_assoc. }
    destruct Hc as [[-> Hp]|[-> Hp]]; [left|right]; (split; [|by apply Hext]); [done|]. rewrite Hsb. lens.
Qed.
Lemma prefix_take (s data : list Z) : s `prefix_of` data -> s = take (length s) data.
Proof. intros [t ->]. by rewrite take_app_length. Qed.

Lemma prefix_take_app k (a b : list Z) : take k a `prefix_of` a ++ b.
Proof. exists (drop k a ++ b). by rewrite app_assoc, take_drop. Qed.

Lemma ns_sendfile_took fd offset len rs :
  0 <= offset -> 0 <= len -> Z.of_nat (length (pread files fd len offset)) = len ->
  exists sent s rs', ns_sendfile files fd offset len rs = Some (sent, s, rs') /\
    took (pread files fd len offset) sent s.
Proof.
  intros Ho Hl Hd. unfold ns_sendfile.
  destruct (sendfile_loop_ok (Z.to_nat len) fd offset len 0 [] rs _ Ho (le_n _) Hl eq_refl Hd)
    as (sent & s & rs' & -> & HC).
  exists sent, s, rs'. split; [done|]. destruct HC as [[-> HC]|[-> HC]]; [by left|right].
  split; [|rewrite Z.add_0_l, Nat2Z.id; by apply prefix_take]. apply prefix_length in HC. unfold pread. lia.
Qed.

Lemma SendFile_took v rs :
  vec_wf files v -> 0 <= fd v ->
  exists sent s rs', SendFile files native (fd v) (offset v) (length_ v) rs = Some (sent, s, rs') /\
    took (vec_data files v) sent s.
Proof.
  intros (Hl & Ho & Hd) Hfd. unfold SendFile. assert (Hv : vec_data files v = pread files (fd v) (length_ v) (offset v)).
  { unfold vec_data. destruct (Z.ltb_spec (fd v) 0); [lia|done]. }
  rewrite Hv in *. destruct native; cbn [negb]; [|by apply ns_sendfile_took].
  destruct (answer rs) as [r rs']. destruct (r =? ENOSYS); [by apply ns_sendfile_took|].
  pose proof (driver_took r (pread files (fd v) (length_ v) (offset v))) as HT.
  destruct (driver_send _ _) as [sent s]. by exists sent, s, rs'.
Qed.

Lemma vec_content_cons v l : content files (v :: l) = vec_data files v ++ content files l.
Proof. done. Qed.

(** [Ns_SockSendFileBufs] sends a beginning of the pending buffers and the vectors,
    and counts it. *)
Lemma sendbufs_loop_ok l sb towrite nwrote o rs :
  Forall (vec_wf files) l -> Z.of_nat (length (iov_content sb)) <= towrite ->
  Z.of_nat (length sb) < maxiov ->
  exists sent s rs', sendbufs_loop files maxiov native l sb towrite nwrote o rs = Some (sent, o ++ s, rs') /\
    s `prefix_of` (iov_content sb ++ content files l) /\ (sent = -1 \/ sent = nwrote + Z.of_nat (length s)).
Proof.
  revert sb towrite nwrote o rs. induction l as [|v l IH]; intros sb towrite nwrote o rs Hw Ht Hsb; cbn [sendbufs_loop].
  { exists nwrote, [], rs. rewrite app_nil_r. split_and!; [done|apply prefix_nil|right; cbn; lia]. }
  apply Forall_cons in Hw as [Hv Hw]. rewrite vec_content_cons. pose proof Hv as (Hl & Ho & Hd).
  destruct (Z.eqb_spec (length_ v) 0) as [Hz|Hz].
  { assert (vec_data files v = []) as -> by (destruct (vec_data files v); [done|cbn in Hd; lia]). by apply IH. }
  destruct (Z.ltb_spec (fd v) 0) as [Hmem|Hfile]; cbn [andb negb orb].
  - (* memory *)
    set (cell := mkIov _ _).
    assert (Hcell : iov_data cell = vec_data files v).
    { unfold vec_data, iov_data. destruct (Z.ltb_spec (fd v) 0); [|lia]. subst cell; cbn. by destruct (buffer v). }
    assert (Hcont : iov_content (sb ++ [cell]) = iov_content sb ++ vec_data files v).
    { rewrite iov_content_app. cbn. by rewrite Hcell, app_nil_r. }
    destruct (Z.ltb_spec maxiov (Z.of_nat (length (sb ++ [cell])))) as [Hx|_]; [lens|]. rewrite orb_false_r.
    destruct ((Z.of_nat (length (sb ++ [cell])) =? maxiov) || bool_decide (l = [])) eqn:Hflush.
    + destruct (answer rs) as [r rs1]. change (concat (iov_data <$> sb ++ [cell])) with (iov_content (sb ++ [cell])).
      rewrite Hcont. pose proof (driver_send_spec r (iov_content sb ++ vec_data files v)) as HS.
      destruct (driver_send _ _) as [sent s]. destruct HS as [[-> ->]|(Hs & Hso & _)].
      { exists (-1), [], rs1. split_and!; [done|apply prefix_nil|by left]. }
      destruct (Z.eqb_spec sent (-1)); [lia|].
      assert (Hsl : Z.of_nat (length s) = sent) by (rewrite Hso, length_take; lia).
      assert (Hpre : s `prefix_of` iov_content sb ++ vec_data files v ++ content files l).
      { rewrite Hso, app_assoc. apply prefix_take_app. }
      destruct (Z.ltb_spec sent (towrite + length_ v)) as [Hlt|Hge].
      { exists (nwrote + sent), s, rs1. split_and!; [done|done|right; lia]. }
      assert (Hall : s = iov_content sb ++ vec_data files v).
      { rewrite Hso. apply take_ge. lens. }
      destruct (IH [] (towrite + length_ v) (nwrote + sent) (o ++ s) rs1) as (sent' & s' & rs' & HI & Hp & Hc);
        [done|cbn; lens|cbn; lia|].
      exists sent', (s ++ s'), rs'. rewrite app_assoc. split_and!; [done| |].
      * rewrite Hall, <- !app_assoc. do 2 apply prefix_app. done.
      * destruct Hc as [->|Hc]; [by left|right]. rewrite Hc. lens.
    + apply orb_false_iff in Hflush as [Hne%Z.eqb_neq _].
      destruct (IH (sb ++ [cell]) (towrite + length_ v) nwrote o rs) as (sent & s & rs' & HI & Hp & Hc);
        [done|rewrite Hcont; lens|lens|].
      exists sent, s, rs'. split_and!; [done| |done]. by rewrite Hcont, <- app_assoc in Hp.
  - (* file *)
    destruct (Z.ltb_spec maxiov (Z.of_nat (length sb))); [lia|].
    destruct (Z.ltb_spec 0 (Z.of_nat (length sb))) as [Hpend|Hnone].
    + destruct (answer rs) as [r rs1]. change (concat (iov_data <$> sb)) with (iov_content sb).
      pose proof (driver_send_spec r (iov_content sb)) as HS. destruct (driver_send _ _) as [sent s].
      destruct HS as [[-> ->]|(Hs & Hso & _)].
      { exists (-1), [], rs1. split_and!; [done|apply prefix_nil|by left]. }
      destruct (Z.eqb_spec sent (-1)); [lia|]. destruct (Z.ltb_spec sent (towrite + length_ v)); [|lia].
      exists (nwrote + sent), s, rs1. split_and!; [done| |right; rewrite Hso, length_take; lia].
      rewrite Hso. apply prefix_take_app.
    + destruct sb; [|cbn in Hnone; lia]. cbn [iov_content app concat fmap list_fmap] in *.
      destruct (SendFile_took v rs Hv Hfile) as (sent & s & rs1 & -> & HT). cbn [mbind option_bind].
      pose proof (took_prefix _ _ _ HT) as Hpre. destruct HT as [[-> _]|[Hs Hso]].
      { exists (-1), s, rs1. split_and!; [done| |by left]. by apply prefix_app_r. }
      destruct (Z.eqb_spec sent (-1)); [lia|].
      assert (Hsl : Z.of_nat (length s) = sent) by (rewrite Hso, length_take; lia).
      destruct (Z.ltb_spec sent (towrite + length_ v)) as [Hlt|Hge].
      { exists (nwrote + sent), s, rs1. split_and!; [done|by apply prefix_app_r|right; lia]. }
      assert (Hall : s = vec_data files v) by (rewrite Hso; apply take_ge; cbn in *; lia).
      destruct (IH [] 0 (nwrote + sent) (o ++ s) rs1) as (sent' & s' & rs' & HI & Hp & Hc); [done|done|cbn; lia|].
      exists sent', (s ++ s'), rs'. rewrite app_assoc. split_and!; [done| |].
      * rewrite Hall. by apply prefix_app.
      * destruct Hc as [->|Hc]; [by left|right]. rewrite Hc. lens.
Qed.

Lemma ResetFileVec_ok bufs sent :
  Forall (vec_wf files) bufs -> 0 <= sent <= Z.of_nat (length (content files bufs)) ->
  content files (Ns_ResetFileVec bufs sent).1 = drop (Z.to_nat sent) (content files bufs) /\
  Forall (vec_wf files) (Ns_ResetFileVec bufs sent).1.
Proof.
  revert sent. induction bufs as [|v bufs IH]; intros sent Hw Hs; cbn [Ns_ResetFileVec]; [cbn; by rewrite drop_nil|].
  apply Forall_cons in Hw as [Hv Hw]. rewrite vec_content_cons in *. pose proof Hv as (Hl & Ho & Hd).
  destruct (Z.eqb_spec sent 0) as [->|Hs0]; [split; [done|by apply Forall_cons]|].
  rewrite length_app in Hs.
  destruct (Z.ltb_spec 0 (length_ v)) as [Hp|Hz]; [destruct (Z.leb_spec (length_ v) sent) as [Hle|Hgt]|].
  - destruct (IH (sent - length_ v) Hw) as [Hc Hw']; [lia|]. destruct (Ns_ResetFileVec bufs _) as [rest i]. cbn [fst] in *.
    rewrite vec_content_cons, Hc. assert (He : vec_data files (mkFileVec None 0 0 (fd v)) = []).
    { unfold vec_data; cbn. by destruct (fd v <? 0). }
    split.
    + rewrite He, drop_app_ge by lia. cbn [app]. f_equal. lia.
    + apply Forall_cons. split; [|done]. split_and!; cbn; [done|done|by rewrite He].
  - assert (He : vec_data files (mkFileVec (buffer v) (length_ v - sent) (offset v + sent) (fd v))
      = drop (Z.to_nat sent) (vec_data files v)).
    { assert (Hx : forall b : list Z, take (Z.to_nat (length_ v - sent)) (drop (Z.to_nat (offset v + sent)) b)
        = drop (Z.to_nat sent) (take (Z.to_nat (length_ v)) (drop (Z.to_nat (offset v)) b))).
      { intros b. replace (Z.to_nat (length_ v)) with (Z.to_nat sent + Z.to_nat (length_ v - sent))%nat by lia.
        rewrite <- take_drop_commute, drop_drop. do 2 f_equal. lia. }
      unfold vec_data; cbn. destruct (fd v <? 0); [destruct (buffer v)|]; rewrite ?Hx; [done|by rewrite drop_nil|done]. }
    cbn [fst]. rewrite vec_content_cons, He, drop_app_le by lia. split; [done|].
    apply Forall_cons. split; [|done]. split_and!; cbn; [lia|lia|]. rewrite He. lens.
  - destruct (IH sent Hw) as [Hc Hw']; [lia|]. destruct (Ns_ResetFileVec bufs _) as [rest i]. cbn [fst] in *.
    rewrite vec_content_cons, Hc. assert (He : vec_data files v = []) by (destruct (vec_data files v); [done|cbn in Hd; lia]).
    rewrite He. split; [done|]. by apply Forall_cons.
Qed.

Lemma sum_lengths_content bufs : Forall (vec_wf files) bufs -> sum_lengths bufs = Z.of_nat (length (content files bufs)).
Proof.
  induction 1 as [|v l (_ & _ & Hd) _ IH]; [done|]. rewrite vec_content_cons. cbn. unfold sum_lengths in IH. lens.
Qed.

End FileLemmas.

Lemma conn_send_ok files maxiov native bufs rounds :
  0 < maxiov -> Forall (vec_wf files) bufs ->
  exists res, Ns_ConnSendFileVec files maxiov native bufs rounds = Some res /\
    match res with
    | ConnOk o => o = content files bufs
    | ConnError o => o `prefix_of` content files bufs
    | ConnRunning rest o => content files bufs = o ++ content files rest
    end.
Proof.
  intros Hm Hw. unfold Ns_ConnSendFileVec. rewrite (sum_lengths_content files) by done. set (total := content files bufs).
  assert (H : forall o bufs', Forall (vec_wf files) bufs' -> total = o ++ content files bufs' ->
    exists res, conn_loop files maxiov native rounds bufs' (Z.of_nat (length o)) (Z.of_nat (length total)) o = Some res /\
    match res with
    | ConnOk o => o = total
    | ConnError o => o `prefix_of` total
    | ConnRunning rest o => total = o ++ content files rest
    end).
  { clearbody total. clear bufs Hw.
    induction rounds as [|[rs ready] rounds IH]; intros o bufs Hw Ht; cbn [conn_loop].
    - destruct (Z.ltb_spec (Z.of_nat (length o)) (Z.of_nat (length total))) as [|Hge]; [by eexists|].
      destruct (Z.eqb_spec (Z.of_nat (length o)) (Z.of_nat (length total))); eexists; (split; [reflexivity|]).
      + rewrite Ht. rewrite Ht in *. destruct (content files bufs); [by rewrite app_nil_r|lens].
      + by eexists.
    - destruct (Z.ltb_spec (Z.of_nat (length o)) (Z.of_nat (length total))) as [Hlt|Hge].
      2:{ destruct (Z.eqb_spec (Z.of_nat (length o)) (Z.of_nat (length total))); eexists; (split; [reflexivity|]).
          + rewrite Ht. rewrite Ht in *. destruct (content files bufs); [by rewrite app_nil_r|lens].
          + by eexists. }
      destruct (sendbufs_loop_ok files maxiov native Hm bufs [] 0 0 [] rs Hw) as (sent & s & rs' & HS & Hp & Hc); [done|cbn; lia|].
      unfold Ns_SockSendFileBufs. rewrite HS. cbn [mbind option_bind app]. cbn [iov_content app concat fmap list_fmap] in Hp.
      assert (Hpre : o ++ s `prefix_of` total) by (rewrite Ht; by apply prefix_app).
      destruct (Z.eqb_spec sent (-1)) as [->|Hs1]; [by eexists|]. destruct Hc as [?|Hc]; [done|].
      rewrite Z.add_0_l in Hc. replace (Z.of_nat (length o) + sent) with (Z.of_nat (length (o ++ s))) by lens.
      assert (Hsl : 0 <= sent <= Z.of_nat (length (content files bufs))) by (apply prefix_length in Hp; lia).
      assert (Hs : s = take (Z.to_nat sent) (content files bufs)) by (rewrite Hc, Nat2Z.id; by apply prefix_take).
      destruct (Z.ltb_spec (Z.of_nat (length (o ++ s))) (Z.of_nat (length total))) as [Hmore|Hdone].
      + destruct ready; [|by eexists]. destruct (ResetFileVec_ok files bufs sent Hw Hsl) as [Hrc Hrw]. apply IH.
        * by destruct (0 <? sent).
        * destruct (Z.ltb_spec 0 sent) as [|Hz]; rewrite ?Hrc, <- app_assoc, Ht; f_equal; rewrite Hs at 1.
          -- by rewrite take_drop.
          -- assert (sent = 0) as -> by lia. done.
      + destruct Hpre as [t Htot]. destruct t; [|rewrite Htot in Hdone; lens]. rewrite app_nil_r in Htot.
        destruct (IH total []) as (res & HI & Hres); [by apply Forall_nil_2|by rewrite app_nil_r|].
        rewrite <- Htot. destruct rounds as [|[rs2 rd2] rounds]; cbn [conn_loop] in *;
          (destruct (Z.ltb_spec (Z.of_nat (length total)) (Z.of_nat (length total))); [lia|]);
          rewrite Z.eqb_refl; by eexists. }
  apply (H [] bufs Hw eq_refl).
Qed.

(** [Ns_ConnSendFileVec] sends memory and file ranges in order, each byte once,
    through partial sends of any size, with the system's [sendfile] or its
    emulation: it reports success only when everything has been sent, and what
    has been sent otherwise is a beginning of the contents. *)
Theorem ConnSendFileVec_sends_all files maxiov native bufs rounds :
  0 < maxiov -> Forall (vec_wf files) bufs ->
  exists res, Ns_ConnSendFileVec files maxiov native bufs rounds = Some res /\
    match res with
    | ConnOk o => o = content files bufs
    | ConnError o => o `prefix_of` content files bufs
    | ConnRunning rest o => content files bufs = o ++ content files rest
    end.
Proof. apply conn_send_ok. Qed.

Lemma ConnSendFileVec_sends_all_witness :
  exists res, Ns_ConnSendFileVec (fun _ => [10; 11; 12; 13; 14]) 16 false
      [mkFileVec (Some [1; 2]) 2 0 (-1); mkFileVec None 3 1 5; mkFileVec (Some [7; 8; 9]) 2 1 (-1)]
      [([1], true); ([9], true); ([2], true); ([9; 9], true); ([9], true)] = Some res /\
    res = ConnOk [1; 2; 11; 12; 13; 8; 9].
Proof.
  destruct (ConnSendFileVec_sends_all (fun _ => [10; 11; 12; 13; 14]) 16 false
    [mkFileVec (Some [1; 2]) 2 0 (-1); mkFileVec None 3 1 5; mkFileVec (Some [7; 8; 9]) 2 1 (-1)]
    [([1], true); ([9], true); ([2], true); ([9; 9], true); ([9], true)]) as (res & Hres & _).
  - done.
  - repeat (apply Forall_cons; split; [by split_and!|]). by apply Forall_nil_2.
  - exists res. split; [exact Hres|]. vm_compute in Hres. by injection Hres as <-.
Defined.
