(* ===== verification/Cache.v ===== *)
(** * Cache: the size limited, transactional LRU cache of nsd/cache.c.

    The [Entry] structures live in a heap indexed by address; they form a doubly
    linked list from [firstEntryPtr] (most recently used) to [lastEntryPtr], and
    are found by key in [entriesTable] and by address in [uncommittedTable].
    Following a NULL or dangling pointer is [None].  The theorems are in CacheLru. *)

From S2P Require Import Prelude Time.

(** ** Data *)

Record Entry := mkEntry {
  key : list Z;                 (* the key of [hPtr] in [entriesTable] *)
  nextPtr : option Z;
  prevPtr : option Z;
  expires : Ns_Time;
  size : Z;
  cost : Z;
  count : Z;
  value : option Z;
  uncommittedValue : option Z;
  transactionEpoch : Z
}.

Record Stats := mkStats {
  nhit : Z; nmiss : Z; nexpired : Z; nflushed : Z; npruned : Z; ncommit : Z; nrollback : Z
}.

(** [heap] holds the allocated entries and [freed] the values handed to
    [freeProc], the last one first. *)
Record Cache := mkCache {
  heap : gmap Z Entry;
  firstEntryPtr : option Z;
  lastEntryPtr : option Z;
  maxSize : Z;
  currentSize : Z;
  freeProc : bool;              (* [freeProc != NULL] *)
  entriesTable : gmap (list Z) Z;
  uncommittedTable : gset Z;
  stats : Stats;
  freed : list Z
}.

(** *** Assignments to the fields *)

Definition set_next (n : option Z) (e : Entry) : Entry :=
  mkEntry (key e) n (prevPtr e) (expires e) (size e) (cost e) (count e) (value e)
    (uncommittedValue e) (transactionEpoch e).
Definition set_prev (p : option Z) (e : Entry) : Entry :=
  mkEntry (key e) (nextPtr e) p (expires e) (size e) (cost e) (count e) (value e)
    (uncommittedValue e) (transactionEpoch e).
Definition set_count (k : Z) (e : Entry) : Entry :=
  mkEntry (key e) (nextPtr e) (prevPtr e) (expires e) (size e) (cost e) k (value e)
    (uncommittedValue e) (transactionEpoch e).
Definition set_values (v u : option Z) (ep : Z) (e : Entry) : Entry :=
  mkEntry (key e) (nextPtr e) (prevPtr e) (expires e) (size e) (cost e) (count e) v u ep.
Definition set_extent (sz : Z) (t : Ns_Time) (e : Entry) : Entry :=
  mkEntry (key e) (nextPtr e) (prevPtr e) t sz (cost e) (count e) (value e)
    (uncommittedValue e) (transactionEpoch e).
Definition set_cost (k : Z) (e : Entry) : Entry :=
  mkEntry (key e) (nextPtr e) (prevPtr e) (expires e) (size e) k (count e) (value e)
    (uncommittedValue e) (transactionEpoch e).

Definition set_links (h : gmap Z Entry) (f l : option Z) (c : Cache) : Cache :=
  mkCache h f l (maxSize c) (currentSize c) (freeProc c) (entriesTable c) (uncommittedTable c)
    (stats c) (freed c).
Definition set_heap (h : gmap Z Entry) (c : Cache) : Cache :=
  set_links h (firstEntryPtr c) (lastEntryPtr c) c.
Definition set_first (f : option Z) (c : Cache) : Cache := set_links (heap c) f (lastEntryPtr c) c.
Definition set_last (l : option Z) (c : Cache) : Cache := set_links (heap c) (firstEntryPtr c) l c.
Definition set_maxSize (m : Z) (c : Cache) : Cache :=
  mkCache (heap c) (firstEntryPtr c) (lastEntryPtr c) m (currentSize c) (freeProc c) (entriesTable c)
    (uncommittedTable c) (stats c) (freed c).
Definition set_tables (t : gmap (list Z) Z) (u : gset Z) (c : Cache) : Cache :=
  mkCache (heap c) (firstEntryPtr c) (lastEntryPtr c) (maxSize c) (currentSize c) (freeProc c) t u
    (stats c) (freed c).
Definition set_stats (st : Stats) (c : Cache) : Cache :=
  mkCache (heap c) (firstEntryPtr c) (lastEntryPtr c) (maxSize c) (currentSize c) (freeProc c)
    (entriesTable c) (uncommittedTable c) st (freed c).

(** [currentSize += k], in [size_t]. *)
Definition grow (k : Z) (c : Cache) : Cache :=
  mkCache (heap c) (firstEntryPtr c) (lastEntryPtr c) (maxSize c) (wrap64 (currentSize c + k))
    (freeProc c) (entriesTable c) (uncommittedTable c) (stats c) (freed c).

(** The call of [freeProc] on the value, if there is one. *)
Definition release (v : option Z) (c : Cache) : Cache :=
  mkCache (heap c) (firstEntryPtr c) (lastEntryPtr c) (maxSize c) (currentSize c)
    (freeProc c) (entriesTable c) (uncommittedTable c) (stats c)
    (match v with Some x => if freeProc c then x :: freed c else freed c | None => freed c end).

(** [ePtr->field = ...] through a pointer: it faults when the pointer dangles. *)
Definition upd (f : Entry -> Entry) (a : Z) (c : Cache) : option Cache :=
  e ← heap c !! a; Some (set_heap (<[a := f e]> (heap c)) c).

(** The counters are unsigned long. *)
Inductive Counter := Hit | Miss | Expire | Flushed | Pruned | Committed | Rolledback.
Definition add_stat (k : Counter) (n : Z) (s : Stats) : Stats :=
  let '(mkStats h m e f p c r) := s in
  match k with
  | Hit => mkStats (wrap64 (h + n)) m e f p c r
  | Miss => mkStats h (wrap64 (m + n)) e f p c r
  | Expire => mkStats h m (wrap64 (e + n)) f p c r
  | Flushed => mkStats h m e (wrap64 (f + n)) p c r
  | Pruned => mkStats h m e f (wrap64 (p + n)) c r
  | Committed => mkStats h m e f p (wrap64 (c + n)) r
  | Rolledback => mkStats h m e f p c (wrap64 (r + n))
  end.
Definition bump (k : Counter) (c : Cache) : Cache := set_stats (add_stat k 1 (stats c)) c.

(** The [Ns_CacheTransactionStack] argument: [None] is NULL, otherwise the epochs
    below [depth]. *)
Definition TransactionStack := option (list Z).

(** ** The operations of the source *)

Section Operations.

(** [sizeof(Entry) + sizeof(Tcl_HashEntry)]. *)
Variable overhead : Z.

(** The wall clock is an argument: [now] is what [Ns_GetTime] gives, or the time
    of the search. *)
Definition Expired (e : Entry) (now : Ns_Time) : bool :=
  (0 <? sec (expires e)) && ((Ns_DiffTime (expires e) now).1 <? 0).

Definition Remove (a : Z) (c : Cache) : option Cache :=
  e ← heap c !! a;
  c ← match prevPtr e with
      | Some p => upd (set_next (nextPtr e)) p c
      | None => Some (set_first (nextPtr e) c)
      end;
  e ← heap c !! a;
  c ← match nextPtr e with
      | Some n => upd (set_prev (prevPtr e)) n c
      | None => Some (set_last (prevPtr e) c)
      end;
  upd (fun e => set_prev None (set_next None e)) a c.

Definition Push (a : Z) (c : Cache) : option Cache :=
  c ← match firstEntryPtr c with
      | Some f => upd (set_prev (Some a)) f c
      | None => Some c
      end;
  c ← upd (fun e => set_next (firstEntryPtr c) (set_prev None e)) a c;
  let c := set_first (Some a) c in
  Some (match lastEntryPtr c with None => set_last (Some a) c | Some _ => c end).

Definition Ns_CacheCreateSz (max : Z) (fp : bool) : Cache :=
  mkCache ∅ None None max 0 fp ∅ ∅ (mkStats 0 0 0 0 0 0 0) [].

(** The loop of [Ns_CacheGetValueT] over the stack. *)
Fixpoint on_stack (ep : Z) (stack : list Z) : bool :=
  match stack with [] => false | x :: stack => (ep =? x) || on_stack ep stack end.

Definition Ns_CacheGetValueT (e : Entry) (ts : TransactionStack) : option Z :=
  match value e with
  | Some v => Some v
  | None =>
      match ts with
      | Some stack => if on_stack (transactionEpoch e) stack then uncommittedValue e else None
      | None => None
      end
  end.

Definition Ns_CacheUnsetValue (a : Z) (c : Cache) : option Cache :=
  e ← heap c !! a;
  match value e, uncommittedValue e with
  | None, None => Some c
  | _, _ =>
      let v := match value e with Some _ => value e | None => uncommittedValue e end in
      c ← match value e with
          | Some _ => upd (fun e => set_values None (uncommittedValue e) (transactionEpoch e) e) a c
          | None => upd (fun e => set_values (value e) None (transactionEpoch e) e) a c
          end;
      let c := grow (- size e) c in
      c ← upd (set_extent 0 (mkTime 0 0)) a c;
      Some (release v c)
  end.

Definition Ns_CacheDeleteEntry (a : Z) (c : Cache) : option Cache :=
  e ← heap c !! a;
  let c := grow (- (overhead + Z.of_nat (length (key e)))) c in
  c ← Ns_CacheUnsetValue a c;
  c ← Remove a c;
  let c := set_tables (delete (key e) (entriesTable c)) (uncommittedTable c) c in
  let c := if decide (a ∈ uncommittedTable c)
           then set_tables (entriesTable c) (uncommittedTable c ∖ {[a]}) c else c in
  Some (set_heap (delete a (heap c)) c).

Definition Ns_CacheFlushEntry (a : Z) (c : Cache) : option Cache :=
  Ns_CacheDeleteEntry a (bump Flushed c).

Definition Ns_CacheFindEntryT (k : list Z) (ts : TransactionStack) (now : Ns_Time) (c : Cache)
  : option (Cache * option Z) :=
  match entriesTable c !! k with
  | None => Some (bump Miss c, None)
  | Some a =>
      e ← heap c !! a;
      if match value e with
         | Some _ => false
         | None => match ts with None => true | Some stack => bool_decide (stack = []) end
         end
      then Some (bump Miss c, None)
      else if Expired e now then c ← Ns_CacheDeleteEntry a c; Some (bump Miss c, None)
      else match match value e with None => Ns_CacheGetValueT e ts | Some v => Some v end with
           | None => Some (bump Miss c, None)
           | Some _ =>
               c ← Remove a (bump Hit c);
               c ← upd (fun e => set_count (wrap64 (count e + 1)) e) a c;
               c ← Push a c;
               Some (c, Some a)
           end
  end.

Definition Ns_CacheFindEntry (k : list Z) (now : Ns_Time) (c : Cache) : option (Cache * option Z) :=
  Ns_CacheFindEntryT k None now c.

(** [fresh] is the address that [ns_calloc] gives to a new entry. *)
Definition Ns_CacheCreateEntry (k : list Z) (now : Ns_Time) (fresh : Z) (c : Cache)
  : option (Cache * (Z * bool)) :=
  match entriesTable c !! k with
  | None =>
      let c := set_heap (<[fresh := mkEntry k None None (mkTime 0 0) 0 0 0 None None 0]> (heap c)) c in
      let c := set_tables (<[k := fresh]> (entriesTable c)) (uncommittedTable c) c in
      let c := bump Miss (grow (overhead + Z.of_nat (length k)) c) in
      c ← Push fresh c;
      Some (c, (fresh, true))
  | Some a =>
      e ← heap c !! a;
      '(c, isNew) ←
        (if Expired e now
         then c ← Ns_CacheUnsetValue a (bump Expire c); Some (c, true)
         else c ← upd (fun e => set_count (wrap64 (count e + 1)) e) a c; Some (bump Hit c, false));
      c ← Remove a c;
      c ← Push a c;
      Some (c, (a, isNew))
  end.

(** [Ns_CacheTimedWait] releases the lock: what it gives, with the cache as the
    other threads leave it, the time and the address that the allocator would give
    when the entry is asked for again. *)
Record Wakeup := mkWakeup { wake_ok : bool; wake_cache : Cache; wake_now : Ns_Time; wake_fresh : Z }.

Inductive WaitResult := Waiting | Done (c : Cache) (entry : option Z) (isNew : bool).

Definition has_value (a : Z) (ts : TransactionStack) (c : Cache) : option bool :=
  e ← heap c !! a; Some (bool_decide (Ns_CacheGetValueT e ts <> None)).

Fixpoint wait_loop (k : list Z) (ts : TransactionStack) (waits : list Wakeup) : option WaitResult :=
  match waits with
  | [] => Some Waiting
  | w :: waits =>
      '(c, (a, isNew)) ← Ns_CacheCreateEntry k (wake_now w) (wake_fresh w) (wake_cache w);
      present ← has_value a ts c;
      if wake_ok w && negb isNew && negb present then wait_loop k ts waits
      else Some (Done c (if wake_ok w then Some a else None) isNew)
  end.

Definition Ns_CacheWaitCreateEntryT (k : list Z) (ts : TransactionStack) (now : Ns_Time) (fresh : Z)
    (waits : list Wakeup) (c : Cache) : option WaitResult :=
  '(c, (a, isNew)) ← Ns_CacheCreateEntry k now fresh c;
  present ← has_value a ts c;
  if negb isNew && negb present then wait_loop k ts waits else Some (Done c (Some a) isNew).

Definition Ns_CacheSetMaxsize (m : Z) (c : Cache) : Cache * Z := (set_maxSize m c, maxSize c).

(** The loop that makes space for the new entry.  Every round deletes an entry,
    so that the number of the entries bounds the rounds. *)
Fixpoint prune_loop (fuel : nat) (max a : Z) (c : Cache) : option Cache :=
  match fuel with
  | O => None
  | S fuel =>
      if max <? currentSize c then
        if decide (lastEntryPtr c = Some a) then Some c else
        l ← lastEntryPtr c;
        e ← heap c !! l;
        match value e with
        | None => Some c
        | Some _ => c ← Ns_CacheDeleteEntry l c; prune_loop fuel max a (bump Pruned c)
        end
      else Some c
  end.

Definition Ns_CacheSetValueExpires (a : Z) (v : option Z) (sz : Z) (timeout : option Ns_Time)
    (cst max epoch : Z) (c : Cache) : option (Cache * Z) :=
  c ← Ns_CacheUnsetValue a c;
  '(c, result) ←
    (if epoch =? 0
     then c ← upd (fun e => set_values v (uncommittedValue e) (transactionEpoch e) e) a c; Some (c, 0)
     else c ← upd (fun e => set_values (value e) v epoch e) a c;
          Some (set_tables (entriesTable c) ({[a]} ∪ uncommittedTable c) c, 1));
  c ← upd (fun e => set_count 1 (set_cost cst (set_extent sz
             (match timeout with Some t => t | None => expires e end) e))) a c;
  let c := grow sz c in
  let max' := if max =? 0 then maxSize c else max in
  let c := if max =? 0 then c else if negb (max =? maxSize c) then set_maxSize max c else c in
  c ← (if 0 <? max' then prune_loop (S (base.size (heap c))) max' a c else Some c);
  Some (c, result).

Definition Ns_CacheSetValueSz (a v sz : Z) (c : Cache) : option Cache :=
  '(c, _) ← Ns_CacheSetValueExpires a (Some v) sz None 0 0 0 c; Some c.

Definition Ns_CacheSetValue (a v : Z) (c : Cache) : option Cache := Ns_CacheSetValueSz a v 0 c.

(** A search over [entriesTable]: the entries that [Tcl_NextHashEntry] has not
    given yet, in the order of the buckets. *)
Fixpoint Ns_CacheNextEntryT (rest : list Z) (ts : TransactionStack) (now : Ns_Time) (c : Cache)
  : option (Cache * (option Z * list Z)) :=
  match rest with
  | [] => Some (c, (None, []))
  | a :: rest =>
      e ← heap c !! a;
      match Ns_CacheGetValueT e ts with
      | Some _ =>
          if negb (Expired e now) then Some (c, (Some a, rest))
          else c ← Ns_CacheDeleteEntry a (bump Expire c); Ns_CacheNextEntryT rest ts now c
      | None => Ns_CacheNextEntryT rest ts now c
      end
  end.

(** [order] is the order in which the search visits [entriesTable]. *)
Definition Ns_CacheFirstEntryT (order : list Z) (ts : TransactionStack) (now : Ns_Time) (c : Cache)
  : option (Cache * (option Z * list Z)) :=
  Ns_CacheNextEntryT order ts now c.

Fixpoint flush_loop (fuel : nat) (entry : option Z) (rest : list Z) (now : Ns_Time) (n : Z) (c : Cache)
  : option (Cache * Z) :=
  match entry with
  | None => Some (c, n)
  | Some a =>
      match fuel with
      | O => None
      | S fuel =>
          c ← Ns_CacheDeleteEntry a c;
          '(c, (entry, rest)) ← Ns_CacheNextEntryT rest None now c;
          flush_loop fuel entry rest now (n + 1) c
      end
  end.

Definition Ns_CacheFlush (order : list Z) (now : Ns_Time) (c : Cache) : option (Cache * Z) :=
  '(c, (entry, rest)) ← Ns_CacheFirstEntryT order None now c;
  '(c, n) ← flush_loop (S (length order)) entry rest now 0 c;
  Some (bump Flushed c, n).

(** [order] is the order in which the search visits [uncommittedTable]. *)
Fixpoint CacheTransaction (order : list Z) (epoch : Z) (commit : bool) (n : Z) (c : Cache)
  : option (Cache * Z) :=
  match order with
  | [] => Some (c, n)
  | a :: order =>
      e ← heap c !! a;
      match value e with
      | Some _ => CacheTransaction order epoch commit n c
      | None =>
          if transactionEpoch e =? epoch then
            c ← (if commit
                 then c ← upd (set_values (uncommittedValue e) None 0) a c;
                      Some (set_tables (entriesTable c) (uncommittedTable c ∖ {[a]}) c)
                 else Ns_CacheDeleteEntry a c);
            CacheTransaction order epoch commit (n + 1) c
          else CacheTransaction order epoch commit n c
      end
  end.

Definition Ns_CacheCommitEntries (order : list Z) (epoch : Z) (c : Cache) : option (Cache * Z) :=
  '(c, n) ← CacheTransaction order epoch true 0 c;
  Some (set_stats (add_stat Committed n (stats c)) c, n).

Definition Ns_CacheRollbackEntries (order : list Z) (epoch : Z) (c : Cache) : option (Cache * Z) :=
  '(c, n) ← CacheTransaction order epoch false 0 c;
  Some (set_stats (add_stat Rolledback n (stats c)) c, n).

Definition Ns_CacheResetStats (c : Cache) : Cache := set_stats (mkStats 0 0 0 0 0 0 0) c.

End Operations.
