(* ===== verification/CacheLru.v ===== *)
(** * CacheLru: the cache of nsd/cache.c as an abstract LRU list.

    The abstract cache [Spec] is the list of the entries in the order of their
    use, with the set of the pending ones; [conc] lays such a list out in memory,
    with the links, the tables and the size counter.  Every operation is shown to
    map the layout of a well-formed list to the layout of the list that the
    abstract operation yields; the theorems on reachable caches follow. *)

From S2P Require Import Prelude Time Cache.

(** ** Linked segments

    [seg p l n] is the memory of the entries of [l], linked in this order, with
    [p] before the first and [n] behind the last one. *)

Definition relink (p n : option Z) (e : Entry) : Entry := set_prev p (set_next n e).

Definition hd (n : option Z) (l : list (Z * Entry)) : option Z :=
  match l with [] => n | p :: _ => Some p.1 end.

Fixpoint lst (p : option Z) (l : list (Z * Entry)) : option Z :=
  match l with [] => p | q :: l => lst (Some q.1) l end.

Fixpoint seg (p : option Z) (l : list (Z * Entry)) (n : option Z) : gmap Z Entry :=
  match l with
  | [] => ∅
  | (a, d) :: l => <[a := relink p (hd n l) d]> (seg (Some a) l n)
  end.

Lemma hd_app n l1 l2 : hd n (l1 ++ l2) = hd (hd n l2) l1.
Proof. by destruct l1. Qed.

Lemma lst_app p l1 l2 : lst p (l1 ++ l2) = lst (lst p l1) l2.
Proof. revert p. by induction l1 as [|q l1 IH]; intros; cbn. Qed.

Lemma lst_Some p l : l <> [] -> exists b, lst p l = Some b /\ b ∈ l.*1.
Proof.
  revert p. induction l as [|q [|q' l] IH]; intros p Hl; [done| |].
  - exists q.1. split; [done|cbn; left].
  - destruct (IH (Some q.1)) as (b & ? & ?); [done|]. exists b. split; [done|cbn in *; by right].
Qed.

Lemma seg_None p l n a : a ∉ l.*1 -> seg p l n !! a = None.
Proof.
  revert p. induction l as [|[b d] l IH]; intros p Ha; cbn; [apply lookup_empty|].
  cbn in Ha. apply not_elem_of_cons in Ha as [? ?]. rewrite lookup_insert_ne by congruence. auto.
Qed.

Lemma seg_app p l1 l2 n : seg p (l1 ++ l2) n = seg p l1 (hd n l2) ∪ seg (lst p l1) l2 n.
Proof.
  revert p. induction l1 as [|[a d] l1 IH]; intros p; cbn; [by rewrite (left_id_L ∅ (∪))|].
  by rewrite IH, hd_app, insert_union_l.
Qed.

Lemma seg_mid p l1 a d l2 n :
  a ∉ l1.*1 ->
  seg p (l1 ++ (a, d) :: l2) n =
    <[a := relink (lst p l1) (hd n l2) d]> (seg p l1 (Some a) ∪ seg (Some a) l2 n).
Proof. intros. rewrite seg_app. cbn. by rewrite insert_union_r by (by apply seg_None). Qed.

Lemma seg_mid_lookup p l1 a d l2 n :
  a ∉ l1.*1 -> seg p (l1 ++ (a, d) :: l2) n !! a = Some (relink (lst p l1) (hd n l2) d).
Proof. intros. by rewrite seg_mid, lookup_insert_eq. Qed.

(** The successor of the last entry, and the predecessor of the first one, can be
    changed in place. *)
Lemma seg_set_next p l b d n n' :
  b ∉ l.*1 ->
  <[b := relink (lst p l) n' d]> (seg p (l ++ [(b, d)]) n) = seg p (l ++ [(b, d)]) n'.
Proof. intros. by rewrite !seg_mid, insert_insert_eq by done. Qed.

Lemma seg_set_prev p p' a d l n :
  <[a := relink p' (hd n l) d]> (seg p ((a, d) :: l) n) = seg p' ((a, d) :: l) n.
Proof. cbn. by rewrite insert_insert_eq. Qed.

(** *** The link operations and writes through a pointer on a linked list *)

Definition chained (c : Cache) (l : list (Z * Entry)) : Prop :=
  heap c = seg None l None /\ firstEntryPtr c = hd None l /\ lastEntryPtr c = lst None l /\ NoDup l.*1.

Lemma NoDup_mid {A} (l1 : list (Z * A)) a d l2 :
  NoDup (l1 ++ (a, d) :: l2).*1 -> (a ∉ l1.*1) /\ (a ∉ l2.*1) /\ NoDup (l1 ++ l2).*1.
Proof.
  rewrite !fmap_app, fmap_cons. cbn. rewrite !NoDup_app, NoDup_cons. intros (H1 & H2 & H3 & H4).
  split_and!; try done.
  - intros Ha. apply (H2 a Ha). left.
  - intros x Hx Hy. apply (H2 x Hx). by right.
Qed.

Lemma upd_heap f a e c : heap c !! a = Some e -> upd f a c = Some (set_heap (<[a := f e]> (heap c)) c).
Proof. intros H. unfold upd. by rewrite H. Qed.

Lemma upd_mid c f l1 a d l2 :
  heap c = seg None (l1 ++ (a, d) :: l2) None -> a ∉ l1.*1 ->
  (forall p n, f (relink p n d) = relink p n (f d)) ->
  upd f a c = Some (set_heap (seg None (l1 ++ (a, f d) :: l2) None) c).
Proof.
  intros Hh Ha Hf. rewrite (upd_heap f a (relink (lst None l1) (hd None l2) d))
    by (by rewrite Hh, seg_mid_lookup).
  by rewrite Hf, Hh, !seg_mid, insert_insert_eq by done.
Qed.

Definition loose (a : Z) (d : Entry) (l : list (Z * Entry)) : gmap Z Entry :=
  <[a := relink None None d]> (seg None l None).

Lemma upd_loose c f a d l :
  heap c = loose a d l -> f (relink None None d) = relink None None (f d) ->
  upd f a c = Some (set_heap (loose a (f d) l) c).
Proof.
  intros Hh Hf. rewrite (upd_heap f a (relink None None d)) by (by rewrite Hh; apply lookup_insert_eq).
  by rewrite Hf, Hh; unfold loose; rewrite insert_insert_eq.
Qed.

Lemma set_left c l1 x n a e (R : gmap Z Entry) :
  heap c = <[a := e]> (seg None l1 x ∪ R) -> a ∉ l1.*1 -> NoDup l1.*1 -> firstEntryPtr c = hd x l1 ->
  match lst None l1 with
  | Some p => upd (set_next n) p c
  | None => Some (set_first n c)
  end = Some (set_links (<[a := e]> (seg None l1 n ∪ R)) (hd n l1) (lastEntryPtr c) c).
Proof.
  intros Hh Ha Hnd Hf. destruct l1 as [|[b db] l1 _] using rev_ind; cbn [lst hd].
  - unfold set_first. rewrite Hh. reflexivity.
  - rewrite fmap_app, NoDup_app in Hnd. destruct Hnd as (_ & Hb & _).
    assert (b ∉ l1.*1) by (intros Hx; apply (Hb b Hx); left).
    assert (a <> b) by (intros ->; apply Ha; rewrite fmap_app; apply elem_of_app; right; left).
    rewrite lst_app. cbn [lst fst].
    rewrite (upd_heap _ b (relink (lst None l1) x db)).
    + rewrite Hh, insert_insert_ne, insert_union_l by done.
      change (set_next n (relink (lst None l1) x db)) with (relink (lst None l1) n db).
      rewrite seg_set_next by done. unfold set_heap. rewrite Hf. by destruct l1.
    + rewrite Hh, lookup_insert_ne by done. apply lookup_union_Some_l. by rewrite seg_mid_lookup.
Qed.

Lemma set_right c l2 y p a e (L : gmap Z Entry) :
  heap c = <[a := e]> (L ∪ seg y l2 None) -> a ∉ l2.*1 -> (forall b, b ∈ l2.*1 -> L !! b = None) ->
  lastEntryPtr c = lst y l2 ->
  match hd None l2 with
  | Some n => upd (set_prev p) n c
  | None => Some (set_last p c)
  end = Some (set_links (<[a := e]> (L ∪ seg p l2 None)) (firstEntryPtr c) (lst p l2) c).
Proof.
  intros Hh Ha HL Hl. destruct l2 as [|[b db] l2]; cbn [lst hd fst].
  - unfold set_last. rewrite Hh. reflexivity.
  - assert (a <> b) by (intros ->; apply Ha; left).
    assert (L !! b = None) by (apply HL; left).
    rewrite (upd_heap _ b (relink y (hd None l2) db)).
    + rewrite Hh, insert_insert_ne, insert_union_r by done.
      change (set_prev p (relink y (hd None l2) db)) with (relink p (hd None l2) db).
      rewrite seg_set_prev. unfold set_heap. by rewrite Hl.
    + rewrite Hh, lookup_insert_ne, lookup_union_r by done. cbn [seg]. apply lookup_insert_eq.
Qed.

Lemma Remove_ok c l1 a d l2 :
  chained c (l1 ++ (a, d) :: l2) ->
  Remove a c = Some (set_links (loose a d (l1 ++ l2)) (hd None (l1 ++ l2)) (lst None (l1 ++ l2)) c).
Proof.
  intros (Hh & Hf & Hl & Hnd). destruct (NoDup_mid _ _ _ _ Hnd) as (Ha1 & Ha2 & Hnd').
  rewrite fmap_app, NoDup_app in Hnd'. destruct Hnd' as (? & Hd12 & ?).
  rewrite hd_app in Hf. rewrite lst_app in Hl. cbn [hd lst fst] in Hf, Hl.
  unfold Remove. rewrite Hh, seg_mid_lookup by done. rewrite seg_mid in Hh by done.
  cbn [mbind option_bind relink prevPtr nextPtr set_prev set_next].
  rewrite (set_left c l1 (Some a) (hd None l2) a _ _ Hh) by done. cbn [mbind option_bind].
  cbn [heap set_links]. rewrite lookup_insert_eq. cbn [mbind option_bind relink prevPtr nextPtr set_prev set_next].
  rewrite (set_right _ l2 (Some a) (lst None l1) a (relink (lst None l1) (hd None l2) d) (seg None l1 (hd None l2)));
    [|reflexivity|done| |done].
  2:{ intros b Hb. apply seg_None. intros Hb'. by apply (Hd12 b). }
  cbn [mbind option_bind]. rewrite (upd_heap _ a (relink (lst None l1) (hd None l2) d)) by apply lookup_insert_eq.
  cbn [heap set_links]. rewrite insert_insert_eq. unfold loose. by rewrite seg_app, hd_app, lst_app.
Qed.

Lemma Push_ok c a d l :
  heap c = loose a d l -> firstEntryPtr c = hd None l -> lastEntryPtr c = lst None l -> a ∉ l.*1 ->
  Push a c = Some (set_links (seg None ((a, d) :: l) None) (Some a) (lst (Some a) l) c).
Proof.
  intros Hh Hf Hl Ha. unfold Push. rewrite Hf. unfold loose in Hh.
  destruct l as [|[b db] l]; cbn [hd fst lst] in *.
  - cbn [mbind option_bind]. rewrite (upd_heap _ a (relink None None d)) by (by rewrite Hh, lookup_insert_eq).
    cbn. rewrite Hl, Hh, Hf. unfold set_last, set_first, set_links; cbn. by rewrite insert_insert_eq.
  - assert (a <> b) by (intros ->; apply Ha; left).
    rewrite (upd_heap _ b (relink None (hd None l) db))
      by (rewrite Hh, lookup_insert_ne by done; cbn [seg]; apply lookup_insert_eq).
    cbn [mbind option_bind].
    rewrite (upd_heap _ a (relink None None d)).
    2:{ cbn [heap set_heap set_links]. by rewrite Hh, lookup_insert_ne, lookup_insert_eq by done. }
    cbn [mbind option_bind]. unfold set_first, set_heap; cbn [heap set_links firstEntryPtr lastEntryPtr].
    rewrite Hl. destruct (lst_Some (Some b) ((b, db) :: l)) as (x & Hx & _); [done|].
    cbn [lst fst] in Hx. rewrite Hx, Hf. unfold set_links; cbn. f_equal. f_equal.
    rewrite Hh, (insert_insert_ne _ b a), insert_insert_eq by done.
    cbn [seg]. by rewrite insert_insert_eq.
Qed.

(** ** The abstract cache *)

(** The entries by recency of their use, and the part of the state that does not
    follow from them. *)
Record Spec := mkSpec {
  lru : list (Z * Entry);
  pending : gset Z;
  limit : Z;
  frees : bool;
  counts : Stats;
  gone : list Z
}.

Definition with_lru (l : list (Z * Entry)) (s : Spec) : Spec :=
  mkSpec l (pending s) (limit s) (frees s) (counts s) (gone s).
Definition with_pending (p : gset Z) (s : Spec) : Spec :=
  mkSpec (lru s) p (limit s) (frees s) (counts s) (gone s).
Definition with_limit (m : Z) (s : Spec) : Spec :=
  mkSpec (lru s) (pending s) m (frees s) (counts s) (gone s).
Definition with_counts (st : Stats) (s : Spec) : Spec :=
  mkSpec (lru s) (pending s) (limit s) (frees s) st (gone s).
Definition drop_value (v : Z) (s : Spec) : Spec :=
  mkSpec (lru s) (pending s) (limit s) (frees s) (counts s) (if frees s then v :: gone s else gone s).
Definition sbump (k : Counter) (s : Spec) : Spec := with_counts (add_stat k 1 (counts s)) s.

Fixpoint lookup_at (a : Z) (l : list (Z * Entry)) : option Entry :=
  match l with [] => None | (b, d) :: l => if decide (b = a) then Some d else lookup_at a l end.
Fixpoint alter_at (a : Z) (f : Entry -> Entry) (l : list (Z * Entry)) : list (Z * Entry) :=
  match l with
  | [] => []
  | (b, d) :: l => if decide (b = a) then (b, f d) :: l else (b, d) :: alter_at a f l
  end.
Fixpoint remove_at (a : Z) (l : list (Z * Entry)) : list (Z * Entry) :=
  match l with [] => [] | (b, d) :: l => if decide (b = a) then l else (b, d) :: remove_at a l end.
Fixpoint find_key (k : list Z) (l : list (Z * Entry)) : option (Z * Entry) :=
  match l with [] => None | (b, d) :: l => if decide (key d = k) then Some (b, d) else find_key k l end.

(** The value an entry holds, committed or not, and the entry without it. *)
Definition held (d : Entry) : option Z :=
  match value d with Some v => Some v | None => uncommittedValue d end.
Definition cleared (d : Entry) : Entry :=
  set_extent 0 (mkTime 0 0) (set_values None None (transactionEpoch d) d).
Definition used (d : Entry) : Entry := set_count (wrap64 (count d + 1)) d.

Definition sUnset (a : Z) (s : Spec) : Spec :=
  match lookup_at a (lru s) with
  | Some d => match held d with
              | Some v => drop_value v (with_lru (alter_at a cleared (lru s)) s)
              | None => s
              end
  | None => s
  end.

Definition sDelete (a : Z) (s : Spec) : Spec :=
  let s := sUnset a s in with_pending (pending s ∖ {[a]}) (with_lru (remove_at a (lru s)) s).

(** The entry [a] becomes the most recently used one. *)
Definition touch (a : Z) (f : Entry -> Entry) (s : Spec) : Spec :=
  match lookup_at a (lru s) with
  | Some d => with_lru ((a, f d) :: remove_at a (lru s)) s
  | None => s
  end.

Definition sFind (k : list Z) (ts : TransactionStack) (now : Ns_Time) (s : Spec) : Spec * option Z :=
  match find_key k (lru s) with
  | None => (sbump Miss s, None)
  | Some (a, d) =>
      if bool_decide (value d = None /\ (ts = None \/ ts = Some [])) then (sbump Miss s, None)
      else if Expired d now then (sbump Miss (sDelete a s), None)
      else match Ns_CacheGetValueT d ts with
           | None => (sbump Miss s, None)
           | Some _ => (touch a used (sbump Hit s), Some a)
           end
  end.

Definition newborn (k : list Z) : Entry := mkEntry k None None (mkTime 0 0) 0 0 0 None None 0.

Definition sCreate (k : list Z) (now : Ns_Time) (fresh : Z) (s : Spec) : Spec * (Z * bool) :=
  match find_key k (lru s) with
  | None => (with_lru ((fresh, newborn k) :: lru s) (sbump Miss s), (fresh, true))
  | Some (a, d) =>
      if Expired d now then (touch a id (sUnset a (sbump Expire s)), (a, true))
      else (touch a used (sbump Hit s), (a, false))
  end.

Definition given (v : option Z) (sz : Z) (timeout : option Ns_Time) (cst epoch : Z) (d : Entry) : Entry :=
  mkEntry (key d) (nextPtr d) (prevPtr d) (default (mkTime 0 0) timeout) sz cst 1
    (if epoch =? 0 then v else None) (if epoch =? 0 then None else v)
    (if epoch =? 0 then transactionEpoch d else epoch).

(** A flush visits the entries in some [order]; those without a committed value
    stay. *)
Fixpoint sFlush (order : list Z) (now : Ns_Time) (n : Z) (s : Spec) : Spec * Z :=
  match order with
  | [] => (s, n)
  | a :: order =>
      match lookup_at a (lru s) with
      | None => sFlush order now n s
      | Some d =>
          match value d with
          | None => sFlush order now n s
          | Some _ => if Expired d now then sFlush order now n (sDelete a (sbump Expire s))
                      else sFlush order now (n + 1) (sDelete a s)
          end
      end
  end.

(** The end of a transaction: the entries that wait for [epoch]. *)
Definition committed (d : Entry) : Entry := set_values (uncommittedValue d) None 0 d.
Definition waits_for (epoch : Z) (d : Entry) : bool :=
  match value d with None => transactionEpoch d =? epoch | Some _ => false end.

Fixpoint sTransaction (order : list Z) (epoch : Z) (commit : bool) (n : Z) (s : Spec) : Spec * Z :=
  match order with
  | [] => (s, n)
  | a :: order =>
      if bool_decide (waits_for epoch <$> lookup_at a (lru s) = Some true)
      then sTransaction order epoch commit (n + 1)
             (if commit
              then with_pending (pending s ∖ {[a]}) (with_lru (alter_at a committed (lru s)) s)
              else sDelete a s)
      else sTransaction order epoch commit n s
  end.

Section Layout.

Variable overhead : Z.

Definition weight (d : Entry) : Z := overhead + Z.of_nat (length (key d)) + size d.
Fixpoint total (l : list (Z * Entry)) : Z :=
  match l with [] => 0 | (_, d) :: l => weight d + total l end.

Definition table (l : list (Z * Entry)) : list (list Z * Z) := (fun p => (key p.2, p.1)) <$> l.

(** The memory of an abstract cache. *)
Definition conc (s : Spec) : Cache :=
  mkCache (seg None (lru s) None) (hd None (lru s)) (lst None (lru s)) (limit s)
    (wrap64 (total (lru s))) (frees s) (list_to_map (table (lru s))) (pending s) (counts s) (gone s).

Fixpoint sPrune (r : list (Z * Entry)) (max a : Z) (s : Spec) : Spec :=
  match r with
  | [] => s
  | (b, d) :: r =>
      if max <? wrap64 (total (lru s)) then
        if decide (b = a) then s else
        match value d with
        | None => s
        | Some _ => sPrune r max a (sbump Pruned (sDelete b s))
        end
      else s
  end.

Definition sSet (a : Z) (v : option Z) (sz : Z) (timeout : option Ns_Time) (cst max epoch : Z) (s : Spec)
  : Spec * Z :=
  let s := sUnset a s in
  let s := with_lru (alter_at a (given v sz timeout cst epoch) (lru s)) s in
  let s := if epoch =? 0 then s else with_pending ({[a]} ∪ pending s) s in
  let s := if max =? 0 then s else with_limit max s in
  (if 0 <? limit s then sPrune (reverse (lru s)) (limit s) a s else s, if epoch =? 0 then 0 else 1).

(** *** Well-formed entries and caches *)

Definition entry_wf (d : Entry) : Prop :=
  (value d <> None -> uncommittedValue d = None) /\
  (held d = None -> size d = 0 /\ expires d = mkTime 0 0).

Record wf (s : Spec) : Prop := {
  wf_addr : NoDup (lru s).*1;
  wf_keys : NoDup (table (lru s)).*1;
  wf_pending : forall a, a ∈ pending s -> a ∈ (lru s).*1;
  wf_entries : Forall (fun p => entry_wf p.2) (lru s);
  wf_waiting : Forall (fun p => uncommittedValue p.2 <> None -> p.1 ∈ pending s) (lru s);
  wf_limit : 0 <= limit s
}.

(** A concrete cache that represents an abstract one. *)
Definition represents (c : Cache) (s : Spec) : Prop := wf s /\ c = conc s.

End Layout.

(** *** Positions in the list *)

Lemma lookup_at_split a l d :
  lookup_at a l = Some d -> exists l1 l2, l = l1 ++ (a, d) :: l2 /\ (a ∉ l1.*1).
Proof.
  induction l as [|[b e] l IH]; cbn; [done|]. destruct (decide (b = a)) as [->|Hb].
  - intros [= ->]. exists [], l. split; [done|apply not_elem_of_nil].
  - intros (l1 & l2 & -> & ?)%IH. exists ((b, e) :: l1), l2. split; [done|].
    cbn. apply not_elem_of_cons. split; congruence.
Qed.

Lemma mid_at l1 a d l2 f :
  (a ∉ l1.*1) ->
  lookup_at a (l1 ++ (a, d) :: l2) = Some d /\
  alter_at a f (l1 ++ (a, d) :: l2) = l1 ++ (a, f d) :: l2 /\
  remove_at a (l1 ++ (a, d) :: l2) = l1 ++ l2.
Proof.
  induction l1 as [|[b e] l1 IH]; cbn; [by rewrite !decide_True|].
  intros [? ?]%not_elem_of_cons. rewrite !decide_False by congruence.
  destruct IH as (? & -> & ->); done.
Qed.

Lemma lookup_at_None a l : lookup_at a l = None <-> a ∉ l.*1.
Proof.
  induction l as [|[b d] l IH]; cbn; [split; [intros; apply not_elem_of_nil|done]|].
  rewrite not_elem_of_cons. destruct (decide (b = a)) as [->|]; [naive_solver|]. rewrite IH. naive_solver.
Qed.

Lemma lookup_at_elem a l d : NoDup l.*1 -> (a, d) ∈ l -> lookup_at a l = Some d.
Proof.
  intros Hnd (l1 & l2 & ->)%list_elem_of_split. apply (mid_at l1 a d l2 id).
  by destruct (NoDup_mid _ _ _ _ Hnd).
Qed.

Lemma lookup_at_in a l d : lookup_at a l = Some d -> (a, d) ∈ l.
Proof. intros (l1 & l2 & -> & _)%lookup_at_split. apply elem_of_app. right. left. Qed.

Lemma table_lookup k l : (list_to_map (table l) : gmap (list Z) Z) !! k = fst <$> find_key k l.
Proof.
  induction l as [|[b d] l IH]; [done|]. cbn. destruct (decide (key d = k)) as [->|].
  - by rewrite lookup_insert_eq.
  - by rewrite lookup_insert_ne.
Qed.

Lemma find_key_Some k l a d : find_key k l = Some (a, d) -> (a, d) ∈ l /\ key d = k.
Proof.
  induction l as [|[b e] l IH]; cbn; [done|]. case_decide; [intros [= -> ->]; split; [left|done]|].
  intros [? ?]%IH. split; [by right|done].
Qed.

Lemma find_key_None k l : find_key k l = None <-> k ∉ (table l).*1.
Proof.
  induction l as [|[b d] l IH]; [split; [intros; apply not_elem_of_nil|done]|].
  cbn. rewrite not_elem_of_cons. destruct (decide (key d = k)) as [->|]; [naive_solver|].
  unfold table in IH. rewrite IH. naive_solver.
Qed.

Lemma find_key_elem k l a d : NoDup (table l).*1 -> (a, d) ∈ l -> key d = k -> find_key k l = Some (a, d).
Proof.
  induction l as [|[b e] l IH]; cbn; [by intros _ ?%elem_of_nil|].
  intros [Hk Hnd]%NoDup_cons Hin Hkey. apply elem_of_cons in Hin as [[= -> ->]|Hin]; [by rewrite decide_True|].
  rewrite decide_False; [by apply IH|]. intros He. apply Hk. rewrite He, <- Hkey.
  apply list_elem_of_fmap. exists (key d, a). split; [done|].
  apply list_elem_of_fmap. by exists (a, d).
Qed.

Lemma table_app l1 l2 : table (l1 ++ l2) = table l1 ++ table l2.
Proof. apply fmap_app. Qed.

Lemma table_delete l1 a d l2 :
  NoDup (table (l1 ++ (a, d) :: l2)).*1 ->
  delete (key d) (list_to_map (table (l1 ++ (a, d) :: l2)) : gmap (list Z) Z) = list_to_map (table (l1 ++ l2))
  /\ NoDup (table (l1 ++ l2)).*1.
Proof.
  intros Hnd. assert (Hp : table (l1 ++ (a, d) :: l2) ≡ₚ (key d, a) :: table (l1 ++ l2)).
  { rewrite !table_app. cbn. symmetry. apply Permutation_middle. }
  rewrite (list_to_map_proper _ _ Hnd Hp). rewrite Hp in Hnd. cbn in Hnd.
  apply NoDup_cons in Hnd as [Hk Hnd]. split; [|done].
  cbn. apply delete_insert_id. by apply not_elem_of_list_to_map.
Qed.

Lemma table_mid l1 a d d' l2 : key d' = key d -> table (l1 ++ (a, d') :: l2) = table (l1 ++ (a, d) :: l2).
Proof. intros Hk. rewrite !table_app. cbn. by rewrite Hk. Qed.

Lemma fst_mid l1 (a : Z) (d d' : Entry) l2 : (l1 ++ (a, d') :: l2).*1 = (l1 ++ (a, d) :: l2).*1.
Proof. by rewrite !fmap_app. Qed.

Lemma lst_mid p l1 (a : Z) (d d' : Entry) l2 : lst p (l1 ++ (a, d') :: l2) = lst p (l1 ++ (a, d) :: l2).
Proof. by rewrite !lst_app. Qed.

Lemma hd_mid p l1 (a : Z) (d d' : Entry) l2 : hd p (l1 ++ (a, d') :: l2) = hd p (l1 ++ (a, d) :: l2).
Proof. by rewrite !hd_app. Qed.

Lemma wrap64_add x y : wrap64 (wrap64 x + y) = wrap64 (x + y).
Proof. apply Zplus_mod_idemp_l. Qed.

Lemma Some_pair_inv {A B} (a c : A) (b d : B) : Some (a, b) = Some (c, d) -> a = c /\ b = d.
Proof. by intros [= -> ->]. Qed.

(** ** The operations on laid out caches *)

Section Refinement.

Variable overhead : Z.
Abbreviation total := (total overhead).
Abbreviation conc := (conc overhead).

Lemma total_app l1 l2 : total (l1 ++ l2) = total l1 + total l2.
Proof. induction l1 as [|[a d] l1 IH]; cbn; [done|]. rewrite IH. lia. Qed.

Lemma total_mid l1 a d l2 : total (l1 ++ (a, d) :: l2) = total (l1 ++ l2) + weight overhead d.
Proof. rewrite !total_app. cbn. lia. Qed.

(** An entry of a well-formed cache, with its place in the list. *)
Lemma wf_split s a d :
  wf s -> lookup_at a (lru s) = Some d ->
  exists l1 l2, lru s = l1 ++ (a, d) :: l2 /\ (a ∉ l1.*1) /\ (a ∉ l2.*1) /\ entry_wf d.
Proof.
  intros [Hnd _ _ He _ _] (l1 & l2 & El & Ha)%lookup_at_split. exists l1, l2. rewrite El in *.
  destruct (NoDup_mid _ _ _ _ Hnd) as (_ & ? & _). split_and!; try done.
  rewrite Forall_app, Forall_cons in He. by destruct He as (_ & ? & _).
Qed.

Lemma wf_unc s l1 a d l2 :
  wf s -> lru s = l1 ++ (a, d) :: l2 -> uncommittedValue d <> None -> a ∈ pending s.
Proof.
  intros H El. pose proof (wf_waiting _ H) as Hw. rewrite El, Forall_app, Forall_cons in Hw. apply Hw.
Qed.

Lemma Unset_chained c l1 a d l2 :
  heap c = seg None (l1 ++ (a, d) :: l2) None -> (a ∉ l1.*1) -> entry_wf d ->
  Ns_CacheUnsetValue a c =
    Some (match held d with
          | Some v => release (Some v) (grow (- size d) (set_heap (seg None (l1 ++ (a, cleared d) :: l2) None) c))
          | None => c
          end).
Proof.
  intros Hh Ha [Hv _]. unfold Ns_CacheUnsetValue, held. rewrite Hh, seg_mid_lookup by done.
  cbn [mbind option_bind relink set_prev set_next value uncommittedValue size].
  destruct (value d) as [v|] eqn:Ev; [|destruct (uncommittedValue d) as [u|] eqn:Eu; [|done]].
  - rewrite (upd_mid _ _ _ _ _ _ Hh Ha) by done. cbn [mbind option_bind].
    rewrite (upd_mid _ _ l1 a (set_values None (uncommittedValue d) (transactionEpoch d) d) l2) by done.
    cbn. unfold cleared. by rewrite Hv.
  - rewrite (upd_mid _ _ _ _ _ _ Hh Ha) by done. cbn [mbind option_bind].
    rewrite (upd_mid _ _ l1 a (set_values (value d) None (transactionEpoch d) d) l2) by done.
    cbn. unfold cleared. by rewrite Ev.
Qed.

Lemma Delete_chained c l1 a d l2 :
  chained c (l1 ++ (a, d) :: l2) -> entry_wf d ->
  Ns_CacheDeleteEntry overhead a c =
    Some (mkCache (seg None (l1 ++ l2) None) (hd None (l1 ++ l2)) (lst None (l1 ++ l2)) (maxSize c)
      (wrap64 (currentSize c - weight overhead d)) (freeProc c) (delete (key d) (entriesTable c))
      (uncommittedTable c ∖ {[a]}) (stats c)
      (match held d with Some v => if freeProc c then v :: freed c else freed c | None => freed c end)).
Proof.
  intros Hc He. pose proof Hc as (Hh & Hf & Hl & Hnd). destruct (NoDup_mid _ _ _ _ Hnd) as (Ha1 & Ha2 & Hnd').
  unfold Ns_CacheDeleteEntry. rewrite Hh, seg_mid_lookup by done. cbn [mbind option_bind].
  rewrite (Unset_chained _ l1 a d l2) by done. cbn [mbind option_bind].
  assert (Hrest : delete a (loose a d (l1 ++ l2)) = seg None (l1 ++ l2) None /\
                  delete a (loose a (cleared d) (l1 ++ l2)) = seg None (l1 ++ l2) None).
  { assert (Hn : seg None (l1 ++ l2) None !! a = None).
    { apply seg_None. rewrite fmap_app, elem_of_app. naive_solver. }
    split; by apply delete_insert_id. }
  assert (Hu : forall c, (if decide (a ∈ uncommittedTable c)
      then set_tables (entriesTable c) (uncommittedTable c ∖ {[a]}) c else c)
      = set_tables (entriesTable c) (uncommittedTable c ∖ {[a]}) c).
  { intros c0. destruct (decide _); [done|]. destruct c0; cbn in *. unfold set_tables; cbn. f_equal. set_solver. }
  destruct (held d) as [v|] eqn:Ev.
  - rewrite (Remove_ok _ l1 a (cleared d) l2).
    + cbn [mbind option_bind]. rewrite Hu. cbn. unfold set_heap, set_links; cbn.
      destruct Hrest as [_ ->]. do 2 f_equal. rewrite wrap64_add. unfold weight. f_equal. lia.
    + split_and!; cbn; [done|by rewrite Hf; apply hd_mid|by rewrite Hl; apply lst_mid|by rewrite (fst_mid _ _ d)].
  - rewrite (Remove_ok _ l1 a d l2) by done.
    cbn [mbind option_bind]. rewrite Hu. cbn. unfold set_heap, set_links; cbn.
    destruct Hrest as [-> _]. do 2 f_equal. unfold weight. destruct He as [_ He]. rewrite (proj1 (He Ev)). f_equal. lia.
Qed.

Lemma conc_chained s : wf s -> chained (conc s) (lru s).
Proof. intros H. split_and!; try done. apply H. Qed.

Lemma Delete_ok s a d :
  wf s -> lookup_at a (lru s) = Some d ->
  Ns_CacheDeleteEntry overhead a (conc s) = Some (conc (sDelete a s)).
Proof.
  intros Hwf Ha. destruct (wf_split _ _ _ Hwf Ha) as (l1 & l2 & El & Ha1 & Ha2 & He).
  pose proof (conc_chained s Hwf) as Hc. rewrite El in Hc. rewrite (Delete_chained _ _ _ _ _ Hc He).
  unfold sDelete, sUnset. rewrite Ha, El.
  destruct Hwf as [_ Hk _ _ _ _]. rewrite El in Hk. destruct (table_delete _ _ _ _ Hk) as [Ht _].
  assert (Hw : wrap64 (wrap64 (total (l1 ++ (a, d) :: l2)) - weight overhead d) = wrap64 (total (l1 ++ l2))).
  { rewrite <- Z.add_opp_r, wrap64_add, total_mid. f_equal. lia. }
  destruct (held d) as [v|]; cbn; unfold conc; cbn; rewrite ?El, ?(proj1 (proj2 (mid_at l1 a d l2 cleared Ha1))),
    ?(proj2 (proj2 (mid_at l1 a (cleared d) l2 id Ha1))), ?(proj2 (proj2 (mid_at l1 a d l2 id Ha1))), Hw, Ht; done.
Qed.

(** *** Well-formedness is preserved *)

Lemma wf_mid s l1 a d d' l2 :
  wf s -> lru s = l1 ++ (a, d) :: l2 -> key d' = key d -> entry_wf d' ->
  (uncommittedValue d' <> None -> a ∈ pending s) -> wf (with_lru (l1 ++ (a, d') :: l2) s).
Proof.
  intros [H1 H2 H3 H4 H5 H6] El Hk He Hu. rewrite El in *. split; cbn; try done.
  - by rewrite (fst_mid _ _ d).
  - by rewrite (table_mid _ _ d).
  - intros b Hb. rewrite (fst_mid _ _ d). by apply H3.
  - rewrite Forall_app, Forall_cons in *. naive_solver.
  - rewrite Forall_app, Forall_cons in *. naive_solver.
Qed.

Lemma wf_counts s st : wf s -> wf (with_counts st s).
Proof. intros []; split; done. Qed.
Lemma wf_bump k s : wf s -> wf (sbump k s).
Proof. apply wf_counts. Qed.
Lemma wf_drop v s : wf s -> wf (drop_value v s).
Proof. intros []; split; done. Qed.

Lemma entry_wf_cleared d : entry_wf (cleared d).
Proof. split; done. Qed.

Lemma wf_unset a s : wf s -> wf (sUnset a s).
Proof.
  intros H. unfold sUnset. destruct (lookup_at a (lru s)) as [d|] eqn:Ha; [|done].
  destruct (held d); [|done]. destruct (wf_split _ _ _ H Ha) as (l1 & l2 & El & Ha1 & _ & _).
  apply wf_drop. rewrite El, (proj1 (proj2 (mid_at l1 a d l2 cleared Ha1))).
  eapply wf_mid; [done|exact El|done|apply entry_wf_cleared|done].
Qed.

Lemma waiting_other (P : gset Z) a (l : list (Z * Entry)) :
  Forall (fun p => uncommittedValue p.2 <> None -> p.1 ∈ P) l -> (a ∉ l.*1) ->
  Forall (fun p => uncommittedValue p.2 <> None -> p.1 ∈ P ∖ {[a]}) l.
Proof.
  intros H Ha. apply Forall_forall. intros [b e] Hb Hu. apply elem_of_difference. split.
  - by apply (proj1 (Forall_forall _ _) H (b, e)).
  - intros Hab%elem_of_singleton. cbn in Hab. subst b. apply Ha, list_elem_of_fmap. by exists (a, e).
Qed.

Lemma wf_remove s l1 a d l2 :
  wf s -> lru s = l1 ++ (a, d) :: l2 -> wf (with_pending (pending s ∖ {[a]}) (with_lru (l1 ++ l2) s)).
Proof.
  intros [H1 H2 H3 H4 H5 H6] El. rewrite El in *. split; cbn; try done.
  - by destruct (NoDup_mid _ _ _ _ H1) as (_ & _ & ?).
  - by destruct (table_delete _ _ _ _ H2) as [_ ?].
  - intros b [Hb Hba]%elem_of_difference. specialize (H3 b Hb). rewrite fmap_app, elem_of_app in *. cbn in H3.
    rewrite elem_of_cons in H3. set_solver.
  - rewrite Forall_app, Forall_cons in *. naive_solver.
  - destruct (NoDup_mid _ _ _ _ H1) as (Ha1 & Ha2 & _).
    rewrite Forall_app, Forall_cons in H5. rewrite Forall_app. split; apply waiting_other; naive_solver.
Qed.

Lemma sUnset_lookup a b s :
  wf s -> lookup_at b (lru (sUnset a s)) =
    (if decide (b = a) then (fun d => match held d with Some _ => cleared d | None => d end) <$> lookup_at a (lru s)
     else lookup_at b (lru s)).
Proof.
  intros H. unfold sUnset. destruct (lookup_at a (lru s)) as [d|] eqn:Ha; [|by case_decide as Hb; [rewrite Hb|]].
  destruct (held d) as [v|] eqn:Ev.
  2:{ case_decide as Hb; [rewrite Hb|done]. cbn. by rewrite Ev. }
  destruct (wf_split _ _ _ H Ha) as (l1 & l2 & El & Ha1 & Ha2 & _). cbn. rewrite El. clear El Ha.
  rewrite (proj1 (proj2 (mid_at l1 a d l2 cleared Ha1))). case_decide as Hb; [subst b|].
  - rewrite (proj1 (mid_at l1 a (cleared d) l2 id Ha1)), Ev. done.
  - clear Ha1. induction l1 as [|[x e] l1 IH]; cbn; [by rewrite !decide_False by congruence|].
    by case_decide.
Qed.

Lemma wf_delete a d s : wf s -> lookup_at a (lru s) = Some d -> wf (sDelete a s).
Proof.
  intros H Ha. unfold sDelete. pose proof (sUnset_lookup a a s H) as Hl. rewrite decide_True, Ha in Hl by done.
  cbn in Hl. apply (wf_unset a) in H. destruct (wf_split _ _ _ H Hl) as (l1 & l2 & El & Ha1 & _ & _).
  rewrite El at 1. rewrite (proj2 (proj2 (mid_at l1 a _ l2 id Ha1))). by eapply wf_remove.
Qed.

Lemma touch_perm s l1 a d f l2 :
  lru s = l1 ++ (a, d) :: l2 -> (a ∉ l1.*1) ->
  touch a f s = with_lru ((a, f d) :: l1 ++ l2) s.
Proof.
  intros El Ha. unfold touch. rewrite El. destruct (mid_at l1 a d l2 id Ha) as (-> & _ & ->). done.
Qed.

Lemma wf_front s l1 a d d' l2 :
  wf s -> lru s = l1 ++ (a, d) :: l2 -> key d' = key d -> entry_wf d' ->
  uncommittedValue d' = uncommittedValue d -> wf (with_lru ((a, d') :: l1 ++ l2) s).
Proof.
  intros H El Hk He Hu. apply (wf_mid _ _ _ _ d' _ H El) in Hk; [|done|rewrite Hu; by eapply wf_unc]. destruct Hk as [H1 H2 H3 H4 H5 H6]. cbn in *.
  assert (Hp : l1 ++ (a, d') :: l2 ≡ₚ (a, d') :: l1 ++ l2) by (symmetry; apply Permutation_middle).
  split; cbn in *; try done.
  - by rewrite <- fmap_cons with (f := fst) (x := (a, d')), <- Hp.
  - change (NoDup (table ((a, d') :: l1 ++ l2)).*1). unfold table in *. by rewrite <- Hp.
  - intros b Hb. rewrite <- fmap_cons with (f := fst) (x := (a, d')), <- Hp. by apply H3.
  - by rewrite <- Hp.
  - by rewrite <- Hp.
Qed.

(** *** Layout of the results *)

Lemma conc_bump k s : conc (sbump k s) = bump k (conc s).
Proof. done. Qed.

Lemma conc_mid s l1 a d d' l2 :
  lru s = l1 ++ (a, d) :: l2 -> key d' = key d ->
  conc (with_lru (l1 ++ (a, d') :: l2) s) =
    grow (size d' - size d) (set_heap (seg None (l1 ++ (a, d') :: l2) None) (conc s)).
Proof.
  intros El Hk. unfold conc, grow, set_heap, set_links; cbn. rewrite El.
  rewrite (hd_mid _ _ _ d d'), (lst_mid _ _ _ d d'), (table_mid _ _ d d') by done.
  f_equal. rewrite wrap64_add, !total_mid. unfold weight. rewrite Hk. f_equal. lia.
Qed.

Lemma Unset_ok s a d :
  wf s -> lookup_at a (lru s) = Some d -> Ns_CacheUnsetValue a (conc s) = Some (conc (sUnset a s)).
Proof.
  intros H Ha. destruct (wf_split _ _ _ H Ha) as (l1 & l2 & El & Ha1 & _ & He).
  rewrite (Unset_chained _ l1 a d l2) by (cbn; by rewrite ?El).
  unfold sUnset. rewrite Ha. destruct (held d) as [v|] eqn:Ev; [|done]. f_equal.
  rewrite El, (proj1 (proj2 (mid_at l1 a d l2 cleared Ha1))).
  change (conc (drop_value v (with_lru (l1 ++ (a, cleared d) :: l2) s)))
    with (release (Some v) (conc (with_lru (l1 ++ (a, cleared d) :: l2) s))).
  by rewrite (conc_mid _ _ _ d).
Qed.

Lemma conc_front s l1 a d d' l2 :
  wf s -> lru s = l1 ++ (a, d) :: l2 -> key d' = key d -> size d' = size d ->
  conc (with_lru ((a, d') :: l1 ++ l2) s) =
    set_links (seg None ((a, d') :: l1 ++ l2) None) (Some a) (lst (Some a) (l1 ++ l2)) (conc s).
Proof.
  intros H El Hk Hs. unfold conc, set_links; cbn. f_equal.
  - rewrite El, total_mid. unfold weight. rewrite Hk, Hs. f_equal. lia.
  - destruct H as [_ H _ _ _ _]. rewrite El in *.
    assert (Hp : table (l1 ++ (a, d) :: l2) ≡ₚ (key d, a) :: table (l1 ++ l2)).
    { rewrite !table_app. cbn. symmetry. apply Permutation_middle. }
    rewrite (list_to_map_proper _ _ H Hp). cbn. by rewrite Hk.
Qed.

Lemma Remove_Push_ok s c l1 a d l2 f :
  wf s -> lru s = l1 ++ (a, d) :: l2 -> c = conc s ->
  (forall p n, f (relink p n d) = relink p n (f d)) -> key (f d) = key d -> size (f d) = size d ->
  (c ← Remove a c; c ← upd f a c; Push a c) = Some (conc (with_lru ((a, f d) :: l1 ++ l2) s)).
Proof.
  intros H El -> Hf Hk Hs. pose proof (conc_chained s H) as Hc. rewrite El in Hc.
  rewrite (Remove_ok _ _ _ _ _ Hc). cbn [mbind option_bind].
  rewrite (upd_loose _ f a d (l1 ++ l2)) by done. cbn [mbind option_bind].
  rewrite (Push_ok _ a (f d) (l1 ++ l2)); [|done..|].
  2:{ destruct H as [H _ _ _ _ _]. rewrite El in H. destruct (NoDup_mid _ _ _ _ H) as (? & ? & ?).
      rewrite fmap_app, elem_of_app. naive_solver. }
  by rewrite (conc_front _ _ _ d).
Qed.

(** Reading an entry of a laid out cache. *)
Lemma conc_lookup s a d :
  wf s -> lookup_at a (lru s) = Some d -> exists p n, heap (conc s) !! a = Some (relink p n d).
Proof.
  intros H Ha. destruct (wf_split _ _ _ H Ha) as (l1 & l2 & El & Ha1 & _ & _).
  exists (lst None l1), (hd None l2). cbn. by rewrite El, seg_mid_lookup.
Qed.

Lemma find_lookup s k a d : wf s -> find_key k (lru s) = Some (a, d) -> lookup_at a (lru s) = Some d.
Proof. intros H [Hin _]%find_key_Some. apply lookup_at_elem; [apply H|done]. Qed.

Lemma entry_wf_used d : entry_wf d -> entry_wf (used d).
Proof. done. Qed.

Lemma Find_ok s k ts now :
  wf s ->
  Ns_CacheFindEntryT overhead k ts now (conc s) = Some (conc (sFind k ts now s).1, (sFind k ts now s).2) /\
  wf (sFind k ts now s).1.
Proof.
  intros H. unfold Ns_CacheFindEntryT, sFind. cbn [entriesTable conc]. rewrite table_lookup.
  destruct (find_key k (lru s)) as [[a d]|] eqn:Ek; cbn [fmap option_fmap option_map fst]; [|by split; [|apply wf_bump]].
  pose proof (find_lookup _ _ _ _ H Ek) as Ha. destruct (conc_lookup _ _ _ H Ha) as (p & n & ->).
  cbn [mbind option_bind]. change (value (relink p n d)) with (value d).
  change (Expired (relink p n d) now) with (Expired d now).
  change (Ns_CacheGetValueT (relink p n d) ts) with (Ns_CacheGetValueT d ts).
  assert (Hg : match value d with
    | Some _ => false | None => match ts with None => true | Some stack => bool_decide (stack = []) end end
    = bool_decide (value d = None /\ (ts = None \/ ts = Some []))).
  { symmetry. destruct (value d), ts as [st|]; try (apply bool_decide_eq_false; naive_solver);
      try (apply bool_decide_eq_true; naive_solver). apply bool_decide_ext. naive_solver. }
  rewrite Hg. case_bool_decide as Hh; [by split; [|apply wf_bump]|].
  destruct (Expired d now).
  { rewrite (Delete_ok _ _ d H Ha). split; [done|]. apply wf_bump. by eapply wf_delete. }
  assert (Hv : match value d with Some v => Some v | None => Ns_CacheGetValueT d ts end = Ns_CacheGetValueT d ts).
  { unfold Ns_CacheGetValueT. by destruct (value d). }
  rewrite Hv. destruct (Ns_CacheGetValueT d ts); [|by split; [|apply wf_bump]].
  destruct (wf_split _ _ _ H Ha) as (l1 & l2 & El & Ha1 & Ha2 & He).
  assert (Hb : wf (sbump Hit s)) by by apply wf_bump.
  pose proof (Remove_Push_ok _ _ l1 a d l2 used Hb El eq_refl) as HR. rewrite conc_bump in HR.
  rewrite (touch_perm (sbump Hit s) l1 a d used l2 El Ha1). cbn [fst snd].
  unfold used at 1 in HR. split.
  - destruct (Remove a (bump Hit (conc s))) as [c1|]; cbn [mbind option_bind] in *; [|by discriminate HR].
    destruct (upd _ a c1) as [c2|]; cbn [mbind option_bind] in *; [|by discriminate HR].
    by rewrite HR.
  - by eapply wf_front; [done|exact El|done|apply entry_wf_used|].
Qed.

Lemma upd_ok s l1 a d l2 f :
  lru s = l1 ++ (a, d) :: l2 -> (a ∉ l1.*1) ->
  (forall p n, f (relink p n d) = relink p n (f d)) -> key (f d) = key d -> size (f d) = size d ->
  upd f a (conc s) = Some (conc (with_lru (l1 ++ (a, f d) :: l2) s)).
Proof.
  intros El Ha Hf Hk Hs. rewrite (upd_mid _ f l1 a d l2) by (cbn; by rewrite ?El). f_equal.
  rewrite (conc_mid _ _ _ d) by done. rewrite Hs, Z.sub_diag. unfold grow; cbn.
  by rewrite Z.add_0_r, wrap64_id by apply Z.mod_pos_bound, eq_refl.
Qed.

Lemma Remove_Push_ok0 s l1 a d l2 :
  wf s -> lru s = l1 ++ (a, d) :: l2 ->
  (c ← Remove a (conc s); Push a c) = Some (conc (with_lru ((a, d) :: l1 ++ l2) s)).
Proof.
  intros H El. pose proof (Remove_Push_ok s (conc s) l1 a d l2 id H El eq_refl) as HR.
  etransitivity; [|by apply HR].
  pose proof (conc_chained s H) as Hc. rewrite El in Hc. rewrite (Remove_ok _ _ _ _ _ Hc).
  cbn [mbind option_bind]. by rewrite (upd_loose _ id a d (l1 ++ l2)) by done.
Qed.

Lemma Create_ok s k now fresh :
  wf s -> (fresh ∉ (lru s).*1) ->
  Ns_CacheCreateEntry overhead k now fresh (conc s) =
    Some (conc (sCreate k now fresh s).1, (sCreate k now fresh s).2) /\
  wf (sCreate k now fresh s).1.
Proof.
  intros H Hfr. unfold Ns_CacheCreateEntry, sCreate. cbn [entriesTable conc]. rewrite table_lookup.
  destruct (find_key k (lru s)) as [[a d]|] eqn:Ek; cbn [fmap option_fmap option_map fst snd].
  2:{ rewrite (Push_ok _ fresh (newborn k) (lru s)) by done. cbn [mbind option_bind]. split.
      - do 2 f_equal. unfold conc, set_links; cbn. f_equal. rewrite wrap64_add. unfold weight; cbn. f_equal. lia.
      - destruct H as [H1 H2 H3 H4 H5 H6]. split; cbn; try done.
        + by apply NoDup_cons.
        + apply NoDup_cons. split; [by apply find_key_None in Ek|done].
        + intros b Hb. apply elem_of_cons. right. by apply H3.
        + apply Forall_cons. split; [split; done|done].
        + by apply Forall_cons. }
  pose proof (find_lookup _ _ _ _ H Ek) as Ha. destruct (conc_lookup _ _ _ H Ha) as (p & n & ->).
  cbn [mbind option_bind]. change (Expired (relink p n d) now) with (Expired d now).
  destruct (Expired d now); cbn [fst snd].
  - assert (Hb : wf (sbump Expire s)) by by apply wf_bump.
    change (bump Expire (conc s)) with (conc (sbump Expire s)). rewrite (Unset_ok _ a d) by done.
    cbn [mbind option_bind]. pose proof (sUnset_lookup a a _ Hb) as Hl. rewrite decide_True in Hl by done.
    change (lru (sbump Expire s)) with (lru s) in Hl. rewrite Ha in Hl. cbn [fmap option_fmap option_map] in Hl.
    apply (wf_unset a) in Hb. destruct (wf_split _ _ _ Hb Hl) as (l1 & l2 & El & Ha1 & Ha2 & He).
    rewrite (touch_perm _ l1 a _ id l2 El Ha1). pose proof (Remove_Push_ok0 _ _ _ _ _ Hb El) as HR.
    destruct (Remove a _) as [c1|]; cbn [mbind option_bind] in *; [|by discriminate HR]. rewrite HR.
    split; [done|]. by eapply wf_front; [done|exact El|..].
  - destruct (wf_split _ _ _ H Ha) as (l1 & l2 & El & Ha1 & Ha2 & He).
    assert (Hw : wf (with_lru (l1 ++ (a, used d) :: l2) (sbump Hit s))).
    { eapply wf_mid; [by apply wf_bump|exact El|done|done|]. exact (wf_unc _ _ _ _ _ H El). }
    change (fun e => set_count (wrap64 (count e + 1)) e) with used.
    rewrite (upd_ok s l1 a d l2 used) by done. cbn [mbind option_bind].
    rewrite (touch_perm (sbump Hit s) l1 a d used l2 El Ha1).
    pose proof (Remove_Push_ok0 _ l1 a (used d) l2 Hw eq_refl) as HR.
    change (bump Hit (conc (with_lru (l1 ++ (a, used d) :: l2) s)))
      with (conc (with_lru (l1 ++ (a, used d) :: l2) (sbump Hit s))).
    destruct (Remove a _) as [c1|]; cbn [mbind option_bind] in *; [|by discriminate HR]. rewrite HR.
    split; [done|]. by eapply wf_front; [by apply wf_bump|exact El|..].
Qed.

Lemma sDelete_fields s l1 a d l2 :
  lru s = l1 ++ (a, d) :: l2 -> (a ∉ l1.*1) ->
  sDelete a s = mkSpec (l1 ++ l2) (pending s ∖ {[a]}) (limit s) (frees s) (counts s)
    (match held d with Some v => if frees s then v :: gone s else gone s | None => gone s end).
Proof.
  intros El Ha. unfold sDelete, sUnset. rewrite El. destruct (mid_at l1 a d l2 cleared Ha) as (-> & -> & Hr).
  destruct (held d); cbn.
  - unfold with_pending, with_lru, drop_value; cbn. f_equal. by destruct (mid_at l1 a (cleared d) l2 id Ha) as (_ & _ & ->).
  - unfold with_pending, with_lru; cbn. by rewrite El, Hr.
Qed.

Lemma prune_ok max a r s fuel :
  wf s -> r = reverse (lru s) -> a ∈ (lru s).*1 -> (length r < fuel)%nat ->
  prune_loop overhead fuel max a (conc s) = Some (conc (sPrune overhead r max a s)) /\
  wf (sPrune overhead r max a s).
Proof.
  revert s fuel. induction r as [|[b d] r IH]; intros s fuel H Hr Ha Hfuel.
  { destruct (lru s) as [|q l]; [by apply elem_of_nil in Ha|]. by rewrite reverse_cons in Hr; destruct (reverse l). }
  destruct fuel as [|fuel]; [lia|]. cbn [prune_loop sPrune currentSize lastEntryPtr conc].
  destruct (max <? wrap64 (total (lru s))); [|done].
  assert (El : lru s = reverse r ++ [(b, d)]) by (rewrite <- (reverse_involutive (lru s)), <- Hr; apply reverse_cons).
  assert (Hlast : lst None (lru s) = Some b) by by rewrite El, lst_app.
  assert (Hb : lookup_at b (lru s) = Some d).
  { apply lookup_at_elem; [apply H|]. rewrite El. apply elem_of_app. right. left. }
  destruct (conc_lookup _ _ _ H Hb) as (p & n & Hh). rewrite Hlast.
  destruct (decide (b = a)) as [->|Hne]; [by rewrite decide_True|]. rewrite decide_False by congruence.
  cbn [mbind option_bind]. rewrite Hh. cbn [mbind option_bind]. change (value (relink p n d)) with (value d).
  destruct (value d); [|done]. rewrite (Delete_ok _ _ d) by done. cbn [mbind option_bind].
  rewrite <- conc_bump. destruct (wf_split _ _ _ H Hb) as (l1 & l2 & El' & Hb1 & Hb2 & _).
  assert (Hl : lru (sDelete b s) = reverse r).
  { assert (b ∉ (reverse r).*1).
    { pose proof (wf_addr _ H) as Hnd. rewrite El in Hnd. by destruct (NoDup_mid _ _ _ _ Hnd). }
    rewrite (sDelete_fields s (reverse r) b d []) by done. cbn. apply app_nil_r. }
  apply IH.
  - apply wf_bump. by eapply wf_delete.
  - change (r = reverse (lru (sDelete b s))). by rewrite Hl, reverse_involutive.
  - change (a ∈ (lru (sDelete b s)).*1). rewrite Hl. rewrite El, fmap_app, elem_of_app in Ha. destruct Ha as [Ha|Ha]; [done|].
    cbn in Ha. apply list_elem_of_singleton in Ha. congruence.
  - cbn in Hfuel. lia.
Qed.

Lemma seg_size p l n : NoDup l.*1 -> base.size (seg p l n) = length l.
Proof.
  revert p. induction l as [|[a d] l IH]; intros p Hnd; cbn; [apply map_size_empty|].
  cbn in Hnd. apply NoDup_cons in Hnd as [Ha Hnd].
  rewrite map_size_insert_None by (by apply seg_None). by rewrite IH.
Qed.

Lemma given_wf v sz timeout cst epoch d : v <> None -> entry_wf (given v sz timeout cst epoch d).
Proof. intros Hv. unfold entry_wf, held, given; cbn. destruct (epoch =? 0); split; cbn; try done. by destruct v. Qed.

(** The state before the loop that makes space. *)
Definition sPut (a : Z) (v : option Z) (sz : Z) (timeout : option Ns_Time) (cst max epoch : Z) (s : Spec) : Spec :=
  let s := sUnset a s in
  let s := with_lru (alter_at a (given v sz timeout cst epoch) (lru s)) s in
  let s := if epoch =? 0 then s else with_pending ({[a]} ∪ pending s) s in
  if max =? 0 then s else with_limit max s.

Lemma sPut_fields a v sz timeout cst max epoch s d :
  wf s -> lookup_at a (lru s) = Some d ->
  exists l1 l2, lru s = l1 ++ (a, d) :: l2 /\ (a ∉ l1.*1) /\
  lru (sPut a v sz timeout cst max epoch s) = l1 ++ (a, given v sz timeout cst epoch d) :: l2 /\
  pending (sPut a v sz timeout cst max epoch s) = (if epoch =? 0 then pending s else {[a]} ∪ pending s) /\
  limit (sPut a v sz timeout cst max epoch s) = (if max =? 0 then limit s else max) /\
  gone (sPut a v sz timeout cst max epoch s) =
    (match held d with Some v => if frees s then v :: gone s else gone s | None => gone s end).
Proof.
  intros H Ha. destruct (wf_split _ _ _ H Ha) as (l1 & l2 & El & Ha1 & _ & He). exists l1, l2.
  split; [done|]. split; [done|]. unfold sPut, sUnset. rewrite Ha, El.
  destruct (mid_at l1 a d l2 cleared Ha1) as (_ & -> & _).
  destruct (mid_at l1 a (cleared d) l2 (given v sz timeout cst epoch) Ha1) as (_ & Hc & _).
  destruct (mid_at l1 a d l2 (given v sz timeout cst epoch) Ha1) as (_ & Hd & _).
  destruct (held d), (epoch =? 0), (max =? 0); cbn; rewrite ?El, ?Hc, ?Hd; done.
Qed.

Lemma wf_put a v sz timeout cst max epoch s d :
  wf s -> lookup_at a (lru s) = Some d -> v <> None -> 0 <= max -> wf (sPut a v sz timeout cst max epoch s).
Proof.
  intros H Ha Hv Hm. destruct (sPut_fields a v sz timeout cst max epoch s d H Ha)
    as (l1 & l2 & El & Ha1 & Hl & Hp & Hlim & _).
  assert (H0 : wf (if epoch =? 0 then s else with_pending ({[a]} ∪ pending s) s)).
  { destruct (epoch =? 0); [done|]. destruct H as [H1 H2 H3 H4 H5 H6]. split; try done; cbn.
    - intros b [->%elem_of_singleton|Hb]%elem_of_union; [|by apply H3].
      rewrite El, fmap_app, elem_of_app. right. left.
    - eapply Forall_impl; [exact H5|]. intros p HP Hu. apply elem_of_union. right. by apply HP. }
  assert (Hw : wf (with_lru (l1 ++ (a, given v sz timeout cst epoch d) :: l2)
                    (if epoch =? 0 then s else with_pending ({[a]} ∪ pending s) s))).
  { apply (wf_mid _ l1 a d); [done| |done|by apply given_wf|]; cbn; destruct (epoch =? 0); try done.
    intros _. apply elem_of_union. left. by apply elem_of_singleton. }
  destruct Hw as [H1 H2 H3 H4 H5 H6]. cbn in *.
  assert (Hpe : pending (sPut a v sz timeout cst max epoch s) =
    pending (if epoch =? 0 then s else with_pending ({[a]} ∪ pending s) s)).
  { rewrite Hp. by destruct (epoch =? 0). }
  split; rewrite ?Hl, ?Hpe; try done. rewrite Hlim. destruct (max =? 0); [apply H|done].
Qed.

(** The assignments of [Ns_CacheSetValueExpires] to an entry without a value. *)
Lemma Put_conc s l1 a d l2 v sz timeout cst max epoch :
  lru s = l1 ++ (a, d) :: l2 -> (a ∉ l1.*1) -> held d = None -> size d = 0 -> expires d = mkTime 0 0 ->
  ('(c, result) ←
    (if epoch =? 0
     then c ← upd (fun e => set_values v (uncommittedValue e) (transactionEpoch e) e) a (conc s); Some (c, 0)
     else c ← upd (fun e => set_values (value e) v epoch e) a (conc s);
          Some (set_tables (entriesTable c) ({[a]} ∪ uncommittedTable c) c, 1));
   c ← upd (fun e => set_count 1 (set_cost cst (set_extent sz
             (match timeout with Some t => t | None => expires e end) e))) a c;
   Some (if max =? 0 then grow sz c
         else if negb (max =? maxSize (grow sz c)) then set_maxSize max (grow sz c) else grow sz c, result))
  = Some (conc (let s := with_lru (l1 ++ (a, given v sz timeout cst epoch d) :: l2) s in
                let s := if epoch =? 0 then s else with_pending ({[a]} ∪ pending s) s in
                if max =? 0 then s else with_limit max s), if epoch =? 0 then 0 else 1).
Proof.
  intros El Ha Hheld Hsz Hex. unfold held in Hheld.
  destruct (value d) eqn:Hval; [done|].
  assert (Hh : heap (conc s) = seg None (l1 ++ (a, d) :: l2) None) by (cbn; by rewrite El).
  assert (Hg : forall d', d' = (if epoch =? 0 then set_values v (uncommittedValue d) (transactionEpoch d) d
                               else set_values (value d) v epoch d) ->
    set_count 1 (set_cost cst (set_extent sz (match timeout with Some t => t | None => expires d' end) d'))
    = given v sz timeout cst epoch d).
  { intros d' ->. unfold given. destruct d; cbn in *. subst. by destruct (epoch =? 0), timeout. }
  assert (Hmax : forall c, (if negb (max =? maxSize c) then set_maxSize max c else c) = set_maxSize max c).
  { intros c0. destruct (Z.eqb_spec max (maxSize c0)) as [->|]; [by destruct c0|done]. }
  assert (Hc : conc (with_lru (l1 ++ (a, given v sz timeout cst epoch d) :: l2) s) =
    grow sz (set_heap (seg None (l1 ++ (a, given v sz timeout cst epoch d) :: l2) None) (conc s))).
  { rewrite (conc_mid _ _ _ d) by done. cbn [size given]. by rewrite Hsz, Z.sub_0_r. }
  assert (Hlim : forall m s, conc (with_limit m s) = set_maxSize m (conc s)) by done.
  assert (Hpen : forall q s, conc (with_pending q s) = set_tables (entriesTable (conc s)) q (conc s)) by done.
  destruct (epoch =? 0) eqn:Ee; rewrite (upd_mid _ _ l1 a d l2 Hh Ha) by done; cbn [mbind option_bind].
  - rewrite (upd_mid _ _ l1 a (set_values v (uncommittedValue d) (transactionEpoch d) d) l2) by done.
    cbn [mbind option_bind]. rewrite (Hg _ eq_refl), Hmax. cbv zeta. do 2 f_equal.
    destruct (max =? 0); rewrite ?Hlim, Hc; done.
  - rewrite (upd_mid _ _ l1 a (set_values (value d) v epoch d) l2) by done.
    cbn [mbind option_bind]. rewrite (Hg _ eq_refl), Hmax. cbv zeta. do 2 f_equal.
    destruct (max =? 0); rewrite ?Hlim, Hpen, Hc; done.
Qed.

Lemma Set_ok s a v sz timeout cst max epoch d :
  wf s -> lookup_at a (lru s) = Some d -> v <> None -> 0 <= max ->
  Ns_CacheSetValueExpires overhead a v sz timeout cst max epoch (conc s) =
    Some (conc (sSet overhead a v sz timeout cst max epoch s).1, (sSet overhead a v sz timeout cst max epoch s).2) /\
  wf (sSet overhead a v sz timeout cst max epoch s).1.
Proof.
  intros H Ha Hv Hm. unfold Ns_CacheSetValueExpires. rewrite (Unset_ok _ _ d) by done. cbn [mbind option_bind].
  pose proof (wf_put a v sz timeout cst max epoch s d H Ha Hv Hm) as Hw.
  pose proof (sUnset_lookup a a s H) as Hl. rewrite decide_True, Ha in Hl by done. cbn [fmap option_fmap option_map] in Hl.
  set (d1 := match held d with Some _ => cleared d | None => d end) in Hl.
  destruct (wf_split _ _ _ (wf_unset a s H) Hl) as (l1 & l2 & El & Ha1 & Ha2 & He).
  assert (Hn : held d1 = None) by (subst d1; by destruct (held d) eqn:E).
  destruct (proj2 He Hn) as [Hsz Hex].
  pose proof (Put_conc _ l1 a d1 l2 v sz timeout cst max epoch El Ha1 Hn Hsz Hex) as HP.
  change (sSet overhead a v sz timeout cst max epoch s) with
    (let s' := sPut a v sz timeout cst max epoch s in
     (if 0 <? limit s' then sPrune overhead (reverse (lru s')) (limit s') a s' else s', if epoch =? 0 then 0 else 1)).
  assert (Hput : sPut a v sz timeout cst max epoch s =
    (let s := with_lru (l1 ++ (a, given v sz timeout cst epoch d1) :: l2) (sUnset a s) in
     let s := if epoch =? 0 then s else with_pending ({[a]} ∪ pending s) s in
     if max =? 0 then s else with_limit max s)).
  { unfold sPut. rewrite El. by destruct (mid_at l1 a d1 l2 (given v sz timeout cst epoch) Ha1) as (_ & -> & _). }
  rewrite <- Hput in HP. clear Hput.
  destruct (if epoch =? 0 then _ else _) as [[c1 res]|]; cbn [mbind option_bind] in HP |- *; [|by discriminate HP].
  destruct (upd _ a c1) as [c2|]; cbn [mbind option_bind] in HP |- *; [|by discriminate HP].
  apply Some_pair_inv in HP as [Hc ->].
  assert (Hlim : (if max =? 0 then maxSize (grow sz c2) else max) = limit (sPut a v sz timeout cst max epoch s)).
  { change (limit (sPut a v sz timeout cst max epoch s)) with (maxSize (conc (sPut a v sz timeout cst max epoch s))).
    rewrite <- Hc. destruct (max =? 0); [done|]. by destruct (Z.eqb_spec max (maxSize (grow sz c2))) as [->|]. }
  rewrite Hlim, Hc. cbn [fst snd]. destruct (0 <? _); [|done].
  destruct (prune_ok (limit (sPut a v sz timeout cst max epoch s)) a (reverse (lru (sPut a v sz timeout cst max epoch s)))
    (sPut a v sz timeout cst max epoch s) (S (base.size (heap (conc (sPut a v sz timeout cst max epoch s))))))
    as [-> ?]; [done..| | |done].
  - destruct (sPut_fields a v sz timeout cst max epoch s d H Ha) as (l1' & l2' & _ & _ & -> & _).
    rewrite fmap_app, elem_of_app. right. left.
  - cbn [heap conc]. rewrite seg_size by apply Hw. rewrite length_reverse. lia.
Qed.

Lemma lookup_at_remove l1 a (d : Entry) l2 b :
  b <> a -> lookup_at b (l1 ++ (a, d) :: l2) = lookup_at b (l1 ++ l2).
Proof.
  intros Hb. induction l1 as [|[x e] l1 IH]; cbn; [by rewrite decide_False by congruence|]. by case_decide.
Qed.

Lemma sDelete_lookup s a d b :
  wf s -> lookup_at a (lru s) = Some d -> b <> a -> lookup_at b (lru (sDelete a s)) = lookup_at b (lru s).
Proof.
  intros H Ha Hb. destruct (wf_split _ _ _ H Ha) as (l1 & l2 & El & Ha1 & _ & _).
  rewrite (sDelete_fields s l1 a d l2), El by done. cbn. by rewrite lookup_at_remove.
Qed.

(** A search order over the entries of a cache: every entry that is still to be
    visited exists. *)
Definition visits (order : list Z) (s : Spec) : Prop :=
  NoDup order /\ forall a, a ∈ order -> exists d, lookup_at a (lru s) = Some d.

Lemma visits_cons a order s :
  visits (a :: order) s -> (exists d, lookup_at a (lru s) = Some d) /\ visits order s /\ (a ∉ order).
Proof.
  intros [[Ha Hnd]%NoDup_cons H]. split_and!; [apply H; left|split; [done|]|done].
  intros b Hb. apply H. by right.
Qed.

Lemma visits_change order s s' a :
  visits order s -> (a ∉ order) -> (forall b, b <> a -> lookup_at b (lru s') = lookup_at b (lru s)) ->
  visits order s'.
Proof.
  intros [Hnd H] Ha Hs. split; [done|]. intros b Hb. rewrite Hs by (intros ->; done). by apply H.
Qed.

Lemma visits_delete order s a d :
  wf s -> lookup_at a (lru s) = Some d -> visits order s -> (a ∉ order) -> visits order (sDelete a s).
Proof. intros H Hl Hv Ha. eapply visits_change; [done|done|]. intros b Hb. by eapply sDelete_lookup. Qed.

Lemma flush_ok order now n s fuel :
  wf s -> visits order s -> (length order < fuel)%nat ->
  ('(c, (entry, rest)) ← Ns_CacheNextEntryT overhead order None now (conc s);
   flush_loop overhead fuel entry rest now n c) =
    Some (conc (sFlush order now n s).1, (sFlush order now n s).2) /\ wf (sFlush order now n s).1.
Proof.
  revert n s fuel. induction order as [|a order IH]; intros n s fuel H Hv Hfuel; [by destruct fuel|].
  destruct (visits_cons _ _ _ Hv) as ([d Ha] & Hv' & Hna). cbn [Ns_CacheNextEntryT sFlush].
  destruct (conc_lookup _ _ _ H Ha) as (p & m & ->). rewrite Ha. cbn [mbind option_bind fmap option_fmap option_map].
  change (Ns_CacheGetValueT (relink p m d) None) with (match value d with Some v => Some v | None => None end).
  change (Expired (relink p m d) now) with (Expired d now).
  destruct (value d) eqn:Ev; [|by apply IH; [..|cbn in Hfuel; lia]].
  cbn [mbind option_bind]. destruct (Expired d now) eqn:Ex.
  - cbn [negb mbind option_bind].
    assert (Hb : wf (sbump Expire s)) by by apply wf_bump.
    rewrite <- conc_bump, (Delete_ok _ _ d Hb Ha). cbn [mbind option_bind].
    apply IH; [by eapply wf_delete|by eapply visits_delete|cbn in Hfuel; lia].
  - cbn [negb mbind option_bind].
    destruct fuel as [|fuel]; [lia|]. cbn [flush_loop]. rewrite (Delete_ok _ _ d H Ha). cbn [mbind option_bind].
    apply IH; [by eapply wf_delete|by eapply visits_delete|cbn in Hfuel; lia].
Qed.

(** Publishing an entry that waits. *)
Lemma commit_one s a d :
  wf s -> lookup_at a (lru s) = Some d -> value d = None ->
  exists l1 l2, lru s = l1 ++ (a, d) :: l2 /\ (a ∉ l1.*1) /\
    with_lru (alter_at a committed (lru s)) s = with_lru (l1 ++ (a, committed d) :: l2) s /\
    wf (with_pending (pending s ∖ {[a]}) (with_lru (l1 ++ (a, committed d) :: l2) s)).
Proof.
  intros H Ha Ev. destruct (wf_split _ _ _ H Ha) as (l1 & l2 & El & Ha1 & Ha2 & He).
  exists l1, l2. split_and!; [done|done| |].
  - rewrite El. by destruct (mid_at l1 a d l2 committed Ha1) as (_ & -> & _).
  - assert (Hw : wf (with_lru (l1 ++ (a, committed d) :: l2) s)).
    { eapply wf_mid; [done|exact El|done| |done]. destruct He as [_ He]. unfold entry_wf, held in *; cbn.
      rewrite Ev in He. split; [done|]. intros Hn. apply He. by destruct (uncommittedValue d). }
    destruct Hw as [H1 H2 H3 H4 H5 H6]. split; try done; cbn in *; [intros b [Hb _]%elem_of_difference; by apply H3|].
    rewrite Forall_app, Forall_cons in *. split_and!; try (apply waiting_other; naive_solver). done.
Qed.

Lemma Transaction_ok order epoch commit n s :
  wf s -> visits order s ->
  CacheTransaction overhead order epoch commit n (conc s) =
    Some (conc (sTransaction order epoch commit n s).1, (sTransaction order epoch commit n s).2) /\
  wf (sTransaction order epoch commit n s).1.
Proof.
  revert n s. induction order as [|a order IH]; intros n s H Hv; [done|].
  destruct (visits_cons _ _ _ Hv) as ([d Ha] & Hv' & Hna). cbn [CacheTransaction sTransaction].
  destruct (conc_lookup _ _ _ H Ha) as (p & m & ->). rewrite Ha. cbn [mbind option_bind fmap option_fmap option_map].
  change (value (relink p m d)) with (value d). change (transactionEpoch (relink p m d)) with (transactionEpoch d).
  destruct (value d) eqn:Ev.
  { rewrite bool_decide_eq_false_2 by (unfold waits_for; by rewrite Ev). by apply IH. }
  destruct (transactionEpoch d =? epoch) eqn:Et.
  2:{ rewrite bool_decide_eq_false_2 by (unfold waits_for; by rewrite Ev, Et). by apply IH. }
  rewrite bool_decide_eq_true_2 by (unfold waits_for; by rewrite Ev, Et).
  destruct commit.
  - destruct (commit_one s a d H Ha Ev) as (l1 & l2 & El & Ha1 & -> & Hwf).
    change (uncommittedValue (relink p m d)) with (uncommittedValue d).
    rewrite (upd_ok s l1 a d l2) by done. cbn [mbind option_bind].
    change (set_values (uncommittedValue d) None 0 d) with (committed d).
    set (s' := with_lru (l1 ++ (a, committed d) :: l2) s).
    change (set_tables (entriesTable (conc s')) (uncommittedTable (conc s') ∖ {[a]}) (conc s'))
      with (conc (with_pending (pending s ∖ {[a]}) s')). subst s'. apply IH; [done|].
    eapply visits_change; [done|done|]. intros b Hb. cbn. by rewrite El, !lookup_at_remove.
  - rewrite (Delete_ok _ _ d H Ha). cbn [mbind option_bind].
    apply IH; [by eapply wf_delete|by eapply visits_delete].
Qed.

End Refinement.

(** ** Runs of a cache *)

(** The operations that a client calls with the lock held, with the addresses,
    times and search orders that the environment gives. *)
Inductive Op :=
| OFind (k : list Z) (ts : TransactionStack) (now : Ns_Time)
| OCreate (k : list Z) (now : Ns_Time) (fresh : Z)
| OSet (a v sz : Z) (timeout : option Ns_Time) (cst max epoch : Z)
| OUnset (a : Z)
| ODelete (a : Z)
| OFlushEntry (a : Z)
| OFlush (order : list Z) (now : Ns_Time)
| OCommit (order : list Z) (epoch : Z)
| ORollback (order : list Z) (epoch : Z)
| OSetMax (m : Z)
| OResetStats.

Inductive Res := REntry (a : option Z) | RNew (a : Z) (isNew : bool) | RInt (n : Z) | RVoid.

Section Runs.

Variable overhead : Z.

Definition step (op : Op) (c : Cache) : option (Cache * Res) :=
  match op with
  | OFind k ts now => '(c, r) ← Ns_CacheFindEntryT overhead k ts now c; Some (c, REntry r)
  | OCreate k now fresh => '(c, (a, n)) ← Ns_CacheCreateEntry overhead k now fresh c; Some (c, RNew a n)
  | OSet a v sz timeout cst max epoch =>
      '(c, r) ← Ns_CacheSetValueExpires overhead a (Some v) sz timeout cst max epoch c; Some (c, RInt r)
  | OUnset a => c ← Ns_CacheUnsetValue a c; Some (c, RVoid)
  | ODelete a => c ← Ns_CacheDeleteEntry overhead a c; Some (c, RVoid)
  | OFlushEntry a => c ← Ns_CacheFlushEntry overhead a c; Some (c, RVoid)
  | OFlush order now => '(c, n) ← Ns_CacheFlush overhead order now c; Some (c, RInt n)
  | OCommit order ep => '(c, n) ← Ns_CacheCommitEntries overhead order ep c; Some (c, RInt n)
  | ORollback order ep => '(c, n) ← Ns_CacheRollbackEntries overhead order ep c; Some (c, RInt n)
  | OSetMax m => let '(c, old) := Ns_CacheSetMaxsize m c in Some (c, RInt old)
  | OResetStats => Some (Ns_CacheResetStats c, RVoid)
  end.

(** The client's part of the contract: an entry pointer is one of an entry that
    exists, [ns_calloc] returns memory that is not in use, a search visits each
    entry of its table once, a size is not negative. *)
Definition enabled (op : Op) (c : Cache) : Prop :=
  match op with
  | OFind _ _ _ | OResetStats => True
  | OCreate _ _ fresh => heap c !! fresh = None
  | OSet a _ _ _ _ max _ => is_Some (heap c !! a) /\ 0 <= max
  | OUnset a | ODelete a | OFlushEntry a => is_Some (heap c !! a)
  | OFlush order _ => NoDup order /\ forall a, a ∈ order <-> is_Some (heap c !! a)
  | OCommit order _ | ORollback order _ => NoDup order /\ forall a, a ∈ order <-> a ∈ uncommittedTable c
  | OSetMax m => 0 <= m
  end.

Definition sstep (op : Op) (s : Spec) : Spec * Res :=
  match op with
  | OFind k ts now => let r := sFind k ts now s in (r.1, REntry r.2)
  | OCreate k now fresh => let r := sCreate k now fresh s in (r.1, RNew r.2.1 r.2.2)
  | OSet a v sz timeout cst max epoch =>
      let r := sSet overhead a (Some v) sz timeout cst max epoch s in (r.1, RInt r.2)
  | OUnset a => (sUnset a s, RVoid)
  | ODelete a => (sDelete a s, RVoid)
  | OFlushEntry a => (sDelete a (sbump Flushed s), RVoid)
  | OFlush order now => let r := sFlush order now 0 s in (sbump Flushed r.1, RInt r.2)
  | OCommit order ep =>
      let r := sTransaction order ep true 0 s in (with_counts (add_stat Committed r.2 (counts r.1)) r.1, RInt r.2)
  | ORollback order ep =>
      let r := sTransaction order ep false 0 s in (with_counts (add_stat Rolledback r.2 (counts r.1)) r.1, RInt r.2)
  | OSetMax m => (with_limit m s, RInt (limit s))
  | OResetStats => (with_counts (mkStats 0 0 0 0 0 0 0) s, RVoid)
  end.

(** The states of a cache, with the values that have been stored in it so far. *)
Definition stored (op : Op) : list Z := match op with OSet _ v _ _ _ _ _ => [v] | _ => [] end.

Inductive reachable : list Z -> Cache -> Prop :=
| reach_init max fp : 0 <= max -> reachable [] (Ns_CacheCreateSz max fp)
| reach_step vs c op c' r :
    reachable vs c -> enabled op c -> step op c = Some (c', r) -> reachable (stored op ++ vs) c'.

Lemma conc_dom s a : wf s -> is_Some (heap (conc overhead s) !! a) <-> exists d, lookup_at a (lru s) = Some d.
Proof.
  intros H. split.
  - intros [e He]. destruct (lookup_at a (lru s)) as [d|] eqn:E; [by exists d|].
    apply lookup_at_None in E. cbn in He. by rewrite seg_None in He.
  - intros [d Hd]. destruct (conc_lookup overhead _ _ _ H Hd) as (p & n & ->). done.
Qed.

(** Memory that is not in use holds no entry. *)
Lemma conc_unused s x : wf s -> heap (conc overhead s) !! x = None -> x ∉ (lru s).*1.
Proof.
  intros H Hx. apply lookup_at_None. destruct (lookup_at x (lru s)) eqn:E; [|done].
  destruct (proj2 (conc_dom s x H)) as [? Hy]; [by eexists|]. congruence.
Qed.

Lemma pending_lookup s a : wf s -> a ∈ pending s -> exists d, lookup_at a (lru s) = Some d.
Proof.
  intros H Ha. apply (wf_pending _ H) in Ha. destruct (lookup_at a (lru s)) as [d|] eqn:E; [by exists d|].
  by apply lookup_at_None in E.
Qed.

Lemma step_ok op s :
  wf s -> enabled op (conc overhead s) ->
  step op (conc overhead s) = Some (conc overhead (sstep op s).1, (sstep op s).2) /\ wf (sstep op s).1.
Proof.
  intros H He. destruct op; cbn [enabled step sstep fst snd] in *.
  - destruct (Find_ok overhead s k ts now H) as [-> ?]. done.
  - destruct (Create_ok overhead s k now fresh H) as [-> ?].
    { by apply conc_unused. }
    by destruct (sCreate k now fresh s) as [s' [a n]].
  - destruct He as [Ha Hm]. apply conc_dom in Ha as [d Ha]; [|done].
    destruct (Set_ok overhead s a (Some v) sz timeout cst max epoch d) as [-> ?]; done.
  - apply conc_dom in He as [d Ha]; [|done]. rewrite (Unset_ok _ _ _ d) by done. split; [done|by apply wf_unset].
  - apply conc_dom in He as [d Ha]; [|done]. rewrite (Delete_ok _ _ _ d) by done. split; [done|by eapply wf_delete].
  - apply conc_dom in He as [d Ha]; [|done]. unfold Ns_CacheFlushEntry. rewrite <- conc_bump.
    assert (wf (sbump Flushed s)) by by apply wf_bump.
    rewrite (Delete_ok _ _ _ d) by done. split; [done|by eapply wf_delete].
  - destruct He as [Hnd Hin]. unfold Ns_CacheFlush, Ns_CacheFirstEntryT.
    assert (Hv : visits order s) by (split; [done|]; intros a Ha; apply conc_dom; [done|]; by apply Hin).
    destruct (flush_ok overhead order now 0 s (S (length order)) H Hv) as [Hf ?]; [lia|].
    destruct (Ns_CacheNextEntryT _ _ _ _ _) as [[c [e r]]|]; cbn [mbind option_bind] in *; [|by discriminate Hf].
    rewrite Hf. split; [done|by apply wf_bump].
  - destruct He as [Hnd Hin].
    assert (Hv : visits order s) by (split; [done|]; intros a Ha; apply pending_lookup; [done|]; by apply Hin).
    unfold Ns_CacheCommitEntries. destruct (Transaction_ok overhead order epoch true 0 s H Hv) as [-> ?].
    split; [done|by apply wf_counts].
  - destruct He as [Hnd Hin].
    assert (Hv : visits order s) by (split; [done|]; intros a Ha; apply pending_lookup; [done|]; by apply Hin).
    unfold Ns_CacheRollbackEntries. destruct (Transaction_ok overhead order epoch false 0 s H Hv) as [-> ?].
    split; [done|by apply wf_counts].
  - split; [done|]. destruct H; by split.
  - split; [done|by apply wf_counts].
Qed.

Lemma create_conc max fp : Ns_CacheCreateSz max fp = conc overhead (mkSpec [] ∅ max fp (mkStats 0 0 0 0 0 0 0) []).
Proof. done. Qed.

Lemma wf_empty max fp : 0 <= max -> wf (mkSpec [] ∅ max fp (mkStats 0 0 0 0 0 0 0) []).
Proof. intros. split; cbn; try done; first [apply NoDup_nil_2 | set_solver | by apply Forall_nil_2]. Qed.

Lemma reachable_conc vs c : reachable vs c -> exists s, wf s /\ c = conc overhead s.
Proof.
  induction 1 as [max fp Hm|vs c op c' r _ (s & Hwf & ->) He Hs].
  - eexists. split; [by apply wf_empty|apply create_conc].
  - destruct (step_ok op s Hwf He) as [Heq Hwf']. rewrite Heq in Hs. apply Some_pair_inv in Hs as [<- _].
    by eexists.
Qed.

End Runs.

(** ** The memory of a cache, seen as a whole *)

(** The addresses met by following a link for at most [n] entries, and the pointer
    where the walk stops. *)
Fixpoint walk (link : Entry -> option Z) (h : gmap Z Entry) (n : nat) (p : option Z) : list Z * option Z :=
  match p with
  | None => ([], None)
  | Some a =>
      match n, h !! a with
      | S n, Some e => let '(l, r) := walk link h n (link e) in (a :: l, r)
      | _, _ => ([], Some a)
      end
  end.

(** The bytes of all the entries, and the values they hold. *)
Definition heap_total (overhead : Z) (h : gmap Z Entry) : Z :=
  map_fold (fun _ e acc => weight overhead e + acc) 0 h.
Definition live (h : gmap Z Entry) : list Z := omap held (map_to_list h).*2.

(** What holds of a cache between two operations: both links run through all the
    entries, in opposite directions; the table of the keys and the entries agree;
    the size counter is the sum of the sizes; an entry has at most one value, and
    the entries with an uncommitted one are in the table of the uncommitted ones. *)
Record cache_inv (overhead : Z) (c : Cache) : Prop := {
  inv_list : exists l, NoDup l /\ (forall a, a ∈ l <-> is_Some (heap c !! a)) /\
    walk nextPtr (heap c) (length l) (firstEntryPtr c) = (l, None) /\
    walk prevPtr (heap c) (length l) (lastEntryPtr c) = (reverse l, None);
  inv_table : forall k a, entriesTable c !! k = Some a <-> exists e, heap c !! a = Some e /\ key e = k;
  inv_size : currentSize c = wrap64 (heap_total overhead (heap c));
  inv_entry : forall a e, heap c !! a = Some e ->
    (value e <> None -> uncommittedValue e = None) /\
    (value e = None -> uncommittedValue e = None -> size e = 0 /\ expires e = mkTime 0 0) /\
    (uncommittedValue e <> None -> a ∈ uncommittedTable c);
  inv_uncommitted : forall a, a ∈ uncommittedTable c -> is_Some (heap c !! a)
}.

Lemma walk_next l1 l2 :
  NoDup (l1 ++ l2).*1 ->
  walk nextPtr (seg None (l1 ++ l2) None) (length l2) (hd None l2) = (l2.*1, None).
Proof.
  revert l1. induction l2 as [|[a d] l2 IH]; intros l1 Hnd; [done|].
  destruct (NoDup_mid _ _ _ _ Hnd) as (Ha & _). cbn [walk hd fst length].
  rewrite seg_mid_lookup by done. specialize (IH (l1 ++ [(a, d)])). rewrite <- app_assoc in IH.
  cbn [app relink nextPtr set_prev set_next] in *. by rewrite IH.
Qed.

Lemma walk_prev l1 l2 :
  NoDup (l1 ++ l2).*1 ->
  walk prevPtr (seg None (l1 ++ l2) None) (length l1) (lst None l1) = (reverse l1.*1, None).
Proof.
  revert l2. induction l1 as [|[a d] l1 IH] using rev_ind; intros l2 Hnd; [done|].
  rewrite <- app_assoc in *. cbn [app] in *. destruct (NoDup_mid _ _ _ _ Hnd) as (Ha & _).
  rewrite length_app, Nat.add_comm, lst_app. cbn [walk lst fst length Nat.add].
  rewrite seg_mid_lookup by done. specialize (IH ((a, d) :: l2)).
  cbn [relink prevPtr set_prev set_next]. by rewrite IH, fmap_app, reverse_app.
Qed.

Lemma seg_total overhead p l n : NoDup l.*1 -> heap_total overhead (seg p l n) = total overhead l.
Proof.
  revert p. induction l as [|[a d] l IH]; intros p Hnd; cbn; [apply map_fold_empty|].
  cbn in Hnd. apply NoDup_cons in Hnd as [Ha Hnd]. unfold heap_total in *.
  rewrite map_fold_insert_L, IH; [done|done| |by apply seg_None]. intros. lia.
Qed.

Lemma seg_live p l n : NoDup l.*1 -> live (seg p l n) ≡ₚ omap held l.*2.
Proof.
  revert p. induction l as [|[a d] l IH]; intros p Hnd; cbn [seg]; [done|].
  cbn in Hnd. apply NoDup_cons in Hnd as [Ha Hnd]. unfold live in *.
  rewrite map_to_list_insert by (by apply seg_None). cbn. change (held (relink p (hd n l) d)) with (held d).
  destruct (held d); by rewrite IH.
Qed.

Lemma conc_inv overhead s : wf s -> cache_inv overhead (conc overhead s).
Proof.
  intros H. pose proof (wf_addr _ H) as Hnd.
  assert (Hat : forall a e, seg None (lru s) None !! a = Some e ->
    exists l1 d l2 p n, lru s = l1 ++ (a, d) :: l2 /\ e = relink p n d /\ entry_wf d).
  { intros a e He. destruct (lookup_at a (lru s)) as [d|] eqn:E.
    2:{ apply lookup_at_None in E. by rewrite seg_None in He. }
    destruct (wf_split _ _ _ H E) as (l1 & l2 & El & Ha1 & _ & Hd). rewrite El, seg_mid_lookup in He by done.
    injection He as <-. by eauto 10. }
  split; cbn.
  - exists (lru s).*1. rewrite length_fmap. split_and!; [done| |by apply (walk_next [])|].
    + intros a. change (seg None (lru s) None) with (heap (conc overhead s)). rewrite conc_dom by done.
      destruct (lookup_at a (lru s)) as [d|] eqn:E; [|apply lookup_at_None in E; naive_solver].
      split; [by eexists|]. intros _. apply lookup_at_in in E. apply list_elem_of_fmap. by exists (a, d).
    + pose proof (walk_prev (lru s) []) as Hw. rewrite app_nil_r in Hw. by apply Hw.
  - intros k a. rewrite table_lookup. split.
    + destruct (find_key k (lru s)) as [[b d]|] eqn:E; [|done]. intros [= ->].
      destruct (conc_lookup overhead _ _ _ H (find_lookup _ _ _ _ H E)) as (p & n & Hh). eexists. split; [exact Hh|].
      by destruct (find_key_Some _ _ _ _ E).
    + intros (e & He & Hk). destruct (Hat _ _ He) as (l1 & d & l2 & p & n & El & -> & _).
      rewrite (find_key_elem k (lru s) a d); [done|apply H| |exact Hk]. rewrite El. apply elem_of_app. right. left.
  - by rewrite seg_total.
  - intros a e He. destruct (Hat _ _ He) as (l1 & d & l2 & p & n & El & -> & [Hd1 Hd2]). split_and!.
    + exact Hd1.
    + intros Hv Hu. apply Hd2. unfold held. cbn in Hv, Hu. by rewrite Hv.
    + intros Hu. by apply (wf_unc s l1 a d l2).
  - intros a Ha. change (seg None (lru s) None) with (heap (conc overhead s)). apply conc_dom; [done|].
    by apply pending_lookup.
Qed.

(** ** The values of a cache *)

(** The values the abstract cache has freed or still holds. *)
Definition values (s : Spec) : list Z := gone s ++ omap held (lru s).*2.

Lemma live_mid l1 (a : Z) d l2 :
  omap held (l1 ++ (a, d) :: l2).*2 ≡ₚ (match held d with Some v => [v] | None => [] end) ++ omap held (l1 ++ l2).*2.
Proof.
  rewrite !fmap_app, !omap_app. cbn. destruct (held d); [|done]. cbn. symmetry. apply Permutation_middle.
Qed.

Lemma live_front l1 (a : Z) d d' l2 :
  held d' = held d -> omap held ((a, d') :: l1 ++ l2).*2 ≡ₚ omap held (l1 ++ (a, d) :: l2).*2.
Proof. intros Hh. rewrite live_mid. cbn. rewrite Hh. by destruct (held d). Qed.

Lemma values_unset s a : wf s -> frees s = true -> values (sUnset a s) ≡ₚ values s.
Proof.
  intros H Hf. unfold sUnset. destruct (lookup_at a (lru s)) as [d|] eqn:Ha; [|done].
  destruct (held d) as [v|] eqn:Hv; [|done]. destruct (wf_split _ _ _ H Ha) as (l1 & l2 & El & Ha1 & _).
  unfold values, drop_value; cbn. rewrite Hf, El. destruct (mid_at l1 a d l2 cleared Ha1) as (_ & -> & _).
  rewrite !live_mid, Hv. cbn. by rewrite Permutation_middle.
Qed.

Lemma values_delete s a d :
  wf s -> frees s = true -> lookup_at a (lru s) = Some d -> values (sDelete a s) ≡ₚ values s.
Proof.
  intros H Hf Ha. destruct (wf_split _ _ _ H Ha) as (l1 & l2 & El & Ha1 & _).
  rewrite (sDelete_fields s l1 a d l2) by done. unfold values; cbn. rewrite Hf, El, live_mid.
  destruct (held d); [|done]. cbn. by rewrite Permutation_middle.
Qed.

Lemma frees_unset a s : frees (sUnset a s) = frees s.
Proof. unfold sUnset. destruct (lookup_at a (lru s)) as [d|]; [by destruct (held d)|done]. Qed.
Lemma frees_delete a s : frees (sDelete a s) = frees s.
Proof. apply frees_unset. Qed.

Lemma values_touch s a d f :
  wf s -> lookup_at a (lru s) = Some d -> held (f d) = held d -> values (touch a f s) ≡ₚ values s.
Proof.
  intros H Ha Hh. destruct (wf_split _ _ _ H Ha) as (l1 & l2 & El & Ha1 & _).
  rewrite (touch_perm s l1 a d f l2) by done. unfold values. cbn [lru gone with_lru].
  by rewrite El, (live_front _ _ d (f d)).
Qed.

Lemma values_prune overhead max a r s :
  wf s -> frees s = true -> r = reverse (lru s) ->
  values (sPrune overhead r max a s) ≡ₚ values s /\ frees (sPrune overhead r max a s) = true.
Proof.
  revert s. induction r as [|[b d] r IH]; intros s H Hf Hr; cbn [sPrune]; [done|].
  destruct (max <? _); [|done]. destruct (decide (b = a)); [done|]. destruct (value d); [|done].
  assert (El : lru s = reverse r ++ [(b, d)]) by (rewrite <- (reverse_involutive (lru s)), <- Hr; apply reverse_cons).
  assert (Hb : lookup_at b (lru s) = Some d).
  { apply lookup_at_elem; [apply H|]. rewrite El. apply elem_of_app. right. left. }
  assert (b ∉ (reverse r).*1).
  { pose proof (wf_addr _ H) as Hnd. rewrite El in Hnd. by destruct (NoDup_mid _ _ _ _ Hnd). }
  destruct (IH (sbump Pruned (sDelete b s))) as [Hv ?].
  - by eapply wf_bump, wf_delete.
  - change (frees (sDelete b s) = true). by rewrite frees_delete.
  - change (r = reverse (lru (sDelete b s))). rewrite (sDelete_fields s (reverse r) b d []) by done.
    cbn [lru]. by rewrite app_nil_r, reverse_involutive.
  - split; [|done]. rewrite Hv. by apply (values_delete s b d).
Qed.

Lemma values_put a v sz timeout cst max epoch s d :
  wf s -> frees s = true -> lookup_at a (lru s) = Some d ->
  values (sPut a (Some v) sz timeout cst max epoch s) ≡ₚ v :: values s /\
  frees (sPut a (Some v) sz timeout cst max epoch s) = true.
Proof.
  intros H Hf Ha. split.
  - destruct (sPut_fields a (Some v) sz timeout cst max epoch s d H Ha) as (l1 & l2 & El & _ & Hl & _ & _ & Hg).
    unfold values. rewrite Hl, Hg, Hf, El, !live_mid.
    assert (Hh : held (given (Some v) sz timeout cst epoch d) = Some v) by (unfold held, given; cbn; by destruct (epoch =? 0)).
    rewrite Hh. destruct (held d); cbn; rewrite <- !Permutation_middle; [apply Permutation_swap|done].
  - unfold sPut. destruct (epoch =? 0), (max =? 0); cbn; by rewrite frees_unset.
Qed.

Lemma values_flush order now n s :
  wf s -> frees s = true -> visits order s ->
  values (sFlush order now n s).1 ≡ₚ values s /\ frees (sFlush order now n s).1 = true.
Proof.
  revert n s. induction order as [|a order IH]; intros n s H Hf Hv; [done|]. cbn [sFlush].
  destruct (visits_cons _ _ _ Hv) as ([d Ha] & Hv' & Hna). rewrite Ha. destruct (value d); [|by apply IH].
  pose proof (wf_bump Expire s H) as Hb. destruct (Expired d now).
  - destruct (IH n (sDelete a (sbump Expire s))) as [HV ?].
    + by eapply wf_delete.
    + by rewrite frees_delete.
    + by apply (visits_delete order (sbump Expire s) a d).
    + split; [|done]. rewrite HV. by apply (values_delete (sbump Expire s) a d).
  - destruct (IH (n + 1) (sDelete a s)) as [HV ?].
    + by eapply wf_delete.
    + by rewrite frees_delete.
    + by apply (visits_delete order s a d).
    + split; [|done]. rewrite HV. by apply (values_delete s a d).
Qed.

Lemma values_transaction order epoch commit n s :
  wf s -> frees s = true -> visits order s ->
  values (sTransaction order epoch commit n s).1 ≡ₚ values s.
Proof.
  revert n s. induction order as [|a order IH]; intros n s H Hf Hv; [done|]. cbn [sTransaction].
  destruct (visits_cons _ _ _ Hv) as ([d Ha] & Hv' & Hna). rewrite Ha. case_bool_decide as Hw; [|by apply IH].
  assert (Ev : value d = None) by (unfold waits_for in Hw; cbn in Hw; by destruct (value d)).
  destruct commit.
  - destruct (commit_one s a d H Ha Ev) as (l1 & l2 & El & Ha1 & -> & Hwf). rewrite IH; [|done|done|].
    + unfold values; cbn [lru gone with_lru with_pending]. rewrite El, !live_mid.
      assert (Hh : held (committed d) = held d) by (unfold held; cbn; rewrite Ev; by destruct (uncommittedValue d)).
      by rewrite Hh.
    + eapply visits_change; [done|done|]. intros b Hb. cbn. by rewrite El, !lookup_at_remove.
  - rewrite IH; [by apply (values_delete s a d)|by eapply wf_delete|by rewrite frees_delete|by eapply visits_delete].
Qed.

Lemma frees_step overhead op s : frees (sstep overhead op s).1 = frees s.
Proof.
  assert (Hp : forall max a r s, frees (sPrune overhead r max a s) = frees s).
  { intros max a r. induction r as [|[b d] r IH]; intros s0; cbn; [done|]. destruct (max <? _); [|done].
    destruct (decide (b = a)); [done|]. destruct (value d); [|done]. rewrite IH. apply (frees_delete b s0). }
  assert (Hfl : forall order now n s, frees (sFlush order now n s).1 = frees s).
  { intros order now. induction order as [|a order IH]; intros n s0; cbn [sFlush]; [done|].
    destruct (lookup_at a (lru s0)) as [d|]; [|apply IH]. destruct (value d); [|apply IH].
    destruct (Expired d now); rewrite IH; [apply (frees_delete a (sbump Expire s0))|apply frees_delete]. }
  assert (Ht : forall order ep commit n s, frees (sTransaction order ep commit n s).1 = frees s).
  { intros order ep commit. induction order as [|a order IH]; intros n s0; cbn [sTransaction]; [done|].
    case_bool_decide; [|apply IH]. rewrite IH. destruct commit; [done|apply frees_delete]. }
  assert (Hto : forall a f s, frees (touch a f s) = frees s).
  { intros a f s0. unfold touch. by destruct (lookup_at a (lru s0)). }
  destruct op; cbn [sstep fst]; try done.
  - unfold sFind. destruct (find_key k (lru s)) as [[a d]|]; [|done]. case_bool_decide; [done|].
    destruct (Expired d now); [apply (frees_delete a s)|]. destruct (Ns_CacheGetValueT d ts); [apply (Hto a used (sbump Hit s))|done].
  - unfold sCreate. destruct (find_key k (lru s)) as [[a d]|]; [|done].
    destruct (Expired d now); cbn [fst]; rewrite Hto; [apply (frees_unset a (sbump Expire s))|done].
  - unfold sSet. cbv zeta. cbn [fst]. destruct (0 <? _); rewrite ?Hp; destruct (epoch =? 0), (max =? 0); apply frees_unset.
  - apply frees_unset.
  - apply frees_delete.
  - apply (frees_delete a (sbump Flushed s)).
  - apply Hfl.
  - apply Ht.
  - apply Ht.
Qed.

Lemma values_step overhead op s :
  wf s -> frees s = true -> enabled op (conc overhead s) ->
  values (sstep overhead op s).1 ≡ₚ stored op ++ values s.
Proof.
  intros H Hf He. pose proof (fun a => proj1 (conc_dom overhead s a H)) as Hdom.
  destruct op; cbn [enabled sstep stored fst app] in *; try done.
  - unfold sFind. destruct (find_key k (lru s)) as [[a d]|] eqn:Ek; [|done].
    pose proof (find_lookup _ _ _ _ H Ek) as Ha.
    case_bool_decide; [done|]. destruct (Expired d now); [by apply (values_delete s a d)|].
    destruct (Ns_CacheGetValueT d ts); [|done]. by apply (values_touch (sbump Hit s) a d used); [apply wf_bump|..].
  - unfold sCreate. destruct (find_key k (lru s)) as [[a d]|] eqn:Ek; [|done].
    pose proof (find_lookup _ _ _ _ H Ek) as Ha. pose proof (wf_bump Expire s H) as Hb.
    destruct (Expired d now); [|by apply (values_touch (sbump Hit s) a d used); [apply wf_bump|..]].
    pose proof (sUnset_lookup a a _ Hb) as Hl. rewrite decide_True in Hl by done.
    change (lru (sbump Expire s)) with (lru s) in Hl. rewrite Ha in Hl. cbn [fst].
    rewrite (values_touch _ a _ id (wf_unset a _ Hb) Hl eq_refl). by apply (values_unset (sbump Expire s)).
  - destruct He as [Ha Hm]. apply Hdom in Ha as [d Ha].
    destruct (values_put a v sz timeout cst max epoch s d H Hf Ha) as [HV HF].
    change ((sSet overhead a (Some v) sz timeout cst max epoch s).1) with
      (let s' := sPut a (Some v) sz timeout cst max epoch s in
       if 0 <? limit s' then sPrune overhead (reverse (lru s')) (limit s') a s' else s').
    cbv zeta. destruct (0 <? _); [|done]. rewrite <- HV. apply values_prune; [|done|done].
    by eapply wf_put.
  - by apply values_unset.
  - apply Hdom in He as [d Ha]. by apply (values_delete s a d).
  - apply Hdom in He as [d Ha]. by apply (values_delete (sbump Flushed s) a d); [apply wf_bump|..].
  - destruct He as [Hnd Hin]. apply values_flush; [done..|]. split; [done|]. intros a Ha. by apply Hdom, Hin.
  - destruct He as [Hnd Hin]. apply values_transaction; [done..|]. split; [done|].
    intros a Ha. by apply pending_lookup, Hin.
  - destruct He as [Hnd Hin]. apply values_transaction; [done..|]. split; [done|].
    intros a Ha. by apply pending_lookup, Hin.
Qed.

(** ** Pruning, flushing and transactions on the abstract cache *)

Lemma sPrune_spec overhead max a r s :
  wf s -> r = reverse (lru s) -> a ∈ (lru s).*1 ->
  let s' := sPrune overhead r max a s in
  limit s' = limit s /\
  exists victims, lru s = lru s' ++ victims /\
    Forall (fun p => p.1 <> a /\ value p.2 <> None) victims /\
    (forall p rest, victims = p :: rest -> max < wrap64 (total overhead (lru s' ++ [p]))) /\
    (wrap64 (total overhead (lru s')) <= max \/
     exists l b d, lru s' = l ++ [(b, d)] /\ (b = a \/ value d = None)).
Proof.
  revert s. induction r as [|[b d] r IH]; intros s H Hr Ha; cbn [sPrune].
  { destruct (lru s) as [|q l]; [by apply elem_of_nil in Ha|]. by rewrite reverse_cons in Hr; destruct (reverse l). }
  assert (El : lru s = reverse r ++ [(b, d)]) by (rewrite <- (reverse_involutive (lru s)), <- Hr; apply reverse_cons).
  destruct (Z.ltb_spec max (wrap64 (total overhead (lru s)))) as [Hmax|Hmax].
  2:{ split; [done|]. exists []. rewrite app_nil_r. split_and!; [done|by apply Forall_nil_2|done|by left]. }
  destruct (decide (b = a)) as [->|Hne].
  { split; [done|]. exists []. rewrite app_nil_r. split_and!; [done|by apply Forall_nil_2|done|]. right.
    exists (reverse r), a, d. auto. }
  destruct (value d) eqn:Hv.
  2:{ split; [done|]. exists []. rewrite app_nil_r. split_and!; [done|by apply Forall_nil_2|done|]. right.
      exists (reverse r), b, d. auto. }
  assert (Hnb : b ∉ (reverse r).*1).
  { pose proof (wf_addr _ H) as Hnd. rewrite El in Hnd. by destruct (NoDup_mid _ _ _ _ Hnd). }
  assert (Hb : lookup_at b (lru s) = Some d).
  { apply lookup_at_elem; [apply H|]. rewrite El. apply elem_of_app. right. left. }
  pose proof (sDelete_fields s (reverse r) b d [] El Hnb) as HD. rewrite app_nil_r in HD.
  assert (Hl : lru (sDelete b s) = reverse r) by by rewrite HD.
  destruct (IH (sbump Pruned (sDelete b s))) as (Hlim & victims & Hk & Hf & Hmin & Hend).
  - by eapply wf_bump, wf_delete.
  - change (r = reverse (lru (sDelete b s))). by rewrite Hl, reverse_involutive.
  - change (a ∈ (lru (sDelete b s)).*1). rewrite Hl. rewrite El, fmap_app, elem_of_app in Ha.
    destruct Ha as [Ha|Ha]; [done|]. cbn in Ha. apply list_elem_of_singleton in Ha. congruence.
  - split; [rewrite Hlim; by rewrite HD|]. change (lru (sbump Pruned (sDelete b s))) with (lru (sDelete b s)) in Hk.
    rewrite Hl in Hk. exists (victims ++ [(b, d)]). split_and!.
    + rewrite El, Hk. by rewrite app_assoc.
    + apply Forall_app. split; [done|]. apply Forall_singleton. cbn. by rewrite Hv.
    + intros p rest Hp. destruct victims as [|p' v]; cbn in Hp; injection Hp as <- <-.
      * rewrite app_nil_r in Hk. by rewrite <- Hk, <- El.
      * by eapply Hmin.
    + done.
Qed.

(** The entry [b] of the cache waits for [epoch]. *)
Definition waiting (epoch : Z) (s : Spec) (b : Z) : bool :=
  match lookup_at b (lru s) with Some d => waits_for epoch d | None => false end.

(** An entry that waits, after the end of the transaction. *)
Definition ended (commit : bool) (d : Entry) : option Entry := if commit then Some (committed d) else None.

Lemma sTransaction_spec order epoch commit n s :
  wf s -> visits order s ->
  (forall b, lookup_at b (lru (sTransaction order epoch commit n s).1) =
    if bool_decide (b ∈ order) && waiting epoch s b
    then d ← lookup_at b (lru s); ended commit d else lookup_at b (lru s)) /\
  (sTransaction order epoch commit n s).2 = n + Z.of_nat (length (List.filter (waiting epoch s) order)).
Proof.
  revert n s. induction order as [|a order IH]; intros n s H Hv; [split; [done|cbn; lia]|].
  destruct (visits_cons _ _ _ Hv) as ([d Ha] & Hv' & Hna). cbn [sTransaction List.filter].
  assert (Hwa : waiting epoch s a = waits_for epoch d) by (unfold waiting; by rewrite Ha).
  assert (Hin : forall b, b <> a -> bool_decide (b ∈ a :: order) = bool_decide (b ∈ order)).
  { intros b Hb. apply bool_decide_ext. rewrite elem_of_cons. naive_solver. }
  rewrite Ha, Hwa. cbn [fmap option_fmap option_map]. destruct (waits_for epoch d) eqn:Hw.
  2:{ rewrite bool_decide_eq_false_2 by done. destruct (IH n s H Hv') as [IH1 IH2]. split; [|done].
      intros b. rewrite IH1. destruct (decide (b = a)) as [->|Hb]; [by rewrite Hwa, !andb_false_r|].
      by rewrite Hin. }
  rewrite bool_decide_eq_true_2 by done.
  assert (Ev : value d = None) by (unfold waits_for in Hw; by destruct (value d)).
  set (s' := if commit then _ else _).
  assert (Hs' : wf s' /\ visits order s' /\ (forall b, b <> a -> lookup_at b (lru s') = lookup_at b (lru s)) /\
    lookup_at a (lru s') = ended commit d).
  { subst s'. destruct commit.
    - destruct (commit_one s a d H Ha Ev) as (l1 & l2 & El & Ha1 & -> & Hwf). cbn [lru with_lru with_pending].
      assert (forall b, b <> a -> lookup_at b (l1 ++ (a, committed d) :: l2) = lookup_at b (lru s)).
      { intros b Hb. by rewrite El, !lookup_at_remove. }
      split_and!; [done|by eapply visits_change|done|by apply (mid_at l1 a (committed d) l2 id)].
    - split_and!; [by eapply wf_delete|by eapply visits_delete|intros; by eapply sDelete_lookup|].
      destruct (wf_split _ _ _ H Ha) as (l1 & l2 & El & Ha1 & Ha2 & _). rewrite (sDelete_fields s l1 a d l2) by done.
      cbn. apply lookup_at_None. rewrite fmap_app, elem_of_app. naive_solver. }
  destruct Hs' as (Hwf & Hvis & Hother & Hself). destruct (IH (n + 1) s' Hwf Hvis) as [IH1 IH2].
  assert (Hwo : forall b, b <> a -> waiting epoch s' b = waiting epoch s b) by (intros; unfold waiting; by rewrite Hother).
  split.
  - intros b. rewrite IH1. destruct (decide (b = a)) as [->|Hb].
    + rewrite (bool_decide_eq_false_2 (a ∈ order)), (bool_decide_eq_true_2 (a ∈ a :: order)) by (done || left).
      rewrite Hwa, Ha. done.
    + by rewrite Hin, Hwo, Hother.
  - rewrite IH2. cbn [length]. rewrite (filter_ext_in (waiting epoch s') (waiting epoch s) order); [lia|].
    intros b Hb%list_elem_of_In. apply Hwo. intros ->. done.
Qed.

(** ** Theorems *)

Section Sequences.

Variable overhead : Z.

Fixpoint run (ops : list Op) (c : Cache) : option (Cache * list Res) :=
  match ops with
  | [] => Some (c, [])
  | op :: ops =>
      '(c, r) ← step overhead op c;
      '(c, rs) ← run ops c;
      Some (c, r :: rs)
  end.

Fixpoint srun (ops : list Op) (s : Spec) : Spec * list Res :=
  match ops with
  | [] => (s, [])
  | op :: ops =>
      let '(s, r) := sstep overhead op s in let '(s, rs) := srun ops s in (s, r :: rs)
  end.

(** Every call of the sequence keeps the contract in the state it is made in. *)
Fixpoint enabled_run (ops : list Op) (c : Cache) : Prop :=
  match ops with
  | [] => True
  | op :: ops => enabled op c /\ forall c' r, step overhead op c = Some (c', r) -> enabled_run ops c'
  end.

Lemma reach_run ops vs c c' rs :
  reachable overhead vs c -> enabled_run ops c -> run ops c = Some (c', rs) ->
  reachable overhead (foldl (fun vs op => stored op ++ vs) vs ops) c'.
Proof.
  revert vs c rs. induction ops as [|op ops IH]; intros vs c rs Hr He Hrun; cbn in *; [by injection Hrun as <- _|].
  destruct He as [He Hrest]. destruct (step overhead op c) as [[c1 r]|] eqn:Es; [|by discriminate Hrun].
  cbn in Hrun. destruct (run ops c1) as [[c2 rs']|] eqn:Er; [|by discriminate Hrun].
  apply Some_pair_inv in Hrun as [<- _]. eapply IH; [by eapply reach_step|by eapply Hrest|done].
Qed.

End Sequences.

(** Discharges [enabled_run] for a concrete sequence. *)
Ltac solve_enabled :=
  repeat (split; [first [exact I|vm_compute; reflexivity|split; [eexists; vm_compute; reflexivity|lia]]|];
    let Hs := fresh in intros ? ? Hs; vm_compute in Hs; injection Hs as <- <-); exact I.

(** C1.  A sequence of calls on a cache, made with valid entry pointers, computes
    exactly what the abstract LRU list computes: no call follows a dangling
    pointer or loops for ever, the results are those of the list, and the final
    memory is the layout of the final list, tables and size counter included. *)
Theorem cache_refines overhead ops c s :
  represents overhead c s -> enabled_run overhead ops c ->
  exists c', run overhead ops c = Some (c', (srun overhead ops s).2) /\
    represents overhead c' (srun overhead ops s).1.
Proof.
  revert c s. induction ops as [|op ops IH]; intros c s [Hwf ->] He; [by eexists|].
  destruct He as [He Hrest]. destruct (step_ok overhead op s Hwf He) as [Hs Hwf'].
  cbn [run srun]. destruct (sstep overhead op s) as [s1 r] eqn:Es. cbn [fst snd] in *.
  destruct (IH (conc overhead s1) s1) as (c' & Hrun & Hrep); [done|by eapply Hrest|].
  destruct (srun overhead ops s1) as [s2 rs]. cbn [fst snd] in *.
  exists c'. rewrite Hs. cbn [mbind option_bind]. by rewrite Hrun.
Qed.

(** An entry is created, filled, found and pushed out by a larger one. *)
Definition ex_ops : list Op :=
  [OCreate (bytes "k") (mkTime 5 0) 1; OSet 1 7 10 None 0 0 0; OFind (bytes "k") None (mkTime 6 0);
   OCreate (bytes "m") (mkTime 7 0) 2; OSet 2 8 300 None 0 0 0; OFind (bytes "k") None (mkTime 8 0)].

Lemma cache_refines_witness :
  exists c', run 100 ex_ops (Ns_CacheCreateSz 400 true) =
      Some (c', [RNew 1 true; RInt 0; REntry (Some 1); RNew 2 true; RInt 0; REntry None]) /\
    represents 100 c' (srun 100 ex_ops (mkSpec [] ∅ 400 true (mkStats 0 0 0 0 0 0 0) [])).1.
Proof.
  apply (cache_refines 100 ex_ops (Ns_CacheCreateSz 400 true) (mkSpec [] ∅ 400 true (mkStats 0 0 0 0 0 0 0) [])).
  - split; [by apply wf_empty|reflexivity].
  - solve_enabled.
Defined.

(** C30.  Every state of a cache satisfies the invariant: both chains of links visit
    every entry once, in opposite orders; the key table holds exactly the
    entries; [currentSize] is the sum of the entries' sizes; an entry has at most
    one of a committed and an uncommitted value, and the latter only when it is
    in the table of the uncommitted entries. *)
Theorem cache_invariant overhead vs c : reachable overhead vs c -> cache_inv overhead c.
Proof. intros (s & H & ->)%reachable_conc. by apply conc_inv. Qed.

(** A cache with an entry whose value was committed and one that waits. *)
Lemma ex_reachable :
  exists c, run 100 [OCreate (bytes "k") (mkTime 5 0) 1; OSet 1 7 10 None 0 0 0;
                OCreate (bytes "m") (mkTime 7 0) 2; OSet 2 8 20 None 0 0 3] (Ns_CacheCreateSz 400 true)
    = Some (c, [RNew 1 true; RInt 0; RNew 2 true; RInt 1]) /\ reachable 100 [8; 7] c.
Proof.
  eexists. split; [vm_compute; reflexivity|].
  eapply (reach_run 100 [OCreate (bytes "k") (mkTime 5 0) 1; OSet 1 7 10 None 0 0 0;
    OCreate (bytes "m") (mkTime 7 0) 2; OSet 2 8 20 None 0 0 3] [] (Ns_CacheCreateSz 400 true)).
  - apply reach_init. lia.
  - solve_enabled.
  - vm_compute. reflexivity.
Qed.

Lemma cache_invariant_witness : exists c, currentSize c = 232 /\ cache_inv 100 c.
Proof.
  destruct ex_reachable as (c & Hrun & Hr). exists c. split.
  - vm_compute in Hrun. by injection Hrun as <-.
  - exact (cache_invariant 100 [8; 7] c Hr).
Defined.

(** No value leaks and none is freed twice: the values stored in a cache so
    far are those it has passed to [freeProc] together with those that its
    entries hold. *)
Theorem values_freed_once overhead vs c :
  reachable overhead vs c -> freeProc c = true -> vs ≡ₚ freed c ++ live (heap c).
Proof.
  intros Hr Hf. assert (Hs : exists s, wf s /\ c = conc overhead s /\ (frees s = true -> vs ≡ₚ values s)).
  { clear Hf. induction Hr as [max fp Hm|vs c op c' r _ (s & Hwf & -> & Hv) He Hs].
    - eexists. split_and!; [by apply wf_empty|apply create_conc|done].
    - destruct (step_ok overhead op s Hwf He) as [Heq Hwf']. rewrite Heq in Hs. apply Some_pair_inv in Hs as [<- _].
      exists (sstep overhead op s).1. split_and!; [done|done|]. intros Hf. assert (Hfs : frees s = true).
      { rewrite <- Hf. symmetry. apply frees_step. }
      rewrite (values_step overhead op s Hwf Hfs He). by rewrite (Hv Hfs). }
  destruct Hs as (s & Hwf & -> & Hv). rewrite (Hv Hf). unfold values. cbn.
  by rewrite seg_live by apply Hwf.
Qed.

Lemma values_freed_once_witness :
  exists c, freed c = [7] /\ [9; 8; 7] ≡ₚ freed c ++ live (heap c).
Proof.
  destruct ex_reachable as (c & Hrun & Hr).
  assert (Hs : exists c' r, step 100 (OSet 1 9 10 None 0 0 0) c = Some (c', r) /\ freed c' = [7] /\ freeProc c' = true).
  { vm_compute in Hrun. injection Hrun as <-. eexists _, _. split; [vm_compute; reflexivity|done]. }
  destruct Hs as (c' & r & Hs & Hfr & Hfp). exists c'. split; [done|].
  apply (values_freed_once 100 [9; 8; 7] c'); [|done].
  eapply (reach_step 100 [8; 7] c (OSet 1 9 10 None 0 0 0)); [done| |done].
  split; [|lia]. vm_compute in Hrun. injection Hrun as <-. eexists. vm_compute. reflexivity.
Defined.

(** The addresses of the entries, the most recently used one first. *)
Definition lru_order (c : Cache) : list Z :=
  (walk nextPtr (heap c) (base.size (heap c)) (firstEntryPtr c)).1.

Lemma conc_order overhead s : wf s -> lru_order (conc overhead s) = (lru s).*1.
Proof.
  intros H. unfold lru_order. cbn [heap firstEntryPtr conc]. rewrite seg_size by apply H.
  pose proof (walk_next [] (lru s) (wf_addr _ H)) as Hw. cbn [app] in Hw. by rewrite Hw.
Qed.

Lemma lookup_at_app_l a l1 l2 : (a ∉ l2.*1) -> lookup_at a (l1 ++ l2) = lookup_at a l1.
Proof.
  intros Ha. induction l1 as [|[b d] l1 IH]; cbn; [by apply lookup_at_None|by rewrite IH].
Qed.

(** The abstract cache after a value is set. *)
Lemma sSet_spec overhead a v sz timeout cst max epoch s d :
  wf s -> lookup_at a (lru s) = Some d -> 0 <= max ->
  let m := if max =? 0 then limit s else max in
  let s' := (sSet overhead a (Some v) sz timeout cst max epoch s).1 in
  limit s' = m /\ lookup_at a (lru s') = Some (given (Some v) sz timeout cst epoch d) /\
  exists victims, (lru s).*1 = (lru s').*1 ++ victims.*1 /\ (a ∉ victims.*1) /\ (m = 0 -> victims = []) /\
    Forall (fun p => lookup_at p.1 (lru s) = Some p.2 /\ value p.2 <> None) victims /\
    (m = 0 \/ wrap64 (total overhead (lru s')) <= m \/
     exists l b e, lru s' = l ++ [(b, e)] /\ (b = a \/ value e = None)).
Proof.
  intros H Ha Hm m s'.
  pose proof (wf_put a (Some v) sz timeout cst max epoch s d H Ha ltac:(done) Hm) as Hw.
  destruct (sPut_fields a (Some v) sz timeout cst max epoch s d H Ha) as (l1 & l2 & El & Ha1 & Hl & _ & Hlim & _).
  set (p := sPut a (Some v) sz timeout cst max epoch s) in *.
  assert (Hs' : s' = if 0 <? limit p then sPrune overhead (reverse (lru p)) (limit p) a p else p) by done.
  assert (Hpa : lookup_at a (lru p) = Some (given (Some v) sz timeout cst epoch d)).
  { rewrite Hl. by apply (mid_at l1 a _ l2 id). }
  assert (Hfst : (lru p).*1 = (lru s).*1) by (rewrite Hl, El; apply fst_mid).
  destruct (Z.ltb_spec 0 (limit p)) as [Hpos|Hz].
  2:{ assert (m = 0). { subst m. rewrite <- Hlim. pose proof (wf_limit _ Hw). lia. }
      rewrite Hs'. split_and!; [done|done|]. exists []. rewrite app_nil_r. split_and!; [done|apply not_elem_of_nil|done
      |by apply Forall_nil_2|by left]. }
  destruct (sPrune_spec overhead (limit p) a (reverse (lru p)) p Hw eq_refl) as (Hl' & victims & Hk & Hv & _ & Hend).
  { rewrite Hfst, El, fmap_app, elem_of_app. right. left. }
  rewrite <- Hs' in *. rewrite Hlim in *. fold m in Hl', Hend, Hpos.
  assert (Hav : a ∉ victims.*1).
  { intros (q & Hqa & Hq)%list_elem_of_fmap. destruct (proj1 (Forall_forall _ _) Hv q Hq) as [Hne _]. congruence. }
  split_and!; [done|by rewrite <- Hpa, Hk, lookup_at_app_l|]. exists victims.
  split_and!; [by rewrite <- Hfst, Hk, fmap_app|done|lia| |by right].
  apply Forall_forall. intros q Hq. destruct (proj1 (Forall_forall _ _) Hv q Hq) as [Hqa Hqv]. split; [|done].
  destruct q as [b e]. cbn in *. rewrite El, (lookup_at_remove _ _ _ _ _ Hqa).
  rewrite <- (lookup_at_remove l1 a (given (Some v) sz timeout cst epoch d) l2 b Hqa), <- Hl.
  apply lookup_at_elem; [apply Hw|]. rewrite Hk. apply elem_of_app. by right.
Qed.

(** Setting a value evicts the least recently used entries, and only as many
    as needed: the other entries keep their order, the entry itself stays, every
    evicted entry had a value, and afterwards the cache is within its limit
    unless the last entry is the one being set or one that has no value yet. *)
Theorem set_bounded overhead vs c a v sz timeout cst max epoch :
  reachable overhead vs c -> is_Some (heap c !! a) -> 0 <= max ->
  let m := if max =? 0 then maxSize c else max in
  exists c' r victims,
    Ns_CacheSetValueExpires overhead a (Some v) sz timeout cst max epoch c = Some (c', r) /\
    maxSize c' = m /\ lru_order c = lru_order c' ++ victims /\ (a ∉ victims) /\ (m = 0 -> victims = []) /\
    Forall (fun b => exists e, heap c !! b = Some e /\ value e <> None) victims /\
    (m = 0 \/ currentSize c' <= m \/
     exists b e, lastEntryPtr c' = Some b /\ heap c' !! b = Some e /\ (b = a \/ value e = None)).
Proof.
  intros (s & Hwf & ->)%reachable_conc Ha Hm m. apply conc_dom in Ha as [d Ha]; [|done].
  destruct (Set_ok overhead s a (Some v) sz timeout cst max epoch d Hwf Ha) as [Hset Hwf']; [done..|].
  destruct (sSet_spec overhead a v sz timeout cst max epoch s d Hwf Ha Hm) as (Hlim & _ & victims & Hord & Hav & H0 & Hv & Hend).
  eexists _, _, victims.*1. split; [exact Hset|]. rewrite !conc_order by done.
  split_and!; [exact Hlim|done|done|by intros ->%H0| |].
  - apply Forall_fmap. eapply Forall_impl; [exact Hv|]. intros [b e] [Hb Hval]; cbn in *.
    destruct (conc_lookup overhead _ _ _ Hwf Hb) as (p & n & Hh). by eexists.
  - destruct Hend as [?|[?|(l & b & e & El & He)]]; [by left|by right; left|right; right].
    exists b. cbn [conc heap lastEntryPtr]. rewrite El, lst_app, seg_mid_lookup.
    + eexists. split_and!; [done|done|exact He].
    + pose proof (wf_addr _ Hwf') as Hnd. rewrite El in Hnd. by destruct (NoDup_mid _ _ _ _ Hnd).
Qed.

Lemma set_bounded_witness :
  exists c' r victims, (exists c,
    Ns_CacheSetValueExpires 100 2 (Some 9) 300 None 0 350 0 c = Some (c', r) /\
    maxSize c' = 350 /\ lru_order c = lru_order c' ++ victims) /\ victims = [1].
Proof.
  destruct ex_reachable as (c & Hrun & Hr). vm_compute in Hrun. injection Hrun as <-.
  match type of Hr with reachable _ _ ?c =>
    destruct (set_bounded 100 [8; 7] c 2 9 300 None 0 350 0 Hr) as (c' & r & victims & Hs & Hm & Ho & _) end;
    [eexists; vm_compute; reflexivity|lia|].
  exists c', r, victims. split; [eexists; split_and!; [exact Hs|done|exact Ho]|].
  vm_compute in Hs. injection Hs as <- <-. vm_compute in Ho. by injection Ho.
Defined.

(** An entry set by the transaction [epoch] (0: none) is visible to [ts]. *)
Definition visible (epoch : Z) (ts : TransactionStack) : bool :=
  (epoch =? 0) || match ts with Some stack => on_stack epoch stack | None => false end.

Definition alive (timeout : option Ns_Time) (now : Ns_Time) : Prop :=
  match timeout with
  | None => True
  | Some t => normal t /\ normal now /\ 0 <= tval t /\ tval now <= tval t
  end.

Lemma alive_not_expired v sz timeout cst epoch d now :
  alive timeout now -> Expired (given v sz timeout cst epoch d) now = false.
Proof.
  unfold Expired, alive. cbn. destruct timeout as [t|]; [|done]. cbn. intros (? & ? & ? & ?).
  destruct (DiffTime_order t now) as (-> & _); [done..|]. apply andb_false_intro2. apply Z.ltb_ge. lia.
Qed.

(** The value an entry is given is the one that is found under its key, until
    it expires: by everybody, when it was set outside of a transaction, and only
    with that transaction on the stack, when it was set inside of one.  The
    entry found becomes the most recently used one. *)
Theorem set_find overhead vs c a e v sz timeout cst max epoch ts now :
  reachable overhead vs c -> heap c !! a = Some e -> 0 <= max -> alive timeout now ->
  exists c' r c'' found,
    Ns_CacheSetValueExpires overhead a (Some v) sz timeout cst max epoch c = Some (c', r) /\
    Ns_CacheFindEntryT overhead (key e) ts now c' = Some (c'', found) /\
    found = (if visible epoch ts then Some a else None) /\
    (visible epoch ts = true -> firstEntryPtr c'' = Some a /\
      exists e'', heap c'' !! a = Some e'' /\ Ns_CacheGetValueT e'' ts = Some v).
Proof.
  intros (s & Hwf & ->)%reachable_conc He Hm Halive.
  destruct (proj1 (conc_dom overhead s a Hwf)) as [d Ha]; [by eexists|].
  destruct (conc_lookup overhead _ _ _ Hwf Ha) as (p & n & Hh). rewrite He in Hh. injection Hh as ->.
  destruct (Set_ok overhead s a (Some v) sz timeout cst max epoch d Hwf Ha) as [Hset Hwf']; [done..|].
  destruct (sSet_spec overhead a v sz timeout cst max epoch s d Hwf Ha Hm) as (_ & Hl & _).
  set (s' := (sSet overhead a (Some v) sz timeout cst max epoch s).1) in *.
  destruct (Find_ok overhead s' (key d) ts now Hwf') as [Hfind Hwf''].
  eexists _, _, _, _. split; [exact Hset|]. split; [exact Hfind|]. clear Hset Hfind.
  set (g := given (Some v) sz timeout cst epoch d) in *.
  assert (Hk : find_key (key d) (lru s') = Some (a, g)).
  { apply find_key_elem; [apply Hwf'|by apply lookup_at_in|done]. }
  assert (Hex : Expired g now = false) by by apply alive_not_expired.
  assert (Hg : Ns_CacheGetValueT g ts = if visible epoch ts then Some v else None).
  { unfold Ns_CacheGetValueT, visible. subst g. cbn [value given uncommittedValue transactionEpoch].
    destruct (epoch =? 0); [done|]. by destruct ts as [st|]; [destruct (on_stack epoch st)|]. }
  destruct (wf_split _ _ _ Hwf' Hl) as (l1 & l2 & El & Ha1 & _ & _).
  unfold sFind. rewrite Hk, Hex, Hg. destruct (visible epoch ts) eqn:Hvis.
  - rewrite bool_decide_eq_false_2.
    2:{ intros [Hv [-> | ->]]; unfold visible in Hvis; subst g; cbn in Hv; destruct (epoch =? 0); done. }
    split; [done|]. intros _. cbn [fst]. rewrite (touch_perm (sbump Hit s') l1 a g used l2 El Ha1).
    split; [done|]. eexists. split; [apply lookup_insert_eq|]. exact Hg.
  - split; [by case_bool_decide|done].
Qed.

Lemma set_find_witness :
  exists c c' r c'' found e,
    heap c !! 1 = Some e /\
    Ns_CacheSetValueExpires 100 1 (Some 9) 5 (Some (mkTime 20 0)) 0 0 3 c = Some (c', r) /\
    Ns_CacheFindEntryT 100 (key e) (Some [4; 3]) (mkTime 15 0) c' = Some (c'', found) /\ found = Some 1.
Proof.
  destruct ex_reachable as (c & Hrun & Hr). vm_compute in Hrun. injection Hrun as <-.
  match type of Hr with reachable _ _ ?c => exists c; destruct (heap c !! 1) as [e|] eqn:He; [|by vm_compute in He];
    destruct (set_find 100 [8; 7] c 1 e 9 5 (Some (mkTime 20 0)) 0 0 3 (Some [4; 3]) (mkTime 15 0) Hr He)
    as (c' & r & c'' & found & Hs & Hf & Hfound & _) end;
    [lia|split_and!; unfold normal, tval; cbn; lia|].
  exists c', r, c'', found, e. split_and!; [done|exact Hs|exact Hf|exact Hfound].
Defined.

(** Two entries that differ at most in their links. *)
Definition same_data (e e' : Entry) : Prop := relink None None e = relink None None e'.

(** A search order over the table of the uncommitted entries. *)
Definition enumerates (order : list Z) (c : Cache) : Prop :=
  NoDup order /\ forall a, a ∈ order <-> a ∈ uncommittedTable c.

Definition ends_waiting (epoch : Z) (c : Cache) (b : Z) (e : Entry) : bool :=
  bool_decide (b ∈ uncommittedTable c) && waits_for epoch e.

(** A rollback leaves nothing under the key of an entry that it removes. *)
Lemma rollback_keys order epoch n s b d :
  wf s -> visits order s -> wf (sTransaction order epoch false n s).1 ->
  lookup_at b (lru s) = Some d -> lookup_at b (lru (sTransaction order epoch false n s).1) = None ->
  find_key (key d) (lru (sTransaction order epoch false n s).1) = None.
Proof.
  intros H Hv H' Hb Hn. destruct (find_key _ _) as [[b' d']|] eqn:Ek; [|done]. exfalso.
  pose proof (find_lookup _ _ _ _ H' Ek) as Hb'. destruct (find_key_Some _ _ _ _ Ek) as [_ Hk].
  destruct (sTransaction_spec order epoch false n s H Hv) as [Hl _]. rewrite (Hl b') in Hb'.
  assert (Hs : lookup_at b' (lru s) = Some d').
  { destruct (bool_decide _ && _); [|done]. by destruct (lookup_at b' (lru s)). }
  apply lookup_at_in in Hs, Hb. pose proof (find_key_elem _ _ _ _ (wf_keys _ H) Hs Hk) as H1.
  pose proof (find_key_elem _ _ _ _ (wf_keys _ H) Hb eq_refl) as H2. rewrite H1 in H2. injection H2 as -> ->.
  apply (find_lookup _ _ _ _ H') in Ek. by rewrite Hn in Ek.
Qed.

Lemma transaction_heap overhead order epoch commit s :
  wf s -> enumerates order (conc overhead s) ->
  let s' := (sTransaction order epoch commit 0 s).1 in
  CacheTransaction overhead order epoch commit 0 (conc overhead s) =
    Some (conc overhead s', (sTransaction order epoch commit 0 s).2) /\
  forall b e, heap (conc overhead s) !! b = Some e ->
    if ends_waiting epoch (conc overhead s) b e
    then if commit then exists e', heap (conc overhead s') !! b = Some e' /\ same_data (committed e) e'
         else heap (conc overhead s') !! b = None /\ entriesTable (conc overhead s') !! key e = None
    else exists e', heap (conc overhead s') !! b = Some e' /\ same_data e e'.
Proof.
  intros Hwf [Hnd Hin] s'.
  assert (Hv : visits order s) by (split; [done|]; intros a Ha; apply pending_lookup; [done|]; by apply Hin).
  destruct (Transaction_ok overhead order epoch commit 0 s Hwf Hv) as [HT Hwf'].
  split; [done|]. intros b e He.
  destruct (proj1 (conc_dom overhead s b Hwf)) as [d Hd]; [by eexists|].
  destruct (conc_lookup overhead _ _ _ Hwf Hd) as (p & n & Hh). rewrite He in Hh. injection Hh as ->.
  destruct (sTransaction_spec order epoch commit 0 s Hwf Hv) as [Hl _]. specialize (Hl b).
  assert (Hw : bool_decide (b ∈ order) && waiting epoch s b = ends_waiting epoch (conc overhead s) b (relink p n d)).
  { unfold ends_waiting, waiting. rewrite Hd. f_equal. by apply bool_decide_ext. }
  rewrite Hw, Hd in Hl. cbn [mbind option_bind] in Hl. fold s' in Hl.
  destruct (ends_waiting _ _ _ _); [destruct commit|].
  - destruct (conc_lookup overhead _ _ _ Hwf' Hl) as (p' & n' & Hh). by eexists.
  - cbn [conc heap entriesTable]. rewrite table_lookup. subst s'. split.
    + apply seg_None. by apply lookup_at_None.
    + change (key (relink p n d)) with (key d). by rewrite (rollback_keys order epoch 0 s b d).
  - destruct (conc_lookup overhead _ _ _ Hwf' Hl) as (p' & n' & Hh). by eexists.
Qed.

(** Which entries the end of a transaction concerns. *)
Lemma ends_waiting_inv overhead epoch c b e :
  cache_inv overhead c -> heap c !! b = Some e ->
  (uncommittedValue e <> None -> transactionEpoch e = epoch -> ends_waiting epoch c b e = true) /\
  (value e <> None \/ transactionEpoch e <> epoch -> ends_waiting epoch c b e = false).
Proof.
  intros Hinv He. destruct (inv_entry _ _ Hinv b e He) as (Hval & _ & Hu). unfold ends_waiting, waits_for. split.
  - intros Hun Hep. rewrite bool_decide_eq_true_2 by auto. destruct (value e); [by destruct Hun; auto|].
    cbn. by apply Z.eqb_eq.
  - intros Hor. apply andb_false_intro2. destruct (value e); [done|]. apply Z.eqb_neq. by destruct Hor.
Qed.

(** Committing a transaction publishes every value it has set, so that all
    readers see it, and changes no entry with a committed value or of another
    transaction. *)
Theorem commit_publishes overhead vs c order epoch :
  reachable overhead vs c -> enumerates order c ->
  exists c' n, Ns_CacheCommitEntries overhead order epoch c = Some (c', n) /\
    forall b e, heap c !! b = Some e -> exists e', heap c' !! b = Some e' /\
      (uncommittedValue e <> None -> transactionEpoch e = epoch ->
         Ns_CacheGetValueT e' None = uncommittedValue e /\ uncommittedValue e' = None) /\
      (value e <> None \/ transactionEpoch e <> epoch -> same_data e e').
Proof.
  intros (s & Hwf & ->)%reachable_conc Hin. unfold Ns_CacheCommitEntries.
  destruct (transaction_heap overhead order epoch true s Hwf Hin) as (-> & Hh).
  eexists _, _. split; [reflexivity|]. intros b e He. specialize (Hh b e He).
  destruct (ends_waiting_inv overhead epoch _ b e (conc_inv overhead s Hwf) He) as [Hyes Hno].
  destruct (ends_waiting epoch _ b e) eqn:Hw; destruct Hh as (e' & Hh & Hs); exists e'; (split; [exact Hh|]).
  - split; [|intros Hor; by specialize (Hno Hor)]. intros Hun _.
    assert (value e' = uncommittedValue e /\ uncommittedValue e' = None) as [Hv' Hu'].
    { unfold same_data in Hs. destruct e, e'; cbn in *. by injection Hs. }
    unfold Ns_CacheGetValueT. rewrite Hv'. by destruct (uncommittedValue e).
  - split; [intros Hun Hep; by specialize (Hyes Hun Hep)|done].
Qed.

(** Rolling a transaction back removes every entry whose value it has set, and
    changes no entry with a committed value or of another transaction. *)
Theorem rollback_discards overhead vs c order epoch :
  reachable overhead vs c -> enumerates order c ->
  exists c' n, Ns_CacheRollbackEntries overhead order epoch c = Some (c', n) /\
    forall b e, heap c !! b = Some e ->
      (uncommittedValue e <> None -> transactionEpoch e = epoch ->
         heap c' !! b = None /\ entriesTable c' !! key e = None) /\
      (value e <> None \/ transactionEpoch e <> epoch -> exists e', heap c' !! b = Some e' /\ same_data e e').
Proof.
  intros (s & Hwf & ->)%reachable_conc Hin. unfold Ns_CacheRollbackEntries.
  destruct (transaction_heap overhead order epoch false s Hwf Hin) as (-> & Hh).
  eexists _, _. split; [reflexivity|]. intros b e He. specialize (Hh b e He).
  destruct (ends_waiting_inv overhead epoch _ b e (conc_inv overhead s Hwf) He) as [Hyes Hno].
  destruct (ends_waiting epoch _ b e) eqn:Hw.
  - split; [intros _ _; exact Hh|]. intros Hor. by specialize (Hno Hor).
  - split; [|intros _; exact Hh]. intros Hun Hep. by specialize (Hyes Hun Hep).
Qed.

Lemma commit_publishes_witness :
  exists c c' n, Ns_CacheCommitEntries 100 [2] 3 c = Some (c', n) /\
    exists e', heap c' !! 2 = Some e' /\ Ns_CacheGetValueT e' None = Some 8.
Proof.
  destruct ex_reachable as (c & Hrun & Hr). vm_compute in Hrun. injection Hrun as <-.
  match type of Hr with reachable _ _ ?c => exists c; destruct (heap c !! 2) as [e|] eqn:He; [|by vm_compute in He];
    destruct (commit_publishes 100 [8; 7] c [2] 3 Hr) as (c' & n & Hc & Hall) end.
  { split; [apply NoDup_singleton|]. intros a. rewrite list_elem_of_singleton.
    match goal with |- _ <-> _ ∈ ?u => replace u with ({[2]} : gset Z) by (vm_compute; reflexivity) end. set_solver. }
  exists c', n. split; [exact Hc|]. destruct (Hall 2 e He) as (e' & He' & Hv & _). exists e'. split; [exact He'|].
  vm_compute in He. injection He as <-. by destruct Hv.
Defined.

Lemma rollback_discards_witness :
  exists c c' n, Ns_CacheRollbackEntries 100 [2] 3 c = Some (c', n) /\ heap c' !! 2 = None.
Proof.
  destruct ex_reachable as (c & Hrun & Hr). vm_compute in Hrun. injection Hrun as <-.
  match type of Hr with reachable _ _ ?c => exists c; destruct (heap c !! 2) as [e|] eqn:He; [|by vm_compute in He];
    destruct (rollback_discards 100 [8; 7] c [2] 3 Hr) as (c' & n & Hc & Hall) end.
  { split; [apply NoDup_singleton|]. intros a. rewrite list_elem_of_singleton.
    match goal with |- _ <-> _ ∈ ?u => replace u with ({[2]} : gset Z) by (vm_compute; reflexivity) end. set_solver. }
  exists c', n. split; [exact Hc|]. destruct (Hall 2 e He) as [Hv _].
  vm_compute in He. injection He as <-. by destruct Hv.
Defined.

(** *** Waiting for an entry *)

Lemma sCreate_at k now fresh s :
  wf s -> (fresh ∉ (lru s).*1) ->
  exists d, lookup_at (sCreate k now fresh s).2.1 (lru (sCreate k now fresh s).1) = Some d /\ key d = k.
Proof.
  intros H Hf. unfold sCreate. destruct (find_key k (lru s)) as [[a d]|] eqn:Ek; cbn [fst snd].
  2:{ exists (newborn k). cbn. by rewrite decide_True. }
  pose proof (find_lookup _ _ _ _ H Ek) as Ha. destruct (find_key_Some _ _ _ _ Ek) as [_ Hk].
  assert (Hfront : forall s0 f d0, lookup_at a (lru s0) = Some d0 -> lookup_at a (lru (touch a f s0)) = Some (f d0)).
  { intros s0 f d0 Hd0. unfold touch. rewrite Hd0. cbn. by rewrite decide_True. }
  destruct (Expired d now); cbn [fst snd].
  - pose proof (sUnset_lookup a a _ (wf_bump Expire s H)) as Hl. rewrite decide_True in Hl by done.
    change (lru (sbump Expire s)) with (lru s) in Hl. rewrite Ha in Hl. cbn [fmap option_fmap option_map] in Hl.
    rewrite (Hfront _ id _ Hl). eexists. split; [done|]. by destruct (held d).
  - rewrite (Hfront (sbump Hit s) used d Ha). by eexists.
Qed.

(** What a thread finds when it has the lock again. *)
Definition good_state (overhead : Z) (c : Cache) (fresh : Z) : Prop :=
  (exists vs, reachable overhead vs c) /\ heap c !! fresh = None.

Definition good_result (overhead : Z) (k : list Z) (ts : TransactionStack) (r : WaitResult) (timedout : Prop) : Prop :=
  match r with
  | Waiting => ~ timedout
  | Done c None _ => timedout
  | Done c (Some a) isNew => entriesTable c !! k = Some a /\ (isNew = true \/ has_value a ts c = Some true)
  end.

Lemma create_good overhead k ts now fresh c :
  good_state overhead c fresh ->
  exists c' a isNew present, Ns_CacheCreateEntry overhead k now fresh c = Some (c', (a, isNew)) /\
    has_value a ts c' = Some present /\ entriesTable c' !! k = Some a.
Proof.
  intros [[vs Hr] Hf]. apply reachable_conc in Hr as (s & Hwf & ->).
  pose proof (conc_unused _ _ _ Hwf Hf) as Hfr.
  destruct (Create_ok overhead s k now fresh Hwf Hfr) as [HC Hwf'].
  destruct (sCreate_at k now fresh s Hwf Hfr) as (d & Hd & Hk).
  destruct (sCreate k now fresh s) as [s' [a n]]. cbn [fst snd] in *.
  destruct (conc_lookup overhead _ _ _ Hwf' Hd) as (p & q & Hh).
  eexists _, _, _, _. split; [exact HC|]. split; [unfold has_value; by rewrite Hh|].
  cbn [conc entriesTable]. rewrite table_lookup, (find_key_elem k (lru s') a d); [done|apply Hwf'|by apply lookup_at_in|done].
Qed.

Lemma wait_loop_good overhead k ts waits :
  Forall (fun w => good_state overhead (wake_cache w) (wake_fresh w)) waits ->
  exists r, wait_loop overhead k ts waits = Some r /\
    good_result overhead k ts r (Exists (fun w => wake_ok w = false) waits).
Proof.
  induction 1 as [|w waits Hw _ IH]; cbn [wait_loop].
  { eexists. split; [reflexivity|]. cbn. intros HE. by apply Exists_nil in HE. }
  destruct (create_good overhead k ts (wake_now w) (wake_fresh w) (wake_cache w) Hw)
    as (c' & a & isNew & present & -> & Hp & Ht). cbn [mbind option_bind]. rewrite Hp. cbn [mbind option_bind].
  destruct (wake_ok w) eqn:Hok; cbn [andb].
  - destruct (negb isNew && negb present) eqn:Hb.
    + destruct IH as (r & -> & Hr). eexists. split; [reflexivity|].
      assert (HE : Exists (fun w => wake_ok w = false) (w :: waits) <-> Exists (fun w => wake_ok w = false) waits).
      { rewrite Exists_cons, Hok. naive_solver. }
      destruct r as [|c0 [a0|] n]; cbn in *; rewrite ?HE; done.
    + eexists. split; [reflexivity|]. cbn. split; [done|]. destruct isNew; [by left|right].
      cbn in Hb. apply negb_false_iff in Hb as ->. done.
  - eexists. split; [reflexivity|]. cbn. apply Exists_cons. by left.
Qed.

(** Waiting for an entry, whatever the other threads do to the cache between the
    waits: the loop ends at the latest at the first wait that times out, and
    NULL is returned only after one; otherwise the entry returned is the current
    one of its key and either new or has a value that the caller may see. *)
Theorem wait_create_sound overhead k ts now fresh waits c :
  good_state overhead c fresh ->
  Forall (fun w => good_state overhead (wake_cache w) (wake_fresh w)) waits ->
  exists r, Ns_CacheWaitCreateEntryT overhead k ts now fresh waits c = Some r /\
    match r with
    | Waiting => Forall (fun w => wake_ok w = true) waits
    | Done c' None _ => Exists (fun w => wake_ok w = false) waits
    | Done c' (Some a) isNew => entriesTable c' !! k = Some a /\ (isNew = true \/ has_value a ts c' = Some true)
    end.
Proof.
  intros Hc Hws. unfold Ns_CacheWaitCreateEntryT.
  destruct (create_good overhead k ts now fresh c Hc) as (c' & a & isNew & present & -> & Hp & Ht).
  cbn [mbind option_bind]. rewrite Hp. cbn [mbind option_bind]. destruct (negb isNew && negb present) eqn:Hb.
  - destruct (wait_loop_good overhead k ts waits Hws) as (r & -> & Hr). exists r. split; [done|].
    destruct r as [|c0 [a0|] n]; [|done|done]. apply Forall_forall. intros w Hw.
    destruct (wake_ok w) eqn:Ew; [done|]. exfalso. apply Hr, Exists_exists. by exists w.
  - eexists. split; [reflexivity|]. split; [done|]. destruct isNew; [by left|right].
    cbn in Hb. apply negb_false_iff in Hb as ->. done.
Qed.

(** One thread computes the value of "k"; the other one waits once and finds it. *)
Definition ex_wait_pre : list Op := [OCreate (bytes "k") (mkTime 5 0) 1].

Lemma ex_good ops vs c rs fresh :
  run 100 ops (Ns_CacheCreateSz 400 true) = Some (c, rs) -> enabled_run 100 ops (Ns_CacheCreateSz 400 true) ->
  vs = foldl (fun vs op => stored op ++ vs) [] ops -> heap c !! fresh = None -> good_state 100 c fresh.
Proof.
  intros Hrun He -> Hf. split; [|done]. eexists. eapply reach_run; [|exact He|exact Hrun]. by apply reach_init.
Qed.

Lemma wait_create_sound_witness :
  exists c0 c1 r, Ns_CacheWaitCreateEntryT 100 (bytes "k") None (mkTime 6 0) 9
      [mkWakeup true c1 (mkTime 7 0) 9] c0 = Some r /\ r <> Waiting /\
    match r with Done _ (Some a) isNew => a = 1 /\ isNew = false | _ => False end.
Proof.
  destruct (run 100 ex_wait_pre (Ns_CacheCreateSz 400 true)) as [[c0 r0]|] eqn:E0; [|by vm_compute in E0].
  destruct (run 100 (ex_wait_pre ++ [OSet 1 7 10 None 0 0 0]) (Ns_CacheCreateSz 400 true)) as [[c1 r1]|] eqn:E1;
    [|by vm_compute in E1].
  assert (G0 : good_state 100 c0 9).
  { eapply ex_good; [exact E0|solve_enabled|reflexivity|]. vm_compute in E0. by injection E0 as <- <-. }
  assert (G1 : good_state 100 c1 9).
  { eapply ex_good; [exact E1|solve_enabled|reflexivity|]. vm_compute in E1. by injection E1 as <- <-. }
  destruct (wait_create_sound 100 (bytes "k") None (mkTime 6 0) 9 [mkWakeup true c1 (mkTime 7 0) 9] c0 G0) as (r & Hr & _);
    [by apply Forall_singleton|].
  exists c0, c1, r. split; [exact Hr|]. vm_compute in E0, E1. injection E0 as <- <-. injection E1 as <- <-.
  vm_compute in Hr. injection Hr as <-. by vm_compute.
Defined.

(** A wait that times out after the entry was deleted creates the entry anew but
    returns NULL, so that nobody computes its value: the next thread that asks
    for the key is told that the entry exists and has to wait. *)
Theorem wait_timeout_orphan overhead k now fresh now' fresh' c :
  good_state overhead c fresh -> good_state overhead c fresh' -> fresh' <> fresh -> entriesTable c !! k = None ->
  exists c', wait_loop overhead k None [mkWakeup false c now fresh] = Some (Done c' None true) /\
    entriesTable c' !! k = Some fresh /\
    Ns_CacheWaitCreateEntryT overhead k None now' fresh' [] c' = Some Waiting.
Proof.
  intros [[vs Hr] Hf] [_ Hf'] Hne Hk. apply reachable_conc in Hr as (s & Hwf & ->).
  pose proof (conc_unused _ _ _ Hwf Hf) as Hfr. pose proof (conc_unused _ _ _ Hwf Hf') as Hfr'.
  destruct (Create_ok overhead s k now fresh Hwf Hfr) as [HC Hwf']. cbn [conc entriesTable] in Hk.
  rewrite table_lookup in Hk. destruct (find_key k (lru s)) eqn:Ek; [done|]. unfold sCreate in HC, Hwf'. rewrite Ek in HC, Hwf'.
  cbn [fst snd] in *. set (s1 := with_lru _ _) in HC, Hwf'.
  assert (Hl : lookup_at fresh (lru s1) = Some (newborn k)) by (cbn; by rewrite decide_True).
  assert (Hk1 : find_key k (lru s1) = Some (fresh, newborn k)) by (cbn; by rewrite decide_True).
  assert (Hx : fresh' ∉ (lru s1).*1) by (cbn; apply not_elem_of_cons; done).
  destruct (conc_lookup overhead _ _ _ Hwf' Hl) as (p & n & Hh).
  exists (conc overhead s1). cbn [wait_loop wake_cache wake_now wake_fresh wake_ok]. rewrite HC. cbn [mbind option_bind].
  unfold has_value at 1. rewrite Hh. cbn [mbind option_bind andb]. split; [done|]. split.
  { cbn [conc entriesTable]. by rewrite table_lookup, Hk1. }
  destruct (Create_ok overhead s1 k now' fresh' Hwf' Hx) as [HC2 Hwf2].
  unfold Ns_CacheWaitCreateEntryT. rewrite HC2. unfold sCreate in *. rewrite Hk1 in *.
  change (Expired (newborn k) now') with false in *. cbn [fst snd mbind option_bind] in *.
  assert (Hl2 : lookup_at fresh (lru (touch fresh used (sbump Hit s1))) = Some (used (newborn k))).
  { unfold touch. change (lru (sbump Hit s1)) with (lru s1). rewrite Hl. cbn. by rewrite decide_True. }
  destruct (conc_lookup overhead _ _ _ Hwf2 Hl2) as (p2 & n2 & Hh2). unfold has_value. rewrite Hh2. done.
Qed.

Lemma wait_timeout_orphan_witness :
  exists c', wait_loop 100 (bytes "k") None [mkWakeup false (Ns_CacheCreateSz 400 true) (mkTime 7 0) 1]
      = Some (Done c' None true) /\
    entriesTable c' !! bytes "k" = Some 1 /\
    Ns_CacheWaitCreateEntryT 100 (bytes "k") None (mkTime 8 0) 2 [] c' = Some Waiting.
Proof.
  assert (Hr : exists vs, reachable 100 vs (Ns_CacheCreateSz 400 true)) by (exists []; by apply reach_init).
  apply (wait_timeout_orphan 100 (bytes "k") (mkTime 7 0) 1 (mkTime 8 0) 2 (Ns_CacheCreateSz 400 true));
    [split; done|split; done|done|done].
Defined.
