(* ===== verification/Index.v ===== *)
(** * Index: the sorted pointer array of nsd/index.c.

    An index keeps its elements in an array [el] of [max] cells, of which the
    first [n] are in use, sorted by the comparison function it was initialised
    with.  [None] as the result of an operation is an access outside of [el] or
    to a cell that was never written; the theorems show that it does not occur. *)

From S2P Require Import Prelude.

Record Ns_Index (A : Type) := mkIndex {
  el : list (option A); n : Z; max : Z; inc : Z }.
Arguments mkIndex {A} _ _ _ _.
Arguments el {A} _.
Arguments n {A} _.
Arguments max {A} _.
Arguments inc {A} _.

Definition with_max {A} (ix : Ns_Index A) (m : Z) (a : list (option A)) : Ns_Index A :=
  mkIndex a (n ix) m (inc ix).

Definition Ns_IndexInit {A} (inc : Z) : Ns_Index A :=
  mkIndex (replicate (Z.to_nat inc) None) 0 inc inc.

Definition Ns_IndexTrunc {A} (ix : Ns_Index A) : Ns_Index A :=
  mkIndex (replicate (Z.to_nat (inc ix)) None) 0 (inc ix) (inc ix).

(** A fresh array of [max] cells, the first [n] copied. *)
Definition Ns_IndexDup {A} (ix : Ns_Index A) : Ns_Index A :=
  mkIndex (take (Z.to_nat (n ix)) (el ix) ++ replicate (Z.to_nat (max ix - n ix)) None)
    (n ix) (max ix) (inc ix).

(** The element that a comparison function is handed: the pointer in a cell. *)
Definition cell {A} (a : list (option A)) (i : Z) : option A := aget a i ≫= id.

(** The loop shared by [BinSearch] and [BinSearchKey] (two identical bodies);
    [cmp] is the comparison with the element or key searched for. *)
Fixpoint bin_loop {A} (fuel : nat) (cmp : A -> Z) (a : list (option A)) (low high mid : Z) : option Z :=
  match fuel with
  | O => None
  | S fuel =>
      if low <=? high then
        let mid := Z.quot (low + high) 2 in
        x ← cell a mid;
        let cond := cmp x in
        if cond <? 0 then bin_loop fuel cmp a low (mid - 1) mid
        else if 0 <? cond then bin_loop fuel cmp a (mid + 1) high mid
        else Some mid
      else Some (if high <? mid then mid else low)
  end.

(** [n + 1] rounds are enough: each one shortens [low..high]. *)
Definition BinSearch {A} (CmpEls : A -> A -> Z) (e : A) (a : list (option A)) (n : Z) : option Z :=
  bin_loop (S (Z.to_nat n)) (CmpEls e) a 0 (n - 1) 0.

Definition BinSearchKey {K A} (CmpKeyWithEl : K -> A -> Z) (key : K) (a : list (option A)) (n : Z) : option Z :=
  bin_loop (S (Z.to_nat n)) (CmpKeyWithEl key) a 0 (n - 1) 0.

(** [for (j = n; (int)j > i; j--) el[j] = el[j-1];] *)
Fixpoint shift_up {A} (fuel : nat) (a : list (option A)) (j i : Z) : option (list (option A)) :=
  match fuel with
  | O => None
  | S fuel =>
      if i <? c_int j then
        x ← aget a (j - 1); a' ← aset a j x; shift_up fuel a' (j - 1) i
      else Some a
  end.

Definition Ns_IndexAdd {A} (CmpEls : A -> A -> Z) (ix : Ns_Index A) (e : A) : option (Ns_Index A) :=
  let ix := if n ix =? max ix then
              with_max ix (max ix + inc ix) (el ix ++ replicate (Z.to_nat (inc ix)) None)
            else if max ix =? 0 then with_max ix (inc ix) (replicate (Z.to_nat (inc ix)) None)
            else ix in
  i ← (if 0 <? n ix then BinSearch CmpEls e (el ix) (n ix) else Some 0);
  a ← (if i <? c_int (n ix) then shift_up (S (Z.to_nat (n ix))) (el ix) (n ix) i else Some (el ix));
  a ← aset a i (Some e);
  Some (mkIndex a (n ix + 1) (max ix) (inc ix)).

(** [for (j = i; j < n; j++) el[j] = el[j+1];] *)
Fixpoint shift_down {A} (fuel : nat) (a : list (option A)) (j n : Z) : option (list (option A)) :=
  match fuel with
  | O => None
  | S fuel =>
      if j <? n then x ← aget a (j + 1); a' ← aset a j x; shift_down fuel a' (j + 1) n
      else Some a
  end.

(** The search of [Ns_IndexDel] for the pointer itself, not by comparison. *)
Fixpoint del_loop `{EqDecision A} (fuel : nat) (ix : Ns_Index A) (e : A) (i : Z) : option (Ns_Index A) :=
  match fuel with
  | O => None
  | S fuel =>
      if i <? n ix then
        x ← aget (el ix) i;
        if bool_decide (x = Some e) then
          let n' := n ix - 1 in
          a ← (if i <? n' then shift_down (S (Z.to_nat (n ix))) (el ix) i n' else Some (el ix));
          Some (mkIndex a n' (max ix) (inc ix))
        else del_loop fuel ix e (i + 1)
      else Some ix
  end.

Definition Ns_IndexDel `{EqDecision A} (ix : Ns_Index A) (e : A) : option (Ns_Index A) :=
  del_loop (S (Z.to_nat (n ix))) ix e 0.

Definition Ns_IndexEl {A} (ix : Ns_Index A) (i : Z) : option A := cell (el ix) i.

(** The comparison functions of integer and string indexes. *)
Definition CmpInts (left right : Z) : Z :=
  if left =? right then 0 else if left <? right then -1 else 1.

Definition CmpKeyWithInt (key element : Z) : Z :=
  if key =? element then 0 else if key <? element then -1 else 1.

(** C's [strcmp]: strings are compared byte by byte up to the first difference
    or the terminating NUL, which is what lies behind the end of the list. *)
Fixpoint strcmp (s t : list Z) : Z :=
  match s, t with
  | [], [] => 0
  | [], y :: _ => 0 - y
  | x :: _, [] => x - 0
  | x :: s, y :: t => if x =? y then if x =? 0 then 0 else strcmp s t else x - y
  end.

(** The repository's own [bsearch], used where the C library has none. *)
Fixpoint NsBsearch_loop {A} (fuel : nat) (cmp : A -> Z) (a : list (option A)) (base nmemb : Z) : option (option Z) :=
  match fuel with
  | O => None
  | S fuel =>
      if 0 <? nmemb then
        let mid_point := base + Z.shiftr nmemb 1 in
        x ← cell a mid_point;
        let c := cmp x in
        if c =? 0 then Some (Some mid_point)
        else if 0 <=? c then NsBsearch_loop fuel cmp a (mid_point + 1) (Z.shiftr (nmemb - 1) 1)
        else NsBsearch_loop fuel cmp a base (Z.shiftr nmemb 1)
      else Some None
  end.

Definition NsBsearch {A} (cmp : A -> Z) (a : list (option A)) (n : Z) : option (option Z) :=
  NsBsearch_loop (S (Z.to_nat n)) cmp a 0 n.

(** ** The interface to the C library's [bsearch]

    [cells a l]: the array [a] starts with the elements of [l].
    [mono cmp l]: the comparison results go from positive over zero to negative
    along [l], which is what sortedness gives for every key. *)

Definition cells {A} (a : list (option A)) (l : list A) : Prop :=
  take (length l) a = Some <$> l.

Definition mono {A} (cmp : A -> Z) (l : list A) : Prop :=
  forall i j x y, (i <= j)%nat -> l !! i = Some x -> l !! j = Some y ->
    (cmp x <= 0 -> cmp y <= 0) /\ (cmp x < 0 -> cmp y < 0).

(** What the C standard promises: the index of some matching element, or
    nothing when no element matches. *)
Class Bsearch := {
  bsearch : forall {A}, (A -> Z) -> list (option A) -> Z -> option (option Z);
  bsearch_spec : forall A (cmp : A -> Z) a l, cells a l -> mono cmp l ->
    exists r, bsearch cmp a (Z.of_nat (length l)) = Some r /\
      match r with
      | Some i => exists x, aget l i = Some x /\ cmp x = 0
      | None => Forall (fun x => cmp x <> 0) l
      end }.

Section find.
Context `{Bsearch} {K A : Type} (CmpKeyWithEl : K -> A -> Z).

(** [Some None] is the NULL result. *)
Definition Ns_IndexFind (ix : Ns_Index A) (key : K) : option (option A) :=
  p ← bsearch (CmpKeyWithEl key) (el ix) (n ix);
  match p with
  | Some i => Some <$> cell (el ix) i
  | None => Some None
  end.

Definition Ns_IndexFindInf (ix : Ns_Index A) (key : K) : option (option A) :=
  if 0 <? n ix then
    i ← BinSearchKey CmpKeyWithEl key (el ix) (n ix);
    if i <? n ix then
      x ← cell (el ix) i;
      if (0 <? i) && negb (CmpKeyWithEl key x =? 0) then Some <$> cell (el ix) (i - 1)
      else Some <$> cell (el ix) i
    else Some None
  else Some None.

(** [while (first != el && CmpKeyWithEl(key, first - 1) == 0) first--;] *)
Fixpoint back_loop (fuel : nat) (ix : Ns_Index A) (key : K) (first : Z) : option Z :=
  match fuel with
  | O => None
  | S fuel =>
      if first =? 0 then Some first
      else x ← cell (el ix) (first - 1);
           if CmpKeyWithEl key x =? 0 then back_loop fuel ix key (first - 1) else Some first
  end.

(** [for (i = 1; i < n && CmpKeyWithEl(key, first + i) == 0; i++)] *)
Fixpoint forward_loop (fuel : nat) (ix : Ns_Index A) (key : K) (first m i : Z) : option Z :=
  match fuel with
  | O => None
  | S fuel =>
      if i <? m then
        x ← cell (el ix) (first + i);
        if CmpKeyWithEl key x =? 0 then forward_loop fuel ix key first m (i + 1) else Some i
      else Some i
  end.

(** The returned array without its terminating NULL; [Some None] is NULL. *)
Definition Ns_IndexFindMultiple (ix : Ns_Index A) (key : K) : option (option (list A)) :=
  p ← bsearch (CmpKeyWithEl key) (el ix) (n ix);
  match p with
  | None => Some None
  | Some first =>
      let fuel := S (Z.to_nat (n ix)) in
      first ← back_loop fuel ix key first;
      i ← forward_loop fuel ix key first (n ix - first) 1;
      Some <$> mapM id (take (Z.to_nat i) (drop (Z.to_nat first) (el ix)))
  end.
End find.

(** ** Lemmas on arrays and searches *)

Section lemmas.
Context {A : Type}.
Implicit Types (l : list A) (a : list (option A)) (cmp : A -> Z).

Lemma cells_get a l (i : nat) : cells a l -> (i < length l)%nat -> a !! i = Some <$> l !! i.
Proof.
  unfold cells. intros Ha Hi. rewrite <- list_lookup_fmap, <- Ha.
  by rewrite lookup_take_lt.
Qed.

Lemma cells_cell a l (i : nat) : cells a l -> (i < length l)%nat -> cell a (Z.of_nat i) = l !! i.
Proof.
  intros Ha Hi. unfold cell. rewrite aget_nat, (cells_get a l) by done.
  by destruct (l !! i).
Qed.

Lemma cells_length a l : cells a l -> (length l <= length a)%nat.
Proof. unfold cells. intros E%(f_equal length). rewrite length_take, length_fmap in E. lia. Qed.

(** A cell of the live part, for an index kept as an integer. *)
Lemma cells_Z a l i : cells a l -> 0 <= i < Z.of_nat (length l) ->
  exists x, cell a i = Some x /\ l !! Z.to_nat i = Some x.
Proof.
  intros Ha Hi. destruct (lookup_lt_is_Some_2 l (Z.to_nat i)) as [x Hx]; [lia|].
  exists x. split; [|done]. rewrite <- Hx, <- (cells_cell a l) by (done || lia).
  f_equal. lia.
Qed.

(** What a binary search returns: the place of a match, or the point that
    separates the greater from the smaller elements. *)
Definition split_point cmp l (i : Z) : Prop :=
  0 <= i <= Z.of_nat (length l) /\
  ((exists x, l !! Z.to_nat i = Some x /\ cmp x = 0) \/
   (forall j x, l !! j = Some x -> if decide (Z.of_nat j < i) then 0 < cmp x else cmp x < 0)).

Lemma bin_loop_spec cmp a l fuel low high mid :
  cells a l -> mono cmp l ->
  0 <= low <= high + 1 -> high < Z.of_nat (length l) -> high - low + 1 < Z.of_nat fuel ->
  (forall j x, l !! j = Some x -> Z.of_nat j < low -> 0 < cmp x) ->
  (forall j x, l !! j = Some x -> high < Z.of_nat j -> cmp x < 0) ->
  (mid = low - 1 \/ mid = high + 1 \/ (mid = 0 /\ low = 0)) ->
  exists i, bin_loop fuel cmp a low high mid = Some i /\ split_point cmp l i.
Proof.
  intros Ha Hm. revert low high mid.
  induction fuel as [|fuel IH]; intros low high mid Hl Hh Hf Hlow Hhigh Hmid; [lia|].
  cbn [bin_loop]. destruct (Z.leb_spec low high) as [Hle|Hgt].
  - assert (low <= Z.quot (low + high) 2 <= high) as Hq
      by (rewrite Z.quot_div_nonneg by lia; split; [apply Z.div_le_lower_bound|apply Z.div_le_upper_bound]; lia).
    set (m := Z.quot (low + high) 2) in *.
    destruct (cells_Z a l m) as (x & -> & Hx); [done|lia|]. cbn.
    destruct (Z.ltb_spec (cmp x) 0); [|destruct (Z.ltb_spec 0 (cmp x))].
    + apply IH; try lia; [done|]. intros j y Hy Hj.
      destruct (Hm (Z.to_nat m) j x y) as [_ Hlt]; [lia|done..|]. by apply Hlt.
    + apply IH; try lia; [|done]. intros j y Hy Hj.
      destruct (Hm j (Z.to_nat m) y x) as [Hlt _]; [lia|done..|]. lia.
    + exists m. split; [done|]. split; [lia|]. left. exists x. split; [done|lia].
  - exists (if high <? mid then mid else low). split; [done|].
    assert ((if high <? mid then mid else low) = low) as -> by (destruct (Z.ltb_spec high mid); lia).
    split; [lia|]. right. intros j x Hx. case_decide; [by eapply Hlow|]. eapply Hhigh; [done|lia].
Qed.

Lemma bin_search_spec cmp a l :
  cells a l -> mono cmp l ->
  exists i, bin_loop (S (length l)) cmp a 0 (Z.of_nat (length l) - 1) 0 = Some i /\ split_point cmp l i.
Proof.
  intros Ha Hm. apply bin_loop_spec; try done; try lia.
  intros j x Hx%lookup_lt_Some Hj. lia.
Qed.

(** Whatever the comparison is, the search stays within the live cells and ends. *)
Lemma bin_loop_any cmp a l fuel low high mid :
  cells a l -> 0 <= low <= high + 1 -> high < Z.of_nat (length l) -> high - low + 1 < Z.of_nat fuel ->
  (mid = low - 1 \/ mid = high + 1 \/ (mid = 0 /\ low = 0)) ->
  exists i, bin_loop fuel cmp a low high mid = Some i /\ bin_loop fuel cmp (Some <$> l) low high mid = Some i /\
    0 <= i <= Z.of_nat (length l).
Proof.
  intros Ha. revert low high mid.
  induction fuel as [|fuel IH]; intros low high mid Hl Hh Hf Hmid; [lia|].
  cbn [bin_loop]. destruct (Z.leb_spec low high) as [Hle|Hgt].
  - assert (low <= Z.quot (low + high) 2 <= high) as Hq
      by (rewrite Z.quot_div_nonneg by lia; split; [apply Z.div_le_lower_bound|apply Z.div_le_upper_bound]; lia).
    set (m := Z.quot (low + high) 2) in *.
    assert (Hs : cells (Some <$> l) l) by (unfold cells; rewrite <- (length_fmap Some l); by rewrite firstn_all).
    destruct (cells_Z a l m) as (x & -> & Hx); [done|lia|]. destruct (cells_Z _ l m Hs) as (x' & -> & Hx'); [lia|].
    simplify_eq. cbn. destruct (cmp x <? 0); [apply IH; lia|]. destruct (0 <? cmp x); [apply IH; lia|].
    exists m. split_and!; done || lia.
  - exists (if high <? mid then mid else low). split_and!; [done..| |]; destruct (Z.ltb_spec high mid); lia.
Qed.

End lemmas.

Section shifts.
Context {A : Type}.
Implicit Types (p q s : list (option A)).

Lemma shift_up_spec fuel p q y s :
  (length q < fuel)%nat -> Z.of_nat (length p + length q) < 2 ^ 31 ->
  exists r, shift_up fuel (p ++ q ++ y :: s) (Z.of_nat (length p + length q)) (Z.of_nat (length p)) = Some r /\
    length r = length (p ++ q ++ y :: s) /\
    forall e, <[length p := e]> r = p ++ e :: q ++ s.
Proof.
  revert fuel y s. induction q as [|x q IH] using rev_ind; intros fuel y s Hf Hb.
  - destruct fuel as [|fuel]; [cbn in *; lia|]. cbn [shift_up].
    rewrite c_int_id by lia. replace (length p + length [])%nat with (length p) by (cbn; lia).
    rewrite Z.ltb_irrefl. eexists; split; [done|]. split; [done|].
    intros e. cbn. rewrite insert_app_r_alt by lia. by rewrite Nat.sub_diag.
  - destruct fuel as [|fuel]; [lia|]. rewrite length_app in *; cbn in Hf, Hb.
    cbn [shift_up]. rewrite c_int_id by (cbn; lia). rewrite <- !app_assoc. cbn [app length].
    destruct (Z.ltb_spec (Z.of_nat (length p)) (Z.of_nat (length p + (length q + 1)))); [|lia].
    replace (Z.of_nat (length p + (length q + 1)) - 1) with (Z.of_nat (length p + length q)) by lia.
    rewrite aget_nat, app_assoc, lookup_app_r by (rewrite length_app; lia).
    replace (length p + length q - length (p ++ q))%nat with 0%nat by (rewrite length_app; lia).
    cbn. rewrite aset_nat by (rewrite !length_app; cbn; lia).
    rewrite insert_app_r_alt by (rewrite length_app; lia).
    replace (length p + (length q + 1) - length (p ++ q))%nat with 1%nat by (rewrite length_app; lia).
    cbn. rewrite <- app_assoc.
    destruct (IH fuel x (x :: s)) as (r & -> & Hl & Hr); [lia..|].
    exists r. split; [done|]. split; [rewrite Hl, !length_app; cbn; lia|].
    intros e. by rewrite Hr.
Qed.

Lemma shift_down_spec fuel p x q s :
  (length q < fuel)%nat ->
  exists s', shift_down fuel (p ++ x :: q ++ s) (Z.of_nat (length p)) (Z.of_nat (length p + length q)) =
    Some (p ++ q ++ s') /\ length s' = S (length s).
Proof.
  revert fuel p x. induction q as [|y q IH]; intros fuel p x Hf;
    (destruct fuel as [|fuel]; [cbn in *; lia|]); cbn [shift_down length app].
  - rewrite Nat.add_0_r, Z.ltb_irrefl. exists (x :: s). done.
  - destruct (Z.ltb_spec (Z.of_nat (length p)) (Z.of_nat (length p + S (length q)))); [|lia].
    replace (Z.of_nat (length p) + 1) with (Z.of_nat (S (length p))) by lia.
    rewrite aget_nat, lookup_app_r by lia.
    replace (S (length p) - length p)%nat with 1%nat by lia. cbn.
    rewrite aset_nat by (rewrite length_app; cbn; lia).
    rewrite insert_app_r_alt, Nat.sub_diag by lia. cbn.
    destruct (IH fuel (p ++ [y]) y) as (s' & E & Hs); [cbn in *; lia|].
    rewrite <- !app_assoc, !length_app in E. cbn in E.
    replace (S (length p)) with (length p + 1)%nat by lia.
    replace (length p + S (length q))%nat with (length p + 1 + length q)%nat by lia.
    exists s'. done.
Qed.
End shifts.

(** ** Orders *)

Class CmpOrder {A} (CmpEls : A -> A -> Z) : Prop := {
  cmp_sym x y : CmpEls x y <= 0 <-> 0 <= CmpEls y x;
  cmp_trans x y z : CmpEls x y <= 0 -> CmpEls y z <= 0 -> CmpEls x z <= 0 }.

(** A key comparison that agrees with the order of the elements. *)
Class KeyOrder {K A} (CmpEls : A -> A -> Z) (CmpKeyWithEl : K -> A -> Z) : Prop := {
  key_le k x y : CmpEls x y <= 0 -> CmpKeyWithEl k x <= 0 -> CmpKeyWithEl k y <= 0;
  key_lt k x y : CmpEls x y <= 0 -> CmpKeyWithEl k x < 0 -> CmpKeyWithEl k y < 0 }.

Definition sorted {A} (CmpEls : A -> A -> Z) (l : list A) : Prop :=
  StronglySorted (fun x y => CmpEls x y <= 0) l.

#[export] Instance CmpOrder_KeyOrder {A} (CmpEls : A -> A -> Z) `{!CmpOrder CmpEls} : KeyOrder CmpEls CmpEls.
Proof.
  split; intros k x y Hxy Hk; [by eapply cmp_trans|].
  destruct (Z.lt_ge_cases (CmpEls k y) 0) as [|Hge]; [done|].
  apply cmp_sym in Hge. assert (CmpEls x k <= 0) as ?%cmp_sym by by eapply cmp_trans. lia.
Qed.

#[export] Instance CmpInts_order : CmpOrder CmpInts.
Proof. split; unfold CmpInts; intros; zcases; lia. Qed.

#[export] Instance CmpKeyWithInt_order : KeyOrder CmpInts CmpKeyWithInt.
Proof. split; unfold CmpInts, CmpKeyWithInt; intros; zcases; lia. Qed.

Lemma strcmp_sym s t : strcmp s t = - strcmp t s.
Proof.
  revert t; induction s as [|x s IH]; intros [|y t]; cbn; try lia.
  rewrite (Z.eqb_sym y x). destruct (Z.eqb_spec x y); [subst; destruct (y =? 0)|]; [done|apply IH|lia].
Qed.

#[export] Instance strcmp_order : CmpOrder strcmp.
Proof.
  split; [intros s t; rewrite strcmp_sym; lia|].
  intros s; induction s as [|x s IH]; intros [|y t] [|z u]; cbn; intros; zcases; subst; try lia.
  eauto.
Qed.

Lemma sorted_mono {K A} (CmpEls : A -> A -> Z) (cmpk : K -> A -> Z) `{!KeyOrder CmpEls cmpk} (l : list A) k :
  sorted CmpEls l -> mono (cmpk k) l.
Proof.
  intros Hs i j x y Hij Hx Hy.
  destruct (decide (i = j)) as [->|]; [by simplify_eq|].
  assert (CmpEls x y <= 0) as Hxy.
  { clear -Hs Hij Hx Hy n0. revert i j Hij Hx Hy n0. induction Hs as [|z l Hs IH Hz]; [done|].
    intros [|i] [|j] ? Hx Hy ?; cbn in *; try lia; simplify_eq.
    - eapply Forall_lookup_1 in Hz; eauto.
    - eapply (IH i j); eauto; lia. }
  split; [by apply key_le|by apply key_lt].
Qed.

(** ** The representation invariant

    [repr ix l]: the index holds the elements of [l], in this order. *)

Definition repr {A} (ix : Ns_Index A) (l : list A) : Prop :=
  cells (el ix) l /\ n ix = Z.of_nat (length l) /\ max ix = Z.of_nat (length (el ix)) /\ 0 < inc ix.

Section repr.
Context {A : Type}.
Implicit Types (l : list A) (a : list (option A)).

Lemma cells_nil a : cells a [].
Proof. done. Qed.

Lemma cells_app l (s : list (option A)) : cells ((Some <$> l) ++ s) l.
Proof. unfold cells. rewrite <- (length_fmap Some l). apply take_app_length. Qed.

Lemma cells_decompose a l : cells a l -> a = (Some <$> l) ++ drop (length l) a.
Proof. unfold cells. intros <-. by rewrite take_drop. Qed.

Lemma IndexInit_repr (k : Z) : 0 < k -> repr (Ns_IndexInit k : Ns_Index A) [].
Proof. intros. split_and!; cbn; [apply cells_nil|done|rewrite length_replicate; lia|done]. Qed.

Lemma IndexTrunc_repr (ix : Ns_Index A) l : repr ix l -> repr (Ns_IndexTrunc ix) [].
Proof. intros (_&_&_&?). split_and!; cbn; [apply cells_nil|done|rewrite length_replicate; lia|done]. Qed.

Lemma IndexDup_repr (ix : Ns_Index A) l : repr ix l -> repr (Ns_IndexDup ix) l.
Proof.
  intros (Hc & Hn & Hm & ?). pose proof (cells_length _ _ Hc). split_and!; cbn; try done.
  - rewrite Hn, Nat2Z.id. unfold cells in Hc. rewrite Hc. apply cells_app.
  - rewrite length_app, length_take, length_replicate. lia.
Qed.

Lemma split_point_le (CmpEls : A -> A -> Z) `{!CmpOrder CmpEls} l e i :
  sorted CmpEls l -> split_point (CmpEls e) l i ->
  (forall x, x ∈ take (Z.to_nat i) l -> CmpEls x e <= 0) /\
  (forall x, x ∈ drop (Z.to_nat i) l -> CmpEls e x <= 0).
Proof.
  intros Hs [Hi Hsp].
  assert (forall j x, l !! j = Some x -> (j < Z.to_nat i)%nat -> CmpEls x e <= 0) as H1.
  { intros j x Hx Hj. destruct Hsp as [(y & Hy & Hc)|Hall].
    - destruct (sorted_mono CmpEls CmpEls l x Hs j (Z.to_nat i) x y) as [Hle _]; [lia|done..|].
      apply cmp_trans with y; [apply Hle|]; apply cmp_sym; [|lia].
      destruct (Z.le_gt_cases 0 (CmpEls x x)); [done|]. apply cmp_sym. lia.
    - specialize (Hall j x Hx). rewrite decide_True in Hall by lia. apply cmp_sym. lia. }
  assert (forall j x, l !! j = Some x -> (Z.to_nat i <= j)%nat -> CmpEls e x <= 0) as H2.
  { intros j x Hx Hj. destruct Hsp as [(y & Hy & Hc)|Hall].
    - destruct (sorted_mono CmpEls CmpEls l e Hs (Z.to_nat i) j y x) as [Hle _]; [lia|done..|]. lia.
    - specialize (Hall j x Hx). rewrite decide_False in Hall by lia. lia. }
  split; intros x Hx.
  - apply elem_of_take in Hx as (j & Hj & ?). by eapply H1.
  - apply list_elem_of_lookup in Hx as (j & Hj). rewrite lookup_drop in Hj. eapply H2; [done|lia].
Qed.

Lemma insert_sorted (CmpEls : A -> A -> Z) `{!CmpOrder CmpEls} l e i :
  sorted CmpEls l -> split_point (CmpEls e) l i ->
  sorted CmpEls (take (Z.to_nat i) l ++ e :: drop (Z.to_nat i) l).
Proof.
  intros Hs Hsp. destruct (split_point_le CmpEls l e i Hs Hsp) as [H1 H2].
  unfold sorted in *. rewrite <- (take_drop (Z.to_nat i) l) in Hs.
  apply StronglySorted_app in Hs as (H12 & Ht & Hd).
  apply StronglySorted_app. split_and!; [|done|].
  - intros x y Hx Hy%elem_of_cons. destruct Hy as [->|Hy]; [by apply H1|by apply H12].
  - constructor; [done|]. by apply Forall_forall.
Qed.

(** Writing a new element at the insertion point. *)
Lemma place_spec a l i e :
  cells a l -> (length l < length a)%nat -> Z.of_nat (length l) < 2 ^ 31 -> 0 <= i <= Z.of_nat (length l) ->
  exists a', (a1 ← (if i <? c_int (Z.of_nat (length l)) then shift_up (S (length l)) a (Z.of_nat (length l)) i
                    else Some a); aset a1 i (Some e)) = Some a' /\
    cells a' (take (Z.to_nat i) l ++ e :: drop (Z.to_nat i) l) /\ length a' = length a.
Proof.
  intros Hc Hlt Hb Hi. rewrite c_int_id by lia. rewrite (cells_decompose a l Hc) in *.
  set (s := drop (length l) a) in *. clearbody s. clear Hc.
  destruct s as [|y s]; [rewrite length_app, length_fmap in Hlt; cbn in Hlt; lia|].
  destruct (Z_of_nat_complete i) as [k ->]; [lia|]. rewrite Nat2Z.id.
  replace (Some <$> l) with ((Some <$> take k l) ++ (Some <$> drop k l)) by by rewrite <- fmap_app, take_drop.
  rewrite <- app_assoc.
  set (p := Some <$> take k l). set (q := Some <$> drop k l).
  assert (length p = k) as Hp by (unfold p; rewrite length_fmap, length_take; lia).
  assert (length p + length q = length l)%nat as Hpq
    by (rewrite Hp; unfold q; rewrite length_fmap, length_drop; lia).
  assert (exists r, (if Z.of_nat k <? Z.of_nat (length l)
     then shift_up (S (length l)) (p ++ q ++ y :: s) (Z.of_nat (length l)) (Z.of_nat k)
     else Some (p ++ q ++ y :: s)) = Some r /\ length r = length (p ++ q ++ y :: s) /\
     forall e, <[k := e]> r = p ++ e :: q ++ s) as (r & -> & Hr & Hins).
  { destruct (Z.ltb_spec (Z.of_nat k) (Z.of_nat (length l))).
    - rewrite <- Hpq, <- Hp. apply shift_up_spec; lia.
    - assert (q = []) as -> by (apply nil_length_inv; lia).
      eexists; split; [done|]. split; [done|]. intros e'. cbn.
      rewrite insert_app_r_alt by lia. by rewrite Hp, Nat.sub_diag. }
  cbn. rewrite aset_nat by (rewrite Hr, length_app, Hp; cbn; rewrite length_app; cbn; lia).
  eexists; split; [done|]. rewrite Hins, !length_app; cbn. rewrite !length_app; cbn. split; [|lia].
  unfold p, q. replace (_ ++ Some e :: _ ++ s) with ((Some <$> (take k l ++ e :: drop k l)) ++ s).
  - apply cells_app.
  - by rewrite fmap_app, fmap_cons, <- app_assoc.
Qed.
End repr.

(** ** The library interface is met by the repository's own [NsBsearch] *)

Lemma NsBsearch_loop_spec {A} (cmp : A -> Z) a l fuel base nmemb :
  cells a l -> mono cmp l ->
  0 <= base -> 0 <= nmemb -> base + nmemb <= Z.of_nat (length l) -> nmemb < Z.of_nat fuel ->
  (forall j x, l !! j = Some x -> Z.of_nat j < base -> 0 < cmp x) ->
  (forall j x, l !! j = Some x -> base + nmemb <= Z.of_nat j -> cmp x < 0) ->
  exists r, NsBsearch_loop fuel cmp a base nmemb = Some r /\
    match r with
    | Some i => exists x, aget l i = Some x /\ cmp x = 0
    | None => Forall (fun x => cmp x <> 0) l
    end.
Proof.
  intros Ha Hm. revert base nmemb.
  induction fuel as [|fuel IH]; intros base nmemb Hb Hn Hl Hf Hlow Hhigh; [lia|].
  cbn [NsBsearch_loop]. destruct (Z.ltb_spec 0 nmemb) as [Hpos|Hz].
  - rewrite !Z.shiftr_div_pow2 by lia. change (2 ^ 1) with 2.
    assert (0 <= nmemb / 2 < nmemb /\ 0 <= (nmemb - 1) / 2 /\ nmemb / 2 + (nmemb - 1) / 2 + 1 = nmemb) as (Hd & ? & ?)
      by (Z.div_mod_to_equations; lia).
    set (m := base + nmemb / 2) in *.
    destruct (cells_Z a l m) as (x & -> & Hx); [done|lia|]. cbn.
    destruct (Z.eqb_spec (cmp x) 0) as [E|E]; [|destruct (Z.leb_spec 0 (cmp x))].
    + exists (Some m). split; [done|]. exists x. split; [|done].
      unfold aget. by destruct (Z.ltb_spec m 0); [lia|].
    + apply IH; try lia.
      * intros j y Hy Hj. destruct (Hm j (Z.to_nat m) y x) as [Hlt _]; [lia|done..|]. lia.
      * intros j y Hy Hj. apply (Hhigh j y Hy). lia.
    + apply IH; try lia; [done|].
      intros j y Hy Hj. destruct (Hm (Z.to_nat m) j x y) as [_ Hlt]; [lia|done..|]. by apply Hlt.
  - exists None. split; [done|]. apply Forall_lookup. intros j x Hx.
    destruct (Z.lt_ge_cases (Z.of_nat j) base); [specialize (Hlow j x Hx)|specialize (Hhigh j x Hx)]; lia.
Qed.

Lemma NsBsearch_spec A (cmp : A -> Z) a l :
  cells a l -> mono cmp l ->
  exists r, NsBsearch cmp a (Z.of_nat (length l)) = Some r /\
    match r with
    | Some i => exists x, aget l i = Some x /\ cmp x = 0
    | None => Forall (fun x => cmp x <> 0) l
    end.
Proof.
  intros Ha Hm. unfold NsBsearch. rewrite Nat2Z.id.
  apply NsBsearch_loop_spec; try done; try lia.
  intros j x Hx%lookup_lt_Some Hj. lia.
Qed.

#[export] Instance NsBsearch_Bsearch : Bsearch :=
  {| bsearch := @NsBsearch; bsearch_spec := NsBsearch_spec |}.

(** ** Adding, deleting *)

(** The elements after an insertion at the place that the binary search finds. *)
Definition index_insert {A} (CmpEls : A -> A -> Z) (l : list A) (e : A) : list A :=
  let i := Z.to_nat (default 0 (BinSearch CmpEls e (Some <$> l) (Z.of_nat (length l)))) in
  take i l ++ e :: drop i l.

Section operations.
Context {A : Type} (CmpEls : A -> A -> Z).
Implicit Types (l : list A) (ix : Ns_Index A).

(** [Ns_IndexAdd] inserts the element for any comparison function, also one that is
    not an order. *)
Lemma IndexAdd_any ix l e :
  repr ix l -> n ix < 2 ^ 31 ->
  exists ix', Ns_IndexAdd CmpEls ix e = Some ix' /\ repr ix' (index_insert CmpEls l e).
Proof.
  intros (Hc & Hn & Hm & Hi) Hb. pose proof (cells_length _ _ Hc).
  set (ix1 := if n ix =? max ix then
            with_max ix (max ix + inc ix) (el ix ++ replicate (Z.to_nat (inc ix)) None)
          else if max ix =? 0 then with_max ix (inc ix) (replicate (Z.to_nat (inc ix)) None)
          else ix).
  assert (cells (el ix1) l /\ (length l < length (el ix1))%nat /\ max ix1 = Z.of_nat (length (el ix1)) /\
          n ix1 = n ix /\ inc ix1 = inc ix) as (Hc1 & Hl1 & Hm1 & Hn1 & Hi1).
  { unfold ix1. destruct (Z.eqb_spec (n ix) (max ix)).
    - cbn. rewrite length_app, length_replicate. split_and!; try done; try lia.
      rewrite (cells_decompose _ _ Hc), <- app_assoc. apply cells_app.
    - destruct (Z.eqb_spec (max ix) 0); [lia|]. split_and!; try done; lia. }
  assert (exists i, (if 0 <? n ix1 then BinSearch CmpEls e (el ix1) (n ix1) else Some 0) = Some i /\
            BinSearch CmpEls e (Some <$> l) (Z.of_nat (length l)) = Some i /\
            0 <= i <= Z.of_nat (length l)) as (i & Hbs & Hbl & Hir).
  { rewrite Hn1, Hn. destruct (Z.ltb_spec 0 (Z.of_nat (length l))).
    - unfold BinSearch. rewrite Nat2Z.id. apply bin_loop_any; [done|lia..].
    - destruct l; [|cbn in *; lia]. by exists 0. }
  destruct (place_spec (el ix1) l i e) as (a' & Hp & Hc' & Hl'); [done|lia..|].
  unfold Ns_IndexAdd. fold ix1. rewrite Hbs. cbn [mbind option_bind].
  rewrite Hn1, Hn, Nat2Z.id in *.
  destruct (if i <? _ then _ else _) as [a1|]; [|done]. cbn in Hp |- *. rewrite Hp. cbn.
  eexists. split; [done|]. unfold index_insert. rewrite Hbl. cbn [default].
  split_and!; cbn; try done; try lia.
  rewrite length_app, length_take; cbn. rewrite length_drop. lia.
Qed.

Lemma index_insert_perm l e : index_insert CmpEls l e ≡ₚ e :: l.
Proof. unfold index_insert. by rewrite <- Permutation_middle, take_drop. Qed.

Lemma index_insert_fmap {B} (g : A -> B) (cmp : B -> B -> Z) l e :
  (forall x y, CmpEls x y = cmp (g x) (g y)) -> g <$> index_insert CmpEls l e = index_insert cmp (g <$> l) (g e).
Proof.
  intros Hc. unfold index_insert. rewrite length_fmap.
  assert (E : forall fuel low high mid, bin_loop fuel (cmp (g e)) (Some <$> (g <$> l)) low high mid =
    bin_loop fuel (CmpEls e) (Some <$> l) low high mid).
  { induction fuel as [|fuel IH]; intros low high mid; [done|]. cbn [bin_loop]. destruct (low <=? high); [|done].
    assert (cell (Some <$> (g <$> l)) (Z.quot (low + high) 2) = g <$> cell (Some <$> l) (Z.quot (low + high) 2)) as ->.
    { unfold cell, aget. destruct (_ <? 0); [done|]. rewrite !list_lookup_fmap. by destruct (l !! _). }
    destruct (cell _ _) as [x|]; [|done]. cbn. rewrite <- Hc, !IH. done. }
  unfold BinSearch. rewrite E. by rewrite fmap_app, fmap_cons, fmap_take, fmap_drop.
Qed.

Lemma index_insert_length l e : length (index_insert CmpEls l e) = S (length l).
Proof. by rewrite index_insert_perm. Qed.

Lemma index_insert_sorted `{!CmpOrder CmpEls} l e : sorted CmpEls l -> sorted CmpEls (index_insert CmpEls l e).
Proof.
  intros Hs. unfold index_insert. destruct (decide (l = [])) as [->|Hne]; [cbn; by repeat constructor|].
  unfold BinSearch. rewrite Nat2Z.id.
  destruct (bin_search_spec (CmpEls e) (Some <$> l) l) as (i & -> & Hsp).
  - unfold cells. rewrite <- (length_fmap Some l). by rewrite firstn_all.
  - by apply (sorted_mono CmpEls CmpEls).
  - cbn [default]. by apply insert_sorted.
Qed.

Lemma IndexAdd_repr `{!CmpOrder CmpEls} ix l e :
  repr ix l -> sorted CmpEls l -> n ix < 2 ^ 31 ->
  exists ix' i, Ns_IndexAdd CmpEls ix e = Some ix' /\
    repr ix' (take i l ++ e :: drop i l) /\ sorted CmpEls (take i l ++ e :: drop i l).
Proof.
  intros Hr Hs Hb. destruct (IndexAdd_any ix l e Hr Hb) as (ix' & E & Hr').
  pose proof (index_insert_sorted l e Hs). unfold index_insert in *. by eexists ix', _.
Qed.
End operations.

Section delete.
Context {A : Type} `{EqDecision A}.
Implicit Types (l : list A) (ix : Ns_Index A).

(** The first occurrence of the pointer is removed. *)
Fixpoint remove1 (e : A) l : list A :=
  match l with
  | [] => []
  | x :: l => if bool_decide (x = e) then l else x :: remove1 e l
  end.

Lemma remove1_app e l1 l2 : e ∉ l1 -> remove1 e (l1 ++ l2) = l1 ++ remove1 e l2.
Proof.
  induction l1 as [|x l1 IH]; intros Hn; cbn; [done|].
  apply not_elem_of_cons in Hn as [? ?]. rewrite bool_decide_eq_false_2 by congruence. by rewrite IH.
Qed.

Lemma del_loop_spec fuel ix e l1 l2 :
  repr ix (l1 ++ l2) -> e ∉ l1 -> (length l2 < fuel)%nat ->
  exists ix', del_loop fuel ix e (Z.of_nat (length l1)) = Some ix' /\ repr ix' (l1 ++ remove1 e l2).
Proof.
  revert l1 l2. induction fuel as [|fuel IH]; intros l1 l2 Hr Hn Hf; [lia|].
  pose proof Hr as (Hc & Hln & Hm & Hi). cbn [del_loop]. rewrite length_app in Hln.
  destruct (Z.ltb_spec (Z.of_nat (length l1)) (n ix)) as [Hlt|Hge].
  - destruct l2 as [|x l2]; [cbn in *; lia|].
    rewrite aget_nat, (cells_get _ _ _ Hc) by (rewrite length_app; cbn; lia).
    rewrite list_lookup_middle by done. cbn [fmap option_fmap option_map mbind option_bind remove1].
    destruct (decide (x = e)) as [->|Hne].
    + rewrite !bool_decide_eq_true_2 by done.
      assert (exists s', (if Z.of_nat (length l1) <? n ix - 1
          then shift_down (S (Z.to_nat (n ix))) (el ix) (Z.of_nat (length l1)) (n ix - 1) else Some (el ix))
          = Some ((Some <$> (l1 ++ l2)) ++ s') /\ length (el ix) = (length (l1 ++ l2) + length s')%nat)
        as (s' & -> & Hl).
      { rewrite (cells_decompose _ _ Hc). set (s := drop _ _).
        rewrite !fmap_app, fmap_cons, <- !app_assoc. cbn [app].
        destruct (Z.ltb_spec (Z.of_nat (length l1)) (n ix - 1)).
        - destruct (shift_down_spec (S (Z.to_nat (n ix))) (Some <$> l1) (Some e) (Some <$> l2) s) as (s' & E & Hs').
          { rewrite length_fmap. cbn in Hln. lia. }
          rewrite !length_fmap in E. cbn in Hln.
          replace (n ix - 1) with (Z.of_nat (length l1 + length l2)) by lia. rewrite E.
          exists s'. split; [by rewrite ?fmap_app, <- ?app_assoc|]. rewrite !length_app, !length_fmap; cbn. rewrite length_app, length_fmap. lia.
        - assert (l2 = []) as -> by (apply nil_length_inv; cbn in Hln; lia).
          exists (Some e :: s). split; [by rewrite ?fmap_app, <- ?app_assoc|]. rewrite !length_app, !length_fmap; cbn. lia. }
      cbn. eexists; split; [done|]. split_and!; cbn; [apply cells_app| | |done].
      * rewrite length_app. cbn in Hln. lia.
      * rewrite length_app, length_fmap. lia.
    + rewrite !bool_decide_eq_false_2 by congruence.
      replace (Z.of_nat (length l1) + 1) with (Z.of_nat (length (l1 ++ [x]))) by (rewrite length_app; cbn; lia).
      destruct (IH (l1 ++ [x]) l2) as (ix' & -> & Hr').
      * by rewrite <- app_assoc.
      * rewrite elem_of_app, list_elem_of_singleton. intros [?| ->]; congruence.
      * cbn in Hf; lia.
      * exists ix'. split; [done|]. by rewrite <- app_assoc in Hr'.
  - assert (l2 = []) as -> by (apply nil_length_inv; lia). by eexists.
Qed.

Lemma IndexDel_repr ix l e :
  repr ix l -> exists ix', Ns_IndexDel ix e = Some ix' /\ repr ix' (remove1 e l).
Proof.
  intros Hr. pose proof Hr as (_ & Hn & _). unfold Ns_IndexDel.
  apply (del_loop_spec _ _ _ [] l); [done|apply not_elem_of_nil|lia].
Qed.
End delete.

(** ** Finding *)

Section find_lemmas.
Context {A : Type}.
Implicit Types (l : list A) (a : list (option A)) (cmp : A -> Z).

Lemma mono_tail cmp x l : mono cmp (x :: l) -> mono cmp l.
Proof. intros Hm i j y z Hij Hy Hz. apply (Hm (S i) (S j)); [lia|done..]. Qed.

Lemma mono_head cmp x l y : mono cmp (x :: l) -> y ∈ l -> (cmp x <= 0 -> cmp y <= 0) /\ (cmp x < 0 -> cmp y < 0).
Proof. intros Hm (j & Hj)%list_elem_of_lookup. apply (Hm 0%nat (S j)); [lia|done..]. Qed.

(** The matching elements of a sorted list are adjacent. *)
Lemma mono_split cmp l : mono cmp l -> exists l1 l2 l3, l = l1 ++ l2 ++ l3 /\
  Forall (fun x => 0 < cmp x) l1 /\ Forall (fun x => cmp x = 0) l2 /\ Forall (fun x => cmp x < 0) l3.
Proof.
  induction l as [|x l IH]; intros Hm; [by exists [], [], []|].
  destruct (IH (mono_tail _ _ _ Hm)) as (l1 & l2 & l3 & -> & H1 & H2 & H3).
  destruct (Z.lt_total (cmp x) 0) as [Hx|[Hx|Hx]].
  - exists [], [], (x :: l1 ++ l2 ++ l3). split_and!; try constructor; try done.
    apply Forall_forall. intros y Hy. by apply (mono_head _ _ _ _ Hm Hy).
  - exists [], (x :: l2), l3. destruct l1 as [|y l1]; [by split_and!; try constructor|].
    apply Forall_cons in H1 as [Hy _].
    destruct (mono_head cmp x ((y :: l1) ++ l2 ++ l3) y Hm) as [Hle _]; [left|]. lia.
  - exists (x :: l1), l2, l3. split_and!; try done. by constructor.
Qed.

Lemma filter_split cmp l1 l2 l3 :
  Forall (fun x => 0 < cmp x) l1 -> Forall (fun x => cmp x = 0) l2 -> Forall (fun x => cmp x < 0) l3 ->
  filter (fun x => cmp x = 0) (l1 ++ l2 ++ l3) = l2.
Proof.
  intros H1 H2 H3. rewrite !filter_app.
  assert (forall l, Forall (fun x => cmp x <> 0) l -> filter (fun x => cmp x = 0) l = []) as Hnil.
  { induction 1; [done|]. by rewrite filter_cons_False. }
  rewrite (Hnil l1), (Hnil l3), app_nil_r.
  - cbn. induction H2; [done|]. rewrite filter_cons_True by done. by f_equal.
  - eapply Forall_impl; [apply H3|]. cbn; lia.
  - eapply Forall_impl; [apply H1|]. cbn; lia.
Qed.
End find_lemmas.

Section find_theorems.
Context `{Bsearch} {K A : Type} (CmpEls : A -> A -> Z) (CmpKeyWithEl : K -> A -> Z).
Context `{!KeyOrder CmpEls CmpKeyWithEl}.
Implicit Types (l : list A) (ix : Ns_Index A).

Lemma back_loop_spec ix key l1 l2 l3 (k fuel : nat) :
  cells (el ix) (l1 ++ l2 ++ l3) -> (k < length l2)%nat -> (k < fuel)%nat ->
  Forall (fun x => 0 < CmpKeyWithEl key x) l1 -> Forall (fun x => CmpKeyWithEl key x = 0) l2 ->
  back_loop CmpKeyWithEl fuel ix key (Z.of_nat (length l1 + k)) = Some (Z.of_nat (length l1)).
Proof.
  intros Hc Hk Hf H1 H2. revert k Hk Hf. induction fuel as [|fuel IH]; intros k Hk Hf; [lia|].
  cbn [back_loop]. destruct (Z.eqb_spec (Z.of_nat (length l1 + k)) 0); [f_equal; lia|].
  replace (Z.of_nat (length l1 + k) - 1) with (Z.of_nat (length l1 + k - 1)) by lia.
  rewrite (cells_cell _ _ _ Hc) by (rewrite !length_app; lia).
  destruct k as [|k].
  - destruct (lookup_lt_is_Some_2 l1 (length l1 + 0 - 1)) as [x Hx]; [lia|].
    rewrite lookup_app_l by lia. rewrite Hx. cbn.
    assert (0 < CmpKeyWithEl key x) by (eapply Forall_lookup_1 in H1; eauto).
    destruct (Z.eqb_spec (CmpKeyWithEl key x) 0); [lia|]. by rewrite Nat.add_0_r.
  - destruct (lookup_lt_is_Some_2 l2 k) as [x Hx]; [lia|].
    rewrite lookup_app_r, lookup_app_l by lia. replace (_ - _ - _)%nat with k by lia.
    rewrite Hx. cbn. assert (CmpKeyWithEl key x = 0) as -> by (eapply Forall_lookup_1 in H2; eauto).
    cbn. replace (length l1 + S k - 1)%nat with (length l1 + k)%nat by lia. apply IH; lia.
Qed.

Lemma forward_loop_spec ix key l1 l2 l3 (i fuel : nat) :
  cells (el ix) (l1 ++ l2 ++ l3) -> (i <= length l2)%nat -> (length l2 - i < fuel)%nat ->
  Forall (fun x => CmpKeyWithEl key x = 0) l2 -> Forall (fun x => CmpKeyWithEl key x < 0) l3 ->
  forward_loop CmpKeyWithEl fuel ix key (Z.of_nat (length l1)) (Z.of_nat (length l2 + length l3)) (Z.of_nat i) =
    Some (Z.of_nat (length l2)).
Proof.
  intros Hc Hi Hf H2 H3. revert i Hi Hf. induction fuel as [|fuel IH]; intros i Hi Hf; [lia|].
  cbn [forward_loop].
  destruct (Z.ltb_spec (Z.of_nat i) (Z.of_nat (length l2 + length l3))) as [Hlt|]; [|f_equal; lia].
  rewrite <- Nat2Z.inj_add, (cells_cell _ _ _ Hc) by (rewrite !length_app; lia).
  rewrite lookup_app_r by lia. replace (length l1 + i - length l1)%nat with i by lia.
  destruct (decide (i < length l2)%nat) as [Hil|Hil].
  - destruct (lookup_lt_is_Some_2 l2 i) as [x Hx]; [lia|]. rewrite lookup_app_l, Hx by lia. cbn.
    assert (CmpKeyWithEl key x = 0) as -> by (eapply Forall_lookup_1 in H2; eauto).
    cbn. replace (Z.of_nat i + 1) with (Z.of_nat (S i)) by lia. apply IH; lia.
  - destruct (lookup_lt_is_Some_2 l3 (i - length l2)) as [x Hx]; [lia|].
    rewrite lookup_app_r, Hx by lia. cbn.
    assert (CmpKeyWithEl key x < 0) by (eapply Forall_lookup_1 in H3; eauto).
    destruct (Z.eqb_spec (CmpKeyWithEl key x) 0); [lia|]. f_equal. lia.
Qed.

Lemma IndexFind_repr ix l key :
  repr ix l -> sorted CmpEls l ->
  exists r, Ns_IndexFind CmpKeyWithEl ix key = Some r /\
    match r with
    | Some x => x ∈ l /\ CmpKeyWithEl key x = 0
    | None => Forall (fun x => CmpKeyWithEl key x <> 0) l
    end.
Proof.
  intros (Hc & Hn & _) Hs. unfold Ns_IndexFind. rewrite Hn.
  destruct (bsearch_spec A (CmpKeyWithEl key) (el ix) l) as (r & -> & Hr); [done|by apply (sorted_mono CmpEls)|].
  cbn. destruct r as [i|]; [|by exists None]. destruct Hr as (x & Hx & E).
  exists (Some x). pose proof (aget_Some _ _ _ Hx).
  destruct (cells_Z _ _ i Hc) as (y & -> & Hy); [lia|].
  unfold aget in Hx. destruct (Z.ltb_spec i 0); [lia|]. simplify_eq. split; [done|].
  split; [|done]. by eapply list_elem_of_lookup_2.
Qed.

(** [Ns_IndexFind] on a sorted index is sound and complete, with any C library
    [bsearch]: it returns an element that matches the key, and NULL only when
    no element does. *)
Theorem IndexFind_spec ix l key :
  repr ix l -> sorted CmpEls l ->
  exists r, Ns_IndexFind CmpKeyWithEl ix key = Some r /\
    match r with
    | Some x => x ∈ l /\ CmpKeyWithEl key x = 0
    | None => Forall (fun x => CmpKeyWithEl key x <> 0) l
    end.
Proof. apply IndexFind_repr. Qed.

(** [Ns_IndexFindMultiple] returns exactly the elements that match the key, in
    index order, and NULL when there is none. *)
Theorem IndexFindMultiple_spec ix l key :
  repr ix l -> sorted CmpEls l ->
  Ns_IndexFindMultiple CmpKeyWithEl ix key =
    Some (match filter (fun x => CmpKeyWithEl key x = 0) l with [] => None | l' => Some l' end).
Proof.
  intros (Hc & Hn & _) Hs. unfold Ns_IndexFindMultiple.
  pose proof (sorted_mono CmpEls CmpKeyWithEl l key Hs) as Hm.
  destruct (bsearch_spec A (CmpKeyWithEl key) (el ix) l) as (r & Hb & Hr); [done..|].
  rewrite Hn, Hb, Nat2Z.id. cbn [mbind option_bind]. clear Hb.
  destruct (mono_split _ _ Hm) as (l1 & l2 & l3 & -> & H1 & H2 & H3).
  rewrite (filter_split (CmpKeyWithEl key)) by done. destruct r as [i|].
  - destruct Hr as (x & Hx & E). pose proof (aget_Some _ _ _ Hx) as Hi.
    unfold aget in Hx. destruct (Z.ltb_spec i 0); [lia|].
    assert (exists k, i = Z.of_nat (length l1 + k) /\ (k < length l2)%nat) as (k & -> & Hk).
    { rewrite !length_app in Hi. apply lookup_app_Some in Hx as [Hx|[? Hx]].
      { eapply Forall_lookup_1 in H1; [|done]. cbn in H1. lia. }
      apply lookup_app_Some in Hx as [Hx|[? Hx]].
      - apply lookup_lt_Some in Hx. exists (Z.to_nat i - length l1)%nat. lia.
      - eapply Forall_lookup_1 in H3; [|done]. cbn in H3. lia. }
    rewrite (back_loop_spec ix key l1 l2 l3) by (rewrite ?length_app; done || lia). cbn [mbind option_bind].
    rewrite !length_app. replace (Z.of_nat (length l1 + (length l2 + length l3)) - Z.of_nat (length l1))
      with (Z.of_nat (length l2 + length l3)) by lia.
    change 1 with (Z.of_nat 1).
    rewrite (forward_loop_spec ix key l1 l2 l3) by (done || lia). cbn [mbind option_bind].
    rewrite !Nat2Z.id, (cells_decompose _ _ Hc), !fmap_app, <- !app_assoc.
    rewrite <- (length_fmap Some l1), drop_app_length, <- (length_fmap Some l2), take_app_length.
    rewrite mapM_fmap_Some by done. destruct l2; [cbn in Hk; lia|]. done.
  - destruct l2 as [|x l2]; [done|]. exfalso.
    apply Forall_cons in H2 as [Hx _]. rewrite Forall_forall in Hr. apply (Hr x); [|done].
    rewrite !elem_of_app. right. left. left.
Qed.

Lemma separation_split (cmp : A -> Z) l i :
  0 <= i <= Z.of_nat (length l) ->
  (forall j x, l !! j = Some x -> if decide (Z.of_nat j < i) then 0 < cmp x else cmp x < 0) ->
  exists l1 l2, l = l1 ++ l2 /\ i = Z.of_nat (length l1) /\
    Forall (fun x => 0 < cmp x) l1 /\ Forall (fun x => cmp x < 0) l2.
Proof using Type.
  intros Hi Hall. exists (take (Z.to_nat i) l), (drop (Z.to_nat i) l).
  split_and!; [by rewrite take_drop|rewrite length_take; lia| |]; apply Forall_lookup; intros j x Hx.
  - apply lookup_take_Some in Hx as [Hx Hj]. specialize (Hall j x Hx). by rewrite decide_True in Hall by lia.
  - rewrite lookup_drop in Hx. specialize (Hall _ x Hx). by rewrite decide_False in Hall by lia.
Qed.

(** The second half of [Ns_IndexFindInf], at the place where a missing key belongs. *)
Lemma between_spec ix key l1 l2 :
  cells (el ix) (l1 ++ l2) -> Forall (fun x => CmpKeyWithEl key x < 0) l2 ->
  let i := Z.of_nat (length l1) in
  exists r, (if i <? Z.of_nat (length (l1 ++ l2)) then
      x ← cell (el ix) i;
      if (0 <? i) && negb (CmpKeyWithEl key x =? 0) then Some <$> cell (el ix) (i - 1)
      else Some <$> cell (el ix) i
    else Some None) = Some r /\
    r = match l2 with [] => None | y :: _ => match last l1 with Some x => Some x | None => Some y end end.
Proof using Type.
  intros Hc F2 i. unfold i. rewrite length_app. destruct l2 as [|y l2].
  - rewrite Nat.add_0_r, Z.ltb_irrefl. by eexists.
  - destruct (Z.ltb_spec (Z.of_nat (length l1)) (Z.of_nat (length l1 + length (y :: l2)))); [|cbn in *; lia].
    rewrite (cells_cell _ _ _ Hc), list_lookup_middle by (done || rewrite length_app; cbn; lia).
    cbn [mbind option_bind]. apply Forall_cons in F2 as [Hy _].
    destruct (Z.eqb_spec (CmpKeyWithEl key y) 0); [lia|]. rewrite andb_true_r.
    destruct l1 as [|x l1 _] using rev_ind; [by eexists|].
    rewrite length_app. cbn [length]. destruct (Z.ltb_spec 0 (Z.of_nat (length l1 + 1))); [|lia].
    replace (Z.of_nat (length l1 + 1) - 1) with (Z.of_nat (length l1)) by lia.
    rewrite (cells_cell _ _ _ Hc) by (rewrite !length_app; cbn; lia).
    rewrite <- app_assoc. cbn. rewrite list_lookup_middle, last_snoc by done. by eexists.
Qed.

(** [Ns_IndexFindInf] returns a matching element if there is one.  Otherwise it
    returns the first element when the key belongs before it, NULL when the key
    belongs after the last one, and in between the element {e before} the place
    of the key, that is its predecessor: not the element "before which the key
    would appear" that its comment announces. *)
Theorem IndexFindInf_spec ix l key :
  repr ix l -> sorted CmpEls l ->
  exists r, Ns_IndexFindInf CmpKeyWithEl ix key = Some r /\
    ((exists x, r = Some x /\ x ∈ l /\ CmpKeyWithEl key x = 0) \/
     exists l1 l2, l = l1 ++ l2 /\
       Forall (fun x => 0 < CmpKeyWithEl key x) l1 /\ Forall (fun x => CmpKeyWithEl key x < 0) l2 /\
       r = match l2 with [] => None | y :: _ => match last l1 with Some x => Some x | None => Some y end end).
Proof.
  intros (Hc & Hn & _) Hs. unfold Ns_IndexFindInf. rewrite Hn.
  destruct (Z.ltb_spec 0 (Z.of_nat (length l))); cycle 1.
  { assert (l = []) as -> by (apply nil_length_inv; lia). eexists; split; [done|]. right. by exists [], []. }
  unfold BinSearchKey. rewrite Nat2Z.id.
  destruct (bin_search_spec (CmpKeyWithEl key) (el ix) l) as (i & -> & Hi & Hsp);
    [done|by apply (sorted_mono CmpEls)|]. cbn [mbind option_bind].
  destruct Hsp as [(x & Hx & E)|Hall].
  - pose proof (lookup_lt_Some _ _ _ Hx). destruct (Z.ltb_spec i (Z.of_nat (length l))); [|lia].
    destruct (cells_Z _ _ i Hc) as (y & -> & Hy); [lia|]. simplify_eq. cbn [mbind option_bind].
    rewrite E, andb_false_r. cbn. eexists; split; [done|]. left. exists x.
    split; [done|]. split; [|done]. by eapply list_elem_of_lookup_2.
  - destruct (separation_split _ _ _ Hi Hall) as (l1 & l2 & -> & -> & F1 & F2).
    destruct (between_spec ix key l1 l2) as (r & Hr & ->); [done..|].
    exists (match l2 with [] => None | y :: _ => match last l1 with Some x => Some x | None => Some y end end).
    split; [exact Hr|]. right. by exists l1, l2.
Qed.
End find_theorems.

(** ** Refinement: an index is a sorted multiset

    The abstract specification is a bag of pointers, a list up to permutation. *)

Module bag.
Inductive op (A : Type) := Add (e : A) | Del (e : A) | Trunc.
Arguments Add {A} _.
Arguments Del {A} _.
Arguments Trunc {A}.

Definition step `{EqDecision A} (b : list A) (o : op A) : list A :=
  match o with
  | Add e => e :: b
  | Del e => remove1 e b
  | Trunc => []
  end.

Definition run `{EqDecision A} (ops : list (op A)) : list A := foldl step [] ops.
End bag.

Definition index_step `{EqDecision A} (CmpEls : A -> A -> Z) (ix : Ns_Index A) (o : bag.op A) : option (Ns_Index A) :=
  match o with
  | bag.Add e => Ns_IndexAdd CmpEls ix e
  | bag.Del e => Ns_IndexDel ix e
  | bag.Trunc => Some (Ns_IndexTrunc ix)
  end.

Fixpoint index_run `{EqDecision A} (CmpEls : A -> A -> Z) (ix : Ns_Index A) (ops : list (bag.op A)) : option (Ns_Index A) :=
  match ops with
  | [] => Some ix
  | o :: ops => ix' ← index_step CmpEls ix o; index_run CmpEls ix' ops
  end.

Section refinement.
Context {A : Type} `{EqDecision A} (CmpEls : A -> A -> Z) `{!CmpOrder CmpEls}.

Lemma remove1_perm (e : A) l l' : l ≡ₚ l' -> remove1 e l ≡ₚ remove1 e l'.
Proof.
  induction 1; cbn; repeat case_bool_decide; subst; try done.
  - by constructor.
  - by constructor.
  - by etrans.
Qed.

Lemma remove1_sorted (e : A) l : sorted CmpEls l -> sorted CmpEls (remove1 e l).
Proof.
  induction 1 as [|x l Hs IH Hx]; cbn; [constructor|]. case_bool_decide; [done|].
  constructor; [done|]. rewrite Forall_forall in *. intros y Hy. apply Hx.
  clear -Hy. induction l; cbn in *; [done|]. case_bool_decide; [by right|].
  apply elem_of_cons in Hy as [->|]; [left|right; auto].
Qed.

Lemma remove1_length (e : A) l : (length (remove1 e l) <= length l)%nat.
Proof. induction l; cbn; [done|]. case_bool_decide; cbn; lia. Qed.

Definition refines (ix : Ns_Index A) (b : list A) : Prop :=
  exists l, repr ix l /\ sorted CmpEls l /\ l ≡ₚ b.

Lemma index_step_refines ix b o :
  refines ix b -> n ix < 2 ^ 31 ->
  exists ix', index_step CmpEls ix o = Some ix' /\ refines ix' (bag.step b o) /\ n ix' <= n ix + 1.
Proof.
  intros (l & Hr & Hs & Hp) Hb. pose proof Hr as (_ & Hn & _). destruct o as [e|e|]; cbn [index_step bag.step].
  - destruct (IndexAdd_repr CmpEls ix l e) as (ix' & i & -> & Hr' & Hs'); [done..|].
    exists ix'. split; [done|]. split.
    + eexists; split_and!; [done..|]. by rewrite <- Permutation_middle, take_drop, Hp.
    + destruct Hr' as (_ & -> & _). rewrite length_app, length_take; cbn. rewrite length_drop. lia.
  - destruct (IndexDel_repr ix l e) as (ix' & -> & Hr'); [done|]. exists ix'. split; [done|]. split.
    + eexists; split_and!; [done|by apply remove1_sorted|by apply remove1_perm].
    + destruct Hr' as (_ & -> & _). pose proof (remove1_length e l). lia.
  - eexists; split; [done|]. split; [|cbn; lia].
    exists []. split_and!; [by eapply IndexTrunc_repr|constructor|done].
Qed.

Lemma index_run_refines ix b ops :
  refines ix b -> n ix + Z.of_nat (length ops) < 2 ^ 31 ->
  exists ix', index_run CmpEls ix ops = Some ix' /\ refines ix' (foldl bag.step b ops).
Proof.
  revert ix b. induction ops as [|o ops IH]; intros ix b Hr Hb; cbn; [eauto|].
  cbn in Hb. destruct (index_step_refines ix b o) as (ix' & -> & Hr' & Hn'); [done|lia|].
  cbn. apply IH; [done|lia].
Qed.

(** An index refines a bag: every sequence of additions, deletions and
    truncations of a fresh index runs without an access outside its array, keeps
    it sorted, and leaves exactly the elements that the bag holds. *)
Theorem Index_refines_bag k (ops : list (bag.op A)) :
  0 < k -> Z.of_nat (length ops) < 2 ^ 31 ->
  exists ix l, index_run CmpEls (Ns_IndexInit k) ops = Some ix /\
    repr ix l /\ sorted CmpEls l /\ l ≡ₚ bag.run ops.
Proof.
  intros Hk Hb. destruct (index_run_refines (Ns_IndexInit k) [] ops) as (ix & E & l & ? & ? & ?).
  - exists []. split_and!; [by apply IndexInit_repr|constructor|done].
  - cbn; lia.
  - by exists ix, l.
Qed.
End refinement.

(** ** Witnesses *)

Definition sample : Ns_Index Z :=
  mkIndex [Some 1; Some 3; Some 3; Some 7; None] 4 5 5.

Lemma sample_repr : repr sample [1; 3; 3; 7].
Proof. by split_and!. Qed.

Lemma sample_sorted : sorted CmpInts [1; 3; 3; 7].
Proof. repeat constructor; vm_compute; discriminate. Qed.

Lemma IndexFind_spec_witness :
  exists r, Ns_IndexFind CmpKeyWithInt sample 7 = Some r /\ r = Some 7.
Proof.
  destruct (IndexFind_spec CmpInts CmpKeyWithInt sample [1; 3; 3; 7] 7 sample_repr sample_sorted) as (r & E & _).
  exists r. split; [exact E|]. vm_compute in E. congruence.
Defined.

Lemma IndexFindMultiple_spec_witness :
  Ns_IndexFindMultiple CmpKeyWithInt sample 3 = Some (Some [3; 3]).
Proof. rewrite (IndexFindMultiple_spec CmpInts CmpKeyWithInt sample [1; 3; 3; 7] 3 sample_repr sample_sorted). reflexivity. Defined.

(** The key 5 would appear before 7; the predecessor 3 is returned. *)
Lemma IndexFindInf_spec_witness :
  exists r, Ns_IndexFindInf CmpKeyWithInt sample 5 = Some r /\ r = Some 3.
Proof.
  destruct (IndexFindInf_spec CmpInts CmpKeyWithInt sample [1; 3; 3; 7] 5 sample_repr sample_sorted) as (r & E & _).
  exists r. split; [exact E|]. vm_compute in E. congruence.
Defined.

Lemma Index_refines_bag_witness :
  exists ix l, index_run strcmp (Ns_IndexInit 1)
      [bag.Add [98; 99]; bag.Add [97]; bag.Add [98]; bag.Del [97]; bag.Add [99]] = Some ix /\
    repr ix l /\ sorted strcmp l /\ l ≡ₚ [[99]; [98]; [98; 99]].
Proof.
  destruct (Index_refines_bag strcmp 1
    [bag.Add [98; 99]; bag.Add [97]; bag.Add [98]; bag.Del [97]; bag.Add [99]]) as (ix & l & ? & ? & ? & Hp);
    [vm_compute; reflexivity..|].
  exists ix, l. split_and!; [assumption..|].
  assert (bag.run [bag.Add [98; 99]; bag.Add [97]; bag.Add [98]; bag.Del [97]; bag.Add [99]] =
    [[99]; [98]; [98; 99]]) as <- by (vm_compute; reflexivity). exact Hp.
Defined.
