(* ===== verification/DList.v ===== *)
(** * DList: the dynamic pointer list of nsd/dlist.c.

    The list lives in a static buffer of 30 cells or in a heap block.  A cell is
    [None] while its contents are indeterminate.  The abstract value of a list is
    the sequence of its elements; the invariant [wf] says that the slots the list
    believes to have exist. *)

From S2P Require Import Prelude.

Definition static_cap : Z := 30.
Definition NS_DLIST_MAX_ELEMENTS : Z := SIZE_MAX / 8.
Definition NS_MAXOBJ : Z := 2 ^ 63 - 1.

Section dlist.
Context {V : Type} `{EqDecision V} (NULL : V).

(** [heap] is the block that [data] points to, [None] when [data] is
    [static_data]; [freed] records the calls of the free procedure. *)
Record Ns_DList := mkDList {
  heap : option (list (option V)); static_data : list (option V);
  size : Z; avail : Z; freeProc : bool; freed : list V }.

Definition data (d : Ns_DList) : list (option V) :=
  match heap d with Some a => a | None => static_data d end.

Definition set_data (d : Ns_DList) (a : list (option V)) : Ns_DList :=
  match heap d with
  | Some _ => mkDList (Some a) (static_data d) (size d) (avail d) (freeProc d) (freed d)
  | None => mkDList None a (size d) (avail d) (freeProc d) (freed d)
  end.

Definition set_sizes (d : Ns_DList) (s av : Z) : Ns_DList :=
  mkDList (heap d) (static_data d) s av (freeProc d) (freed d).

Definition Ns_DListCapacity (d : Ns_DList) : Z := wrap64 (size d + avail d).

Definition Ns_DListInit (d : Ns_DList) : Ns_DList :=
  mkDList None (static_data d) 0 static_cap false (freed d).

(** The request is ignored, with a warning, for a list with elements. *)
Definition Ns_DListSetFreeProc (d : Ns_DList) (f : bool) : Ns_DList :=
  if negb (size d =? 0) then d
  else mkDList (heap d) (static_data d) (size d) (avail d) f (freed d).

(** The loop of [Ns_DListFreeRange] over the cells [from, to): every element
    that is not NULL is handed to the free procedure. *)
Fixpoint free_cells (l : list (option V)) (log : list V) : outcome (list V) :=
  match l with
  | [] => Ret log
  | None :: _ => Fault
  | Some v :: l => free_cells l (if bool_decide (v = NULL) then log else log ++ [v])
  end.

Definition Ns_DListFreeRange (d : Ns_DList) (from to_excl : Z) (clear : bool) : outcome Ns_DList :=
  d ← (if freeProc d then
         l ← checked (aslice (data d) from (to_excl - from));
         log ← free_cells l (freed d);
         Ret (mkDList (heap d) (static_data d) (size d) (avail d) (freeProc d) log)
       else Ret d);
  if clear then
    a ← checked (afill (data d) from (replicate (Z.to_nat (to_excl - from)) (Some NULL)));
    Ret (set_data d a)
  else Ret d.

Definition Ns_DListFree (d : Ns_DList) : outcome Ns_DList :=
  d ← (if freeProc d then Ns_DListFreeRange d 0 (size d) false else Ret d);
  Ret (Ns_DListInit d).

(** The overflow test of the multiplication and the allocation bound. *)
Definition ns_calc_array_bytes (k elem : Z) : option Z :=
  let prod := k * elem in
  if SIZE_MAX <? prod then None else if NS_MAXOBJ <? prod then None else Some prod.

(** Case 1 of [Ns_DListSetCapacity]: the contents of the static buffer. *)
Definition move_static (d : Ns_DList) : outcome (list (option V)) :=
  match heap d with
  | Some h =>
      if 0 <? size d then
        l ← checked (aslice h 0 (size d)); checked (afill (static_data d) 0 l)
      else Ret (static_data d)
  | None => Ret (static_data d)
  end.

(** Case 2: the new heap block; [ns_realloc] keeps the common prefix. *)
Definition alloc_heap (d : Ns_DList) (new_cap : Z) : outcome (list (option V)) :=
  match heap d with
  | None =>
      let a := replicate (Z.to_nat new_cap) None in
      if 0 <? size d then
        l ← checked (aslice (static_data d) 0 (size d)); checked (afill a 0 l)
      else Ret a
  | Some h => Ret (take (Z.to_nat new_cap) h ++ replicate (Z.to_nat new_cap - length h) None)
  end.

Definition Ns_DListSetCapacity (d : Ns_DList) (new_cap : Z) : outcome Ns_DList :=
  let curr_cap := Ns_DListCapacity d in
  let new_cap := if new_cap <? size d then size d else new_cap in
  let new_cap := if new_cap <? static_cap then static_cap else new_cap in
  if new_cap =? curr_cap then Ret (set_sizes d (size d) (wrap64 (curr_cap - size d)))
  else if (new_cap =? static_cap) && (size d <=? static_cap) then
    st ← move_static d;
    Ret (mkDList None st (size d) (wrap64 (static_cap - size d)) (freeProc d) (freed d))
  else if NS_DLIST_MAX_ELEMENTS <? new_cap then Fatal
  else
    match ns_calc_array_bytes new_cap 8 with
    | None => Ret d
    | Some _ =>
        a ← alloc_heap d new_cap;
        Ret (mkDList (Some a) (static_data d) (size d) (wrap64 (new_cap - size d)) (freeProc d) (freed d))
    end.

Definition Ns_DListSetLength (d : Ns_DList) (new_size : Z) : outcome Ns_DList :=
  d ← (if new_size <? size d then Ns_DListFreeRange d new_size (size d) true
       else if Ns_DListCapacity d <? new_size then Ns_DListSetCapacity d new_size
       else Ret d);
  d ← (if freeProc d && (size d <? new_size) then
         a ← checked (afill (data d) (size d) (replicate (Z.to_nat (new_size - size d)) (Some NULL)));
         Ret (set_data d a)
       else Ret d);
  let d := set_sizes d new_size (avail d) in
  Ret (set_sizes d (size d) (wrap64 (Ns_DListCapacity d - new_size))).

Definition Ns_DListReset (d : Ns_DList) : outcome Ns_DList := Ns_DListSetLength d 0.

Definition Ns_DListAppend (d : Ns_DList) (element : V) : outcome Ns_DList :=
  d ← (if avail d =? 0 then
         let curr_cap := Ns_DListCapacity d in
         let new_cap := if NS_DLIST_MAX_ELEMENTS / 2 <? curr_cap then wrap64 (curr_cap + 1)
                        else wrap64 (curr_cap * 2) in
         Ns_DListSetCapacity d new_cap
       else Ret d);
  a ← checked (aset (data d) (size d) (Some element));
  let d := set_data d a in
  Ret (set_sizes d (wrap64 (size d + 1)) (wrap64 (avail d - 1))).

(** The index of the first cell in [i, size) that holds [element]. *)
Fixpoint find_loop (fuel : nat) (d : Ns_DList) (element : V) (i : Z) : outcome (option Z) :=
  match fuel with
  | O => Fault
  | S fuel =>
      if i <? size d then
        c ← checked (aget (data d) i);
        v ← checked c;
        if bool_decide (v = element) then Ret (Some i) else find_loop fuel d element (i + 1)
      else Ret None
  end.

Definition find_fuel (d : Ns_DList) : nat := S (Z.to_nat (size d)).

Definition Ns_DListAddUnique (d : Ns_DList) (element : V) : outcome (bool * Ns_DList) :=
  r ← find_loop (find_fuel d) d element 0;
  match r with
  | Some _ => Ret (false, d)
  | None => d ← Ns_DListAppend d element; Ret (true, d)
  end.

Definition Ns_DListDelete (d : Ns_DList) (element : V) : outcome (bool * Ns_DList) :=
  r ← find_loop (find_fuel d) d element 0;
  match r with
  | None => Ret (false, d)
  | Some i =>
      let d := if freeProc d && negb (bool_decide (element = NULL))
               then mkDList (heap d) (static_data d) (size d) (avail d) (freeProc d) (freed d ++ [element])
               else d in
      d ← (if i + 1 <? size d then
             l ← checked (aslice (data d) (i + 1) (size d - i - 1));
             a ← checked (afill (data d) i l);
             Ret (set_data d a)
           else Ret d);
      let d := set_sizes d (size d - 1) (wrap64 (avail d + 1)) in
      a ← checked (aset (data d) (size d) (Some NULL));
      Ret (true, set_data d a)
  end.

(** [copy] is the address [ns_strdup] returned; [string] is NULL or not. *)
Definition Ns_DListSaveString (d : Ns_DList) (string_is_null : bool) (copy : V) : outcome (V * Ns_DList) :=
  if string_is_null then Ret (NULL, d)
  else d ← Ns_DListAppend d copy; Ret (copy, d).

(** The elements are released with [ns_free], NULL included, then the list. *)
Fixpoint ns_free_cells (l : list (option V)) (log : list V) : outcome (list V) :=
  match l with
  | [] => Ret log
  | None :: _ => Fault
  | Some v :: l => ns_free_cells l (log ++ [v])
  end.

Definition Ns_DListFreeElements (d : Ns_DList) : outcome Ns_DList :=
  l ← checked (aslice (data d) 0 (size d));
  log ← ns_free_cells l (freed d);
  Ns_DListFree (mkDList (heap d) (static_data d) (size d) (avail d) (freeProc d) log).

End dlist.

Arguments Ns_DList : clear implicits.
Arguments Ns_DListAddUnique : simpl never.
Arguments Ns_DListDelete : simpl never.
Arguments Ns_DListAppend : simpl never.
Arguments Ns_DListSetLength : simpl never.
Arguments Ns_DListSetCapacity : simpl never.

(** ** Invariant and abstraction *)

Section spec.
Context {V : Type} `{EqDecision V} (NULL : V).
Implicit Types (d : Ns_DList V) (l : list V).

(** The list believes to have [size + avail] slots; they must exist. *)
Definition wf d : Prop :=
  length (static_data d) = 30%nat /\ 0 <= size d /\ 0 <= avail d /\
  size d + avail d <= Z.of_nat (length (data d)) /\ size d + avail d < 2 ^ 60.

Definition repr d l : Prop :=
  wf d /\ size d = Z.of_nat (length l) /\ exists s, data d = (Some <$> l) ++ s.

(** What the operations that move the storage leave alone. *)
Definition same_owner d d' : Prop := freeProc d' = freeProc d /\ freed d' = freed d.

Lemma data_set_data d a : data (set_data d a) = a.
Proof. unfold set_data, data. by destruct (heap d). Qed.

Lemma set_data_fields d a :
  size (set_data d a) = size d /\ avail (set_data d a) = avail d /\
  freeProc (set_data d a) = freeProc d /\ freed (set_data d a) = freed d /\
  (length a = length (data d) -> length (static_data (set_data d a)) = length (static_data d)).
Proof. unfold set_data, data. by destruct (heap d). Qed.

Lemma data_set_sizes d s av : data (set_sizes d s av) = data d.
Proof. done. Qed.

Lemma Capacity_wf d : wf d -> Ns_DListCapacity d = size d + avail d.
Proof. intros (_ & ? & ? & _ & ?). apply wrap64_id. lia. Qed.

Lemma move_static_spec d l :
  repr d l -> size d <= 30 ->
  exists st s, move_static d = Ret st /\ length st = 30%nat /\ st = (Some <$> l) ++ s.
Proof.
  intros [(Hst & _) [Hs [s Hd]]] Hle. unfold move_static, data in *.
  destruct (heap d) as [h|]; [|by exists (static_data d), s].
  destruct (Z.ltb_spec 0 (size d)).
  - rewrite Hd, aslice_prefix by (rewrite length_fmap; lia). cbn.
    rewrite afill_prefix by (rewrite length_fmap; lia). cbn.
    eexists _, _; split_and!; [done| |done]. rewrite length_app, length_drop, length_fmap. lia.
  - assert (l = []) as -> by (apply nil_length_inv; lia). by exists (static_data d), (static_data d).
Qed.

Lemma alloc_heap_spec d l c :
  repr d l -> size d <= c ->
  exists a s, alloc_heap d c = Ret a /\ length a = Z.to_nat c /\ a = (Some <$> l) ++ s.
Proof.
  intros [(Hst & ? & _) [Hs [s Hd]]] Hle. unfold alloc_heap, data in *. destruct (heap d) as [h|].
  - eexists _, _; split_and!; [done|rewrite length_app, length_take, length_replicate; lia|].
    rewrite Hd, take_app_ge, <- app_assoc by (rewrite length_fmap; lia). done.
  - destruct (Z.ltb_spec 0 (size d)).
    + rewrite Hd, aslice_prefix by (rewrite length_fmap; lia). cbn.
      rewrite afill_prefix by (rewrite length_fmap, length_replicate; lia). cbn.
      eexists _, _; split_and!; [done| |done]. rewrite length_app, length_drop, length_fmap, length_replicate. lia.
    + assert (l = []) as -> by (apply nil_length_inv; lia).
      eexists _, _; split_and!; [done|apply length_replicate|done].
Qed.

Lemma SetCapacity_repr d l c :
  repr d l -> 0 <= c < 2 ^ 60 ->
  exists d', Ns_DListSetCapacity d c = Ret d' /\ repr d' l /\ same_owner d d' /\
    size d' + avail d' = Z.max (Z.max c (size d)) 30.
Proof.
  intros Hr Hc. pose proof Hr as [Hw [Hs [s Hd]]]. pose proof Hw as (Hst & H0 & Ha & Hcap & Hbd).
  unfold Ns_DListSetCapacity, static_cap. rewrite Capacity_wf by done. cbv zeta.
  assert ((if (if c <? size d then size d else c) <? 30 then 30 else if c <? size d then size d else c)
    = Z.max (Z.max c (size d)) 30) as -> by (zcases; lia).
  set (nc := Z.max (Z.max c (size d)) 30). assert (nc < 2 ^ 60) by lia.
  destruct (Z.eqb_spec nc (size d + avail d)) as [E|E];
    [|destruct (Z.eqb_spec nc 30) as [E3|E3]; [destruct (Z.leb_spec (size d) 30); [|lia]|]]; cbn [andb].
  - rewrite wrap64_id by lia. replace (size d + avail d - size d) with (avail d) by lia.
    exists d. destruct d; cbn in *. split_and!; try done.
  - destruct (move_static_spec d l) as (st & s' & -> & Hl & E'); [done..|]. cbn.
    rewrite wrap64_id by lia. eexists; split_and!; [done| |done|cbn; lia].
    split; [|cbn; eauto]. split_and!; cbn; try done; try lia; try (unfold data; cbn; lia).
  - destruct (alloc_heap_spec d l nc) as (a & s' & Ea & Hl & E'); [done|lia|].
    destruct (Z.ltb_spec NS_DLIST_MAX_ELEMENTS nc) as [Hx|_]; [change NS_DLIST_MAX_ELEMENTS with (2 ^ 61 - 1) in Hx; lia|].
    unfold ns_calc_array_bytes. destruct (Z.ltb_spec SIZE_MAX (nc * 8)) as [Hx|_]; [unfold SIZE_MAX in Hx; lia|].
    destruct (Z.ltb_spec NS_MAXOBJ (nc * 8)) as [Hx|_]; [unfold NS_MAXOBJ in Hx; lia|].
    rewrite Ea. cbn. rewrite wrap64_id by lia. eexists; split_and!; [done| |done|cbn; lia].
    split; [|cbn; eauto]. split_and!; cbn; try done; try lia; try (unfold data; cbn; lia).
Qed.

Lemma set_data_repr d l l' s :
  wf d -> size d = Z.of_nat (length l') -> length ((Some <$> l') ++ s) = length (data d) ->
  data d = (Some <$> l) ++ s -> repr (set_data d ((Some <$> l') ++ s)) l'.
Proof.
  intros (H1 & H2 & H3 & H4 & H5) Hs Hl Hd.
  destruct (set_data_fields d ((Some <$> l') ++ s)) as (E1 & E2 & E3 & E4 & E5).
  split; [|split; [by rewrite E1|exists s; by rewrite data_set_data]].
  split_and!; rewrite ?E1, ?E2, ?data_set_data; try lia.
Qed.

Lemma Append_repr d l v :
  repr d l -> Z.of_nat (length l) < 2 ^ 59 ->
  exists d', Ns_DListAppend d v = Ret d' /\ repr d' (l ++ [v]) /\ same_owner d d'.
Proof.
  intros Hr Hb. pose proof Hr as [Hw [Hs _]].
  assert (exists d1, (if avail d =? 0 then
      Ns_DListSetCapacity d (if NS_DLIST_MAX_ELEMENTS / 2 <? Ns_DListCapacity d
        then wrap64 (Ns_DListCapacity d + 1) else wrap64 (Ns_DListCapacity d * 2)) else Ret d) = Ret d1 /\
      repr d1 l /\ same_owner d d1 /\ 0 < avail d1) as (d1 & E1 & Hr1 & Ho & Ha).
  { destruct (Z.eqb_spec (avail d) 0) as [E|E]; cycle 1.
    { exists d. destruct Hw as (_&_&?&_). split_and!; try done; lia. }
    rewrite Capacity_wf, E, Z.add_0_r by done.
    destruct (Z.ltb_spec (NS_DLIST_MAX_ELEMENTS / 2) (size d)) as [Hx|_]; [change (NS_DLIST_MAX_ELEMENTS / 2) with (2 ^ 60 - 1) in Hx; lia|].
    rewrite wrap64_id by lia.
    destruct (SetCapacity_repr d l (size d * 2)) as (d1 & E1 & Hr1 & Ho & Hc); [done|lia|].
    exists d1. split_and!; try done. destruct Hr1 as [_ [Hs1 _]]. lia. }
  unfold Ns_DListAppend. cbv zeta. rewrite E1. cbn. clear E1. destruct Hr1 as [Hw1 [Hs1 [s Hd]]].
  pose proof Hw1 as (Hst & _ & _ & Hcap & Hbd).
  destruct s as [|x s]; [rewrite Hd, app_nil_r, length_fmap in Hcap; lia|].
  rewrite Hs1, aset_nat by (rewrite Hd, length_app, length_fmap; cbn; lia). cbn.
  assert (<[length l := Some v]> (data d1) = (Some <$> (l ++ [v])) ++ s) as ->.
  { rewrite Hd, insert_app_r_alt by (rewrite length_fmap; lia).
    rewrite length_fmap, Nat.sub_diag, fmap_app, <- app_assoc. done. }
  destruct (set_data_fields d1 ((Some <$> (l ++ [v])) ++ s)) as (F1 & F2 & F3 & F4 & F5).
  assert (length ((Some <$> (l ++ [v])) ++ s) = length (data d1)) as Hl
    by (rewrite Hd, !length_app, !length_fmap, length_app; cbn; lia).
  eexists; split; [done|]. rewrite F1, F2, !wrap64_id by lia. split.
  - split; [|split; [cbn; rewrite length_app; cbn; lia|exists s; by rewrite data_set_sizes, data_set_data]].
    split_and!; rewrite ?data_set_sizes, ?data_set_data; cbn; try lia.
  - destruct Ho. split; cbn; congruence.
Qed.

Lemma free_cells_spec l log :
  free_cells NULL (Some <$> l) log = Ret (log ++ filter (fun v => v <> NULL) l).
Proof.
  revert log. induction l as [|v l IH]; intros log; cbn [fmap list_fmap free_cells]; [by rewrite filter_nil, app_nil_r|].
  rewrite IH. case_bool_decide.
  - by rewrite filter_cons_False by naive_solver.
  - rewrite filter_cons_True by done. by rewrite <- app_assoc.
Qed.

Lemma find_loop_spec d l v fuel (i : nat) :
  repr d l -> (i <= length l)%nat -> (length l - i < fuel)%nat -> v ∉ take i l ->
  find_loop fuel d v (Z.of_nat i) = Ret (Z.of_nat <$> (fst <$> list_find (v =.) l)).
Proof.
  intros [Hw [Hs [s Hd]]]. revert i. induction fuel as [|fuel IH]; intros i Hi Hf Hn; [lia|].
  cbn [find_loop]. destruct (Z.ltb_spec (Z.of_nat i) (size d)) as [Hlt|Hge].
  - destruct (lookup_lt_is_Some_2 l i) as [x Hx]; [lia|].
    rewrite aget_nat, Hd, lookup_app_l, list_lookup_fmap, Hx by (rewrite length_fmap; lia). cbn.
    case_bool_decide as Hxv; subst.
    + assert (list_find (v =.) l = Some (i, v)) as ->; [|done]. apply list_find_Some. split_and!; try done.
      intros j y Hy Hj ->. apply Hn, elem_of_take. eauto.
    + replace (Z.of_nat i + 1) with (Z.of_nat (S i)) by lia. apply IH; try lia.
      rewrite (take_S_r _ _ _ Hx), elem_of_app, list_elem_of_singleton. intros [?| ->]; done.
  - assert (list_find (v =.) l = None) as ->; [|done]. apply list_find_None.
    apply Forall_forall. intros x Hx ->. apply Hn. by rewrite take_ge by lia.
Qed.

Definition log_of (d : Ns_DList V) (l : list V) : list V :=
  if freeProc d then filter (fun v => v <> NULL) l else [].

Definition set_freed d log : Ns_DList V :=
  mkDList (heap d) (static_data d) (size d) (avail d) (freeProc d) log.

Lemma free_part_spec d p l q :
  data d = p ++ (Some <$> l) ++ q ->
  (if freeProc d then
     l ← checked (aslice (data d) (Z.of_nat (length p)) (Z.of_nat (length l)));
     log ← free_cells NULL l (freed d); Ret (set_freed d log)
   else Ret d) = Ret (set_freed d (freed d ++ log_of d l)).
Proof.
  intros Hd. unfold log_of. destruct (freeProc d) eqn:Ef.
  - rewrite Hd. rewrite <- (length_fmap Some l), aslice_app. cbn.
    rewrite free_cells_spec. cbn. unfold set_freed. by rewrite Ef.
  - rewrite app_nil_r. unfold set_freed. by destruct d.
Qed.

Lemma SetLength_shrink_repr d l1 l2 :
  repr d (l1 ++ l2) ->
  exists d', Ns_DListSetLength NULL d (Z.of_nat (length l1)) = Ret d' /\ repr d' l1 /\
    freeProc d' = freeProc d /\ freed d' = freed d ++ log_of d l2.
Proof.
  intros [Hw [Hs [s Hd]]]. pose proof Hw as (Hst & H0 & Ha & Hcap & Hbd).
  rewrite length_app in Hs. unfold Ns_DListSetLength.
  assert (exists d1, (if Z.of_nat (length l1) <? size d then Ns_DListFreeRange NULL d (Z.of_nat (length l1)) (size d) true
     else if Ns_DListCapacity d <? Z.of_nat (length l1) then Ns_DListSetCapacity d (Z.of_nat (length l1)) else Ret d) = Ret d1 /\
     size d1 = size d /\ avail d1 = avail d /\ freeProc d1 = freeProc d /\ freed d1 = freed d ++ log_of d l2 /\
     length (static_data d1) = 30%nat /\ length (data d1) = length (data d) /\
     exists s', data d1 = (Some <$> l1) ++ s') as (d1 & -> & S1 & A1 & P1 & F1 & St1 & L1 & s' & D1).
  { rewrite fmap_app, <- app_assoc in Hd. destruct (Z.ltb_spec (Z.of_nat (length l1)) (size d)).
    - unfold Ns_DListFreeRange. replace (size d - Z.of_nat (length l1)) with (Z.of_nat (length l2)) by lia.
      rewrite <- (length_fmap Some l1). fold (set_freed d). change (mkDList (heap d) (static_data d) (size d) (avail d) (freeProc d))
        with (set_freed d). rewrite (free_part_spec _ _ _ _ Hd). cbn [mbind outcome_bind].
      change (data (set_freed d (freed d ++ log_of d l2))) with (data d). rewrite Hd.
      rewrite afill_app by (rewrite length_replicate, length_fmap; lia). cbn.
      set (a := (Some <$> l1) ++ _ ++ _). destruct (set_data_fields (set_freed d (freed d ++ log_of d l2)) a) as (E1 & E2 & E3 & E4 & E5).
      assert (length a = length (data d)) as Hla
        by (rewrite Hd; unfold a; rewrite !length_app, length_replicate, !length_fmap; lia).
      eexists; split_and!; [done|done..| | |]; rewrite ?data_set_data.
      + by rewrite E5.
      + by rewrite <- Hd.
      + by eexists.
    - assert (l2 = []) as -> by (apply nil_length_inv; lia).
      rewrite Capacity_wf by done. destruct (Z.ltb_spec (size d + avail d) (Z.of_nat (length l1))); [lia|].
      exists d. split_and!; try done; [|by eexists]. unfold log_of. destruct (freeProc d); by rewrite app_nil_r. }
  cbn [mbind outcome_bind]. destruct (Z.ltb_spec (size d1) (Z.of_nat (length l1))); [lia|].
  rewrite andb_false_r. cbn [mbind outcome_bind]. eexists; split; [done|].
  assert (wrap64 (Ns_DListCapacity (set_sizes d1 (Z.of_nat (length l1)) (avail d1)) - Z.of_nat (length l1)) = avail d) as ->.
  { unfold Ns_DListCapacity; cbn. rewrite A1, (wrap64_id (_ + _)) by lia. rewrite wrap64_id; lia. }
  split; [|done]. split; [|split; [done|by exists s']].
  split_and!; cbn; try done; try lia. change (data (set_sizes _ _ _)) with (data d1). lia.
Qed.

Lemma AddUnique_repr d l v :
  repr d l -> Z.of_nat (length l) < 2 ^ 59 ->
  exists d', Ns_DListAddUnique d v = Ret (bool_decide (v ∉ l), d') /\ same_owner d d' /\
    repr d' (if decide (v ∈ l) then l else l ++ [v]).
Proof.
  intros Hr Hb. pose proof Hr as [_ [Hs _]]. unfold Ns_DListAddUnique, find_fuel.
  rewrite (find_loop_spec d l v _ 0) by (done || lia || apply not_elem_of_nil).
  destruct (list_find (v =.) l) as [[i x]|] eqn:E; cbn.
  - apply list_find_Some in E as (Hx & <- & _). apply list_elem_of_lookup_2 in Hx.
    rewrite bool_decide_eq_false_2, decide_True by naive_solver. by exists d.
  - apply list_find_None in E. assert (v ∉ l) by (intros ?; rewrite Forall_forall in E; by eapply E).
    rewrite bool_decide_eq_true_2, decide_False by done.
    destruct (Append_repr d l v) as (d' & -> & ? & ?); [done..|]. by exists d'.
Qed.

Lemma Delete_absent d l v : repr d l -> v ∉ l -> Ns_DListDelete NULL d v = Ret (false, d).
Proof.
  intros Hr Hn. pose proof Hr as [_ [Hs _]]. unfold Ns_DListDelete, find_fuel.
  rewrite (find_loop_spec d l v _ 0) by (done || lia || apply not_elem_of_nil).
  destruct (list_find (v =.) l) as [[i x]|] eqn:E; [|done].
  apply list_find_Some in E as (Hx & <- & _). by apply list_elem_of_lookup_2 in Hx.
Qed.

(** The element that leaves the list, if the list owns it. *)
Lemma free_one d v :
  (if freeProc d && negb (bool_decide (v = NULL)) then set_freed d (freed d ++ [v]) else d) = set_freed d (freed d ++ log_of d [v]).
Proof.
  unfold log_of, set_freed. destruct (freeProc d) eqn:Ef; cbn [andb]; [|by rewrite app_nil_r; destruct d; cbn in *; subst].
  case_bool_decide; cbn [negb].
  - rewrite filter_cons_False, filter_nil, app_nil_r by naive_solver. destruct d; cbn in *; by subst.
  - by rewrite filter_cons_True, filter_nil.
Qed.

(** The [memmove] that closes the gap. *)
Lemma compact_spec d l1 v l2 s :
  data d = (Some <$> l1) ++ Some v :: (Some <$> l2) ++ s -> size d = Z.of_nat (length l1 + S (length l2)) ->
  exists a s', (if Z.of_nat (length l1) + 1 <? size d then
       l ← checked (aslice (data d) (Z.of_nat (length l1) + 1) (size d - Z.of_nat (length l1) - 1));
       a ← checked (afill (data d) (Z.of_nat (length l1)) l); Ret (set_data d a)
     else Ret d) = Ret (set_data d a) /\ a = (Some <$> (l1 ++ l2)) ++ s' /\ length s' = S (length s).
Proof.
  intros Hd Hs. destruct (Z.ltb_spec (Z.of_nat (length l1) + 1) (size d)).
  - assert (aslice (data d) (Z.of_nat (length l1) + 1) (size d - Z.of_nat (length l1) - 1) = Some (Some <$> l2)) as ->.
    { rewrite Hd. pose proof (aslice_app ((Some <$> l1) ++ [Some v]) (Some <$> l2) s) as E.
      rewrite <- app_assoc, length_app, !length_fmap in E. cbn in E. rewrite <- E. f_equal; lia. }
    cbn. rewrite Hd, <- (length_fmap Some l1), afill_at by (cbn; rewrite length_app, length_fmap; lia).
    cbn. eexists _, _. rewrite fmap_app, <- app_assoc. split_and!; [done..|].
    rewrite length_drop; cbn. rewrite length_app, length_fmap. lia.
  - assert (l2 = []) as -> by (apply nil_length_inv; lia).
    exists (data d), (Some v :: s). rewrite app_nil_r. split_and!; [|done|done].
    f_equal. unfold set_data, data. by destruct d as [[]].
Qed.

Lemma Delete_repr d l1 v l2 :
  repr d (l1 ++ v :: l2) -> v ∉ l1 ->
  exists d', Ns_DListDelete NULL d v = Ret (true, d') /\ repr d' (l1 ++ l2) /\
    freeProc d' = freeProc d /\ freed d' = freed d ++ log_of d [v].
Proof.
  intros Hr Hn. pose proof Hr as [Hw [Hs [s Hd]]]. pose proof Hw as (Hst & H0 & Ha & Hcap & Hbd).
  unfold Ns_DListDelete, find_fuel.
  rewrite (find_loop_spec d _ v _ 0) by (done || lia || apply not_elem_of_nil).
  assert (list_find (v =.) (l1 ++ v :: l2) = Some (length l1, v)) as ->.
  { apply list_find_Some. split_and!; [by apply list_lookup_middle|done|].
    intros j y Hy Hj ->. apply Hn. rewrite lookup_app_l in Hy by done. by eapply list_elem_of_lookup_2. }
  cbn [fmap option_fmap option_map fst mbind outcome_bind].
  rewrite length_app in Hs. cbn in Hs. rewrite fmap_app, fmap_cons, <- app_assoc in Hd. cbn in Hd.
  rewrite free_one. set (d0 := set_freed d _).
  destruct (compact_spec d0 l1 v l2 s) as (a & s' & -> & Ea & Hs'); [done|cbn; lia|].
  destruct s' as [|y s']; [done|]. cbn [mbind outcome_bind].
  destruct (set_data_fields d0 a) as (E1 & E2 & E3 & E4 & E5).
  assert (length a = length (data d)) as Hla
    by (rewrite Ea, Hd; lens).
  rewrite E1, E2. change (data (set_sizes ?x _ _)) with (data x). rewrite data_set_data.
  cbn [size set_sizes]. change (size d0) with (size d). change (avail d0) with (avail d).
  replace (size d - 1) with (Z.of_nat (length (l1 ++ l2))) by (rewrite length_app; lia).
  rewrite aset_nat by (rewrite Ea; lens). cbn [checked mbind outcome_bind].
  rewrite Ea, insert_app_r_alt, length_fmap, Nat.sub_diag by (rewrite length_fmap; lia).
  cbn [insert list_insert]. rewrite (wrap64_id (avail d + 1)) by lia. eexists; split; [done|].
  set (d1 := set_sizes _ _ _). set (a1 := (Some <$> _) ++ Some NULL :: s').
  assert (length a1 = length (data d1)) as Hl1 by (unfold a1, d1; rewrite data_set_sizes, data_set_data; lens).
  destruct (set_data_fields d1 a1) as (G1 & G2 & G3 & G4 & G5).
  rewrite G3, G4. split; [|cbn; rewrite <- Ea; by rewrite E3, E4].
  split; [|split; [by rewrite G1|by eexists; rewrite data_set_data]].
  split_and!; rewrite ?G1, ?G2, ?data_set_data, ?G5 by done; cbn; try (rewrite ?length_app; lia).
  + rewrite <- Ea. rewrite E5 by done. done.
  + unfold a1 in *. rewrite Hl1. unfold d1. rewrite data_set_sizes, data_set_data, <- Ea, length_app. lia.
Qed.
End spec.

(** ** Refinement: a list of elements that owns them or not *)

Module plain.
Inductive op (V : Type) :=
| Append (v : V) | AddUnique (v : V) | Delete (v : V) | SetLength (k : nat) | SetCapacity (c : Z).
Arguments Append {V} _.
Arguments AddUnique {V} _.
Arguments Delete {V} _.
Arguments SetLength {V} _.
Arguments SetCapacity {V} _.

(** The elements and the ones given to the free procedure so far. *)
Definition state (V : Type) : Type := list V * list V.

Section step.
Context {V : Type} `{EqDecision V} (NULL : V) (owning : bool).

Definition drop_elems (l : list V) : list V :=
  if owning then filter (fun v => v <> NULL) l else [].

(** [None]: the list is asked to grow by [SetLength]. *)
Definition step (s : state V) (o : op V) : option (state V) :=
  let '(l, log) := s in
  match o with
  | Append v => Some (l ++ [v], log)
  | AddUnique v => Some (if decide (v ∈ l) then l else l ++ [v], log)
  | Delete v =>
      match list_find (v =.) l with
      | Some (i, _) => Some (delete i l, log ++ drop_elems [v])
      | None => Some (l, log)
      end
  | SetLength k =>
      if decide (k <= length l)%nat then Some (take k l, log ++ drop_elems (drop k l)) else None
  | SetCapacity _ => Some (l, log)
  end.

Fixpoint run (s : state V) (ops : list (op V)) : option (state V) :=
  match ops with
  | [] => Some s
  | o :: ops => s' ← step s o; run s' ops
  end.
End step.
End plain.

Section refinement.
Context {V : Type} `{EqDecision V} (NULL : V).
Implicit Types (d : Ns_DList V) (l log : list V).

Definition dlist_step d (o : plain.op V) : outcome (Ns_DList V) :=
  match o with
  | plain.Append v => Ns_DListAppend d v
  | plain.AddUnique v => r ← Ns_DListAddUnique d v; Ret r.2
  | plain.Delete v => r ← Ns_DListDelete NULL d v; Ret r.2
  | plain.SetLength k => Ns_DListSetLength NULL d (Z.of_nat k)
  | plain.SetCapacity c => Ns_DListSetCapacity d c
  end.

Fixpoint dlist_run d (ops : list (plain.op V)) : outcome (Ns_DList V) :=
  match ops with
  | [] => Ret d
  | o :: ops => d' ← dlist_step d o; dlist_run d' ops
  end.

Definition refines d (owning : bool) (s : plain.state V) : Prop :=
  repr d s.1 /\ freeProc d = owning /\ freed d = s.2.

Definition small (o : plain.op V) : Prop :=
  match o with plain.SetCapacity c => 0 <= c < 2 ^ 60 | _ => True end.

Lemma step_length owning s o s' :
  plain.step NULL owning s o = Some s' -> (length s'.1 <= S (length s.1))%nat.
Proof.
  destruct s as [l log], o as [v|v|v|k|c]; cbn; intros; simplify_option_eq;
    repeat case_match; simplify_eq; cbn; try lens.
  rewrite delete_take_drop. lens.
Qed.

Lemma dlist_step_refines d owning s o s' :
  refines d owning s -> plain.step NULL owning s o = Some s' -> small o ->
  Z.of_nat (length s.1) < 2 ^ 59 ->
  exists d', dlist_step d o = Ret d' /\ refines d' owning s'.
Proof.
  destruct s as [l log]. intros (Hr & Ho & Hl) Hs Hsm Hb; cbn in *.
  assert (forall x, log_of NULL d x = plain.drop_elems NULL owning x) as Hlog by (intros; unfold log_of, plain.drop_elems; by rewrite Ho).
  destruct o as [v|v|v|k|c]; cbn in *; simplify_eq.
  - destruct (Append_repr d l v) as (d' & -> & ? & [? ?]); [done..|]. exists d'. split; [done|].
    split_and!; cbn; congruence.
  - destruct (AddUnique_repr d l v) as (d' & -> & [? ?] & ?); [done..|]. exists d'. split; [done|].
    split_and!; cbn; congruence.
  - destruct (list_find (v =.) l) as [[i x]|] eqn:E; simplify_eq.
    + apply list_find_Some in E as (Hx & <- & Hj).
      assert (v ∉ take i l) by (intros (j & Hy & ?)%elem_of_take; eapply Hj; eauto).
      rewrite <- (take_drop_middle _ _ _ Hx) in Hr.
      destruct (Delete_repr NULL d (take i l) v (drop (S i) l)) as (d' & -> & ? & ? & Hfd); [done..|].
      cbn. exists d'. split; [done|]. split_and!; cbn; [by rewrite delete_take_drop|congruence|by rewrite Hfd, Hlog].
    + apply list_find_None in E. rewrite (Delete_absent NULL d l v); [|done|].
      * cbn. exists d. done.
      * intros ?. rewrite Forall_forall in E. by eapply E.
  - case_decide; simplify_eq.
    rewrite <- (take_drop k l) in Hr at 1.
    destruct (SetLength_shrink_repr NULL d (take k l) (drop k l)) as (d' & E & ? & ? & ?); [done|].
    rewrite length_take, Nat.min_l in E by lia. exists d'. split; [done|]. split_and!; cbn; congruence.
  - destruct (SetCapacity_repr d l c) as (d' & -> & ? & [? ?] & _); [done..|]. exists d'. split; [done|].
    split_and!; cbn; congruence.
Qed.

Lemma dlist_run_refines d owning s ops s' :
  refines d owning s -> plain.run NULL owning s ops = Some s' -> Forall small ops ->
  Z.of_nat (length s.1 + length ops) < 2 ^ 59 ->
  exists d', dlist_run d ops = Ret d' /\ refines d' owning s'.
Proof.
  intros Hr Hrun Hsm. revert d s Hr Hrun. induction Hsm as [|o ops Ho Hops IH]; intros d s Hr Hrun Hb; cbn in *.
  { simplify_eq. eauto. }
  destruct (plain.step NULL owning s o) as [s1|] eqn:E; cbn in Hrun; [|done].
  pose proof (step_length _ _ _ _ E).
  destruct (dlist_step_refines d owning s o s1) as (d1 & -> & Hr1); [done..|lia|]. cbn.
  eapply IH; [done..|]. lia.
Qed.

(** A list as [Ns_DListInit] and [Ns_DListSetFreeProc] leave it; the static
    buffer is indeterminate. *)
Definition fresh (owning : bool) : Ns_DList V :=
  Ns_DListSetFreeProc (Ns_DListInit (mkDList None (replicate 30 None) 0 0 false [])) owning.

Lemma fresh_refines owning : refines (fresh owning) owning ([], []).
Proof. split; [|done]. split; [|split; [done|by eexists]]. by split_and!. Qed.

(** Every sequence of appends, unique additions, deletions, capacity changes and
    shrinking length changes of a fresh list runs without an access outside of the
    list's storage, and yields the elements and the sequence of freed elements of
    the abstract list. *)
Theorem DList_refines_list owning ops l log :
  plain.run NULL owning ([], []) ops = Some (l, log) -> Forall small ops -> Z.of_nat (length ops) < 2 ^ 59 ->
  exists d, dlist_run (fresh owning) ops = Ret d /\ repr d l /\ freed d = log.
Proof.
  intros Hrun Hsm Hb.
  destruct (dlist_run_refines (fresh owning) owning ([], []) ops (l, log)) as (d & ? & ? & _ & ?);
    [apply fresh_refines|done..|]. by exists d.
Qed.

(** [Ns_DListFree] of an owning list frees every element that is not NULL exactly
    once, in order, and leaves an empty list without free procedure. *)
Theorem DListFree_spec d l :
  repr d l -> freeProc d = true ->
  exists d', Ns_DListFree NULL d = Ret d' /\ repr d' [] /\ freeProc d' = false /\
    freed d' = freed d ++ filter (fun v => v <> NULL) l.
Proof.
  intros [Hw [Hs [s Hd]]] Ho. unfold Ns_DListFree, Ns_DListFreeRange. rewrite Ho, Z.sub_0_r, Hs.
  rewrite Hd, aslice_prefix by lens. cbn [checked mbind outcome_bind].
  rewrite free_cells_spec. cbn. eexists; split; [done|]. split; [|done].
  destruct Hw as (Hst & _). split; [|split; [done|by eexists]].
  split_and!; cbn; unfold data, static_cap; cbn; try done; lia.
Qed.

Lemma append_in_place d v :
  0 < avail d < 2 ^ 60 -> 0 <= size d < 2 ^ 60 ->
  Ns_DListAppend d v =
    match aset (data d) (size d) (Some v) with
    | Some a => Ret (set_sizes (set_data d a) (size d + 1) (avail d - 1))
    | None => Fault
    end.
Proof.
  intros Ha Hs. unfold Ns_DListAppend. destruct (Z.eqb_spec (avail d) 0); [lia|]. cbn.
  destruct (aset _ _ _) as [a|]; [|done]. cbn.
  destruct (set_data_fields d a) as (-> & -> & _). by rewrite !wrap64_id by lia.
Qed.

Lemma overstated_faults d v k :
  0 <= size d -> Z.of_nat (length (data d)) - size d = Z.of_nat k -> Z.of_nat k < avail d ->
  size d + avail d < 2 ^ 60 ->
  dlist_run d (replicate (S k) (plain.Append v)) = Fault.
Proof.
  revert d. induction k as [|k IH]; intros d Hs Hk Ha Hb; cbn [replicate dlist_run dlist_step].
  - rewrite append_in_place by lia. by rewrite aset_None by lia.
  - rewrite append_in_place by lia.
    replace (size d) with (Z.of_nat (Z.to_nat (size d))) at 1 by lia. rewrite aset_nat by lia. cbn [mbind outcome_bind].
    set (a := <[_ := _]> (data d)). assert (length a = length (data d)) as Hla by (unfold a; lens).
    destruct (set_data_fields d a) as (E1 & E2 & _).
    apply IH; rewrite ?data_set_sizes, ?data_set_data; cbn; try lia.
Qed.

(** Growing a list with [Ns_DListSetLength] corrupts it.  The capacity is read
    after [size] was changed, so [avail] keeps its old value and the list believes
    to have [new_size + avail] slots: as many appends as there are slots left,
    and one more, write behind the end of the storage. *)
Theorem SetLength_grow_overflows d l (new_size : nat) v :
  repr d l -> size d + avail d = Z.of_nat (length (data d)) ->
  (length l < new_size)%nat -> Z.of_nat new_size <= Z.of_nat (length (data d)) -> Z.of_nat (length (data d)) < 2 ^ 59 ->
  exists d', Ns_DListSetLength NULL d (Z.of_nat new_size) = Ret d' /\
    avail d' = avail d /\ length (data d') = length (data d) /\
    dlist_run d' (replicate (S (length (data d) - new_size)) (plain.Append v)) = Fault.
Proof.
  intros [Hw [Hs [s Hd]]] Hex Hlt Hle Hb. pose proof Hw as (Hst & H0 & Ha & Hcap & Hbd).
  unfold Ns_DListSetLength. destruct (Z.ltb_spec (Z.of_nat new_size) (size d)); [lia|].
  rewrite Capacity_wf by done. destruct (Z.ltb_spec (size d + avail d) (Z.of_nat new_size)); [lia|].
  cbn [mbind outcome_bind].
  assert (exists d1, (if freeProc d && (size d <? Z.of_nat new_size) then
      a ← checked (afill (data d) (size d) (replicate (Z.to_nat (Z.of_nat new_size - size d)) (Some NULL)));
      Ret (set_data d a) else Ret d) = Ret d1 /\ size d1 = size d /\ avail d1 = avail d /\
      length (data d1) = length (data d)) as (d1 & -> & S1 & A1 & L1).
  { destruct (freeProc d); cbn [andb]; [|by exists d]. destruct (Z.ltb_spec (size d) (Z.of_nat new_size)); [|by exists d].
    assert (length s = (length (data d) - length l)%nat) by (rewrite Hd; lens).
    rewrite Hd, Hs, <- (length_fmap Some l), afill_at by (rewrite length_fmap; lens). cbn.
    set (a := _ ++ _). destruct (set_data_fields d a) as (E1 & E2 & _). exists (set_data d a).
    rewrite data_set_data. split_and!; [done|by rewrite E1, Hs, length_fmap|done|]. unfold a. lens. }
  cbn [mbind outcome_bind]. eexists; split; [done|].
  assert (wrap64 (Ns_DListCapacity (set_sizes d1 (Z.of_nat new_size) (avail d1)) - Z.of_nat new_size) = avail d) as ->.
  { unfold Ns_DListCapacity; cbn. rewrite A1, (wrap64_id (_ + _)) by lia. rewrite wrap64_id; lia. }
  split_and!; [done|done|]. apply overstated_faults; rewrite ?data_set_sizes; cbn; lia.
Qed.

(** [Ns_DListFreeElements] on a list that has a free procedure releases every
    element twice: once with [ns_free], once through [Ns_DListFree]. *)
Theorem FreeElements_double_free d l :
  repr d l -> freeProc d = true -> NULL ∉ l ->
  exists d', Ns_DListFreeElements NULL d = Ret d' /\ freed d' = freed d ++ l ++ l.
Proof.
  intros [Hw [Hs [s Hd]]] Ho Hn. unfold Ns_DListFreeElements. rewrite Hs, Hd, aslice_prefix by lens.
  assert (forall l log, ns_free_cells (Some <$> l) log = Ret (log ++ l)) as Hf.
  { clear. induction l as [|v l IH]; intros log; cbn; [by rewrite app_nil_r|]. by rewrite IH, <- app_assoc. }
  cbn [checked mbind outcome_bind]. rewrite Hf. cbn [mbind outcome_bind].
  unfold Ns_DListFree, Ns_DListFreeRange. cbn [freeProc size freed]. rewrite Ho, Z.sub_0_r, <- Hs.
  change (data (mkDList (heap d) (static_data d) (size d) (avail d) true (freed d ++ l))) with (data d).
  rewrite Hd, aslice_prefix by lens. cbn [checked mbind outcome_bind].
  rewrite free_cells_spec. cbn. eexists; split; [done|]. cbn. rewrite <- app_assoc. do 2 f_equal.
  clear -Hn. induction l as [|v l IH]; [done|]. apply not_elem_of_cons in Hn as [? ?].
  rewrite filter_cons_True by congruence. by f_equal; apply IH.
Qed.
End refinement.

(** ** Witnesses: lists of integers, 0 as NULL. *)

Lemma DList_refines_list_witness :
  exists d, dlist_run 0 (fresh true)
    [plain.Append 5; plain.Append 7; plain.AddUnique 5; plain.Delete 5; plain.SetCapacity 100; plain.Append 9; plain.SetLength 1]
    = Ret d /\ repr d [7] /\ freed d = [5; 9].
Proof.
  apply (DList_refines_list 0 true
    [plain.Append 5; plain.Append 7; plain.AddUnique 5; plain.Delete 5; plain.SetCapacity 100; plain.Append 9; plain.SetLength 1]);
    [vm_compute; reflexivity| |vm_compute; reflexivity].
  repeat constructor; vm_compute; discriminate.
Defined.

Definition owned : Ns_DList Z :=
  mkDList None ([Some 5; Some 0; Some 7] ++ replicate 27 None) 3 27 true [].

Lemma owned_repr : repr owned [5; 0; 7].
Proof. split; [by split_and!|]. split; [done|]. by eexists. Qed.

Lemma DListFree_spec_witness :
  exists d', Ns_DListFree 0 owned = Ret d' /\ repr d' [] /\ freeProc d' = false /\ freed d' = [5; 7].
Proof.
  destruct (DListFree_spec 0 owned [5; 0; 7] owned_repr) as (d' & ? & ? & ? & E); [reflexivity|].
  exists d'. split_and!; [assumption..|]. rewrite E. vm_compute. reflexivity.
Defined.

Lemma SetLength_grow_overflows_witness :
  exists d', Ns_DListSetLength 0 (fresh false) (Z.of_nat 10) = Ret d' /\
    dlist_run 0 d' (replicate 21 (plain.Append 5)) = Fault.
Proof.
  destruct (SetLength_grow_overflows 0 (fresh false) [] 10 5) as (d' & E & _ & _ & F);
    [apply (fresh_refines false)|reflexivity|vm_compute; lia|vm_compute; discriminate|vm_compute; reflexivity|].
  exists d'. split; [exact E|exact F].
Defined.

Lemma FreeElements_double_free_witness :
  exists d', Ns_DListFreeElements 0 (mkDList None ([Some 5] ++ replicate 29 None) 1 29 true []) = Ret d' /\ freed d' = [5; 5].
Proof.
  apply (FreeElements_double_free 0 (mkDList None ([Some 5] ++ replicate 29 None) 1 29 true []) [5]).
  - split; [by split_and!|]. split; [done|]. by eexists.
  - reflexivity.
  - by intros ?%list_elem_of_singleton.
Defined.
