(* ===== verification/Base64.v ===== *)
(** * Base64: the base64 and base64url codec of nsd/uuencode.c.

    [Ns_Base64Encode] turns bytes into text, in lines of at most [maxLineLength]
    characters when that is positive; [Ns_HtuuDecode2] reads the text back,
    skipping white space.  The output of a function is the list of the bytes it
    stores before the terminating NUL; the value it returns is the length. *)

From S2P Require Import Prelude.

Definition six2pr : list Z :=
  bytes "ABCDEFGHIJKLMNOPQRSTUVWXYZabcdefghijklmnopqrstuvwxyz0123456789+/".

Definition six2pr_url : list Z :=
  bytes "ABCDEFGHIJKLMNOPQRSTUVWXYZabcdefghijklmnopqrstuvwxyz0123456789-_".

Definition pr2six : list Z := [
   -1; -1; -1; -1; -1; -1; -1; -1; -1; -1; -1; -1; -1; -1; -1; -1;
   -1; -1; -1; -1; -1; -1; -1; -1; -1; -1; -1; -1; -1; -1; -1; -1;
   -1; -1; -1; -1; -1; -1; -1; -1; -1; -1; -1; 62; -1; -1; -1; 63;
   52; 53; 54; 55; 56; 57; 58; 59; 60; 61; -1; -1; -1; -1; -1; -1;
   -1; 0; 1; 2; 3; 4; 5; 6; 7; 8; 9; 10; 11; 12; 13; 14;
   15; 16; 17; 18; 19; 20; 21; 22; 23; 24; 25; -1; -1; -1; -1; -1;
   -1; 26; 27; 28; 29; 30; 31; 32; 33; 34; 35; 36; 37; 38; 39; 40;
   41; 42; 43; 44; 45; 46; 47; 48; 49; 50; 51; -1; -1; -1; -1; -1;
   -1; -1; -1; -1; -1; -1; -1; -1; -1; -1; -1; -1; -1; -1; -1; -1;
   -1; -1; -1; -1; -1; -1; -1; -1; -1; -1; -1; -1; -1; -1; -1; -1;
   -1; -1; -1; -1; -1; -1; -1; -1; -1; -1; -1; -1; -1; -1; -1; -1;
   -1; -1; -1; -1; -1; -1; -1; -1; -1; -1; -1; -1; -1; -1; -1; -1;
   -1; -1; -1; -1; -1; -1; -1; -1; -1; -1; -1; -1; -1; -1; -1; -1;
   -1; -1; -1; -1; -1; -1; -1; -1; -1; -1; -1; -1; -1; -1; -1; -1;
   -1; -1; -1; -1; -1; -1; -1; -1; -1; -1; -1; -1; -1; -1; -1; -1;
   -1; -1; -1; -1; -1; -1; -1; -1; -1; -1; -1; -1; -1; -1; -1; -1].

Definition pr2six_url : list Z := [
   -1; -1; -1; -1; -1; -1; -1; -1; -1; -1; -1; -1; -1; -1; -1; -1;
   -1; -1; -1; -1; -1; -1; -1; -1; -1; -1; -1; -1; -1; -1; -1; -1;
   -1; -1; -1; -1; -1; -1; -1; -1; -1; -1; -1; -1; -1; 62; -1; -1;
   52; 53; 54; 55; 56; 57; 58; 59; 60; 61; -1; -1; -1; -1; -1; -1;
   -1; 0; 1; 2; 3; 4; 5; 6; 7; 8; 9; 10; 11; 12; 13; 14;
   15; 16; 17; 18; 19; 20; 21; 22; 23; 24; 25; -1; -1; -1; -1; 63;
   -1; 26; 27; 28; 29; 30; 31; 32; 33; 34; 35; 36; 37; 38; 39; 40;
   41; 42; 43; 44; 45; 46; 47; 48; 49; 50; 51; -1; -1; -1; -1; -1;
   -1; -1; -1; -1; -1; -1; -1; -1; -1; -1; -1; -1; -1; -1; -1; -1;
   -1; -1; -1; -1; -1; -1; -1; -1; -1; -1; -1; -1; -1; -1; -1; -1;
   -1; -1; -1; -1; -1; -1; -1; -1; -1; -1; -1; -1; -1; -1; -1; -1;
   -1; -1; -1; -1; -1; -1; -1; -1; -1; -1; -1; -1; -1; -1; -1; -1;
   -1; -1; -1; -1; -1; -1; -1; -1; -1; -1; -1; -1; -1; -1; -1; -1;
   -1; -1; -1; -1; -1; -1; -1; -1; -1; -1; -1; -1; -1; -1; -1; -1;
   -1; -1; -1; -1; -1; -1; -1; -1; -1; -1; -1; -1; -1; -1; -1; -1;
   -1; -1; -1; -1; -1; -1; -1; -1; -1; -1; -1; -1; -1; -1; -1; -1].

(** [Encode(table, c)] and [Decode(table, c)]. *)
Definition Encode (table : list Z) (c : Z) : Z := UCHAR (nth (Z.to_nat c) table 0).
Definition Decode (table : list Z) (c : Z) : Z := UCHAR (nth (Z.to_nat c) table (-1)).

Definition encode_table (encoding : Z) : list Z := if encoding =? 0 then six2pr else six2pr_url.
Definition decode_table (encoding : Z) : list Z := if encoding =? 0 then pr2six else pr2six_url.

(** The four 6-bit groups of three bytes. *)
Definition sextets (a b c : Z) : list Z :=
  [Z.shiftr a 2;
   Z.lor (Z.land (UCHAR (Z.shiftl a 4)) 0x30) (Z.land (Z.shiftr b 4) 0x0F);
   Z.lor (Z.land (UCHAR (Z.shiftl b 2)) 0x3C) (Z.land (Z.shiftr c 6) 0x03);
   Z.land c 0x3F].

(** The main loop, followed by the conversion of the remaining bytes. *)
Fixpoint encode_loop (encoding maxLineLength lineLength : Z) (p : list Z) : list Z :=
  let table := encode_table encoding in
  match p with
  | a :: b :: c :: p =>
      let wrap := (0 <? maxLineLength) && (maxLineLength <=? lineLength) in
      (if wrap then [10] else []) ++ (Encode table <$> sextets a b c) ++
      encode_loop encoding maxLineLength ((if wrap then 0 else lineLength) + 4) p
  | [a; b] =>
      (Encode table <$> [Z.shiftr a 2;
         Z.lor (Z.land (UCHAR (Z.shiftl a 4)) 0x30) (Z.land (Z.shiftr b 4) 0x0F);
         Z.land (UCHAR (Z.shiftl b 2)) 0x3C]) ++
      (if encoding =? 0 then [61] else [])
  | [a] =>
      (Encode table <$> [Z.shiftr a 2; Z.land (UCHAR (Z.shiftl a 4)) 0x30]) ++
      (if encoding =? 0 then [61] else []) ++ (if encoding =? 0 then [61] else [])
  | [] => []
  end.

Definition Ns_Base64Encode (input : list Z) (maxLineLength encoding : Z) : list Z :=
  encode_loop encoding maxLineLength 0 input.

Definition Ns_HtuuEncode2 (input : list Z) (encoding : Z) : list Z :=
  if encoding =? 0 then Ns_Base64Encode input 60 encoding else Ns_Base64Encode input 0 encoding.

Definition Ns_HtuuEncode (input : list Z) : list Z := Ns_Base64Encode input 60 0.

(** The bytes made of four, three and two characters. *)
Definition out0 (t : list Z) (c0 c1 : Z) : Z := Z.lor (UCHAR (Z.shiftl (Decode t c0) 2)) (Z.shiftr (Decode t c1) 4).
Definition out1 (t : list Z) (c1 c2 : Z) : Z := Z.lor (UCHAR (Z.shiftl (Decode t c1) 4)) (Z.shiftr (Decode t c2) 2).
Definition out2 (t : list Z) (c2 c3 : Z) : Z := Z.lor (UCHAR (Z.shiftl (Decode t c2) 6)) (Decode t c3).

(** [while ( *input == ' ' || *input == '\t') ++input;] *)
Fixpoint skip_blanks (p : list Z) : list Z :=
  match p with
  | c :: p' => if (c =? 32) || (c =? 9) then skip_blanks p' else p
  | [] => []
  end.

(** The decoding loop: [chars] holds the [n] pending characters, [ok] is
    [result == TCL_OK]. *)
Fixpoint decode_loop (t : list Z) (strict : bool) (p chars q : list Z) (ok : bool) : list Z * list Z * bool :=
  match p with
  | [] => (chars, q, ok)
  | c :: p =>
      if c =? 0 then (chars, q, ok)
      else if negb (nth (Z.to_nat c) t (-1) =? -1) then
        match chars with
        | [c0; c1; c2] => decode_loop t strict p [] (q ++ [out0 t c0 c1; out1 t c1 c2; out2 t c2 c]) ok
        | _ => decode_loop t strict p (chars ++ [c]) q ok
        end
      else if negb (isspace c) && negb (c =? 61) then
        decode_loop t strict p chars q (if strict then false else ok)
      else decode_loop t strict p chars q ok
  end.

(** The status and the bytes stored in [buf]. *)
Definition Ns_HtuuDecode2 (input : list Z) (encoding : Z) (strict : bool) : bool * list Z :=
  let t := decode_table encoding in
  let '(chars, q, ok) := decode_loop t strict (skip_blanks input) [] [] true in
  match chars with
  | [_] => (if strict then false else ok, q)
  | [c0; c1] => (ok, q ++ [out0 t c0 c1])
  | [c0; c1; c2] => (ok, q ++ [out0 t c0 c1] ++ [out1 t c1 c2])
  | _ => (ok, q)
  end.

Definition Ns_HtuuDecode (input : list Z) : list Z :=
  let '(ok, q) := Ns_HtuuDecode2 input 0 false in if ok then q else [].

(** ** Lemmas *)

Definition is_sextet (i : Z) : Prop := 0 <= i < 64.

Lemma sextet_high i k : is_sextet i -> 6 <= k -> Z.testbit i k = false.
Proof.
  intros [? ?] ?. destruct (decide (i = 0)) as [->|]; [apply Z.bits_0|].
  apply Z.bits_above_log2; [lia|]. apply Z.lt_le_trans with 6; [|done]. apply Z.log2_lt_pow2; lia.
Qed.

Lemma sextet_of_bits i : 0 <= i -> (forall k, 6 <= k -> Z.testbit i k = false) -> is_sextet i.
Proof.
  intros Hi Hb. split; [done|]. destruct (decide (i = 0)) as [->|]; [lia|].
  apply (Z.log2_lt_pow2 _ 6); [lia|]. apply Z.nle_gt. intros Hl.
  specialize (Hb _ Hl). rewrite Z.bit_log2 in Hb by lia. done.
Qed.

Lemma land_sextet a i : is_sextet i -> is_sextet (Z.land a i).
Proof.
  intros Hi. apply sextet_of_bits; [apply Z.land_nonneg; right; apply Hi|].
  intros k Hk. rewrite Z.land_spec, (sextet_high i) by done. apply andb_false_r.
Qed.

Lemma lor_sextet i j : is_sextet i -> is_sextet j -> is_sextet (Z.lor i j).
Proof.
  intros Hi Hj. apply sextet_of_bits; [apply Z.lor_nonneg; split; [apply Hi|apply Hj]|].
  intros k Hk. by rewrite Z.lor_spec, !sextet_high.
Qed.

Lemma shiftr2_sextet a : is_byte a -> is_sextet (Z.shiftr a 2).
Proof.
  intros [? ?]. rewrite Z.shiftr_div_pow2 by lia. change (2 ^ 2) with 4. unfold is_sextet.
  Z.div_mod_to_equations; lia.
Qed.

Lemma sextets_range a b c : is_byte a -> Forall is_sextet (sextets a b c).
Proof.
  intros Ha. unfold sextets. repeat apply Forall_cons_2; [by apply shiftr2_sextet|..|apply Forall_nil_2];
    repeat first [apply lor_sextet | apply land_sextet; unfold is_sextet; lia].
Qed.

(** The two tables of an encoding are inverse to each other, and no character
    of the alphabet is a NUL, a blank or a tab. *)
Lemma tables_inverse encoding i :
  is_sextet i ->
  let c := Encode (encode_table encoding) i in
  nth (Z.to_nat c) (decode_table encoding) (-1) = i /\ c <> 0 /\ c <> 32 /\ c <> 9.
Proof.
  intros Hi. unfold encode_table, decode_table.
  assert (forall e d, forallb (fun i => let c := Encode e i in
      (nth (Z.to_nat c) d (-1) =? i) && negb (c =? 0) && negb (c =? 32) && negb (c =? 9)) (seqZ 0 64) = true ->
    let c := Encode e i in nth (Z.to_nat c) d (-1) = i /\ c <> 0 /\ c <> 32 /\ c <> 9) as Hall.
  { intros e d Hf. rewrite forallb_forall in Hf. specialize (Hf i).
    rewrite <- list_elem_of_In, elem_of_seqZ in Hf. specialize (Hf ltac:(unfold is_sextet in *; lia)).
    cbv zeta in *. rewrite !andb_true_iff, !negb_true_iff, !Z.eqb_neq, Z.eqb_eq in Hf. tauto. }
  destruct (encoding =? 0); apply Hall; vm_compute; reflexivity.
Qed.

Section decode.
Context (encoding : Z) (strict : bool).
Let e := encode_table encoding.
Let t := decode_table encoding.

Lemma Decode_Encode i : is_sextet i -> Decode t (Encode e i) = i.
Proof.
  intros Hi. destruct (tables_inverse encoding i Hi) as [E _]. unfold Decode, t, e. rewrite E.
  apply Z.mod_small. unfold is_sextet in Hi. lia.
Qed.

Lemma decode_char i p chars q ok :
  is_sextet i ->
  decode_loop t strict (Encode e i :: p) chars q ok =
    match chars with
    | [c0; c1; c2] =>
        decode_loop t strict p [] (q ++ [out0 t c0 c1; out1 t c1 c2; out2 t c2 (Encode e i)]) ok
    | _ => decode_loop t strict p (chars ++ [Encode e i]) q ok
    end.
Proof.
  intros Hi. destruct (tables_inverse encoding i Hi) as (E & H0 & _). cbn [decode_loop]. fold e t in E, H0.
  destruct (Z.eqb_spec (Encode e i) 0) as [|_]; [done|]. rewrite E.
  destruct (Z.eqb_spec i (-1)); [unfold is_sextet in Hi; lia|]. done.
Qed.

Lemma decode_group a b c p q ok :
  is_byte a -> is_byte b -> is_byte c ->
  decode_loop t strict ((Encode e <$> sextets a b c) ++ p) [] q ok = decode_loop t strict p [] (q ++ [a; b; c]) ok.
Proof.
  intros Ha Hb Hc. pose proof (sextets_range a b c Ha) as Hs. unfold sextets in *.
  rewrite !Forall_cons in Hs. destruct Hs as (H1 & H2 & H3 & H4 & _).
  cbn [fmap list_fmap app]. rewrite !decode_char by done. cbn [app]. do 3 f_equal; [|f_equal; [|f_equal]];
    unfold out0, out1, out2; rewrite !Decode_Encode by done; byte_bits.
Qed.

(** What a single or a double remaining byte turns into. *)
Lemma decode_two a b q ok rest :
  is_byte a -> is_byte b ->
  decode_loop t strict ((Encode e <$> [Z.shiftr a 2;
     Z.lor (Z.land (UCHAR (Z.shiftl a 4)) 0x30) (Z.land (Z.shiftr b 4) 0x0F);
     Z.land (UCHAR (Z.shiftl b 2)) 0x3C]) ++ rest) [] q ok =
  decode_loop t strict rest (Encode e <$> [Z.shiftr a 2;
     Z.lor (Z.land (UCHAR (Z.shiftl a 4)) 0x30) (Z.land (Z.shiftr b 4) 0x0F);
     Z.land (UCHAR (Z.shiftl b 2)) 0x3C]) q ok /\
  out0 t (Encode e (Z.shiftr a 2))
    (Encode e (Z.lor (Z.land (UCHAR (Z.shiftl a 4)) 0x30) (Z.land (Z.shiftr b 4) 0x0F))) = a /\
  out1 t (Encode e (Z.lor (Z.land (UCHAR (Z.shiftl a 4)) 0x30) (Z.land (Z.shiftr b 4) 0x0F)))
    (Encode e (Z.land (UCHAR (Z.shiftl b 2)) 0x3C)) = b.
Proof.
  intros Ha Hb. pose proof (sextets_range a b 0 Ha) as Hs. unfold sextets in Hs.
  rewrite !Forall_cons in Hs. destruct Hs as (H1 & H2 & H3 & _). rewrite Z.shiftr_0_l, Z.land_0_l, Z.lor_0_r in H3.
  split_and!; [cbn [fmap list_fmap app]; by rewrite !decode_char by done| |];
    unfold out0, out1; rewrite !Decode_Encode by done; byte_bits.
Qed.

Lemma decode_one a q ok rest :
  is_byte a ->
  decode_loop t strict ((Encode e <$> [Z.shiftr a 2; Z.land (UCHAR (Z.shiftl a 4)) 0x30]) ++ rest) [] q ok =
  decode_loop t strict rest (Encode e <$> [Z.shiftr a 2; Z.land (UCHAR (Z.shiftl a 4)) 0x30]) q ok /\
  out0 t (Encode e (Z.shiftr a 2)) (Encode e (Z.land (UCHAR (Z.shiftl a 4)) 0x30)) = a.
Proof.
  intros Ha. pose proof (sextets_range a 0 0 Ha) as Hs.
  unfold sextets in Hs. rewrite !Forall_cons in Hs. destruct Hs as (H1 & H2 & _).
  rewrite Z.shiftr_0_l, Z.land_0_l, Z.lor_0_r in H2.
  split; [cbn [fmap list_fmap app]; by rewrite !decode_char by done|].
  unfold out0; rewrite !Decode_Encode by done; byte_bits.
Qed.

(** Newlines and padding are skipped. *)
Lemma decode_skip c p chars q ok :
  c = 10 \/ c = 61 -> decode_loop t strict (c :: p) chars q ok = decode_loop t strict p chars q ok.
Proof. unfold t, decode_table. intros [-> | ->]; destruct (encoding =? 0); reflexivity. Qed.

Definition pad : list Z := if encoding =? 0 then [61] else [].

Lemma decode_pad p chars q ok : decode_loop t strict (pad ++ p) chars q ok = decode_loop t strict p chars q ok.
Proof. unfold pad. destruct (encoding =? 0); [|done]. apply decode_skip. by right. Qed.

(** The end of [Ns_HtuuDecode2]. *)
Definition finish (r : list Z * list Z * bool) : bool * list Z :=
  let '(chars, q, ok) := r in
  match chars with
  | [_] => (if strict then false else ok, q)
  | [c0; c1] => (ok, q ++ [out0 t c0 c1])
  | [c0; c1; c2] => (ok, q ++ [out0 t c0 c1] ++ [out1 t c1 c2])
  | _ => (ok, q)
  end.

Lemma decode_encode_loop k ml ll input q :
  (length input <= k)%nat -> is_bytes input ->
  finish (decode_loop t strict (encode_loop encoding ml ll input) [] q true) = (true, q ++ input).
Proof.
  revert ll input q. induction k as [|k IH]; intros ll input q Hk Hb.
  { destruct input; [|cbn in Hk; lia]. cbn. by rewrite app_nil_r. }
  unfold is_bytes in *. destruct input as [|a [|b [|c input]]]; rewrite ?Forall_cons in Hb.
  - cbn. by rewrite app_nil_r.
  - destruct Hb as [Ha _]. cbn [encode_loop]. fold e pad. destruct (decode_one a q true (pad ++ pad)) as [-> E]; [done|].
    rewrite <- (app_nil_r pad) at 2. rewrite !decode_pad. cbn. by rewrite E.
  - destruct Hb as (Ha & Hb & _). cbn [encode_loop]. fold e pad.
    destruct (decode_two a b q true pad) as (-> & E0 & E1); [done..|].
    rewrite <- (app_nil_r pad), decode_pad. cbn. by rewrite E0, E1.
  - destruct Hb as (Ha & Hb & Hc & Hi). cbn [encode_loop]. fold e. cbn in Hk.
    assert (forall x p q, decode_loop t strict ((if x : bool then [10] else []) ++ p) [] q true
      = decode_loop t strict p [] q true) as Hnl by (intros [] ? ?; [apply decode_skip; by left|done]).
    cbv zeta. rewrite Hnl, decode_group, IH by (done || lia). by rewrite <- app_assoc.
Qed.
End decode.

Lemma encode_no_blank encoding ml input c p :
  is_bytes input -> encode_loop encoding ml 0 input = c :: p -> c <> 32 /\ c <> 9.
Proof.
  intros Hb E. destruct input as [|a input]; [done|]. apply Forall_cons in Hb as [Ha _].
  destruct (tables_inverse encoding _ (shiftr2_sextet a Ha)) as (_ & _ & H32 & H9).
  destruct input as [|b [|d input]]; cbn [encode_loop] in E.
  3: destruct (Z.ltb_spec 0 ml); [destruct (Z.leb_spec ml 0); [lia|]|]; cbn [andb] in E.
  all: cbn in E; injection E as <- _; done.
Qed.

Lemma skip_blanks_id p : (forall c p', p = c :: p' -> c <> 32 /\ c <> 9) -> skip_blanks p = p.
Proof.
  destruct p as [|c p]; [done|]. intros H. destruct (H c p eq_refl). cbn.
  destruct (Z.eqb_spec c 32), (Z.eqb_spec c 9); done.
Qed.

(** ** Theorems *)

(** Base64 round trip: what [Ns_Base64Encode] writes, with either alphabet and any
    line length, [Ns_HtuuDecode2] reads back exactly, without an error even in
    strict mode. *)
Theorem Base64_roundtrip input maxLineLength encoding strict :
  is_bytes input ->
  Ns_HtuuDecode2 (Ns_Base64Encode input maxLineLength encoding) encoding strict = (true, input).
Proof.
  intros Hb. unfold Ns_HtuuDecode2, Ns_Base64Encode.
  rewrite skip_blanks_id by (intros c p E; by eapply encode_no_blank).
  apply (decode_encode_loop encoding strict (length input) _ _ input []); done.
Qed.

Lemma Base64_roundtrip_witness :
  Ns_HtuuDecode2 (Ns_Base64Encode [0; 255; 16; 77] 4 1) 1 true = (true, [0; 255; 16; 77]).
Proof. apply (Base64_roundtrip [0; 255; 16; 77] 4 1 true). repeat constructor; vm_compute; done. Defined.

Lemma encode_loop_length k encoding ll input :
  (length input <= k)%nat ->
  Z.of_nat (length (encode_loop encoding 0 ll input)) =
    if encoding =? 0 then 4 * ((Z.of_nat (length input) + 2) / 3) else (4 * Z.of_nat (length input) + 2) / 3.
Proof.
  revert ll input. induction k as [|k IH]; intros ll input Hk.
  { destruct input; [|cbn in Hk; lia]. destruct (encoding =? 0) eqn:E; cbn; reflexivity. }
  destruct input as [|a [|b [|c input]]]; cbn [encode_loop]; cbn in Hk.
  1-3: destruct (encoding =? 0) eqn:E; cbn; reflexivity.
  cbv zeta. rewrite Z.ltb_irrefl. cbn [andb app]. rewrite length_app, length_fmap, Nat2Z.inj_add, IH by lia.
  cbn [length sextets]. rewrite !Nat2Z.inj_succ. destruct (encoding =? 0); Z.div_mod_to_equations; lia.
Qed.

(** The exact output size of [Ns_Base64Encode] without line wrapping, and what it
    means for the caller: with the terminating NUL the standard alphabet needs more
    than the [1 + (len * 4) / 3] bytes that the comment of the function asks for,
    whenever the input is not a multiple of three bytes long. *)
Theorem Base64_length input encoding :
  Z.of_nat (length (Ns_Base64Encode input 0 encoding)) =
    (if encoding =? 0 then 4 * ((Z.of_nat (length input) + 2) / 3) else (4 * Z.of_nat (length input) + 2) / 3) /\
  (encoding = 0 -> Z.of_nat (length input) mod 3 <> 0 ->
    1 + Z.of_nat (length input) * 4 / 3 < Z.of_nat (length (Ns_Base64Encode input 0 encoding)) + 1).
Proof.
  unfold Ns_Base64Encode. rewrite (encode_loop_length (length input)) by done. split; [done|].
  intros -> Hm. cbn. Z.div_mod_to_equations; lia.
Qed.

(** The documented minimum of four bytes is not enough for one input byte. *)
Lemma Base64_length_witness : 1 + 1 * 4 / 3 < Z.of_nat (length (Ns_Base64Encode [65] 0 0)) + 1.
Proof. apply (Base64_length [65] 0); vm_compute; [reflexivity|discriminate]. Defined.

Lemma decode_loop_length t strict p chars q ok :
  (length chars <= 3)%nat ->
  let r := decode_loop t strict p chars q ok in
  (length r.1.1 <= 3)%nat /\
  (4 * length r.1.2 + 3 * length r.1.1 <= 4 * length q + 3 * length chars + 3 * length p)%nat.
Proof.
  revert chars q ok. induction p as [|c p IH]; intros chars q ok Hc; cbn [decode_loop]; [cbn; lia|].
  destruct (c =? 0); [cbn; lia|]. destruct (negb (nth _ _ _ =? -1)).
  - destruct chars as [|c0 [|c1 [|c2 [|]]]];
      match goal with |- context [decode_loop t strict p ?ch ?q' ok] => specialize (IH ch q' ok) end;
      rewrite ?length_app in IH; cbn in *; lia.
  - destruct (_ && _); match goal with |- context [decode_loop t strict p ?ch ?q' ?o] => specialize (IH ch q' o) end;
      cbn in *; lia.
Qed.

(** [Ns_HtuuDecode2] stores at most three bytes for every four input characters,
    so a buffer of the documented size, [3 + (len * 3) / 4] bytes, is never
    overrun, whatever the input is. *)
Theorem HtuuDecode_bound input encoding strict :
  4 * Z.of_nat (length (Ns_HtuuDecode2 input encoding strict).2) <= 3 * Z.of_nat (length input).
Proof.
  assert (length (skip_blanks input) <= length input)%nat as Hs
    by (induction input as [|c p IH]; cbn; [lia|]; destruct (_ || _); cbn in *; lia).
  unfold Ns_HtuuDecode2.
  pose proof (decode_loop_length (decode_table encoding) strict (skip_blanks input) [] [] true) as Hl.
  destruct (decode_loop _ _ _ _ _ _) as [[chars q] ok]. cbn in Hl. destruct Hl as [H3 Hl]; [lia|].
  destruct chars as [|c0 [|c1 [|c2 [|]]]]; cbn [length snd] in *; rewrite ?length_app; cbn [length]; lia.
Qed.

(** ** The static table pointers

    [encode_table] is a static variable of [Ns_Base64Encode]: one pointer for all
    threads, set at the start of every call and read again for every character.
    [action] is a step of a call on that pointer, [istep] a step of one of several
    threads. *)

Inductive action := SetTable (encoding : Z) | Emit (sextet : Z) | Put (c : Z).

Fixpoint encode_actions (encoding maxLineLength lineLength : Z) (p : list Z) : list action :=
  let pad := if encoding =? 0 then [Put 61] else [] in
  match p with
  | a :: b :: c :: p =>
      let wrap := (0 <? maxLineLength) && (maxLineLength <=? lineLength) in
      (if wrap then [Put 10] else []) ++ (Emit <$> sextets a b c) ++
      encode_actions encoding maxLineLength ((if wrap then 0 else lineLength) + 4) p
  | [a; b] =>
      (Emit <$> [Z.shiftr a 2;
         Z.lor (Z.land (UCHAR (Z.shiftl a 4)) 0x30) (Z.land (Z.shiftr b 4) 0x0F);
         Z.land (UCHAR (Z.shiftl b 2)) 0x3C]) ++ pad
  | [a] => (Emit <$> [Z.shiftr a 2; Z.land (UCHAR (Z.shiftl a 4)) 0x30]) ++ pad ++ pad
  | [] => []
  end.

(** A call of [Ns_Base64Encode] in progress: what is left to do, what is written. *)
Definition thread : Type := list action * list Z.

Definition call (input : list Z) (maxLineLength encoding : Z) : thread :=
  (SetTable encoding :: encode_actions encoding maxLineLength 0 input, []).

Definition act (table : list Z) (a : action) (out : list Z) : list Z * list Z :=
  match a with
  | SetTable e => (encode_table e, out)
  | Emit i => (table, out ++ [Encode table i])
  | Put c => (table, out ++ [c])
  end.

Inductive istep : list Z * list thread -> list Z * list thread -> Prop :=
| istep_thread table ths i a acts out :
    ths !! i = Some (a :: acts, out) ->
    istep (table, ths) ((act table a out).1, <[i := (acts, (act table a out).2)]> ths).

(** A call running alone. *)
Fixpoint run (table : list Z) (acts : list action) (out : list Z) : list Z :=
  match acts with
  | [] => out
  | a :: acts => run (act table a out).1 acts (act table a out).2
  end.

Lemma run_app_quiet table acts acts' out :
  Forall (fun a => match a with SetTable _ => False | _ => True end) acts ->
  run table (acts ++ acts') out = run table acts' (run table acts out).
Proof. intros H. revert out. induction H as [|[] acts Ha _ IH]; intros out; cbn in *; [done|done|apply IH..]. Qed.

Lemma run_emit table l out : run table (Emit <$> l) out = out ++ (Encode table <$> l).
Proof. revert out. induction l as [|i l IH]; intros out; cbn; [by rewrite app_nil_r|]. by rewrite IH, <- app_assoc. Qed.

Lemma run_actions k encoding ml ll input out :
  (length input <= k)%nat ->
  run (encode_table encoding) (encode_actions encoding ml ll input) out = out ++ encode_loop encoding ml ll input /\
  Forall (fun a => match a with SetTable _ => False | _ => True end) (encode_actions encoding ml ll input).
Proof.
  revert ll input out. induction k as [|k IH]; intros ll input out Hk.
  { destruct input; [|cbn in Hk; lia]. cbn. by rewrite app_nil_r. }
  destruct input as [|a [|b [|c input]]]; cbn [encode_loop encode_actions]; cbn in Hk.
  - cbn. by rewrite app_nil_r.
  - split; [|destruct (encoding =? 0); repeat constructor].
    rewrite run_app_quiet, run_emit by repeat constructor.
    destruct (encoding =? 0); cbn; rewrite <- ?app_assoc; by rewrite ?app_nil_r.
  - split; [|destruct (encoding =? 0); repeat constructor].
    rewrite run_app_quiet, run_emit by repeat constructor.
    destruct (encoding =? 0); cbn; rewrite <- ?app_assoc; by rewrite ?app_nil_r.
  - cbv zeta. set (w := _ && _).
    destruct (IH ((if w then 0 else ll) + 4) input
      ((out ++ if w then [10] else []) ++ (Encode (encode_table encoding) <$> sextets a b c))) as [E Hq]; [lia|].
    split.
    + rewrite run_app_quiet by (destruct w; repeat constructor).
      rewrite run_app_quiet, run_emit by repeat constructor.
      replace (run _ (if w then [Put 10] else []) out) with (out ++ if w then [10] else [])
        by (destruct w; [done|by rewrite app_nil_r]).
      rewrite E. by rewrite <- !app_assoc.
    + apply Forall_app; split; [destruct w; repeat constructor|]. apply Forall_app; split; [repeat constructor|done].
Qed.

(** A thread of a call that has written part of the sequential output. *)
Definition on_track (encoding : Z) (table : list Z) (goal : list Z) (th : thread) : Prop :=
  (exists acts, th = (SetTable encoding :: acts, []) /\
    Forall (fun a => match a with SetTable _ => False | _ => True end) acts /\
    run (encode_table encoding) acts [] = goal) \/
  (table = encode_table encoding /\
    Forall (fun a => match a with SetTable _ => False | _ => True end) th.1 /\
    run table th.1 th.2 = goal).

Lemma istep_on_track encoding goals s s' :
  Forall2 (on_track encoding s.1) goals s.2 -> istep s s' -> Forall2 (on_track encoding s'.1) goals s'.2.
Proof.
  intros H Hstep. destruct Hstep as [table ths i a acts out Hi]; cbn [fst snd] in *.
  apply Forall2_same_length_lookup_2; [rewrite length_insert; by eapply Forall2_length|].
  intros j g th Hg Hth. destruct (decide (i = j)) as [<-|Hne].
  - rewrite list_lookup_insert_eq in Hth by (by eapply lookup_lt_Some). simplify_eq.
    destruct (Forall2_lookup_lr _ _ _ _ _ _ H Hg Hi) as [(acts' & [= -> -> ->] & Hq & Hr)|(-> & Hq & Hr)].
    + by right.
    + cbn in *. apply Forall_cons in Hq as [Ha Hq]. destruct a; [done|..]; by right.
  - rewrite list_lookup_insert_ne in Hth by done.
    destruct (Forall2_lookup_lr _ _ _ _ _ _ H Hg Hth) as [Hl|(-> & Hq & Hr)]; [by left|].
    destruct (Forall2_lookup_r _ _ _ _ _ H Hi) as (g' & _ & [(acts' & [= -> -> ->] & _)|(_ & Hq' & _)]); [by right|].
    cbn in Hq'. apply Forall_cons in Hq' as [Ha _]. destruct a; [done|..]; by right.
Qed.

(** Concurrent calls of [Ns_Base64Encode] with one encoding do not disturb each
    other: in every interleaving, a call that has finished has written exactly the
    sequential result. *)
Theorem Base64_same_encoding_safe encoding table (inputs : list (list Z * Z)) s i out :
  rtc istep (table, (fun '(input, ml) => call input ml encoding) <$> inputs) s ->
  s.2 !! i = Some ([], out) ->
  exists input ml, inputs !! i = Some (input, ml) /\ out = Ns_Base64Encode input ml encoding.
Proof.
  intros Hsteps Hi.
  assert (Forall2 (on_track encoding s.1) ((fun '(input, ml) => Ns_Base64Encode input ml encoding) <$> inputs) s.2) as H.
  { revert Hsteps. generalize s. apply rtc_ind_r.
    - apply Forall2_fmap_l, Forall2_fmap_r, Forall_Forall2_diag, Forall_forall. intros [input ml] _.
      destruct (run_actions (length input) encoding ml 0 input []) as [E Hq]; [done|].
      left. eexists; split; [done|]. split; [done|]. done.
    - intros x y _ Hstep IH. by eapply istep_on_track. }
  destruct (Forall2_lookup_r _ _ _ _ _ H Hi) as (g & Hg & Ht).
  rewrite list_lookup_fmap in Hg. destruct (inputs !! i) as [[input ml]|] eqn:E; simplify_eq/=.
  exists input, ml. split; [done|]. by destruct Ht as [(? & [= ] & _)|(_ & _ & ?)].
Qed.

Ltac run_thread i := eapply rtc_l; [apply (istep_thread _ _ i); reflexivity|].

Lemma Base64_same_encoding_safe_witness :
  exists input ml, [([1; 2; 3], 0); ([255], 0)] !! 1%nat = Some (input, ml) /\
    bytes "/w==" = Ns_Base64Encode input ml 0.
Proof.
  apply (Base64_same_encoding_safe 0 [] [([1; 2; 3], 0); ([255], 0)]
    (six2pr, [(Emit 0 :: Emit 16 :: Emit 8 :: Emit 3 :: [], []); ([], bytes "/w==")]) 1%nat (bytes "/w==")).
  - run_thread 1%nat. run_thread 0%nat. do 4 (run_thread 1%nat). apply rtc_refl.
  - reflexivity.
Defined.

(** Calls with different encodings race on the shared pointer: a call for the
    standard alphabet can return base64url characters, which the standard decoder
    then refuses in strict mode. *)
Theorem Base64_encoding_race :
  exists s out, rtc istep ([], [call [255; 255; 255] 0 0; call [] 0 1]) s /\
    s.2 = [([], out); ([], [])] /\
    out <> Ns_Base64Encode [255; 255; 255] 0 0 /\ out = Ns_Base64Encode [255; 255; 255] 0 1 /\
    (Ns_HtuuDecode2 out 0 true).1 = false.
Proof.
  exists (six2pr_url, [([], bytes "____"); ([], [])]), (bytes "____").
  split; [|split_and!; try done; vm_compute; congruence].
  run_thread 0%nat. run_thread 1%nat. do 4 (run_thread 0%nat). apply rtc_refl.
Qed.
