(* ===== verification/Utf8.v ===== *)
(** * Utf8: UTF-8 validation and encoding, and the 7-bit test, of nsd/str.c. *)

From S2P Require Import Prelude.
From Stdlib Require Import Btauto.

(** ** Words

    [le64 l] is the integer that [memcpy] of the bytes [l] into a [uint64_t] gives
    on a little-endian machine.  The masks used are symmetric in the bytes, so the
    byte order does not matter for the tests. *)

Fixpoint le64 (l : list Z) : Z :=
  match l with
  | [] => 0
  | b :: l => Z.lor b (Z.shiftl (le64 l) 8)
  end.

Definition high_bits : Z := 0x8080808080808080.

(** ** Validation *)

(** The arguments handed to [InvalidUtf8ErrorMessage] when the input is not valid. *)
Inductive utf8_result := Valid | Invalid (index nrMaxBytes : Z) (isTruncated : bool).

Definition is_cont (b : Z) : bool := Z.land b 0xC0 =? 0x80.

(** One round of the loop behind the test for eight ASCII characters: [byte1] was
    read, [idx] points behind it and [rest] is what follows it.  [inl] is the
    state in which the loop continues, [inr] a return. *)
Definition utf8_char (byte1 idx : Z) (rest : list Z) : Z * list Z + utf8_result :=
  if byte1 <? 0x80 then inl (idx, rest)
  else if byte1 <? 0xE0 then
    match rest with
    | [] => inr (Invalid idx 2 true)
    | byte2 :: rest =>
        let idx := idx + 1 in
        if (byte1 <? 0xC2) || negb (is_cont byte2) then inr (Invalid (idx - 1) 2 false)
        else inl (idx, rest)
    end
  else if byte1 <? 0xF0 then
    match rest with
    | [] | [_] => inr (Invalid idx 3 true)
    | byte2 :: byte3 :: rest =>
        let idx := idx + 1 in
        if negb (is_cont byte2) || ((byte1 =? 0xE0) && (byte2 <? 0xA0)) || ((byte1 =? 0xED) && (0xA0 <=? byte2))
        then inr (Invalid (idx - 1) 3 false)
        else
          let idx := idx + 1 in
          if negb (is_cont byte3) then inr (Invalid (idx - 2) 3 false)
          else inl (idx, rest)
    end
  else
    match rest with
    | [] | [_] | [_; _] => inr (Invalid idx 4 true)
    | byte2 :: byte3 :: byte4 :: rest =>
        let startIndex := idx in
        let idx := idx + 1 in
        if negb (is_cont byte2) || (0xF4 <? byte1) || ((byte1 =? 0xF0) && (byte2 <? 0x90)) || ((byte1 =? 0xF4) && (0x8F <? byte2))
        then inr (Invalid startIndex 4 false)
        else
          let idx := idx + 1 in
          if negb (is_cont byte3) then inr (Invalid (idx - 3) 4 false)
          else
            let idx := idx + 1 in
            if negb (is_cont byte4) then inr (Invalid (idx - 4) 4 false)
            else inl (idx, rest)
    end.

(** [rest] are the bytes from [idx] on; every round consumes at least one byte. *)
Fixpoint utf8_loop (fuel : nat) (idx : Z) (rest : list Z) : option utf8_result :=
  match fuel with
  | O => None
  | S fuel =>
      if (8 <=? Z.of_nat (length rest)) && (Z.land (le64 (take 8 rest)) high_bits =? 0)
      then utf8_loop fuel (idx + 8) (drop 8 rest)
      else
        match rest with
        | [] => Some Valid
        | byte1 :: rest =>
            match utf8_char byte1 (idx + 1) rest with
            | inl (idx, rest) => utf8_loop fuel idx rest
            | inr r => Some r
            end
        end
  end.

Definition Ns_Valid_UTF8 (bs : list Z) : option utf8_result := utf8_loop (S (length bs)) 0 bs.

(** The text in the error message, around the byte where the failure starts;
    [None] is a read outside of the bytes.  A negative length makes
    [Tcl_DStringAppend] take the bytes up to the NUL. *)
Definition InvalidUtf8ErrorMessage (bs : list Z) (index nrMaxBytes : Z) (isTruncated : bool) : option (list Z) :=
  let prefixLen := Z.min 10 index in
  let nrBytes := Z.of_nat (length bs) in
  prefix ← (if prefixLen <? index then p ← aslice bs 0 prefixLen; Some (p ++ bytes "...")
            else if index - 1 <? 0 then Some (before_nul bs)
            else aslice bs 0 (index - 1));
  middle ← aslice bs (index - 1) (Z.min nrMaxBytes (nrBytes - (index - 1)));
  Some (prefix ++ bytes "|" ++ middle ++ bytes "|" ++ (if isTruncated then [] else bytes "...")).

(** ** Encoding a code point *)

Definition Ns_Utf8FromCodePoint (cp : Z) : list Z :=
  if cp <=? 0x7F then [cp]
  else if cp <=? 0x7FF then
    [Z.lor (Z.land (Z.shiftr cp 6) 0x1F) 0xC0; Z.lor (Z.land (Z.shiftr cp 0) 0x3F) 0x80]
  else if cp <=? 0xFFFF then
    [Z.lor (Z.land (Z.shiftr cp 12) 0x0F) 0xE0; Z.lor (Z.land (Z.shiftr cp 6) 0x3F) 0x80;
     Z.lor (Z.land (Z.shiftr cp 0) 0x3F) 0x80]
  else if cp <=? 0x10FFFF then
    [Z.lor (Z.land (Z.shiftr cp 18) 0x07) 0xF0; Z.lor (Z.land (Z.shiftr cp 12) 0x3F) 0x80;
     Z.lor (Z.land (Z.shiftr cp 6) 0x3F) 0x80; Z.lor (Z.land (Z.shiftr cp 0) 0x3F) 0x80]
  else [].

(** ** The 7-bit test *)

(** The first loop: blocks of 32 bytes, one mask per 8 bytes. *)
Fixpoint blocks32 (fuel : nat) (l : list Z) (m1 m2 m3 m4 : Z) : list Z * (Z * Z * Z * Z) :=
  match fuel with
  | O => (l, (m1, m2, m3, m4))
  | S fuel =>
      if 32 <=? Z.of_nat (length l) then
        blocks32 fuel (drop 32 l) (Z.lor m1 (le64 (take 8 l))) (Z.lor m2 (le64 (take 8 (drop 8 l))))
          (Z.lor m3 (le64 (take 8 (drop 16 l)))) (Z.lor m4 (le64 (take 8 (drop 24 l))))
      else (l, (m1, m2, m3, m4))
  end.

(** The second loop: blocks of 8 bytes. *)
Fixpoint blocks8 (fuel : nat) (l : list Z) (m1 : Z) : list Z * Z :=
  match fuel with
  | O => (l, m1)
  | S fuel =>
      if 8 <=? Z.of_nat (length l) then blocks8 fuel (drop 8 l) (Z.lor m1 (le64 (take 8 l)))
      else (l, m1)
  end.

Definition Ns_Is7bit (bs : list Z) : bool :=
  let '(l, (m1, m2, m3, m4)) := blocks32 (length bs) bs 0 0 0 0 in
  let '(l, m1) := blocks8 (length bs) l m1 in
  let last_mask := foldl Z.lor 0 l in
  Z.land (Z.lor (Z.lor (Z.lor (Z.lor m1 m2) m3) m4) last_mask) high_bits =? 0.

(** ** Lemmas on words *)

Definition ascii7 (b : Z) : bool := b <? 0x80.

Lemma le64_bit l i j :
  is_bytes l -> 0 <= j < 8 -> Z.testbit (le64 l) (8 * Z.of_nat i + j) = Z.testbit (nth i l 0) j.
Proof.
  revert i. induction l as [|b l IH]; intros i Hl Hj; [cbn; rewrite Z.bits_0; by destruct i; rewrite Z.bits_0|].
  apply Forall_cons in Hl as [Hb Hl]. cbn [le64]. rewrite Z.lor_spec, Z.shiftl_spec by lia. destruct i as [|i]; cbn [nth].
  - rewrite (Z.testbit_neg_r _ (_ - 8)) by lia. rewrite orb_false_r. by f_equal; lia.
  - rewrite (byte_high b) by (done || lia). cbn.
    replace (8 * Z.of_nat (S i) + j - 8) with (8 * Z.of_nat i + j) by lia. by apply IH.
Qed.

Lemma byte_bit7 b : is_byte b -> Z.testbit b 7 = negb (ascii7 b).
Proof.
  intros Hb. unfold ascii7. rewrite Z.testbit_odd, Z.shiftr_div_pow2 by lia.
  destruct Hb. destruct (Z.ltb_spec b 0x80).
  - by rewrite Z.div_small by lia.
  - by replace (b / 2 ^ 7) with 1 by (apply Z.div_unique with (b - 128); lia).
Qed.

Lemma high_bits_bit k : 0 <= k -> Z.testbit high_bits k = (k mod 8 =? 7) && (k <? 64).
Proof.
  intros Hk. destruct (Z.ltb_spec k 64); [|rewrite andb_false_r; apply Z.bits_above_log2; [done|];
    change (Z.log2 high_bits) with 63; lia].
  assert (forallb (fun k => eqb (Z.testbit high_bits k) ((k mod 8 =? 7) && true)) (seqZ 0 64) = true) as Hall
    by (vm_compute; reflexivity).
  rewrite forallb_forall in Hall. apply eqb_prop, Hall, list_elem_of_In, elem_of_seqZ. lia.
Qed.

(** A word has no high bit iff no byte of the eight has one. *)
Lemma word_ascii l :
  is_bytes l -> (length l <= 8)%nat -> (Z.land (le64 l) high_bits =? 0) = forallb ascii7 l.
Proof.
  intros Hl Hlen. apply eq_bool_prop_intro. rewrite !Is_true_true, Z.eqb_eq, forallb_forall. split.
  - intros E b (i & Hi)%list_elem_of_In%list_elem_of_lookup.
    pose proof (Forall_lookup_1 _ _ _ _ Hl Hi) as Hb. pose proof (lookup_lt_Some _ _ _ Hi).
    apply negb_false_iff. rewrite <- byte_bit7 by done.
    replace b with (nth i l 0) by (rewrite nth_lookup, Hi; done). rewrite <- le64_bit by (done || lia).
    assert (Z.testbit (Z.land (le64 l) high_bits) (8 * Z.of_nat i + 7) = false) as Hz by (rewrite E; apply Z.bits_0).
    rewrite Z.land_spec, high_bits_bit in Hz by lia.
    replace ((8 * Z.of_nat i + 7) mod 8) with 7 in Hz by (Z.div_mod_to_equations; lia).
    destruct (Z.ltb_spec (8 * Z.of_nat i + 7) 64); [|lia]. by rewrite andb_true_r in Hz.
  - intros Hall. apply Z.bits_inj'. intros k Hk. rewrite Z.land_spec, Z.bits_0, high_bits_bit by done.
    destruct (Z.eqb_spec (k mod 8) 7) as [Hm|]; [|apply andb_false_r]. rewrite andb_true_l.
    replace k with (8 * Z.of_nat (Z.to_nat (k / 8)) + 7) by (rewrite Z2Nat.id by (apply Z.div_pos; lia); Z.div_mod_to_equations; lia).
    rewrite le64_bit by (done || lia). destruct (nth_in_or_default (Z.to_nat (k / 8)) l 0) as [Hin| ->].
    + rewrite byte_bit7 by (eapply Forall_forall; [exact Hl|by apply list_elem_of_In]). by rewrite Hall.
    + by rewrite Z.bits_0.
Qed.

(** ** Encodings as arithmetic *)

Ltac check_range f x n :=
  let Hall := fresh in
  assert (forallb f (seqZ 0 n) = true) as Hall by (vm_compute; reflexivity);
  rewrite forallb_forall in Hall; specialize (Hall x);
  rewrite <- list_elem_of_In, elem_of_seqZ in Hall; specialize (Hall ltac:(lia)).

Lemma lead_bits v k c :
  0 <= v -> (k, c) = (5, 0xC0) \/ (k, c) = (4, 0xE0) \/ (k, c) = (3, 0xF0) \/ (k, c) = (6, 0x80) ->
  Z.lor (Z.land v (Z.ones k)) c = c + v mod 2 ^ k.
Proof.
  intros Hv Hk. assert (0 <= k <= 6) by (destruct Hk as [[= -> ->]|[[= -> ->]|[[= -> ->]|[= -> ->]]]]; lia).
  rewrite Z.land_ones by lia. assert (0 <= v mod 2 ^ k < 2 ^ k) as Hr by (apply Z.mod_pos_bound; lia).
  revert Hr. generalize (v mod 2 ^ k). intros x Hx.
  destruct Hk as [[= -> ->]|[[= -> ->]|[[= -> ->]|[= -> ->]]]].
  - check_range (fun x => Z.lor x 0xC0 =? 0xC0 + x) x 32. by apply Z.eqb_eq.
  - check_range (fun x => Z.lor x 0xE0 =? 0xE0 + x) x 16. by apply Z.eqb_eq.
  - check_range (fun x => Z.lor x 0xF0 =? 0xF0 + x) x 8. by apply Z.eqb_eq.
  - check_range (fun x => Z.lor x 0x80 =? 0x80 + x) x 64. by apply Z.eqb_eq.
Qed.

Lemma is_cont_spec b : is_byte b -> is_cont b = (0x80 <=? b) && (b <? 0xC0).
Proof.
  intros Hb. unfold is_byte in Hb.
  check_range (fun b => eqb (is_cont b) ((0x80 <=? b) && (b <? 0xC0))) b 256. by apply eqb_prop.
Qed.

(** The encoder in terms of division and remainder. *)
Lemma from_code_point_arith cp :
  0 <= cp ->
  Ns_Utf8FromCodePoint cp =
    if cp <=? 0x7F then [cp]
    else if cp <=? 0x7FF then [0xC0 + (cp / 64) mod 32; 0x80 + cp mod 64]
    else if cp <=? 0xFFFF then [0xE0 + (cp / 4096) mod 16; 0x80 + (cp / 64) mod 64; 0x80 + cp mod 64]
    else if cp <=? 0x10FFFF then
      [0xF0 + (cp / 262144) mod 8; 0x80 + (cp / 4096) mod 64; 0x80 + (cp / 64) mod 64; 0x80 + cp mod 64]
    else [].
Proof.
  intros Hcp. unfold Ns_Utf8FromCodePoint. rewrite Z.shiftr_0_r, !Z.shiftr_div_pow2 by lia.
  change 0x1F with (Z.ones 5). change 0x3F with (Z.ones 6). change 0x0F with (Z.ones 4). change 0x07 with (Z.ones 3).
  assert (0 <= cp / 2 ^ 6 /\ 0 <= cp / 2 ^ 12 /\ 0 <= cp / 2 ^ 18) as (? & ? & ?)
    by (split_and!; apply Z.div_pos; lia).
  rewrite !(lead_bits _ 5 0xC0), !(lead_bits _ 4 0xE0), !(lead_bits _ 3 0xF0), !(lead_bits _ 6 0x80) by (done || tauto).
  reflexivity.
Qed.

(** ** The specification: sequences of encoded Unicode scalar values *)

Definition scalar (cp : Z) : Prop := 0 <= cp <= 0x10FFFF /\ ~ (0xD800 <= cp <= 0xDFFF).

Definition utf8 (bs : list Z) : Prop :=
  exists cps, Forall scalar cps /\ bs = concat (Ns_Utf8FromCodePoint <$> cps).

Ltac ucases :=
  repeat (match goal with
  | |- context [Z.ltb ?a ?b] => destruct (Z.ltb_spec a b)
  | |- context [Z.leb ?a ?b] => destruct (Z.leb_spec a b)
  | |- context [Z.eqb ?a ?b] => destruct (Z.eqb_spec a b)
  end; cbn [andb orb negb] in *; try (exfalso; lia)).

(** One accepted character is the encoding of a scalar value. *)
Lemma utf8_char_sound b idx rest idx' rest' :
  is_bytes (b :: rest) -> utf8_char b idx rest = inl (idx', rest') ->
  exists cp, scalar cp /\ b :: rest = Ns_Utf8FromCodePoint cp ++ rest'.
Proof.
  intros Hb. apply Forall_cons in Hb as [Hb1 Hrest]. unfold utf8_char, scalar.
  destruct (Z.ltb_spec b 0x80); [|destruct (Z.ltb_spec b 0xE0); [|destruct (Z.ltb_spec b 0xF0)]].
  - intros [= <- <-]. exists b. unfold is_byte in *. split; [lia|].
    unfold Ns_Utf8FromCodePoint. by destruct (Z.leb_spec b 0x7F); [|lia].
  - destruct rest as [|b2 rest]; [done|]. apply Forall_cons in Hrest as [Hb2 _].
    rewrite is_cont_spec by done. unfold is_byte in *. ucases; try done. intros [= <- <-].
    exists ((b - 0xC0) * 64 + (b2 - 0x80)). split; [lia|]. rewrite from_code_point_arith by lia.
    ucases; cbn; repeat f_equal; Z.div_mod_to_equations; lia.
  - destruct rest as [|b2 [|b3 rest]]; [done..|]. rewrite !Forall_cons in Hrest. destruct Hrest as (Hb2 & Hb3 & _).
    rewrite !is_cont_spec by done. unfold is_byte in *. ucases; try done; intros [= <- <-];
    exists ((b - 0xE0) * 4096 + (b2 - 0x80) * 64 + (b3 - 0x80)); (split; [lia|]); rewrite from_code_point_arith by lia;
    ucases; cbn; repeat f_equal; Z.div_mod_to_equations; lia.
  - destruct rest as [|b2 [|b3 [|b4 rest]]]; [done..|]. rewrite !Forall_cons in Hrest. destruct Hrest as (Hb2 & Hb3 & Hb4 & _).
    rewrite !is_cont_spec by done. unfold is_byte in *. ucases; try done; intros [= <- <-];
    exists ((b - 0xF0) * 262144 + (b2 - 0x80) * 4096 + (b3 - 0x80) * 64 + (b4 - 0x80)); (split; [lia|]); rewrite from_code_point_arith by lia;
    ucases; cbn; repeat f_equal; Z.div_mod_to_equations; lia.
Qed.

(** Every encoded scalar value is accepted, and nothing more is consumed. *)
Lemma utf8_char_complete cp idx rest :
  scalar cp ->
  exists b tl, Ns_Utf8FromCodePoint cp = b :: tl /\
    utf8_char b idx (tl ++ rest) = inl (idx + Z.of_nat (length tl), rest) /\ is_bytes (b :: tl).
Proof.
  intros [Hr Hs]. rewrite from_code_point_arith by lia.
  assert (0 <= cp mod 64 < 64 /\ 0 <= (cp / 64) mod 64 < 64 /\ 0 <= (cp / 4096) mod 64 < 64) as (? & ? & ?)
    by (split_and!; apply Z.mod_pos_bound; lia).
  unfold utf8_char, is_bytes.
  destruct (Z.leb_spec cp 0x7F); [|destruct (Z.leb_spec cp 0x7FF); [|destruct (Z.leb_spec cp 0xFFFF); [|destruct (Z.leb_spec cp 0x10FFFF); [|lia]]]];
    eexists _, _; (split; [done|]); (split; [|rewrite ?Forall_cons; unfold is_byte; split_and!; try done; Z.div_mod_to_equations; lia]);
    cbn [app length]; rewrite ?is_cont_spec by (unfold is_byte; lia).
  - ucases. by rewrite Z.add_0_r.
  - assert (2 <= (cp / 64) mod 32 < 32) by (Z.div_mod_to_equations; lia). ucases. done.
  - assert ((cp / 4096) mod 16 = cp / 4096 /\ 0 <= cp / 4096 < 16 /\ cp / 4096 = (cp / 64) / 64) as (E & ? & ?)
      by (rewrite Z.div_div by lia; Z.div_mod_to_equations; lia).
    rewrite E. ucases; try (f_equal; f_equal; lia); exfalso; Z.div_mod_to_equations; lia.
  - assert ((cp / 262144) mod 8 = cp / 262144 /\ 0 <= cp / 262144 <= 4) as (E & ?) by (Z.div_mod_to_equations; lia).
    rewrite E. ucases; try (f_equal; f_equal; lia); exfalso; Z.div_mod_to_equations; lia.
Qed.

(** ** The loop *)

Lemma utf8_nil : utf8 [].
Proof. by exists []. Qed.

Lemma utf8_app cp rest : scalar cp -> utf8 rest -> utf8 (Ns_Utf8FromCodePoint cp ++ rest).
Proof. intros Hc (cps & Hs & ->). exists (cp :: cps). split; [by constructor|done]. Qed.

(** The first code point of a sequence is determined: the rest is again UTF-8. *)
Lemma utf8_char_rest b idx rest idx' rest' :
  is_bytes (b :: rest) -> utf8_char b idx rest = inl (idx', rest') -> utf8 (b :: rest) -> utf8 rest'.
Proof.
  intros Hb Hc (cps & Hs & E). destruct Hs as [|cp cps Hcp Hcps]; [done|].
  destruct (utf8_char_complete cp idx (concat (Ns_Utf8FromCodePoint <$> cps)) Hcp) as (b' & tl & Ecp & Hch & _).
  cbn in E. rewrite Ecp in E. cbn in E. injection E as -> ->. rewrite Hch in Hc. injection Hc as <- <-. by exists cps.
Qed.

Lemma utf8_char_reject b idx rest r : is_bytes (b :: rest) -> utf8_char b idx rest = inr r -> ~ utf8 (b :: rest).
Proof.
  intros Hb Hc (cps & Hs & E). destruct Hs as [|cp cps Hcp Hcps]; [done|].
  destruct (utf8_char_complete cp idx (concat (Ns_Utf8FromCodePoint <$> cps)) Hcp) as (b' & tl & Ecp & Hch & _).
  cbn in E. rewrite Ecp in E. cbn in E. injection E as -> ->. congruence.
Qed.

(** ASCII characters in front do not matter. *)
Lemma utf8_ascii l rest : is_bytes l -> forallb ascii7 l = true -> utf8 (l ++ rest) <-> utf8 rest.
Proof.
  intros Hl Ha. induction Hl as [|b l Hb Hl IH]; [done|]. cbn in Ha. apply andb_true_iff in Ha as [Hb7 Ha].
  unfold ascii7 in Hb7. apply Z.ltb_lt in Hb7. rewrite <- IH by done. cbn.
  assert (Ns_Utf8FromCodePoint b = [b]) as Eb by (unfold Ns_Utf8FromCodePoint; destruct (Z.leb_spec b 0x7F); [done|lia]).
  assert (scalar b) as Hsb by (unfold scalar, is_byte in *; lia). split.
  - intros (cps & Hs & E). destruct Hs as [|cp cps Hcp Hcps]; [done|].
    destruct (utf8_char_complete cp 0 (concat (Ns_Utf8FromCodePoint <$> cps)) Hcp) as (b' & tl & Ecp & Hch & _).
    cbn in E. rewrite Ecp in E. cbn in E. injection E as <- E2. rewrite E2 in *.
    unfold utf8_char in Hch. destruct (Z.ltb_spec b 0x80); [|lia]. injection Hch as _ Hch. exists cps. by rewrite Hch.
  - intros Hu. change (b :: l ++ rest) with ([b] ++ (l ++ rest)). rewrite <- Eb. by apply utf8_app.
Qed.

Lemma utf8_char_shrinks b idx rest idx' rest' :
  utf8_char b idx rest = inl (idx', rest') ->
  exists p, rest = p ++ rest' /\ idx' = idx + Z.of_nat (length p).
Proof.
  unfold utf8_char. intros E.
  repeat (case_match; try done); simplify_eq; first [by exists []; split; [|cbn; lia]
    | by eexists [_]; split; [|cbn; lia] | by eexists [_; _]; split; [|cbn; lia] | by eexists [_; _; _]; split; [|cbn; lia]].
Qed.

(** Where a rejected character starts. *)
Lemma utf8_char_index b idx rest i k t :
  utf8_char b idx rest = inr (Invalid i k t) -> 1 <= k <= 4 /\ (i = idx \/ (i = idx - 1 /\ k = 4)).
Proof. unfold utf8_char. intros E. repeat (case_match; try done); simplify_eq; lia. Qed.

Lemma utf8_char_not_valid b idx rest : utf8_char b idx rest <> inr Valid.
Proof. unfold utf8_char. repeat case_match; done. Qed.

Lemma utf8_loop_spec fuel idx rest :
  is_bytes rest -> (length rest < fuel)%nat ->
  exists r, utf8_loop fuel idx rest = Some r /\
    match r with
    | Valid => utf8 rest
    | Invalid i k _ => ~ utf8 rest /\ idx <= i <= idx + Z.of_nat (length rest) /\ 1 <= k <= 4 /\ (i = idx -> k = 4)
    end.
Proof.
  revert idx rest. induction fuel as [|fuel IH]; intros idx rest Hb Hf; [lia|]. cbn [utf8_loop].
  destruct (_ && _) eqn:E8.
  - apply andb_true_iff in E8 as [E8 Ew]. apply Z.leb_le in E8.
    assert (is_bytes (take 8 rest) /\ is_bytes (drop 8 rest)) as [Ht Hd]
      by (apply Forall_app; by rewrite take_drop).
    rewrite word_ascii in Ew by (done || lens).
    destruct (IH (idx + 8) (drop 8 rest)) as (r & -> & Hr); [done|lens|]. exists r. split; [done|].
    destruct r as [|i k t]; rewrite <- (take_drop 8 rest), utf8_ascii by done; [done|].
    rewrite length_app, length_take, length_drop in *. destruct Hr as (? & ? & ? & ?). split_and!; try done; lia.
  - destruct rest as [|b rest]; [exists Valid; split; [done|apply utf8_nil]|].
    destruct (utf8_char b (idx + 1) rest) as [[idx' rest']|r] eqn:Ec.
    + destruct (utf8_char_shrinks _ _ _ _ _ Ec) as (p & -> & ->).
      assert (is_bytes rest') as Hb' by (apply Forall_cons in Hb as [_ Hb]; by apply Forall_app in Hb as [_ ?]).
      destruct (IH (idx + 1 + Z.of_nat (length p)) rest') as (r & -> & Hr); [done|lens|]. exists r. split; [done|].
      destruct r as [|i k t].
      * destruct (utf8_char_sound _ _ _ _ _ Hb Ec) as (cp & Hcp & ->). by apply utf8_app.
      * destruct Hr as (Hn & ? & ? & ?). split_and!; try lia; [|lens].
        intros Hu. apply Hn. by eapply utf8_char_rest.
    + exists r. split; [done|]. destruct r as [|i k t]; [by apply utf8_char_not_valid in Ec|].
      pose proof (utf8_char_reject _ _ _ _ Hb Ec). apply utf8_char_index in Ec. split_and!; try done; cbn; lia.
Qed.

(** ** Theorems *)

(** [Ns_Valid_UTF8] terminates on every input and accepts exactly the sequences of
    encoded Unicode scalar values: no overlong forms, no surrogates, nothing above
    U+10FFFF, no truncated characters. *)
Theorem Valid_UTF8_correct bs :
  is_bytes bs -> exists r, Ns_Valid_UTF8 bs = Some r /\ (r = Valid <-> utf8 bs).
Proof.
  intros Hb. destruct (utf8_loop_spec (S (length bs)) 0 bs) as (r & E & Hr); [done|lia|].
  exists r. split; [done|]. destruct r as [|i k t]; [tauto|]. destruct Hr as [Hn _]. split; [done|tauto].
Qed.

Lemma Valid_UTF8_correct_witness :
  exists r, Ns_Valid_UTF8 [0xE2; 0x82; 0xAC; 0x61] = Some r /\ (r = Valid <-> utf8 [0xE2; 0x82; 0xAC; 0x61]).
Proof. apply (Valid_UTF8_correct [0xE2; 0x82; 0xAC; 0x61]). repeat constructor; vm_compute; done. Defined.

(** [Ns_Utf8FromCodePoint] and [Ns_Valid_UTF8] fit: an encoded code point is valid
    UTF-8 exactly when it is a scalar value.  In particular the encoder does not
    reject the surrogates U+D800..U+DFFF as its comment says: it writes three bytes
    for them, which the validator refuses. *)
Theorem Utf8FromCodePoint_valid cp :
  0 <= cp <= 0x10FFFF ->
  Ns_Utf8FromCodePoint cp <> [] /\ (Ns_Valid_UTF8 (Ns_Utf8FromCodePoint cp) = Some Valid <-> scalar cp).
Proof.
  intros Hcp. assert (is_bytes (Ns_Utf8FromCodePoint cp) /\ Ns_Utf8FromCodePoint cp <> []) as [Hb Hne].
  { rewrite from_code_point_arith by lia. unfold is_bytes. ucases; rewrite ?Forall_cons; unfold is_byte;
      (split; [split_and!; try done; Z.div_mod_to_equations; lia|done]). }
  split; [done|]. destruct (utf8_loop_spec (S (length (Ns_Utf8FromCodePoint cp))) 0 (Ns_Utf8FromCodePoint cp)) as (r & E & Hr);
    [done|lia|]. unfold Ns_Valid_UTF8. rewrite E. split.
  - intros [= ->]. destruct (decide (0xD800 <= cp)) as [H1|]; [|split; lia].
    destruct (decide (cp <= 0xDFFF)) as [H2|]; [|split; lia]. exfalso. clear E.
    destruct Hr as (cps & Hs & E). destruct Hs as [|c cps Hc _]; [done|].
    destruct (utf8_char_complete c 1 (concat (Ns_Utf8FromCodePoint <$> cps)) Hc) as (b & tl & Ec & Hch & _).
    cbn in E. rewrite Ec, from_code_point_arith in E by lia.
    destruct (Z.leb_spec cp 0x7F), (Z.leb_spec cp 0x7FF), (Z.leb_spec cp 0xFFFF); try lia.
    replace ((cp / 4096) mod 16) with 13 in E by (Z.div_mod_to_equations; lia).
    assert (0x20 <= (cp / 64) mod 64 < 64) as Hm by (Z.div_mod_to_equations; lia).
    cbn in E. injection E as <- E. rewrite <- E in Hch. unfold utf8_char in Hch. cbn in Hch.
    destruct (Z.leb_spec 160 (128 + (cp / 64) mod 64)); [|lia]. rewrite orb_true_r in Hch. done.
  - intros Hs. destruct r as [|i k t]; [done|]. destruct Hr as [Hn _]. exfalso. apply Hn.
    rewrite <- (app_nil_r (Ns_Utf8FromCodePoint cp)). apply utf8_app; [done|apply utf8_nil].
Qed.

Lemma Utf8FromCodePoint_valid_witness :
  Ns_Utf8FromCodePoint 0xD800 <> [] /\ Ns_Valid_UTF8 (Ns_Utf8FromCodePoint 0xD800) <> Some Valid.
Proof.
  destruct (Utf8FromCodePoint_valid 0xD800) as [H1 H2]; [vm_compute; split; discriminate|].
  split; [exact H1|]. intros E. apply H2 in E. destruct E as [_ E]. apply E. vm_compute. split; discriminate.
Defined.

(** The error message of a rejected string is cut out of the string whenever the
    reported position is positive.  The position is zero when the string starts with
    a four-byte character whose third or fourth byte is wrong (two offsets are off by
    one there), and then the message is read from before the start of the buffer. *)
Theorem Valid_UTF8_message bs i k t :
  is_bytes bs -> Ns_Valid_UTF8 bs = Some (Invalid i k t) ->
  (0 < i -> is_Some (InvalidUtf8ErrorMessage bs i k t)) /\
  (i = 0 -> k = 4 /\ InvalidUtf8ErrorMessage bs i k t = None).
Proof.
  intros Hb Hv. destruct (utf8_loop_spec (S (length bs)) 0 bs) as (r & E & Hr); [done|lia|].
  unfold Ns_Valid_UTF8 in Hv. rewrite E in Hv. injection Hv as ->. destruct Hr as (_ & Hi & Hk & H4).
  unfold InvalidUtf8ErrorMessage, aslice. split.
  - intros Hpos. destruct (Z.ltb_spec (i - 1) 0); [lia|]. ucases; cbn; eauto.
  - intros ->. split; [by apply H4|]. reflexivity.
Qed.

Lemma Valid_UTF8_message_witness :
  InvalidUtf8ErrorMessage [0xF0; 0x90; 0x41; 0x41] 0 4 false = None.
Proof.
  apply (Valid_UTF8_message [0xF0; 0x90; 0x41; 0x41] 0 4 false);
    [repeat constructor; vm_compute; done|vm_compute; reflexivity|reflexivity].
Defined.

(** ** The 7-bit test *)

(** No byte of a word has its top bit set. *)
Definition low7 (m : Z) : bool := Z.land m high_bits =? 0.

Lemma low7_lor a b : low7 (Z.lor a b) = low7 a && low7 b.
Proof.
  unfold low7. rewrite Z.land_lor_distr_l. apply eq_bool_prop_intro.
  rewrite andb_True, !Is_true_true, !Z.eqb_eq. apply Z.lor_eq_0_iff.
Qed.

Lemma low7_bytes l : is_bytes l -> low7 (foldl Z.lor 0 l) = forallb ascii7 l.
Proof.
  intros Hl. change (forallb ascii7 l) with (low7 0 && forallb ascii7 l).
  generalize 0. induction Hl as [|b l Hb Hl IH]; intros a; cbn; [by rewrite andb_true_r|].
  rewrite IH, low7_lor, <- andb_assoc. do 2 f_equal. generalize (word_ascii [b]). cbn.
  rewrite Z.shiftl_0_l, Z.lor_0_r, andb_true_r. intros H. apply H; [by apply Forall_singleton|lia].
Qed.

Lemma low7_block l k : is_bytes l -> low7 (le64 (take 8 (drop k l))) = forallb ascii7 (take 8 (drop k l)).
Proof. intros. apply word_ascii; [by apply Forall_take, Forall_drop|lens]. Qed.

Lemma forallb_block k (l : list Z) : forallb ascii7 (take k l) && forallb ascii7 (drop k l) = forallb ascii7 l.
Proof. by rewrite <- forallb_app, take_drop. Qed.

Lemma blocks32_spec fuel l m1 m2 m3 m4 :
  is_bytes l ->
  let '(l', (n1, n2, n3, n4)) := blocks32 fuel l m1 m2 m3 m4 in
  is_bytes l' /\
  low7 n1 && low7 n2 && low7 n3 && low7 n4 && forallb ascii7 l' =
  low7 m1 && low7 m2 && low7 m3 && low7 m4 && forallb ascii7 l.
Proof.
  revert l m1 m2 m3 m4. induction fuel as [|fuel IH]; intros l m1 m2 m3 m4 Hl; [done|]. cbn [blocks32].
  destruct (32 <=? Z.of_nat (length l)); [|done].
  specialize (IH (drop 32 l) (Z.lor m1 (le64 (take 8 (drop 0 l)))) (Z.lor m2 (le64 (take 8 (drop 8 l))))
    (Z.lor m3 (le64 (take 8 (drop 16 l)))) (Z.lor m4 (le64 (take 8 (drop 24 l))))).
  rewrite drop_0 in IH. destruct (blocks32 _ _ _ _ _ _) as [l' [[[n1 n2] n3] n4]].
  destruct IH as [? ->]; [by apply Forall_drop|]. split; [done|]. rewrite !low7_lor, !low7_block by done.
  pose proof (low7_block l 0 Hl) as H0. rewrite drop_0 in H0. rewrite H0, <- (forallb_block 8 l), <- (forallb_block 8 (drop 8 l)).
  rewrite drop_drop, <- (forallb_block 8 (drop (8 + 8) l)), drop_drop, <- (forallb_block 8 (drop (8 + 8 + 8) l)), drop_drop.
  cbn [Nat.add]. btauto.
Qed.

Lemma blocks8_spec fuel l m1 :
  is_bytes l ->
  let '(l', n1) := blocks8 fuel l m1 in is_bytes l' /\ low7 n1 && forallb ascii7 l' = low7 m1 && forallb ascii7 l.
Proof.
  revert l m1. induction fuel as [|fuel IH]; intros l m1 Hl; [done|]. cbn [blocks8].
  destruct (8 <=? Z.of_nat (length l)); [|done].
  specialize (IH (drop 8 l) (Z.lor m1 (le64 (take 8 (drop 0 l))))). rewrite drop_0 in IH.
  destruct (blocks8 _ _ _) as [l' n1]. destruct IH as [? ->]; [by apply Forall_drop|]. split; [done|].
  pose proof (low7_block l 0 Hl) as H0. rewrite drop_0 in H0. rewrite low7_lor, H0, <- (forallb_block 8 l). btauto.
Qed.

(** The word-wise test of [Ns_Is7bit] (blocks of 32 bytes into four masks, blocks of
    8 bytes into the first, the rest byte by byte) decides that every byte is below
    0x80; such a string is valid UTF-8. *)
Theorem Is7bit_correct bs :
  is_bytes bs ->
  Ns_Is7bit bs = forallb (fun b => b <? 0x80) bs /\ (Ns_Is7bit bs = true -> Ns_Valid_UTF8 bs = Some Valid).
Proof.
  intros Hb. assert (Ns_Is7bit bs = forallb ascii7 bs) as E.
  { unfold Ns_Is7bit. pose proof (blocks32_spec (length bs) bs 0 0 0 0 Hb) as H.
    destruct (blocks32 _ _ _ _ _ _) as [l [[[m1 m2] m3] m4]]. destruct H as [Hl H].
    pose proof (blocks8_spec (length bs) l m1 Hl) as H'. destruct (blocks8 _ _ _) as [l' m1'].
    destruct H' as [Hl' H']. change (low7 0) with true in H. rewrite !andb_true_l in H.
    rewrite <- H, (andb_comm _ (forallb _ _)), !andb_assoc, (andb_comm (forallb _ _)), <- H'.
    change (low7 (Z.lor (Z.lor (Z.lor (Z.lor m1' m2) m3) m4) (foldl Z.lor 0 l')) =
      low7 m1' && forallb ascii7 l' && low7 m2 && low7 m3 && low7 m4).
    rewrite !low7_lor, low7_bytes by done. btauto. }
  split; [done|]. rewrite E. intros Ha. destruct (utf8_loop_spec (S (length bs)) 0 bs) as (r & Er & Hr); [done|lia|].
  unfold Ns_Valid_UTF8. rewrite Er. destruct r as [|i k t]; [done|]. exfalso. destruct Hr as [Hn _]. apply Hn.
  rewrite <- (app_nil_r bs). apply utf8_ascii; [done|done|apply utf8_nil].
Qed.

Lemma Is7bit_correct_witness :
  Ns_Is7bit (bytes "plain text, longer than eight bytes and than thirty-two") = true.
Proof.
  destruct (Is7bit_correct (bytes "plain text, longer than eight bytes and than thirty-two")) as [H _];
    [repeat (apply Forall_cons; split; [vm_compute; split; congruence|]); apply Forall_nil_2|].
  rewrite H. vm_compute. reflexivity.
Defined.
