(* ===== verification/JsonScan.v ===== *)
(** * JsonScan: the scanners of the JSON parser (nsd/tcljson.c).

    White space, control characters, numbers and strings.  White space and control
    characters are searched a machine word at a time; a word is read with [memcpy], in
    the byte order of a little-endian machine as in Utf8.v.  The buffer ends with a NUL,
    as the strings of Tcl do: [JsonScanNumber] reads that byte. *)

From S2P Require Import Prelude Utf8.

(** ** Words of bytes *)

Definition byte_ones : Z := 0x0101010101010101.

Definition JsonEqByteMask (x y : Z) : Z :=
  let v := Z.lxor x y in
  Z.land (Z.ldiff (wrap64 (v - byte_ones)) v) high_bits.

Definition JsonWordAllWs (w : Z) : bool :=
  let m := JsonEqByteMask w 0x2020202020202020 in
  let m := Z.lor m (JsonEqByteMask w 0x0909090909090909) in
  let m := Z.lor m (JsonEqByteMask w 0x0A0A0A0A0A0A0A0A) in
  let m := Z.lor m (JsonEqByteMask w 0x0D0D0D0D0D0D0D0D) in
  m =? high_bits.

Definition JsonHasByteLt0x20 (x : Z) : Z := Z.land (Z.ldiff (wrap64 (x - 0x2020202020202020)) x) high_bits.

(** ** Control characters *)

(** The bytes from the first one below 0x20 on. *)
Fixpoint first_ctl (l : list Z) : option (list Z) :=
  match l with
  | c :: rest => if c <? 0x20 then Some l else first_ctl rest
  | [] => None
  end.

(** The loop over blocks of 32 bytes: whether there was a hit, and the rest. *)
Fixpoint ctl_blocks32 (fuel : nat) (l : list Z) : bool * list Z :=
  match fuel with
  | O => (false, l)
  | S fuel =>
      if 32 <=? Z.of_nat (length l) then
        let hit := JsonHasByteLt0x20 (le64 (take 8 l)) in
        let hit := Z.lor hit (JsonHasByteLt0x20 (le64 (take 8 (drop 8 l)))) in
        let hit := Z.lor hit (JsonHasByteLt0x20 (le64 (take 8 (drop 16 l)))) in
        let hit := Z.lor hit (JsonHasByteLt0x20 (le64 (take 8 (drop 24 l)))) in
        if negb (hit =? 0) then (true, l) else ctl_blocks32 fuel (drop 32 l)
      else (false, l)
  end.

Fixpoint ctl_blocks8 (fuel : nat) (l : list Z) : bool * list Z :=
  match fuel with
  | O => (false, l)
  | S fuel =>
      if 8 <=? Z.of_nat (length l) then
        if negb (JsonHasByteLt0x20 (le64 (take 8 l)) =? 0) then (true, l) else ctl_blocks8 fuel (drop 8 l)
      else (false, l)
  end.

Definition JsonFindCtlLt0x20 (p : list Z) : option (list Z) :=
  match ctl_blocks32 (length p) p with
  | (true, _) => first_ctl p
  | (false, cur) =>
      match ctl_blocks8 (length p) cur with
      | (true, _) => first_ctl p
      | (false, cur) => first_ctl cur
      end
  end.

(** ** White space *)

Definition is_ws (c : Z) : bool := (c =? 32) || (c =? 9) || (c =? 13) || (c =? 10).

Fixpoint skip_ws (l : list Z) : list Z :=
  match l with
  | c :: rest => if is_ws c then skip_ws rest else l
  | [] => []
  end.

Fixpoint ws_blocks32 (fuel : nat) (p : list Z) : list Z :=
  match fuel with
  | O => p
  | S fuel =>
      if 32 <=? Z.of_nat (length p) then
        if negb (JsonWordAllWs (le64 (take 8 p))) then p
        else if negb (JsonWordAllWs (le64 (take 8 (drop 8 p)))) then drop 8 p
        else if negb (JsonWordAllWs (le64 (take 8 (drop 16 p)))) then drop 16 p
        else if negb (JsonWordAllWs (le64 (take 8 (drop 24 p)))) then drop 24 p
        else ws_blocks32 fuel (drop 32 p)
      else p
  end.

Fixpoint ws_blocks8 (fuel : nat) (p : list Z) : list Z :=
  match fuel with
  | O => p
  | S fuel =>
      if 8 <=? Z.of_nat (length p) then
        if negb (JsonWordAllWs (le64 (take 8 p))) then p else ws_blocks8 fuel (drop 8 p)
      else p
  end.

Definition JsonSkipWsPtr (p : list Z) : list Z := skip_ws (ws_blocks8 (length p) (ws_blocks32 (length p) p)).

(** ** The cursor *)

(** [pos] is [p - start], [rest] the bytes from [p] to [end]. *)
Record cursor := mkCursor { pos : Z; rest : list Z }.

Definition advance_to (p : list Z) (c : cursor) : cursor := mkCursor (pos c + (Z.of_nat (length (rest c)) - Z.of_nat (length p))) p.

(** A result, or an error at a byte offset; [OutOfFuel] stands for a loop that goes on. *)
Inductive parsed (A : Type) := Parsed (a : A) | ParseError (at_byte : Z) (message : string) | OutOfFuel.
Arguments Parsed {A} _.
Arguments ParseError {A} _ _.
Arguments OutOfFuel {A}.

#[export] Instance parsed_ret : MRet parsed := @Parsed.
#[export] Instance parsed_bind : MBind parsed := fun A B f m =>
  match m with Parsed a => f a | ParseError n e => ParseError n e | OutOfFuel => OutOfFuel end.

Definition JsonSkipWs (c : cursor) : cursor := advance_to (JsonSkipWsPtr (rest c)) c.

Definition JsonPeek (c : cursor) : Z := match rest c with b :: _ => b | [] => -1 end.

Definition JsonGet (c : cursor) : Z * cursor :=
  match rest c with b :: r => (b, mkCursor (pos c + 1) r) | [] => (-1, c) end.

Definition JsonExpect (c : cursor) (ch : Z) (what : string) : parsed cursor :=
  let '(b, c) := JsonGet c in
  if b =? ch then Parsed c else ParseError (if 0 <? pos c then pos c - 1 else pos c) what.

(** ** Numbers *)

Definition is_digit10 (c : Z) : bool := (48 <=? c) && (c <=? 57).

(** The byte at a pointer; the NUL behind the buffer at its end. *)
Definition byte_at (p : list Z) : Z := match p with c :: _ => c | [] => 0 end.

Fixpoint after_digits (p : list Z) : list Z :=
  match p with
  | c :: q => if is_digit10 c then after_digits q else p
  | [] => []
  end.

Definition scan_minus (at_ : list Z -> Z) (s : list Z) : parsed (list Z) :=
  if byte_at s =? 45 then
    match drop 1 s with
    | [] => ParseError (at_ []) "unexpected end in number"
    | (c :: _) as p => if is_digit10 c then Parsed p else ParseError (at_ p) "expected digit after '-'"
    end
  else Parsed s.

Definition scan_int (at_ : list Z -> Z) (p : list Z) : parsed (list Z) :=
  if byte_at p =? 48 then
    let p := drop 1 p in
    if is_digit10 (byte_at p) then ParseError (at_ p) "invalid number" else Parsed p
  else if is_digit10 (byte_at p) then Parsed (after_digits p)
  else ParseError (at_ p) "invalid number".

Definition scan_frac (at_ : list Z -> Z) (p : list Z) : parsed (list Z * bool) :=
  if byte_at p =? 46 then
    let q := drop 1 p in
    if is_digit10 (byte_at q) then Parsed (after_digits q, true) else ParseError (at_ p) "invalid number"
  else Parsed (p, false).

Definition scan_exp (at_ : list Z -> Z) (p : list Z) : parsed (list Z * bool) :=
  if (byte_at p =? 101) || (byte_at p =? 69) then
    let q := drop 1 p in
    let q := if (byte_at q =? 43) || (byte_at q =? 45) then drop 1 q else q in
    if is_digit10 (byte_at q) then Parsed (after_digits q, true) else ParseError (at_ p) "invalid number"
  else Parsed (p, false).

(** The lexeme, whether it has a fraction or an exponent, and the cursor behind it. *)
Definition JsonScanNumber (c : cursor) : parsed (list Z * bool * cursor) :=
  let s := rest c in
  let at_ p := pos (advance_to p c) in
  p ← scan_minus at_ s;
  p ← scan_int at_ p;
  '(p, frac) ← scan_frac at_ p;
  '(p, exp) ← scan_exp at_ p;
  Parsed (take (length s - length p) s, frac || exp, advance_to p c).

(** [JsonNumberLexemeIsValid] and [JsonValidateNumberString]. *)
Definition JsonNumberLexemeIsValid (s : list Z) : bool :=
  match JsonScanNumber (mkCursor 0 s) with
  | Parsed (_, _, c) => bool_decide (rest c = [])
  | _ => false
  end.

(** ** Strings *)

Definition hex_digit (c : Z) : option Z :=
  if (48 <=? c) && (c <=? 57) then Some (c - 48)
  else if (97 <=? c) && (c <=? 102) then Some (10 + (c - 97))
  else if (65 <=? c) && (c <=? 70) then Some (10 + (c - 65))
  else None.

(** The loop over the digits. *)
Fixpoint hex_loop (n : nat) (v : Z) (c : cursor) : parsed (Z * cursor) :=
  match n with
  | O => Parsed (v, c)
  | S n =>
      match rest c with
      | [] => ParseError (pos c) "incomplete unicode escape"
      | b :: r =>
          match hex_digit b with
          | Some d => hex_loop n (Z.lor (Z.shiftl v 4) d) (mkCursor (pos c + 1) r)
          | None => ParseError (pos c) "invalid unicode escape"
          end
      end
  end.

Definition JsonDecodeHex4 (c : cursor) : parsed (Z * cursor) := hex_loop 4 0 c.

Definition JsonDecodeUnicodeEscape (c : cursor) : parsed (Z * cursor) :=
  '(u1, c) ← JsonDecodeHex4 c;
  if (0xD800 <=? u1) && (u1 <=? 0xDBFF) then
    let '(c1, c) := JsonGet c in
    let '(c2, c) := JsonGet c in
    if negb (c1 =? 92) || negb (c2 =? 117) then ParseError (if 0 <? pos c then pos c - 1 else pos c) "missing low surrogate"
    else
      '(u2, c) ← JsonDecodeHex4 c;
      if (u2 <? 0xDC00) || (0xDFFF <? u2) then ParseError (pos c - 1) "invalid low surrogate"
      else Parsed (0x10000 + Z.shiftl (u1 - 0xD800) 10 + (u2 - 0xDC00), c)
  else if (0xDC00 <=? u1) && (u1 <=? 0xDFFF) then ParseError (pos c - 1) "unexpected low surrogate"
  else Parsed (u1, c).

(** The check of a span of characters, which starts at [at_]. *)
Definition JsonCheckStringSpan (maxString at_ : Z) (span : list Z) (outLen : Z) : parsed unit :=
  match (if bool_decide (span = []) then None else JsonFindCtlLt0x20 span) with
  | Some bad => ParseError (at_ + Z.of_nat (length span) - Z.of_nat (length bad)) "unescaped control character in string"
  | None =>
      if (0 <? maxString) && (maxString <? outLen + Z.of_nat (length span)) then ParseError at_ "string too long"
      else Parsed tt
  end.

(** The first quote or backslash: what is before it, which one it is, what is behind it. *)
Definition next_special (p : list Z) : option (list Z * Z * list Z) :=
  match strchr 92 p, strchr 34 p with
  | (_, None), (b, Some r) => Some (b, 34, r)
  | (b, Some r), (_, None) => Some (b, 92, r)
  | (b1, Some r1), (b2, Some r2) => if (length b1 <? length b2)%nat then Some (b1, 92, r1) else Some (b2, 34, r2)
  | (_, None), (_, None) => None
  end.

Definition simple_escape (e : Z) : option Z :=
  if e =? 34 then Some 34 else if e =? 92 then Some 92 else if e =? 47 then Some 47
  else if e =? 98 then Some 8 else if e =? 102 then Some 12 else if e =? 110 then Some 10
  else if e =? 114 then Some 13 else if e =? 116 then Some 9 else None.

(** The escape behind a backslash: its bytes. *)
Definition string_escape (c : cursor) : parsed (list Z * cursor) :=
  match rest c with
  | [] => ParseError (pos c) "unexpected end in string escape"
  | e :: r =>
      match simple_escape e with
      | Some b => Parsed ([b], mkCursor (pos c + 1) r)
      | None =>
          if e =? 117 then
            '(cp, c) ← JsonDecodeUnicodeEscape (mkCursor (pos c + 1) r);
            match Ns_Utf8FromCodePoint cp with
            | [] => ParseError (pos c) "invalid unicode scalar value"
            | b => Parsed (b, c)
            end
          else ParseError (pos c) "invalid escape"
      end
  end.

(** The loop of the slow path, with what was decoded so far; every round consumes input. *)
Fixpoint string_loop (fuel : nat) (maxString : Z) (acc : list Z) (c : cursor) : parsed (list Z * cursor) :=
  match fuel with
  | O => OutOfFuel
  | S fuel =>
      match next_special (rest c) with
      | None => ParseError (pos c) "unterminated string"
      | Some (span, q, r) =>
          _ ← (if bool_decide (span = []) then Parsed tt else JsonCheckStringSpan maxString (pos c) span (Z.of_nat (length acc)));
          let acc := acc ++ span in
          let at_q := pos c + Z.of_nat (length span) in
          if q =? 34 then Parsed (acc, mkCursor (at_q + 1) r)
          else
            '(b, c) ← string_escape (mkCursor (at_q + 1) r);
            if (0 <? maxString) && (maxString <? Z.of_nat (length acc) + Z.of_nat (length b)) then ParseError at_q "string too long"
            else string_loop fuel maxString (acc ++ b) c
      end
  end.

Definition JsonParseStringToString (maxString : Z) (c : cursor) : parsed (list Z * cursor) :=
  c ← JsonExpect c 34 "expected quote";
  let p := rest c in
  match strchr 34 p with
  | (_, None) => ParseError (pos c + Z.of_nat (length p)) "unterminated string"
  | (span, Some r) =>
      match strchr 92 span with
      | (_, None) =>
          _ ← JsonCheckStringSpan maxString (pos c) span 0;
          Parsed (span, mkCursor (pos c + Z.of_nat (length span) + 1) r)
      | (_, Some _) => string_loop (S (length p)) maxString [] c
      end
  end.

(** ** Bytes of words *)

Definition byte_of (z : Z) (i : nat) : Z := (z / 2 ^ (8 * Z.of_nat i)) mod 256.

Lemma byte_of_bit z i j : 0 <= j < 8 -> Z.testbit (byte_of z i) j = Z.testbit z (8 * Z.of_nat i + j).
Proof.
  intros Hj. unfold byte_of. change 256 with (2 ^ 8). rewrite Z.mod_pow2_bits_low by lia. rewrite Z.div_pow2_bits by lia. f_equal. lia.
Qed.

Lemma byte_of_byte z i : is_byte (byte_of z i).
Proof. unfold byte_of, is_byte. apply Z.mod_pos_bound. lia. Qed.

Lemma le64_byte l i : is_bytes l -> byte_of (le64 l) i = nth i l 0.
Proof.
  intros Hl. apply byte_ext; [apply byte_of_byte| |].
  - destruct (nth_in_or_default i l 0) as [Hin| ->]; [|done]. unfold is_bytes in Hl. rewrite List.Forall_forall in Hl. by apply Hl.
  - intros j Hj. rewrite byte_of_bit by lia. apply le64_bit; [done|lia].
Qed.

Lemma bit7 z i : Z.testbit z (8 * Z.of_nat i + 7) = (128 <=? byte_of z i).
Proof.
  rewrite <- byte_of_bit, byte_bit7 by (lia || apply byte_of_byte). unfold ascii7. zcases; done || lia.
Qed.

(** Subtraction of words, byte by byte: the borrow is 0 or 1. *)
Lemma sub_byte x k i : exists b, (b = 0 \/ b = 1) /\ byte_of (x - k) i = (byte_of x i - byte_of k i - b) mod 256.
Proof.
  unfold byte_of. set (m := 2 ^ (8 * Z.of_nat i)). assert (Hm : 0 < m) by (apply Z.pow_pos_nonneg; lia).
  pose proof (Z.div_mod x m ltac:(lia)). pose proof (Z.div_mod k m ltac:(lia)). pose proof (Z.mod_pos_bound x m Hm). pose proof (Z.mod_pos_bound k m Hm).
  exists (if x mod m <? k mod m then 1 else 0). split; [destruct (_ <? _); auto|].
  assert (E : (x - k) / m = x / m - k / m - (if x mod m <? k mod m then 1 else 0)).
  { destruct (Z.ltb_spec (x mod m) (k mod m)); symmetry; [apply Z.div_unique with (x mod m - k mod m + m)|apply Z.div_unique with (x mod m - k mod m)]; lia. }
  rewrite E. set (b := if _ <? _ then 1 else 0). rewrite (Zminus_mod (x / m - k / m) b), (Zminus_mod (x / m) (k / m)).
  by rewrite (Zminus_mod ((x / m) mod 256 - (k / m) mod 256) b).
Qed.

Lemma wrap64_bit z n : 0 <= n < 64 -> Z.testbit (wrap64 z) n = Z.testbit z n.
Proof. intros Hn. unfold wrap64. apply Z.mod_pow2_bits_low. lia. Qed.

Lemma nth_byte_at l i : is_bytes l -> (i < length l)%nat -> is_byte (nth i l 0).
Proof. intros Hl Hi. unfold is_bytes in Hl. rewrite List.Forall_forall in Hl. apply Hl, nth_In, Hi. Qed.

(** A mask of equal bytes: it marks a byte that is equal, or one that differs in the last
    bit only and got a borrow from the byte below. *)
Lemma eq_mask_byte l y c i : is_bytes l -> (i < length l)%nat -> (i < 8)%nat -> byte_of y i = c -> byte_of byte_ones i = 1 ->
  Z.testbit (JsonEqByteMask (le64 l) y) (8 * Z.of_nat i + 7) = true -> nth i l 0 = c \/ nth i l 0 = Z.lxor c 1.
Proof.
  intros Hl Hi H8 Hy H1. unfold JsonEqByteMask. rewrite Z.land_spec, Z.ldiff_spec, wrap64_bit, !bit7 by lia.
  assert (Ev : byte_of (Z.lxor (le64 l) y) i = Z.lxor (nth i l 0) c).
  { apply byte_ext; [apply byte_of_byte| |].
    - subst c. pose proof (nth_byte_at l i Hl Hi) as Hb. pose proof (byte_of_byte y i) as Hc. apply byte_of_bits.
      + apply Z.lxor_nonneg. unfold is_byte in *. lia.
      + intros j Hj. by rewrite Z.lxor_spec, !byte_high by (done || lia).
    - intros j Hj. rewrite byte_of_bit, !Z.lxor_spec by lia. rewrite <- Hy, byte_of_bit, le64_bit by (done || lia). done. }
  destruct (sub_byte (Z.lxor (le64 l) y) byte_ones i) as (b & Hb & Es). rewrite Es, H1, Ev.
  set (v := Z.lxor (nth i l 0) c) in *. pose proof (byte_of_byte (Z.lxor (le64 l) y) i) as Hv. rewrite Ev in Hv. unfold is_byte in Hv.
  intros [[Hs Hn]%andb_prop _]%andb_prop. apply Z.leb_le in Hs. apply negb_true_iff, Z.leb_gt in Hn.
  assert (v = 0 \/ v = 1) as [E|E].
  { destruct (Z.le_gt_cases 2 v); [|lia]. exfalso. rewrite Z.mod_small in Hs by lia. lia. }
  - left. by apply Z.lxor_eq.
  - right. unfold v in E. apply Z.lxor_eq. rewrite <- E. rewrite (Z.lxor_comm c), !Z.lxor_assoc, Z.lxor_nilpotent, Z.lxor_0_r, Z.lxor_nilpotent. done.
Qed.

(** A byte below 0x20 is found. *)
Lemma lt20_byte l : is_bytes l -> length l = 8%nat -> JsonHasByteLt0x20 (le64 l) = 0 -> Forall (fun c => 32 <= c) l.
Proof.
  intros Hl H8 Hz. apply Forall_lookup. intros i c Hc. pose proof (lookup_lt_Some _ _ _ Hc) as Hi.
  assert (En : nth i l 0 = c) by (by rewrite nth_lookup, Hc). destruct (Z.le_gt_cases 32 c) as [|Hlt]; [done|exfalso].
  assert (Hb : is_byte c) by (rewrite <- En; by apply nth_byte_at).
  assert (Hbit : Z.testbit (JsonHasByteLt0x20 (le64 l)) (8 * Z.of_nat i + 7) = true).
  { unfold JsonHasByteLt0x20. rewrite Z.land_spec, Z.ldiff_spec, wrap64_bit, !bit7 by lia.
    assert (E32 : byte_of 0x2020202020202020 i = 32 /\ byte_of high_bits i = 128)
      by (do 8 (destruct i as [|i]; [by vm_compute|]); lia). destruct E32 as [E32 E128].
    destruct (sub_byte (le64 l) 0x2020202020202020 i) as (b & Hbo & ->). rewrite E32, E128, le64_byte, En by done.
    replace ((c - 32 - b) mod 256) with (c - 32 - b + 256) by (apply Z.mod_unique with (-1); unfold is_byte in Hb; lia).
    unfold is_byte in Hb. rewrite !(proj2 (Z.leb_le _ _)), (proj2 (Z.leb_gt _ _)) by lia. done. }
  rewrite Hz in Hbit. by rewrite Z.bits_0 in Hbit.
Qed.

(** White space, or such a byte with its last bit changed. *)
Definition near_ws (c : Z) : bool := is_ws c || is_ws (Z.lxor c 1).

Lemma AllWs_near l : is_bytes l -> length l = 8%nat -> JsonWordAllWs (le64 l) = true -> Forall (fun c => near_ws c = true) l.
Proof.
  intros Hl H8 Hw. unfold JsonWordAllWs in Hw. apply Z.eqb_eq in Hw. apply Forall_lookup. intros i c Hc. pose proof (lookup_lt_Some _ _ _ Hc) as Hi.
  assert (En : nth i l 0 = c) by (by rewrite nth_lookup, Hc).
  apply (f_equal (fun z => Z.testbit z (8 * Z.of_nat i + 7))) in Hw. rewrite (bit7 high_bits) in Hw.
  assert (Hk : byte_of high_bits i = 128 /\ byte_of byte_ones i = 1 /\ byte_of 0x2020202020202020 i = 32 /\ byte_of 0x0909090909090909 i = 9 /\
    byte_of 0x0A0A0A0A0A0A0A0A i = 10 /\ byte_of 0x0D0D0D0D0D0D0D0D i = 13)
    by (do 8 (destruct i as [|i]; [by vm_compute|]); lia). destruct Hk as (E128 & E1 & E32 & E9 & E10 & E13).
  rewrite E128 in Hw. change (128 <=? 128) with true in Hw. rewrite !Z.lor_spec in Hw. rewrite !orb_true_iff in Hw.
  destruct Hw as [[[Hm|Hm]|Hm]|Hm];
    [destruct (eq_mask_byte l _ 32 i Hl Hi ltac:(lia) E32 E1 Hm) as [E|E]|destruct (eq_mask_byte l _ 9 i Hl Hi ltac:(lia) E9 E1 Hm) as [E|E]
    |destruct (eq_mask_byte l _ 10 i Hl Hi ltac:(lia) E10 E1 Hm) as [E|E]|destruct (eq_mask_byte l _ 13 i Hl Hi ltac:(lia) E13 E1 Hm) as [E|E]];
    rewrite En in E; rewrite E; reflexivity.
Qed.

(** What follows the white space at the front is none that differs in the last bit. *)
Definition stops (p : list Z) : Prop := match skip_ws p with c :: _ => near_ws c = false | [] => True end.

Lemma skip_near n : forall p, (n <= length p)%nat -> Forall (fun c => near_ws c = true) (take n p) -> stops p -> skip_ws (drop n p) = skip_ws p.
Proof.
  induction n as [|n IH]; intros p Hn Hf Hs; [by rewrite drop_0|]. destruct p as [|c p]; [cbn in Hn; lia|]. cbn [take drop skip_ws] in *.
  inversion Hf as [|? ? Hc Hf']; subst. unfold stops in Hs. cbn [skip_ws] in Hs. destruct (is_ws c); [|congruence]. apply IH; [cbn in Hn; lia|done|exact Hs].
Qed.

Lemma stops_drop n p : skip_ws (drop n p) = skip_ws p -> stops p -> stops (drop n p).
Proof. unfold stops. by intros ->. Qed.

Lemma bytes_drop n p : is_bytes p -> is_bytes (drop n p).
Proof. apply Forall_drop. Qed.

(** One word of white space. *)
Lemma skip_ws_word n p : is_bytes p -> Z.of_nat n + 8 <= Z.of_nat (length p) -> stops p -> skip_ws (drop n p) = skip_ws p ->
  JsonWordAllWs (le64 (take 8 (drop n p))) = true -> skip_ws (drop (n + 8) p) = skip_ws p.
Proof.
  intros Hb Hl Hs En Hw. rewrite <- drop_drop, <- En. apply skip_near; [lens| |by apply stops_drop].
  apply AllWs_near; [apply Forall_take, Forall_drop, Hb|lens|done].
Qed.

Lemma ws_blocks32_ok fuel : forall p, is_bytes p -> stops p ->
  exists n, ws_blocks32 fuel p = drop n p /\ skip_ws (drop n p) = skip_ws p.
Proof.
  induction fuel as [|fuel IH]; intros p Hb Hs; cbn [ws_blocks32]; [by exists 0%nat; rewrite drop_0|].
  destruct (Z.leb_spec 32 (Z.of_nat (length p))) as [Hl|]; [|by exists 0%nat; rewrite drop_0].
  destruct (JsonWordAllWs (le64 (take 8 p))) eqn:E0; [|by exists 0%nat; rewrite drop_0]. cbn [negb].
  assert (H8 : skip_ws (drop 8 p) = skip_ws p) by (apply (skip_ws_word 0); [done|lia|done|by rewrite drop_0|by rewrite drop_0]).
  destruct (JsonWordAllWs (le64 (take 8 (drop 8 p)))) eqn:E1; [|by exists 8%nat]. cbn [negb].
  pose proof (skip_ws_word 8 p Hb ltac:(lia) Hs H8 E1) as H16. cbn [Nat.add] in H16.
  destruct (JsonWordAllWs (le64 (take 8 (drop 16 p)))) eqn:E2; [|by exists 16%nat]. cbn [negb].
  pose proof (skip_ws_word 16 p Hb ltac:(lia) Hs H16 E2) as H24. cbn [Nat.add] in H24.
  destruct (JsonWordAllWs (le64 (take 8 (drop 24 p)))) eqn:E3; [|by exists 24%nat]. cbn [negb].
  pose proof (skip_ws_word 24 p Hb ltac:(lia) Hs H24 E3) as H32. cbn [Nat.add] in H32.
  destruct (IH (drop 32 p)) as (n & -> & En); [by apply bytes_drop|by apply stops_drop|].
  exists (32 + n)%nat. rewrite <- drop_drop. split; [done|]. by rewrite En.
Qed.

Lemma ws_blocks8_ok fuel : forall p, is_bytes p -> stops p -> skip_ws (ws_blocks8 fuel p) = skip_ws p.
Proof.
  induction fuel as [|fuel IH]; intros p Hb Hs; cbn [ws_blocks8]; [done|].
  destruct (Z.leb_spec 8 (Z.of_nat (length p))) as [Hl|]; [|done]. destruct (JsonWordAllWs _) eqn:E0; [|done]. cbn [negb].
  assert (H8 : skip_ws (drop 8 p) = skip_ws p) by (apply (skip_ws_word 0); [done|lia|done|by rewrite drop_0|by rewrite drop_0]).
  rewrite IH; [done|by apply bytes_drop|by apply stops_drop].
Qed.

Lemma JsonSkipWsPtr_exact p : is_bytes p -> stops p -> JsonSkipWsPtr p = skip_ws p.
Proof.
  intros Hb Hs. unfold JsonSkipWsPtr. destruct (ws_blocks32_ok (length p) p Hb Hs) as (n & -> & En).
  rewrite ws_blocks8_ok; [done|by apply bytes_drop|by apply stops_drop].
Qed.

(** ** Control characters *)

Lemma first_ctl_app a b : Forall (fun c => 32 <= c) a -> first_ctl (a ++ b) = first_ctl b.
Proof. induction 1 as [|c a Hc _ IH]; [done|]. cbn. by rewrite (proj2 (Z.ltb_ge _ _)). Qed.

Lemma no_ctl_word n p : is_bytes p -> Z.of_nat n + 8 <= Z.of_nat (length p) -> JsonHasByteLt0x20 (le64 (take 8 (drop n p))) = 0 ->
  first_ctl (drop n p) = first_ctl (drop (n + 8) p).
Proof.
  intros Hb Hl Hz. rewrite <- (take_drop 8 (drop n p)) at 1. rewrite first_ctl_app, drop_drop; [done|].
  apply lt20_byte; [apply Forall_take, Forall_drop, Hb|lens|done].
Qed.

Lemma lor_zero a b : Z.lor a b = 0 -> a = 0 /\ b = 0.
Proof. apply Z.lor_eq_0_iff. Qed.

Lemma ctl_blocks32_ok fuel : forall p, is_bytes p -> exists n, (ctl_blocks32 fuel p).2 = drop n p /\ first_ctl (drop n p) = first_ctl p.
Proof.
  induction fuel as [|fuel IH]; intros p Hb; cbn [ctl_blocks32]; [by exists 0%nat; rewrite drop_0|].
  destruct (Z.leb_spec 32 (Z.of_nat (length p))) as [Hl|]; [|by exists 0%nat; rewrite drop_0]. cbv zeta.
  destruct (Z.eqb_spec (Z.lor (Z.lor (Z.lor (JsonHasByteLt0x20 (le64 (take 8 p))) (JsonHasByteLt0x20 (le64 (take 8 (drop 8 p)))))
    (JsonHasByteLt0x20 (le64 (take 8 (drop 16 p))))) (JsonHasByteLt0x20 (le64 (take 8 (drop 24 p))))) 0) as [E|]; [|by exists 0%nat; rewrite drop_0].
  cbn [negb]. apply lor_zero in E as [[[E0 E1]%lor_zero E2]%lor_zero E3].
  pose proof (no_ctl_word 0 p Hb ltac:(lia) ltac:(by rewrite drop_0)) as H0. pose proof (no_ctl_word 8 p Hb ltac:(lia) E1) as H1.
  pose proof (no_ctl_word 16 p Hb ltac:(lia) E2) as H2. pose proof (no_ctl_word 24 p Hb ltac:(lia) E3) as H3. rewrite drop_0 in H0. cbn [Nat.add] in *.
  destruct (IH (drop 32 p)) as (n & En & Ef); [by apply bytes_drop|]. exists (32 + n)%nat. rewrite <- drop_drop. split; [done|]. congruence.
Qed.

Lemma ctl_blocks8_ok fuel : forall p, is_bytes p -> first_ctl (ctl_blocks8 fuel p).2 = first_ctl p.
Proof.
  induction fuel as [|fuel IH]; intros p Hb; cbn [ctl_blocks8]; [done|].
  destruct (Z.leb_spec 8 (Z.of_nat (length p))) as [Hl|]; [|done]. destruct (Z.eqb_spec (JsonHasByteLt0x20 (le64 (take 8 p))) 0) as [E|]; [|done]. cbn [negb].
  pose proof (no_ctl_word 0 p Hb ltac:(lia) ltac:(by rewrite drop_0)) as H0. rewrite drop_0 in H0. cbn [Nat.add] in H0.
  rewrite IH by (by apply bytes_drop). done.
Qed.

Lemma JsonFindCtl_exact p : is_bytes p -> JsonFindCtlLt0x20 p = first_ctl p.
Proof.
  intros Hb. unfold JsonFindCtlLt0x20. destruct (ctl_blocks32_ok (length p) p Hb) as (n & En & Ef).
  destruct (ctl_blocks32 (length p) p) as [[] cur]; [done|]. cbn [snd] in En. subst cur.
  pose proof (ctl_blocks8_ok (length p) (drop n p) ltac:(by apply bytes_drop)) as H8. destruct (ctl_blocks8 (length p) (drop n p)) as [[] cur]; [done|].
  cbn [snd] in H8. congruence.
Qed.

(** ** Theorems *)

(** Searching control characters a word at a time, in blocks of 32 and 8 bytes, finds
    the first byte below 0x20 of any string of bytes, as a search byte by byte does;
    and skipping white space that way skips exactly the white space, unless the byte
    behind it is one of 0x08, 0x0b, 0x0c and 0x21. *)
Theorem Json_word_scans p : is_bytes p ->
  JsonFindCtlLt0x20 p = first_ctl p /\ (stops p -> JsonSkipWsPtr p = skip_ws p).
Proof. intros Hb. split; [by apply JsonFindCtl_exact|by apply JsonSkipWsPtr_exact]. Qed.

Lemma same_word a b p : length a = 8%nat -> length b = 8%nat -> JsonWordAllWs (le64 a) = true -> JsonWordAllWs (le64 b) = true ->
  JsonSkipWsPtr (a ++ p) = JsonSkipWsPtr (b ++ p).
Proof.
  intros Ha Hb Hwa Hwb. assert (Ht : forall c, length c = 8%nat -> take 8 (c ++ p) = c) by (intros c Hc; rewrite <- Hc; apply take_app_length).
  assert (Hd : forall c n, length c = 8%nat -> drop (8 + n) (c ++ p) = drop n p)
    by (intros c n Hc; rewrite <- drop_drop, <- Hc; by rewrite drop_app_length).
  assert (H8 : forall c fuel, length c = 8%nat -> JsonWordAllWs (le64 c) = true -> ws_blocks8 (S fuel) (c ++ p) = ws_blocks8 fuel p).
  { intros c fuel Hc Hw. cbn [ws_blocks8]. rewrite Ht, Hw by done. rewrite (proj2 (Z.leb_le _ _)) by lens. cbn [negb]. pose proof (Hd c 0%nat Hc) as E0. cbn [Nat.add] in E0. by rewrite E0, drop_0. }
  assert (H32 : forall c fuel, length c = 8%nat -> JsonWordAllWs (le64 c) = true -> ws_blocks32 (S fuel) (c ++ p) =
    if 24 <=? Z.of_nat (length p) then
      if negb (JsonWordAllWs (le64 (take 8 p))) then p
      else if negb (JsonWordAllWs (le64 (take 8 (drop 8 p)))) then drop 8 p
      else if negb (JsonWordAllWs (le64 (take 8 (drop 16 p)))) then drop 16 p
      else ws_blocks32 fuel (drop 24 p)
    else c ++ p).
  { intros c fuel Hc Hw. cbn [ws_blocks32]. rewrite Ht, Hw by done. cbn [negb].
    pose proof (Hd c 0%nat Hc) as E0. pose proof (Hd c 8%nat Hc) as E8. pose proof (Hd c 16%nat Hc) as E16. pose proof (Hd c 24%nat Hc) as E24.
    cbn [Nat.add] in E0, E8, E16, E24. rewrite E0, E8, E16, E24, drop_0.
    assert (El : Z.of_nat (length (c ++ p)) = 8 + Z.of_nat (length p)) by lens. rewrite El.
    destruct (Z.leb_spec 32 (8 + Z.of_nat (length p))), (Z.leb_spec 24 (Z.of_nat (length p))); done || lia. }
  unfold JsonSkipWsPtr. rewrite !length_app, Ha, Hb. cbn [Nat.add]. rewrite !H32 by done.
  destruct (24 <=? Z.of_nat (length p)); [done|]. by rewrite !H8.
Qed.

(** Exclamation marks are skipped as white space: the test of a word takes a byte that
    differs from a blank in its last bit for a blank when the byte before it is one
    (the subtraction borrows), so that a blank and seven exclamation marks pass. *)
Theorem Json_marks_skipped p : JsonSkipWsPtr (32 :: replicate 7 33 ++ p) = JsonSkipWsPtr (replicate 8 32 ++ p).
Proof.
  change (32 :: replicate 7 33 ++ p) with ((32 :: replicate 7 33) ++ p). by apply same_word.
Qed.

(** Nine blanks before a bracket. *)
Lemma Json_word_scans_witness : let p := replicate 9 32 ++ bytes "[1]" in
  JsonFindCtlLt0x20 p = first_ctl p /\ (stops p -> JsonSkipWsPtr p = skip_ws p).
Proof. cbv zeta. apply Json_word_scans. unfold is_bytes, is_byte. apply (bool_decide_unpack _). vm_compute. exact I. Defined.
