(* ===== verification/JsonParse.v ===== *)
(** * JsonParse: the JSON parser (nsd/tcljson.c).

    [Ns_JsonParse] for the outputs triples and tclvalue.  A container in triples is a Tcl
    list of names, types and values, where the names of array elements are their
    indexes.  Tcl values are shared by reference in the code but never changed after
    they are built, so they are trees here; the table of shared keys only saves memory. *)

From Stdlib Require Import SpecFloat.
From S2P Require Import Prelude Utf8 JsonScan.

(** ** Values *)

Inductive JsonValueType := JSON_VT_AUTO | JSON_VT_STRING | JSON_VT_NUMBER | JSON_VT_BOOL | JSON_VT_NULL | JSON_VT_OBJECT | JSON_VT_ARRAY.

#[export] Instance JsonValueType_eq : EqDecision JsonValueType.
Proof. solve_decision. Defined.

(** A Tcl value: a string, a list or a dict. *)
Inductive Tcl_Obj := TStr (s : list Z) | TList (l : list Tcl_Obj) | TDict (m : list (list Z * Tcl_Obj)).

(** The names of the types. *)
Definition JsonTypeString (vt : JsonValueType) : list Z :=
  bytes match vt with
        | JSON_VT_AUTO => "auto" | JSON_VT_STRING => "string" | JSON_VT_NUMBER => "number" | JSON_VT_BOOL => "boolean"
        | JSON_VT_NULL => "null" | JSON_VT_OBJECT => "object" | JSON_VT_ARRAY => "array"
        end.

Inductive Ns_JsonOutput := NS_JSON_OUTPUT_TCL_VALUE | NS_JSON_OUTPUT_TRIPLES.
Inductive Ns_JsonTop := NS_JSON_TOP_ANY | NS_JSON_TOP_CONTAINER.

Record Ns_JsonOptions := mkJsonOptions {
  maxDepth : Z; maxContainer : Z; validateNumbers : bool; nullValueObj : Tcl_Obj; maxString : Z;
  output : Ns_JsonOutput; top : Ns_JsonTop
}.

(** The decimal digits of an index. *)
Definition index_name (n : Z) : list Z := dec n.

(** [Tcl_DictObjPut]: the value of a key that exists is replaced. *)
Fixpoint dict_put {A} (m : list (list Z * A)) (k : list Z) (v : A) : list (list Z * A) :=
  match m with
  | [] => [(k, v)]
  | (k', v') :: m => if bool_decide (k' = k) then (k, v) :: m else (k', v') :: dict_put m k v
  end.

Section parse.
(** Tcl's conversion of a string to a double. *)
Context (Tcl_GetDoubleFromObj : list Z -> option spec_float) (opt : Ns_JsonOptions).

Definition json_result : Type := Tcl_Obj * JsonValueType * cursor.

Definition JsonTriplesAppendVt (l : list Tcl_Obj) (name : list Z) (vt : JsonValueType) (value : Tcl_Obj) : list Tcl_Obj :=
  l ++ [TStr name; TStr (JsonTypeString vt); value].

(** A container so far: its triples, or the members of a dict or elements of a list. *)
Definition empty_object : Tcl_Obj := match output opt with NS_JSON_OUTPUT_TRIPLES => TList [] | NS_JSON_OUTPUT_TCL_VALUE => TDict [] end.

Definition put_member (acc : Tcl_Obj) (key : list Z) (vt : JsonValueType) (value : Tcl_Obj) : Tcl_Obj :=
  match acc with
  | TList l => TList (JsonTriplesAppendVt l key vt value)
  | TDict m => TDict (dict_put m key value)
  | TStr _ => acc
  end.

Definition put_element (acc : list Tcl_Obj) (idx : Z) (vt : JsonValueType) (value : Tcl_Obj) : list Tcl_Obj :=
  match output opt with
  | NS_JSON_OUTPUT_TRIPLES => JsonTriplesAppendVt acc (index_name idx) vt value
  | NS_JSON_OUTPUT_TCL_VALUE => acc ++ [value]
  end.

Definition JsonParseLiteral (c : cursor) : parsed json_result :=
  let p := rest c in
  if bool_decide (take 4 p = bytes "true") then Parsed (TStr (bytes "true"), JSON_VT_BOOL, advance_to (drop 4 p) c)
  else if bool_decide (take 5 p = bytes "false") then Parsed (TStr (bytes "false"), JSON_VT_BOOL, advance_to (drop 5 p) c)
  else if bool_decide (take 4 p = bytes "null") then Parsed (nullValueObj opt, JSON_VT_NULL, advance_to (drop 4 p) c)
  else ParseError (pos c) "invalid literal".

Definition is_finite (d : spec_float) : bool := match d with S754_zero _ | S754_finite _ _ _ => true | _ => false end.

Definition JsonParseNumber (c : cursor) : parsed json_result :=
  '(lex, sawFracOrExp, c') ← JsonScanNumber c;
  let result := Parsed (TStr lex, JSON_VT_NUMBER, c') in
  if validateNumbers opt && sawFracOrExp then
    match Tcl_GetDoubleFromObj lex with
    | None => ParseError (pos c) "invalid double"
    | Some d => if is_finite d then result else ParseError (pos c) "number is not a finite Tcl double"
    end
  else result.

Definition JsonParseString (c : cursor) : parsed json_result :=
  '(s, c) ← JsonParseStringToString (maxString opt) c;
  Parsed (TStr s, JSON_VT_STRING, c).

Definition too_many (n : Z) : bool := (0 <? maxContainer opt) && (maxContainer opt <? n).

(** The recursion of the parser; every two levels of it consume a byte. *)
Fixpoint JsonParseValue (fuel : nat) (depth : Z) (c : cursor) : parsed json_result :=
  match fuel with
  | O => OutOfFuel
  | S fuel =>
      let c := JsonSkipWs c in
      let ch := JsonPeek c in
      if ch <? 0 then ParseError (pos c) "unexpected end of input"
      else if ch =? 123 then JsonParseObject fuel depth c
      else if ch =? 91 then JsonParseArray fuel depth c
      else if ch =? 34 then JsonParseString c
      else if (ch =? 116) || (ch =? 102) || (ch =? 110) then JsonParseLiteral c
      else if (ch =? 45) || is_digit10 ch then JsonParseNumber c
      else ParseError (pos c) "unexpected character"
  end
with JsonParseObject (fuel : nat) (depth : Z) (c : cursor) : parsed json_result :=
  match fuel with
  | O => OutOfFuel
  | S fuel =>
      let depth := depth + 1 in
      if maxDepth opt <? depth then ParseError (pos c) "max depth exceeded"
      else
        let c := JsonSkipWs (JsonGet c).2 in
        if JsonPeek c =? 125 then Parsed (empty_object, JSON_VT_OBJECT, (JsonGet c).2)
        else object_loop fuel depth empty_object 0 c
  end
with object_loop (fuel : nat) (depth : Z) (acc : Tcl_Obj) (elemCount : Z) (c : cursor) : parsed json_result :=
  match fuel with
  | O => OutOfFuel
  | S fuel =>
      '(key, c) ← JsonParseStringToString (maxString opt) c;
      c ← JsonExpect (JsonSkipWs c) 58 "expected ':'";
      '(value, vt, c) ← JsonParseValue fuel depth c;
      let acc := put_member acc key vt value in
      let elemCount := elemCount + 1 in
      if too_many elemCount then ParseError (pos c) "max container size exceeded"
      else
        let c := JsonSkipWs c in
        if JsonPeek c =? 44 then object_loop fuel depth acc elemCount (JsonSkipWs (JsonGet c).2)
        else if JsonPeek c =? 125 then Parsed (acc, JSON_VT_OBJECT, (JsonGet c).2)
        else ParseError (pos c) "expected ',' or '}'"
  end
with JsonParseArray (fuel : nat) (depth : Z) (c : cursor) : parsed json_result :=
  match fuel with
  | O => OutOfFuel
  | S fuel =>
      let depth := depth + 1 in
      if maxDepth opt <? depth then ParseError (pos c) "max depth exceeded"
      else
        let c := JsonSkipWs (JsonGet c).2 in
        if JsonPeek c =? 93 then Parsed (TList [], JSON_VT_ARRAY, (JsonGet c).2)
        else array_loop fuel depth [] 0 c
  end
with array_loop (fuel : nat) (depth : Z) (acc : list Tcl_Obj) (idx : Z) (c : cursor) : parsed json_result :=
  match fuel with
  | O => OutOfFuel
  | S fuel =>
      '(value, vt, c) ← JsonParseValue fuel depth c;
      let acc := put_element acc idx vt value in
      let idx := idx + 1 in
      if too_many idx then ParseError (pos c) "max container size exceeded"
      else
        let c := JsonSkipWs c in
        if JsonPeek c =? 44 then array_loop fuel depth acc idx (JsonSkipWs (JsonGet c).2)
        else if JsonPeek c =? 93 then Parsed (TList acc, JSON_VT_ARRAY, (JsonGet c).2)
        else ParseError (pos c) "expected ',' or ']'"
  end.

Definition json_fuel (p : list Z) : nat := 3 * length p + 3.

(** The top-level value has to be a container, and is none. *)
Definition top_refused (ch : Z) : bool :=
  match top opt with NS_JSON_TOP_CONTAINER => negb (ch =? 123) && negb (ch =? 91) | NS_JSON_TOP_ANY => false end.

(** The value and the number of bytes that were consumed. *)
Definition Ns_JsonParse (buf : list Z) : parsed (Tcl_Obj * Z) :=
  let c := JsonSkipWs (mkCursor 0 buf) in
  if bool_decide (rest c = []) then ParseError (pos c) "unexpected end of input"
  else if top_refused (JsonPeek c)
  then ParseError (pos c) "top-level value must be object or array (-top container)"
  else
    '(value, vt, c) ← JsonParseValue (json_fuel buf) 0 c;
    Parsed (match output opt with
            | NS_JSON_OUTPUT_TRIPLES => TList [TStr []; TStr (JsonTypeString vt); value]
            | NS_JSON_OUTPUT_TCL_VALUE => value
            end, pos c).

(** The offset of the first byte behind the value that is no white space, if any. *)
Definition JsonCheckTrailingDecode (buf : list Z) (consumed : Z) : option Z :=
  match JsonSkipWsPtr (drop (Z.to_nat consumed) buf) with
  | [] => None
  | p => Some (Z.of_nat (length buf) - Z.of_nat (length p))
  end.

(** "ns_json parse" without -scan. *)
Definition JsonParseObjCmd (buf : list Z) : parsed Tcl_Obj :=
  '(value, consumed) ← Ns_JsonParse buf;
  match JsonCheckTrailingDecode buf consumed with
  | None => Parsed value
  | Some n => ParseError n "trailing data"
  end.
End parse.
