(* ===== verification/JsonGrammar.v ===== *)
(** * JsonGrammar: the texts of RFC 8259 and the JSON parser (nsd/tcljson.c).

    The grammar of JSON as relations between texts and values, the Tcl values that the
    parser builds for them, the limits of the options, and the theorem that the parser
    ends for every input. *)

From Stdlib Require Import SpecFloat.
From S2P Require Import Prelude Utf8 JsonScan JsonParse.

(** ** JSON texts *)

(** The value of a text; a number is its lexeme. *)
Inductive json :=
| JString (s : list Z)
| JNumber (lexeme : list Z)
| JBool (b : bool)
| JNull
| JObject (members : list (list Z * json))
| JArray (elements : list json).

Definition digit (c : Z) : Prop := 48 <= c <= 57.
Definition all_digits (l : list Z) : Prop := Forall digit l.

(** number = [ minus ] int [ frac ] [ exp ] *)
Definition minus_part (m : list Z) : Prop := m = [] \/ m = [45].
Definition int_part (i : list Z) : Prop := i = [48] \/ exists d ds, i = d :: ds /\ 49 <= d <= 57 /\ all_digits ds.
Definition frac_part (f : list Z) : Prop := f = [] \/ exists d ds, f = 46 :: d :: ds /\ all_digits (d :: ds).
Definition exp_part (e : list Z) : Prop :=
  e = [] \/ exists x sg d ds, e = x :: sg ++ d :: ds /\ (x = 101 \/ x = 69) /\ (sg = [] \/ sg = [43] \/ sg = [45]) /\ all_digits (d :: ds).
Definition number (l : list Z) : Prop :=
  exists m i f e, l = m ++ i ++ f ++ e /\ minus_part m /\ int_part i /\ frac_part f /\ exp_part e.

(** Hexadecimal digits, and the value of four of them. *)
Definition hexval (c v : Z) : Prop := (48 <= c <= 57 /\ v = c - 48) \/ (97 <= c <= 102 /\ v = c - 87) \/ (65 <= c <= 70 /\ v = c - 55).

Definition hex4 (h : list Z) (v : Z) : Prop :=
  exists a b c d x y z w, h = [a; b; c; d] /\ hexval a x /\ hexval b y /\ hexval c z /\ hexval d w /\ v = 4096 * x + 256 * y + 16 * z + w.

(** The characters behind a backslash and what they stand for. *)
Definition escape_chars : list (Z * Z) := [(34, 34); (92, 92); (47, 47); (98, 8); (102, 12); (110, 10); (114, 13); (116, 9)].

(** An escape, its text behind the backslash and its bytes.  The escape of a surrogate counts only in a pair of a high and a
    low one: the ABNF of RFC 8259 also has unpaired ones, which stand for no character (section 8.2) and are
    no escapes here; the parser refuses them ([JsonComplete.lone_surrogates_refused]). *)
Inductive escape : list Z -> list Z -> Prop :=
| esc_simple e b : (e, b) ∈ escape_chars -> escape [e] [b]
| esc_unicode h u : hex4 h u -> ~ 0xD800 <= u <= 0xDFFF -> escape (117 :: h) (Ns_Utf8FromCodePoint u)
| esc_pair h1 h2 u1 u2 : hex4 h1 u1 -> 0xD800 <= u1 <= 0xDBFF -> hex4 h2 u2 -> 0xDC00 <= u2 <= 0xDFFF ->
    escape (117 :: h1 ++ 92 :: 117 :: h2) (Ns_Utf8FromCodePoint (0x10000 + 1024 * (u1 - 0xD800) + (u2 - 0xDC00))).

(** The characters between the quotes, and the bytes they stand for. *)
Inductive body : list Z -> list Z -> Prop :=
| body_nil : body [] []
| body_plain c t s : 32 <= c < 256 -> c <> 34 -> c <> 92 -> body t s -> body (c :: t) (c :: s)
| body_escape e b t s : escape e b -> body t s -> body (92 :: e ++ t) (b ++ s).

Definition quoted (t : list Z) : list Z := 34 :: t ++ [34].

(** The white space of RFC 8259, and with the bytes that differ from it in the last bit. *)
Definition json_ws (c : Z) : bool := bool_decide (c ∈ [0x20; 0x09; 0x0A; 0x0D]).
Definition lenient_ws (c : Z) : bool := bool_decide (c ∈ [0x20; 0x09; 0x0A; 0x0D; 0x21; 0x08; 0x0B; 0x0C]).

(** The structure, with what is taken for white space as a parameter. *)
Section text.
Context (blank : Z -> bool).

Definition ws (w : list Z) : Prop := Forall (fun c => blank c = true) w.

Inductive value_text : json -> list Z -> Prop :=
| text_string s t : body t s -> value_text (JString s) (quoted t)
| text_number l : number l -> value_text (JNumber l) l
| text_true : value_text (JBool true) (bytes "true")
| text_false : value_text (JBool false) (bytes "false")
| text_null : value_text JNull (bytes "null")
| text_empty_object w : ws w -> value_text (JObject []) (123 :: w ++ [125])
| text_object w ms t : ws w -> members_text ms t -> value_text (JObject ms) (123 :: w ++ t ++ [125])
| text_empty_array w : ws w -> value_text (JArray []) (91 :: w ++ [93])
| text_array w es t : ws w -> elements_text es t -> value_text (JArray es) (91 :: w ++ t ++ [93])
with members_text : list (list Z * json) -> list Z -> Prop :=
| text_member k kt w1 w2 v t w3 : body kt k -> ws w1 -> ws w2 -> value_text v t -> ws w3 ->
    members_text [(k, v)] (quoted kt ++ w1 ++ 58 :: w2 ++ t ++ w3)
| text_members k kt w1 w2 v t w3 w4 ms ts : body kt k -> ws w1 -> ws w2 -> value_text v t -> ws w3 -> ws w4 -> members_text ms ts ->
    members_text ((k, v) :: ms) (quoted kt ++ w1 ++ 58 :: w2 ++ t ++ w3 ++ 44 :: w4 ++ ts)
with elements_text : list json -> list Z -> Prop :=
| text_element v t w : value_text v t -> ws w -> elements_text [v] (t ++ w)
| text_elements v t w1 w2 vs ts : value_text v t -> ws w1 -> ws w2 -> elements_text vs ts -> elements_text (v :: vs) (t ++ w1 ++ 44 :: w2 ++ ts).

Scheme value_text_mut := Induction for value_text Sort Prop
  with members_text_mut := Induction for members_text Sort Prop
  with elements_text_mut := Induction for elements_text Sort Prop.
Combined Scheme text_mutind from value_text_mut, members_text_mut, elements_text_mut.
End text.

(** More white space, more texts. *)
Lemma text_mono (b1 b2 : Z -> bool) : (forall c, b1 c = true -> b2 c = true) -> (forall w, ws b1 w -> ws b2 w) /\
  (forall j t, value_text b1 j t -> value_text b2 j t) /\ (forall ms t, members_text b1 ms t -> members_text b2 ms t) /\
  (forall es t, elements_text b1 es t -> elements_text b2 es t).
Proof.
  intros Hb. assert (Hw : forall w, ws b1 w -> ws b2 w) by (intros w Hw; eapply Forall_impl; [exact Hw|exact Hb]).
  split; [done|]. apply text_mutind; intros; constructor; auto.
Qed.

(** ** Values and limits *)

Section value.
Context (Tcl_GetDoubleFromObj : list Z -> option spec_float) (opt : Ns_JsonOptions).

Definition type_of (j : json) : JsonValueType :=
  match j with
  | JString _ => JSON_VT_STRING | JNumber _ => JSON_VT_NUMBER | JBool _ => JSON_VT_BOOL
  | JNull => JSON_VT_NULL | JObject _ => JSON_VT_OBJECT | JArray _ => JSON_VT_ARRAY
  end.

(** The Tcl value of a JSON value. *)
Fixpoint value_of (j : json) : Tcl_Obj :=
  match j with
  | JString s | JNumber s => TStr s
  | JBool b => TStr (bytes (if b then "true" else "false"))
  | JNull => nullValueObj opt
  | JObject ms => fold_left (fun acc kv => match kv with (k, v) => put_member acc k (type_of v) (value_of v) end) ms (empty_object opt)
  | JArray es => TList (fold_left (fun acc v => (put_element opt acc.1 acc.2 (type_of v) (value_of v), acc.2 + 1)) es ([], 0)).1
  end.

(** The value of the whole text. *)
Definition top_value (j : json) : Tcl_Obj :=
  match output opt with
  | NS_JSON_OUTPUT_TRIPLES => TList [TStr []; TStr (JsonTypeString (type_of j)); value_of j]
  | NS_JSON_OUTPUT_TCL_VALUE => value_of j
  end.

(** A number with a fraction or an exponent. *)
Definition fractional (l : list Z) : bool := existsb (fun c => (c =? 46) || (c =? 101) || (c =? 69)) l.

Definition limit_ok (limit n : Z) : bool := (limit <=? 0) || (n <=? limit).

Definition number_fits (l : list Z) : bool :=
  negb (validateNumbers opt && fractional l) || match Tcl_GetDoubleFromObj l with Some d => is_finite d | None => false end.

(** The limits of the options, for a value inside of [depth] containers. *)
Fixpoint fits (depth : Z) (j : json) : bool :=
  match j with
  | JString s => limit_ok (maxString opt) (Z.of_nat (length s))
  | JNumber l => number_fits l
  | JBool _ | JNull => true
  | JObject ms => (depth + 1 <=? maxDepth opt) && limit_ok (maxContainer opt) (Z.of_nat (length ms)) &&
      forallb (fun kv => match kv with (k, v) => limit_ok (maxString opt) (Z.of_nat (length k)) && fits (depth + 1) v end) ms
  | JArray es => (depth + 1 <=? maxDepth opt) && limit_ok (maxContainer opt) (Z.of_nat (length es)) && forallb (fits (depth + 1)) es
  end.

Definition is_container (j : json) : bool := match j with JObject _ | JArray _ => true | _ => false end.

Definition top_fits (j : json) : bool := fits 0 j && match top opt with NS_JSON_TOP_CONTAINER => is_container j | NS_JSON_TOP_ANY => true end.
End value.

(** ** The parser ends *)

Definition left (c : cursor) : nat := length (rest c).

Lemma skip_ws_length p : (length (skip_ws p) <= length p)%nat.
Proof. induction p as [|c p IH]; cbn; [done|]. destruct (is_ws c); cbn; lia. Qed.

Lemma ws_blocks8_length fuel : forall p, (length (ws_blocks8 fuel p) <= length p)%nat.
Proof.
  induction fuel as [|fuel IH]; intros p; cbn [ws_blocks8]; [done|]. destruct (_ <=? _); [|done]. destruct (negb _); [done|].
  specialize (IH (drop 8 p)). rewrite length_drop in IH. lia.
Qed.

Lemma ws_blocks32_length fuel : forall p, (length (ws_blocks32 fuel p) <= length p)%nat.
Proof.
  induction fuel as [|fuel IH]; intros p; cbn [ws_blocks32]; [done|]. destruct (_ <=? _); [|done].
  repeat (destruct (negb _); [rewrite ?length_drop; lia|]). specialize (IH (drop 32 p)). rewrite length_drop in IH. lia.
Qed.

Lemma JsonSkipWs_left c : (left (JsonSkipWs c) <= left c)%nat.
Proof.
  unfold left, JsonSkipWs, advance_to. cbn [rest]. unfold JsonSkipWsPtr. etrans; [apply skip_ws_length|]. etrans; [apply ws_blocks8_length|]. apply ws_blocks32_length.
Qed.

(** What a parser does with its input: it ends, and consumes at least [n] bytes. *)
Definition consumes {A} (n : nat) (c : cursor) (after : A -> cursor) (x : parsed A) : Prop :=
  match x with Parsed a => (left (after a) + n <= left c)%nat | ParseError _ _ => True | OutOfFuel => False end.

Lemma consumes_bind {A B} n m c after after' (x : parsed A) (f : A -> parsed B) : consumes n c after x ->
  (forall a, (left (after a) + n <= left c)%nat -> consumes m (after a) after' (f a)) -> consumes (n + m) c after' (x ≫= f).
Proof.
  unfold mbind, parsed_bind. destruct x as [a|? ?|]; cbn; [|done|done]. intros Hn Hf. specialize (Hf a Hn). destruct (f a); cbn in *; [lia|done|done].
Qed.

Lemma consumes_from {A} n m c c' after (x : parsed A) : consumes n c' after x -> (left c' + m <= left c + n)%nat -> consumes m c after x.
Proof. destruct x; cbn; [lia|done|done]. Qed.

Lemma JsonGet_left c : JsonPeek c <> -1 -> (left (JsonGet c).2 + 1 = left c)%nat.
Proof. unfold JsonPeek, JsonGet, left. destruct (rest c); cbn; [done|lia]. Qed.

Lemma JsonGet_le c : (left (JsonGet c).2 <= left c)%nat.
Proof. unfold JsonGet, left. destruct (rest c) eqn:E; cbn; rewrite ?E; cbn; lia. Qed.

Lemma JsonExpect_consumes c ch what : ch <> -1 -> consumes 1 c id (JsonExpect c ch what).
Proof.
  intros Hc. unfold JsonExpect, JsonGet, consumes, left. destruct (rest c) as [|b r] eqn:E.
  - destruct (Z.eqb_spec (-1) ch); [lia|done].
  - destruct (b =? ch); [|done]. cbn. lia.
Qed.

Lemma hex_loop_consumes n : forall v c, consumes n c snd (hex_loop n v c).
Proof.
  induction n as [|n IH]; intros v c; cbn [hex_loop]; [cbn; lia|]. destruct (rest c) as [|b r] eqn:E; [done|]. destruct (hex_digit b); [|done].
  eapply consumes_from; [apply IH|]. unfold left. rewrite E. cbn. lia.
Qed.

Lemma JsonDecodeUnicodeEscape_consumes c : consumes 4 c snd (JsonDecodeUnicodeEscape c).
Proof.
  unfold JsonDecodeUnicodeEscape, JsonDecodeHex4. apply (consumes_bind 4 0 c snd); [apply hex_loop_consumes|]. intros [u1 c1] _. cbn [snd].
  destruct (_ && _); [|destruct (_ && _); [done|cbn; lia]].
  pose proof (JsonGet_le c1) as H1. destruct (JsonGet c1) as [b1 c2]. pose proof (JsonGet_le c2) as H2. destruct (JsonGet c2) as [b2 c3]. cbn [snd] in *.
  destruct (_ || _); [done|]. eapply (consumes_from 4 0 c1 c3); [|lia]. apply (consumes_bind 4 0 c3 snd); [apply hex_loop_consumes|].
  intros [u2 c4] _. destruct (_ || _); [done|]. cbn. lia.
Qed.

Lemma string_escape_consumes c : consumes 1 c snd (string_escape c).
Proof.
  unfold string_escape. destruct (rest c) as [|e r] eqn:E; [done|].
  assert (Hc : (left (mkCursor (pos c + 1) r) + 1 = left c)%nat) by (unfold left; rewrite E; cbn; lia).
  destruct (simple_escape e); [unfold consumes; cbn [snd]; lia|]. destruct (e =? 117); [|done].
  eapply (consumes_from 4 1 c (mkCursor (pos c + 1) r)); [|lia]. apply (consumes_bind 4 0 _ snd); [apply JsonDecodeUnicodeEscape_consumes|].
  intros [cp c'] _. destruct (Ns_Utf8FromCodePoint cp); [done|]. cbn. lia.
Qed.

Lemma strchr_length c l p q : strchr c l = (p, Some q) -> (length p + length q + 1 = length l)%nat.
Proof.
  revert p q. induction l as [|x l IH]; intros p q; cbn [strchr]; [done|]. destruct (x =? c); [intros [= <- <-]; cbn; lia|].
  destruct (strchr c l) as [p' q'] eqn:E. intros [= <- ->]. specialize (IH p' q eq_refl). cbn. lia.
Qed.

Lemma next_special_length p b q r : next_special p = Some (b, q, r) -> (length b + length r + 1 = length p)%nat.
Proof.
  unfold next_special. destruct (strchr 92 p) as [b1 [r1|]] eqn:E1, (strchr 34 p) as [b2 [r2|]] eqn:E2; try done;
    try apply strchr_length in E1; try apply strchr_length in E2; [destruct (_ <? _)%nat|..]; intros [= <- _ <-]; done.
Qed.

Lemma span_ends maxString at_ span n : JsonCheckStringSpan maxString at_ span n <> OutOfFuel.
Proof. unfold JsonCheckStringSpan. destruct (if bool_decide _ then _ else _); [done|]. by destruct (_ && _). Qed.

Lemma string_loop_consumes maxString fuel : forall acc c, (left c < fuel)%nat -> consumes 1 c snd (string_loop fuel maxString acc c).
Proof.
  induction fuel as [|fuel IH]; intros acc c Hf; [lia|]. cbn [string_loop]. destruct (next_special (rest c)) as [[[span q] r]|] eqn:E; [|done].
  apply next_special_length in E. fold (left c) in E.
  assert (Hs : forall f : unit -> parsed (list Z * cursor), consumes 1 c snd (f tt) ->
    consumes 1 c snd ((if bool_decide (span = []) then Parsed tt else JsonCheckStringSpan maxString (pos c) span (Z.of_nat (length acc))) ≫= f)).
  { intros f Hfx. unfold mbind, parsed_bind. pose proof (span_ends maxString (pos c) span (Z.of_nat (length acc))).
    destruct (if bool_decide _ then _ else _) as [[]|? ?|] eqn:Ec; [done|done|]. by case_bool_decide. }
  apply Hs. cbv zeta. destruct (q =? 34); [unfold consumes, left in *; cbn; lia|].
  set (c1 := mkCursor _ r). assert (Hc1 : (left c1 + 1 <= left c)%nat) by (unfold left in *; cbn; lia).
  eapply (consumes_from 1 1 c c1); [|lia]. apply (consumes_bind 1 0 c1 snd); [apply string_escape_consumes|]. intros [b c2] Hc2. cbn [snd] in *.
  destruct (_ && _); [done|]. eapply consumes_from; [apply IH|]; lia.
Qed.

Lemma JsonParseStringToString_consumes maxString c : consumes 2 c snd (JsonParseStringToString maxString c).
Proof.
  unfold JsonParseStringToString. apply (consumes_bind 1 1 c id); [by apply JsonExpect_consumes|]. intros c1 _. unfold id.
  destruct (strchr 34 (rest c1)) as [span [r|]] eqn:E; [|done]. apply strchr_length in E. destruct (strchr 92 span) as [? [?|]].
  - apply string_loop_consumes. unfold left. lia.
  - pose proof (span_ends maxString (pos c1) span 0). unfold mbind, parsed_bind.
    destruct (JsonCheckStringSpan _ _ _ _) as [[]|? ?|]; [|done|done]. unfold consumes, left. cbn. lia.
Qed.

Lemma after_digits_length p : (length (after_digits p) <= length p)%nat.
Proof. induction p as [|c p IH]; cbn; [done|]. destruct (is_digit10 c); cbn; lia. Qed.

Lemma is_digit10_range c : is_digit10 c = true <-> digit c.
Proof. unfold is_digit10, digit. rewrite andb_true_iff, !Z.leb_le. done. Qed.

Lemma hex_digit_spec c v : hex_digit c = Some v <-> hexval c v.
Proof. unfold hex_digit, hexval. zcases; split; intros; simplify_eq; f_equal; lia. Qed.

Lemma simple_escape_spec e b : simple_escape e = Some b <-> (e, b) ∈ escape_chars.
Proof.
  unfold simple_escape, escape_chars. rewrite !elem_of_cons, elem_of_nil. zcases; split; intros; naive_solver lia.
Qed.

(** The parts of a number. *)
Definition shortens (n : nat) (p : list Z) {A} (after : A -> list Z) (x : parsed A) : Prop :=
  match x with Parsed a => (length (after a) + n <= length p)%nat | ParseError _ _ => True | OutOfFuel => False end.

Lemma scan_parts at_ p :
  shortens 0 p id (scan_minus at_ p) /\ shortens 1 p id (scan_int at_ p) /\ shortens 0 p fst (scan_frac at_ p) /\ shortens 0 p fst (scan_exp at_ p).
Proof.
  assert (Hd : forall n, (length (drop n p) <= length p)%nat) by (intros; rewrite length_drop; lia). split_and!.
  - unfold scan_minus. destruct (_ =? 45); [|cbn; unfold id; lia]. destruct (drop 1 p) as [|c q] eqn:E; [done|]. destruct (is_digit10 c); [|done].
    specialize (Hd 1%nat). rewrite E in Hd. cbn in *. unfold id. cbn. lia.
  - unfold scan_int. destruct p as [|c p']; [done|]. cbn [byte_at drop]. destruct (c =? 48).
    + rewrite drop_0. destruct (is_digit10 _); [done|]. cbn. unfold id. lia.
    + destruct (is_digit10 c) eqn:E; [|done]. cbn [after_digits shortens]. rewrite E. pose proof (after_digits_length p'). unfold id. cbn. lia.
  - unfold scan_frac. destruct (_ =? 46); [|cbn; lia]. cbv zeta. destruct (is_digit10 _); [|done]. cbn [shortens fst].
    pose proof (after_digits_length (drop 1 p)). specialize (Hd 1%nat). lia.
  - unfold scan_exp. destruct (_ || _); [|cbn; lia]. cbv zeta. destruct (is_digit10 _); [|done]. cbn [shortens fst].
    destruct (_ || _); [pose proof (after_digits_length (drop 1 (drop 1 p))); rewrite drop_drop in *; specialize (Hd 2%nat)
    |pose proof (after_digits_length (drop 1 p)); specialize (Hd 1%nat)]; cbn [Nat.add] in *; lia.
Qed.

Lemma JsonScanNumber_consumes c : consumes 1 c snd (JsonScanNumber c).
Proof.
  unfold JsonScanNumber. cbv zeta. set (at_ := fun p : list Z => pos (advance_to p c)).
  destruct (scan_parts at_ (rest c)) as (H1 & _). destruct (scan_minus at_ (rest c)) as [p1|? ?|]; [|done|done]. cbn [mbind parsed_bind].
  destruct (scan_parts at_ p1) as (_ & H2 & _). destruct (scan_int at_ p1) as [p2|? ?|]; [|done|done]. cbn [mbind parsed_bind].
  destruct (scan_parts at_ p2) as (_ & _ & H3 & _). destruct (scan_frac at_ p2) as [[p3 f]|? ?|]; [|done|done]. cbn [mbind parsed_bind].
  destruct (scan_parts at_ p3) as (_ & _ & _ & H4). destruct (scan_exp at_ p3) as [[p4 e]|? ?|]; [|done|done].
  unfold mbind, parsed_bind, consumes, left, advance_to. cbn in *. unfold id in *. lia.
Qed.

Section ends.
Context (Tcl_GetDoubleFromObj : list Z -> option spec_float) (opt : Ns_JsonOptions).

Lemma JsonParseNumber_consumes c : consumes 1 c snd (JsonParseNumber Tcl_GetDoubleFromObj opt c).
Proof.
  unfold JsonParseNumber. apply (consumes_bind 1 0 c snd); [apply JsonScanNumber_consumes|]. intros [[lex fe] c'] _. cbn [snd].
  destruct (_ && _); [|cbn; lia]. destruct (Tcl_GetDoubleFromObj lex); [|done]. destruct (is_finite _); [cbn; lia|done].
Qed.

Lemma JsonParseLiteral_consumes c : consumes 1 c snd (JsonParseLiteral opt c).
Proof.
  unfold JsonParseLiteral. cbv zeta. assert (Hd : forall n w, take n (rest c) = w -> w <> [] -> (1 <= n)%nat -> (left (advance_to (drop n (rest c)) c) + 1 <= left c)%nat).
  { intros n w Hw Hne Hn. unfold left, advance_to. cbn [rest]. rewrite length_drop. destruct (rest c); [by rewrite take_nil in Hw; subst|cbn; lia]. }
  repeat case_bool_decide; try done; cbn [consumes snd]; eapply Hd; try eassumption; done || lia.
Qed.

Notation value := (JsonParseValue Tcl_GetDoubleFromObj opt).

Lemma parse_ends fuel :
  (forall depth c, (3 * left c + 3 <= fuel)%nat -> consumes 1 c snd (value fuel depth c)) /\
  (forall depth c, (3 * left c + 2 <= fuel)%nat -> JsonPeek c <> -1 -> consumes 1 c snd (JsonParseObject Tcl_GetDoubleFromObj opt fuel depth c)) /\
  (forall depth acc n c, (3 * left c + 4 <= fuel)%nat -> consumes 1 c snd (object_loop Tcl_GetDoubleFromObj opt fuel depth acc n c)) /\
  (forall depth c, (3 * left c + 2 <= fuel)%nat -> JsonPeek c <> -1 -> consumes 1 c snd (JsonParseArray Tcl_GetDoubleFromObj opt fuel depth c)) /\
  (forall depth acc n c, (3 * left c + 4 <= fuel)%nat -> consumes 1 c snd (array_loop Tcl_GetDoubleFromObj opt fuel depth acc n c)).
Proof.
  induction fuel as [|fuel (IHv & IHo & IHol & IHa & IHal)]; [split_and!; intros; lia|]. split_and!.
  - intros depth c Hf. cbn [JsonParseValue]. cbv zeta. pose proof (JsonSkipWs_left c) as Hs. set (c1 := JsonSkipWs c) in *.
    destruct (JsonPeek c1 <? 0) eqn:E0; [done|]. apply Z.ltb_ge in E0. eapply (consumes_from 1 1 c c1); [|lia].
    repeat match goal with |- context [if ?b then _ else _] => destruct b end;
      [apply IHo; lia|apply IHa; lia| |apply JsonParseLiteral_consumes|apply JsonParseNumber_consumes|done].
    unfold JsonParseString. eapply consumes_from; [apply (consumes_bind 2 0 c1 snd); [apply JsonParseStringToString_consumes|]|lia].
    intros [s c2] _. cbn. lia.
  - intros depth c Hf Hp. cbn [JsonParseObject]. cbv zeta. destruct (_ <? _); [done|]. pose proof (JsonGet_left c Hp) as Hg.
    pose proof (JsonSkipWs_left (JsonGet c).2) as Hs. set (c1 := JsonSkipWs (JsonGet c).2) in *. pose proof (JsonGet_le c1) as Hg1.
    destruct (_ =? 125); [cbn; lia|]. eapply consumes_from; [apply IHol|]; lia.
  - intros depth acc n c Hf. cbn [object_loop]. eapply (consumes_from (2 + 0) 1 c c); [|lia].
    apply (consumes_bind 2 0 c snd); [apply JsonParseStringToString_consumes|]. intros [key c1] H1. cbn [snd] in *.
    pose proof (JsonSkipWs_left c1) as H2. eapply (consumes_from (1 + 0) 0 c1 (JsonSkipWs c1)); [|lia].
    apply (consumes_bind 1 0 _ id); [by apply JsonExpect_consumes|]. unfold id. intros c2 H3.
    eapply (consumes_from (1 + 0) 0 c2 c2); [|lia]. apply (consumes_bind 1 0 c2 snd); [apply IHv; lia|]. intros [[v vt] c3] H4. cbn [snd] in *. cbv zeta.
    destruct (too_many opt _); [done|]. pose proof (JsonSkipWs_left c3) as H5. set (c4 := JsonSkipWs c3) in *.
    destruct (Z.eqb_spec (JsonPeek c4) 44) as [E|]; [|destruct (_ =? 125); [cbn; pose proof (JsonGet_le c4); lia|done]].
    pose proof (JsonGet_left c4 ltac:(lia)) as H6. pose proof (JsonSkipWs_left (JsonGet c4).2) as H7. eapply consumes_from; [apply IHol|]; lia.
  - intros depth c Hf Hp. cbn [JsonParseArray]. cbv zeta. destruct (_ <? _); [done|]. pose proof (JsonGet_left c Hp) as Hg.
    pose proof (JsonSkipWs_left (JsonGet c).2) as Hs. set (c1 := JsonSkipWs (JsonGet c).2) in *. pose proof (JsonGet_le c1) as Hg1.
    destruct (_ =? 93); [cbn; lia|]. eapply consumes_from; [apply IHal|]; lia.
  - intros depth acc n c Hf. cbn [array_loop].
    eapply (consumes_from (1 + 0) 1 c c); [|lia]. apply (consumes_bind 1 0 c snd); [apply IHv; lia|]. intros [[v vt] c3] H4. cbn [snd] in *. cbv zeta.
    destruct (too_many opt _); [done|]. pose proof (JsonSkipWs_left c3) as H5. set (c4 := JsonSkipWs c3) in *.
    destruct (Z.eqb_spec (JsonPeek c4) 44) as [E|]; [|destruct (_ =? 93); [cbn; pose proof (JsonGet_le c4); lia|done]].
    pose proof (JsonGet_left c4 ltac:(lia)) as H6. pose proof (JsonSkipWs_left (JsonGet c4).2) as H7. eapply consumes_from; [apply IHal|]; lia.
Qed.

(** The JSON parser ends for every input, whatever the options are: it gives a value or
    an error, and the fuel [3 n + 3] for n bytes is never used up. *)
Theorem JsonParse_ends buf : JsonParseObjCmd Tcl_GetDoubleFromObj opt buf <> OutOfFuel.
Proof.
  unfold JsonParseObjCmd, Ns_JsonParse. cbv zeta. case_bool_decide; [done|]. destruct (top_refused opt _); [done|].
  pose proof (JsonSkipWs_left (mkCursor 0 buf)) as Hs. change (left (mkCursor 0 buf)) with (length buf) in Hs. destruct (parse_ends (json_fuel buf)) as (Hv & _).
  specialize (Hv 0 (JsonSkipWs (mkCursor 0 buf))). unfold mbind, parsed_bind.
  destruct (JsonParseValue _ _ _ _ _) as [[[v vt] c]|? ?|]; [|done|exfalso; apply Hv; unfold json_fuel; lia].
  by destruct (JsonCheckTrailingDecode buf (pos c)).
Qed.
End ends.
