(* ===== verification/JsonComplete.v ===== *)
(** * JsonComplete: the JSON parser accepts the JSON texts (nsd/tcljson.c).

    Every text of the grammar of JsonGrammar.v whose value is within the limits of the
    options is parsed to the Tcl value of that value. *)

From Stdlib Require Import SpecFloat.
From S2P Require Import Prelude Utf8 JsonScan JsonParse JsonGrammar.

(** ** White space and delimiters *)

(** What is there is not skipped. *)
Definition solid (k : list Z) : Prop := match k with c :: _ => near_ws c = false | [] => True end.

Lemma skip_ws_app w k : ws is_ws w -> solid k -> skip_ws (w ++ k) = k.
Proof.
  intros Hw Hk. induction Hw as [|c w Hc _ IH]; cbn [app skip_ws].
  - destruct k as [|c k]; [done|]. cbn in *. unfold near_ws in Hk. by destruct (is_ws c).
  - by rewrite Hc.
Qed.

Lemma JsonSkipWs_app n w k : ws is_ws w -> is_bytes (w ++ k) -> solid k ->
  JsonSkipWs (mkCursor n (w ++ k)) = mkCursor (n + Z.of_nat (length w)) k.
Proof.
  intros Hw Hb Hk. unfold JsonSkipWs, advance_to. cbn [pos rest]. rewrite JsonSkipWsPtr_exact; [|done|].
  - rewrite skip_ws_app by done. f_equal. lens.
  - unfold stops. by rewrite skip_ws_app.
Qed.

(** What may follow a value. *)
Definition delim (k : list Z) : Prop := match k with c :: _ => is_ws c = true \/ c = 44 \/ c = 125 \/ c = 93 | [] => True end.

Lemma delim_app w k : ws is_ws w -> delim k -> delim (w ++ k).
Proof. intros Hw Hk. destruct Hw; cbn; auto. Qed.

Lemma is_ws_cases c : is_ws c = true -> c = 32 \/ c = 9 \/ c = 13 \/ c = 10.
Proof. unfold is_ws. zcases; intros; done || lia. Qed.

Lemma json_ws_is_ws c : json_ws c = true -> is_ws c = true.
Proof. unfold json_ws. intros Hc%bool_decide_eq_true. rewrite !elem_of_cons, elem_of_nil in Hc. destruct Hc as [->|[->|[->|[->|[]]]]]; done. Qed.

Lemma ws_bytes w : ws is_ws w -> is_bytes w.
Proof. intros Hw. eapply Forall_impl; [exact Hw|]. intros c Hc%is_ws_cases. unfold is_byte. lia. Qed.

(** ** Numbers *)

(** No digit follows. *)
Definition no_digit (k : list Z) : Prop := is_digit10 (byte_at k) = false.

Lemma after_digits_app ds k : all_digits ds -> no_digit k -> after_digits (ds ++ k) = k.
Proof.
  intros Hd Hk. induction Hd as [|c ds Hc _ IH]; cbn [app after_digits].
  - destruct k as [|c k]; [done|]. cbn. unfold no_digit in Hk. cbn in Hk. by rewrite Hk.
  - by rewrite (proj2 (is_digit10_range c) Hc).
Qed.

Lemma delim_byte k : delim k -> let c := byte_at k in c = 0 \/ c = 32 \/ c = 9 \/ c = 13 \/ c = 10 \/ c = 44 \/ c = 125 \/ c = 93.
Proof. destruct k as [|c k]; cbn; [auto|]. intros [?%is_ws_cases|?]; lia. Qed.

Lemma scan_exp_app at_ e k : exp_part e -> delim k -> scan_exp at_ (e ++ k) = Parsed (k, bool_decide (e <> [])).
Proof.
  intros He Hk. apply delim_byte in Hk. cbv zeta in Hk. destruct He as [->|(x & sg & d & ds & -> & Hx & Hsg & Hd)].
  - cbn [app]. unfold scan_exp. by rewrite (proj2 (orb_false_iff _ _)) by lia.
  - unfold scan_exp. cbn [app byte_at drop]. rewrite ?drop_0. rewrite (proj2 (orb_true_iff _ _)) by (rewrite !Z.eqb_eq; lia).
    assert (Hd' : is_digit10 d = true) by (apply is_digit10_range; by inversion Hd). pose proof (proj1 (is_digit10_range d) Hd') as Hr. unfold digit in Hr.
    rewrite <- !app_assoc. assert (Eq : (if (byte_at (sg ++ (d :: ds) ++ k) =? 43) || (byte_at (sg ++ (d :: ds) ++ k) =? 45) then drop 1 (sg ++ (d :: ds) ++ k) else sg ++ (d :: ds) ++ k) = (d :: ds) ++ k).
    { destruct Hsg as [->|[->| ->]]; [|done|done]. cbn [app byte_at]. by rewrite (proj2 (orb_false_iff _ _)) by lia. }
    cbv zeta. rewrite Eq. cbn [app byte_at]. rewrite Hd'. change (d :: ds ++ k) with ((d :: ds) ++ k). rewrite after_digits_app; [done|done|].
    unfold no_digit. unfold is_digit10. lia.
Qed.

Lemma scan_frac_app at_ f e k : frac_part f -> exp_part e -> delim k -> scan_frac at_ (f ++ e ++ k) = Parsed (e ++ k, bool_decide (f <> [])).
Proof.
  intros Hf He Hk. apply delim_byte in Hk. cbv zeta in Hk.
  assert (Hh : byte_at (e ++ k) <> 46 /\ no_digit (e ++ k)).
  { unfold no_digit, is_digit10. destruct He as [->|(x & sg & d & ds & -> & Hx & _)]; cbn [app byte_at]; lia. }
  destruct Hh as [Hn Hnd]. unfold scan_frac. destruct Hf as [->|(d & ds & -> & Hd)].
  - cbn [app]. by rewrite (proj2 (Z.eqb_neq _ _)).
  - cbn [app byte_at drop]. rewrite ?drop_0. cbn. inversion Hd as [|? ? Hd' Hds]; subst. rewrite (proj2 (is_digit10_range d) Hd'). by rewrite after_digits_app.
Qed.

Lemma scan_int_app at_ i k : int_part i -> no_digit k -> scan_int at_ (i ++ k) = Parsed k.
Proof.
  intros Hi Hk. unfold scan_int. destruct Hi as [->|(d & ds & -> & Hd & Hds)]; cbn [app byte_at].
  - cbn. rewrite ?drop_0. unfold no_digit in Hk. by rewrite Hk.
  - rewrite (proj2 (Z.eqb_neq _ _)) by lia. assert (Hd' : is_digit10 d = true) by (apply is_digit10_range; unfold digit; lia). rewrite Hd'.
    cbn [after_digits]. rewrite Hd'. by rewrite after_digits_app.
Qed.

Lemma scan_minus_app at_ m i k : minus_part m -> int_part i -> scan_minus at_ (m ++ i ++ k) = Parsed (i ++ k).
Proof.
  intros Hm Hi. assert (Hd : exists d r, i = d :: r /\ is_digit10 d = true /\ d <> 45).
  { destruct Hi as [->|(d & ds & -> & Hd & _)]; [by exists 48, []|]. exists d, ds. split; [done|]. split; [apply is_digit10_range; unfold digit|]; lia. }
  destruct Hd as (d & r & -> & Hd & Hn). unfold scan_minus. destruct Hm as [->| ->]; cbn [app byte_at].
  - by rewrite (proj2 (Z.eqb_neq _ _)).
  - cbn [Z.eqb Pos.eqb drop]. by rewrite Hd.
Qed.

Lemma fractional_app a b : fractional (a ++ b) = fractional a || fractional b.
Proof. apply existsb_app. Qed.

Lemma fractional_digits ds : all_digits ds -> fractional ds = false.
Proof. induction 1 as [|c ds Hc _ IH]; [done|]. unfold digit in Hc. unfold fractional in *. cbn [existsb]. rewrite IH. lia. Qed.

Lemma fractional_parts m i f e : minus_part m -> int_part i -> frac_part f -> exp_part e ->
  fractional (m ++ i ++ f ++ e) = bool_decide (f <> []) || bool_decide (e <> []).
Proof.
  intros Hm Hi Hf He. rewrite !fractional_app.
  assert (fractional m = false) as -> by (by destruct Hm as [->| ->]).
  assert (fractional i = false) as ->.
  { destruct Hi as [->|(d & ds & -> & Hd & Hds)]; [done|]. apply fractional_digits. constructor; [unfold digit; lia|done]. }
  cbn [orb]. f_equal.
  - by destruct Hf as [->|(d & ds & -> & _)].
  - destruct He as [->|(x & sg & d & ds & -> & [->| ->] & _)]; done.
Qed.

Lemma JsonScanNumber_app n l k : number l -> delim k ->
  JsonScanNumber (mkCursor n (l ++ k)) = Parsed (l, fractional l, mkCursor (n + Z.of_nat (length l)) k).
Proof.
  intros (m & i & f & e & -> & Hm & Hi & Hf & He) Hk. rewrite fractional_parts by done.
  unfold JsonScanNumber. cbv zeta. cbn [rest pos]. rewrite <- !app_assoc, scan_minus_app by done. cbn [mbind parsed_bind].
  rewrite scan_int_app; [|done|].
  2: { apply delim_byte in Hk. cbv zeta in Hk. unfold no_digit, is_digit10. destruct Hf as [->|(d & ds & -> & _)]; [|done]. cbn [app].
       destruct He as [->|(x & sg & d & ds & -> & Hx & _)]; cbn [app byte_at]; lia. }
  cbn [mbind parsed_bind]. rewrite scan_frac_app by done. cbn [mbind parsed_bind]. rewrite scan_exp_app by done. cbn [mbind parsed_bind].
  unfold advance_to. cbn [rest pos]. do 2 f_equal; [|f_equal; lens]. f_equal.
  replace (length (m ++ i ++ f ++ e ++ k) - length k)%nat with (length (m ++ i ++ f ++ e)) by lens.
  replace (m ++ i ++ f ++ e ++ k) with ((m ++ i ++ f ++ e) ++ k) by (by rewrite <- !app_assoc). by rewrite take_app_length.
Qed.

(** ** Strings *)

Definition plain (p : list Z) : Prop := Forall (fun c => 32 <= c < 256 /\ c <> 34 /\ c <> 92) p.

Lemma next_special_plain p q r : plain p -> q = 34 \/ q = 92 -> next_special (p ++ q :: r) = Some (p, q, r).
Proof.
  intros Hp Hq. unfold next_special.
  assert (Hoth : forall c, (c = 34 \/ c = 92) -> c <> q -> (exists p' o, strchr c (p ++ q :: r) = (p', o) /\ (length p < length p')%nat)).
  { intros c Hc Hne. clear Hq. induction Hp as [|x p Hx _ IH]; cbn [app strchr].
    - rewrite (proj2 (Z.eqb_neq _ _)) by lia. destruct (strchr c r) as [p' o]. exists (q :: p'), o. cbn. split; [done|lia].
    - rewrite (proj2 (Z.eqb_neq _ _)) by lia. destruct IH as (p' & o & -> & Hl). exists (x :: p'), o. cbn. split; [done|lia]. }
  assert (Hq' : strchr q (p ++ q :: r) = (p, Some r)).
  { apply strchr_app. eapply Forall_impl; [exact Hp|]. cbn. intros; lia. }
  destruct Hq as [-> | ->].
  - rewrite Hq'. destruct (Hoth 92) as (p' & o & -> & Hl); [lia..|]. destruct o; [|done]. by rewrite (proj2 (Nat.ltb_ge _ _)) by lia.
  - rewrite Hq'. destruct (Hoth 34) as (p' & o & -> & Hl); [lia..|]. destruct o; [|done]. by rewrite (proj2 (Nat.ltb_lt _ _)) by lia.
Qed.

Lemma plain_bytes p : plain p -> is_bytes p.
Proof. intros Hp. eapply Forall_impl; [exact Hp|]. unfold is_byte. cbn. lia. Qed.

Lemma plain_no_ctl p : plain p -> JsonFindCtlLt0x20 p = None.
Proof.
  intros Hp. rewrite JsonFindCtl_exact by (by apply plain_bytes). induction Hp as [|c p Hc _ IH]; [done|]. cbn. by rewrite (proj2 (Z.ltb_ge _ _)) by lia.
Qed.

Lemma span_ok maxString at_ p n : plain p -> limit_ok maxString (n + Z.of_nat (length p)) = true -> JsonCheckStringSpan maxString at_ p n = Parsed tt.
Proof.
  intros Hp Hl. unfold JsonCheckStringSpan. rewrite plain_no_ctl by done. unfold limit_ok in Hl.
  replace (if bool_decide (p = []) then None else None) with (@None (list Z)) by (by case_bool_decide).
  destruct (_ && _) eqn:E; [|done]. apply andb_prop in E as [E1%Z.ltb_lt E2%Z.ltb_lt]. apply orb_prop in Hl as [Hl|Hl]; lia.
Qed.

Lemma limit_mono limit n m : limit_ok limit m = true -> n <= m -> limit_ok limit n = true.
Proof. unfold limit_ok. zcases; intros; done || lia. Qed.

Lemma hex_digit_range c d : hexval c d -> 0 <= d < 16.
Proof. unfold hexval. lia. Qed.

Lemma nibble v d : 0 <= d < 16 -> Z.lor (Z.shiftl v 4) d = 16 * v + d.
Proof.
  intros Hd. assert (E : Z.land (Z.shiftl v 4) d = 0).
  { apply Z.bits_inj'. intros n Hn. rewrite Z.land_spec, Z.bits_0, Z.shiftl_spec by lia. destruct (Z.lt_ge_cases n 4).
    - by rewrite Z.testbit_neg_r by lia.
    - rewrite <- (Z.mod_small d (2 ^ 4)), Z.mod_pow2_bits_high by lia. apply andb_false_r. }
  rewrite <- Z.lxor_lor, <- Z.add_nocarry_lxor, Z.shiftl_mul_pow2 by done || lia. lia.
Qed.

Lemma JsonDecodeHex4_app n h u k : hex4 h u -> JsonDecodeHex4 (mkCursor n (h ++ k)) = Parsed (u, mkCursor (n + 4) k).
Proof.
  intros (a & b & c & d & x & y & z & w & -> & Ha & Hb & Hc & Hd & ->). unfold JsonDecodeHex4. cbn [app hex_loop rest pos]. rewrite (proj2 (hex_digit_spec _ _) Ha), (proj2 (hex_digit_spec _ _) Hb), (proj2 (hex_digit_spec _ _) Hc), (proj2 (hex_digit_spec _ _) Hd).
  apply hex_digit_range in Ha, Hb, Hc, Hd. rewrite !nibble by lia. do 2 f_equal; [|f_equal]; lia.
Qed.

Lemma hex4_range h u : hex4 h u -> 0 <= u <= 0xFFFF /\ length h = 4%nat.
Proof.
  intros (a & b & c & d & x & y & z & w & -> & Ha & Hb & Hc & Hd & ->). apply hex_digit_range in Ha, Hb, Hc, Hd. split; [lia|done].
Qed.

Lemma FromCodePoint_nonempty u : 0 <= u <= 0x10FFFF -> Ns_Utf8FromCodePoint u <> [].
Proof. intros Hu. unfold Ns_Utf8FromCodePoint. zcases; done || lia. Qed.

Lemma string_escape_app n e b k : escape e b -> string_escape (mkCursor n (e ++ k)) = Parsed (b, mkCursor (n + Z.of_nat (length e)) k).
Proof.
  destruct 1 as [e b He|h u Hh Hu|h1 h2 u1 u2 H1 Hu1 H2 Hu2]; unfold string_escape; cbn [app rest pos].
  - by rewrite (proj2 (simple_escape_spec _ _) He).
  - destruct (hex4_range h u Hh) as [Hr Hl]. change (simple_escape 117) with (@None Z). change (117 =? 117) with true. cbv match.
    unfold JsonDecodeUnicodeEscape. erewrite JsonDecodeHex4_app by done. cbn [mbind parsed_bind].
    rewrite (proj2 (andb_false_iff _ _)), (proj2 (andb_false_iff (0xDC00 <=? u) _)) by lia. cbn [mbind parsed_bind].
    pose proof (FromCodePoint_nonempty u ltac:(lia)). destruct (Ns_Utf8FromCodePoint u); [done|]. cbn [length]. do 2 f_equal. f_equal; lia.
  - destruct (hex4_range h1 u1 H1) as [_ Hl1], (hex4_range h2 u2 H2) as [_ Hl2]. change (simple_escape 117) with (@None Z). change (117 =? 117) with true. cbv match.
    unfold JsonDecodeUnicodeEscape. rewrite <- app_assoc. erewrite JsonDecodeHex4_app by done. cbn [mbind parsed_bind].
    rewrite (proj2 (andb_true_iff _ _)) by lia. cbn [app JsonGet rest pos]. change (negb (92 =? 92) || negb (117 =? 117)) with false. cbv match.
    erewrite JsonDecodeHex4_app by done. cbn [mbind parsed_bind]. rewrite (proj2 (orb_false_iff _ _)) by lia. cbn [mbind parsed_bind].
    rewrite Z.shiftl_mul_pow2 by lia. replace ((u1 - 55296) * 2 ^ 10) with (1024 * (u1 - 55296)) by lia.
    pose proof (FromCodePoint_nonempty (65536 + 1024 * (u1 - 55296) + (u2 - 56320)) ltac:(lia)).
    destruct (Ns_Utf8FromCodePoint _); [done|]. cbn [length]. rewrite length_app. cbn [length]. do 2 f_equal. f_equal; lia.
Qed.

Lemma string_loop_app maxString t s k : body t s -> forall fuel acc p n, plain p -> (length p + length t < fuel)%nat ->
  limit_ok maxString (Z.of_nat (length acc + length p + length s)) = true ->
  string_loop fuel maxString acc (mkCursor n (p ++ t ++ 34 :: k)) = Parsed (acc ++ p ++ s, mkCursor (n + Z.of_nat (length p + length t + 1)) k).
Proof.
  assert (Hspan : forall p acc n A (f : unit -> parsed A), plain p -> limit_ok maxString (Z.of_nat (length acc + length p)) = true ->
    (if bool_decide (p = []) then Parsed tt else JsonCheckStringSpan maxString n p (Z.of_nat (@length Z acc))) ≫= f = f tt).
  { intros p acc n A f Hp Hl. case_bool_decide; [done|]. rewrite span_ok; [done|done|]. rewrite <- Hl. f_equal. lia. }
  induction 1 as [|c t s H32 H34 H92 _ IH|e b t s He _ IH]; intros fuel acc p n Hp Hf Hl; (destruct fuel as [|fuel]; [cbn in Hf; lia|]).
  - cbn [app string_loop rest pos]. rewrite next_special_plain, Hspan; [|done|eapply limit_mono; [exact Hl|]; cbn; lia|done|by left].
    cbn. rewrite app_nil_r. do 3 f_equal. lia.
  - replace (p ++ (c :: t) ++ 34 :: k) with ((p ++ [c]) ++ t ++ 34 :: k) by (by rewrite <- app_assoc). rewrite IH.
    + rewrite <- app_assoc. cbn [app]. do 3 f_equal. lens.
    + apply Forall_app. split; [done|]. apply Forall_singleton. lia.
    + cbn in Hf. lens.
    + rewrite <- Hl. do 2 f_equal. lens.
  - cbn [app string_loop rest pos]. rewrite next_special_plain, Hspan; [|done|eapply limit_mono; [exact Hl|]; lens|done|by right].
    change (92 =? 34) with false. cbv match. cbv zeta. rewrite <- app_assoc, (string_escape_app _ _ b) by done. cbn [mbind parsed_bind].
    rewrite (proj2 (andb_false_iff _ _)).
    2: { unfold limit_ok in Hl. rewrite !length_app in *. destruct (Z.ltb_spec 0 maxString); [right|by left]. apply Z.ltb_ge. apply orb_prop in Hl as [Hl%Z.leb_le|Hl%Z.leb_le]; lia. }
    rewrite (IH fuel ((acc ++ p) ++ b) []); [|constructor|cbn [length] in *; rewrite length_app in *; lia|].
    + rewrite <- !app_assoc. cbn [app]. do 3 f_equal. cbn [length]. lens.
    + rewrite <- Hl. do 2 f_equal. lens.
Qed.

(** A body is plain, or plain up to a first escape. *)
Lemma body_split t s : body t s -> (plain t /\ s = t) \/ exists p r, t = p ++ 92 :: r /\ plain p.
Proof.
  induction 1 as [|c t s H32 H34 H92 _ IH|e b t s He _ _]; [left; by split; [constructor|]| |right; exists [], (e ++ t); by split; [|constructor]].
  destruct IH as [[Hp ->]|(p & r & -> & Hp)]; [left|right; exists (c :: p), r]; split; done || by constructor.
Qed.

Lemma strchr_in c l : c ∈ l -> exists p q, strchr c l = (p, Some q).
Proof.
  induction l as [|x l IH]; [by intros ?%elem_of_nil|]. cbn [strchr]. destruct (Z.eqb_spec x c); [eauto|].
  intros [|Hin]%elem_of_cons; [congruence|]. destruct (IH Hin) as (p & q & ->). eauto.
Qed.

Lemma strchr_cut c p x r p' q : Forall (fun y => y <> c) p -> x <> c -> strchr c (p ++ x :: r) = (p', Some q) -> exists s, p' = p ++ x :: s.
Proof.
  intros Hp Hx. revert p'. induction Hp as [|y p Hy _ IH]; intros p'; cbn [app strchr]; rewrite (proj2 (Z.eqb_neq _ _)) by done.
  - destruct (strchr c r) as [s o]. intros [= <- _]. by exists s.
  - destruct (strchr c (p ++ x :: r)) as [s o]. intros [= <- ->]. destruct (IH s eq_refl) as [s' ->]. by exists s'.
Qed.

Lemma JsonParseStringToString_app maxString n t s k : body t s -> limit_ok maxString (Z.of_nat (length s)) = true ->
  JsonParseStringToString maxString (mkCursor n (quoted t ++ k)) = Parsed (s, mkCursor (n + Z.of_nat (length (quoted t))) k).
Proof.
  intros Hb Hl. unfold JsonParseStringToString, JsonExpect, JsonGet, quoted. cbn [app rest pos]. rewrite Z.eqb_refl. cbn [mbind parsed_bind rest pos].
  rewrite <- app_assoc. cbn [app]. assert (El : Z.of_nat (length (34 :: t ++ [34])) = Z.of_nat (length t) + 2) by (cbn [length]; lens). rewrite El.
  destruct (body_split t s Hb) as [[Hp ->]|(p & r & -> & Hp)].
  - rewrite strchr_app by (eapply Forall_impl; [exact Hp|]; cbn; intros; lia). rewrite strchr_none by (eapply Forall_impl; [exact Hp|]; cbn; intros; lia).
    rewrite span_ok; [|done|done]. cbn [mbind parsed_bind]. do 3 f_equal. lia.
  - destruct (strchr_in 34 ((p ++ 92 :: r) ++ 34 :: k)) as (span & q & Es); [set_solver|]. rewrite Es. pose proof Es as Es2. rewrite <- app_assoc in Es2.
    apply strchr_cut in Es2 as [s' ->]; [|eapply Forall_impl; [exact Hp|]; cbn; intros; lia|done].
    rewrite strchr_app by (eapply Forall_impl; [exact Hp|]; cbn; intros; lia).
    rewrite (string_loop_app maxString _ s k Hb _ [] []); [|constructor|cbn [length]; lens|done]. do 3 f_equal. cbn [length]. lia.
Qed.

(** ** The bytes of a text *)

Lemma hex_digit_byte c d : hexval c d -> is_byte c.
Proof. unfold hexval, is_byte. lia. Qed.

Lemma bytes_cons c l : is_byte c -> is_bytes l -> is_bytes (c :: l).
Proof. by constructor. Qed.

Lemma bytes_app a b : is_bytes a -> is_bytes b -> is_bytes (a ++ b).
Proof. intros. apply Forall_app. by split. Qed.

Lemma bytes_nil : is_bytes [].
Proof. constructor. Qed.

Lemma hex4_bytes h u : hex4 h u -> is_bytes h.
Proof.
  intros (a & b & c & d & x & y & z & w & -> & Ha & Hb & Hc & Hd & ->). apply hex_digit_byte in Ha, Hb, Hc, Hd. auto 6 using bytes_cons, bytes_nil.
Qed.

Lemma bytes_bytes s : is_bytes (bytes s).
Proof.
  unfold bytes. apply Forall_fmap, Forall_true. intros a. cbn. unfold is_byte. pose proof (Ascii.nat_ascii_bounded a). lia.
Qed.

Create HintDb json.
#[export] Hint Resolve bytes_cons bytes_app bytes_nil bytes_bytes ws_bytes hex4_bytes : json.
#[export] Hint Extern 2 (is_byte _) => (unfold is_byte; lia) : json.

Lemma escape_bytes e b : escape e b -> is_bytes e.
Proof.
  destruct 1 as [e b He|h u Hh Hu|h1 h2 u1 u2 H1 Hu1 H2 Hu2]; [|eauto 10 with json..]. apply bytes_cons; [|constructor].
  apply simple_escape_spec in He. unfold simple_escape in He. unfold is_byte. revert He. zcases; intros; simplify_eq; lia.
Qed.
#[export] Hint Resolve escape_bytes : json.

Lemma body_bytes t s : body t s -> is_bytes t.
Proof. induction 1; eauto with json. Qed.

Lemma quoted_bytes t s : body t s -> is_bytes (quoted t).
Proof. intros Hb%body_bytes. unfold quoted. auto with json. Qed.

Lemma digits_bytes ds : all_digits ds -> is_bytes ds.
Proof. intros Hd. eapply Forall_impl; [exact Hd|]. cbn. unfold digit, is_byte. intros c Hc. lia. Qed.
#[export] Hint Resolve quoted_bytes digits_bytes : json.

Lemma number_bytes l : number l -> is_bytes l.
Proof.
  intros (m & i & f & e & -> & Hm & Hi & Hf & He). repeat apply bytes_app.
  - destruct Hm as [->| ->]; auto with json.
  - destruct Hi as [->|(d & ds & -> & ? & ?)]; auto with json.
  - destruct Hf as [->|(d & ds & -> & ?)]; auto with json.
  - destruct He as [->|(x & sg & d & ds & -> & ? & [->|[->| ->]] & ?)]; cbn [app]; auto with json.
Qed.
#[export] Hint Resolve number_bytes : json.

Lemma text_bytes :
  (forall j t, value_text is_ws j t -> is_bytes t) /\ (forall ms t, members_text is_ws ms t -> is_bytes t) /\
  (forall es t, elements_text is_ws es t -> is_bytes t).
Proof. apply text_mutind; intros; eauto 16 with json. Qed.

(** The first byte of a value. *)
Definition opens (c : Z) : bool :=
  (c =? 34) || (c =? 45) || is_digit10 c || (c =? 116) || (c =? 102) || (c =? 110) || (c =? 123) || (c =? 91).

Lemma number_head l : number l -> exists c r, l = c :: r /\ (c = 45 \/ 48 <= c <= 57).
Proof.
  intros (m & i & f & e & -> & Hm & Hi & _). destruct Hm as [->| ->]; [|eauto].
  destruct Hi as [->|(d & ds & -> & ? & _)]; cbn [app]; eexists _, _; split; try done; lia.
Qed.

Lemma value_head blank j t : value_text blank j t -> exists c r, t = c :: r /\ opens c = true.
Proof.
  destruct 1 as [| l Hl| | | | | | |]; try by eexists _, _.
  destruct (number_head l Hl) as (c & r & -> & Hc). exists c, r. split; [done|]. unfold opens, is_digit10. lia.
Qed.

Lemma near_cases c : near_ws c = true -> c = 32 \/ c = 9 \/ c = 10 \/ c = 13 \/ c = 33 \/ c = 8 \/ c = 11 \/ c = 12.
Proof.
  unfold near_ws. intros [E%is_ws_cases|E%is_ws_cases]%orb_prop; [lia|].
  assert (Ec : c = Z.lxor (Z.lxor c 1) 1) by (by rewrite Z.lxor_assoc, Z.lxor_nilpotent, Z.lxor_0_r).
  destruct E as [E|[E|[E|E]]]; rewrite E in Ec; vm_compute in Ec; lia.
Qed.

Lemma opens_solid c k : opens c = true -> solid (c :: k).
Proof.
  intros Hc. cbn. destruct (near_ws c) eqn:E; [|done]. exfalso. apply near_cases in E as [->|[->|[->|[->|[->|[->|[->| ->]]]]]]]; done.
Qed.

(** ** Values *)

Section complete.
Context (Tcl_GetDoubleFromObj : list Z -> option spec_float) (opt : Ns_JsonOptions).

Notation value := (JsonParseValue Tcl_GetDoubleFromObj opt).
Notation members := (object_loop Tcl_GetDoubleFromObj opt).
Notation elements := (array_loop Tcl_GetDoubleFromObj opt).
Notation fits := (fits Tcl_GetDoubleFromObj opt).
Notation value_of := (value_of opt).

(** The dispatch on the first byte of a value. *)
Definition dispatch (fuel : nat) (depth : Z) (ch : Z) (c : cursor) : parsed json_result :=
  if ch <? 0 then ParseError (pos c) "unexpected end of input"
  else if ch =? 123 then JsonParseObject Tcl_GetDoubleFromObj opt fuel depth c
  else if ch =? 91 then JsonParseArray Tcl_GetDoubleFromObj opt fuel depth c
  else if ch =? 34 then JsonParseString opt c
  else if (ch =? 116) || (ch =? 102) || (ch =? 110) then JsonParseLiteral opt c
  else if (ch =? 45) || is_digit10 ch then JsonParseNumber Tcl_GetDoubleFromObj opt c
  else ParseError (pos c) "unexpected character".

Lemma value_dispatch fuel depth n w c k : ws is_ws w -> is_bytes (c :: k) -> opens c = true ->
  value (S fuel) depth (mkCursor n (w ++ c :: k)) = dispatch fuel depth c (mkCursor (n + Z.of_nat (length w)) (c :: k)).
Proof.
  intros Hw Hb Hc. cbn [JsonParseValue]. rewrite JsonSkipWs_app; [done|done|by auto with json|by apply opens_solid].
Qed.

(** A member that is within the limits. *)
Definition member_fits (depth : Z) (kv : list Z * json) : bool := limit_ok (maxString opt) (Z.of_nat (length kv.1)) && fits depth kv.2.

Definition put_one (acc : Tcl_Obj) (kv : list Z * json) : Tcl_Obj := put_member acc kv.1 (type_of kv.2) (value_of kv.2).
Definition put_next (acc : list Tcl_Obj * Z) (v : json) : list Tcl_Obj * Z := (put_element opt acc.1 acc.2 (type_of v) (value_of v), acc.2 + 1).

Lemma value_of_object ms : value_of (JObject ms) = fold_left put_one ms (empty_object opt).
Proof. cbn. generalize (empty_object opt). induction ms as [|[k v] ms IH]; intros acc; [done|]. apply IH. Qed.

Lemma fits_object depth ms : fits depth (JObject ms) =
  (depth + 1 <=? maxDepth opt) && limit_ok (maxContainer opt) (Z.of_nat (length ms)) && forallb (member_fits (depth + 1)) ms.
Proof. cbn. f_equal. induction ms as [|[k v] ms IH]; [done|]. cbn. by rewrite IH. Qed.

Lemma too_many_ok n m : limit_ok (maxContainer opt) m = true -> n <= m -> too_many opt n = false.
Proof. unfold limit_ok, too_many. zcases; intros; done || lia. Qed.

Definition value_ok (j : json) (t : list Z) : Prop := forall fuel depth n k w, ws is_ws w -> is_bytes k -> delim k -> fits depth j = true ->
  (3 * (length w + length t + length k) + 3 <= fuel)%nat ->
  value fuel depth (mkCursor n (w ++ t ++ k)) = Parsed (value_of j, type_of j, mkCursor (n + Z.of_nat (length w + length t)) k).

Definition members_ok (ms : list (list Z * json)) (t : list Z) : Prop := forall fuel depth acc cnt n k, is_bytes k ->
  forallb (member_fits depth) ms = true -> limit_ok (maxContainer opt) (cnt + Z.of_nat (length ms)) = true ->
  (3 * (length t + length k) + 7 <= fuel)%nat ->
  members fuel depth acc cnt (mkCursor n (t ++ 125 :: k)) = Parsed (fold_left put_one ms acc, JSON_VT_OBJECT, mkCursor (n + Z.of_nat (length t) + 1) k).

Definition elements_ok (es : list json) (t : list Z) : Prop := forall fuel depth acc idx n k, is_bytes k ->
  forallb (fits depth) es = true -> limit_ok (maxContainer opt) (idx + Z.of_nat (length es)) = true ->
  (3 * (length t + length k) + 7 <= fuel)%nat ->
  elements fuel depth acc idx (mkCursor n (t ++ 93 :: k)) = Parsed (TList (fold_left put_next es (acc, idx)).1, JSON_VT_ARRAY, mkCursor (n + Z.of_nat (length t) + 1) k).

Lemma number_ok l : number l -> value_ok (JNumber l) l.
Proof.
  intros Hl fuel depth n k w Hw Hk Hd Hf Hfuel. destruct fuel as [|fuel]; [lia|]. destruct (number_head l Hl) as (c & r & El & Hc).
  assert (Hv : value (S fuel) depth (mkCursor n (w ++ l ++ k)) = JsonParseNumber Tcl_GetDoubleFromObj opt (mkCursor (n + Z.of_nat (length w)) (l ++ k))).
  { subst l. cbn [app]. rewrite value_dispatch; [|done|apply (bytes_app (c :: r)); auto with json|unfold opens, is_digit10; lia].
    unfold dispatch, is_digit10. zcases; done || lia. }
  rewrite Hv. unfold JsonParseNumber. rewrite JsonScanNumber_app by done. cbn [mbind parsed_bind]. cbn in Hf. unfold number_fits in Hf.
  replace (n + Z.of_nat (length w + length l)) with (n + Z.of_nat (length w) + Z.of_nat (length l)) by lia.
  destruct (_ && _); [|done]. cbn in Hf. destruct (Tcl_GetDoubleFromObj l); [|done]. by destruct (is_finite _).
Qed.

Lemma string_ok s t : body t s -> value_ok (JString s) (quoted t).
Proof.
  intros Hb fuel depth n k w Hw Hk Hd Hf Hfuel. destruct fuel as [|fuel]; [lia|].
  assert (Hv : value (S fuel) depth (mkCursor n (w ++ quoted t ++ k)) = JsonParseString opt (mkCursor (n + Z.of_nat (length w)) (quoted t ++ k))).
  { unfold quoted at 1. cbn [app]. rewrite value_dispatch; [done|done|apply (bytes_app (quoted t)); eauto with json|done]. }
  rewrite Hv. unfold JsonParseString. rewrite (JsonParseStringToString_app _ _ _ s) by done. cbn. do 3 f_equal. lia.
Qed.

Lemma literal_ok s v vt (c : Z) r : bytes s = c :: r -> c = 116 \/ c = 102 \/ c = 110 ->
  (forall m k, JsonParseLiteral opt (mkCursor m (bytes s ++ k)) = Parsed (v, vt, mkCursor (m + Z.of_nat (length (bytes s))) k)) ->
  forall fuel depth n k w, ws is_ws w -> is_bytes k -> (1 <= fuel)%nat ->
  value fuel depth (mkCursor n (w ++ bytes s ++ k)) = Parsed (v, vt, mkCursor (n + Z.of_nat (length w + length (bytes s))) k).
Proof.
  intros Es Hc Hp fuel depth n k w Hw Hk Hfuel. destruct fuel as [|fuel]; [lia|].
  assert (Hv : value (S fuel) depth (mkCursor n (w ++ bytes s ++ k)) = JsonParseLiteral opt (mkCursor (n + Z.of_nat (length w)) (bytes s ++ k))).
  { assert (Hb : is_bytes (bytes s ++ k)) by auto with json. rewrite Es in *. cbn [app] in *. rewrite value_dispatch; [|done|done|unfold opens; lia].
    unfold dispatch. zcases; done || lia. }
  rewrite Hv, Hp. do 3 f_equal. lia.
Qed.
(** The end of a member or of an element. *)
Lemma after_value n w c k : ws is_ws w -> is_bytes k -> c = 44 \/ c = 125 \/ c = 93 ->
  JsonSkipWs (mkCursor n (w ++ c :: k)) = mkCursor (n + Z.of_nat (length w)) (c :: k).
Proof.
  intros Hw Hk Hc. apply JsonSkipWs_app; [done| |by destruct Hc as [->|[->| ->]]]. assert (is_byte c) by (unfold is_byte; lia). auto with json.
Qed.

Lemma member_step fuel depth acc cnt n key kt w1 w2 v t w3 c k : body kt key -> ws is_ws w1 -> ws is_ws w2 -> value_text is_ws v t -> value_ok v t ->
  ws is_ws w3 -> is_bytes k -> c = 44 \/ c = 125 -> member_fits depth (key, v) = true -> too_many opt (cnt + 1) = false ->
  (3 * (length w2 + length t + (length w3 + S (length k))) + 3 <= fuel)%nat ->
  members (S fuel) depth acc cnt (mkCursor n (quoted kt ++ w1 ++ 58 :: w2 ++ t ++ w3 ++ c :: k)) =
  let m := n + Z.of_nat (length (quoted kt ++ w1 ++ 58 :: w2 ++ t ++ w3)) in
  if c =? 44 then members fuel depth (put_one acc (key, v)) (cnt + 1) (JsonSkipWs (mkCursor (m + 1) k))
  else Parsed (put_one acc (key, v), JSON_VT_OBJECT, mkCursor (m + 1) k).
Proof.
  intros Hkt H1 H2 Ht Hv H3 Hk Hc [Hkey Hfv]%andb_prop Hn Hfuel. cbn [fst snd] in *. cbn [object_loop].
  rewrite (JsonParseStringToString_app _ _ _ key) by done. cbn [mbind parsed_bind]. pose proof (proj1 text_bytes v t Ht) as Hbt.
  assert (is_byte c) by (unfold is_byte; lia).
  rewrite JsonSkipWs_app by (done || auto 10 with json). unfold JsonExpect, JsonGet. cbn [rest pos]. rewrite Z.eqb_refl. cbn [mbind parsed_bind].
  rewrite Hv; [|done|auto with json|apply delim_app; [done|]; cbn; lia|done|rewrite length_app; cbn [length]; lia].
  cbn [mbind parsed_bind]. cbv zeta. rewrite Hn, after_value by (done || lia). unfold JsonPeek, JsonGet. cbn [rest pos snd].
  match goal with |- context [mkCursor (?a + 1) k] => replace a with (n + Z.of_nat (length (quoted kt ++ w1 ++ 58 :: w2 ++ t ++ w3))) by lens end.
  destruct Hc as [->| ->]; done.
Qed.

Lemma element_step fuel depth acc idx n v t w c k : value_text is_ws v t -> value_ok v t ->
  ws is_ws w -> is_bytes k -> c = 44 \/ c = 93 -> fits depth v = true -> too_many opt (idx + 1) = false ->
  (3 * (length t + (length w + S (length k))) + 3 <= fuel)%nat ->
  elements (S fuel) depth acc idx (mkCursor n (t ++ w ++ c :: k)) =
  let m := n + Z.of_nat (length (t ++ w)) in
  if c =? 44 then elements fuel depth (put_next (acc, idx) v).1 (idx + 1) (JsonSkipWs (mkCursor (m + 1) k))
  else Parsed (TList (put_next (acc, idx) v).1, JSON_VT_ARRAY, mkCursor (m + 1) k).
Proof.
  intros Ht Hv Hw Hk Hc Hfv Hn Hfuel. cbn [array_loop]. pose proof (proj1 text_bytes v t Ht) as Hbt.
  assert (is_byte c) by (unfold is_byte; lia). change (t ++ w ++ c :: k) with ([] ++ t ++ w ++ c :: k).
  rewrite Hv; [|constructor|auto with json|apply delim_app; [done|]; cbn; lia|done|rewrite length_app; cbn [length]; lia].
  cbn [mbind parsed_bind]. cbv zeta. rewrite Hn, after_value by (done || lia). unfold JsonPeek, JsonGet. cbn [rest pos snd].
  match goal with |- context [mkCursor (?a + 1) k] => replace a with (n + Z.of_nat (length (t ++ w))) by lens end.
  destruct Hc as [->| ->]; done.
Qed.
Lemma members_head ms t : members_text is_ws ms t -> exists c r, t = c :: r /\ c = 34.
Proof. destruct 1; by eexists _, _. Qed.

Lemma elements_head es t : elements_text is_ws es t -> exists c r, t = c :: r /\ opens c = true.
Proof. destruct 1 as [v t w Hv|v t w1 w2 vs ts Hv]; destruct (value_head _ _ _ Hv) as (c & r & -> & Hc); by eexists _, _. Qed.

Lemma container_start n c w k d r : ws is_ws w -> is_bytes k -> k = d :: r -> opens d = true \/ d = 125 \/ d = 93 ->
  JsonSkipWs (JsonGet (mkCursor n (c :: w ++ k))).2 = mkCursor (n + 1 + Z.of_nat (length w)) k.
Proof.
  intros Hw Hk -> Hd. unfold JsonGet. cbn [rest pos snd]. apply JsonSkipWs_app; [done|auto with json|].
  destruct Hd as [Hd|[->| ->]]; [by apply opens_solid|done|done].
Qed.

Lemma object_ok w ms t : ws is_ws w -> members_text is_ws ms t -> members_ok ms t -> value_ok (JObject ms) (123 :: w ++ t ++ [125]).
Proof.
  intros Hw Ht Hm fuel depth n k w0 Hw0 Hk Hd Hf Hfuel. destruct (members_head ms t Ht) as (c & r & Et & Hc). pose proof (proj1 (proj2 text_bytes) ms t Ht) as Hbt.
  cbn [length] in Hfuel. rewrite !length_app in Hfuel. cbn [length] in Hfuel. do 2 (destruct fuel as [|fuel]; [lia|]).
  cbn [app]. rewrite <- !app_assoc. rewrite value_dispatch; [|done|auto 8 with json|done]. cbn [app].
  change (dispatch (S fuel) depth 123) with (JsonParseObject Tcl_GetDoubleFromObj opt (S fuel) depth).
  rewrite fits_object in Hf. apply andb_prop in Hf as [[Hmd Hl]%andb_prop Hms]. apply Z.leb_le in Hmd.
  cbn [JsonParseObject]. rewrite (proj2 (Z.ltb_ge _ _)) by lia.
  rewrite (container_start _ _ _ _ c (r ++ 125 :: k)); [|done|auto with json|by rewrite Et|by subst c; left].
  assert (Hp : JsonPeek (mkCursor (n + Z.of_nat (length w0) + 1 + Z.of_nat (length w)) (t ++ 125 :: k)) =? 125 = false) by (rewrite Et, Hc; done).
  rewrite Hp, Hm; [|done|done|exact Hl|lia]. rewrite value_of_object. cbn [type_of]. do 3 f_equal. cbn [length]. lens.
Qed.

Lemma array_ok w es t : ws is_ws w -> elements_text is_ws es t -> elements_ok es t -> value_ok (JArray es) (91 :: w ++ t ++ [93]).
Proof.
  intros Hw Ht Hm fuel depth n k w0 Hw0 Hk Hd Hf Hfuel. destruct (elements_head es t Ht) as (c & r & Et & Hc). pose proof (proj2 (proj2 text_bytes) es t Ht) as Hbt.
  cbn [length] in Hfuel. rewrite !length_app in Hfuel. cbn [length] in Hfuel. do 2 (destruct fuel as [|fuel]; [lia|]).
  cbn [app]. rewrite <- !app_assoc. rewrite value_dispatch; [|done|auto 8 with json|done]. cbn [app].
  change (dispatch (S fuel) depth 91) with (JsonParseArray Tcl_GetDoubleFromObj opt (S fuel) depth).
  cbn in Hf. apply andb_prop in Hf as [[Hmd Hl]%andb_prop Hms]. apply Z.leb_le in Hmd.
  cbn [JsonParseArray]. rewrite (proj2 (Z.ltb_ge _ _)) by lia.
  rewrite (container_start _ _ _ _ c (r ++ 93 :: k)); [|done|auto with json|by rewrite Et|by left].
  assert (Hp : JsonPeek (mkCursor (n + Z.of_nat (length w0) + 1 + Z.of_nat (length w)) (t ++ 93 :: k)) =? 93 = false).
  { rewrite Et. cbn. destruct (Z.eqb_spec c 93); [by subst c|done]. }
  rewrite Hp, Hm; [|done|done|exact Hl|lia]. cbn [type_of]. do 3 f_equal. cbn [length]. lens.
Qed.

Lemma empty_ok c d (j : json) w : ws is_ws w -> (c = 123 /\ d = 125 /\ j = JObject []) \/ (c = 91 /\ d = 93 /\ j = JArray []) -> value_ok j (c :: w ++ [d]).
Proof.
  intros Hw Hj fuel depth n k w0 Hw0 Hk Hd Hf Hfuel. cbn [length] in Hfuel. rewrite !length_app in Hfuel. cbn [length] in Hfuel.
  do 2 (destruct fuel as [|fuel]; [lia|]). cbn [app]. rewrite <- !app_assoc.
  destruct Hj as [(-> & -> & ->)|(-> & -> & ->)]; (rewrite value_dispatch; [|done|auto 8 with json|done]);
    unfold dispatch; cbn [Z.ltb Z.compare Z.eqb Pos.eqb app JsonParseObject JsonParseArray]; cbn in Hf; apply andb_prop in Hf as [[Hmd _]%andb_prop _]; apply Z.leb_le in Hmd;
    (rewrite (proj2 (Z.ltb_ge _ _)) by lia); (erewrite container_start; [|done|auto with json|reflexivity|auto]); unfold JsonPeek, JsonGet; cbn [rest pos snd]; 
    cbn [Z.eqb Pos.eqb type_of]; do 3 f_equal; cbn [length]; lens.
Qed.
Lemma literals_ok : value_ok (JBool true) (bytes "true") /\ value_ok (JBool false) (bytes "false") /\ value_ok JNull (bytes "null").
Proof.
  split_and!.
  - intros fuel depth n k w Hw Hk _ _ Hf. apply (literal_ok "true" _ _ 116 (bytes "rue")); try done; [by left| |lia].
    intros m k'. unfold JsonParseLiteral, advance_to. cbn [rest pos]. rewrite (take_app_length' _ _ 4), (drop_app_length' _ _ 4) by done. cbn. do 3 f_equal. lens.
  - intros fuel depth n k w Hw Hk _ _ Hf. apply (literal_ok "false" _ _ 102 (bytes "alse")); try done; [by right; left| |lia].
    intros m k'. unfold JsonParseLiteral, advance_to. cbn [rest pos]. rewrite (take_app_length' _ _ 5), (drop_app_length' _ _ 5) by done. cbn. do 3 f_equal. lens.
  - intros fuel depth n k w Hw Hk _ _ Hf. apply (literal_ok "null" _ _ 110 (bytes "ull")); try done; [by right; right| |lia].
    intros m k'. unfold JsonParseLiteral, advance_to. cbn [rest pos]. rewrite (take_app_length' _ _ 4), (drop_app_length' _ _ 4) by done. cbn. do 3 f_equal. lens.
Qed.

Lemma parse_texts :
  (forall j t, value_text is_ws j t -> value_ok j t) /\ (forall ms t, members_text is_ws ms t -> members_ok ms t) /\
  (forall es t, elements_text is_ws es t -> elements_ok es t).
Proof.
  apply text_mutind.
  - intros s t Hb. by apply string_ok.
  - intros l Hl. by apply number_ok.
  - apply literals_ok.
  - apply literals_ok.
  - apply literals_ok.
  - intros w Hw. apply empty_ok; auto.
  - intros w ms t Hw Ht Hm. by apply object_ok.
  - intros w Hw. apply empty_ok; auto.
  - intros w es t Hw Ht Hm. by apply array_ok.
  - intros key kt w1 w2 v t w3 Hkt H1 H2 Ht Hv H3 fuel depth acc cnt n k Hk Hf Hl Hfuel. destruct fuel as [|fuel]; [lia|].
    repeat (cbn [length] in Hfuel; rewrite ?length_app in Hfuel). cbn in Hf. rewrite andb_true_r in Hf. rewrite <- !app_assoc. cbn [app]. rewrite <- !app_assoc.
    rewrite (member_step _ _ _ _ _ key _ _ _ v); try done; [by right|by eapply too_many_ok|cbn [length] in *; lia].
  - intros key kt w1 w2 v t w3 w4 ms ts Hkt H1 H2 Ht Hv H3 H4 Hts Hms fuel depth acc cnt n k Hk Hf Hl Hfuel. destruct fuel as [|fuel]; [lia|].
    repeat (cbn [length] in Hfuel; rewrite ?length_app in Hfuel). cbn [forallb] in Hf. apply andb_prop in Hf as [Hf1 Hf2].
    destruct (members_head ms ts Hts) as (c & r & Ec & Hc). pose proof (proj1 (proj2 text_bytes) ms ts Hts) as Hbt. cbn [length] in Hl.
    repeat (rewrite <- !app_assoc; cbn [app]).
    rewrite (member_step _ _ _ _ _ key _ _ _ v); try done; [|auto with json|by left|eapply too_many_ok; [exact Hl|lia]|rewrite !length_app; cbn [length]; lia].
    cbv zeta. cbn [Z.eqb Pos.eqb]. rewrite JsonSkipWs_app; [|done|auto with json|by rewrite Ec, Hc].
    rewrite Hms; [|done|done|rewrite <- Hl; f_equal; lia|lia]. cbn [fold_left]. do 3 f_equal. lens.
  - intros v t w Ht Hv Hw fuel depth acc idx n k Hk Hf Hl Hfuel. destruct fuel as [|fuel]; [lia|].
    repeat (cbn [length] in Hfuel; rewrite ?length_app in Hfuel). cbn in Hf. rewrite andb_true_r in Hf. rewrite <- !app_assoc. cbn [app].
    rewrite (element_step _ _ _ _ _ v); try done; [by right|by eapply too_many_ok|cbn [length] in *; lia].
  - intros v t w1 w2 vs ts Ht Hv H1 H2 Hts Hvs fuel depth acc idx n k Hk Hf Hl Hfuel. destruct fuel as [|fuel]; [lia|].
    repeat (cbn [length] in Hfuel; rewrite ?length_app in Hfuel). cbn [forallb] in Hf. apply andb_prop in Hf as [Hf1 Hf2].
    destruct (elements_head vs ts Hts) as (c & r & Ec & Hc). pose proof (proj2 (proj2 text_bytes) vs ts Hts) as Hbt. cbn [length] in Hl.
    repeat (rewrite <- !app_assoc; cbn [app]).
    rewrite (element_step _ _ _ _ _ v); try done; [|auto with json|by left|eapply too_many_ok; [exact Hl|lia]|rewrite !length_app; cbn [length]; lia].
    cbv zeta. cbn [Z.eqb Pos.eqb]. rewrite JsonSkipWs_app; [|done|auto with json|rewrite Ec; by apply opens_solid].
    rewrite Hvs; [|done|done|rewrite <- Hl; f_equal; lia|lia]. cbn [fold_left]. do 3 f_equal. lens.
Qed.
Lemma top_head j t k : value_text is_ws j t -> (top opt = NS_JSON_TOP_CONTAINER -> is_container j = true) ->
  forall n, top_refused opt (JsonPeek (mkCursor n (t ++ k))) = false.
Proof.
  intros Ht Hc n. unfold top_refused. destruct (top opt); [done|]. specialize (Hc eq_refl). by destruct Ht.
Qed.

Lemma accepts_between w1 j t w2 : ws is_ws w1 -> value_text is_ws j t -> ws is_ws w2 -> top_fits Tcl_GetDoubleFromObj opt j = true ->
  JsonParseObjCmd Tcl_GetDoubleFromObj opt (w1 ++ t ++ w2) = Parsed (top_value opt j).
Proof.
  intros H1 Ht H2 [Hf Htop]%andb_prop. destruct (value_head _ _ _ Ht) as (c & r & Et & Hc). pose proof (proj1 text_bytes j t Ht) as Hbt.
  assert (Hs : forall n, JsonSkipWs (mkCursor n (w1 ++ t ++ w2)) = mkCursor (n + Z.of_nat (length w1)) (t ++ w2)).
  { intros n. apply JsonSkipWs_app; [done|auto with json|rewrite Et; by apply opens_solid]. }
  unfold JsonParseObjCmd, Ns_JsonParse. cbv zeta. rewrite Hs. rewrite bool_decide_eq_false_2 by (rewrite Et; done).
  rewrite (top_head j) by (done || intros Ec; by rewrite Ec in Htop).
  rewrite (proj1 parse_texts j t Ht (json_fuel (w1 ++ t ++ w2)) 0 _ w2 []); [|constructor|auto with json| |done|unfold json_fuel; cbn [length]; lens].
  - cbn [mbind parsed_bind pos length Nat.add]. unfold JsonCheckTrailingDecode.
    replace (Z.to_nat _) with (length (w1 ++ t)) by lens. rewrite app_assoc, drop_app_length.
    rewrite JsonSkipWsPtr_exact; [|auto with json|]; replace (skip_ws w2) with ([] : list Z) by (rewrite <- (app_nil_r w2); by rewrite skip_ws_app); [done|].
    unfold stops. rewrite <- (app_nil_r w2). by rewrite skip_ws_app.
  - rewrite <- (app_nil_r w2). by apply delim_app.
Qed.

Lemma accepts_text j t : value_text is_ws j t -> top_fits Tcl_GetDoubleFromObj opt j = true -> JsonParseObjCmd Tcl_GetDoubleFromObj opt t = Parsed (top_value opt j).
Proof. intros Ht Hf. rewrite <- (app_nil_r t). change (t ++ []) with ([] ++ t ++ []). apply accepts_between; done || constructor. Qed.

(** C3.  Every JSON text of RFC 8259 in whose strings the escapes of surrogates come in pairs, between
    white space, whose value is within the limits
    of the options (depth, size of containers, length of strings, numbers that are
    finite doubles, a container at the top), is parsed by [ns_json parse], and the result
    is the Tcl value of the JSON value the text stands for.  Texts with an unpaired surrogate, such as "\uD800", which the ABNF
    of the RFC allows, are not among these and are refused. *)
Theorem JsonParse_complete w1 j t w2 : ws json_ws w1 -> value_text json_ws j t -> ws json_ws w2 -> top_fits Tcl_GetDoubleFromObj opt j = true ->
  JsonParseObjCmd Tcl_GetDoubleFromObj opt (w1 ++ t ++ w2) = Parsed (top_value opt j).
Proof. destruct (text_mono json_ws is_ws json_ws_is_ws) as (Hw & Hv & _). auto using accepts_between. Qed.
End complete.

(** ** Examples *)

(** Options without limits, and a conversion of numbers that always succeeds. *)
Definition options0 : Ns_JsonOptions := mkJsonOptions 1000 0 true (TStr []) 0 NS_JSON_OUTPUT_TRIPLES NS_JSON_TOP_ANY.
Definition double0 (_ : list Z) : option spec_float := Some (S754_finite false 1 0).

(** Unpaired surrogates are refused: a high one at the end or before another character, and a low one. *)
Lemma lone_surrogates_refused : Forall (fun t => exists p e, JsonParseObjCmd double0 options0 (quoted (bytes t)) = ParseError p e) ["\uD800"; "\uD800x"; "\uD800\u0041"; "\uDC00"]%string.
Proof. repeat apply Forall_cons_2; [..|by apply Forall_nil_2]; eexists _, _; vm_compute; reflexivity. Qed.

(** A number, and an array of it and of a string with an escape. *)
Lemma number0 : number (bytes "-2.5e3").
Proof.
  exists [45], [50], (bytes ".5"), (bytes "e3"). split_and!; [done|by right| | |].
  - right. exists 50, []. split_and!; [done|lia|lia|constructor].
  - right. exists 53, []. split; [done|]. constructor; [unfold digit; lia|constructor].
  - right. exists 101, [], 51, []. split_and!; [done|by left|by left|constructor; [unfold digit; lia|constructor]].
Qed.

Lemma text0 : value_text json_ws (JArray [JNumber (bytes "-2.5e3"); JString [97; 10]]) (91 :: [] ++ (bytes "-2.5e3" ++ [] ++ 44 :: [32] ++ (quoted [97; 92; 110] ++ [])) ++ [93]).
Proof.
  apply text_array; [constructor|]. apply text_elements; [apply text_number, number0|constructor|by repeat constructor|].
  apply text_element; [|constructor]. apply text_string, body_plain; [lia|done|done|]. refine (body_escape [110] [10] [] [] _ _); [|constructor]. apply esc_simple, simple_escape_spec. done.
Qed.

Lemma JsonParse_complete_witness :
  JsonParseObjCmd double0 options0 ([32] ++ (91 :: [] ++ (bytes "-2.5e3" ++ [] ++ 44 :: [32] ++ (quoted [97; 92; 110] ++ [])) ++ [93]) ++ [10]) =
  Parsed (top_value options0 (JArray [JNumber (bytes "-2.5e3"); JString [97; 10]])).
Proof. apply JsonParse_complete; [by repeat constructor|apply text0|by repeat constructor|vm_compute; reflexivity]. Defined.
