(* ===== verification/JsonSound.v ===== *)
(** * JsonSound: what the JSON parser accepts is JSON (nsd/tcljson.c).

    Every text that is accepted is a text of the grammar of JsonGrammar.v, within the
    limits of the options, and its result is the Tcl value of what it stands for; except
    that the bytes 0x08, 0x0b, 0x0c and 0x21 can be taken for white space. *)

From Stdlib Require Import SpecFloat.
From S2P Require Import Prelude Utf8 JsonScan JsonParse JsonGrammar JsonComplete.

(** The text between two cursors. *)
Definition eats (c : cursor) (s : list Z) (c' : cursor) : Prop := rest c = s ++ rest c' /\ pos c' = pos c + Z.of_nat (length s).

Lemma eats_nil c : eats c [] c.
Proof. split; [done|]. cbn. lia. Qed.

Lemma eats_app c1 s1 c2 s2 c3 : eats c1 s1 c2 -> eats c2 s2 c3 -> eats c1 (s1 ++ s2) c3.
Proof. intros [E1 P1] [E2 P2]. split; [by rewrite E1, E2, app_assoc|lens]. Qed.

Lemma eats_bytes c s c' : eats c s c' -> is_bytes (rest c) -> is_bytes (rest c').
Proof. intros [-> _] Hb. by apply Forall_app in Hb as [_ ?]. Qed.

Lemma eats_advance c s p : rest c = s ++ p -> eats c s (advance_to p c).
Proof. intros E. split; [done|]. cbn. rewrite E. lens. Qed.

Lemma bind_parsed {A B} (x : parsed A) (f : A -> parsed B) b : x ≫= f = Parsed b -> exists a, x = Parsed a /\ f a = Parsed b.
Proof. destruct x as [a|? ?|]; cbn; [eauto|done|done]. Qed.

(** ** White space *)

Notation blank := near_ws.

Lemma near_lenient c : blank c = true -> lenient_ws c = true.
Proof. intros Hc%near_cases. unfold lenient_ws. apply bool_decide_eq_true. set_solver. Qed.

Lemma ws_app w1 w2 : ws blank w1 -> ws blank w2 -> ws blank (w1 ++ w2).
Proof. intros. apply Forall_app. by split. Qed.

Lemma ws_nil : ws blank [].
Proof. constructor. Qed.

Lemma skip_ws_near p : exists w, p = w ++ skip_ws p /\ ws blank w.
Proof.
  induction p as [|c p (w & E & Hw)]; [by exists []; split; [|constructor]|]. cbn [skip_ws]. destruct (is_ws c) eqn:Ec.
  - exists (c :: w). split; [by rewrite E at 1|]. constructor; [|done]. unfold near_ws. by rewrite Ec.
  - exists []. by split; [|constructor].
Qed.

(** A word of white space before the rest. *)
Lemma near_word n p w r : is_bytes p -> p = w ++ r -> ws blank w -> drop n p = r -> Z.of_nat n + 8 <= Z.of_nat (length p) ->
  JsonWordAllWs (le64 (take 8 (drop n p))) = true -> exists w', p = w' ++ drop (n + 8) p /\ ws blank w'.
Proof.
  intros Hb E Hw Er Hl Ha. exists (w ++ take 8 r). rewrite <- app_assoc, <- drop_drop, Er, take_drop. split; [done|]. apply ws_app; [done|].
  rewrite <- Er. apply AllWs_near; [apply Forall_take, Forall_drop, Hb|lens|done].
Qed.

Lemma ws_blocks8_near fuel : forall p, is_bytes p -> exists w, p = w ++ ws_blocks8 fuel p /\ ws blank w.
Proof.
  induction fuel as [|fuel IH]; intros p Hb; cbn [ws_blocks8]; [by exists []; split; [|constructor]|].
  destruct (Z.leb_spec 8 (Z.of_nat (length p))) as [Hl|]; [|by exists []; split; [|constructor]].
  destruct (JsonWordAllWs _) eqn:E0; cbn [negb]; [|by exists []; split; [|constructor]].
  destruct (near_word 0 p [] p) as (w & Ew & Hw); [done|done|constructor|by rewrite drop_0|lia|by rewrite drop_0|]. cbn [Nat.add] in Ew.
  destruct (IH (drop 8 p)) as (w' & E' & Hw'); [by apply bytes_drop|]. exists (w ++ w'). split; [|by apply ws_app]. by rewrite <- app_assoc, <- E'.
Qed.

Lemma ws_blocks32_near fuel : forall p, is_bytes p -> exists w, p = w ++ ws_blocks32 fuel p /\ ws blank w.
Proof.
  induction fuel as [|fuel IH]; intros p Hb; cbn [ws_blocks32]; [by exists []; split; [|constructor]|].
  destruct (Z.leb_spec 32 (Z.of_nat (length p))) as [Hl|]; [|by exists []; split; [|constructor]].
  destruct (JsonWordAllWs (le64 (take 8 p))) eqn:E0; cbn [negb]; [|by exists []; split; [|constructor]].
  destruct (near_word 0 p [] p) as (w1 & F1 & G1); [done|done|constructor|by rewrite drop_0|lia|by rewrite drop_0|]. cbn [Nat.add] in F1.
  destruct (JsonWordAllWs (le64 (take 8 (drop 8 p)))) eqn:E1; cbn [negb]; [|by exists w1].
  destruct (near_word 8 p w1 (drop 8 p)) as (w2 & F2 & G2); [done|done|done|done|lia|done|]. cbn [Nat.add] in F2.
  destruct (JsonWordAllWs (le64 (take 8 (drop 16 p)))) eqn:E2; cbn [negb]; [|by exists w2].
  destruct (near_word 16 p w2 (drop 16 p)) as (w3 & F3 & G3); [done|done|done|done|lia|done|]. cbn [Nat.add] in F3.
  destruct (JsonWordAllWs (le64 (take 8 (drop 24 p)))) eqn:E3; cbn [negb]; [|by exists w3].
  destruct (near_word 24 p w3 (drop 24 p)) as (w4 & F4 & G4); [done|done|done|done|lia|done|]. cbn [Nat.add] in F4.
  destruct (IH (drop 32 p)) as (w' & E' & Hw'); [by apply bytes_drop|]. exists (w4 ++ w'). split; [|by apply ws_app]. by rewrite <- app_assoc, <- E'.
Qed.

Lemma JsonSkipWsPtr_near p : is_bytes p -> exists w, p = w ++ JsonSkipWsPtr p /\ ws blank w.
Proof.
  intros Hb. unfold JsonSkipWsPtr. destruct (ws_blocks32_near (length p) p Hb) as (w1 & E1 & H1).
  assert (Hb1 : is_bytes (ws_blocks32 (length p) p)) by (rewrite E1 in Hb; by apply Forall_app in Hb as [_ ?]).
  destruct (ws_blocks8_near (length p) _ Hb1) as (w2 & E2 & H2). destruct (skip_ws_near (ws_blocks8 (length p) (ws_blocks32 (length p) p))) as (w3 & E3 & H3).
  exists (w1 ++ w2 ++ w3). split; [|eauto using ws_app]. by rewrite <- !app_assoc, <- E3, <- E2.
Qed.

Lemma JsonSkipWs_sound c : is_bytes (rest c) -> exists w, eats c w (JsonSkipWs c) /\ ws blank w.
Proof. intros Hb. destruct (JsonSkipWsPtr_near (rest c) Hb) as (w & E & Hw). exists w. split; [by apply eats_advance|done]. Qed.

Lemma JsonGet_sound c ch : JsonPeek c = ch -> ch <> -1 -> eats c [ch] (JsonGet c).2.
Proof. unfold JsonPeek, JsonGet, eats. destruct (rest c) as [|b r] eqn:E; [done|]. intros -> _. done. Qed.

Lemma JsonExpect_sound c ch what c' : JsonExpect c ch what = Parsed c' -> ch <> -1 -> eats c [ch] c'.
Proof.
  unfold JsonExpect, JsonGet, eats. destruct (rest c) as [|b r] eqn:E; [destruct (Z.eqb_spec (-1) ch); [lia|done]|].
  destruct (Z.eqb_spec b ch) as [->|]; [|done]. intros [= <-] _. done.
Qed.

(** ** Numbers *)

Lemma after_digits_sound p : exists ds, p = ds ++ after_digits p /\ all_digits ds.
Proof.
  induction p as [|c p (ds & E & Hd)]; [by exists []; split; [|constructor]|]. cbn [after_digits]. destruct (is_digit10 c) eqn:Ec.
  - exists (c :: ds). split; [by rewrite E at 1|]. constructor; [by apply is_digit10_range|done].
  - exists []. by split; [|constructor].
Qed.

Lemma after_digits_first p : is_digit10 (byte_at p) = true -> exists d ds, p = d :: ds ++ after_digits p /\ all_digits (d :: ds).
Proof.
  destruct p as [|c p]; [done|]. cbn [byte_at]. intros Hc. destruct (after_digits_sound p) as (ds & E & Hd). exists c, ds. cbn [after_digits]. rewrite Hc.
  split; [by rewrite E at 1|constructor; [by apply is_digit10_range|done]].
Qed.

Lemma byte_at_cons p c : byte_at p = c -> c <> 0 -> p = c :: drop 1 p.
Proof. destruct p as [|b p]; cbn; [done|]. by intros ->. Qed.

Lemma scan_minus_sound at_ p p' : scan_minus at_ p = Parsed p' -> exists m, p = m ++ p' /\ minus_part m.
Proof.
  unfold scan_minus. destruct (Z.eqb_spec (byte_at p) 45) as [E|]; [|intros [= <-]; by exists []; split; [|left]].
  apply byte_at_cons in E; [|done]. destruct (drop 1 p) as [|c q]; [done|]. destruct (is_digit10 c); [|done]. intros [= <-]. exists [45]. by split; [|right].
Qed.

Lemma scan_int_sound at_ p p' : scan_int at_ p = Parsed p' -> exists i, p = i ++ p' /\ int_part i.
Proof.
  unfold scan_int. destruct (Z.eqb_spec (byte_at p) 48) as [E|Hne].
  - apply byte_at_cons in E; [|done]. cbv zeta. destruct (is_digit10 _); [done|]. intros [= <-]. exists [48]. by split; [|left].
  - destruct (is_digit10 (byte_at p)) eqn:Ed; [|done]. intros [= <-]. destruct (after_digits_first p Ed) as (d & ds & E & Hd).
    exists (d :: ds). split; [done|]. right. exists d, ds. inversion Hd as [|? ? Hd1 Hds]; subst. unfold digit in Hd1. rewrite E in Hne. cbn in Hne. split_and!; done || lia.
Qed.

Lemma scan_frac_sound at_ p p' b : scan_frac at_ p = Parsed (p', b) -> exists f, p = f ++ p' /\ frac_part f /\ b = bool_decide (f <> []).
Proof.
  unfold scan_frac. destruct (Z.eqb_spec (byte_at p) 46) as [E|]; [|intros [= <- <-]; exists []; split_and!; [done|by left|done]].
  apply byte_at_cons in E; [|done]. cbv zeta. destruct (is_digit10 _) eqn:Ed; [|done]. intros [= <- <-].
  destruct (after_digits_first _ Ed) as (d & ds & E2 & Hd). exists (46 :: d :: ds). split_and!; [by rewrite E at 1; rewrite E2 at 1|right; by exists d, ds|done].
Qed.

Lemma scan_exp_sound at_ p p' b : scan_exp at_ p = Parsed (p', b) -> exists e, p = e ++ p' /\ exp_part e /\ b = bool_decide (e <> []).
Proof.
  unfold scan_exp. destruct (_ || _) eqn:Ex; [|intros [= <- <-]; exists []; split_and!; [done|by left|done]].
  assert (Hx : exists x, p = x :: drop 1 p /\ (x = 101 \/ x = 69)).
  { exists (byte_at p). apply orb_prop in Ex as [E%Z.eqb_eq|E%Z.eqb_eq]; (split; [apply byte_at_cons; [done|lia]|lia]). }
  destruct Hx as (x & Ep & Hx). cbv zeta. set (q := drop 1 p) in *.
  assert (Hs : exists sg, q = sg ++ (if (byte_at q =? 43) || (byte_at q =? 45) then drop 1 q else q) /\ (sg = [] \/ sg = [43] \/ sg = [45])).
  { destruct (Z.eqb_spec (byte_at q) 43) as [E|]; [exists [43]; split; [by apply byte_at_cons in E|auto]|].
    destruct (Z.eqb_spec (byte_at q) 45) as [E|]; [exists [45]; split; [by apply byte_at_cons in E|auto]|exists []; auto]. }
  destruct Hs as (sg & Eq & Hsg). set (q' := if (byte_at q =? 43) || (byte_at q =? 45) then drop 1 q else q) in *.
  destruct (is_digit10 (byte_at q')) eqn:Ed; [|done]. intros [= <- <-]. destruct (after_digits_first _ Ed) as (d & ds & E2 & Hd).
  exists (x :: sg ++ d :: ds). split_and!; [|right; by exists x, sg, d, ds|done].
  cbn [app]. rewrite <- app_assoc. cbn [app]. rewrite <- E2, <- Eq. done.
Qed.

Lemma JsonScanNumber_sound c lex fe c' : JsonScanNumber c = Parsed (lex, fe, c') -> eats c lex c' /\ number lex /\ fe = fractional lex.
Proof.
  unfold JsonScanNumber. cbv zeta. intros (p1 & (m & E1 & Hm)%scan_minus_sound & (p2 & (i & E2 & Hi)%scan_int_sound & H)%bind_parsed)%bind_parsed.
  apply bind_parsed in H as ([p3 b3] & (f & E3 & Hf & ->)%scan_frac_sound & H). apply bind_parsed in H as ([p4 b4] & (e & E4 & He & ->)%scan_exp_sound & [= <- <- <-]).
  assert (E : rest c = (m ++ i ++ f ++ e) ++ p4) by (rewrite E1, E2, E3, E4; by rewrite <- !app_assoc).
  rewrite E. replace (length ((m ++ i ++ f ++ e) ++ p4) - length p4)%nat with (length (m ++ i ++ f ++ e)) by (rewrite (length_app (m ++ i ++ f ++ e) p4); lia). rewrite take_app_length.
  split_and!; [by apply eats_advance|by exists m, i, f, e|]. by rewrite fractional_parts.
Qed.

(** ** Strings *)

Lemma strchr_some_inv c l p q : strchr c l = (p, Some q) -> l = p ++ c :: q /\ Forall (fun x => x <> c) p.
Proof.
  revert p. induction l as [|x l IH]; intros p; cbn [strchr]; [done|]. destruct (Z.eqb_spec x c) as [->|]; [intros [= <- <-]; by split; [|constructor]|].
  destruct (strchr c l) as [p' o]. intros [= <- ->]. destruct (IH p' eq_refl) as [-> Hp]. by split; [|constructor].
Qed.

Lemma strchr_none_inv c l p : strchr c l = (p, None) -> p = l /\ Forall (fun x => x <> c) l.
Proof.
  revert p. induction l as [|x l IH]; intros p; cbn [strchr]; [by intros [= <-]|]. destruct (Z.eqb_spec x c) as [->|]; [done|].
  destruct (strchr c l) as [p' o]. intros [= <- ->]. destruct (IH p' eq_refl) as [-> Hp]. by split; [|constructor].
Qed.

(** No quote and no backslash. *)
Definition ordinary (p : list Z) : Prop := Forall (fun c => c <> 34) p /\ Forall (fun c => c <> 92) p.

Lemma forall_prefix {A} (P : A -> Prop) a b : Forall P (a ++ b) -> Forall P a.
Proof. by intros [? _]%Forall_app. Qed.

Lemma shorter_prefix {A} (a b x y : list A) : a ++ x = b ++ y -> (length a <= length b)%nat -> exists z, b = a ++ z.
Proof.
  revert b. induction a as [|h a IH]; intros b E Hl; [by exists b|]. destruct b as [|h' b]; [cbn in Hl; lia|].
  cbn in E. injection E as <- E. destruct (IH b E) as [z ->]; [cbn in Hl; lia|]. by exists z.
Qed.

Lemma next_special_sound p b q r : next_special p = Some (b, q, r) -> p = b ++ q :: r /\ ordinary b /\ (q = 34 \/ q = 92).
Proof.
  unfold next_special, ordinary. destruct (strchr 92 p) as [b1 [r1|]] eqn:E1, (strchr 34 p) as [b2 [r2|]] eqn:E2; [..|done].
  - apply strchr_some_inv in E1 as [P1 F1], E2 as [P2 F2]. destruct (Nat.ltb_spec (length b1) (length b2)); intros [= <- <- <-].
    + destruct (shorter_prefix b1 b2 (92 :: r1) (34 :: r2)) as [z ->]; [congruence|lia|]. split_and!; try done; [|by right]. by eapply forall_prefix.
    + destruct (shorter_prefix b2 b1 (34 :: r2) (92 :: r1)) as [z ->]; [congruence|lia|]. split_and!; try done; [|by left]. by eapply forall_prefix.
  - apply strchr_some_inv in E1 as [P1 F1]. apply strchr_none_inv in E2 as [_ F2]. intros [= <- <- <-]. rewrite P1 in F2.
    split_and!; try done; [|by right]. by eapply forall_prefix.
  - apply strchr_none_inv in E1 as [_ F1]. apply strchr_some_inv in E2 as [P2 F2]. intros [= <- <- <-]. rewrite P2 in F1.
    split_and!; try done; [|by left]. by eapply forall_prefix.
Qed.

Lemma first_ctl_none l : first_ctl l = None -> Forall (fun c => 32 <= c) l.
Proof. induction l as [|c l IH]; [constructor|]. cbn. destruct (Z.ltb_spec c 32); [done|]. intros Hl. constructor; auto. Qed.

Lemma span_sound maxString at_ p n : is_bytes p -> ordinary p -> JsonCheckStringSpan maxString at_ p n = Parsed tt ->
  plain p /\ limit_ok maxString (n + Z.of_nat (length p)) = true.
Proof.
  intros Hb [H34 H92] Hs. unfold JsonCheckStringSpan in Hs. rewrite JsonFindCtl_exact in Hs by done.
  assert (Hc : first_ctl p = None) by (case_bool_decide; [by subst|by destruct (first_ctl p)]).
  rewrite Hc in Hs. split.
  - apply first_ctl_none in Hc. apply Forall_forall. intros x Hx. unfold is_bytes, is_byte in Hb. rewrite Forall_forall in Hb, H34, H92, Hc. split_and!; auto.
    specialize (Hb x Hx). lia.
  - replace (if bool_decide (p = []) then None else None) with (@None (list Z)) in Hs by (by case_bool_decide).
    unfold limit_ok. revert Hs. zcases; intros; try done; lia.
Qed.

Lemma body_app_plain p t s : plain p -> body t s -> body (p ++ t) (p ++ s).
Proof. intros Hp Hb. induction Hp as [|c p (? & ? & ?) _ IH]; [done|]. by apply body_plain. Qed.

Lemma hex_loop_step n v c u c' : hex_loop (S n) v c = Parsed (u, c') ->
  exists b d, eats c [b] (mkCursor (pos c + 1) (drop 1 (rest c))) /\ hexval b d /\
    hex_loop n (16 * v + d) (mkCursor (pos c + 1) (drop 1 (rest c))) = Parsed (u, c').
Proof.
  cbn [hex_loop]. unfold eats. destruct (rest c) as [|b r]; [done|]. destruct (hex_digit b) as [d|] eqn:E; [|done].
  apply hex_digit_spec in E. intros H. exists b, d. rewrite nibble in H by (by eapply hex_digit_range). done.
Qed.

Lemma JsonDecodeHex4_sound c u c' : JsonDecodeHex4 c = Parsed (u, c') -> exists h, eats c h c' /\ hex4 h u.
Proof.
  unfold JsonDecodeHex4. intros (b1 & d1 & E1 & D1 & H)%hex_loop_step. apply hex_loop_step in H as (b2 & d2 & E2 & D2 & H).
  apply hex_loop_step in H as (b3 & d3 & E3 & D3 & H). apply hex_loop_step in H as (b4 & d4 & E4 & D4 & H). cbn [hex_loop] in H. injection H as <- <-.
  exists ([b1] ++ [b2] ++ [b3] ++ [b4]). split; [eauto using eats_app|]. exists b1, b2, b3, b4, d1, d2, d3, d4. split_and!; try done. lia.
Qed.

Lemma string_escape_sound c b c' : string_escape c = Parsed (b, c') -> exists e, eats c e c' /\ escape e b.
Proof.
  unfold string_escape. destruct (rest c) as [|e r] eqn:Er; [done|]. assert (H1 : eats c [e] (mkCursor (pos c + 1) r)) by (unfold eats; by rewrite Er).
  destruct (simple_escape e) as [x|] eqn:Es; [intros [= <- <-]; exists [e]; split; [done|by apply esc_simple, simple_escape_spec]|].
  destruct (Z.eqb_spec e 117) as [->|]; [|done]. intros ([cp c2] & Hu & H)%bind_parsed.
  assert (Hc : b = Ns_Utf8FromCodePoint cp /\ c2 = c') by (destruct (Ns_Utf8FromCodePoint cp); [done|by injection H as <- <-]). destruct Hc as [-> ->].
  clear H. unfold JsonDecodeUnicodeEscape in Hu. apply bind_parsed in Hu as ([u1 c3] & (h1 & Ee1 & Hh1)%JsonDecodeHex4_sound & Hu).
  destruct ((0xD800 <=? u1) && (u1 <=? 0xDBFF)) eqn:Eh.
  - apply andb_prop in Eh as [Eh1%Z.leb_le Eh2%Z.leb_le].
    destruct (JsonGet c3) as [x1 c4] eqn:G1, (JsonGet c4) as [x2 c5] eqn:G2. destruct (negb _ || negb _) eqn:En; [done|].
    apply orb_false_iff in En as [En1%negb_false_iff%Z.eqb_eq En2%negb_false_iff%Z.eqb_eq]. subst x1 x2.
    assert (Hg : forall a x a', JsonGet a = (x, a') -> x <> -1 -> eats a [x] a')
      by (unfold JsonGet, eats; intros a x a'; destruct (rest a); intros [= <- <-]; done).
    apply bind_parsed in Hu as ([u2 c6] & (h2 & Ee2 & Hh2)%JsonDecodeHex4_sound & Hu).
    destruct ((u2 <? 0xDC00) || (0xDFFF <? u2)) eqn:El; [done|]. apply orb_false_iff in El as [El1%Z.ltb_ge El2%Z.ltb_ge]. injection Hu as <- <-.
    exists ([117] ++ h1 ++ [92] ++ [117] ++ h2). split; [eauto 8 using eats_app|]. rewrite Z.shiftl_mul_pow2, (Z.mul_comm _ (2 ^ 10)) by lia. by apply esc_pair.
  - destruct ((0xDC00 <=? u1) && (u1 <=? 0xDFFF)) eqn:El; [done|]. injection Hu as <- <-.
    exists ([117] ++ h1). split; [eauto using eats_app|]. apply esc_unicode; [done|]. lia.
Qed.

Lemma string_loop_sound maxString fuel : forall acc c s c', string_loop fuel maxString acc c = Parsed (s, c') -> is_bytes (rest c) ->
  limit_ok maxString (Z.of_nat (length acc)) = true ->
  exists t s', eats c (t ++ [34]) c' /\ body t s' /\ s = acc ++ s' /\ limit_ok maxString (Z.of_nat (length s)) = true.
Proof.
  induction fuel as [|fuel IH]; intros acc c s c' H Hb Hl; [done|]. cbn [string_loop] in H.
  destruct (next_special (rest c)) as [[[span q] r]|] eqn:E; [|done]. apply next_special_sound in E as (E & Ho & Hq).
  apply bind_parsed in H as ([] & Hs & H). cbv zeta in H.
  assert (Hb1 : is_bytes span) by (rewrite E in Hb; by eapply forall_prefix).
  assert (Hsp : plain span /\ limit_ok maxString (Z.of_nat (length (acc ++ span))) = true).
  { case_bool_decide; [subst span; split; [constructor|by rewrite app_nil_r]|]. apply span_sound in Hs as [? Hlim]; try done. split; [done|]. rewrite <- Hlim. f_equal. lens. }
  destruct Hsp as [Hp Hl1]. assert (He : eats c (span ++ [q]) (mkCursor (pos c + Z.of_nat (length span) + 1) r)).
  { split; [rewrite E, <- app_assoc; done|]. cbn [pos]. lens. }
  destruct (Z.eqb_spec q 34) as [->|].
  - injection H as <- <-. exists span, span. split_and!; try done. rewrite <- (app_nil_r span). apply body_app_plain; [done|constructor].
  - destruct Hq as [|Hq]; [done|]. subst q. apply bind_parsed in H as ([b c2] & (e & Ee & Hesc)%string_escape_sound & H).
    destruct (_ && _) eqn:Em; [done|]. apply IH in H as (t & s' & Et & Ht & -> & Hl2).
    + exists (span ++ 92 :: e ++ t), (span ++ b ++ s'). split_and!; [|by apply body_app_plain, body_escape|by rewrite <- !app_assoc|done].
      replace ((span ++ 92 :: e ++ t) ++ [34]) with ((span ++ [92]) ++ e ++ t ++ [34]) by (by rewrite <- !app_assoc; cbn [app]; rewrite <- !app_assoc).
      eauto using eats_app.
    + by eapply eats_bytes; [|eapply eats_bytes].
    + unfold limit_ok. apply andb_false_iff in Em as [Em%Z.ltb_ge|Em%Z.ltb_ge]; [by rewrite (proj2 (Z.leb_le _ _))|].
      rewrite (proj2 (Z.leb_le (Z.of_nat _) maxString)) by lens. apply orb_true_r.
Qed.

Lemma JsonParseStringToString_sound maxString c s c' : JsonParseStringToString maxString c = Parsed (s, c') -> is_bytes (rest c) ->
  exists t, eats c (quoted t) c' /\ body t s /\ limit_ok maxString (Z.of_nat (length s)) = true.
Proof.
  unfold JsonParseStringToString. intros (c1 & He%JsonExpect_sound & H)%bind_parsed Hb; [|done]. cbv zeta in H. pose proof (eats_bytes _ _ _ He Hb) as Hb1.
  destruct (strchr 34 (rest c1)) as [span [r|]] eqn:E34; [|done]. apply strchr_some_inv in E34 as [E34 F34].
  destruct (strchr 92 span) as [x [y|]] eqn:E92.
  - apply string_loop_sound in H as (t & s' & Et & Ht & -> & Hl); [|done|unfold limit_ok; cbn; zcases; done || lia].
    exists t. split_and!; [|done|done]. change (quoted t) with ([34] ++ t ++ [34]). eauto using eats_app.
  - apply strchr_none_inv in E92 as [_ F92]. apply bind_parsed in H as ([] & Hs & H). injection H as <- <-.
    apply span_sound in Hs as [Hp Hl]; [|rewrite E34 in Hb1; by eapply forall_prefix|done].
    exists span. split_and!; [|rewrite <- (app_nil_r span); apply body_app_plain; [done|constructor]|done].
    change (quoted span) with ([34] ++ span ++ [34]). eapply eats_app; [done|]. split; [by rewrite E34, <- app_assoc|]. cbn [pos]. lens.
Qed.

(** ** Values *)

Section sound.
Context (Tcl_GetDoubleFromObj : list Z -> option spec_float) (opt : Ns_JsonOptions).

Notation value := (JsonParseValue Tcl_GetDoubleFromObj opt).
Notation members := (object_loop Tcl_GetDoubleFromObj opt).
Notation elements := (array_loop Tcl_GetDoubleFromObj opt).
Notation fits := (fits Tcl_GetDoubleFromObj opt).

(** The result is the value of the text [t] before the cursor of the result. *)
Definition reads (depth : Z) (c : cursor) (t : list Z) (r : json_result) : Prop :=
  exists j, eats c t r.2 /\ value_text blank j t /\ fits depth j = true /\ r.1 = (value_of opt j, type_of j).

Definition reads_members (depth : Z) (acc : Tcl_Obj) (cnt : Z) (c : cursor) (r : json_result) : Prop :=
  exists ms t, eats c (t ++ [125]) r.2 /\ members_text blank ms t /\ forallb (member_fits Tcl_GetDoubleFromObj opt depth) ms = true /\
    limit_ok (maxContainer opt) (cnt + Z.of_nat (length ms)) = true /\ r.1 = (fold_left (put_one opt) ms acc, JSON_VT_OBJECT).

(** An element may have white space before it. *)
Definition reads_elements (depth : Z) (acc : list Tcl_Obj) (idx : Z) (c : cursor) (r : json_result) : Prop :=
  exists es w t, eats c (w ++ t ++ [93]) r.2 /\ ws blank w /\ elements_text blank es t /\ forallb (fits depth) es = true /\
    limit_ok (maxContainer opt) (idx + Z.of_nat (length es)) = true /\ r.1 = (TList (fold_left (put_next opt) es (acc, idx)).1, JSON_VT_ARRAY).

Lemma number_sound depth c r : JsonParseNumber Tcl_GetDoubleFromObj opt c = Parsed r -> exists t, reads depth c t r.
Proof.
  unfold JsonParseNumber. intros ([[lex fe] c'] & (He & Hn & ->)%JsonScanNumber_sound & H)%bind_parsed. exists lex, (JNumber lex).
  cbn. unfold number_fits. cbv zeta in H. destruct (_ && _).
  - destruct (Tcl_GetDoubleFromObj lex) as [d|]; [|done]. destruct (is_finite d); [|done]. injection H as <-. split_and!; try done. by constructor.
  - injection H as <-. split_and!; try done. by constructor.
Qed.

Lemma literal_sound depth c r : JsonParseLiteral opt c = Parsed r -> exists t, reads depth c t r.
Proof.
  unfold JsonParseLiteral. cbv zeta.
  assert (Hd : forall n w, take n (rest c) = w -> eats c w (advance_to (drop n (rest c)) c)).
  { intros n w <-. apply eats_advance. by rewrite take_drop. }
  repeat case_bool_decide; try done; intros [= <-]; [exists (bytes "true"), (JBool true)|exists (bytes "false"), (JBool false)|exists (bytes "null"), JNull];
    split_and!; try (by apply Hd); try done; constructor.
Qed.

Lemma string_sound depth c r : JsonParseString opt c = Parsed r -> is_bytes (rest c) -> exists t, reads depth c t r.
Proof.
  unfold JsonParseString. intros ([s c'] & H & [= <-])%bind_parsed Hb. apply JsonParseStringToString_sound in H as (t & He & Ht & Hl); [|done].
  exists (quoted t), (JString s). split_and!; try done. by constructor.
Qed.

Lemma limit_of_not_many n : too_many opt n = false -> limit_ok (maxContainer opt) n = true.
Proof. unfold too_many, limit_ok. zcases; intros; done || lia. Qed.
Definition value_sound (fuel : nat) : Prop := forall depth c r, value fuel depth c = Parsed r -> is_bytes (rest c) ->
  exists w c0 t, eats c w c0 /\ ws blank w /\ reads depth c0 t r.

Lemma members_sound fuel : value_sound fuel ->
  (forall depth acc cnt c r, members fuel depth acc cnt c = Parsed r -> is_bytes (rest c) -> reads_members depth acc cnt c r) ->
  forall depth acc cnt c r, members (S fuel) depth acc cnt c = Parsed r -> is_bytes (rest c) -> reads_members depth acc cnt c r.
Proof.
  intros Hv IH depth acc cnt c r H Hb. cbn [object_loop] in H. apply bind_parsed in H as ([key c1] & Hk & H).
  apply JsonParseStringToString_sound in Hk as (kt & Ek & Hkt & Hlk); [|done]. pose proof (eats_bytes _ _ _ Ek Hb) as Hb1.
  destruct (JsonSkipWs_sound c1 Hb1) as (w1 & Ew1 & Hw1). apply bind_parsed in H as (c2 & Ec%JsonExpect_sound & H); [|done].
  pose proof (eats_bytes _ _ _ Ec (eats_bytes _ _ _ Ew1 Hb1)) as Hb2. apply bind_parsed in H as ([[v vt] c3] & H2 & H).
  apply Hv in H2 as (w2 & c0 & t & Ew2 & Hw2 & j & Et & Ht & Hf & [= -> ->]); [done|]. cbv zeta in H. cbn [snd] in Et.
  destruct (too_many opt (cnt + 1)) eqn:Hm; [done|]. pose proof (eats_bytes _ _ _ Et (eats_bytes _ _ _ Ew2 Hb2)) as Hb3.
  destruct (JsonSkipWs_sound c3 Hb3) as (w3 & Ew3 & Hw3). set (c4 := JsonSkipWs c3) in *.
  assert (Eall : eats c (quoted kt ++ w1 ++ [58] ++ w2 ++ t ++ w3) c4) by eauto 8 using eats_app.
  assert (Hmf : member_fits Tcl_GetDoubleFromObj opt depth (key, j) = true) by (unfold member_fits; cbn [fst snd]; by rewrite Hlk, Hf).
  destruct (Z.eqb_spec (JsonPeek c4) 44) as [Ep|].
  - pose proof (JsonGet_sound c4 44 Ep ltac:(done)) as Eg. pose proof (eats_bytes _ _ _ Eg (eats_bytes _ _ _ Eall Hb)) as Hb5.
    destruct (JsonSkipWs_sound _ Hb5) as (w4 & Ew4 & Hw4). apply IH in H as (ms & ts & Ems & Hms & Hfs & Hl & Er); [|by eapply eats_bytes].
    exists ((key, j) :: ms), (quoted kt ++ w1 ++ 58 :: w2 ++ t ++ w3 ++ 44 :: w4 ++ ts). split_and!; [|by apply text_members| |rewrite <- Hl; f_equal; cbn [length]; lia|done].
    + pose proof (eats_app _ _ _ _ _ Eall (eats_app _ _ _ _ _ Eg (eats_app _ _ _ _ _ Ew4 Ems))) as Efin. repeat (rewrite <- ?app_assoc in *; cbn [app] in *). done.
    + cbn [forallb]. by rewrite Hmf, Hfs.
  - destruct (Z.eqb_spec (JsonPeek c4) 125) as [Ep|]; [|done]. injection H as <-. pose proof (JsonGet_sound c4 125 Ep ltac:(done)) as Eg.
    exists [(key, j)], (quoted kt ++ w1 ++ 58 :: w2 ++ t ++ w3). split_and!; [|by apply text_member| |by apply limit_of_not_many|done].
    + pose proof (eats_app _ _ _ _ _ Eall Eg) as Efin. repeat (rewrite <- ?app_assoc in *; cbn [app] in *). done.
    + cbn [forallb]. by rewrite Hmf.
Qed.

Lemma elements_sound fuel : value_sound fuel ->
  (forall depth acc idx c r, elements fuel depth acc idx c = Parsed r -> is_bytes (rest c) -> reads_elements depth acc idx c r) ->
  forall depth acc idx c r, elements (S fuel) depth acc idx c = Parsed r -> is_bytes (rest c) -> reads_elements depth acc idx c r.
Proof.
  intros Hv IH depth acc idx c r H Hb. cbn [array_loop] in H. apply bind_parsed in H as ([[v vt] c3] & H2 & H).
  apply Hv in H2 as (w & c0 & t & Ew & Hw & j & Et & Ht & Hf & [= -> ->]); [done|]. cbv zeta in H. cbn [snd] in Et.
  destruct (too_many opt (idx + 1)) eqn:Hm; [done|]. pose proof (eats_bytes _ _ _ Et (eats_bytes _ _ _ Ew Hb)) as Hb3.
  destruct (JsonSkipWs_sound c3 Hb3) as (w3 & Ew3 & Hw3). set (c4 := JsonSkipWs c3) in *.
  assert (Eall : eats c (w ++ t ++ w3) c4) by eauto using eats_app.
  destruct (Z.eqb_spec (JsonPeek c4) 44) as [Ep|].
  - pose proof (JsonGet_sound c4 44 Ep ltac:(done)) as Eg. pose proof (eats_bytes _ _ _ Eg (eats_bytes _ _ _ Eall Hb)) as Hb5.
    destruct (JsonSkipWs_sound _ Hb5) as (w4 & Ew4 & Hw4). apply IH in H as (es & w5 & ts & Ees & Hw5 & Hes & Hfs & Hl & Er); [|by eapply eats_bytes].
    exists (j :: es), w, (t ++ w3 ++ 44 :: (w4 ++ w5) ++ ts). split_and!; [|done|apply text_elements; auto using ws_app| |rewrite <- Hl; f_equal; cbn [length]; lia|done].
    + pose proof (eats_app _ _ _ _ _ Eall (eats_app _ _ _ _ _ Eg (eats_app _ _ _ _ _ Ew4 Ees))) as Efin. repeat (rewrite <- ?app_assoc in *; cbn [app] in *). done.
    + cbn [forallb]. by rewrite Hf, Hfs.
  - destruct (Z.eqb_spec (JsonPeek c4) 93) as [Ep|]; [|done]. injection H as <-. pose proof (JsonGet_sound c4 93 Ep ltac:(done)) as Eg.
    exists [j], w, (t ++ w3). split_and!; [|done|by apply text_element| |by apply limit_of_not_many|done].
    + pose proof (eats_app _ _ _ _ _ Eall Eg) as Efin. repeat (rewrite <- ?app_assoc in *; cbn [app] in *). done.
    + cbn [forallb]. by rewrite Hf.
Qed.
Lemma zero_fits limit : limit_ok limit 0 = true.
Proof. unfold limit_ok. zcases; done || lia. Qed.

Lemma object_sound fuel : (forall depth acc cnt c r, members fuel depth acc cnt c = Parsed r -> is_bytes (rest c) -> reads_members depth acc cnt c r) ->
  forall depth c r, JsonPeek c = 123 -> JsonParseObject Tcl_GetDoubleFromObj opt (S fuel) depth c = Parsed r -> is_bytes (rest c) -> exists t, reads depth c t r.
Proof.
  intros IH depth c r Hp H Hb. cbn [JsonParseObject] in H. destruct (Z.ltb_spec (maxDepth opt) (depth + 1)) as [|Hd%Z.leb_le]; [done|].
  pose proof (JsonGet_sound c 123 Hp ltac:(done)) as Eg. pose proof (eats_bytes _ _ _ Eg Hb) as Hb1.
  destruct (JsonSkipWs_sound _ Hb1) as (w & Ew & Hw). set (c1 := JsonSkipWs (JsonGet c).2) in *. destruct (Z.eqb_spec (JsonPeek c1) 125) as [Ep|].
  - injection H as <-. pose proof (JsonGet_sound c1 125 Ep ltac:(done)) as Eg1. exists (123 :: w ++ [125]), (JObject []).
    split_and!; [exact (eats_app _ _ _ _ _ Eg (eats_app _ _ _ _ _ Ew Eg1))|by constructor|by rewrite fits_object, Hd, zero_fits|done].
  - apply IH in H as (ms & t & Et & Ht & Hf & Hl & Er); [|by eapply eats_bytes]. exists (123 :: w ++ t ++ [125]), (JObject ms).
    split_and!; [exact (eats_app _ _ _ _ _ Eg (eats_app _ _ _ _ _ Ew Et))|by constructor| |by rewrite value_of_object].
    rewrite Z.add_0_l in Hl. by rewrite fits_object, Hd, Hl, Hf.
Qed.

Lemma array_sound fuel : (forall depth acc idx c r, elements fuel depth acc idx c = Parsed r -> is_bytes (rest c) -> reads_elements depth acc idx c r) ->
  forall depth c r, JsonPeek c = 91 -> JsonParseArray Tcl_GetDoubleFromObj opt (S fuel) depth c = Parsed r -> is_bytes (rest c) -> exists t, reads depth c t r.
Proof.
  intros IH depth c r Hp H Hb. cbn [JsonParseArray] in H. destruct (Z.ltb_spec (maxDepth opt) (depth + 1)) as [|Hd%Z.leb_le]; [done|].
  pose proof (JsonGet_sound c 91 Hp ltac:(done)) as Eg. pose proof (eats_bytes _ _ _ Eg Hb) as Hb1.
  destruct (JsonSkipWs_sound _ Hb1) as (w & Ew & Hw). set (c1 := JsonSkipWs (JsonGet c).2) in *. destruct (Z.eqb_spec (JsonPeek c1) 93) as [Ep|].
  - injection H as <-. pose proof (JsonGet_sound c1 93 Ep ltac:(done)) as Eg1. exists (91 :: w ++ [93]), (JArray []).
    split_and!; [exact (eats_app _ _ _ _ _ Eg (eats_app _ _ _ _ _ Ew Eg1))|by constructor|cbn; by rewrite Hd, zero_fits|done].
  - apply IH in H as (es & w' & t & Et & Hw' & Ht & Hf & Hl & Er); [|by eapply eats_bytes]. exists (91 :: (w ++ w') ++ t ++ [93]), (JArray es).
    split_and!; [rewrite <- app_assoc; exact (eats_app _ _ _ _ _ Eg (eats_app _ _ _ _ _ Ew Et))|constructor; [by apply ws_app|done]| |by rewrite Er].
    rewrite Z.add_0_l in Hl. cbn. by rewrite Hd, Hl, Hf.
Qed.

Lemma parse_sound fuel : value_sound fuel /\
  (forall depth acc cnt c r, members fuel depth acc cnt c = Parsed r -> is_bytes (rest c) -> reads_members depth acc cnt c r) /\
  (forall depth acc idx c r, elements fuel depth acc idx c = Parsed r -> is_bytes (rest c) -> reads_elements depth acc idx c r) /\
  (forall depth c r, JsonPeek c = 123 -> JsonParseObject Tcl_GetDoubleFromObj opt fuel depth c = Parsed r -> is_bytes (rest c) -> exists t, reads depth c t r) /\
  (forall depth c r, JsonPeek c = 91 -> JsonParseArray Tcl_GetDoubleFromObj opt fuel depth c = Parsed r -> is_bytes (rest c) -> exists t, reads depth c t r).
Proof.
  induction fuel as [|fuel (IHv & IHm & IHe & IHo & IHa)]; [split_and!; intros ?; intros; done|].
  split_and!; [|by apply members_sound|by apply elements_sound|by apply object_sound|by apply array_sound].
  intros depth c r H Hb. cbn [JsonParseValue] in H. destruct (JsonSkipWs_sound c Hb) as (w & Ew & Hw). pose proof (eats_bytes _ _ _ Ew Hb) as Hb1.
  cbv zeta in H. set (c1 := JsonSkipWs c) in *. exists w, c1. assert (Hr : exists t, reads depth c1 t r); [|destruct Hr as [t Hr]; by exists t].
  destruct (JsonPeek c1 <? 0); [done|]. destruct (Z.eqb_spec (JsonPeek c1) 123); [by eapply IHo|]. destruct (Z.eqb_spec (JsonPeek c1) 91); [by eapply IHa|].
  destruct (_ =? 34); [by eapply string_sound|]. destruct (_ || _ || _); [by eapply literal_sound|]. destruct (_ || _); [by eapply number_sound|done].
Qed.

(** A text that starts with a brace or a bracket. *)
Lemma top_container j t w k : value_text blank j t -> ws blank w ->
  negb (match w ++ t ++ k with b :: _ => b | [] => -1 end =? 123) && negb (match w ++ t ++ k with b :: _ => b | [] => -1 end =? 91) = false -> is_container j = true.
Proof.
  intros Ht Hw Hn. destruct Hw as [|c w Hc _]; cbn [app] in Hn.
  - destruct Ht as [|l Hl| | | | | | |]; try done. exfalso. destruct (number_head l Hl) as (c & r & -> & Hc). cbn in Hn. apply andb_false_iff in Hn as [Hn%negb_false_iff%Z.eqb_eq|Hn%negb_false_iff%Z.eqb_eq]; lia.
  - exfalso. apply andb_false_iff in Hn as [Hn%negb_false_iff%Z.eqb_eq|Hn%negb_false_iff%Z.eqb_eq]; by subst c.
Qed.

Lemma accepted_text buf v : is_bytes buf -> JsonParseObjCmd Tcl_GetDoubleFromObj opt buf = Parsed v ->
  exists w1 j t w2, buf = w1 ++ t ++ w2 /\ ws blank w1 /\ value_text blank j t /\ ws blank w2 /\
    top_fits Tcl_GetDoubleFromObj opt j = true /\ v = top_value opt j.
Proof.
  intros Hb. unfold JsonParseObjCmd, Ns_JsonParse. cbv zeta. intros ([v1 n] & H & Ht)%bind_parsed.
  destruct (JsonSkipWs_sound (mkCursor 0 buf) Hb) as (w0 & Ew0 & Hw0). set (c0 := JsonSkipWs _) in *. case_bool_decide; [done|].
  destruct (top_refused opt (JsonPeek c0)) eqn:Etop; [done|]. apply bind_parsed in H as ([[v2 vt] c] & H & [= <- <-]).
  pose proof (eats_bytes _ _ _ Ew0 Hb) as Hb0. apply (proj1 (parse_sound _)) in H as (w & c1 & t & Ew & Hw & j & Et & Hj & Hf & [= -> ->]); [done|].
  pose proof (eats_app _ _ _ _ _ Ew0 (eats_app _ _ _ _ _ Ew Et)) as [Eb Ep]. cbn [rest pos snd] in *.
  unfold JsonCheckTrailingDecode in Ht. assert (Ed : drop (Z.to_nat (pos c)) buf = rest c).
  { rewrite Eb, Ep. replace (Z.to_nat _) with (length (w0 ++ w ++ t)) by lia. apply drop_app_length. }
  rewrite Ed in Ht. assert (Hbc : is_bytes (rest c)) by (rewrite Eb in Hb; by apply Forall_app in Hb as [_ ?]).
  destruct (JsonSkipWsPtr_near (rest c) Hbc) as (w2 & E2 & Hw2). destruct (JsonSkipWsPtr (rest c)); [|done]. injection Ht as <-. rewrite app_nil_r in E2.
  exists (w0 ++ w), j, t, w2. split_and!; [by rewrite Eb, E2, <- !app_assoc|by apply ws_app|done|done| |done].
  unfold top_fits. rewrite Hf. destruct (top opt) eqn:Eo; [done|]. eapply top_container; [exact Hj|exact Hw|]. unfold top_refused in Etop. rewrite Eo in Etop.
  destruct Ew as [Er _], Et as [Er' _]. cbn [snd] in Er'. unfold JsonPeek in Etop. by rewrite Er, Er' in Etop.
Qed.
(** C4.  What [ns_json parse] accepts is JSON: the text is a JSON text between white space,
    within the limits of the options, and the result is the Tcl value of the JSON value
    the text stands for.  White space here includes the bytes 0x08, 0x0b, 0x0c and 0x21. *)
Theorem JsonParse_sound buf v : is_bytes buf -> JsonParseObjCmd Tcl_GetDoubleFromObj opt buf = Parsed v ->
  exists w1 j t w2, buf = w1 ++ t ++ w2 /\ ws lenient_ws w1 /\ value_text lenient_ws j t /\ ws lenient_ws w2 /\
    top_fits Tcl_GetDoubleFromObj opt j = true /\ v = top_value opt j.
Proof.
  intros Hb Hp. destruct (accepted_text buf v Hb Hp) as (w1 & j & t & w2 & E & H1 & Ht & H2 & Hf & Hv).
  destruct (text_mono blank lenient_ws near_lenient) as (Hw & Hvt & _). exists w1, j, t, w2. auto 10.
Qed.
End sound.

(** A blank and seven exclamation marks where white space is: the parser accepts them. *)
Lemma JsonParse_sound_witness : exists w1 j t w2, bytes "[1, !!!!!!!2]" = w1 ++ t ++ w2 /\ ws lenient_ws w1 /\ value_text lenient_ws j t /\ ws lenient_ws w2 /\
    top_fits double0 options0 j = true /\
    TList [TStr []; TStr (bytes "array"); TList [TStr (bytes "0"); TStr (bytes "number"); TStr (bytes "1"); TStr (bytes "1"); TStr (bytes "number"); TStr (bytes "2")]] =
      top_value options0 j.
Proof.
  apply JsonParse_sound; [unfold is_bytes, is_byte; apply (bool_decide_unpack _); vm_compute; exact I|vm_compute; reflexivity].
Defined.
