(* ===== verification/JsonEmit.v ===== *)
(** * JsonEmit: JSON text from triples (nsd/tcljson.c).

    [JsonTriplesValueToJson] with its validation, for compact and for pretty output.
    Tcl's conversions of values are parameters with the laws the code relies on. *)

From Stdlib Require Import SpecFloat.
From S2P Require Import Prelude Utf8 JsonScan JsonParse JsonGrammar JsonComplete JsonSound.

(** ** Results *)

(** A result, an error message, a read behind the end of an array, or a recursion that goes on. *)
Inductive emitted (A : Type) := Emitted (a : A) | EmitError (message : string) | BadRead | EmitFuel.
Arguments Emitted {A} _.
Arguments EmitError {A} _.
Arguments BadRead {A}.
Arguments EmitFuel {A}.

#[export] Instance emitted_bind : MBind emitted := fun A B f m =>
  match m with Emitted a => f a | EmitError e => EmitError e | BadRead => BadRead | EmitFuel => EmitFuel end.

(** ** Strings *)

Definition hex_char (d : Z) : Z := if d <? 10 then 48 + d else 87 + d.

(** The text of one byte. *)
Definition quote_byte (c : Z) : list Z :=
  if c =? 34 then [92; 34] else if c =? 92 then [92; 92] else if c =? 8 then [92; 98] else if c =? 12 then [92; 102]
  else if c =? 10 then [92; 110] else if c =? 13 then [92; 114] else if c =? 9 then [92; 116]
  else if c <? 0x20 then [92; 117; 48; 48; hex_char (c / 16); hex_char (c mod 16)]
  else [c].

Definition JsonAppendQuotedString (s : list Z) : list Z := [34] ++ concat (quote_byte <$> s) ++ [34].

(** ** Tcl values *)

(** What the code uses of Tcl's conversions of values. *)
Class TclValues (Tcl_GetStringFromObj : Tcl_Obj -> list Z) (Tcl_ListObjGetElements : Tcl_Obj -> option (list Tcl_Obj))
  (Tcl_GetBooleanFromObj : Tcl_Obj -> option bool) : Prop := {
  tcl_string s : Tcl_GetStringFromObj (TStr s) = s;
  tcl_list l : Tcl_ListObjGetElements (TList l) = Some l;
  tcl_boolean (b : bool) : Tcl_GetBooleanFromObj (TStr (bytes (if b then "true" else "false"))) = Some b
}.

Section emit.
Context (Tcl_GetStringFromObj : Tcl_Obj -> list Z) (Tcl_ListObjGetElements : Tcl_Obj -> option (list Tcl_Obj))
  (Tcl_GetBooleanFromObj : Tcl_Obj -> option bool).

Definition JsonObjIsAtom (obj : Tcl_Obj) (atom : string) : bool := bool_decide (Tcl_GetStringFromObj obj = bytes atom).

Definition JsonTypeObjToVt (typeObj : Tcl_Obj) : JsonValueType :=
  if JsonObjIsAtom typeObj "string" then JSON_VT_STRING
  else if JsonObjIsAtom typeObj "number" then JSON_VT_NUMBER
  else if JsonObjIsAtom typeObj "boolean" then JSON_VT_BOOL
  else if JsonObjIsAtom typeObj "bool" then JSON_VT_BOOL
  else if JsonObjIsAtom typeObj "null" then JSON_VT_NULL
  else if JsonObjIsAtom typeObj "object" then JSON_VT_OBJECT
  else if JsonObjIsAtom typeObj "array" then JSON_VT_ARRAY
  else JSON_VT_AUTO.

Definition get_elements (obj : Tcl_Obj) : emitted (list Tcl_Obj) :=
  match Tcl_ListObjGetElements obj with Some l => Emitted l | None => EmitError "not a list" end.

Definition JsonRequireValidNumberObj (valueObj : Tcl_Obj) : emitted unit :=
  if JsonNumberLexemeIsValid (Tcl_GetStringFromObj valueObj) then Emitted tt else EmitError "invalid number".

(** The loop over the triples of a container, with the check of a nested container. *)
Fixpoint check_triples (check : Tcl_Obj -> emitted unit) (lv : list Tcl_Obj) : emitted unit :=
  match lv with
  | _ :: typeObj :: elemValueObj :: lv =>
      _ ← (match JsonTypeObjToVt typeObj with
           | JSON_VT_OBJECT | JSON_VT_ARRAY => check elemValueObj
           | JSON_VT_NUMBER => JsonRequireValidNumberObj elemValueObj
           | JSON_VT_STRING | JSON_VT_BOOL | JSON_VT_NULL => Emitted tt
           | JSON_VT_AUTO => EmitError "invalid triple type"
           end);
      check_triples check lv
  | _ => Emitted tt
  end.

Fixpoint JsonTriplesRequireValidContainerObj (fuel : nat) (containerObj : Tcl_Obj) (allowEmpty validateNumbers : bool) : emitted unit :=
  match fuel with
  | O => EmitFuel
  | S fuel =>
      lv ← get_elements containerObj;
      let lc := Z.of_nat (length lv) in
      if (negb allowEmpty && (lc =? 0)) || negb (lc mod 3 =? 0) then EmitError "triples length must be multiple of 3"
      else if validateNumbers then check_triples (fun obj => JsonTriplesRequireValidContainerObj fuel obj true validateNumbers) lv
      else Emitted tt
  end.

(** ** Pretty output *)

Definition JsonPrettyIndent (depth : Z) : list Z := 10 :: replicate (Z.to_nat (depth * 2)) 32.

(** The type of every third element is read, whether it is there or not. *)
Fixpoint JsonArrayPrettySingleLine (ov : list Tcl_Obj) : emitted bool :=
  match ov with
  | [] => Emitted true
  | [_] => BadRead
  | _ :: typeObj :: ov =>
      match JsonTypeObjToVt typeObj with
      | JSON_VT_OBJECT | JSON_VT_ARRAY | JSON_VT_AUTO => Emitted false
      | _ => match ov with [] => Emitted true | _ :: ov => JsonArrayPrettySingleLine ov end
      end
  end.

Fixpoint JsonObjectPrettySingleLine (fuel : nat) (ov : list Tcl_Obj) : emitted bool :=
  match fuel with
  | O => EmitFuel
  | S fuel =>
      match ov with
      | [_; typeObj; valueObj] =>
          match JsonTypeObjToVt typeObj with
          | JSON_VT_STRING | JSON_VT_NUMBER | JSON_VT_BOOL | JSON_VT_NULL => Emitted true
          | JSON_VT_ARRAY => match Tcl_ListObjGetElements valueObj with Some aov => JsonArrayPrettySingleLine aov | None => Emitted false end
          | JSON_VT_OBJECT => match Tcl_ListObjGetElements valueObj with Some iov => JsonObjectPrettySingleLine fuel iov | None => Emitted false end
          | JSON_VT_AUTO => Emitted false
          end
      | _ => Emitted false
      end
  end.

(** ** Output *)

(** The loop over the triples, with the output of a value and the text between a comma and the next one. *)
Fixpoint emit_triples (emit : Tcl_Obj -> Tcl_Obj -> emitted (list Z)) (isObject pretty : bool) (sep : list Z) (first : bool) (ov : list Tcl_Obj) : emitted (list Z) :=
  match ov with
  | nameObj :: typeObj :: valObj :: ov =>
      let head := (if first then [] else 44 :: sep) ++
        (if isObject then JsonAppendQuotedString (Tcl_GetStringFromObj nameObj) ++ (if pretty then [58; 32] else [58]) else []) in
      v ← emit typeObj valObj;
      r ← emit_triples emit isObject pretty sep false ov;
      Emitted (head ++ v ++ r)
  | _ => Emitted []
  end.

Fixpoint JsonEmitValueFromTriple (fuel : nat) (typeObj valObj : Tcl_Obj) (validateNumbers : bool) (depth : Z) (pretty : bool) : emitted (list Z) :=
  match fuel with
  | O => EmitFuel
  | S fuel =>
      if JsonObjIsAtom typeObj "string" then Emitted (JsonAppendQuotedString (Tcl_GetStringFromObj valObj))
      else if JsonObjIsAtom typeObj "number" then
        let s := Tcl_GetStringFromObj valObj in
        if validateNumbers && negb (JsonNumberLexemeIsValid s) then EmitError "invalid number" else Emitted s
      else if JsonObjIsAtom typeObj "boolean" || JsonObjIsAtom typeObj "bool" then
        match Tcl_GetBooleanFromObj valObj with
        | Some b => Emitted (bytes (if b then "true" else "false"))
        | None => EmitError "expected boolean value"
        end
      else if JsonObjIsAtom typeObj "null" then Emitted (bytes "null")
      else if JsonObjIsAtom typeObj "object" then JsonEmitContainerFromTriples fuel valObj true validateNumbers depth pretty
      else if JsonObjIsAtom typeObj "array" then JsonEmitContainerFromTriples fuel valObj false validateNumbers depth pretty
      else EmitError "unsupported triple type"
  end
with JsonEmitContainerFromTriples (fuel : nat) (triplesObj : Tcl_Obj) (isObject validateNumbers : bool) (depth : Z) (pretty : bool) : emitted (list Z) :=
  match fuel with
  | O => EmitFuel
  | S fuel =>
      ov ← get_elements triplesObj;
      let oc := Z.of_nat (length ov) in
      if negb (oc mod 3 =? 0) then EmitError "triples length must be multiple of 3"
      else
        let pretty := if oc =? 0 then false else pretty in
        single ← (if pretty then if isObject then JsonObjectPrettySingleLine (S fuel) ov else JsonArrayPrettySingleLine ov else Emitted false);
        let prettyMultiLine := negb single in
        let edge (d : Z) := if pretty && (0 <? oc) then if prettyMultiLine then JsonPrettyIndent d else if isObject then [32] else [] else [] in
        let sep := if pretty then if prettyMultiLine then JsonPrettyIndent (depth + 1) else [32] else [] in
        body ← emit_triples (fun typeObj valObj => JsonEmitValueFromTriple fuel typeObj valObj validateNumbers (depth + 1) pretty) isObject pretty sep true ov;
        Emitted ([if isObject then 123 else 91] ++ edge (depth + 1) ++ body ++ edge depth ++ [if isObject then 125 else 93])
  end.

Definition JsonTriplesValueToJson (fuel : nat) (vt : JsonValueType) (valueObj : Tcl_Obj) (pretty validateNumbers : bool) : emitted (list Z) :=
  match vt with
  | JSON_VT_OBJECT | JSON_VT_ARRAY =>
      _ ← JsonTriplesRequireValidContainerObj fuel valueObj true validateNumbers;
      JsonEmitContainerFromTriples fuel valueObj (bool_decide (vt = JSON_VT_OBJECT)) validateNumbers 0 pretty
  | JSON_VT_AUTO => EmitError "invalid value type"
  | _ => JsonEmitValueFromTriple fuel (TStr (JsonTypeString vt)) valueObj validateNumbers 0 pretty
  end.
End emit.

(** ** The text of a string *)

Lemma hex_char_digit d : 0 <= d < 16 -> hexval (hex_char d) d.
Proof. intros Hd. unfold hex_char, hexval. zcases; lia. Qed.

Lemma quote_byte_body c t s : is_byte c -> body t s -> body (quote_byte c ++ t) (c :: s).
Proof.
  unfold is_byte. intros Hc Ht. unfold quote_byte.
  repeat match goal with |- context [c =? ?z] =>
    destruct (Z.eqb_spec c z) as [->|]; [cbn [app]; refine (body_escape [_] [_] t s _ Ht); by apply esc_simple, simple_escape_spec|] end.
  destruct (Z.ltb_spec c 0x20) as [Hlt|]; [|apply body_plain; done || lia].
  assert (Hq : 0 <= c / 16 < 16 /\ 0 <= c mod 16 < 16) by (Z.div_mod_to_equations; lia). destruct Hq as [Hq Hr].
  change ([92; 117; 48; 48; hex_char (c / 16); hex_char (c mod 16)] ++ t) with (92 :: (117 :: [48; 48; hex_char (c / 16); hex_char (c mod 16)]) ++ t).
  change (c :: s) with ([c] ++ s). apply body_escape; [|done]. replace [c] with (Ns_Utf8FromCodePoint c).
  - apply esc_unicode; [|lia]. exists 48, 48, (hex_char (c / 16)), (hex_char (c mod 16)), 0, 0, (c / 16), (c mod 16).
    split_and!; try done; try (by apply hex_char_digit); try (unfold hexval; lia). pose proof (Z.div_mod c 16). lia.
  - unfold Ns_Utf8FromCodePoint. by rewrite (proj2 (Z.leb_le _ _)) by lia.
Qed.

Definition quoted_body (s : list Z) : list Z := concat (quote_byte <$> s).

Lemma quoted_body_ok s : is_bytes s -> body (quoted_body s) s.
Proof. induction 1 as [|c s Hc _ IH]; [constructor|]. unfold quoted_body in *. cbn [fmap list_fmap concat]. by apply quote_byte_body. Qed.

Lemma JsonAppendQuotedString_quoted s : JsonAppendQuotedString s = quoted (quoted_body s).
Proof. done. Qed.

(** ** Values that have a text *)

Fixpoint json_ok (j : json) : Prop :=
  match j with
  | JString s => is_bytes s
  | JNumber l => number l
  | JBool _ | JNull => True
  | JObject ms => (fix go l := match l with [] => True | (k, v) :: l => (is_bytes k /\ json_ok v) /\ go l end) ms
  | JArray es => (fix go l := match l with [] => True | v :: l => json_ok v /\ go l end) es
  end.

Definition member_ok (kv : list Z * json) : Prop := is_bytes kv.1 /\ json_ok kv.2.

Lemma json_ok_object ms : json_ok (JObject ms) <-> Forall member_ok ms.
Proof.
  induction ms as [|[k v] ms IH]; [by split; constructor|]. rewrite Forall_cons, <- IH. done.
Qed.

Lemma json_ok_array es : json_ok (JArray es) <-> Forall json_ok es.
Proof.
  induction es as [|v es IH]; [by split; constructor|]. rewrite Forall_cons, <- IH. done.
Qed.

Lemma FromCodePoint_bytes u : 0 <= u -> is_bytes (Ns_Utf8FromCodePoint u).
Proof.
  intros Hu. rewrite from_code_point_arith by lia. pose proof (Z.div_pos u 64 Hu). 
  zcases; repeat (apply bytes_cons; [unfold is_byte; Z.div_mod_to_equations; lia|]); apply bytes_nil.
Qed.

Lemma escape_value_bytes e b : escape e b -> is_bytes b.
Proof.
  destruct 1 as [e b He|h u Hh Hu|h1 h2 u1 u2 H1 Hu1 H2 Hu2].
  - apply bytes_cons; [|constructor]. apply simple_escape_spec in He. revert He. unfold simple_escape, is_byte. zcases; intros; simplify_eq; lia.
  - apply FromCodePoint_bytes. apply hex4_range in Hh. lia.
  - apply FromCodePoint_bytes. lia.
Qed.

Lemma body_value_bytes t s : body t s -> is_bytes s.
Proof.
  induction 1 as [|c t s ? ? ? _ IH|e b t s He _ IH]; [constructor|apply bytes_cons; [unfold is_byte; lia|done]|apply bytes_app; [by eapply escape_value_bytes|done]].
Qed.

Lemma text_json_ok blank :
  (forall j t, value_text blank j t -> json_ok j) /\ (forall ms t, members_text blank ms t -> Forall member_ok ms) /\
  (forall es t, elements_text blank es t -> Forall json_ok es).
Proof.
  apply text_mutind; intros; try done;
    try (rewrite json_ok_object; done); try (rewrite json_ok_array; done);
    try (apply Forall_cons; split; [|constructor || done]); try done.
  - by eapply body_value_bytes.
  - split; [by eapply body_value_bytes|done].
  - split; [by eapply body_value_bytes|done].
Qed.

(** The value of an accepted text. *)
Lemma accepted_value Tcl_GetDoubleFromObj opt buf v : is_bytes buf -> JsonParseObjCmd Tcl_GetDoubleFromObj opt buf = Parsed v ->
  exists j, json_ok j /\ top_fits Tcl_GetDoubleFromObj opt j = true /\ v = top_value opt j.
Proof.
  intros Hb Hp. destruct (accepted_text _ _ _ _ Hb Hp) as (w1 & j & t & w2 & _ & _ & Ht & _ & Hf & Hv). exists j. split_and!; try done.
  by eapply (proj1 (text_json_ok _)).
Qed.

(** ** Triples *)

Fixpoint tcl_height (o : Tcl_Obj) : nat :=
  match o with
  | TStr _ => 0
  | TList l => S (list_max (map tcl_height l))
  | TDict m => S (list_max (map (fun kv => match kv with (_, v) => tcl_height v end) m))
  end.

(** Fuel that is enough: a level of a value takes two calls. *)
Definition emit_fuel (valueObj : Tcl_Obj) : nat := 2 * tcl_height valueObj + 1.

Section roundtrip.
Context (opt : Ns_JsonOptions) (Htriples : output opt = NS_JSON_OUTPUT_TRIPLES).

Notation value_of := (value_of opt).
Notation type_name j := (TStr (JsonTypeString (type_of j))).

Definition triple (kv : list Z * json) : list Tcl_Obj := [TStr kv.1; type_name kv.2; value_of kv.2].
Definition triples (kvs : list (list Z * json)) : list Tcl_Obj := concat (triple <$> kvs).

(** The elements of an array with their names. *)
Fixpoint indexed (idx : Z) (es : list json) : list (list Z * json) :=
  match es with [] => [] | v :: es => (index_name idx, v) :: indexed (idx + 1) es end.

Lemma object_triples ms acc : fold_left (put_one opt) ms (TList acc) = TList (acc ++ triples ms).
Proof.
  revert acc. induction ms as [|[k v] ms IH]; intros acc; cbn [fold_left]; [by rewrite app_nil_r|].
  unfold put_one at 2. cbn [put_member fst snd]. rewrite IH. unfold JsonTriplesAppendVt. rewrite <- app_assoc. done.
Qed.

Lemma array_triples es acc idx : (fold_left (put_next opt) es (acc, idx)).1 = acc ++ triples (indexed idx es).
Proof.
  revert acc idx. induction es as [|v es IH]; intros acc idx; cbn [fold_left indexed]; [by rewrite app_nil_r|].
  unfold put_next at 2. cbn [fst snd]. rewrite IH. unfold put_element. rewrite Htriples. unfold JsonTriplesAppendVt. rewrite <- app_assoc. done.
Qed.

Lemma value_of_members ms : value_of (JObject ms) = TList (triples ms).
Proof. rewrite value_of_object. unfold empty_object. rewrite Htriples. apply object_triples. Qed.

Lemma value_of_elements es : value_of (JArray es) = TList (triples (indexed 0 es)).
Proof. cbn. f_equal. apply array_triples. Qed.

Lemma triples_length kvs : length (triples kvs) = (3 * length kvs)%nat.
Proof. induction kvs as [|kv kvs IH]; [done|]. unfold triples in *. cbn [fmap list_fmap concat]. rewrite length_app, IH. cbn. lia. Qed.

Lemma indexed_snd idx es : (indexed idx es).*2 = es.
Proof. revert idx. induction es as [|v es IH]; intros idx; [done|]. cbn. by rewrite IH. Qed.

Lemma forall_indexed (P : json -> Prop) es idx : Forall P es -> Forall (fun kv => P kv.2) (indexed idx es).
Proof. intros Hp. revert idx. induction Hp; intros idx; cbn; by constructor. Qed.

(** The values of a container are less high than it. *)
Lemma triples_height kvs n : (tcl_height (TList (triples kvs)) <= n)%nat -> Forall (fun kv => (tcl_height (value_of kv.2) < n)%nat) kvs.
Proof.
  intros Hn. assert (H : Forall (fun kv => (tcl_height (value_of kv.2) <= list_max (map tcl_height (triples kvs)))%nat) kvs).
  { clear Hn. induction kvs as [|kv kvs IH]; [constructor|]. change (triples (kv :: kvs)) with (triple kv ++ triples kvs). rewrite map_app, list_max_app.
    constructor; [cbn; lia|]. eapply Forall_impl; [exact IH|]. cbn beta. intros x Hx. lia. }
  eapply Forall_impl; [exact H|]. cbn beta. intros kv Hk. cbn in Hn. lia.
Qed.

Section values.
Context (Tcl_GetStringFromObj : Tcl_Obj -> list Z) (Tcl_ListObjGetElements : Tcl_Obj -> option (list Tcl_Obj))
  (Tcl_GetBooleanFromObj : Tcl_Obj -> option bool) (HT : TclValues Tcl_GetStringFromObj Tcl_ListObjGetElements Tcl_GetBooleanFromObj).

Notation is_atom := (JsonObjIsAtom Tcl_GetStringFromObj).
Notation vt_of := (JsonTypeObjToVt Tcl_GetStringFromObj).
Notation emit_value := (JsonEmitValueFromTriple Tcl_GetStringFromObj Tcl_ListObjGetElements Tcl_GetBooleanFromObj).
Notation emit_container := (JsonEmitContainerFromTriples Tcl_GetStringFromObj Tcl_ListObjGetElements Tcl_GetBooleanFromObj).
Notation require_valid := (JsonTriplesRequireValidContainerObj Tcl_GetStringFromObj Tcl_ListObjGetElements).

Lemma is_atom_str s atom : is_atom (TStr s) atom = bool_decide (s = bytes atom).
Proof. unfold JsonObjIsAtom. by rewrite tcl_string. Qed.

Lemma vt_of_type j : vt_of (type_name j) = type_of j.
Proof. unfold JsonTypeObjToVt. rewrite !is_atom_str. by destruct j. Qed.

Lemma elements_of l : get_elements Tcl_ListObjGetElements (TList l) = Emitted l.
Proof. unfold get_elements. by rewrite tcl_list. Qed.

Lemma valid_number l : number l -> JsonNumberLexemeIsValid l = true.
Proof. intros Hl. unfold JsonNumberLexemeIsValid. rewrite <- (app_nil_r l). by rewrite JsonScanNumber_app. Qed.

Lemma array_single_line kvs : exists b, JsonArrayPrettySingleLine Tcl_GetStringFromObj (triples kvs) = Emitted b.
Proof.
  induction kvs as [|kv kvs IH]; [by exists true|]. change (triples (kv :: kvs)) with (triple kv ++ triples kvs). cbn. rewrite vt_of_type.
  destruct (type_of kv.2); eauto.
Qed.

Lemma object_single_line fuel : forall kvs, (tcl_height (TList (triples kvs)) <= fuel)%nat ->
  exists b, JsonObjectPrettySingleLine Tcl_GetStringFromObj Tcl_ListObjGetElements fuel (triples kvs) = Emitted b.
Proof.
  induction fuel as [|fuel IH]; intros kvs Hf; [cbn in Hf; lia|]. pose proof (triples_height kvs _ Hf) as Hh.
  destruct kvs as [|kv [|kv2 kvs]]; [by exists false| |by exists false]. inversion Hh as [|? ? Hk _]; subst. clear Hh Hf.
  change (triples [kv]) with [TStr kv.1; type_name kv.2; value_of kv.2]. cbn [JsonObjectPrettySingleLine]. rewrite vt_of_type.
  destruct kv as [k [s|l|b| |ms|es]]; cbn [fst snd type_of] in *; [by exists true|by exists true|by exists true|by exists true| |].
  - rewrite value_of_members in *. rewrite tcl_list. apply IH. lia.
  - rewrite value_of_elements, tcl_list. apply array_single_line.
Qed.

Lemma require_valid_ok fuel : forall kvs, (tcl_height (TList (triples kvs)) <= fuel)%nat -> Forall (fun kv => json_ok kv.2) kvs ->
  require_valid fuel (TList (triples kvs)) true true = Emitted tt.
Proof.
  induction fuel as [|fuel IH]; intros kvs Hf Hok; [cbn in Hf; lia|]. pose proof (triples_height kvs _ Hf) as Hh. clear Hf.
  cbn [JsonTriplesRequireValidContainerObj]. rewrite elements_of. cbn [mbind emitted_bind]. rewrite triples_length.
  replace (Z.of_nat (3 * length kvs) mod 3) with 0 by (rewrite Nat2Z.inj_mul, Z.mul_comm, Z.mod_mul; done). cbn [negb andb orb Z.eqb].
  induction Hh as [|kv kvs Hk _ IHk]; [done|]. inversion Hok as [|? ? Hj Hok']; subst. specialize (IHk Hok').
  change (triples (kv :: kvs)) with ([TStr kv.1; type_name kv.2; value_of kv.2] ++ triples kvs). cbn [app check_triples]. rewrite vt_of_type.
  assert (Hv : (match type_of kv.2 with
           | JSON_VT_OBJECT | JSON_VT_ARRAY => require_valid fuel (value_of kv.2) true true
           | JSON_VT_NUMBER => JsonRequireValidNumberObj Tcl_GetStringFromObj (value_of kv.2)
           | JSON_VT_STRING | JSON_VT_BOOL | JSON_VT_NULL => Emitted tt
           | JSON_VT_AUTO => EmitError "invalid triple type"
           end) = Emitted tt); [|rewrite Hv; exact IHk].
  destruct kv as [k [s|l|b| |ms|es]]; cbn [fst snd type_of] in *; try done.
  - unfold JsonRequireValidNumberObj. cbn [JsonGrammar.value_of]. rewrite tcl_string. by rewrite valid_number.
  - rewrite value_of_members in *. apply IH; [lia|]. apply json_ok_object in Hj. eapply Forall_impl; [exact Hj|]. by intros x [_ ?].
  - rewrite value_of_elements in *. apply IH; [lia|]. by apply forall_indexed, json_ok_array.
Qed.
(** The values of a container have their texts. *)
Definition emits (emit : Tcl_Obj -> Tcl_Obj -> emitted (list Z)) (kv : list Z * json) : Prop :=
  exists t, emit (type_name kv.2) (value_of kv.2) = Emitted t /\ value_text is_ws kv.2 t.

Lemma emit_members emit (pretty : bool) sep w kvs : ws is_ws sep -> ws is_ws w -> Forall (fun kv => is_bytes kv.1) kvs -> Forall (emits emit) kvs ->
  kvs <> [] -> forall first : bool, exists t, emit_triples Tcl_GetStringFromObj emit true pretty sep first (triples kvs) = Emitted ((if first then [] else 44 :: sep) ++ t) /\
    members_text is_ws kvs (t ++ w).
Proof.
  intros Hsep Hw Hb He. induction He as [|[k j] kvs (tv & Etv & Htv) _ IH]; intros Hne first; [done|]. inversion Hb as [|? ? Hk Hb']; subst. cbn [fst snd] in *.
  change (triples ((k, j) :: kvs)) with ([TStr k; type_name j; value_of j] ++ triples kvs). cbn [app emit_triples]. rewrite Etv. cbn [mbind emitted_bind].
  rewrite tcl_string, JsonAppendQuotedString_quoted. set (w2 := if pretty then [32] else [] : list Z).
  assert (Ec : (if pretty then [58; 32] else [58]) = 58 :: w2) by (by destruct pretty). rewrite Ec. assert (Hw2 : ws is_ws w2) by (destruct pretty; by repeat constructor).
  pose proof (quoted_body_ok k Hk) as Hq. destruct kvs as [|kv kvs].
  - exists (quoted (quoted_body k) ++ 58 :: w2 ++ tv). split; [cbn [triples fmap list_fmap concat emit_triples mbind emitted_bind]; rewrite app_nil_r; repeat (rewrite <- app_assoc; cbn [app]); done|].
    replace ((quoted (quoted_body k) ++ 58 :: w2 ++ tv) ++ w) with (quoted (quoted_body k) ++ [] ++ 58 :: w2 ++ tv ++ w) by (repeat (rewrite <- app_assoc; cbn [app]); done).
    apply text_member; done || constructor.
  - destruct (IH Hb' ltac:(done) false) as (t & -> & Ht). cbn [mbind emitted_bind].
    exists (quoted (quoted_body k) ++ 58 :: w2 ++ tv ++ 44 :: sep ++ t). split; [repeat (rewrite <- app_assoc; cbn [app]); done|].
    replace ((quoted (quoted_body k) ++ 58 :: w2 ++ tv ++ 44 :: sep ++ t) ++ w) with (quoted (quoted_body k) ++ [] ++ 58 :: w2 ++ tv ++ [] ++ 44 :: sep ++ (t ++ w))
      by (repeat (rewrite <- app_assoc; cbn [app]); done).
    apply text_members; done || constructor.
Qed.

Lemma emit_elements emit (pretty : bool) sep w kvs : ws is_ws sep -> ws is_ws w -> Forall (emits emit) kvs ->
  kvs <> [] -> forall first : bool, exists t, emit_triples Tcl_GetStringFromObj emit false pretty sep first (triples kvs) = Emitted ((if first then [] else 44 :: sep) ++ t) /\
    elements_text is_ws kvs.*2 (t ++ w).
Proof.
  intros Hsep Hw He. induction He as [|[k j] kvs (tv & Etv & Htv) _ IH]; intros Hne first; [done|]. cbn [fst snd fmap list_fmap] in *.
  change (triples ((k, j) :: kvs)) with ([TStr k; type_name j; value_of j] ++ triples kvs). cbn [app emit_triples]. rewrite Etv. cbn [mbind emitted_bind].
  destruct kvs as [|kv kvs].
  - exists tv. split; [cbn; by rewrite !app_nil_r|]. by apply text_element.
  - destruct (IH ltac:(done) false) as (t & -> & Ht). cbn [mbind emitted_bind].
    exists (tv ++ 44 :: sep ++ t). split; [by rewrite app_nil_r|].
    replace ((tv ++ 44 :: sep ++ t) ++ w) with (tv ++ [] ++ 44 :: sep ++ (t ++ w)) by (repeat (rewrite <- app_assoc; cbn [app]); done).
    apply text_elements; done || constructor.
Qed.

Lemma indent_ws d : ws is_ws (JsonPrettyIndent d).
Proof. constructor; [done|]. by apply Forall_replicate. Qed.

(** The text of a container whose layout is known. *)
Definition container_text (fuel : nat) (ov : list Tcl_Obj) (isObject : bool) (depth : Z) (pretty single : bool) : emitted (list Z) :=
  let edge (d : Z) := if pretty && (0 <? Z.of_nat (length ov)) then if negb single then JsonPrettyIndent d else if isObject then [32] else [] else [] in
  let sep := if pretty then if negb single then JsonPrettyIndent (depth + 1) else [32] else [] in
  body ← emit_triples Tcl_GetStringFromObj (fun typeObj valObj => emit_value fuel typeObj valObj true (depth + 1) pretty) isObject pretty sep true ov;
  Emitted ([if isObject then 123 else 91] ++ edge (depth + 1) ++ body ++ edge depth ++ [if isObject then 125 else 93]).

Lemma emit_container_S fuel kvs (isObject : bool) depth (pretty single : bool) : kvs <> [] ->
  (if pretty then if isObject then JsonObjectPrettySingleLine Tcl_GetStringFromObj Tcl_ListObjGetElements (S fuel) (triples kvs)
    else JsonArrayPrettySingleLine Tcl_GetStringFromObj (triples kvs) else Emitted false) = Emitted single ->
  emit_container (S fuel) (TList (triples kvs)) isObject true depth pretty = container_text fuel (triples kvs) isObject depth pretty single.
Proof.
  intros Hne Hs. assert (E : emit_container (S fuel) (TList (triples kvs)) isObject true depth pretty =
    ov ← get_elements Tcl_ListObjGetElements (TList (triples kvs));
    if negb (Z.of_nat (length ov) mod 3 =? 0) then EmitError "triples length must be multiple of 3"
    else
      let pretty := if Z.of_nat (length ov) =? 0 then false else pretty in
      (if pretty then if isObject then JsonObjectPrettySingleLine Tcl_GetStringFromObj Tcl_ListObjGetElements (S fuel) ov
       else JsonArrayPrettySingleLine Tcl_GetStringFromObj ov else Emitted false) ≫= container_text fuel ov isObject depth pretty) by reflexivity.
  rewrite E, elements_of. unfold mbind at 1, emitted_bind at 1. rewrite triples_length.
  replace (Z.of_nat (3 * length kvs) mod 3) with 0 by (rewrite Nat2Z.inj_mul, Z.mul_comm, Z.mod_mul; done).
  rewrite (proj2 (Z.eqb_neq (Z.of_nat (3 * length kvs)) 0)) by (destruct kvs; [done|cbn [length]; lia]). cbn [negb Z.eqb]. by rewrite Hs.
Qed.

Lemma emit_container_ok fuel kvs (isObject : bool) depth pretty : (tcl_height (TList (triples kvs)) <= S fuel)%nat -> (isObject = true -> Forall (fun kv => is_bytes kv.1) kvs) ->
  (forall depth pretty, Forall (emits (fun typeObj valObj => emit_value fuel typeObj valObj true depth pretty)) kvs) ->
  exists t, emit_container (S fuel) (TList (triples kvs)) isObject true depth pretty = Emitted t /\ value_text is_ws (if isObject then JObject kvs else JArray kvs.*2) t.
Proof.
  intros Hf Hb He. destruct (decide (kvs = [])) as [->|Hne].
  { change (triples []) with (@nil Tcl_Obj). cbn. rewrite elements_of. destruct isObject; eexists; (split; [reflexivity|]); [apply (text_empty_object _ [])|apply (text_empty_array _ [])]; constructor. }
  assert (H0 : 0 < Z.of_nat (length (triples kvs))) by (rewrite triples_length; destruct kvs; [done|cbn [length]; lia]).
  assert (Hs : exists single, (if pretty then if isObject then JsonObjectPrettySingleLine Tcl_GetStringFromObj Tcl_ListObjGetElements (S fuel) (triples kvs)
    else JsonArrayPrettySingleLine Tcl_GetStringFromObj (triples kvs) else Emitted false) = Emitted single).
  { destruct pretty; [|by exists false]. destruct isObject; [by apply object_single_line|apply array_single_line]. }
  destruct Hs as (single & Hs). rewrite (emit_container_S _ _ _ _ _ single) by done. unfold container_text. cbv zeta. rewrite (proj2 (Z.ltb_lt _ _)), andb_true_r by done.
  set (edge := fun d => if pretty then if negb single then JsonPrettyIndent d else if isObject then [32] else [] else []).
  set (sep := if pretty then if negb single then JsonPrettyIndent (depth + 1) else [32] else []).
  assert (Hedge : forall d, ws is_ws (edge d)) by (intros d; unfold edge; destruct pretty, single, isObject; cbn; try apply indent_ws; by repeat constructor).
  assert (Hsep : ws is_ws sep) by (unfold sep; destruct pretty, single; cbn; try apply indent_ws; by repeat constructor).
  assert (Ht : exists t, emit_triples Tcl_GetStringFromObj (fun typeObj valObj => emit_value fuel typeObj valObj true (depth + 1) pretty) isObject pretty sep true (triples kvs) = Emitted t /\
    if isObject then members_text is_ws kvs (t ++ edge depth) else elements_text is_ws kvs.*2 (t ++ edge depth)).
  { destruct isObject; [apply (emit_members _ _ _ (edge depth)); auto|apply (emit_elements _ _ _ (edge depth)); auto]. }
  destruct Ht as (t & -> & Ht). cbn [mbind emitted_bind]. eexists. split; [reflexivity|]. fold (edge (depth + 1)) (edge depth).
  rewrite (app_assoc t). destruct isObject; [by apply text_object|by apply text_array].
Qed.

Lemma emit_value_ok fuel : forall j depth pretty, (2 * tcl_height (value_of j) + 1 <= fuel)%nat -> json_ok j ->
  exists t, emit_value fuel (type_name j) (value_of j) true depth pretty = Emitted t /\ value_text is_ws j t.
Proof.
  induction fuel as [fuel IH] using lt_wf_ind. intros j depth pretty Hf Hok. destruct fuel as [|fuel]; [lia|]. cbn [JsonEmitValueFromTriple]. rewrite !is_atom_str.
  assert (Hkvs : forall kvs, (2 * tcl_height (TList (triples kvs)) + 1 <= S fuel)%nat -> Forall (fun kv => json_ok kv.2) kvs ->
    exists fuel', fuel = S fuel' /\ (tcl_height (TList (triples kvs)) <= S fuel')%nat /\
      forall depth pretty, Forall (emits (fun typeObj valObj => emit_value fuel' typeObj valObj true depth pretty)) kvs).
  { intros kvs Hk Hj. destruct fuel as [|fuel]; [cbn in Hk; lia|]. exists fuel. split_and!; [done|lia|]. intros d p.
    pose proof (triples_height kvs _ (le_n _)) as Hh. rewrite Forall_forall in Hj, Hh. apply Forall_forall.
    intros kv Hin. specialize (Hh kv Hin). apply IH; [lia|lia|by apply Hj]. }
  destruct j as [s|l|b| |ms|es]; cbn [type_of JsonTypeString].
  - exists (quoted (quoted_body s)). split; [cbn; by rewrite tcl_string|by apply text_string, quoted_body_ok].
  - exists l. split; [|by constructor]. cbn -[JsonNumberLexemeIsValid]. by rewrite tcl_string, valid_number.
  - cbn. rewrite tcl_boolean. eexists. split; [done|]. destruct b; constructor.
  - cbn. eexists. split; [done|]. constructor.
  - rewrite value_of_members in *. apply json_ok_object in Hok. destruct (Hkvs ms) as (fuel' & -> & Hh & He); [done|by eapply Forall_impl; [exact Hok|intros x Hx; apply Hx]|].
    apply (emit_container_ok fuel' ms true); [done|intros _; by eapply Forall_impl; [exact Hok|intros x Hx; apply Hx]|done].
  - rewrite value_of_elements in *. apply json_ok_array in Hok. destruct (Hkvs (indexed 0 es)) as (fuel' & -> & Hh & He); [done|by apply forall_indexed|].
    destruct (emit_container_ok fuel' (indexed 0 es) false depth pretty) as (t & Et & Ht); [done|done|done|]. exists t. split; [exact Et|]. by rewrite indexed_snd in Ht.
Qed.
Lemma value_to_json_ok j pretty : json_ok j ->
  exists t, JsonTriplesValueToJson Tcl_GetStringFromObj Tcl_ListObjGetElements Tcl_GetBooleanFromObj (emit_fuel (value_of j)) (type_of j) (value_of j) pretty true = Emitted t /\
    value_text is_ws j t.
Proof.
  intros Hok. unfold emit_fuel. destruct (is_container j) eqn:Ej.
  - destruct (emit_value_ok (S (2 * tcl_height (value_of j) + 1)) j 0 pretty) as (t & Et & Ht); [lia|done|]. exists t. split; [|done].
    cbn [JsonEmitValueFromTriple] in Et. rewrite !is_atom_str in Et. unfold JsonTriplesValueToJson. destruct j as [s|l|b| |ms|es]; try done; cbn [type_of].
    + rewrite (value_of_members ms) in *. rewrite require_valid_ok; [exact Et|lia|]. apply json_ok_object in Hok. by eapply Forall_impl; [exact Hok|intros x Hx; apply Hx].
    + rewrite (value_of_elements es) in *. rewrite require_valid_ok; [exact Et|lia|]. by apply forall_indexed, json_ok_array.
  - destruct (emit_value_ok (2 * tcl_height (value_of j) + 1) j 0 pretty) as (t & Et & Ht); [lia|done|]. exists t. split; [|done].
    unfold JsonTriplesValueToJson. by destruct j.
Qed.
End values.

(** C5.  What the JSON parser accepts is printed and parsed back: the triples of any accepted
    text, compact or pretty, are printed, the text is accepted under the same options, and its
    triples are the same.  The recursion of the printer ends. *)
Theorem JsonEmit_roundtrip Tcl_GetDoubleFromObj Tcl_GetStringFromObj Tcl_ListObjGetElements Tcl_GetBooleanFromObj
    (HT : TclValues Tcl_GetStringFromObj Tcl_ListObjGetElements Tcl_GetBooleanFromObj) buf v (pretty : bool) :
  is_bytes buf -> JsonParseObjCmd Tcl_GetDoubleFromObj opt buf = Parsed v ->
  exists vt value text, v = TList [TStr []; TStr (JsonTypeString vt); value] /\
    JsonTriplesValueToJson Tcl_GetStringFromObj Tcl_ListObjGetElements Tcl_GetBooleanFromObj (emit_fuel value) vt value pretty true = Emitted text /\
    JsonParseObjCmd Tcl_GetDoubleFromObj opt text = Parsed v.
Proof.
  intros Hb Hp. destruct (accepted_value _ _ _ _ Hb Hp) as (j & Hj & Hf & ->).
  destruct (value_to_json_ok _ _ _ HT j pretty Hj) as (t & Et & Ht). exists (type_of j), (value_of j), t. split_and!; [|done|].
  - unfold top_value. by rewrite Htriples.
  - pose proof (accepts_text Tcl_GetDoubleFromObj opt j t Ht Hf) as E. done.
Qed.
End roundtrip.

(** ** No read behind the end of an array *)

Section safe.
Context (Tcl_GetStringFromObj : Tcl_Obj -> list Z) (Tcl_ListObjGetElements : Tcl_Obj -> option (list Tcl_Obj))
  (Tcl_GetBooleanFromObj : Tcl_Obj -> option bool).

Notation is_atom := (JsonObjIsAtom Tcl_GetStringFromObj).
Notation vt_of := (JsonTypeObjToVt Tcl_GetStringFromObj).
Notation emit_value := (JsonEmitValueFromTriple Tcl_GetStringFromObj Tcl_ListObjGetElements Tcl_GetBooleanFromObj).
Notation emit_container := (JsonEmitContainerFromTriples Tcl_GetStringFromObj Tcl_ListObjGetElements Tcl_GetBooleanFromObj).
Notation require_valid := (JsonTriplesRequireValidContainerObj Tcl_GetStringFromObj Tcl_ListObjGetElements).

Definition is_container_type (t : Tcl_Obj) : Prop := vt_of t = JSON_VT_OBJECT \/ vt_of t = JSON_VT_ARRAY.

(** A property of the types and values of all triples. *)
Fixpoint all_triples (P : Tcl_Obj -> Tcl_Obj -> Prop) (lv : list Tcl_Obj) : Prop :=
  match lv with _ :: t :: v :: lv => P t v /\ all_triples P lv | _ => True end.

Lemma bind_emitted {A B} (x : emitted A) (f : A -> emitted B) b : x ≫= f = Emitted b -> exists a, x = Emitted a /\ f a = Emitted b.
Proof. destruct x as [a|?| |]; cbn; [eauto|done..]. Qed.

Lemma bind_safe {A B} (x : emitted A) (f : A -> emitted B) : x <> BadRead -> (forall a, x = Emitted a -> f a <> BadRead) -> x ≫= f <> BadRead.
Proof. destruct x as [a|?| |]; cbn; auto. Qed.

(** Induction on lists, three elements at a time. *)
Lemma three_ind {A} (P : list A -> Prop) : P [] -> (forall a, P [a]) -> (forall a b, P [a; b]) -> (forall a b c l, P l -> P (a :: b :: c :: l)) -> forall l, P l.
Proof.
  intros H0 H1 H2 H3 l. induction l as [l IH] using (induction_ltof1 _ (@length A)). unfold ltof in IH. destruct l as [|a [|b [|c l]]]; auto.
  apply H3, IH. cbn. lia.
Qed.

Lemma mod3_cons {A} (a b c : A) l : Z.of_nat (length (a :: b :: c :: l)) mod 3 = 0 -> Z.of_nat (length l) mod 3 = 0.
Proof. cbn [length]. replace (Z.of_nat (S (S (S (length l))))) with (Z.of_nat (length l) + 1 * 3) by lia. by rewrite Z.mod_add. Qed.

Lemma check_all check lv : check_triples Tcl_GetStringFromObj check lv = Emitted tt -> all_triples (fun t v => is_container_type t -> check v = Emitted tt) lv.
Proof.
  unfold is_container_type. induction lv as [|a|a b|a t v lv IH] using three_ind; try done. cbn [check_triples all_triples]. intros ([] & Hc & Hl)%bind_emitted.
  split; [|auto]. intros [E|E]; by rewrite E in Hc.
Qed.

Lemma array_line_safe lv : Z.of_nat (length lv) mod 3 = 0 -> JsonArrayPrettySingleLine Tcl_GetStringFromObj lv <> BadRead.
Proof.
  induction lv as [|a|a b|a t v lv IH] using three_ind; [done|done|done|]. intros Hm%mod3_cons. cbn. destruct (vt_of t); auto; done.
Qed.

(** What a container that was checked is. *)
Lemma require_valid_inv fuel obj : require_valid (S fuel) obj true true = Emitted tt ->
  exists lv, Tcl_ListObjGetElements obj = Some lv /\ Z.of_nat (length lv) mod 3 = 0 /\
    all_triples (fun t v => is_container_type t -> require_valid fuel v true true = Emitted tt) lv.
Proof.
  cbn [JsonTriplesRequireValidContainerObj]. unfold get_elements. intros (lv & Hl & H)%bind_emitted. exists lv.
  destruct (Tcl_ListObjGetElements obj) as [l|]; [injection Hl as ->|done]. cbv zeta in H. cbn [negb andb orb] in H.
  destruct (Z.eqb_spec (Z.of_nat (length lv) mod 3) 0) as [Em|]; [|done]. cbn [negb] in H. split_and!; [done|done|]. by apply check_all in H.
Qed.

Lemma check_safe check lv : (forall v, check v <> BadRead) -> check_triples Tcl_GetStringFromObj check lv <> BadRead.
Proof.
  intros Hc. induction lv as [|a|a b|a t v lv IH] using three_ind; try done. cbn [check_triples]. apply bind_safe; [|by intros].
  unfold JsonRequireValidNumberObj. destruct (vt_of t); try done; [by destruct (JsonNumberLexemeIsValid _)|apply Hc..].
Qed.

Lemma require_valid_safe fuel : forall obj allowEmpty, require_valid fuel obj allowEmpty true <> BadRead.
Proof.
  induction fuel as [|fuel IH]; intros obj allowEmpty; [done|]. cbn [JsonTriplesRequireValidContainerObj]. apply bind_safe.
  - unfold get_elements. by destruct (Tcl_ListObjGetElements obj).
  - intros lv _. cbv zeta. destruct (_ || _); [done|]. apply check_safe. intros v. apply IH.
Qed.

Lemma object_line_safe n : forall fuel obj lv, require_valid fuel obj true true = Emitted tt -> Tcl_ListObjGetElements obj = Some lv ->
  JsonObjectPrettySingleLine Tcl_GetStringFromObj Tcl_ListObjGetElements n lv <> BadRead.
Proof.
  induction n as [|n IH]; intros fuel obj lv Hv Hl; [done|]. destruct fuel as [|fuel]; [done|]. apply require_valid_inv in Hv as (lv' & Hl' & _ & Ha).
  rewrite Hl in Hl'. injection Hl' as <-. destruct lv as [|a [|t [|v [|? ?]]]]; try done. destruct Ha as [Ha _]. unfold is_container_type in Ha. cbn [JsonObjectPrettySingleLine].
  destruct (vt_of t); try done; destruct (Tcl_ListObjGetElements v) as [l|] eqn:El; try done.
  - eapply IH; [apply Ha; by left|done].
  - specialize (Ha (or_intror eq_refl)). destruct fuel as [|fuel]; [done|]. apply require_valid_inv in Ha as (l' & El' & Hm & _). apply array_line_safe. congruence.
Qed.

Lemma emit_triples_safe emit isObject pretty sep first lv : all_triples (fun t v => emit t v <> BadRead) lv ->
  emit_triples Tcl_GetStringFromObj emit isObject pretty sep first lv <> BadRead.
Proof.
  revert first. induction lv as [|a|a b|a t v lv IH] using three_ind; intros first; [done|done|done|]. intros [Hv Hl]. cbn [emit_triples].
  apply bind_safe; [done|]. intros x _. apply bind_safe; [by apply IH|]. done.
Qed.

Lemma all_triples_impl (P Q : Tcl_Obj -> Tcl_Obj -> Prop) lv : (forall t v, P t v -> Q t v) -> all_triples P lv -> all_triples Q lv.
Proof. intros HPQ. induction lv as [|a|a b|a t v lv IH] using three_ind; try done. intros [? ?]. split; auto. Qed.

Lemma emit_value_safe n t v depth pretty :
  (is_container_type t -> forall m isObject, emit_container m v isObject true depth pretty <> BadRead) -> emit_value n t v true depth pretty <> BadRead.
Proof.
  intros Hc. destruct n as [|n]; [done|]. destruct (is_atom t "object") eqn:Eo; [|destruct (is_atom t "array") eqn:Ea].
  - apply bool_decide_eq_true in Eo. cbn [JsonEmitValueFromTriple]. unfold JsonObjIsAtom. rewrite Eo. apply Hc. left. unfold JsonTypeObjToVt, JsonObjIsAtom. by rewrite Eo.
  - apply bool_decide_eq_true in Ea. cbn [JsonEmitValueFromTriple]. unfold JsonObjIsAtom. rewrite Ea. apply Hc. right. unfold JsonTypeObjToVt, JsonObjIsAtom. by rewrite Ea.
  - cbn [JsonEmitValueFromTriple]. rewrite Eo, Ea. repeat match goal with |- context [if ?b then _ else _] => destruct b end; try done;
      by destruct (Tcl_GetBooleanFromObj v).
Qed.

Lemma emit_container_safe fuel : forall obj, require_valid fuel obj true true = Emitted tt ->
  forall n isObject depth pretty, emit_container n obj isObject true depth pretty <> BadRead.
Proof.
  induction fuel as [|fuel IH]; intros obj Hv n isObject depth pretty; [done|]. pose proof Hv as Hv0.
  apply require_valid_inv in Hv as (lv & Hl & Hm & Ha). destruct n as [|n]; [done|].
  cbn [JsonEmitContainerFromTriples]. unfold get_elements. rewrite Hl. apply bind_safe; [done|]. intros ov [= <-]. cbv zeta. rewrite Hm. cbn [negb Z.eqb].
  apply bind_safe.
  - destruct (if _ =? 0 then false else pretty); [|done]. destruct isObject; [by eapply object_line_safe|by apply array_line_safe].
  - intros single _. apply bind_safe; [|done]. apply emit_triples_safe. eapply all_triples_impl; [|exact Ha]. cbn beta. intros t v Hc.
    apply emit_value_safe. intros Ht m o. apply IH. by apply Hc.
Qed.

(** Printing a value never reads behind the end of a list of triples, whatever the value
    is: the layout of a pretty printed object looks at the types of the elements of an
    array inside of it without a check of their number, but the validation before has
    checked every nested container. *)
Theorem JsonEmit_in_bounds (HT : TclValues Tcl_GetStringFromObj Tcl_ListObjGetElements Tcl_GetBooleanFromObj) fuel vt valueObj pretty :
  JsonTriplesValueToJson Tcl_GetStringFromObj Tcl_ListObjGetElements Tcl_GetBooleanFromObj fuel vt valueObj pretty true <> BadRead.
Proof.
  assert (Hv : forall w, w <> JSON_VT_OBJECT -> w <> JSON_VT_ARRAY -> emit_value fuel (TStr (JsonTypeString w)) valueObj true 0 pretty <> BadRead).
  { intros w Ho Ha. apply emit_value_safe. unfold is_container_type, JsonTypeObjToVt, JsonObjIsAtom. rewrite tcl_string. destruct w; cbn; intros [?|?]; done. }
  unfold JsonTriplesValueToJson. destruct vt; try (by apply Hv); [done|..];
    (apply bind_safe; [apply require_valid_safe|intros [] Hr; by eapply emit_container_safe]).
Qed.
End safe.

(** ** Examples *)

Definition string0 (o : Tcl_Obj) : list Z := match o with TStr s => s | _ => [] end.
Definition list0 (o : Tcl_Obj) : option (list Tcl_Obj) := match o with TList l => Some l | TStr [] => Some [] | _ => None end.
Definition boolean0 (o : Tcl_Obj) : option bool :=
  if bool_decide (string0 o = bytes "true") then Some true else if bool_decide (string0 o = bytes "false") then Some false else None.

#[export] Instance values0 : TclValues string0 list0 boolean0.
Proof. split; try done. by intros []. Defined.

(** An object with an array in it, as text and back. *)
Definition buffer0 : list Z := [123; 34; 97; 34; 58] ++ bytes "[1, null, true]}".

Lemma JsonEmit_roundtrip_witness : let v := match JsonParseObjCmd double0 options0 buffer0 with Parsed v => v | _ => TStr [] end in
  exists vt value text, v = TList [TStr []; TStr (JsonTypeString vt); value] /\
    JsonTriplesValueToJson string0 list0 boolean0 (emit_fuel value) vt value true true = Emitted text /\ JsonParseObjCmd double0 options0 text = Parsed v.
Proof.
  apply (JsonEmit_roundtrip options0 eq_refl double0 string0 list0 boolean0 values0 buffer0);
    [unfold is_bytes, is_byte; apply (bool_decide_unpack _); vm_compute; exact I|vm_compute; reflexivity].
Defined.

(** An object whose value is an array of one element. *)
Lemma JsonEmit_in_bounds_witness :
  JsonTriplesValueToJson string0 list0 boolean0 9 JSON_VT_OBJECT (TList [TStr (bytes "a"); TStr (bytes "array"); TList [TStr (bytes "x")]]) true true <> BadRead.
Proof. apply (JsonEmit_in_bounds string0 list0 boolean0 values0). Defined.
