(* ===== verification/JsonSet.v ===== *)
(** * JsonSet: flattened JSON, key paths and pointers (nsd/tcljson.c).

    [Ns_JsonParse] with the output of a set: the values of a text are put into the set
    under keys made of the names and indexes that lead to them, each with a second entry
    for its type.  The set is the list of the pairs that are put into it; a text that is
    not accepted leaves no set.  JSON pointers are taken apart the same way. *)

From Stdlib Require Import SpecFloat.
From S2P Require Import Prelude Utf8 JsonScan JsonParse JsonGrammar.

(** ** Key paths *)

Definition escape_byte (rfc6901 : bool) (c : Z) : list Z :=
  if c =? 126 then bytes "~0" else if c =? 47 then bytes "~1" else if (c =? 46) && negb rfc6901 then bytes "~2" else [c].

Definition JsonKeyPathEscapeSegment (seg : list Z) (rfc6901 : bool) : list Z := concat (escape_byte rfc6901 <$> seg).

Fixpoint JsonKeyPathUnescapeSegment (seg : list Z) (rfc6901 : bool) : option (list Z) :=
  match seg with
  | [] => Some []
  | c :: seg =>
      if c =? 126 then
        match seg with
        | [] => if rfc6901 then None else Some [126]
        | e :: seg =>
            let rest := JsonKeyPathUnescapeSegment seg rfc6901 in
            if e =? 48 then app [126] <$> rest
            else if e =? 49 then app [47] <$> rest
            else if e =? 50 then if rfc6901 then None else app [46] <$> rest
            else if rfc6901 then None else app [126; e] <$> rest
        end
      else app [c] <$> JsonKeyPathUnescapeSegment seg rfc6901
  end.

Definition JsonKeyPathAppendSegment (path seg : list Z) : list Z :=
  path ++ (if bool_decide (path = []) then [] else [47]) ++ JsonKeyPathEscapeSegment seg false.

Definition JsonKeyPathAppendIndex (path : list Z) (idx : Z) : list Z := path ++ (if bool_decide (path = []) then [] else [47]) ++ dec idx.

Definition JsonKeyPathMakeTypeKey (key : list Z) : list Z := key ++ bytes ".type".

(** The key without the suffix for types, and the field that the suffix stands for. *)
Definition JsonKeySplitSidecarField (key : list Z) : list Z * list Z :=
  let n := (length key - 5)%nat in
  if (5 <=? Z.of_nat (length key)) && bool_decide (drop n key = bytes ".type") then (take n key, bytes "type") else (key, []).

(** The text up to a slash or the end, and what is behind the slash. *)
Fixpoint segments (p : list Z) : list (list Z) :=
  match p with
  | [] => [[]]
  | c :: p => if c =? 47 then [] :: segments p
              else match segments p with s :: l => (c :: s) :: l | [] => [[c]] end
  end.

Definition JsonPointerToPathObj (p : list Z) : option (list (list Z)) :=
  let path (p : list Z) :=
    match p with
    | 47 :: p => mapM (fun seg => JsonKeyPathUnescapeSegment seg true) (segments p)
    | _ => None
    end in
  match p with
  | [] => Some []
  | 35 :: p => match p with [] => Some [] | 47 :: _ => path p | _ => None end
  | _ => path p
  end.

(** The base key, unescaped by segments and joined again, and the field. *)
Definition JsonKeyInfoObjCmd (key : list Z) : list Z * list Z :=
  let '(base, field) := JsonKeySplitSidecarField key in
  let add (out seg : list Z) := out ++ (if bool_decide (out = []) then [] else [47]) ++ default [] (JsonKeyPathUnescapeSegment seg false) in
  (fold_left add (segments base) [], field).

(** ** The set *)

Definition puts : Type := list (list Z * list Z).

Definition JsonSetPutType (key : list Z) (vt : JsonValueType) : puts := [(JsonKeyPathMakeTypeKey key, JsonTypeString vt)].

Definition JsonFlattenToSet (path : list Z) (value : list Z) (vt : JsonValueType) : puts :=
  if bool_decide (path = []) then [] else JsonSetPutType path vt ++ [(path, value)].

Definition empty_marker (path : list Z) (vt : JsonValueType) : puts := if bool_decide (path = []) then [] else JsonSetPutType path vt.

Section set.
Context (Tcl_GetDoubleFromObj : list Z -> option spec_float) (Tcl_GetStringFromObj : Tcl_Obj -> list Z) (opt : Ns_JsonOptions).

Definition set_result : Type := puts * cursor.

Fixpoint JsonParseValueSet (fuel : nat) (path : list Z) (c : cursor) : parsed set_result :=
  match fuel with
  | O => OutOfFuel
  | S fuel =>
      let c := JsonSkipWs c in
      let ch := JsonPeek c in
      if ch <? 0 then ParseError (pos c) "unexpected end of input"
      else if ch =? 123 then JsonParseObjectSet fuel path c
      else if ch =? 91 then JsonParseArraySet fuel path c
      else if ch =? 34 then
        '(s, c) ← JsonParseStringToString (maxString opt) c;
        Parsed (JsonFlattenToSet path s JSON_VT_STRING, c)
      else if (ch =? 116) || (ch =? 102) || (ch =? 110) then
        '(valObj, vt, c) ← JsonParseLiteral opt c;
        Parsed (JsonFlattenToSet path (Tcl_GetStringFromObj valObj) vt, c)
      else if (ch =? 45) || is_digit10 ch then
        '(valObj, vt, c) ← JsonParseNumber Tcl_GetDoubleFromObj opt c;
        Parsed (JsonFlattenToSet path (Tcl_GetStringFromObj valObj) vt, c)
      else ParseError (pos c) "unexpected character"
  end
with JsonParseObjectSet (fuel : nat) (path : list Z) (c : cursor) : parsed set_result :=
  match fuel with
  | O => OutOfFuel
  | S fuel =>
      let c := JsonSkipWs (JsonGet c).2 in
      if JsonPeek c =? 125 then Parsed (empty_marker path JSON_VT_OBJECT, (JsonGet c).2)
      else object_set_loop fuel path [] c
  end
with object_set_loop (fuel : nat) (path : list Z) (set : puts) (c : cursor) : parsed set_result :=
  match fuel with
  | O => OutOfFuel
  | S fuel =>
      '(k, c) ← JsonParseStringToString (maxString opt) c;
      c ← JsonExpect (JsonSkipWs c) 58 "expected ':'";
      '(s, c) ← JsonParseValueSet fuel (JsonKeyPathAppendSegment path k) c;
      let c := JsonSkipWs c in
      if JsonPeek c =? 44 then object_set_loop fuel path (set ++ s) (JsonSkipWs (JsonGet c).2)
      else if JsonPeek c =? 125 then Parsed (set ++ s, (JsonGet c).2)
      else ParseError (pos c) "expected ',' or '}'"
  end
with JsonParseArraySet (fuel : nat) (path : list Z) (c : cursor) : parsed set_result :=
  match fuel with
  | O => OutOfFuel
  | S fuel =>
      let c := JsonSkipWs (JsonGet c).2 in
      if JsonPeek c =? 93 then Parsed (empty_marker path JSON_VT_ARRAY, (JsonGet c).2)
      else array_set_loop fuel path [] 0 c
  end
with array_set_loop (fuel : nat) (path : list Z) (set : puts) (idx : Z) (c : cursor) : parsed set_result :=
  match fuel with
  | O => OutOfFuel
  | S fuel =>
      '(s, c) ← JsonParseValueSet fuel (JsonKeyPathAppendIndex path idx) c;
      let c := JsonSkipWs c in
      if JsonPeek c =? 44 then array_set_loop fuel path (set ++ s) (idx + 1) (JsonSkipWs (JsonGet c).2)
      else if JsonPeek c =? 93 then Parsed (set ++ s, (JsonGet c).2)
      else ParseError (pos c) "expected ',' or ']'"
  end.

(** [Ns_JsonParse] and "ns_json parse" for the output of a set. *)
Definition Ns_JsonParse_set (buf : list Z) : parsed (puts * Z) :=
  let c := JsonSkipWs (mkCursor 0 buf) in
  if bool_decide (rest c = []) then ParseError (pos c) "unexpected end of input"
  else if top_refused opt (JsonPeek c) then ParseError (pos c) "top-level value must be object or array (-top container)"
  else '(s, c) ← JsonParseValueSet (json_fuel buf) [] c; Parsed (s, pos c).

Definition JsonParseObjCmd_set (buf : list Z) : parsed puts :=
  '(s, consumed) ← Ns_JsonParse_set buf;
  match JsonCheckTrailingDecode buf consumed with
  | None => Parsed s
  | Some n => ParseError n "trailing data"
  end.

(** ** The specification: the values of the triples *)

Definition type_of_name (s : list Z) : JsonValueType :=
  if bool_decide (s = bytes "string") then JSON_VT_STRING else if bool_decide (s = bytes "number") then JSON_VT_NUMBER
  else if bool_decide (s = bytes "boolean") then JSON_VT_BOOL else if bool_decide (s = bytes "null") then JSON_VT_NULL
  else if bool_decide (s = bytes "object") then JSON_VT_OBJECT else if bool_decide (s = bytes "array") then JSON_VT_ARRAY
  else JSON_VT_AUTO.

Definition is_container_vt (vt : JsonValueType) : bool := match vt with JSON_VT_OBJECT | JSON_VT_ARRAY => true | _ => false end.

(** The values that are no containers, and the empty containers, with the names that lead to them. *)
Fixpoint leaves (segs : list (list Z)) (vt : JsonValueType) (v : Tcl_Obj) : list (list (list Z) * JsonValueType * option Tcl_Obj) :=
  match v with
  | TList (x :: l) =>
      if is_container_vt vt then
        (fix go l := match l with
                     | TStr name :: TStr type :: value :: l => leaves (segs ++ [name]) (type_of_name type) value ++ go l
                     | _ => []
                     end) (x :: l)
      else [(segs, vt, Some v)]
  | _ => [(segs, vt, if is_container_vt vt then None else Some v)]
  end.

Definition path_key (segs : list (list Z)) : list Z := fold_left JsonKeyPathAppendSegment segs [].

(** The entries of a value: its type, and the value itself if it is no container. *)
Definition entries (leaf : list (list Z) * JsonValueType * option Tcl_Obj) : puts :=
  let '(segs, vt, v) := leaf in
  let key := path_key segs in
  if bool_decide (key = []) then []
  else (key ++ bytes ".type", JsonTypeString vt) :: match v with Some v => [(key, Tcl_GetStringFromObj v)] | None => [] end.

Definition set_of_triples (triples : Tcl_Obj) : puts :=
  match triples with
  | TList [TStr []; TStr type; value] => concat (entries <$> leaves [] (type_of_name type) value)
  | _ => []
  end.

(** The same options for triples, without limits on containers. *)
Definition unlimited (buf : list Z) : Ns_JsonOptions :=
  mkJsonOptions (Z.of_nat (json_fuel buf)) 0 (validateNumbers opt) (nullValueObj opt) (maxString opt) NS_JSON_OUTPUT_TRIPLES (top opt).
End set.

(** ** The set is that of the triples *)

Lemma type_of_name_string vt : type_of_name (JsonTypeString vt) = vt.
Proof. by destruct vt. Qed.

Lemma path_key_app segs k : path_key (segs ++ [k]) = JsonKeyPathAppendSegment (path_key segs) k.
Proof. unfold path_key. by rewrite fold_left_app. Qed.

Lemma escape_plain rfc6901 seg : Forall (fun c => c <> 126 /\ c <> 47 /\ c <> 46) seg -> JsonKeyPathEscapeSegment seg rfc6901 = seg.
Proof.
  unfold JsonKeyPathEscapeSegment. induction 1 as [|c seg (H1 & H2 & H3) _ IH]; [done|]. cbn [fmap list_fmap concat]. rewrite IH. unfold escape_byte.
  by rewrite !(proj2 (Z.eqb_neq _ _)).
Qed.

Lemma dec_digits_plain fuel : forall n acc, 0 <= n -> Forall (fun c => 48 <= c <= 57) acc -> Forall (fun c => 48 <= c <= 57) (dec_digits fuel n acc).
Proof.
  induction fuel as [|fuel IH]; intros n acc Hn Hacc; [done|]. cbn [dec_digits]. destruct (Z.ltb_spec n 10); [constructor; [lia|done]|].
  apply IH; [apply Z.div_pos; lia|]. constructor; [|done]. pose proof (Z.mod_pos_bound n 10). lia.
Qed.

Lemma append_index segs idx : 0 <= idx -> JsonKeyPathAppendIndex (path_key segs) idx = path_key (segs ++ [dec idx]).
Proof.
  intros Hi. rewrite path_key_app. unfold JsonKeyPathAppendIndex, JsonKeyPathAppendSegment. rewrite escape_plain; [done|].
  eapply Forall_impl; [apply (dec_digits_plain 20 idx []); [done|constructor]|]. cbn. intros; lia.
Qed.

Section equivalence.
Context (Tcl_GetDoubleFromObj : list Z -> option spec_float) (Tcl_GetStringFromObj : Tcl_Obj -> list Z)
  (Hstring : forall s, Tcl_GetStringFromObj (TStr s) = s) (opt opt' : Ns_JsonOptions).
Context (Hcontainer : maxContainer opt' = 0) (Houtput : output opt' = NS_JSON_OUTPUT_TRIPLES) (Hnumbers : validateNumbers opt' = validateNumbers opt)
  (Hnull : nullValueObj opt' = nullValueObj opt) (Hmax : maxString opt' = maxString opt).

Notation value_set := (JsonParseValueSet Tcl_GetDoubleFromObj Tcl_GetStringFromObj opt).
Notation value := (JsonParseValue Tcl_GetDoubleFromObj opt').

Definition all_entries (l : list (list (list Z) * JsonValueType * option Tcl_Obj)) : puts := concat (entries Tcl_GetStringFromObj <$> l).

(** The set for a result in triples. *)
Definition flat (segs : list (list Z)) (r : parsed json_result) : parsed set_result :=
  match r with
  | Parsed (v, vt, c) => Parsed (all_entries (leaves segs vt v), c)
  | ParseError n e => ParseError n e
  | OutOfFuel => OutOfFuel
  end.

Definition untriples (kvts : list (list Z * JsonValueType * Tcl_Obj)) : list Tcl_Obj :=
  concat ((fun kvt => [TStr kvt.1.1; TStr (JsonTypeString kvt.1.2); kvt.2]) <$> kvts).

Definition member_leaves (segs : list (list Z)) (kvts : list (list Z * JsonValueType * Tcl_Obj)) :=
  concat ((fun kvt => leaves (segs ++ [kvt.1.1]) kvt.1.2 kvt.2) <$> kvts).

Lemma leaves_container segs vt kvts : is_container_vt vt = true -> kvts <> [] -> leaves segs vt (TList (untriples kvts)) = member_leaves segs kvts.
Proof.
  intros Hvt Hne. destruct kvts as [|[[k t] v] kvts]; [done|]. cbn -[type_of_name JsonTypeString]. rewrite Hvt, type_of_name_string. f_equal. unfold member_leaves. clear Hne.
  induction kvts as [|[[k' t'] v'] kvts IH]; [done|]. cbn -[type_of_name JsonTypeString]. rewrite type_of_name_string, IH. done.
Qed.

Lemma member_leaves_snoc segs kvts k vt v : member_leaves segs (kvts ++ [(k, vt, v)]) = member_leaves segs kvts ++ leaves (segs ++ [k]) vt v.
Proof. unfold member_leaves. rewrite fmap_app, concat_app. cbn. by rewrite app_nil_r. Qed.

Lemma untriples_snoc kvts k vt v : untriples (kvts ++ [(k, vt, v)]) = untriples kvts ++ [TStr k; TStr (JsonTypeString vt); v].
Proof. unfold untriples. rewrite fmap_app, concat_app. done. Qed.

Lemma entries_app a b : all_entries (a ++ b) = all_entries a ++ all_entries b.
Proof. unfold all_entries. by rewrite fmap_app, concat_app. Qed.

Lemma entries_scalar segs vt v : is_container_vt vt = false -> all_entries (leaves segs vt v) = JsonFlattenToSet (path_key segs) (Tcl_GetStringFromObj v) vt.
Proof.
  intros Hvt. assert (leaves segs vt v = [(segs, vt, Some v)]) as -> by (destruct v as [s|[|x l]|m]; cbn; by rewrite Hvt).
  unfold all_entries, JsonFlattenToSet. cbn. rewrite app_nil_r. by case_bool_decide.
Qed.

Lemma entries_empty segs vt : is_container_vt vt = true -> all_entries (leaves segs vt (TList [])) = empty_marker (path_key segs) vt.
Proof. intros Hvt. cbn. rewrite Hvt. unfold all_entries, empty_marker. cbn. rewrite app_nil_r. by case_bool_decide. Qed.

Lemma flat_bind {A} segs (x : parsed A) f : flat segs (x ≫= f) = x ≫= (fun a => flat segs (f a)).
Proof. by destruct x. Qed.

Lemma bind_ext {A B} (x : parsed A) (f g : A -> parsed B) : (forall a, f a = g a) -> x ≫= f = x ≫= g.
Proof. intros Hfg. destruct x; cbn; auto. Qed.

Lemma literal_same c : JsonParseLiteral opt' c = JsonParseLiteral opt c.
Proof. unfold JsonParseLiteral. by rewrite Hnull. Qed.

Lemma number_same c : JsonParseNumber Tcl_GetDoubleFromObj opt' c = JsonParseNumber Tcl_GetDoubleFromObj opt c.
Proof. unfold JsonParseNumber. by rewrite Hnumbers. Qed.

Lemma literal_vt c v vt c' : JsonParseLiteral opt c = Parsed (v, vt, c') -> is_container_vt vt = false.
Proof. unfold JsonParseLiteral. repeat case_bool_decide; intros; by simplify_eq. Qed.

Lemma number_vt c v vt c' : JsonParseNumber Tcl_GetDoubleFromObj opt c = Parsed (v, vt, c') -> is_container_vt vt = false.
Proof.
  unfold JsonParseNumber, mbind, parsed_bind. destruct (JsonScanNumber c) as [[[lex fe] c1]|? ?|]; [|done|done]. 
  repeat case_match; intros; by simplify_eq.
Qed.

Lemma scalar_bind segs (x : parsed json_result) : (forall v vt c, x = Parsed (v, vt, c) -> is_container_vt vt = false) ->
  ('(v, vt, c) ← x; Parsed (JsonFlattenToSet (path_key segs) (Tcl_GetStringFromObj v) vt, c)) = flat segs x.
Proof. destruct x as [[[v vt] c]|? ?|]; [|done|done]. intros Hx. cbn. by rewrite entries_scalar by (by eapply Hx). Qed.

Definition set_loops_ok (fuel : nat) : Prop :=
  (forall segs depth c, depth + Z.of_nat fuel <= maxDepth opt' -> value_set fuel (path_key segs) c = flat segs (value fuel depth c)) /\
  (forall segs depth c, depth + Z.of_nat fuel <= maxDepth opt' ->
     JsonParseObjectSet Tcl_GetDoubleFromObj Tcl_GetStringFromObj opt fuel (path_key segs) c = flat segs (JsonParseObject Tcl_GetDoubleFromObj opt' fuel depth c)) /\
  (forall segs depth c, depth + Z.of_nat fuel <= maxDepth opt' ->
     JsonParseArraySet Tcl_GetDoubleFromObj Tcl_GetStringFromObj opt fuel (path_key segs) c = flat segs (JsonParseArray Tcl_GetDoubleFromObj opt' fuel depth c)) /\
  (forall segs depth kvts cnt c, depth + Z.of_nat fuel <= maxDepth opt' ->
     object_set_loop Tcl_GetDoubleFromObj Tcl_GetStringFromObj opt fuel (path_key segs) (all_entries (member_leaves segs kvts)) c =
     flat segs (object_loop Tcl_GetDoubleFromObj opt' fuel depth (TList (untriples kvts)) cnt c)) /\
  (forall segs depth kvts idx c, depth + Z.of_nat fuel <= maxDepth opt' -> 0 <= idx ->
     array_set_loop Tcl_GetDoubleFromObj Tcl_GetStringFromObj opt fuel (path_key segs) (all_entries (member_leaves segs kvts)) idx c =
     flat segs (array_loop Tcl_GetDoubleFromObj opt' fuel depth (untriples kvts) idx c)).

Lemma not_many n : too_many opt' n = false.
Proof. unfold too_many. by rewrite Hcontainer. Qed.
(** The end of a member or an element, in both parsers. *)
Lemma object_step segs kvts k depth fuel cnt c v vt :
  (forall kvts cnt c, object_set_loop Tcl_GetDoubleFromObj Tcl_GetStringFromObj opt fuel (path_key segs) (all_entries (member_leaves segs kvts)) c =
     flat segs (object_loop Tcl_GetDoubleFromObj opt' fuel depth (TList (untriples kvts)) cnt c)) ->
  (let c := JsonSkipWs c in
   let s := all_entries (member_leaves segs kvts) ++ all_entries (leaves (segs ++ [k]) vt v) in
   if JsonPeek c =? 44 then object_set_loop Tcl_GetDoubleFromObj Tcl_GetStringFromObj opt fuel (path_key segs) s (JsonSkipWs (JsonGet c).2)
   else if JsonPeek c =? 125 then Parsed (s, (JsonGet c).2) else ParseError (pos c) "expected ',' or '}'") =
  flat segs (let acc := put_member (TList (untriples kvts)) k vt v in
    if too_many opt' (cnt + 1) then ParseError (pos c) "max container size exceeded"
    else
      let c := JsonSkipWs c in
      if JsonPeek c =? 44 then object_loop Tcl_GetDoubleFromObj opt' fuel depth acc (cnt + 1) (JsonSkipWs (JsonGet c).2)
      else if JsonPeek c =? 125 then Parsed (acc, JSON_VT_OBJECT, (JsonGet c).2)
      else ParseError (pos c) "expected ',' or '}'").
Proof.
  intros IH. cbv zeta. rewrite not_many, <- entries_app, <- member_leaves_snoc. cbn [put_member]. unfold JsonTriplesAppendVt. rewrite <- untriples_snoc.
  destruct (_ =? 44); [apply IH|]. destruct (_ =? 125); [|done]. unfold flat. rewrite leaves_container; [done|done|by destruct kvts].
Qed.

Lemma array_step segs kvts idx depth fuel c v vt :
  (forall kvts c, array_set_loop Tcl_GetDoubleFromObj Tcl_GetStringFromObj opt fuel (path_key segs) (all_entries (member_leaves segs kvts)) (idx + 1) c =
     flat segs (array_loop Tcl_GetDoubleFromObj opt' fuel depth (untriples kvts) (idx + 1) c)) ->
  (let c := JsonSkipWs c in
   let s := all_entries (member_leaves segs kvts) ++ all_entries (leaves (segs ++ [dec idx]) vt v) in
   if JsonPeek c =? 44 then array_set_loop Tcl_GetDoubleFromObj Tcl_GetStringFromObj opt fuel (path_key segs) s (idx + 1) (JsonSkipWs (JsonGet c).2)
   else if JsonPeek c =? 93 then Parsed (s, (JsonGet c).2) else ParseError (pos c) "expected ',' or ']'") =
  flat segs (let acc := put_element opt' (untriples kvts) idx vt v in
    if too_many opt' (idx + 1) then ParseError (pos c) "max container size exceeded"
    else
      let c := JsonSkipWs c in
      if JsonPeek c =? 44 then array_loop Tcl_GetDoubleFromObj opt' fuel depth acc (idx + 1) (JsonSkipWs (JsonGet c).2)
      else if JsonPeek c =? 93 then Parsed (TList acc, JSON_VT_ARRAY, (JsonGet c).2)
      else ParseError (pos c) "expected ',' or ']'").
Proof.
  intros IH. cbv zeta. rewrite not_many, <- entries_app, <- member_leaves_snoc. unfold put_element. rewrite Houtput. unfold JsonTriplesAppendVt, index_name. rewrite <- untriples_snoc.
  destruct (_ =? 44); [apply IH|]. destruct (_ =? 93); [|done]. unfold flat. rewrite leaves_container; [done|done|by destruct kvts].
Qed.

Lemma JsonParseObject_S fuel depth c : depth + 1 <= maxDepth opt' -> JsonParseObject Tcl_GetDoubleFromObj opt' (S fuel) depth c =
  let c := JsonSkipWs (JsonGet c).2 in
  if JsonPeek c =? 125 then Parsed (TList [], JSON_VT_OBJECT, (JsonGet c).2) else object_loop Tcl_GetDoubleFromObj opt' fuel (depth + 1) (TList []) 0 c.
Proof.
  intros Hd. assert (E : JsonParseObject Tcl_GetDoubleFromObj opt' (S fuel) depth c = if maxDepth opt' <? depth + 1 then ParseError (pos c) "max depth exceeded" else
    let c := JsonSkipWs (JsonGet c).2 in
    if JsonPeek c =? 125 then Parsed (empty_object opt', JSON_VT_OBJECT, (JsonGet c).2) else object_loop Tcl_GetDoubleFromObj opt' fuel (depth + 1) (empty_object opt') 0 c) by reflexivity.
  rewrite E, (proj2 (Z.ltb_ge _ _)) by done. unfold empty_object. by rewrite Houtput.
Qed.

Lemma object_loop_S fuel depth acc cnt c : object_loop Tcl_GetDoubleFromObj opt' (S fuel) depth acc cnt c =
  '(key, c) ← JsonParseStringToString (maxString opt) c;
  c ← JsonExpect (JsonSkipWs c) 58 "expected ':'";
  '(value, vt, c) ← value fuel depth c;
  let acc := put_member acc key vt value in
  if too_many opt' (cnt + 1) then ParseError (pos c) "max container size exceeded"
  else
    let c := JsonSkipWs c in
    if JsonPeek c =? 44 then object_loop Tcl_GetDoubleFromObj opt' fuel depth acc (cnt + 1) (JsonSkipWs (JsonGet c).2)
    else if JsonPeek c =? 125 then Parsed (acc, JSON_VT_OBJECT, (JsonGet c).2)
    else ParseError (pos c) "expected ',' or '}'".
Proof. rewrite <- Hmax. reflexivity. Qed.

Lemma array_loop_S fuel depth acc idx c : array_loop Tcl_GetDoubleFromObj opt' (S fuel) depth acc idx c =
  '(value, vt, c) ← value fuel depth c;
  let acc := put_element opt' acc idx vt value in
  if too_many opt' (idx + 1) then ParseError (pos c) "max container size exceeded"
  else
    let c := JsonSkipWs c in
    if JsonPeek c =? 44 then array_loop Tcl_GetDoubleFromObj opt' fuel depth acc (idx + 1) (JsonSkipWs (JsonGet c).2)
    else if JsonPeek c =? 93 then Parsed (TList acc, JSON_VT_ARRAY, (JsonGet c).2)
    else ParseError (pos c) "expected ',' or ']'".
Proof. reflexivity. Qed.

Lemma set_loops fuel : set_loops_ok fuel.
Proof.
  induction fuel as [|fuel (IHv & IHo & IHa & IHol & IHal)]; [by split_and!|]. split_and!.
  - intros segs depth c Hd. cbn [JsonParseValueSet JsonParseValue]. cbv zeta. destruct (_ <? 0); [done|]. destruct (_ =? 123); [apply IHo; lia|]. destruct (_ =? 91); [apply IHa; lia|].
    destruct (_ =? 34); [|destruct (_ || _ || _); [|destruct (_ || _); [|done]]].
    + unfold JsonParseString. rewrite Hmax, flat_bind. apply bind_ext. intros [s c']. cbn [flat]. by rewrite entries_scalar, Hstring.
    + rewrite literal_same. apply scalar_bind. intros v vt c'. apply literal_vt.
    + rewrite number_same. apply scalar_bind. intros v vt c'. apply number_vt.
  - intros segs depth c Hd. rewrite JsonParseObject_S by lia. cbn [JsonParseObjectSet]. cbv zeta.
    destruct (_ =? 125); [cbn [flat]; by rewrite entries_empty|]. refine (IHol segs (depth + 1) [] 0 _ _). lia.
  - intros segs depth c Hd. cbn [JsonParseArraySet JsonParseArray]. cbv zeta. rewrite (proj2 (Z.ltb_ge _ _)) by lia.
    destruct (_ =? 93); [cbn [flat]; by rewrite entries_empty|]. refine (IHal segs (depth + 1) [] 0 _ _ _); lia.
  - intros segs depth kvts cnt c Hd. rewrite object_loop_S, flat_bind. cbn [object_set_loop]. apply bind_ext. intros [k c1]. rewrite flat_bind. apply bind_ext. intros c2.
    rewrite <- path_key_app, (IHv (segs ++ [k]) depth) by lia. destruct (value fuel depth c2) as [[[v vt] c3]|? ?|]; [|done|done]. cbn [flat mbind parsed_bind].
    apply object_step. intros kvts' cnt' c'. apply IHol. lia.
  - intros segs depth kvts idx c Hd Hi. rewrite array_loop_S, flat_bind. cbn [array_set_loop].
    rewrite append_index, (IHv (segs ++ [dec idx]) depth) by lia. destruct (value fuel depth c) as [[[v vt] c3]|? ?|]; [|done|done]. cbn [flat mbind parsed_bind].
    apply array_step. intros kvts' c'. apply IHal; lia.
Qed.
End equivalence.

(** C31.  Parsing into a set puts exactly what the triples of the text have: for every value
    that is no container, in order, its type and its string under the key of the names that
    lead to it, and the type of every empty container; with the same errors.  The triples
    are those of a parser without limits: the limits on the depth and the size of containers
    have no effect on the output of a set. *)
Theorem JsonSet_equivalence Tcl_GetDoubleFromObj Tcl_GetStringFromObj opt buf : (forall s, Tcl_GetStringFromObj (TStr s) = s) ->
  JsonParseObjCmd_set Tcl_GetDoubleFromObj Tcl_GetStringFromObj opt buf =
  triples ← JsonParseObjCmd Tcl_GetDoubleFromObj (unlimited opt buf) buf; Parsed (set_of_triples Tcl_GetStringFromObj triples).
Proof.
  intros Hs. unfold JsonParseObjCmd_set, JsonParseObjCmd, Ns_JsonParse_set, Ns_JsonParse. cbv zeta. change (top_refused (unlimited opt buf)) with (top_refused opt).
  case_bool_decide; [done|]. destruct (top_refused opt _); [done|].
  destruct (set_loops Tcl_GetDoubleFromObj Tcl_GetStringFromObj Hs opt (unlimited opt buf) eq_refl eq_refl eq_refl eq_refl eq_refl (json_fuel buf)) as (Hv & _).
  specialize (Hv [] 0 (JsonSkipWs (mkCursor 0 buf)) ltac:(cbn; lia)). change (path_key []) with (@nil Z) in Hv. rewrite Hv.
  destruct (JsonParseValue _ (unlimited opt buf) _ _ _) as [[[v vt] c]|? ?|]; [|done|done]. cbn [flat mbind parsed_bind].
  destruct (JsonCheckTrailingDecode buf (pos c)); [done|]. cbn [mbind parsed_bind]. unfold set_of_triples. cbn [output unlimited]. by rewrite type_of_name_string.
Qed.

(** ** Keys and pointers are taken apart again *)

Lemma escape_byte_cases rfc6901 c :
  (c = 126 /\ escape_byte rfc6901 c = [126; 48]) \/ (c = 47 /\ escape_byte rfc6901 c = [126; 49]) \/ (c = 46 /\ rfc6901 = false /\ escape_byte rfc6901 c = [126; 50]) \/
  (c <> 126 /\ c <> 47 /\ (c <> 46 \/ rfc6901 = true) /\ escape_byte rfc6901 c = [c]).
Proof.
  unfold escape_byte. destruct (Z.eqb_spec c 126) as [->|]; [auto|]. destruct (Z.eqb_spec c 47) as [->|]; [auto|].
  destruct (Z.eqb_spec c 46) as [->|], rfc6901; cbn; auto 10.
Qed.

Lemma segment_unescaped rfc6901 seg : JsonKeyPathUnescapeSegment (JsonKeyPathEscapeSegment seg rfc6901) rfc6901 = Some seg.
Proof.
  induction seg as [|c seg IH]; [done|]. change (JsonKeyPathEscapeSegment (c :: seg) rfc6901) with (escape_byte rfc6901 c ++ JsonKeyPathEscapeSegment seg rfc6901).
  destruct (escape_byte_cases rfc6901 c) as [[-> ->]|[[-> ->]|[(-> & -> & ->)|(H1 & H2 & H3 & ->)]]]; cbn [app JsonKeyPathUnescapeSegment];
    cbn [Z.eqb Pos.eqb]; rewrite ?(proj2 (Z.eqb_neq c 126) ltac:(done)), IH; done.
Qed.

Lemma escape_no_slash rfc6901 seg : Forall (fun c => c <> 47) (JsonKeyPathEscapeSegment seg rfc6901).
Proof.
  induction seg as [|c seg IH]; [constructor|]. change (JsonKeyPathEscapeSegment (c :: seg) rfc6901) with (escape_byte rfc6901 c ++ JsonKeyPathEscapeSegment seg rfc6901).
  apply Forall_app. split; [|done]. destruct (escape_byte_cases rfc6901 c) as [[_ ->]|[[_ ->]|[(_ & _ & ->)|(_ & ? & _ & ->)]]]; repeat (constructor; [done|]); constructor.
Qed.

Lemma escape_no_dot seg : Forall (fun c => c <> 46) (JsonKeyPathEscapeSegment seg false).
Proof.
  induction seg as [|c seg IH]; [constructor|]. change (JsonKeyPathEscapeSegment (c :: seg) false) with (escape_byte false c ++ JsonKeyPathEscapeSegment seg false).
  apply Forall_app. split; [|done]. destruct (escape_byte_cases false c) as [[_ ->]|[[_ ->]|[(_ & _ & ->)|(_ & _ & [?|?] & ->)]]]; try done; repeat (constructor; [done|]); constructor.
Qed.

Lemma segment_nonempty rfc6901 seg : seg <> [] -> JsonKeyPathEscapeSegment seg rfc6901 <> [].
Proof. intros Hs He. pose proof (segment_unescaped rfc6901 seg) as Hu. rewrite He in Hu. by injection Hu as <-. Qed.

Lemma segments_one e : Forall (fun c => c <> 47) e -> segments e = [e].
Proof. induction 1 as [|c e Hc _ IH]; [done|]. cbn. by rewrite (proj2 (Z.eqb_neq _ _)), IH. Qed.

Lemma segments_slash e p : Forall (fun c => c <> 47) e -> segments (e ++ 47 :: p) = e :: segments p.
Proof. induction 1 as [|c e Hc _ IH]; [done|]. cbn. by rewrite (proj2 (Z.eqb_neq _ _)), IH. Qed.

(** A list of names as a JSON pointer. *)
Definition pointer_of (segs : list (list Z)) : list Z := concat ((fun seg => 47 :: JsonKeyPathEscapeSegment seg true) <$> segs).

Lemma pointer_segments segs seg : segments (JsonKeyPathEscapeSegment seg true ++ pointer_of segs) = (fun s => JsonKeyPathEscapeSegment s true) <$> (seg :: segs).
Proof.
  revert seg. induction segs as [|s segs IH]; intros seg.
  - change (pointer_of []) with (@nil Z). rewrite app_nil_r. apply segments_one, escape_no_slash.
  - change (pointer_of (s :: segs)) with (47 :: JsonKeyPathEscapeSegment s true ++ pointer_of segs). rewrite segments_slash by apply escape_no_slash. by rewrite IH.
Qed.

Lemma unescape_all rfc6901 segs : mapM (fun seg => JsonKeyPathUnescapeSegment seg rfc6901) ((fun s => JsonKeyPathEscapeSegment s rfc6901) <$> segs) = Some segs.
Proof. induction segs as [|s segs IH]; [done|]. cbn. by rewrite segment_unescaped, IH. Qed.

(** A JSON pointer made of any names, plain or as a URI fragment, is taken apart into
    these names. *)
Theorem JsonPointer_roundtrip segs : JsonPointerToPathObj (pointer_of segs) = Some segs /\ JsonPointerToPathObj (35 :: pointer_of segs) = Some segs.
Proof.
  destruct segs as [|seg segs]; [done|]. change (pointer_of (seg :: segs)) with (47 :: JsonKeyPathEscapeSegment seg true ++ pointer_of segs).
  unfold JsonPointerToPathObj. rewrite pointer_segments. split; apply unescape_all.
Qed.

Lemma path_key_from segs : forall path, path <> [] -> fold_left JsonKeyPathAppendSegment segs path = path ++ concat ((fun s => 47 :: JsonKeyPathEscapeSegment s false) <$> segs).
Proof.
  induction segs as [|s segs IH]; intros path Hp; cbn [fold_left]; [by rewrite app_nil_r|]. unfold JsonKeyPathAppendSegment at 2. rewrite bool_decide_eq_false_2 by done.
  rewrite IH by (by destruct path). cbn [fmap list_fmap concat app]. by rewrite <- !app_assoc.
Qed.

Lemma path_key_cons seg segs : seg <> [] -> path_key (seg :: segs) = JsonKeyPathEscapeSegment seg false ++ concat ((fun s => 47 :: JsonKeyPathEscapeSegment s false) <$> segs).
Proof. intros Hs. unfold path_key. cbn [fold_left]. apply path_key_from. by apply segment_nonempty. Qed.

Lemma key_segments segs seg : segments (JsonKeyPathEscapeSegment seg false ++ concat ((fun s => 47 :: JsonKeyPathEscapeSegment s false) <$> segs)) =
  (fun s => JsonKeyPathEscapeSegment s false) <$> (seg :: segs).
Proof.
  revert seg. induction segs as [|s segs IH]; intros seg; cbn [fmap list_fmap concat].
  - rewrite app_nil_r. apply segments_one, escape_no_slash.
  - cbn [app]. rewrite segments_slash by apply escape_no_slash. by rewrite IH.
Qed.

Lemma path_key_no_dot segs : Forall (fun c => c <> 46) (path_key segs).
Proof.
  induction segs as [|s segs IH] using rev_ind; [constructor|]. rewrite path_key_app. unfold JsonKeyPathAppendSegment.
  apply Forall_app; split; [done|]. apply Forall_app; split; [|apply escape_no_dot]. case_bool_decide; repeat (constructor; [done|]); constructor.
Qed.

(** The key of a value determines the names that lead to it, when the first name is not
    empty: splitting the key at slashes and unescaping gives them back.  A key is never taken for
    the key of a type, and the key of its type is split into it and the field. *)
Theorem JsonKey_roundtrip segs : segs <> [] -> Forall (fun seg => seg <> []) (take 1 segs) ->
  mapM (fun seg => JsonKeyPathUnescapeSegment seg false) (segments (path_key segs)) = Some segs /\
  JsonKeySplitSidecarField (path_key segs) = (path_key segs, []) /\
  JsonKeySplitSidecarField (JsonKeyPathMakeTypeKey (path_key segs)) = (path_key segs, bytes "type").
Proof.
  intros Hne Hs. destruct segs as [|seg segs]; [done|]. inversion Hs as [|? ? Hseg _]; subst. split_and!.
  - rewrite path_key_cons, key_segments by done. apply unescape_all.
  - unfold JsonKeySplitSidecarField. cbv zeta. destruct (_ && _) eqn:E; [|done]. exfalso. apply andb_prop in E as [_ E%bool_decide_eq_true].
    pose proof (path_key_no_dot (seg :: segs)) as Hd. rewrite <- (take_drop (length (path_key (seg :: segs)) - 5) (path_key (seg :: segs))), E in Hd.
    apply Forall_app in Hd as [_ Hd]. by inversion Hd.
  - unfold JsonKeySplitSidecarField, JsonKeyPathMakeTypeKey. cbv zeta. rewrite length_app. change (length (bytes ".type")) with 5%nat.
    rewrite Nat.add_sub, drop_app_length, take_app_length, (proj2 (Z.leb_le _ _)) by lia. done.
Qed.

(** ** Examples *)

Definition set_options : Ns_JsonOptions := mkJsonOptions 1000 0 false (TStr []) 0 NS_JSON_OUTPUT_TCL_VALUE NS_JSON_TOP_ANY.
Definition string_rep (o : Tcl_Obj) : list Z := match o with TStr s => s | _ => [] end.
Definition no_double (_ : list Z) : option spec_float := None.

Lemma JsonSet_equivalence_witness : let buf := bytes "[1, [true], []]" in
  JsonParseObjCmd_set no_double string_rep set_options buf =
  triples ← JsonParseObjCmd no_double (unlimited set_options buf) buf; Parsed (set_of_triples string_rep triples).
Proof. apply (JsonSet_equivalence no_double string_rep set_options). intros s. reflexivity. Defined.

Lemma JsonKey_roundtrip_witness : let segs := [bytes "a.b"; []; bytes "c/d"] in
  mapM (fun seg => JsonKeyPathUnescapeSegment seg false) (segments (path_key segs)) = Some segs /\
  JsonKeySplitSidecarField (path_key segs) = (path_key segs, []) /\
  JsonKeySplitSidecarField (JsonKeyPathMakeTypeKey (path_key segs)) = (path_key segs, bytes "type").
Proof. cbv zeta. apply JsonKey_roundtrip; [discriminate|]. repeat constructor. discriminate. Defined.

(** An empty name at the top leaves no trace: the value inside of it gets the key of the value beside it. *)
Example empty_name_lost :
  JsonParseObjCmd_set no_double string_rep set_options ([123; 34; 34; 58; 123; 34; 97; 34; 58; 49; 125; 44; 34; 97; 34; 58; 50; 125]) =
  Parsed [(bytes "a.type", bytes "number"); (bytes "a", bytes "1"); (bytes "a.type", bytes "number"); (bytes "a", bytes "2")].
Proof. reflexivity. Qed.

(** The limit on the depth has no effect: three arrays, where two are allowed. *)
Example depth_not_limited :
  JsonParseObjCmd_set no_double string_rep (mkJsonOptions 2 0 false (TStr []) 0 NS_JSON_OUTPUT_TCL_VALUE NS_JSON_TOP_ANY) (bytes "[[[1]]]") =
  Parsed [(bytes "0/0/0.type", bytes "number"); (bytes "0/0/0", bytes "1")].
Proof. reflexivity. Qed.
