(* ===== verification/Str.v ===== *)
(** * Str: the string routines of nsd/str.c and the escaping of nsd/dstring.c. *)

From S2P Require Import Prelude Utf8.

(** ** Trimming *)

Fixpoint Ns_StrTrimLeft (chars : list Z) : list Z :=
  match chars with
  | c :: rest => if isspace c then Ns_StrTrimLeft rest else chars
  | [] => []
  end.

(** The loop of [Ns_StrTrimRight]; [len] is the number of characters that are left.
    [char] is signed: [chars[len] > 0] holds for the bytes 1..127, and storing a NUL
    at [chars[len]] ends the string there. *)
Fixpoint trim_right_loop (len : nat) (chars : list Z) : list Z :=
  match len with
  | O => chars
  | S len =>
      let c := nth len chars 0 in
      if (0 <? c) && (c <? 128) && (isspace c || (c =? 10)) then trim_right_loop len (take len chars) else chars
  end.

Definition Ns_StrTrimRight (chars : list Z) : list Z := trim_right_loop (length chars) chars.

Definition Ns_StrTrim (chars : list Z) : list Z := Ns_StrTrimLeft (Ns_StrTrimRight chars).

(** ** Case conversion *)

Definition Ns_StrToLower (chars : list Z) : list Z := (fun c => if isupper c then tolower c else c) <$> chars.
Definition Ns_StrToUpper (chars : list Z) : list Z := (fun c => if islower c then toupper c else c) <$> chars.

(** [i] is the index of the first byte looked at. *)
Fixpoint upper_pos (i : Z) (bs : list Z) : Z :=
  match bs with
  | [] => -1
  | c :: bs => if isupper c then i else upper_pos (i + 1) bs
  end.
Definition Ns_UpperCharPos (bs : list Z) : Z := upper_pos 0 bs.

(** ** Comparison and search *)

(** [true] for a match: the comparison stops at the end of the shorter string. *)
Fixpoint Ns_Match (a b : list Z) : bool :=
  match a, b with
  | x :: a, y :: b =>
      let c1 := if islower x then x else tolower x in
      let c2 := if islower y then y else tolower y in
      if negb (c1 =? c2) then false else Ns_Match a b
  | _, _ => true
  end.

(** The loop of [Ns_StrCaseFind]: the rest of the string at the first match. *)
Fixpoint case_find (chars subString : list Z) : option (list Z) :=
  match chars with
  | [] => None
  | _ :: rest => if Ns_Match chars subString then Some chars else case_find rest subString
  end.

Definition Ns_StrCaseFind (chars subString : list Z) : option (list Z) :=
  if Z.of_nat (length subString) <? Z.of_nat (length chars) then case_find chars subString else None.

(** [strstr]: the string from the first occurrence of [needle] on. *)
Fixpoint strstr (s needle : list Z) : option (list Z) :=
  if bool_decide (take (length needle) s = needle) then Some s
  else match s with [] => None | _ :: s => strstr s needle end.

Definition CRLF : list Z := [13; 10].

Fixpoint skip_word (line : list Z) : list Z :=
  match line with
  | c :: rest => if negb (isspace c) then skip_word rest else line
  | [] => []
  end.

Definition Ns_NextWord (line : list Z) : list Z := Ns_StrTrimLeft (skip_word line).

(** [p[1]] is the NUL at the end of the string. *)
Fixpoint Ns_StrIsValidHostHeaderContent (chars : list Z) : bool :=
  match chars with
  | [] => true
  | c :: rest =>
      if negb (isalnum c) && negb (c =? 58) && negb (c =? 91) && negb (c =? 93)
         && (negb (c =? 46) || (nth 0 rest 0 =? 46))
      then false else Ns_StrIsValidHostHeaderContent rest
  end.

Definition Ns_NullIfEmpty (string : option (list Z)) : option (list Z) :=
  match string with
  | Some [] => None
  | _ => string
  end.

(** ** Numbers

    C's [strtol], [strtoll] and [strtoul] with 64-bit results: white space, a sign,
    for base 16 an optional [0x] in front of a digit, then digits.  The result is
    the value, the unread rest of the string (all of it if there is no digit) and
    whether [errno] is set to [ERANGE]. *)

Definition digit_val (base c : Z) : option Z :=
  let d := if isdigit c then c - 48 else if islower c then c - 87 else if isupper c then c - 55 else 99 in
  if d <? base then Some d else None.

Fixpoint digits (base acc : Z) (l : list Z) : Z * list Z :=
  match l with
  | c :: rest => match digit_val base c with
                 | Some d => digits base (acc * base + d) rest
                 | None => (acc, l)
                 end
  | [] => (acc, [])
  end.

Definition starts_digit (base : Z) (l : list Z) : bool :=
  match l with
  | c :: _ => match digit_val base c with Some _ => true | None => false end
  | [] => false
  end.

(** The sign of the number and what follows it. *)
Definition read_sign (l : list Z) : bool * list Z :=
  match l with
  | c :: rest => if c =? 45 then (true, rest) else if c =? 43 then (false, rest) else (false, l)
  | [] => (false, l)
  end.

Definition skip_0x (base : Z) (l : list Z) : list Z :=
  match l with
  | z :: x :: rest =>
      if (base =? 16) && (z =? 48) && ((x =? 120) || (x =? 88)) && starts_digit base rest then rest else l
  | _ => l
  end.

(** The part the three functions share: sign, magnitude and rest, or no conversion. *)
Definition strto (base : Z) (nptr : list Z) : option (bool * Z * list Z) :=
  let '(neg, l) := read_sign (Ns_StrTrimLeft nptr) in
  let l := skip_0x base l in
  if starts_digit base l then let '(m, rest) := digits base 0 l in Some (neg, m, rest) else None.

Definition LONG_MAX : Z := 2 ^ 63 - 1.
Definition LONG_MIN : Z := - 2 ^ 63.
Definition INT_MAX : Z := 2 ^ 31 - 1.
Definition INT_MIN : Z := - 2 ^ 31.
Definition ULONG_MAX : Z := 2 ^ 64 - 1.

Definition strtol (nptr : list Z) (base : Z) : Z * list Z * bool :=
  match strto base nptr with
  | None => (0, nptr, false)
  | Some (neg, m, rest) =>
      let v := if neg then - m else m in
      if v <? LONG_MIN then (LONG_MIN, rest, true)
      else if LONG_MAX <? v then (LONG_MAX, rest, true)
      else (v, rest, false)
  end.

(** [strtoul] negates the value modulo 2^64 after a minus sign; only a magnitude that
    does not fit is a range error. *)
Definition strtoul (nptr : list Z) (base : Z) : Z * list Z * bool :=
  match strto base nptr with
  | None => (0, nptr, false)
  | Some (neg, m, rest) =>
      if ULONG_MAX <? m then (ULONG_MAX, rest, true)
      else (if neg then wrap64 (- m) else m, rest, false)
  end.

Definition number_base (chars : list Z) : Z :=
  match chars with
  | c0 :: c1 :: _ => if (c0 =? 48) && (c1 =? 120) then 16 else 10
  | _ => 10
  end.

(** [None] is [NS_ERROR]. *)
Definition Ns_StrToInt (chars : list Z) : option Z :=
  let '(lval, ep, erange) := strtol chars (number_base chars) in
  match chars, ep with
  | [], _ | _, _ :: _ => None
  | _, [] =>
      if (erange && ((lval =? LONG_MAX) || (lval =? LONG_MIN))) || ((INT_MAX <? lval) || (lval <? INT_MIN))
      then None else Some lval
  end.

Definition Ns_StrToWideInt (chars : list Z) : option Z :=
  let '(lval, ep, erange) := strtol chars (number_base chars) in
  match chars, ep with
  | [], _ | _, _ :: _ => None
  | _, [] => if erange && ((lval =? LONG_MAX) || (lval =? LONG_MIN)) then None else Some lval
  end.

(** [None] is [NS_FALSE]; the first [len] bytes of [s] are copied to a buffer of 32 bytes. *)
Definition Ns_StrToULongNStrict (s : list Z) (len base : Z) : outcome (option Z) :=
  if (len =? 0) || (32 <=? len) then Ret None
  else buf ← checked (aslice s 0 len);
       let '(v, ep, erange) := strtoul (before_nul buf) base in
       mret (if bool_decide (length ep = length (before_nul buf)) || negb (bool_decide (ep = [])) || erange
             then None else Some v).

(** ** Escaping (nsd/dstring.c) *)

(** [strpbrk]: the part before the first character of [set] and the rest from it. *)
Fixpoint strpbrk (set l : list Z) : list Z * list Z :=
  match l with
  | [] => ([], [])
  | c :: rest => if existsb (Z.eqb c) set then ([], l) else let '(p, q) := strpbrk set rest in (c :: p, q)
  end.

Definition specials : list Z := [13; 10; 9; 92; 34].

Definition escape_char (c : Z) : list Z :=
  match c with
  | 10 => [92; 110]
  | 13 => [92; 114]
  | 9 => [92; 116]
  | 34 => [92; 34]
  | 92 => [92; 92]
  | _ => []
  end.

Fixpoint escape_loop (fuel : nat) (ds inputString : list Z) : option (list Z) :=
  match fuel with
  | O => None
  | S fuel =>
      match strpbrk specials inputString with
      | (prefix, []) => Some (ds ++ prefix)
      | (prefix, c :: rest) => escape_loop fuel (ds ++ prefix ++ escape_char c) rest
      end
  end.

Definition Ns_DStringAppendEscaped (ds inputString : list Z) : option (list Z) :=
  escape_loop (S (length inputString)) ds inputString.

(** ** Trimming: lemmas *)

Lemma trim_left_split l :
  exists p, l = p ++ Ns_StrTrimLeft l /\ forallb isspace p = true /\
    (forall c r, Ns_StrTrimLeft l = c :: r -> isspace c = false).
Proof.
  induction l as [|c l IH]; [by exists []|]. cbn. destruct (isspace c) eqn:Ec.
  - destruct IH as (p & E & Hp & Hh). exists (c :: p). cbn. by rewrite <- E, Ec.
  - exists []. split_and!; [done|done|]. by intros ? ? [= -> ->].
Qed.

(** White space is ASCII, so the extra tests of [Ns_StrTrimRight] change nothing. *)
Lemma trim_right_test c : (0 <? c) && (c <? 128) && (isspace c || (c =? 10)) = isspace c.
Proof. unfold isspace. zcases; try reflexivity; lia. Qed.

Lemma trim_right_app l c :
  trim_right_loop (length (l ++ [c])) (l ++ [c]) = if isspace c then trim_right_loop (length l) l else l ++ [c].
Proof.
  replace (length (l ++ [c])) with (S (length l)) by lens. cbn [trim_right_loop].
  rewrite app_nth2, Nat.sub_diag by lia. cbn [nth]. rewrite trim_right_test, take_app_length. done.
Qed.

Lemma trim_right_split l :
  exists q, l = Ns_StrTrimRight l ++ q /\ forallb isspace q = true /\
    (forall r c, Ns_StrTrimRight l = r ++ [c] -> isspace c = false).
Proof.
  unfold Ns_StrTrimRight. induction l as [|c l IH] using rev_ind.
  - exists []. split_and!; [done|done|]. by intros [|? ?] ? [=].
  - rewrite trim_right_app. destruct (isspace c) eqn:Ec.
    + destruct IH as (q & E & Hq & Hl). exists (q ++ [c]). split_and!; [by rewrite app_assoc, <- E| |done].
      by rewrite forallb_app, Hq; cbn; rewrite Ec.
    + exists []. rewrite app_nil_r. split_and!; [done|done|]. by intros r d [-> ->]%app_inj_tail.
Qed.

Lemma isspace_ascii c : isspace c = true -> ascii7 c = true.
Proof. unfold isspace, ascii7. zcases; done || lia. Qed.

Lemma spaces_ascii l : forallb isspace l = true -> forallb ascii7 l = true.
Proof. rewrite !forallb_forall. eauto using isspace_ascii. Qed.

(** Removing an ASCII character from the end of a string keeps it valid. *)
Lemma utf8_snoc l b : 0 <= b -> ascii7 b = true -> utf8 (l ++ [b]) -> utf8 l.
Proof.
  unfold ascii7. intros H0 Hb%Z.ltb_lt (cps & Hs & E). destruct cps as [|cp cps _] using rev_ind.
  { cbn in E. by apply app_eq_nil in E as [_ [=]]. }
  apply Forall_app in Hs as [Hs [Hc _]%Forall_cons]. exists cps. split; [done|].
  rewrite fmap_app, concat_app in E. cbn in E. rewrite app_nil_r in E. unfold scalar in Hc.
  rewrite from_code_point_arith in E by lia.
  assert (forall x (p q : list Z), l ++ [b] = p ++ q ++ [x] -> b = x /\ l = p ++ q) as Hlast
    by (intros x p q; rewrite app_assoc; intros [-> ->]%app_inj_tail; done).
  destruct (Z.leb_spec cp 0x7F).
  { apply (Hlast _ _ []) in E as [_ ->]. by rewrite app_nil_r. }
  exfalso. destruct (Z.leb_spec cp 0x7FF); [|destruct (Z.leb_spec cp 0xFFFF); [|destruct (Z.leb_spec cp 0x10FFFF)]];
    [apply (Hlast _ _ [_]) in E as [E _]|apply (Hlast _ _ [_; _]) in E as [E _]
    |apply (Hlast _ _ [_; _; _]) in E as [E _]|lia]; pose proof (Z.mod_pos_bound cp 64 eq_refl); lia.
Qed.

Lemma utf8_strip l q : is_bytes q -> forallb ascii7 q = true -> utf8 (l ++ q) -> utf8 l.
Proof.
  induction q as [|b q IH] using rev_ind; [by rewrite app_nil_r|].
  rewrite forallb_app, app_assoc. intros [Hq [[Hb _] _]%Forall_cons]%Forall_app [Ha Hab]%andb_true_iff Hu.
  cbn in Hab. rewrite andb_true_r in Hab. eauto using utf8_snoc.
Qed.

(** ** Numbers: what the conversions accept *)

Definition is_digit (base c : Z) : Prop := is_Some (digit_val base c).
Definition numeral (base : Z) (ds : list Z) : Prop := ds <> [] /\ Forall (is_digit base) ds.
Definition value (base : Z) (ds : list Z) : Z := foldl (fun a c => a * base + default 0 (digit_val base c)) 0 ds.
Definition signed (neg : bool) (m : Z) : Z := if neg then - m else m.

Inductive sign : list Z -> bool -> Prop :=
| sign_none : sign [] false
| sign_plus : sign [43] false
| sign_minus : sign [45] true.

(** The strings that denote an integer: a decimal number behind white space and a
    sign, or [0x] and a hexadecimal number. *)
Inductive literal : list Z -> Z -> Prop :=
| lit_dec ws sg neg ds :
    forallb isspace ws = true -> sign sg neg -> numeral 10 ds ->
    literal (ws ++ sg ++ ds) (signed neg (value 10 ds))
| lit_hex ds : numeral 16 ds -> literal (48 :: 120 :: ds) (value 16 ds).

Lemma digits_spec base acc l :
  exists ds, let '(m, rest) := digits base acc l in
    l = ds ++ rest /\ Forall (is_digit base) ds /\ starts_digit base rest = false /\
    m = foldl (fun a c => a * base + default 0 (digit_val base c)) acc ds.
Proof.
  revert acc. induction l as [|c l IH]; intros acc; cbn [digits]; [by exists []|].
  destruct (digit_val base c) as [d|] eqn:Ed.
  - destruct (IH (acc * base + d)) as [ds Hds]. exists (c :: ds).
    destruct (digits base (acc * base + d) l) as [m rest]. destruct Hds as (-> & Hf & Hs & ->).
    split_and!; [done| |done|by cbn; rewrite Ed]. apply Forall_cons. split; [by exists d|done].
  - exists []. split_and!; [done|done| |done]. cbn. by rewrite Ed.
Qed.

Lemma digits_numeral base acc ds :
  Forall (is_digit base) ds ->
  digits base acc ds = (foldl (fun a c => a * base + default 0 (digit_val base c)) acc ds, []).
Proof.
  revert acc. induction ds as [|c ds IH]; intros acc Hd; [done|].
  apply Forall_cons in Hd as [[d Ed] Hd]. cbn. rewrite Ed. by apply IH.
Qed.

Lemma numeral_starts base ds : numeral base ds -> starts_digit base ds = true.
Proof. intros [Hn Hd]. destruct Hd as [|c ds [d Ed] _]; [done|]. cbn. by rewrite Ed. Qed.

Lemma digit_not_special base c : base <= 16 -> is_digit base c -> isspace c = false /\ c <> 45 /\ c <> 43.
Proof.
  unfold is_digit, digit_val, isspace, isdigit, islower, isupper. intros Hb [d Hd].
  split_and!; zcases; try done; try lia.
Qed.

Lemma trim_left_skip ws l :
  forallb isspace ws = true -> match l with c :: _ => isspace c = false | [] => True end ->
  Ns_StrTrimLeft (ws ++ l) = l.
Proof.
  intros Hw Hl. induction ws as [|c ws IH]; cbn.
  - destruct l as [|c l]; [done|]. cbn. by rewrite Hl.
  - cbn in Hw. apply andb_true_iff in Hw as [-> Hw]. by apply IH.
Qed.

Lemma read_sign_spec l : let '(neg, l') := read_sign l in exists sg, sign sg neg /\ l = sg ++ l'.
Proof.
  destruct l as [|c l]; cbn; [by exists []; split; [constructor|]|].
  destruct (Z.eqb_spec c 45) as [->|]; [exists [45]; by split; [constructor|]|].
  destruct (Z.eqb_spec c 43) as [->|]; [exists [43]; by split; [constructor|]|].
  exists []. by split; [constructor|].
Qed.

Lemma read_sign_app sg neg l :
  sign sg neg -> match l with c :: _ => c <> 45 /\ c <> 43 | [] => True end -> read_sign (sg ++ l) = (neg, l).
Proof.
  intros [] Hl; [|done|done]. destruct l as [|c l]; [done|]. cbn.
  destruct (Z.eqb_spec c 45), (Z.eqb_spec c 43); tauto.
Qed.

Lemma sign_not_space sg neg l :
  sign sg neg -> match l with c :: _ => isspace c = false | [] => True end ->
  match sg ++ l with c :: _ => isspace c = false | [] => True end.
Proof. by intros [] Hl. Qed.

Lemma numeral_head base ds :
  base <= 16 -> numeral base ds ->
  match ds with c :: _ => isspace c = false | [] => True end /\
  match ds with c :: _ => c <> 45 /\ c <> 43 | [] => True end.
Proof.
  intros Hb [_ Hd]. destruct Hd as [|c ds Hc _]; [done|]. by apply (digit_not_special base) in Hc.
Qed.

(** The conversions read a whole string exactly when it is a literal. *)
Lemma strto_dec chars neg m :
  strto 10 chars = Some (neg, m, []) <->
  exists ws sg ds, chars = ws ++ sg ++ ds /\ forallb isspace ws = true /\ sign sg neg /\ numeral 10 ds /\ m = value 10 ds.
Proof.
  assert (forall l, skip_0x 10 l = l) as Hskip by (by intros [|? [|? ?]]). unfold strto. split.
  - destruct (trim_left_split chars) as (ws & E & Hw & _). pose proof (read_sign_spec (Ns_StrTrimLeft chars)) as Hs.
    destruct (read_sign _) as [neg' l]. destruct Hs as (sg & Hs & El). rewrite Hskip.
    destruct (starts_digit 10 l) eqn:Hst; [|done]. destruct (digits_spec 10 0 l) as [ds Hd].
    destruct (digits 10 0 l) as [m' rest]. destruct Hd as (-> & Hd & _ & ->). intros [= -> <- ->].
    rewrite app_nil_r in *. exists ws, sg, ds. split_and!; try done; [by rewrite E, El at 1|]. split; [by intros ->|done].
  - intros (ws & sg & ds & -> & Hw & Hs & Hn & ->). pose proof (numeral_head 10 ds ltac:(lia) Hn) as [H1 H2].
    rewrite trim_left_skip by (done || by apply (sign_not_space sg neg ds)). rewrite (read_sign_app sg neg) by done.
    rewrite Hskip, numeral_starts by done. destruct Hn as [_ Hn]. by rewrite (digits_numeral 10 0 ds Hn).
Qed.

Lemma strto_hex rest neg m :
  strto 16 (48 :: 120 :: rest) = Some (neg, m, []) <-> neg = false /\ numeral 16 rest /\ m = value 16 rest.
Proof.
  unfold strto. cbn [Ns_StrTrimLeft]. change (isspace 48) with false. cbn [read_sign]. rewrite !Z.eqb_refl || idtac.
  change (48 =? 45) with false. change (48 =? 43) with false. cbn [skip_0x]. cbn [Z.eqb Pos.eqb andb orb].
  destruct (starts_digit 16 rest) eqn:Es.
  - rewrite Es. destruct (digits_spec 16 0 rest) as [ds Hd]. destruct (digits 16 0 rest) as [m' r] eqn:Ed.
    destruct Hd as (-> & Hd & _ & ->). split.
    + intros [= <- <- ->]. rewrite app_nil_r in *. split_and!; [done| |done]. split; [by intros ->|done].
    + intros (-> & [_ Hn] & ->). rewrite digits_numeral in Ed by done. injection Ed as Ev <-.
      by rewrite app_nil_r.
  - cbn. split; [done|]. intros (_ & Hn%numeral_starts & _). congruence.
Qed.

Lemma number_base_cases chars :
  (number_base chars = 10 /\ forall r, chars <> 48 :: 120 :: r) \/ exists r, number_base chars = 16 /\ chars = 48 :: 120 :: r.
Proof.
  destruct chars as [|c0 [|c1 r]]; [by left|by left|]. cbn.
  destruct (Z.eqb_spec c0 48) as [->|], (Z.eqb_spec c1 120) as [->|]; eauto; left; (split; [done|congruence]).
Qed.

(** A literal that starts with [0x] is the hexadecimal one. *)
Lemma literal_hex r v : literal (48 :: 120 :: r) v -> numeral 16 r /\ v = value 16 r.
Proof.
  inversion 1 as [ws sg neg ds Hw Hs Hn E|]; [|done]. exfalso. destruct ws as [|w ws].
  - destruct Hs; [|done|done]. cbn in E. subst ds. destruct Hn as [_ [_ [[d Hd] _]%Forall_cons]%Forall_cons]. by vm_compute in Hd.
  - injection E as -> _. done.
Qed.

Lemma strto_literal chars v :
  literal chars v <-> exists neg m, strto (number_base chars) chars = Some (neg, m, []) /\ v = signed neg m.
Proof.
  destruct (number_base_cases chars) as [[-> Hx]|(r & -> & ->)].
  - setoid_rewrite strto_dec. split.
    + destruct 1 as [ws sg neg ds|ds]; [eauto 12|]. by destruct (Hx ds).
    + intros (neg & m & (ws & sg & ds & -> & ? & ? & ? & ->) & ->). by constructor.
  - setoid_rewrite strto_hex. split.
    + intros [Hn ->]%literal_hex. eauto 10.
    + intros (? & ? & (-> & ? & ->) & ->). by constructor.
Qed.

Lemma literal_nonempty v : ~ literal [] v.
Proof.
  inversion 1 as [ws sg neg ds Hw Hs [Hn _] E|]. rewrite E in Hn. apply Hn. by do 2 apply app_eq_nil in E as [_ E].
Qed.

(** [strtol] on the whole string: a literal, clipped to the range of [long]. *)
Lemma strtol_whole chars :
  match strtol chars (number_base chars) with
  | (lval, [], erange) =>
      chars = [] \/ exists v, literal chars v /\ (forall v', literal chars v' -> v' = v) /\
        if erange then (lval = LONG_MIN \/ lval = LONG_MAX) /\ ~ LONG_MIN <= v <= LONG_MAX else v = lval /\ LONG_MIN <= v <= LONG_MAX
  | (_, _ :: _, _) => forall v, ~ literal chars v
  end.
Proof.
  unfold strtol. destruct (strto _ chars) as [[[neg m] [|c rest]]|] eqn:E.
  - assert (exists v, literal chars v /\ (forall v', literal chars v' -> v' = v) /\ v = signed neg m) as (v & Hl & Hu & ->).
    { exists (signed neg m). split_and!; [apply strto_literal; eauto| |done].
      intros v' (neg' & m' & E' & ->)%strto_literal. congruence. }
    fold (signed neg m). destruct (Z.ltb_spec (signed neg m) LONG_MIN); [|destruct (Z.ltb_spec LONG_MAX (signed neg m))];
      right; exists (signed neg m); split_and!; try done; auto; lia.
  - fold (signed neg m). assert (forall v, ~ literal chars v) by (intros v (? & ? & ? & _)%strto_literal; congruence).
    destruct (Z.ltb_spec (signed neg m) LONG_MIN); [|destruct (Z.ltb_spec LONG_MAX (signed neg m))]; done.
  - destruct chars; [by left|]. intros v (? & ? & ? & _)%strto_literal; congruence.
Qed.

Lemma spec_of_range (P : Z -> Prop) v lo hi :
  P v -> (forall v', P v' -> v' = v) ->
  forall w, (if (hi <? v) || (v <? lo) then None else Some v) = Some w <-> P w /\ lo <= w <= hi.
Proof.
  intros Hv Hu w. destruct ((hi <? v) || (v <? lo)) eqn:E; (split; [|intros [->%Hu ?]]).
  - done.
  - exfalso. zcases; done || lia.
  - intros [= <-]. split; [done|]. zcases; done || lia.
  - done.
Qed.

(** The error cases of [strtol] are the values outside of [long]. *)
Lemma erange_test (lval : Z) : lval = LONG_MIN \/ lval = LONG_MAX -> (lval =? LONG_MAX) || (lval =? LONG_MIN) = true.
Proof. by intros [-> | ->]. Qed.

Lemma strtoint_iff chars v : Ns_StrToInt chars = Some v <-> literal chars v /\ INT_MIN <= v <= INT_MAX.
Proof.
  unfold Ns_StrToInt. pose proof (strtol_whole chars) as H. destruct (strtol _ _) as [[lval [|e ep]] er]; cycle 1.
  { destruct chars; (split; [done|intros [? _]; by destruct (H v)]). }
  destruct chars as [|c chars]; [split; [done|by intros [?%literal_nonempty _]]|].
  destruct H as [?|(w & Hl & Hu & Hr)]; [done|]. destruct er; cbn [andb orb].
  - destruct Hr as [->%erange_test Hr]. split; [done|].
    intros [->%Hu ?]. exfalso. apply Hr. unfold LONG_MIN, LONG_MAX, INT_MIN, INT_MAX in *; lia.
  - destruct Hr as [<- Hr]. by apply (spec_of_range (literal (c :: chars))).
Qed.

Lemma strtowide_iff chars v : Ns_StrToWideInt chars = Some v <-> literal chars v /\ LONG_MIN <= v <= LONG_MAX.
Proof.
  unfold Ns_StrToWideInt. pose proof (strtol_whole chars) as H. destruct (strtol _ _) as [[lval [|e ep]] er]; cycle 1.
  { destruct chars; (split; [done|intros [? _]; by destruct (H v)]). }
  destruct chars as [|c chars]; [split; [done|by intros [?%literal_nonempty _]]|].
  destruct H as [?|(w & Hl & Hu & Hr)]; [done|]. destruct er; cbn [andb orb].
  - destruct Hr as [->%erange_test Hr]. split; [done|]. by intros [->%Hu ?].
  - destruct Hr as [<- Hr]. split; [by intros [= <-]|]. by intros [->%Hu ?].
Qed.

Lemma value_nonneg base ds : 0 <= base -> 0 <= value base ds.
Proof.
  unfold value. intros Hb. assert (forall a, 0 <= a -> 0 <= foldl (fun a c => a * base + default 0 (digit_val base c)) a ds);
    [|by auto with lia].
  induction ds as [|c ds IH]; intros a Ha; [done|]. cbn. apply IH.
  enough (0 <= default 0 (digit_val base c)) by nia.
  unfold digit_val, isdigit, islower, isupper. repeat case_match; cbn; try lia; zcases; try done; lia.
Qed.

Lemma strtoul_dec chars :
  chars <> [] ->
  match strtoul chars 10 with
  | (v, [], false) =>
      exists neg m, strto 10 chars = Some (neg, m, []) /\ m <= ULONG_MAX /\ v = wrap64 (signed neg m)
  | _ => forall neg m, strto 10 chars = Some (neg, m, []) -> ULONG_MAX < m
  end.
Proof.
  intros Hne. unfold strtoul. destruct (strto 10 chars) as [[[neg m] rest]|] eqn:E.
  - destruct (Z.ltb_spec ULONG_MAX m) as [Hm|Hm].
    + destruct rest; [by intros ? ? [= <- <-]|done].
    + destruct rest; [|done]. exists neg, m. split_and!; try done. destruct neg; [done|].
      symmetry. apply wrap64_id. split; [|unfold ULONG_MAX in Hm; cbn; lia].
      apply strto_dec in E as (? & ? & ds & _ & _ & _ & _ & ->). apply value_nonneg. lia.
  - destruct chars; done.
Qed.

(** ** Searching: lemmas *)

Lemma fold_case x : (if islower x then x else tolower x) = tolower x.
Proof. unfold tolower, islower, isupper. zcases; done || lia. Qed.

Lemma match_prefix a b :
  Ns_Match a b = true <-> (tolower <$> a) `prefix_of` (tolower <$> b) \/ (tolower <$> b) `prefix_of` (tolower <$> a).
Proof.
  revert b. induction a as [|x a IH]; intros [|y b]; cbn [Ns_Match].
  - split; [intros _; by left|done].
  - split; [intros _; left; apply prefix_nil|done].
  - split; [intros _; right; apply prefix_nil|done].
  - rewrite !fold_case, !fmap_cons. destruct (Z.eqb_spec (tolower x) (tolower y)) as [->|Hn]; cbn.
    + rewrite IH. split; (intros [?|?]; [left|right]; eauto using prefix_cons, prefix_cons_inv_2).
    + split; [done|]. by intros [?%prefix_cons_inv_1|?%prefix_cons_inv_1].
Qed.

Lemma case_find_first chars sub :
  match case_find chars sub with
  | Some r => exists p, chars = p ++ r /\ r <> [] /\ Ns_Match r sub = true /\
      (forall p1 p2, p = p1 ++ p2 -> p2 <> [] -> Ns_Match (p2 ++ r) sub = false)
  | None => forall p r, chars = p ++ r -> r <> [] -> Ns_Match r sub = false
  end.
Proof.
  induction chars as [|c chars IH]; [intros p r E%eq_sym Hr; by apply app_nil in E as [_ ->]|]. cbn [case_find].
  destruct (Ns_Match (c :: chars) sub) eqn:E.
  - exists []. split_and!; try done. intros p1 p2 Hp%eq_sym Hn. by apply app_nil in Hp as [_ ->].
  - destruct (case_find chars sub) as [r|].
    + destruct IH as (p & -> & Hr & Hm & Hf). exists (c :: p). split_and!; try done.
      intros [|d p1] p2 Hp Hn; [by cbn in Hp; subst p2|]. injection Hp as <- ->. eauto.
    + intros [|d p] r Hp Hn; [by cbn in Hp; subst r|]. injection Hp as <- ->. eauto.
Qed.

(** ** Escaping: the inverse *)

Definition unescape_char (c : Z) : Z := if c =? 110 then 10 else if c =? 114 then 13 else if c =? 116 then 9 else c.

(** [esc]: the character before was an unescaped backslash. *)
Fixpoint unescape (esc : bool) (l : list Z) : list Z :=
  match l with
  | [] => []
  | c :: r =>
      if esc then unescape_char c :: unescape false r
      else if c =? 92 then unescape true r
      else c :: unescape false r
  end.

Definition escape1 (c : Z) : list Z := if existsb (Z.eqb c) specials then escape_char c else [c].

Lemma strpbrk_spec set l :
  let '(p, q) := strpbrk set l in
  l = p ++ q /\ Forall (fun c => existsb (Z.eqb c) set = false) p /\
  match q with c :: _ => existsb (Z.eqb c) set = true | [] => True end.
Proof.
  induction l as [|c l IH]; [done|]. cbn. destruct (existsb (Z.eqb c) set) eqn:Ec; [done|].
  destruct (strpbrk set l) as [p q]. destruct IH as (-> & Hp & Hq). split_and!; try done. by constructor.
Qed.

Lemma escape1_plain p : Forall (fun c => existsb (Z.eqb c) specials = false) p -> concat (escape1 <$> p) = p.
Proof. induction 1 as [|c p Hc _ IH]; [done|]. cbn [fmap list_fmap concat]. unfold escape1 at 1. by rewrite Hc, IH. Qed.

Lemma escape_loop_spec fuel ds s :
  (length s < fuel)%nat -> escape_loop fuel ds s = Some (ds ++ concat (escape1 <$> s)).
Proof.
  revert ds s. induction fuel as [|fuel IH]; intros ds s Hf; [lia|]. cbn [escape_loop].
  pose proof (strpbrk_spec specials s) as H. destruct (strpbrk specials s) as [p [|c q]]; destruct H as (-> & Hp & Hq).
  - by rewrite app_nil_r, escape1_plain.
  - rewrite IH by lens. rewrite fmap_app, concat_app, (escape1_plain p) by done. cbn [fmap list_fmap concat].
    unfold escape1 at 2. by rewrite Hq, !app_assoc.
Qed.

Lemma escape1_cases c :
  (c = 10 \/ c = 13 \/ c = 9 \/ c = 34 \/ c = 92) \/ (escape1 c = [c] /\ c <> 92 /\ c <> 34 /\ c <> 10 /\ c <> 13 /\ c <> 9).
Proof. unfold escape1. cbn. zcases; try (right; split; [done|lia]); left; lia. Qed.

Lemma unescape_escape1 c rest : unescape false (escape1 c ++ rest) = c :: unescape false rest.
Proof.
  destruct (escape1_cases c) as [[->|[->|[->|[->| ->]]]]|(-> & Hc & _)]; try done.
  cbn. by destruct (Z.eqb_spec c 92).
Qed.

Lemma unescape_escape s : unescape false (concat (escape1 <$> s)) = s.
Proof. induction s as [|c s IH]; [done|]. rewrite fmap_cons. cbn [concat]. by rewrite unescape_escape1, IH. Qed.

(** A character that can stand in a quoted string on one line. *)
Definition printable_quoted (c : Z) : bool := negb ((c =? 10) || (c =? 13) || (c =? 9)).

Lemma escape_clean s : forallb printable_quoted (concat (escape1 <$> s)) = true.
Proof.
  induction s as [|c s IH]; [done|]. rewrite fmap_cons. cbn [concat]. rewrite forallb_app, IH, andb_true_r.
  destruct (escape1_cases c) as [[->|[->|[->|[->| ->]]]]|(-> & _ & _ & H)]; try done.
  cbn. unfold printable_quoted. zcases; done || lia.
Qed.

(** ** Theorems *)

(** [Ns_StrToInt] and [Ns_StrToWideInt] accept exactly the integer literals (decimal
    with white space and a sign in front, or [0x] and hexadecimal digits, nothing
    behind them) whose value is in the range of [int] or of [long long], and return
    that value; everything else is an error. *)
Theorem StrToInt_spec chars v :
  (Ns_StrToInt chars = Some v <-> literal chars v /\ INT_MIN <= v <= INT_MAX) /\
  (Ns_StrToWideInt chars = Some v <-> literal chars v /\ LONG_MIN <= v <= LONG_MAX).
Proof. split; [apply strtoint_iff|apply strtowide_iff]. Qed.

(** [Ns_StrToULongNStrict] in base 10 accepts the decimal literals of at most 31
    characters whose magnitude fits an [unsigned long], and returns the value modulo
    2^64: a negative number is accepted and wraps around, although the comment says
    that an underflow is refused. *)
Theorem StrToULongNStrict_spec s v :
  Forall (fun c => c <> 0) s -> s <> [] -> (length s < 32)%nat ->
  Ns_StrToULongNStrict s (Z.of_nat (length s)) 10 = Ret (Some v) <->
  exists ws sg neg ds, s = ws ++ sg ++ ds /\ forallb isspace ws = true /\ sign sg neg /\ numeral 10 ds /\
    value 10 ds <= ULONG_MAX /\ v = wrap64 (signed neg (value 10 ds)).
Proof.
  intros Hz Hne Hlen. unfold Ns_StrToULongNStrict.
  destruct (Z.eqb_spec (Z.of_nat (length s)) 0); [by destruct s|].
  destruct (Z.leb_spec 32 (Z.of_nat (length s))); [lia|]. cbn [orb].
  pose proof (aslice_prefix s [] _ eq_refl) as Hs. rewrite app_nil_r in Hs. rewrite Hs. cbn. rewrite before_nul_id by done.
  pose proof (strtoul_dec s Hne) as HU. destruct (strtoul s 10) as [[w ep] er]. destruct ep as [|e ep].
  - rewrite bool_decide_eq_false_2 by (cbn; destruct s; done). rewrite bool_decide_eq_true_2 by done. destruct er; cbn.
    + split; [done|]. intros (ws & sg & neg & ds & E & Hw & Hs' & Hn & Hm & _).
      enough (ULONG_MAX < value 10 ds) by lia. apply (HU neg). apply strto_dec. eauto 10.
    + destruct HU as (neg & m & (ws & sg & ds & -> & ? & ? & ? & ->)%strto_dec & ? & ->). split.
      * intros [= <-]. eauto 12.
      * intros (ws' & sg' & neg' & ds' & E & Hw & Hs' & Hn & Hm & ->).
        assert (strto 10 (ws ++ sg ++ ds) = Some (neg', value 10 ds', [])) as E1 by (apply strto_dec; rewrite E; eauto 10).
        assert (strto 10 (ws ++ sg ++ ds) = Some (neg, value 10 ds, [])) as E2 by (apply strto_dec; eauto 10).
        rewrite E2 in E1. injection E1 as -> E1. unfold value in *. by rewrite E1.
  - rewrite (bool_decide_eq_false_2 (e :: ep = [])) by done. rewrite orb_true_r. cbn. split; [done|].
    intros (ws & sg & neg & ds & E & Hw & Hs' & Hn & Hm & _).
    enough (ULONG_MAX < value 10 ds) by lia. apply (HU neg). apply strto_dec. eauto 10.
Qed.

Lemma StrToULongNStrict_spec_witness : Ns_StrToULongNStrict (bytes "-1") 2 10 = Ret (Some ULONG_MAX).
Proof.
  apply (StrToULongNStrict_spec (bytes "-1")); [repeat constructor; discriminate|discriminate|cbn; lia|].
  exists [], [45], true, [49]. split_and!; try reflexivity; [constructor| |discriminate].
  split; [discriminate|]. repeat constructor. exists 1. reflexivity.
Defined.

(** [Ns_StrTrim] removes exactly the white space around a string: what is removed on
    both sides is white space, the rest neither starts nor ends with it, and valid
    UTF-8 stays valid (no part of a multi-byte character is cut off). *)
Theorem StrTrim_spec chars :
  is_bytes chars ->
  exists p q, chars = p ++ Ns_StrTrim chars ++ q /\ forallb isspace (p ++ q) = true /\
    (forall c r, Ns_StrTrim chars = c :: r -> isspace c = false) /\
    (forall c r, Ns_StrTrim chars = r ++ [c] -> isspace c = false) /\
    (utf8 chars -> utf8 (Ns_StrTrim chars)).
Proof.
  intros Hb. unfold Ns_StrTrim. destruct (trim_right_split chars) as (q & E & Hq & Hl).
  destruct (trim_left_split (Ns_StrTrimRight chars)) as (p & E' & Hp & Hh). exists p, q. split_and!.
  - by rewrite app_assoc, <- E', <- E.
  - by rewrite forallb_app, Hp, Hq.
  - done.
  - intros c r Er. rewrite Er, app_assoc in E'. eauto.
  - intros Hu. rewrite E in Hu, Hb. apply Forall_app in Hb as [Hb1 Hb2].
    apply utf8_strip in Hu; [|done|by apply spaces_ascii]. rewrite E' in Hu, Hb1. apply Forall_app in Hb1 as [Hb1 _].
    by apply utf8_ascii in Hu; [| |apply spaces_ascii].
Qed.

Lemma StrTrim_spec_witness : utf8 (Ns_StrTrim [32; 9; 0xC3; 0x85; 10]).
Proof.
  destruct (StrTrim_spec [32; 9; 0xC3; 0x85; 10]) as (p & q & _ & _ & _ & _ & H);
    [repeat constructor; vm_compute; done|].
  apply H. exists [32; 9; 0xC5; 10]. split; [|reflexivity].
  repeat constructor; try lia; intros [? ?]; lia.
Defined.

(** In a string longer than the pattern, [Ns_StrCaseFind] returns the first position
    at which the pattern occurs or at which the rest of the string is a proper
    beginning of it (case ignored); the second kind of hit is not an occurrence.  A
    pattern as long as the string is never found. *)
Theorem StrCaseFind_spec chars sub :
  (length sub < length chars)%nat ->
  match Ns_StrCaseFind chars sub with
  | Some r => exists p, chars = p ++ r /\ r <> [] /\
      ((tolower <$> sub) `prefix_of` (tolower <$> r) \/ (tolower <$> r) `prefix_of` (tolower <$> sub)) /\
      (forall p1 p2, p = p1 ++ p2 -> p2 <> [] -> ~ (tolower <$> sub) `prefix_of` (tolower <$> p2 ++ r))
  | None => forall p r, chars = p ++ r -> r <> [] -> ~ (tolower <$> sub) `prefix_of` (tolower <$> r)
  end.
Proof.
  intros Hlen. unfold Ns_StrCaseFind. destruct (Z.ltb_spec (Z.of_nat (length sub)) (Z.of_nat (length chars))); [|lia].
  assert (forall r, Ns_Match r sub = false -> ~ (tolower <$> sub) `prefix_of` (tolower <$> r)) as Hno
    by (intros r Hr Hp; enough (Ns_Match r sub = true) by congruence; apply match_prefix; by right).
  pose proof (case_find_first chars sub) as Hf. destruct (case_find chars sub) as [r|].
  - destruct Hf as (p & -> & Hr & Hm & Hf). exists p. split_and!; try done; [|eauto].
    apply match_prefix in Hm as [?|?]; auto.
  - eauto.
Qed.

Lemma StrCaseFind_spec_witness :
  Ns_StrCaseFind (bytes "text/HTML") (bytes "html") = Some (bytes "HTML") /\
  exists p, bytes "text/HTML" = p ++ bytes "HTML".
Proof.
  split; [reflexivity|].
  destruct (StrCaseFind_spec (bytes "text/HTML") (bytes "html") ltac:(vm_compute; lia)) as (p & H & _).
  exists p. exact H.
Defined.

(** Two consequences of the length test and of [Ns_Match] ignoring the end of the
    pattern: a string does not contain itself, and a string that ends with a
    beginning of the pattern is reported to contain the pattern. *)
Theorem StrCaseFind_wrong s :
  s <> [] ->
  Ns_StrCaseFind s s = None /\
  forall p t, (length t < length p)%nat -> is_Some (Ns_StrCaseFind (p ++ s) (s ++ t)).
Proof.
  intros Hs. split; [unfold Ns_StrCaseFind; by rewrite Z.ltb_irrefl|]. intros p t Hlen. unfold Ns_StrCaseFind.
  destruct (Z.ltb_spec (Z.of_nat (length (s ++ t))) (Z.of_nat (length (p ++ s)))); [|lens].
  pose proof (case_find_first (p ++ s) (s ++ t)) as Hf. destruct (case_find (p ++ s) (s ++ t)); [by eauto|].
  enough (Ns_Match s (s ++ t) = true) by (by rewrite (Hf p s) in *).
  apply match_prefix. left. rewrite fmap_app. by exists (tolower <$> t).
Qed.

Lemma StrCaseFind_wrong_witness :
  Ns_StrCaseFind (bytes "abc") (bytes "abc") = None /\ is_Some (Ns_StrCaseFind (bytes "xxab") (bytes "abc")).
Proof.
  split; [apply (StrCaseFind_wrong (bytes "abc")); discriminate|].
  apply (proj2 (StrCaseFind_wrong (bytes "ab") ltac:(discriminate)) (bytes "xx") (bytes "c")). vm_compute. lia.
Defined.

(** The characters of a Host header value. *)
Definition host_char (c : Z) : bool := isalnum c || (c =? 58) || (c =? 91) || (c =? 93) || (c =? 46).

(** A Host header value is accepted exactly if it is made of letters, digits, colons,
    brackets and periods, and no two periods follow each other. *)
Lemma host_header_iff chars :
  Ns_StrIsValidHostHeaderContent chars = true <->
  forallb host_char chars = true /\ (forall p q, chars <> p ++ [46; 46] ++ q).
Proof.
  induction chars as [|c chars IH]; [split; [|done]; intros _; split; [done|]; by intros [|? ?] q|].
  cbn [Ns_StrIsValidHostHeaderContent forallb].
  assert ((forall p q, c :: chars <> p ++ [46; 46] ++ q) <->
    ~ (c = 46 /\ nth 0 chars 0 = 46) /\ (forall p q, chars <> p ++ [46; 46] ++ q)) as Hdots.
  { split.
    - intros H. split; [|intros p q ->; by apply (H (c :: p) q)]. intros [-> E]. destruct chars as [|d chars]; [done|].
      cbn in E. subst d. by apply (H [] chars).
    - intros [H1 H2] [|d p] q E; [by injection E as -> ->; apply H1|]. injection E as -> ->. by apply (H2 p q). }
  rewrite Hdots. unfold host_char at 1. destruct (isalnum c) eqn:Ea.
  - assert (c <> 46) by (intros ->; done). cbn [negb andb orb]. rewrite IH. tauto.
  - destruct (Z.eqb_spec c 58), (Z.eqb_spec c 91), (Z.eqb_spec c 93), (Z.eqb_spec c 46), (Z.eqb_spec (nth 0 chars 0) 46);
      subst; cbn [negb andb orb]; rewrite ?IH; (split; [intros H|intros [H ?]]); try done; try (split; [tauto|split; [by intros [? ?]|tauto]]); try tauto.
Qed.

(** Escaping terminates and can be undone: the escaped text has no line break and no
    tab, and removing the escapes gives the input back. *)
Theorem AppendEscaped_roundtrip ds inputString :
  exists out, Ns_DStringAppendEscaped ds inputString = Some (ds ++ out) /\
    unescape false out = inputString /\ forallb printable_quoted out = true.
Proof.
  exists (concat (escape1 <$> inputString)). split_and!.
  - apply escape_loop_spec. lia.
  - apply unescape_escape.
  - apply escape_clean.
Qed.

(** ** Reading printed numbers

    [strtol] reads back what [printf] has printed, when no digit follows. *)

Definition at_digit (s : list Z) : bool := match s with c :: _ => isdigit c | [] => false end.

Lemma isdigit_val c : isdigit c = true -> digit_val 10 c = Some (c - 48).
Proof. intros H. unfold digit_val. rewrite H. apply isdigit_range in H. by rewrite (proj2 (Z.ltb_lt _ _)) by lia. Qed.

Lemma strto_digits s : at_digit s = true -> strto 10 s = Some (false, (digits 10 0 s).1, (digits 10 0 s).2).
Proof.
  destruct s as [|c s]; [done|]. cbn [at_digit]. intros H. pose proof (isdigit_val c H) as Hv. apply isdigit_range in H.
  unfold strto. assert (Ht : Ns_StrTrimLeft (c :: s) = c :: s).
  { cbn. unfold isspace. zcases; try lia; done. }
  rewrite Ht. cbn [read_sign]. rewrite (proj2 (Z.eqb_neq c 45)), (proj2 (Z.eqb_neq c 43)) by lia.
  assert (Hs : skip_0x 10 (c :: s) = c :: s) by by destruct s.
  rewrite Hs. cbn [starts_digit]. rewrite Hv. by destruct (digits 10 0 (c :: s)).
Qed.

Definition no_digit (s : list Z) : Prop := at_digit s = false.

Lemma digits_stop acc s : no_digit s -> digits 10 acc s = (acc, s).
Proof.
  destruct s as [|c s]; [done|]. unfold no_digit. cbn. intros H. destruct (digit_val 10 c) eqn:E; [|done].
  unfold digit_val in E. rewrite H in E. unfold islower, isupper in E. zcases; try done; lia.
Qed.

Lemma dec_digits_spec fuel n tail :
  0 <= n < 10 ^ Z.of_nat fuel -> (0 < fuel)%nat ->
  exists ds, dec_digits fuel n tail = ds ++ tail /\ at_digit ds = true /\
    forall acc rest, digits 10 acc (ds ++ rest) = digits 10 (acc * 10 ^ Z.of_nat (length ds) + n) rest.
Proof.
  revert n tail. induction fuel as [|fuel IH]; intros n tail Hn Hf; [lia|]. cbn [dec_digits].
  assert (Hone : forall d, 0 <= d < 10 -> forall acc rest, digits 10 acc (48 + d :: rest) = digits 10 (acc * 10 + d) rest).
  { intros d Hd acc rest. cbn [digits]. rewrite isdigit_val by (apply isdigit_range; lia). do 2 f_equal. lia. }
  destruct (Z.ltb_spec n 10).
  - exists [48 + n]. split_and!; [done|apply isdigit_range; lia|]. intros acc rest. cbn [app]. rewrite Hone by lia.
    change (10 ^ Z.of_nat (length [48 + n])) with 10. done.
  - rewrite Nat2Z.inj_succ, Z.pow_succ_r in Hn by lia.
    assert (Hq : 0 < n / 10 < 10 ^ Z.of_nat fuel).
    { split; [apply Z.div_str_pos; lia|apply Z.div_lt_upper_bound; lia]. }
    destruct fuel as [|fuel]; [cbn in Hq; lia|].
    destruct (IH (n / 10) (48 + n mod 10 :: tail)) as (ds & -> & Hd & HD); [lia|lia|].
    exists (ds ++ [48 + n mod 10]). rewrite <- app_assoc. split_and!; [done|by destruct ds|].
    intros acc rest. rewrite <- app_assoc, HD. cbn [app]. rewrite Hone by (apply Z.mod_pos_bound; lia).
    f_equal. rewrite length_app, Nat2Z.inj_add. cbn [length]. rewrite Z.pow_add_r by lia. change (10 ^ Z.of_nat 1) with 10.
    pose proof (Z.div_mod n 10 ltac:(lia)). lia.
Qed.

Lemma strtol_dec n rest :
  0 <= n < 2 ^ 63 -> no_digit rest -> at_digit (dec n ++ rest) = true /\ strtol (dec n ++ rest) 10 = (n, rest, false).
Proof.
  intros Hn Hr. destruct (dec_digits_spec 20 n []) as (ds & Hds & Hd & HD); [cbn; lia|lia|].
  rewrite app_nil_r in Hds. unfold dec. rewrite Hds.
  assert (Ha : at_digit (ds ++ rest) = true) by by destruct ds.
  split; [done|]. unfold strtol. rewrite strto_digits, HD, digits_stop by done. cbn [fst snd].
  unfold LONG_MIN, LONG_MAX. rewrite Z.mul_0_l, Z.add_0_l. zcases; try lia; done.
Qed.

Lemma strstr_length s needle s' : strstr s needle = Some s' -> (length s' <= length s)%nat.
Proof.
  revert s'. induction s as [|c s IH]; intros s'; cbn [strstr]; case_bool_decide; try (by intros [= <-]).
  intros ?%IH. cbn. lia.
Qed.
