(* ===== verification/AcceptEncoding.v ===== *)
(** * AcceptEncoding: the choice of a content coding from Accept-Encoding (nsd/request.c).

    Quality values and HTTP versions are C doubles: [strtod] is modelled with the IEEE
    binary64 operations of the standard library, so that a comparison in the source is a
    comparison of rounded values here. *)

From Stdlib Require Import SpecFloat.
From S2P Require Import Prelude Str.

(** ** Doubles *)

Definition double : Type := spec_float.

#[export] Instance double_eq_dec : EqDecision double.
Proof. unfold double. solve_decision. Defined.

Definition prec64 : Z := 53.
Definition emax64 : Z := 1024.

(** The double nearest to [m * 10 ^ k], with a sign. *)
Definition decimal (neg : bool) (m k : Z) : double :=
  match m with
  | Zpos p =>
      if 0 <=? k then
        match m * 10 ^ k with Zpos p => binary_round prec64 emax64 neg p 0 | _ => S754_zero neg end
      else
        let '(q, e, l) := SFdiv_core_binary prec64 emax64 (Zpos p) 0 (10 ^ (- k)) 0 in
        binary_round_aux prec64 emax64 neg q e l
  | _ => S754_zero neg
  end.

(** The double nearest to [m * 2 ^ k], with a sign. *)
Definition binary (neg : bool) (m k : Z) : double :=
  match m with Zpos p => binary_round prec64 emax64 neg p k | _ => S754_zero neg end.

(** [e] or [p] and a decimal exponent, 0 if there is none. *)
Definition exponent (letter : Z) (l : list Z) : Z :=
  match l with
  | c :: rest =>
      if tolower c =? letter then
        let '(neg, rest) := read_sign rest in
        if starts_digit 10 rest then let '(e, _) := digits 10 0 rest in if neg then - e else e else 0
      else 0
  | [] => 0
  end.

(** The digits of a number with a point: the value without the point, the number of digits
    behind it, and the rest; [None] without a digit. *)
Definition pointed (base : Z) (l : list Z) : option (Z * Z * list Z) :=
  let '(m, rest) := digits base 0 l in
  let '(m', frac, rest') :=
    match rest with
    | c :: r => if c =? 46 then let '(m', r') := digits base m r in (m', Z.of_nat (length r - length r'), r') else (m, 0, rest)
    | [] => (m, 0, rest)
    end in
  if (Z.of_nat (length l - length rest) =? 0) && (frac =? 0) then None else Some (m', frac, rest').

Definition has_prefix (word l : list Z) : bool := bool_decide (tolower <$> take (length word) l = word).

(** C's [strtod]; the end of the number is not used. *)
Definition strtod (s : list Z) : double :=
  let '(neg, l) := read_sign (Ns_StrTrimLeft s) in
  if has_prefix (bytes "inf") l then S754_infinity neg
  else if has_prefix (bytes "nan") l then S754_nan
  else
    match (if has_prefix (bytes "0x") l then pointed 16 (drop 2 l) else None) with
    | Some (m, frac, rest) => binary neg m (exponent 112 rest - 4 * frac)
    | None =>
        match pointed 10 l with
        | Some (m, frac, rest) => decimal neg m (exponent 101 rest - frac)
        | None => S754_zero false
        end
    end.

(** The comparisons [a < b] and [a >= b] of doubles. *)
Definition dlt (a b : double) : bool := SFltb a b.
Definition dge (a b : double) : bool := SFleb b a.

(** A literal of the source. *)
Definition lit (s : string) : double := strtod (bytes s).

(** ** Quality values *)

Fixpoint skip_blanks (s : list Z) : list Z :=
  match s with c :: rest => if c =? 32 then skip_blanks rest else s | [] => [] end.

(** Blanks and then the character [c]. *)
Definition expect (c : Z) (s : list Z) : option (list Z) :=
  match skip_blanks s with x :: rest => if x =? c then Some rest else None | [] => None end.

(** At most [n] digits. *)
Fixpoint skip_digits (n : nat) (s : list Z) : list Z :=
  match n, s with
  | S n, c :: rest => if isdigit c then skip_digits n rest else s
  | _, _ => s
  end.

(** The string from the number on and the length of the number. *)
Definition GetQvalue (str : list Z) : option (list Z * Z) :=
  s ← expect 59 str;
  s ← expect 113 s;
  s ← expect 61 s;
  let resultString := skip_blanks s in
  match resultString with
  | c :: s =>
      if isdigit c then
        let s := match s with p :: s' => if p =? 46 then skip_digits 3 s' else s | [] => [] end in
        match s with
        | [] => Some (resultString, Z.of_nat (length resultString))
        | t :: _ =>
            if (t =? 32) || (t =? 44) || (t =? 59) then Some (resultString, Z.of_nat (length resultString) - Z.of_nat (length s))
            else None
        end
      else None
  | [] => None
  end.

(** Whether the format was found, and its quality value. *)
Definition GetEncodingFormat (encodingString encodingFormat : list Z) : bool * double :=
  match strstr encodingString encodingFormat with
  | Some encodingStr =>
      match GetQvalue (drop (length encodingFormat) encodingStr) with
      | Some (q, _) => (true, strtod q)
      | None => (true, lit "1.0")
      end
  | None => (false, lit "-1.0")
  end.

Definition CompressAllow (compressQvalue identityQvalue starQvalue : double) : bool :=
  if dlt (lit "0.999") compressQvalue then true
  else if dlt compressQvalue (lit "0.0009") then false
  else if dge identityQvalue (lit "-1.0") then dge compressQvalue identityQvalue
  else if dge starQvalue (lit "-1.0") then dge compressQvalue starQvalue
  else true.

(** Whether gzip and brotli are accepted. *)
Definition NsParseAcceptEncoding (version : double) (hdr : list Z) : bool * bool :=
  let '(gzipFormat, gzipQvalue) := GetEncodingFormat hdr (bytes "gzip") in
  let '(brotliFormat, brotliQvalue) := GetEncodingFormat hdr (bytes "br") in
  let '(starFormat, starQvalue) := GetEncodingFormat hdr (bytes "*") in
  let '(_, identityQvalue) := GetEncodingFormat hdr (bytes "identity") in
  if gzipFormat || brotliFormat then
    (CompressAllow gzipQvalue identityQvalue starQvalue, CompressAllow brotliQvalue identityQvalue starQvalue)
  else if starFormat then
    let accept :=
      if dlt starQvalue (lit "0.0009") then false
      else if dge identityQvalue (lit "-1") then dge starQvalue identityQvalue && dge version (lit "1.1")
      else dge version (lit "1.1") in
    (accept, accept)
  else (false, false).

(** ** Quality values are exact

    Quality values have at most three digits behind the point, so they are thousandths;
    rounding them to doubles neither merges nor reorders them. *)

(** The digits behind the point of a number in thousandths. *)
Fixpoint fraction (weight : Z) (s : list Z) : Z :=
  match s with
  | c :: rest => if (0 <? weight) && isdigit c then (c - 48) * weight + fraction (weight / 10) rest else 0
  | [] => 0
  end.

Definition thousandths (q : list Z) : Z :=
  match q with
  | d :: p :: s => 1000 * (d - 48) + (if p =? 46 then fraction 100 s else 0)
  | [d] => 1000 * (d - 48)
  | [] => 0
  end.

(** The quality of a coding: 1000 if it is named without one, -1000 if it is not named. *)
Definition quality (hdr format : list Z) : Z :=
  match strstr hdr format with
  | Some s => match GetQvalue (drop (length format) s) with Some (q, _) => thousandths q | None => 1000 end
  | None => -1000
  end.

Definition accepts (q identity : Z) : bool := (999 <? q) || (0 <? q) && (identity <=? q).

Definition named_coding (hdr format : list Z) : bool := bool_decide (is_Some (strstr hdr format)).

(** The rule in integers; the quality of [*] only counts if neither coding is named. *)
Definition accept_rule (version : double) (hdr : list Z) : bool * bool :=
  let identity := quality hdr (bytes "identity") in
  if named_coding hdr (bytes "gzip") || named_coding hdr (bytes "br") then
    (accepts (quality hdr (bytes "gzip")) identity, accepts (quality hdr (bytes "br")) identity)
  else
    let star := quality hdr (bytes "*") in
    let accept := (0 <? star) && (identity <=? star) && dge version (lit "1.1") in
    (accept, accept).

(** A number of thousandths as a double. *)
Definition milli (t : Z) : double := decimal false t (-3).

Definition range (n : nat) : list Z := Z.of_nat <$> seq 0 n.

Lemma range_elem n t : 0 <= t < Z.of_nat n -> t ∈ range n.
Proof.
  intros. apply list_elem_of_fmap. exists (Z.to_nat t). split; [lia|]. apply elem_of_seq. lia.
Qed.

(** The doubles above zero are ordered as their exponents and then their mantissas. *)
Definition key (f : double) : Z :=
  match f with S754_finite false m e => e * 2 ^ 53 + Zpos m | _ => - 2 ^ 100 end.
Definition keyed (f : double) : bool :=
  match f with
  | S754_zero false => true
  | S754_finite false m e => (Zpos m <? 2 ^ 53) && (- 2000 <? e)
  | _ => false
  end.

Lemma compare_key f g : keyed f = true -> keyed g = true -> SFcompare f g = Some (key f ?= key g).
Proof.
  assert (H0 : forall m e, (Zpos m <? 2 ^ 53) && (- 2000 <? e) = true -> - 2 ^ 100 < e * 2 ^ 53 + Zpos m) by (intros m e; zcases; lia).
  destruct f as [[]| | |[] m e], g as [[]| | |[] m' e']; intros Hf Hg; try done; cbn [SFcompare key keyed] in *; f_equal; symmetry.
  - apply Z.compare_lt_iff. by apply H0.
  - apply Z.compare_gt_iff. by apply H0.
  - change (Pos.compare_cont Eq m m') with (Z.pos m ?= Z.pos m'). revert Hf Hg. zcases; try done. intros _ _.
    destruct (Z.compare_spec e e') as [->| |]; [|apply Z.compare_lt_iff|apply Z.compare_gt_iff]; [|lia..].
    rewrite Z.add_compare_mono_l. done.
Qed.

Lemma milli_facts : forallb (fun t => keyed (milli t) && (key (milli t) <? key (milli (t + 1)))) (range (Z.to_nat 10000)) = true.
Proof. vm_compute. reflexivity. Qed.

Lemma milli_step t : 0 <= t < 10000 -> keyed (milli t) = true /\ key (milli t) < key (milli (t + 1)).
Proof.
  intros Ht. pose proof (proj1 (List.forallb_forall _ _) milli_facts t) as H.
  apply andb_prop in H as [? ?%Z.ltb_lt]; [done|]. apply list_elem_of_In, range_elem. lia.
Qed.

Lemma milli_mono a b : 0 <= a < b -> b < 10000 -> key (milli a) < key (milli b).
Proof.
  intros Ha Hb. replace b with (a + 1 + Z.of_nat (Z.to_nat (b - a - 1))) in * by lia.
  induction (Z.to_nat (b - a - 1)) as [|n IH]; [rewrite Z.add_0_r; apply milli_step; lia|].
  etrans; [apply IH; lia|]. replace (a + 1 + Z.of_nat (S n)) with (a + 1 + Z.of_nat n + 1) by lia. apply milli_step. lia.
Qed.

(** Comparisons of thousandths, and of the -1 that stands for a coding that is not named. *)
Definition as_double (t : Z) : double := if t =? -1000 then lit "-1.0" else milli t.
Definition is_quality (t : Z) : Prop := t = -1000 \/ 0 <= t < 10000.

Lemma milli_le a b : 0 <= a < 10000 -> 0 <= b < 10000 -> SFleb (milli a) (milli b) = (a <=? b).
Proof.
  intros Ha Hb. unfold SFleb. rewrite compare_key by (by apply milli_step).
  destruct (Z.compare_spec (key (milli a)) (key (milli b))) as [E|E|E]; symmetry; apply Z.leb_le || apply Z.leb_gt.
  - destruct (Z.le_gt_cases a b); [done|]. pose proof (milli_mono b a). lia.
  - destruct (Z.le_gt_cases a b); [done|]. pose proof (milli_mono b a). lia.
  - destruct (Z.lt_trichotomy a b) as [|[->|]]; [pose proof (milli_mono a b); lia|lia|lia].
Qed.

Lemma milli_lt a b : 0 <= a < 10000 -> 0 <= b < 10000 -> SFltb (milli a) (milli b) = (a <? b).
Proof.
  intros Ha Hb. unfold SFltb. rewrite compare_key by (by apply milli_step).
  destruct (Z.compare_spec (key (milli a)) (key (milli b))) as [E|E|E]; symmetry; apply Z.ltb_lt || apply Z.ltb_ge.
  - destruct (Z.lt_trichotomy a b) as [|[->|]]; [pose proof (milli_mono a b); lia|lia|lia].
  - destruct (Z.lt_trichotomy a b) as [|[->|]]; [lia|lia|pose proof (milli_mono b a); lia].
  - destruct (Z.lt_trichotomy a b) as [|[->|]]; [pose proof (milli_mono a b); lia|lia|lia].
Qed.

Lemma minus_one_le t : 0 <= t < 10000 -> SFleb (lit "-1.0") (milli t) = true /\ SFleb (milli t) (lit "-1.0") = false /\ SFltb (milli t) (lit "-1.0") = false.
Proof.
  intros Ht. destruct (milli_step t Ht) as [Hk _]. change (lit "-1.0") with (S754_finite true 4503599627370496 (-52)).
  by destruct (milli t) as [[]|[]| |[] m e].
Qed.

Lemma as_double_milli t : 0 <= t -> as_double t = milli t.
Proof. intros. unfold as_double. destruct (Z.eqb_spec t (-1000)); [lia|done]. Qed.

(** The comparisons of the source in thousandths. *)
Lemma quality_comparisons q i : is_quality q -> is_quality i ->
  dlt (lit "0.999") (as_double q) = (999 <? q) /\
  dlt (as_double q) (lit "0.0009") = (q <? 1) /\
  dge (as_double i) (lit "-1.0") = true /\ dge (as_double q) (as_double i) = (i <=? q).
Proof.
  intros Hq Hi. unfold dlt, dge. split_and!.
  - destruct Hq as [->|Hq]; [done|]. rewrite as_double_milli by lia. change (lit "0.999") with (milli 999). by apply milli_lt.
  - destruct Hq as [->|Hq]; [done|]. rewrite as_double_milli by lia. unfold SFltb.
    rewrite compare_key by (done || by apply milli_step). destruct (Z.ltb_spec q 1); [by replace q with 0 by lia|].
    destruct (Z.compare_spec (key (milli q)) (key (lit "0.0009"))) as [E|E|E]; [..|done];
      (destruct (decide (q = 1)) as [->|]; [by vm_compute in E|]; pose proof (milli_mono 1 q);
       assert (key (lit "0.0009") < key (milli 1)) by (vm_compute; reflexivity); lia).
  - destruct Hi as [->|Hi]; [done|]. rewrite as_double_milli by lia. by apply minus_one_le.
  - destruct Hi as [->|Hi]; destruct Hq as [->|Hq]; change (as_double (-1000)) with (lit "-1.0");
      try rewrite (as_double_milli q) by lia; try rewrite (as_double_milli i) by lia; [done|..].
    + rewrite (proj2 (Z.leb_le _ _)) by lia. by apply minus_one_le.
    + rewrite (proj2 (Z.leb_gt _ _)) by lia. by apply minus_one_le.
    + by apply milli_le.
Qed.

Lemma CompressAllow_rule q i s : is_quality q -> is_quality i ->
  CompressAllow (as_double q) (as_double i) s = accepts q i.
Proof.
  intros Hq Hi. destruct (quality_comparisons q i Hq Hi) as (E1 & E2 & E3 & E4). unfold CompressAllow, accepts.
  rewrite E1, E2, E3, E4. zcases; done || lia.
Qed.

(** ** Reading a quality value *)

(** What the text of a quality value looks like. *)
Definition ends (rest : list Z) : Prop := match rest with [] => True | t :: _ => t = 32 \/ t = 44 \/ t = 59 end.
Definition qtext (q : list Z) : Prop :=
  exists d rest, isdigit d = true /\ ends rest /\
    (q = d :: rest \/ exists ds, Forall (fun c => isdigit c = true) ds /\ (length ds <= 3)%nat /\ q = d :: 46 :: ds ++ rest).

Lemma skip_digits_spec n s : exists ds, Forall (fun c => isdigit c = true) ds /\ (length ds <= n)%nat /\ s = ds ++ skip_digits n s.
Proof.
  revert s. induction n as [|n IH]; intros s; [by exists []|]. destruct s as [|c s]; [by exists []; split_and!; [|cbn; lia|]|].
  cbn [skip_digits]. destruct (isdigit c) eqn:E; [|by exists []; split_and!; [|cbn; lia|]].
  destruct (IH s) as (ds & Hd & Hl & Es). exists (c :: ds). split_and!; [by constructor|cbn; lia|]. cbn. by rewrite <- Es.
Qed.

Lemma GetQvalue_text s q n : GetQvalue s = Some (q, n) -> qtext q.
Proof.
  unfold GetQvalue. destruct (expect 59 s); [|done]. cbn [mbind option_bind]. destruct (expect 113 _); [|done]. cbn [mbind option_bind].
  destruct (expect 61 _); [|done]. cbn [mbind option_bind]. destruct (skip_blanks _) as [|d r]; [done|].
  destruct (isdigit d) eqn:Ed; [|done]. cbv zeta. intros H.
  assert (Hends : forall rest w, match rest with [] => Some (d :: r, w) | t :: _ =>
      if (t =? 32) || (t =? 44) || (t =? 59) then Some (d :: r, Z.of_nat (length (d :: r)) - Z.of_nat (length rest)) else None end = Some (q, n) ->
      q = d :: r /\ ends rest).
  { intros [|t rest] w; [by intros [= <- _]|]. destruct (_ || _) eqn:Et; [|done]. intros [= <- _]. split; [done|]. cbn. revert Et. zcases; try done; lia. }
  exists d. destruct r as [|p r].
  - apply (Hends [] _) in H as [-> ?]. exists []. split_and!; [done..|by left].
  - destruct (Z.eqb_spec p 46) as [->|].
    + apply (Hends _ _) in H as [-> He]. destruct (skip_digits_spec 3 r) as (ds & Hd & Hl & Es).
      exists (skip_digits 3 r). split_and!; [done..|]. right. exists ds. split_and!; [done..|]. by rewrite <- Es.
    + apply (Hends (p :: r) 0) in H as [-> He]. exists (p :: r). split_and!; [done..|by left].
Qed.

(** [strtod] on a run of digits and what follows it. *)
Lemma digits_run ds rest acc : Forall (fun c => isdigit c = true) ds -> starts_digit 10 rest = false ->
  digits 10 acc (ds ++ rest) = (foldl (fun a c => a * 10 + (c - 48)) acc ds, rest).
Proof.
  intros Hd Hr. revert acc. induction Hd as [|c ds Hc _ IH]; intros acc; cbn [app digits foldl].
  - destruct rest as [|c rest]; [done|]. cbn [starts_digit digits] in *. by destruct (digit_val 10 c).
  - unfold digit_val. rewrite Hc. apply isdigit_range in Hc. rewrite (proj2 (Z.ltb_lt _ _)) by lia. apply IH.
Qed.

Lemma ends_facts rest : ends rest -> starts_digit 10 rest = false /\ exponent 101 rest = 0 /\
  match rest with c :: _ => c <> 46 /\ c <> 120 /\ c <> 88 | [] => True end.
Proof. destruct rest as [|c rest]; [done|]. intros [-> | [-> | ->]]; done. Qed.

(** The number of a quality value. *)
Lemma strtod_digits d m k rest q : isdigit d = true -> q = d :: rest ->
  match rest with c :: _ => c <> 120 /\ c <> 88 | [] => True end ->
  (exists tail, pointed 10 q = Some (m, k, tail) /\ exponent 101 tail = 0) ->
  strtod q = decimal false m (- k).
Proof.
  intros Hd -> Hx (tail & Hp & He). pose proof Hd as Hr. apply isdigit_range in Hr. unfold strtod. cbn [Ns_StrTrimLeft].
  assert (isspace d = false) as -> by (unfold isspace; zcases; lia). cbn [read_sign].
  destruct (Z.eqb_spec d 45); [lia|]. destruct (Z.eqb_spec d 43); [lia|].
  assert (Hpre : forall w l, w <> tolower d -> has_prefix (w :: l) (d :: rest) = false).
  { intros w l Hw. apply bool_decide_eq_false. cbn. intros E. by injection E as <- _. }
  assert (tolower d = d) as Ed by (unfold tolower, isupper; zcases; lia).
  change (bytes "inf") with (105 :: bytes "nf"). change (bytes "nan") with (110 :: bytes "an"). rewrite !Hpre by lia.
  assert (has_prefix (bytes "0x") (d :: rest) = false) as ->.
  { change (bytes "0x") with [48; 120]. apply bool_decide_eq_false. destruct rest as [|c rest]; cbn; [done|]. intros E. injection E as _ E. destruct Hx as [? ?].
    revert E. unfold tolower, isupper. zcases; lia. }
  rewrite Hp, He. done.
Qed.

Lemma scale_facts : forallb (fun t => bool_decide (decimal false t 0 = milli (1000 * t))) (range (Z.to_nat 10)) &&
  forallb (fun t => bool_decide (decimal false t (-1) = milli (100 * t))) (range (Z.to_nat 100)) &&
  forallb (fun t => bool_decide (decimal false t (-2) = milli (10 * t))) (range (Z.to_nat 1000)) = true.
Proof. vm_compute. reflexivity. Qed.

Lemma scale_at (f : Z -> bool) n t : forallb f (range n) = true -> 0 <= t < Z.of_nat n -> f t = true.
Proof. intros H Ht. apply (proj1 (List.forallb_forall _ _) H). by apply list_elem_of_In, range_elem. Qed.

(** A number with one to three digits behind the point, as thousandths. *)
Lemma decimal_scale t k : (k <= 3)%nat -> 0 <= t < 10 ^ Z.of_nat (S k) -> decimal false t (- Z.of_nat k) = milli (t * 10 ^ (3 - Z.of_nat k)).
Proof.
  intros Hk Ht. pose proof scale_facts as [[H0 H1]%andb_prop H2]%andb_prop.
  destruct k as [|[|[|[|k]]]]; [..|lia].
  - apply (scale_at _ _ t) in H0; [|lia]. apply bool_decide_eq_true in H0. change (- Z.of_nat 0) with 0. rewrite H0. f_equal. lia.
  - apply (scale_at _ _ t) in H1; [|lia]. apply bool_decide_eq_true in H1. change (- Z.of_nat 1) with (-1). rewrite H1. f_equal. lia.
  - apply (scale_at _ _ t) in H2; [|lia]. apply bool_decide_eq_true in H2. change (- Z.of_nat 2) with (-2). rewrite H2. f_equal. lia.
  - unfold milli. f_equal. change (10 ^ (3 - Z.of_nat 3)) with 1. lia.
Qed.

(** The value of the digits [ds] behind the digits with the value [a]. *)
Definition append_digits (a : Z) (ds : list Z) : Z := foldl (fun a c => a * 10 + (c - 48)) a ds.

Lemma fraction_ends w rest : ends rest -> fraction w rest = 0.
Proof.
  destruct rest as [|c rest]; [done|]. intros He. cbn [fraction ends] in *. destruct (isdigit c) eqn:E; [|by rewrite andb_false_r].
  apply isdigit_range in E. lia.
Qed.

(** Up to three digits behind the point, in thousandths. *)
Lemma thousandths_digits d ds rest : isdigit d = true -> Forall (fun c => isdigit c = true) ds -> (length ds <= 3)%nat -> ends rest ->
  thousandths (d :: 46 :: ds ++ rest) = append_digits (d - 48) ds * 10 ^ (3 - Z.of_nat (length ds)) /\
  0 <= append_digits (d - 48) ds < 10 ^ Z.of_nat (S (length ds)).
Proof.
  intros Hd%isdigit_range Hds Hl He. cbn [thousandths]. rewrite Z.eqb_refl. unfold append_digits.
  destruct ds as [|c1 [|c2 [|c3 [|c4 ds]]]]; cbn [length] in Hl; [..|lia];
    repeat match goal with H : Forall _ (_ :: _) |- _ => apply Forall_cons in H as [?%isdigit_range H] end;
    cbn [app fraction foldl length];
    repeat match goal with H : 48 <= ?c <= 57 |- context [isdigit ?c] => rewrite (proj2 (isdigit_range c) H) end;
    change (100 / 10) with 10; change (10 / 10) with 1; change (1 / 10) with 0; cbn [andb Z.ltb Z.compare];
    rewrite fraction_ends by done.
  - change (3 - Z.of_nat 0) with 3. change (Z.of_nat 1) with 1. lia.
  - change (3 - Z.of_nat 1) with 2. change (Z.of_nat 2) with 2. lia.
  - change (3 - Z.of_nat 2) with 1. change (Z.of_nat 3) with 3. lia.
  - change (3 - Z.of_nat 3) with 0. change (Z.of_nat 4) with 4. lia.
Qed.

(** The digits of a quality value, without and with a point. *)
Lemma pointed_plain d rest : isdigit d = true -> ends rest -> pointed 10 (d :: rest) = Some (d - 48, 0, rest).
Proof.
  intros Hd He. destruct (ends_facts rest He) as (Hs & _ & Hc). unfold pointed.
  pose proof (digits_run [d] rest 0) as E. cbn [app foldl] in E. rewrite E by (done || by constructor).
  rewrite Z.mul_0_l, Z.add_0_l. assert (Hl : (Z.of_nat (length (d :: rest) - length rest) =? 0) = false) by (apply Z.eqb_neq; lens).
  destruct rest as [|c rest]; [by rewrite Hl|]. destruct (Z.eqb_spec c 46); [by destruct Hc|]. by rewrite Hl.
Qed.

Lemma pointed_fraction d ds rest : isdigit d = true -> Forall (fun c => isdigit c = true) ds -> ends rest ->
  pointed 10 (d :: 46 :: ds ++ rest) = Some (append_digits (d - 48) ds, Z.of_nat (length ds), rest).
Proof.
  intros Hd Hds He. destruct (ends_facts rest He) as (Hs & _ & _). unfold pointed.
  pose proof (digits_run [d] (46 :: ds ++ rest) 0) as E. cbn [app foldl] in E. rewrite E by (done || by constructor).
  rewrite Z.mul_0_l, Z.add_0_l, Z.eqb_refl, digits_run by done.
  assert (Hl : (Z.of_nat (length (d :: 46 :: ds ++ rest) - length (46 :: ds ++ rest)) =? 0) = false) by (apply Z.eqb_neq; lens).
  rewrite Hl. cbn [andb]. do 3 f_equal. lens.
Qed.

(** The text of a quality value is a number of thousandths, and [strtod] reads it as the
    double of that number. *)
Lemma strtod_qtext q : qtext q -> strtod q = milli (thousandths q) /\ 0 <= thousandths q < 10000.
Proof.
  intros (d & rest & Hd & He & Hq). pose proof Hd as Hr. apply isdigit_range in Hr. destruct (ends_facts rest He) as (Hs & Hex & Hc).
  destruct Hq as [->|(ds & Hds & Hl & ->)].
  - rewrite (strtod_digits d (d - 48) 0 rest); [|done..| |exists rest; by rewrite pointed_plain].
    2: { destruct rest as [|c ?]; [done|]. by destruct Hc. }
    change (- 0) with (- Z.of_nat 0). rewrite decimal_scale by (cbn; lia). change (10 ^ (3 - Z.of_nat 0)) with 1000.
    destruct rest as [|c rest]; cbn [thousandths]; [split; [f_equal; lia|lia]|].
    destruct (Z.eqb_spec c 46); [by destruct Hc|]. split; [f_equal; lia|lia].
  - rewrite (strtod_digits d (append_digits (d - 48) ds) (Z.of_nat (length ds)) (46 :: ds ++ rest));
      [|done..|exists rest; by rewrite pointed_fraction].
    destruct (thousandths_digits d ds rest) as [-> Hb]; [done..|]. rewrite decimal_scale by done. split; [done|].
    destruct (length ds) as [|[|[|[|n]]]]; [..|lia]; cbn in Hb |- *; lia.
Qed.

(** ** The rule *)

Lemma GetEncodingFormat_quality hdr format :
  GetEncodingFormat hdr format = (named_coding hdr format, as_double (quality hdr format)) /\ is_quality (quality hdr format) /\
  (named_coding hdr format = false -> quality hdr format = -1000).
Proof.
  unfold GetEncodingFormat, named_coding, quality, is_quality. destruct (strstr hdr format) as [s|].
  - rewrite bool_decide_eq_true_2 by eauto. destruct (GetQvalue _) as [[q n]|] eqn:E.
    + destruct (strtod_qtext q (GetQvalue_text _ _ _ E)) as [-> Hq]. rewrite as_double_milli by lia. split_and!; [done|lia|done].
    + split_and!; [done|lia|done].
  - rewrite bool_decide_eq_false_2 by (by intros [? ?]). split_and!; [done|lia|done].
Qed.

(** Content codings are negotiated exactly as with integers: comparing the quality
    values as doubles never merges or reorders the thousandths they stand for, a coding
    that is named is accepted iff its quality is at least that of identity (and not 0),
    and the quality of [*] is used only when neither gzip nor br is named. *)
Theorem AcceptEncoding_exact version hdr : NsParseAcceptEncoding version hdr = accept_rule version hdr.
Proof.
  unfold NsParseAcceptEncoding, accept_rule.
  destruct (GetEncodingFormat_quality hdr (bytes "gzip")) as (-> & Hg & _).
  destruct (GetEncodingFormat_quality hdr (bytes "br")) as (-> & Hb & _).
  destruct (GetEncodingFormat_quality hdr (bytes "*")) as (-> & Hs & Hn).
  destruct (GetEncodingFormat_quality hdr (bytes "identity")) as (-> & Hi & _).
  rewrite !CompressAllow_rule by done. destruct (_ || _); [done|].
  destruct (quality_comparisons _ _ Hs Hi) as (_ & E2 & E3 & E4).
  change (lit "-1") with (lit "-1.0"). rewrite E2, E3, E4. destruct (named_coding hdr (bytes "*")).
  - set (q := quality hdr (bytes "*")). destruct (Z.ltb_spec q 1), (Z.ltb_spec 0 q); done || lia.
  - by rewrite Hn.
Qed.

(** With "gzip;q=0.1, *;q=1", where the client prefers every other coding, gzip is chosen:
    the test for a missing identity, [>= -1.0], always holds. *)
Example star_quality_ignored : NsParseAcceptEncoding (lit "1.1") (bytes "gzip;q=0.1, *;q=1") = (true, false).
Proof. vm_compute. reflexivity. Qed.
