(* ===== verification/Range.v ===== *)
(** * Range: byte ranges of a response, nsd/range.c.

    [ParseRangeOffsets] reads the Range header into an array of ranges,
    [NsConnParseRange] turns the ranges into the vector of memory and file ranges
    that [Ns_ConnSendFileVec] sends (SendVec).  The headers of the request are
    arguments, those of the reply part of the result; writing outside of an array
    is [None]. *)

From S2P Require Import Prelude Str HttpTime SendVec.

Record Range := mkRange { start : Z; end_ : Z }.

Definition NS_MAX_RANGES : Z := 32.

(** The cast of a [size_t] to [off_t]. *)
Definition off_t (z : Z) : Z := (z + 2 ^ 63) mod 2 ^ 64 - 2 ^ 63.

(** The syntax of one range: its bounds and what follows it, or [None] for a syntax
    error. *)
Definition range_spec (objLength : Z) (s : list Z) : option (Z * Z * list Z) :=
  if at_digit s then
    let '(st, s, _) := strtol s 10 in
    match s with
    | c :: s =>
        if c =? 45 then
          if at_digit s then
            let '(e, s, _) := strtol s 10 in
            Some (st, if off_t objLength <=? e then off_t objLength - 1 else e, s)
          else Some (st, off_t objLength - 1, s)
        else None
    | [] => None
    end
  else match s with
  | c :: s =>
      if c =? 45 then
        if at_digit s then
          let '(e, s, _) := strtol s 10 in
          let e := if off_t objLength <=? e then off_t objLength else e in
          let st := off_t objLength - e in
          Some (st, st + e - 1, s)
        else None
      else None
  | [] => None
  end.

(** The check of the end of a range. *)
Definition range_end (s : list Z) : option (list Z) :=
  match s with
  | [] => Some []
  | c :: s => if c =? 44 then Some s else None
  end.

(** The end of the loop: the number of ranges with the array, 416 (-1), or the header
    is ignored (0). *)
Inductive RangeResult := Ranges (count : Z) (ranges : list Range) | NotSatisfiable | Ignored.

Definition far_apart (this prev : Range) : bool :=
  (end_ prev + 1 <? start this) || (negb (start prev =? 0) && (end_ this <? start prev - 1)).

(** Every round consumes a character of the string. *)
Fixpoint range_loop (fuel : nat) (s : list Z) (objLength maxRanges : Z) (ranges : list Range) (rangeCount : Z)
    (prevPtr : option Z) : option RangeResult :=
  match s with
  | [] => Some (Ranges rangeCount ranges)
  | _ =>
      match fuel with
      | O => None
      | S fuel =>
          if rangeCount =? maxRanges then Some (Ranges rangeCount ranges) else
          match range_spec objLength s with
          | None => Some Ignored
          | Some (st, e, s) =>
              match range_end s with
              | None => Some Ignored
              | Some s =>
                  let this := mkRange st e in
                  ranges ← aset ranges rangeCount this;
                  if off_t objLength <=? st then Some NotSatisfiable else
                  if e <? st then Some Ignored else
                  match prevPtr with
                  | None => range_loop fuel s objLength maxRanges ranges (rangeCount + 1) (Some rangeCount)
                  | Some i =>
                      prev ← aget ranges i;
                      if far_apart this prev
                      then range_loop fuel s objLength maxRanges ranges (rangeCount + 1) (Some rangeCount)
                      else
                        ranges ← aset ranges i (mkRange (Z.min (start prev) st) (Z.max (end_ prev) e));
                        range_loop fuel s objLength maxRanges ranges rangeCount prevPtr
                  end
              end
          end
      end
  end.

(** [ranges] is the uninitialised array of the caller. *)
Definition ParseRangeOffsets (rangeHeader : option (list Z)) (objLength : Z) (ranges : list Range) (maxRanges : Z)
  : option RangeResult :=
  match rangeHeader with
  | None => Some (Ranges 0 ranges)
  | Some h =>
      match strstr h (bytes "bytes=") with
      | None => Some Ignored
      | Some s => range_loop (length s) (drop 6 s) objLength maxRanges ranges 0 None
      end
  end.

(** [mtime > Ns_ParseHttpTime(hdr)]: the content has changed. *)
Definition MatchRange (rangeHeader ifRange : option (list Z)) (mtime : Z) : option bool :=
  match rangeHeader, ifRange with
  | Some _, Some hdr => t ← Ns_ParseHttpTime hdr; Some (negb (t <? mtime))
  | _, _ => Some true
  end.

(** ** The reply *)

Definition boundary : list Z := bytes "NaviServerNaviServerNaviServer".
Definition content_range (r : Range) (objLength : Z) : list Z :=
  bytes "bytes " ++ dec (start r) ++ bytes "-" ++ dec (end_ r) ++ bytes "/" ++ dec objLength.

Definition AppendMultipartRangeHeader (ds type : list Z) (r : Range) (objLength : Z) : list Z * Z :=
  let h := bytes "--" ++ boundary ++ CRLF ++ bytes "content-type: " ++ type ++ CRLF
           ++ bytes "content-range: " ++ content_range r objLength ++ CRLF ++ CRLF in
  (ds ++ h, Z.of_nat (length h)).

Definition AppendMultipartRangeTrailer (ds : list Z) : list Z * Z :=
  let t := bytes "--" ++ boundary ++ bytes "--" ++ CRLF in (ds ++ t, Z.of_nat (length t)).

(** What the connection is told: the status, the Content-Range header or the type
    multipart/byteranges, the Content-Length, and the vectors to send. *)
Record RangeReply := mkReply {
  rangeCount : Z;
  status : option Z;
  contentRange : option (list Z);
  multipart : bool;
  contentLength : option Z;
  bufs : list FileVec;
  nbufs : Z
}.

(** The first loop: the headers of the parts, against base 0. *)
Fixpoint header_loop (rs : list Range) (type : list Z) (objLength v dsbase len : Z) (ds : list Z) (b : list FileVec)
  : option (list FileVec * Z * Z * Z * list Z) :=
  match rs with
  | [] => Some (b, v, dsbase, len, ds)
  | r :: rs =>
      let '(ds, n) := AppendMultipartRangeHeader ds type r objLength in
      let len := len + n in
      '(b, k) ← Ns_SetFileVec b v (-1) None dsbase len;
      header_loop rs type objLength (v + 2) (dsbase + k) 2 (ds ++ CRLF) b
  end.

(** The second loop: the headers with their memory, and the data between them. *)
Fixpoint rebase_loop (rs : list Range) (fd : Z) (data : option (list Z)) (ds : list Z) (v responseLength : Z)
    (b : list FileVec) : option (list FileVec * Z * Z) :=
  match rs with
  | [] => Some (b, v, responseLength)
  | r :: rs =>
      h ← aget b v;
      '(b, k1) ← Ns_SetFileVec b v (-1) (Some ds) (offset h) (length_ h);
      '(b, k2) ← Ns_SetFileVec b (v + 1) fd data (start r) (end_ r - start r + 1);
      rebase_loop rs fd data ds (v + 2) (responseLength + k1 + k2) b
  end.

(** The branch for several ranges: the vectors and the length of the response. *)
Definition multipart_vectors (rs : list Range) (type : list Z) (fd : Z) (data : option (list Z)) (objLength : Z)
    (b : list FileVec) : option (list FileVec * Z) :=
  '(b, v, dsbase, len, ds) ← header_loop rs type objLength 0 0 0 [] b;
  let '(ds, n) := AppendMultipartRangeTrailer ds in
  '(b, _) ← Ns_SetFileVec b v (-1) None dsbase (len + n);
  '(b, v, responseLength) ← rebase_loop rs fd data ds 0 0 b;
  t ← aget b v;
  '(b, k) ← Ns_SetFileVec b v (-1) (Some ds) (offset t) (length_ t);
  Some (b, responseLength + k).

Definition NsConnParseRange (rangeHeader ifRange : option (list Z)) (mtime : Z) (type : list Z) (fd : Z)
    (data : option (list Z)) (objLength : Z) (ranges : list Range) (b : list FileVec) : option RangeReply :=
  matching ← MatchRange rangeHeader ifRange mtime;
  result ← (if matching : bool then ParseRangeOffsets rangeHeader objLength ranges NS_MAX_RANGES
            else Some (Ranges 0 ranges));
  match result with
  | NotSatisfiable => Some (mkReply (-1) (Some 416) (Some (bytes "bytes */" ++ dec objLength)) false None b 0)
  | Ignored => Some (mkReply 0 None None false None b 0)
  | Ranges count ranges =>
      if count <? 1 then Some (mkReply count None None false None b 0)
      else if count =? 1 then
        r ← aget ranges 0;
        '(b, responseLength) ← Ns_SetFileVec b 0 fd data (start r) (end_ r - start r + 1);
        Some (mkReply count (Some 206) (Some (content_range r objLength)) false (Some responseLength) b 1)
      else
        rs ← aslice ranges 0 count;
        '(b, responseLength) ← multipart_vectors rs type fd data objLength b;
        Some (mkReply count (Some 206) None true (Some responseLength) b (count * 2 + 1))
  end.

(** ** Reading numbers *)

Lemma digits_value l acc :
  0 <= acc -> let '(m, rest) := digits 10 acc l in
  0 <= m /\ (length rest <= length l)%nat /\ (starts_digit 10 l = true -> (length rest < length l)%nat).
Proof.
  revert acc. induction l as [|c l IH]; intros acc Ha; cbn [digits starts_digit]; [done|].
  destruct (digit_val 10 c) as [d|] eqn:Hd; [|split; [done|split; [lia|done]]].
  assert (0 <= d).
  { unfold digit_val in Hd. destruct (_ <? 10) eqn:Hx in Hd; [|done]. injection Hd as <-.
    unfold isdigit, islower, isupper in *. zcases; lia. }
  specialize (IH (acc * 10 + d) ltac:(lia)). destruct (digits 10 _ l) as [m rest].
  destruct IH as (? & ? & _). split; [done|]. cbn [length]. split; intros; lia.
Qed.

Lemma strtol_at_digit s :
  at_digit s = true ->
  exists v rest er, strtol s 10 = (v, rest, er) /\ 0 <= v < 2 ^ 63 /\ (length rest < length s)%nat.
Proof.
  intros H. unfold strtol. rewrite strto_digits by done.
  pose proof (digits_value s 0 ltac:(lia)) as HS. destruct (digits 10 0 s) as [m rest]. cbn [fst snd].
  destruct HS as (Hm & _ & Hl). assert (starts_digit 10 s = true).
  { destruct s as [|c s]; [done|]. cbn in *. by rewrite isdigit_val. }
  unfold LONG_MIN, LONG_MAX. zcases; eexists _, _, _; (split; [reflexivity|]); (split; [lia|auto]).
Qed.

Lemma off_t_id z : 0 <= z < 2 ^ 63 -> off_t z = z.
Proof. intros. unfold off_t. rewrite Z.mod_small; lia. Qed.

(** ** The ranges are within the object *)

Definition valid (objLength : Z) (r : Range) : Prop := 0 <= start r /\ start r <= end_ r < objLength.

Lemma range_spec_ok L s :
  0 <= L < 2 ^ 63 ->
  match range_spec L s with
  | Some (st, e, s') => 0 <= st /\ e < L /\ (length s' < length s)%nat
  | None => True
  end.
Proof.
  intros HL. unfold range_spec. rewrite off_t_id by done. destruct (at_digit s) eqn:Hd.
  - destruct (strtol_at_digit s Hd) as (v & rest & er & -> & Hv & Hr). destruct rest as [|c rest]; [done|].
    destruct (c =? 45); [|done]. cbn [length] in Hr. destruct (at_digit rest) eqn:Hd2; [|split_and!; lia].
    destruct (strtol_at_digit rest Hd2) as (v2 & rest2 & er2 & -> & Hv2 & Hr2). zcases; split_and!; lia.
  - destruct s as [|c s]; [done|]. destruct (c =? 45); [|done]. destruct (at_digit s) eqn:Hd2; [|done].
    destruct (strtol_at_digit s Hd2) as (v2 & rest2 & er2 & -> & Hv2 & Hr2). cbn [length]. zcases; split_and!; lia.
Qed.

Lemma range_end_ok s s' : range_end s = Some s' -> (length s' <= length s)%nat.
Proof. destruct s as [|c s]; cbn; [by intros [= <-]|]. destruct (c =? 44); [|done]. intros [= <-]. lia. Qed.

Definition result_ok (L maxRanges : Z) (r : RangeResult) : Prop :=
  match r with
  | Ranges n l => 0 <= n <= maxRanges /\ maxRanges <= Z.of_nat (length l) /\
      forall i r, 0 <= i < n -> aget l i = Some r -> valid L r
  | _ => True
  end.

Lemma aset_Some {A} (l : list A) i x :
  0 <= i < Z.of_nat (length l) -> exists l', aset l i x = Some l' /\ length l' = length l /\
    forall j, aget l' j = if j =? i then Some x else aget l j.
Proof.
  intros Hi. exists (<[Z.to_nat i := x]> l). split_and!.
  - rewrite <- (Z2Nat.id i) at 1 by lia. by rewrite aset_nat by lia.
  - lens.
  - intros j. unfold aget. destruct (Z.eqb_spec j i) as [->|Hj].
    + destruct (Z.ltb_spec i 0); [lia|]. apply list_lookup_insert_eq. lia.
    + destruct (Z.ltb_spec j 0); [done|]. apply list_lookup_insert_ne. lia.
Qed.

Lemma aget_is_Some {A} (l : list A) i : 0 <= i < Z.of_nat (length l) -> exists x, aget l i = Some x.
Proof. intros. unfold aget. destruct (Z.ltb_spec i 0); [lia|]. apply lookup_lt_is_Some_2. lia. Qed.

Lemma range_loop_ok fuel s L maxRanges ranges n prev :
  0 <= L < 2 ^ 63 -> (length s <= fuel)%nat -> result_ok L maxRanges (Ranges n ranges) ->
  (forall i, prev = Some i -> 0 <= i < n) ->
  exists r, range_loop fuel s L maxRanges ranges n prev = Some r /\ result_ok L maxRanges r.
Proof.
  intros HL. revert s ranges n prev.
  induction fuel as [|fuel IH]; intros s ranges n prev Hf Hok Hprev; destruct s as [|c s]; cbn [length] in Hf; try lia;
    cbn [range_loop]; try (by eexists).
  destruct (Z.eqb_spec n maxRanges); [by eexists|]. destruct Hok as (Hn & Hlen & Hval).
  pose proof (range_spec_ok L (c :: s) HL) as Hspec. destruct (range_spec L (c :: s)) as [[[st e] s1]|]; [|by eexists].
  destruct Hspec as (Hst & He & Hl1). destruct (range_end s1) as [s2|] eqn:Hend; [|by eexists].
  apply range_end_ok in Hend. cbn [length] in Hl1.
  destruct (aset_Some ranges n (mkRange st e)) as (ranges1 & -> & Hlen1 & Hget1); [lia|]. cbn [mbind option_bind].
  rewrite off_t_id by done. destruct (Z.leb_spec L st); [by eexists|]. destruct (Z.ltb_spec e st); [by eexists|].
  assert (Hok1 : result_ok L maxRanges (Ranges (n + 1) ranges1)).
  { split; [lia|]. split; [lia|]. intros i r Hi. rewrite Hget1. destruct (Z.eqb_spec i n); [|apply Hval; lia].
    intros [= <-]. split; cbn; lia. }
  assert (Hnew : exists r, range_loop fuel s2 L maxRanges ranges1 (n + 1) (Some n) = Some r /\ result_ok L maxRanges r).
  { apply IH; [lia|done|]. intros i [= <-]. lia. }
  destruct prev as [i|]; [|done]. specialize (Hprev i eq_refl).
  destruct (aget_is_Some ranges i) as [pr Hpr]; [lia|].
  assert (Hgi : aget ranges1 i = Some pr) by (rewrite Hget1; destruct (Z.eqb_spec i n); [lia|done]).
  rewrite Hgi. cbn [mbind option_bind]. destruct (far_apart _ _); [done|].
  destruct (aset_Some ranges1 i (mkRange (Z.min (start pr) st) (Z.max (end_ pr) e))) as (ranges2 & -> & Hlen2 & Hget2); [lia|].
  cbn [mbind option_bind]. apply IH; [lia| |intros j [= <-]; lia].
  split; [lia|]. split; [lia|]. intros j r Hj. rewrite Hget2. destruct (Z.eqb_spec j i).
  - intros [= <-]. destruct (Hval i pr Hprev Hpr) as [? ?]. split; cbn; lia.
  - rewrite Hget1. destruct (Z.eqb_spec j n); [lia|]. by apply Hval.
Qed.

Lemma ParseRangeOffsets_ok hdr L ranges maxRanges :
  0 <= L < 2 ^ 63 -> 0 <= maxRanges <= Z.of_nat (length ranges) ->
  exists r, ParseRangeOffsets hdr L ranges maxRanges = Some r /\ result_ok L maxRanges r.
Proof.
  intros HL Hm. unfold ParseRangeOffsets. assert (H0 : result_ok L maxRanges (Ranges 0 ranges)).
  { split; [lia|]. split; [lia|]. intros; lia. }
  destruct hdr as [h|]; [|by eexists]. destruct (strstr h _) as [s|]; [|by eexists].
  apply range_loop_ok; [done|rewrite length_drop; lia|done|done].
Qed.

(** C35.  Whatever the Range header contains, parsing it ends, stays within the array of
    [maxRanges] ranges, and gives ranges that lie within the object. *)
Theorem ranges_within_object hdr L ranges maxRanges :
  0 <= L < 2 ^ 63 -> 0 <= maxRanges <= Z.of_nat (length ranges) ->
  exists res, ParseRangeOffsets hdr L ranges maxRanges = Some res /\
    match res with
    | Ranges n l => 0 <= n <= maxRanges /\
        forall i r, 0 <= i < n -> aget l i = Some r -> 0 <= start r /\ start r <= end_ r < L
    | _ => True
    end.
Proof.
  intros HL Hm. destruct (ParseRangeOffsets_ok hdr L ranges maxRanges HL Hm) as (r & -> & Hr). exists r. split; [done|].
  destruct r; [|done|done]. by destruct Hr as (? & _ & ?).
Qed.

Lemma ranges_within_object_witness :
  exists l, ParseRangeOffsets (Some (bytes "bytes=0-9,20-,-5")) 100 (replicate 32 (mkRange 0 0)) 32 = Some (Ranges 2 l) /\
    take 2 l = [mkRange 0 9; mkRange 20 99].
Proof.
  destruct (ranges_within_object (Some (bytes "bytes=0-9,20-,-5")) 100 (replicate 32 (mkRange 0 0)) 32) as (res & Hr & _).
  - lia.
  - done.
  - vm_compute in Hr. injection Hr as <-. eexists. split; vm_compute; reflexivity.
Defined.

(** ** The meaning of a header *)

(** The ranges of the grammar: first-last, first-, and -length. *)
Inductive Spec := Full (first last : Z) | From (first : Z) | Suffix (len : Z).

Definition print_spec (sp : Spec) : list Z :=
  match sp with
  | Full a b => dec a ++ 45 :: dec b
  | From a => dec a ++ [45]
  | Suffix n => 45 :: dec n
  end.

Fixpoint print_specs (sps : list Spec) : list Z :=
  match sps with
  | [] => []
  | [sp] => print_spec sp
  | sp :: sps => print_spec sp ++ 44 :: print_specs sps
  end.

(** The byte [i] of an object of [L] bytes is asked for. *)
Definition wants (L : Z) (sp : Spec) (i : Z) : Prop :=
  match sp with
  | Full a b => a <= i <= b
  | From a => a <= i
  | Suffix n => L - n <= i
  end.

(** The numbers fit and some byte is asked for. *)
Definition satisfiable (L : Z) (sp : Spec) : Prop :=
  match sp with
  | Full a b => 0 <= a < L /\ a <= b < 2 ^ 63
  | From a => 0 <= a < L
  | Suffix n => 0 < n < 2 ^ 63 /\ 0 < L
  end.

Definition covered (n : Z) (l : list Range) (i : Z) : Prop :=
  exists j r, 0 <= j < n /\ aget l j = Some r /\ start r <= i <= end_ r.

(** What follows a range in a printed list. *)
Definition delimited (s : list Z) : Prop := s = [] \/ exists s', s = 44 :: s'.

Lemma range_spec_print L sp rest :
  0 <= L < 2 ^ 63 -> satisfiable L sp -> delimited rest ->
  exists st e, range_spec L (print_spec sp ++ rest) = Some (st, e, rest) /\ 0 <= st <= e /\ e < L /\
    forall i, 0 <= i < L -> (st <= i <= e <-> wants L sp i).
Proof.
  intros HL Hs Hrest. assert (Hnd : no_digit rest) by (destruct Hrest as [->|[s' ->]]; done).
  unfold range_spec. rewrite off_t_id by done. destruct sp as [a b|a|n]; cbn [print_spec satisfiable wants] in *.
  - rewrite <- app_assoc. cbn [app]. destruct (strtol_dec a (45 :: dec b ++ rest)) as [-> ->]; [lia|done|].
    cbn [Z.eqb Pos.eqb]. destruct (strtol_dec b rest) as [-> ->]; [lia|done|].
    destruct (Z.leb_spec L b); eexists _, _; (split; [reflexivity|]); split_and!; try lia; intros; lia.
  - rewrite <- app_assoc. cbn [app]. destruct (strtol_dec a (45 :: rest)) as [-> ->]; [lia|done|].
    cbn [Z.eqb Pos.eqb]. rewrite Hnd. eexists _, _. split; [reflexivity|]. split_and!; try lia; intros; lia.
  - cbn [app at_digit isdigit]. change (isdigit 45) with false. cbv iota. cbn [Z.eqb Pos.eqb].
    destruct (strtol_dec n rest) as [-> ->]; [lia|done|].
    destruct (Z.leb_spec L n); eexists _, _; (split; [reflexivity|]); split_and!; try lia; intros; lia.
Qed.

Lemma covered_new n l l' r i :
  0 <= n -> (forall j, aget l' j = if j =? n then Some r else aget l j) ->
  covered (n + 1) l' i <-> covered n l i \/ start r <= i <= end_ r.
Proof.
  intros Hn Hg. split.
  - intros (j & r' & Hj & Hr & Hi). rewrite Hg in Hr. destruct (Z.eqb_spec j n) as [->|].
    + right. by injection Hr as <-.
    + left. exists j, r'. split_and!; try done; lia.
  - intros [(j & r' & Hj & Hr & Hi)|Hi].
    + exists j, r'. rewrite Hg. destruct (Z.eqb_spec j n); [lia|]. split_and!; try done; lia.
    + exists n, r. rewrite Hg, Z.eqb_refl. split_and!; try done; lia.
Qed.

(** Two ranges that are not far apart make one. *)
Lemma covered_merge n l l1 l2 i this prev x :
  0 <= i < n -> aget l i = Some prev -> far_apart this prev = false ->
  start prev <= end_ prev -> 0 <= start prev -> start this <= end_ this -> 0 <= x ->
  (forall j, aget l1 j = if j =? n then Some this else aget l j) ->
  (forall j, aget l2 j = if j =? i then Some (mkRange (Z.min (start prev) (start this)) (Z.max (end_ prev) (end_ this)))
                         else aget l1 j) ->
  covered n l2 x <-> covered n l x \/ start this <= x <= end_ this.
Proof.
  intros Hi Hp Hfar Hpv Hp0 Ht Hx H1 H2.
  assert (Hu : Z.min (start prev) (start this) <= x <= Z.max (end_ prev) (end_ this)
    <-> start prev <= x <= end_ prev \/ start this <= x <= end_ this).
  { unfold far_apart in Hfar. zcases; try done; lia. }
  split.
  - intros (j & r & Hj & Hr & Hc). rewrite H2, H1 in Hr. destruct (Z.eqb_spec j i) as [->|Hji].
    + injection Hr as <-. cbn in Hc. apply Hu in Hc as [Hc|Hc]; [|by right]. left. by exists i, prev.
    + destruct (Z.eqb_spec j n); [lia|]. left. by exists j, r.
  - intros [(j & r & Hj & Hr & Hc)|Hc].
    + destruct (Z.eqb_spec j i) as [->|Hji].
      * rewrite Hp in Hr. injection Hr as ->. eexists i, _. rewrite H2, Z.eqb_refl. split_and!; [lia..|done| |]; cbn; lia.
      * exists j, r. rewrite H2, H1. destruct (Z.eqb_spec j i); [lia|]. destruct (Z.eqb_spec j n); [lia|done].
    + eexists i, _. rewrite H2, Z.eqb_refl. split_and!; [lia..|done| |]; cbn; lia.
Qed.

Lemma print_specs_cons sp sps :
  exists rest, print_specs (sp :: sps) = print_spec sp ++ rest /\ delimited rest /\ range_end rest = Some (print_specs sps) /\
    (length (print_specs sps) <= length rest)%nat.
Proof.
  destruct sps as [|sp' sps].
  - exists []. cbn [print_specs]. rewrite app_nil_r. split_and!; try done. by left.
  - exists (44 :: print_specs (sp' :: sps)). split_and!; [done|by right; eexists|done|cbn; lia].
Qed.

Lemma print_spec_nonempty sp : print_spec sp <> [].
Proof. destruct sp; cbn [print_spec]; [intros [_ H]%app_eq_nil; done|intros [_ H]%app_eq_nil; done|done]. Qed.

Lemma range_loop_meaning L maxRanges sps fuel ranges n prev :
  0 <= L < 2 ^ 63 -> Forall (satisfiable L) sps -> (length (print_specs sps) <= fuel)%nat ->
  result_ok L maxRanges (Ranges n ranges) -> n + Z.of_nat (length sps) <= maxRanges ->
  (forall i, prev = Some i -> 0 <= i < n) -> (prev = None -> n = 0) ->
  exists n' l, range_loop fuel (print_specs sps) L maxRanges ranges n prev = Some (Ranges n' l) /\
    (sps <> [] -> 1 <= n') /\ n <= n' <= n + Z.of_nat (length sps) /\
    forall x, 0 <= x < L -> (covered n' l x <-> covered n ranges x \/ exists sp, sp ∈ sps /\ wants L sp x).
Proof.
  intros HL Hsat. revert fuel ranges n prev. induction Hsat as [|sp sps Hsp _ IH]; intros fuel ranges n prev Hf Hok Hmax Hprev Hnone.
  { exists n, ranges. destruct fuel; cbn; (split_and!; [done|done|lia|cbn; lia|]); intros; set_solver. }
  destruct (print_specs_cons sp sps) as (rest & Hprint & Hdel & Hend & Hrl). rewrite Hprint in *.
  pose proof (print_spec_nonempty sp) as Hne. rewrite length_app in Hf.
  destruct fuel as [|fuel]; [destruct (print_spec sp); [done|cbn in Hf; lia]|].
  destruct (range_spec_print L sp rest HL Hsp Hdel) as (st & e & Hspec & Hse & HeL & Hw). cbn [range_loop].
  destruct (print_spec sp ++ rest) as [|c s] eqn:Es; [by destruct (print_spec sp)|]. rewrite <- Es in *. clear Es c s.
  cbn [length] in Hmax. destruct (Z.eqb_spec n maxRanges); [lia|]. rewrite Hspec, Hend.
  destruct Hok as (Hn & Hlen & Hval).
  destruct (aset_Some ranges n (mkRange st e)) as (ranges1 & -> & Hlen1 & Hget1); [lia|]. cbn [mbind option_bind].
  rewrite off_t_id by done. destruct (Z.leb_spec L st); [lia|]. destruct (Z.ltb_spec e st); [lia|].
  assert (Hfuel : (length (print_specs sps) <= fuel)%nat) by (destruct (print_spec sp); [done|cbn in Hf; lia]).
  assert (Hsplit : forall (P : Prop) x, 0 <= x < L ->
    ((P \/ st <= x <= e) \/ (exists sp', sp' ∈ sps /\ wants L sp' x)) <-> (P \/ exists sp', sp' ∈ sp :: sps /\ wants L sp' x)).
  { intros P x Hx. rewrite (Hw x Hx). setoid_rewrite elem_of_cons. naive_solver. }
  assert (Hnew : exists n' l, range_loop fuel (print_specs sps) L maxRanges ranges1 (n + 1) (Some n) = Some (Ranges n' l) /\
    (sp :: sps <> [] -> 1 <= n') /\ n <= n' <= n + Z.of_nat (length (sp :: sps)) /\
    forall x, 0 <= x < L -> (covered n' l x <-> covered n ranges x \/ exists sp', sp' ∈ sp :: sps /\ wants L sp' x)).
  { destruct (IH fuel ranges1 (n + 1) (Some n)) as (n' & l & HI & _ & Hle & Hc); [done| |lia|intros i [= <-]; lia|done|].
    - split; [lia|]. split; [lia|]. intros i r Hi. rewrite Hget1. destruct (Z.eqb_spec i n); [|apply Hval; lia].
      intros [= <-]. split; cbn; lia.
    - exists n', l. split_and!; [done|lia|lia|cbn; lia|]. intros x Hx.
      rewrite (Hc x Hx), (covered_new n ranges ranges1 (mkRange st e) x ltac:(lia) Hget1). by apply Hsplit. }
  destruct prev as [i|]; [|done]. specialize (Hprev i eq_refl).
  destruct (aget_is_Some ranges i) as [pr Hpr]; [lia|]. destruct (Hval i pr Hprev Hpr) as [Hp0 Hp1].
  assert (Hgi : aget ranges1 i = Some pr) by (rewrite Hget1; destruct (Z.eqb_spec i n); [lia|done]).
  rewrite Hgi. cbn [mbind option_bind]. destruct (far_apart _ _) eqn:Hfar; [done|].
  destruct (aset_Some ranges1 i (mkRange (Z.min (start pr) st) (Z.max (end_ pr) e))) as (ranges2 & -> & Hlen2 & Hget2); [lia|].
  cbn [mbind option_bind].
  destruct (IH fuel ranges2 n (Some i)) as (n' & l & HI & _ & Hle & Hc); [done| |lia|intros j [= <-]; lia|done|].
  - split; [lia|]. split; [lia|]. intros j r Hj. rewrite Hget2, Hget1. destruct (Z.eqb_spec j i).
    + intros [= <-]. split; cbn; lia.
    + destruct (Z.eqb_spec j n); [lia|]. by apply Hval.
  - exists n', l. split_and!; [done|lia|lia|cbn; lia|]. intros x Hx. rewrite (Hc x Hx).
    rewrite (covered_merge n ranges ranges1 ranges2 i (mkRange st e) pr x); try done; cbn; try lia. by apply Hsplit.
Qed.

(** A header that lists up to [maxRanges] satisfiable ranges gives ranges that cover
    exactly the bytes it asks for: merging ranges that overlap or touch neither
    adds nor loses a byte. *)
Theorem ranges_cover_request L maxRanges ranges sps :
  0 <= L < 2 ^ 63 -> maxRanges <= Z.of_nat (length ranges) ->
  sps <> [] -> Z.of_nat (length sps) <= maxRanges -> Forall (satisfiable L) sps ->
  exists n l, ParseRangeOffsets (Some (bytes "bytes=" ++ print_specs sps)) L ranges maxRanges = Some (Ranges n l) /\
    1 <= n <= Z.of_nat (length sps) /\
    forall x, 0 <= x < L -> (covered n l x <-> exists sp, sp ∈ sps /\ wants L sp x).
Proof.
  intros HL Hr Hne Hm Hsat. set (hdr := bytes "bytes=" ++ print_specs sps).
  assert (Hst : strstr hdr (bytes "bytes=") = Some hdr) by done.
  destruct (ParseRangeOffsets_ok (Some hdr) L ranges maxRanges HL) as (res & Hres & Hok); [lia|].
  unfold ParseRangeOffsets in *. rewrite Hst in *. change (drop 6 hdr) with (print_specs sps) in *.
  destruct (range_loop_meaning L maxRanges sps (length hdr) ranges 0 None) as (n & l & Hl & Hn & Hn2 & Hc); try done.
  - subst hdr. rewrite length_app. lia.
  - split; [lia|]. split; [lia|]. intros; lia.
  - rewrite Hl in Hres. injection Hres as <-. exists n, l. split; [done|]. destruct Hok as (? & _). specialize (Hn Hne). split; [lia|].
    intros x Hx. rewrite (Hc x Hx). split; [|by right]. intros [(j & _ & Hj & _)|?]; [lia|done].
Qed.

Lemma ranges_cover_request_witness :
  exists n l, ParseRangeOffsets (Some (bytes "bytes=" ++ print_specs [Full 0 4; Full 5 9; Suffix 3])) 100
      (replicate 32 (mkRange 0 0)) 32 = Some (Ranges n l) /\ n = 2.
Proof.
  destruct (ranges_cover_request 100 32 (replicate 32 (mkRange 0 0)) [Full 0 4; Full 5 9; Suffix 3])
    as (n & l & H & _); try done.
  - repeat (apply Forall_cons; split; [cbn; lia|]). by apply Forall_nil_2.
  - exists n, l. split; [exact H|]. vm_compute in H. by injection H.
Defined.

(** ** The vectors of a reply *)

Definition slice (F : list Z) (r : Range) : list Z :=
  take (Z.to_nat (end_ r - start r + 1)) (drop (Z.to_nat (start r)) F).

Definition part_header (type : list Z) (L : Z) (r : Range) : list Z :=
  bytes "--" ++ boundary ++ CRLF ++ bytes "content-type: " ++ type ++ CRLF
  ++ bytes "content-range: " ++ content_range r L ++ CRLF ++ CRLF.
Definition trailer : list Z := bytes "--" ++ boundary ++ bytes "--" ++ CRLF.

(** The body of a multipart reply: every part with its header, the parts and the
    trailer separated by line ends. *)
Fixpoint multipart_body (type F : list Z) (L : Z) (sep : list Z) (rs : list Range) : list Z :=
  match rs with
  | [] => sep ++ trailer
  | r :: rs => sep ++ part_header type L r ++ slice F r ++ multipart_body type F L CRLF rs
  end.

(** The string of the headers. *)
Fixpoint header_text (type : list Z) (L : Z) (sep : list Z) (rs : list Range) : list Z :=
  match rs with
  | [] => sep ++ trailer
  | r :: rs => sep ++ part_header type L r ++ header_text type L CRLF rs
  end.

Section Reply.

Variables (type : list Z) (L : Z).
Abbreviation h := (part_header type L).

(** The even cells after the first loop; the odd ones still hold what was there. *)
Fixpoint header_cells (buf : option (list Z)) (rs : list Range) (D sep : list Z) (gs : list FileVec) : list FileVec :=
  match rs, gs with
  | r :: rs, g :: gs =>
      mkFileVec buf (Z.of_nat (length (sep ++ h r))) (Z.of_nat (length D)) (-1) :: g
      :: header_cells buf rs (D ++ sep ++ h r) CRLF gs
  | _, _ => []
  end.

(** The text in front of the trailer, and the separator before it. *)
Fixpoint before_trailer (rs : list Range) (D sep : list Z) : list Z * list Z :=
  match rs with
  | [] => (D, sep)
  | r :: rs => before_trailer rs (D ++ sep ++ h r) CRLF
  end.

Lemma before_trailer_text rs D sep :
  (before_trailer rs D sep).1 ++ (before_trailer rs D sep).2 ++ trailer = D ++ header_text type L sep rs.
Proof.
  revert D sep. induction rs as [|r rs IH]; intros D sep; cbn [before_trailer header_text]; [done|].
  by rewrite IH, <- !app_assoc.
Qed.

Lemma header_cells_length buf rs D sep gs : length gs = length rs -> length (header_cells buf rs D sep gs) = (2 * length rs)%nat.
Proof.
  revert D sep gs. induction rs as [|r rs IH]; intros D sep [|g gs]; cbn; try done. intros [= H]. rewrite IH by done. lia.
Qed.

Lemma header_loop_ok rs D sep p q :
  length sep = 0%nat \/ sep = CRLF -> (2 * length rs <= length q)%nat ->
  exists gs q', length gs = length rs /\ length q' = (length q - 2 * length rs)%nat /\
    header_loop rs type L (Z.of_nat (length p)) (Z.of_nat (length D)) (Z.of_nat (length sep)) (D ++ sep) (p ++ q) =
    Some (p ++ header_cells None rs D sep gs ++ q', Z.of_nat (length p + 2 * length rs),
      Z.of_nat (length (before_trailer rs D sep).1), Z.of_nat (length (before_trailer rs D sep).2),
      (before_trailer rs D sep).1 ++ (before_trailer rs D sep).2).
Proof.
  revert D sep p q. induction rs as [|r rs IH]; intros D sep p q Hsep Hq.
  { exists [], q. cbn. rewrite Nat.add_0_r. split_and!; try done. lia. }
  cbn [header_loop AppendMultipartRangeHeader before_trailer]. fold (h r).
  destruct q as [|x [|g q]]; cbn [length] in Hq; try lia. unfold Ns_SetFileVec. rewrite aset_mid by done.
  cbn [mbind option_bind]. set (cell := mkFileVec _ _ _ _).
  destruct (IH (D ++ sep ++ h r) CRLF (p ++ [cell; g]) q) as (gs & q' & Hgs & Hq' & HI); [by right|lia|].
  exists (g :: gs), q'. cbn [length]. split_and!; [lia|lia|].
  rewrite <- !app_assoc in HI. cbn [app] in HI.
  replace (Z.of_nat (length (p ++ [cell; g]))) with (Z.of_nat (length p) + 2) in HI by lens.
  replace (Z.of_nat (length (D ++ sep ++ h r))) with (Z.of_nat (length D) + (Z.of_nat (length sep) + Z.of_nat (length (h r)))) in HI by lens.
  rewrite <- !app_assoc. change (Z.of_nat (length CRLF)) with 2 in HI.
  unfold h, part_header in HI |- *. etransitivity; [exact HI|]. do 5 f_equal; [|lens].
  cbn [header_cells]. subst cell. rewrite length_app, Nat2Z.inj_add. done.
Qed.

Variables (files : Z -> list Z) (fdn : Z) (data : option (list Z)) (F : list Z).

(** The object that the ranges are taken from: a file, or memory. *)
Definition is_object : Prop := if fdn <? 0 then data = Some F else files fdn = F.
Definition data_cell (r : Range) : FileVec := mkFileVec data (end_ r - start r + 1) (start r) fdn.

Lemma rebase_loop_ok ds rs D sep gs p q acc :
  length gs = length rs ->
  rebase_loop rs fdn data ds (Z.of_nat (length p)) acc (p ++ header_cells None rs D sep gs ++ q) =
  Some (p ++ header_cells (Some ds) rs D sep (data_cell <$> rs) ++ q, Z.of_nat (length p + 2 * length rs),
    acc + sum_lengths (header_cells (Some ds) rs D sep (data_cell <$> rs))).
Proof.
  revert D sep gs p acc. induction rs as [|r rs IH]; intros D sep [|g gs] p acc Hg; cbn in Hg; try done.
  { cbn. rewrite Nat.add_0_r, Z.add_0_r. done. }
  cbn [rebase_loop header_cells fmap list_fmap app]. rewrite aget_mid by done. cbn [mbind option_bind offset length_].
  unfold Ns_SetFileVec. rewrite aset_mid by done. cbn [mbind option_bind]. set (cell := mkFileVec (Some ds) _ _ _).
  pose proof (aset_mid (p ++ [cell]) g (header_cells None rs (D ++ sep ++ h r) CRLF gs ++ q) (data_cell r)
    (Z.of_nat (length p) + 1)) as Ha. rewrite <- !app_assoc in Ha. cbn [app] in Ha.
  change (mkFileVec data (end_ r - start r + 1) (start r) fdn) with (data_cell r). rewrite Ha by lens.
  cbn [mbind option_bind]. injection Hg as Hg.
  specialize (IH (D ++ sep ++ h r) CRLF gs (p ++ [cell; data_cell r])
    (acc + Z.of_nat (length (sep ++ h r)) + (end_ r - start r + 1)) Hg).
  rewrite <- !app_assoc in IH. cbn [app] in IH.
  replace (Z.of_nat (length (p ++ [cell; data_cell r]))) with (Z.of_nat (length p) + 2) in IH by lens.
  rewrite IH. f_equal. f_equal; [f_equal; lens|]. cbn [sum_lengths foldr]. unfold sum_lengths, cell. cbn [length_ data_cell]. lia.
Qed.

Lemma cell_content ds (A B R : list Z) :
  ds = A ++ B ++ R ->
  vec_data files (mkFileVec (Some ds) (Z.of_nat (length B)) (Z.of_nat (length A)) (-1)) = B /\
  vec_wf files (mkFileVec (Some ds) (Z.of_nat (length B)) (Z.of_nat (length A)) (-1)).
Proof.
  intros ->. assert (Hv : vec_data files (mkFileVec (Some (A ++ B ++ R)) (Z.of_nat (length B)) (Z.of_nat (length A)) (-1)) = B).
  { unfold vec_data; cbn [fd buffer length_ offset]. change (-1 <? 0) with true. cbv iota.
    by rewrite !Nat2Z.id, drop_app_length, take_app_length. }
  split; [done|]. split_and!; cbn [length_ offset]; [lia|lia|]. by rewrite Hv.
Qed.

Lemma data_cell_content r :
  is_object -> valid (Z.of_nat (length F)) r ->
  vec_data files (data_cell r) = slice F r /\ vec_wf files (data_cell r).
Proof.
  intros Ho [Hs He]. assert (Hv : vec_data files (data_cell r) = slice F r).
  { unfold is_object in Ho. unfold vec_data, data_cell, slice; cbn [fd buffer length_ offset].
    destruct (fdn <? 0); by rewrite Ho. }
  split; [done|]. split_and!; cbn [length_ offset data_cell]; [lia|lia|]. rewrite Hv. unfold slice. lens.
Qed.

Definition trailer_cell (ds : list Z) (rs : list Range) (D sep : list Z) : FileVec :=
  mkFileVec (Some ds) (Z.of_nat (length ((before_trailer rs D sep).2 ++ trailer)))
    (Z.of_nat (length (before_trailer rs D sep).1)) (-1).

Lemma multipart_content ds rs D sep :
  is_object -> Forall (valid (Z.of_nat (length F))) rs -> ds = D ++ header_text type L sep rs ->
  content files (header_cells (Some ds) rs D sep (data_cell <$> rs) ++ [trailer_cell ds rs D sep])
    = multipart_body type F L sep rs /\
  Forall (vec_wf files) (header_cells (Some ds) rs D sep (data_cell <$> rs) ++ [trailer_cell ds rs D sep]).
Proof.
  intros Ho Hr. revert D sep. induction Hr as [|r rs Hv _ IH]; intros D sep Hds.
  - cbn [header_cells fmap list_fmap app multipart_body header_text trailer_cell before_trailer fst snd] in *.
    destruct (cell_content ds D (sep ++ trailer) []) as [Hc Hw]; [by rewrite app_nil_r|].
    rewrite vec_content_cons. unfold trailer_cell; cbn [before_trailer fst snd]. rewrite Hc. cbn. rewrite app_nil_r.
    split; [done|by apply Forall_singleton].
  - cbn [header_cells fmap list_fmap app multipart_body header_text] in *. rewrite !vec_content_cons.
    destruct (cell_content ds D (sep ++ h r) (header_text type L CRLF rs)) as [Hc Hw]; [by rewrite Hds, <- !app_assoc|].
    destruct (data_cell_content r Ho Hv) as [Hdc Hdw].
    destruct (IH (D ++ sep ++ h r) CRLF) as [HI HW]; [by rewrite Hds, <- !app_assoc|].
    change (trailer_cell ds (r :: rs) D sep) with (trailer_cell ds rs (D ++ sep ++ h r) CRLF).
    rewrite Hc, Hdc, HI, <- !app_assoc. split; [done|]. by repeat (apply Forall_cons; split; [done|]).
Qed.

End Reply.

(** The body of the reply to a request for the ranges [rs]. *)
Definition reply_body (type F : list Z) (rs : list Range) : list Z :=
  match rs with
  | [r] => slice F r
  | _ => multipart_body type F (Z.of_nat (length F)) [] rs
  end.

Lemma sum_lengths_app vs v : sum_lengths (vs ++ [v]) = sum_lengths vs + length_ v.
Proof.
  unfold sum_lengths. rewrite foldr_app. cbn [foldr]. induction vs as [|w vs IH]; cbn; [lia|]. rewrite IH. lia.
Qed.

Lemma multipart_vectors_ok type L files fdn data F rs b :
  is_object files fdn data F -> Forall (valid (Z.of_nat (length F))) rs -> (2 * length rs < length b)%nat ->
  exists b' len, multipart_vectors rs type fdn data L b = Some (b', len) /\
    let vs := take (2 * length rs + 1) b' in
    content files vs = multipart_body type F L [] rs /\ Forall (vec_wf files) vs /\
    len = Z.of_nat (length (content files vs)).
Proof.
  intros Ho Hv Hb. unfold multipart_vectors.
  destruct (header_loop_ok type L rs [] [] [] b) as (gs & q & Hgs & Hq & HL1); [by left|lia|].
  cbn [length app Nat.add] in HL1. change (Z.of_nat 0) with 0 in HL1. rewrite HL1. cbn [mbind option_bind AppendMultipartRangeTrailer].
  fold trailer. destruct q as [|x q]; [cbn in Hq; lia|]. unfold Ns_SetFileVec.
  set (D' := (before_trailer type L rs [] []).1) in *. set (sep' := (before_trailer type L rs [] []).2) in *.
  pose proof (header_cells_length type L None rs [] [] gs Hgs) as Hcl.
  rewrite aset_mid by lens. cbn [mbind option_bind]. set (ds := (D' ++ sep') ++ trailer).
  assert (Hds : ds = [] ++ header_text type L [] rs).
  { rewrite <- (before_trailer_text type L rs [] []). subst ds. by rewrite <- app_assoc. }
  set (t0 := mkFileVec None _ _ _).
  pose proof (rebase_loop_ok type L fdn data ds rs [] [] gs [] (t0 :: q) 0 Hgs) as HR. cbn [length app Nat.add] in HR.
  change (Z.of_nat 0) with 0 in HR. rewrite HR. cbn [mbind option_bind].
  set (cells := header_cells type L (Some ds) rs [] [] (data_cell fdn data <$> rs)).
  assert (Hcl2 : length cells = (2 * length rs)%nat) by (apply header_cells_length; lens).
  rewrite aget_mid by lens. cbn [mbind option_bind]. rewrite aset_mid by lens. cbn [mbind option_bind].
  destruct (multipart_content type L files fdn data F ds rs [] [] Ho Hv Hds) as [Hc Hw]. fold cells in Hc, Hw.
  set (tc := mkFileVec (Some ds) (length_ t0) (offset t0) (-1)).
  assert (Htc : tc = trailer_cell type L ds rs [] []).
  { subst tc t0. cbn [length_ offset]. unfold trailer_cell. fold D' sep'. rewrite length_app, Nat2Z.inj_add. done. }
  eexists _, _. split; [reflexivity|]. cbv zeta.
  replace (cells ++ tc :: q) with ((cells ++ [tc]) ++ q) by (by rewrite <- app_assoc).
  rewrite take_app_length' by lens. rewrite Htc. split; [done|]. split; [done|].
  rewrite <- (sum_lengths_content files), sum_lengths_app by done. by rewrite <- Htc.
Qed.

(** The vectors of the reply describe its body. *)
Lemma reply_vectors type files fdn data F ranges b hdr ifr mtime n l :
  let L := Z.of_nat (length F) in
  L < 2 ^ 63 -> is_object files fdn data F -> (32 <= length ranges)%nat -> (65 <= length b)%nat ->
  MatchRange hdr ifr mtime = Some true -> ParseRangeOffsets hdr L ranges NS_MAX_RANGES = Some (Ranges n l) -> 1 <= n ->
  exists rep, NsConnParseRange hdr ifr mtime type fdn data L ranges b = Some rep /\ status rep = Some 206 /\
    0 <= nbufs rep <= 65 /\
    let vs := take (Z.to_nat (nbufs rep)) (bufs rep) in
    content files vs = reply_body type F (take (Z.to_nat n) l) /\ Forall (vec_wf files) vs /\
    contentLength rep = Some (Z.of_nat (length (content files vs))).
Proof.
  intros L HL Ho Hr Hb Hm Hp Hn.
  destruct (ParseRangeOffsets_ok hdr L ranges NS_MAX_RANGES) as (res & Hres & Hok); [lia|unfold NS_MAX_RANGES; lia|].
  rewrite Hp in Hres. injection Hres as <-. destruct Hok as (Hn2 & Hlen & Hval).
  assert (Hlrs : length (take (Z.to_nat n) l) = Z.to_nat n) by (rewrite length_take; lia).
  assert (Hvrs : Forall (valid (Z.of_nat (length F))) (take (Z.to_nat n) l)).
  { apply Forall_lookup. intros i r Hi. apply (Hval (Z.of_nat i)).
    - apply lookup_lt_Some in Hi. lia.
    - rewrite aget_nat. by apply lookup_take_Some in Hi as [? _]. }
  unfold NsConnParseRange. rewrite Hm. cbn [mbind option_bind]. fold L. rewrite Hp. cbn [mbind option_bind].
  unfold NS_MAX_RANGES in *. destruct (Z.ltb_spec n 1); [lia|]. destruct (Z.eqb_spec n 1) as [->|H1].
  - destruct l as [|r l]; [done|]. assert (Hg : aget (r :: l) 0 = Some r) by done.
    assert (Hv1 : valid (Z.of_nat (length F)) r) by (apply (Hval 0); [lia|done]). rewrite Hg. cbn [mbind option_bind].
    unfold Ns_SetFileVec. destruct b as [|x b]; [cbn in Hb; lia|].
    pose proof (aset_mid [] x b (data_cell fdn data r) 0 eq_refl) as Ha. cbn [app] in Ha. unfold data_cell in Ha. rewrite Ha.
    cbn [mbind option_bind]. eexists. split; [reflexivity|]. cbn [status nbufs bufs contentLength]. split; [done|]. split; [lia|].
    destruct (data_cell_content files fdn data F r Ho Hv1) as [Hc Hw].
    assert (Hcont : content files [data_cell fdn data r] = slice F r) by (rewrite vec_content_cons, Hc; apply app_nil_r).
    cbv zeta. change (take (Z.to_nat 1) (mkFileVec data (end_ r - start r + 1) (start r) fdn :: b)) with [data_cell fdn data r].
    split; [done|]. split; [by apply Forall_singleton|].
    rewrite Hcont, <- Hc. destruct Hw as (_ & _ & ->). done.
  - assert (Hsl : aslice l 0 n = Some (take (Z.to_nat n) l)).
    { unfold aslice. destruct (Z.leb_spec 0 0), (Z.leb_spec 0 n), (Z.leb_spec (0 + n) (Z.of_nat (length l))); try lia. done. }
    rewrite Hsl. cbn [mbind option_bind]. set (rs := take (Z.to_nat n) l) in *.
    destruct (multipart_vectors_ok type L files fdn data F rs b Ho Hvrs) as (b' & len & -> & Hc & Hw & ->); [lia|].
    cbn [mbind option_bind]. eexists. split; [reflexivity|]. cbn [status nbufs bufs contentLength]. split; [done|]. split; [lia|].
    replace (Z.to_nat (n * 2 + 1)) with (2 * length rs + 1)%nat by lia. split; [|done].
    rewrite Hc. destruct rs as [|r [|r2 rs']]; cbn in Hlrs; [lia|lia|done].
Qed.

(** The ranges of a reply cover what the parsed array covers. *)
Lemma covered_take n l x : 0 <= n <= Z.of_nat (length l) ->
  covered n l x <-> exists r, r ∈ take (Z.to_nat n) l /\ start r <= x <= end_ r.
Proof.
  intros Hn. split.
  - intros (j & r & Hj & Hr & Hx). exists r. split; [|done]. apply list_elem_of_lookup. exists (Z.to_nat j). rewrite lookup_take_lt by lia.
    rewrite <- aget_nat, Z2Nat.id by lia. done.
  - intros (r & Hr & Hx). apply list_elem_of_lookup in Hr as [j Hj]. apply lookup_take_Some in Hj as [Hj Hlt]. exists (Z.of_nat j), r.
    rewrite aget_nat. split; [lia|done].
Qed.

(** C24.  The reply to a range request, from the header to the socket.  For a header that lists up to 32
    satisfiable ranges of the object, with a condition If-Range that holds, the status is 206, there are at most as
    many ranges in the reply as in the header, each within the object, and together they
    cover exactly the bytes asked for.  The Content-Length announced is the length of the body, which
    has the bytes of the single range, or every part with its header and the trailer.  What goes to the socket is a
    beginning of the body, and all of it when sending reports success. *)
Theorem range_reply_sent type files fdn data F ranges b sps ifr mtime maxiov native rounds :
  let L := Z.of_nat (length F) in
  let hdr := Some (bytes "bytes=" ++ print_specs sps) in
  L < 2 ^ 63 -> is_object files fdn data F ->
  (32 <= length ranges)%nat -> (65 <= length b)%nat -> 0 < maxiov ->
  sps <> [] -> Z.of_nat (length sps) <= NS_MAX_RANGES -> Forall (satisfiable L) sps -> MatchRange hdr ifr mtime = Some true ->
  exists rs rep res, NsConnParseRange hdr ifr mtime type fdn data L ranges b = Some rep /\ status rep = Some 206 /\
    (1 <= length rs <= length sps)%nat /\ Forall (valid L) rs /\
    (forall x, 0 <= x < L -> ((exists r, r ∈ rs /\ start r <= x <= end_ r) <-> exists sp, sp ∈ sps /\ wants L sp x)) /\
    contentLength rep = Some (Z.of_nat (length (reply_body type F rs))) /\
    Ns_ConnSendFileVec files maxiov native (take (Z.to_nat (nbufs rep)) (bufs rep)) rounds = Some res /\
    match res with
    | ConnOk o => o = reply_body type F rs
    | ConnError o | ConnRunning _ o => o `prefix_of` reply_body type F rs
    end.
Proof.
  intros L hdr HL Ho Hr Hb Hx Hne Hlen Hsat Hm.
  destruct (ranges_cover_request L NS_MAX_RANGES ranges sps) as (n & l & Hp & Hn & Hc); [lia|unfold NS_MAX_RANGES; lia|done..|].
  destruct (ParseRangeOffsets_ok hdr L ranges NS_MAX_RANGES) as (pr & Hpr & Hok); [lia|unfold NS_MAX_RANGES; lia|].
  subst hdr. rewrite Hp in Hpr. injection Hpr as <-. destruct Hok as (Hn2 & Hll & Hval).
  destruct (reply_vectors type files fdn data F ranges b _ ifr mtime n l HL Ho Hr Hb Hm Hp) as (rep & Hrep & Hst & _ & Hcont & Hw & Hcl); [lia|].
  destruct (conn_send_ok files maxiov native _ rounds Hx Hw) as (res & Hres & Hsent). rewrite Hcont in Hcl, Hsent.
  unfold NS_MAX_RANGES in *. exists (take (Z.to_nat n) l), rep, res. split; [done|]. split; [done|]. split; [rewrite length_take; lia|]. split; [|split; [|split; [done|split; [done|]]]].
  - apply Forall_lookup. intros i r Hi. apply lookup_take_Some in Hi as [Hi ?]. apply (Hval (Z.of_nat i)); [lia|]. by rewrite aget_nat.
  - intros x Hx'. rewrite <- (Hc x Hx'). symmetry. apply covered_take. lia.
  - destruct res; [rewrite Hsent; by eexists|done|done].
Qed.

Lemma range_reply_sent_witness :
  let F := bytes "0123456789" in
  exists (rs : list Range) rep res,
    NsConnParseRange (Some (bytes "bytes=" ++ print_specs [Full 1 2; From 8])) None 0 (bytes "text/plain") 5 None 10
      (replicate 32 (mkRange 0 0)) (replicate 65 (mkFileVec None 0 0 0)) = Some rep /\
    (exists r, r ∈ rs /\ start r <= 9 <= end_ r) /\
    Ns_ConnSendFileVec (fun _ => F) 16 true (take (Z.to_nat (nbufs rep)) (bufs rep))
      [([500], true); ([500], true); ([500], true); ([500], true); ([500], true)] = Some res /\
    res = ConnOk (reply_body (bytes "text/plain") F [mkRange 1 2; mkRange 8 9]).
Proof.
  intros F.
  destruct (range_reply_sent (bytes "text/plain") (fun _ => F) 5 None F (replicate 32 (mkRange 0 0))
    (replicate 65 (mkFileVec None 0 0 0)) [Full 1 2; From 8] None 0 16 true
    [([500], true); ([500], true); ([500], true); ([500], true); ([500], true)]) as (rs & rep & res & H1 & _ & _ & _ & Hc & _ & H2 & _).
  - done.
  - done.
  - rewrite length_replicate. lia.
  - rewrite length_replicate. lia.
  - done.
  - done.
  - vm_compute. discriminate.
  - repeat (apply Forall_cons; split; [cbn; lia|]). by apply Forall_nil_2.
  - done.
  - exists rs, rep, res. split; [exact H1|]. split; [apply (Hc 9); [cbn; lia|]; exists (From 8); split; [set_solver|cbn; lia]|]. split; [exact H2|]. vm_compute in H1. injection H1 as <-. vm_compute in H2.
    injection H2 as <-. vm_compute. reflexivity.
Defined.
