(* ===== verification/Chunked.v ===== *)
(** * Chunked: the framing of request bodies in nsd/driver.c.

    The length of a body is given by Content-Length or by the chunks of
    Transfer-Encoding: chunked.  [ChunkedDecode] works in place in the buffer of the
    request and can be called again whenever more input has arrived; [dechunk] is
    the decoder on the bytes alone.  The length fields of a request are Z; the buffer
    is the list of the bytes of the [Tcl_DString], which has a NUL behind them. *)

From S2P Require Import Prelude Str AcceptEncoding.

Inductive SockState :=
| SOCK_READY | SOCK_MORE | SOCK_SPOOL | SOCK_ERROR | SOCK_CLOSE | SOCK_CLOSETIMEOUT | SOCK_READTIMEOUT
| SOCK_WRITETIMEOUT | SOCK_READERROR | SOCK_WRITEERROR | SOCK_SHUTERROR | SOCK_BADREQUEST
| SOCK_ENTITYTOOLARGE | SOCK_BADHEADER | SOCK_TOOMANYHEADERS | SOCK_QUEUEFULL.

#[export] Instance SockState_eq_dec : EqDecision SockState.
Proof. solve_decision. Defined.

(** ** The lengths in header fields *)

Definition UINT64_MAX : Z := 2 ^ 64 - 1.

(** The loop over the digits: [None] for an overflow, else the value and what follows. *)
Fixpoint length_digits (p : list Z) (value : Z) : option (Z * list Z) :=
  match p with
  | c :: rest =>
      if isdigit c then
        if (UINT64_MAX - (c - 48)) / 10 <? value then None else length_digits rest (value * 10 + (c - 48))
      else Some (value, p)
  | [] => Some (value, [])
  end.

(** [None] is [NS_ERROR]; [SIZE_MAX] is [UINT64_MAX]. *)
Definition ParseStrictContentLength (s : list Z) : option Z :=
  match Ns_StrTrimLeft s with
  | [] => None
  | s =>
      match length_digits s 0 with
      | Some (value, p) => match Ns_StrTrimLeft p with [] => Some value | _ => None end
      | None => None
      end
  end.

(** [strcasecmp(a, b) == 0] of C strings; with equal lengths also [strncasecmp]. *)
Definition strcaseeq (a b : list Z) : bool := bool_decide (tolower <$> a = tolower <$> b).

Definition TransferCodingTokenEqual (start token : list Z) : bool :=
  (Z.of_nat (length start) =? Z.of_nat (length token)) && strcaseeq start token.

(** The loop over the token: the token and what follows, [None] at a parameter or list. *)
Fixpoint coding_token (p : list Z) : option (list Z * list Z) :=
  match p with
  | c :: rest =>
      if isspace c then Some ([], p)
      else if (c =? 59) || (c =? 44) then None
      else '(t, q) ← coding_token rest; Some (c :: t, q)
  | [] => Some ([], [])
  end.

(** Whether the result is [NS_OK]; [*chunkedPtr] is then true. *)
Definition ParseRequestTransferEncoding (s : list Z) : bool :=
  match coding_token (Ns_StrTrimLeft s) with
  | Some (token, p) =>
      match Ns_StrTrimLeft p with [] => TransferCodingTokenEqual token (bytes "chunked") | _ => false end
  | None => false
  end.

(** ** Requests *)

(** [struct Request] as far as reading uses it.  [line] is [request.line], [headers] the
    fields of the header set in their order, [version] is [request.version]. *)
Record Request := mkRequest {
  line : option (list Z);
  version : double;
  headers : list (list Z * list Z);
  content : option Z;
  length_ : Z;
  contentLength : Z;
  avail : Z;
  expectedLength : Z;
  chunkStartOff : Z;
  chunkWriteOff : Z;
  woff : Z;
  roff : Z;
  coff : Z;
  leftover : Z;
  buffer : list Z;
  savedChar : Z
}.

Definition set_chunk (b : list Z) (s w : Z) (r : Request) : Request :=
  mkRequest (line r) (version r) (headers r) (content r) (length_ r) (contentLength r) (avail r) (expectedLength r)
    s w (woff r) (roff r) (coff r) (leftover r) b (savedChar r).

(** ** Chunks *)

(** The size at the start of the line of a chunk, [None] when the request is bad. *)
Definition chunk_size (line : list Z) : option Z :=
  let '(chunkLength, numberEnd, erange) := strtol line 16 in
  if (erange : bool) then None
  else if chunkLength <? 0 then None
  else if bool_decide (numberEnd = line) then None
  else match Ns_StrTrimLeft numberEnd with
       | [] => Some chunkLength
       | c :: _ => if c =? 59 then Some chunkLength else None
       end.

(** The text before the first occurrence of [needle] in the C string at the start of [s]. *)
Definition upto (needle s : list Z) : option (list Z) :=
  p ← strstr (before_nul s) needle; Some (take (length (before_nul s) - length p) (before_nul s)).

(** [memmove] to the place of the decoded data, and the NUL behind it. *)
Definition write_chunk (update : bool) (dataStart chunkLength : Z) (r : Request) : option Request :=
  if update then
    d ← aslice (buffer r) dataStart chunkLength;
    b ← afill (buffer r) (chunkWriteOff r) d;
    b ← aset b (chunkWriteOff r + chunkLength) 0;
    Some (set_chunk b (chunkStartOff r) (chunkWriteOff r + chunkLength) r)
  else Some r.

Inductive round := Stop (st : SockState) (r : Request) | Next (r : Request).

(** The terminating chunk: complete with the empty line behind its trailer. *)
Definition last_chunk (dataStart : Z) (r : Request) : option round :=
  let b := buffer r in
  let done_at off := Some (Stop SOCK_READY (set_chunk b off (chunkWriteOff r) r)) in
  let trailer :=
    match upto (CRLF ++ CRLF) (drop (Z.to_nat dataStart) b) with
    | Some t => done_at (dataStart + Z.of_nat (length t) + 4)
    | None => Some (Stop SOCK_MORE r)
    end in
  if dataStart + 2 <=? Z.of_nat (length b) then
    c0 ← aget b dataStart;
    c1 ← aget b (dataStart + 1);
    if (c0 =? 13) && (c1 =? 10) then done_at (dataStart + 2) else trailer
  else trailer.

(** The body of the loop. *)
Definition chunk_round (update : bool) (r : Request) : option round :=
  let b := buffer r in
  let e := Z.of_nat (length b) in
  match upto CRLF (drop (Z.to_nat (chunkStartOff r)) b) with
  | None => Some (Stop SOCK_MORE r)
  | Some ln =>
      match chunk_size ln with
      | None => Some (Stop SOCK_BADREQUEST r)
      | Some chunkLength =>
          let dataStart := chunkStartOff r + Z.of_nat (length ln) + 2 in
          let dataEnd := dataStart + chunkLength in
          if e - dataStart <? chunkLength then Some (Stop SOCK_MORE r)
          else if chunkLength =? 0 then last_chunk dataStart r
          else if e - dataEnd <? 2 then
            if negb (expectedLength r =? 0) &&
               (expectedLength r <=? wrap64 (chunkWriteOff r - coff r + chunkLength)) && (dataEnd =? e)
            then
              r ← write_chunk update dataStart chunkLength r;
              Some (Stop SOCK_MORE (set_chunk (buffer r) dataEnd (chunkWriteOff r) r))
            else Some (Stop SOCK_MORE r)
          else
            c0 ← aget b dataEnd;
            c1 ← aget b (dataEnd + 1);
            if negb (c0 =? 13) || negb (c1 =? 10) then Some (Stop SOCK_BADREQUEST r)
            else
              r ← write_chunk update dataStart chunkLength r;
              Some (Next (set_chunk (buffer r) (dataEnd + 2) (chunkWriteOff r) r))
      end
  end.

(** The loop; every round that goes on consumes input. *)
Fixpoint decode_rounds (fuel : nat) (update : bool) (r : Request) : option (SockState * Request) :=
  match fuel with
  | O => None
  | S fuel =>
      if chunkStartOff r <? Z.of_nat (length (buffer r)) then
        x ← chunk_round update r;
        match x with Stop st r => Some (st, r) | Next r => decode_rounds fuel update r end
      else Some (SOCK_MORE, r)
  end.

Definition ChunkedDecode (r : Request) (update : bool) : option (SockState * Request) :=
  decode_rounds (S (length (buffer r))) update r.

(** ** The decoder on bytes *)

(** What stands at the start of the input: an incomplete chunk, an error, the end of the
    message, a chunk, or a chunk whose CRLF has not begun to arrive. *)
Inductive piece := More | Bad | Last (rest : list Z) | Data (d rest : list Z) | Short (d : list Z).

(** What follows the line of a chunk of size [n]. *)
Definition chunk_body (n : Z) (body : list Z) : piece :=
  if Z.of_nat (length body) <? n then More
  else if n =? 0 then
    if bool_decide (take 2 body = CRLF) then Last (drop 2 body)
    else match upto (CRLF ++ CRLF) body with Some t => Last (drop (length t + 4) body) | None => More end
  else
    match drop (Z.to_nat n) body with
    | [] => Short (take (Z.to_nat n) body)
    | [_] => More
    | c0 :: c1 :: rest => if (c0 =? 13) && (c1 =? 10) then Data (take (Z.to_nat n) body) rest else Bad
    end.

Definition next_chunk (s : list Z) : piece :=
  match upto CRLF s with
  | None => More
  | Some ln => match chunk_size ln with None => Bad | Some n => chunk_body n (drop (length ln + 2) s) end
  end.

(** The state, the decoded data and the input that is left; [cur] is the length of the
    data decoded before. *)
Fixpoint dechunk (fuel : nat) (expected cur : Z) (s : list Z) : SockState * list Z * list Z :=
  match fuel, s with
  | O, _ | _, [] => (SOCK_MORE, [], s)
  | S fuel, _ =>
      match next_chunk s with
      | More => (SOCK_MORE, [], s)
      | Bad => (SOCK_BADREQUEST, [], s)
      | Last rest => (SOCK_READY, [], rest)
      | Data d rest =>
          let '(st, ds, r) := dechunk fuel expected (cur + Z.of_nat (length d)) rest in (st, d ++ ds, r)
      | Short d =>
          if negb (expected =? 0) && (expected <=? cur + Z.of_nat (length d)) then (SOCK_MORE, d, [])
          else (SOCK_MORE, [], s)
      end
  end.

Lemma length_CRLF : length CRLF = 2%nat.
Proof. done. Qed.
#[local] Hint Rewrite length_CRLF : lens.

(** ** Searching *)

Lemma strstr_split s needle p : strstr s needle = Some p -> exists q r, s = q ++ p /\ p = needle ++ r.
Proof.
  revert p. induction s as [|c s IH]; intros p; cbn [strstr]; case_bool_decide as E.
  - intros [= <-]. exists [], []. split; [done|]. rewrite take_nil in E. by rewrite <- E.
  - done.
  - intros [= <-]. exists [], (drop (length needle) (c :: s)). split; [done|]. rewrite <- E at 1. by rewrite take_drop.
  - intros (q & r & -> & ->)%IH. by exists (c :: q), r.
Qed.

Lemma strstr_app s needle p t : needle <> [] -> strstr s needle = Some p -> strstr (s ++ t) needle = Some (p ++ t).
Proof.
  intros Hn. assert (Htake : forall s', take (length needle) s' = needle -> take (length needle) (s' ++ t) = needle).
  { intros s' E. rewrite take_app_le; [done|]. apply (f_equal length) in E. rewrite length_take in E. lia. }
  revert p. induction s as [|c s IH]; intros p; cbn [strstr].
  - case_bool_decide as E; [|done]. by rewrite take_nil in E.
  - case_bool_decide as E; cbn [app strstr].
    + intros [= <-]. by rewrite bool_decide_eq_true_2 by exact (Htake (c :: s) E).
    + intros Hs. rewrite bool_decide_eq_false_2; [by apply IH|]. intros E'. apply E.
      change (c :: s ++ t) with ((c :: s) ++ t) in E'. rewrite take_app_le in E'; [done|].
      destruct (strstr_split _ _ _ Hs) as (q & r & -> & ->). cbn [length]. rewrite !length_app. lia.
Qed.

Lemma before_nul_grows s t : exists u, before_nul (s ++ t) = before_nul s ++ u.
Proof. induction s as [|c s [u IH]]; cbn; [by eexists|]. destruct (c =? 0); [by exists []|]. exists u. by rewrite IH. Qed.

Lemma before_nul_prefix s : exists u, s = before_nul s ++ u.
Proof. induction s as [|c s [u IH]]; cbn; [by exists []|]. destruct (c =? 0); [by eexists|]. exists u. by rewrite IH at 1. Qed.

Lemma upto_split needle s t : upto needle s = Some t -> exists r, s = t ++ needle ++ r.
Proof.
  unfold upto. destruct (strstr _ _) as [p|] eqn:E; [|done]. cbn [mbind option_bind]. intros [= <-].
  destruct (strstr_split _ _ _ E) as (q & r & Eq & ->). destruct (before_nul_prefix s) as [u Eu].
  exists (r ++ u). rewrite Eq, take_app_length' by (rewrite !length_app; lia). rewrite Eu at 1. by rewrite Eq, <- !app_assoc.
Qed.

Lemma upto_grows needle s t s' : needle <> [] -> upto needle s = Some t -> upto needle (s ++ s') = Some t.
Proof.
  intros Hn. unfold upto. destruct (strstr _ _) as [p|] eqn:E; [|done]. cbn [mbind option_bind]. intros [= <-].
  destruct (before_nul_grows s s') as [u ->]. rewrite (strstr_app _ _ _ _ Hn E). cbn [mbind option_bind]. f_equal.
  destruct (strstr_split _ _ _ E) as (q & r & -> & ->). rewrite !length_app.
  rewrite <- (app_assoc q), !take_app_length' by lia. done.
Qed.

(** ** One chunk *)

Lemma chunk_size_nonneg ln n : chunk_size ln = Some n -> 0 <= n.
Proof.
  unfold chunk_size. destruct (strtol ln 16) as [[v e] er]. destruct er; [done|]. destruct (Z.ltb_spec v 0); [done|].
  case_bool_decide; [done|]. destruct (Ns_StrTrimLeft e) as [|c ?]; [|destruct (c =? 59)]; intros [= <-]; done || lia.
Qed.

(** An input with the line of a chunk. *)
Lemma next_chunk_line s ln n : upto CRLF s = Some ln -> chunk_size ln = Some n ->
  exists body, s = ln ++ CRLF ++ body /\ next_chunk s = chunk_body n body /\ 0 <= n.
Proof.
  intros Hu Hn. destruct (upto_split _ _ _ Hu) as [body Es]. exists body. split_and!; [done| |by eapply chunk_size_nonneg].
  unfold next_chunk. rewrite Hu, Hn, Es, app_assoc, drop_app_length'; [done|]. rewrite length_app. done.
Qed.

Lemma next_chunk_cases s : next_chunk s = More \/ next_chunk s = Bad \/
  exists ln n body, upto CRLF s = Some ln /\ chunk_size ln = Some n /\ s = ln ++ CRLF ++ body /\ 0 <= n /\ next_chunk s = chunk_body n body.
Proof.
  destruct (upto CRLF s) as [ln|] eqn:Hu; [|left; unfold next_chunk; by rewrite Hu].
  destruct (chunk_size ln) as [n|] eqn:Hn; [|right; left; unfold next_chunk; by rewrite Hu, Hn].
  destruct (next_chunk_line s ln n Hu Hn) as (body & ? & ? & ?). right; right. by exists ln, n, body.
Qed.

Lemma chunk_body_Data n body d rest : 0 <= n -> chunk_body n body = Data d rest ->
  body = d ++ CRLF ++ rest /\ n = Z.of_nat (length d) /\ d <> [].
Proof.
  intros Hpos. unfold chunk_body. destruct (Z.ltb_spec (Z.of_nat (length body)) n) as [|Hlen]; [done|]. destruct (Z.eqb_spec n 0) as [|Hz].
  { case_bool_decide; [done|]. by destruct (upto (CRLF ++ CRLF) body). }
  destruct (drop (Z.to_nat n) body) as [|c0 [|c1 r]] eqn:Ed; [done..|].
  destruct (Z.eqb_spec c0 13) as [->|]; [|done]. destruct (Z.eqb_spec c1 10) as [->|]; [|done]. intros [= <- <-].
  assert (Hl : length (take (Z.to_nat n) body) = Z.to_nat n) by (rewrite length_take; lia).
  split_and!; [|lia|intros E; rewrite E in Hl; cbn in Hl; lia].
  rewrite <- (take_drop (Z.to_nat n) body) at 1. by rewrite Ed.
Qed.

Lemma chunk_body_Short n body d : 0 <= n -> chunk_body n body = Short d -> body = d /\ n = Z.of_nat (length d) /\ d <> [].
Proof.
  intros Hpos. unfold chunk_body. destruct (Z.ltb_spec (Z.of_nat (length body)) n) as [|Hlen]; [done|]. destruct (Z.eqb_spec n 0) as [|Hz].
  { case_bool_decide; [done|]. by destruct (upto (CRLF ++ CRLF) body). }
  destruct (drop (Z.to_nat n) body) as [|c0 [|c1 r]] eqn:Ed; [|done|by destruct (_ && _)]. intros [= <-].
  assert (Hl : length (take (Z.to_nat n) body) = Z.to_nat n) by (rewrite length_take; lia).
  split_and!; [|lia|intros E; rewrite E in Hl; cbn in Hl; lia].
  rewrite <- (take_drop (Z.to_nat n) body) at 1. by rewrite Ed, app_nil_r.
Qed.

Lemma chunk_body_Last n body rest : 0 <= n -> chunk_body n body = Last rest ->
  n = 0 /\ exists u, body = u ++ rest /\ (u = CRLF \/ take 2 body <> CRLF /\ exists t, u = t ++ CRLF ++ CRLF /\ upto (CRLF ++ CRLF) body = Some t).
Proof.
  intros Hpos. unfold chunk_body. destruct (Z.ltb_spec (Z.of_nat (length body)) n) as [|Hlen]; [done|]. destruct (Z.eqb_spec n 0) as [->|Hz].
  - case_bool_decide as E.
    + intros [= <-]. split; [done|]. exists CRLF. split; [|by left]. rewrite <- E at 1. by rewrite take_drop.
    + destruct (upto (CRLF ++ CRLF) body) as [t|] eqn:Et; [|done]. intros [= <-]. split; [done|].
      destruct (upto_split _ _ _ Et) as [r ->]. exists (t ++ CRLF ++ CRLF). rewrite (app_assoc t).
      rewrite drop_app_length' by (rewrite !length_app; done). split; [done|]. right. rewrite <- app_assoc. eauto.
  - destruct (drop (Z.to_nat n) body) as [|c0 [|c1 r]]; [done..|]. by destruct (_ && _).
Qed.

(** ** The buffer during decoding *)

(** The buffer has what precedes the body, the decoded data, bytes of no interest and
    the input that is not decoded yet. *)
Definition Holds (r : Request) (pre dec s : list Z) : Prop :=
  exists gap, buffer r = pre ++ dec ++ gap ++ s /\ coff r = Z.of_nat (length pre) /\
    chunkWriteOff r = Z.of_nat (length (pre ++ dec)) /\ chunkStartOff r = Z.of_nat (length (pre ++ dec ++ gap)) /\
    Z.of_nat (length (buffer r)) < 2 ^ 63.

(** The fields the decoder does not change. *)
Definition same_rest (r r' : Request) : Prop :=
  r' = set_chunk (buffer r') (chunkStartOff r') (chunkWriteOff r') r /\ length (buffer r') = length (buffer r).

Lemma same_rest_refl r : same_rest r r.
Proof. by destruct r. Qed.

Lemma same_rest_trans r1 r2 r3 : same_rest r1 r2 -> same_rest r2 r3 -> same_rest r1 r3.
Proof. intros [E1 L1] [E2 L2]. split; [|congruence]. rewrite E2. rewrite E1 at 1. done. Qed.

(** Consuming input without data. *)
Lemma holds_skip r pre dec u s off : Holds r pre dec (u ++ s) -> off = chunkStartOff r + Z.of_nat (length u) ->
  Holds (set_chunk (buffer r) off (chunkWriteOff r) r) pre dec s.
Proof.
  intros (gap & Hb & Hc & Hw & Hs & Hl) ->. exists (gap ++ u). cbn [set_chunk buffer coff chunkWriteOff chunkStartOff].
  split_and!; [by rewrite Hb, <- !app_assoc|done|done| |done]. rewrite Hs. lens.
Qed.

(** Moving the data of a chunk. *)
Lemma write_chunk_spec r pre dec ln d tail :
  Holds r pre dec (ln ++ CRLF ++ d ++ tail) ->
  exists r', write_chunk true (chunkStartOff r + Z.of_nat (length ln) + 2) (Z.of_nat (length d)) r = Some r' /\
    same_rest r r' /\ chunkWriteOff r' = Z.of_nat (length (pre ++ dec ++ d)) /\
    Holds (set_chunk (buffer r') (chunkStartOff r + Z.of_nat (length ln) + 2 + Z.of_nat (length d)) (chunkWriteOff r') r') pre (dec ++ d) tail.
Proof.
  intros (gap & Hb & Hc & Hw & Hs & Hl). unfold write_chunk.
  set (mid := gap ++ ln ++ CRLF ++ d). assert (Eb : buffer r = (pre ++ dec) ++ mid ++ tail) by (unfold mid; rewrite Hb, <- !app_assoc; done).
  assert (Esl : aslice (buffer r) (chunkStartOff r + Z.of_nat (length ln) + 2) (Z.of_nat (length d)) = Some d).
  { rewrite Hb, Hs. rewrite <- (aslice_app (pre ++ dec ++ gap ++ ln ++ CRLF) d tail). f_equal; [|lens].
    by rewrite <- !app_assoc. }
  rewrite Esl. cbn [mbind option_bind]. rewrite Hw, Eb, afill_at by (unfold mid; lens). cbn [mbind option_bind].
  rewrite (drop_app_le mid tail) by (unfold mid; lens).
  destruct (drop (length d) mid) as [|c g] eqn:Ed.
  { apply (f_equal length) in Ed. unfold mid in Ed. revert Ed. lens. }
  assert (Hg : (length g + 1 = length gap + length ln + 2)%nat) by (apply (f_equal length) in Ed; unfold mid in Ed; revert Ed; lens).
  rewrite <- app_comm_cons, !app_assoc, aset_mid by lens. cbn [mbind option_bind]. eexists. split; [reflexivity|].
  cbn [set_chunk buffer chunkStartOff chunkWriteOff]. split_and!; [split; [done|cbn; rewrite Eb; unfold mid; lens]|lens|].
  exists (0 :: g). cbn [set_chunk buffer coff chunkStartOff chunkWriteOff].
  split_and!; [by rewrite <- !app_assoc|done|lens|rewrite Hs; lens|].
  rewrite Eb in Hl. revert Hl. unfold mid. lens.
Qed.

Lemma holds_pending r pre dec s : Holds r pre dec s -> drop (Z.to_nat (chunkStartOff r)) (buffer r) = s.
Proof.
  intros (gap & Hb & _ & _ & Hs & _). rewrite Hs, Nat2Z.id, Hb, !app_assoc. by rewrite drop_app_length.
Qed.

Lemma holds_end r pre dec s : Holds r pre dec s -> Z.of_nat (length (buffer r)) = chunkStartOff r + Z.of_nat (length s).
Proof. intros (gap & Hb & _ & _ & Hs & _). rewrite Hs, Hb. lens. Qed.

(** A place in the input, in the buffer. *)
Lemma holds_get r pre dec u c s : Holds r pre dec (u ++ c :: s) -> aget (buffer r) (chunkStartOff r + Z.of_nat (length u)) = Some c.
Proof. intros (gap & Hb & _ & _ & Hs & _). rewrite Hb, !app_assoc. apply aget_mid. rewrite Hs. lens. Qed.

Lemma holds_drop r pre dec u s : Holds r pre dec (u ++ s) -> drop (Z.to_nat (chunkStartOff r + Z.of_nat (length u))) (buffer r) = s.
Proof. intros (gap & Hb & _ & _ & Hs & _). rewrite Hb, !app_assoc. apply drop_app_length'. rewrite Hs. lens. Qed.

Lemma last_chunk_spec r pre dec ln body :
  Holds r pre dec (ln ++ CRLF ++ body) ->
  last_chunk (chunkStartOff r + Z.of_nat (length ln) + 2) r = Some
    match chunk_body 0 body with
    | Last rest => Stop SOCK_READY (set_chunk (buffer r) (Z.of_nat (length (buffer r)) - Z.of_nat (length rest)) (chunkWriteOff r) r)
    | _ => Stop SOCK_MORE r
    end.
Proof.
  intros HH. rewrite app_assoc in HH. assert (Eoff : chunkStartOff r + Z.of_nat (length ln) + 2 = chunkStartOff r + Z.of_nat (length (ln ++ CRLF))) by lens.
  pose proof (holds_end _ _ _ _ HH) as He. pose proof (holds_drop _ _ _ _ _ HH) as Hd.
  unfold last_chunk, chunk_body. rewrite Eoff, Hd. destruct (Z.ltb_spec (Z.of_nat (length body)) 0); [lia|]. cbn [Z.eqb].
  assert (Htr : forall t, upto (CRLF ++ CRLF) body = Some t ->
    chunkStartOff r + Z.of_nat (length (ln ++ CRLF)) + Z.of_nat (length t) + 4 =
    Z.of_nat (length (buffer r)) - Z.of_nat (length (drop (length t + 4) body))).
  { intros t [rr Et]%upto_split. rewrite He, Et. lens. }
  destruct (Z.leb_spec (chunkStartOff r + Z.of_nat (length (ln ++ CRLF)) + 2) (Z.of_nat (length (buffer r)))) as [Hle|Hlt].
  - destruct body as [|c0 [|c1 body]]; [lens..|].
    rewrite (holds_get _ _ _ _ _ _ HH). cbn [mbind option_bind].
    replace (chunkStartOff r + Z.of_nat (length (ln ++ CRLF)) + 1)
      with (chunkStartOff r + Z.of_nat (length ((ln ++ CRLF) ++ [c0]))) by lens.
    rewrite (holds_get _ pre dec ((ln ++ CRLF) ++ [c0]) c1 body) by (by rewrite <- app_assoc).
    cbn [mbind option_bind]. assert ((c0 =? 13) && (c1 =? 10) = bool_decide (take 2 (c0 :: c1 :: body) = CRLF)) as ->.
    { cbn. unfold CRLF. case_bool_decide as E; [by injection E as -> ->|]. destruct (Z.eqb_spec c0 13) as [->|]; [|done].
      destruct (Z.eqb_spec c1 10) as [->|]; [|done]. by rewrite take_0 in E. }
    case_bool_decide; [do 3 f_equal; rewrite He; lens|]. destruct (upto _ _) as [t|] eqn:Et; [|done]. by rewrite (Htr t eq_refl).
  - rewrite bool_decide_eq_false_2; [|intros E%(f_equal length); revert E; rewrite He in Hlt; lens].
    destruct (upto _ _) as [t|] eqn:Et; [|done]. by rewrite (Htr t eq_refl).
Qed.

(** The body of the loop is [next_chunk] on the input. *)
Lemma chunk_round_spec r pre dec s :
  Holds r pre dec s ->
  exists x, chunk_round true r = Some x /\
  match next_chunk s with
  | More => x = Stop SOCK_MORE r
  | Bad => x = Stop SOCK_BADREQUEST r
  | Last rest => exists r', x = Stop SOCK_READY r' /\ same_rest r r' /\ Holds r' pre dec rest
  | Data d rest => exists r', x = Next r' /\ same_rest r r' /\ Holds r' pre (dec ++ d) rest
  | Short d =>
      if negb (expectedLength r =? 0) && (expectedLength r <=? Z.of_nat (length dec) + Z.of_nat (length d))
      then exists r', x = Stop SOCK_MORE r' /\ same_rest r r' /\ Holds r' pre (dec ++ d) []
      else x = Stop SOCK_MORE r
  end.
Proof.
  intros HH. unfold chunk_round. rewrite (holds_pending _ _ _ _ HH). unfold next_chunk.
  destruct (upto CRLF s) as [ln|] eqn:Hu; [|by eexists]. destruct (chunk_size ln) as [n|] eqn:Hn; [|by eexists].
  pose proof (chunk_size_nonneg _ _ Hn) as Hpos. destruct (upto_split _ _ _ Hu) as [body Es].
  assert (drop (length ln + 2) s = body) as -> by (rewrite Es, app_assoc, drop_app_length'; [done|lens]).
  pose proof (holds_end _ _ _ _ HH) as He. subst s. set (ds := chunkStartOff r + Z.of_nat (length ln) + 2).
  assert (Hbl : Z.of_nat (length (buffer r)) - ds = Z.of_nat (length body)) by (unfold ds; rewrite He; lens). rewrite Hbl.
  unfold chunk_body at 1. destruct (Z.ltb_spec (Z.of_nat (length body)) n) as [|Hlen]; [by eexists|].
  destruct (Z.eqb_spec n 0) as [->|Hz].
  { unfold ds. rewrite (last_chunk_spec _ _ _ _ _ HH). eexists. split; [reflexivity|]. unfold chunk_body.
    destruct (Z.ltb_spec (Z.of_nat (length body)) 0); [lia|]. cbn [Z.eqb].
    assert (Hgo : forall u rest, body = u ++ rest -> exists r',
      Stop SOCK_READY (set_chunk (buffer r) (Z.of_nat (length (buffer r)) - Z.of_nat (length rest)) (chunkWriteOff r) r) = Stop SOCK_READY r' /\
      same_rest r r' /\ Holds r' pre dec rest).
    { intros u rest ->. eexists. split; [reflexivity|]. split; [done|]. eapply (holds_skip _ _ _ (ln ++ CRLF ++ u)).
      - by rewrite <- !app_assoc.
      - rewrite He. lens. }
    case_bool_decide as E; [apply (Hgo (take 2 body)); by rewrite take_drop|].
    destruct (upto (CRLF ++ CRLF) body) as [t|] eqn:Et; [|done]. apply (Hgo (take (length t + 4) body)). by rewrite take_drop. }
  set (d := take (Z.to_nat n) body). assert (Hd : n = Z.of_nat (length d)) by (unfold d; rewrite length_take; lia).
  assert (Eb : body = d ++ drop (Z.to_nat n) body) by (by unfold d; rewrite take_drop).
  set (tail := drop (Z.to_nat n) body) in *. rewrite Eb in HH.
  assert (Ht : Z.of_nat (length (buffer r)) - (ds + n) = Z.of_nat (length tail)).
  { rewrite Z.sub_add_distr, Hbl, Eb, Hd. lens. }
  rewrite Ht. destruct (write_chunk_spec r pre dec ln d tail HH) as (r1 & Ew & Hs1 & Hw1 & HH1). fold ds in Ew, HH1. rewrite <- Hd in Ew, HH1.
  destruct tail as [|c0 [|c1 rest]]; cbn [length].
  - destruct (Z.ltb_spec (Z.of_nat 0) 2); [|lia].
    assert (chunkWriteOff r - coff r + n = Z.of_nat (length dec) + Z.of_nat (length d)) as ->.
    { destruct HH as (gap & _ & -> & -> & _). rewrite Hd. lens. }
    rewrite wrap64_id by (destruct HH as (gap & Hb & _ & _ & _ & Hl); rewrite Hb in Hl; revert Hl; lens).
    destruct (Z.eqb_spec (ds + n) (Z.of_nat (length (buffer r)))); [|cbn in Ht; lia]. rewrite andb_true_r.
    destruct (_ && _); [|by eexists]. rewrite Ew. cbn [mbind option_bind]. eexists. split; [reflexivity|].
    eexists. split; [reflexivity|]. split; [|done]. eapply same_rest_trans; [exact Hs1|done].
  - destruct (Z.ltb_spec (Z.of_nat 1) 2); [|lia]. destruct (Z.eqb_spec (ds + n) (Z.of_nat (length (buffer r)))); [cbn in Ht; lia|].
    rewrite andb_false_r. by eexists.
  - destruct (Z.ltb_spec (Z.of_nat (S (S (length rest)))) 2); [lia|].
    assert (Hg : forall i c u v, c0 :: c1 :: rest = u ++ c :: v -> i = ds + n + Z.of_nat (length u) -> aget (buffer r) i = Some c).
    { intros i c u v E ->. rewrite E in HH. rewrite <- (holds_get r pre dec (ln ++ CRLF ++ d ++ u) c v) by (by rewrite <- !app_assoc).
      f_equal. unfold ds. rewrite Hd. lens. }
    rewrite (Hg (ds + n) c0 [] (c1 :: rest)), (Hg (ds + n + 1) c1 [c0] rest) by (done || cbn; lia). cbn [mbind option_bind].
    destruct (Z.eqb_spec c0 13) as [->|]; [|by eexists]. destruct (Z.eqb_spec c1 10) as [->|]; [|by eexists]. cbn [negb orb andb].
    rewrite Ew. cbn [mbind option_bind]. eexists. split; [reflexivity|]. eexists. split; [reflexivity|].
    split; [eapply same_rest_trans; [exact Hs1|done]|]. change (13 :: 10 :: rest) with (CRLF ++ rest) in HH1.
    apply (holds_skip _ _ _ _ _ (ds + n + 2)) in HH1; [done|]. cbn. lia.
Qed.

(** Every chunk takes input. *)
Lemma next_chunk_shrinks s d rest : next_chunk s = Data d rest -> (length rest < length s)%nat /\ d <> [].
Proof.
  destruct (next_chunk_cases s) as [->|[->|(ln & n & body & _ & _ & -> & Hn & ->)]]; [done..|].
  intros (-> & _ & Hd)%chunk_body_Data; [|done]. split; [lens|done].
Qed.

Lemma dechunk_fuel fuel fuel' e cur s : (length s < fuel)%nat -> (length s < fuel')%nat -> dechunk fuel e cur s = dechunk fuel' e cur s.
Proof.
  revert fuel' cur s. induction fuel as [|fuel IH]; intros fuel' cur s H H'; [lia|]. destruct fuel' as [|fuel']; [lia|].
  cbn [dechunk]. destruct s as [|c s]; [done|]. destruct (next_chunk (c :: s)) as [| | |d rest|] eqn:E; try done.
  apply next_chunk_shrinks in E as [E _]. rewrite (IH fuel'); [done|lia..].
Qed.

(** [ChunkedDecode] is [dechunk] on the input in the buffer. *)
Lemma decode_rounds_spec fuel r pre dec s :
  Holds r pre dec s -> (length s < fuel)%nat ->
  let '(st, d, rest) := dechunk fuel (expectedLength r) (Z.of_nat (length dec)) s in
  exists r', decode_rounds fuel true r = Some (st, r') /\ same_rest r r' /\ Holds r' pre (dec ++ d) rest.
Proof.
  revert r dec s. induction fuel as [|fuel IH]; intros r dec s HH Hf; [lia|]. cbn [dechunk decode_rounds].
  rewrite (holds_end _ _ _ _ HH).
  destruct s as [|c s]; [rewrite (proj2 (Z.ltb_ge _ _)) by (cbn; lia); exists r; split_and!; [done|apply same_rest_refl|by rewrite app_nil_r]|].
  rewrite (proj2 (Z.ltb_lt _ _)) by (cbn [length]; lia).
  destruct (chunk_round_spec _ _ _ _ HH) as (x & -> & Hx). cbn [mbind option_bind].
  assert (Hself : forall st : SockState, exists r', Some (st, r) = Some (st, r') /\ same_rest r r' /\ Holds r' pre (dec ++ []) (c :: s)).
  { intros st. exists r. split_and!; [done|apply same_rest_refl|by rewrite app_nil_r]. }
  destruct (next_chunk (c :: s)) as [| |rest|d rest|d] eqn:E.
  - subst x. apply Hself.
  - subst x. apply Hself.
  - destruct Hx as (r' & -> & Hs & HH'). exists r'. by rewrite app_nil_r.
  - destruct Hx as (r' & -> & Hs & HH'). apply next_chunk_shrinks in E as [Hlt _]. specialize (IH r' (dec ++ d) rest HH' ltac:(lia)).
    replace (expectedLength r') with (expectedLength r) in IH by (destruct Hs as [-> _]; done).
    rewrite length_app, Nat2Z.inj_add in IH. destruct (dechunk fuel _ _ rest) as [[st ds] rest'].
    destruct IH as (r2 & -> & Hs2 & HH2). exists r2. split_and!; [done|by eapply same_rest_trans|by rewrite app_assoc].
  - destruct (_ && _); [|subst x; apply Hself]. destruct Hx as (r' & -> & Hs & HH'). by exists r'.
Qed.

(** More input does not change what was decoded from the input before. *)
Lemma chunk_body_grows n body t : 0 <= n ->
  match chunk_body n body with
  | Bad => chunk_body n (body ++ t) = Bad
  | Last rest => chunk_body n (body ++ t) = Last (rest ++ t)
  | Data d rest => chunk_body n (body ++ t) = Data d (rest ++ t)
  | More | Short _ => True
  end.
Proof.
  intros Hn. unfold chunk_body. destruct (Z.ltb_spec (Z.of_nat (length body)) n) as [|Hlen]; [done|].
  destruct (Z.ltb_spec (Z.of_nat (length (body ++ t))) n) as [|_]; [revert Hlen; lens|]. destruct (Z.eqb_spec n 0) as [->|Hz].
  - case_bool_decide as E.
    + assert (2 <= length body)%nat by (apply (f_equal length) in E; revert E; lens).
      rewrite take_app_le, drop_app_le, bool_decide_eq_true_2 by (done || lia). done.
    + destruct (upto (CRLF ++ CRLF) body) as [u|] eqn:Eu; [|done]. rewrite (upto_grows _ _ _ t) with (2 := Eu) by done.
      destruct (upto_split _ _ _ Eu) as [r Er]. assert (length u + 4 <= length body)%nat by (rewrite Er; lens).
      rewrite take_app_le, bool_decide_eq_false_2, drop_app_le by (done || lia). done.
  - destruct (drop (Z.to_nat n) body) as [|c0 [|c1 rest]] eqn:Ed; [done..|].
    assert (Z.to_nat n <= length body)%nat by lia. rewrite drop_app_le, take_app_le, Ed by done. cbn [app].
    by destruct ((c0 =? 13) && (c1 =? 10)).
Qed.

Lemma next_chunk_grows s t :
  match next_chunk s with
  | Bad => next_chunk (s ++ t) = Bad
  | Last rest => next_chunk (s ++ t) = Last (rest ++ t)
  | Data d rest => next_chunk (s ++ t) = Data d (rest ++ t)
  | More | Short _ => True
  end.
Proof.
  unfold next_chunk. destruct (upto CRLF s) as [ln|] eqn:Hu; [|done]. rewrite (upto_grows _ _ _ t) with (2 := Hu) by done.
  destruct (chunk_size ln) as [n|] eqn:Hn; [|done]. destruct (upto_split _ _ _ Hu) as [body Es].
  rewrite drop_app_le by (rewrite Es; lens). apply chunk_body_grows. by eapply chunk_size_nonneg.
Qed.

(** ** Input in pieces *)

(** [dechunk] with enough fuel. *)
Definition decode (s : list Z) : SockState * list Z * list Z := dechunk (S (length s)) 0 0 s.

Lemma dechunk_decode fuel cur s : (length s < fuel)%nat -> dechunk fuel 0 cur s = decode s.
Proof.
  intros Hf. rewrite (dechunk_fuel _ (S (length s)) _ _ _ Hf ltac:(lia)). unfold decode. generalize (S (length s)) as k. intros k.
  clear Hf. revert cur s. generalize 0 at 3 as cur'. induction k as [|k IH]; intros cur' cur s; [done|].
  cbn [dechunk]. destruct s as [|c s]; [done|]. destruct (next_chunk (c :: s)) as [| | |d rest|]; try done.
  by rewrite (IH (cur' + Z.of_nat (length d))).
Qed.

Lemma decode_step s : decode s =
  match next_chunk s with
  | More | Short _ => (SOCK_MORE, [], s)
  | Bad => (SOCK_BADREQUEST, [], s)
  | Last rest => (SOCK_READY, [], rest)
  | Data d rest => let '(st, ds, r) := decode rest in (st, d ++ ds, r)
  end.
Proof.
  unfold decode at 1. cbn [dechunk]. destruct s as [|c s]; [done|]. destruct (next_chunk (c :: s)) as [| | |d rest|] eqn:E; try done.
  rewrite dechunk_decode; [done|]. apply next_chunk_shrinks in E. lia.
Qed.

(** Input that arrives later is decoded as if it had been there from the start. *)
Lemma decode_app s t :
  let '(st, d, rest) := decode s in
  decode (s ++ t) =
    match st with
    | SOCK_MORE => let '(st', d', rest') := decode (rest ++ t) in (st', d ++ d', rest')
    | _ => (st, d, rest ++ t)
    end.
Proof.
  remember (length s) as n eqn:En. revert s En. induction n as [n IH] using lt_wf_ind. intros s ->.
  rewrite (decode_step s), (decode_step (s ++ t)). pose proof (next_chunk_grows s t) as Hg.
  destruct (next_chunk s) as [| |rest|d rest|d] eqn:E; try by rewrite Hg.
  - rewrite <- decode_step. by destruct (decode (s ++ t)) as [[??]?].
  - rewrite Hg. apply next_chunk_shrinks in E as [E _]. specialize (IH _ E rest eq_refl).
    destruct (decode rest) as [[st ds] r]. rewrite IH. destruct st; try done.
    destruct (decode (r ++ t)) as [[st' d'] r']. by rewrite app_assoc.
  - rewrite <- decode_step. by destruct (decode (s ++ t)) as [[??]?].
Qed.

(** More bytes in the buffer. *)
Definition arrive (t : list Z) (r : Request) : Request :=
  mkRequest (line r) (version r) (headers r) (content r) (length_ r) (contentLength r) (avail r + Z.of_nat (length t)) (expectedLength r)
    (chunkStartOff r) (chunkWriteOff r) (woff r + Z.of_nat (length t)) (roff r) (coff r) (leftover r) (buffer r ++ t) (savedChar r).

(** The decoder called for every piece until the message is complete or bad: the state,
    the pieces that are not read and the request. *)
Fixpoint feed (pieces : list (list Z)) (r : Request) : option (SockState * list (list Z) * Request) :=
  match pieces with
  | [] => Some (SOCK_MORE, [], r)
  | t :: pieces =>
      '(st, r) ← ChunkedDecode (arrive t r) true;
      match st with SOCK_MORE => feed pieces r | _ => Some (st, pieces, r) end
  end.

Lemma holds_arrive r pre dec s t : Holds r pre dec s -> Z.of_nat (length (buffer r ++ t)) < 2 ^ 63 -> Holds (arrive t r) pre dec (s ++ t).
Proof. intros (gap & Hb & Hc & Hw & Hs & _) Hl. exists gap. cbn. split_and!; [by rewrite Hb, <- !app_assoc|done..]. Qed.

Lemma feed_spec pieces : forall r pre dec s,
  Holds r pre dec s -> expectedLength r = 0 -> Z.of_nat (length (buffer r ++ concat pieces)) < 2 ^ 63 ->
  decode s = (SOCK_MORE, [], s) ->
  exists st later r' d rest read, feed pieces r = Some (st, later, r') /\ pieces = read ++ later /\
    decode (s ++ concat read) = (st, d, rest) /\ Holds r' pre (dec ++ d) rest /\ (st = SOCK_MORE -> later = []).
Proof.
  induction pieces as [|t pieces IH]; intros r pre dec s HH He Hl Hm; cbn [feed concat] in *.
  - exists SOCK_MORE, [], r, [], s, []. cbn [concat]. rewrite !app_nil_r. done.
  - pose proof (holds_arrive r pre dec s t HH ltac:(revert Hl; lens)) as HA.
    unfold ChunkedDecode. pose proof (decode_rounds_spec (S (length (buffer (arrive t r)))) _ _ _ _ HA) as HD.
    assert (Hs : (length (s ++ t) < S (length (buffer (arrive t r))))%nat).
    { destruct HA as (gap & -> & _). lens. }
    specialize (HD Hs). cbn [arrive expectedLength] in HD. rewrite He, (dechunk_decode _ _ _ Hs) in HD.
    destruct (decode (s ++ t)) as [[st d] rest] eqn:Ed. destruct HD as (r' & -> & [Hr Hlen] & HH'). cbn [mbind option_bind].
    destruct (decide (st = SOCK_MORE)) as [->|Hne].
    + assert (Hrest : decode rest = (SOCK_MORE, [], rest)).
      { pose proof (decode_app (s ++ t) []) as H0. rewrite Ed, !app_nil_r in H0. rewrite Ed in H0.
        destruct (decode rest) as [[st' d'] r2] eqn:E2. injection H0 as <- Hd <-.
        f_equal. f_equal. apply (f_equal length) in Hd. rewrite length_app in Hd. destruct d'; [done|cbn in Hd; lia]. }
      destruct (IH r' pre (dec ++ d) rest) as (st & later & r2 & d2 & rest2 & read & Ef & -> & Edec & HH2 & Hst).
      * done.
      * rewrite Hr. done.
      * rewrite length_app, Hlen. cbn [arrive buffer]. revert Hl. lens.
      * done.
      * exists st, later, r2, (d ++ d2), rest2, (t :: read). split_and!; [done|done| |by rewrite app_assoc|done].
        cbn [concat]. rewrite app_assoc. pose proof (decode_app (s ++ t) (concat read)) as HA2. rewrite Ed in HA2. rewrite HA2, Edec. done.
    + exists st, pieces, r', d, rest, [t]. cbn [concat]. rewrite app_nil_r. split_and!; try done. by destruct st.
Qed.

(** ** Encoded messages *)

(** No NUL and no CR. *)
Definition clean (l : list Z) : Prop := Forall (fun c => c <> 0 /\ c <> 13) l.

(** The line of a chunk: a hexadecimal number and perhaps an extension. *)
Definition size_line (ln : list Z) (n : Z) : Prop :=
  exists ds ext, ln = ds ++ ext /\ numeral 16 ds /\ value 16 ds = n /\ n < 2 ^ 63 /\ clean ext /\
    (ext = [] \/ exists x, ext = 59 :: x).

Lemma digit16_char c : is_digit 16 c -> c <> 0 /\ c <> 13 /\ c <> 120 /\ c <> 88.
Proof.
  unfold is_digit, digit_val, isdigit, islower, isupper. intros [d Hd]. split_and!; intros ->; by vm_compute in Hd.
Qed.

Lemma value_pos base ds : 0 <= base -> Forall (is_digit base) ds -> forall acc, 0 <= acc ->
  0 <= foldl (fun a c => a * base + default 0 (digit_val base c)) acc ds.
Proof.
  intros Hb. induction 1 as [|c ds [d Hc] _ IH]; intros acc Ha; [done|]. cbn. apply IH. rewrite Hc. cbn.
  assert (0 <= d); [|nia]. revert Hc. unfold digit_val, isdigit, islower, isupper. zcases; intros; simplify_eq; lia.
Qed.

Lemma digits_then base ds rest : forall acc, Forall (is_digit base) ds -> starts_digit base rest = false ->
  digits base acc (ds ++ rest) = (foldl (fun a c => a * base + default 0 (digit_val base c)) acc ds, rest).
Proof.
  induction ds as [|c ds IH]; intros acc Hd Hr; cbn.
  - destruct rest as [|c rest]; [done|]. cbn in *. by destruct (digit_val base c).
  - inversion Hd as [|?? [d Hc] Hd']; subst. rewrite Hc. cbn. by apply IH.
Qed.

Lemma strto16_numeral ds ext : numeral 16 ds -> (ext = [] \/ exists x, ext = 59 :: x) ->
  strto 16 (ds ++ ext) = Some (false, value 16 ds, ext).
Proof.
  intros Hn Hext. destruct (numeral_head 16 ds ltac:(lia) Hn) as [H1 H2]. pose proof Hn as [Hne Hd]. unfold strto.
  assert (Hx : starts_digit 16 ext = false) by (destruct Hext as [->|[x ->]]; done).
  assert (Ht : Ns_StrTrimLeft (ds ++ ext) = ds ++ ext) by (destruct ds as [|c ds]; [done|]; cbn [app Ns_StrTrimLeft]; by rewrite H1).
  assert (Hs : read_sign (ds ++ ext) = (false, ds ++ ext)).
  { destruct ds as [|c ds]; [done|]. destruct H2 as [? ?]. cbn. by rewrite (proj2 (Z.eqb_neq c 45)), (proj2 (Z.eqb_neq c 43)). }
  assert (H0x : skip_0x 16 (ds ++ ext) = ds ++ ext).
  { assert (Hc2 : forall c x l, ds ++ ext = c :: x :: l -> x <> 120 /\ x <> 88).
    { intros c x l E. destruct ds as [|a [|b ds']]; [done| |]; cbn in E.
      - destruct Hext as [->|[y ->]]; [done|]. injection E as <- <- <-. lia.
      - injection E as <- <- <-. inversion Hd as [|? ? _ Hd2]; subst. inversion Hd2 as [|? ? Hb _]; subst.
        by destruct (digit16_char b Hb) as (_ & _ & ? & ?). }
    destruct (ds ++ ext) as [|c [|x l]]; [done..|]. destruct (Hc2 c x l eq_refl). cbn.
    by rewrite (proj2 (Z.eqb_neq x 120)), (proj2 (Z.eqb_neq x 88)), andb_false_r by done. }
  rewrite Ht, Hs, H0x. assert (starts_digit 16 (ds ++ ext) = true) as ->.
  { pose proof (numeral_starts _ _ Hn). by destruct ds. }
  by rewrite (digits_then _ _ _ 0 Hd Hx).
Qed.

Lemma chunk_size_line ln n : size_line ln n -> chunk_size ln = Some n.
Proof.
  intros (ds & ext & -> & Hn & <- & Hb & Hc & Hext). unfold chunk_size, strtol. rewrite strto16_numeral by done.
  assert (0 <= value 16 ds) by (apply value_pos; [lia|apply Hn|lia]).
  unfold LONG_MIN, LONG_MAX. destruct (Z.ltb_spec (value 16 ds) (- 2 ^ 63)); [lia|].
  destruct (Z.ltb_spec (2 ^ 63 - 1) (value 16 ds)); [lia|]. destruct (Z.ltb_spec (value 16 ds) 0); [lia|].
  rewrite bool_decide_eq_false_2 by (intros E%(f_equal length); destruct Hn as [Hne _]; destruct ds; [done|revert E; lens]).
  destruct Hext as [->|[x ->]]; done.
Qed.

Lemma size_line_clean ln n : size_line ln n -> clean ln.
Proof.
  intros (ds & ext & -> & [_ Hd] & _ & _ & Hc & _). apply Forall_app. split; [|done].
  eapply Forall_impl; [exact Hd|]. intros c Hd'. cbn. by destruct (digit16_char c Hd') as (? & ? & _).
Qed.

Lemma before_nul_app s t : Forall (fun c => c <> 0) s -> before_nul (s ++ t) = s ++ before_nul t.
Proof. induction 1 as [|c s Hc _ IH]; [done|]. cbn. by rewrite (proj2 (Z.eqb_neq c 0)), IH. Qed.

Lemma clean_nz l : clean l -> Forall (fun c => c <> 0) l.
Proof. intros H. eapply Forall_impl; [exact H|]. by intros c [? _]. Qed.

(** A search for CR passes over clean text. *)
Lemma strstr_clean l s needle : clean l -> strstr (l ++ s) (13 :: needle) = strstr s (13 :: needle).
Proof.
  induction 1 as [|c l [_ Hc] _ IH]; [done|]. cbn [app strstr]. rewrite bool_decide_eq_false_2; [done|].
  cbn. intros E. by injection E.
Qed.

Lemma upto_clean ln s : clean ln -> upto CRLF (ln ++ CRLF ++ s) = Some ln.
Proof.
  intros Hc. unfold upto. rewrite before_nul_app by (by apply clean_nz). cbn [app CRLF before_nul]. cbn [Z.eqb].
  rewrite (strstr_clean _ _ [10]) by done. cbn [strstr]. rewrite bool_decide_eq_true_2 by (cbn; by rewrite take_0).
  cbn [mbind option_bind]. f_equal. apply take_app_length'. lens.
Qed.

(** A chunk, the trailer section with its empty line, and a whole message. *)
Definition chunk (c : list Z * list Z) : list Z := c.1 ++ CRLF ++ c.2 ++ CRLF.
Definition trailer (fields : list (list Z)) : list Z := concat (map (fun f => f ++ CRLF) fields) ++ CRLF.
Definition message (chunks : list (list Z * list Z)) (last_line : list Z) (fields : list (list Z)) : list Z :=
  concat (map chunk chunks) ++ last_line ++ CRLF ++ trailer fields.

Definition chunk_ok (c : list Z * list Z) : Prop := c.2 <> [] /\ size_line c.1 (Z.of_nat (length c.2)).
Definition field_ok (f : list Z) : Prop := f <> [] /\ clean f.

Lemma next_chunk_chunk c s : chunk_ok c -> next_chunk (chunk c ++ s) = Data c.2 s.
Proof.
  intros [Hne Hl]. unfold chunk. rewrite <- !app_assoc. unfold next_chunk.
  rewrite upto_clean, (chunk_size_line _ _ Hl) by (by eapply size_line_clean).
  rewrite (app_assoc c.1), drop_app_length' by lens. unfold chunk_body.
  destruct (Z.ltb_spec (Z.of_nat (length (c.2 ++ CRLF ++ s))) (Z.of_nat (length c.2))) as [Hlt|_]; [revert Hlt; lens|].
  destruct (Z.eqb_spec (Z.of_nat (length c.2)) 0) as [E|_]; [destruct c.2; [done|cbn in E; lia]|].
  by rewrite Nat2Z.id, drop_app_length, take_app_length.
Qed.

(** The end of the trailer section is the first empty line. *)
Lemma trailer_end fields s : Forall field_ok fields -> fields <> [] ->
  exists t, trailer fields = t ++ CRLF ++ CRLF /\ take 2 (trailer fields ++ s) <> CRLF /\ upto (CRLF ++ CRLF) (trailer fields ++ s) = Some t.
Proof.
  intros Hf Hne. assert (Hs : exists t, trailer fields = t ++ CRLF ++ CRLF /\ Forall (fun c => c <> 0) t /\
    forall u, strstr (trailer fields ++ u) (CRLF ++ CRLF) = Some (CRLF ++ CRLF ++ u)).
  { clear s. induction Hf as [|f fields [Hf0 Hf] Hfs IH]; [done|]. unfold trailer in *. cbn [map concat].
    destruct fields as [|f' fields].
    - exists f. cbn [map concat app]. rewrite !app_nil_r. split_and!; [by rewrite <- app_assoc|by apply clean_nz|].
      intros u. rewrite <- !app_assoc. rewrite (strstr_clean _ _ (10 :: CRLF)) by done. cbn [app CRLF strstr].
      by rewrite bool_decide_eq_true_2 by (cbn; by rewrite take_0).
    - destruct IH as (t & Et & Hz & Hu); [done|]. exists (f ++ CRLF ++ t). split_and!.
      + rewrite <- !app_assoc. by rewrite Et.
      + apply Forall_app. split; [by apply clean_nz|]. apply Forall_app. split; [|done]. by repeat constructor.
      + intros u. rewrite <- !app_assoc. rewrite (strstr_clean _ _ (10 :: CRLF)) by done.
        specialize (Hu u). rewrite <- !app_assoc in Hu.
        assert (Hh : exists c x, concat (map (fun f => f ++ CRLF) (f' :: fields)) ++ CRLF ++ u = c :: x /\ c <> 13).
        { inversion Hfs as [|? ? [Hne' Hc'] _]; subst. destruct f' as [|c f']; [done|]. inversion Hc' as [|? ? [_ ?] _]; subst.
          by eexists c, _. }
        destruct Hh as (c & x & Ex & Hc). rewrite Ex in Hu |- *. cbn [app CRLF] in *. cbn [strstr] in Hu |- *.
        rewrite !bool_decide_eq_false_2 in * by (unfold CRLF; cbn; congruence). done. }
  destruct Hs as (t & Et & Hz & Hu). exists t. split_and!; [done| |].
  - destruct Hf as [|f fields [Hf0 Hf] _]; [done|]. destruct f as [|c f]; [done|]. inversion Hf as [|? ? [_ ?] _]; subst.
    unfold CRLF. cbn. congruence.
  - unfold upto. rewrite Et, <- !app_assoc, before_nul_app by done.
    change (before_nul (CRLF ++ CRLF ++ s)) with (CRLF ++ CRLF ++ before_nul s).
    specialize (Hu (before_nul s)). rewrite Et, <- !app_assoc in Hu. rewrite Hu. cbn [mbind option_bind]. f_equal.
    apply take_app_length'. lens.
Qed.

Lemma next_chunk_last ln fields s : size_line ln 0 -> Forall field_ok fields -> next_chunk (ln ++ CRLF ++ trailer fields ++ s) = Last s.
Proof.
  intros Hl Hf. unfold next_chunk. rewrite upto_clean, (chunk_size_line _ _ Hl) by (by eapply size_line_clean).
  rewrite (app_assoc ln), drop_app_length' by lens. unfold chunk_body.
  destruct (Z.ltb_spec (Z.of_nat (length (trailer fields ++ s))) 0); [lia|]. cbn [Z.eqb].
  destruct (decide (fields = [])) as [->|Hne]; [by rewrite bool_decide_eq_true_2 by done|].
  destruct (trailer_end fields s Hf Hne) as (t & Et & H2 & Hu). rewrite bool_decide_eq_false_2, Hu by done.
  rewrite Et, drop_app_length' by lens. done.
Qed.

Lemma decode_message chunks ln fields s : Forall chunk_ok chunks -> size_line ln 0 -> Forall field_ok fields ->
  decode (message chunks ln fields ++ s) = (SOCK_READY, concat (map snd chunks), s).
Proof.
  intros Hc Hl Hf. unfold message. induction Hc as [|c chunks Hc _ IH]; cbn [map concat].
  - rewrite decode_step. cbn [app]. rewrite <- !app_assoc, next_chunk_last by done. done.
  - rewrite decode_step, <- !app_assoc, next_chunk_chunk by done. rewrite <- !app_assoc in IH. by rewrite IH.
Qed.

(** ** The lengths in header fields *)

Lemma digits_ge acc l : 0 <= acc -> acc <= (digits 10 acc l).1.
Proof.
  revert acc. induction l as [|c l IH]; intros acc Ha; cbn [digits]; [done|]. destruct (digit_val 10 c) as [d|] eqn:E; [|done].
  assert (0 <= d) by (revert E; unfold digit_val, isdigit, islower, isupper; zcases; intros; simplify_eq; lia).
  etrans; [|apply IH]; lia.
Qed.

Lemma length_digits_spec p : forall v, 0 <= v <= UINT64_MAX ->
  length_digits p v = let '(m, rest) := digits 10 v p in if m <=? UINT64_MAX then Some (m, rest) else None.
Proof.
  induction p as [|c p IH]; intros v Hv; cbn [length_digits digits]; [by rewrite (proj2 (Z.leb_le _ _)) by lia|].
  destruct (isdigit c) eqn:Ec.
  - rewrite (isdigit_val c Ec). apply isdigit_range in Ec.
    destruct (Z.ltb_spec ((UINT64_MAX - (c - 48)) / 10) v) as [Hlt|Hle].
    + assert (UINT64_MAX < v * 10 + (c - 48)) by (Z.to_euclidean_division_equations; lia).
      pose proof (digits_ge (v * 10 + (c - 48)) p ltac:(lia)). destruct (digits _ _ p) as [m rest]. cbn in *.
      by rewrite (proj2 (Z.leb_gt _ _)) by lia.
    + apply IH. unfold UINT64_MAX in *. Z.to_euclidean_division_equations; lia.
  - assert (digit_val 10 c = None) as ->.
    { unfold digit_val. rewrite Ec. unfold islower, isupper. zcases; try done; lia. }
    by rewrite (proj2 (Z.leb_le _ _)) by lia.
Qed.

Lemma trim_left_nil l : Ns_StrTrimLeft l = [] <-> forallb isspace l = true.
Proof. induction l as [|c l IH]; [done|]. cbn [Ns_StrTrimLeft forallb]. by destruct (isspace c). Qed.

Lemma coding_token_spec p : match coding_token p with
  | Some (t, q) => p = t ++ q /\ Forall (fun c => isspace c = false /\ c <> 59 /\ c <> 44) t /\ match q with c :: _ => isspace c = true | [] => True end
  | None => exists t c q, p = t ++ c :: q /\ Forall (fun c => isspace c = false) t /\ (c = 59 \/ c = 44)
  end.
Proof.
  induction p as [|c p IH]; cbn [coding_token]; [done|]. destruct (isspace c) eqn:Ec; [done|].
  destruct (Z.eqb_spec c 59) as [->|H1]; [by exists [], 59, p; eauto|]. destruct (Z.eqb_spec c 44) as [->|H2]; [by exists [], 44, p; eauto|].
  cbn [orb]. destruct (coding_token p) as [[t q]|]; cbn [mbind option_bind].
  - destruct IH as (-> & Ht & Hq). split_and!; [done|by constructor|done].
  - destruct IH as (t & c' & q & -> & Ht & Hc). exists (c :: t), c', q. split_and!; [done|by constructor|done].
Qed.

Lemma token_head t : tolower <$> t = bytes "chunked" -> Forall (fun c => isspace c = false /\ c <> 59 /\ c <> 44) t.
Proof.
  intros E. apply Forall_forall. intros c Hc. assert (Hl : tolower c ∈ bytes "chunked") by (rewrite <- E; by apply list_elem_of_fmap_2).
  change (bytes "chunked") with [99; 104; 117; 110; 107; 101; 100] in Hl. unfold tolower, isupper, isspace in *.
  repeat (apply elem_of_cons in Hl as [Hl|Hl]; [revert Hl; zcases; intros; split_and!; try done; lia|]). by apply elem_of_nil in Hl.
Qed.

(** A Content-Length value is accepted exactly when it is a sequence of decimal
    digits, with white space around it at most, whose value fits in 64 bits, and that
    value is the result: no sign, no other base, no list and no overflow. *)
Theorem ContentLength_strict s n :
  ParseStrictContentLength s = Some n <->
  exists ws ds ws', s = ws ++ ds ++ ws' /\ forallb isspace ws = true /\ forallb isspace ws' = true /\
    numeral 10 ds /\ value 10 ds = n /\ n < 2 ^ 64.
Proof.
  unfold ParseStrictContentLength. destruct (trim_left_split s) as (ws & Es & Hw & Hh). split.
  - destruct (Ns_StrTrimLeft s) as [|c l] eqn:El; [done|]. rewrite length_digits_spec by done.
    destruct (digits_spec 10 0 (c :: l)) as [ds Hd]. destruct (digits 10 0 (c :: l)) as [m rest].
    destruct Hd as (E & Hds & _ & ->). destruct (Z.leb_spec (foldl (fun a c => a * 10 + default 0 (digit_val 10 c)) 0 ds) UINT64_MAX) as [Hle|]; [|done].
    destruct (Ns_StrTrimLeft rest) eqn:Et; [|done]. intros [= <-]. apply trim_left_nil in Et.
    exists ws, ds, rest. split_and!; [by rewrite <- E|done|done| |done|unfold value, UINT64_MAX in *; lia].
    split; [|done]. intros ->. cbn in E. subst rest. cbn in Et. rewrite (Hh c l eq_refl) in Et. done.
  - intros (ws1 & ds & ws2 & Es' & Hw1 & Hw2 & Hn & <- & Hb). pose proof (numeral_head 10 ds ltac:(lia) Hn) as [H1 _].
    assert (Ns_StrTrimLeft s = ds ++ ws2) as ->.
    { rewrite Es'. apply trim_left_skip; [done|]. destruct Hn as [Hne _]. by destruct ds. }
    assert (Hx : starts_digit 10 ws2 = false).
    { destruct ws2 as [|c ?]; [done|]. cbn in Hw2 |- *. apply andb_true_iff in Hw2 as [Hc _].
      destruct (digit_val 10 c) as [d|] eqn:E; [|done]. destruct (digit_not_special 10 c ltac:(lia)) as [? _]; [by exists d|]. congruence. }
    destruct Hn as [Hne Hds]. destruct (ds ++ ws2) as [|c l] eqn:El; [by destruct ds|]. rewrite <- El, length_digits_spec by done.
    rewrite (digits_then 10 ds ws2 0 Hds Hx). fold (value 10 ds). rewrite (proj2 (Z.leb_le _ _)) by (unfold UINT64_MAX; lia).
    by rewrite (proj2 (trim_left_nil ws2) Hw2).
Qed.

(** A Transfer-Encoding value is accepted exactly when it is the word chunked, in
    letters of any case and with white space around it at most: no other coding, no
    list and no parameters. *)
Theorem TransferEncoding_strict s :
  ParseRequestTransferEncoding s = true <->
  exists ws t ws', s = ws ++ t ++ ws' /\ forallb isspace ws = true /\ forallb isspace ws' = true /\ tolower <$> t = bytes "chunked".
Proof.
  unfold ParseRequestTransferEncoding. destruct (trim_left_split s) as (ws & Es & Hw & Hh). split.
  - pose proof (coding_token_spec (Ns_StrTrimLeft s)) as Hc. destruct (coding_token _) as [[t q]|]; [|done].
    destruct Hc as (Ec & _ & _). destruct (Ns_StrTrimLeft q) eqn:Eq; [|done]. unfold TransferCodingTokenEqual, strcaseeq.
    intros [_ Ht%bool_decide_eq_true]%andb_true_iff. exists ws, t, q. split_and!; [by rewrite <- Ec|done|by apply trim_left_nil|].
    rewrite Ht. reflexivity.
  - intros (ws1 & t & ws2 & Es' & Hw1 & Hw2 & Ht). pose proof (token_head t Ht) as Hf.
    assert (Hne : t <> []) by (intros ->; done).
    assert (Ns_StrTrimLeft s = t ++ ws2) as ->.
    { rewrite Es'. apply trim_left_skip; [done|]. destruct t as [|c t]; [done|]. by inversion Hf as [|? ? [? _] _]. }
    assert (Hct : coding_token (t ++ ws2) = Some (t, ws2)).
    { clear -Hf Hw2. induction Hf as [|c t (Hs & H1 & H2) _ IH]; cbn [app coding_token].
      - destruct ws2 as [|c ws2]; [done|]. cbn in Hw2 |- *. apply andb_true_iff in Hw2 as [-> _]. done.
      - rewrite Hs, (proj2 (Z.eqb_neq c 59)), (proj2 (Z.eqb_neq c 44)) by done. cbn [orb]. by rewrite IH. }
    rewrite Hct, (proj2 (trim_left_nil ws2) Hw2). unfold TransferCodingTokenEqual, strcaseeq.
    apply andb_true_iff. split; [|apply bool_decide_eq_true; by rewrite Ht].
    apply Z.eqb_eq. f_equal. rewrite <- (length_fmap tolower t), Ht. done.
Qed.

(** ** Decoding *)

(** Decoding in place does not depend on how the input arrives: called after every
    piece, the decoder stays within the buffer and ends, and whatever the bytes are,
    the state, the decoded data and the input left over are those of the decoder on
    the bytes read so far; input is left unread only after the end or an error. *)
Theorem ChunkedDecode_fragments r pre pieces :
  Holds r pre [] [] -> expectedLength r = 0 -> Z.of_nat (length (buffer r ++ concat pieces)) < 2 ^ 63 ->
  exists st later r' d rest read, feed pieces r = Some (st, later, r') /\ pieces = read ++ later /\
    decode (concat read) = (st, d, rest) /\ Holds r' pre d rest /\ (st = SOCK_MORE -> later = []).
Proof. intros HH He Hl. exact (feed_spec pieces r pre [] [] HH He Hl eq_refl). Qed.

(** A chunked message is decoded to its data: for any chunks of a well-formed
    message, with extensions and trailer fields, followed by any bytes and arriving in
    any pieces, decoding ends with the last byte of the message, the body is the data
    of the chunks, and the bytes behind the message are all still there. *)
Theorem chunked_message_decoded r pre chunks ln fields next pieces :
  Holds r pre [] [] -> expectedLength r = 0 -> Z.of_nat (length (buffer r ++ concat pieces)) < 2 ^ 63 ->
  Forall chunk_ok chunks -> size_line ln 0 -> Forall field_ok fields -> concat pieces = message chunks ln fields ++ next ->
  exists later r' rest, feed pieces r = Some (SOCK_READY, later, r') /\
    Holds r' pre (concat (map snd chunks)) rest /\ rest ++ concat later = next.
Proof.
  intros HH He Hl Hc Hln Hf Hp.
  destruct (feed_spec pieces r pre [] [] HH He Hl eq_refl) as (st & later & r' & d & rest & read & Ef & -> & Ed & HH' & Hst).
  pose proof (decode_message chunks ln fields next Hc Hln Hf) as Em. rewrite <- Hp, concat_app in Em. cbn [app] in Ed, HH'.
  pose proof (decode_app (concat read) (concat later)) as Ea. rewrite Ed in Ea. rewrite Em in Ea.
  destruct (decide (st = SOCK_MORE)) as [->|Hne].
  - rewrite (Hst eq_refl) in Em. cbn [concat] in Em. rewrite app_nil_r, Ed in Em. done.
  - exists later, r', rest. assert (Ea' : (SOCK_READY, concat (map snd chunks), next) = (st, d, rest ++ concat later)) by (by destruct st).
    injection Ea' as <- <- ->. done.
Qed.

(** The sizes of chunks are read more liberally than the grammar of HTTP says: white
    space, a plus sign and the prefix 0x in front of the digits are accepted and
    skipped, where another reader takes 0x10 for the size 0. *)
Theorem chunk_size_lenient ws ds :
  forallb isspace ws = true -> numeral 16 ds -> value 16 ds < 2 ^ 63 ->
  chunk_size (ws ++ 43 :: 48 :: 120 :: ds) = Some (value 16 ds).
Proof.
  intros Hw Hn Hb. assert (Hs : strto 16 (ws ++ 43 :: 48 :: 120 :: ds) = Some (false, value 16 ds, [])).
  { pose proof (proj2 (strto_hex ds false (value 16 ds)) (conj eq_refl (conj Hn eq_refl))) as H. unfold strto in *.
    rewrite trim_left_skip by done. exact H. }
  unfold chunk_size, strtol. rewrite Hs. assert (0 <= value 16 ds) by (apply value_pos; [lia|apply Hn|lia]).
  unfold LONG_MIN, LONG_MAX. destruct (Z.ltb_spec (value 16 ds) (- 2 ^ 63)); [lia|].
  destruct (Z.ltb_spec (2 ^ 63 - 1) (value 16 ds)); [lia|]. destruct (Z.ltb_spec (value 16 ds) 0); [lia|].
  rewrite bool_decide_eq_false_2; [done|]. intros E%(f_equal length). revert E. lens.
Qed.

(** ** The theorems at concrete inputs *)

(** A request whose header has been read. *)
Definition at_body (pre : list Z) : Request :=
  mkRequest (Some pre) (lit "1.1") [] None 0 0 0 0 (Z.of_nat (length pre)) (Z.of_nat (length pre)) (Z.of_nat (length pre))
    (Z.of_nat (length pre)) (Z.of_nat (length pre)) 0 pre 0.

Lemma at_body_holds pre : Z.of_nat (length pre) < 2 ^ 63 -> Holds (at_body pre) pre [] [].
Proof. intros H. exists []. cbn. rewrite !app_nil_r. done. Qed.

Definition ex_pieces : list (list Z) :=
  [bytes "3"; CRLF ++ bytes "ab"; bytes "c" ++ CRLF ++ bytes "0;last" ++ CRLF ++ bytes "X: y"; CRLF ++ CRLF ++ bytes "GET"].

Lemma ChunkedDecode_fragments_witness :
  exists st later r' d rest read, feed ex_pieces (at_body (bytes "POST")) = Some (st, later, r') /\ ex_pieces = read ++ later /\
    decode (concat read) = (st, d, rest) /\ Holds r' (bytes "POST") d rest /\ (st = SOCK_MORE -> later = []).
Proof.
  apply (ChunkedDecode_fragments (at_body (bytes "POST")) (bytes "POST") ex_pieces);
    [apply at_body_holds; reflexivity|reflexivity|vm_compute; reflexivity].
Defined.

Lemma chunked_message_decoded_witness : exists later r' rest,
  feed ex_pieces (at_body (bytes "POST")) = Some (SOCK_READY, later, r') /\
  Holds r' (bytes "POST") (bytes "abc") rest /\ rest ++ concat later = bytes "GET".
Proof.
  apply (chunked_message_decoded (at_body (bytes "POST")) (bytes "POST") [(bytes "3", bytes "abc")] (bytes "0;last") [bytes "X: y"]
    (bytes "GET") ex_pieces).
  - apply at_body_holds. reflexivity.
  - reflexivity.
  - vm_compute. reflexivity.
  - repeat constructor; [done|]. exists (bytes "3"), []. split_and!; [done| |done|done|constructor|by left].
    split; [done|]. repeat constructor; by eexists.
  - exists (bytes "0"), (bytes ";last"). split_and!; [done| |done|done| |right; by eexists].
    + split; [done|]. repeat constructor; by eexists.
    + repeat constructor; done.
  - repeat constructor; done.
  - reflexivity.
Defined.

Lemma chunk_size_lenient_witness : chunk_size (bytes " +0x10") = Some 16.
Proof.
  apply (chunk_size_lenient (bytes " ") (bytes "10")); [reflexivity| |reflexivity]. split; [done|]. repeat constructor; by eexists.
Defined.
