(* ===== verification/Sockaddr.v ===== *)
(** * Sockaddr: IP addresses, network masks and address classes of nsd/sockaddr.c.

    A socket address is kept in the storage that serves both families: the family,
    the port, the four bytes where [struct sockaddr_in] has its address and the
    sixteen bytes where [struct sockaddr_in6] has it (the two do not overlap).  A
    bitwise and of words that were read with [memcpy] is the and of their bytes in
    either byte order. *)

From S2P Require Import Prelude Str.

Definition AF_UNSPEC : Z := 0.
Definition AF_INET : Z := 2.
Definition AF_INET6 : Z := 10.

Record sockaddr := mkSockaddr {
  sa_family : Z;
  port : Z;
  sin_addr : list Z;
  sin6_addr : list Z
}.

Definition set_family (f : Z) (sa : sockaddr) : sockaddr := mkSockaddr f (port sa) (sin_addr sa) (sin6_addr sa).
Definition set_sin_addr (b : list Z) (sa : sockaddr) : sockaddr := mkSockaddr (sa_family sa) (port sa) b (sin6_addr sa).
Definition set_sin6_addr (b : list Z) (sa : sockaddr) : sockaddr := mkSockaddr (sa_family sa) (port sa) (sin_addr sa) b.

(** [memset(ptr, 0, sizeof(struct NS_SOCKADDR_STORAGE))]. *)
Definition zero_sockaddr : sockaddr := mkSockaddr AF_UNSPEC 0 (replicate 4 0) (replicate 16 0).

Definition band (a m : list Z) : list Z := zip_with Z.land a m.

(** [IN6_IS_ADDR_V4MAPPED]: the prefix ::ffff:0:0/96. *)
Definition mapped_prefix : list Z := replicate 10 0 ++ [0xff; 0xff].

Definition SockaddrGetMappedV4 (sa : sockaddr) : option (list Z) :=
  if (sa_family sa =? AF_INET6) && bool_decide (take 12 (sin6_addr sa) = mapped_prefix)
  then Some (drop 12 (sin6_addr sa)) else None.

Definition SockaddrSetMappedV4 (sa : sockaddr) (addr4 : list Z) : sockaddr :=
  set_sin6_addr (replicate 10 0 ++ [0xff; 0xff] ++ addr4) sa.

Definition SockaddrGetComparableV4 (sa : sockaddr) : option (list Z) :=
  if sa_family sa =? AF_INET then Some (sin_addr sa) else SockaddrGetMappedV4 sa.

(** Whether the mask could be applied, and the masked address. *)
Definition Ns_SockaddrMask (addr mask : sockaddr) : bool * sockaddr :=
  let fa := sa_family addr in
  let fm := sa_family mask in
  if (fa =? AF_INET6) && (fm =? AF_INET6) then
    (true, set_sin6_addr (band (sin6_addr addr) (sin6_addr mask)) addr)
  else if (fa =? AF_INET) && (fm =? AF_INET) then
    (true, set_sin_addr (band (sin_addr addr) (sin_addr mask)) addr)
  else if (fa =? AF_INET) && (fm =? AF_INET6) then
    match SockaddrGetMappedV4 mask with
    | Some mask4 => (true, set_sin_addr (band (sin_addr addr) mask4) addr)
    | None => (false, addr)
    end
  else if (fa =? AF_INET6) && (fm =? AF_INET) then
    match SockaddrGetMappedV4 addr with
    | Some addr4 => (true, SockaddrSetMappedV4 addr (band addr4 (sin_addr mask)))
    | None => (false, addr)
    end
  else (false, addr).

(** [same]: both arguments are the same pointer. *)
Definition Ns_SockaddrSameIP (same : bool) (addr1 addr2 : sockaddr) : bool :=
  let f1 := sa_family addr1 in
  let f2 := sa_family addr2 in
  if same then true
  else if (f1 =? AF_INET6) && (f2 =? AF_INET6) then bool_decide (sin6_addr addr1 = sin6_addr addr2)
  else if (f1 =? AF_INET) && (f2 =? AF_INET) then bool_decide (sin_addr addr1 = sin_addr addr2)
  else if (f1 =? AF_INET) && (f2 =? AF_INET6) then
    match SockaddrGetMappedV4 addr2 with
    | Some a6v4 => bool_decide (sin_addr addr1 = a6v4)
    | None => false
    end
  else if (f1 =? AF_INET6) && (f2 =? AF_INET) then
    match SockaddrGetMappedV4 addr1 with
    | Some a6v4 => bool_decide (a6v4 = sin_addr addr2)
    | None => false
    end
  else false.

(** The loop over the sixteen bytes of an IPv6 address. *)
Fixpoint masked_bytes (a m o : list Z) : bool :=
  match a, m, o with
  | x :: a, y :: m, z :: o => if negb (Z.land x y =? z) then false else masked_bytes a m o
  | _, _, _ => true
  end.

(** [same]: the three arguments are the same pointer. *)
Definition Ns_SockaddrMaskedMatch (same : bool) (addr mask masked : sockaddr) : bool :=
  if same then true
  else if (sa_family addr =? AF_INET6) && (sa_family mask =? AF_INET6) && (sa_family masked =? AF_INET6) then
    masked_bytes (sin6_addr addr) (sin6_addr mask) (sin6_addr masked)
  else if (sa_family addr =? AF_INET) && (sa_family mask =? AF_INET) && (sa_family masked =? AF_INET) then
    bool_decide (band (sin_addr addr) (sin_addr mask) = sin_addr masked)
  else
    match SockaddrGetComparableV4 addr, SockaddrGetComparableV4 mask, SockaddrGetComparableV4 masked with
    | Some a4, Some m4, Some o4 => bool_decide (band a4 m4 = o4)
    | _, _, _ => false
    end.

(** The bytes of a mask with [nrBits] leading ones, in an array of [size] bytes. *)
Definition mask_bytes (size nrBits : Z) : list Z :=
  let full := nrBits / 8 in
  let rem := nrBits mod 8 in
  replicate (Z.to_nat full) 0xff ++
  (if full <? size then
     if negb (rem =? 0)
     then UCHAR (Z.shiftl 0xff (8 - rem)) :: replicate (Z.to_nat (size - full - 1)) 0
     else replicate (Z.to_nat (size - full)) 0
   else []).

Definition Ns_SockaddrMaskBits (mask : sockaddr) (nrBits : Z) : bool * sockaddr :=
  if sa_family mask =? AF_INET6
  then (true, set_sin6_addr (mask_bytes 16 (if 128 <? nrBits then 128 else nrBits)) mask)
  else if sa_family mask =? AF_INET
  then (true, set_sin_addr (mask_bytes 4 (if 32 <? nrBits then 32 else nrBits)) mask)
  else (false, mask).

(** [htonl] of a 32-bit number: its bytes, the highest first. *)
Definition be32 (z : Z) : list Z :=
  [UCHAR (Z.shiftr z 24); UCHAR (Z.shiftr z 16); UCHAR (Z.shiftr z 8); UCHAR z].

Section Parse.

(** The C library's [inet_pton]: the bytes of a textual address of the family, or
    [None] when it returns a value that is not positive. *)
Variable inet_pton : Z -> list Z -> option (list Z).

Definition ns_inet_pton (sa : sockaddr) (addr : list Z) : bool * sockaddr :=
  match inet_pton AF_INET addr with
  | Some b => (true, set_family AF_INET (set_sin_addr b sa))
  | None =>
      match inet_pton AF_INET6 addr with
      | Some b => (true, set_family AF_INET6 (set_sin6_addr b sa))
      | None => (false, sa)
      end
  end.

(** The mask of a numeric prefix length, for the parsed address. *)
Definition prefix_mask (ip mask : sockaddr) (nrBits : Z) : sockaddr :=
  let mask := set_family (sa_family ip) mask in
  match SockaddrGetMappedV4 ip with
  | Some _ =>
      if (96 <=? nrBits) && (nrBits <=? 128) then
        let v4bits := nrBits - 96 in
        SockaddrSetMappedV4 (set_family AF_INET6 mask)
          (if v4bits =? 0 then be32 0
           else be32 (Z.lxor (2 ^ 32 - 1) ((Z.shiftl 1 (32 - v4bits) - 1) mod 2 ^ 32)))
      else (Ns_SockaddrMaskBits mask nrBits).2
  | None => (Ns_SockaddrMaskBits mask nrBits).2
  end.

(** Whether the result is [NS_OK], the address, the mask and the number of bits.
    [validMask < 0] never holds: [ns_inet_pton] and [Ns_SockaddrMaskBits] give 0 or
    1 for the two families. *)
Definition Ns_SockaddrParseIPMask (ipString : list Z) : bool * sockaddr * sockaddr * Z :=
  match strchr 47 ipString with
  | (_, None) =>
      let '(validIP, ip) := ns_inet_pton zero_sockaddr ipString in
      if validIP then
        let mask := set_family (sa_family ip) zero_sockaddr in
        let nrBits := if sa_family mask =? AF_INET6 then 128 else 32 in
        let '(ok, mask) := Ns_SockaddrMaskBits mask nrBits in
        (ok, ip, mask, if ok then nrBits else 0)
      else (false, ip, zero_sockaddr, 0)
  | (dupIpString, Some slash) =>
      let '(validIP, ip) := ns_inet_pton zero_sockaddr dupIpString in
      let '(mask, nrBits) :=
        match strchr 46 slash, strchr 58 slash with
        | (_, None), (_, None) =>
            let nrBits := ((strtol slash 10).1.1) mod 2 ^ 32 in
            (prefix_mask ip zero_sockaddr nrBits, nrBits)
        | _, _ =>
            let '(validMask, mask) := ns_inet_pton zero_sockaddr slash in
            (mask, if validMask then if sa_family mask =? AF_INET6 then 128 else 32 else 0)
        end in
      let '(ok, ip) := Ns_SockaddrMask ip mask in
      (validIP && ok, ip, mask, if validIP && ok then nrBits else 0)
  end.

(** An entry of the tables of networks: mask and masked address.  A string that
    cannot be parsed is logged, and its entry stays as the parser left it. *)
Record MaskedEntry := mkEntry { entry_mask : sockaddr; entry_masked : sockaddr }.

Definition SockkAddrInitMaskedEntry (cdirString : list Z) : MaskedEntry :=
  let '(_, ip, mask, _) := Ns_SockaddrParseIPMask cdirString in mkEntry mask ip.

Definition nonPublicCIDR : list (list Z) :=
  bytes <$> ["10.0.0.0/8"; "172.16.0.0/12"; "192.168.0.0/16"; "fc00::/7"; "127.0.0.0/8"; "::1/128";
             "169.254.0.0/16"; "fe80::/10"; "0.0.0.0/8"; "::/128"]%string.

(** The tables: the built-in networks and those of the trusted servers, a list of
    strings from the configuration ([None]: not configured). *)
Definition SockAddrInit (trustedservers : option (list (list Z))) : list MaskedEntry * option (list MaskedEntry) :=
  (SockkAddrInitMaskedEntry <$> nonPublicCIDR,
   match trustedservers with
   | Some (e :: elements) => Some (SockkAddrInitMaskedEntry <$> e :: elements)
   | _ => None
   end).

(** The loops over the tables. *)
Fixpoint in_entries (entries : list MaskedEntry) (sa : sockaddr) : bool :=
  match entries with
  | [] => false
  | e :: entries =>
      if Ns_SockaddrMaskedMatch false sa (entry_mask e) (entry_masked e) then true else in_entries entries sa
  end.

Definition Ns_SockaddrTrustedReverseProxy (trustedservers : option (list (list Z))) (sa : sockaddr) : bool :=
  match (SockAddrInit trustedservers).2 with
  | Some entries => in_entries entries sa
  | None => false
  end.

Definition Ns_SockaddrPublicIpAddress (sa : sockaddr) : bool := negb (in_entries (SockAddrInit None).1 sa).

End Parse.

Definition Ns_SockaddrInAny (sa : sockaddr) : bool :=
  if sa_family sa =? AF_INET then bool_decide (sin_addr sa = replicate 4 0)
  else if sa_family sa =? AF_INET6 then bool_decide (sin6_addr sa = replicate 16 0)
  else false.

Definition Ns_SockaddrSetLoopback (sa : sockaddr) : bool * sockaddr :=
  if sa_family sa =? AF_INET then (true, set_sin_addr [127; 0; 0; 1] sa)
  else if sa_family sa =? AF_INET6 then (true, set_sin6_addr (replicate 15 0 ++ [1]) sa)
  else (false, sa).

(** ** Addresses as strings of bits *)

(** Bit [i] of an address, the highest bit of the first byte being bit 0. *)
Definition abit (l : list Z) (i : Z) : bool := Z.testbit (nth (Z.to_nat (i / 8)) l 0) (7 - i mod 8).

Definition is_addr (size : nat) (l : list Z) : Prop := length l = size /\ Forall is_byte l.

(** Both addresses are in the same network of [n] bits. *)
Definition same_prefix (n : Z) (a b : list Z) : Prop := forall i, 0 <= i < n -> abit a i = abit b i.

Lemma nth_byte l k : Forall is_byte l -> is_byte (nth k l 0).
Proof. intros H. revert k. induction H; intros [|k]; cbn; unfold is_byte in *; auto; lia. Qed.

Lemma band_length a m : length a = length m -> length (band a m) = length a.
Proof. intros. unfold band. rewrite length_zip_with. lia. Qed.

Lemma band_bytes a m : Forall is_byte a -> Forall is_byte m -> Forall is_byte (band a m).
Proof.
  intros Ha. revert m. induction Ha as [|x a Hx Ha IH]; intros m Hm; [constructor|].
  destruct Hm as [|y m Hy Hm]; [constructor|]. cbn. constructor; [by apply land_byte|]. by apply IH.
Qed.

Lemma band_addr k a m : is_addr k a -> is_addr k m -> is_addr k (band a m).
Proof. intros [??] [??]. split; [rewrite band_length; congruence|by apply band_bytes]. Qed.

Lemma abit_band a m i : length a = length m -> abit (band a m) i = abit a i && abit m i.
Proof.
  unfold abit. generalize (Z.to_nat (i / 8)) as k. intros k Hl. rewrite <- Z.land_spec. f_equal.
  revert k m Hl. induction a as [|x a IH]; intros k [|y m] Hl; cbn in *; try lia; destruct k; try done.
  apply IH. lia.
Qed.

Lemma bits_ext k a b : is_addr k a -> is_addr k b -> same_prefix (8 * Z.of_nat k) a b -> a = b.
Proof.
  intros [Hla Ha] [Hlb Hb] H. apply (nth_ext _ _ 0 0); [congruence|]. intros j Hj.
  apply byte_ext; [by apply nth_byte..|]. intros i Hi.
  specialize (H (8 * Z.of_nat j + (7 - i)) ltac:(lia)). unfold abit in H.
  rewrite (Z.mul_comm 8), Z.div_add_l, Z.div_small in H by lia.
  replace ((Z.of_nat j * 8 + (7 - i)) mod 8) with (7 - i) in H
    by (rewrite Z.add_comm, Z.mod_add by lia; rewrite Z.mod_small; lia).
  replace (Z.to_nat (Z.of_nat j + 0)) with j in H by lia. by replace (7 - (7 - i)) with i in H by lia.
Qed.

(** A mask of [n] bits has exactly its first [n] bits set, for both sizes. *)
Definition mask_check (size n : Z) : bool :=
  bool_decide (length (mask_bytes size n) = Z.to_nat size) &&
  forallb (fun x => (0 <=? x) && (x <? 256)) (mask_bytes size n) &&
  forallb (fun i => Bool.eqb (abit (mask_bytes size n) i) (i <? n)) (seqZ 0 (8 * size)).

Lemma mask_check_ok size n : (size = 4 \/ size = 16) -> 0 <= n <= 8 * size -> mask_check size n = true.
Proof.
  intros Hs Hn. assert (Hall : forallb (mask_check size) (seqZ 0 (8 * size + 1)) = true)
    by (destruct Hs as [-> | ->]; vm_compute; reflexivity).
  apply (proj1 (forallb_forall _ _) Hall). apply list_elem_of_In, elem_of_seqZ. lia.
Qed.

Lemma mask_spec size n : (size = 4 \/ size = 16) -> 0 <= n <= 8 * size ->
  is_addr (Z.to_nat size) (mask_bytes size n) /\
  forall i, 0 <= i < 8 * size -> abit (mask_bytes size n) i = (i <? n).
Proof.
  intros Hs Hn. pose proof (mask_check_ok size n Hs Hn) as H. unfold mask_check in H.
  apply andb_true_iff in H as [H H3]. apply andb_true_iff in H as [H1 H2]. apply bool_decide_eq_true in H1.
  split; [split; [done|]|].
  - apply Forall_forall. intros x Hx%list_elem_of_In. apply (proj1 (forallb_forall _ _) H2) in Hx.
    unfold is_byte. revert Hx. zcases; lia || done.
  - intros i Hi. apply Bool.eqb_prop. apply (proj1 (forallb_forall _ _) H3). apply list_elem_of_In, elem_of_seqZ. lia.
Qed.

Lemma mask4_addr n : 0 <= n <= 32 -> is_addr 4 (mask_bytes 4 n).
Proof. intros. apply (mask_spec 4 n); lia. Qed.
Lemma mask16_addr n : 0 <= n <= 128 -> is_addr 16 (mask_bytes 16 n).
Proof. intros. apply (mask_spec 16 n); lia. Qed.

(** Masking compares the network parts. *)
Lemma band_mask_eq size n a b :
  (size = 4 \/ size = 16) -> 0 <= n <= 8 * size -> is_addr (Z.to_nat size) a -> is_addr (Z.to_nat size) b ->
  band a (mask_bytes size n) = band b (mask_bytes size n) <-> same_prefix n a b.
Proof.
  intros Hs Hn Ha Hb. destruct (mask_spec size n Hs Hn) as [Hm Hbit].
  assert (length a = length (mask_bytes size n) /\ length b = length (mask_bytes size n)) as [Ea Eb].
  { destruct Ha, Hb, Hm. split; congruence. }
  split.
  - intros E i Hi. pose proof (abit_band a _ i Ea) as Xa. pose proof (abit_band b _ i Eb) as Xb.
    rewrite Hbit in Xa, Xb by lia. destruct (Z.ltb_spec i n); [|lia]. rewrite andb_true_r in Xa, Xb. congruence.
  - intros H. apply (bits_ext (Z.to_nat size)); [by apply band_addr..|]. intros i Hi.
    rewrite !abit_band, !Hbit by (done || lia). destruct (Z.ltb_spec i n); [by rewrite H by lia|by rewrite !andb_false_r].
Qed.

Lemma band_full16 a : is_addr 16 a -> band a (mask_bytes 16 128) = a.
Proof.
  intros Ha. pose proof (mask16_addr 128 ltac:(lia)) as Hm. apply (bits_ext 16); [by apply band_addr|done|].
  intros i Hi. rewrite abit_band by (destruct Ha, Hm; congruence).
  rewrite (proj2 (mask_spec 16 128 ltac:(by right) ltac:(lia))) by lia.
  destruct (Z.ltb_spec i 128); [by rewrite andb_true_r|lia].
Qed.

Lemma masked_bytes_eq a m o : length a = length m -> length a = length o ->
  masked_bytes a m o = bool_decide (band a m = o).
Proof.
  revert m o. induction a as [|x a IH]; intros [|y m] [|z o] Hm Ho; cbn in *; try lia; [done|].
  destruct (Z.eqb_spec (Z.land x y) z); cbn [negb].
  - rewrite IH by lia. apply bool_decide_ext. unfold band. split; [intros; congruence|by intros [= ]].
  - symmetry. apply bool_decide_eq_false. by intros [= ].
Qed.

(** ** Parsing *)

(** A prefix length that is printed in decimal is read as such. *)
Definition prefix_check (n : Z) : bool :=
  bool_decide ((strchr 46 (dec n)).2 = None) && bool_decide ((strchr 58 (dec n)).2 = None) &&
  bool_decide ((strtol (dec n) 10).1.1 mod 2 ^ 32 = n).

Lemma prefix_read n : 0 <= n <= 128 ->
  (strchr 46 (dec n)).2 = None /\ (strchr 58 (dec n)).2 = None /\ (strtol (dec n) 10).1.1 mod 2 ^ 32 = n.
Proof.
  intros Hn. assert (Hall : forallb prefix_check (seqZ 0 129) = true) by (vm_compute; reflexivity).
  assert (H : prefix_check n = true).
  { apply (proj1 (forallb_forall _ _) Hall). apply list_elem_of_In, elem_of_seqZ. lia. }
  unfold prefix_check in H. apply andb_true_iff in H as [H H3]. apply andb_true_iff in H as [H1 H2].
  by split_and!; eapply bool_decide_eq_true.
Qed.

Section Pton.
Variable inet_pton : Z -> list Z -> option (list Z).

(** What the parser does behind a slash, when the suffix is a number. *)
Lemma parse_prefix ip s :
  47 ∉ ip -> (strchr 46 s).2 = None -> (strchr 58 s).2 = None ->
  Ns_SockaddrParseIPMask inet_pton (ip ++ 47 :: s) =
    let n := (strtol s 10).1.1 mod 2 ^ 32 in
    let '(validIP, sa) := ns_inet_pton inet_pton zero_sockaddr ip in
    let '(ok, sa') := Ns_SockaddrMask sa (prefix_mask sa zero_sockaddr n) in
    (validIP && ok, sa', prefix_mask sa zero_sockaddr n, if validIP && ok then n else 0).
Proof.
  intros Hip H1 H2. unfold Ns_SockaddrParseIPMask. rewrite strchr_app by (by apply Forall_forall; intros x Hx ->).
  destruct (strchr 46 s) as [? [?|]]; [done|]. destruct (strchr 58 s) as [? [?|]]; [done|].
  by destruct (ns_inet_pton _ _ _).
Qed.

Lemma pton4 ip b : inet_pton AF_INET ip = Some b ->
  ns_inet_pton inet_pton zero_sockaddr ip = (true, mkSockaddr AF_INET 0 b (replicate 16 0)).
Proof. unfold ns_inet_pton. by intros ->. Qed.

Lemma pton6 ip b : inet_pton AF_INET ip = None -> inet_pton AF_INET6 ip = Some b ->
  ns_inet_pton inet_pton zero_sockaddr ip = (true, mkSockaddr AF_INET6 0 (replicate 4 0) b).
Proof. unfold ns_inet_pton. by intros -> ->. Qed.

Definition addr4 (b : list Z) : sockaddr := mkSockaddr AF_INET 0 b (replicate 16 0).
Definition addr6 (b : list Z) : sockaddr := mkSockaddr AF_INET6 0 (replicate 4 0) b.

Lemma parse4 ip s b n :
  47 ∉ ip -> (strchr 46 s).2 = None -> (strchr 58 s).2 = None -> (strtol s 10).1.1 mod 2 ^ 32 = n -> n <= 32 ->
  inet_pton AF_INET ip = Some b ->
  Ns_SockaddrParseIPMask inet_pton (ip ++ 47 :: s) =
    (true, addr4 (band b (mask_bytes 4 n)), addr4 (mask_bytes 4 n), n).
Proof.
  intros Hip H1 H2 Hn Hr Hb. rewrite parse_prefix, (pton4 _ _ Hb) by done. cbn zeta iota beta. rewrite Hn.
  unfold prefix_mask, SockaddrGetMappedV4. cbn. destruct (Z.ltb_spec 32 n); [lia|]. done.
Qed.

Definition is_mapped (b : list Z) : Prop := take 12 b = mapped_prefix.

Lemma parse6 ip n b :
  47 ∉ ip -> 0 <= n <= 128 -> inet_pton AF_INET ip = None -> inet_pton AF_INET6 ip = Some b -> ~ is_mapped b ->
  Ns_SockaddrParseIPMask inet_pton (ip ++ 47 :: dec n) =
    (true, addr6 (band b (mask_bytes 16 n)), addr6 (mask_bytes 16 n), n).
Proof.
  intros Hip Hn Hb4 Hb Hm. destruct (prefix_read n Hn) as (H1 & H2 & H3).
  rewrite parse_prefix, (pton6 _ _ Hb4 Hb) by done. cbn zeta iota beta. rewrite H3.
  unfold prefix_mask, SockaddrGetMappedV4. cbn [sa_family sin6_addr].
  rewrite bool_decide_eq_false_2 by done. cbn. destruct (Z.ltb_spec 128 n); [lia|]. done.
Qed.

(** The mask of a prefix of a mapped address. *)
Lemma mapped_mask_bytes k : 0 <= k <= 32 ->
  (if k =? 0 then be32 0 else be32 (Z.lxor (2 ^ 32 - 1) ((Z.shiftl 1 (32 - k) - 1) mod 2 ^ 32))) = mask_bytes 4 k.
Proof.
  intros Hk. set (f := fun k => bool_decide ((if k =? 0 then be32 0 else
    be32 (Z.lxor (2 ^ 32 - 1) ((Z.shiftl 1 (32 - k) - 1) mod 2 ^ 32))) = mask_bytes 4 k)).
  assert (Hall : forallb f (seqZ 0 33) = true) by (vm_compute; reflexivity).
  assert (H : f k = true); [|by apply bool_decide_eq_true in H].
  apply (proj1 (forallb_forall _ _) Hall). apply list_elem_of_In, elem_of_seqZ. lia.
Qed.

Lemma parse_mapped ip n b :
  47 ∉ ip -> 96 <= n <= 128 -> inet_pton AF_INET ip = None -> inet_pton AF_INET6 ip = Some (mapped_prefix ++ b) ->
  Ns_SockaddrParseIPMask inet_pton (ip ++ 47 :: dec n) =
    (true, addr6 (mapped_prefix ++ band b (mask_bytes 4 (n - 96))), addr6 (mapped_prefix ++ mask_bytes 4 (n - 96)), n).
Proof.
  intros Hip Hn Hb4 Hb. destruct (prefix_read n ltac:(lia)) as (H1 & H2 & H3).
  rewrite parse_prefix, (pton6 _ _ Hb4 Hb) by done. cbn zeta iota beta. rewrite H3.
  unfold prefix_mask, SockaddrGetMappedV4. cbn [sa_family sin6_addr].
  rewrite (take_app_length' mapped_prefix b 12), bool_decide_eq_true_2 by done. cbn [Z.eqb Pos.eqb andb].
  destruct (Z.leb_spec 96 n), (Z.leb_spec n 128); try lia. cbn [andb]. rewrite mapped_mask_bytes by lia. done.
Qed.
End Pton.

Lemma comparable_cases sa a :
  SockaddrGetComparableV4 sa = Some a ->
  (sa_family sa = AF_INET /\ sin_addr sa = a) \/
  (sa_family sa = AF_INET6 /\ sin6_addr sa = mapped_prefix ++ a).
Proof.
  unfold SockaddrGetComparableV4, SockaddrGetMappedV4. destruct (Z.eqb_spec (sa_family sa) AF_INET).
  - intros [= ]. by left.
  - destruct (Z.eqb_spec (sa_family sa) AF_INET6); cbn [andb]; [|done]. case_bool_decide as H; [|done].
    intros [= <-]. right. split; [done|]. by rewrite <- H, take_drop.
Qed.

(** The match against a network of IPv4 addresses. *)
Lemma match4 sa m o :
  Ns_SockaddrMaskedMatch false sa (addr4 m) (addr4 o) =
    match SockaddrGetComparableV4 sa with Some a => bool_decide (band a m = o) | None => false end.
Proof.
  unfold Ns_SockaddrMaskedMatch. cbn [sa_family sin_addr sin6_addr addr4].
  rewrite andb_false_r. cbn [andb]. unfold SockaddrGetComparableV4. cbn [sa_family sin_addr addr4].
  destruct (Z.eqb_spec (sa_family sa) AF_INET) as [H|H]; cbn; [done|by destruct (SockaddrGetMappedV4 sa)].
Qed.

(** The match of an IPv6 address against a network of IPv6 addresses. *)
Lemma match6 sa m o :
  sa_family sa = AF_INET6 -> length (sin6_addr sa) = length m -> length (sin6_addr sa) = length o ->
  Ns_SockaddrMaskedMatch false sa (addr6 m) (addr6 o) = bool_decide (band (sin6_addr sa) m = o).
Proof.
  intros Hf Hm Ho. unfold Ns_SockaddrMaskedMatch. cbn [sa_family sin_addr sin6_addr addr6]. rewrite Hf. cbn.
  by apply masked_bytes_eq.
Qed.

(** A rule [ip/n] for an IPv4 address is understood as the network of the first
    [n] bits: parsing succeeds, and an IPv4 address, native or mapped into IPv6,
    matches exactly if it agrees with [ip] on these bits; no other address matches. *)
Theorem cidr4_match inet_pton ip n b :
  47 ∉ ip -> 0 <= n <= 32 -> inet_pton AF_INET ip = Some b -> is_addr 4 b ->
  exists masked mask, Ns_SockaddrParseIPMask inet_pton (ip ++ 47 :: dec n) = (true, masked, mask, n) /\
    forall sa, match SockaddrGetComparableV4 sa with
               | Some a => is_addr 4 a -> Ns_SockaddrMaskedMatch false sa mask masked = true <-> same_prefix n a b
               | None => Ns_SockaddrMaskedMatch false sa mask masked = false
               end.
Proof.
  intros Hip Hn Hb Hab. destruct (prefix_read n ltac:(lia)) as (H1 & H2 & H3).
  rewrite (parse4 inet_pton ip (dec n) b n) by (done || lia).
  eexists _, _. split; [reflexivity|]. intros sa. rewrite match4. destruct (SockaddrGetComparableV4 sa) as [a|]; [|done].
  intros Ha. rewrite bool_decide_eq_true. by apply (band_mask_eq 4 n a b); [left| |..].
Qed.

Lemma mask6_not_mapped n : 0 <= n <= 128 -> ~ is_mapped (mask_bytes 16 n).
Proof.
  intros Hn. set (f := fun n => negb (bool_decide (take 12 (mask_bytes 16 n) = mapped_prefix))).
  assert (Hall : forallb f (seqZ 0 129) = true) by (vm_compute; reflexivity).
  assert (H : f n = true); [|by apply negb_true_iff, bool_decide_eq_false in H].
  apply (proj1 (forallb_forall _ _) Hall). apply list_elem_of_In, elem_of_seqZ. lia.
Qed.

(** A rule [ip/n] for an IPv6 address that is not a mapped one is understood as the
    network of the first [n] bits: an IPv6 address matches exactly if it agrees with
    [ip] on these bits, and no IPv4 address matches. *)
Theorem cidr6_match inet_pton ip n b :
  47 ∉ ip -> 0 <= n <= 128 -> inet_pton AF_INET ip = None -> inet_pton AF_INET6 ip = Some b -> is_addr 16 b ->
  ~ is_mapped b ->
  exists masked mask, Ns_SockaddrParseIPMask inet_pton (ip ++ 47 :: dec n) = (true, masked, mask, n) /\
    forall sa, (sa_family sa = AF_INET6 -> is_addr 16 (sin6_addr sa) ->
                 Ns_SockaddrMaskedMatch false sa mask masked = true <-> same_prefix n (sin6_addr sa) b) /\
               (sa_family sa <> AF_INET6 -> Ns_SockaddrMaskedMatch false sa mask masked = false).
Proof.
  intros Hip Hn Hb4 Hb Hab Hm. rewrite (parse6 inet_pton ip n b) by done.
  eexists _, _. split; [reflexivity|]. intros sa. pose proof (mask16_addr n Hn) as Hmask.
  assert (Hband : is_addr 16 (band b (mask_bytes 16 n))) by by apply band_addr. split.
  - intros Hf Ha. destruct Ha as [La Ha], Hmask as [Lm _], Hband as [Lb _].
    rewrite match6, bool_decide_eq_true by (done || congruence).
    by apply (band_mask_eq 16 n); [right| |..].
  - intros Hf. unfold Ns_SockaddrMaskedMatch. cbn [sa_family addr6]. rewrite (proj2 (Z.eqb_neq _ _) Hf). cbn [andb].
    rewrite andb_false_r. cbn [andb]. unfold SockaddrGetComparableV4 at 2, SockaddrGetMappedV4 at 1. cbn [sa_family addr6 sin6_addr].
    rewrite (bool_decide_eq_false_2 (take 12 (mask_bytes 16 n) = mapped_prefix)) by (by apply mask6_not_mapped).
    cbn. by destruct (SockaddrGetComparableV4 sa).
Qed.

(** A rule [ip/n] for a mapped address does not look at the first eighty bits of an
    IPv6 address: every IPv6 address with ffff in front of its last four bytes, mapped
    or not, is taken for a member of the IPv4 network. *)
Theorem mapped_cidr_ignores_prefix inet_pton ip n b :
  47 ∉ ip -> 96 <= n <= 128 -> inet_pton AF_INET ip = None ->
  inet_pton AF_INET6 ip = Some (mapped_prefix ++ b) -> is_addr 4 b ->
  exists masked mask, Ns_SockaddrParseIPMask inet_pton (ip ++ 47 :: dec n) = (true, masked, mask, n) /\
    forall sa p a, is_addr 10 p -> is_addr 4 a -> sa_family sa = AF_INET6 -> sin6_addr sa = p ++ [0xff; 0xff] ++ a ->
      Ns_SockaddrMaskedMatch false sa mask masked = true <-> same_prefix (n - 96) a b.
Proof.
  intros Hip Hn Hb4 Hb Hab. rewrite (parse_mapped inet_pton ip n b) by done.
  eexists _, _. split; [reflexivity|]. intros sa p a [Lp Hp] Ha Hf Hsa.
  pose proof (mask4_addr (n - 96) ltac:(lia)) as Hm.
  assert (Hband : is_addr 4 (band b (mask_bytes 4 (n - 96)))) by by apply band_addr.
  rewrite match6, bool_decide_eq_true.
  - rewrite Hsa. unfold mapped_prefix, band in *. rewrite <- !app_assoc.
    rewrite zip_with_app by (by rewrite length_replicate). rewrite zip_with_app by done.
    replace (zip_with Z.land p (replicate 10 0)) with (replicate 10 0); cycle 1.
    { symmetry. rewrite <- Lp. clear. induction p as [|x p IH]; [done|]. cbn. by rewrite Z.land_0_r, IH. }
    rewrite <- (band_mask_eq 4 (n - 96) a b) by (by left || lia || done). unfold band. split; [|by intros ->].
    intros E%app_inv_head. by apply app_inv_head in E.
  - done.
  - rewrite Hsa. destruct Ha, Hm. unfold mapped_prefix. lens.
  - rewrite Hsa. destruct Ha, Hband. unfold mapped_prefix. lens.
Qed.

Definition isalpha (c : Z) : bool := isupper c || islower c.

Lemma alpha_suffix s : Forall (fun c => isalpha c = true) s ->
  (strchr 46 s).2 = None /\ (strchr 58 s).2 = None /\ (strtol s 10).1.1 = 0.
Proof.
  intros H. assert (Hc : forall c, isalpha c = true -> 65 <= c <= 90 \/ 97 <= c <= 122).
  { intros c. unfold isalpha, isupper, islower. zcases; lia || done. }
  assert (Hchr : forall k, k < 65 -> (strchr k s).2 = None).
  { intros k Hk. induction H as [|c s Hs H IH]; [done|]. cbn. apply Hc in Hs.
    destruct (Z.eqb_spec c k); [lia|]. by destruct (strchr k s). }
  split_and!; [apply Hchr; lia..|]. destruct H as [|c s Hs H]; [done|]. apply Hc in Hs.
  unfold strtol, strto. assert (Ht : Ns_StrTrimLeft (c :: s) = c :: s).
  { cbn. unfold isspace. zcases; try lia; done. }
  rewrite Ht. cbn [read_sign]. rewrite (proj2 (Z.eqb_neq c 45)), (proj2 (Z.eqb_neq c 43)) by lia.
  assert (Hx : skip_0x 10 (c :: s) = c :: s) by by destruct s.
  rewrite Hx. cbn [starts_digit]. unfold digit_val. unfold isdigit, islower, isupper. by zcases; try lia.
Qed.

(** A rule whose prefix length is not a number is accepted and matches every IPv4
    address: [10.0.0.1/x] is read as [10.0.0.1/0]. *)
Theorem wrong_prefix_matches_all inet_pton ip s b sa a :
  47 ∉ ip -> Forall (fun c => isalpha c = true) s -> inet_pton AF_INET ip = Some b -> is_addr 4 b ->
  SockaddrGetComparableV4 sa = Some a -> is_addr 4 a ->
  exists masked mask, Ns_SockaddrParseIPMask inet_pton (ip ++ 47 :: s) = (true, masked, mask, 0) /\
    Ns_SockaddrMaskedMatch false sa mask masked = true.
Proof.
  intros Hip Hs Hb Hab Hsa Ha. destruct (alpha_suffix s Hs) as (H1 & H2 & H3).
  rewrite (parse4 inet_pton ip s b 0) by (done || lia || by rewrite H3).
  eexists _, _. split; [reflexivity|]. rewrite match4, Hsa. apply bool_decide_eq_true.
  apply (band_mask_eq 4 0 a b); [by left|lia|done..|]. intros i Hi. lia.
Qed.

(** ** Public addresses *)

(** What the C library gives for the addresses of the built-in table. *)
Class PtonTable (inet_pton : Z -> list Z -> option (list Z)) : Prop := {
  pton_v4 ip b : In (ip, b) [("10.0.0.0", [10;0;0;0]); ("172.16.0.0", [172;16;0;0]); ("192.168.0.0", [192;168;0;0]);
      ("127.0.0.0", [127;0;0;0]); ("169.254.0.0", [169;254;0;0]); ("0.0.0.0", [0;0;0;0])]%string ->
    inet_pton AF_INET (bytes ip) = Some b;
  pton_v6 ip b : In (ip, b) [("fc00::", 0xfc :: replicate 15 0); ("::1", (replicate 15 0 ++ [1])%list);
      ("fe80::", 0xfe :: 0x80 :: replicate 14 0); ("::", replicate 16 0)]%string ->
    inet_pton AF_INET (bytes ip) = None /\ inet_pton AF_INET6 (bytes ip) = Some b
}.

(** The networks of RFC 1918, loopback, link-local and this network. *)
Definition private4 (a : list Z) : Prop :=
  match a with
  | a :: b :: _ =>
      a = 10 \/ (a = 172 /\ 16 <= b < 32) \/ (a = 192 /\ b = 168) \/ a = 127 \/ (a = 169 /\ b = 254) \/ a = 0
  | _ => False
  end.
(** Unique local, loopback, link-local and unspecified addresses. *)
Definition private6 (a : list Z) : Prop :=
  match a with
  | a0 :: a1 :: _ =>
      0xfc <= a0 < 0xfe \/ a = replicate 15 0 ++ [1] \/ (a0 = 0xfe /\ 0x80 <= a1 < 0xc0) \/ a = replicate 16 0
  | _ => False
  end.

Lemma byte_forall (f : Z -> bool) b : forallb f (seqZ 0 256) = true -> is_byte b -> f b = true.
Proof.
  intros H Hb. apply (proj1 (forallb_forall _ _) H). apply list_elem_of_In, elem_of_seqZ. unfold is_byte in Hb. lia.
Qed.

Lemma land_255 b : is_byte b -> Z.land b 255 = b.
Proof. intros Hb. apply Z.eqb_eq. by apply (byte_forall (fun b => Z.land b 255 =? b)). Qed.

Section Public.
Context (inet_pton : Z -> list Z -> option (list Z)) `{!PtonTable inet_pton}.

Lemma entry4 (str ip : string) n b :
  bytes str = bytes ip ++ 47 :: dec n -> 47 ∉ bytes ip -> 0 <= n <= 32 -> inet_pton AF_INET (bytes ip) = Some b ->
  SockkAddrInitMaskedEntry inet_pton (bytes str) = mkEntry (addr4 (mask_bytes 4 n)) (addr4 (band b (mask_bytes 4 n))).
Proof.
  intros E Hip Hn Hb. destruct (prefix_read n ltac:(lia)) as (H1 & H2 & H3). unfold SockkAddrInitMaskedEntry.
  by rewrite E, (parse4 inet_pton (bytes ip) (dec n) b n) by (done || lia).
Qed.

Lemma entry6 (str ip : string) n b :
  bytes str = bytes ip ++ 47 :: dec n -> 47 ∉ bytes ip -> 0 <= n <= 128 ->
  inet_pton AF_INET (bytes ip) = None /\ inet_pton AF_INET6 (bytes ip) = Some b -> ~ is_mapped b ->
  SockkAddrInitMaskedEntry inet_pton (bytes str) = mkEntry (addr6 (mask_bytes 16 n)) (addr6 (band b (mask_bytes 16 n))).
Proof.
  intros E Hip Hn [Hb4 Hb] Hm. unfold SockkAddrInitMaskedEntry. by rewrite E, (parse6 inet_pton (bytes ip) n b) by done.
Qed.

Ltac table_side :=
  first [reflexivity | lia | apply (bool_decide_eq_true_1 (_ ∉ _)); vm_compute; reflexivity
        | apply pton_v4; cbn; tauto | apply pton_v6; cbn; tauto
        | let E := fresh in intros E; vm_compute in E; discriminate].

(** The built-in table: four-byte networks, and sixteen-byte networks. *)
Lemma table_entries :
  SockkAddrInitMaskedEntry inet_pton <$> nonPublicCIDR =
    (fun '(e, n) => match e with
                    | inl b => mkEntry (addr4 (mask_bytes 4 n)) (addr4 b)
                    | inr b => mkEntry (addr6 (mask_bytes 16 n)) (addr6 b)
                    end) <$>
    [(inl [10;0;0;0], 8); (inl [172;16;0;0], 12); (inl [192;168;0;0], 16); (inr (0xfc :: replicate 15 0), 7);
     (inl [127;0;0;0], 8); (inr (replicate 15 0 ++ [1]), 128); (inl [169;254;0;0], 16);
     (inr (0xfe :: 0x80 :: replicate 14 0), 10); (inl [0;0;0;0], 8); (inr (replicate 16 0), 128)].
Proof.
  unfold nonPublicCIDR. cbn [fmap list_fmap].
  rewrite (entry4 "10.0.0.0/8" "10.0.0.0" 8 [10;0;0;0]) by table_side.
  rewrite (entry4 "172.16.0.0/12" "172.16.0.0" 12 [172;16;0;0]) by table_side.
  rewrite (entry4 "192.168.0.0/16" "192.168.0.0" 16 [192;168;0;0]) by table_side.
  rewrite (entry4 "127.0.0.0/8" "127.0.0.0" 8 [127;0;0;0]) by table_side.
  rewrite (entry4 "169.254.0.0/16" "169.254.0.0" 16 [169;254;0;0]) by table_side.
  rewrite (entry4 "0.0.0.0/8" "0.0.0.0" 8 [0;0;0;0]) by table_side.
  rewrite (entry6 "fc00::/7" "fc00::" 7 (0xfc :: replicate 15 0)) by table_side.
  rewrite (entry6 "::1/128" "::1" 128 (replicate 15 0 ++ [1])) by table_side.
  rewrite (entry6 "fe80::/10" "fe80::" 10 (0xfe :: 0x80 :: replicate 14 0)) by table_side.
  rewrite (entry6 "::/128" "::" 128 (replicate 16 0)) by table_side.
  reflexivity.
Qed.

Lemma in_entries_true es sa :
  in_entries es sa = true <-> Exists (fun e => Ns_SockaddrMaskedMatch false sa (entry_mask e) (entry_masked e) = true) es.
Proof.
  induction es as [|e es IH]; cbn [in_entries]; [by rewrite Exists_nil|]. rewrite Exists_cons, <- IH.
  destruct (Ns_SockaddrMaskedMatch _ _ _ _); naive_solver.
Qed.

(** An address that is or contains an IPv4 address is in no network of IPv6 addresses
    whose prefix is longer than zero and differs from the one of mapped addresses. *)
Lemma no_match6 sa a n o :
  SockaddrGetComparableV4 sa = Some a -> is_addr 4 a -> 0 < n <= 128 -> is_addr 16 o ->
  (forall a, length a = 4%nat -> band (mapped_prefix ++ a) (mask_bytes 16 n) <> o) ->
  Ns_SockaddrMaskedMatch false sa (addr6 (mask_bytes 16 n)) (addr6 o) = false.
Proof.
  intros Hsa [La Ha] Hn [Lo _] Hne. destruct (mask16_addr n ltac:(lia)) as [Lm _].
  destruct (comparable_cases _ _ Hsa) as [[Hf E]|[Hf E]].
  - unfold Ns_SockaddrMaskedMatch. cbn [sa_family addr6]. rewrite Hf, Hsa. cbn [Z.eqb Pos.eqb AF_INET AF_INET6 andb].
    unfold SockaddrGetComparableV4, SockaddrGetMappedV4 at 1. cbn [sa_family addr6 sin6_addr].
    by rewrite (bool_decide_eq_false_2 (take 12 (mask_bytes 16 n) = mapped_prefix)) by (by apply mask6_not_mapped; lia).
  - assert (Ls : length (sin6_addr sa) = 16%nat) by (rewrite E, length_app, La; done).
    rewrite match6 by (done || congruence). rewrite E. apply bool_decide_eq_false. by apply Hne.
Qed.
Lemma byte_range_check (f : Z -> bool) (lo hi b : Z) :
  forallb (fun b => Bool.eqb (f b) ((lo <=? b) && (b <? hi))) (seqZ 0 256) = true -> is_byte b ->
  f b = true <-> lo <= b < hi.
Proof.
  intros H Hb. pose proof (byte_forall _ b H Hb) as E%Bool.eqb_prop. rewrite E. zcases; lia || done.
Qed.

(** The conditions on the first two bytes. *)
Lemma in_network4 a b c d x y n m1 m2 :
  is_addr 4 [a; b; c; d] -> mask_bytes 4 n = [m1; m2; 0; 0] ->
  band [a; b; c; d] (mask_bytes 4 n) = [x; y; 0; 0] <-> Z.land a m1 = x /\ Z.land b m2 = y.
Proof.
  intros _ ->. unfold band. cbn. rewrite !Z.land_0_r. split; [by intros [= ]|by intros [-> ->]].
Qed.

Lemma public4 sa a :
  SockaddrGetComparableV4 sa = Some a -> is_addr 4 a ->
  in_entries (SockAddrInit inet_pton None).1 sa = true <-> private4 a.
Proof.
  intros Hsa Ha. cbn [SockAddrInit fst]. rewrite in_entries_true, table_entries. cbn [fmap list_fmap].
  rewrite !Exists_cons, Exists_nil. cbn [entry_mask entry_masked]. rewrite !match4, Hsa, !bool_decide_eq_true.
  assert (N : forall n o, 0 < n <= 128 -> is_addr 16 o ->
    (forall a, length a = 4%nat -> band (mapped_prefix ++ a) (mask_bytes 16 n) <> o) ->
    Ns_SockaddrMaskedMatch false sa (addr6 (mask_bytes 16 n)) (addr6 o) = true <-> False).
  { intros n o Hn Ho Hne. by rewrite (no_match6 sa a n o). }
  rewrite !N; try lia; try (split; [reflexivity|repeat constructor; unfold is_byte; lia]);
    try (intros [|a0 [|a1 [|a2 [|a3 [|]]]]] La E; try done; vm_compute in E; discriminate).
  pose proof Ha as [La Hby]. destruct a as [|a [|b [|c [|d [|]]]]]; try done. clear N La.
  apply Forall_cons in Hby as [Ba Hby]. apply Forall_cons in Hby as [Bb _]. cbn [private4].
  rewrite (in_network4 a b c d 10 0 8 255 0), (in_network4 a b c d 172 16 12 255 240), (in_network4 a b c d 192 168 16 255 255),
    (in_network4 a b c d 127 0 8 255 0), (in_network4 a b c d 169 254 16 255 255), (in_network4 a b c d 0 0 8 255 0) by done.
  rewrite !(land_255 a), !(land_255 b), !Z.land_0_r by done.
  assert (Z.land b 240 = 16 <-> 16 <= b < 32) as ->.
  { rewrite <- Z.eqb_eq. by apply (byte_range_check (fun b => Z.land b 240 =? 16)). }
  tauto.
Qed.

Lemma public6 sa :
  sa_family sa = AF_INET6 -> is_addr 16 (sin6_addr sa) -> ~ is_mapped (sin6_addr sa) ->
  in_entries (SockAddrInit inet_pton None).1 sa = true <-> private6 (sin6_addr sa).
Proof.
  intros Hf Ha Hm. assert (Hsa : SockaddrGetComparableV4 sa = None).
  { unfold SockaddrGetComparableV4, SockaddrGetMappedV4. rewrite Hf. cbn. by rewrite bool_decide_eq_false_2. }
  cbn [SockAddrInit fst]. rewrite in_entries_true, table_entries. cbn [fmap list_fmap].
  rewrite !Exists_cons, Exists_nil. cbn [entry_mask entry_masked]. rewrite !match4, Hsa.
  pose proof Ha as [La Hby]. rewrite !match6, !bool_decide_eq_true by (done || (rewrite La; reflexivity)).
  set (a := sin6_addr sa) in *. clearbody a. clear Hm.
  rewrite !(band_full16 a) by done.
  do 16 (destruct a as [|? a]; [done|]). destruct a; [|done].
  apply Forall_cons in Hby as [B0 Hby]. apply Forall_cons in Hby as [B1 _]. cbn [private6].
  change (mask_bytes 16 7) with (254 :: replicate 15 0). change (mask_bytes 16 10) with (255 :: 192 :: replicate 14 0).
  unfold band. cbn [zip_with replicate]. rewrite !Z.land_0_r, land_255 by done.
  assert (Z.land z 254 = 252 <-> 252 <= z < 254) as E0.
  { rewrite <- Z.eqb_eq. by apply (byte_range_check (fun b => Z.land b 254 =? 252)). }
  assert (Z.land z0 192 = 128 <-> 128 <= z0 < 192) as E1.
  { rewrite <- Z.eqb_eq. by apply (byte_range_check (fun b => Z.land b 192 =? 128)). }
  rewrite <- E0, <- E1.
  assert (C1 : forall (x x' : Z) l, x :: l = x' :: l <-> x = x') by (intros; split; [by intros [= ]|by intros ->]).
  assert (C2 : forall (x x' y y' : Z) l, x :: y :: l = x' :: y' :: l <-> x = x' /\ y = y')
    by (intros; split; [by intros [= ]|by intros [-> ->]]).
  rewrite C1, C2. assert (false = true <-> False) as -> by done. tauto.
Qed.
End Public.

(** [Ns_SockaddrPublicIpAddress] is false exactly for the private, loopback,
    link-local and unspecified addresses of both families; an IPv4 address that is
    mapped into IPv6 is classified like the IPv4 address. *)
Theorem PublicIpAddress_spec inet_pton sa :
  PtonTable inet_pton ->
  (forall a, SockaddrGetComparableV4 sa = Some a -> is_addr 4 a ->
     Ns_SockaddrPublicIpAddress inet_pton sa = true <-> ~ private4 a) /\
  (sa_family sa = AF_INET6 -> is_addr 16 (sin6_addr sa) -> ~ is_mapped (sin6_addr sa) ->
     Ns_SockaddrPublicIpAddress inet_pton sa = true <-> ~ private6 (sin6_addr sa)).
Proof.
  intros HT. unfold Ns_SockaddrPublicIpAddress. split.
  - intros a Hsa Ha. by rewrite negb_true_iff, <- not_true_iff_false, (public4 inet_pton sa a).
  - intros Hf Ha Hm. by rewrite negb_true_iff, <- not_true_iff_false, (public6 inet_pton sa).
Qed.

(** ** Witnesses *)

(** A resolver that knows the addresses of the examples. *)
Definition known4 : list (list Z * list Z) :=
  (fun '(s, b) => (bytes s, b)) <$>
  [("10.0.0.0", [10;0;0;0]); ("172.16.0.0", [172;16;0;0]); ("192.168.0.0", [192;168;0;0]);
   ("127.0.0.0", [127;0;0;0]); ("169.254.0.0", [169;254;0;0]); ("0.0.0.0", [0;0;0;0])]%string.
Definition known6 : list (list Z * list Z) :=
  (fun '(s, b) => (bytes s, b)) <$>
  [("fc00::"%string, 0xfc :: replicate 15 0); ("::1"%string, replicate 15 0 ++ [1]);
   ("fe80::"%string, 0xfe :: 0x80 :: replicate 14 0); ("::"%string, replicate 16 0);
   ("::ffff:10.0.0.0"%string, mapped_prefix ++ [10;0;0;0])].
Definition known_pton (f : Z) (s : list Z) : option (list Z) :=
  snd <$> List.find (fun e => bool_decide (fst e = s))
            (if f =? AF_INET then known4 else if f =? AF_INET6 then known6 else []).

Lemma known_table : PtonTable known_pton.
Proof.
  split; intros ip b H; cbn in H;
    repeat (destruct H as [[= <- <-]|H]; [try split; vm_compute; reflexivity|]); destruct H.
Qed.

Lemma is_addr_check k l : bool_decide (length l = k) && forallb (fun x => (0 <=? x) && (x <? 256)) l = true -> is_addr k l.
Proof.
  intros [H1 H2]%andb_true_iff. apply bool_decide_eq_true in H1. split; [done|]. apply Forall_forall.
  intros x Hx%list_elem_of_In. apply (proj1 (forallb_forall _ _) H2) in Hx. unfold is_byte. revert Hx. zcases; lia || done.
Qed.

Lemma cidr4_match_witness :
  exists masked mask, Ns_SockaddrParseIPMask known_pton (bytes "172.16.0.0/12") = (true, masked, mask, 12) /\
    Ns_SockaddrMaskedMatch false (addr4 [172;20;1;1]) mask masked = true /\
    Ns_SockaddrMaskedMatch false (addr6 (mapped_prefix ++ [172;20;1;1])) mask masked = true /\
    Ns_SockaddrMaskedMatch false (addr4 [172;32;1;1]) mask masked = false.
Proof.
  destruct (cidr4_match known_pton (bytes "172.16.0.0") 12 [172;16;0;0]) as (masked & mask & E & _).
  - apply (bool_decide_eq_true_1 (47 ∉ bytes "172.16.0.0")). vm_compute. reflexivity.
  - lia.
  - vm_compute. reflexivity.
  - apply is_addr_check. vm_compute. reflexivity.
  - exists masked, mask. split; [exact E|]. vm_compute in E. injection E as <- <-. vm_compute. split_and!; reflexivity.
Defined.

Lemma cidr6_match_witness :
  exists masked mask, Ns_SockaddrParseIPMask known_pton (bytes "fe80::/10") = (true, masked, mask, 10) /\
    Ns_SockaddrMaskedMatch false (addr6 (0xfe :: 0xbf :: replicate 14 7)) mask masked = true /\
    Ns_SockaddrMaskedMatch false (addr6 (0xfe :: 0xc0 :: replicate 14 7)) mask masked = false.
Proof.
  destruct (cidr6_match known_pton (bytes "fe80::") 10 (0xfe :: 0x80 :: replicate 14 0)) as (masked & mask & E & _).
  - apply (bool_decide_eq_true_1 (47 ∉ bytes "fe80::")). vm_compute. reflexivity.
  - lia.
  - vm_compute. reflexivity.
  - vm_compute. reflexivity.
  - apply is_addr_check. vm_compute. reflexivity.
  - intros E. vm_compute in E. discriminate.
  - exists masked, mask. split; [exact E|]. vm_compute in E. injection E as <- <-. vm_compute. split_and!; reflexivity.
Defined.

(** 2001:db8::ffff:a01:203 is taken for an address of the network 10.0.0.0/8. *)
Lemma mapped_cidr_ignores_prefix_witness :
  exists masked mask, Ns_SockaddrParseIPMask known_pton (bytes "::ffff:10.0.0.0/104") = (true, masked, mask, 104) /\
    Ns_SockaddrMaskedMatch false (addr6 ([0x20;0x01;0x0d;0xb8;0;0;0;0;0;0] ++ [0xff;0xff] ++ [10;1;2;3])) mask masked = true.
Proof.
  destruct (mapped_cidr_ignores_prefix known_pton (bytes "::ffff:10.0.0.0") 104 [10;0;0;0]) as (masked & mask & E & H).
  - apply (bool_decide_eq_true_1 (47 ∉ bytes "::ffff:10.0.0.0")). vm_compute. reflexivity.
  - lia.
  - vm_compute. reflexivity.
  - vm_compute. reflexivity.
  - apply is_addr_check. vm_compute. reflexivity.
  - exists masked, mask. split; [exact E|].
    apply (H _ [0x20;0x01;0x0d;0xb8;0;0;0;0;0;0] [10;1;2;3]); [apply is_addr_check; vm_compute; reflexivity..|reflexivity|reflexivity|].
    change (104 - 96) with 8. intros i Hi. unfold abit. rewrite (Z.div_small i 8) by lia. reflexivity.
Defined.

Lemma wrong_prefix_matches_all_witness :
  exists masked mask, Ns_SockaddrParseIPMask known_pton (bytes "10.0.0.0/x") = (true, masked, mask, 0) /\
    Ns_SockaddrMaskedMatch false (addr4 [8;8;8;8]) mask masked = true.
Proof.
  apply (wrong_prefix_matches_all known_pton (bytes "10.0.0.0") (bytes "x") [10;0;0;0] (addr4 [8;8;8;8]) [8;8;8;8]).
  - apply (bool_decide_eq_true_1 (47 ∉ bytes "10.0.0.0")). vm_compute. reflexivity.
  - repeat constructor.
  - vm_compute. reflexivity.
  - apply is_addr_check. vm_compute. reflexivity.
  - reflexivity.
  - apply is_addr_check. vm_compute. reflexivity.
Defined.

Lemma PublicIpAddress_spec_witness :
  Ns_SockaddrPublicIpAddress known_pton (addr4 [8;8;8;8]) = true /\
  Ns_SockaddrPublicIpAddress known_pton (addr6 (0xfd :: replicate 15 1)) = false.
Proof.
  split.
  - apply (proj1 (PublicIpAddress_spec known_pton (addr4 [8;8;8;8]) known_table) [8;8;8;8]);
      [reflexivity|apply is_addr_check; vm_compute; reflexivity|cbn; lia].
  - vm_compute. reflexivity.
Defined.
