(* ===== verification/UrlTables.v ===== *)
(** * UrlTables: the percent-encoding tables of nsd/urlencode.c.

    One [ByteKey] per byte value: [self] is [{1, NULL}] (the byte stands for itself), [pct s]
    is [{3, s}] (the byte is written as a percent sign and the two characters [s]). *)

From S2P Require Import Prelude.

Record ByteKey := { len : Z; str : option (list Z) }.

Definition self : ByteKey := {| len := 1; str := None |}.
Definition pct (s : string) : ByteKey := {| len := 3; str := Some (bytes s) |}.

Definition query_scheme : list ByteKey := [
  pct "00"; pct "01"; pct "02"; pct "03"; pct "04"; pct "05"; pct "06"; pct "07";
  pct "08"; pct "09"; pct "0a"; pct "0b"; pct "0c"; pct "0d"; pct "0e"; pct "0f";
  pct "10"; pct "11"; pct "12"; pct "13"; pct "14"; pct "15"; pct "16"; pct "17";
  pct "18"; pct "19"; pct "1a"; pct "1b"; pct "1c"; pct "1d"; pct "1e"; pct "1f";
  self; self; pct "22"; pct "23"; self; pct "25"; pct "26"; self;
  self; self; self; pct "2b"; pct "2c"; self; self; self;
  self; self; self; self; self; self; self; self;
  self; self; self; pct "3b"; pct "3c"; pct "3d"; pct "3e"; self;
  self; self; self; self; self; self; self; self;
  self; self; self; self; self; self; self; self;
  self; self; self; self; self; self; self; self;
  self; self; self; pct "5b"; pct "5c"; pct "5d"; pct "5e"; self;
  pct "60"; self; self; self; self; self; self; self;
  self; self; self; self; self; self; self; self;
  self; self; self; self; self; self; self; self;
  self; self; self; pct "7b"; pct "7c"; pct "7d"; self; pct "7f";
  pct "80"; pct "81"; pct "82"; pct "83"; pct "84"; pct "85"; pct "86"; pct "87";
  pct "88"; pct "89"; pct "8a"; pct "8b"; pct "8c"; pct "8d"; pct "8e"; pct "8f";
  pct "90"; pct "91"; pct "92"; pct "93"; pct "94"; pct "95"; pct "96"; pct "97";
  pct "98"; pct "99"; pct "9a"; pct "9b"; pct "9c"; pct "9d"; pct "9e"; pct "9f";
  pct "a0"; pct "a1"; pct "a2"; pct "a3"; pct "a4"; pct "a5"; pct "a6"; pct "a7";
  pct "a8"; pct "a9"; pct "aa"; pct "ab"; pct "ac"; pct "ad"; pct "ae"; pct "af";
  pct "b0"; pct "b1"; pct "b2"; pct "b3"; pct "b4"; pct "b5"; pct "b6"; pct "b7";
  pct "b8"; pct "b9"; pct "ba"; pct "bb"; pct "bc"; pct "bd"; pct "be"; pct "bf";
  pct "c0"; pct "c1"; pct "c2"; pct "c3"; pct "c4"; pct "c5"; pct "c6"; pct "c7";
  pct "c8"; pct "c9"; pct "ca"; pct "cb"; pct "cc"; pct "cd"; pct "ce"; pct "cf";
  pct "d0"; pct "d1"; pct "d2"; pct "d3"; pct "d4"; pct "d5"; pct "d6"; pct "d7";
  pct "d8"; pct "d9"; pct "da"; pct "db"; pct "dc"; pct "dd"; pct "de"; pct "df";
  pct "e0"; pct "e1"; pct "e2"; pct "e3"; pct "e4"; pct "e5"; pct "e6"; pct "e7";
  pct "e8"; pct "e9"; pct "ea"; pct "eb"; pct "ec"; pct "ed"; pct "ee"; pct "ef";
  pct "f0"; pct "f1"; pct "f2"; pct "f3"; pct "f4"; pct "f5"; pct "f6"; pct "f7";
  pct "f8"; pct "f9"; pct "fa"; pct "fb"; pct "fc"; pct "fd"; pct "fe"; pct "ff"
].

Definition path_scheme : list ByteKey := [
  pct "00"; pct "01"; pct "02"; pct "03"; pct "04"; pct "05"; pct "06"; pct "07";
  pct "08"; pct "09"; pct "0a"; pct "0b"; pct "0c"; pct "0d"; pct "0e"; pct "0f";
  pct "10"; pct "11"; pct "12"; pct "13"; pct "14"; pct "15"; pct "16"; pct "17";
  pct "18"; pct "19"; pct "1a"; pct "1b"; pct "1c"; pct "1d"; pct "1e"; pct "1f";
  pct "20"; self; pct "22"; pct "23"; self; pct "25"; self; self;
  self; self; self; self; self; self; self; pct "2f";
  self; self; self; self; self; self; self; self;
  self; self; self; pct "3b"; pct "3c"; pct "3d"; pct "3e"; pct "3f";
  self; self; self; self; self; self; self; self;
  self; self; self; self; self; self; self; self;
  self; self; self; self; self; self; self; self;
  self; self; self; pct "5b"; pct "5c"; pct "5d"; pct "5e"; self;
  pct "60"; self; self; self; self; self; self; self;
  self; self; self; self; self; self; self; self;
  self; self; self; self; self; self; self; self;
  self; self; self; pct "7b"; pct "7c"; pct "7d"; self; pct "7f";
  pct "80"; pct "81"; pct "82"; pct "83"; pct "84"; pct "85"; pct "86"; pct "87";
  pct "88"; pct "89"; pct "8a"; pct "8b"; pct "8c"; pct "8d"; pct "8e"; pct "8f";
  pct "90"; pct "91"; pct "92"; pct "93"; pct "94"; pct "95"; pct "96"; pct "97";
  pct "98"; pct "99"; pct "9a"; pct "9b"; pct "9c"; pct "9d"; pct "9e"; pct "9f";
  pct "a0"; pct "a1"; pct "a2"; pct "a3"; pct "a4"; pct "a5"; pct "a6"; pct "a7";
  pct "a8"; pct "a9"; pct "aa"; pct "ab"; pct "ac"; pct "ad"; pct "ae"; pct "af";
  pct "b0"; pct "b1"; pct "b2"; pct "b3"; pct "b4"; pct "b5"; pct "b6"; pct "b7";
  pct "b8"; pct "b9"; pct "ba"; pct "bb"; pct "bc"; pct "bd"; pct "be"; pct "bf";
  pct "c0"; pct "c1"; pct "c2"; pct "c3"; pct "c4"; pct "c5"; pct "c6"; pct "c7";
  pct "c8"; pct "c9"; pct "ca"; pct "cb"; pct "cc"; pct "cd"; pct "ce"; pct "cf";
  pct "d0"; pct "d1"; pct "d2"; pct "d3"; pct "d4"; pct "d5"; pct "d6"; pct "d7";
  pct "d8"; pct "d9"; pct "da"; pct "db"; pct "dc"; pct "dd"; pct "de"; pct "df";
  pct "e0"; pct "e1"; pct "e2"; pct "e3"; pct "e4"; pct "e5"; pct "e6"; pct "e7";
  pct "e8"; pct "e9"; pct "ea"; pct "eb"; pct "ec"; pct "ed"; pct "ee"; pct "ef";
  pct "f0"; pct "f1"; pct "f2"; pct "f3"; pct "f4"; pct "f5"; pct "f6"; pct "f7";
  pct "f8"; pct "f9"; pct "fa"; pct "fb"; pct "fc"; pct "fd"; pct "fe"; pct "ff"
].

Definition cookie_scheme : list ByteKey := [
  pct "00"; pct "01"; pct "02"; pct "03"; pct "04"; pct "05"; pct "06"; pct "07";
  pct "08"; pct "09"; pct "0a"; pct "0b"; pct "0c"; pct "0d"; pct "0e"; pct "0f";
  pct "10"; pct "11"; pct "12"; pct "13"; pct "14"; pct "15"; pct "16"; pct "17";
  pct "18"; pct "19"; pct "1a"; pct "1b"; pct "1c"; pct "1d"; pct "1e"; pct "1f";
  pct "20"; self; pct "22"; self; self; pct "25"; self; self;
  self; self; self; self; pct "2c"; self; self; self;
  self; self; self; self; self; self; self; self;
  self; self; self; pct "3b"; self; self; self; self;
  self; self; self; self; self; self; self; self;
  self; self; self; self; self; self; self; self;
  self; self; self; self; self; self; self; self;
  self; self; self; self; pct "5c"; self; self; self;
  self; self; self; self; self; self; self; self;
  self; self; self; self; self; self; self; self;
  self; self; self; self; self; self; self; self;
  self; self; self; self; self; self; self; pct "7f";
  pct "80"; pct "81"; pct "82"; pct "83"; pct "84"; pct "85"; pct "86"; pct "87";
  pct "88"; pct "89"; pct "8a"; pct "8b"; pct "8c"; pct "8d"; pct "8e"; pct "8f";
  pct "90"; pct "91"; pct "92"; pct "93"; pct "94"; pct "95"; pct "96"; pct "97";
  pct "98"; pct "99"; pct "9a"; pct "9b"; pct "9c"; pct "9d"; pct "9e"; pct "9f";
  pct "a0"; pct "a1"; pct "a2"; pct "a3"; pct "a4"; pct "a5"; pct "a6"; pct "a7";
  pct "a8"; pct "a9"; pct "aa"; pct "ab"; pct "ac"; pct "ad"; pct "ae"; pct "af";
  pct "b0"; pct "b1"; pct "b2"; pct "b3"; pct "b4"; pct "b5"; pct "b6"; pct "b7";
  pct "b8"; pct "b9"; pct "ba"; pct "bb"; pct "bc"; pct "bd"; pct "be"; pct "bf";
  pct "c0"; pct "c1"; pct "c2"; pct "c3"; pct "c4"; pct "c5"; pct "c6"; pct "c7";
  pct "c8"; pct "c9"; pct "ca"; pct "cb"; pct "cc"; pct "cd"; pct "ce"; pct "cf";
  pct "d0"; pct "d1"; pct "d2"; pct "d3"; pct "d4"; pct "d5"; pct "d6"; pct "d7";
  pct "d8"; pct "d9"; pct "da"; pct "db"; pct "dc"; pct "dd"; pct "de"; pct "df";
  pct "e0"; pct "e1"; pct "e2"; pct "e3"; pct "e4"; pct "e5"; pct "e6"; pct "e7";
  pct "e8"; pct "e9"; pct "ea"; pct "eb"; pct "ec"; pct "ed"; pct "ee"; pct "ef";
  pct "f0"; pct "f1"; pct "f2"; pct "f3"; pct "f4"; pct "f5"; pct "f6"; pct "f7";
  pct "f8"; pct "f9"; pct "fa"; pct "fb"; pct "fc"; pct "fd"; pct "fe"; pct "ff"
].

Definition oauth1_scheme : list ByteKey := [
  pct "00"; pct "01"; pct "02"; pct "03"; pct "04"; pct "05"; pct "06"; pct "07";
  pct "08"; pct "09"; pct "0A"; pct "0B"; pct "0C"; pct "0D"; pct "0E"; pct "0F";
  pct "10"; pct "11"; pct "12"; pct "13"; pct "14"; pct "15"; pct "16"; pct "17";
  pct "18"; pct "19"; pct "1A"; pct "1B"; pct "1C"; pct "1D"; pct "1E"; pct "1F";
  pct "20"; pct "21"; pct "22"; pct "23"; pct "24"; pct "25"; pct "26"; pct "27";
  pct "28"; pct "29"; pct "2A"; pct "2B"; pct "2C"; self; self; pct "2F";
  self; self; self; self; self; self; self; self;
  self; self; pct "3A"; pct "3B"; pct "3C"; pct "3D"; pct "3E"; pct "3F";
  pct "40"; self; self; self; self; self; self; self;
  self; self; self; self; self; self; self; self;
  self; self; self; self; self; self; self; self;
  self; self; self; pct "5B"; pct "5C"; pct "5D"; pct "5E"; self;
  pct "60"; self; self; self; self; self; self; self;
  self; self; self; self; self; self; self; self;
  self; self; self; self; self; self; self; self;
  self; self; self; pct "7B"; pct "7C"; pct "7D"; self; pct "7F";
  pct "80"; pct "81"; pct "82"; pct "83"; pct "84"; pct "85"; pct "86"; pct "87";
  pct "88"; pct "89"; pct "8A"; pct "8B"; pct "8C"; pct "8D"; pct "8E"; pct "8F";
  pct "90"; pct "91"; pct "92"; pct "93"; pct "94"; pct "95"; pct "96"; pct "97";
  pct "98"; pct "99"; pct "9A"; pct "9B"; pct "9C"; pct "9D"; pct "9E"; pct "9F";
  pct "A0"; pct "A1"; pct "A2"; pct "A3"; pct "A4"; pct "A5"; pct "A6"; pct "A7";
  pct "A8"; pct "A9"; pct "AA"; pct "AB"; pct "AC"; pct "AD"; pct "AE"; pct "AF";
  pct "B0"; pct "B1"; pct "B2"; pct "B3"; pct "B4"; pct "B5"; pct "B6"; pct "B7";
  pct "B8"; pct "B9"; pct "BA"; pct "BB"; pct "BC"; pct "BD"; pct "BE"; pct "BF";
  pct "C0"; pct "C1"; pct "C2"; pct "C3"; pct "C4"; pct "C5"; pct "C6"; pct "C7";
  pct "C8"; pct "C9"; pct "CA"; pct "CB"; pct "CC"; pct "CD"; pct "CE"; pct "CF";
  pct "D0"; pct "D1"; pct "D2"; pct "D3"; pct "D4"; pct "D5"; pct "D6"; pct "D7";
  pct "D8"; pct "D9"; pct "DA"; pct "DB"; pct "DC"; pct "DD"; pct "DE"; pct "DF";
  pct "E0"; pct "E1"; pct "E2"; pct "E3"; pct "E4"; pct "E5"; pct "E6"; pct "E7";
  pct "E8"; pct "E9"; pct "EA"; pct "EB"; pct "EC"; pct "ED"; pct "EE"; pct "EF";
  pct "F0"; pct "F1"; pct "F2"; pct "F3"; pct "F4"; pct "F5"; pct "F6"; pct "F7";
  pct "F8"; pct "F9"; pct "FA"; pct "FB"; pct "FC"; pct "FD"; pct "FE"; pct "FF"
].

Definition fragment_scheme : list ByteKey := [
  pct "00"; pct "01"; pct "02"; pct "03"; pct "04"; pct "05"; pct "06"; pct "07";
  pct "08"; pct "09"; pct "0a"; pct "0b"; pct "0c"; pct "0d"; pct "0e"; pct "0f";
  pct "10"; pct "11"; pct "12"; pct "13"; pct "14"; pct "15"; pct "16"; pct "17";
  pct "18"; pct "19"; pct "1a"; pct "1b"; pct "1c"; pct "1d"; pct "1e"; pct "1f";
  pct "20"; self; pct "22"; pct "23"; self; pct "25"; self; self;
  self; self; self; self; self; self; self; self;
  self; self; self; self; self; self; self; self;
  self; self; self; self; pct "3c"; self; pct "3e"; self;
  self; self; self; self; self; self; self; self;
  self; self; self; self; self; self; self; self;
  self; self; self; self; self; self; self; self;
  self; self; self; pct "5b"; pct "5c"; pct "5d"; pct "5e"; self;
  pct "60"; self; self; self; self; self; self; self;
  self; self; self; self; self; self; self; self;
  self; self; self; self; self; self; self; self;
  self; self; self; pct "7b"; pct "7c"; pct "7d"; self; pct "7f";
  pct "80"; pct "81"; pct "82"; pct "83"; pct "84"; pct "85"; pct "86"; pct "87";
  pct "88"; pct "89"; pct "8a"; pct "8b"; pct "8c"; pct "8d"; pct "8e"; pct "8f";
  pct "90"; pct "91"; pct "92"; pct "93"; pct "94"; pct "95"; pct "96"; pct "97";
  pct "98"; pct "99"; pct "9a"; pct "9b"; pct "9c"; pct "9d"; pct "9e"; pct "9f";
  pct "a0"; pct "a1"; pct "a2"; pct "a3"; pct "a4"; pct "a5"; pct "a6"; pct "a7";
  pct "a8"; pct "a9"; pct "aa"; pct "ab"; pct "ac"; pct "ad"; pct "ae"; pct "af";
  pct "b0"; pct "b1"; pct "b2"; pct "b3"; pct "b4"; pct "b5"; pct "b6"; pct "b7";
  pct "b8"; pct "b9"; pct "ba"; pct "bb"; pct "bc"; pct "bd"; pct "be"; pct "bf";
  pct "c0"; pct "c1"; pct "c2"; pct "c3"; pct "c4"; pct "c5"; pct "c6"; pct "c7";
  pct "c8"; pct "c9"; pct "ca"; pct "cb"; pct "cc"; pct "cd"; pct "ce"; pct "cf";
  pct "d0"; pct "d1"; pct "d2"; pct "d3"; pct "d4"; pct "d5"; pct "d6"; pct "d7";
  pct "d8"; pct "d9"; pct "da"; pct "db"; pct "dc"; pct "dd"; pct "de"; pct "df";
  pct "e0"; pct "e1"; pct "e2"; pct "e3"; pct "e4"; pct "e5"; pct "e6"; pct "e7";
  pct "e8"; pct "e9"; pct "ea"; pct "eb"; pct "ec"; pct "ed"; pct "ee"; pct "ef";
  pct "f0"; pct "f1"; pct "f2"; pct "f3"; pct "f4"; pct "f5"; pct "f6"; pct "f7";
  pct "f8"; pct "f9"; pct "fa"; pct "fb"; pct "fc"; pct "fd"; pct "fe"; pct "ff"
].

Definition hex_code : list Z := [
  -1; -1; -1; -1; -1; -1; -1; -1; -1; -1; -1; -1; -1; -1; -1; -1;
  -1; -1; -1; -1; -1; -1; -1; -1; -1; -1; -1; -1; -1; -1; -1; -1;
  -1; -1; -1; -1; -1; -1; -1; -1; -1; -1; -1; -1; -1; -1; -1; -1;
  0; 1; 2; 3; 4; 5; 6; 7; 8; 9; -1; -1; -1; -1; -1; -1;
  -1; 10; 11; 12; 13; 14; 15; -1; -1; -1; -1; -1; -1; -1; -1; -1;
  -1; -1; -1; -1; -1; -1; -1; -1; -1; -1; -1; -1; -1; -1; -1; -1;
  -1; 10; 11; 12; 13; 14; 15; -1; -1; -1; -1; -1; -1; -1; -1; -1;
  -1; -1; -1; -1; -1; -1; -1; -1; -1; -1; -1; -1; -1; -1; -1; -1;
  -1; -1; -1; -1; -1; -1; -1; -1; -1; -1; -1; -1; -1; -1; -1; -1;
  -1; -1; -1; -1; -1; -1; -1; -1; -1; -1; -1; -1; -1; -1; -1; -1;
  -1; -1; -1; -1; -1; -1; -1; -1; -1; -1; -1; -1; -1; -1; -1; -1;
  -1; -1; -1; -1; -1; -1; -1; -1; -1; -1; -1; -1; -1; -1; -1; -1;
  -1; -1; -1; -1; -1; -1; -1; -1; -1; -1; -1; -1; -1; -1; -1; -1;
  -1; -1; -1; -1; -1; -1; -1; -1; -1; -1; -1; -1; -1; -1; -1; -1;
  -1; -1; -1; -1; -1; -1; -1; -1; -1; -1; -1; -1; -1; -1; -1; -1;
  -1; -1; -1; -1; -1; -1; -1; -1; -1; -1; -1; -1; -1; -1; -1; -1
].
