(* ===== verification/UrlEncode.v ===== *)
(** * UrlEncode: percent encoding and decoding of URL components (nsd/urlencode.c).

    Character sets are Tcl's: a [Tcl_Encoding] and the two conversion functions are
    the operations of the class [TclEncoding]. *)

From S2P Require Import Prelude Utf8 Str UrlTables.

Class TclEncoding := {
  Tcl_Encoding : Type;
  Tcl_Encoding_eq :: EqDecision Tcl_Encoding;
  NS_utf8Encoding : Tcl_Encoding;
  Tcl_UtfToExternalDString : Tcl_Encoding -> list Z -> list Z;
  Tcl_ExternalToUtfDString : Tcl_Encoding -> list Z -> list Z;
}.

(** The characters that select a scheme. *)
Definition ch_q : Z := 113.
Definition ch_p : Z := 112.
Definition ch_f : Z := 102.
Definition ch_c : Z := 99.
Definition ch_o : Z := 111.

Section encoding.
Context `{TclEncoding}.

(** ** Encoding *)

Definition scheme_table (percentScheme : Z) : list ByteKey :=
  if percentScheme =? ch_q then query_scheme
  else if percentScheme =? ch_p then path_scheme
  else if percentScheme =? ch_f then fragment_scheme
  else if percentScheme =? ch_c then cookie_scheme
  else if percentScheme =? ch_o then oauth1_scheme
  else query_scheme.

(** The string the loops run over: the converted segment, up to its NUL. *)
Definition external (encoding : option Tcl_Encoding) (urlSegment : list Z) : list Z :=
  match encoding with
  | Some e => before_nul (Tcl_UtfToExternalDString e urlSegment)
  | None => urlSegment
  end.

(** The first loop: the length of the result. *)
Fixpoint encoded_length (enc : list ByteKey) (n : Z) (p : list Z) : outcome Z :=
  match p with
  | [] => Ret n
  | c :: p => k ← checked (aget enc (UCHAR c)); encoded_length enc (n + len k) p
  end.

(** [*q++ = c]: cells are [None] until they are written. *)
Definition put (buf : list (option Z)) (q c : Z) : outcome (list (option Z) * Z) :=
  buf ← checked (aset buf q (Some c)); mret (buf, q + 1).

Definition upper_hex (upperCase : bool) (c : Z) : Z :=
  if upperCase && ((97 <=? c) && (c <=? 102)) then toupper c else c.

Definition encode_byte (enc : list ByteKey) (percentScheme : Z) (upperCase : bool)
    (buf : list (option Z)) (q c : Z) : outcome (list (option Z) * Z) :=
  if (c =? 32) && (percentScheme =? ch_q) then put buf q 43
  else
    k ← checked (aget enc (UCHAR c));
    match str k with
    | None => put buf q c
    | Some s =>
        c1 ← checked (aget s 0);
        c2 ← checked (aget s 1);
        r ← put buf q 37;
        r ← put r.1 r.2 (upper_hex upperCase c1);
        put r.1 r.2 (upper_hex upperCase c2)
    end.

Fixpoint encode_loop (enc : list ByteKey) (percentScheme : Z) (upperCase : bool)
    (buf : list (option Z)) (q : Z) (p : list Z) : outcome (list (option Z)) :=
  match p with
  | [] => Ret buf
  | c :: p =>
      r ← encode_byte enc percentScheme upperCase buf q c;
      encode_loop enc percentScheme upperCase r.1 r.2 p
  end.

(** The new content of the dstring: [Tcl_DStringSetLength] adds [n] cells that are not
    initialised; a cell that was not written would make the string indeterminate. *)
Definition UrlEncode (ds urlSegment : list Z) (encoding : option Tcl_Encoding) (percentScheme : Z)
    (upperCase : bool) : outcome (list Z) :=
  let urlSegment := external encoding urlSegment in
  let enc := scheme_table percentScheme in
  n ← encoded_length enc 0 urlSegment;
  buf ← encode_loop enc percentScheme upperCase
    ((Some <$> ds) ++ replicate (Z.to_nat n) None) (Z.of_nat (length ds)) urlSegment;
  checked (mapM id buf).

Definition Ns_UrlPathEncode ds urlSegment encoding := UrlEncode ds urlSegment encoding ch_p false.
Definition Ns_UrlQueryEncode ds urlSegment encoding := UrlEncode ds urlSegment encoding ch_q false.
Definition Ns_CookieEncode ds cookie encoding := UrlEncode ds cookie encoding ch_c false.
Definition Ns_Oauth1Encode ds cookie encoding := UrlEncode ds cookie encoding ch_o false.

(** [None] is [TCL_ERROR].  The loop appends the pairs; [first] is [i == 0]. *)
Fixpoint query_pairs (first : bool) (ds : list Z) (objv : list (list Z)) (encoding : option Tcl_Encoding)
    (upperCase : bool) : outcome (list Z) :=
  match objv with
  | name :: value :: objv =>
      ds ← UrlEncode (if first then ds else ds ++ [38]) name encoding ch_q upperCase;
      ds ← UrlEncode (ds ++ [61]) value encoding ch_q upperCase;
      query_pairs false ds objv encoding upperCase
  | _ => Ret ds
  end.

Definition UrlEncodeQuery (ds : list Z) (objv : list (list Z)) (encoding : option Tcl_Encoding)
    (upperCase : bool) : outcome (option (list Z)) :=
  match objv with
  | [s] => ds ← UrlEncode ds s encoding ch_q upperCase; mret (Some ds)
  | _ => if negb (Nat.even (length objv)) then Ret None
         else ds ← query_pairs true ds objv encoding upperCase; mret (Some ds)
  end.

Fixpoint UrlEncodeSegment (first : bool) (ds : list Z) (objv : list (list Z))
    (encoding : option Tcl_Encoding) (upperCase : bool) : outcome (list Z) :=
  match objv with
  | [] => Ret ds
  | s :: objv =>
      ds ← UrlEncode (if first then ds else ds ++ [47]) s encoding ch_p upperCase;
      UrlEncodeSegment false ds objv encoding upperCase
  end.

(** [segment] is the text between [start] and [p]. *)
Fixpoint fullpath_loop (ds segment p : list Z) (encoding : option Tcl_Encoding) (upperCase : bool) :
    outcome (list Z) :=
  match p with
  | [] => UrlEncode ds segment encoding ch_p upperCase
  | c :: p =>
      if c =? 47 then
        ds ← UrlEncode ds segment encoding ch_p upperCase;
        fullpath_loop (ds ++ [47]) [] p encoding upperCase
      else fullpath_loop ds (segment ++ [c]) p encoding upperCase
  end.

Definition UrlEncodeFullpath (ds path : list Z) (encoding : option Tcl_Encoding) (upperCase : bool) :=
  fullpath_loop ds [] path encoding upperCase.

(** ** Decoding *)

(** One round of the loop of [PercentDecode] at [p = c :: rest]: the byte stored and
    the rest of the input.  The NUL at the end of the string reads as [0]. *)
Definition decode_step (percentScheme c : Z) (rest : list Z) : outcome (Z * list Z) :=
  let c1 := if c =? 37 then nth 0 rest 0 else 0 in
  let c2 := if (c =? 37) && negb (c1 =? 0) then nth 1 rest 0 else 0 in
  i ← (if c2 =? 0 then Ret (-1) else checked (aget hex_code (UCHAR c1)));
  j ← (if (c2 =? 0) || (i <? 0) then Ret (-1) else checked (aget hex_code (UCHAR c2)));
  mret (if negb (c2 =? 0) && (0 <=? i) && (0 <=? j) then
          (UCHAR (UCHAR (Z.shiftl (UCHAR i) 4) + UCHAR j), drop 2 rest)
        else if (c =? 43) && (percentScheme =? ch_q) then (32, rest)
        else (c, rest)).

(** The decoded bytes; their number is the result of the C function. *)
Fixpoint decode_loop (fuel : nat) (percentScheme : Z) (dest source : list Z) : outcome (option (list Z)) :=
  match fuel, source with
  | _, [] => Ret (Some dest)
  | O, _ => Ret None
  | S fuel, c :: rest => r ← decode_step percentScheme c rest; decode_loop fuel percentScheme (dest ++ [r.1]) r.2
  end.

Definition PercentDecode (source : list Z) (percentScheme : Z) : outcome (option (list Z)) :=
  decode_loop (length source) percentScheme [] source.

(** The dstring and whether the status is [NS_OK]. *)
Definition UrlDecode (ds urlSegment : list Z) (encoding : option Tcl_Encoding) (percentScheme : Z) :
    outcome (option (list Z * bool)) :=
  let '(prefix, code) := strpbrk [37; 43] urlSegment in
  let plain := match encoding with None => true | Some e => bool_decide (e = NS_utf8Encoding) end in
  if match code with [] => plain | _ => false end then Ret (Some (ds ++ urlSegment, true))
  else
    tail ← match code with [] => Ret (Some []) | _ => PercentDecode code percentScheme end;
    match tail with
    | None => Ret None
    | Some tail =>
        let decoded := prefix ++ tail in
        match encoding with
        | None => Ret (Some (ds ++ decoded, true))
        | Some e =>
            let finish (valid : bool) :=
              if valid then Some (ds ++ Tcl_ExternalToUtfDString e decoded, true) else Some (ds, false) in
            if bool_decide (e = NS_utf8Encoding) then
              match Ns_Valid_UTF8 decoded with
              | None => Ret None
              | Some Valid => Ret (finish true)
              | Some (Invalid _ _ _) => Ret (finish false)
              end
            else Ret (finish true)
        end
    end.

Definition Ns_UrlPathDecode ds urlSegment encoding := UrlDecode ds urlSegment encoding ch_p.
Definition Ns_UrlQueryDecode ds urlSegment encoding := UrlDecode ds urlSegment encoding ch_q.
Definition Ns_CookieDecode ds cookie encoding := UrlDecode ds cookie encoding ch_c.
Definition Ns_Oauth1Decode ds cookie encoding := UrlDecode ds cookie encoding ch_o.

(** [NsGetFallbackEncoding] gives the fallback; the status and the decoded string. *)
Definition UrlFallbackDecode (inputStr : list Z) (fallbackEncoding : option (option Tcl_Encoding))
    (initialEncoding : option Tcl_Encoding) (percentScheme : Z) : outcome (option (list Z * bool)) :=
  match fallbackEncoding with
  | Some (Some e) =>
      if bool_decide (Some e = initialEncoding) then Ret (Some ([], false))
      else UrlDecode [] inputStr (Some e) percentScheme
  | _ => Ret (Some ([], false))
  end.

(** [Some None] is the Tcl error, [Some (Some s)] the Tcl result. *)
Definition UrlPercentDecode (inputStr : list Z) (percentScheme : Z) (charset_given : bool)
    (encoding : option Tcl_Encoding) (fallbackEncoding : option (option Tcl_Encoding)) :
    outcome (option (option (list Z))) :=
  r ← UrlDecode [] inputStr encoding percentScheme;
  match r with
  | None => Ret None
  | Some (s, true) => Ret (Some (Some s))
  | Some (s, false) =>
      if charset_given then Ret (Some None)
      else r ← UrlFallbackDecode inputStr fallbackEncoding encoding percentScheme;
           mret (match r with
                 | None => None
                 | Some (s, true) => Some (Some s)
                 | Some (_, false) => Some None
                 end)
  end.

(** ** The warning about unencoded characters: the byte reported, if any. *)

Definition mustBeEncoded (i : nat) : bool :=
  negb (existsb (Nat.eqb i) [37; 61; 59; 35]%nat) &&
  match path_scheme !! i, query_scheme !! i with
  | Some k1, Some k2 => match str k1, str k2 with Some _, Some _ => true | _, _ => false end
  | _, _ => true
  end.

Definition Ns_UrlEncodingWarnUnencoded (inputStr : list Z) : option Z :=
  head (filter (fun c => mustBeEncoded (Z.to_nat (UCHAR c))) inputStr).

End encoding.

(** ** The tables *)

Lemma all_bytes (P : Z -> bool) :
  forallb P (Z.of_nat <$> seq 0 256) = true -> forall c, is_byte c -> P c = true.
Proof.
  rewrite forallb_forall. intros Hall c [? ?]. apply Hall. apply list_elem_of_In, list_elem_of_fmap.
  exists (Z.to_nat c). rewrite elem_of_seq. split; [by rewrite Z2Nat.id|lia].
Qed.

Definition schemes : list Z := [ch_q; ch_p; ch_f; ch_c; ch_o].

(** What the encoder writes for a byte. *)
Definition escape_of (percentScheme : Z) (upperCase : bool) (c : Z) : list Z :=
  if (c =? 32) && (percentScheme =? ch_q) then [43]
  else match aget (scheme_table percentScheme) c with
       | Some k => match str k with
                   | Some [c1; c2] => [37; upper_hex upperCase c1; upper_hex upperCase c2]
                   | _ => [c]
                   end
       | None => []
       end.

Definition hex_is (h v : Z) : bool :=
  (0 <? h) && (h <? 256) && match aget hex_code h with Some d => d =? v | None => false end.

(** A table entry is well formed: the length is that of the text, a byte that stands
    for itself is no escape character of the scheme, and the two characters of the
    others are its hexadecimal digits. *)
Definition entry_ok (percentScheme : Z) (upperCase : bool) (c : Z) : bool :=
  match aget (scheme_table percentScheme) c with
  | None => false
  | Some k =>
      match str k with
      | None => (len k =? 1) && negb (c =? 37) && negb ((c =? 43) && (percentScheme =? ch_q))
      | Some [c1; c2] =>
          (len k =? 3) && negb ((c =? 32) && (percentScheme =? ch_q)) &&
          hex_is (upper_hex upperCase c1) (c / 16) && hex_is (upper_hex upperCase c2) (c mod 16)
      | _ => false
      end
  end.

Lemma entries_ok s up c : s ∈ schemes -> is_byte c -> entry_ok s up c = true.
Proof.
  intros Hs Hc. revert c Hc. apply all_bytes.
  enough (forallb (fun s => forallb (entry_ok s up) (Z.of_nat <$> seq 0 256)) schemes = true) as Ha.
  { rewrite forallb_forall in Ha. apply Ha. by apply list_elem_of_In. }
  destruct up; vm_compute; reflexivity.
Qed.

Lemma UCHAR_id c : is_byte c -> UCHAR c = c.
Proof. intros [? ?]. apply Z.mod_small. lia. Qed.

(** The three shapes of an encoded byte. *)
Lemma escape_cases s up c :
  s ∈ schemes -> is_byte c ->
  exists k, aget (scheme_table s) (UCHAR c) = Some k /\ len k = Z.of_nat (length (escape_of s up c)) /\
    ((c = 32 /\ s = ch_q /\ escape_of s up c = [43]) \/
     (str k = None /\ escape_of s up c = [c] /\ c <> 37 /\ ~ (c = 43 /\ s = ch_q) /\ ~ (c = 32 /\ s = ch_q)) \/
     (exists c1 c2, str k = Some [c1; c2] /\ escape_of s up c = [37; upper_hex up c1; upper_hex up c2] /\
        hex_is (upper_hex up c1) (c / 16) = true /\ hex_is (upper_hex up c2) (c mod 16) = true /\ ~ (c = 32 /\ s = ch_q))).
Proof.
  intros Hs Hc. pose proof (entries_ok s up c Hs Hc) as Ho. rewrite UCHAR_id by done. unfold entry_ok in Ho.
  unfold escape_of. destruct (aget (scheme_table s) c) as [k|]; [|done]. exists k. split; [done|].
  destruct (str k) as [[|c1 [|c2 [|? ?]]]|]; try done.
  - rewrite !andb_true_iff, Z.eqb_eq, negb_true_iff in Ho. destruct Ho as (((-> & Hn) & H1) & H2). rewrite Hn.
    split; [done|]. right. right. exists c1, c2. split_and!; try done. intros [-> ->]. by vm_compute in Hn.
  - rewrite !andb_true_iff, Z.eqb_eq, !negb_true_iff, Z.eqb_neq in Ho. destruct Ho as ((-> & H1) & H2).
    destruct (Z.eqb_spec c 32), (Z.eqb_spec s ch_q); cbn [andb]; (split; [done|]); [by left|right; left..];
      split_and!; try done; try tauto; intros [-> ->]; by vm_compute in H2.
Qed.

(** ** Encoding: the buffer is filled exactly *)

Lemma put_next (a r : list (option Z)) x c :
  put (a ++ x :: r) (Z.of_nat (length a)) c = Ret ((a ++ [Some c]) ++ r, Z.of_nat (length (a ++ [Some c]))).
Proof.
  unfold put. rewrite aset_nat by lens. cbn. rewrite insert_app_r_alt, Nat.sub_diag by lia. cbn.
  rewrite <- app_assoc. cbn. do 2 f_equal. lens.
Qed.

Lemma put_next_0 a r x c :
  put ((Some <$> a) ++ x :: r) (Z.of_nat (length a)) c =
  Ret ((Some <$> a ++ [c]) ++ r, Z.of_nat (length (a ++ [c]))).
Proof.
  pose proof (put_next (Some <$> a) r x c) as Hp. rewrite length_fmap in Hp. rewrite Hp, fmap_app. cbn. do 2 f_equal. lens.
Qed.

Lemma encode_byte_spec s up a c l r :
  s ∈ schemes -> is_byte c -> length l = length (escape_of s up c) ->
  encode_byte (scheme_table s) s up ((Some <$> a) ++ l ++ r) (Z.of_nat (length a)) c =
  Ret ((Some <$> a ++ escape_of s up c) ++ r, Z.of_nat (length (a ++ escape_of s up c))).
Proof.
  intros Hs Hc Hl. destruct (escape_cases s up c Hs Hc) as (k & Ek & _ & Hk). unfold encode_byte.
  destruct Hk as [(-> & -> & Ee)|[(Es & Ee & _ & _ & Hq)|(c1 & c2 & Es & Ee & _ & _ & Hq)]]; rewrite Ee in *.
  - destruct l as [|x [|? ?]]; try done. cbn [Z.eqb Pos.eqb andb]. change (ch_q =? ch_q) with true. apply put_next_0.
  - destruct (Z.eqb_spec c 32), (Z.eqb_spec s ch_q); try tauto; cbn [andb]; rewrite Ek; cbn [checked mbind outcome_bind];
      rewrite Es; (destruct l as [|x [|? ?]]; try done); apply put_next_0.
  - assert ((c =? 32) && (s =? ch_q) = false) as -> by (destruct (Z.eqb_spec c 32), (Z.eqb_spec s ch_q); tauto).
    rewrite Ek; cbn [checked mbind outcome_bind]; rewrite Es.
    destruct l as [|x [|y [|z [|? ?]]]]; try done. cbn [app].
    change (aget [c1; c2] 0) with (Some c1). change (aget [c1; c2] 1) with (Some c2). cbn [checked mbind outcome_bind].
    rewrite put_next_0. cbn [mbind outcome_bind fst snd]. rewrite put_next_0. cbn [mbind outcome_bind fst snd].
    rewrite put_next_0. by rewrite <- !app_assoc.
Qed.

Definition escaped (s : Z) (up : bool) (p : list Z) : list Z := concat (escape_of s up <$> p).

Lemma encode_loop_spec s up a p :
  s ∈ schemes -> is_bytes p ->
  encode_loop (scheme_table s) s up ((Some <$> a) ++ replicate (length (escaped s up p)) None)
    (Z.of_nat (length a)) p = Ret (Some <$> a ++ escaped s up p).
Proof.
  intros Hs Hp. revert a. induction Hp as [|c p Hc Hp IH]; intros a.
  { cbn. by rewrite !app_nil_r. }
  cbn [encode_loop]. unfold escaped. rewrite fmap_cons. cbn [concat]. rewrite length_app, replicate_add.
  rewrite encode_byte_spec by (done || by rewrite length_replicate). cbn [mbind outcome_bind fst snd].
  unfold escaped in IH. by rewrite IH, app_assoc.
Qed.

Lemma encoded_length_spec s up n p :
  s ∈ schemes -> is_bytes p ->
  encoded_length (scheme_table s) n p = Ret (n + Z.of_nat (length (escaped s up p))).
Proof.
  intros Hs Hp. revert n. induction Hp as [|c p Hc Hp IH]; intros n; cbn [encoded_length].
  { cbn. by rewrite Z.add_0_r. }
  destruct (escape_cases s up c Hs Hc) as (k & -> & Hk & _). cbn [checked mbind outcome_bind]. rewrite IH. unfold escaped.
  rewrite fmap_cons. cbn [concat]. rewrite length_app. f_equal. lia.
Qed.

Lemma mapM_Some (l : list Z) : mapM id (Some <$> l) = Some l.
Proof. induction l as [|x l IH]; [done|]. cbn in *. by rewrite IH. Qed.

(** [UrlEncode] appends the escaped bytes. *)
Lemma UrlEncode_app `{TclEncoding} ds p e s up :
  s ∈ schemes -> is_bytes (external e p) -> UrlEncode ds p e s up = Ret (ds ++ escaped s up (external e p)).
Proof.
  intros Hs Hp. unfold UrlEncode. rewrite (encoded_length_spec s up) by done. cbn [mbind outcome_bind].
  rewrite Z.add_0_l, Nat2Z.id, encode_loop_spec by done. cbn [mbind outcome_bind]. by rewrite mapM_Some.
Qed.

(** ** Decoding *)

Lemma hex_code_all :
  forallb (fun c => match aget hex_code c with Some d => (-1 <=? d) && (d <? 16) | None => false end)
    (Z.of_nat <$> seq 0 256) = true.
Proof. vm_compute. reflexivity. Qed.

Lemma hex_code_byte c : exists d, aget hex_code (UCHAR c) = Some d /\ -1 <= d < 16.
Proof.
  pose proof (all_bytes _ hex_code_all (UCHAR c) (UCHAR_byte c)) as Hd. cbn in Hd.
  destruct (aget hex_code (UCHAR c)) as [d|]; [|done]. exists d. split; [done|]. zcases; done || lia.
Qed.

(** A step is defined, consumes its input and produces a byte. *)
Lemma decode_step_total s c rest :
  is_byte c -> exists b k, decode_step s c rest = Ret (b, drop k rest) /\ is_byte b.
Proof.
  intros Hc. unfold decode_step.
  set (c1 := if c =? 37 then nth 0 rest 0 else 0). set (c2 := if (c =? 37) && negb (c1 =? 0) then nth 1 rest 0 else 0).
  destruct (hex_code_byte c1) as (d1 & E1 & _), (hex_code_byte c2) as (d2 & E2 & _). rewrite E1, E2.
  destruct (c2 =? 0); cbn [checked mbind outcome_bind orb negb andb].
  - destruct ((c =? 43) && (s =? ch_q)); [exists 32|exists c]; exists 0%nat; rewrite drop_0; by split.
  - destruct (Z.ltb_spec d1 0), (Z.leb_spec 0 d1); try lia; cbn [checked mbind outcome_bind andb].
    + destruct ((c =? 43) && (s =? ch_q)); [exists 32|exists c]; exists 0%nat; rewrite drop_0; by split.
    + destruct (0 <=? d2); [exists (UCHAR (UCHAR (Z.shiftl (UCHAR d1) 4) + UCHAR d2)), 2%nat; split; [done|apply UCHAR_byte]|].
      destruct ((c =? 43) && (s =? ch_q)); [exists 32|exists c]; exists 0%nat; rewrite drop_0; by split.
Qed.

Lemma decode_loop_total fuel s dest source :
  is_bytes source -> (length source <= fuel)%nat ->
  exists out, decode_loop fuel s dest source = Ret (Some (dest ++ out)) /\
    (length out <= length source)%nat /\ is_bytes out.
Proof.
  revert dest source. induction fuel as [|fuel IH]; intros dest source Hb Hf.
  { destruct source; [|cbn in Hf; lia]. exists []. rewrite app_nil_r. split_and!; [done|cbn; lia|constructor]. }
  destruct source as [|c source]; [exists []; rewrite app_nil_r; split_and!; [done|cbn; lia|constructor]|].
  apply Forall_cons in Hb as [Hc Hb]. cbn [decode_loop].
  destruct (decode_step_total s c source Hc) as (b & k & -> & Hb'). cbn [mbind outcome_bind fst snd].
  destruct (IH (dest ++ [b]) (drop k source)) as (out & -> & Hl & Ho); [by apply Forall_drop|lens|].
  exists (b :: out). split_and!; [by rewrite <- app_assoc|lens|by constructor].
Qed.

(** Extra fuel changes nothing. *)
Lemma decode_loop_fuel s fuel fuel' dest source :
  is_bytes source -> (length source <= fuel)%nat -> (length source <= fuel')%nat ->
  decode_loop fuel s dest source = decode_loop fuel' s dest source.
Proof.
  revert fuel' dest source. induction fuel as [|fuel IH]; intros [|fuel'] dest [|c source] Hb Hf Hf'; cbn in Hf, Hf'; try done; try lia.
  apply Forall_cons in Hb as [Hc Hb]. cbn [decode_loop].
  destruct (decode_step_total s c source Hc) as (b & k & -> & Hb'). cbn [mbind outcome_bind fst snd].
  apply IH; [by apply Forall_drop|lens|lens].
Qed.

Lemma decode_step_plain s c rest : c <> 37 -> c <> 43 -> decode_step s c rest = Ret (c, rest).
Proof. intros ? ?. unfold decode_step. by destruct (Z.eqb_spec c 37), (Z.eqb_spec c 43). Qed.

(** The part before the first percent or plus sign is copied, as [UrlDecode] does. *)
Lemma decode_plain s fuel dest p source :
  Forall (fun c => existsb (Z.eqb c) [37; 43] = false) p ->
  decode_loop (length p + fuel) s dest (p ++ source) = decode_loop fuel s (dest ++ p) source.
Proof.
  intros Hp. revert dest. induction Hp as [|c p Hc Hp IH]; intros dest; [by rewrite app_nil_r|].
  cbn [app length Nat.add decode_loop]. cbn in Hc. rewrite decode_step_plain by (intros ->; done). cbn [mbind outcome_bind fst snd].
  rewrite IH, <- app_assoc. done.
Qed.

Lemma nibbles c : is_byte c -> UCHAR (UCHAR (Z.shiftl (UCHAR (c / 16)) 4) + UCHAR (c mod 16)) = c.
Proof.
  intros [? ?]. unfold UCHAR. rewrite Z.shiftl_mul_pow2 by lia. change (2 ^ 4) with 16. Z.div_mod_to_equations. lia.
Qed.

(** Decoding undoes the encoding of a byte. *)
Lemma decode_step_escape s up c rest :
  s ∈ schemes -> is_byte c ->
  exists c' t, escape_of s up c = c' :: t /\ decode_step s c' (t ++ rest) = Ret (c, rest).
Proof.
  intros Hs Hc. destruct (escape_cases s up c Hs Hc) as (k & _ & _ & Hk).
  destruct Hk as [(-> & -> & ->)|[(_ & -> & H37 & H43 & _)|(c1 & c2 & _ & -> & H1 & H2 & _)]].
  - exists 43, []. by split.
  - exists c, []. split; [done|]. unfold decode_step. cbn [app].
    destruct (Z.eqb_spec c 37); [done|]. cbn. destruct (Z.eqb_spec c 43), (Z.eqb_spec s ch_q); cbn; tauto.
  - exists 37, [upper_hex up c1; upper_hex up c2]. split; [done|]. unfold decode_step, hex_is in *.
    change (37 =? 37) with true. cbn [app nth].
    rewrite !andb_true_iff in H1, H2. destruct H1 as [[H1 H1'] E1], H2 as [[H2 H2'] E2].
    apply Z.ltb_lt in H1, H1', H2, H2'.
    destruct (aget hex_code (upper_hex up c1)) as [d1|] eqn:E1'; [|done].
    destruct (aget hex_code (upper_hex up c2)) as [d2|] eqn:E2'; [|done].
    apply Z.eqb_eq in E1 as ->. apply Z.eqb_eq in E2 as ->.
    destruct (Z.eqb_spec (upper_hex up c1) 0); [lia|]. cbn [negb andb].
    destruct (Z.eqb_spec (upper_hex up c2) 0); [lia|]. rewrite (UCHAR_id (upper_hex up c1)), E1' by (unfold is_byte; lia).
    cbn [orb checked mbind outcome_bind]. assert (0 <= c / 16) by (apply Z.div_pos; unfold is_byte in Hc; lia).
    destruct (Z.ltb_spec (c / 16) 0); [lia|]. rewrite (UCHAR_id (upper_hex up c2)), E2' by (unfold is_byte; lia). cbn [checked mbind outcome_bind].
    pose proof (Z.mod_pos_bound c 16 ltac:(lia)). destruct (Z.leb_spec 0 (c / 16)), (Z.leb_spec 0 (c mod 16)); try lia.
    cbn [negb andb]. by rewrite nibbles.
Qed.

Lemma escape_nonempty s up p : s ∈ schemes -> is_bytes p -> (length p <= length (escaped s up p))%nat.
Proof.
  intros Hs Hp. induction Hp as [|c p Hc Hp IH]; [done|]. unfold escaped in *. rewrite fmap_cons. cbn [concat].
  destruct (decode_step_escape s up c [] Hs Hc) as (c' & t & -> & _). lens.
Qed.

(** Decoding undoes a byte-wise encoding if it does for each byte. *)
Lemma decode_concat s (f : Z -> list Z) fuel dest p :
  (forall c rest, is_byte c -> exists c' t, f c = c' :: t /\ decode_step s c' (t ++ rest) = Ret (c, rest)) ->
  is_bytes p -> (length p <= fuel)%nat -> decode_loop fuel s dest (concat (f <$> p)) = Ret (Some (dest ++ p)).
Proof.
  intros Hf Hp. revert fuel dest. induction Hp as [|c p Hc Hp IH]; intros fuel dest Hl.
  { rewrite app_nil_r. by destruct fuel. }
  destruct fuel as [|fuel]; [cbn in Hl; lia|]. rewrite fmap_cons. cbn [concat].
  destruct (Hf c (concat (f <$> p)) Hc) as (c' & t & -> & Hd).
  cbn [app decode_loop]. rewrite Hd. cbn [mbind outcome_bind fst snd]. rewrite IH by lens. by rewrite <- app_assoc.
Qed.

Lemma decode_escaped s up fuel dest p :
  s ∈ schemes -> is_bytes p -> (length p <= fuel)%nat ->
  decode_loop fuel s dest (escaped s up p) = Ret (Some (dest ++ p)).
Proof. intros Hs. apply decode_concat. intros c rest Hc. by apply decode_step_escape. Qed.

Lemma decode_loop_dest fuel s dest source :
  decode_loop fuel s dest source =
  match decode_loop fuel s [] source with
  | Ret (Some out) => Ret (Some (dest ++ out))
  | r => r
  end.
Proof.
  revert dest source. induction fuel as [|fuel IH]; intros dest [|c source]; cbn [decode_loop]; rewrite ?app_nil_r; try done.
  destruct (decode_step s c source) as [[b rest]| |]; cbn [mbind outcome_bind fst snd]; [|done|done].
  rewrite (IH (dest ++ [b])), (IH ([] ++ [b])). destruct (decode_loop fuel s [] rest) as [[out|]| |]; try done.
  by rewrite <- app_assoc.
Qed.

Lemma Valid_UTF8_total bs : is_bytes bs -> exists r, Ns_Valid_UTF8 bs = Some r.
Proof. intros Hb. destruct (utf8_loop_spec (S (length bs)) 0 bs) as (r & E & _); [done|lia|]. by exists r. Qed.

(** ** [UrlDecode] and its shortcut *)

Section decoding.
Context `{TclEncoding}.

Definition has_code (seg : list Z) : bool := existsb (fun c => (c =? 37) || (c =? 43)) seg.

(** What [UrlDecode] returns, given the percent-decoded bytes. *)
Definition decode_result (ds seg out : list Z) (encoding : option Tcl_Encoding) : list Z * bool :=
  match encoding with
  | None => (ds ++ out, true)
  | Some e =>
      if bool_decide (e = NS_utf8Encoding) then
        if negb (has_code seg) then (ds ++ seg, true)
        else match Ns_Valid_UTF8 out with
             | Some Valid => (ds ++ Tcl_ExternalToUtfDString e out, true)
             | _ => (ds, false)
             end
      else (ds ++ Tcl_ExternalToUtfDString e out, true)
  end.

Lemma has_code_app p code :
  Forall (fun c => existsb (Z.eqb c) [37; 43] = false) p -> has_code (p ++ code) = has_code code.
Proof.
  intros Hp. unfold has_code. rewrite existsb_app. induction Hp as [|c p Hc Hp IH]; [done|].
  cbn in Hc |- *. rewrite orb_false_r in Hc. by rewrite Hc.
Qed.

Lemma UrlDecode_result ds seg e s out :
  is_bytes seg -> PercentDecode seg s = Ret (Some out) -> UrlDecode ds seg e s = Ret (Some (decode_result ds seg out e)).
Proof.
  intros Hb Hd. unfold UrlDecode. pose proof (strpbrk_spec [37; 43] seg) as Hp.
  destruct (strpbrk [37; 43] seg) as [p code]. destruct Hp as (-> & Hp & Hc).
  assert (exists tail, (match code with [] => Ret (Some []) | _ => PercentDecode code s end) = Ret (Some tail) /\
    out = p ++ tail) as (tail & Ht & ->).
  { unfold PercentDecode in Hd. rewrite length_app, decode_plain in Hd by done.
    apply Forall_app in Hb as [_ Hb]. destruct (decode_loop_total (length code) s [] code Hb) as (tail & Ht & _); [done|].
    rewrite decode_loop_dest, Ht in Hd. injection Hd as <-. exists tail. split; [|done]. destruct code; [|done].
    by injection Ht as <-. }
  rewrite Ht. cbn [mbind outcome_bind]. unfold decode_result. rewrite has_code_app by done.
  assert (has_code code = match code with [] => false | _ => true end) as ->.
  { destruct code as [|c code]; [done|]. unfold has_code. cbn in Hc |- *. rewrite orb_false_r in Hc. by rewrite Hc. }
  assert (is_bytes (p ++ tail)) as Hv.
  { destruct (decode_loop_total (length (p ++ code)) s [] (p ++ code) Hb) as (o & Ho & _ & Hv); [done|].
    unfold PercentDecode in Hd. rewrite Ho in Hd. by injection Hd as ->. }
  apply Valid_UTF8_total in Hv as [r Hr]. destruct e as [e|].
  - case_bool_decide; destruct code as [|c code]; cbn [negb]; rewrite ?Hr; try done; by destruct r.
  - destruct code as [|c code]; [injection Ht as <-|]; by rewrite ?app_nil_r.
Qed.

Lemma PercentDecode_total seg s :
  is_bytes seg -> exists out, PercentDecode seg s = Ret (Some out) /\ (length out <= length seg)%nat /\ is_bytes out.
Proof. intros Hb. by apply (decode_loop_total (length seg) s [] seg Hb). Qed.

Lemma PercentDecode_escaped s up p :
  s ∈ schemes -> is_bytes p -> PercentDecode (escaped s up p) s = Ret (Some p).
Proof. intros Hs Hp. apply decode_escaped; try done. by apply escape_nonempty. Qed.

Lemma escaped_bytes s up p : s ∈ schemes -> is_bytes p -> is_bytes (escaped s up p).
Proof.
  intros Hs Hp. induction Hp as [|c p Hc Hp IH]; [constructor|]. unfold escaped in *. rewrite fmap_cons. cbn [concat].
  apply Forall_app. split; [|done]. destruct (escape_cases s up c Hs Hc) as (k & _ & _ & Hk).
  destruct Hk as [(_ & _ & ->)|[(_ & -> & _)|(c1 & c2 & _ & -> & H1 & H2 & _)]]; repeat apply Forall_cons_2; try apply Forall_nil_2; try done.
  all: unfold hex_is, is_byte in *; zcases; try done; lia.
Qed.

(** A string of bytes that is its own escape has no escape characters. *)
Lemma escaped_no_code s up p :
  s ∈ schemes -> is_bytes p -> has_code (escaped s up p) = false -> escaped s up p = p.
Proof.
  intros Hs Hp. induction Hp as [|c p Hc Hp IH]; [done|]. unfold escaped in *. rewrite fmap_cons. cbn [concat].
  unfold has_code in *. rewrite existsb_app, orb_false_iff. intros [H1 H2]. rewrite IH by done. f_equal.
  destruct (escape_cases s up c Hs Hc) as (k & _ & _ & Hk).
  destruct Hk as [(_ & _ & E)|[(_ & E & _)|(c1 & c2 & _ & E & _)]]; rewrite E in *; done.
Qed.

(** Text the encoding can represent: converting it and back gives it again, and for
    UTF-8, Tcl's internal form, the conversions are the identity. *)
Definition representable (encoding : option Tcl_Encoding) (p : list Z) : Prop :=
  match encoding with
  | None => True
  | Some e => Tcl_ExternalToUtfDString e (external encoding p) = p /\
              (e = NS_utf8Encoding -> external encoding p = p /\ utf8 p)
  end.

Lemma encode_decode s up p e ds :
  s ∈ schemes -> is_bytes (external e p) -> representable e p ->
  UrlDecode ds (escaped s up (external e p)) e s = Ret (Some (ds ++ p, true)).
Proof.
  intros Hs Hb Hr. rewrite (UrlDecode_result ds _ e s (external e p))
    by (by apply escaped_bytes || by apply PercentDecode_escaped).
  unfold decode_result. destruct e as [e|]; [|done]. destruct Hr as [Hr Hu].
  case_bool_decide as He; [|by rewrite Hr]. destruct (Hu He) as [Hp Hu8].
  destruct (has_code (escaped s up (external (Some e) p))) eqn:Hc; cbn [negb].
  - destruct (utf8_loop_spec (S (length (external (Some e) p))) 0 (external (Some e) p)) as (r & Er & Hr'); [done|lia|].
    unfold Ns_Valid_UTF8. rewrite Er. destruct r; [by rewrite Hr|]. rewrite Hp in Hr'. by destruct Hr' as [? _].
  - by rewrite (escaped_no_code s up) by done; rewrite Hp.
Qed.

(** ** Full paths *)

Definition path_escape (up : bool) (c : Z) : list Z := if c =? 47 then [47] else escape_of ch_p up c.

Lemma ch_p_scheme : ch_p ∈ schemes.
Proof. apply list_elem_of_In. cbn. tauto. Qed.

Lemma fullpath_loop_spec ds segment p up :
  is_bytes segment -> is_bytes p -> Forall (fun c => c <> 47) segment ->
  fullpath_loop ds segment p None up = Ret (ds ++ concat (path_escape up <$> segment ++ p)).
Proof.
  intros Hs Hp Hn. assert (forall l, Forall (fun c => c <> 47) l -> concat (path_escape up <$> l) = escaped ch_p up l) as Hseg.
  { induction 1 as [|c l Hc _ IH]; [done|]. rewrite fmap_cons. unfold escaped in *. cbn [concat fmap list_fmap].
    rewrite <- IH. unfold path_escape at 1. by destruct (Z.eqb_spec c 47). }
  revert ds segment Hs Hn. induction Hp as [|c p Hc Hp IH]; intros ds segment Hs Hn; cbn [fullpath_loop].
  - rewrite UrlEncode_app by (done || apply ch_p_scheme). by rewrite app_nil_r, Hseg.
  - destruct (Z.eqb_spec c 47) as [->|Hc47].
    + rewrite UrlEncode_app by (done || apply ch_p_scheme). cbn [mbind outcome_bind]. rewrite IH by constructor.
      by rewrite (fmap_app _ segment), concat_app, (Hseg segment Hn), <- !app_assoc.
    + rewrite IH; [by rewrite <- app_assoc| |]; by apply Forall_app; split; [|by apply Forall_singleton].
Qed.

Lemma path_escape_slash up c : is_byte c -> filter (fun c => c = 47) (path_escape up c) = filter (fun c => c = 47) [c].
Proof.
  intros Hc.
  pose proof (all_bytes (fun c => bool_decide (filter (fun c => c = 47) (path_escape up c) = filter (fun c => c = 47) [c]))) as Ha.
  eapply bool_decide_eq_true_1, Ha; [|done]. by destruct up; vm_compute.
Qed.

(** ** The characters the encoder writes *)

Definition unreserved (c : Z) : bool := isalnum c || existsb (Z.eqb c) (bytes "-._~").

(** What the comments on the tables allow in a component, with the percent sign and,
    for queries, the plus sign that stands for a space. *)
Definition allowed (percentScheme c : Z) : bool :=
  (c =? 37) || unreserved c ||
  (if percentScheme =? ch_q then existsb (Z.eqb c) (bytes "!$'()*:@/?+")
   else if percentScheme =? ch_p then existsb (Z.eqb c) (bytes "!$&'()*+,:@")
   else if percentScheme =? ch_f then existsb (Z.eqb c) (bytes "!$&'()*+,;=:@/?")
   else if percentScheme =? ch_c then
     (c =? 0x21) || ((0x23 <=? c) && (c <=? 0x2B)) || ((0x2D <=? c) && (c <=? 0x3A)) ||
     ((0x3C <=? c) && (c <=? 0x5B)) || ((0x5D <=? c) && (c <=? 0x7E))
   else false).

Lemma escape_allowed s up c : s ∈ schemes -> is_byte c -> forallb (allowed s) (escape_of s up c) = true.
Proof.
  intros Hs Hc. revert c Hc. apply all_bytes.
  enough (forallb (fun s => forallb (fun c => forallb (allowed s) (escape_of s up c)) (Z.of_nat <$> seq 0 256)) schemes = true) as Ha.
  { rewrite forallb_forall in Ha. apply Ha. by apply list_elem_of_In. }
  destruct up; vm_compute; reflexivity.
Qed.

Lemma escape_no_warning s up c :
  s = ch_p \/ s = ch_q -> is_byte c -> Ns_UrlEncodingWarnUnencoded (escape_of s up c) = None.
Proof.
  intros Hs Hc. apply (bool_decide_eq_true_1 (Ns_UrlEncodingWarnUnencoded (escape_of s up c) = None)).
  revert c Hc. apply (all_bytes (fun c => bool_decide (Ns_UrlEncodingWarnUnencoded (escape_of s up c) = None))).
  destruct Hs as [-> | ->], up; vm_compute; reflexivity.
Qed.

(** ** Theorems *)

(** C28.  Decoding is the inverse of encoding, for every percent-encoding scheme, with
    lower- or upper-case digits, and every character set that can represent the text:
    the encoder fills the pre-sized buffer exactly, the decoder reports success and
    appends the original text. *)
Theorem UrlEncode_roundtrip ds ds' p e s up :
  s ∈ schemes -> is_bytes (external e p) -> representable e p ->
  exists enc, UrlEncode ds p e s up = Ret (ds ++ enc) /\ UrlDecode ds' enc e s = Ret (Some (ds' ++ p, true)).
Proof.
  intros Hs Hb Hr. exists (escaped s up (external e p)). split; [by apply UrlEncode_app|by apply encode_decode].
Qed.

(** Decoding any input terminates without an access outside of the tables or the
    input, and the decoded bytes need no more room than the input (the size of the
    buffer).  The status is [NS_ERROR] only for UTF-8, and then exactly if the input
    has a percent or plus sign and decodes to invalid UTF-8: input without such signs
    is passed through unchecked, although the comment says that invalid UTF-8 is an
    error. *)
Theorem UrlDecode_spec ds seg e s :
  is_bytes seg ->
  exists out, PercentDecode seg s = Ret (Some out) /\ (length out <= length seg)%nat /\ is_bytes out /\
    UrlDecode ds seg e s = Ret (Some (decode_result ds seg out e)) /\
    ((decode_result ds seg out e).2 = false <->
     e = Some NS_utf8Encoding /\ has_code seg = true /\ ~ utf8 out).
Proof.
  intros Hb. destruct (PercentDecode_total seg s Hb) as (out & Hd & Hl & Ho). exists out. split_and!; try done.
  { by apply UrlDecode_result. }
  unfold decode_result. destruct e as [e|]; [|split; [done|by intros [? _]]].
  case_bool_decide as He; [subst e|split; [done|intros [[= ->] _]; done]].
  destruct (has_code seg); cbn [negb]; [|split; [done|by intros (_ & ? & _)]].
  destruct (utf8_loop_spec (S (length out)) 0 out) as (r & Er & Hr); [done|lia|]. unfold Ns_Valid_UTF8. rewrite Er.
  destruct r; cbn; [split; [done|by intros (_ & _ & ?)]|]. split; [|done]. intros _. by destruct Hr as [? _].
Qed.

(** [UrlEncodeFullpath] keeps the slashes of a path and encodes the text between
    them: decoding gives the path back, and no other character of the result is a
    slash. *)
Theorem UrlEncodeFullpath_spec ds path up :
  is_bytes path ->
  exists enc, UrlEncodeFullpath ds path None up = Ret (ds ++ enc) /\
    Ns_UrlPathDecode [] enc None = Ret (Some (path, true)) /\
    filter (fun c => c = 47) enc = filter (fun c => c = 47) path.
Proof.
  intros Hb. exists (concat (path_escape up <$> path)). split_and!.
  - apply (fullpath_loop_spec ds [] path up); [constructor|done|constructor].
  - unfold Ns_UrlPathDecode.
    assert (is_bytes (concat (path_escape up <$> path)) /\ (length path <= length (concat (path_escape up <$> path)))%nat) as [Hbe Hle].
    { clear ds. induction Hb as [|c p Hc Hp IH]; [split; [constructor|done]|]. rewrite fmap_cons. cbn [concat].
      unfold path_escape at 1 3. destruct (Z.eqb_spec c 47); [split; [constructor; [by vm_compute|apply IH]|lens]|].
      pose proof (escaped_bytes ch_p up [c] ch_p_scheme) as H1. pose proof (escape_nonempty ch_p up [c] ch_p_scheme) as H2.
      unfold escaped in *. cbn in H1, H2. rewrite app_nil_r in *. destruct IH. split.
      - apply Forall_app. split; [|done]. apply H1. by apply Forall_singleton.
      - cbn [length]. rewrite length_app. enough (1 <= length (escape_of ch_p up c))%nat by lia. apply H2. by apply Forall_singleton. }
    rewrite (UrlDecode_result [] _ None ch_p path) by (done ||
      (apply (decode_concat ch_p (path_escape up) _ []); [|done|done]; intros c rest Hc; unfold path_escape;
       destruct (Z.eqb_spec c 47) as [->|]; [by exists 47, []|by apply decode_step_escape, Hc; apply ch_p_scheme])). done.
  - induction Hb as [|c p Hc Hp IH]; [done|]. rewrite fmap_cons. cbn [concat].
    by rewrite filter_app, path_escape_slash, IH, <- filter_app.
Qed.

(** An encoded component contains only characters that the grammar quoted in the
    source allows there, and an encoded path or query component is never reported by
    [Ns_UrlEncodingWarnUnencoded]. *)
Theorem UrlEncode_charset p e s up :
  s ∈ schemes -> is_bytes (external e p) ->
  exists enc, UrlEncode [] p e s up = Ret enc /\ forallb (allowed s) enc = true /\
    (s = ch_p \/ s = ch_q -> Ns_UrlEncodingWarnUnencoded enc = None).
Proof.
  intros Hs Hb. exists (escaped s up (external e p)). split; [by rewrite UrlEncode_app|].
  unfold escaped. induction Hb as [|c l Hc Hl [IH1 IH2]]; [done|]. rewrite fmap_cons. cbn [concat]. split.
  - by rewrite forallb_app, IH1, escape_allowed.
  - intros Hw. specialize (IH2 Hw). pose proof (escape_no_warning s up c Hw Hc) as Hc'.
    unfold Ns_UrlEncodingWarnUnencoded in *. rewrite filter_app.
    by destruct (filter _ (escape_of s up c)).
Qed.

End decoding.

(** ** Witnesses, for an encoding that is UTF-8 only *)

#[local] Instance utf8_only : TclEncoding := {|
  Tcl_Encoding := unit;
  Tcl_Encoding_eq := unit_eq_dec;
  NS_utf8Encoding := tt;
  Tcl_UtfToExternalDString := fun _ s => s;
  Tcl_ExternalToUtfDString := fun _ s => s;
|}.

Lemma UrlEncode_roundtrip_witness :
  exists enc, UrlEncode [] (bytes "a b+c/%") (Some NS_utf8Encoding) ch_q true = Ret ([] ++ enc) /\
    UrlDecode [] enc (Some NS_utf8Encoding) ch_q = Ret (Some ([] ++ bytes "a b+c/%", true)).
Proof.
  apply (UrlEncode_roundtrip [] [] (bytes "a b+c/%") (Some NS_utf8Encoding) ch_q true).
  - apply list_elem_of_In. cbn. tauto.
  - repeat (apply Forall_cons; split; [vm_compute; split; congruence|]); apply Forall_nil_2.
  - split; [reflexivity|]. intros _. split; [reflexivity|]. exists (bytes "a b+c/%"). split; [|reflexivity].
    repeat (apply Forall_cons; split; [split; vm_compute; [split; congruence|intros [? ?]; congruence]|]); apply Forall_nil_2.
Defined.

Lemma UrlDecode_spec_witness : UrlDecode [] [0xC0; 0xAE] (Some NS_utf8Encoding) ch_p = Ret (Some ([0xC0; 0xAE], true)).
Proof.
  destruct (UrlDecode_spec [] [0xC0; 0xAE] (Some NS_utf8Encoding) ch_p) as (out & _ & _ & _ & H & _);
    [repeat constructor; vm_compute; congruence|]. exact H.
Defined.

Lemma UrlEncodeFullpath_spec_witness :
  exists enc, UrlEncodeFullpath [] (bytes "/a b//c%") None false = Ret ([] ++ enc) /\
    Ns_UrlPathDecode [] enc None = Ret (Some (bytes "/a b//c%", true)).
Proof.
  destruct (UrlEncodeFullpath_spec [] (bytes "/a b//c%") false) as (enc & H1 & H2 & _); [|exists enc; split; assumption].
  repeat (apply Forall_cons; split; [vm_compute; split; congruence|]); apply Forall_nil_2.
Defined.

Lemma UrlEncode_charset_witness :
  exists enc, UrlEncode [] (bytes "name=va&lue") None ch_q false = Ret enc /\ forallb (allowed ch_q) enc = true.
Proof.
  destruct (UrlEncode_charset (bytes "name=va&lue") None ch_q false) as (enc & H1 & H2 & _);
    [apply list_elem_of_In; cbn; tauto| |exists enc; split; assumption].
  repeat (apply Forall_cons; split; [vm_compute; split; congruence|]); apply Forall_nil_2.
Defined.
