(* ===== verification/NsSet.v ===== *)
(** * NsSet: the Ns_Set key-value structure (nsd/set.c, with NS_SET_DSTRING).

    A set keeps all its strings in one [Tcl_DString]; a field holds pointers into it.
    A pointer is an address, so that a buffer which moves invalidates pointers until
    [ShiftData] has adjusted them.  Tcl's dstring operations are the methods of the
    class [TclDString]; [TclDStringLaws] states what is documented of them.  Strings
    passed by a caller are outside of the set's buffer. *)

From S2P Require Import Prelude Utf8 Str.

(** [ds_string] is the address of the buffer, [ds_bytes] the bytes up to [length]. *)
Record Tcl_DString := mkDString { ds_string : Z; ds_bytes : list Z }.

Class TclDString := {
  Tcl_DStringInit : Tcl_DString;
  Tcl_DStringAppend : Tcl_DString -> list Z -> Tcl_DString;
  Tcl_DStringSetLength : Tcl_DString -> Z -> Tcl_DString;
}.

Class TclDStringLaws `{TclDString} := {
  init_bytes : ds_bytes Tcl_DStringInit = [];
  append_bytes d s : ds_bytes (Tcl_DStringAppend d s) = ds_bytes d ++ s;
  setlength_bytes d n : 0 <= n ->
    exists more, ds_bytes (Tcl_DStringSetLength d n) = take (Z.to_nat n) (ds_bytes d ++ more) /\
      Z.of_nat (length (ds_bytes (Tcl_DStringSetLength d n))) = n;
  setlength_stays d n : 0 <= n <= Z.of_nat (length (ds_bytes d)) ->
    ds_string (Tcl_DStringSetLength d n) = ds_string d;
}.

(** ** Memory: C strings in the buffer *)

(** The C string at address [p]; the byte behind the buffer's content is a NUL. *)
Definition rd (d : Tcl_DString) (p : Z) : outcome (list Z) :=
  let off := p - ds_string d in
  if (0 <=? off) && (off <=? Z.of_nat (length (ds_bytes d)))
  then Ret (before_nul (drop (Z.to_nat off) (ds_bytes d))) else Fault.

(** [memcpy] to address [p]. *)
Definition wr (d : Tcl_DString) (p : Z) (l : list Z) : outcome Tcl_DString :=
  b ← checked (afill (ds_bytes d) (p - ds_string d) l); mret (mkDString (ds_string d) b).

(** ** The structures *)

Record Ns_SetField := mkField { f_name : option Z; f_value : option Z }.

Definition NULL_field : Ns_SetField := mkField None None.

Record Ns_Set := mkSet {
  s_name : option (list Z); size : Z; maxSize : Z; data : Tcl_DString; fields : list Ns_SetField; nocase : bool }.

Definition set_size (s : Ns_Set) (n : Z) : Ns_Set := mkSet (s_name s) n (maxSize s) (data s) (fields s) (nocase s).
Definition set_data (s : Ns_Set) (d : Tcl_DString) : Ns_Set := mkSet (s_name s) (size s) (maxSize s) d (fields s) (nocase s).
Definition set_fields (s : Ns_Set) (f : list Ns_SetField) : Ns_Set := mkSet (s_name s) (size s) (maxSize s) (data s) f (nocase s).

(** The comparison functions passed around, which the code tells apart by address. *)
Inductive StringCmpProc := strcmp | strcasecmp.

Definition cmp_eq (cmp : StringCmpProc) (a b : list Z) : bool :=
  match cmp with
  | strcmp => bool_decide (a = b)
  | strcasecmp => bool_decide (tolower <$> a = tolower <$> b)
  end.

Section set.
Context `{TclDString}.

(** A string argument with its length; [-1] is [TCL_INDEX_NONE]. *)
Definition c_prefix (s : list Z) (n : Z) : outcome (list Z) := if n =? -1 then Ret s else checked (aslice s 0 n).

Definition field (s : Ns_Set) (i : Z) : outcome Ns_SetField := checked (aget (fields s) i).
Definition field_name (s : Ns_Set) (i : Z) : outcome (list Z) :=
  f ← field s i; p ← checked (f_name f); rd (data s) p.
Definition field_value (s : Ns_Set) (i : Z) : outcome (option (list Z)) :=
  f ← field s i;
  match f_value f with
  | None => Ret None
  | Some p => v ← rd (data s) p; mret (Some v)
  end.

(** ** Appending *)

Definition shift_field (shift : Z) (f : Ns_SetField) : Ns_SetField :=
  mkField (Z.add shift <$> f_name f) (Z.add shift <$> f_value f).

Definition ShiftData (s : Ns_Set) (oldDataStart nvalid : Z) : Ns_Set :=
  let newDataStart := ds_string (data s) in
  if negb (oldDataStart =? newDataStart) && (0 <? nvalid) then
    let shift := newDataStart - oldDataStart in
    let n := Z.to_nat nvalid in
    set_fields s ((shift_field shift <$> take n (fields s)) ++ drop n (fields s))
  else s.

(** [None] is the NULL pointer, for the value and for the result. *)
Definition AppendData (s : Ns_Set) (nvalid : Z) (value : option (list Z)) (valueSize : Z) :
    outcome (Ns_Set * option Z) :=
  let oldDataStart := ds_string (data s) in
  let oldLength := Z.of_nat (length (ds_bytes (data s))) in
  match value with
  | None =>
      if (valueSize =? -1) || (valueSize =? 0)
      then Ret (ShiftData (set_data s (Tcl_DStringAppend (data s) [])) oldDataStart nvalid, None)
      else Fault
  | Some v =>
      v ← c_prefix v valueSize;
      let d := Tcl_DStringAppend (data s) v in
      let d := Tcl_DStringSetLength d (Z.of_nat (length (ds_bytes d)) + 1) in
      d ← wr d (ds_string d + Z.of_nat (length (ds_bytes d)) - 1) [0];
      let s := set_data s d in
      let s := if negb (oldDataStart =? ds_string d) then ShiftData s oldDataStart nvalid else s in
      mret (s, Some (ds_string d + oldLength))
  end.

Definition set_field (s : Ns_Set) (i : Z) (f : Ns_SetField) : outcome Ns_Set :=
  fs ← checked (aset (fields s) i f); mret (set_fields s fs).

(** [stringLength] bytes of the string at [p] are searched for an upper-case letter;
    the string is lowered in place from there on. *)
Definition LowerStringWhenNeeded (d : Tcl_DString) (p stringLength : Z) : outcome Tcl_DString :=
  bs ← checked (aslice (ds_bytes d) (p - ds_string d) stringLength);
  let pos := Ns_UpperCharPos bs in
  if -1 <? pos then str ← rd d (p + pos); wr d (p + pos) (Ns_StrToLower str) else Ret d.

(** The new set and the index of the new tuple. *)
Definition Ns_SetPutSz (s : Ns_Set) (keyString : list Z) (keyLength : Z)
    (valueString : option (list Z)) (valueLength : Z) : outcome (Ns_Set * Z) :=
  let idx := size s in
  s ← (if maxSize s <=? idx + 1 then
         let max := (idx + 1) * 2 in
         mret (mkSet (s_name s) (size s) max (data s)
           (take (Z.to_nat idx) (fields s) ++ replicate (Z.to_nat (max - idx)) NULL_field) (nocase s))
       else set_field s idx NULL_field);
  r ← AppendData s idx (Some keyString) keyLength;
  let '(s, name) := r in
  s ← set_field s idx (mkField name None);
  r ← AppendData s (idx + 1) valueString valueLength;
  let '(s, value) := r in
  f ← field s idx;
  s ← set_field s idx (mkField (f_name f) value);
  s ← (if nocase s then
         p ← checked (f_name f);
         str ← rd (data s) p;
         d ← LowerStringWhenNeeded (data s) p (if keyLength =? -1 then Z.of_nat (length str) else keyLength);
         mret (set_data s d)
       else mret s);
  mret (set_size s (size s + 1), idx).

Definition Ns_SetPut (s : Ns_Set) (key : list Z) (value : option (list Z)) : outcome (Ns_Set * Z) :=
  Ns_SetPutSz s key (-1) value (-1).

(** ** Finding *)

Definition DStringLowerStringWhenNeeded (inputString : list Z) : list Z :=
  let pos := Ns_UpperCharPos inputString in
  if -1 <? pos then take (Z.to_nat pos) inputString ++ Ns_StrToLower (drop (Z.to_nat pos) inputString)
  else inputString.

(** The key and the comparison that are used, with the set's option. *)
Definition lookup_key (s : Ns_Set) (key : list Z) : list Z :=
  if nocase s then DStringLowerStringWhenNeeded key else key.
Definition lookup_cmp (s : Ns_Set) (cmp : StringCmpProc) : StringCmpProc := if nocase s then strcmp else cmp.

Fixpoint find_loop (s : Ns_Set) (key : list Z) (cmp : StringCmpProc) (i : Z) (n : nat) : outcome Z :=
  match n with
  | O => Ret (-1)
  | S n => name ← field_name s i; if cmp_eq cmp key name then mret i else find_loop s key cmp (i + 1) n
  end.

Definition Ns_SetFindCmp (s : Ns_Set) (key : list Z) (cmp : StringCmpProc) : outcome Z :=
  find_loop s (lookup_key s key) (lookup_cmp s cmp) 0 (Z.to_nat (size s)).

Definition Ns_SetFind s key := Ns_SetFindCmp s key strcmp.
Definition Ns_SetIFind s key := Ns_SetFindCmp s key strcasecmp.

Definition Ns_SetGetCmp (s : Ns_Set) (key : list Z) (cmp : StringCmpProc) : outcome (option (list Z)) :=
  idx ← Ns_SetFindCmp s key cmp; if idx =? -1 then mret None else field_value s idx.

Definition Ns_SetGet s key := Ns_SetGetCmp s key strcmp.
Definition Ns_SetIGet s key := Ns_SetGetCmp s key strcasecmp.

Definition SetGetValueCmp (s : Ns_Set) (key : list Z) (def : option (list Z)) (cmp : StringCmpProc) :
    outcome (option (list Z)) :=
  v ← Ns_SetGetCmp s key cmp;
  mret (match v with None | Some [] => def | Some _ => v end).

Definition Ns_SetGetValue s key def := SetGetValueCmp s key def strcmp.
Definition Ns_SetIGetValue s key def := SetGetValueCmp s key def strcasecmp.

Fixpoint unique_loop (s : Ns_Set) (key : list Z) (cmp : StringCmpProc) (found : bool) (i : Z) (n : nat) : outcome bool :=
  match n with
  | O => Ret true
  | S n =>
      name ← field_name s i;
      if cmp_eq cmp key name then if found then mret false else unique_loop s key cmp true (i + 1) n
      else unique_loop s key cmp found (i + 1) n
  end.

(** Unlike the other functions, this one switches to [strcmp] only from [strcasecmp],
    which comes to the same thing as there are no other comparisons. *)
Definition Ns_SetUniqueCmp (s : Ns_Set) (key : list Z) (cmp : StringCmpProc) : outcome bool :=
  unique_loop s (lookup_key s key) (lookup_cmp s cmp) false 0 (Z.to_nat (size s)).

Definition Ns_SetUnique s key := Ns_SetUniqueCmp s key strcmp.
Definition Ns_SetIUnique s key := Ns_SetUniqueCmp s key strcasecmp.

(** ** Updating *)

Definition Ns_SetPutValueSz (s : Ns_Set) (index : Z) (value : list Z) (n : Z) : outcome Ns_Set :=
  if index <? size s then
    value ← c_prefix value n;
    let n := Z.of_nat (length value) in
    f ← field s index;
    old ← field_value s index;
    let oldSize := match old with Some v => Z.of_nat (length v) | None => 0 end in
    if (oldSize =? 0) && (n =? 0) then Ret s
    else
      match f_value f with
      | Some p =>
          if (n <=? oldSize) && negb (oldSize =? 0) then
            d ← wr (data s) p value;
            d ← wr d (p + n) [0];
            mret (set_data s d)
          else
            d ← wr (data s) p [3];
            r ← AppendData (set_data s d) (size s) (Some value) n;
            f ← field r.1 index;
            set_field r.1 index (mkField (f_name f) r.2)
      | None =>
          r ← AppendData s (size s) (Some value) n;
          f ← field r.1 index;
          set_field r.1 index (mkField (f_name f) r.2)
      end
  else Ret s.

Definition Ns_SetPutValue s index value := Ns_SetPutValueSz s index value (-1).

Definition Ns_SetUpdateSz (s : Ns_Set) (keyString : list Z) (keyLength : Z) (valueString : list Z) (valueLength : Z) :
    outcome (Ns_Set * Z) :=
  idx ← Ns_SetFind s keyString;
  if negb (idx =? -1) then s ← Ns_SetPutValueSz s idx valueString valueLength; mret (s, idx)
  else Ns_SetPutSz s keyString keyLength (Some valueString) valueLength.

Definition Ns_SetUpdate s key value := Ns_SetUpdateSz s key (-1) value (-1).

(** The first characters are compared ([0] is the NUL of an empty string); the new key
    is copied over the old one if they differ. *)
Definition Ns_SetIUpdateSz (s : Ns_Set) (keyString : list Z) (keyLength : Z) (valueString : list Z) (valueLength : Z) :
    outcome (Ns_Set * Z) :=
  idx ← Ns_SetIFind s keyString;
  if negb (idx =? -1) then
    s ← Ns_SetPutValueSz s idx valueString valueLength;
    name ← field_name s idx;
    if negb (nth 0 name 0 =? nth 0 keyString 0) then
      f ← field s idx;
      p ← checked (f_name f);
      key ← c_prefix keyString keyLength;
      d ← wr (data s) p key;
      mret (set_data s d, idx)
    else mret (s, idx)
  else Ns_SetPutSz s keyString keyLength (Some valueString) valueLength.

Definition Ns_SetIUpdate s key value := Ns_SetIUpdateSz s key (-1) value (-1).

(** ** Removing *)

(** The loop of [Ns_SetTrunc] that looks for the end of the strings to keep: fields
    [i], ..., of which [n] are left.  A NULL pointer is below every address. *)
Fixpoint trunc_loop (s : Ns_Set) (endPtr i : Z) (n : nat) : outcome Z :=
  match n with
  | O => Ret endPtr
  | S n =>
      f ← field s i;
      p ← checked (f_name f);
      endPtr ← (if endPtr <? p then str ← rd (data s) p; mret (p + Z.of_nat (length str) + 1) else mret endPtr);
      endPtr ← match f_value f with
               | Some v => if endPtr <? v then str ← rd (data s) v; mret (v + Z.of_nat (length str) + 1)
                           else mret endPtr
               | None => mret endPtr
               end;
      trunc_loop s endPtr (i + 1) n
  end.

Definition Ns_SetTrunc (s : Ns_Set) (n : Z) : outcome Ns_Set :=
  if n <? size s then
    d ← (if n =? 0 then mret (Tcl_DStringSetLength (data s) 0)
         else
           f ← field s n;
           p ← checked (f_name f);
           endPtr ← trunc_loop s p 0 (S (Z.to_nat n));
           mret (Tcl_DStringSetLength (data s) (endPtr - ds_string (data s))));
    mret (set_size (set_data s d) n)
  else Ret s.

(** The new set and the success flag; an index below -1 is outside of the array. *)
Definition Ns_SetDelete (s : Ns_Set) (index : Z) : outcome (Ns_Set * bool) :=
  if negb (index =? -1) && (index <? size s) then
    if index <? 0 then Fault
    else mret (set_size (set_fields s (take (Z.to_nat index) (fields s) ++
           take (Z.to_nat (size s - 1 - index)) (drop (S (Z.to_nat index)) (fields s)) ++
           drop (Z.to_nat (size s - 1)) (fields s))) (size s - 1), true)
  else Ret (s, false).

Definition Ns_SetDeleteKey s key := idx ← Ns_SetFind s key; Ns_SetDelete s idx.
Definition Ns_SetIDeleteKey s key := idx ← Ns_SetIFind s key; Ns_SetDelete s idx.

(** ** Creating and combining *)

Definition SetCreate (name : option (list Z)) (n : Z) : Ns_Set :=
  mkSet name 0 n Tcl_DStringInit (replicate (Z.to_nat n) NULL_field) false.

Definition Ns_SetCreate name := SetCreate name 10.
Definition Ns_SetCreateSz name n := SetCreate name n.

Definition NsSetDataPrealloc (s : Ns_Set) (n : Z) : Ns_Set :=
  set_data s (Tcl_DStringSetLength (Tcl_DStringSetLength (data s) n) (Z.of_nat (length (ds_bytes (data s))))).

(** Copies the tuples [i], ..., of which [n] are left, to [to]. *)
Fixpoint put_all (to from : Ns_Set) (i : Z) (n : nat) : outcome Ns_Set :=
  match n with
  | O => Ret to
  | S n =>
      key ← field_name from i;
      value ← field_value from i;
      r ← Ns_SetPut to key value;
      put_all r.1 from (i + 1) n
  end.

Definition set_nocase (s : Ns_Set) (b : bool) : Ns_Set := mkSet (s_name s) (size s) (maxSize s) (data s) (fields s) b.

Definition Ns_SetCopy (old : Ns_Set) : outcome Ns_Set :=
  let new := set_nocase (SetCreate (s_name old) (size old + 1)) (nocase old) in
  let new := NsSetDataPrealloc new (Z.of_nat (length (ds_bytes (data old))) + 1) in
  put_all new old 0 (Z.to_nat (size old)).

(** The two sets, [to] first. *)
Definition Ns_SetMove (to from : Ns_Set) : outcome (Ns_Set * Ns_Set) :=
  to ← put_all to from 0 (Z.to_nat (size from));
  from ← Ns_SetTrunc from 0;
  mret (to, from).

(** [strlen] of a NULL value is a fault. *)
Fixpoint merge_loop (high low : Ns_Set) (findProc : Ns_Set -> list Z -> outcome Z) (i : Z) (n : nat) : outcome Ns_Set :=
  match n with
  | O => Ret high
  | S n =>
      key ← field_name low i;
      j ← findProc high key;
      high ← (if j =? -1 then
                value ← field_value low i;
                value ← checked value;
                r ← Ns_SetPutSz high key (Z.of_nat (length key)) (Some value) (Z.of_nat (length value));
                mret r.1
              else mret high);
      merge_loop high low findProc (i + 1) n
  end.

Definition SetMerge (high low : Ns_Set) (findProc : Ns_Set -> list Z -> outcome Z) : outcome Ns_Set :=
  merge_loop high low findProc 0 (Z.to_nat (size low)).

Definition Ns_SetMerge high low := SetMerge high low Ns_SetFind.
Definition Ns_SetIMerge high low := SetMerge high low Ns_SetIFind.

End set.

(** ** Strings in the buffer *)

(** The C string [s] stands at offset [o] of [bs]. *)
Definition stands (bs : list Z) (o : Z) (s : list Z) : Prop :=
  0 <= o /\ Forall (fun c => c <> 0) s /\
  forall j, (j <= length s)%nat -> bs !! (Z.to_nat o + j)%nat = (s ++ [0]) !! j.

Lemma stands_split bs o s :
  stands bs o s -> exists pre post, bs = pre ++ s ++ 0 :: post /\ Z.of_nat (length pre) = o /\ Forall (fun c => c <> 0) s.
Proof.
  intros (Ho & Hs & Hl).
  assert (length s < length (drop (Z.to_nat o) bs))%nat as Hlen.
  { specialize (Hl (length s) ltac:(lia)). rewrite lookup_app_r, Nat.sub_diag in Hl by lia.
    apply lookup_lt_Some in Hl. lens. }
  exists (take (Z.to_nat o) bs), (drop (Z.to_nat o + S (length s)) bs). split_and!; [|lens|done].
  rewrite <- (take_drop (Z.to_nat o) bs) at 1. f_equal. rewrite <- (take_drop (S (length s)) (drop (Z.to_nat o) bs)) at 1.
  rewrite drop_drop.
  replace (s ++ 0 :: drop (Z.to_nat o + S (length s)) bs) with ((s ++ [0]) ++ drop (Z.to_nat o + S (length s)) bs)
    by (by rewrite <- app_assoc).
  f_equal. apply list_eq. intros j. destruct (decide (j <= length s)%nat) as [Hj|Hj].
  - rewrite lookup_take_lt, lookup_drop by lia. by apply Hl.
  - rewrite !lookup_ge_None_2; [done|lens|lens].
Qed.

Lemma rd_stands d o s : stands (ds_bytes d) o s -> rd d (ds_string d + o) = Ret s.
Proof.
  intros (pre & post & E & <- & Hs)%stands_split. unfold rd.
  replace (ds_string d + Z.of_nat (length pre) - ds_string d) with (Z.of_nat (length pre)) by lia.
  rewrite E. destruct (Z.leb_spec 0 (Z.of_nat (length pre))); [|lia].
  destruct (Z.leb_spec (Z.of_nat (length pre)) (Z.of_nat (length (pre ++ s ++ 0 :: post)))); [|lens].
  cbn [andb]. by rewrite Nat2Z.id, drop_app_length, before_nul_stop.
Qed.

Lemma stands_app bs o s x : stands bs o s -> stands (bs ++ x) o s.
Proof.
  intros (Ho & Hs & Hl). split_and!; try done. intros j Hj. rewrite <- (Hl j Hj). apply lookup_app_l.
  specialize (Hl j Hj). destruct (lookup_lt_is_Some_2 (s ++ [0]) j) as [c Hc]; [lens|]. rewrite Hc in Hl.
  by eapply lookup_lt_Some.
Qed.

Lemma stands_at pre s post :
  Forall (fun c => c <> 0) s -> stands (pre ++ (s ++ [0]) ++ post) (Z.of_nat (length pre)) s.
Proof.
  intros Hs. split_and!; [lia|done|]. intros j Hj. rewrite Nat2Z.id, lookup_app_r by lia.
  replace (length pre + j - length pre)%nat with j by lia. apply lookup_app_l. lens.
Qed.

Lemma afill_lookup (a l b : list Z) i :
  afill a i l = Some b ->
  0 <= i /\ length b = length a /\ i + Z.of_nat (length l) <= Z.of_nat (length a) /\
  forall j, b !! j = if decide (Z.to_nat i <= j < Z.to_nat i + length l)%nat then l !! (j - Z.to_nat i)%nat else a !! j.
Proof.
  unfold afill. destruct (Z.leb_spec 0 i), (Z.leb_spec (i + Z.of_nat (length l)) (Z.of_nat (length a))); try done.
  cbn [andb]. intros [= <-]. split_and!; [lia|lens|lia|]. intros j. case_decide.
  - rewrite lookup_app_r by lens. rewrite length_take, lookup_app_l by lia. f_equal. lia.
  - destruct (decide (j < Z.to_nat i)%nat).
    + rewrite lookup_app_l by lens. by apply lookup_take_lt.
    + rewrite lookup_app_r by lens. rewrite lookup_app_r, lookup_drop by lens. f_equal. lens.
Qed.

Lemma stands_bound bs o s : stands bs o s -> o + Z.of_nat (length s) < Z.of_nat (length bs).
Proof. intros (pre & post & -> & <- & _)%stands_split. lens. Qed.

(** A write outside of a string leaves it alone. *)
Lemma stands_afill bs bs' o s p x :
  stands bs o s -> afill bs p x = Some bs' ->
  o + Z.of_nat (length s) + 1 <= p \/ p + Z.of_nat (length x) <= o -> stands bs' o s.
Proof.
  intros (Ho & Hs & Hl) (Hp & _ & _ & Hlk)%afill_lookup Hd. split_and!; try done.
  intros j Hj. rewrite Hlk. case_decide; [lia|by apply Hl].
Qed.

(** Writing a shorter string and a NUL at a string's place. *)
Lemma stands_overwrite bs b1 bs' o s x :
  stands bs o s -> (length x <= length s)%nat -> Forall (fun c => c <> 0) x ->
  afill bs o x = Some b1 -> afill b1 (o + Z.of_nat (length x)) [0] = Some bs' -> stands bs' o x.
Proof.
  intros (Ho & _ & _) Hlen Hx (_ & _ & _ & H1)%afill_lookup (_ & _ & _ & H2)%afill_lookup. split_and!; try done.
  intros j Hj. rewrite H2. cbn [length]. case_decide.
  - rewrite lookup_app_r by lia. replace (_ - Z.to_nat (o + Z.of_nat (length x)))%nat with 0%nat by lia.
    by replace (j - length x)%nat with 0%nat by lia.
  - rewrite H1. case_decide; [|lia]. rewrite lookup_app_l by lia. f_equal. lia.
Qed.

(** ** The layout of a set

    The tuples of a set, and the field array with pointers as offsets into the buffer:
    every string stands at its offset, and no two strings overlap. *)

Abbreviation tuple := (list Z * option (list Z))%type.

(** The string of tuple [k.1]: its value if [k.2], else its name. *)
Definition slot (offs : list Ns_SetField) (l : list tuple) (k : nat * bool) : option (Z * list Z) :=
  match offs !! k.1, l !! k.1 with
  | Some f, Some (n, v) =>
      if k.2 then match f_value f, v with Some p, Some v => Some (p, v) | _, _ => None end
      else match f_name f with Some p => Some (p, n) | None => None end
  | _, _ => None
  end.

Definition apart (x y : Z * list Z) : Prop :=
  x.1 + Z.of_nat (length x.2) + 1 <= y.1 \/ y.1 + Z.of_nat (length y.2) + 1 <= x.1.

Definition field_of (f : Ns_SetField) (t : tuple) : Prop := is_Some (f_name f) /\ (f_value f = None <-> t.2 = None).

Record layout (bs : list Z) (offs : list Ns_SetField) (l : list tuple) : Prop := {
  lay_fields : Forall2 field_of offs l;
  lay_stands k x : slot offs l k = Some x -> stands bs x.1 x.2;
  lay_apart k1 k2 x1 x2 : k1 <> k2 -> slot offs l k1 = Some x1 -> slot offs l k2 = Some x2 -> apart x1 x2;
}.

Lemma layout_nil bs : layout bs [] [].
Proof. split; [done|by intros [[] []]|by intros [[] []]]. Qed.

(** The field of a tuple, and where its strings stand. *)
Lemma layout_lookup bs offs l i n v :
  layout bs offs l -> l !! i = Some (n, v) ->
  exists p q, offs !! i = Some (mkField (Some p) q) /\ slot offs l (i, false) = Some (p, n) /\
    slot offs l (i, true) = match q, v with Some q, Some v => Some (q, v) | _, _ => None end /\ (q = None <-> v = None).
Proof.
  intros Hl Hi. destruct (Forall2_lookup_r _ _ _ _ _ (lay_fields _ _ _ Hl) Hi) as (f & Hf & [[p Hp] Hq]).
  destruct f as [name q]. cbn in Hp, Hq. subst name. exists p, q. unfold slot. cbn. by rewrite Hf, Hi.
Qed.

Lemma apart_sym x y : apart x y -> apart y x.
Proof. unfold apart. tauto. Qed.

(** Replacing or adding one tuple. *)
Lemma layout_replace bs offs l bs' offs' l' i (nm : Z * list Z) (vo : option (Z * list Z)) :
  layout bs offs l -> Forall2 field_of offs' l' ->
  (forall k, slot offs' l' k = if decide (k.1 = i) then if k.2 then vo else Some nm else slot offs l k) ->
  stands bs' nm.1 nm.2 -> (forall y, vo = Some y -> stands bs' y.1 y.2 /\ apart nm y) ->
  (forall k x, k.1 <> i -> slot offs l k = Some x ->
     stands bs' x.1 x.2 /\ apart x nm /\ (forall y, vo = Some y -> apart x y)) ->
  layout bs' offs' l'.
Proof.
  intros Hl Hf Hk Hn Hv Ho. split; [done| |].
  - intros [j b] x. rewrite Hk. cbn. case_decide as Hj.
    + destruct b; [intros E; by apply Hv|by intros [= <-]].
    + intros E. by apply (Ho (j, b)).
  - intros [j1 b1] [j2 b2] x1 x2 Hne. rewrite !Hk. cbn. repeat case_decide; subst.
    + destruct b1, b2; try done; intros E1 E2; simplify_eq; [apply apart_sym|]; by apply Hv.
    + intros E1 E2. destruct (Ho (j2, b2) x2 ltac:(done) E2) as (_ & H1 & H2). apply apart_sym.
      destruct b1; simplify_eq; eauto.
    + intros E1 E2. destruct (Ho (j1, b1) x1 ltac:(done) E1) as (_ & H1 & H2). destruct b2; simplify_eq; eauto.
    + by eapply lay_apart.
Qed.

Lemma slot_insert offs l i p n vo k :
  (i < length offs)%nat -> (i < length l)%nat ->
  slot (<[i := mkField (Some p) (fst <$> vo)]> offs) (<[i := (n, snd <$> vo)]> l) k =
  if decide (k.1 = i) then if k.2 then vo else Some (p, n) else slot offs l k.
Proof.
  intros Ho Hl. unfold slot. case_decide as Hk.
  - rewrite Hk, !list_lookup_insert_eq by done. destruct k as [j []], vo as [[]|]; done.
  - by rewrite !list_lookup_insert_ne by done.
Qed.

Lemma slot_snoc offs l p n vo k :
  length offs = length l ->
  slot (offs ++ [mkField (Some p) (fst <$> vo)]) (l ++ [(n, snd <$> vo)]) k =
  if decide (k.1 = length l) then if k.2 then vo else Some (p, n) else slot offs l k.
Proof.
  intros Hlen. unfold slot. case_decide as Hk.
  - rewrite Hk. rewrite <- Hlen at 1. rewrite !list_lookup_middle by done. destruct k as [j []], vo as [[]|]; done.
  - destruct (decide (k.1 < length l)%nat).
    + by rewrite !lookup_app_l by lia.
    + by rewrite !(lookup_ge_None_2 _ k.1) by lens.
Qed.

Lemma field_of_vo p n (vo : option (Z * list Z)) : field_of (mkField (Some p) (fst <$> vo)) (n, snd <$> vo).
Proof. split; [by eexists|]. by destruct vo. Qed.

(** A new tuple behind all strings. *)
Lemma layout_snoc bs offs l k v :
  layout bs offs l -> Forall (fun c => c <> 0) k -> (forall w, v = Some w -> Forall (fun c => c <> 0) w) ->
  let o := Z.of_nat (length bs) in
  let vo := (fun w => (o + Z.of_nat (length k) + 1, w)) <$> v in
  layout (bs ++ (k ++ [0]) ++ match v with Some w => w ++ [0] | None => [] end)
    (offs ++ [mkField (Some o) (fst <$> vo)]) (l ++ [(k, v)]).
Proof.
  intros Hl Hk Hv o vo. replace (l ++ [(k, v)]) with (l ++ [(k, snd <$> vo)]) by (by unfold vo; destruct v).
  pose proof (Forall2_length _ _ _ (lay_fields _ _ _ Hl)) as Hlen.
  eapply (layout_replace bs offs l _ _ _ (length l) (o, k) vo); [done| | | | |].
  - apply Forall2_app; [apply Hl|]. constructor; [apply field_of_vo|constructor].
  - intros q. by apply slot_snoc.
  - by apply stands_at.
  - intros [q w] Hq. unfold vo in Hq. destruct v as [w'|]; [|done]. injection Hq as <- <-. split.
    + cbn. replace (o + Z.of_nat (length k) + 1) with (Z.of_nat (length (bs ++ k ++ [0]))) by (unfold o; lens).
      rewrite app_assoc, <- (app_nil_r (w' ++ [0])). apply stands_at. by apply Hv.
    + left. cbn. lia.
  - intros q x _ Hq. pose proof (lay_stands _ _ _ Hl _ _ Hq) as Hs. pose proof (stands_bound _ _ _ Hs).
    split_and!; [by apply stands_app|left; cbn; unfold o; lia|].
    intros [q' w'] Hy. unfold vo in Hy. destruct v; [|done]. injection Hy as <- <-. left. cbn. unfold o. lia.
Qed.

Lemma stands_same bs bs' o s x :
  stands bs o s -> length x = length s -> Forall (fun c => c <> 0) x -> afill bs o x = Some bs' -> stands bs' o x.
Proof.
  intros (Ho & _ & Hl) Hlen Hx (_ & _ & _ & H1)%afill_lookup. split_and!; try done. intros j Hj. rewrite H1. case_decide.
  - rewrite lookup_app_l by lia. f_equal. lia.
  - assert (j = length x) as -> by lia. rewrite Hl by lia. rewrite !lookup_app_r by lia. by rewrite Hlen.
Qed.

(** A value replaced, in a buffer where all other strings still stand. *)
Lemma layout_value bs bs' offs l i n v p q q' w :
  layout bs offs l -> l !! i = Some (n, v) -> offs !! i = Some (mkField (Some p) q) ->
  stands bs' q' w ->
  (forall k x, k <> (i, true) -> slot offs l k = Some x -> stands bs' x.1 x.2 /\ apart x (q', w)) ->
  layout bs' (<[i := mkField (Some p) (Some q')]> offs) (<[i := (n, Some w)]> l).
Proof.
  intros Hl Hi Ho Hs Hk. pose proof (Forall2_length _ _ _ (lay_fields _ _ _ Hl)) as Hlen.
  pose proof (lookup_lt_Some _ _ _ Hi). pose proof (lookup_lt_Some _ _ _ Ho).
  destruct (layout_lookup _ _ _ _ _ _ Hl Hi) as (p' & q0 & Ho' & Hn & _). rewrite Ho in Ho'. injection Ho' as <- <-.
  eapply (layout_replace bs offs l bs' _ _ i (p, n) (Some (q', w))); [done| | | | |].
  - apply Forall2_insert; [apply Hl|]. apply (field_of_vo p n (Some (q', w))).
  - intros k. by apply (slot_insert offs l i p n (Some (q', w))).
  - by apply (Hk (i, false)).
  - intros y [= <-]. split; [done|]. by apply (Hk (i, false)).
  - intros k x Hki Hx. destruct (Hk k x) as [H1 H2]; [by intros ->|done|]. split_and!; [done| |by intros y [= <-]].
    by apply (lay_apart _ _ _ Hl k (i, false)); [intros ->|..].
Qed.

(** A name overwritten by one of the same length. *)
Lemma layout_rename bs bs' offs l i n v p q n' :
  layout bs offs l -> l !! i = Some (n, v) -> offs !! i = Some (mkField (Some p) q) ->
  length n' = length n -> Forall (fun c => c <> 0) n' -> afill bs p n' = Some bs' ->
  layout bs' offs (<[i := (n', v)]> l).
Proof.
  intros Hl Hi Ho Hlen Hz Hf. destruct (layout_lookup _ _ _ _ _ _ Hl Hi) as (p' & q0 & Ho' & Hn & Hv & Hnone).
  rewrite Ho in Ho'. injection Ho' as <- <-. set (vo := slot offs l (i, true)).
  assert (q = fst <$> vo /\ v = snd <$> vo) as [Eq Ev].
  { unfold vo. rewrite Hv. destruct q, v; try done; destruct Hnone as [H1 H2]; [by discriminate H2|by discriminate H1]. }
  rewrite <- (list_insert_id offs i _ Ho). rewrite Ev at 1. rewrite Eq at 1.
  pose proof (lookup_lt_Some _ _ _ Hi). pose proof (lookup_lt_Some _ _ _ Ho).
  pose proof (lay_stands _ _ _ Hl _ _ Hn) as Hsn. cbn in Hsn.
  assert (forall k x, k <> (i, false) -> slot offs l k = Some x -> stands bs' x.1 x.2 /\ apart x (p, n')) as Hother.
  { intros k x Hk Hx. pose proof (lay_apart _ _ _ Hl _ _ _ _ Hk Hx Hn) as Ha. unfold apart in *. cbn in *. rewrite Hlen.
    split; [|done]. eapply stands_afill; [by eapply lay_stands|done|]. lia. }
  eapply (layout_replace bs offs l bs' _ _ i (p, n') vo); [done| | | | |].
  - apply Forall2_insert; [apply Hl|apply field_of_vo].
  - intros k. by apply slot_insert.
  - by eapply stands_same.
  - intros y Hy. destruct (Hother (i, true) y) as [? ?]; [done..|]. split; [done|by apply apart_sym].
  - intros k x Hk Hx. destruct (Hother k x) as [H1 H2]; [by intros ->|done|]. split_and!; try done.
    intros y Hy. by apply (lay_apart _ _ _ Hl k (i, true)); [intros ->|..].
Qed.

(** A tuple removed. *)
Lemma layout_delete bs offs l i :
  layout bs offs l -> layout bs (take i offs ++ drop (S i) offs) (take i l ++ drop (S i) l).
Proof.
  intros Hl. pose proof (Forall2_length _ _ _ (lay_fields _ _ _ Hl)) as Hlen.
  set (up k := if decide (k < i)%nat then k else S k).
  assert (forall A (a : list A) j, (take i a ++ drop (S i) a) !! j = if decide (i <= length a)%nat then a !! up j else a !! j) as Hlk.
  { intros A a j. unfold up. case_decide as Hi; [|rewrite take_ge, drop_ge, app_nil_r by lia; done].
    destruct (decide (j < i)%nat).
    - rewrite lookup_app_l by lens. by apply lookup_take_lt.
    - rewrite lookup_app_r by lens. rewrite length_take, lookup_drop. f_equal. lia. }
  assert (forall j b, slot (take i offs ++ drop (S i) offs) (take i l ++ drop (S i) l) (j, b) =
    slot offs l ((if decide (i <= length l)%nat then up j else j), b)) as Hslot.
  { intros j b. unfold slot. cbn. rewrite !Hlk, Hlen. by case_decide. }
  split.
  - apply Forall2_app; [apply Forall2_take|apply Forall2_drop]; apply Hl.
  - intros [j b] x. rewrite Hslot. apply Hl.
  - intros [j1 b1] [j2 b2] x1 x2 Hne. rewrite !Hslot. apply Hl. intros [= E ->]. apply Hne. f_equal.
    unfold up in E. repeat case_decide; lia.
Qed.

(** ** Sets that hold a list of tuples *)

Section sets.
Context `{TclDStringLaws}.

Definition rep (s : Ns_Set) (l : list tuple) : Prop :=
  size s = Z.of_nat (length l) /\ maxSize s = Z.of_nat (length (fields s)) /\ (length l <= length (fields s))%nat /\
  exists offs, take (length l) (fields s) = shift_field (ds_string (data s)) <$> offs /\ layout (ds_bytes (data s)) offs l.

(** What an operation on the buffer leaves as it was. *)
Definition kept (s s' : Ns_Set) : Prop :=
  size s' = size s /\ maxSize s' = maxSize s /\ nocase s' = nocase s /\ s_name s' = s_name s /\
  length (fields s') = length (fields s).

Lemma kept_refl s : kept s s.
Proof. by split_and!. Qed.

Lemma shift_field_shift a b f : shift_field a (shift_field b f) = shift_field (a + b) f.
Proof. destruct f as [[n|] [v|]]; unfold shift_field; cbn; by rewrite ?Z.add_assoc. Qed.

Lemma shift_field_0 f : shift_field 0 f = f.
Proof. by destruct f as [[n|] [v|]]. Qed.

Lemma ShiftData_spec s old n offs :
  (n <= length (fields s))%nat -> take n (fields s) = shift_field old <$> offs ->
  let s' := ShiftData s old (Z.of_nat n) in
  take n (fields s') = shift_field (ds_string (data s)) <$> offs /\ drop n (fields s') = drop n (fields s) /\
  data s' = data s /\ kept s s'.
Proof.
  intros Hn Ht. unfold ShiftData. destruct (Z.eqb_spec old (ds_string (data s))) as [<-|]; cbn [negb andb].
  { split_and!; done. }
  destruct (Z.ltb_spec 0 (Z.of_nat n)) as [H1|]; cbn [andb].
  - rewrite Nat2Z.id. cbn [fields set_fields data].
    assert (n = length (shift_field (ds_string (data s) - old) <$> take n (fields s))) as Hlen
      by (rewrite length_fmap, length_take; lia).
    rewrite take_app_length', drop_app_length' by exact Hlen. rewrite Ht. split_and!; try done.
    + rewrite <- list_fmap_compose. apply list_fmap_ext. intros i f _. cbn. rewrite shift_field_shift. f_equal. lia.
    + rewrite <- Ht. split_and!; try done. cbn. rewrite length_app, length_fmap, length_take, length_drop. lia.
  - assert (n = 0%nat) as -> by lia. destruct offs; [|done]. split_and!; done.
Qed.

(** [AppendData]: the string is appended with a NUL, the pointers of the first [n]
    fields follow the buffer. *)
Lemma AppendData_spec s n v sz w offs :
  c_prefix v sz = Ret w -> (n <= length (fields s))%nat ->
  take n (fields s) = shift_field (ds_string (data s)) <$> offs ->
  exists s', AppendData s (Z.of_nat n) (Some v) sz = Ret (s', Some (ds_string (data s') + Z.of_nat (length (ds_bytes (data s))))) /\
    ds_bytes (data s') = ds_bytes (data s) ++ w ++ [0] /\
    take n (fields s') = shift_field (ds_string (data s')) <$> offs /\ drop n (fields s') = drop n (fields s) /\ kept s s'.
Proof.
  intros Hw Hn Ht. unfold AppendData. rewrite Hw. cbn [mbind outcome_bind].
  set (d1 := Tcl_DStringAppend (data s) w). assert (ds_bytes d1 = ds_bytes (data s) ++ w) as Hd1 by apply append_bytes.
  set (d2 := Tcl_DStringSetLength d1 (Z.of_nat (length (ds_bytes d1)) + 1)).
  assert (exists c, ds_bytes d2 = ds_bytes d1 ++ [c]) as [c Hd2].
  { destruct (setlength_bytes d1 (Z.of_nat (length (ds_bytes d1)) + 1)) as (more & E & Hlen); [lia|].
    fold d2 in E, Hlen. rewrite E in *. rewrite take_app_ge in Hlen |- * by lia.
    replace (Z.to_nat (Z.of_nat (length (ds_bytes d1)) + 1) - length (ds_bytes d1))%nat with 1%nat in * by lia.
    destruct more as [|c more]; [lens|]. by exists c. }
  unfold wr. replace (_ - 1 - ds_string d2) with (Z.of_nat (length (ds_bytes d1))) by (rewrite Hd2; lens).
  rewrite Hd2, (afill_at (ds_bytes d1) [c] [0]) by (cbn; lia). cbn [checked mbind outcome_bind drop length app mret outcome_ret].
  set (d3 := mkDString (ds_string d2) (ds_bytes d1 ++ [0])). change (ds_string d3) with (ds_string d2).
  destruct (ShiftData_spec (set_data s d3) (ds_string (data s)) n offs Hn Ht) as (H1 & H2 & H3 & H4).
  assert ((if negb (ds_string (data s) =? ds_string d2) then ShiftData (set_data s d3) (ds_string (data s)) (Z.of_nat n)
    else set_data s d3) = ShiftData (set_data s d3) (ds_string (data s)) (Z.of_nat n)) as ->.
  { unfold ShiftData. cbn [data set_data]. change (ds_string d3) with (ds_string d2).
    by destruct (ds_string (data s) =? ds_string d2). }
  eexists. split; [rewrite H3; reflexivity|]. rewrite H3. cbn [data set_data]. split_and!; try done; try apply H4.
  cbn. by rewrite Hd1, <- app_assoc.
Qed.

Lemma AppendData_None s n sz offs :
  (sz = -1 \/ sz = 0) -> (n <= length (fields s))%nat -> take n (fields s) = shift_field (ds_string (data s)) <$> offs ->
  exists s', AppendData s (Z.of_nat n) None sz = Ret (s', None) /\
    ds_bytes (data s') = ds_bytes (data s) /\
    take n (fields s') = shift_field (ds_string (data s')) <$> offs /\ drop n (fields s') = drop n (fields s) /\ kept s s'.
Proof.
  intros Hsz Hn Ht. unfold AppendData.
  assert ((sz =? -1) || (sz =? 0) = true) as -> by (destruct Hsz as [-> | ->]; done).
  set (d1 := Tcl_DStringAppend (data s) []). assert (ds_bytes d1 = ds_bytes (data s)) as Hd1
    by (unfold d1; by rewrite append_bytes, app_nil_r).
  destruct (ShiftData_spec (set_data s d1) (ds_string (data s)) n offs Hn Ht) as (H1 & H2 & H3 & H4).
  eexists. split; [reflexivity|]. rewrite H3. cbn [data set_data]. split_and!; try done; apply H4.
Qed.

(** A string argument, possibly NULL, and the string it denotes. *)
Definition denotes (v : option (list Z)) (sz : Z) (w : option (list Z)) : Prop :=
  match v, w with
  | Some v, Some w => c_prefix v sz = Ret w /\ Forall (fun c => c <> 0) w
  | None, None => sz = -1 \/ sz = 0
  | _, _ => False
  end.

Lemma denotes_cstring v : Forall (fun c => c <> 0) v -> denotes (Some v) (-1) (Some v).
Proof. by split. Qed.

Definition terminated (v : option (list Z)) : list Z := match v with Some w => w ++ [0] | None => [] end.

Lemma AppendData_denotes s n v sz w offs :
  denotes v sz w -> (n <= length (fields s))%nat -> take n (fields s) = shift_field (ds_string (data s)) <$> offs ->
  exists s', AppendData s (Z.of_nat n) v sz =
      Ret (s', (fun _ => ds_string (data s') + Z.of_nat (length (ds_bytes (data s)))) <$> w) /\
    ds_bytes (data s') = ds_bytes (data s) ++ terminated w /\
    take n (fields s') = shift_field (ds_string (data s')) <$> offs /\ drop n (fields s') = drop n (fields s) /\ kept s s'.
Proof.
  intros Hd Hn Ht. destruct v as [v|], w as [w|]; try done.
  - destruct Hd as [Hd _]. by apply AppendData_spec.
  - destruct (AppendData_None s n sz offs Hd Hn Ht) as (s' & ? & Hb & ?). exists s'. by rewrite Hb, app_nil_r.
Qed.

(** *** Lower case *)

Lemma StrToLower_fmap str : Ns_StrToLower str = tolower <$> str.
Proof. apply list_fmap_ext. intros i c _. unfold tolower. by destruct (isupper c). Qed.

Lemma upper_pos_spec i bs :
  (upper_pos i bs = -1 /\ Forall (fun c => isupper c = false) bs) \/
  exists j, upper_pos i bs = i + Z.of_nat j /\ (j < length bs)%nat /\ Forall (fun c => isupper c = false) (take j bs).
Proof.
  revert i. induction bs as [|c bs IH]; intros i; [by left|]. cbn [upper_pos]. destruct (isupper c) eqn:Ec.
  - right. exists 0%nat. split_and!; [lia|cbn; lia|constructor].
  - destruct (IH (i + 1)) as [[-> Hf]|(j & -> & Hj & Hf)]; [left; split; [done|by constructor]|].
    right. exists (S j). split_and!; [lia|cbn; lia|by constructor].
Qed.

Lemma lower_id l : Forall (fun c => isupper c = false) l -> tolower <$> l = l.
Proof. induction 1 as [|c l Hc _ IH]; [done|]. rewrite fmap_cons, IH. unfold tolower. by rewrite Hc. Qed.

Lemma DStringLower_spec key : DStringLowerStringWhenNeeded key = tolower <$> key.
Proof.
  unfold DStringLowerStringWhenNeeded, Ns_UpperCharPos. destruct (upper_pos_spec 0 key) as [[-> Hf]|(j & -> & Hj & Hf)].
  - by rewrite lower_id.
  - destruct (Z.ltb_spec (-1) (0 + Z.of_nat j)); [|lia]. rewrite Z.add_0_l, Nat2Z.id, StrToLower_fmap.
    rewrite <- (take_drop j key) at 3. by rewrite fmap_app, (lower_id (take j key)).
Qed.

Lemma lower_nonzero l : Forall (fun c => c <> 0) l -> Forall (fun c => c <> 0) (tolower <$> l).
Proof.
  intros Hl. apply Forall_fmap. eapply Forall_impl; [done|]. intros c Hc. cbn. unfold tolower, isupper. zcases; lia.
Qed.

Lemma LowerString_spec d o str :
  stands (ds_bytes d) o str ->
  exists d', LowerStringWhenNeeded d (ds_string d + o) (Z.of_nat (length str)) = Ret d' /\ ds_string d' = ds_string d /\
    afill (ds_bytes d) o (tolower <$> str) = Some (ds_bytes d').
Proof.
  intros Hst. destruct (stands_split _ _ _ Hst) as (pre & post & E & <- & Hz). unfold LowerStringWhenNeeded.
  replace (ds_string d + Z.of_nat (length pre) - ds_string d) with (Z.of_nat (length pre)) by lia.
  rewrite E, aslice_app. cbn [checked mbind outcome_bind]. unfold Ns_UpperCharPos.
  rewrite (afill_app pre str (0 :: post) (tolower <$> str)) by (by rewrite length_fmap).
  destruct (upper_pos_spec 0 str) as [[-> Hf]|(j & -> & Hj & Hf)].
  - exists d. split_and!; [done|done|]. by rewrite lower_id, E.
  - destruct (Z.ltb_spec (-1) (0 + Z.of_nat j)); [|lia]. rewrite Z.add_0_l.
    assert (stands (ds_bytes d) (Z.of_nat (length (pre ++ take j str))) (drop j str)) as Hs.
    { rewrite E, <- (take_drop j str) at 1. replace (pre ++ (take j str ++ drop j str) ++ 0 :: post) with
        ((pre ++ take j str) ++ (drop j str ++ [0]) ++ post) by (by rewrite <- !app_assoc).
      apply stands_at. by apply Forall_drop. }
    replace (ds_string d + Z.of_nat (length pre) + Z.of_nat j) with (ds_string d + Z.of_nat (length (pre ++ take j str))) by lens.
    rewrite (rd_stands _ _ _ Hs). cbn [mbind outcome_bind]. unfold wr.
    replace (_ - ds_string d) with (Z.of_nat (length (pre ++ take j str))) by lia.
    rewrite E. replace (pre ++ str ++ 0 :: post) with ((pre ++ take j str) ++ drop j str ++ 0 :: post)
      by (rewrite <- app_assoc, (app_assoc (take j str)), take_drop; done).
    rewrite afill_app by (rewrite StrToLower_fmap, length_fmap; done). cbn [checked mbind outcome_bind].
    eexists. split_and!; [done|done|]. cbn [ds_bytes]. f_equal. rewrite StrToLower_fmap, <- app_assoc. f_equal.
    rewrite <- (lower_id (take j str) Hf), (app_assoc (tolower <$> take j str)), <- fmap_app, take_drop. done.
Qed.

(** ** [Ns_SetPutSz] *)

Definition key_of (nc : bool) (k : list Z) : list Z := if nc then tolower <$> k else k.

Lemma kept_trans a b c : kept a b -> kept b c -> kept a c.
Proof. intros (?&?&?&?&?) (?&?&?&?&?). split_and!; congruence. Qed.

Lemma rep_lookup s l i n v :
  rep s l -> l !! i = Some (n, v) ->
  exists p q, field s (Z.of_nat i) = Ret (mkField (Some (ds_string (data s) + p)) (Z.add (ds_string (data s)) <$> q)) /\
    stands (ds_bytes (data s)) p n /\
    match q, v with Some q, Some v => stands (ds_bytes (data s)) q v | None, None => True | _, _ => False end.
Proof.
  intros (_ & _ & _ & offs & Ht & Hl) Hi. destruct (layout_lookup _ _ _ _ _ _ Hl Hi) as (p & q & Ho & Hn & Hv & Hq).
  exists p, q. split_and!.
  - unfold field. rewrite aget_nat. rewrite <- (lookup_take_lt (fields s) (length l)) by (by eapply lookup_lt_Some).
    by rewrite Ht, list_lookup_fmap, Ho.
  - by apply (lay_stands _ _ _ Hl (i, false) (p, n)).
  - destruct q as [q|], v as [v|]; [|by destruct Hq as [_ ?%(fun f => f eq_refl)]|by destruct Hq as [?%(fun f => f eq_refl) _]|done].
    by apply (lay_stands _ _ _ Hl (i, true) (q, v)).
Qed.

Lemma rep_strings s l i n v :
  rep s l -> l !! i = Some (n, v) -> field_name s (Z.of_nat i) = Ret n /\ field_value s (Z.of_nat i) = Ret v.
Proof.
  intros Hr Hi. destruct (rep_lookup _ _ _ _ _ Hr Hi) as (p & q & Hf & Hn & Hv). unfold field_name, field_value.
  rewrite Hf. cbn [mbind outcome_bind f_name f_value checked]. rewrite (rd_stands _ _ _ Hn). split; [done|].
  destruct q as [q|], v as [v|]; try done. cbn. by rewrite (rd_stands _ _ _ Hv).
Qed.

(** The field array has room for the new tuple. *)
Definition put_room (s : Ns_Set) : outcome Ns_Set :=
  if maxSize s <=? size s + 1 then
    let max := (size s + 1) * 2 in
    mret (mkSet (s_name s) (size s) max (data s)
      (take (Z.to_nat (size s)) (fields s) ++ replicate (Z.to_nat (max - size s)) NULL_field) (nocase s))
  else set_field s (size s) NULL_field.

Lemma put_room_spec s l :
  rep s l -> exists s', put_room s = Ret s' /\ rep s' l /\ (length l < length (fields s'))%nat /\
    data s' = data s /\ nocase s' = nocase s /\ s_name s' = s_name s.
Proof.
  intros (Hs & Hm & Hle & offs & Ht & Hl). unfold put_room. destruct (Z.leb_spec (maxSize s) (size s + 1)).
  - eexists. split; [done|]. rewrite Hs, Nat2Z.id in *.
    assert (length (take (length l) (fields s)) = length l) as Hlt by (rewrite length_take; lia).
    split_and!; try done; cbn [fields]; [|lens].
    split_and!; cbn [size maxSize fields data]; [done|lens|lens|]. exists offs. split; [|done].
    rewrite take_app_length' by lia. done.
  - rewrite Hs. unfold set_field. rewrite aset_nat by lia. cbn. eexists. split; [done|].
    split_and!; try done; cbn [fields set_fields]; [|lens].
    split_and!; cbn [size maxSize fields data set_fields]; [done|lens|lens|]. exists offs. split; [|done].
    by rewrite take_insert_ge by lia.
Qed.

Lemma set_field_Ret s i f :
  (i < length (fields s))%nat -> set_field s (Z.of_nat i) f = Ret (set_fields s (<[i := f]> (fields s))).
Proof. intros. unfold set_field. by rewrite aset_nat. Qed.

Lemma take_S_insert {A} (l : list A) i x :
  (i < length l)%nat -> take (S i) (<[i := x]> l) = take i l ++ [x].
Proof.
  intros Hi. rewrite (take_S_r _ _ x) by (by apply list_lookup_insert_eq). by rewrite take_insert_ge by lia.
Qed.

#[local] Instance kept_preorder : PreOrder kept.
Proof. split; [exact kept_refl|exact kept_trans]. Qed.

Lemma kept_insert s i f : kept s (set_fields s (<[i := f]> (fields s))).
Proof. split_and!; try done. cbn. by rewrite length_insert. Qed.

Lemma take_snoc_fmap {A B} (f : A -> B) (l : list B) offs x n :
  take (S n) l = f <$> (offs ++ [x]) -> length offs = n -> take n l = f <$> offs /\ l !! n = Some (f x).
Proof.
  intros Ht <-. rewrite fmap_app in Ht. split.
  - replace (take (length offs) l) with (take (length offs) (take (S (length offs)) l)) by (rewrite take_take; f_equal; lia).
    rewrite Ht. apply take_app_length'. by rewrite length_fmap.
  - rewrite <- (lookup_take_lt _ (S (length offs))), Ht by lia. apply list_lookup_middle. by rewrite length_fmap.
Qed.

(** The last step of [Ns_SetPutSz]: the name of the stored field in lower case. *)
Definition put_lower (s : Ns_Set) (f : Ns_SetField) (keyLength : Z) : outcome Ns_Set :=
  if nocase s then
    p ← checked (f_name f);
    str ← rd (data s) p;
    d ← LowerStringWhenNeeded (data s) p (if keyLength =? -1 then Z.of_nat (length str) else keyLength);
    mret (set_data s d)
  else mret s.

Lemma rep_kept_size s s' l t :
  kept s s' -> size s = Z.of_nat (length l) -> maxSize s = Z.of_nat (length (fields s)) -> (length l < length (fields s))%nat ->
  (exists offs, take (S (length l)) (fields s') = shift_field (ds_string (data s')) <$> offs /\
     layout (ds_bytes (data s')) offs (l ++ [t])) ->
  rep (set_size s' (size s' + 1)) (l ++ [t]).
Proof.
  intros (Hz & Hm & _ & _ & Hlen) Hs Hms Hroom (offs & Ht & Hl). unfold rep. cbn [size maxSize fields data set_size].
  rewrite length_app. cbn [length]. rewrite Nat.add_1_r. split_and!; [lia..|]. by exists offs.
Qed.

Lemma put_store s l key kl key' v vl v' :
  rep s l -> denotes (Some key) kl (Some key') -> denotes v vl v' ->
  exists s' f, Ns_SetPutSz s key kl v vl = (s'' ← put_lower s' f kl; mret (set_size s'' (size s'' + 1), Z.of_nat (length l))) /\
    rep (set_size s' (size s' + 1)) (l ++ [(key', v')]) /\ nocase s' = nocase s /\
    f_name <$> fields s' !! length l = Some (f_name f).
Proof.
  intros Hr Hk Hv. destruct (put_room_spec s l Hr) as (s1 & E1 & Hr1 & Hroom & Hd1 & Hnc1 & _).
  unfold Ns_SetPutSz. fold (put_room s). rewrite E1. cbn [mbind outcome_bind].
  assert (size s = Z.of_nat (length l)) as Hsz by apply Hr. rewrite Hsz.
  destruct Hr1 as (Hs1 & Hm1 & Hle1 & offs & Ht1 & Hl1).
  destruct (AppendData_denotes s1 (length l) (Some key) kl (Some key') offs Hk ltac:(lia) Ht1)
    as (s2 & -> & Hb2 & Ht2 & _ & Hk2). cbn [mbind outcome_bind fmap option_fmap option_map].
  rewrite set_field_Ret by (destruct Hk2 as (_&_&_&_&->); lia). cbn [mbind outcome_bind].
  set (o := Z.of_nat (length (ds_bytes (data s1)))) in *. set (s3 := set_fields s2 _).
  assert (kept s1 s3) as Hk3 by (etrans; [exact Hk2|]; apply kept_insert).
  assert (take (S (length l)) (fields s3) = shift_field (ds_string (data s3)) <$> (offs ++ [mkField (Some o) None])) as Ht3.
  { unfold s3. cbn [fields set_fields data]. rewrite take_S_insert by (destruct Hk2 as (_&_&_&_&->); lia).
    by rewrite Ht2, fmap_app. }
  replace (Z.of_nat (length l) + 1) with (Z.of_nat (S (length l))) by lia.
  assert (length (fields s3) = length (fields s1)) as Hlen3 by apply Hk3.
  destruct (AppendData_denotes s3 (S (length l)) v vl v' _ Hv ltac:(lia) Ht3) as (s4 & -> & Hb4 & Ht4 & _ & Hk4).
  cbn [mbind outcome_bind]. assert (length (fields s4) = length (fields s1)) as Hlen4 by (rewrite <- Hlen3; apply Hk4).
  assert (length offs = length l) as Hoffs by (apply (Forall2_length _ _ _ (lay_fields _ _ _ Hl1))).
  destruct (take_snoc_fmap _ _ _ _ _ Ht4 Hoffs) as [Ht4' Hf4].
  unfold field. rewrite aget_nat, Hf4. cbn [checked mbind outcome_bind f_name].
  rewrite set_field_Ret by lia. cbn [mbind outcome_bind]. set (value := _ <$> v'). set (s5 := set_fields s4 _).
  exists s5, (shift_field (ds_string (data s4)) (mkField (Some o) None)). split; [reflexivity|].
  assert (kept s1 s5) as Hk5 by (etrans; [exact Hk3|]; etrans; [exact Hk4|]; apply kept_insert).
  split; [|split; [destruct Hk5 as (_ & _ & -> & _); done|]].
  2: { unfold s5. cbn [fields set_fields]. by rewrite list_lookup_insert_eq by lia. }
  apply (rep_kept_size s1); [done|done|done|lia|]. unfold s5. cbn [fields data set_fields].
  destruct Hk as [_ Hkz]. assert (forall w, v' = Some w -> Forall (fun c => c <> 0) w) as Hvz
    by (intros w ->; destruct v; [apply Hv|done]).
  eexists. split; [|rewrite Hb4; unfold s3; cbn [data set_fields]; rewrite Hb2; cbn [terminated];
    rewrite <- app_assoc; apply (layout_snoc _ offs l key' v' Hl1 Hkz Hvz)].
  rewrite take_S_insert, Ht4', fmap_app by lia. do 2 f_equal. unfold shift_field, value. cbn. f_equal.
  destruct v'; [|done]. cbn. f_equal. rewrite Hb2. cbn [terminated]. rewrite !length_app. cbn [length]. f_equal. lia.
Qed.

Lemma put_lower_rep s l key v f kl :
  rep (set_size s (size s + 1)) (l ++ [(key, v)]) -> Forall (fun c => c <> 0) key -> kl = -1 \/ kl = Z.of_nat (length key) ->
  f_name <$> fields s !! length l = Some (f_name f) ->
  exists s', put_lower s f kl = Ret s' /\ rep (set_size s' (size s' + 1)) (l ++ [(key_of (nocase s) key, v)]) /\ nocase s' = nocase s.
Proof.
  intros Hr Hz Hkl Hf. unfold put_lower, key_of. destruct (nocase s) eqn:Hnc; [|by exists s].
  assert ((l ++ [(key, v)]) !! length l = Some (key, v)) as Hlast by (by apply list_lookup_middle).
  destruct Hr as (Hs & Hm & Hle & offs & Ht & Hl). cbn [size maxSize fields data set_size] in *.
  destruct (layout_lookup _ _ _ _ _ _ Hl Hlast) as (p & q & Ho & Hn & _).
  assert (f_name f = Some (ds_string (data s) + p)) as ->.
  { apply (f_equal (lookup (length l))) in Ht. rewrite lookup_take_lt in Ht by lens. rewrite list_lookup_fmap, Ho in Ht.
    rewrite Ht in Hf. by injection Hf. }
  pose proof (lay_stands _ _ _ Hl _ _ Hn) as Hst. cbn [fst snd] in Hst. cbn [checked mbind outcome_bind].
  rewrite (rd_stands _ _ _ Hst). cbn [mbind outcome_bind].
  assert ((if kl =? -1 then Z.of_nat (length key) else kl) = Z.of_nat (length key)) as ->
    by (destruct Hkl as [-> | ->]; [done|by destruct (_ =? -1)]).
  destruct (LowerString_spec _ _ _ Hst) as (d' & -> & Hbase & Hfill). cbn [mbind outcome_bind mret outcome_ret].
  eexists. split; [reflexivity|]. split; [|exact Hnc].
  assert (l ++ [(tolower <$> key, v)] = <[length l := (tolower <$> key, v)]> (l ++ [(key, v)])) as ->
    by (rewrite (insert_app_r_alt l), Nat.sub_diag by done; done).
  split_and!; cbn [size maxSize fields data set_size set_data]; rewrite ?length_insert; try done.
  exists offs. rewrite Hbase. split; [done|].
  eapply layout_rename; [done|done|done|by rewrite length_fmap|by apply lower_nonzero|done].
Qed.

Lemma SetPutSz_rep s l key kl key' v vl v' :
  rep s l -> denotes (Some key) kl (Some key') -> denotes v vl v' ->
  (kl = -1 \/ kl = Z.of_nat (length key')) ->
  exists s', Ns_SetPutSz s key kl v vl = Ret (s', Z.of_nat (length l)) /\
    rep s' (l ++ [(key_of (nocase s) key', v')]) /\ nocase s' = nocase s.
Proof.
  intros Hr Hk Hv Hkl. destruct (put_store s l key kl key' v vl v' Hr Hk Hv) as (s1 & f & -> & Hr1 & Hnc & Hf).
  destruct (put_lower_rep s1 l key' v' f kl Hr1 ltac:(apply Hk) Hkl Hf) as (s2 & -> & Hr2 & Hnc2). rewrite Hnc in *.
  eexists. split; [reflexivity|]. by split.
Qed.

(** ** [Ns_SetPutValueSz] *)

(** A NULL value is not replaced by an empty one. *)
Definition new_value (v : option (list Z)) (w : list Z) : option (list Z) :=
  match v, w with None, [] => None | _, _ => Some w end.

Definition put_value (l : list tuple) (i : nat) (w : list Z) : list tuple :=
  match l !! i with Some (n, v) => <[i := (n, new_value v w)]> l | None => l end.

Lemma c_prefix_whole w : c_prefix w (Z.of_nat (length w)) = Ret w.
Proof.
  unfold c_prefix. destruct (Z.eqb_spec (Z.of_nat (length w)) (-1)); [done|].
  pose proof (aslice_prefix w [] _ eq_refl) as E. rewrite app_nil_r in E. by rewrite E.
Qed.

Lemma wr_Ret d o x :
  0 <= o -> o + Z.of_nat (length x) <= Z.of_nat (length (ds_bytes d)) ->
  exists b, wr d (ds_string d + o) x = Ret (mkDString (ds_string d) b) /\ afill (ds_bytes d) o x = Some b.
Proof.
  intros H1 H2. unfold wr. replace (ds_string d + o - ds_string d) with o by lia. unfold afill.
  destruct (Z.leb_spec 0 o), (Z.leb_spec (o + Z.of_nat (length x)) (Z.of_nat (length (ds_bytes d)))); try lia.
  by eexists.
Qed.

(** The value of tuple [i] is appended to a buffer in which all other strings stand. *)
Lemma put_value_append s l bs i n v w offs p q :
  rep s l -> take (length l) (fields s) = shift_field (ds_string (data s)) <$> offs -> layout (ds_bytes (data s)) offs l ->
  l !! i = Some (n, v) -> offs !! i = Some (mkField (Some p) q) -> Forall (fun c => c <> 0) w ->
  length bs = length (ds_bytes (data s)) ->
  (forall k x, k <> (i, true) -> slot offs l k = Some x -> stands bs x.1 x.2) ->
  exists s' r, AppendData (set_data s (mkDString (ds_string (data s)) bs)) (size s) (Some w) (Z.of_nat (length w)) = Ret r /\
    (f ← field r.1 (Z.of_nat i); set_field r.1 (Z.of_nat i) (mkField (f_name f) r.2)) = Ret s' /\
    rep s' (<[i := (n, Some w)]> l) /\ nocase s' = nocase s.
Proof.
  intros (Hs & Hm & Hle & _) Ht Hl Hi Ho Hw Hlen Hst. pose proof (lookup_lt_Some _ _ _ Hi) as Hil.
  set (s1 := set_data s (mkDString (ds_string (data s)) bs)). rewrite Hs.
  destruct (AppendData_spec s1 (length l) w (Z.of_nat (length w)) w offs (c_prefix_whole w) Hle Ht)
    as (s2 & E & Hb & Ht2 & _ & (Hz & Hmx & Hnc & _ & Hlf)).
  assert (length (fields s2) = length (fields s)) as Hlf' by exact Hlf.
  assert (fields s2 !! i = Some (shift_field (ds_string (data s2)) (mkField (Some p) q))) as Hf.
  { rewrite <- (lookup_take_lt _ (length l)) by done. by rewrite Ht2, list_lookup_fmap, Ho. }
  assert (i < length (fields s2))%nat as Hi2 by (rewrite Hlf'; eapply Nat.lt_le_trans; [exact Hil|exact Hle]).
  eexists _, _. split; [exact E|]. cbn [fst snd]. unfold field. rewrite aget_nat, Hf. cbn [checked mbind outcome_bind].
  rewrite set_field_Ret by exact Hi2. split; [reflexivity|]. split; [|exact Hnc].
  split_and!; cbn [size maxSize fields data set_fields]; rewrite ?length_insert; [rewrite Hz; exact Hs|rewrite Hmx, Hlf'; exact Hm|rewrite Hlf'; exact Hle|].
  exists (<[i := mkField (Some p) (Some (Z.of_nat (length bs)))]> offs). split.
  - rewrite take_insert_lt by exact Hil. rewrite Ht2. by rewrite list_fmap_insert.
  - rewrite Hb. change (ds_bytes (data s1)) with bs. eapply layout_value; [exact Hl|done|done| |].
    + rewrite <- (app_nil_r (w ++ [0])). by apply stands_at.
    + intros k x Hk Hx. pose proof (Hst k x Hk Hx) as Hx'. split; [by apply stands_app|].
      left. cbn. pose proof (stands_bound _ _ _ Hx'). lia.
Qed.

Lemma SetPutValueSz_rep s l i value sz w :
  rep s l -> denotes (Some value) sz (Some w) ->
  exists s', Ns_SetPutValueSz s (Z.of_nat i) value sz = Ret s' /\ rep s' (put_value l i w) /\ nocase s' = nocase s.
Proof.
  intros Hr [Hpre Hw]. unfold Ns_SetPutValueSz, put_value. pose proof Hr as (Hs & Hm & Hle & offs & Ht & Hl).
  rewrite Hs. destruct (l !! i) as [[n v]|] eqn:Hi; cycle 1.
  { apply lookup_ge_None in Hi. destruct (Z.ltb_spec (Z.of_nat i) (Z.of_nat (length l))); [lia|]. by exists s. }
  pose proof (lookup_lt_Some _ _ _ Hi) as Hil. destruct (Z.ltb_spec (Z.of_nat i) (Z.of_nat (length l))); [|lia].
  rewrite Hpre. cbn [mbind outcome_bind]. destruct (rep_strings _ _ _ _ _ Hr Hi) as [_ Hfv].
  destruct (layout_lookup _ _ _ _ _ _ Hl Hi) as (p & q & Ho & Hn & Hv & Hq).
  assert (field s (Z.of_nat i) = Ret (shift_field (ds_string (data s)) (mkField (Some p) q))) as ->.
  { unfold field. rewrite aget_nat, <- (lookup_take_lt _ (length l)) by done. by rewrite Ht, list_lookup_fmap, Ho. }
  cbn [mbind outcome_bind]. rewrite Hfv. cbn [mbind outcome_bind shift_field f_value].
  rewrite <- Hs. destruct v as [v|], q as [q|]; cbn [fmap option_fmap option_map];
    [|by destruct Hq as [?%(fun f => f eq_refl) _]|by destruct Hq as [_ ?%(fun f => f eq_refl)]|].
  - assert (new_value (Some v) w = Some w) as -> by (by destruct w).
    pose proof (lay_stands _ _ _ Hl _ _ Hv) as Hsv. cbn in Hsv. pose proof (stands_bound _ _ _ Hsv) as Hbv.
    pose proof Hsv as (Hq0 & _).
    destruct ((Z.of_nat (length v) =? 0) && (Z.of_nat (length w) =? 0)) eqn:E0.
    { apply andb_true_iff in E0 as [?%Z.eqb_eq ?%Z.eqb_eq]. destruct v, w; cbn in *; try lia.
      exists s. rewrite list_insert_id by done. done. }
    destruct ((Z.of_nat (length w) <=? Z.of_nat (length v)) && negb (Z.of_nat (length v) =? 0)) eqn:E1.
    + apply andb_true_iff in E1 as [E1%Z.leb_le _].
      destruct (wr_Ret (data s) q w) as (b1 & -> & Hf1); [lia..|]. cbn [mbind outcome_bind].
      pose proof (afill_lookup _ _ _ _ Hf1) as (_ & Hlb & _ & _).
      destruct (wr_Ret (mkDString (ds_string (data s)) b1) (q + Z.of_nat (length w)) [0]) as (b2 & Hw2 & Hf2);
        [lia|cbn; lia|]. cbn [ds_string] in Hw2. rewrite Z.add_assoc in Hw2. rewrite Hw2.
      cbn [mbind outcome_bind mret outcome_ret]. eexists. split; [reflexivity|]. split; [|done].
      split_and!; cbn [size maxSize fields data set_data]; rewrite ?length_insert; try done.
      exists offs. split; [done|]. cbn [ds_bytes]. rewrite <- (list_insert_id offs i _ Ho).
      eapply layout_value; [exact Hl|done|done|by eapply stands_overwrite; [| | |exact Hf1|exact Hf2]; [done|lia|]|].
      intros k x Hk Hx. pose proof (lay_apart _ _ _ Hl _ _ _ _ Hk Hx Hv) as Ha. unfold apart in *. cbn in *. split; [|lia].
      eapply stands_afill; [|exact Hf2|cbn; lia]. eapply stands_afill; [by eapply lay_stands|exact Hf1|lia].
    + destruct (wr_Ret (data s) q [3]) as (b1 & -> & Hf1); [lia|cbn; lia|]. cbn [mbind outcome_bind].
      pose proof (afill_lookup _ _ _ _ Hf1) as (_ & Hlb & _ & _).
      destruct (put_value_append s l b1 i n (Some v) w offs p (Some q)) as (s' & r & -> & E & ?); try done.
      { intros k x Hk Hx. pose proof (lay_apart _ _ _ Hl _ _ _ _ Hk Hx Hv) as Ha. unfold apart in Ha. cbn in Ha.
        eapply stands_afill; [by eapply lay_stands|exact Hf1|cbn; lia]. }
      cbn [mbind outcome_bind]. by exists s'.
  - destruct w as [|c w]; [cbn; exists s; by rewrite list_insert_id|].
    replace (new_value None (c :: w)) with (Some (c :: w)) by done.
    destruct (put_value_append s l (ds_bytes (data s)) i n None (c :: w) offs p None) as (s' & r & E1 & E2 & ?); try done.
    { intros k x _ Hx. by eapply lay_stands. }
    replace (set_data s (mkDString (ds_string (data s)) (ds_bytes (data s)))) with s in E1
      by (destruct s as [? ? ? [? ?] ? ?]; done).
    destruct ((0 =? 0) && (Z.of_nat (length (c :: w)) =? 0)) eqn:E0; [by apply andb_true_iff in E0 as [_ E0]|].
    rewrite E1. cbn [mbind outcome_bind]. by exists s'.
Qed.

(** ** Finding *)

Definition same_key (nc : bool) (cmp : StringCmpProc) (key name : list Z) : bool :=
  cmp_eq (if nc then strcmp else cmp) (key_of nc key) name.

(** The index of the first tuple with the key, from [i] on, or -1. *)
Fixpoint find_tuple (nc : bool) (cmp : StringCmpProc) (key : list Z) (i : Z) (l : list tuple) : Z :=
  match l with
  | [] => -1
  | (n, _) :: l => if same_key nc cmp key n then i else find_tuple nc cmp key (i + 1) l
  end.

Lemma find_loop_rep s l cmp key i :
  rep s l -> (i <= length l)%nat ->
  find_loop s (key_of (nocase s) key) (if nocase s then strcmp else cmp) (Z.of_nat i) (length l - i) =
  Ret (find_tuple (nocase s) cmp key (Z.of_nat i) (drop i l)).
Proof.
  intros Hr Hi. remember (length l - i)%nat as n eqn:En. revert i Hi En.
  induction n as [|n IH]; intros i Hi En; [by rewrite drop_ge by lia|]. cbn [find_loop].
  destruct (lookup_lt_is_Some_2 l i) as [[k v] Hk]; [lia|]. rewrite (drop_S _ _ _ Hk).
  destruct (rep_strings _ _ _ _ _ Hr Hk) as [-> _]. cbn [mbind outcome_bind find_tuple]. unfold same_key.
  destruct (cmp_eq _ _ _); [done|]. replace (Z.of_nat i + 1) with (Z.of_nat (S i)) by lia. apply IH; lia.
Qed.

Lemma SetFindCmp_rep s l key cmp : rep s l -> Ns_SetFindCmp s key cmp = Ret (find_tuple (nocase s) cmp key 0 l).
Proof.
  intros Hr. pose proof (find_loop_rep s l cmp key 0 Hr ltac:(lia)) as E. rewrite Nat.sub_0_r, drop_0 in E.
  unfold Ns_SetFindCmp, lookup_key, lookup_cmp. rewrite (proj1 Hr), Nat2Z.id. rewrite DStringLower_spec. exact E.
Qed.

Lemma find_tuple_range nc cmp key i l :
  find_tuple nc cmp key i l = -1 /\ Forall (fun t : tuple => same_key nc cmp key t.1 = false) l \/
  exists j n v, find_tuple nc cmp key i l = i + Z.of_nat j /\ l !! j = Some (n, v) /\ same_key nc cmp key n = true /\
    Forall (fun t : tuple => same_key nc cmp key t.1 = false) (take j l).
Proof.
  revert i. induction l as [|[n v] l IH]; intros i; [by left|]. cbn [find_tuple]. destruct (same_key nc cmp key n) eqn:E.
  - right. exists 0%nat, n, v. split_and!; [lia|done|done|constructor].
  - destruct (IH (i + 1)) as [[-> Hf]|(j & n' & v' & -> & Hj & Hk & Hf)]; [left; split; [done|by constructor]|].
    right. exists (S j), n', v'. split_and!; [lia|done|done|by constructor].
Qed.

(** The value of the first tuple with the key. *)
Definition get_value (nc : bool) (cmp : StringCmpProc) (key : list Z) (l : list tuple) : option (list Z) :=
  match filter (fun t : tuple => same_key nc cmp key t.1) l with
  | (_, v) :: _ => v
  | [] => None
  end.

Lemma filter_first {A} (P : A -> Prop) `{!forall x, Decision (P x)} l j x :
  l !! j = Some x -> P x -> Forall (fun y => ~ P y) (take j l) -> head (filter P l) = Some x.
Proof.
  revert j. induction l as [|y l IH]; intros [|j] Hj Hx Hf; try done.
  - injection Hj as ->. rewrite filter_cons_True by done. done.
  - cbn in Hf. apply Forall_cons in Hf as [Hy Hf]. rewrite filter_cons_False by done. by eapply IH.
Qed.

Lemma not_true b : b = false -> ~ Is_true b.
Proof. by intros -> []. Qed.

Lemma SetGetCmp_rep s l key cmp : rep s l -> Ns_SetGetCmp s key cmp = Ret (get_value (nocase s) cmp key l).
Proof.
  intros Hr. unfold Ns_SetGetCmp, get_value. rewrite (SetFindCmp_rep s l) by done. cbn [mbind outcome_bind].
  destruct (find_tuple_range (nocase s) cmp key 0 l) as [[-> Hf]|(j & n & v & -> & Hj & Hk & Hf)].
  - assert (filter (fun t : tuple => same_key (nocase s) cmp key t.1) l = []) as ->; [|done].
    clear Hr. induction Hf as [|t l Ht _ IH]; [done|]. rewrite filter_cons_False; [done|]. by apply not_true.
  - destruct (Z.eqb_spec (0 + Z.of_nat j) (-1)); [lia|]. rewrite Z.add_0_l.
    destruct (rep_strings _ _ _ _ _ Hr Hj) as [_ ->].
    assert (head (filter (fun t : tuple => same_key (nocase s) cmp key t.1) l) = Some (n, v)) as Hh.
    { apply (filter_first _ l j); [done|by cbn; rewrite Hk|]. eapply Forall_impl; [exact Hf|]. intros t Ht. by apply not_true. }
    destruct (filter _ l) as [|t ft]; [done|]. by injection Hh as ->.
Qed.

(** ** Updates and deletions *)

Definition update (nc : bool) (l : list tuple) (key value : list Z) : list tuple :=
  let i := find_tuple nc strcmp key 0 l in
  if i =? -1 then l ++ [(key_of nc key, Some value)] else put_value l (Z.to_nat i) value.

(** The key is replaced if the first characters differ. *)
Definition iupdate (nc : bool) (l : list tuple) (key value : list Z) : list tuple :=
  let i := find_tuple nc strcasecmp key 0 l in
  if i =? -1 then l ++ [(key_of nc key, Some value)]
  else
    let l := put_value l (Z.to_nat i) value in
    match l !! Z.to_nat i with
    | Some (n, v) => if nth 0 n 0 =? nth 0 key 0 then l else <[Z.to_nat i := (key, v)]> l
    | None => l
    end.

Definition delete_at (l : list tuple) (i : Z) : list tuple :=
  if i =? -1 then l else take (Z.to_nat i) l ++ drop (S (Z.to_nat i)) l.

Lemma SetUpdate_rep s l key value :
  rep s l -> Forall (fun c => c <> 0) key -> Forall (fun c => c <> 0) value ->
  exists r, Ns_SetUpdate s key value = Ret r /\ rep r.1 (update (nocase s) l key value) /\ nocase r.1 = nocase s.
Proof.
  intros Hr Hk Hv. unfold Ns_SetUpdate, Ns_SetUpdateSz, Ns_SetFind, update. rewrite (SetFindCmp_rep s l) by done.
  cbn [mbind outcome_bind]. destruct (find_tuple_range (nocase s) strcmp key 0 l) as [[-> _]|(j & n & v & -> & Hj & _)].
  - destruct (SetPutSz_rep s l key (-1) key (Some value) (-1) (Some value)) as (s' & E & ?);
      [done|by apply denotes_cstring|by apply denotes_cstring|by left|]. exists (s', Z.of_nat (length l)). done.
  - destruct (Z.eqb_spec (0 + Z.of_nat j) (-1)); [lia|]. rewrite Z.add_0_l, Nat2Z.id. cbn [negb].
    destruct (SetPutValueSz_rep s l j value (-1) value Hr) as (s' & -> & ?); [by apply denotes_cstring|].
    cbn. by exists (s', Z.of_nat j).
Qed.

Lemma put_value_key l i w n v : l !! i = Some (n, v) -> put_value l i w !! i = Some (n, new_value v w).
Proof. intros Hi. unfold put_value. rewrite Hi. apply list_lookup_insert_eq. by eapply lookup_lt_Some. Qed.

(** Keys that are the same up to case have the same length. *)
Lemma same_key_length nc cmp key name : same_key nc cmp key name = true -> length key = length name.
Proof.
  unfold same_key, key_of, cmp_eq. destruct nc, cmp; rewrite bool_decide_eq_true; intros E;
    apply (f_equal length) in E; rewrite ?length_fmap in E; done.
Qed.

Lemma SetIUpdate_rep s l key value :
  rep s l -> Forall (fun c => c <> 0) key -> Forall (fun c => c <> 0) value ->
  exists r, Ns_SetIUpdate s key value = Ret r /\ rep r.1 (iupdate (nocase s) l key value) /\ nocase r.1 = nocase s.
Proof.
  intros Hr Hk Hv. unfold Ns_SetIUpdate, Ns_SetIUpdateSz, Ns_SetIFind, iupdate. rewrite (SetFindCmp_rep s l) by done.
  cbn [mbind outcome_bind].
  destruct (find_tuple_range (nocase s) strcasecmp key 0 l) as [[-> _]|(j & n & v & -> & Hj & Hsame & _)].
  - destruct (SetPutSz_rep s l key (-1) key (Some value) (-1) (Some value)) as (s' & E & ?);
      [done|by apply denotes_cstring|by apply denotes_cstring|by left|]. exists (s', Z.of_nat (length l)). done.
  - destruct (Z.eqb_spec (0 + Z.of_nat j) (-1)); [lia|]. rewrite Z.add_0_l, Nat2Z.id. cbn [negb].
    destruct (SetPutValueSz_rep s l j value (-1) value Hr) as (s' & -> & Hr' & Hnc); [by apply denotes_cstring|].
    cbn [mbind outcome_bind]. pose proof (put_value_key l j value n v Hj) as Hj'.
    destruct (rep_strings _ _ _ _ _ Hr' Hj') as [-> _]. rewrite Hj'. cbn [mbind outcome_bind].
    destruct (nth 0 n 0 =? nth 0 key 0); cbn [negb]; [by eexists|].
    destruct Hr' as (Hs & Hm & Hle & offs & Ht & Hl). destruct (layout_lookup _ _ _ _ _ _ Hl Hj') as (p & q & Ho & Hn & _).
    assert (field s' (Z.of_nat j) = Ret (shift_field (ds_string (data s')) (mkField (Some p) q))) as ->.
    { unfold field. rewrite aget_nat, <- (lookup_take_lt _ (length (put_value l j value))) by (by eapply lookup_lt_Some).
      by rewrite Ht, list_lookup_fmap, Ho. }
    cbn [mbind outcome_bind checked shift_field f_name fmap option_fmap option_map c_prefix Z.eqb Pos.eqb].
    pose proof (lay_stands _ _ _ Hl _ _ Hn) as Hst. cbn in Hst. pose proof (stands_bound _ _ _ Hst). pose proof Hst as (Hp0 & _).
    apply same_key_length in Hsame. destruct (wr_Ret (data s') p key) as (b & -> & Hf); [lia|lia|]. cbn.
    eexists. split; [reflexivity|]. cbn [fst]. split; [|done].
    split_and!; cbn [size maxSize fields data set_data]; rewrite ?length_insert; try done.
    exists offs. split; [done|]. by eapply layout_rename.
Qed.

Lemma SetDelete_rep s l i :
  rep s l -> -1 <= i ->
  exists s', Ns_SetDelete s i = Ret (s', negb (i =? -1) && (i <? Z.of_nat (length l))) /\
    rep s' (if i <? Z.of_nat (length l) then delete_at l i else l) /\ nocase s' = nocase s.
Proof.
  intros Hr Hi. unfold Ns_SetDelete, delete_at. pose proof Hr as (Hs & Hm & Hle & offs & Ht & Hl). rewrite Hs.
  destruct (Z.eqb_spec i (-1)) as [->|]; cbn [negb andb].
  { exists s. destruct (_ <? _); done. }
  destruct (Z.ltb_spec i (Z.of_nat (length l))) as [Hlt|]; cbn [andb]; [|by exists s].
  destruct (Z.ltb_spec i 0); [lia|]. eexists. split; [reflexivity|]. split; [|done].
  pose proof (Forall2_length _ _ _ (lay_fields _ _ _ Hl)) as Hlen. pose proof (f_equal length Ht) as Hlt'. autorewrite with lens in Hlt'.
  split_and!; cbn [size maxSize fields data set_size set_fields]; [lens|rewrite Hm; lens|lens|].
  exists (take (Z.to_nat i) offs ++ drop (S (Z.to_nat i)) offs). split; [|by apply layout_delete].
  replace (length (take (Z.to_nat i) l ++ drop (S (Z.to_nat i)) l)) with (length l - 1)%nat by lens.
  rewrite fmap_app, fmap_take, fmap_drop, <- Ht. rewrite take_take.
  rewrite app_assoc, take_app_length' by lens. f_equal; [f_equal; lia|].
  rewrite take_drop_commute. do 2 f_equal. lia.
Qed.

Lemma SetTrunc0_rep s l : rep s l -> exists s', Ns_SetTrunc s 0 = Ret s' /\ rep s' [] /\ nocase s' = nocase s.
Proof.
  intros (Hs & Hm & Hle & offs & Ht & Hl). unfold Ns_SetTrunc. rewrite Hs.
  destruct (Z.ltb_spec 0 (Z.of_nat (length l))); cbn.
  - eexists. split; [reflexivity|]. split; [|done]. split_and!; cbn; try done; [lia|]. exists []. split; [done|apply layout_nil].
  - exists s. split; [done|]. destruct l; [|cbn in *; lia]. split; [|done]. split_and!; try done. by exists offs.
Qed.

(** ** Copying and merging *)

Definition cstring (v : list Z) : Prop := Forall (fun c => c <> 0) v.

(** The strings of a set are C strings. *)
Lemma rep_cstrings s l i n v : rep s l -> l !! i = Some (n, v) -> cstring n /\ (forall w, v = Some w -> cstring w).
Proof.
  intros Hr Hi. destruct (rep_lookup _ _ _ _ _ Hr Hi) as (p & q & _ & (_ & Hn & _) & Hv). split; [done|].
  intros w ->. destruct q; [|done]. apply Hv.
Qed.

Lemma SetPut_rep s l key v :
  rep s l -> cstring key -> (forall w, v = Some w -> cstring w) ->
  exists s', Ns_SetPut s key v = Ret (s', Z.of_nat (length l)) /\ rep s' (l ++ [(key_of (nocase s) key, v)]) /\
    nocase s' = nocase s.
Proof.
  intros Hr Hk Hv. apply (SetPutSz_rep s l key (-1) key v (-1) v); [done|by apply denotes_cstring| |by left].
  destruct v; [|by left]. apply denotes_cstring. by apply Hv.
Qed.

Definition copied (nc : bool) (l : list tuple) : list tuple := (fun t : tuple => (key_of nc t.1, t.2)) <$> l.

Lemma put_all_rep to lt from l i :
  rep to lt -> rep from l -> (i <= length l)%nat ->
  exists s', put_all to from (Z.of_nat i) (length l - i) = Ret s' /\ rep s' (lt ++ copied (nocase to) (drop i l)) /\
    nocase s' = nocase to.
Proof.
  intros Hto Hfrom Hi. remember (length l - i)%nat as n eqn:En. revert to lt i Hto Hi En.
  induction n as [|n IH]; intros to lt i Hto Hi En; cbn [put_all].
  { exists to. rewrite drop_ge by lia. by rewrite app_nil_r. }
  destruct (lookup_lt_is_Some_2 l i) as [[k v] Hk]; [lia|]. rewrite (drop_S _ _ _ Hk).
  destruct (rep_strings _ _ _ _ _ Hfrom Hk) as [-> ->]. destruct (rep_cstrings _ _ _ _ _ Hfrom Hk) as [Hck Hcv].
  cbn [mbind outcome_bind]. destruct (SetPut_rep to lt k v Hto Hck Hcv) as (s1 & -> & Hr1 & Hn1). cbn [mbind outcome_bind fst].
  replace (Z.of_nat i + 1) with (Z.of_nat (S i)) by lia.
  destruct (IH s1 _ (S i) Hr1) as (s2 & -> & Hr2 & Hn2); [lia|lia|]. exists s2. rewrite Hn1 in *.
  split_and!; [done| |done]. rewrite <- app_assoc in Hr2. done.
Qed.

Lemma rep_empty s : size s = 0 -> maxSize s = Z.of_nat (length (fields s)) -> rep s [].
Proof. intros Hs Hm. split_and!; try done; [cbn; lia|]. exists []. split; [done|apply layout_nil]. Qed.

(** The tuples of [low] whose key is not found are added one by one. *)
Fixpoint merged (nc : bool) (cmp : StringCmpProc) (high low : list tuple) : list tuple :=
  match low with
  | [] => high
  | (k, v) :: low =>
      merged nc cmp (if find_tuple nc cmp k 0 high =? -1 then high ++ [(key_of nc k, v)] else high) low
  end.

Lemma merge_loop_rep cmp high lh low l i :
  rep high lh -> rep low l -> Forall (fun t : tuple => t.2 <> None) l -> (i <= length l)%nat ->
  exists s', merge_loop high low (fun s k => Ns_SetFindCmp s k cmp) (Z.of_nat i) (length l - i) = Ret s' /\
    rep s' (merged (nocase high) cmp lh (drop i l)).
Proof.
  intros Hh Hlow Hall Hi. remember (length l - i)%nat as n eqn:En. revert high lh i Hh Hi En.
  induction n as [|n IH]; intros high lh i Hh Hi En; cbn [merge_loop].
  { exists high. by rewrite drop_ge by lia. }
  destruct (lookup_lt_is_Some_2 l i) as [[k v] Hk]; [lia|]. rewrite (drop_S _ _ _ Hk). cbn [merged].
  destruct (rep_strings _ _ _ _ _ Hlow Hk) as [-> Hv]. destruct (rep_cstrings _ _ _ _ _ Hlow Hk) as [Hck Hcv].
  pose proof (Forall_lookup_1 _ _ _ _ Hall Hk) as Hnn. cbn in Hnn. destruct v as [v|]; [|done].
  cbn [mbind outcome_bind]. rewrite (SetFindCmp_rep high lh) by done. cbn [mbind outcome_bind].
  replace (Z.of_nat i + 1) with (Z.of_nat (S i)) by lia.
  destruct (find_tuple (nocase high) cmp k 0 lh =? -1); cbn [mbind outcome_bind mret outcome_ret].
  - rewrite Hv. cbn [mbind outcome_bind checked].
    destruct (SetPutSz_rep high lh k (Z.of_nat (length k)) k (Some v) (Z.of_nat (length v)) (Some v)) as (s1 & -> & Hr1 & Hn1);
      [done|by split; [apply c_prefix_whole|]|by split; [apply c_prefix_whole|apply Hcv]|by right|].
    cbn [mbind outcome_bind mret outcome_ret fst]. rewrite <- Hn1 in *. apply IH; [done|lia|lia].
  - apply IH; [done|lia|lia].
Qed.

(** ** Truncation of a set whose strings are in order *)

Lemma setlength_shrink d n :
  0 <= n <= Z.of_nat (length (ds_bytes d)) -> ds_bytes (Tcl_DStringSetLength d n) = take (Z.to_nat n) (ds_bytes d).
Proof.
  intros Hn. destruct (setlength_bytes d n ltac:(lia)) as (more & -> & _). rewrite take_app_le by lia. done.
Qed.

Lemma stands_take bs n o s : stands bs o s -> o + Z.of_nat (length s) < Z.of_nat n -> stands (take n bs) o s.
Proof.
  intros (Ho & Hs & Hl) Hn. split_and!; try done. intros j Hj. rewrite lookup_take_lt by lia. by apply Hl.
Qed.

(** The strings of the first [n] tuples end before the name of tuple [n] starts. *)
Definition in_order (s : Ns_Set) (l : list tuple) (n : nat) : Prop :=
  exists fn pn, fields s !! n = Some fn /\ f_name fn = Some pn /\
  forall i f k v, (i < n)%nat -> fields s !! i = Some f -> l !! i = Some (k, v) ->
    (forall p, f_name f = Some p -> p + Z.of_nat (length k) + 1 <= pn) /\
    (forall p w, f_value f = Some p -> v = Some w -> p + Z.of_nat (length w) + 1 <= pn).

Lemma trunc_loop_keeps s l pn n i :
  rep s l -> (n <= length l)%nat -> (i <= n)%nat ->
  (forall j f, (j < n)%nat -> fields s !! j = Some f ->
     (forall p, f_name f = Some p -> p <= pn) /\ (forall p, f_value f = Some p -> p <= pn)) ->
  trunc_loop s pn (Z.of_nat i) (n - i) = Ret pn.
Proof.
  intros Hr Hn Hi Hp. remember (n - i)%nat as m eqn:Em. revert i Hi Em.
  induction m as [|m IH]; intros i Hi Em; [done|]. cbn [trunc_loop].
  destruct (lookup_lt_is_Some_2 l i) as [[k v] Hk]; [lia|]. destruct (rep_lookup _ _ _ _ _ Hr Hk) as (p & q & Hf & _).
  rewrite Hf. unfold field in Hf. rewrite aget_nat in Hf. destruct (fields s !! i) as [f|] eqn:Ef; [|done]. injection Hf as ->.
  destruct (Hp i _ ltac:(lia) Ef) as [H1 H2]. cbn [f_name f_value] in H1, H2. cbn [mbind outcome_bind checked f_name f_value].
  specialize (H1 _ eq_refl). destruct (Z.ltb_spec pn (ds_string (data s) + p)); [lia|]. cbn [mbind outcome_bind mret outcome_ret].
  replace (Z.of_nat i + 1) with (Z.of_nat (S i)) by lia.
  destruct q as [q|]; cbn [fmap option_fmap option_map mbind outcome_bind mret outcome_ret]; [|apply IH; lia].
  specialize (H2 _ eq_refl). destruct (Z.ltb_spec pn (ds_string (data s) + q)); [lia|]. apply IH; lia.
Qed.

Lemma trunc_loop_app s e i a b :
  trunc_loop s e (Z.of_nat i) (a + b) = (e' ← trunc_loop s e (Z.of_nat i) a; trunc_loop s e' (Z.of_nat (i + a)) b).
Proof.
  revert e i. induction a as [|a IH]; intros e i; [by rewrite Nat.add_0_r|]. cbn [Nat.add trunc_loop].
  destruct (field s (Z.of_nat i)) as [f| |]; cbn [mbind outcome_bind]; try done.
  destruct (checked (f_name f)) as [p| |]; cbn [mbind outcome_bind]; try done.
  replace (Z.of_nat i + 1) with (Z.of_nat (S i)) by lia. replace (i + S a)%nat with (S i + a)%nat by lia.
  destruct (e <? p); [destruct (rd (data s) p)|]; cbn [mbind outcome_bind mret outcome_ret]; try done;
    (destruct (f_value f) as [v|]; [|by apply IH]); case_match; cbn [mbind outcome_bind mret outcome_ret]; try (by apply IH);
    destruct (rd (data s) v); cbn [mbind outcome_bind mret outcome_ret]; try done; by apply IH.
Qed.

Lemma layout_take bs offs l n m :
  layout bs offs l ->
  (forall i b x, (i < n)%nat -> slot offs l (i, b) = Some x -> x.1 + Z.of_nat (length x.2) < Z.of_nat m) ->
  layout (take m bs) (take n offs) (take n l).
Proof.
  intros Hl Hm. assert (forall k x, slot (take n offs) (take n l) k = Some x -> slot offs l k = Some x /\ (k.1 < n)%nat) as Hs.
  { intros [i b] x Hx. unfold slot in *. cbn in *. destruct (decide (i < n)%nat); [by rewrite !lookup_take_lt in Hx by done|].
    by rewrite lookup_take_ge in Hx by lia. }
  split.
  - by apply Forall2_take, Hl.
  - intros [i b] x [Hx Hi]%Hs. apply stands_take; [by eapply lay_stands|]. by eapply Hm.
  - intros k1 k2 x1 x2 Hne [H1 _]%Hs [H2 _]%Hs. by eapply lay_apart.
Qed.

Lemma SetTrunc_rep s l n :
  rep s l -> (0 < n < length l)%nat -> in_order s l n ->
  exists s', Ns_SetTrunc s (Z.of_nat n) = Ret s' /\ rep s' (take n l) /\ nocase s' = nocase s.
Proof.
  intros Hr Hn (fn & pn & Hfn & Hpn & Hord). pose proof Hr as (Hs & Hm & Hle & offs & Ht & Hl).
  unfold Ns_SetTrunc. rewrite Hs. destruct (Z.ltb_spec (Z.of_nat n) (Z.of_nat (length l))); [|lia].
  destruct (Z.eqb_spec (Z.of_nat n) 0); [lia|]. unfold field at 1. rewrite aget_nat, Hfn. cbn [checked mbind outcome_bind].
  rewrite Hpn. cbn [checked mbind outcome_bind]. rewrite Nat2Z.id.
  assert (forall i k v, l !! i = Some (k, v) -> exists p q, fields s !! i = Some (mkField (Some (ds_string (data s) + p)) (Z.add (ds_string (data s)) <$> q)) /\
    slot offs l (i, false) = Some (p, k) /\ slot offs l (i, true) = match q, v with Some q, Some v => Some (q, v) | _, _ => None end) as Hfield.
  { intros i k v Hi. destruct (layout_lookup _ _ _ _ _ _ Hl Hi) as (p & q & Ho & Hs1 & Hs2 & _). exists p, q. split_and!; try done.
    rewrite <- (lookup_take_lt _ (length l)) by (by eapply lookup_lt_Some). by rewrite Ht, list_lookup_fmap, Ho. }
  replace (S n) with (n + 1)%nat by lia. change 0 with (Z.of_nat 0) at 1. rewrite trunc_loop_app.
  pose proof (trunc_loop_keeps s l pn n 0 Hr ltac:(lia) ltac:(lia)) as Hkeep. rewrite Nat.sub_0_r in Hkeep. rewrite Hkeep; cycle 1.
  { intros j f Hj Hf. destruct (lookup_lt_is_Some_2 l j) as [[k v] Hk]; [lia|]. destruct (Hord j f k v Hj Hf Hk) as [Ho1 Ho2].
    destruct (Hfield j k v Hk) as (p & q & Hf' & _ & Hv). rewrite Hf in Hf'. injection Hf' as ->. cbn [f_name f_value] in *. split.
    - intros p' [= <-]. specialize (Ho1 _ eq_refl). lia.
    - intros p' Hp'. destruct (layout_lookup _ _ _ _ _ _ Hl Hk) as (p2 & q2 & Ho & _ & _ & Hq2).
      rewrite <- (lookup_take_lt _ (length l)), Ht, list_lookup_fmap, Ho in Hf by lia. cbn in Hf. injection Hf as _ Hf.
      destruct v as [w|]; [specialize (Ho2 _ w Hp' eq_refl); lia|]. rewrite (proj2 Hq2 eq_refl) in Hf. rewrite <- Hf in Hp'. done. }
  destruct (lookup_lt_is_Some_2 l n) as [[k v] Hk]; [lia|]. destruct (Hfield n k v Hk) as (p & q & Hf & Hsn & Hsv).
  rewrite Hfn in Hf. injection Hf as ->. injection Hpn as Hpn. cbn [mbind outcome_bind Nat.add trunc_loop].
  unfold field. rewrite aget_nat, Hfn. cbn [checked mbind outcome_bind f_name f_value].
  rewrite <- Hpn, Z.ltb_irrefl. cbn [mbind outcome_bind mret outcome_ret].
  pose proof (lay_stands _ _ _ Hl _ _ Hsn) as Hstn. cbn in Hstn. pose proof (stands_bound _ _ _ Hstn). pose proof Hstn as (Hp0 & _).
  assert (exists e, match Z.add (ds_string (data s)) <$> q with
    | Some v0 => if ds_string (data s) + p <? v0 then str ← rd (data s) v0; mret (v0 + Z.of_nat (length str) + 1)
                 else mret (ds_string (data s) + p)
    | None => mret (ds_string (data s) + p) end = Ret (ds_string (data s) + e) /\ p <= e <= Z.of_nat (length (ds_bytes (data s)))) as (e & He & Hep).
  { destruct (layout_lookup _ _ _ _ _ _ Hl Hk) as (p2 & q2 & Ho & Hsn2 & _ & Hq2).
    rewrite <- (lookup_take_lt _ (length l)), Ht, list_lookup_fmap, Ho in Hfn by lia. cbn in Hfn. injection Hfn as _ Hfq.
    destruct q as [q|]; cbn; [|exists p; split; [done|lia]].
    destruct (Z.ltb_spec (ds_string (data s) + p) (ds_string (data s) + q)); [|exists p; split; [done|lia]].
    destruct v as [w|]; [|rewrite (proj2 Hq2 eq_refl) in Hfq; done].
    pose proof (lay_stands _ _ _ Hl _ _ Hsv) as Hstv. cbn in Hstv. pose proof (stands_bound _ _ _ Hstv).
    rewrite (rd_stands _ _ _ Hstv). cbn. exists (q + Z.of_nat (length w) + 1). split; [f_equal; lia|lia]. }
  rewrite He. cbn [mbind outcome_bind mret outcome_ret]. replace (ds_string (data s) + e - ds_string (data s)) with e by lia.
  eexists. split; [reflexivity|]. split; [|done].
  split_and!; cbn [size maxSize fields data set_size set_data]; [lens|done|lens|]. exists (take n offs).
  rewrite setlength_stays, setlength_shrink by lia. split.
  - rewrite length_take, fmap_take, <- Ht, take_take. done.
  - apply layout_take; [done|]. intros i b x Hi Hx. destruct (lookup_lt_is_Some_2 l i) as [[k' v'] Hk']; [lia|].
    destruct (Hfield i k' v' Hk') as (p' & q' & Hf' & Hsn' & Hsv'). destruct (Hord i _ k' v' Hi Hf' Hk') as [Ho1 Ho2].
    cbn [f_name f_value] in Ho1, Ho2. rewrite Z2Nat.id by lia. destruct b.
    + rewrite Hsv' in Hx. destruct q' as [q'|], v' as [w'|]; try done. injection Hx as <-. cbn.
      specialize (Ho2 _ w' eq_refl eq_refl). lia.
    + rewrite Hsn' in Hx. injection Hx as <-. cbn. specialize (Ho1 _ eq_refl). lia.
Qed.

(** ** Sequences of operations *)

Inductive set_op :=
| OpPut (key : list Z) (value : option (list Z))
| OpPutValue (i : nat) (value : list Z)
| OpUpdate (key value : list Z)
| OpIUpdate (key value : list Z)
| OpDelete (i : nat)
| OpDeleteKey (key : list Z)
| OpIDeleteKey (key : list Z)
| OpClear.

Definition set_step (s : Ns_Set) (op : set_op) : outcome Ns_Set :=
  match op with
  | OpPut key value => r ← Ns_SetPut s key value; mret r.1
  | OpPutValue i value => Ns_SetPutValue s (Z.of_nat i) value
  | OpUpdate key value => r ← Ns_SetUpdate s key value; mret r.1
  | OpIUpdate key value => r ← Ns_SetIUpdate s key value; mret r.1
  | OpDelete i => r ← Ns_SetDelete s (Z.of_nat i); mret r.1
  | OpDeleteKey key => r ← Ns_SetDeleteKey s key; mret r.1
  | OpIDeleteKey key => r ← Ns_SetIDeleteKey s key; mret r.1
  | OpClear => Ns_SetTrunc s 0
  end.

Fixpoint set_run (s : Ns_Set) (ops : list set_op) : outcome Ns_Set :=
  match ops with
  | [] => Ret s
  | op :: ops => s ← set_step s op; set_run s ops
  end.

(** The same on the list of tuples. *)
Definition tuples_step (nc : bool) (l : list tuple) (op : set_op) : list tuple :=
  match op with
  | OpPut key value => l ++ [(key_of nc key, value)]
  | OpPutValue i value => put_value l i value
  | OpUpdate key value => update nc l key value
  | OpIUpdate key value => iupdate nc l key value
  | OpDelete i => if Z.of_nat i <? Z.of_nat (length l) then delete_at l (Z.of_nat i) else l
  | OpDeleteKey key => delete_at l (find_tuple nc strcmp key 0 l)
  | OpIDeleteKey key => delete_at l (find_tuple nc strcasecmp key 0 l)
  | OpClear => []
  end.

Definition op_ok (op : set_op) : Prop :=
  match op with
  | OpPut key value => cstring key /\ (forall w, value = Some w -> cstring w)
  | OpPutValue _ value => cstring value
  | OpUpdate key value | OpIUpdate key value => cstring key /\ cstring value
  | _ => True
  end.

Lemma find_tuple_bounds nc cmp key l : -1 <= find_tuple nc cmp key 0 l < Z.of_nat (length l) \/ l = [].
Proof.
  destruct (find_tuple_range nc cmp key 0 l) as [[-> _]|(j & n & v & -> & Hj & _)].
  - destruct l; [by right|left; cbn; lia].
  - left. apply lookup_lt_Some in Hj. lia.
Qed.

Lemma SetDelete_found s l cmp key :
  rep s l ->
  exists s' b, Ns_SetDelete s (find_tuple (nocase s) cmp key 0 l) = Ret (s', b) /\
    rep s' (delete_at l (find_tuple (nocase s) cmp key 0 l)) /\ nocase s' = nocase s.
Proof.
  intros Hr. destruct (find_tuple_bounds (nocase s) cmp key l) as [Hb| ->].
  - destruct (SetDelete_rep s l (find_tuple (nocase s) cmp key 0 l) Hr) as (s' & E & Hr' & Hn); [lia|].
    destruct (Z.ltb_spec (find_tuple (nocase s) cmp key 0 l) (Z.of_nat (length l))); [|lia]. by exists s', (negb (find_tuple (nocase s) cmp key 0 l =? -1) && true).
  - by exists s, false.
Qed.

Lemma set_step_rep s l op :
  rep s l -> op_ok op -> exists s', set_step s op = Ret s' /\ rep s' (tuples_step (nocase s) l op) /\ nocase s' = nocase s.
Proof.
  intros Hr Hop. destruct op as [key v|i w|key w|key w|i|key|key|]; cbn [set_step tuples_step op_ok] in *.
  - destruct (SetPut_rep s l key v Hr) as (s' & -> & ?); [exact (proj1 Hop)|exact (proj2 Hop)|]. by exists s'.
  - destruct (SetPutValueSz_rep s l i w (-1) w Hr) as (s' & E & ?); [by apply denotes_cstring|]. by exists s'.
  - destruct (SetUpdate_rep s l key w Hr) as (r & -> & ?); [exact (proj1 Hop)|exact (proj2 Hop)|]. by exists r.1.
  - destruct (SetIUpdate_rep s l key w Hr) as (r & -> & ?); [exact (proj1 Hop)|exact (proj2 Hop)|]. by exists r.1.
  - destruct (SetDelete_rep s l (Z.of_nat i) Hr) as (s' & -> & ?); [lia|]. by exists s'.
  - unfold Ns_SetDeleteKey, Ns_SetFind. rewrite (SetFindCmp_rep s l) by done. cbn [mbind outcome_bind].
    destruct (SetDelete_found s l strcmp key Hr) as (s' & b & -> & ?). by exists s'.
  - unfold Ns_SetIDeleteKey, Ns_SetIFind. rewrite (SetFindCmp_rep s l) by done. cbn [mbind outcome_bind].
    destruct (SetDelete_found s l strcasecmp key Hr) as (s' & b & -> & ?). by exists s'.
  - by apply (SetTrunc0_rep s l).
Qed.

Lemma set_run_rep s l ops :
  rep s l -> Forall op_ok ops ->
  exists s', set_run s ops = Ret s' /\ rep s' (foldl (tuples_step (nocase s)) l ops) /\ nocase s' = nocase s.
Proof.
  intros Hr Hops. revert s l Hr. induction Hops as [|op ops Hop _ IH]; intros s l Hr; cbn [set_run foldl]; [by exists s|].
  destruct (set_step_rep s l op Hr Hop) as (s1 & -> & Hr1 & Hn1). cbn [mbind outcome_bind].
  destruct (IH s1 _ Hr1) as (s2 & -> & Hr2 & Hn2). exists s2. rewrite Hn1 in *. done.
Qed.

Definition set_with_flags (nc : bool) : Ns_Set := set_nocase (Ns_SetCreate None) nc.

(** ** Theorems *)

(** C23.  An [Ns_Set] behaves as the list of its tuples, wherever Tcl moves the string
    buffer: after any sequence of puts, updates, deletions and clearings of C strings
    no pointer is stale (nothing faults), every name and value reads back, and the
    find and get functions return the first tuple with the key, ignoring case where
    the function or the set's option says so. *)
Theorem Set_refines_tuples nc ops :
  Forall op_ok ops ->
  let l := foldl (tuples_step nc) [] ops in
  exists s, set_run (set_with_flags nc) ops = Ret s /\ size s = Z.of_nat (length l) /\
    (forall i n v, l !! i = Some (n, v) -> field_name s (Z.of_nat i) = Ret n /\ field_value s (Z.of_nat i) = Ret v) /\
    (forall key cmp, Ns_SetFindCmp s key cmp = Ret (find_tuple nc cmp key 0 l) /\
                     Ns_SetGetCmp s key cmp = Ret (get_value nc cmp key l)).
Proof.
  intros Hops l. destruct (set_run_rep (set_with_flags nc) [] ops) as (s & E & Hr & Hn); [by apply rep_empty|done|].
  change (nocase (set_with_flags nc)) with nc in *. fold l in Hr. exists s. split_and!; [done|apply Hr| |].
  - intros i n v Hi. by eapply rep_strings.
  - intros key cmp. rewrite <- Hn. split; [by apply SetFindCmp_rep|by apply SetGetCmp_rep].
Qed.

(** In a set with the NOCASE option the update that ignores case stores the key as it
    is given when its first letter differs from the stored one: after updating with a
    capitalised key, the tuple is no longer found under any spelling of the key. *)
Theorem SetIUpdate_loses_key s l1 v l2 key value :
  rep s (l1 ++ (tolower <$> key, v) :: l2) -> nocase s = true ->
  cstring key -> cstring value -> isupper (nth 0 key 0) = true ->
  Forall (fun t : tuple => t.1 <> tolower <$> key) (l1 ++ l2) ->
  exists r, Ns_SetIUpdate s key value = Ret r /\
    forall key', tolower <$> key' = tolower <$> key -> Ns_SetIFind r.1 key' = Ret (-1) /\ Ns_SetIGet r.1 key' = Ret None.
Proof.
  intros Hr Hnc Hk Hv Hup Hall. destruct (SetIUpdate_rep s _ key value Hr Hk Hv) as (r & -> & Hr' & Hn). exists r. split; [done|].
  rewrite Hnc in *. apply Forall_app in Hall as [Ha1 Ha2].
  set (k := tolower <$> key) in *. assert (k <> key) as Hkk.
  { destruct key as [|c key]; [done|]. unfold k. rewrite fmap_cons. intros [= E _]. cbn in Hup. unfold tolower in E. rewrite Hup in E. lia. }
  assert (find_tuple true strcasecmp key 0 (l1 ++ (k, v) :: l2) = Z.of_nat (length l1)) as Ef.
  { clear Hr Hr' Hn. change (Z.of_nat (length l1)) with (0 + Z.of_nat (length l1)). generalize 0.
    induction Ha1 as [|[n w] l1 Hne _ IH]; intros i; cbn [app find_tuple].
    - unfold same_key. cbn. rewrite bool_decide_eq_true_2 by done. cbn. lia.
    - unfold same_key. cbn [key_of cmp_eq]. rewrite bool_decide_eq_false_2 by (intros <-; done). rewrite IH. cbn [length]. lia. }
  assert (exists v', iupdate true (l1 ++ (k, v) :: l2) key value = l1 ++ (key, v') :: l2) as [v' El].
  { unfold iupdate. rewrite Ef. destruct (Z.eqb_spec (Z.of_nat (length l1)) (-1)); [lia|]. rewrite Nat2Z.id.
    unfold put_value. rewrite list_lookup_middle, insert_app_r_alt, Nat.sub_diag by done. cbn [insert list_insert].
    rewrite list_lookup_middle by done. exists (new_value v value).
    destruct (Z.eqb_spec (nth 0 k 0) (nth 0 key 0)) as [E|_].
    - exfalso. destruct key as [|c key]; [done|]. unfold k in E. cbn in E, Hup. unfold tolower in E. rewrite Hup in E. lia.
    - by rewrite insert_app_r_alt, Nat.sub_diag by lia. }
  rewrite El in Hr'. intros key' Hkey'.
  assert (Forall (fun t : tuple => same_key true strcasecmp key' t.1 = false) (l1 ++ (key, v') :: l2)) as Hno.
  { assert (forall n, n <> k -> same_key true strcasecmp key' n = false) as Hne.
    { intros n Hne. unfold same_key. cbn [key_of cmp_eq]. apply bool_decide_eq_false_2. by rewrite Hkey'; intros <-. }
    apply Forall_app. split; [|apply Forall_cons; split]; [|by apply Hne|]; (eapply Forall_impl; [eassumption|]); intros t Ht; by apply Hne. }
  unfold Ns_SetIFind, Ns_SetIGet, Ns_SetGetCmp. rewrite (SetFindCmp_rep _ _ _ _ Hr'), Hn.
  destruct (find_tuple_range true strcasecmp key' 0 (l1 ++ (key, v') :: l2)) as [[-> _]|(j & n & w & _ & Hj & Hs & _)]; [done|].
  apply (Forall_lookup_1 _ _ _ _ Hno) in Hj. cbn [fst] in Hj. congruence.
Qed.

(** Truncating a set to [n] tuples keeps exactly the first [n] of them when their
    strings stand in front of the name of tuple [n], as they do until a value is
    replaced by a longer one. *)
Theorem SetTrunc_in_order s l n :
  rep s l -> (0 < n < length l)%nat -> in_order s l n ->
  exists s', Ns_SetTrunc s (Z.of_nat n) = Ret s' /\ rep s' (take n l).
Proof. intros Hr Hn Ho. destruct (SetTrunc_rep s l n Hr Hn Ho) as (s' & ? & ? & _). by exists s'. Qed.

(** Copying a set gives a set with the same option and tuples (keys in lower case
    under NOCASE), and moving appends the tuples of one set to another and empties
    the first. *)
Theorem SetCopy_Move_spec s l to lt :
  rep s l -> rep to lt ->
  (exists s', Ns_SetCopy s = Ret s' /\ rep s' (copied (nocase s) l) /\ nocase s' = nocase s) /\
  (exists r, Ns_SetMove to s = Ret r /\ rep r.1 (lt ++ copied (nocase to) l) /\ rep r.2 []).
Proof.
  intros Hr Hto. split.
  - unfold Ns_SetCopy. set (new := NsSetDataPrealloc _ _).
    assert (rep new []) as Hnew.
    { apply rep_empty; [done|]. unfold new, NsSetDataPrealloc, set_data, set_nocase, SetCreate. cbn [maxSize fields].
      rewrite (proj1 Hr), length_replicate. lia. }
    destruct (put_all_rep new [] s l 0 Hnew Hr) as (s' & E & Hr' & Hn); [lia|]. rewrite Nat.sub_0_r in E.
    rewrite (proj1 Hr), Nat2Z.id. exists s'. by rewrite drop_0 in Hr'.
  - unfold Ns_SetMove. destruct (put_all_rep to lt s l 0 Hto Hr) as (s' & E & Hr' & _); [lia|]. rewrite Nat.sub_0_r in E.
    rewrite (proj1 Hr), Nat2Z.id. change (Z.of_nat 0) with 0 in E. rewrite E. cbn [mbind outcome_bind].
    destruct (SetTrunc0_rep s l Hr) as (s0 & -> & Hr0 & _). eexists. split; [reflexivity|]. by rewrite drop_0 in Hr'.
Qed.

(** Merging adds the tuples of the lower set whose key is not in the upper one, as
    long as they have values; a tuple without value makes [strlen] read a NULL
    pointer. *)
Theorem SetMerge_spec cmp high lh low l :
  rep high lh -> rep low l ->
  (Forall (fun t : tuple => t.2 <> None) l ->
   exists s', SetMerge high low (fun s k => Ns_SetFindCmp s k cmp) = Ret s' /\ rep s' (merged (nocase high) cmp lh l)) /\
  (forall k rest, l = (k, None) :: rest -> find_tuple (nocase high) cmp k 0 lh = -1 ->
   SetMerge high low (fun s k => Ns_SetFindCmp s k cmp) = Fault).
Proof.
  intros Hh Hl. unfold SetMerge. rewrite (proj1 Hl), Nat2Z.id. split.
  - intros Hall. destruct (merge_loop_rep cmp high lh low l 0 Hh Hl Hall) as (s' & E & Hr); [lia|].
    rewrite Nat.sub_0_r in E. exists s'. by rewrite drop_0 in Hr.
  - intros k rest -> Hf. cbn [length merge_loop]. destruct (rep_strings _ _ 0 _ _ Hl eq_refl) as [Hn Hv].
    change (Z.of_nat 0) with 0 in Hn, Hv.
    rewrite Hn. cbn [mbind outcome_bind]. rewrite (SetFindCmp_rep high lh), Hf by done. cbn [mbind outcome_bind Z.eqb Pos.eqb].
    by rewrite Hv.
Qed.

End sets.

(** ** Witnesses: a dstring that moves whenever it grows *)

#[local] Instance moving : TclDString := {|
  Tcl_DStringInit := mkDString 1000 [];
  Tcl_DStringAppend d s := mkDString (ds_string d + 1000) (ds_bytes d ++ s);
  Tcl_DStringSetLength d n := mkDString (ds_string d) (take (Z.to_nat n) (ds_bytes d ++ replicate (Z.to_nat n) 0));
|}.

#[local] Instance moving_laws : TclDStringLaws.
Proof.
  split; [done|done| |done]. intros d n Hn. exists (replicate (Z.to_nat n) 0). cbn. split; [done|lens].
Qed.

(** Three tuples, then new values for the first two. *)
Definition grown : outcome Ns_Set :=
  set_run (Ns_SetCreate None)
    [OpPut (bytes "a") (Some (bytes "1")); OpPut (bytes "b") (Some (bytes "2")); OpPut (bytes "c") (Some (bytes "3"));
     OpPutValue 0 (bytes "one"); OpPutValue 1 (bytes "two")].

(** Truncation can destroy a value that is to be kept: when the values of two tuples
    were replaced by longer ones, the second stands exactly at the end computed for
    the first and is cut off.  The tuple [b = two] reads as [b] with an empty value
    after the set is truncated to its first two tuples. *)
Theorem SetTrunc_loses_value :
  exists s s', grown = Ret s /\ Ns_SetGet s (bytes "b") = Ret (Some (bytes "two")) /\
    Ns_SetTrunc s 2 = Ret s' /\ size s' = 2 /\ Ns_SetGet s' (bytes "b") = Ret (Some []).
Proof. do 2 eexists. split_and!; vm_compute; reflexivity. Qed.

Lemma Set_refines_tuples_witness :
  exists s, set_run (set_with_flags true) [OpPut (bytes "Host") (Some (bytes "x")); OpUpdate (bytes "HOST") (bytes "localhost")] = Ret s /\
    Ns_SetGetCmp s (bytes "hosT") strcasecmp = Ret (Some (bytes "localhost")).
Proof.
  destruct (Set_refines_tuples true [OpPut (bytes "Host") (Some (bytes "x")); OpUpdate (bytes "HOST") (bytes "localhost")])
    as (s & H1 & _ & _ & H2).
  - repeat constructor; try discriminate. intros w Hw. injection Hw as <-. repeat constructor; discriminate.
  - exists s. split; [exact H1|]. destruct (H2 (bytes "hosT") strcasecmp) as [_ H3]. rewrite H3. vm_compute. reflexivity.
Defined.

(** The sets used below, with the tuples they hold. *)
Lemma run_rep nc ops s :
  set_run (set_with_flags nc) ops = Ret s -> Forall op_ok ops -> rep s (foldl (tuples_step nc) [] ops).
Proof.
  intros E Hops. destruct (set_run_rep (set_with_flags nc) [] ops) as (s' & E' & Hr & _); [by apply rep_empty|done|].
  rewrite E in E'. injection E' as <-. exact Hr.
Qed.

Definition host_set : Ns_Set :=
  match set_run (set_with_flags true) [OpPut (bytes "Host") (Some (bytes "x"))] with Ret s => s | _ => set_with_flags true end.

Lemma host_rep : rep host_set [(bytes "host", Some (bytes "x"))].
Proof.
  apply (run_rep true [OpPut (bytes "Host") (Some (bytes "x"))]); [reflexivity|].
  repeat constructor; try discriminate. intros w Hw. injection Hw as <-. repeat constructor; discriminate.
Qed.

Lemma SetIUpdate_loses_key_witness :
  exists r, Ns_SetIUpdate host_set (bytes "Host") (bytes "y") = Ret r /\ Ns_SetIGet r.1 (bytes "host") = Ret None.
Proof.
  destruct (SetIUpdate_loses_key host_set [] (Some (bytes "x")) [] (bytes "Host") (bytes "y")) as (r & H1 & H2).
  - exact host_rep.
  - reflexivity.
  - repeat constructor; discriminate.
  - repeat constructor; discriminate.
  - reflexivity.
  - constructor.
  - exists r. split; [exact H1|]. apply H2. reflexivity.
Defined.

Definition abc_ops : list set_op :=
  [OpPut (bytes "a") (Some (bytes "1")); OpPut (bytes "b") None; OpPut (bytes "c") (Some (bytes "3"))].
Definition abc : Ns_Set := match set_run (set_with_flags false) abc_ops with Ret s => s | _ => set_with_flags false end.

Lemma abc_rep : rep abc [(bytes "a", Some (bytes "1")); (bytes "b", None); (bytes "c", Some (bytes "3"))].
Proof.
  replace [(bytes "a", Some (bytes "1")); (bytes "b", None); (bytes "c", Some (bytes "3"))]
    with (foldl (tuples_step false) [] abc_ops) by (vm_compute; reflexivity).
  apply run_rep; [vm_compute; reflexivity|].
  repeat constructor; try discriminate; intros w Hw; injection Hw as <-; repeat constructor; discriminate.
Qed.

Lemma SetTrunc_in_order_witness :
  exists s', Ns_SetTrunc abc 2 = Ret s' /\ rep s' [(bytes "a", Some (bytes "1")); (bytes "b", None)].
Proof.
  apply (SetTrunc_in_order abc _ 2 abc_rep); [cbn; lia|]. do 2 eexists. split_and!; [vm_compute; reflexivity|reflexivity|].
  intros i f k v Hi Hf Hl. destruct i as [|[|i]]; [| |lia]; vm_compute in Hf, Hl; injection Hf as <-; injection Hl as <- <-;
    (split; [intros p Hp; injection Hp as <-; cbn; lia|intros p w Hp Hw]); cbn in Hp; try discriminate.
  injection Hp as <-. injection Hw as <-. cbn. lia.
Defined.

Lemma SetCopy_Move_spec_witness :
  exists s', Ns_SetCopy host_set = Ret s' /\ rep s' [(bytes "host", Some (bytes "x"))] /\ nocase s' = true.
Proof. destruct (SetCopy_Move_spec host_set _ abc _ host_rep abc_rep) as [H _]. exact H. Defined.

Lemma SetMerge_spec_witness : Ns_SetMerge abc abc = Ret abc /\ exists s', SetMerge abc host_set (fun s k => Ns_SetFindCmp s k strcmp) = Ret s'.
Proof.
  split; [vm_compute; reflexivity|].
  destruct (SetMerge_spec strcmp abc _ host_set _ abc_rep host_rep) as [H _].
  destruct H as (s' & H & _); [repeat constructor; discriminate|]. exists s'. exact H.
Defined.
