(* ===== verification/Header.v ===== *)
(** * Header: header lines and the fields a request may have only once.

    [Ns_ParseHeader] of nsd/request.c on the sets of NsSet, and
    [CheckSingletonHeaderFields] of nsd/driver.c.  A header set is the list of its
    fields in their order: that the operations on sets compute what they do on such
    lists is shown in NsSet, and for [Ns_ParseHeader] here. *)

From S2P Require Import Prelude Str NsSet.

Section parse.
Context `{TclDString}.

(** [Ns_DStringVarAppend(&ds, value, " ", line, NULL)]: a NULL value ends the list. *)
Definition continued (value : option (list Z)) (line : list Z) : list Z :=
  match value with Some v => v ++ 32 :: line | None => [] end.

(** The branch for a line that is no continuation: a name, a colon and a value. *)
Definition new_field (set : Ns_Set) (line : list Z) : outcome (bool * Z * Ns_Set) :=
  match strchr 58 line with
  | (_, None) => Ret (false, 0, set)
  | (key, Some rest) =>
      r ← Ns_SetPutSz set line (Z.of_nat (length key)) (Some (Ns_StrTrimLeft rest)) (-1);
      mret (true, r.2, r.1)
  end.

Definition starts_space (line : list Z) : bool := match line with c :: _ => isspace c | [] => false end.

(** Whether the result is [NS_OK], and the field number. *)
Definition Ns_ParseHeader (set : Ns_Set) (line : list Z) (prefix : option (list Z)) : outcome (bool * Z * Ns_Set) :=
  if starts_space line then
    if size set =? 0 then Ret (false, 0, set)
    else
      let idx := size set - 1 in
      match Ns_StrTrimLeft line with
      | [] => Ret (true, idx, set)
      | line =>
          value ← field_value set idx;
          let ds := continued value line in
          set ← Ns_SetPutValueSz set idx ds (Z.of_nat (length ds));
          mret (true, idx, set)
      end
  else new_field set (match prefix with Some p => p ++ line | None => line end).
End parse.

(** ** Header fields as a list *)

Definition header : Type := list Z * list Z.

(** The last value with another line. *)
Fixpoint extend_last (hs : list header) (text : list Z) : list header :=
  match hs with
  | [] => []
  | [(n, v)] => [(n, v ++ 32 :: text)]
  | h :: hs => h :: extend_last hs text
  end.

Definition field_line (hs : list header) (line : list Z) : option (list header) :=
  match strchr 58 line with
  | (_, None) => None
  | (key, Some rest) => Some (hs ++ [(tolower <$> key, Ns_StrTrimLeft rest)])
  end.

(** A header line: a continuation of the last field or a new field, [None] when it is
    malformed. *)
Definition parse_header (hs : list header) (line : list Z) : option (list header) :=
  if starts_space line then
    if bool_decide (hs = []) then None
    else match Ns_StrTrimLeft line with [] => Some hs | text => Some (extend_last hs text) end
  else field_line hs line.

(** The value of the first field with the name, as [Ns_SetIGet]. *)
Definition get_header (hs : list header) (name : list Z) : option (list Z) :=
  match List.find (fun h => bool_decide (h.1 = tolower <$> name)) hs with Some (_, v) => Some v | None => None end.

Definition tuples (hs : list header) : list tuple := (fun h => (h.1, Some h.2)) <$> hs.

Lemma tuples_snoc hs n v : tuples (hs ++ [(n, v)]) = tuples hs ++ [(n, Some v)].
Proof. unfold tuples. by rewrite fmap_app. Qed.

Lemma extend_last_snoc hs n v text : extend_last (hs ++ [(n, v)]) text = hs ++ [(n, v ++ 32 :: text)].
Proof. induction hs as [|h hs IH]; [done|]. cbn [app extend_last]. rewrite IH. by destruct hs as [|[??]?], h. Qed.

Section refine.
Context `{TclDStringLaws}.

Lemma strchr_split c l p q : strchr c l = (p, q) ->
  match q with Some q => l = p ++ c :: q /\ c ∉ p | None => l = p /\ c ∉ l end.
Proof.
  revert p q. induction l as [|x l IH]; intros p q; cbn [strchr]; [intros [= <- <-]; split; [done|by intros ?%elem_of_nil]|].
  destruct (Z.eqb_spec x c) as [->|Hx]; [intros [= <- <-]; split; [done|by intros ?%elem_of_nil]|].
  destruct (strchr c l) as [p' q'] eqn:E. intros [= <- <-]. specialize (IH _ _ eq_refl).
  destruct q' as [q'|]; destruct IH as [-> Hc]; (split; [done|]); apply not_elem_of_cons; split; congruence || done.
Qed.

Lemma trim_left_sub l : exists ws, l = ws ++ Ns_StrTrimLeft l.
Proof. destruct (trim_left_split l) as (ws & E & _). by exists ws. Qed.

Lemma new_field_spec s hs line :
  rep s (tuples hs) -> nocase s = true -> Forall (fun c => c <> 0) line ->
  match field_line hs line with
  | Some hs' => exists idx s', new_field s line = Ret (true, idx, s') /\ rep s' (tuples hs') /\ nocase s' = true
  | None => new_field s line = Ret (false, 0, s)
  end.
Proof.
  intros Hr Hnc Hz. unfold field_line, new_field. destruct (strchr 58 line) as [key [rest|]] eqn:E; [|done]. apply strchr_split in E as [E _].
  assert (Hk : Forall (fun c => c <> 0) key /\ Forall (fun c => c <> 0) (Ns_StrTrimLeft rest)).
  { rewrite E in Hz. apply Forall_app in Hz as [? Hz]. inversion Hz as [|? ? _ Hz']; subst. split; [done|].
    destruct (trim_left_sub rest) as [ws Ew]. rewrite Ew in Hz'. by apply Forall_app in Hz' as [_ ?]. }
  destruct Hk as [Hk Hv].
  destruct (SetPutSz_rep s (tuples hs) line (Z.of_nat (length key)) key (Some (Ns_StrTrimLeft rest)) (-1) (Some (Ns_StrTrimLeft rest)))
    as (s' & -> & Hr' & Hnc'); [done| |by apply denotes_cstring|by right|].
  { split; [|done]. unfold c_prefix. destruct (Z.eqb_spec (Z.of_nat (length key)) (-1)); [lia|]. by rewrite E, aslice_prefix. }
  cbn [mbind outcome_bind]. eexists _, s'. split; [done|]. rewrite Hnc in *. by rewrite tuples_snoc.
Qed.

(** Parsing a header line does on a header set what it does on the list of its
    fields: without a fault a new field, with its name in lower case, or the
    continuation of the last one, and an error for a malformed line, which leaves
    the set as it was. *)
Theorem ParseHeader_refines s hs line :
  rep s (tuples hs) -> nocase s = true -> Forall (fun c => c <> 0) line ->
  match parse_header hs line with
  | Some hs' => exists idx s', Ns_ParseHeader s line None = Ret (true, idx, s') /\ rep s' (tuples hs') /\ nocase s' = true
  | None => Ns_ParseHeader s line None = Ret (false, 0, s)
  end.
Proof.
  intros Hr Hnc Hz. unfold parse_header, Ns_ParseHeader. destruct (starts_space line); [|by apply new_field_spec].
  assert (size s = Z.of_nat (length hs)) as -> by (rewrite (proj1 Hr); unfold tuples; by rewrite length_fmap).
  destruct hs as [|[n v] hs _] using rev_ind; [done|]. rewrite bool_decide_eq_false_2 by (by destruct hs). rewrite length_app. cbn [length].
  destruct (Z.eqb_spec (Z.of_nat (length hs + 1)) 0); [lia|]. destruct (Ns_StrTrimLeft line) as [|d text] eqn:Et; [by eexists _, s|].
  replace (Z.of_nat (length hs + 1) - 1) with (Z.of_nat (length hs)) by lia. rewrite extend_last_snoc.
  assert (Hl : tuples (hs ++ [(n, v)]) !! length hs = Some (n, Some v)).
  { rewrite tuples_snoc. apply list_lookup_middle. unfold tuples. by rewrite length_fmap. }
  destruct (rep_strings _ _ _ _ _ Hr Hl) as [_ ->]. cbn [mbind outcome_bind continued].
  set (w := v ++ 32 :: d :: text). assert (Hw : Forall (fun c => c <> 0) w).
  { apply Forall_app. split; [by eapply (rep_cstrings _ _ _ _ _ Hr Hl)|]. constructor; [done|].
    destruct (trim_left_sub line) as [ws Ew]. rewrite Et in Ew. rewrite Ew in Hz. by apply Forall_app in Hz as [_ ?]. }
  destruct (SetPutValueSz_rep s (tuples (hs ++ [(n, v)])) (length hs) w (Z.of_nat (length w)) w) as (s' & -> & Hr' & Hnc');
    [done|split; [apply c_prefix_whole|done]|].
  cbn [mbind outcome_bind]. eexists _, s'. split; [done|]. split; [|congruence].
  unfold put_value in Hr'. rewrite Hl in Hr'. rewrite tuples_snoc in *. cbn [new_value] in Hr'.
  rewrite insert_app_r_alt in Hr' by (unfold tuples; by rewrite length_fmap). unfold tuples in Hr' at 2. rewrite length_fmap, Nat.sub_diag in Hr'.
  done.
Qed.
End refine.

(** ** The fields a request may have only once *)

Definition NS_EXTRACTED_HEADER_AUTHORIZATION : Z := 0.
Definition NS_EXTRACTED_HEADER_CONTENT_LENGTH : Z := 1.
Definition NS_EXTRACTED_HEADER_HOST : Z := 2.
Definition NS_EXTRACTED_HEADER_EXPECT : Z := 3.
Definition NS_EXTRACTED_NONE : Z := 4.

Definition singletonRequestHeaderFields : list (list Z * Z) :=
  [(bytes "authorization", NS_EXTRACTED_HEADER_AUTHORIZATION);
   (bytes "content-length", NS_EXTRACTED_HEADER_CONTENT_LENGTH);
   (bytes "content-type", NS_EXTRACTED_NONE);
   (bytes "expect", NS_EXTRACTED_HEADER_EXPECT);
   (bytes "host", NS_EXTRACTED_HEADER_HOST);
   (bytes "if-match", NS_EXTRACTED_NONE);
   (bytes "if-modified-since", NS_EXTRACTED_NONE);
   (bytes "if-none-match", NS_EXTRACTED_NONE);
   (bytes "if-range", NS_EXTRACTED_NONE);
   (bytes "if-unmodified-since", NS_EXTRACTED_NONE);
   (bytes "origin", NS_EXTRACTED_NONE);
   (bytes "transfer-encoding", NS_EXTRACTED_NONE);
   (bytes "upgrade", NS_EXTRACTED_NONE);
   (bytes "user-agent", NS_EXTRACTED_NONE)].

(** C's [strcasecmp]: the difference of the first letters that differ. *)
Fixpoint casecmp (a b : list Z) : Z :=
  match a, b with
  | [], [] => 0
  | [], y :: _ => - tolower y
  | x :: _, [] => tolower x
  | x :: a, y :: b => if tolower x =? tolower y then casecmp a b else tolower x - tolower y
  end.

(** The first byte of a C string, 0 at its end. *)
Definition first_byte (s : list Z) : Z := match s with c :: _ => c | [] => 0 end.

(** The inner loop: the place of the name in the table. *)
Fixpoint singleton_loop (name : list Z) (i : Z) (table : list (list Z * Z)) : option (Z * Z) :=
  match table with
  | [] => None
  | (singletonName, extract) :: table =>
      if negb (tolower (first_byte name) =? first_byte singletonName) then singleton_loop name (i + 1) table
      else
        let cmp := casecmp singletonName name in
        if cmp =? 0 then Some (i, extract)
        else if 0 <? cmp then None
        else singleton_loop name (i + 1) table
  end.

(** The outer loop, with the array of counters and the extracted values; [None] is
    [NS_ERROR]. *)
Fixpoint fields_loop (hs : list header) (counts : list Z) (extracted : list (option (list Z))) : option (list (option (list Z))) :=
  match hs with
  | [] => Some extracted
  | (name, value) :: hs =>
      match singleton_loop name 0 singletonRequestHeaderFields with
      | Some (i, extract) =>
          n ← aget counts i;
          counts ← aset counts i (n + 1);
          if 1 <? n + 1 then None
          else
            extracted ← (if extract =? NS_EXTRACTED_NONE then Some extracted else aset extracted extract (Some value));
            fields_loop hs counts extracted
      | None => fields_loop hs counts extracted
      end
  end.

Definition CheckSingletonHeaderFields (hs : list header) : option (list (option (list Z))) :=
  fields_loop hs (replicate (length singletonRequestHeaderFields) 0) (replicate 4 None).

(** Fields with a given name, in any case. *)
Definition named (sn : list Z) (h : header) : bool := bool_decide (tolower <$> h.1 = sn).
Definition occurrences (sn : list Z) (hs : list header) : nat := length (List.filter (named sn) hs).
Definition first_value (sn : list Z) (hs : list header) : option (list Z) := snd <$> List.find (named sn) hs.

Lemma tolower_idem c : tolower (tolower c) = tolower c.
Proof. unfold tolower, isupper. zcases; lia. Qed.

Lemma casecmp_lower a b : casecmp a (tolower <$> b) = casecmp a b.
Proof. revert b. induction a as [|x a IH]; intros [|y b]; cbn; rewrite ?tolower_idem, ?IH; done. Qed.

Lemma casecmp_0 a b : Forall (fun c => c <> 0) (tolower <$> a) -> Forall (fun c => c <> 0) (tolower <$> b) ->
  casecmp a b = 0 -> tolower <$> a = tolower <$> b.
Proof.
  revert b. induction a as [|x a IH]; intros [|y b]; cbn; intros Ha Hb E; try done.
  - inversion Hb; subst. lia.
  - inversion Ha; subst. lia.
  - inversion Ha; inversion Hb; subst. destruct (Z.eqb_spec (tolower x) (tolower y)) as [->|]; [|lia]. f_equal. by apply IH.
Qed.

Lemma singleton_loop_lower name table i : singleton_loop (tolower <$> name) i table = singleton_loop name i table.
Proof.
  revert i. induction table as [|[sn e] table IH]; intros i; cbn [singleton_loop]; [done|].
  assert (tolower (first_byte (tolower <$> name)) = tolower (first_byte name)) as -> by (destruct name; [done|apply tolower_idem]).
  by rewrite casecmp_lower, IH.
Qed.

(** The early end of the loop misses nothing: the table is sorted. *)
Lemma singleton_loop_spec name : Forall (fun c => c <> 0) name ->
  match singleton_loop name 0 singletonRequestHeaderFields with
  | Some (i, e) => aget singletonRequestHeaderFields i = Some (tolower <$> name, e)
  | None => (tolower <$> name) ∉ singletonRequestHeaderFields.*1
  end.
Proof.
  intros Hz. rewrite <- singleton_loop_lower. set (nm := tolower <$> name).
  assert (Hnz : Forall (fun c => c <> 0) (tolower <$> nm)).
  { unfold nm. apply Forall_fmap, Forall_fmap. eapply Forall_impl; [exact Hz|]. intros c Hc. cbn. unfold tolower, isupper. zcases; lia. }
  destruct (singleton_loop nm 0 _) as [[i e]|] eqn:E.
  - assert (Hgen : forall table k, Forall (fun t => Forall (fun c => c <> 0) (tolower <$> t.1) /\ tolower <$> t.1 = t.1) table ->
      singleton_loop nm k table = Some (i, e) -> k <= i /\ aget table (i - k) = Some (tolower <$> nm, e)).
    { clear E. induction table as [|[sn x] table IH]; intros k Ht; [done|]. inversion Ht as [|? ? [Hs Hl] Ht']; subst. cbn [singleton_loop fst] in *.
      assert (Hnext : singleton_loop nm (k + 1) table = Some (i, e) -> k <= i /\ aget ((sn, x) :: table) (i - k) = Some (tolower <$> nm, e)).
      { intros [? Ha]%IH; [|done]. split; [lia|]. revert Ha. unfold aget. destruct (Z.ltb_spec (i - (k + 1)) 0); [done|].
        destruct (Z.ltb_spec (i - k) 0); [lia|]. replace (Z.to_nat (i - k)) with (S (Z.to_nat (i - (k + 1)))) by lia. done. }
      destruct (negb _); [done|]. destruct (Z.eqb_spec (casecmp sn nm) 0) as [Hc|]; [|by destruct (0 <? casecmp sn nm)].
      intros [= <- <-]. split; [lia|]. rewrite Z.sub_diag. cbn. apply casecmp_0 in Hc; [|done..]. by rewrite <- Hc, Hl. }
    apply Hgen in E as [_ E]; [|repeat constructor; vm_compute; repeat constructor; discriminate].
    rewrite Z.sub_0_r in E. rewrite E. unfold nm. rewrite <- list_fmap_compose. do 2 f_equal. apply list_fmap_ext. intros ? c _. apply tolower_idem.
  - clearbody nm. intros Hin. cbn [singletonRequestHeaderFields fmap list_fmap fst] in Hin.
    repeat (apply elem_of_cons in Hin as [->|Hin]; [by vm_compute in E|]). by apply elem_of_nil in Hin.
Qed.

(** The values the loop has extracted from the fields [ds]. *)
Definition extracted_of (ds : list header) : list (option (list Z)) :=
  (fun sn => first_value sn ds) <$> [bytes "authorization"; bytes "content-length"; bytes "host"; bytes "expect"].
Definition counts_of (ds : list header) : list Z := (fun t => Z.of_nat (occurrences t.1 ds)) <$> singletonRequestHeaderFields.

Lemma occurrences_app sn ds hs : occurrences sn (ds ++ hs) = (occurrences sn ds + occurrences sn hs)%nat.
Proof. unfold occurrences. by rewrite List.filter_app, length_app. Qed.

Lemma first_value_snoc sn ds h : occurrences sn ds = 0%nat ->
  first_value sn (ds ++ [h]) = if named sn h then Some h.2 else None.
Proof.
  unfold occurrences, first_value. induction ds as [|d ds IH]; cbn; [by destruct (named sn h)|].
  destruct (named sn d); [done|]. exact IH.
Qed.

Lemma first_value_other sn ds h : named sn h = false -> first_value sn (ds ++ [h]) = first_value sn ds.
Proof.
  intros Hn. unfold first_value. induction ds as [|d ds IH]; cbn; [by rewrite Hn|]. by destruct (named sn d).
Qed.

Lemma named_eq sn h : named sn h = true <-> tolower <$> h.1 = sn.
Proof. apply bool_decide_eq_true. Qed.

(** A field that is not in the table changes nothing. *)
Lemma unlisted_field ds h : (tolower <$> h.1) ∉ singletonRequestHeaderFields.*1 ->
  counts_of (ds ++ [h]) = counts_of ds /\ extracted_of (ds ++ [h]) = extracted_of ds.
Proof.
  intros Hn. assert (Hno : forall sn, sn ∈ singletonRequestHeaderFields.*1 -> named sn h = false).
  { intros sn Hin. apply bool_decide_eq_false. by intros <-. }
  split.
  - apply list_fmap_ext. intros i t Ht. rewrite occurrences_app. unfold occurrences at 2. cbn.
    rewrite Hno; [cbn; lia|]. apply list_elem_of_fmap_2. by eapply list_elem_of_lookup_2.
  - apply list_fmap_ext. intros i sn Hs. apply first_value_other, Hno.
    repeat (destruct i as [|i]; [injection Hs as <-; vm_compute; repeat constructor|]). done.
Qed.

(** A field of the table that was not there before. *)
Lemma listed_field ds h i e : aget singletonRequestHeaderFields i = Some (tolower <$> h.1, e) ->
  occurrences (tolower <$> h.1) ds = 0%nat ->
  aset (counts_of ds) i 1 = Some (counts_of (ds ++ [h])) /\
  (if e =? NS_EXTRACTED_NONE then Some (extracted_of ds) else aset (extracted_of ds) e (Some h.2)) = Some (extracted_of (ds ++ [h])).
Proof.
  intros Hi H0. assert (Hocc : forall sn, occurrences sn (ds ++ [h]) =
    if bool_decide (tolower <$> h.1 = sn) then 1%nat else occurrences sn ds).
  { intros sn. rewrite occurrences_app. unfold occurrences at 2. cbn. unfold named. case_bool_decide as E; cbn; [subst sn; lia|lia]. }
  assert (Hfv : forall sn, first_value sn (ds ++ [h]) = if bool_decide (tolower <$> h.1 = sn) then Some h.2 else first_value sn ds).
  { intros sn. case_bool_decide as E.
    - rewrite first_value_snoc by (by rewrite <- E). by rewrite (proj2 (named_eq sn h) E).
    - apply first_value_other. by apply bool_decide_eq_false. }
  pose proof (aget_Some _ _ _ Hi) as Hr. unfold counts_of, extracted_of.
  cbn [singletonRequestHeaderFields fmap list_fmap fst]. rewrite !Hocc, !Hfv.
  assert (Hk : exists k, i = Z.of_nat k /\ singletonRequestHeaderFields !! k = Some (tolower <$> h.1, e)).
  { exists (Z.to_nat i). split; [lia|]. unfold aget in Hi. by destruct (Z.ltb_spec i 0); [lia|]. }
  destruct Hk as (k & -> & Hk). clear Hi Hr.
  repeat (destruct k as [|k]; [injection Hk as <- <-; split; reflexivity|]). done.
Qed.

Lemma fields_loop_spec hs : forall ds, Forall (fun h => Forall (fun c => c <> 0) h.1) hs ->
  (forall sn, sn ∈ singletonRequestHeaderFields.*1 -> (occurrences sn ds <= 1)%nat) ->
  match fields_loop hs (counts_of ds) (extracted_of ds) with
  | Some ex => ex = extracted_of (ds ++ hs) /\ forall sn, sn ∈ singletonRequestHeaderFields.*1 -> (occurrences sn (ds ++ hs) <= 1)%nat
  | None => exists sn, sn ∈ singletonRequestHeaderFields.*1 /\ (2 <= occurrences sn (ds ++ hs))%nat
  end.
Proof.
  induction hs as [|[name v] hs IH]; intros ds Hz Hone; cbn [fields_loop]; [by rewrite app_nil_r|].
  inversion Hz as [|? ? Hn Hz']; subst. pose proof (singleton_loop_spec name Hn) as Hs.
  specialize (IH (ds ++ [(name, v)]) Hz'). rewrite <- app_assoc in IH. cbn [app] in IH.
  assert (Hocc : forall sn, occurrences sn (ds ++ [(name, v)]) = (occurrences sn ds + if bool_decide (tolower <$> name = sn) then 1 else 0)%nat).
  { intros sn. rewrite occurrences_app. unfold occurrences at 2. cbn. unfold named. cbn [fst]. by case_bool_decide. }
  destruct (singleton_loop name 0 _) as [[i e]|].
  - assert (Hin : (tolower <$> name) ∈ singletonRequestHeaderFields.*1).
    { change (tolower <$> name) with (fst (tolower <$> name, e)). apply list_elem_of_fmap_2. unfold aget in Hs.
      destruct (i <? 0); [done|]. by eapply list_elem_of_lookup_2. }
    assert (Hc : aget (counts_of ds) i = Some (Z.of_nat (occurrences (tolower <$> name) ds))).
    { unfold aget in *. destruct (i <? 0); [done|]. unfold counts_of. by rewrite list_lookup_fmap, Hs. }
    rewrite Hc. cbn [mbind option_bind]. pose proof (Hone _ Hin) as H1.
    destruct (decide (occurrences (tolower <$> name) ds = 0%nat)) as [E|E].
    + destruct (listed_field ds (name, v) i e Hs E) as [Hcs He]. rewrite E. change (Z.of_nat 0 + 1) with 1. rewrite Hcs.
      cbn [mbind option_bind snd Z.ltb Z.compare Pos.compare Pos.compare_cont] in *. rewrite He. apply IH. intros sn Hsn. rewrite Hocc. pose proof (Hone sn Hsn). case_bool_decide; [subst sn; lia|lia].
    + assert (Ha : is_Some (aset (counts_of ds) i (Z.of_nat (occurrences (tolower <$> name) ds) + 1))).
      { unfold aset. apply aget_Some in Hc. rewrite (proj2 (Z.leb_le _ _)), (proj2 (Z.ltb_lt _ _)) by lia. by eexists. }
      destruct Ha as [cs ->]. cbn [mbind option_bind]. rewrite (proj2 (Z.ltb_lt _ _)) by lia. exists (tolower <$> name). split; [done|].
      change ((name, v) :: hs) with ([(name, v)] ++ hs). rewrite app_assoc, occurrences_app, Hocc, bool_decide_eq_true_2 by done. lia.
  - destruct (unlisted_field ds (name, v) Hs) as [E1 E2]. unfold header in *. rewrite E1, E2 in IH. apply IH.
    intros sn Hsn. rewrite Hocc, bool_decide_eq_false_2 by (by intros <-). rewrite Nat.add_0_r. by apply Hone.
Qed.

(** The check on a whole header. *)
Lemma CheckSingleton_fields hs : Forall (fun h => Forall (fun c => c <> 0) h.1) hs ->
  match CheckSingletonHeaderFields hs with
  | Some ex => ex = extracted_of hs /\ forall sn, sn ∈ singletonRequestHeaderFields.*1 -> (occurrences sn hs <= 1)%nat
  | None => exists sn, sn ∈ singletonRequestHeaderFields.*1 /\ (2 <= occurrences sn hs)%nat
  end.
Proof.
  intros Hz. unfold CheckSingletonHeaderFields. change (replicate (length singletonRequestHeaderFields) 0) with (counts_of []).
  change (replicate 4 None) with (extracted_of []). apply (fields_loop_spec hs []); [done|]. intros sn _. cbn. lia.
Qed.

(** The check for fields that may be given only once is exact: it fails exactly when
    one of them, in any case of letters, is given twice, and otherwise extracts the
    values of Authorization, Content-Length, Host and Expect; comparing first letters
    and ending the search early in the sorted table misses no field. *)
Theorem CheckSingleton_spec hs : Forall (fun h => Forall (fun c => c <> 0) h.1) hs ->
  match CheckSingletonHeaderFields hs with
  | Some ex => ex = extracted_of hs /\ forall sn, sn ∈ singletonRequestHeaderFields.*1 -> (occurrences sn hs <= 1)%nat
  | None => exists sn, sn ∈ singletonRequestHeaderFields.*1 /\ (2 <= occurrences sn hs)%nat
  end.
Proof. apply CheckSingleton_fields. Qed.

Definition ex_headers : list header := [(bytes "Host", bytes "x"); (bytes "accept", bytes "*"); (bytes "HOST", bytes "y")].

Lemma CheckSingleton_spec_witness :
  exists sn, sn ∈ singletonRequestHeaderFields.*1 /\ (2 <= occurrences sn ex_headers)%nat.
Proof. refine (CheckSingleton_spec ex_headers _). repeat constructor; discriminate. Defined.

#[local] Existing Instances moving moving_laws.

Lemma ParseHeader_refines_witness : exists idx s', Ns_ParseHeader host_set (bytes "Accept:  *") None = Ret (true, idx, s') /\
  rep s' (tuples [(bytes "host", bytes "x"); (bytes "accept", bytes "*")]) /\ nocase s' = true.
Proof.
  refine (ParseHeader_refines host_set [(bytes "host", bytes "x")] (bytes "Accept:  *") _ _ _);
    [exact host_rep|reflexivity|repeat constructor; discriminate].
Defined.
