(* ===== verification/Path.v ===== *)
(** * Path: path names, and the way from a request target to a file (nsd/pathname.c,
    nsd/request.c, nsd/url2file.c).

    Strings are the bytes before their NUL.  The code for Windows is left out. *)

From S2P Require Import Prelude Utf8 Str UrlTables UrlEncode.

(** ** Path names (nsd/pathname.c) *)

(** A slash or a backslash. *)
Definition ISSLASH (c : Z) : bool := (c =? 47) || (c =? 92).

Definition IsSlashInPath (inUrl : bool) (c : Z) : bool := if inUrl then c =? 47 else ISSLASH c.

Definition Ns_PathIsAbsolute (path : list Z) : bool := match path with [] => false | c :: _ => ISSLASH c end.

(** [while (IsSlashInPath(url, *src)) ++src;] *)
Fixpoint skip_slashes (slash : Z -> bool) (src : list Z) : list Z :=
  match src with
  | [] => []
  | c :: rest => if slash c then skip_slashes slash rest else src
  end.

(** The text up to the next slash, and the rest from that slash on. *)
Fixpoint next_part (slash : Z -> bool) (src : list Z) : list Z * list Z :=
  match src with
  | [] => ([], [])
  | c :: rest => if slash c then ([], src) else let '(p, q) := next_part slash rest in (c :: p, q)
  end.

(** The position of the last [c]. *)
Fixpoint strrchr (c : Z) (s : list Z) : option nat :=
  match s with
  | [] => None
  | x :: s => match strrchr c s with
              | Some i => Some (S i)
              | None => if x =? c then Some 0%nat else None
              end
  end.

(** What one part of the path does to the dstring. *)
Definition norm_part (ds part : list Z) : list Z :=
  if bool_decide (part = [46; 46]) then
    match strrchr 47 ds with Some i => take i ds | None => ds end
  else if negb (bool_decide (part = [])) && negb (bool_decide (part = [46])) then (ds ++ [47]) ++ part
  else ds.

(** The [do] loop; every round consumes a part and the slash behind it. *)
Fixpoint norm_loop (fuel : nat) (slash : Z -> bool) (ds src : list Z) : list Z :=
  match fuel with
  | O => ds
  | S fuel =>
      let '(part, rest) := next_part slash src in
      let ds := norm_part ds part in
      match rest with
      | [] => ds
      | _ :: rest => norm_loop fuel slash ds rest
      end
  end.

Definition NormalizePath (ds path : list Z) (url : bool) : list Z :=
  let slash := IsSlashInPath url in
  let src := skip_slashes slash path in
  let ds := norm_loop (S (length src)) slash ds src in
  match ds with [] => [47] | _ => ds end.

Definition Ns_NormalizePath (ds path : list Z) : list Z := NormalizePath ds path false.
Definition Ns_NormalizeUrl (ds path : list Z) : list Z := NormalizePath ds path true.

Definition isalpha (c : Z) : bool := isupper c || islower c.

Fixpoint make_loop (fuel : nat) (dest s : list Z) : list Z :=
  match fuel with
  | O => dest
  | S fuel =>
      match s with
      | [] => dest
      | _ =>
          let s := skip_slashes ISSLASH s in
          match s with
          | [] => dest
          | _ => let '(word, rest) := next_part ISSLASH s in make_loop fuel ((dest ++ [47]) ++ word) rest
          end
      end
  end.

(** One argument: a drive letter in front is copied. *)
Definition make_arg (dest s : list Z) : list Z :=
  if isalpha (nth 0 s 0) && (nth 1 s 0 =? 58) then make_loop (length s) (dest ++ take 2 s) (drop 2 s)
  else make_loop (length s) dest s.

(** The arguments up to the first NULL. *)
Fixpoint MakePath (dest : list Z) (args : list (option (list Z))) : list Z :=
  match args with
  | Some s :: args => MakePath (make_arg dest s) args
  | _ => dest
  end.

(** [dsPtr->string[dsPtr->length]] is the terminating NUL. *)
Fixpoint Ns_HashPath (ds p : list Z) (levels : nat) : list Z :=
  match levels with
  | O => ds
  | S levels =>
      let ds := if negb (nth (length ds) (ds ++ [0]) 0 =? 47) then ds ++ [47] else ds in
      let p := skip_slashes (fun c => (c =? 46) || ISSLASH c) p in
      match p with
      | c :: p => Ns_HashPath (ds ++ [c]) p levels
      | [] => Ns_HashPath (ds ++ [95]) [] levels
      end
  end.

(** The part of [NsServer] the paths depend on; no [Ns_ServerRootProc] is registered. *)
Record NsServer := mkServer {
  serverdir : list Z; pagedir : list Z;
  vhost_enabled : bool; strip_www : bool; strip_port : bool; hostprefix : option (list Z); hosthashlevel : nat }.

(** The host name without its prefix [www.] and its port. *)
Definition safehost (servPtr : NsServer) (rawHost : list Z) : list Z :=
  let host := Ns_StrToLower rawHost in
  let host := if strip_www servPtr && bool_decide (take 4 host = bytes "www.") then drop 4 host else host in
  if strip_port servPtr then match strrchr 58 host with Some i => take i host | None => host end else host.

(** [rawHost] is the argument, or else the [Host] header of the current connection. *)
Definition ServerRoot (dest : list Z) (servPtr : NsServer) (rawHost : option (list Z)) : list Z :=
  match rawHost with
  | Some ((_ :: _) as rawHost) =>
      if vhost_enabled servPtr && Ns_StrIsValidHostHeaderContent rawHost then
        let host := safehost servPtr rawHost in
        let dest := MakePath dest [Some (serverdir servPtr); hostprefix servPtr; None] in
        let dest := if (0 <? hosthashlevel servPtr)%nat then Ns_HashPath dest host (hosthashlevel servPtr) else dest in
        Ns_NormalizePath dest host
      else MakePath dest [Some (serverdir servPtr); None]
  | _ => MakePath dest [Some (serverdir servPtr); None]
  end.

Definition NsPageRoot (ds : list Z) (servPtr : NsServer) (host : option (list Z)) : list Z :=
  if Ns_PathIsAbsolute (pagedir servPtr) then ds ++ pagedir servPtr
  else MakePath (ServerRoot ds servPtr host) [Some (pagedir servPtr); None].

(** ** From the URL to the file (nsd/url2file.c) *)

Definition Ns_FastUrl2FileProc (ds url : list Z) (servPtr : NsServer) (host : option (list Z)) : list Z :=
  MakePath (NsPageRoot ds servPtr host) [Some url; None].

(** ** The request target (nsd/request.c) *)

Fixpoint traversal_loop (p : list Z) : bool :=
  match p with
  | [] => false
  | c :: rest =>
      match p with
      | 46 :: 46 :: 37 :: 53 :: x :: _ => (x =? 99) || (x =? 67) || traversal_loop rest
      | _ => traversal_loop rest
      end
  end.

Definition PlainRequestTargetContainsBackslashTraversal (url : list Z) : bool :=
  existsb (Z.eqb 92) url || traversal_loop (strchr 63 url).1.

Record Request := mkRequest { request_url : list Z; request_query : option (list Z); request_urlv : list (list Z) }.

Section target.
Context `{TclEncoding}.

(** The dstring after [Ns_UrlPathDecode]; it is empty when the text is not valid. *)
Definition path_decode (s : list Z) (encoding : option Tcl_Encoding) : outcome (list Z) :=
  r ← Ns_UrlPathDecode [] s encoding;
  checked (fst <$> r).

(** The decoded segments; the last one is left out when it is empty. *)
Fixpoint segments_loop (fuel : nat) (encodedPath : list Z) (encoding : option Tcl_Encoding) : outcome (list (list Z)) :=
  match fuel with
  | O => Fault
  | S fuel =>
      match encodedPath with
      | [] => Ret []
      | _ =>
          let '(seg, rest) := strchr 47 encodedPath in
          s ← path_decode seg encoding;
          match rest with
          | None => mret [s]
          | Some rest => l ← segments_loop fuel rest encoding; mret (s :: l)
          end
      end
  end.

(** [None] is [NS_ERROR]. *)
Definition SetUrl (url : list Z) (encoding : option Tcl_Encoding) : outcome (option Request) :=
  let '(url, q) := strchr 63 url in
  let query := match q with Some (_ :: _) => q | _ => None end in
  p ← path_decode url encoding;
  match p with
  | [] => Ret None
  | _ =>
      let normalized := Ns_NormalizeUrl [] (before_nul p) in
      let rest := skip_slashes (fun c => c =? 47) url in
      let full := if bool_decide (last rest = Some 47) then normalized ++ [47] else normalized in
      urlv ← segments_loop (S (length url)) (drop 1 url) encoding;
      mret (Some (mkRequest full query urlv))
  end.

(** The last part of [Ns_ParseRequest] for a target that starts with a slash. *)
Definition plain_target (url : list Z) (encoding : option Tcl_Encoding) : outcome (option Request) :=
  if PlainRequestTargetContainsBackslashTraversal url then Ret None else SetUrl url encoding.
End target.

(** ** The specification: a path is a list of names *)

(** The texts between the slashes, empty ones included. *)
Fixpoint split (slash : Z -> bool) (s : list Z) : list (list Z) :=
  match s with
  | [] => [[]]
  | c :: s => if slash c then [] :: split slash s
              else match split slash s with w :: ws => (c :: w) :: ws | [] => [[c]] end
  end.

(** Each name behind a slash. *)
Definition render (names : list (list Z)) : list Z := mjoin ((fun w => 47 :: w) <$> names).

Definition walk (names : list (list Z)) (part : list Z) : list (list Z) :=
  if bool_decide (part = [46; 46]) then removelast names
  else if bool_decide (part = []) || bool_decide (part = [46]) then names
  else names ++ [part].

(** The directory reached from [names]. *)
Definition resolve (slash : Z -> bool) (names : list (list Z)) (path : list Z) : list (list Z) :=
  foldl walk names (split slash path).

Definition clean (slash : Z -> bool) (w : list Z) : Prop := Forall (fun c => slash c = false) w.

(** Neither empty, [.] or [..], and without a slash. *)
Definition name (slash : Z -> bool) (w : list Z) : Prop :=
  clean slash w /\ w <> [] /\ w <> [46] /\ w <> [46; 46].

(** The root is written as a slash. *)
Definition path_of (names : list (list Z)) : list Z := match names with [] => [47] | _ => render names end.

Lemma split_next slash s :
  split slash s = let '(w, rest) := next_part slash s in match rest with [] => [w] | _ :: rest => w :: split slash rest end.
Proof.
  induction s as [|c s IH]; [done|]. cbn. destruct (slash c); [done|]. rewrite IH.
  destruct (next_part slash s) as [w [|x rest]]; done.
Qed.

Lemma next_part_length slash s : (length (next_part slash s).1 + length (next_part slash s).2 = length s)%nat.
Proof. induction s as [|c s IH]; [done|]. cbn. destruct (slash c); [done|]. destruct (next_part slash s). cbn in *. lia. Qed.

Lemma split_clean slash s : Forall (clean slash) (split slash s).
Proof.
  induction s as [|c s IH]; cbn; [by repeat constructor|]. destruct (slash c) eqn:E; [constructor; [constructor|done]|].
  destruct (split slash s) as [|w ws]; [by repeat constructor|]. apply Forall_cons in IH as [? ?]. constructor; [by constructor|done].
Qed.

Lemma split_app slash w s : clean slash w -> forall v vs, split slash s = v :: vs -> split slash (w ++ s) = (w ++ v) :: vs.
Proof. induction w as [|c w IH]; intros Hw v vs E; [done|]. apply Forall_cons in Hw as [Hc Hw]. cbn. by rewrite Hc, (IH Hw v vs E). Qed.

Lemma split_render slash ws : slash 47 = true -> Forall (clean slash) ws -> split slash (render ws) = [] :: ws.
Proof.
  intros Hs. induction ws as [|w ws IH]; intros Hw; [done|]. apply Forall_cons in Hw as [H1 H2]. unfold render in *. cbn.
  rewrite Hs. f_equal. rewrite (split_app slash w _ H1 [] ws) by (by apply IH). by rewrite app_nil_r.
Qed.

Lemma resolve_skip slash s : forall names, resolve slash names (skip_slashes slash s) = resolve slash names s.
Proof.
  induction s as [|c s IH]; intros names; [done|]. cbn [skip_slashes]. destruct (slash c) eqn:E; [|done].
  rewrite IH. unfold resolve. cbn. by rewrite E.
Qed.

(** ** The functions against the specification *)

Lemma strrchr_None c s : Forall (fun x => x <> c) s -> strrchr c s = None.
Proof. induction 1 as [|x s Hx _ IH]; [done|]. cbn. rewrite IH. by destruct (Z.eqb_spec x c). Qed.

Lemma strrchr_snoc c s w : Forall (fun x => x <> c) w -> strrchr c (s ++ c :: w) = Some (length s).
Proof.
  intros Hw. induction s as [|x s IH]; cbn; [|by rewrite IH]. by rewrite strrchr_None, Z.eqb_refl.
Qed.

Lemma clean_ne slash w : slash 47 = true -> clean slash w -> Forall (fun x => x <> 47) w.
Proof. intros Hs Hw. eapply Forall_impl; [exact Hw|]. cbn. intros x Hx ->. by rewrite Hs in Hx. Qed.

Lemma render_snoc ws w : render (ws ++ [w]) = render ws ++ 47 :: w.
Proof. unfold render. rewrite fmap_app, join_app. cbn. by rewrite app_nil_r. Qed.

Lemma norm_part_walk slash base ws part :
  slash 47 = true -> Forall (clean slash) ws ->
  (ws = [] -> part = [46; 46] -> strrchr 47 base = None) ->
  norm_part (base ++ render ws) part = base ++ render (walk ws part).
Proof.
  intros Hs Hw Hb. unfold norm_part, walk. case_bool_decide as E.
  - destruct ws as [|w ws _] using rev_ind; [cbn; rewrite app_nil_r; by rewrite (Hb eq_refl E)|].
    apply Forall_app in Hw as [_ [Hw _]%Forall_cons]. rewrite removelast_last, render_snoc, app_assoc.
    rewrite strrchr_snoc by (by eapply clean_ne). by rewrite take_app_length.
  - do 2 case_bool_decide; cbn [negb andb orb]; [done..|]. by rewrite render_snoc, <- !app_assoc.
Qed.

Lemma walk_clean slash ws part : Forall (clean slash) ws -> clean slash part -> Forall (clean slash) (walk ws part).
Proof.
  intros Hw Hp. unfold walk. case_bool_decide; [|case_match; [done|apply Forall_app; by split; [|constructor]]].
  destruct ws as [|w ws _] using rev_ind; [done|]. rewrite removelast_last. by apply Forall_app in Hw as [? _].
Qed.

(** [base] is what the dstring held before; a [..] must not reach it. *)
Lemma norm_loop_walk slash fuel base : slash 47 = true -> forall ws src,
  Forall (clean slash) ws -> (length src < fuel)%nat ->
  (base = [] \/ [46; 46] ∉ split slash src) ->
  norm_loop fuel slash (base ++ render ws) src = base ++ render (resolve slash ws src).
Proof.
  intros Hs. induction fuel as [|fuel IH]; intros ws src Hw Hf Hb; [lia|].
  unfold resolve. cbn [norm_loop]. pose proof (split_clean slash src) as Hc. rewrite split_next in *.
  pose proof (next_part_length slash src) as Hl. destruct (next_part slash src) as [part rest]. cbn in Hl.
  assert (clean slash part) as Hp by (destruct rest; by apply Forall_cons in Hc as [? _]).
  assert (ws = [] -> part = [46; 46] -> strrchr 47 base = None) as Hdots
    by (intros _ ->; destruct Hb as [->|Hb]; [done|destruct rest; set_solver]).
  rewrite (norm_part_walk slash base) by done.
  destruct rest as [|c rest]; [done|]. cbn [foldl]. apply IH; [by apply walk_clean|cbn in Hl; lia|].
  destruct Hb as [?|Hb]; [by left|right; set_solver].
Qed.

Lemma split_skip slash s w : w ∈ split slash (skip_slashes slash s) -> w ∈ split slash s.
Proof.
  induction s as [|c s IH]; [done|]. cbn [skip_slashes split]. destruct (slash c) eqn:E; [intros; right; by apply IH|].
  cbn. by rewrite E.
Qed.

(** Appending a path to [base]. *)
Lemma NormalizePath_resolve base path url :
  base = [] \/ [46; 46] ∉ split (IsSlashInPath url) path ->
  NormalizePath base path url =
    let ds := base ++ render (resolve (IsSlashInPath url) [] path) in match ds with [] => [47] | _ => ds end.
Proof.
  intros Hb. unfold NormalizePath. set (src := skip_slashes _ path).
  pose proof (norm_loop_walk (IsSlashInPath url) (S (length src)) base ltac:(by destruct url) [] src) as E.
  unfold render at 1 in E. cbn [fmap list_fmap mjoin list_join] in E. rewrite app_nil_r in E.
  rewrite E; [unfold src; by rewrite resolve_skip|constructor|lia|].
  destruct Hb as [?|Hb]; [by left|right]. intros Hin%split_skip. done.
Qed.

Lemma NormalizePath_nil path url : NormalizePath [] path url = path_of (resolve (IsSlashInPath url) [] path).
Proof.
  rewrite NormalizePath_resolve by (by left). cbv zeta. rewrite app_nil_l.
  destruct (resolve (IsSlashInPath url) [] path); reflexivity.
Qed.

Lemma resolve_names slash ws path : Forall (name slash) ws -> Forall (name slash) (resolve slash ws path).
Proof.
  unfold resolve. generalize (split_clean slash path). generalize (split slash path). intros l Hl. revert ws.
  induction Hl as [|w l Hw _ IH]; intros ws Hws; [done|]. cbn. apply IH. unfold walk. case_bool_decide as E1.
  - destruct ws as [|v ws _] using rev_ind; [done|]. rewrite removelast_last. by apply Forall_app in Hws as [? _].
  - do 2 case_bool_decide; cbn; [done..|]. apply Forall_app. split; [done|]. by constructor.
Qed.

Lemma resolve_render slash ws : slash 47 = true -> Forall (name slash) ws -> resolve slash [] (render ws) = ws.
Proof.
  intros Hs Hw. unfold resolve. rewrite split_render; [|done|by eapply Forall_impl; [done|intros ? [? _]]]. cbn.
  change (walk [] []) with (@nil (list Z)). rewrite <- (app_nil_l ws) at 2. generalize (@nil (list Z)) as acc.
  induction Hw as [|w ws (_ & H1 & H2 & H3) _ IH]; intros acc; cbn; [by rewrite app_nil_r|]. unfold walk at 2.
  rewrite !bool_decide_eq_false_2 by done. cbn. rewrite IH. by rewrite <- app_assoc.
Qed.

(** The names of a path, as [MakePath] sees them. *)
Definition words (s : list Z) : list (list Z) := filter (fun w => w <> []) (split ISSLASH s).

Lemma words_skip s : words (skip_slashes ISSLASH s) = words s.
Proof.
  induction s as [|c s IH]; [done|]. cbn [skip_slashes]. destruct (ISSLASH c) eqn:E; [|done].
  rewrite IH. unfold words. cbn [split]. by rewrite E, filter_cons_False by (intros H; by apply H).
Qed.

Lemma skip_slashes_length slash s : (length (skip_slashes slash s) <= length s)%nat.
Proof. induction s as [|c s IH]; cbn; [done|]. destruct (slash c); cbn; lia. Qed.

Lemma skip_slashes_head slash s c rest : skip_slashes slash s = c :: rest -> slash c = false.
Proof. induction s as [|x s IH]; cbn; [done|]. destruct (slash x) eqn:E; [done|]. by intros [= <- _]. Qed.

Lemma next_part_slash slash s w x rest : next_part slash s = (w, x :: rest) -> slash x = true.
Proof.
  revert w. induction s as [|c s IH]; intros w; cbn; [done|]. destruct (slash c) eqn:E; [by intros [= _ <- _]|].
  destruct (next_part slash s) as [p q]. intros [= _ ->]. by apply (IH p).
Qed.

Lemma words_cons c s : ISSLASH c = true -> words (c :: s) = words s.
Proof. intros E. unfold words. cbn [split]. by rewrite E, filter_cons_False by (intros H; by apply H). Qed.

Lemma make_loop_words fuel : forall dest s, (length s <= fuel)%nat -> make_loop fuel dest s = dest ++ render (words s).
Proof.
  induction fuel as [|fuel IH]; intros dest s Hf; [destruct s; [by rewrite app_nil_r|cbn in Hf; lia]|].
  cbn [make_loop]. rewrite <- (words_skip s). pose proof (skip_slashes_length ISSLASH s) as Hl.
  destruct s as [|c0 s0]; [by rewrite app_nil_r|]. set (s := c0 :: s0) in *.
  destruct (skip_slashes ISSLASH s) as [|c r] eqn:Es; [by rewrite app_nil_r|].
  pose proof (skip_slashes_head _ _ _ _ Es) as Hc. unfold words. rewrite split_next.
  pose proof (next_part_length ISSLASH (c :: r)) as Hn. cbn [next_part] in *. rewrite Hc in *.
  destruct (next_part ISSLASH r) as [w rest] eqn:En. cbn in Hn, Hl, Hf. rewrite IH by (cbn in *; lia).
  destruct rest as [|x rest]; rewrite filter_cons_True by done; rewrite <- !app_assoc; [done|].
  by rewrite words_cons by (by eapply next_part_slash).
Qed.

Lemma make_arg_words dest s : nth 1 s 0 <> 58 -> make_arg dest s = dest ++ render (words s).
Proof.
  intros H. unfold make_arg. destruct (Z.eqb_spec (nth 1 s 0) 58); [done|]. rewrite andb_false_r. by apply make_loop_words.
Qed.

(** On a rendered path [MakePath] finds the names again, if none has a backslash. *)
Lemma words_render ws : Forall (name ISSLASH) ws -> words (render ws) = ws /\ words (render ws ++ [47]) = ws.
Proof.
  intros Hw. assert (Forall (clean ISSLASH) ws) as Hc by (eapply Forall_impl; [done|by intros ? [? _]]).
  assert (filter (fun w => w <> []) ws = ws) as Hf
    by (clear Hc; induction Hw as [|w ws (_ & ? & _) _ IH]; [done|by rewrite filter_cons_True, IH]).
  split; unfold words.
  - rewrite split_render by done. rewrite filter_cons_False by (intros H; by apply H). done.
  - replace (render ws ++ [47]) with (render (ws ++ [[]])) by (rewrite render_snoc; done).
    rewrite split_render by (try done; apply Forall_app; by split; [|repeat constructor]).
    rewrite filter_cons_False, filter_app, Hf, filter_cons_False, filter_nil, app_nil_r by (intros H; by apply H). done.
Qed.

(** ** Virtual hosts *)

Definition no_dots (s : list Z) : Prop := forall p q, s <> p ++ [46; 46] ++ q.

Lemma lower_inv c d : tolower c = d -> isupper d = false -> islower d = false -> c = d.
Proof. unfold tolower, isupper, islower. intros E H1 H2. revert E H1 H2. zcases; intros; lia. Qed.

Lemma valid_host_lower host :
  Ns_StrIsValidHostHeaderContent host = true -> clean ISSLASH (Ns_StrToLower host) /\ no_dots (Ns_StrToLower host).
Proof.
  intros [Hc Hd]%host_header_iff. assert (Ns_StrToLower host = tolower <$> host) as ->.
  { apply list_fmap_ext. intros i c _. unfold tolower. by destruct (isupper c). }
  split.
  - apply Forall_fmap, Forall_forall. intros c Hin. apply list_elem_of_In in Hin.
    apply (proj1 (forallb_forall _ _) Hc) in Hin. cbn. destruct (ISSLASH (tolower c)) eqn:E; [|done]. exfalso.
    assert (c = 47 \/ c = 92) as [-> | ->]; [|done..]. unfold ISSLASH in E. apply orb_prop in E as [E%Z.eqb_eq|E%Z.eqb_eq];
      apply lower_inv in E; try done; tauto.
  - intros p q E. apply fmap_app_inv in E as (p' & r & -> & E & ->). destruct r as [|a [|b q']]; try done.
    injection E as E1 E2 _. apply eq_sym, lower_inv in E1, E2; try done. subst. by apply (Hd p' q').
Qed.

Lemma no_dots_take s n : no_dots s -> no_dots (take n s).
Proof. intros H p q E. apply (H p (q ++ drop n s)). rewrite <- (take_drop n s) at 1. rewrite E. by rewrite <- !app_assoc. Qed.
Lemma no_dots_drop s n : no_dots s -> no_dots (drop n s).
Proof. intros H p q E. apply (H (take n s ++ p) q). rewrite <- (take_drop n s) at 1. rewrite E. by rewrite <- !app_assoc. Qed.

Lemma safehost_spec srv host :
  Ns_StrIsValidHostHeaderContent host = true -> clean ISSLASH (safehost srv host) /\ safehost srv host <> [46; 46].
Proof.
  intros [Hc Hd]%valid_host_lower. unfold safehost. set (h := if strip_www srv && _ then _ else _).
  assert (clean ISSLASH h /\ no_dots h) as [Hc1 Hd1].
  { unfold h. destruct (_ && _); [|done]. split; [by apply Forall_drop|by apply no_dots_drop]. }
  assert (forall s, no_dots s -> s <> [46; 46]) as Hne by (intros s Hs ->; by apply (Hs [] [])).
  destruct (strip_port srv); [|by split; [|apply Hne]]. destruct (strrchr 58 h) as [i|]; [|by split; [|apply Hne]].
  split; [by apply Forall_take|by apply Hne, no_dots_take].
Qed.

Lemma HashPath_names levels : forall ds p,
  exists names, Ns_HashPath ds p levels = ds ++ render names /\ Forall (name ISSLASH) names.
Proof.
  induction levels as [|levels IH]; intros ds p; [exists []; by rewrite app_nil_r|]. cbn [Ns_HashPath].
  rewrite app_nth2, Nat.sub_diag by lia. cbn [nth negb Z.eqb].
  destruct (skip_slashes _ p) as [|c r] eqn:E.
  - destruct (IH ((ds ++ [47]) ++ [95]) []) as (names & -> & Hn). exists ([95] :: names).
    rewrite <- !app_assoc. split; [done|]. constructor; [|done]. split_and!; [by repeat constructor|done..].
  - apply skip_slashes_head in E as [E1 E2]%orb_false_elim. destruct (IH ((ds ++ [47]) ++ [c]) r) as (names & -> & Hn).
    exists ([c] :: names). rewrite <- !app_assoc. split; [done|]. constructor; [|done].
    split_and!; [by repeat constructor|done| |done]. intros [= ->]. done.
Qed.

Lemma split_clean_one slash w : clean slash w -> split slash w = [w].
Proof. induction 1 as [|c w Hc _ IH]; [done|]. cbn. by rewrite Hc, IH. Qed.

Lemma render_app ws vs : render (ws ++ vs) = render ws ++ render vs.
Proof. unfold render. by rewrite fmap_app, join_app. Qed.

(** ** Targets *)

Lemma path_decode_total `{TclEncoding} s e : is_bytes s -> exists p, path_decode s e = Ret p.
Proof.
  intros Hb. destruct (PercentDecode_total s ch_p Hb) as (out & Ho & _). unfold path_decode, Ns_UrlPathDecode.
  rewrite (UrlDecode_result _ _ _ _ _ Hb Ho). by eexists.
Qed.

Lemma strchr_bytes c s p q : is_bytes s -> strchr c s = (p, q) ->
  is_bytes p /\ match q with Some r => is_bytes r /\ (length r < length s)%nat | None => True end.
Proof.
  revert p q. induction s as [|x s IH]; intros p q Hb; cbn; [by intros [= <- <-]|]. apply Forall_cons in Hb as [Hx Hb].
  destruct (x =? c); [intros [= <- <-]; by split_and!; [constructor|done|lia]|].
  destruct (strchr c s) as [p' q'] eqn:E. intros [= <- <-]. destruct (IH p' q' Hb eq_refl) as [Hp Hq].
  split; [by constructor|]. destruct q'; [|done]. destruct Hq. split; [done|lia].
Qed.

Lemma segments_total `{TclEncoding} fuel e : forall s,
  is_bytes s -> (length s < fuel)%nat -> exists l, segments_loop fuel s e = Ret l.
Proof.
  induction fuel as [|fuel IH]; intros s Hb Hf; [lia|]. cbn [segments_loop]. destruct s as [|c s]; [by eexists|].
  destruct (strchr 47 (c :: s)) as [seg rest] eqn:E. destruct (strchr_bytes _ _ _ _ Hb E) as [Hs Hr].
  destruct (path_decode_total seg e Hs) as [p ->]. cbn [mbind outcome_bind]. destruct rest as [rest|]; [|by eexists].
  destruct Hr as [Hr Hl]. destruct (IH rest Hr) as [l ->]; [cbn in *; lia|]. by eexists.
Qed.

Lemma name_backslash ws :
  Forall (name (IsSlashInPath true)) ws -> Forall (fun w => 92 ∉ w) ws -> Forall (name ISSLASH) ws.
Proof.
  intros Hw Hb. apply Forall_forall. intros w Hin. rewrite Forall_forall in Hw, Hb. destruct (Hw w Hin) as [Hc Hn].
  split; [|done]. specialize (Hb w Hin). apply Forall_forall. intros c Hcin. unfold clean in Hc. rewrite Forall_forall in Hc.
  specialize (Hc c Hcin). cbn in Hc. unfold ISSLASH. rewrite Hc. cbn. destruct (Z.eqb_spec c 92) as [->|]; done.
Qed.

(** The names of a path have no other bytes than the path. *)
Lemma resolve_elem slash c path : c ∉ path -> Forall (fun w => c ∉ w) (resolve slash [] path).
Proof.
  intros Hc. assert (Forall (fun w => c ∉ w) (split slash path)) as Hs.
  { induction path as [|x path IH]; cbn; [constructor; [apply not_elem_of_nil|constructor]|].
    apply not_elem_of_cons in Hc as [Hx Hc]. specialize (IH Hc). destruct (slash x); [constructor; [apply not_elem_of_nil|done]|].
    destruct (split slash path) as [|w ws]; [constructor; [by apply not_elem_of_cons; split; [|apply not_elem_of_nil]|constructor]|].
    apply Forall_cons in IH as [? ?]. constructor; [by apply not_elem_of_cons|done]. }
  unfold resolve. assert (Forall (fun w : list Z => c ∉ w) []) as Hn by constructor. revert Hn. generalize (@nil (list Z)).
  induction Hs as [|w ws Hw _ IH]; intros acc Ha; [done|]. cbn. apply IH. unfold walk. case_bool_decide.
  - destruct acc as [|v acc _] using rev_ind; [done|]. rewrite removelast_last. by apply Forall_app in Ha as [? _].
  - case_match; [done|]. apply Forall_app. by split; [|constructor].
Qed.

Lemma before_nul_elem c s : c ∈ before_nul s -> c ∈ s.
Proof. induction s as [|x s IH]; cbn; [done|]. destruct (x =? 0); [by intros ?%not_elem_of_nil|].
  intros [->|Hin]%elem_of_cons; [by left|right; by apply IH].
Qed.

(** A normalised URL, with or without a slash behind it, is taken apart again. *)
Lemma make_url dest names tail :
  Forall (name ISSLASH) names -> tail = [] \/ tail = [47] ->
  MakePath dest [Some (path_of names ++ tail); None] = dest ++ render names.
Proof.
  intros Hn Ht. cbn [MakePath]. unfold make_arg, path_of. replace (isalpha _) with false by (by destruct names).
  cbn [andb]. rewrite make_loop_words by done. do 2 f_equal. destruct (words_render names Hn) as [H1 H2].
  destruct names as [|w ws]; [by destruct Ht as [-> | ->]|]. destruct Ht as [-> | ->]; [by rewrite app_nil_r|done].
Qed.

(** ** Theorems *)

(** Path normalisation: the result is made of the names that a walk through the
    parts of the path reaches, [..] going back and never above the root; none of them is
    empty, [.], [..] or has a slash, and a normalised path is not changed again. *)
Theorem NormalizePath_spec path url :
  let names := resolve (IsSlashInPath url) [] path in
  NormalizePath [] path url = path_of names /\
  Forall (name (IsSlashInPath url)) names /\
  NormalizePath [] (NormalizePath [] path url) url = NormalizePath [] path url.
Proof.
  intros names. assert (Forall (name (IsSlashInPath url)) names) as Hn by (apply resolve_names; constructor).
  assert (forall p, NormalizePath [] p url = path_of (resolve (IsSlashInPath url) [] p)) as Hp by (intros; apply NormalizePath_nil).
  split; [apply Hp|]. split; [done|]. rewrite (Hp path), Hp. fold names. f_equal.
  destruct names as [|w ws] eqn:E; [by destruct url|]. apply resolve_render; [by destruct url|done].
Qed.

Section targets.
Context `{TclEncoding}.

(** A target is decoded, or refused when nothing is left of its path; the URL is made of the names that
    a walk through the decoded path reaches. *)
Lemma SetUrl_cases url e : is_bytes url -> exists p, path_decode (strchr 63 url).1 e = Ret p /\
  (p = [] /\ SetUrl url e = Ret None \/
   p <> [] /\ exists req tail, SetUrl url e = Ret (Some req) /\ (tail = [] \/ tail = [47]) /\
     request_url req = path_of (resolve (IsSlashInPath true) [] (before_nul p)) ++ tail).
Proof.
  intros Hb. unfold SetUrl. destruct (strchr 63 url) as [u q] eqn:Eq. destruct (strchr_bytes _ _ _ _ Hb Eq) as [Hu _]. cbn [fst].
  destruct (path_decode_total u e Hu) as [p Hp]. exists p. split; [done|]. rewrite Hp. cbn [mbind outcome_bind].
  destruct p as [|c p]; [by left|right]. split; [done|]. destruct (segments_total (S (length u)) e (drop 1 u)) as [l ->].
  { by apply Forall_drop. } { rewrite length_drop. lia. }
  cbn [mbind outcome_bind mret outcome_ret]. eexists _, (if bool_decide (last (skip_slashes (fun c => c =? 47) u) = Some 47) then [47] else []).
  split; [reflexivity|]. split; [case_match; auto|]. cbn [request_url]. unfold Ns_NormalizeUrl. rewrite NormalizePath_nil. case_match; by rewrite ?app_nil_r.
Qed.

(** A URL without a backslash is mapped to the names it is made of, below the page root. *)
Lemma url_mapped names tail srv host : Forall (name (IsSlashInPath true)) names -> 92 ∉ path_of names -> tail = [] \/ tail = [47] ->
  Forall (name ISSLASH) names /\ Ns_FastUrl2FileProc [] (path_of names ++ tail) srv host = NsPageRoot [] srv host ++ render names.
Proof.
  intros Hn Hb Ht. assert (Forall (name ISSLASH) names) as Hn'.
  { apply name_backslash; [done|]. apply Forall_forall. intros w Hw Hin. apply Hb. unfold path_of. destruct names as [|v names]; [by apply elem_of_nil in Hw|].
    unfold render. apply list_elem_of_join. exists (47 :: w). split; [by right|]. apply list_elem_of_fmap. by exists w. }
  split; [done|]. unfold Ns_FastUrl2FileProc. by apply make_url.
Qed.
End targets.

(** Virtual hosts: the root directory for a Host header is the server directory with
    the configured prefix, followed by proper names only (the hashed characters and the
    host name); a header with other characters gives the plain server directory.  No
    Host header leads out of the configured directory. *)
Theorem ServerRoot_contained srv host :
  let base := MakePath [] [Some (serverdir srv); hostprefix srv; None] in
  base <> [] ->
  exists names, Forall (name ISSLASH) names /\
    ServerRoot [] srv host =
      (if vhost_enabled srv && bool_decide (host <> None /\ host <> Some []) &&
          Ns_StrIsValidHostHeaderContent (default [] host)
       then base ++ render names else MakePath [] [Some (serverdir srv); None]).
Proof.
  intros base Hbase. destruct host as [[|c raw]|]; [| |exists []; rewrite bool_decide_false, andb_false_r by (by intros [[] _]); by split].
  { exists []. rewrite bool_decide_false, andb_false_r by (by intros [_ []]). by split. }
  rewrite bool_decide_true by done. rewrite andb_true_r. cbn [default from_option id ServerRoot]. set (host := c :: raw).
  destruct (vhost_enabled srv && Ns_StrIsValidHostHeaderContent host) eqn:E; [|by exists []].
  apply andb_prop in E as [_ Hv]. destruct (safehost_spec srv host Hv) as [Hc Hd]. fold base.
  assert (exists hashed, Forall (name ISSLASH) hashed /\
    (if (0 <? hosthashlevel srv)%nat then Ns_HashPath base (safehost srv host) (hosthashlevel srv) else base) = base ++ render hashed)
    as (hashed & Hh & ->).
  { destruct (0 <? hosthashlevel srv)%nat; [|exists []; by rewrite app_nil_r].
    destruct (HashPath_names (hosthashlevel srv) base (safehost srv host)) as (ns & -> & Hns). by exists ns. }
  unfold Ns_NormalizePath. rewrite NormalizePath_resolve.
  2: { right. cbn [IsSlashInPath]. change (split (fun c => ISSLASH c) _) with (split ISSLASH (safehost srv host)).
       rewrite split_clean_one by done. intros E%list_elem_of_singleton. by apply Hd. }
  set (names := resolve _ [] (safehost srv host)). exists (hashed ++ names). split.
  { apply Forall_app. split; [done|]. apply resolve_names. constructor. }
  rewrite render_app, app_assoc. cbv zeta. by destruct base.
Qed.

(** ** Witnesses *)

#[local] Instance ascii_only : TclEncoding := {|
  Tcl_Encoding := unit;
  Tcl_Encoding_eq := unit_eq_dec;
  NS_utf8Encoding := tt;
  Tcl_UtfToExternalDString := fun _ s => s;
  Tcl_ExternalToUtfDString := fun _ s => s;
|}.

Definition www : NsServer := mkServer (bytes "/srv") (bytes "pages") true true true (Some (bytes "hosts")) 2.

Lemma ServerRoot_contained_witness :
  exists names, Forall (name ISSLASH) names /\
    ServerRoot [] www (Some (bytes "www.Example.com:80")) = bytes "/srv/hosts" ++ render names.
Proof.
  destruct (ServerRoot_contained www (Some (bytes "www.Example.com:80"))) as (names & Hn & E); [vm_compute; discriminate|].
  exists names. split; [exact Hn|]. rewrite E. vm_compute. reflexivity.
Defined.

(** The way round the check for backslashes: [MakePath] takes a backslash for a slash
    while [Ns_NormalizeUrl] does not, and the check in front of them looks for [..%5c]
    in the target before it is decoded.  A target with encoded periods passes, and the
    file is outside of the page root. *)
Theorem backslash_traversal srv host :
  exists req, plain_target (bytes "/%2e%2e%5csecret") (Some NS_utf8Encoding) = Ret (Some req) /\
    Ns_FastUrl2FileProc [] (request_url req) srv host = NsPageRoot [] srv host ++ bytes "/../secret".
Proof.
  eexists. split; [vm_compute; reflexivity|]. unfold Ns_FastUrl2FileProc. cbn [MakePath request_url].
  rewrite make_arg_words by (vm_compute; discriminate). f_equal.
Qed.
