(* ===== verification/Url.v ===== *)
(** * Url: URLs and their authorities (nsd/url.c, Ns_HttpParseHost2 of nsd/tclhttp.c).

    The parsers split a writable string by storing NULs into it and return pointers into
    it.  Here a pointer is the rest of the string from its place on; a string that is
    ended by a NUL stored at a later place is cut there. *)

From S2P Require Import Prelude Str Path.

(** ** Character tables *)

Definition regname_table : list Z := [
  0; 0; 0; 0; 0; 0; 0; 0; 0; 0; 0; 0; 0; 0; 0; 0;
  0; 0; 0; 0; 0; 0; 0; 0; 0; 0; 0; 0; 0; 0; 0; 0;
  0; 0; 0; 0; 0; 1; 0; 0; 0; 0; 0; 0; 0; 1; 1; 0;
  1; 1; 1; 1; 1; 1; 1; 1; 1; 1; 0; 0; 0; 0; 0; 0;
  0; 1; 1; 1; 1; 1; 1; 1; 1; 1; 1; 1; 1; 1; 1; 1;
  1; 1; 1; 1; 1; 1; 1; 1; 1; 1; 1; 0; 0; 0; 0; 1;
  0; 1; 1; 1; 1; 1; 1; 1; 1; 1; 1; 1; 1; 1; 1; 1;
  1; 1; 1; 1; 1; 1; 1; 1; 1; 1; 1; 0; 0; 0; 1; 0;
  0; 0; 0; 0; 0; 0; 0; 0; 0; 0; 0; 0; 0; 0; 0; 0;
  0; 0; 0; 0; 0; 0; 0; 0; 0; 0; 0; 0; 0; 0; 0; 0;
  0; 0; 0; 0; 0; 0; 0; 0; 0; 0; 0; 0; 0; 0; 0; 0;
  0; 0; 0; 0; 0; 0; 0; 0; 0; 0; 0; 0; 0; 0; 0; 0;
  0; 0; 0; 0; 0; 0; 0; 0; 0; 0; 0; 0; 0; 0; 0; 0;
  0; 0; 0; 0; 0; 0; 0; 0; 0; 0; 0; 0; 0; 0; 0; 0;
  0; 0; 0; 0; 0; 0; 0; 0; 0; 0; 0; 0; 0; 0; 0; 0;
  0; 0; 0; 0; 0; 0; 0; 0; 0; 0; 0; 0; 0; 0; 0; 0].

Definition delimiter_table : list Z := [
  0; 1; 1; 1; 1; 1; 1; 1; 1; 1; 1; 1; 1; 1; 1; 1;
  1; 1; 1; 1; 1; 1; 1; 1; 1; 1; 1; 1; 1; 1; 1; 1;
  0; 1; 1; 0; 1; 1; 1; 1; 1; 1; 1; 1; 1; 1; 1; 0;
  1; 1; 1; 1; 1; 1; 1; 1; 1; 1; 0; 1; 1; 1; 1; 0;
  1; 1; 1; 1; 1; 1; 1; 1; 1; 1; 1; 1; 1; 1; 1; 1;
  1; 1; 1; 1; 1; 1; 1; 1; 1; 1; 1; 1; 1; 1; 1; 1;
  1; 1; 1; 1; 1; 1; 1; 1; 1; 1; 1; 1; 1; 1; 1; 1;
  1; 1; 1; 1; 1; 1; 1; 1; 1; 1; 1; 1; 1; 1; 1; 1;
  1; 1; 1; 1; 1; 1; 1; 1; 1; 1; 1; 1; 1; 1; 1; 1;
  1; 1; 1; 1; 1; 1; 1; 1; 1; 1; 1; 1; 1; 1; 1; 1;
  1; 1; 1; 1; 1; 1; 1; 1; 1; 1; 1; 1; 1; 1; 1; 1;
  1; 1; 1; 1; 1; 1; 1; 1; 1; 1; 1; 1; 1; 1; 1; 1;
  1; 1; 1; 1; 1; 1; 1; 1; 1; 1; 1; 1; 1; 1; 1; 1;
  1; 1; 1; 1; 1; 1; 1; 1; 1; 1; 1; 1; 1; 1; 1; 1;
  1; 1; 1; 1; 1; 1; 1; 1; 1; 1; 1; 1; 1; 1; 1; 1;
  1; 1; 1; 1; 1; 1; 1; 1; 1; 1; 1; 1; 1; 1; 1; 1].

Definition userinfo_table : list Z := [
  0; 0; 0; 0; 0; 0; 0; 0; 0; 0; 0; 0; 0; 0; 0; 0;
  0; 0; 0; 0; 0; 0; 0; 0; 0; 0; 0; 0; 0; 0; 0; 0;
  0; 1; 0; 0; 1; 1; 1; 1; 1; 1; 1; 1; 1; 1; 1; 0;
  1; 1; 1; 1; 1; 1; 1; 1; 1; 1; 1; 1; 0; 1; 0; 0;
  0; 1; 1; 1; 1; 1; 1; 1; 1; 1; 1; 1; 1; 1; 1; 1;
  1; 1; 1; 1; 1; 1; 1; 1; 1; 1; 1; 0; 0; 0; 0; 1;
  0; 1; 1; 1; 1; 1; 1; 1; 1; 1; 1; 1; 1; 1; 1; 1;
  1; 1; 1; 1; 1; 1; 1; 1; 1; 1; 1; 0; 0; 0; 1; 0;
  0; 0; 0; 0; 0; 0; 0; 0; 0; 0; 0; 0; 0; 0; 0; 0;
  0; 0; 0; 0; 0; 0; 0; 0; 0; 0; 0; 0; 0; 0; 0; 0;
  0; 0; 0; 0; 0; 0; 0; 0; 0; 0; 0; 0; 0; 0; 0; 0;
  0; 0; 0; 0; 0; 0; 0; 0; 0; 0; 0; 0; 0; 0; 0; 0;
  0; 0; 0; 0; 0; 0; 0; 0; 0; 0; 0; 0; 0; 0; 0; 0;
  0; 0; 0; 0; 0; 0; 0; 0; 0; 0; 0; 0; 0; 0; 0; 0;
  0; 0; 0; 0; 0; 0; 0; 0; 0; 0; 0; 0; 0; 0; 0; 0;
  0; 0; 0; 0; 0; 0; 0; 0; 0; 0; 0; 0; 0; 0; 0; 0].

Definition scheme_table : list Z := [
  0; 0; 0; 0; 0; 0; 0; 0; 0; 0; 0; 0; 0; 0; 0; 0;
  0; 0; 0; 0; 0; 0; 0; 0; 0; 0; 0; 0; 0; 0; 0; 0;
  0; 0; 0; 0; 0; 0; 0; 0; 0; 0; 0; 1; 0; 1; 1; 0;
  1; 1; 1; 1; 1; 1; 1; 1; 1; 1; 0; 0; 0; 0; 0; 0;
  0; 1; 1; 1; 1; 1; 1; 1; 1; 1; 1; 1; 1; 1; 1; 1;
  1; 1; 1; 1; 1; 1; 1; 1; 1; 1; 1; 0; 0; 0; 0; 0;
  0; 1; 1; 1; 1; 1; 1; 1; 1; 1; 1; 1; 1; 1; 1; 1;
  1; 1; 1; 1; 1; 1; 1; 1; 1; 1; 1; 0; 0; 0; 0; 0;
  0; 0; 0; 0; 0; 0; 0; 0; 0; 0; 0; 0; 0; 0; 0; 0;
  0; 0; 0; 0; 0; 0; 0; 0; 0; 0; 0; 0; 0; 0; 0; 0;
  0; 0; 0; 0; 0; 0; 0; 0; 0; 0; 0; 0; 0; 0; 0; 0;
  0; 0; 0; 0; 0; 0; 0; 0; 0; 0; 0; 0; 0; 0; 0; 0;
  0; 0; 0; 0; 0; 0; 0; 0; 0; 0; 0; 0; 0; 0; 0; 0;
  0; 0; 0; 0; 0; 0; 0; 0; 0; 0; 0; 0; 0; 0; 0; 0;
  0; 0; 0; 0; 0; 0; 0; 0; 0; 0; 0; 0; 0; 0; 0; 0;
  0; 0; 0; 0; 0; 0; 0; 0; 0; 0; 0; 0; 0; 0; 0; 0].

Definition path_table : list Z := [
  0; 0; 0; 0; 0; 0; 0; 0; 0; 0; 0; 0; 0; 0; 0; 0;
  0; 0; 0; 0; 0; 0; 0; 0; 0; 0; 0; 0; 0; 0; 0; 0;
  0; 1; 0; 0; 1; 1; 1; 1; 1; 1; 1; 1; 1; 1; 1; 1;
  1; 1; 1; 1; 1; 1; 1; 1; 1; 1; 1; 1; 0; 1; 0; 0;
  1; 1; 1; 1; 1; 1; 1; 1; 1; 1; 1; 1; 1; 1; 1; 1;
  1; 1; 1; 1; 1; 1; 1; 1; 1; 1; 1; 0; 0; 0; 0; 1;
  0; 1; 1; 1; 1; 1; 1; 1; 1; 1; 1; 1; 1; 1; 1; 1;
  1; 1; 1; 1; 1; 1; 1; 1; 1; 1; 1; 0; 0; 0; 1; 0;
  0; 0; 0; 0; 0; 0; 0; 0; 0; 0; 0; 0; 0; 0; 0; 0;
  0; 0; 0; 0; 0; 0; 0; 0; 0; 0; 0; 0; 0; 0; 0; 0;
  0; 0; 0; 0; 0; 0; 0; 0; 0; 0; 0; 0; 0; 0; 0; 0;
  0; 0; 0; 0; 0; 0; 0; 0; 0; 0; 0; 0; 0; 0; 0; 0;
  0; 0; 0; 0; 0; 0; 0; 0; 0; 0; 0; 0; 0; 0; 0; 0;
  0; 0; 0; 0; 0; 0; 0; 0; 0; 0; 0; 0; 0; 0; 0; 0;
  0; 0; 0; 0; 0; 0; 0; 0; 0; 0; 0; 0; 0; 0; 0; 0;
  0; 0; 0; 0; 0; 0; 0; 0; 0; 0; 0; 0; 0; 0; 0; 0].

Definition fragment_table : list Z := [
  0; 0; 0; 0; 0; 0; 0; 0; 0; 0; 0; 0; 0; 0; 0; 0;
  0; 0; 0; 0; 0; 0; 0; 0; 0; 0; 0; 0; 0; 0; 0; 0;
  0; 1; 0; 0; 1; 1; 1; 1; 1; 1; 1; 1; 1; 1; 1; 1;
  1; 1; 1; 1; 1; 1; 1; 1; 1; 1; 1; 1; 0; 1; 0; 1;
  1; 1; 1; 1; 1; 1; 1; 1; 1; 1; 1; 1; 1; 1; 1; 1;
  1; 1; 1; 1; 1; 1; 1; 1; 1; 1; 1; 0; 0; 0; 0; 1;
  0; 1; 1; 1; 1; 1; 1; 1; 1; 1; 1; 1; 1; 1; 1; 1;
  1; 1; 1; 1; 1; 1; 1; 1; 1; 1; 1; 0; 0; 0; 1; 0;
  0; 0; 0; 0; 0; 0; 0; 0; 0; 0; 0; 0; 0; 0; 0; 0;
  0; 0; 0; 0; 0; 0; 0; 0; 0; 0; 0; 0; 0; 0; 0; 0;
  0; 0; 0; 0; 0; 0; 0; 0; 0; 0; 0; 0; 0; 0; 0; 0;
  0; 0; 0; 0; 0; 0; 0; 0; 0; 0; 0; 0; 0; 0; 0; 0;
  0; 0; 0; 0; 0; 0; 0; 0; 0; 0; 0; 0; 0; 0; 0; 0;
  0; 0; 0; 0; 0; 0; 0; 0; 0; 0; 0; 0; 0; 0; 0; 0;
  0; 0; 0; 0; 0; 0; 0; 0; 0; 0; 0; 0; 0; 0; 0; 0;
  0; 0; 0; 0; 0; 0; 0; 0; 0; 0; 0; 0; 0; 0; 0; 0].

Definition alpha_table : list Z := [
  0; 0; 0; 0; 0; 0; 0; 0; 0; 0; 0; 0; 0; 0; 0; 0;
  0; 0; 0; 0; 0; 0; 0; 0; 0; 0; 0; 0; 0; 0; 0; 0;
  0; 0; 0; 0; 0; 0; 0; 0; 0; 0; 0; 0; 0; 0; 0; 0;
  0; 0; 0; 0; 0; 0; 0; 0; 0; 0; 0; 0; 0; 0; 0; 0;
  0; 1; 1; 1; 1; 1; 1; 1; 1; 1; 1; 1; 1; 1; 1; 1;
  1; 1; 1; 1; 1; 1; 1; 1; 1; 1; 1; 0; 0; 0; 0; 0;
  0; 1; 1; 1; 1; 1; 1; 1; 1; 1; 1; 1; 1; 1; 1; 1;
  1; 1; 1; 1; 1; 1; 1; 1; 1; 1; 1; 0; 0; 0; 0; 0;
  0; 0; 0; 0; 0; 0; 0; 0; 0; 0; 0; 0; 0; 0; 0; 0;
  0; 0; 0; 0; 0; 0; 0; 0; 0; 0; 0; 0; 0; 0; 0; 0;
  0; 0; 0; 0; 0; 0; 0; 0; 0; 0; 0; 0; 0; 0; 0; 0;
  0; 0; 0; 0; 0; 0; 0; 0; 0; 0; 0; 0; 0; 0; 0; 0;
  0; 0; 0; 0; 0; 0; 0; 0; 0; 0; 0; 0; 0; 0; 0; 0;
  0; 0; 0; 0; 0; 0; 0; 0; 0; 0; 0; 0; 0; 0; 0; 0;
  0; 0; 0; 0; 0; 0; 0; 0; 0; 0; 0; 0; 0; 0; 0; 0;
  0; 0; 0; 0; 0; 0; 0; 0; 0; 0; 0; 0; 0; 0; 0; 0].

(** [table[UCHAR(c)] != 0] *)
Definition in_table (table : list Z) (c : Z) : bool := match table !! Z.to_nat c with Some b => negb (b =? 0) | None => false end.

(** The loop [for (p = s; table[UCHAR( *p)] != 0; p++)]: what was passed and the rest; no table
    has the NUL. *)
Fixpoint scan (table : list Z) (s : list Z) : list Z * list Z :=
  match s with
  | c :: rest => if in_table table c then let '(p, q) := scan table rest in (c :: p, q) else ([], s)
  | [] => ([], [])
  end.

(** The first byte, 0 at the end of the string. *)
Definition peek (s : list Z) : Z := match s with c :: _ => c | [] => 0 end.

(** ** Host and port *)

Fixpoint SkipDigits (chars : list Z) : list Z :=
  match chars with
  | c :: rest => if (48 <=? c) && (c <=? 57) then SkipDigits rest else chars
  | [] => []
  end.

(** The results of [Ns_HttpParseHost2]: the text of the host and what follows it in the same
    C string (nothing if a NUL was stored behind the host), the string from the port on,
    and the string from the end on. *)
Record hostport := mkHostport { hp_ok : bool; hp_host : option (list Z); hp_open : list Z; hp_port : option (list Z); hp_end : list Z }.

(** The host as it is returned. *)
Definition host_string (h : hostport) : option (list Z) := (fun t => t ++ hp_open h) <$> hp_host h.

(** What follows a host: perhaps a colon and a port. *)
Definition host_rest (ok : bool) (host p open : list Z) : hostport :=
  if peek p =? 58 then
    let port := drop 1 p in
    mkHostport (ok && negb (bool_decide (SkipDigits port = port))) (Some host) [] (Some port) (SkipDigits port)
  else mkHostport ok (Some host) open None p.

(** Without a closing bracket the end is NULL. *)
Definition Ns_HttpParseHost2 (hostString : list Z) (strict : bool) : hostport :=
  if peek hostString =? 91 then
    match strchr 93 (drop 1 hostString) with
    | (host, Some p) => host_rest true host p []
    | (_, None) => mkHostport false None [] None []
    end
  else
    let '(host, p) := scan (if strict then regname_table else delimiter_table) hostString in
    let success := negb (peek hostString =? 46)
      && ((peek p =? 0) || (peek p =? 58) || (peek p =? 47) || (peek p =? 63) || (peek p =? 35)) in
    host_rest success host p p.

(** ** URLs *)

(** [None] is NULL. *)
Record Ns_URL := mkUrl {
  protocol : option (list Z); userinfo : option (list Z); host : option (list Z); port : option (list Z);
  path : option (list Z); tail : option (list Z); query : option (list Z); fragment : option (list Z)
}.

(** The user info and the rest, which starts with the host. *)
Definition ParseUserInfo (chars : list Z) : option (list Z) * list Z :=
  let '(u, p) := scan userinfo_table chars in
  if peek p =? 64 then (Some u, drop 1 p) else (None, chars).

(** The string up to [ch] and the one behind it: [strchr] with the NUL that is stored. *)
Definition ParseUpTo (chars : list Z) (ch : Z) : list Z * option (list Z) := strchr ch chars.

(** The string if all its characters are in the table, else NULL; the message is kept by
    the caller. *)
Definition ValidateChars (chars : list Z) (table : list Z) : option (list Z) :=
  if bool_decide ((scan table chars).2 = []) then Some chars else None.

(** The heuristic for relative URLs: a colon before a slash. *)
Fixpoint colon_before_slash (p : list Z) : bool :=
  match p with
  | c :: rest => if c =? 47 then false else (c =? 58) || colon_before_slash rest
  | [] => false
  end.

(** The scheme and the rest behind its colon, [None] for a scheme that is not accepted. *)
Definition url_scheme (url : list Z) : option (option (list Z) * list Z) :=
  let '(sch, e) :=
    match url with
    | c :: rest => if in_table alpha_table c then let '(p, q) := scan scheme_table rest in (c :: p, q) else ([], url)
    | [] => ([], [])
    end in
  if negb (bool_decide (sch = [])) && (peek e =? 58) then Some (Some sch, drop 1 e)
  else if negb (peek e =? 47) && negb (peek e =? 63) && negb (peek e =? 35) && negb (bool_decide (e = [])) && colon_before_slash e then None
  else Some (None, url).

(** Path, tail, query and fragment behind the slash that ends the authority. *)
Definition slash_parts (url : list Z) : option (list Z) * list Z * option (list Z) * option (list Z) :=
  let '(u, query) := ParseUpTo url 63 in
  let '(u, fragment) := match query with None => ParseUpTo u 35 | Some _ => (u, None) end in
  let '(path, tail) :=
    match strrchr 47 u with
    | None => ([], u)
    | Some i => (take i u, drop (S i) u)
    end in
  let '(query, fragment) :=
    match query with
    | Some q => let '(q, f) := ParseUpTo q 35 in (Some q, f)
    | None => (None, fragment)
    end in
  (Some path, tail, query, fragment).

(** The same without a slash: only a tail. *)
Definition tail_parts (url : list Z) : list Z * option (list Z) * option (list Z) :=
  let '(tail, query) := ParseUpTo url 63 in
  match query with
  | Some q => let '(q, f) := ParseUpTo q 35 in (tail, Some q, f)
  | None => let '(tail, f) := ParseUpTo tail 35 in (tail, None, f)
  end.

(** The checks of strict parsing: a part with a character that is not allowed becomes NULL. *)
Definition validated (u : Ns_URL) : Ns_URL * bool :=
  let check table part := match part with Some s => ValidateChars s table | None => None end in
  let u' := mkUrl (protocol u) (userinfo u) (host u) (port u) (check path_table (path u)) (check path_table (tail u))
    (check fragment_table (query u)) (check fragment_table (fragment u)) in
  (u', bool_decide (is_Some (path u) <-> is_Some (path u')) && bool_decide (is_Some (tail u) <-> is_Some (tail u'))
       && bool_decide (is_Some (query u) <-> is_Some (query u')) && bool_decide (is_Some (fragment u) <-> is_Some (fragment u'))).

Inductive url_status := URL_OK | URL_INVALID_CHARACTER | URL_ERROR.

(** The result, and what was stored in the [Ns_URL].  [URL_INVALID_CHARACTER] is [NS_OK]
    with an error message. *)
Definition Ns_ParseUrl (url : list Z) (strict : bool) : url_status * Ns_URL :=
  match url_scheme url with
  | None => (URL_ERROR, mkUrl None None None None None None None None)
  | Some (proto, url) =>
      let authority := (peek url =? 47) && (peek (drop 1 url) =? 47) in
      let '(ui, rest) := if authority then ParseUserInfo (drop 2 url) else (None, []) in
      let h := Ns_HttpParseHost2 rest strict in
      let empty := if authority then Some [] else None in
      if authority && negb (hp_ok h) then (URL_ERROR, mkUrl proto ui (host_string h) (hp_port h) empty empty None None)
      else
        let '(hst, e) := if authority then (hp_host h, hp_end h) else (None, url) in
        let digits := if authority then (fun p => take (length p - length e) p) <$> hp_port h else None in
        match e with
        | [] => (URL_OK, mkUrl proto ui hst digits empty empty None None)
        | c :: e' =>
            if c =? 35 then (URL_OK, mkUrl proto ui hst digits empty empty None (Some e'))
            else if c =? 63 then
              let '(q, f) := ParseUpTo e' 35 in (URL_OK, mkUrl proto ui hst digits empty empty (Some q) f)
            else
              let u :=
                if c =? 47 then
                  let '(pth, tl, q, f) := slash_parts e' in mkUrl proto ui hst digits pth (Some tl) q f
                else
                  let '(tl, q, f) := tail_parts e in
                  mkUrl proto ui hst ((fun ds => ds ++ tl) <$> digits) empty (Some tl) q f in
              if strict then let '(u, ok) := validated u in ((if ok then URL_OK else URL_INVALID_CHARACTER), u)
              else (URL_OK, u)
        end
  end.

(** Collapses the leading slashes behind the location of the server. *)
Fixpoint skip_double (url : list Z) : list Z :=
  match url with
  | c :: rest => if (c =? 47) && (peek rest =? 47) then skip_double rest else url
  | [] => []
  end.

(** The point in [b] where [a] ends, [None] for a mismatch, as the pointer of [Ns_Match]. *)
Fixpoint match_rest (a b : list Z) : option (list Z) :=
  match a, b with
  | x :: a, y :: b => if negb (tolower x =? tolower y) then None else match_rest a b
  | _, b => Some b
  end.

Definition Ns_RelativeUrl (url location : option (list Z)) : option (list Z) :=
  match url, location with
  | Some url, Some location => Some (skip_double (match match_rest location url with Some v => v | None => url end))
  | _, _ => None
  end.

(** [Ns_DStringVarAppend] stops at a NULL. *)
Definition or_empty (s : option (list Z)) : list Z := match s with Some s => s | None => [] end.

(** Scheme, host and port; a host with a colon is put in brackets. *)
Definition print_location (proto hst : list Z) (prt : option (list Z)) : list Z :=
  proto ++ bytes "://" ++ (match strchr 58 hst with (_, None) => hst | _ => 91 :: hst ++ [93] end)
    ++ match prt with Some p => 58 :: p | None => [] end.

Definition print_path (pth : list Z) (tl : list Z) : list Z := match pth with [] => 47 :: tl | _ => 47 :: pth ++ 47 :: tl end.

(** Whether the result is [NS_OK], and the string that was appended. *)
Definition Ns_AbsoluteUrl (urlString baseString : list Z) : bool * list Z :=
  let '(_, url) := Ns_ParseUrl (match urlString with [] => [47] | _ => urlString end) false in
  let '(st, base) := Ns_ParseUrl baseString false in
  match protocol base, host base, path base with
  | Some bproto, Some bhost, Some bpath =>
      let proto := match protocol url with Some p => p | None => bproto end in
      let '(hst, prt) := match host url with Some h => (h, port url) | None => (bhost, port base) end in
      let pth := match path url with Some p => p | None => bpath end in
      (negb (match st with URL_ERROR => true | _ => false end), print_location proto hst prt ++ print_path pth (or_empty (tail url)))
  | _, _, _ => (false, [])
  end.

Definition Ns_PlainUrlPath (url : list Z) : bool :=
  match Ns_ParseUrl url false with
  | (URL_ERROR, _) => false
  | (_, u) => bool_decide (query u = None) && bool_decide (fragment u = None)
  end.

(** ** Well-formed URLs *)

Definition all_in (table : list Z) (s : list Z) : Prop := Forall (fun c => in_table table c = true) s.

(** A name, or an address that is put in brackets. *)
Definition host_ok (h : list Z) : Prop :=
  all_in regname_table h /\ peek h <> 46 \/ Exists (fun c => c = 58) h /\ Forall (fun c => c <> 93) h.
Definition port_ok (p : list Z) : Prop := p <> [] /\ Forall (fun c => isdigit c = true) p.
Definition scheme_ok (s : list Z) : Prop := match s with c :: r => in_table alpha_table c = true /\ all_in scheme_table r | [] => False end.

(** An absolute URL; a fragment may have question marks only behind a query. *)
Definition url_ok (u : Ns_URL) : Prop :=
  (exists s, protocol u = Some s /\ scheme_ok s) /\ (exists h, host u = Some h /\ host_ok h) /\
  match userinfo u with Some i => all_in userinfo_table i | None => True end /\
  match port u with Some p => port_ok p | None => True end /\
  (exists p, path u = Some p /\ all_in path_table p) /\ (exists t, tail u = Some t /\ all_in path_table t /\ Forall (fun c => c <> 47) t) /\
  match query u with Some q => all_in fragment_table q | None => True end /\
  match fragment u with Some f => all_in fragment_table f /\ (query u = None -> Forall (fun c => c <> 63) f) | None => True end.

Definition print_host (h : list Z) : list Z := match strchr 58 h with (_, None) => h | _ => 91 :: h ++ [93] end.
Definition print_rest (u : Ns_URL) : list Z :=
  match query u with Some q => 63 :: q | None => [] end ++ match fragment u with Some f => 35 :: f | None => [] end.

Definition print_url (u : Ns_URL) : list Z :=
  or_empty (protocol u) ++ bytes "://" ++ match userinfo u with Some i => i ++ [64] | None => [] end
  ++ print_host (or_empty (host u)) ++ match port u with Some p => 58 :: p | None => [] end
  ++ print_path (or_empty (path u)) (or_empty (tail u)) ++ print_rest u.

(** ** Tables *)

(** A fact about all characters of a table. *)
Definition table_all (table : list Z) (f : Z -> bool) : bool :=
  negb (in_table table 0) && (length table =? 256)%nat && forallb (fun i => negb (in_table table (Z.of_nat i)) || f (Z.of_nat i)) (seq 0 256).

Lemma table_fact table f : table_all table f = true -> forall c, in_table table c = true -> f c = true.
Proof.
  unfold table_all. intros [[H0%negb_true_iff Hl%Nat.eqb_eq]%andb_prop Hf]%andb_prop c Hin.
  assert (Hr : 0 <= c < 256).
  { destruct (Z.lt_ge_cases c 0); [unfold in_table in *; replace (Z.to_nat c) with (Z.to_nat 0) in Hin by lia; congruence|].
    unfold in_table in Hin. destruct (table !! Z.to_nat c) eqn:E; [|done]. apply lookup_lt_Some in E. lia. }
  pose proof (proj1 (List.forallb_forall _ _) Hf (Z.to_nat c)) as H. cbn beta in H. rewrite Z2Nat.id, Hin in H by lia. apply H.
  apply in_seq. lia.
Qed.

Lemma table_all_facts table f s : table_all table f = true -> all_in table s -> Forall (fun c => f c = true) s.
Proof. intros Hf Hs. eapply Forall_impl; [exact Hs|]. by apply table_fact. Qed.

Lemma scan_app table s t : all_in table s -> match t with c :: _ => in_table table c = false | [] => True end -> scan table (s ++ t) = (s, t).
Proof.
  intros Hs Ht. induction Hs as [|c s Hc _ IH]; cbn [app scan]; [|by rewrite Hc, IH].
  destruct t as [|c t]; [done|]. cbn. by rewrite Ht.
Qed.

Lemma strchr_free c s t : Forall (fun x => x <> c) s -> strchr c (s ++ t) = let '(p, q) := strchr c t in (s ++ p, q).
Proof.
  induction 1 as [|x s Hx _ IH]; cbn [app strchr]; [by destruct (strchr c t)|]. destruct (Z.eqb_spec x c); [done|]. rewrite IH.
  by destruct (strchr c t).
Qed.

Lemma strchr_present c l p : Exists (fun x => x = c) l -> strchr c l <> (p, None).
Proof.
  intros Hex. revert p. induction Hex as [x l ->|x l _ IH]; intros p; cbn [strchr]; [by rewrite Z.eqb_refl|].
  destruct (x =? c); [done|]. destruct (strchr c l) as [p' [q'|]]; [done|]. by destruct (IH p').
Qed.

(** Characters that end a part. *)
Definition differs (l : list Z) (c : Z) : bool := forallb (fun x => negb (c =? x)) l.

Lemma differs_ne l c x : differs l c = true -> x ∈ l -> c <> x.
Proof.
  unfold differs. intros H Hx ->. pose proof (proj1 (List.forallb_forall _ _) H x) as Hn. cbn beta in Hn. rewrite Z.eqb_refl in Hn.
  specialize (Hn ltac:(by apply list_elem_of_In)). done.
Qed.

Lemma all_differ table l x s : table_all table (differs l) = true -> x ∈ l -> all_in table s -> Forall (fun c => c <> x) s.
Proof.
  intros Ht Hx Hs. eapply Forall_impl; [exact (table_all_facts _ _ _ Ht Hs)|]. cbn. intros c Hc. by eapply differs_ne.
Qed.

(** ** Parsing what was printed *)

Lemma scheme_printed s rest : scheme_ok s -> url_scheme (s ++ 58 :: rest) = Some (Some s, rest).
Proof.
  intros Hs. destruct s as [|c s]; [done|]. destruct Hs as [Hc Hs]. unfold url_scheme. cbn [app]. rewrite Hc.
  rewrite scan_app by done. cbn. done.
Qed.

Lemma skip_digits p rest : Forall (fun c => isdigit c = true) p -> match rest with c :: _ => isdigit c = false | [] => True end ->
  SkipDigits (p ++ rest) = rest.
Proof.
  intros Hp Hr. induction Hp as [|c p Hc _ IH]; cbn [app SkipDigits].
  - destruct rest as [|c rest]; [done|]. cbn. unfold isdigit in Hr. by rewrite Hr.
  - unfold isdigit in Hc. by rewrite Hc.
Qed.

(** The host and the port in front of a slash. *)
Lemma host_printed h prt rest strict : host_ok h -> match prt with Some p => port_ok p | None => True end ->
  let hp := Ns_HttpParseHost2 (print_host h ++ match prt with Some p => 58 :: p | None => [] end ++ 47 :: rest) strict in
  hp_ok hp = true /\ hp_host hp = Some h /\ hp_end hp = 47 :: rest /\ (fun p => take (length p - length (47 :: rest)) p) <$> hp_port hp = prt.
Proof.
  intros Hh Hp. cbv zeta.
  assert (Hrest : forall ok open, ok = true -> let hp := host_rest ok h (match prt with Some p => 58 :: p | None => [] end ++ 47 :: rest) open in
    hp_ok hp = true /\ hp_host hp = Some h /\ hp_end hp = 47 :: rest /\ (fun p => take (length p - length (47 :: rest)) p) <$> hp_port hp = prt).
  { intros ok open ->. unfold host_rest. destruct prt as [p|]; cbn [app peek Z.eqb Pos.eqb skipn hp_ok hp_host hp_end hp_port]; [|done].
    destruct Hp as [Hne Hd]. rewrite !drop_0, skip_digits by done. split_and!; [|done|done|].
    - rewrite bool_decide_eq_false_2; [done|]. intros E%(f_equal length). destruct p; [done|]. revert E. lens.
    - cbn [fmap option_fmap option_map]. f_equal. apply take_app_length'. lens. }
  unfold Ns_HttpParseHost2, print_host. destruct (strchr 58 h) as [h1 [h2|]] eqn:Ec.
  - cbn [app peek Z.eqb Pos.eqb skipn]. rewrite drop_0, <- app_assoc. cbn [app]. rewrite strchr_app; [by apply Hrest|].
    destruct Hh as [[Hh _]|[_ Hh]]; [|done]. by eapply (all_differ regname_table [93] 93); [vm_compute|constructor|].
  - destruct Hh as [[Hh Hdot]|[Hex _]].
    2: { by destruct (strchr_present 58 h h1 Hex). }
    set (after := match prt with Some p => 58 :: p | None => [] end ++ 47 :: rest) in *.
    assert (Hpk : peek (h ++ after) <> 91 /\ peek (h ++ after) <> 46).
    { destruct h as [|c h]; [unfold after; by destruct prt|]. cbn [app peek] in *. split; [|done].
      pose proof (all_differ regname_table [91] 91 (c :: h)) as Hd. apply Hd in Hh; [|by vm_compute|constructor]. by inversion Hh. }
    rewrite (proj2 (Z.eqb_neq _ _)) by apply Hpk.
    assert (Hscan : scan (if strict then regname_table else delimiter_table) (h ++ after) = (h, after)).
    { apply scan_app.
      - destruct strict; [done|]. eapply Forall_impl; [exact (table_all_facts regname_table (in_table delimiter_table) h ltac:(by vm_compute) Hh)|done].
      - unfold after. by destruct prt, strict. }
    rewrite Hscan. apply Hrest. rewrite (proj2 (Z.eqb_neq _ 46)) by apply Hpk. unfold after. by destruct prt.
Qed.

Lemma userinfo_printed ui h prt rest : match ui with Some i => all_in userinfo_table i | None => True end -> host_ok h ->
  match prt with Some p => port_ok p | None => True end ->
  let s := print_host h ++ match prt with Some p => 58 :: p | None => [] end ++ 47 :: rest in
  ParseUserInfo (match ui with Some i => i ++ [64] | None => [] end ++ s) = (ui, s).
Proof.
  intros Hi Hh Hp. cbv zeta. set (s := print_host h ++ _). unfold ParseUserInfo. destruct ui as [i|].
  { rewrite <- app_assoc. cbn [app]. rewrite scan_app by done. cbn [peek Z.eqb Pos.eqb skipn]. by rewrite drop_0. }
  cbn [app]. assert (Hs : exists p q, scan userinfo_table s = (p, q) /\ peek q <> 64).
  { unfold s, print_host. destruct (strchr 58 h) as [h1 [h2|]] eqn:Ec; [by eexists [], _|].
    destruct Hh as [[Hh _]|[Hex _]]; [|by destruct (strchr_present 58 h h1 Hex)].
    exists (h ++ match prt with Some p => 58 :: p | None => [] end), (47 :: rest). rewrite app_assoc. split; [|done]. apply scan_app; [|done].
    apply Forall_app. split; [exact (table_all_facts regname_table (in_table userinfo_table) h ltac:(by vm_compute) Hh)|].
    destruct prt as [p|]; [|constructor]. constructor; [done|]. destruct Hp as [_ Hp]. eapply Forall_impl; [exact Hp|].
    intros c Hc%isdigit_range. assert (Hk : c ∈ (fun i => 48 + Z.of_nat i) <$> seq 0 10).
    { apply list_elem_of_fmap. exists (Z.to_nat (c - 48)). split; [lia|]. apply elem_of_seq. lia. }
    clear -Hk. cbn in Hk. repeat (apply elem_of_cons in Hk as [->|Hk]; [done|]). by apply elem_of_nil in Hk. }
  destruct Hs as (p & q & -> & Hq). by rewrite (proj2 (Z.eqb_neq _ _)).
Qed.

Lemma strrchr_last c p t : Forall (fun x => x <> c) t -> strrchr c (p ++ c :: t) = Some (length p).
Proof.
  intros Ht. assert (Hn : strrchr c t = None).
  { induction Ht as [|x t Hx _ IH]; [done|]. cbn. rewrite IH. by rewrite (proj2 (Z.eqb_neq _ _)). }
  induction p as [|x p IH]; cbn [app strrchr length]; [by rewrite Hn, Z.eqb_refl|]. by rewrite IH.
Qed.

Lemma strrchr_free c t : Forall (fun x => x <> c) t -> strrchr c t = None.
Proof. induction 1 as [|x t Hx _ IH]; [done|]. cbn. rewrite IH. by rewrite (proj2 (Z.eqb_neq _ _)). Qed.

(** Path and tail, without the slash in front. *)
Lemma path_tail p t : all_in path_table p -> Forall (fun c => c <> 47) t ->
  match strrchr 47 (drop 1 (print_path p t)) with
  | None => ([], drop 1 (print_path p t))
  | Some i => (take i (drop 1 (print_path p t)), drop (S i) (drop 1 (print_path p t)))
  end = (p, t).
Proof.
  intros Hp Ht. unfold print_path. destruct p as [|c p]; cbn [skipn].
  - by rewrite drop_0, strrchr_free.
  - change (c :: p ++ 47 :: t) with ((c :: p) ++ 47 :: t). rewrite drop_0, strrchr_last, take_app_length by done.
    f_equal. change ((c :: p) ++ 47 :: t) with ((c :: p) ++ [47] ++ t). rewrite app_assoc. apply drop_app_length'. lens.
Qed.

Lemma slash_printed u p t : url_ok u -> path u = Some p -> tail u = Some t ->
  slash_parts (drop 1 (print_path p t) ++ print_rest u) = (Some p, t, query u, fragment u).
Proof.
  intros (_ & _ & _ & _ & (p' & Ep & Hp) & (t' & Et & Ht & Hs) & Hq & Hf) E1 E2. rewrite Ep in E1. rewrite Et in E2. injection E1 as ->. injection E2 as ->.
  set (u0 := drop 1 (print_path p t)).
  assert (Hu : Forall (fun c => c <> 63) u0 /\ Forall (fun c => c <> 35) u0).
  { assert (Hall : Forall (fun c => differs [63; 35] c = true) u0).
    { pose proof (table_all_facts path_table (differs [63; 35]) p ltac:(by vm_compute) Hp) as H1.
      pose proof (table_all_facts path_table (differs [63; 35]) t ltac:(by vm_compute) Ht) as H2.
      unfold u0, print_path. destruct p as [|c p]; cbn [skipn]; rewrite drop_0; [done|]. apply (Forall_app _ (c :: p)). split; [done|]. by constructor. }
    split; (eapply Forall_impl; [exact Hall|]; cbn beta; intros c Hc; eapply differs_ne; [exact Hc|]); repeat constructor. }
  destruct Hu as [Hu63 Hu35]. unfold slash_parts, print_rest, ParseUpTo. pose proof (path_tail p t Hp Hs) as Hpt. fold u0 in Hpt.
  destruct (query u) as [q|], (fragment u) as [f|]; cbn [app].
  - rewrite strchr_app by done. cbv iota beta. rewrite Hpt. rewrite strchr_app; [done|].
    by eapply (all_differ fragment_table [35] 35); [vm_compute|constructor|].
  - rewrite app_nil_r, strchr_app by done. rewrite Hpt. rewrite strchr_none; [done|].
    by eapply (all_differ fragment_table [35] 35); [vm_compute|constructor|].
  - destruct Hf as [_ Hf]. rewrite strchr_none; [|apply Forall_app; split; [done|]; constructor; [done|by apply Hf]].
    rewrite strchr_app by done. by rewrite Hpt.
  - rewrite app_nil_r, !strchr_none by done. by rewrite Hpt.
Qed.

Lemma scan_all table s : all_in table s -> (scan table s).2 = [].
Proof. intros Hs. pose proof (scan_app table s [] Hs I) as E. rewrite app_nil_r in E. by rewrite E. Qed.

Lemma validated_ok u : url_ok u -> validated u = (u, true).
Proof.
  intros (_ & _ & _ & _ & (p & Ep & Hp) & (t & Et & Ht & Hs) & Hq & Hf). unfold validated, ValidateChars. destruct u as [pr ui ho po pa ta qu fr]. cbn in *. subst pa ta.
  rewrite !scan_all by done. assert (Hc : forall (part : option (list Z)), match part with Some s => all_in fragment_table s | None => True end ->
    match part with Some s => if bool_decide ((scan fragment_table s).2 = []) then Some s else None | None => None end = part).
  { intros [s|] H; [|done]. by rewrite scan_all. }
  assert (Hf' : match fr with Some s => all_in fragment_table s | None => True end) by (destruct fr; [apply Hf|done]).
  rewrite (Hc qu Hq), (Hc fr Hf'). cbn. rewrite !bool_decide_eq_true_2 by done. done.
Qed.

(** Everything up to the slash behind the authority. *)
Definition print_authority (u : Ns_URL) : list Z :=
  or_empty (protocol u) ++ bytes "://" ++ match userinfo u with Some i => i ++ [64] | None => [] end
  ++ print_host (or_empty (host u)) ++ match port u with Some p => 58 :: p | None => [] end.

Definition with_parts (u : Ns_URL) (parts : option (list Z) * list Z * option (list Z) * option (list Z)) : Ns_URL :=
  let '(p, t, q, f) := parts in mkUrl (protocol u) (userinfo u) (host u) (port u) p (Some t) q f.

Lemma parse_authority u rest strict : url_ok u -> Ns_ParseUrl (print_authority u ++ 47 :: rest) strict =
  let u := with_parts u (slash_parts rest) in
  if strict then let '(u, ok) := validated u in ((if ok then URL_OK else URL_INVALID_CHARACTER), u) else (URL_OK, u).
Proof.
  intros ((s & Es & Hs) & (h & Eh & Hh) & Hi & Hp & _). unfold Ns_ParseUrl, print_authority, with_parts.
  rewrite Es, Eh. cbn [or_empty]. change (bytes "://") with [58; 47; 47]. rewrite <- !app_assoc. cbn [app]. rewrite scheme_printed by done.
  cbn [peek skipn]. rewrite !drop_0. cbn [Z.eqb Pos.eqb andb peek].
  rewrite userinfo_printed by done. pose proof (host_printed h (port u) rest strict Hh Hp) as Hhp. cbv zeta in Hhp.
  destruct Hhp as (-> & -> & -> & ->). cbn [negb Z.eqb Pos.eqb]. by destruct (slash_parts rest) as [[[? ?] ?] ?].
Qed.

Lemma print_url_parts u : print_url u = print_authority u ++ 47 :: drop 1 (print_path (or_empty (path u)) (or_empty (tail u))) ++ print_rest u.
Proof. unfold print_url, print_authority. rewrite <- !app_assoc. do 5 f_equal. unfold print_path. by destruct (or_empty (path u)). Qed.

Lemma parse_printed u strict : url_ok u -> Ns_ParseUrl (print_url u) strict = (URL_OK, u).
Proof.
  intros Hu. pose proof Hu as (_ & _ & _ & _ & (p & Ep & _) & (t & Et & _) & _).
  rewrite print_url_parts, parse_authority, Ep, Et by done. cbn [or_empty]. rewrite (slash_printed u p t) by done. cbn [with_parts].
  assert (Eu : mkUrl (protocol u) (userinfo u) (host u) (port u) (Some p) (Some t) (query u) (fragment u) = u) by (rewrite <- Ep, <- Et; by destruct u).
  cbv zeta. rewrite Eu. destruct strict; [|done]. by rewrite validated_ok.
Qed.

(** Parsing undoes printing: for every absolute URL with well-formed parts, whatever
    parts it has (user info, a name or an address in brackets, a port, a query, a
    fragment), parsing its text, strictly or not, gives exactly these parts. *)
Theorem ParseUrl_roundtrip u strict : url_ok u -> Ns_ParseUrl (print_url u) strict = (URL_OK, u).
Proof. apply parse_printed. Qed.

(** ** References *)

(** The parts that an absolute URL keeps. *)
Definition bare (u : Ns_URL) : Ns_URL := mkUrl (protocol u) None (host u) (port u) (path u) (tail u) None None.

Lemma AbsoluteUrl_of ref base url : url_ok base -> (Ns_ParseUrl (match ref with [] => [47] | _ => ref end) false).2 = url ->
  Ns_AbsoluteUrl ref (print_url base) =
  (true, print_url (bare (mkUrl (match protocol url with Some p => Some p | None => protocol base end) None
    (match host url with Some h => Some h | None => host base end)
    (match host url with Some _ => port url | None => port base end)
    (match path url with Some p => Some p | None => path base end) (Some (or_empty (tail url))) None None))).
Proof.
  intros Hb <-. unfold Ns_AbsoluteUrl. rewrite (parse_printed base false Hb).
  destruct (Ns_ParseUrl _ false) as [st url]. cbn [snd].
  destruct Hb as ((s & Es & _) & (h & Eh & _) & _ & _ & (p & Ep & _) & _). rewrite Es, Eh, Ep.
  unfold print_url, bare, print_rest, print_location, print_host. cbn [protocol userinfo host port path tail query fragment or_empty app].
  destruct (protocol url), (host url), (path url); cbn [or_empty]; rewrite <- ?app_assoc, ?app_nil_r; done.
Qed.

(** The forms of a reference: a whole URL, a path from the root, or a name next to the base. *)
Inductive reference := Absolute (u : Ns_URL) | Rooted (p t : list Z) | Sibling (t : list Z).

Definition print_ref (r : reference) : list Z :=
  match r with Absolute u => print_url u | Rooted p t => print_path p t | Sibling t => t end.

Definition ref_ok (r : reference) : Prop :=
  match r with
  | Absolute u => url_ok u
  | Rooted p t => all_in path_table p /\ peek p <> 47 /\ all_in path_table t /\ Forall (fun c => c <> 47) t
  | Sibling t => t <> [] /\ all_in path_table t /\ Forall (fun c => c <> 47 /\ c <> 58) t
  end.

Definition resolve (base : Ns_URL) (r : reference) : Ns_URL :=
  match r with
  | Absolute u => bare u
  | Rooted p t => mkUrl (protocol base) None (host base) (port base) (Some p) (Some t) None None
  | Sibling t => mkUrl (protocol base) None (host base) (port base) (path base) (Some t) None None
  end.

Lemma not_in_path c : c = 63 \/ c = 35 -> forall s, all_in path_table s -> Forall (fun x => x <> c) s.
Proof. intros [-> | ->] s Hs; eapply (all_differ path_table [63; 35]); [by vm_compute|repeat constructor|done|by vm_compute|repeat constructor|done]. Qed.

Lemma parse_rooted p t : all_in path_table p -> peek p <> 47 -> all_in path_table t -> Forall (fun c => c <> 47) t ->
  Ns_ParseUrl (print_path p t) false = (URL_OK, mkUrl None None None None (Some p) (Some t) None None).
Proof.
  intros Hp H2 Ht Hs. assert (Hpk : exists rest, print_path p t = 47 :: rest /\ peek rest <> 47).
  { unfold print_path. destruct p as [|c p]; eexists; (split; [reflexivity|]); cbn [peek app] in *; [|done].
    destruct t as [|c t]; [done|]. cbn. by inversion Hs. }
  destruct Hpk as (rest & Er & Hne). assert (Erest : drop 1 (print_path p t) = rest) by (by rewrite Er).
  assert (Hall : all_in path_table rest).
  { rewrite <- Erest. unfold print_path. destruct p as [|c p]; cbn [skipn]; rewrite drop_0; [done|]. apply (Forall_app _ (c :: p)). split; [done|]. by constructor. }
  unfold Ns_ParseUrl. rewrite Er. unfold url_scheme. cbn [in_table alpha_table]. change (in_table alpha_table 47) with false. cbn [bool_decide negb andb peek].
  rewrite bool_decide_eq_true_2 by done. cbn [negb andb Z.eqb Pos.eqb peek skipn]. rewrite drop_0, (proj2 (Z.eqb_neq _ _) Hne). cbn [andb].
  cbn [Z.eqb Pos.eqb]. unfold slash_parts, ParseUpTo. rewrite !strchr_none by (apply not_in_path; auto).
  pose proof (path_tail p t Hp Hs) as Hpt. rewrite Erest in Hpt. by rewrite Hpt.
Qed.

Lemma parse_sibling t : t <> [] -> all_in path_table t -> Forall (fun c => c <> 47 /\ c <> 58) t ->
  Ns_ParseUrl t false = (URL_OK, mkUrl None None None None None (Some t) None None).
Proof.
  intros Hne Hp Ht. assert (Hcol : forall e, Forall (fun c => c <> 47 /\ c <> 58) e -> colon_before_slash e = false).
  { induction 1 as [|c e [H47 H58] _ IH]; [done|]. cbn. by rewrite (proj2 (Z.eqb_neq _ _) H47), (proj2 (Z.eqb_neq _ _) H58). }
  assert (Hscan : forall s, Forall (fun c => c <> 47 /\ c <> 58) s -> Forall (fun c => c <> 47 /\ c <> 58) (scan scheme_table s).2).
  { induction 1 as [|c s Hc Hs IH]; [by constructor|]. cbn. destruct (in_table scheme_table c); [by destruct (scan scheme_table s)|by constructor]. }
  assert (Hsch : url_scheme t = Some (None, t)).
  { unfold url_scheme. destruct t as [|c t]; [done|]. inversion Ht as [|? ? Hc Ht']; subst.
    assert (He : forall (sch e : list Z), Forall (fun c => c <> 47 /\ c <> 58) e ->
      (if negb (bool_decide (sch = [])) && (peek e =? 58) then Some (Some sch, drop 1 e)
       else if negb (peek e =? 47) && negb (peek e =? 63) && negb (peek e =? 35) && negb (bool_decide (e = [])) && colon_before_slash e then None
       else Some (None, c :: t)) = Some (None, c :: t)).
    { intros sch e He. assert (peek e =? 58 = false) as -> by (destruct He as [|x e [_ ?] _]; [done|by apply Z.eqb_neq]).
      by rewrite andb_false_r, (Hcol e He), andb_false_r. }
    destruct (in_table alpha_table c); [|by apply He]. specialize (Hscan t Ht'). destruct (scan scheme_table t) as [p q]. by apply He. }
  unfold Ns_ParseUrl. rewrite Hsch. destruct t as [|c t]; [done|]. inversion Ht as [|? ? [H47 _] _]; subst. inversion Hp as [|? ? Hc _]; subst.
  assert (H2 : c <> 63 /\ c <> 35) by (split; intros ->; by vm_compute in Hc).
  cbn [peek]. rewrite (proj2 (Z.eqb_neq c 47)) by done. cbn [andb]. rewrite (proj2 (Z.eqb_neq c 35)), (proj2 (Z.eqb_neq c 63)) by apply H2.
  unfold tail_parts, ParseUpTo. rewrite !strchr_none by (apply not_in_path; auto). rewrite ?(proj2 (Z.eqb_neq c 47)) by done. done.
Qed.

(** References are resolved against a base URL: a whole URL replaces the base, a path
    from the root replaces its path, and a name replaces its last element; user info,
    queries and fragments are dropped. *)
Theorem AbsoluteUrl_resolves base r : url_ok base -> ref_ok r -> Ns_AbsoluteUrl (print_ref r) (print_url base) = (true, print_url (resolve base r)).
Proof.
  intros Hb Hr. destruct r as [u|p t|t]; cbn [print_ref ref_ok resolve] in *.
  - rewrite (AbsoluteUrl_of _ base u Hb).
    + destruct Hr as ((s & Es & _) & (h & Eh & _) & _ & _ & (p & Ep & _) & (t & Et & _) & _). unfold bare. by rewrite Es, Eh, Ep, Et.
    + pose proof (parse_printed u false Hr) as E. destruct (print_url u) eqn:Eu; [|by rewrite E].
      exfalso. destruct Hr as ((s & Es & _) & _). unfold print_url in Eu. apply (f_equal length) in Eu. revert Eu. rewrite Es. cbn [or_empty].
      change (bytes "://") with [58; 47; 47]. lens.
  - destruct Hr as (Hp & Hpk & Ht & Hs). rewrite (AbsoluteUrl_of _ base _ Hb eq_refl).
    assert (print_path p t <> []) by (unfold print_path; by destruct p). destruct (print_path p t) eqn:E; [done|]. rewrite <- E, parse_rooted by done. done.
  - destruct Hr as (Hne & Hp & Ht). rewrite (AbsoluteUrl_of _ base _ Hb eq_refl). destruct t as [|c t]; [done|]. by rewrite parse_sibling.
Qed.

(** A question mark in a fragment breaks a URL: fragments may have question marks, but
    the query is looked for first, so that the number sign and the text up to the
    question mark become part of the tail, and what follows becomes a query. *)
Theorem fragment_question_mark u t f1 f2 : url_ok u -> tail u = Some t -> query u = None -> fragment u = None ->
  Forall (fun c => c <> 47 /\ c <> 63) f1 -> Forall (fun c => c <> 35) f2 ->
  Ns_ParseUrl (print_url u ++ 35 :: f1 ++ 63 :: f2) false =
  (URL_OK, mkUrl (protocol u) (userinfo u) (host u) (port u) (path u) (Some (t ++ 35 :: f1)) (Some f2) None).
Proof.
  intros Hu Et Eq Ef H1 H2. pose proof Hu as (_ & _ & _ & _ & (p & Ep & Hp) & (t' & Et' & Ht & Hs) & _). rewrite Et in Et'. injection Et' as <-.
  rewrite print_url_parts, Ep, Et. unfold print_rest. rewrite Eq, Ef. cbn [or_empty app]. rewrite app_nil_r, <- app_assoc, <- app_comm_cons.
  rewrite parse_authority by done. cbv zeta.
  assert (Epath : drop 1 (print_path p t) ++ 35 :: f1 = drop 1 (print_path p (t ++ 35 :: f1))).
  { unfold print_path. destruct p as [|c p]; cbn [skipn]; rewrite !drop_0; [done|]. by rewrite app_comm_cons, <- app_assoc. }
  assert (Hsl : Forall (fun c => c <> 47) (t ++ 35 :: f1)).
  { apply Forall_app. split; [done|]. constructor; [done|]. eapply Forall_impl; [exact H1|]. by intros ? [? _]. }
  unfold slash_parts, ParseUpTo. change (35 :: f1 ++ 63 :: f2) with ((35 :: f1) ++ 63 :: f2). rewrite app_assoc, Epath, strchr_app.
  2: { rewrite <- Epath. apply Forall_app. split.
       - apply not_in_path; [auto|]. unfold print_path. destruct p as [|c p]; cbn [skipn]; rewrite drop_0; [done|].
         apply (Forall_app _ (c :: p)). split; [done|]. by constructor.
       - constructor; [done|]. eapply Forall_impl; [exact H1|]. by intros ? [_ ?]. }
  rewrite (path_tail p _ Hp Hsl), strchr_none by done. done.
Qed.

(** ** The theorems at concrete inputs *)

Definition ex_url : Ns_URL :=
  mkUrl (Some (bytes "https")) (Some (bytes "u:p")) (Some (bytes "2001:db8::1")) (Some (bytes "8443")) (Some (bytes "a/b"))
    (Some (bytes "c.html")) (Some (bytes "x=1?y/z")) (Some (bytes "top?")).
Definition ex_base : Ns_URL :=
  mkUrl (Some (bytes "http")) None (Some (bytes "www.foo.com")) None (Some (bytes "d")) (Some (bytes "e")) None None.

Ltac chars := repeat (apply Forall_cons; split; [first [reflexivity|discriminate|split; discriminate]|]); apply Forall_nil; exact I.

Lemma ex_url_ok : url_ok ex_url.
Proof.
  unfold url_ok. split_and!; [eexists; split; [reflexivity|split; [reflexivity|chars]]|..].
  - eexists. split; [reflexivity|]. right. split; [do 4 apply Exists_cons_tl; by apply Exists_cons_hd|chars].
  - chars.
  - split; [discriminate|chars].
  - eexists. split; [reflexivity|chars].
  - eexists. split; [reflexivity|split; chars].
  - chars.
  - split; [chars|discriminate].
Qed.

Lemma ex_base_ok : url_ok ex_base.
Proof.
  unfold url_ok. split_and!; [eexists; split; [reflexivity|split; [reflexivity|chars]]|..]; try exact I.
  - eexists. split; [reflexivity|]. left. split; [chars|discriminate].
  - eexists. split; [reflexivity|chars].
  - eexists. split; [reflexivity|split; chars].
Qed.

Lemma ParseUrl_roundtrip_witness :
  Ns_ParseUrl (bytes "https://u:p@[2001:db8::1]:8443/a/b/c.html?x=1?y/z#top?") true = (URL_OK, ex_url).
Proof. exact (ParseUrl_roundtrip ex_url true ex_url_ok). Defined.

Lemma AbsoluteUrl_resolves_witness :
  Ns_AbsoluteUrl (bytes "f.html") (bytes "http://www.foo.com/d/e") = (true, bytes "http://www.foo.com/d/f.html").
Proof.
  refine (AbsoluteUrl_resolves ex_base (Sibling (bytes "f.html")) ex_base_ok _). split_and!; [discriminate|chars|chars].
Defined.

Lemma fragment_question_mark_witness :
  Ns_ParseUrl (bytes "http://www.foo.com/d/e#a?b") false =
  (URL_OK, mkUrl (Some (bytes "http")) None (Some (bytes "www.foo.com")) None (Some (bytes "d")) (Some (bytes "e#a")) (Some (bytes "b")) None).
Proof.
  refine (fragment_question_mark ex_base (bytes "e") (bytes "a") (bytes "b") ex_base_ok eq_refl eq_refl eq_refl _ _); chars.
Defined.
