(* ===== verification/ReqLine.v ===== *)
(** * ReqLine: the request line (Ns_ParseRequest of nsd/request.c).

    The line is split by storing NULs into a copy; here the parts are cut out of it.  The
    target is broken up by [SetUrl] of Path. *)

From S2P Require Import Prelude Utf8 Str AcceptEncoding Chunked UrlTables UrlEncode Path Url.

Inductive Ns_RequestType := NS_REQUEST_TYPE_PLAIN | NS_REQUEST_TYPE_PROXY | NS_REQUEST_TYPE_CONNECT | NS_REQUEST_TYPE_ASTERISK.

#[export] Instance Ns_RequestType_eq_dec : EqDecision Ns_RequestType.
Proof. solve_decision. Defined.

(** [r_target] has the URL, the query and the segments. *)
Record Ns_Request := mkReq {
  r_line : list Z;
  r_method : list Z;
  r_protocol : option (list Z);
  r_host : option (list Z);
  r_port : Z;
  r_version : double;
  r_type : Ns_RequestType;
  r_target : Path.Request
}.

(** The first bytes of a TLS handshake; [char] is signed. *)
Definition tls_hello (line : list Z) : bool :=
  (nth 0 line 0 =? 22) && (3 <=? nth 1 line 0) && (nth 1 line 0 <? 128) && (nth 2 line 0 =? 1).

(** A word and the rest from the white space behind it on. *)
Fixpoint first_word (l : list Z) : list Z * list Z :=
  match l with
  | c :: rest => if isspace c then ([], l) else let '(w, r) := first_word rest in (c :: w, r)
  | [] => ([], [])
  end.

(** The target and the version, [None] for an error. *)
Definition split_version (url : list Z) : option (list Z * double) :=
  match strrchr 32 url with
  | Some i =>
      let p := drop (S i) url in
      if bool_decide (take 5 p = bytes "HTTP/") then Some (take i url, strtod (drop 5 p)) else None
  | None => if peek url =? 47 then Some (url, lit "0.0") else None
  end.

Fixpoint letters (l : list Z) : list Z * list Z :=
  match l with
  | c :: rest => if islower c || isupper c then let '(w, r) := letters rest in (c :: w, r) else ([], l)
  | [] => ([], [])
  end.

(** What the target says: the type, the protocol, host and port, and the URL. *)
Definition target_parts : Type := Ns_RequestType * option (list Z) * option (list Z) * Z * list Z.

(** Host and port in front of the path, for a target that has them. *)
Definition authority_parts (method : list Z) (type : Ns_RequestType) (proto : option (list Z)) (p : list Z) : option target_parts :=
  let '(h, rest) := strchr 47 p in
  let url := match rest with Some url => url | None => [] end in
  let hp := Ns_HttpParseHost2 h false in
  let port := if hp_ok hp then match hp_port hp with Some ps => (strtol ps 10).1.1 mod 2 ^ 16 | None => 0 end else 0 in
  let hst := if hp_ok hp then host_string hp else None in
  match type with
  | NS_REQUEST_TYPE_PLAIN => if peek url =? 47 then Some (type, proto, hst, port, url) else None
  | NS_REQUEST_TYPE_PROXY => Some (type, proto, hst, port, match url with [] => [47] | _ => url end)
  | NS_REQUEST_TYPE_CONNECT => match url with [] => Some (type, proto, hst, port, [47]) | _ => None end
  | NS_REQUEST_TYPE_ASTERISK => if strcaseeq method (bytes "OPTIONS") then Some (type, proto, hst, port, url) else None
  end.

(** A target that does not start with a slash. *)
Definition other_target (method url : list Z) : option target_parts :=
  let '(sch, p) := letters url in
  let '(type, proto, p) :=
    if peek p =? 58 then
      let p := drop 1 p in
      (NS_REQUEST_TYPE_PROXY, Some sch, if (peek p =? 47) && (peek (drop 1 p) =? 47) then drop 2 p else p)
    else if bool_decide (url = bytes "*") then (NS_REQUEST_TYPE_ASTERISK, None, url)
    else if strcaseeq method (bytes "connect") then (NS_REQUEST_TYPE_CONNECT, None, url)
    else (NS_REQUEST_TYPE_PLAIN, None, url) in
  if negb (bool_decide (p = [])) && negb (peek p =? 47) then authority_parts method type proto p
  else Some (type, proto, None, 0, if bool_decide (type = NS_REQUEST_TYPE_PROXY) then sch else url).

Section request.
Context `{TclEncoding}.

(** [None] is [NS_ERROR]. *)
Definition Ns_ParseRequest (line : list Z) (encoding : option Tcl_Encoding) : outcome (option Ns_Request) :=
  if tls_hello line then Ret None
  else
    let l := Ns_StrTrim (before_nul line) in
    let '(method, rest) := first_word l in
    match Ns_StrTrimLeft rest with
    | [] => Ret None
    | url =>
        match split_version url with
        | None => Ret None
        | Some (url, vers) =>
            match Ns_StrTrimRight url with
            | [] => Ret None
            | url =>
                match (if peek url =? 47 then Some (NS_REQUEST_TYPE_PLAIN, None, None, 0, url) else other_target method url) with
                | None => Ret None
                | Some (type, proto, hst, port, url) =>
                    t ← (if bool_decide (type = NS_REQUEST_TYPE_PLAIN) then plain_target url encoding else SetUrl url encoding);
                    Ret (option_map (mkReq l method proto hst port vers type) t)
                end
            end
        end
    end.

(** What reading a request needs of the line: the trimmed line and the version, [None] for
    [NS_ERROR]. *)
Class RequestParser := parse_request_line : list Z -> option (list Z * double).

#[local] Definition line_and_version (o : outcome (option Ns_Request)) : option (list Z * double) :=
  match o with Ret (Some q) => Some (r_line q, r_version q) | _ => None end.

(** The parser with the encoding of the server for URLs. *)
Definition Ns_ParseRequest_parser (encoding : option Tcl_Encoding) : RequestParser := fun line => line_and_version (Ns_ParseRequest line encoding).
End request.

(** ** Well-formed lines *)

(** Visible characters. *)
Definition visible (l : list Z) : Prop := Forall (fun c => 33 <= c < 127) l.

(** A request line: method, target and version. *)
Definition print_request (method target vers : list Z) : list Z := method ++ 32 :: target ++ 32 :: bytes "HTTP/" ++ vers.

Lemma visible_char c : 33 <= c < 127 -> isspace c = false /\ c <> 0 /\ c <> 32.
Proof. intros Hc. split_and!; [unfold isspace; zcases; lia|lia|lia]. Qed.

Lemma trim_visible l : l <> [] -> (forall c r, l = c :: r -> isspace c = false) -> (forall c r, l = r ++ [c] -> isspace c = false) -> Ns_StrTrim l = l.
Proof.
  intros Hne Hh Hl. unfold Ns_StrTrim, Ns_StrTrimRight. destruct (exists_last Hne) as (r & c & ->).
  rewrite trim_right_app, (Hl c r eq_refl). destruct (r ++ [c]) as [|x s] eqn:E; [done|]. cbn. by rewrite (Hh x s eq_refl).
Qed.

Lemma first_word_visible w rest : visible w -> match rest with c :: _ => isspace c = true | [] => True end -> first_word (w ++ rest) = (w, rest).
Proof.
  intros Hw Hr. induction Hw as [|c w Hc _ IH]; cbn [app first_word].
  - destruct rest as [|c rest]; [done|]. cbn. by rewrite Hr.
  - destruct (visible_char c Hc) as (-> & _). by rewrite IH.
Qed.

Lemma trim_right_visible l : visible l -> Ns_StrTrimRight l = l.
Proof.
  intros Hl. unfold Ns_StrTrimRight. destruct (decide (l = [])) as [->|Hne]; [done|]. destruct (exists_last Hne) as (r & c & ->).
  apply Forall_app in Hl as [_ Hc]. inversion Hc as [|? ? Hc' _]; subst. rewrite trim_right_app. by destruct (visible_char c Hc') as (-> & _).
Qed.

Section lines.
Context `{TclEncoding}.

(** The parts of a well-formed line; what remains is the target. *)
Lemma parse_line method target vers e : method <> [] -> target <> [] -> vers <> [] -> visible method -> visible target -> visible vers ->
  Ns_ParseRequest (print_request method target vers) e =
  match (if peek target =? 47 then Some (NS_REQUEST_TYPE_PLAIN, None, None, 0, target) else other_target method target) with
  | None => Ret None
  | Some (type, proto, hst, port, url) =>
      t ← (if bool_decide (type = NS_REQUEST_TYPE_PLAIN) then plain_target url e else SetUrl url e);
      Ret (option_map (mkReq (print_request method target vers) method proto hst port (strtod vers) type) t)
  end.
Proof.
  intros Hm Ht Hv Vm Vt Vv. set (line := print_request method target vers). unfold Ns_ParseRequest.
  destruct method as [|m0 method']; [done|]. set (method := m0 :: method') in *. assert (Hm0 : 33 <= m0 < 127) by (by inversion Vm).
  assert (tls_hello line = false) as ->.
  { unfold tls_hello, line, print_request, method. cbn [app nth]. by rewrite (proj2 (Z.eqb_neq m0 22)) by lia. }
  assert (Hnz : Forall (fun c => c <> 0) line).
  { assert (Hz : forall l, visible l -> Forall (fun c => c <> 0) l) by (intros l Hl; eapply Forall_impl; [exact Hl|]; cbn; lia).
    unfold line, print_request. apply Forall_app. split; [by apply Hz|]. constructor; [done|]. apply Forall_app. split; [by apply Hz|].
    constructor; [done|]. apply Forall_app. split; [repeat constructor; discriminate|by apply Hz]. }
  rewrite before_nul_id by done.
  assert (Ns_StrTrim line = line) as ->.
  { apply trim_visible; [unfold line, print_request, method; done|..].
    - intros c r E. unfold line, print_request, method in E. injection E as <- _. by apply visible_char.
    - intros c r E. destruct (exists_last Hv) as (v' & c' & ->). unfold line, print_request in E.
      assert (Hc : c' = c) by (rewrite !app_comm_cons, !app_assoc in E; by apply app_inj_tail in E as [_ ->]). subst c'.
      apply Forall_app in Vv as [_ Vc]. inversion Vc; subst. by apply visible_char. }
  unfold line at 1, print_request. rewrite first_word_visible by done. cbn [Ns_StrTrimLeft]. change (isspace 32) with true. cbn iota.
  assert (Etl : Ns_StrTrimLeft (target ++ 32 :: bytes "HTTP/" ++ vers) = target ++ 32 :: bytes "HTTP/" ++ vers).
  { destruct target as [|t0 target']; [done|]. inversion Vt; subst. cbn. by destruct (visible_char t0) as (-> & _). }
  rewrite Etl. assert (Esv : split_version (target ++ 32 :: bytes "HTTP/" ++ vers) = Some (target, strtod vers)).
  { unfold split_version. rewrite strrchr_last.
    2: { apply Forall_app. split; [repeat constructor; discriminate|]. eapply Forall_impl; [exact Vv|]. cbn. lia. }
    change (target ++ 32 :: bytes "HTTP/" ++ vers) with (target ++ [32] ++ bytes "HTTP/" ++ vers).
    rewrite take_app_length, app_assoc, drop_app_length' by lens. rewrite bool_decide_eq_true_2; [|by rewrite take_app_length']. done. }
  assert (Hne : exists c0 r0, target ++ 32 :: bytes "HTTP/" ++ vers = c0 :: r0) by (destruct target; [done|by eexists _, _]).
  destruct Hne as (c0 & r0 & E0). rewrite E0 in Esv |- *. rewrite Esv, trim_right_visible by done.
  destruct target as [|t0 target']; [done|]. fold line. done.
Qed.

(** Request lines are read as they are written: for a method, a target that starts with
    a slash and a version, the line yields exactly these parts, and the target is
    checked, decoded and broken up as an origin-form target. *)
Theorem origin_form_parsed method target vers e : method <> [] -> vers <> [] -> visible method -> visible target -> visible vers -> peek target = 47 ->
  Ns_ParseRequest (print_request method target vers) e =
  t ← plain_target target e;
  Ret (option_map (mkReq (print_request method target vers) method None None 0 (strtod vers) NS_REQUEST_TYPE_PLAIN) t).
Proof.
  intros Hm Hv Vm Vt Vv Hp. rewrite parse_line by (done || by intros ->). by rewrite Hp.
Qed.

(** *** All lines *)

Lemma before_nul_bytes l : is_bytes l -> is_bytes (before_nul l).
Proof. intros Hl. apply Forall_forall. intros c Hc%before_nul_elem. exact (proj1 (Forall_forall _ _) Hl c Hc). Qed.

Lemma trim_bytes l : is_bytes l -> is_bytes (Ns_StrTrimLeft l) /\ is_bytes (Ns_StrTrimRight l).
Proof.
  intros Hl. destruct (trim_left_split l) as (p & E1 & _), (trim_right_split l) as (q & E2 & _). rewrite E1 in Hl at 1. apply Forall_app in Hl as [Hp Hl].
  split; [done|]. assert (Hl' : is_bytes l) by (rewrite E1; by apply Forall_app). rewrite E2 in Hl'. by apply Forall_app in Hl' as [? _].
Qed.

Lemma first_word_bytes l w r : is_bytes l -> first_word l = (w, r) -> is_bytes r.
Proof.
  revert w r. induction l as [|c l IH]; intros w r Hl; cbn; [by intros [= <- <-]|]. destruct (isspace c); [by intros [= <- <-]|].
  destruct (first_word l) as [w' r']. intros [= <- <-]. apply Forall_cons in Hl as [_ Hl]. by apply (IH w').
Qed.

Lemma letters_bytes l w r : is_bytes l -> letters l = (w, r) -> is_bytes w /\ is_bytes r.
Proof.
  revert w r. induction l as [|c l IH]; intros w r Hl; cbn; [by intros [= <- <-]|]. destruct (islower c || isupper c); [|by intros [= <- <-]; split; [constructor|]].
  destruct (letters l) as [w' r']. intros [= <- <-]. apply Forall_cons in Hl as [Hc Hl]. destruct (IH w' r' Hl eq_refl). by split; [constructor|].
Qed.

Lemma split_version_bytes u u' v : is_bytes u -> split_version u = Some (u', v) -> is_bytes u'.
Proof.
  intros Hu. unfold split_version. destruct (strrchr 32 u) as [i|]; case_match; try done; intros [= <- <-]; [by apply Forall_take|done].
Qed.

Lemma other_target_bytes method url type proto hst port u : is_bytes url -> other_target method url = Some (type, proto, hst, port, u) -> is_bytes u.
Proof.
  intros Hu. assert (H47 : is_bytes [47]) by (repeat constructor; done). unfold other_target. destruct (letters url) as [sch p] eqn:El. destruct (letters_bytes _ _ _ Hu El) as [Hs Hp].
  destruct (if peek p =? 58 then _ else _) as [[ty pr] p'] eqn:Ex. assert (is_bytes p') as Hx.
  { destruct (peek p =? 58).
    - injection Ex as _ _ <-. case_match; repeat apply Forall_drop; done.
    - repeat case_match; by injection Ex as _ _ <-. }
  destruct (negb _ && negb _); [|intros [= ? ? ? ? <-]; by destruct (bool_decide (ty = _))]. clear Ex.
  unfold authority_parts. destruct (strchr 47 p') as [h rest] eqn:Er. destruct (strchr_bytes _ _ _ _ Hx Er) as [_ Hr].
  assert (Hrest : is_bytes (match rest with Some url => url | None => [] end)) by (destruct rest; [apply Hr|constructor]).
  set (v := match rest with Some url => url | None => [] end) in *. destruct ty; repeat case_match; try done; by intros [= ? ? ? ? <-].
Qed.

(** The last step of parsing a line, for a target of any form. *)
Lemma target_cases (type : Ns_RequestType) url e : is_bytes url -> exists t, (if bool_decide (type = NS_REQUEST_TYPE_PLAIN) then plain_target url e else SetUrl url e) = Ret t /\
  forall req, t = Some req -> exists names tail, Forall (name (IsSlashInPath true)) names /\ (tail = [] \/ tail = [47]) /\ request_url req = path_of names ++ tail.
Proof.
  intros Hu. assert (Hs : exists t, SetUrl url e = Ret t /\
    forall req, t = Some req -> exists names tail, Forall (name (IsSlashInPath true)) names /\ (tail = [] \/ tail = [47]) /\ request_url req = path_of names ++ tail).
  { destruct (SetUrl_cases url e Hu) as (p & _ & [[_ ->]|(_ & req & tail & -> & Ht & Er)]); [by exists None|]. exists (Some req). split; [done|]. intros ? [= <-].
    eexists _, tail. split; [|by split]. apply resolve_names. constructor. }
  case_bool_decide; [|exact Hs]. unfold plain_target. destruct (PlainRequestTargetContainsBackslashTraversal url); [by exists None|exact Hs].
Qed.

Lemma parse_all_lines line e : is_bytes line -> exists r, Ns_ParseRequest line e = Ret r /\
  forall q, r = Some q -> exists names tail, Forall (name (IsSlashInPath true)) names /\ (tail = [] \/ tail = [47]) /\ request_url (r_target q) = path_of names ++ tail.
Proof.
  intros Hb. unfold Ns_ParseRequest. destruct (tls_hello line); [by exists None|]. apply before_nul_bytes in Hb.
  assert (Hl : is_bytes (Ns_StrTrim (before_nul line))) by (unfold Ns_StrTrim; by apply trim_bytes, trim_bytes).
  destruct (first_word (Ns_StrTrim (before_nul line))) as [method rest] eqn:Ew. pose proof (first_word_bytes _ _ _ Hl Ew) as Hr.
  pose proof (proj1 (trim_bytes _ Hr)) as Ht. destruct (Ns_StrTrimLeft rest) as [|c u]; [by exists None|].
  destruct (split_version (c :: u)) as [[u' vers]|] eqn:Ev; [|by exists None]. pose proof (split_version_bytes _ _ _ Ht Ev) as Hu.
  pose proof (proj2 (trim_bytes _ Hu)) as Hu'. destruct (Ns_StrTrimRight u') as [|d v]; [by exists None|].
  destruct (if peek (d :: v) =? 47 then _ else _) as [[[[[type proto] hst] port] url]|] eqn:Et; [|by exists None].
  assert (Hurl : is_bytes url) by (destruct (peek (d :: v) =? 47); [by injection Et as ? ? ? ? <-|by eapply other_target_bytes]).
  destruct (target_cases type url e Hurl) as (t & -> & H'). cbn [mbind outcome_bind]. eexists. split; [reflexivity|]. intros q Hq. destruct t as [req|]; [|done].
  cbn in Hq. injection Hq as <-. by apply H'.
Qed.

(** C26.  From the request line to the file, for the default mapping of URLs: every line, of any form of the target, is
    parsed without a fault, and when it is accepted and its URL has no backslash, the file is the page root
    followed by proper names, so that it is not outside of the page root.  A line with a method, a
    target that starts with a slash and a version is accepted unless the target has a
    backslash traversal or decodes to nothing, and without a backslash in the decoded path the file is the
    page root followed by the names that a walk through this path reaches. *)
Theorem request_below_pageroot line e srv host : is_bytes line ->
  exists r, Ns_ParseRequest line e = Ret r /\
    (forall q, r = Some q -> 92 ∉ request_url (r_target q) -> exists names, Forall (name ISSLASH) names /\
       Ns_FastUrl2FileProc [] (request_url (r_target q)) srv host = NsPageRoot [] srv host ++ render names) /\
    (forall method target vers, line = print_request method target vers -> method <> [] -> vers <> [] -> visible method -> visible target -> visible vers -> peek target = 47 ->
       exists p, path_decode (strchr 63 target).1 e = Ret p /\ (r = None <-> PlainRequestTargetContainsBackslashTraversal target = true \/ p = []) /\
         forall q, r = Some q -> r_method q = method /\ (92 ∉ p -> Ns_FastUrl2FileProc [] (request_url (r_target q)) srv host =
           NsPageRoot [] srv host ++ render (Path.resolve (IsSlashInPath true) [] (before_nul p)))).
Proof.
  intros Hb. destruct (parse_all_lines line e Hb) as (r & E & Hr). exists r. split; [done|]. split.
  - intros q Eq Hq. destruct (Hr q Eq) as (names & tail & Hn & Ht & Eu). rewrite Eu in *. exists names. apply url_mapped; [done| |done].
    intros Hin. apply Hq, elem_of_app. by left.
  - intros method target vers -> Hm Hv Vm Vt Vv Hp. rewrite origin_form_parsed in E by done.
    assert (Hbt : is_bytes target) by (eapply Forall_impl; [exact Vt|]; unfold is_byte; cbn; lia).
    destruct (SetUrl_cases target e Hbt) as (p & Ep & Hc). exists p. split; [done|]. unfold plain_target in E.
    destruct (PlainRequestTargetContainsBackslashTraversal target); [injection E as <-; split; [split; auto|done]|].
    destruct Hc as [[-> Es]|(Hne & req & tail & Es & Ht & Eu)]; rewrite Es in E; injection E as <-; [by split; [split; auto|]|].
    split; [by split; [|intros [|]]|]. intros q [= <-]. split; [done|]. intros Hnb. cbn [r_target]. rewrite Eu. apply url_mapped; [apply resolve_names; constructor| |done].
    unfold path_of. pose proof (resolve_elem (IsSlashInPath true) 92 (before_nul p) ltac:(by intros ?%before_nul_elem)) as Hre.
    destruct (Path.resolve _ _ _) as [|w ws]; [by apply not_elem_of_cons; split; [|apply not_elem_of_nil]|].
    unfold render. rewrite list_elem_of_join. intros (x & Hx & Hin). apply list_elem_of_fmap in Hin as (v & -> & Hin). rewrite Forall_forall in Hre.
    apply elem_of_cons in Hx as [|Hx]; [done|]. by apply (Hre v Hin).
Qed.

(** The asterisk form is never accepted: "OPTIONS * HTTP/1.1", which asks about the
    server as a whole, is recognised, but its empty path is then taken for invalid
    UTF-8, so that the request is rejected like the same target with another method. *)
Theorem asterisk_form_rejected method vers e : method <> [] -> vers <> [] -> visible method -> visible vers ->
  (e = None \/ e = Some NS_utf8Encoding) -> Ns_ParseRequest (print_request method (bytes "*") vers) e = Ret None.
Proof.
  intros Hm Hv Vm Vv He. assert (Vs : visible (bytes "*")) by (change (bytes "*") with [42]; apply Forall_cons; split; [lia|by apply Forall_nil]).
  rewrite parse_line by done. change (peek (bytes "*") =? 47) with false. cbv iota.
  unfold other_target. change (letters (bytes "*")) with (@nil Z, bytes "*"). cbv iota beta. change (peek (bytes "*") =? 58) with false. cbv iota.
  rewrite (bool_decide_eq_true_2 (bytes "*" = bytes "*")) by done. cbv iota beta. change (negb (bool_decide (bytes "*" = [])) && negb (peek (bytes "*") =? 47)) with true. cbv iota.
  unfold authority_parts. change (strchr 47 (bytes "*")) with (bytes "*", @None (list Z)). cbv iota beta zeta. destruct (strcaseeq method _); [|done].
  rewrite bool_decide_eq_false_2 by done. assert (Hs : SetUrl [] e = Ret None).
  { unfold SetUrl, path_decode, Ns_UrlPathDecode, UrlDecode. cbn [strchr strpbrk]. destruct He as [-> | ->]; [done|].
    rewrite (bool_decide_eq_true_2 (NS_utf8Encoding = NS_utf8Encoding)) by done. done. }
  by rewrite Hs.
Qed.

(** A path segment without characters that mean something. *)
Definition plain_char (c : Z) : Prop := 33 <= c < 127 /\ c <> 37 /\ c <> 43 /\ c <> 47 /\ c <> 63.

Lemma path_decode_plain s e : Forall plain_char s -> (e = None \/ e = Some NS_utf8Encoding) -> path_decode s e = Ret s.
Proof.
  intros Hs He. unfold path_decode, Ns_UrlPathDecode, UrlDecode. pose proof (strpbrk_spec [37; 43] s) as Hp.
  destruct (strpbrk [37; 43] s) as [p q]. destruct Hp as (Es & _ & Hq). destruct q as [|x q].
  - destruct He as [-> | ->]; [done|]. rewrite (bool_decide_eq_true_2 (NS_utf8Encoding = NS_utf8Encoding)) by done. done.
  - exfalso. rewrite Es in Hs. apply Forall_app in Hs as [_ Hs]. inversion Hs as [|? ? Hx _]; subst. unfold plain_char in Hx.
    cbn in Hq. revert Hq. zcases; done || lia.
Qed.

Lemma next_part_plain s : Forall plain_char s -> next_part (IsSlashInPath true) s = (s, []).
Proof.
  induction 1 as [|c s Hc _ IH]; [done|]. cbn [next_part]. unfold IsSlashInPath. unfold plain_char in Hc. rewrite (proj2 (Z.eqb_neq c 47)) by lia.
  unfold IsSlashInPath in IH. by rewrite IH.
Qed.

Lemma SetUrl_no_slash c s e : isalnum c = true -> Forall plain_char (c :: s) -> (e = None \/ e = Some NS_utf8Encoding) ->
  SetUrl (c :: s) e = Ret (Some (Path.mkRequest (47 :: c :: s) None (match s with [] => [] | _ => [s] end))).
Proof.
  intros Hc Hs He. unfold SetUrl. rewrite strchr_none by (eapply Forall_impl; [exact Hs|]; by intros ? (? & ? & ? & ? & ?)).
  rewrite path_decode_plain by done. cbn [mbind outcome_bind].
  rewrite before_nul_id by (eapply Forall_impl; [exact Hs|]; unfold plain_char; lia).
  assert (Hs' : Forall plain_char s) by (by inversion Hs). assert (Hc47 : c <> 47) by (inversion Hs as [|? ? Hx _]; unfold plain_char in Hx; lia).
  assert (En : Ns_NormalizeUrl [] (c :: s) = 47 :: c :: s).
  { unfold Ns_NormalizeUrl, NormalizePath. cbn [skip_slashes]. assert (IsSlashInPath true c = false) as -> by (by apply Z.eqb_neq).
    cbn [norm_loop]. rewrite next_part_plain by done. unfold norm_part.
    assert (c <> 46) by (intros ->; by vm_compute in Hc).
    rewrite bool_decide_eq_false_2 by congruence. rewrite !bool_decide_eq_false_2 by (done || congruence). done. }
  rewrite En. assert (Hsk : skip_slashes (fun c => c =? 47) (c :: s) = c :: s) by (cbn; by rewrite (proj2 (Z.eqb_neq c 47))).
  rewrite Hsk. rewrite bool_decide_eq_false_2.
  2: { intros E. assert (Hl : Forall (fun x => x <> 47) (c :: s)) by (eapply Forall_impl; [exact Hs|]; unfold plain_char; lia).
       apply last_Some in E as [l E]. rewrite E in Hl. apply Forall_app in Hl as [_ Hl]. by inversion Hl. }
  cbn [skipn]. rewrite drop_0. destruct s as [|x s]; [done|]. cbn [length segments_loop].
  rewrite strchr_none by (eapply Forall_impl; [exact Hs'|]; by intros ? (? & ? & ? & ? & ?)). by rewrite path_decode_plain.
Qed.

Lemma letters_word s rest : Forall (fun c => islower c || isupper c = true) s -> match rest with c :: _ => islower c || isupper c = false | [] => True end ->
  letters (s ++ rest) = (s, rest).
Proof.
  intros Hs Hr. induction Hs as [|c s Hc _ IH]; cbn [app letters].
  - destruct rest as [|c rest]; [done|]. cbn. by rewrite Hr.
  - by rewrite Hc, IH.
Qed.

Lemma other_target_proxy method sch rest : Forall (fun c => islower c || isupper c = true) sch -> rest <> [] -> peek rest <> 47 ->
  other_target method (sch ++ 58 :: 47 :: 47 :: rest) = authority_parts method NS_REQUEST_TYPE_PROXY (Some sch) rest.
Proof.
  intros Hs Hne Hp. unfold other_target. rewrite letters_word by done. change (peek (58 :: 47 :: 47 :: rest) =? 58) with true. cbv iota zeta.
  change (drop 1 (58 :: 47 :: 47 :: rest)) with (47 :: 47 :: rest). change ((peek (47 :: 47 :: rest) =? 47) && (peek (drop 1 (47 :: 47 :: rest)) =? 47)) with true.
  cbv iota. change (drop 2 (47 :: 47 :: rest)) with rest. by rewrite bool_decide_eq_false_2, (proj2 (Z.eqb_neq _ _) Hp).
Qed.

(** In the absolute form of a target, as proxies send it, the first segment loses its
    first character: for "http://host/abc" the URL is "/abc", but the list of the
    segments is "bc", since [SetUrl] skips a leading slash that was already removed. *)
Theorem proxy_segment_truncated method sch hst c seg vers e :
  method <> [] -> vers <> [] -> hst <> [] -> visible method -> visible vers -> Forall (fun c => islower c || isupper c = true) sch ->
  visible hst -> Forall (fun x => x <> 47) hst -> isalnum c = true -> Forall plain_char (c :: seg) -> (e = None \/ e = Some NS_utf8Encoding) ->
  exists q, Ns_ParseRequest (print_request method (sch ++ bytes "://" ++ hst ++ 47 :: c :: seg) vers) e = Ret (Some q) /\
    r_type q = NS_REQUEST_TYPE_PROXY /\ request_url (r_target q) = 47 :: c :: seg /\
    request_urlv (r_target q) = match seg with [] => [] | _ => [seg] end.
Proof.
  intros Hm Hv Hh Vm Vv Hsch Vh Hh47 Hc Hseg He. set (target := sch ++ bytes "://" ++ hst ++ 47 :: c :: seg).
  assert (Vt : visible target).
  { unfold target. apply Forall_app. split; [eapply Forall_impl; [exact Hsch|]; intros x; unfold islower, isupper; cbn; zcases; done || lia|].
    change (bytes "://") with [58; 47; 47]. apply Forall_app. split; [repeat (apply Forall_cons; split; [lia|]); by apply Forall_nil|].
    apply Forall_app. split; [done|]. apply Forall_cons. split; [lia|]. eapply Forall_impl; [exact Hseg|]. unfold plain_char. lia. }
  rewrite parse_line; [|done|unfold target; by destruct sch|done|done|done|done].
  assert (Hpk : peek target =? 47 = false).
  { unfold target. destruct sch as [|s0 sch']; [done|]. cbn. inversion Hsch as [|? ? Hs0 _]; subst. apply Z.eqb_neq. intros ->. by vm_compute in Hs0. }
  rewrite Hpk. unfold target at 1. change (bytes "://") with [58; 47; 47]. cbn [app]. rewrite other_target_proxy; [|done|by destruct hst|].
  2: { destruct hst; [done|]. by inversion Hh47. }
  unfold authority_parts. rewrite strchr_app by done. cbv zeta iota beta. rewrite bool_decide_eq_false_2 by done.
  rewrite SetUrl_no_slash by done. cbn [mbind outcome_bind option_map]. eexists. split; [reflexivity|]. done.
Qed.
End lines.

(** ** The theorems at concrete inputs *)

(** Encodings that convert nothing. *)
Definition identity_encoding : TclEncoding := {|
  Tcl_Encoding := unit;
  Tcl_Encoding_eq := unit_eq_dec;
  NS_utf8Encoding := tt;
  Tcl_UtfToExternalDString := fun _ s => s;
  Tcl_ExternalToUtfDString := fun _ s => s;
|}.
#[local] Existing Instance identity_encoding.

Ltac visible_chars := unfold visible, plain_char; apply (bool_decide_unpack _); vm_compute; exact I.

Lemma origin_form_parsed_witness :
  exists q, Ns_ParseRequest (bytes "GET /a%20b?x HTTP/1.1") None = Ret (Some q) /\ r_method q = bytes "GET" /\
    request_url (r_target q) = bytes "/a b" /\ r_version q = lit "1.1".
Proof.
  pose proof (origin_form_parsed (bytes "GET") (bytes "/a%20b?x") (bytes "1.1") None) as E.
  change (bytes "GET /a%20b?x HTTP/1.1") with (print_request (bytes "GET") (bytes "/a%20b?x") (bytes "1.1")).
  rewrite E; [|discriminate|discriminate|visible_chars|visible_chars|visible_chars|reflexivity]. eexists. split; [vm_compute; reflexivity|].
  split_and!; vm_compute; reflexivity.
Defined.

Lemma request_below_pageroot_witness :
  exists q, Ns_ParseRequest (bytes "GET /a/../b%20c/?x=1 HTTP/1.1") None = Ret (Some q) /\ r_method q = bytes "GET" /\
    Ns_FastUrl2FileProc [] (request_url (r_target q)) www None = bytes "/srv/pages/b c".
Proof.
  destruct (request_below_pageroot (bytes "GET /a/../b%20c/?x=1 HTTP/1.1") None www None) as (r & E & _ & H).
  - apply (bool_decide_unpack _). vm_compute. exact I.
  - destruct (H (bytes "GET") (bytes "/a/../b%20c/?x=1") (bytes "1.1")) as (p & Ep & _ & Hq); [reflexivity|discriminate|discriminate|visible_chars|visible_chars|visible_chars|reflexivity|].
    destruct r as [q|]; [|vm_compute in E; discriminate]. exists q. split; [exact E|]. destruct (Hq q eq_refl) as [Hm Hf]. split; [exact Hm|].
    vm_compute in Ep. injection Ep as <-. rewrite Hf; [vm_compute; reflexivity|]. apply (bool_decide_unpack _). vm_compute. exact I.
Defined.

Lemma asterisk_form_rejected_witness : Ns_ParseRequest (bytes "OPTIONS * HTTP/1.1") None = Ret None.
Proof.
  refine (asterisk_form_rejected (bytes "OPTIONS") (bytes "1.1") None _ _ _ _ (or_introl eq_refl)); [discriminate|discriminate|visible_chars|visible_chars].
Defined.

Lemma proxy_segment_truncated_witness :
  exists q, Ns_ParseRequest (bytes "GET http://www.foo.com:80/abc HTTP/1.1") None = Ret (Some q) /\
    r_type q = NS_REQUEST_TYPE_PROXY /\ request_url (r_target q) = bytes "/abc" /\ request_urlv (r_target q) = [bytes "bc"].
Proof.
  refine (proxy_segment_truncated (bytes "GET") (bytes "http") (bytes "www.foo.com:80") 97 (bytes "bc") (bytes "1.1") None
    _ _ _ _ _ _ _ _ _ _ (or_introl eq_refl)); [discriminate|discriminate|discriminate|visible_chars|visible_chars|visible_chars|visible_chars|visible_chars|reflexivity|visible_chars].
Defined.
