(* ===== verification/SockRead.v ===== *)
(** * SockRead: reading requests from a connection (nsd/driver.c, nsd/connio.c).

    [SockRead] receives bytes into the buffer of the request and calls [SockParse],
    which takes header lines off the buffer as they become complete, decides with
    [EndOfHeader] how the body is framed, and reports when the body is there.
    [RequestFree] makes the request ready for the next one on the same connection and
    keeps the bytes that were read behind it.

    Modelled is the driver thread of a driver with spooler threads ([spooler] is 0,
    [spPtr->threads > 0]): a body larger than [readahead] is handed over with
    [SOCK_SPOOL], so that there are no spool files.  Logging, the derivation of the peer
    address and the upload progress do not change what is read. *)

From Stdlib Require Import SpecFloat.
From S2P Require Import Prelude Str AcceptEncoding Chunked NsSet Header ReqLine.

(** ** Connections *)

Definition NS_CONN_ZIPACCEPTED : Z := 0x10000.
Definition NS_CONN_BROTLIACCEPTED : Z := 0x20000.
Definition NS_CONN_CONTINUE : Z := 0x40000.
Definition NS_CONN_ENTITYTOOLARGE : Z := 0x100000.
Definition NS_CONN_REQUESTURITOOLONG : Z := 0x200000.
Definition NS_CONN_LINETOOLONG : Z := 0x400000.

Record Driver := mkDriver { bufsize : Z; maxinput : Z; readahead : Z; maxline : Z; maxheaders : Z }.

(** [continues] counts the replies "100 Continue". *)
Record Sock := mkSock { reqPtr : Request; keep : bool; flags : Z; continues : nat }.

Definition set_req (r : Request) (s : Sock) : Sock := mkSock r (keep s) (flags s) (continues s).
Definition set_keep (k : bool) (s : Sock) : Sock := mkSock (reqPtr s) k (flags s) (continues s).
Definition set_flags (f : Z) (s : Sock) : Sock := mkSock (reqPtr s) (keep s) f (continues s).
Definition raise_flag (f : Z) (s : Sock) : Sock := set_flags (Z.lor (flags s) f) s.
Definition clear_flag (f : Z) (s : Sock) : Sock := set_flags (Z.ldiff (flags s) f) s.

Definition has_flag (f : Z) (s : Sock) : bool := negb (Z.land (flags s) f =? 0).

(** Assignments to the fields of the request. *)
Definition set_buffer (b : list Z) (r : Request) : Request :=
  mkRequest (line r) (version r) (headers r) (content r) (length_ r) (contentLength r) (avail r) (expectedLength r)
    (chunkStartOff r) (chunkWriteOff r) (woff r) (roff r) (coff r) (leftover r) b (savedChar r).
Definition set_line (l : list Z) (v : double) (r : Request) : Request :=
  mkRequest (Some l) v (headers r) (content r) (length_ r) (contentLength r) (avail r) (expectedLength r)
    (chunkStartOff r) (chunkWriteOff r) (woff r) (roff r) (coff r) (leftover r) (buffer r) (savedChar r).
Definition set_headers (hs : list header) (r : Request) : Request :=
  mkRequest (line r) (version r) hs (content r) (length_ r) (contentLength r) (avail r) (expectedLength r)
    (chunkStartOff r) (chunkWriteOff r) (woff r) (roff r) (coff r) (leftover r) (buffer r) (savedChar r).
Definition set_coff (c : Z) (r : Request) : Request :=
  mkRequest (line r) (version r) (headers r) (content r) (length_ r) (contentLength r) (avail r) (expectedLength r)
    (chunkStartOff r) (chunkWriteOff r) (woff r) (roff r) c (leftover r) (buffer r) (savedChar r).
(** [roff += cnt; avail -= cnt] *)
Definition advance (cnt : Z) (r : Request) : Request :=
  mkRequest (line r) (version r) (headers r) (content r) (length_ r) (contentLength r) (avail r - cnt) (expectedLength r)
    (chunkStartOff r) (chunkWriteOff r) (woff r) (roff r + cnt) (coff r) (leftover r) (buffer r) (savedChar r).
(** The fields that describe the body. *)
Definition set_framing (len clen expected start write : Z) (r : Request) : Request :=
  mkRequest (line r) (version r) (headers r) (content r) len clen (avail r) expected
    start write (woff r) (roff r) (coff r) (leftover r) (buffer r) (savedChar r).
Definition set_content (c : option Z) (b : list Z) (saved : Z) (r : Request) : Request :=
  mkRequest (line r) (version r) (headers r) c (length_ r) (contentLength r) (avail r) (expectedLength r)
    (chunkStartOff r) (chunkWriteOff r) (woff r) (roff r) (coff r) (leftover r) b saved.

(** ** The end of the header *)

(** Whether the Expect field asks for "100 Continue". *)
Definition expects_continue (value : option (list Z)) : bool :=
  match value with
  | Some s => bool_decide (take 4 s = bytes "100-") && bool_decide (Ns_StrToLower (drop 4 s) = bytes "continue")
  | None => false
  end.

(** The framing of the body: a state when the request is rejected, else the socket. *)
Definition body_framing (d : Driver) (contentLengthString : option (list Z)) (s : Sock) : SockState * Sock :=
  let r := reqPtr s in
  let reject := (SOCK_BADREQUEST, set_keep false s) in
  match contentLengthString, get_header (headers r) (bytes "transfer-encoding") with
  | Some _, Some _ => reject
  | _, Some te =>
      if ParseRequestTransferEncoding te then
        let framed expected := set_req (set_framing 0 0 expected (roff r) (roff r) r) s in
        match get_header (headers r) (bytes "x-expected-entity-length") with
        | Some e =>
            match ParseStrictContentLength e with
            | Some expected => if 0 <? expected then (SOCK_READY, framed expected) else (SOCK_BADREQUEST, set_keep false (framed 0))
            | None => (SOCK_BADREQUEST, set_keep false (framed 0))
            end
        | None => (SOCK_READY, framed 0)
        end
      else reject
  | Some cl, None =>
      match ParseStrictContentLength cl with
      | Some length =>
          let s := set_req (set_framing length length (expectedLength r) (chunkStartOff r) (chunkWriteOff r) r) s in
          if maxinput d <? length then (SOCK_READY, raise_flag NS_CONN_ENTITYTOOLARGE (set_keep false s)) else (SOCK_READY, s)
      | None => reject
      end
  | None, None => (SOCK_READY, s)
  end.

(** The codings the client accepts, which are ignored for requests of ranges. *)
Definition accepted_codings (s : Sock) : Sock :=
  let r := reqPtr s in
  let s := clear_flag (Z.lor NS_CONN_ZIPACCEPTED NS_CONN_BROTLIACCEPTED) s in
  match get_header (headers r) (bytes "accept-encoding"), get_header (headers r) (bytes "range") with
  | Some v, None =>
      let '(gzipAccept, brotliAccept) := NsParseAcceptEncoding (version r) v in
      let s := if gzipAccept then raise_flag NS_CONN_ZIPACCEPTED s else s in
      if brotliAccept then raise_flag NS_CONN_BROTLIACCEPTED s else s
  | _, _ => s
  end.

(** [extracted] are the fields that [CheckSingletonHeaderFields] has found; the content
    offset is the [coff] of the request. *)
Definition EndOfHeader (d : Driver) (extracted : list (option (list Z))) (s : Sock) : SockState * Sock :=
  let field i := match aget extracted i with Some v => v | None => None end in
  let r := reqPtr s in
  let s := set_req (set_framing (length_ r) (contentLength r) 0 0 0 (set_coff (roff r) r)) s in
  let s := clear_flag NS_CONN_CONTINUE s in
  let s := if expects_continue (field NS_EXTRACTED_HEADER_EXPECT) then raise_flag NS_CONN_CONTINUE s else s in
  let s := clear_flag NS_CONN_ENTITYTOOLARGE s in
  match body_framing d (field NS_EXTRACTED_HEADER_CONTENT_LENGTH) s with
  | (SOCK_READY, s) => (SOCK_READY, accepted_codings s)
  | (st, s) => (st, s)
  end.

(** ** Parsing *)

Inductive step := Done (st : SockState) (s : Sock) | Go (s : Sock).

Section read.
Context `{RequestParser}.

(** The line without the CR in front of its LF. *)
Definition strip_cr (ln : list Z) : list Z :=
  match last ln with Some c => if c =? 13 then take (length ln - 1) ln else ln | None => ln end.

Definition line_too_long (s : Sock) : Sock :=
  set_flags (match line (reqPtr s) with None => NS_CONN_REQUESTURITOOLONG | Some _ => NS_CONN_LINETOOLONG end) (set_keep false s).

(** The empty line behind the header. *)
Definition end_of_headers (d : Driver) (s : Sock) : step :=
  match CheckSingletonHeaderFields (headers (reqPtr s)) with
  | None => Done SOCK_BADREQUEST s
  | Some extracted =>
      match EndOfHeader d extracted s with
      | (SOCK_READY, s) =>
          if has_flag NS_CONN_CONTINUE s then
            if has_flag NS_CONN_ENTITYTOOLARGE s then Done SOCK_ENTITYTOOLARGE s
            else Go (mkSock (reqPtr s) (keep s) (flags s) (S (continues s)))
          else Go s
      | (st, s) => Done st s
      end
  end.

(** The request line or a header line.  The byte behind the line is a NUL meanwhile, and
    stays one when the line is rejected. *)
Definition text_line (d : Driver) (text : list Z) (e : Z) (s : Sock) : option step :=
  let r := reqPtr s in
  b ← aset (buffer r) e 0;
  let rejected st r := Some (Done st (set_req (set_buffer b r) s)) in
  match line r with
  | None =>
      match parse_request_line text with
      | None => rejected SOCK_BADREQUEST r
      | Some (l, v) =>
          let r := set_line l v r in
          Some (Go (set_req (if dlt v (lit "1.0") then set_coff (roff r) r else r) s))
      end
  | Some _ =>
      match parse_header (headers r) (before_nul text) with
      | None => rejected SOCK_BADHEADER r
      | Some hs =>
          let r := set_headers hs r in
          if maxheaders d <? Z.of_nat (length hs) then rejected SOCK_TOOMANYHEADERS r else Some (Go (set_req r s))
      end
  end.

(** The body of the loop over the lines. *)
Definition header_step (d : Driver) (s : Sock) : option step :=
  let r := reqPtr s in
  data ← aslice (buffer r) (roff r) (avail r);
  match strchr 10 data with
  | (_, None) => Some (Done SOCK_MORE s)
  | (ln, Some _) =>
      let s := if maxline d <? Z.of_nat (length ln) then line_too_long s else s in
      let s := set_req (advance (Z.of_nat (length ln) + 1) r) s in
      match strip_cr ln with
      | [] => Some (end_of_headers d s)
      | text => text_line d text (roff r + Z.of_nat (length text)) s
      end
  end.

(** The loop; every round takes a line off the input. *)
Fixpoint header_loop (fuel : nat) (d : Driver) (s : Sock) : option step :=
  match fuel with
  | O => None
  | S fuel =>
      if coff (reqPtr s) =? 0 then
        x ← header_step d s;
        match x with Done st s => Some (Done st s) | Go s => header_loop fuel d s end
      else Some (Go s)
  end.

(** All input is there: the content, and the NUL behind it.  At the end of the buffer the
    byte is the NUL of the [Tcl_DString]. *)
Definition complete (r : Request) : option Request :=
  if 0 <? length_ r then
    let e := coff r + length_ r in
    if e =? Z.of_nat (length (buffer r)) then Some (set_content (Some (coff r)) (buffer r) 0 r)
    else
      c ← aget (buffer r) e;
      b ← aset (buffer r) e 0;
      Some (set_content (Some (coff r)) b c r)
  else Some (set_content (Some (coff r)) (buffer r) (savedChar r) r).

(** The chunks that are there, [None] while more are needed. *)
Definition body_chunks (r : Request) : option (SockState * Request) :=
  if chunkStartOff r =? 0 then Some (SOCK_READY, r)
  else
    '(st, r) ← ChunkedDecode r true;
    let cur := wrap64 (chunkWriteOff r - coff r) in
    let st :=
      match st with
      | SOCK_MORE => if negb (expectedLength r =? 0) && (expectedLength r <=? cur) then SOCK_READY else SOCK_MORE
      | _ => st
      end in
    match st with
    | SOCK_READY => Some (SOCK_READY, set_framing cur (contentLength r) (expectedLength r) (chunkStartOff r) (chunkWriteOff r) r)
    | _ => Some (st, r)
    end.

Definition parse_body (s : Sock) : option (SockState * Sock) :=
  match line (reqPtr s) with
  | None => Some (SOCK_BADREQUEST, s)
  | Some _ =>
      '(st, r) ← body_chunks (reqPtr s);
      match st with
      | SOCK_READY =>
          if avail r <? length_ r then Some (SOCK_MORE, set_req r s)
          else r ← complete r; Some (SOCK_READY, set_req r s)
      | _ => Some (st, set_req r s)
      end
  end.

Definition SockParse (d : Driver) (s : Sock) : option (SockState * Sock) :=
  x ← header_loop (S (Z.to_nat (avail (reqPtr s)))) d s;
  match x with Done st s => Some (st, s) | Go s => parse_body s end.

(** ** Receiving *)

(** The cast to [ssize_t]. *)
Definition ssize (z : Z) : Z := (z + 2 ^ 63) mod 2 ^ 64 - 2 ^ 63.

(** The request with the bytes it had left over as its input. *)
Definition take_leftover (r : Request) : Request :=
  mkRequest (line r) (version r) (headers r) (content r) (length_ r) (contentLength r) (avail r + leftover r) (expectedLength r)
    (chunkStartOff r) (chunkWriteOff r) (woff r + leftover r) (roff r) (coff r) 0 (take (Z.to_nat (leftover r)) (buffer r)) (savedChar r).

(** [got] received at [woff], in a buffer that was grown by [nread]. *)
Definition receive (got : list Z) (nread : Z) (r : Request) : option Request :=
  b ← afill (buffer r ++ replicate (Z.to_nat nread) 0) (woff r) got;
  Some (mkRequest (line r) (version r) (headers r) (content r) (length_ r) (contentLength r)
    (avail r + Z.of_nat (length got)) (expectedLength r) (chunkStartOff r) (chunkWriteOff r)
    (woff r + Z.of_nat (length got)) (roff r) (coff r) (leftover r) (take (length (buffer r) + length got) b) (savedChar r)).

(** The network has the pieces in which the input arrives; a call of [NsDriverRecv] gets
    as much of the first one as was asked for, and nothing ([NS_SOCK_AGAIN]) without one. *)
Definition SockRead (d : Driver) (s : Sock) (net : list (list Z)) : option (SockState * Sock * list (list Z)) :=
  let r := reqPtr s in
  let nread := if length_ r =? 0 then bufsize d else wrap64 (length_ r - avail r) in
  let buflen := Z.of_nat (length (buffer r)) in
  let full := maxinput d <? ssize (buflen + nread) in
  let nread := if full then wrap64 (maxinput d - buflen) else nread in
  if full && (nread =? 0) then Some (SOCK_ERROR, s, net)
  else if (0 <? coff r) && (chunkStartOff r =? 0) && (readahead d <? length_ r) then Some (SOCK_SPOOL, s, net)
  else if 0 <? leftover r then
    '(st, s) ← SockParse d (set_req (take_leftover r) s);
    Some (st, s, net)
  else
    match net with
    | [] => Some (SOCK_MORE, s, [])
    | piece :: net =>
        let got := take (Z.to_nat nread) piece in
        r ← receive got nread r;
        '(st, s) ← SockParse d (set_req r s);
        Some (st, s, match drop (Z.to_nat nread) piece with [] => net | rest => rest :: net end)
    end.

(** A request that is not in use, with what was left over. *)
Definition cleared (b : list Z) : Request :=
  mkRequest None (lit "0") [] None 0 0 0 0 0 0 0 0 0 (Z.of_nat (length b)) b 0.

(** The bytes behind the request are moved to the front of the buffer. *)
Definition RequestFree (s : Sock) : option Sock :=
  let r := reqPtr s in
  if keep s && (contentLength r <? avail r) then
    let leftover := avail r - contentLength r in
    b ← aslice (buffer r) (Z.of_nat (length (buffer r)) - leftover) leftover;
    Some (set_req (cleared (if savedChar r =? 0 then b else <[0%nat := savedChar r]> b)) s)
  else Some (set_req (cleared []) s).

(** [NsSockClose] as far as the request is concerned. *)
Definition NsSockClose (s : Sock) (keep : bool) : option Sock := RequestFree (set_keep keep s).

(** ** Keeping the connection (nsd/connio.c) *)

(** The parts of a connection and its driver that decide whether it is kept. *)
Record Conn := mkConn {
  c_keepwait : Z * Z;
  c_keepmaxuploadsize : Z;
  c_keepmaxdownloadsize : Z;
  c_keep : Z;
  c_line : option (list Z);
  c_version : double;
  c_headers : list header;
  c_contentLength : Z;
  c_responseLength : Z;
  c_chunk : bool;
  c_outputheaders : list header
}.

Definition HdrEq (set : list header) (name value : list Z) : bool :=
  match get_header set name with Some hdrvalue => has_prefix value hdrvalue | None => false end.

Definition CheckKeep (c : Conn) : bool :=
  if negb ((0 <? (c_keepwait c).1) || (0 <? (c_keepwait c).2)) then false
  else if 0 <? c_keep c then true
  else if negb ((c_keep c =? -1) && bool_decide (is_Some (c_line c))) then false
  else if negb (SFeqb (c_version c) (lit "1.0") && HdrEq (c_headers c) (bytes "connection") (bytes "keep-alive")
                || dlt (lit "1.0") (c_version c) && negb (HdrEq (c_headers c) (bytes "connection") (bytes "close"))) then false
  else if (0 <? c_contentLength c) && bool_decide (get_header (c_headers c) (bytes "content-length") = None) then false
  else if (0 <? c_keepmaxuploadsize c) && (c_keepmaxuploadsize c <? c_contentLength c) then false
  else if (0 <? c_keepmaxdownloadsize c) && (0 <? c_responseLength c) && (c_keepmaxdownloadsize c <? c_responseLength c) then false
  else c_chunk c || bool_decide (is_Some (get_header (c_outputheaders c) (bytes "content-length")))
       || HdrEq (c_outputheaders c) (bytes "content-type") (bytes "multipart/byteranges").

(** ** A connection *)

(** The content of the request that is handed over. *)
Definition content_of (r : Request) : option (list Z) := aslice (buffer r) (coff r) (length_ r).

(** What a connection thread gets: the request line, the header fields and the content. *)
Definition request : Type := option (list Z) * list header * option (list Z).
Definition request_of (s : Sock) : request := (line (reqPtr s), headers (reqPtr s), content_of (reqPtr s)).

(** The requests read from a connection, with the state in which reading ends: [SOCK_MORE] is
    the end of the input, [SOCK_CLOSE] the end of a connection that is not kept.  [keep] is what is decided behind
    each request, an arbitrary decision, as it depends on the response ([CheckKeep]); [n] counts the requests. *)
Fixpoint serve (fuel : nat) (d : Driver) (keep : nat -> bool) (n : nat) (s : Sock) (net : list (list Z)) : option (list request * SockState) :=
  match fuel with
  | O => None
  | S fuel =>
      if (leftover (reqPtr s) =? 0) && bool_decide (net = []) then Some ([], SOCK_MORE)
      else
        '(st, s, net) ← SockRead d s net;
        match st with
        | SOCK_MORE => serve fuel d keep n s net
        | SOCK_READY =>
            s' ← NsSockClose s (keep n);
            if keep n then
              '(qs, st) ← serve fuel d keep (S n) s' net;
              Some (request_of s :: qs, st)
            else Some ([request_of s], SOCK_CLOSE)
        | _ => Some ([], st)
        end
  end.
End read.
