(* ===== verification/Pipeline.v ===== *)
(** * Pipeline: the theorems on reading requests (nsd/driver.c).

    Reading does not depend on the pieces in which the input arrives, requests that are
    sent one behind the other are read as these requests, and what the code does with
    the rest of a chunked request. *)

From S2P Require Import Prelude Str AcceptEncoding Chunked NsSet Header ReqLine SockRead.

#[local] Hint Rewrite length_CRLF : lens.

(** ** Accesses in a longer buffer *)

Lemma aget_grow {A} (a t : list A) i x : aget a i = Some x -> aget (a ++ t) i = Some x.
Proof. unfold aget. destruct (i <? 0); [done|]. apply lookup_app_l_Some. Qed.

Lemma aset_grow {A} (a t : list A) i x a' : aset a i x = Some a' -> aset (a ++ t) i x = Some (a' ++ t).
Proof.
  unfold aset. destruct (Z.leb_spec 0 i); [|done]. destruct (Z.ltb_spec i (Z.of_nat (length a))); [|done]. intros [= <-].
  cbn [andb]. rewrite (proj2 (Z.ltb_lt _ _)) by lens. f_equal. apply insert_app_l. lia.
Qed.

Lemma aslice_grow {A} (a t : list A) i k l : aslice a i k = Some l -> aslice (a ++ t) i k = Some l.
Proof.
  unfold aslice. destruct (Z.leb_spec 0 i); [|done]. destruct (Z.leb_spec 0 k); [|done]. cbn [andb].
  destruct (Z.leb_spec (i + k) (Z.of_nat (length a))); [|done]. intros [= <-].
  rewrite (proj2 (Z.leb_le _ _)) by lens. by rewrite drop_app_le, take_app_le by lens.
Qed.

Lemma afill_grow {A} (a t : list A) i l a' : afill a i l = Some a' -> afill (a ++ t) i l = Some (a' ++ t).
Proof.
  unfold afill. destruct (Z.leb_spec 0 i); [|done]. cbn [andb].
  destruct (Z.leb_spec (i + Z.of_nat (length l)) (Z.of_nat (length a))); [|done]. intros [= <-].
  rewrite (proj2 (Z.leb_le _ _)) by lens. by rewrite take_app_le, drop_app_le, <- !app_assoc by lens.
Qed.

(** ** Chunks and more input *)

Lemma write_chunk_grow u ds n r r' t : write_chunk u ds n r = Some r' -> write_chunk u ds n (arrive t r) = Some (arrive t r').
Proof.
  unfold write_chunk. destruct u; [|by intros [= <-]]. destruct (aslice (buffer r) ds n) as [d|] eqn:Es; [|done]. cbn [mbind option_bind].
  destruct (afill _ _ d) as [b|] eqn:Ef; [|done]. cbn [mbind option_bind]. destruct (aset _ _ _) as [b'|] eqn:Ea; [|done]. intros [= <-].
  cbn [arrive buffer chunkWriteOff chunkStartOff]. rewrite (aslice_grow _ t _ _ _ Es). cbn [mbind option_bind].
  rewrite (afill_grow _ t _ _ _ Ef). cbn [mbind option_bind]. by rewrite (aset_grow _ t _ _ _ Ea).
Qed.

(** A round with more input: one that goes on, completes or fails is the same, and one
    that waits has changed nothing. *)
Definition grows (t : list Z) (x y : option round) : Prop :=
  match x with
  | Some (Next r') => y = Some (Next (arrive t r'))
  | Some (Stop SOCK_MORE _) => True
  | Some (Stop st r') => y = Some (Stop st (arrive t r'))
  | None => True
  end.

Lemma last_chunk_grow ds r t : 0 <= ds <= Z.of_nat (length (buffer r)) -> grows t (last_chunk ds r) (last_chunk ds (arrive t r)).
Proof.
  intros Hds. unfold last_chunk. cbn [arrive buffer chunkWriteOff].
  rewrite drop_app_le by lia.
  destruct (Z.leb_spec (ds + 2) (Z.of_nat (length (buffer r)))) as [Hl|Hl].
  - rewrite (proj2 (Z.leb_le _ _)) by lens. destruct (aget (buffer r) ds) as [c0|] eqn:E0; [|done]. cbn [mbind option_bind].
    destruct (aget (buffer r) (ds + 1)) as [c1|] eqn:E1; [|done]. cbn [mbind option_bind].
    rewrite (aget_grow _ t _ _ E0), (aget_grow _ t _ _ E1). cbn [mbind option_bind]. destruct (_ && _); [done|].
    destruct (upto _ (drop _ (buffer r))) as [u|] eqn:Eu; [|done]. by rewrite (upto_grows _ _ _ t) with (2 := Eu) by done.
  - destruct (upto _ (drop _ (buffer r))) as [u|] eqn:Eu; [|done]. apply upto_split in Eu as [v Ev].
    apply (f_equal length) in Ev. revert Ev. lens.
Qed.

Lemma chunk_round_grow u r t : 0 <= chunkStartOff r < Z.of_nat (length (buffer r)) -> expectedLength r = 0 ->
  grows t (chunk_round u r) (chunk_round u (arrive t r)) /\ (forall r', chunk_round u r = Some (Stop SOCK_MORE r') -> r' = r).
Proof.
  intros Hs He. unfold chunk_round. cbn [arrive buffer chunkStartOff expectedLength chunkWriteOff coff]. rewrite drop_app_le by lia.
  destruct (upto CRLF (drop _ (buffer r))) as [ln|] eqn:Eu; [|by split; [|intros ? [= <-]]].
  rewrite (upto_grows _ _ _ t) with (2 := Eu) by done. destruct (upto_split _ _ _ Eu) as [v Ev].
  destruct (chunk_size ln) as [n|] eqn:Hn; [|done]. pose proof (chunk_size_nonneg _ _ Hn).
  apply (f_equal length) in Ev. rewrite length_drop, length_app in Ev. set (ds := chunkStartOff r + Z.of_nat (length ln) + 2).
  assert (Hds : 0 <= ds <= Z.of_nat (length (buffer r))) by (unfold ds; revert Ev; lens). rewrite He. cbn [negb Z.eqb andb].
  destruct (Z.ltb_spec (Z.of_nat (length (buffer r)) - ds) n); [by split; [|intros ? [= <-]]|].
  destruct (Z.ltb_spec (Z.of_nat (length (buffer r ++ t)) - ds) n); [lens|].
  destruct (n =? 0); [split; [by apply last_chunk_grow|]|].
  { intros r'. unfold last_chunk. destruct (_ <=? _).
    - destruct (aget _ ds); [|done]. cbn [mbind option_bind]. destruct (aget _ (ds + 1)); [|done]. cbn [mbind option_bind].
      destruct (_ && _); [done|]. destruct (upto (_ ++ _) _); [done|]. by intros [= <-].
    - destruct (upto (_ ++ _) _); [done|]. by intros [= <-]. }
  destruct (Z.ltb_spec (Z.of_nat (length (buffer r)) - (ds + n)) 2); [by split; [|intros ? [= <-]]|].
  destruct (Z.ltb_spec (Z.of_nat (length (buffer r ++ t)) - (ds + n)) 2); [lens|].
  destruct (aget (buffer r) (ds + n)) as [c0|] eqn:E0; [|done]. cbn [mbind option_bind].
  destruct (aget (buffer r) (ds + n + 1)) as [c1|] eqn:E1; [|done]. cbn [mbind option_bind].
  rewrite (aget_grow _ t _ _ E0), (aget_grow _ t _ _ E1). cbn [mbind option_bind]. destruct (_ || _); [done|].
  destruct (write_chunk u ds n r) as [r1|] eqn:Ew; [|done]. rewrite (write_chunk_grow _ _ _ _ _ t Ew). done.
Qed.

Lemma decode_rounds_mono u fuel fuel' r x : decode_rounds fuel u r = Some x -> (fuel <= fuel')%nat -> decode_rounds fuel' u r = Some x.
Proof.
  revert fuel' r. induction fuel as [|fuel IH]; intros fuel' r E Hle; [done|]. destruct fuel' as [|fuel']; [lia|]. cbn [decode_rounds] in *.
  destruct (_ <? _); [|done]. destruct (chunk_round u r) as [[st r'|r']|]; [done| |done]. cbn [mbind option_bind] in *. apply IH; [done|lia].
Qed.

(** A round that goes on keeps the form of the buffer. *)
Lemma chunk_round_next r pre dec s r' : Holds r pre dec s -> chunk_round true r = Some (Next r') ->
  (exists dec' s', Holds r' pre dec' s') /\ same_rest r r'.
Proof.
  intros HH E. destruct (chunk_round_spec _ _ _ _ HH) as (x & Ex & Hx). rewrite E in Ex. injection Ex as <-.
  destruct (next_chunk s) as [| |rest|d rest|d]; [done..|by destruct Hx as (? & ? & _)| |].
  - destruct Hx as (? & [= <-] & ? & ?). eauto.
  - destruct (_ && _); [by destruct Hx as (? & ? & _)|done].
Qed.

Lemma holds_start r pre dec s : Holds r pre dec s -> 0 <= chunkStartOff r.
Proof. intros (gap & _ & _ & _ & -> & _). lia. Qed.

Lemma decode_rounds_grow t fuel : forall r pre dec s st r1, Holds r pre dec s -> expectedLength r = 0 ->
  decode_rounds fuel true r = Some (st, r1) ->
  if decide (st = SOCK_MORE)
  then forall f2 x, decode_rounds f2 true (arrive t r1) = Some x -> decode_rounds (fuel + f2) true (arrive t r) = Some x
  else decode_rounds fuel true (arrive t r) = Some (st, arrive t r1).
Proof.
  induction fuel as [|fuel IH]; intros r pre dec s st r1 HH He; cbn [decode_rounds]; [done|].
  destruct (Z.ltb_spec (chunkStartOff r) (Z.of_nat (length (buffer r)))) as [Hlt|Hge].
  - pose proof (holds_start _ _ _ _ HH). destruct (chunk_round_grow true r t) as [Hg Hm]; [lia|done|].
    assert (Hlt' : (chunkStartOff (arrive t r) <? Z.of_nat (length (buffer (arrive t r)))) = true) by (cbn [arrive chunkStartOff buffer]; apply Z.ltb_lt; lens).
    destruct (chunk_round true r) as [[st' r'|r']|] eqn:Ec; [..|done]; cbn [mbind option_bind]; cbn [grows] in Hg.
    + intros [= -> ->]. destruct (decide (st = SOCK_MORE)) as [->|Hne].
      * rewrite (Hm _ eq_refl). intros f2 x Hx. eapply decode_rounds_mono; [exact Hx|lia].
      * rewrite Hlt'. destruct st; try done; rewrite Hg; done.
    + intros E. destruct (chunk_round_next _ _ _ _ _ HH Ec) as [(dec' & s' & HH') [Hr _]].
      specialize (IH r' pre dec' s' st r1 HH' ltac:(by rewrite Hr) E). destruct (decide (st = SOCK_MORE)) as [->|].
      * intros f2 x Hx. cbn [plus decode_rounds]. rewrite Hlt', Hg. cbn [mbind option_bind]. by apply IH.
      * rewrite Hlt', Hg. done.
  - intros [= <- <-]. rewrite decide_True by done. intros f2 x Hx. eapply decode_rounds_mono; [exact Hx|lia].
Qed.

(** [ChunkedDecode] ends, and with more input it does the same or goes on. *)
Lemma ChunkedDecode_total r pre dec s : Holds r pre dec s ->
  exists st r' dec' s', ChunkedDecode r true = Some (st, r') /\ same_rest r r' /\ Holds r' pre dec' s'.
Proof.
  intros HH. pose proof (decode_rounds_spec (S (length (buffer r))) _ _ _ _ HH) as Hd.
  destruct (dechunk _ _ _ s) as [[st d] rest]. destruct Hd as (r' & E & Hr & HH').
  - destruct HH as (gap & -> & _). lens.
  - by exists st, r', (dec ++ d), rest.
Qed.

Lemma ChunkedDecode_grow t r pre dec s st r1 : Holds r pre dec s -> expectedLength r = 0 -> Z.of_nat (length (buffer r ++ t)) < 2 ^ 63 ->
  ChunkedDecode r true = Some (st, r1) ->
  ChunkedDecode (arrive t r) true = if decide (st = SOCK_MORE) then ChunkedDecode (arrive t r1) true else Some (st, arrive t r1).
Proof.
  intros HH He Hl E. pose proof (decode_rounds_grow t _ _ _ _ _ _ _ HH He E) as Hg.
  destruct (ChunkedDecode_total _ _ _ _ (holds_arrive _ _ _ _ t HH Hl)) as (st' & r' & _ & _ & E' & _). rewrite E'.
  destruct (decide (st = SOCK_MORE)) as [->|Hne].
  - destruct (ChunkedDecode_total _ _ _ _ HH) as (st2 & r2 & dec' & s' & E2 & [_ Hlen] & HH2). rewrite E in E2. injection E2 as <- <-.
    destruct (ChunkedDecode_total _ _ _ _ (holds_arrive _ _ _ _ t HH2 ltac:(revert Hl Hlen; lens))) as (st3 & r3 & _ & _ & E3 & _).
    rewrite E3. specialize (Hg _ _ E3). unfold ChunkedDecode in E'.
    rewrite (decode_rounds_mono _ _ (S (length (buffer r)) + S (length (buffer (arrive t r1)))) _ _ E') in Hg; [done|].
    cbn [arrive buffer]. lens.
  - unfold ChunkedDecode in E'. rewrite (decode_rounds_mono _ _ (S (length (buffer (arrive t r)))) _ _ Hg) in E'; [by injection E' as <- <-|].
    cbn [arrive buffer]. lens.
Qed.

(** ** The header and more input *)

Definition sarrive (t : list Z) (s : Sock) : Sock := set_req (arrive t (reqPtr s)) s.

Definition grow_step (t : list Z) (x : step) : step :=
  match x with Done st s => Done st (sarrive t s) | Go s => Go (sarrive t s) end.

(** All offsets are those of the buffer. *)
Definition offsets_ok (r : Request) : Prop :=
  0 <= avail r /\ roff r + avail r = Z.of_nat (length (buffer r)) /\ woff r = Z.of_nat (length (buffer r)) /\
  Z.of_nat (length (buffer r)) < 2 ^ 63 /\ leftover r = 0.

(** The request while its header is read, and while its body is read. *)
Definition in_header (r : Request) : Prop :=
  offsets_ok r /\ coff r = 0 /\ 0 <= roff r /\ chunkStartOff r = 0 /\ length_ r = 0 /\ expectedLength r = 0.

Definition in_body (r : Request) : Prop :=
  offsets_ok r /\ 0 < coff r /\ coff r = roff r /\ 0 <= length_ r /\ (chunkStartOff r = 0 \/ exists pre dec s, Holds r pre dec s).

Definition reading (r : Request) : Prop := in_header r \/ in_body r.

Lemma body_framing_grow d cl s t : body_framing d cl (sarrive t s) = ((body_framing d cl s).1, sarrive t (body_framing d cl s).2).
Proof.
  unfold body_framing. cbn [sarrive set_req reqPtr arrive headers].
  destruct cl as [cl|], (get_header _ (bytes "transfer-encoding")) as [te|]; try done.
  - destruct (ParseStrictContentLength cl); [|done]. by destruct (_ <? _).
  - destruct (ParseRequestTransferEncoding te); [|done]. destruct (get_header _ _) as [e|]; [|done].
    destruct (ParseStrictContentLength e); [|done]. by destruct (_ <? _).
Qed.

Lemma accepted_codings_grow s t : accepted_codings (sarrive t s) = sarrive t (accepted_codings s).
Proof.
  unfold accepted_codings. cbn [sarrive set_req reqPtr arrive headers version clear_flag set_flags].
  destruct (get_header _ _); [|done]. destruct (get_header _ _); [done|]. destruct (NsParseAcceptEncoding _ _) as [[] []]; done.
Qed.

Lemma EndOfHeader_grow d ex s t : EndOfHeader d ex (sarrive t s) = ((EndOfHeader d ex s).1, sarrive t (EndOfHeader d ex s).2).
Proof.
  unfold EndOfHeader. cbn zeta. set (cl := match aget ex NS_EXTRACTED_HEADER_CONTENT_LENGTH with Some v => v | None => None end).
  set (e := expects_continue _). set (s1 := clear_flag NS_CONN_ENTITYTOOLARGE _). set (s2 := clear_flag NS_CONN_ENTITYTOOLARGE _).
  assert (s1 = sarrive t s2) as -> by (unfold s1, s2; by destruct e). rewrite body_framing_grow.
  destruct (body_framing d cl s2) as [[] s']; cbn [fst snd]; try done. by rewrite accepted_codings_grow.
Qed.

Lemma end_of_headers_grow d s t : end_of_headers d (sarrive t s) = grow_step t (end_of_headers d s).
Proof.
  unfold end_of_headers. cbn [sarrive set_req reqPtr arrive headers]. destruct (CheckSingletonHeaderFields _) as [ex|]; [|done].
  fold (arrive t (reqPtr s)). fold (set_req (arrive t (reqPtr s)) s). fold (sarrive t s). rewrite EndOfHeader_grow.
  destruct (EndOfHeader d ex s) as [[] s']; cbn [fst snd grow_step]; try done.
  assert (Hf : forall f, has_flag f (sarrive t s') = has_flag f s') by done. rewrite !Hf.
  destruct (has_flag NS_CONN_CONTINUE s'); [|done]. by destruct (has_flag NS_CONN_ENTITYTOOLARGE s').
Qed.

Section parse.
Context `{RequestParser}.

Lemma text_line_grow d text e s t x : text_line d text e s = Some x -> text_line d text e (sarrive t s) = Some (grow_step t x).
Proof.
  unfold text_line. cbn [sarrive set_req reqPtr arrive buffer line headers]. destruct (aset (buffer (reqPtr s)) e 0) as [b|] eqn:Ea; [|done].
  cbn [mbind option_bind]. rewrite (aset_grow _ t _ _ _ Ea). cbn [mbind option_bind]. destruct (line (reqPtr s)).
  - destruct (parse_header _ _); [|by intros [= <-]]. destruct (_ <? _); by intros [= <-].
  - destruct (parse_request_line text) as [[l v]|]; [|by intros [= <-]]. destruct (dlt _ _); by intros [= <-].
Qed.

Lemma strchr_grow c l t p q : strchr c l = (p, Some q) -> strchr c (l ++ t) = (p, Some (q ++ t)).
Proof.
  revert p q. induction l as [|x l IH]; intros p q; cbn [strchr app]; [done|]. destruct (x =? c); [by intros [= <- <-]|].
  destruct (strchr c l) as [p' [q'|]]; [|done]. intros [= <- <-]. by rewrite (IH p' q').
Qed.

(** The unread bytes of a request whose offsets are right. *)
Lemma unread r : offsets_ok r -> 0 <= roff r -> aslice (buffer r) (roff r) (avail r) = Some (drop (Z.to_nat (roff r)) (buffer r)).
Proof.
  intros (Ha & Hr & _) H0. unfold aslice. rewrite !(proj2 (Z.leb_le _ _)) by lia. cbn [andb]. f_equal. apply take_ge. lens.
Qed.

Lemma arrive_offsets t r : offsets_ok r -> Z.of_nat (length (buffer r ++ t)) < 2 ^ 63 -> offsets_ok (arrive t r).
Proof. intros (? & ? & ? & ? & ?) Hl. unfold offsets_ok. cbn. split_and!; try lens; done. Qed.

Lemma advance_arrive n t r : advance n (arrive t r) = arrive t (advance n r).
Proof. unfold advance, arrive. cbn. f_equal. lia. Qed.

(** The socket after taking a line off the input. *)
Definition taken (d : Driver) (ln : list Z) (s : Sock) : Sock :=
  set_req (advance (Z.of_nat (length ln) + 1) (reqPtr s)) (if maxline d <? Z.of_nat (length ln) then line_too_long s else s).

Lemma taken_grow d ln s t : taken d ln (sarrive t s) = sarrive t (taken d ln s).
Proof. unfold taken. destruct (_ <? _); cbn [sarrive set_req reqPtr]; by rewrite advance_arrive. Qed.

(** What a step does, by the line at the front of the input. *)
Definition take_line (d : Driver) (ln : list Z) (s : Sock) : option step :=
  match strip_cr ln with
  | [] => Some (end_of_headers d (taken d ln s))
  | text => text_line d text (roff (reqPtr s) + Z.of_nat (length text)) (taken d ln s)
  end.

Lemma header_step_line d s : in_header (reqPtr s) ->
  header_step d s = match strchr 10 (drop (Z.to_nat (roff (reqPtr s))) (buffer (reqPtr s))) with
                    | (_, None) => Some (Done SOCK_MORE s)
                    | (ln, Some _) => take_line d ln s
                    end.
Proof. intros (Ho & _ & Hr & _). unfold header_step. rewrite (unread _ Ho Hr). done. Qed.

Lemma take_line_grow d ln s t x : take_line d ln s = Some x -> take_line d ln (sarrive t s) = Some (grow_step t x).
Proof.
  unfold take_line. rewrite taken_grow. destruct (strip_cr ln); [intros [= <-]; by rewrite end_of_headers_grow|]. apply text_line_grow.
Qed.

Lemma arrive_header t r : in_header r -> Z.of_nat (length (buffer r ++ t)) < 2 ^ 63 -> in_header (arrive t r).
Proof. intros (Ho & ?) Hl. split; [by apply arrive_offsets|done]. Qed.

(** A line of the header is treated the same whatever follows it. *)
Lemma header_step_grow d s t x : in_header (reqPtr s) -> Z.of_nat (length (buffer (reqPtr s) ++ t)) < 2 ^ 63 ->
  header_step d s = Some x -> x = Done SOCK_MORE s \/ header_step d (sarrive t s) = Some (grow_step t x).
Proof.
  intros Hh Hl. rewrite (header_step_line _ _ Hh), (header_step_line d (sarrive t s)) by (by apply arrive_header).
  cbn [sarrive set_req reqPtr arrive roff buffer]. destruct Hh as ((? & ? & _) & _ & ? & _). rewrite drop_app_le by lia.
  destruct (strchr 10 (drop _ (buffer (reqPtr s)))) as [ln [q|]] eqn:E; [|intros [= <-]; by left].
  rewrite (strchr_grow _ _ t _ _ E). intros Hx. right. by apply take_line_grow.
Qed.

(** ** The steps stay within the buffer *)

Lemma length_digits_nonneg p v n q : 0 <= v -> length_digits p v = Some (n, q) -> 0 <= n.
Proof.
  revert v. induction p as [|c p IH]; intros v Hv; cbn [length_digits]; [by intros [= <- _]|].
  destruct (isdigit c) eqn:E; [|by intros [= <- _]]. destruct (_ <? _); [done|]. apply isdigit_range in E. apply IH. lia.
Qed.

Lemma ParseStrictContentLength_nonneg s n : ParseStrictContentLength s = Some n -> 0 <= n.
Proof.
  unfold ParseStrictContentLength. destruct (Ns_StrTrimLeft s) as [|c p]; [done|].
  destruct (length_digits (c :: p) 0) as [[v q]|] eqn:E; [|done]. apply length_digits_nonneg in E; [|done].
  destruct (Ns_StrTrimLeft q); [by intros [= <-]|done].
Qed.

(** The request after a line was taken off. *)
Definition behind_line (r : Request) : Prop := offsets_ok r /\ coff r = 0 /\ 0 < roff r /\ chunkStartOff r = 0 /\ length_ r = 0 /\ expectedLength r = 0.

Lemma EndOfHeader_body d ex s s' : behind_line (reqPtr s) -> EndOfHeader d ex s = (SOCK_READY, s') ->
  in_body (reqPtr s') /\ buffer (reqPtr s') = buffer (reqPtr s) /\ avail (reqPtr s') = avail (reqPtr s) /\ line (reqPtr s') = line (reqPtr s).
Proof.
  intros (Ho & Hc & Hr & Hs & Hl & _). unfold EndOfHeader. cbn zeta. set (cl := match aget ex _ with Some v => v | None => None end).
  set (e := expects_continue _). set (r1 := set_framing (length_ (reqPtr s)) (contentLength (reqPtr s)) 0 0 0 (set_coff (roff (reqPtr s)) (reqPtr s))).
  set (s1 := clear_flag NS_CONN_ENTITYTOOLARGE _). assert (Er : reqPtr s1 = r1) by (unfold s1; by destruct e). clearbody s1.
  assert (Hcod : forall u, reqPtr (accepted_codings u) = reqPtr u).
  { intros u. unfold accepted_codings. destruct (get_header _ _); [|done]. destruct (get_header _ _); [done|]. by destruct (NsParseAcceptEncoding _ _) as [[] []]. }
  assert (Hcl : forall len, 0 <= len -> in_body (set_framing len len (expectedLength r1) (chunkStartOff r1) (chunkWriteOff r1) r1)).
  { intros len ?. split_and!; [exact Ho|exact Hr|done|done|by left]. }
  assert (Hch : forall x, in_body (set_framing 0 0 x (roff r1) (roff r1) r1)).
  { intros x. split_and!; [exact Ho|exact Hr|done|done|right]. destruct Ho as (? & Hb & _ & Hm & _).
    exists (take (Z.to_nat (roff r1)) (buffer r1)), [], (drop (Z.to_nat (roff r1)) (buffer r1)), [].
    unfold r1 in *. cbn in *. rewrite take_drop, !app_nil_r. split_and!; [done|lens..|done]. }
  destruct (body_framing d cl s1) as [st u] eqn:E. unfold body_framing in E. rewrite !Er in E.
  assert (Hu : st = SOCK_READY -> in_body (reqPtr u) /\ buffer (reqPtr u) = buffer (reqPtr s) /\ avail (reqPtr u) = avail (reqPtr s) /\ line (reqPtr u) = line (reqPtr s)).
  { intros ->. destruct cl as [cl|], (get_header _ (bytes "transfer-encoding")) as [te|]; [done|..].
    - destruct (ParseStrictContentLength cl) as [n|] eqn:En; [|done]. apply ParseStrictContentLength_nonneg in En.
      destruct (_ <? _); injection E as <-; (split; [by apply Hcl|done]).
    - destruct (ParseRequestTransferEncoding te); [|done]. destruct (get_header _ _) as [x|]; [|injection E as <-; (split; [by apply Hch|done])].
      destruct (ParseStrictContentLength x) as [n|]; [|done]. destruct (_ <? _); [|done]. injection E as <-; (split; [by apply Hch|done]).
    - injection E as <-. rewrite Er. split; [|done]. split_and!; [exact Ho|exact Hr|done| |by left]. cbn. lia. }
  destruct st; try done. intros [= <-]. rewrite Hcod. by apply Hu.
Qed.

Lemma EndOfHeader_states d ex s st s' : EndOfHeader d ex s = (st, s') -> st = SOCK_READY \/ st = SOCK_BADREQUEST.
Proof.
  unfold EndOfHeader. cbn zeta. destruct (body_framing _ _ _) as [st' u] eqn:E.
  assert (Hst : st' = SOCK_READY \/ st' = SOCK_BADREQUEST).
  { unfold body_framing in E. repeat case_match; simplify_eq; auto. }
  destruct Hst as [-> | ->]; intros [= <- _]; auto.
Qed.

(** What a step leaves for the next one. *)
Definition goes_on (s : Sock) (x : step) : Prop :=
  match x with
  | Go s' => reading (reqPtr s') /\ avail (reqPtr s') < avail (reqPtr s) /\ buffer (reqPtr s') = buffer (reqPtr s)
  | Done st _ => st <> SOCK_MORE /\ st <> SOCK_READY
  end.

Lemma taken_behind d ln s : in_header (reqPtr s) -> Z.of_nat (length ln) < avail (reqPtr s) ->
  behind_line (reqPtr (taken d ln s)) /\ avail (reqPtr (taken d ln s)) < avail (reqPtr s) /\ buffer (reqPtr (taken d ln s)) = buffer (reqPtr s).
Proof.
  intros ((? & ? & ? & ? & ?) & ? & ? & ? & ? & ?) Hl. unfold behind_line, offsets_ok. cbn. split_and!; try done; lia.
Qed.

Lemma end_of_headers_ok d s0 s : behind_line (reqPtr s) -> avail (reqPtr s) < avail (reqPtr s0) -> buffer (reqPtr s) = buffer (reqPtr s0) ->
  goes_on s0 (end_of_headers d s).
Proof.
  intros Hb Ha Eb. unfold end_of_headers. destruct (CheckSingletonHeaderFields _) as [ex|]; [|done].
  destruct (EndOfHeader d ex s) as [st s'] eqn:E. destruct (EndOfHeader_states _ _ _ _ _ E) as [-> | ->]; [|done].
  destruct (EndOfHeader_body _ _ _ _ Hb E) as (Hin & Hbuf & Hav & _).
  assert (reading (reqPtr s') /\ avail (reqPtr s') < avail (reqPtr s0) /\ buffer (reqPtr s') = buffer (reqPtr s0)).
  { split_and!; [by right|lia|congruence]. }
  destruct (has_flag _ _); [|done]. by destruct (has_flag _ _).
Qed.

Lemma behind_header r : behind_line r -> in_header r.
Proof. intros (? & ? & ? & ? & ? & ?). split_and!; [done..|lia|done|done|done]. Qed.

Lemma text_line_ok d text e s0 s : behind_line (reqPtr s) -> avail (reqPtr s) < avail (reqPtr s0) -> buffer (reqPtr s) = buffer (reqPtr s0) ->
  0 <= e < Z.of_nat (length (buffer (reqPtr s))) -> exists x, text_line d text e s = Some x /\ goes_on s0 x.
Proof.
  intros Hb Ha Eb He. unfold text_line. unfold aset. rewrite (proj2 (Z.leb_le _ _)), (proj2 (Z.ltb_lt _ _)) by lia. cbn [andb mbind option_bind].
  pose proof Hb as (Ho & Hc & Hr & Hcs & Hl & _). destruct (line (reqPtr s)).
  - destruct (parse_header _ _) as [hs|]; [|by eexists]. destruct (_ <? _); [by eexists|]. eexists. split; [done|].
    split_and!; [left; by apply behind_header|done|done].
  - destruct (parse_request_line text) as [[l v]|]; [|by eexists]. eexists. split; [done|]. cbn [goes_on set_req reqPtr].
    destruct (dlt _ _); (split_and!; [|done|done]); [right|left; by apply behind_header].
    split_and!; [done|done|done|cbn; lia|by left].
Qed.

Lemma strip_cr_length ln : (length (strip_cr ln) <= length ln)%nat.
Proof. unfold strip_cr. destruct (last ln) as [c|]; [|done]. destruct (c =? 13); lens. Qed.

Lemma take_line_ok d ln s : in_header (reqPtr s) -> Z.of_nat (length ln) < avail (reqPtr s) ->
  exists x, take_line d ln s = Some x /\ goes_on s x.
Proof.
  intros Hh Hl. destruct (taken_behind d ln s Hh Hl) as (Hb & Ha & Eb). unfold take_line. pose proof (strip_cr_length ln).
  destruct (strip_cr ln) as [|c l]; [eexists; split; [done|]; by apply end_of_headers_ok|].
  apply text_line_ok; [done..|]. rewrite Eb. destruct Hh as ((? & ? & _) & _ & ? & _). lia.
Qed.

Lemma header_step_ok d s : in_header (reqPtr s) -> exists x, header_step d s = Some x /\ (x = Done SOCK_MORE s \/ goes_on s x).
Proof.
  intros Hh. rewrite (header_step_line _ _ Hh). destruct (strchr 10 _) as [ln [q|]] eqn:E; [|eauto].
  apply strchr_split in E as [E _]. destruct (take_line_ok d ln s Hh) as (x & -> & Hx); [|eauto].
  apply (f_equal length) in E. destruct Hh as ((? & ? & _) & _ & ? & _). revert E. lens.
Qed.

(** ** The header as a whole *)

Lemma header_loop_mono d fuel fuel' s x : header_loop fuel d s = Some x -> (fuel <= fuel')%nat -> header_loop fuel' d s = Some x.
Proof.
  revert fuel' s. induction fuel as [|fuel IH]; intros fuel' s E Hle; [done|]. destruct fuel' as [|fuel']; [lia|]. cbn [header_loop] in *.
  destruct (_ =? 0); [|done]. destruct (header_step d s) as [[st s'|s']|]; [done| |done]. cbn [mbind option_bind] in *. apply IH; [done|lia].
Qed.

Lemma header_loop_det d f f' s x x' : header_loop f d s = Some x -> header_loop f' d s = Some x' -> x = x'.
Proof. intros H1 H2. apply (header_loop_mono _ _ (f + f')) in H1, H2; [congruence|lia..]. Qed.

(** The loop ends: waiting in the header, rejecting the request, or in the body. *)
Lemma line_loop_ok d fuel : forall s, reading (reqPtr s) -> avail (reqPtr s) < Z.of_nat fuel ->
  exists x, header_loop fuel d s = Some x /\
  match x with
  | Done st s' => st <> SOCK_READY /\ (st = SOCK_MORE -> in_header (reqPtr s') /\ buffer (reqPtr s') = buffer (reqPtr s))
  | Go s' => in_body (reqPtr s') /\ buffer (reqPtr s') = buffer (reqPtr s)
  end.
Proof.
  induction fuel as [|fuel IH]; intros s Hr Hf.
  { exfalso. destruct Hr as [((? & _) & _)|((? & _) & _)]; lia. }
  cbn [header_loop]. destruct Hr as [Hh|Hb].
  - pose proof Hh as (_ & -> & _). cbn [Z.eqb]. destruct (header_step_ok d s Hh) as (x & -> & Hx). cbn [mbind option_bind].
    destruct Hx as [->|Hx]; [by eexists|]. destruct x as [st s'|s']; cbn [goes_on] in Hx; [destruct Hx; eexists; split; [done|]; split; done|].
    destruct Hx as (Hr & Ha & Eb). destruct (IH s' Hr ltac:(lia)) as (x & -> & Hx). exists x. split; [done|]. by rewrite <- Eb.
  - destruct (Z.eqb_spec (coff (reqPtr s)) 0); [destruct Hb as (_ & ? & _); lia|]. by eexists.
Qed.

Lemma header_loop_grow d t fuel : forall s x, reading (reqPtr s) -> Z.of_nat (length (buffer (reqPtr s) ++ t)) < 2 ^ 63 ->
  header_loop fuel d s = Some x ->
  (exists s', x = Done SOCK_MORE s' /\ forall f2 y, header_loop f2 d (sarrive t s') = Some y -> header_loop (fuel + f2) d (sarrive t s) = Some y) \/
  (forall s', x <> Done SOCK_MORE s') /\ header_loop fuel d (sarrive t s) = Some (grow_step t x).
Proof.
  induction fuel as [|fuel IH]; intros s x Hr Hl; cbn [header_loop]; [done|]. cbn [sarrive set_req reqPtr arrive coff].
  fold (arrive t (reqPtr s)). fold (set_req (arrive t (reqPtr s)) s). fold (sarrive t s).
  destruct (Z.eqb_spec (coff (reqPtr s)) 0) as [E0|]; [|intros [= <-]; right; done].
  destruct Hr as [Hh|Hb]; [|destruct Hb as (_ & ? & _); lia].
  destruct (header_step_ok d s Hh) as (y & Ey & Hy). rewrite Ey. cbn [mbind option_bind].
  destruct (header_step_grow d s t y Hh Hl Ey) as [->|Eg].
  - intros [= <-]. left. exists s. split; [done|]. intros f2 y Hy2. exact (header_loop_mono d f2 (S fuel + f2) _ _ Hy2 ltac:(lia)).
  - rewrite Eg. destruct y as [st s'|s']; cbn [mbind option_bind grow_step].
    { destruct Hy as [[= -> ->]|Hne]; intros [= <-]; [|right; split; [|done]; intros ? [= -> _]; by destruct Hne].
      left. exists s. split; [done|]. intros f2 y Hy2. exact (header_loop_mono d f2 (S fuel + f2) _ _ Hy2 ltac:(lia)). }
    destruct Hy as [?|(Hr & _ & Eb)]; [done|]. intros E. rewrite <- Eb in Hl. destruct (IH s' x Hr Hl E) as [(s2 & -> & Hm)|Hg]; [|by right].
    left. exists s2. split; [done|]. intros f2 z Hz. cbn [plus header_loop]. cbn [sarrive set_req reqPtr arrive coff].
    rewrite (proj2 (Z.eqb_eq _ _) E0). fold (arrive t (reqPtr s)). fold (set_req (arrive t (reqPtr s)) s). fold (sarrive t s).
    rewrite Eg. cbn [mbind option_bind grow_step]. by apply Hm.
Qed.

Definition read_header (d : Driver) (s : Sock) : option step := header_loop (S (Z.to_nat (avail (reqPtr s)))) d s.

Lemma header_ok d s : reading (reqPtr s) -> exists x, read_header d s = Some x /\
  match x with
  | Done st s' => st <> SOCK_READY /\ (st = SOCK_MORE -> in_header (reqPtr s') /\ buffer (reqPtr s') = buffer (reqPtr s))
  | Go s' => in_body (reqPtr s') /\ buffer (reqPtr s') = buffer (reqPtr s)
  end.
Proof. intros Hr. apply line_loop_ok; [done|]. lia. Qed.

Lemma arrive_reading t r : reading r -> Z.of_nat (length (buffer r ++ t)) < 2 ^ 63 -> reading (arrive t r).
Proof.
  intros [Hh|(Ho & ? & ? & ? & Hc)] Hl; [left; by apply arrive_header|right]. split_and!; [by apply arrive_offsets|done..|].
  destruct Hc as [?|(pre & dec & s & HH)]; [by left|right]. exists pre, dec, (s ++ t). by apply holds_arrive.
Qed.

Lemma header_grow d s t x : reading (reqPtr s) -> Z.of_nat (length (buffer (reqPtr s) ++ t)) < 2 ^ 63 -> read_header d s = Some x ->
  read_header d (sarrive t s) = match x with Done SOCK_MORE s' => read_header d (sarrive t s') | _ => Some (grow_step t x) end.
Proof.
  intros Hr Hl E. destruct (header_ok d (sarrive t s)) as (y & Ey & _); [by apply arrive_reading|].
  destruct (header_ok d s Hr) as (x' & Ex' & Hx). rewrite E in Ex'. injection Ex' as <-.
  destruct (header_loop_grow d t _ s x Hr Hl E) as [(s' & -> & Hm)|Hg].
  - destruct Hx as [_ Hx]. destruct (Hx eq_refl) as [Hh Eb]. rewrite <- Eb in Hl. destruct (header_ok d (sarrive t s')) as (z & Ez & _); [apply arrive_reading; [by left|done]|].
    rewrite Ey, Ez. f_equal. eapply header_loop_det; [exact Ey|]. exact (Hm _ _ Ez).
  - destruct Hg as [Hne Hg]. rewrite Ey. replace y with (grow_step t x) by (eapply header_loop_det; [exact Hg|exact Ey]).
    destruct x as [[] s'|s']; try done. by destruct (Hne s').
Qed.

(** ** The body *)

Lemma complete_ok r : offsets_ok r -> coff r = roff r -> 0 < coff r -> 0 <= length_ r <= avail r -> is_Some (complete r).
Proof.
  intros (? & Hb & _) Hc Hp Hl. unfold complete. destruct (Z.ltb_spec 0 (length_ r)); [|by eexists].
  destruct (Z.eqb_spec (coff r + length_ r) (Z.of_nat (length (buffer r)))); [by eexists|].
  assert (Hr : 0 <= coff r + length_ r < Z.of_nat (length (buffer r))) by lia.
  destruct (lookup_lt_is_Some_2 (buffer r) (Z.to_nat (coff r + length_ r))) as [c Ec]; [lia|].
  unfold aget, aset. rewrite (proj2 (Z.ltb_ge _ 0)), (proj2 (Z.leb_le _ _)), (proj2 (Z.ltb_lt _ _)), Ec by lia. by eexists.
Qed.

(** Decoding chunks keeps the request in its body. *)
Lemma decoded_in_body r r' pre dec s : in_body r -> same_rest r r' -> Holds r' pre dec s -> in_body r'.
Proof.
  intros ((Ha & Hb & Hw & Hm & Hs) & Hc & Hr & Hl & _) [E El] HH. rewrite <- El in *.
  replace (avail r) with (avail r') in * by (by rewrite E). replace (roff r) with (roff r') in * by (by rewrite E).
  replace (coff r) with (coff r') in * by (by rewrite E). replace (woff r) with (woff r') in * by (by rewrite E).
  replace (length_ r) with (length_ r') in * by (by rewrite E). replace (leftover r) with (leftover r') in * by (by rewrite E).
  split_and!; [done..|]. right. eauto.
Qed.

Lemma holds_decoded r pre dec s : Holds r pre dec s -> wrap64 (chunkWriteOff r - coff r) = Z.of_nat (length dec) /\
  coff r + Z.of_nat (length dec) <= Z.of_nat (length (buffer r)).
Proof.
  intros (gap & Hb & -> & -> & _ & Hl). replace (Z.of_nat (length (pre ++ dec)) - Z.of_nat (length pre)) with (Z.of_nat (length dec)) by lens.
  rewrite Hb in *. split; [apply wrap64_id; revert Hl; lens|lens].
Qed.

(** The chunks of a body; the decoded data is never longer than the input. *)
Lemma body_chunks_ok r : in_body r -> exists st r', body_chunks r = Some (st, r') /\ in_body r' /\ expectedLength r' = expectedLength r /\ length (buffer r') = length (buffer r) /\
  line r' = line r /\ (st = SOCK_READY -> r' = r \/ length_ r' <= avail r').
Proof.
  intros Hin. unfold body_chunks. destruct (Z.eqb_spec (chunkStartOff r) 0) as [|Hne].
  { exists SOCK_READY, r. split_and!; auto. }
  pose proof Hin as (_ & _ & _ & _ & [?|(pre & dec & s & HH)]); [done|].
  destruct (ChunkedDecode_total _ _ _ _ HH) as (st & r' & dec' & s' & -> & Hsr & HH'). cbn [mbind option_bind].
  pose proof (decoded_in_body _ _ _ _ _ Hin Hsr HH') as Hin'. destruct (holds_decoded _ _ _ _ HH') as [-> Hle].
  assert (Hx : expectedLength r' = expectedLength r) by (by destruct Hsr as [-> _]).
  assert (Hline : line r' = line r) by (by destruct Hsr as [-> _]). destruct Hsr as [_ Hlen].
  assert (Hrd : in_body (set_framing (Z.of_nat (length dec')) (contentLength r') (expectedLength r') (chunkStartOff r') (chunkWriteOff r') r')).
  { destruct Hin' as (Ho & ? & ? & ? & ?). split_and!; [exact Ho|done|done|cbn; lia|right]. by exists pre, dec', s'. }
  assert (Hav : Z.of_nat (length dec') <= avail r') by (destruct Hin' as ((? & ? & _) & _ & ? & _); lia).
  destruct st; cbv zeta iota; try (eexists _, r'; by split_and!); try (eexists _, _; split_and!; [done..|by right]).
  destruct (_ && _); (eexists _, _; split_and!; [done..|]); [by right|done].
Qed.

Lemma parse_body_ok s : in_body (reqPtr s) -> exists st s', parse_body s = Some (st, s') /\ (st = SOCK_MORE -> in_body (reqPtr s')) /\
  expectedLength (reqPtr s') = expectedLength (reqPtr s) /\ length (buffer (reqPtr s')) = length (buffer (reqPtr s)).
Proof.
  intros Hin. unfold parse_body. destruct (line (reqPtr s)); [|eexists _, s; done].
  destruct (body_chunks_ok _ Hin) as (st & r & -> & Hr & He & Hlen & _). cbn [mbind option_bind].
  destruct st; try (eexists _, _; split; [done|done]).
  destruct (Z.ltb_spec (avail r) (length_ r)); [eexists _, _; done|]. pose proof Hr as (Ho & ? & ? & ? & _).
  destruct (complete_ok r) as [r' Er]; [done|done|done|lia|]. rewrite Er. cbn [mbind option_bind]. eexists _, _. split; [done|].
  split; [done|]. cbn [set_req reqPtr]. rewrite <- He, <- Hlen. unfold complete in Er. destruct (0 <? length_ r); [|by injection Er as <-].
  destruct (_ =? _); [by injection Er as <-|]. destruct (aget _ _); [|done]. cbn [mbind option_bind] in Er.
  destruct (aset _ _ _) as [b|] eqn:Eb; [|done]. injection Er as <-. split; [done|]. cbn. unfold aset in Eb.
  destruct (_ && _); [|done]. injection Eb as <-. apply length_insert.
Qed.

(** A request that is complete, with more input behind it. *)
Definition settled (t : list Z) (s1 s2 : Sock) : Prop :=
  exists r0, in_body r0 /\ complete r0 = Some (reqPtr s1) /\ complete (arrive t r0) = Some (reqPtr s2) /\ s2 = set_req (reqPtr s2) s1.

Lemma body_chunks_grow r t st r1 : in_body r -> Z.of_nat (length (buffer r ++ t)) < 2 ^ 63 -> expectedLength r = 0 ->
  body_chunks r = Some (st, r1) -> body_chunks (arrive t r) = if decide (st = SOCK_MORE) then body_chunks (arrive t r1) else Some (st, arrive t r1).
Proof.
  intros Hin Hl He. unfold body_chunks at 1 2. cbn [arrive chunkStartOff]. fold (arrive t r).
  destruct (Z.eqb_spec (chunkStartOff r) 0) as [|Hne]; [intros [= <- <-]; done|].
  pose proof Hin as (_ & _ & _ & _ & [?|(pre & dec & s & HH)]); [done|].
  destruct (ChunkedDecode_total _ _ _ _ HH) as (st' & r' & dec' & s' & E & Hsr & HH'). rewrite E. cbn [mbind option_bind].
  rewrite (ChunkedDecode_grow t _ _ _ _ _ _ HH He Hl E).
  assert (Hx : expectedLength r' = 0) by (by destruct Hsr as [-> _]). rewrite Hx. cbn [negb Z.eqb andb].
  destruct (decide (st' = SOCK_MORE)) as [->|Hm].
  - intros [= <- <-]. rewrite decide_True by done. unfold body_chunks. cbn [arrive chunkStartOff]. fold (arrive t r').
    destruct (Z.eqb_spec (chunkStartOff r') 0) as [H0|]; [|done]. exfalso.
    destruct HH' as (gap & _ & Hc & _ & Hs & _). destruct Hin as (_ & Hc0 & _). destruct Hsr as [Hsr _].
    assert (coff r' = coff r) by (by rewrite Hsr). revert Hs. lens.
  - cbn [mbind option_bind]. assert (Est : match st' with SOCK_MORE => SOCK_MORE | _ => st' end = st') by (by destruct st').
    cbn [arrive expectedLength]. rewrite Hx. cbn [negb Z.eqb andb]. rewrite Est. intros Eq.
    destruct st'; try done; injection Eq as <- <-; by rewrite decide_False.
Qed.

Lemma parse_body_grow s t st s1 : in_body (reqPtr s) -> Z.of_nat (length (buffer (reqPtr s) ++ t)) < 2 ^ 63 ->
  expectedLength (reqPtr s) = 0 -> parse_body s = Some (st, s1) ->
  match st with
  | SOCK_MORE => parse_body (sarrive t s) = parse_body (sarrive t s1)
  | SOCK_READY => exists s2, parse_body (sarrive t s) = Some (SOCK_READY, s2) /\ settled t s1 s2
  | _ => parse_body (sarrive t s) = Some (st, sarrive t s1)
  end.
Proof.
  intros Hin Hl He. unfold parse_body at 1. destruct (line (reqPtr s)) as [l|] eqn:El.
  2: { intros [= <- <-]. unfold parse_body. cbn [sarrive set_req reqPtr arrive line]. by rewrite El. }
  destruct (body_chunks_ok _ Hin) as (st' & r & E & Hr & _ & Hlen & Hline & Hlong). rewrite E. cbn [mbind option_bind].
  pose proof (body_chunks_grow _ t _ _ Hin Hl He E) as Hg.
  assert (Hp : parse_body (sarrive t s) = match body_chunks (arrive t (reqPtr s)) with
    | Some (SOCK_READY, r) => if avail r <? length_ r then Some (SOCK_MORE, set_req r (sarrive t s))
        else r ← complete r; Some (SOCK_READY, set_req r (sarrive t s))
    | Some (st, r) => Some (st, set_req r (sarrive t s)) | None => None end).
  { unfold parse_body. cbn [sarrive set_req reqPtr arrive line]. rewrite El. fold (arrive t (reqPtr s)).
    by destruct (body_chunks _) as [[[] ?]|]. }
  rewrite Hg in Hp. destruct (decide (st' = SOCK_MORE)) as [->|Hne].
  { intros [= <- <-]. rewrite Hp. unfold parse_body. cbn [sarrive set_req reqPtr arrive line]. rewrite Hline, El. fold (arrive t r).
    by destruct (body_chunks _) as [[[] ?]|]. }
  destruct st'; try done; try (intros [= <- <-]; exact Hp). cbn [arrive avail length_] in Hp.
  destruct (Z.ltb_spec (avail r) (length_ r)) as [Hlt|Hge].
  - destruct (Hlong eq_refl) as [->|]; [|lia]. intros [= <- <-]. by destruct s.
  - pose proof Hr as (Ho & ? & ? & ? & _). destruct (complete_ok r) as [r1 Er]; [done|done|done|lia|]. rewrite Er. intros [= <- <-].
    destruct (Z.ltb_spec (avail r + Z.of_nat (length t)) (length_ r)); [lia|].
    destruct (complete_ok (arrive t r)) as [r2 Er2]; [apply arrive_offsets; [done|revert Hl; lens]|done|done|cbn; lia|].
    rewrite Er2 in Hp. eexists. split; [exact Hp|]. by exists r.
Qed.

(** ** Requests and more input *)

Lemma SockParse_ok d s : reading (reqPtr s) -> exists st s', SockParse d s = Some (st, s') /\
  (st = SOCK_MORE -> reading (reqPtr s') /\ length (buffer (reqPtr s')) = length (buffer (reqPtr s))).
Proof.
  intros Hr. unfold SockParse. destruct (header_ok d s Hr) as (x & E & Hx). unfold read_header in E. rewrite E. cbn [mbind option_bind].
  destruct x as [st s'|s'].
  - exists st, s'. split; [done|]. intros ->. destruct (proj2 Hx eq_refl) as [? ->]. split; [by left|done].
  - destruct Hx as [Hin Eb]. destruct (parse_body_ok s' Hin) as (st & s2 & -> & Hm & _ & Hl). exists st, s2. split; [done|].
    intros ->. split; [right; by apply Hm|]. by rewrite Hl, Eb.
Qed.

(** Parsing with more input: what waited goes on from where it waited, and what was
    decided stays decided. *)
Lemma SockParse_grow d s t st s1 : reading (reqPtr s) -> Z.of_nat (length (buffer (reqPtr s) ++ t)) < 2 ^ 63 ->
  SockParse d s = Some (st, s1) -> expectedLength (reqPtr s1) = 0 ->
  match st with
  | SOCK_MORE => SockParse d (sarrive t s) = SockParse d (sarrive t s1)
  | SOCK_READY => exists s2, SockParse d (sarrive t s) = Some (SOCK_READY, s2) /\ settled t s1 s2
  | _ => SockParse d (sarrive t s) = Some (st, sarrive t s1)
  end.
Proof.
  intros Hr Hl. destruct (header_ok d s Hr) as (x & E & Hx). pose proof (header_grow d s t x Hr Hl E) as Hg.
  assert (Hp : forall u, SockParse d u = x ← read_header d u; match x with Done st s => Some (st, s) | Go s => parse_body s end) by done.
  rewrite (Hp s), (Hp (sarrive t s)), E, Hg. cbn [mbind option_bind]. destruct x as [st' s'|s'].
  - intros [= -> ->] _. by destruct st; try done; destruct Hx.
  - destruct Hx as [Hin Eb]. cbn [grow_step mbind option_bind]. intros Eb2 He. rewrite <- Eb in Hl.
    destruct (parse_body_ok s' Hin) as (st2 & s2 & E2 & Hm & Hex & Hlen). rewrite Eb2 in E2. injection E2 as <- <-.
    pose proof (parse_body_grow s' t st s1 Hin Hl ltac:(congruence) Eb2) as Hgb.
    destruct st; try done. rewrite Hgb, Hp.
    specialize (Hm eq_refl). unfold read_header. cbn [header_loop]. cbn [sarrive set_req reqPtr arrive coff].
    destruct (Z.eqb_spec (coff (reqPtr s1)) 0); [destruct Hm as (_ & ? & _); lia|]. done.
Qed.

(** ** Any pieces *)

(** Parsing after every piece, until the request is complete or rejected. *)
Fixpoint read_pieces (d : Driver) (pieces : list (list Z)) (s : Sock) : option (SockState * list (list Z) * Sock) :=
  match pieces with
  | [] => Some (SOCK_MORE, [], s)
  | t :: pieces =>
      '(st, s) ← SockParse d (sarrive t s);
      match st with SOCK_MORE => read_pieces d pieces s | _ => Some (st, pieces, s) end
  end.

Lemma sarrive_app t u s : sarrive u (sarrive t s) = sarrive (t ++ u) s.
Proof.
  unfold sarrive, arrive. cbn. rewrite length_app, Nat2Z.inj_add, !Z.add_assoc, <- app_assoc. done.
Qed.

Lemma sarrive_nil s : sarrive [] s = s.
Proof. destruct s as [[] ? ? ?]. unfold sarrive, arrive. cbn. by rewrite app_nil_r, !Z.add_0_r. Qed.

(** The expected length is known at the end of the header. *)
Lemma SockParse_expected d s st s' : reading (reqPtr s) -> SockParse d s = Some (st, s') ->
  expectedLength (reqPtr s') = 0 -> expectedLength (reqPtr s) = 0.
Proof.
  intros [Hh|Hb] E He; [apply Hh|]. unfold SockParse in E. cbn [header_loop] in E.
  destruct (Z.eqb_spec (coff (reqPtr s)) 0); [destruct Hb as (_ & ? & _); lia|]. cbn [mbind option_bind] in E.
  destruct (parse_body_ok s Hb) as (? & ? & E2 & _ & Hx & _). rewrite E in E2. injection E2 as <- <-. congruence.
Qed.

Lemma read_pieces_spec d pieces : forall s, reading (reqPtr s) -> Z.of_nat (length (buffer (reqPtr s) ++ concat pieces)) < 2 ^ 63 ->
  exists st later s' read, read_pieces d pieces s = Some (st, later, s') /\ pieces = read ++ later /\ (st = SOCK_MORE -> later = []) /\
    (expectedLength (reqPtr s') = 0 -> if decide (read = []) then st = SOCK_MORE /\ s' = s else SockParse d (sarrive (concat read) s) = Some (st, s')).
Proof.
  induction pieces as [|t pieces IH]; intros s Hr Hl; cbn [read_pieces concat] in *.
  { exists SOCK_MORE, [], s, []. done. }
  assert (Hrt : reading (reqPtr (sarrive t s))) by (apply arrive_reading; [done|revert Hl; lens]).
  destruct (SockParse_ok d (sarrive t s) Hrt) as (st & s1 & E & Hm). rewrite E. cbn [mbind option_bind].
  destruct (decide (st = SOCK_MORE)) as [->|Hne].
  2: { exists st, pieces, s1, [t]. cbn [concat]. rewrite app_nil_r. split_and!; [by destruct st|done|done|done]. }
  destruct (Hm eq_refl) as [Hr1 Hl1]. cbn [sarrive set_req reqPtr arrive buffer] in Hl1.
  destruct (IH s1 Hr1) as (st & later & s' & read & -> & -> & Hlater & Hs); [revert Hl Hl1; lens|].
  exists st, later, s', (t :: read). split_and!; [done|done|done|]. intros He. specialize (Hs He). cbn [concat]. rewrite decide_False by done.
  rewrite <- sarrive_app. destruct (decide (read = [])) as [->|].
  - destruct Hs as [-> ->]. cbn [concat]. by rewrite sarrive_nil.
  - assert (He1 : expectedLength (reqPtr s1) = 0).
    { refine (SockParse_expected d (sarrive (concat read) s1) st s' _ Hs He). apply arrive_reading; [done|]. rewrite concat_app in Hl. revert Hl Hl1. lens. }
    pose proof (SockParse_grow d (sarrive t s) (concat read) SOCK_MORE s1 Hrt) as Hg. cbn iota in Hg. rewrite Hg; [exact Hs| |done|done].
    cbn [sarrive set_req reqPtr arrive buffer]. rewrite concat_app in Hl. revert Hl. lens.
Qed.

(** C8.  Reading a request does not depend on the pieces in which it arrives: parsing after
    every piece stays within the buffer and ends, and for any bytes at all (complete or
    not, well-formed or not, with any framing of the body but the compatibility mode of
    X-Expected-Entity-Length) the state and the request are those of parsing all bytes
    at once; input is left unread only after a request is complete or rejected. *)
Theorem SockParse_fragments d pieces s : reading (reqPtr s) -> Z.of_nat (length (buffer (reqPtr s) ++ concat pieces)) < 2 ^ 63 -> pieces <> [] ->
  exists st later s' read, read_pieces d pieces s = Some (st, later, s') /\ pieces = read ++ later /\ (st = SOCK_MORE -> later = []) /\
    (expectedLength (reqPtr s') = 0 -> SockParse d (sarrive (concat read) s) = Some (st, s')).
Proof.
  intros Hr Hl Hne. destruct (read_pieces_spec d pieces s Hr Hl) as (st & later & s' & read & E & -> & Hm & Hs).
  exists st, later, s', read. split_and!; [done..|]. intros He. specialize (Hs He). destruct (decide (read = [])) as [->|]; [|done].
  destruct Hs as [-> ->]. by rewrite (Hm eq_refl) in Hne.
Qed.
End parse.

(** ** The theorem at a concrete input *)

#[local] Existing Instance identity_encoding.
#[local] Instance plain_lines : RequestParser := Ns_ParseRequest_parser None.

Definition ex_driver : Driver := mkDriver 16 1000 100 100 10.
Definition ex_sock : Sock := mkSock (cleared []) true 0 0.
Definition ex_input : list (list Z) :=
  [bytes "PUT /a HTTP/1."; bytes "1" ++ [13]; [10] ++ bytes "Content-Length: 3" ++ CRLF ++ CRLF ++ bytes "ab"; bytes "cGET"; bytes " /"].

Lemma ex_sock_reading : reading (reqPtr ex_sock).
Proof. left. unfold in_header, offsets_ok. cbn. done. Qed.

Lemma SockParse_fragments_witness : exists s', read_pieces ex_driver ex_input ex_sock = Some (SOCK_READY, [bytes " /"], s') /\
  content_of (reqPtr s') = Some (bytes "abc") /\ SockParse ex_driver (sarrive (concat (take 4 ex_input)) ex_sock) = Some (SOCK_READY, s').
Proof.
  destruct (SockParse_fragments ex_driver ex_input ex_sock ex_sock_reading) as (st & later & s' & read & E & Er & Hm & Hs);
    [vm_compute; reflexivity|discriminate|].
  pose proof E as E'. vm_compute in E'. injection E' as <- <- <-. eexists. split; [exact E|]. split; [vm_compute; reflexivity|].
  assert (read = take 4 ex_input) as <-.
  { apply (app_inv_tail [bytes " /"]). rewrite <- (take_drop 4 ex_input) in Er at 1. exact (eq_sym Er). }
  apply Hs. vm_compute. reflexivity.
Defined.
