(* ===== verification/Requests.v ===== *)
(** * Requests: requests that are sent one behind the other (nsd/driver.c).

    A message is a request as a client sends it, with the length of its body in
    Content-Length or without a body.  [serve] reads the messages of a connection. *)

From S2P Require Import Prelude Str AcceptEncoding Chunked NsSet Header ReqLine SockRead Pipeline.

#[local] Hint Rewrite length_CRLF : lens.

Record sent := mkSent { s_line : list Z; s_fields : list (list Z); s_body : list Z }.

Definition with_crlf (l : list Z) : list Z := l ++ CRLF.
Definition header_bytes (q : sent) : list Z := with_crlf (s_line q) ++ concat (map with_crlf (s_fields q)) ++ CRLF.
Definition encode (q : sent) : list Z := header_bytes q ++ s_body q.

(** The fields of a header, if every line is well-formed and there are not too many. *)
Fixpoint parse_fields (d : Driver) (hs : list header) (fs : list (list Z)) : option (list header) :=
  match fs with
  | [] => Some hs
  | f :: fs => hs ← parse_header hs (before_nul f); if maxheaders d <? Z.of_nat (length hs) then None else parse_fields d hs fs
  end.

Definition line_ok (d : Driver) (ln : list Z) : Prop := ln <> [] /\ Forall (fun c => c <> 10) ln /\ Z.of_nat (length ln) + 1 <= maxline d.

(** The length of the body is that of Content-Length, 0 without one. *)
Definition framed (hs : list header) (body : list Z) : Prop :=
  exists ex, CheckSingletonHeaderFields hs = Some ex /\ get_header hs (bytes "transfer-encoding") = None /\
    match aget ex NS_EXTRACTED_HEADER_CONTENT_LENGTH with
    | Some (Some cl) => ParseStrictContentLength cl = Some (Z.of_nat (length body))
    | _ => body = []
    end.

Section serve.
Context `{RequestParser}.

(** A message that the driver [d] accepts, and what it is read as. *)
Definition reads_as (d : Driver) (q : sent) (r : request) : Prop :=
  exists l v hs, parse_request_line (s_line q) = Some (l, v) /\ dlt v (lit "1.0") = false /\ line_ok d (s_line q) /\
    Forall (line_ok d) (s_fields q) /\ parse_fields d [] (s_fields q) = Some hs /\ framed hs (s_body q) /\
    Z.of_nat (length (s_body q)) <= readahead d /\ r = (Some l, hs, Some (s_body q)).

(** ** The header of a message *)

(** A request with [b] in its buffer, of which [u] is not read, while its header is read. *)
Definition at_line (lo : option (list Z)) (v : double) (hs : list header) (b u : list Z) : Request :=
  mkRequest lo v hs None 0 0 (Z.of_nat (length u)) 0 0 0 (Z.of_nat (length b)) (Z.of_nat (length b) - Z.of_nat (length u)) 0 0 b 0.

Lemma at_line_header lo v hs p u : Z.of_nat (length (p ++ u)) < 2 ^ 63 -> in_header (at_line lo v hs (p ++ u) u).
Proof. intros Hl. unfold in_header, offsets_ok. cbn. split_and!; try done; lens. Qed.

Lemma at_line_unread lo v hs p u : drop (Z.to_nat (roff (at_line lo v hs (p ++ u) u))) (buffer (at_line lo v hs (p ++ u) u)) = u.
Proof. cbn. apply drop_app_length'. lens. Qed.

Lemma strip_cr_snoc ln : strip_cr (ln ++ [13]) = ln.
Proof. unfold strip_cr. rewrite last_snoc. cbn. by rewrite length_app, Nat.add_sub, take_app_length. Qed.

Lemma first_line ln u : Forall (fun c => c <> 10) ln -> strchr 10 (with_crlf ln ++ u) = (ln ++ [13], Some u).
Proof.
  intros Hl. unfold with_crlf, CRLF. change (ln ++ [13; 10]) with (ln ++ [13] ++ [10]). rewrite app_assoc, <- (app_assoc _ [10] u).
  apply strchr_app. apply Forall_app. split; [done|]. by repeat constructor.
Qed.

(** A line at the front of the input. *)
Lemma step_line d s lo v hs p ln u : Z.of_nat (length (p ++ with_crlf ln ++ u)) < 2 ^ 63 -> line_ok d ln ->
  let b := p ++ with_crlf ln ++ u in
  exists e, 0 <= e < Z.of_nat (length b) /\
  header_step d (set_req (at_line lo v hs b (with_crlf ln ++ u)) s) = text_line d ln e (set_req (at_line lo v hs b u) s).
Proof.
  intros Hl (Hne & Hlf & Hmax) b. exists (Z.of_nat (length p) + Z.of_nat (length ln)). split; [unfold b, with_crlf; lens|].
  rewrite header_step_line by (by apply at_line_header). cbn [set_req reqPtr]. unfold b. rewrite at_line_unread, first_line by done.
  unfold take_line, taken. rewrite strip_cr_snoc. destruct ln as [|c ln]; [done|].
  rewrite (proj2 (Z.ltb_ge _ _)) by lens. cbn [set_req reqPtr]. f_equal.
  - cbn [at_line roff]. lens.
  - unfold set_req. cbn. f_equal. unfold advance, at_line. cbn. f_equal; unfold with_crlf; lens.
Qed.

Lemma step_request_line d s v0 hs p ln u l v : Z.of_nat (length (p ++ with_crlf ln ++ u)) < 2 ^ 63 -> line_ok d ln ->
  parse_request_line ln = Some (l, v) -> dlt v (lit "1.0") = false ->
  let b := p ++ with_crlf ln ++ u in
  header_step d (set_req (at_line None v0 hs b (with_crlf ln ++ u)) s) = Some (Go (set_req (at_line (Some l) v hs b u) s)).
Proof.
  intros Hl Hok Hp Hv. cbv zeta. destruct (step_line d s None v0 hs p ln u Hl Hok) as (e & He & ->). unfold text_line, aset.
  cbn [set_req reqPtr at_line buffer line]. rewrite (proj2 (Z.leb_le _ _)), (proj2 (Z.ltb_lt _ _)) by lia. cbn [andb mbind option_bind].
  rewrite Hp, Hv. done.
Qed.

Lemma step_field d s l v hs p f u hs' : Z.of_nat (length (p ++ with_crlf f ++ u)) < 2 ^ 63 -> line_ok d f ->
  parse_header hs (before_nul f) = Some hs' -> (maxheaders d <? Z.of_nat (length hs')) = false ->
  let b := p ++ with_crlf f ++ u in
  header_step d (set_req (at_line (Some l) v hs b (with_crlf f ++ u)) s) = Some (Go (set_req (at_line (Some l) v hs' b u) s)).
Proof.
  intros Hl Hok Hp Hm. cbv zeta. destruct (step_line d s (Some l) v hs p f u Hl Hok) as (e & He & ->). unfold text_line, aset.
  cbn [set_req reqPtr at_line buffer line headers]. rewrite (proj2 (Z.leb_le _ _)), (proj2 (Z.ltb_lt _ _)) by lia. cbn [andb mbind option_bind].
  rewrite Hp, Hm. done.
Qed.

Lemma loop_step d fuel s s' : header_step d s = Some (Go s') -> coff (reqPtr s) = 0 -> header_loop (S fuel) d s = header_loop fuel d s'.
Proof. intros Hs Hc. cbn [header_loop]. by rewrite Hc, Hs. Qed.

Lemma loop_fields d s l v p u : forall fs fuel hs hs' pre, Z.of_nat (length ((p ++ pre) ++ concat (map with_crlf fs) ++ u)) < 2 ^ 63 ->
  Forall (line_ok d) fs -> parse_fields d hs fs = Some hs' ->
  let b := (p ++ pre) ++ concat (map with_crlf fs) ++ u in
  header_loop (length fs + fuel) d (set_req (at_line (Some l) v hs b (concat (map with_crlf fs) ++ u)) s) =
  header_loop fuel d (set_req (at_line (Some l) v hs' b u) s).
Proof.
  induction fs as [|f fs IH]; intros fuel hs hs' pre Hl Hok; cbn [parse_fields map concat] in *; [by intros [= ->]|].
  inversion Hok as [|? ? Hf Hfs]; subst. destruct (parse_header hs (before_nul f)) as [hs1|] eqn:Eh; [|done]. cbn [mbind option_bind].
  destruct (maxheaders d <? _) eqn:Em; [done|]. intros Ep. cbv zeta in *. rewrite <- (app_assoc (with_crlf f)) in *.
  cbn [length plus]. rewrite (loop_step _ _ _ _ (step_field d s l v hs (p ++ pre) f (concat (map with_crlf fs) ++ u) hs1 Hl Hf Eh Em) eq_refl).
  specialize (IH fuel hs1 hs' (pre ++ with_crlf f)). rewrite <- !app_assoc in *. by apply IH.
Qed.

(** A request with its body in the rest [u] of the buffer. *)
Definition at_content (l : list Z) (v : double) (hs : list header) (n : Z) (b u : list Z) : Request :=
  mkRequest (Some l) v hs None n n (Z.of_nat (length u)) 0 0 0 (Z.of_nat (length b)) (Z.of_nat (length b) - Z.of_nat (length u))
    (Z.of_nat (length b) - Z.of_nat (length u)) 0 b 0.

Lemma accepted_codings_req s : reqPtr (accepted_codings s) = reqPtr s.
Proof.
  unfold accepted_codings. destruct (get_header _ _); [|done]. destruct (get_header _ _); [done|].
  by destruct (NsParseAcceptEncoding _ _) as [[] []].
Qed.

Lemma accepted_codings_flag s : Z.land (flags s) NS_CONN_ENTITYTOOLARGE = 0 -> Z.land (flags (accepted_codings s)) NS_CONN_ENTITYTOOLARGE = 0.
Proof.
  intros Hf. assert (Hc : Z.land (flags (clear_flag (Z.lor NS_CONN_ZIPACCEPTED NS_CONN_BROTLIACCEPTED) s)) NS_CONN_ENTITYTOOLARGE = 0).
  { cbn [clear_flag set_flags flags]. rewrite Z.ldiff_land, <- Z.land_assoc, (Z.land_comm (Z.lnot _)), Z.land_assoc, Hf. done. }
  assert (Hr : forall f u, Z.land f NS_CONN_ENTITYTOOLARGE = 0 -> Z.land (flags u) NS_CONN_ENTITYTOOLARGE = 0 ->
    Z.land (flags (raise_flag f u)) NS_CONN_ENTITYTOOLARGE = 0).
  { intros f u H1 H2. cbn [raise_flag set_flags flags]. by rewrite Z.land_lor_distr_l, H1, H2. }
  unfold accepted_codings. destruct (get_header _ _); [|done]. destruct (get_header _ _); [done|].
  destruct (NsParseAcceptEncoding _ _) as [[] []]; repeat (apply Hr; [done|]); done.
Qed.

Lemma body_framing_sent d ex s hs (body : list Z) l v b u : reqPtr s = at_content l v hs 0 b u -> get_header hs (bytes "transfer-encoding") = None ->
  Z.of_nat (length body) <= maxinput d ->
  match aget ex NS_EXTRACTED_HEADER_CONTENT_LENGTH with
  | Some (Some cl) => ParseStrictContentLength cl = Some (Z.of_nat (length body))
  | _ => body = []
  end ->
  exists s', body_framing d (match aget ex NS_EXTRACTED_HEADER_CONTENT_LENGTH with Some v => v | None => None end) s = (SOCK_READY, s') /\
    reqPtr s' = at_content l v hs (Z.of_nat (length body)) b u /\ flags s' = flags s.
Proof.
  intros Er Ht Hm Hcl. unfold body_framing. rewrite Er. cbn [at_content headers]. rewrite Ht.
  destruct (aget ex _) as [[cl|]|]; [|subst body; by exists s..]. rewrite Hcl, (proj2 (Z.ltb_ge _ _)) by done. eexists. split; [done|]. done.
Qed.

Lemma EndOfHeader_sent d ex s hs (body : list Z) l v b u : reqPtr s = at_line (Some l) v hs b u -> get_header hs (bytes "transfer-encoding") = None ->
  Z.of_nat (length body) <= maxinput d ->
  match aget ex NS_EXTRACTED_HEADER_CONTENT_LENGTH with
  | Some (Some cl) => ParseStrictContentLength cl = Some (Z.of_nat (length body))
  | _ => body = []
  end ->
  exists s', EndOfHeader d ex s = (SOCK_READY, s') /\ reqPtr s' = at_content l v hs (Z.of_nat (length body)) b u /\
    has_flag NS_CONN_ENTITYTOOLARGE s' = false.
Proof.
  intros Er Ht Hm Hcl. unfold EndOfHeader. cbv zeta. set (s1 := clear_flag NS_CONN_ENTITYTOOLARGE _).
  assert (E1 : reqPtr s1 = at_content l v hs 0 b u) by (unfold s1; rewrite Er; by destruct (expects_continue _)).
  assert (Hf : Z.land (flags s1) NS_CONN_ENTITYTOOLARGE = 0).
  { unfold s1. cbn [clear_flag set_flags flags]. apply Z.land_ldiff. }
  clearbody s1. destruct (body_framing_sent d ex s1 hs body l v b u E1 Ht Hm Hcl) as (s2 & E2 & Er2 & Ef2). rewrite E2.
  eexists. split; [done|]. rewrite accepted_codings_req. split; [done|]. unfold has_flag. apply negb_false_iff, Z.eqb_eq.
  apply accepted_codings_flag. by rewrite Ef2.
Qed.

(** The empty line. *)
Lemma step_end d s l v hs p u (body : list Z) : Z.of_nat (length (p ++ CRLF ++ u)) < 2 ^ 63 -> framed hs body ->
  Z.of_nat (length body) <= maxinput d -> 0 < maxline d ->
  let b := p ++ CRLF ++ u in
  exists s2, header_step d (set_req (at_line (Some l) v hs b (CRLF ++ u)) s) = Some (Go s2) /\
    reqPtr s2 = at_content l v hs (Z.of_nat (length body)) b u.
Proof.
  intros Hl (ex & Ex & Ht & Hcl) Hm Hmax. cbv zeta. rewrite header_step_line by (by apply at_line_header).
  cbn [set_req reqPtr]. rewrite at_line_unread. pose proof (first_line [] u (Forall_nil_2 _)) as Ef. cbn [with_crlf app] in Ef.
  change ((with_crlf []) ++ u) with (CRLF ++ u) in Ef. rewrite Ef. unfold take_line. change (strip_cr [13]) with (@nil Z). cbv iota.
  set (s1 := taken d [13] _). assert (E1 : reqPtr s1 = at_line (Some l) v hs (p ++ CRLF ++ u) u).
  { unfold s1, taken. cbn [set_req reqPtr length]. unfold advance, at_line. cbn [line version headers content length_ contentLength avail expectedLength
      chunkStartOff chunkWriteOff woff roff coff leftover buffer savedChar]. f_equal; lens. }
  clearbody s1. unfold end_of_headers. rewrite E1. cbn [at_line headers]. rewrite Ex.
  destruct (EndOfHeader_sent d ex s1 hs body l v _ u E1 Ht Hm Hcl) as (s2 & -> & Er & Hf). rewrite Hf.
  destruct (has_flag NS_CONN_CONTINUE s2); (eexists; split; [reflexivity|exact Er]).
Qed.

Lemma header_sent d s q r rest : reads_as d q r -> reqPtr s = cleared [] -> Z.of_nat (length (encode q ++ rest)) < 2 ^ 63 ->
  Z.of_nat (length (encode q)) <= maxinput d ->
  exists l v hs s2, read_header d (sarrive (encode q ++ rest) s) = Some (Go s2) /\
    reqPtr s2 = at_content l v hs (Z.of_nat (length (s_body q))) (header_bytes q ++ s_body q ++ rest) (s_body q ++ rest) /\
    r = (Some l, hs, Some (s_body q)).
Proof.
  intros (l & v & hs & Hp & Hv & Hln & Hfs & Ehs & Hfr & Hra & ->) Er Hl Hm.
  set (u := s_body q ++ rest). set (fs := concat (map with_crlf (s_fields q))).
  set (X := encode q ++ rest). assert (EX : X = with_crlf (s_line q) ++ fs ++ CRLF ++ u).
  { unfold X, encode, header_bytes, fs, u. by rewrite <- !app_assoc. }
  assert (Hlen : Z.of_nat (length (s_body q)) <= maxinput d) by (unfold encode in Hm; revert Hm; lens).
  assert (E0 : sarrive X s = set_req (at_line None (lit "0") [] X X) s).
  { unfold sarrive. f_equal. rewrite Er. unfold arrive, cleared, at_line. cbn [line version headers content length_ contentLength avail expectedLength
      chunkStartOff chunkWriteOff woff roff coff leftover buffer savedChar app length]. f_equal; lia. }
  pose proof (step_request_line d s (lit "0") [] [] (s_line q) (fs ++ CRLF ++ u) l v) as H1. cbn zeta in H1. rewrite <- EX in H1.
  specialize (H1 Hl Hln Hp Hv). cbn [app] in H1. rewrite <- ?EX in H1.
  pose proof (loop_fields d s l v (with_crlf (s_line q)) (CRLF ++ u) (s_fields q) 2 [] hs []) as H2. rewrite app_nil_r in H2. fold fs in H2. rewrite <- EX in H2.
  specialize (H2 Hl Hfs Ehs). cbv zeta in H2. fold fs in H2. rewrite <- ?EX in H2.
  destruct (step_end d s l v hs (with_crlf (s_line q) ++ fs) u (s_body q)) as (s2 & H3 & Er2).
  { by rewrite <- app_assoc, <- EX. } { done. } { done. } { destruct Hln as (? & _ & ?). lia. }
  rewrite <- app_assoc, <- EX in H3, Er2.
  exists l, v, hs, s2. split_and!; [|by rewrite Er2, EX; unfold header_bytes; rewrite <- !app_assoc|done].
  destruct (header_ok d (sarrive X s)) as (x & Ex & _).
  { apply arrive_reading; [|by rewrite Er]. left. rewrite Er. unfold in_header, offsets_ok. cbn. done. }
  rewrite Ex. f_equal. eapply header_loop_det; [exact Ex|]. instantiate (1 := S (length (s_fields q) + 2)).
  rewrite E0, (loop_step _ _ _ _ H1 eq_refl), H2, (loop_step _ _ _ _ H3 eq_refl). cbn [header_loop]. rewrite Er2. cbn [at_content coff].
  destruct (Z.eqb_spec (Z.of_nat (length X) - Z.of_nat (length u)) 0) as [E|]; [|done]. rewrite EX in E. revert E. unfold with_crlf. lens.
Qed.

(** ** The body of a message *)

(** The request with its content [body], in front of the bytes [rest]. *)
Lemma complete_sent l v hs body pre rest : Z.of_nat (length (pre ++ body ++ rest)) < 2 ^ 63 ->
  exists r1, complete (at_content l v hs (Z.of_nat (length body)) (pre ++ body ++ rest) (body ++ rest)) = Some r1 /\
    line r1 = Some l /\ headers r1 = hs /\ content_of r1 = Some body /\
    forall s, exists s', NsSockClose (set_req r1 s) true = Some s' /\ reqPtr s' = cleared rest.
Proof.
  intros Hl. unfold complete. cbn [at_content length_ coff buffer savedChar].
  set (b := pre ++ body ++ rest). set (c := Z.of_nat (length b) - Z.of_nat (length (body ++ rest))).
  assert (Hc : c = Z.of_nat (length pre)) by (unfold c, b; lens).
  assert (Hclose : forall b' k s, length b' = length b -> drop (length (pre ++ body)) b' = (if k =? 0 then rest else 0 :: drop 1 rest) ->
      (k =? 0 = false -> rest <> [] /\ k = nth 0 rest 0) ->
      exists s', NsSockClose (set_req (set_content (Some c) b' k (at_content l v hs (Z.of_nat (length body)) b (body ++ rest))) s) true = Some s' /\
        reqPtr s' = cleared rest).
  { intros b' k s Hb Hd Hk. unfold NsSockClose, RequestFree. cbn [set_keep set_req reqPtr keep set_content at_content contentLength avail buffer savedChar andb].
    destruct (Z.ltb_spec (Z.of_nat (length body)) (Z.of_nat (length (body ++ rest)))) as [Hlt|Hge].
    - assert (aslice b' (Z.of_nat (length b') - (Z.of_nat (length (body ++ rest)) - Z.of_nat (length body)))
        (Z.of_nat (length (body ++ rest)) - Z.of_nat (length body)) = Some (drop (length (pre ++ body)) b')) as ->.
      { unfold aslice. rewrite Hb. rewrite !(proj2 (Z.leb_le _ _)) by (unfold b; lens). cbn [andb]. f_equal. rewrite take_ge by (rewrite length_drop, Hb; unfold b; lens).
        f_equal. unfold b. lens. }
      cbn [mbind option_bind]. rewrite Hd. eexists. split; [done|]. cbn [set_req reqPtr]. destruct (k =? 0) eqn:Ek; [done|].
      destruct (Hk eq_refl) as [Hne ->]. by destruct rest.
    - eexists. split; [done|]. cbn [set_req reqPtr]. destruct rest; [done|]. revert Hge. lens. }
  assert (Hcont : forall r, coff r = c -> length_ r = Z.of_nat (length body) -> (exists t, buffer r = pre ++ body ++ t) -> content_of r = Some body).
  { intros r Hr1 Hr2 [t Hr3]. unfold content_of. rewrite Hr1, Hr2, Hr3, Hc. apply aslice_app. }
  assert (Hdrop : forall t, drop (length (pre ++ body)) (pre ++ body ++ t) = t) by (intros t; by rewrite app_assoc, drop_app_length).
  assert (Hsame : exists r1, Some (set_content (Some c) b 0 (at_content l v hs (Z.of_nat (length body)) b (body ++ rest))) = Some r1 /\
    line r1 = Some l /\ headers r1 = hs /\ content_of r1 = Some body /\
    forall s, exists s', NsSockClose (set_req r1 s) true = Some s' /\ reqPtr s' = cleared rest).
  { eexists. split_and!; [done|done|done|by apply Hcont; [..|by exists rest]|]. intros s. apply Hclose; [done|apply Hdrop|done]. }
  destruct (Z.ltb_spec 0 (Z.of_nat (length body))) as [Hpos|Hz]; [|exact Hsame].
  destruct (Z.eqb_spec (c + Z.of_nat (length body)) (Z.of_nat (length b))) as [|Hlt]; [exact Hsame|].
  destruct rest as [|x rest]; [exfalso; apply Hlt; unfold b; rewrite Hc; lens|].
  assert (Eb : b = (pre ++ body) ++ x :: rest) by (unfold b; by rewrite app_assoc).
  assert (aget b (c + Z.of_nat (length body)) = Some x) as -> by (rewrite Eb; apply aget_mid; rewrite Hc; lens).
  assert (aset b (c + Z.of_nat (length body)) 0 = Some (pre ++ body ++ 0 :: rest)) as -> by (rewrite Eb, app_assoc; apply aset_mid; rewrite Hc; lens).
  cbn [mbind option_bind].
  eexists. split_and!; [done|done|done|by apply Hcont; [..|by exists (0 :: rest)]|]. intros s. apply Hclose; [unfold b; lens| |done].
  rewrite Hdrop. by destruct (Z.eqb_spec x 0) as [->|].
Qed.

Lemma at_content_body l v hs n pre u : Z.of_nat (length (pre ++ u)) < 2 ^ 63 -> pre <> [] -> 0 <= n -> in_body (at_content l v hs n (pre ++ u) u).
Proof.
  intros Hl Hne Hn. destruct pre as [|c pre]; [done|]. unfold in_body, offsets_ok. cbn. split_and!; try done; try lens; by left.
Qed.

Lemma header_bytes_ne q : header_bytes q <> [].
Proof. unfold header_bytes, with_crlf. intros E%(f_equal length). revert E. lens. Qed.

(** ** The beginning of a message *)

(** What the socket is like when a part of a message has been read: in the header, or in
    the body with bytes missing. *)
Definition waiting (d : Driver) (s : Sock) : Prop :=
  reading (reqPtr s) /\ expectedLength (reqPtr s) = 0 /\ leftover (reqPtr s) = 0 /\
  (coff (reqPtr s) = 0 /\ length_ (reqPtr s) = 0 \/
   chunkStartOff (reqPtr s) = 0 /\ avail (reqPtr s) < length_ (reqPtr s) <= readahead d /\ length_ (reqPtr s) < 2 ^ 63).

(** The request is ready, and [rest] has been read behind it. *)
Definition ready (r : request) (rest : list Z) (s : Sock) : Prop :=
  request_of s = r /\ exists s', NsSockClose s true = Some s' /\ reqPtr s' = cleared rest.


(** The part of the request that is known before the last byte has come. *)
Lemma arrive_content t r l v hs n P w u : arrive t r = at_content l v hs n (P ++ t) u -> u = w ++ t -> r = at_content l v hs n P w.
Proof.
  intros E ->. destruct r. unfold arrive, at_content in *. cbn in E. injection E as -> -> -> -> -> -> Ha -> -> -> Hw -> -> -> Hb ->.
  apply app_inv_tail in Hb as ->. f_equal; revert Ha Hw; lens.
Qed.

Lemma parse_content d s q l v hs w : Z.of_nat (length (header_bytes q ++ w)) < 2 ^ 63 -> Z.of_nat (length (s_body q)) <= readahead d ->
  Z.of_nat (length (s_body q)) < 2 ^ 63 ->
  reqPtr s = at_content l v hs (Z.of_nat (length (s_body q))) (header_bytes q ++ w) w ->
  (Z.of_nat (length w) < Z.of_nat (length (s_body q)) -> parse_body s = Some (SOCK_MORE, s) /\ waiting d s) /\
  (forall rest, w = s_body q ++ rest -> exists s1, parse_body s = Some (SOCK_READY, s1) /\ ready (Some l, hs, Some (s_body q)) rest s1).
Proof.
  intros Hl Hra Hb63 Er. set (r := at_content l v hs (Z.of_nat (length (s_body q))) (header_bytes q ++ w) w) in *.
  assert (Hp : parse_body s = if Z.of_nat (length w) <? Z.of_nat (length (s_body q)) then Some (SOCK_MORE, set_req r s)
    else r ← complete r; Some (SOCK_READY, set_req r s)) by (unfold parse_body; by rewrite Er).
  assert (Es : set_req r s = s) by (rewrite <- Er; by destruct s). rewrite Hp. split.
  - intros Hlt. rewrite (proj2 (Z.ltb_lt _ _)) by done. rewrite Es. split; [done|]. unfold waiting. rewrite Er.
    split_and!; [right; apply at_content_body; [done|apply header_bytes_ne|lia]|done|done|right; cbn; lia].
  - intros rest ->. rewrite (proj2 (Z.ltb_ge _ _)) by lens.
    destruct (complete_sent l v hs (s_body q) (header_bytes q) rest Hl) as (r1 & E1 & E2 & E3 & E4 & E5).
    unfold r. rewrite E1. cbn [mbind option_bind]. eexists. split; [done|]. split; [|apply E5].
    unfold request_of. cbn [set_req reqPtr]. by rewrite E2, E3, E4.
Qed.

Lemma prefix_sent d u q r P t rest : reads_as d q r -> reqPtr u = cleared [] -> P ++ t = encode q ++ rest ->
  Z.of_nat (length (encode q ++ rest)) < 2 ^ 63 -> Z.of_nat (length (encode q)) <= maxinput d ->
  exists st s1, SockParse d (sarrive P u) = Some (st, s1) /\
    (st = SOCK_MORE /\ waiting d s1 /\ t <> [] \/
     st = SOCK_READY /\ exists rest', P = encode q ++ rest' /\ ready r rest' s1).
Proof.
  intros Hq Hu EX Hl Hm. destruct (header_sent d u q r rest Hq Hu Hl Hm) as (l & v & hs & s2 & E2 & Er2 & Hr).
  assert (Hru : in_header (reqPtr u)) by (rewrite Hu; unfold in_header, offsets_ok; by cbn).
  assert (HlP : Z.of_nat (length P) < 2 ^ 63 /\ Z.of_nat (length (P ++ t)) < 2 ^ 63) by (rewrite <- EX in Hl; revert Hl; lens).
  assert (Hrd : reading (reqPtr (sarrive P u))) by (apply arrive_reading; [by left|rewrite Hu; apply HlP]).
  destruct (header_ok d (sarrive P u) Hrd) as (x & Ex & Hx).
  assert (Eb : buffer (reqPtr (sarrive P u)) = P) by (unfold sarrive; cbn [set_req reqPtr arrive buffer]; by rewrite Hu).
  pose proof (header_grow d (sarrive P u) t x Hrd ltac:(rewrite Eb; apply HlP) Ex) as Hg. rewrite sarrive_app, EX, E2 in Hg.
  unfold SockParse. fold (read_header d (sarrive P u)). rewrite Ex. cbn [mbind option_bind]. destruct x as [st s'|s'].
  - destruct Hx as [Hnr Hx]. destruct st; try done. destruct (Hx eq_refl) as [Hh Hbuf]. exists SOCK_MORE, s'. split; [done|]. left.
    split_and!; [done| |].
    + pose proof Hh as ((_ & _ & _ & _ & ?) & ? & _ & _ & ? & ?). split_and!; [by left|done|done|by left].
    + intros ->. rewrite app_nil_r in EX. subst P. congruence.
  - destruct Hx as [Hin Hbuf]. injection Hg as Hs2. rewrite Hs2 in Er2. cbn [sarrive set_req reqPtr] in Er2. rewrite Eb in Hbuf.
    assert (Hw : exists w, P = header_bytes q ++ w /\ s_body q ++ rest = w ++ t).
    { assert (Ha : Z.of_nat (length t) <= Z.of_nat (length (s_body q ++ rest))).
      { apply (f_equal avail) in Er2. cbn in Er2. destruct Hin as ((? & _) & _). lia. }
      exists (drop (length (header_bytes q)) P). unfold encode in EX. rewrite <- app_assoc in EX.
      assert (Hlen : (length (header_bytes q) <= length P)%nat) by (apply (f_equal length) in EX; revert EX Ha; lens).
      split.
      - rewrite <- (take_drop (length (header_bytes q)) P) at 1. f_equal.
        apply (f_equal (take (length (header_bytes q)))) in EX. rewrite take_app_le, take_app_length in EX by done. done.
      - apply (f_equal (drop (length (header_bytes q)))) in EX. by rewrite drop_app_le, drop_app_length in EX by done. }
    destruct Hw as (w & EP & Ew).
    assert (Er : reqPtr s' = at_content l v hs (Z.of_nat (length (s_body q))) P w).
    { apply (arrive_content t _ _ _ _ _ _ _ (s_body q ++ rest)); [|done]. rewrite Er2. f_equal. unfold encode in EX. by rewrite EX, <- app_assoc. }
    rewrite EP in Er. destruct (parse_content d s' q l v hs w) as [Hshort Hfull]; [rewrite <- EP; apply HlP|by destruct Hq as (?&?&?&?&?&?&?&?&?&?&?)| |done|].
    { clear - Hl. unfold encode in Hl. revert Hl. lens. }
    destruct (Z.lt_ge_cases (Z.of_nat (length w)) (Z.of_nat (length (s_body q)))) as [Hlt|Hge].
    + destruct (Hshort Hlt) as [-> Hw]. exists SOCK_MORE, s'. split; [done|]. left. split_and!; [done..|].
      intros ->. apply (f_equal length) in Ew. revert Ew Hlt. lens.
    + assert (Ew2 : w = s_body q ++ drop (length (s_body q)) w).
      { rewrite <- (take_drop (length (s_body q)) w) at 1. f_equal. apply (f_equal (take (length (s_body q)))) in Ew.
        by rewrite take_app_length, take_app_le in Ew by lia. }
      destruct (Hfull _ Ew2) as (s1 & -> & Hrdy). exists SOCK_READY, s1. split; [done|]. right. split; [done|].
      exists (drop (length (s_body q)) w). rewrite Hr. split; [|done]. unfold encode. by rewrite <- app_assoc, <- Ew2.
Qed.

(** ** Receiving *)

Lemma receive_arrive r got nread : offsets_ok r -> Z.of_nat (length got) <= nread -> receive got nread r = Some (arrive got r).
Proof.
  intros (_ & _ & Hw & _) Hn. unfold receive. rewrite Hw, afill_at by lens. cbn [mbind option_bind]. unfold arrive. rewrite Hw.
  do 2 f_equal. rewrite app_assoc. apply take_app_length'. lens.
Qed.

Lemma waiting_fresh d s : reqPtr s = cleared [] -> waiting d s.
Proof. intros E. unfold waiting. rewrite E. split_and!; [left; unfold in_header, offsets_ok; by cbn|done|done|by left]. Qed.

Lemma waiting_offsets d s : waiting d s -> offsets_ok (reqPtr s).
Proof. intros ([(Ho & _)|(Ho & _)] & _); done. Qed.

(** The number of bytes to read is positive while the buffer is not full. *)
Lemma nread_pos d s : waiting d s -> 0 < bufsize d -> Z.of_nat (length (buffer (reqPtr s))) < maxinput d < 2 ^ 63 ->
  let nread := if length_ (reqPtr s) =? 0 then bufsize d else wrap64 (length_ (reqPtr s) - avail (reqPtr s)) in
  0 < nread /\ 0 < wrap64 (maxinput d - Z.of_nat (length (buffer (reqPtr s)))).
Proof.
  intros Hw Hb Hm. cbv zeta. rewrite (wrap64_id (maxinput d - _)) by lia. split; [|lia].
  destruct Hw as (Hr & _ & _ & [[_ ->]|(_ & Hlt & H63)]); [done|]. destruct (Z.eqb_spec (length_ (reqPtr s)) 0); [done|].
  assert (0 <= avail (reqPtr s)) by (destruct Hr as [((? & _) & _)|((? & _) & _)]; done). rewrite wrap64_id by lia. lia.
Qed.

Lemma SockRead_net d s piece net : waiting d s -> 0 < bufsize d -> Z.of_nat (length (buffer (reqPtr s))) < maxinput d < 2 ^ 63 -> piece <> [] ->
  exists got more, got <> [] /\ piece = got ++ more /\
    SockRead d s (piece :: net) = '(st, s') ← SockParse d (sarrive got s); Some (st, s', match more with [] => net | _ => more :: net end).
Proof.
  intros Hw Hb Hm Hp. destruct (nread_pos d s Hw Hb Hm) as [Hn1 Hn2]. unfold SockRead. cbv zeta in *.
  set (n0 := if length_ (reqPtr s) =? 0 then _ else _) in *. set (full := maxinput d <? _).
  set (n := if full then wrap64 (maxinput d - Z.of_nat (length (buffer (reqPtr s)))) else n0).
  assert (Hn : 0 < n) by (unfold n; by destruct full). exists (take (Z.to_nat n) piece), (drop (Z.to_nat n) piece).
  split_and!; [intros E%(f_equal length); destruct piece; [done|revert E; lens]|by rewrite take_drop|].
  destruct (Z.eqb_spec n 0); [lia|]. rewrite andb_false_r.
  assert ((0 <? coff (reqPtr s)) && (chunkStartOff (reqPtr s) =? 0) && (readahead d <? length_ (reqPtr s)) = false) as ->.
  { destruct Hw as (_ & _ & _ & [[-> _]|(_ & Hlt & _)]); [done|]. rewrite (proj2 (Z.ltb_ge (readahead d) _)) by lia. apply andb_false_r. }
  assert (leftover (reqPtr s) = 0) as -> by apply Hw. cbn [Z.ltb Z.compare].
  rewrite receive_arrive by (apply (waiting_offsets d s Hw) || lens). cbn [mbind option_bind]. by destruct (drop (Z.to_nat n) piece).
Qed.

Lemma take_leftover_cleared P : take_leftover (cleared P) = arrive P (cleared []).
Proof. unfold take_leftover, arrive, cleared. cbn. f_equal. rewrite Nat2Z.id. apply firstn_all. Qed.

Lemma SockRead_left d s P net : reqPtr s = cleared P -> P <> [] -> 0 < bufsize d -> Z.of_nat (length P) < maxinput d < 2 ^ 63 ->
  SockRead d s net = '(st, s') ← SockParse d (sarrive P (set_req (cleared []) s)); Some (st, s', net).
Proof.
  intros Er Hne Hb Hm. unfold SockRead. rewrite Er. cbn [cleared length_ buffer coff leftover Z.eqb]. cbv zeta.
  set (full := maxinput d <? _). assert (Hn : 0 < if full then wrap64 (maxinput d - Z.of_nat (length P)) else bufsize d).
  { destruct full; [|done]. rewrite wrap64_id by lia. lia. }
  rewrite (proj2 (Z.eqb_neq (if full then _ else bufsize d) 0)) by lia. rewrite andb_false_r. cbn [Z.ltb Z.compare andb].
  destruct (Z.ltb_spec 0 (Z.of_nat (length P))); [|destruct P; [done|cbn in *; lia]].
  fold (cleared P). by rewrite take_leftover_cleared.
Qed.

(** ** Serving *)

(** [P] has been read of the next message: waiting for more, or left over from before. *)
Definition has_read (d : Driver) (P : list Z) (s : Sock) : Prop :=
  reqPtr s = cleared P \/
  exists u, reqPtr u = cleared [] /\ SockParse d (sarrive P u) = Some (SOCK_MORE, s) /\ waiting d s /\ length (buffer (reqPtr s)) = length P.

Definition todo (P : list Z) (s : Sock) (net : list (list Z)) : nat :=
  2 * length (concat net) + length P + (if leftover (reqPtr s) =? 0 then 0 else 1).

(** Reading with [P] read before. *)
Lemma SockRead_has_read d s P net : has_read d P s -> P ++ concat net <> [] -> Forall (fun p => p <> []) net ->
  (leftover (reqPtr s) = 0 -> net <> []) -> 0 < bufsize d -> Z.of_nat (length (P ++ concat net)) < maxinput d < 2 ^ 63 ->
  exists got net' u, reqPtr u = cleared [] /\ got ++ concat net' = concat net /\ Forall (fun p => p <> []) net' /\
    (leftover (reqPtr s) = 0 -> got <> []) /\
    SockRead d s net = '(st, s') ← SockParse d (sarrive (P ++ got) u); Some (st, s', net').
Proof.
  intros Hp Hne Hnet Hlo Hb Hm.
  assert (Hnetread : forall w u, waiting d w -> leftover (reqPtr w) = 0 -> length (buffer (reqPtr w)) = length P -> reqPtr u = cleared [] -> net <> [] ->
    (forall got, Z.of_nat (length (P ++ got)) < 2 ^ 63 -> SockParse d (sarrive got w) = SockParse d (sarrive (P ++ got) u)) ->
    exists got net' u, reqPtr u = cleared [] /\ got ++ concat net' = concat net /\ Forall (fun p => p <> []) net' /\ got <> [] /\
      SockRead d w net = '(st, s') ← SockParse d (sarrive (P ++ got) u); Some (st, s', net')).
  { intros w u Hw _ Hlen Hu Hnn Heq. destruct net as [|piece net]; [done|]. inversion Hnet as [|? ? Hpc Hnet']; subst. cbn [concat] in *.
    destruct (SockRead_net d w piece net Hw Hb) as (got & more & Hg & -> & E); [rewrite Hlen; revert Hm; lens|done|].
    exists got, (match more with [] => net | _ => more :: net end), u. rewrite <- Heq by (revert Hm; lens).
    split_and!; [done|destruct more; cbn [concat]; by rewrite <- ?app_assoc, ?app_nil_r|destruct more; [done|by constructor]|done|done]. }
  destruct Hp as [Er|(u & Hu & Eu & Hw & Hlen)].
  - destruct (decide (P = [])) as [->|HP].
    + assert (Hl0 : leftover (reqPtr s) = 0) by (by rewrite Er).
      destruct (Hnetread s s) as (got & net' & u & ? & ? & ? & ? & ?); [by apply waiting_fresh|done|by rewrite Er|done|by apply Hlo|done|].
      exists got, net', u. done.
    + exists [], net, (set_req (cleared []) s). rewrite app_nil_r. split_and!; [done..| |].
      * intros Hl0. rewrite Er in Hl0. destruct P; [done|cbn in Hl0; lia].
      * apply SockRead_left; [done..|revert Hm; lens].
  - assert (Hl0 : leftover (reqPtr s) = 0) by apply Hw.
    destruct (Hnetread s u) as (got & net' & u' & ? & ? & ? & ? & ?); [done..|by apply Hlo| |by exists got, net', u'].
    intros got Hsz. rewrite <- sarrive_app. symmetry.
    pose proof (SockParse_grow d (sarrive P u) got SOCK_MORE s) as Hg. cbn iota in Hg. apply Hg; [| |done|apply Hw].
    + apply arrive_reading; [by rewrite Hu; left; unfold in_header, offsets_ok; cbn|rewrite Hu; revert Hsz; cbn; lens].
    + cbn [sarrive set_req reqPtr arrive buffer]. rewrite Hu. cbn. revert Hsz. lens.
Qed.

Lemma encode_long q : (2 <= length (encode q))%nat.
Proof. unfold encode, header_bytes, with_crlf. lens. Qed.

(** The requests up to the first one behind which the connection is not kept. *)
Fixpoint served (keep : nat -> bool) (n : nat) (rs : list request) : list request * SockState :=
  match rs with
  | [] => ([], SOCK_MORE)
  | r :: rs => if keep n then let '(qs, st) := served keep (S n) rs in (r :: qs, st) else ([r], SOCK_CLOSE)
  end.

Lemma NsSockClose_total s s2 k : NsSockClose s true = Some s2 -> is_Some (NsSockClose s k).
Proof. destruct k; [by intros ->|]. intros _. unfold NsSockClose, RequestFree. cbn [set_keep keep andb]. eauto. Qed.

Lemma serve_spec d kp fuel : forall n qs rs s P net, has_read d P s -> Forall2 (reads_as d) qs rs -> Forall (fun p => p <> []) net ->
  P ++ concat net = concat (map encode qs) -> 0 < bufsize d -> Z.of_nat (length (P ++ concat net)) < maxinput d < 2 ^ 63 ->
  (todo P s net < fuel)%nat -> serve fuel d kp n s net = Some (served kp n rs).
Proof.
  induction fuel as [|fuel IH]; intros n qs rs s P net Hp Hqs Hnet EX Hb Hm Hf; [lia|]. cbn [serve].
  destruct Hqs as [|q r qs rs Hq Hqs].
  { cbn [map concat] in EX. apply app_eq_nil in EX as [-> En].
    assert (net = []) as -> by (destruct net as [|p net]; [done|]; cbn [concat] in En; apply app_eq_nil in En as [? _]; by inversion Hnet).
    assert (leftover (reqPtr s) = 0) as -> by (destruct Hp as [-> |(? & _ & _ & Hw & _)]; [done|apply Hw]). done. }
  cbn [map concat] in EX. set (rest := concat (map encode qs)) in *. rewrite EX in Hm. pose proof (encode_long q) as Hlong.
  assert (Hnn : leftover (reqPtr s) = 0 -> net <> []).
  { intros Hl0 ->. cbn [concat] in EX. rewrite app_nil_r in EX. destruct Hp as [Er|(u & Hu & Eu & _)].
    - rewrite Er in Hl0. destruct P; [apply (f_equal length) in EX; revert EX; lens|cbn in Hl0; lia].
    - destruct (prefix_sent d u q r P [] rest Hq Hu) as (st & s1 & E1 & [(_ & _ & ?)|(-> & _)]);
        [by rewrite app_nil_r|lia|revert Hm; lens|done|]. congruence. }
  assert ((leftover (reqPtr s) =? 0) && bool_decide (net = []) = false) as ->.
  { destruct (Z.eqb_spec (leftover (reqPtr s)) 0) as [E|]; [|done]. cbn [andb]. apply bool_decide_eq_false. by apply Hnn. }
  destruct (SockRead_has_read d s P net Hp) as (got & net' & u & Hu & Eg & Hnet' & Hgot & ER);
    [rewrite EX; intros E%(f_equal length); revert E; lens|done|done|done|by rewrite EX|].
  rewrite ER. assert (EX' : (P ++ got) ++ concat net' = encode q ++ rest) by (by rewrite <- app_assoc, Eg).
  assert (Hgl : (length got + length (concat net') = length (concat net))%nat) by (by rewrite <- Eg, length_app).
  assert (Hdec : (leftover (reqPtr s) =? 0) = true -> (1 <= length got)%nat).
  { intros E%Z.eqb_eq. specialize (Hgot E). destruct got; [done|cbn; lia]. }
  destruct (prefix_sent d u q r (P ++ got) (concat net') rest Hq Hu) as (st & s1 & E1 & Hst); [done|lia|revert Hm; lens|].
  rewrite E1. cbn [mbind option_bind]. destruct Hst as [(-> & Hw & Ht)|(-> & rest' & EP & Hreq & s2 & Ec & Er2)].
  - apply (IH n (q :: qs) (r :: rs) s1 (P ++ got)); [|by constructor|done|done|done|by rewrite EX'|].
    + right. exists u. split_and!; [done|done|done|]. destruct (SockParse_ok d (sarrive (P ++ got) u)) as (? & ? & E & Hlen).
      { apply arrive_reading; [rewrite Hu; left; unfold in_header, offsets_ok; by cbn|rewrite Hu; cbn; revert Hm; rewrite <- EX'; lens]. }
      rewrite E1 in E. injection E as <- <-. destruct (Hlen eq_refl) as [_ ->]. unfold sarrive. cbn [set_req reqPtr arrive buffer]. by rewrite Hu.
    + unfold todo in *. assert (leftover (reqPtr s1) = 0) as -> by apply Hw. cbn [Z.eqb].
      destruct (leftover (reqPtr s) =? 0); [specialize (Hdec eq_refl)|]; revert Hf; lens.
  - cbn [served]. destruct (kp n); [|destruct (NsSockClose_total s1 s2 false Ec) as [s3 ->]; cbn [mbind option_bind]; by rewrite Hreq].
    rewrite Ec. cbn [mbind option_bind]. assert (Erest : rest' ++ concat net' = rest).
    { rewrite EP, <- app_assoc in EX'. by apply app_inv_head in EX'. }
    rewrite (IH (S n) qs rs s2 rest' net'); [cbn [mbind option_bind]; rewrite Hreq; by destruct (served kp (S n) rs)|by left|done|done|done|done|rewrite Erest; revert Hm; lens|].
    unfold todo in *. apply (f_equal length) in EP. destruct (leftover (reqPtr s2) =? 0), (leftover (reqPtr s) =? 0);
      try specialize (Hdec eq_refl); revert Hf EP; lens.
Qed.

(** C6.  Requests sent one behind the other are read as these requests.  A message is one of version 1.0
    or later, without Transfer-Encoding, whose body has the length of its Content-Length, or
    is empty without one, and is not longer than the read-ahead limit (a longer one is spooled); its lines are within the
    limits of the driver, and together the messages are shorter than [maxinput].  For any such messages, arriving in any
    pieces that cut them anywhere, and any decisions to keep the connection, it yields
    exactly these requests, in this order, with their header fields and their bodies
    byte by byte, all of them when the connection is kept, else up to the first one behind which it is closed. *)
Theorem pipelined_requests d kp s qs rs net :
  reqPtr s = cleared [] -> Forall2 (reads_as d) qs rs -> Forall (fun p => p <> []) net -> concat net = concat (map encode qs) ->
  0 < bufsize d -> Z.of_nat (length (concat net)) < maxinput d < 2 ^ 63 ->
  serve (2 * length (concat net) + 1) d kp 0 s net = Some (served kp 0 rs) /\
  ((forall n, kp n = true) -> served kp 0 rs = (rs, SOCK_MORE)).
Proof.
  intros Hs Hqs Hnet EX Hb Hm. split.
  - apply (serve_spec d kp _ 0 qs rs s []); [by left|done..|]. unfold todo. rewrite Hs. change (leftover (cleared []) =? 0) with true. cbn [length]. lia.
  - intros Hk. clear Hqs. generalize 0%nat. induction rs as [|r rs IH]; intros n; cbn [served]; [done|]. by rewrite Hk, IH.
Qed.

(** ** Chunked bodies and the next request *)

(** A request whose header has been read, with a chunked body in the buffer. *)
Definition at_chunks (l : list Z) (v : double) (hs : list header) (pre body : list Z) : Request :=
  mkRequest (Some l) v hs None 0 0 (Z.of_nat (length body)) 0 (Z.of_nat (length pre)) (Z.of_nat (length pre))
    (Z.of_nat (length (pre ++ body))) (Z.of_nat (length pre)) (Z.of_nat (length pre)) 0 (pre ++ body) 0.

(** The last chunk alone leaves the buffer as it is. *)
Lemma decode_empty r pre ln fields rest : Holds r pre [] (message [] ln fields ++ rest) -> size_line ln 0 -> Forall field_ok fields ->
  exists off, ChunkedDecode r true = Some (SOCK_READY, set_chunk (buffer r) off (chunkWriteOff r) r).
Proof.
  intros HH Hln Hf. unfold message in HH. cbn [map concat app] in HH. rewrite <- !app_assoc in HH. unfold ChunkedDecode. cbn [decode_rounds].
  rewrite (proj2 (Z.ltb_lt _ _)) by (rewrite (holds_end _ _ _ _ HH); lens). unfold chunk_round. rewrite (holds_pending _ _ _ _ HH).
  rewrite upto_clean, (chunk_size_line _ _ Hln) by (by eapply size_line_clean).
  rewrite (proj2 (Z.ltb_ge _ _)) by (rewrite (holds_end _ _ _ _ HH); lens). cbn [Z.eqb].
  pose proof (next_chunk_last ln fields rest Hln Hf) as Hn. unfold next_chunk in Hn.
  rewrite upto_clean, (chunk_size_line _ _ Hln), (app_assoc ln), drop_app_length' in Hn by (lens || by eapply size_line_clean).
  rewrite (last_chunk_spec _ _ _ _ _ HH), Hn. by eexists.
Qed.

(** A chunked request with an empty body is read a second time as a request: it is
    complete with its last chunk, but [contentLength] is 0 and [avail] counts the bytes
    of the encoding, so that on a connection that is kept (and [CheckKeep] keeps it)
    the whole encoded body is left over as the beginning of the next request.  What
    follows the size in the line of the last chunk and the trailer are chosen by the
    sender of the body. *)
Theorem empty_chunked_body_left d s l v hs pre ln fields rest :
  reqPtr s = at_chunks l v hs pre (message [] ln fields ++ rest) -> pre <> [] -> size_line ln 0 -> Forall field_ok fields ->
  Z.of_nat (length (pre ++ message [] ln fields ++ rest)) < 2 ^ 63 ->
  exists s1 s2, SockParse d s = Some (SOCK_READY, s1) /\ request_of s1 = (Some l, hs, Some []) /\
    NsSockClose s1 true = Some s2 /\ reqPtr s2 = cleared (message [] ln fields ++ rest).
Proof.
  intros Er Hne Hln Hf Hl. set (body := message [] ln fields ++ rest) in *.
  assert (Hb0 : 0 < Z.of_nat (length body)) by (unfold body, message; lens).
  assert (Hp0 : Z.of_nat (length pre) <> 0) by (destruct pre; [done|cbn; lia]).
  assert (HH : Holds (at_chunks l v hs pre body) pre [] body).
  { exists []. cbn [at_chunks buffer coff chunkWriteOff chunkStartOff app]. rewrite !app_nil_r. done. }
  destruct (decode_empty _ _ _ _ _ HH Hln Hf) as [off Ed].
  assert (HS : SockParse d s = Some (SOCK_READY, set_req (set_content (Some (Z.of_nat (length pre))) (pre ++ body) 0
    (set_framing 0 0 0 off (Z.of_nat (length pre)) (at_chunks l v hs pre body))) s)).
  { unfold SockParse. cbn [header_loop]. rewrite Er. cbn [at_chunks coff]. rewrite (proj2 (Z.eqb_neq _ _)) by done. cbn [mbind option_bind].
    unfold parse_body. rewrite Er. cbn [at_chunks line]. fold (at_chunks l v hs pre body). unfold body_chunks. cbn [at_chunks chunkStartOff].
    rewrite (proj2 (Z.eqb_neq _ _)) by done. fold (at_chunks l v hs pre body). rewrite Ed. cbn [mbind option_bind set_chunk at_chunks chunkWriteOff coff].
    rewrite Z.sub_diag. change (wrap64 0) with 0. cbn [set_framing set_chunk at_chunks avail length_].
    rewrite (proj2 (Z.ltb_ge (Z.of_nat (length body)) 0)) by lia. done. }
  eexists _, _. split; [exact HS|]. split_and!.
  - unfold request_of, content_of. cbn [set_req reqPtr set_content set_framing at_chunks line headers buffer coff length_].
    pose proof (aslice_app pre [] body) as Ea. change (Z.of_nat (length (@nil Z))) with 0 in Ea. cbn [app] in Ea. by rewrite Ea.
  - unfold NsSockClose, RequestFree. cbn [set_keep set_req reqPtr keep set_content set_framing at_chunks contentLength avail buffer savedChar andb].
    rewrite (proj2 (Z.ltb_lt _ _)) by done. rewrite Z.sub_0_r.
    replace (Z.of_nat (length (pre ++ body)) - Z.of_nat (length body)) with (Z.of_nat (length pre)) by lens.
    pose proof (aslice_app pre body []) as Ea. rewrite app_nil_r in Ea. rewrite Ea. done.
  - done.
Qed.

(** [CheckKeep] keeps the connection of such a request, for a client of a version above 1.0
    that does not ask to close it, when the length of the response is known: the rule
    that a request with a body needs a Content-Length looks at the decoded length. *)
Lemma CheckKeep_empty_chunked w up down l v hs n out : 0 < w -> dlt (lit "1.0") v = true ->
  HdrEq hs (bytes "connection") (bytes "close") = false -> (0 < down -> n <= down) -> 0 <= up ->
  is_Some (get_header out (bytes "content-length")) ->
  CheckKeep (mkConn (w, 0) up down (-1) (Some l) v hs 0 n false out) = true.
Proof.
  intros Hw Hv Hc Hd Hu Ho. unfold CheckKeep. cbn [c_keepwait c_keepmaxuploadsize c_keepmaxdownloadsize c_keep c_line c_version c_headers c_contentLength
    c_responseLength c_chunk c_outputheaders fst snd]. rewrite (proj2 (Z.ltb_lt 0 w) Hw), Hv, Hc.
  rewrite (bool_decide_eq_true_2 (is_Some (Some l))) by eauto. rewrite (bool_decide_eq_true_2 (is_Some (get_header out _))) by done.
  cbn [orb andb negb Z.ltb Z.compare Z.eqb]. rewrite orb_true_r. cbn [negb].
  rewrite (proj2 (Z.ltb_ge up 0) Hu), andb_false_r. destruct (Z.ltb_spec 0 down); [|done]. specialize (Hd ltac:(done)).
  rewrite (proj2 (Z.ltb_ge down n) Hd), andb_false_r. done.
Qed.
End serve.

(** ** The framing of the body *)

(** The names of a header set are in lower case and C strings. *)
Definition names_ok (hs : list header) : Prop := Forall (fun h => Forall (fun c => c <> 0) h.1 /\ tolower <$> h.1 = h.1) hs.

Lemma get_header_first hs name : names_ok hs -> tolower <$> name = name -> get_header hs name = first_value name hs.
Proof.
  intros Hn Hl. unfold get_header, first_value, named. induction Hn as [|[n v] hs [_ E] _ IH]; [done|]. cbn [List.find fst] in *. rewrite E, Hl in *.
  case_bool_decide; [done|exact IH].
Qed.

Lemma no_occurrence sn hs : first_value sn hs = None -> occurrences sn hs = 0%nat.
Proof. unfold first_value, occurrences. induction hs as [|h hs IH]; [done|]. cbn. destruct (named sn h); [done|exact IH]. Qed.

(** What the framing fields of a header say about the body of the request. *)
Definition framing_agrees (cl te : option (list Z)) (r : Request) : Prop :=
  match cl, te with
  | Some cl, None => ParseStrictContentLength cl = Some (length_ r) /\ chunkStartOff r = 0
  | None, Some te => ParseRequestTransferEncoding te = true /\ chunkStartOff r = roff r /\ length_ r = 0
  | None, None => length_ r = 0 /\ chunkStartOff r = 0
  | Some _, Some _ => False
  end.

Lemma body_framing_agrees d cl s s' : length_ (reqPtr s) = 0 -> chunkStartOff (reqPtr s) = 0 -> body_framing d cl s = (SOCK_READY, s') ->
  framing_agrees cl (get_header (headers (reqPtr s)) (bytes "transfer-encoding")) (reqPtr s').
Proof.
  intros Hl Hc. unfold body_framing, framing_agrees. destruct cl as [cl|], (get_header _ (bytes "transfer-encoding")) as [te|]; try done.
  - destruct (ParseStrictContentLength cl); [|done]. destruct (_ <? _); by intros [= <-].
  - destruct (ParseRequestTransferEncoding te); [|done]. destruct (get_header _ _) as [x|]; [|by intros [= <-]].
    destruct (ParseStrictContentLength x) as [n|]; [|done]. destruct (0 <? n); [|done]. by intros [= <-].
  - intros [= <-]. done.
Qed.

Lemma EndOfHeader_agrees d ex s s' : length_ (reqPtr s) = 0 -> EndOfHeader d ex s = (SOCK_READY, s') ->
  framing_agrees (match aget ex NS_EXTRACTED_HEADER_CONTENT_LENGTH with Some v => v | None => None end)
    (get_header (headers (reqPtr s)) (bytes "transfer-encoding")) (reqPtr s').
Proof.
  intros Hl. unfold EndOfHeader. cbv zeta. set (s1 := clear_flag NS_CONN_ENTITYTOOLARGE _).
  assert (E1 : length_ (reqPtr s1) = 0 /\ chunkStartOff (reqPtr s1) = 0 /\ headers (reqPtr s1) = headers (reqPtr s))
    by (unfold s1; by destruct (expects_continue _)).
  clearbody s1. destruct E1 as (E1 & E2 & E3). destruct (body_framing _ _ s1) as [st s2] eqn:Eb. destruct st; try done. intros [= <-].
  rewrite accepted_codings_req, <- E3. by eapply body_framing_agrees.
Qed.

(** C9.  Requests with ambiguous framing are rejected: when the header is accepted,
    Content-Length and Transfer-Encoding together occur at most once; with
    Content-Length the body has the length of that number, which is digits only, with
    Transfer-Encoding, which is chunked, it is decoded from its chunks, and without
    either it is empty. *)
Theorem framing_unambiguous d s s' : names_ok (headers (reqPtr s)) -> length_ (reqPtr s) = 0 -> end_of_headers d s = Go s' ->
  let hs := headers (reqPtr s) in
  (occurrences (bytes "content-length") hs + occurrences (bytes "transfer-encoding") hs <= 1)%nat /\
  framing_agrees (first_value (bytes "content-length") hs) (first_value (bytes "transfer-encoding") hs) (reqPtr s').
Proof.
  intros Hn Hl. unfold end_of_headers. assert (Hz : Forall (fun h => Forall (fun c => c <> 0) h.1) (headers (reqPtr s))).
  { eapply Forall_impl; [exact Hn|]. by intros h [? _]. }
  pose proof (CheckSingleton_fields _ Hz) as Hs. destruct (CheckSingletonHeaderFields _) as [ex|]; [|done]. destruct Hs as [-> Hone].
  destruct (EndOfHeader d _ s) as [st s2] eqn:E. destruct (decide (st = SOCK_READY)) as [->|]; [|by destruct st].
  intros Hgo. assert (Er : reqPtr s' = reqPtr s2).
  { destruct (has_flag NS_CONN_CONTINUE s2); [destruct (has_flag NS_CONN_ENTITYTOOLARGE s2); [done|]|]; by injection Hgo as <-. }
  apply EndOfHeader_agrees in E; [|done]. rewrite get_header_first in E by done. change (match aget _ _ with Some v => v | None => None end)
    with (first_value (bytes "content-length") (headers (reqPtr s))) in E. cbv zeta. rewrite Er. split; [|done].
  pose proof (Hone (bytes "content-length") ltac:(vm_compute; repeat constructor)).
  pose proof (Hone (bytes "transfer-encoding") ltac:(vm_compute; repeat constructor)).
  unfold framing_agrees in E. destruct (first_value (bytes "content-length") _) eqn:Ec, (first_value (bytes "transfer-encoding") _) eqn:Et; [done|..];
    try rewrite (no_occurrence _ _ Ec); try rewrite (no_occurrence _ _ Et); lia.
Qed.

(** ** The theorems at concrete inputs *)

#[local] Existing Instance identity_encoding.
#[local] Instance plain_request_lines : RequestParser := Ns_ParseRequest_parser None.

Definition ex_put : sent := mkSent (bytes "PUT /a HTTP/1.1") [bytes "Host: h"; bytes "Content-Length: 3"] (bytes "abc").
Definition ex_get : sent := mkSent (bytes "GET /b HTTP/1.1") [bytes "Host: h"] [].
Definition ex_put_request : request := (Some (bytes "PUT /a HTTP/1.1"), [(bytes "host", bytes "h"); (bytes "content-length", bytes "3")], Some (bytes "abc")).
Definition ex_get_request : request := (Some (bytes "GET /b HTTP/1.1"), [(bytes "host", bytes "h")], Some []).
Definition ex_net : list (list Z) := let all := encode ex_put ++ encode ex_get in [take 20 all; take 50 (drop 20 all); drop 70 all].

Ltac read_as := eexists _, _, _; split_and!; [vm_compute; reflexivity|vm_compute; reflexivity|apply (bool_decide_unpack _); vm_compute; exact I
  |unfold line_ok; apply (bool_decide_unpack _); vm_compute; exact I|vm_compute; reflexivity
  |eexists; split_and!; [vm_compute; reflexivity|vm_compute; reflexivity|vm_compute; reflexivity]|apply (bool_decide_unpack _); vm_compute; exact I|reflexivity].

Lemma pipelined_requests_witness :
  Forall2 (reads_as ex_driver) [ex_put; ex_get] [ex_put_request; ex_get_request] /\
  serve (2 * length (concat ex_net) + 1) ex_driver (fun _ => true) 0 ex_sock ex_net = Some ([ex_put_request; ex_get_request], SOCK_MORE).
Proof.
  assert (HF : Forall2 (reads_as ex_driver) [ex_put; ex_get] [ex_put_request; ex_get_request]) by (repeat constructor; read_as).
  split; [exact HF|]. refine (proj1 (pipelined_requests ex_driver (fun _ => true) ex_sock [ex_put; ex_get] [ex_put_request; ex_get_request] ex_net eq_refl HF _ _ _ _)).
  - repeat constructor; discriminate.
  - vm_compute. reflexivity.
  - reflexivity.
  - apply (bool_decide_unpack _). vm_compute. exact I.
Defined.

(** The last chunk of an empty body, with an extension that reads as a request line. *)
Definition ex_last_chunk : list Z := bytes "0;a /x HTTP/1.1".
Definition ex_pre : list Z := bytes "POST / HTTP/1.1".
Definition ex_chunked : Sock := mkSock (at_chunks ex_pre (lit "1.1") [] ex_pre (message [] ex_last_chunk [bytes "Host: h"] ++ [])) true 0 0.

Lemma empty_chunked_body_left_witness :
  exists s1 s2, SockParse ex_driver ex_chunked = Some (SOCK_READY, s1) /\ NsSockClose s1 true = Some s2 /\
    reqPtr s2 = cleared (bytes "0;a /x HTTP/1.1" ++ CRLF ++ bytes "Host: h" ++ CRLF ++ CRLF) /\
    parse_request_line ex_last_chunk = Some (ex_last_chunk, lit "1.1").
Proof.
  destruct (empty_chunked_body_left ex_driver ex_chunked ex_pre (lit "1.1") [] ex_pre ex_last_chunk [bytes "Host: h"] []) as (s1 & s2 & E1 & _ & E2 & E3).
  - reflexivity.
  - discriminate.
  - exists (bytes "0"), (bytes ";a /x HTTP/1.1"). split_and!; [reflexivity| |reflexivity|reflexivity| |right; eexists; reflexivity].
    + split; [discriminate|]. apply Forall_cons. split; [exists 0; reflexivity|by apply Forall_nil].
    + unfold clean. apply (bool_decide_unpack _). vm_compute. exact I.
  - unfold field_ok, clean. apply (bool_decide_unpack _). vm_compute. exact I.
  - vm_compute. reflexivity.
  - exists s1, s2. split_and!; [exact E1|exact E2|rewrite E3; reflexivity|vm_compute; reflexivity].
Defined.

Definition ex_fields : list header := [(bytes "host", bytes "h"); (bytes "transfer-encoding", bytes "chunked")].
Definition ex_header : Sock := mkSock (at_line (Some (bytes "POST / HTTP/1.1")) (lit "1.1") ex_fields (bytes "abcdef") (bytes "def")) true 0 0.

Lemma framing_unambiguous_witness : exists s', end_of_headers ex_driver ex_header = Go s' /\ chunkStartOff (reqPtr s') = 3 /\
  framing_agrees None (Some (bytes "chunked")) (reqPtr s').
Proof.
  assert (E : exists s', end_of_headers ex_driver ex_header = Go s' /\ chunkStartOff (reqPtr s') = 3) by (eexists; split; vm_compute; reflexivity).
  destruct E as (s' & E & Hc). exists s'. split; [exact E|]. split; [exact Hc|].
  refine (proj2 (framing_unambiguous ex_driver ex_header s' _ eq_refl E)).
  repeat (apply Forall_cons; split; [split; [vm_compute; repeat constructor; discriminate|vm_compute; reflexivity]|]). by apply Forall_nil.
Defined.
