(* ===== verification/ConnState.v ===== *)
(** * ConnState: the states of a connection (nsd/driver.c).

    A connection is read with [SockRead] whenever there is input; a complete request is
    handed over, and when it is done [NsSockClose] makes the connection ready for the
    next one.  The states this can lead to, whatever the client sends and whatever the
    applications decide, are well-formed. *)

From S2P Require Import Prelude Str AcceptEncoding Chunked NsSet Header ReqLine SockRead Pipeline Requests.

#[local] Hint Rewrite length_CRLF : lens.

Section states.
Context `{RequestParser}.

Inductive reaches (d : Driver) : Sock -> Prop :=
| reaches_start s : reqPtr s = cleared [] -> reaches d s
| reaches_more s net s' net' : reaches d s -> SockRead d s net = Some (SOCK_MORE, s', net') -> reaches d s'
| reaches_next s net s1 net' k s2 : reaches d s -> SockRead d s net = Some (SOCK_READY, s1, net') -> NsSockClose s1 k = Some s2 -> reaches d s2.

(** The sizes of a driver: sums of buffers stay within a [ssize_t]. *)
Definition sizes_ok (d : Driver) : Prop :=
  0 <= bufsize d /\ 0 <= maxinput d /\ maxinput d + bufsize d < 2 ^ 63 /\ 0 <= readahead d /\ maxinput d + readahead d < 2 ^ 63.

(** The lengths of a body: a chunked one has none before it is complete. *)
Definition lengths_ok (r : Request) : Prop :=
  0 <= contentLength r /\ 0 <= length_ r <= UINT64_MAX /\ (chunkStartOff r = 0 \/ length_ r = 0).

(** ** The lengths while a header is read *)

Lemma length_digits_max p v n q : 0 <= v <= UINT64_MAX -> length_digits p v = Some (n, q) -> 0 <= n <= UINT64_MAX.
Proof.
  revert v. induction p as [|c p IH]; cbn [length_digits]; intros v Hv; [by intros [= <- _]|].
  destruct (isdigit c) eqn:Ed; [|by intros [= <- _]]. destruct (Z.ltb_spec ((UINT64_MAX - (c - 48)) / 10) v); [done|]. apply IH.
  assert (48 <= c <= 57) by (revert Ed; unfold isdigit; zcases; done || lia). unfold UINT64_MAX in *.
  pose proof (Z.mul_div_le (2 ^ 64 - 1 - (c - 48)) 10 ltac:(lia)). lia.
Qed.

Lemma ParseStrictContentLength_max s n : ParseStrictContentLength s = Some n -> 0 <= n <= UINT64_MAX.
Proof.
  unfold ParseStrictContentLength. destruct (Ns_StrTrimLeft s) as [|c p]; [done|].
  destruct (length_digits (c :: p) 0) as [[v q]|] eqn:E; [|done]. apply length_digits_max in E; [|done].
  destruct (Ns_StrTrimLeft q); [by intros [= <-]|done].
Qed.

Lemma body_framing_lengths d cl s : chunkStartOff (reqPtr s) = 0 -> lengths_ok (reqPtr s) -> lengths_ok (reqPtr (body_framing d cl s).2).
Proof.
  intros Hc Hl. unfold body_framing. destruct cl as [cl|], (get_header _ (bytes "transfer-encoding")) as [te|]; try done.
  - destruct (ParseStrictContentLength cl) as [n|] eqn:E; [|done]. apply ParseStrictContentLength_max in E.
    destruct (_ <? _); (split_and!; cbn; [lia..|by left]).
  - destruct (ParseRequestTransferEncoding te); [|done]. repeat case_match; (split_and!; cbn; [done..|by right]).
Qed.

Lemma end_of_headers_lengths d s s' : lengths_ok (reqPtr s) -> end_of_headers d s = Go s' -> lengths_ok (reqPtr s').
Proof.
  intros (Hc & Hl & _). unfold end_of_headers. destruct (CheckSingletonHeaderFields _) as [ex|]; [|done].
  unfold EndOfHeader. cbv zeta. set (s1 := clear_flag NS_CONN_ENTITYTOOLARGE _).
  set (cl := match aget ex NS_EXTRACTED_HEADER_CONTENT_LENGTH with Some v => v | None => None end).
  assert (E1 : chunkStartOff (reqPtr s1) = 0 /\ lengths_ok (reqPtr s1)).
  { unfold s1, lengths_ok. destruct (expects_continue _); cbn; auto. }
  clearbody s1. pose proof (body_framing_lengths d cl s1 (proj1 E1) (proj2 E1)) as Hf.
  destruct (body_framing d cl s1) as [st s2]. cbn [snd] in Hf. destruct st; try done.
  pose proof (accepted_codings_req s2) as Er. set (s3 := accepted_codings s2) in *.
  destruct (has_flag NS_CONN_CONTINUE s3); [destruct (has_flag NS_CONN_ENTITYTOOLARGE s3); [done|]|]; intros [= <-]; cbn [reqPtr]; by rewrite Er.
Qed.

Lemma header_step_lengths d s s' : in_header (reqPtr s) -> lengths_ok (reqPtr s) -> header_step d s = Some (Go s') -> lengths_ok (reqPtr s').
Proof.
  intros Hh Hl. rewrite (header_step_line _ _ Hh). destruct (strchr 10 _) as [ln [q|]]; [|done]. unfold take_line.
  assert (Ht : lengths_ok (reqPtr (taken d ln s))) by exact Hl.
  destruct (strip_cr ln) as [|c text]; [intros [= E]; by apply (end_of_headers_lengths d (taken d ln s))|].
  unfold text_line. destruct (aset _ _ _); [|done]. cbn [mbind option_bind]. destruct (line _).
  - destruct (parse_header _ _); [|done]. destruct (_ <? _); [done|]. intros [= <-]. exact Ht.
  - destruct (parse_request_line _) as [[? ?]|]; [|done]. intros [= <-]. cbn [set_req reqPtr]. by destruct (dlt _ _).
Qed.

Lemma header_loop_lengths d fuel : forall s, reading (reqPtr s) -> lengths_ok (reqPtr s) ->
  match header_loop fuel d s with
  | Some (Go s') | Some (Done SOCK_MORE s') => lengths_ok (reqPtr s')
  | _ => True
  end.
Proof.
  induction fuel as [|fuel IH]; intros s Hr Hl; cbn [header_loop]; [done|]. destruct (Z.eqb_spec (coff (reqPtr s)) 0) as [E0|]; [|done].
  destruct Hr as [Hh|(_ & ? & _)]; [|lia]. destruct (header_step_ok d s Hh) as (x & Ex & Hx). rewrite Ex. cbn [mbind option_bind].
  destruct Hx as [->|Hx]; [done|]. destruct x as [st s'|s']; [destruct Hx as [Hm _]; by destruct st|].
  apply IH; [apply Hx|]. by apply (header_step_lengths d s).
Qed.

(** ** The body *)

(** What a request has when it is handed over. *)
Definition ready (r : Request) : Prop :=
  exists r0, in_body r0 /\ complete r0 = Some r /\ 0 <= contentLength r0 /\ length_ r0 <= avail r0.

Lemma body_chunks_lengths r st r' : in_body r -> lengths_ok r -> body_chunks r = Some (st, r') ->
  0 <= contentLength r' /\ (st <> SOCK_READY -> lengths_ok r') /\ (chunkStartOff r = 0 -> r' = r).
Proof.
  intros Hin Hl. unfold body_chunks. destruct (Z.eqb_spec (chunkStartOff r) 0) as [|Hne].
  { intros [= <- <-]. split; [apply Hl|done]. }
  pose proof Hin as (_ & _ & _ & _ & [?|(pre & dec & s & HH)]); [done|].
  destruct (ChunkedDecode_total _ _ _ _ HH) as (st1 & r1 & dec' & s' & -> & Hsr & HH'). cbn [mbind option_bind].
  assert (Hc : contentLength r1 = contentLength r /\ length_ r1 = length_ r) by (destruct Hsr as [-> _]; done). destruct Hc as [Hc1 Hc2].
  assert (Hr1 : lengths_ok r1). { destruct Hl as (? & ? & [?|Hl]); [done|]. unfold lengths_ok. rewrite Hc1, Hc2, Hl. by split_and!; [..|right]. }
  set (st2 := match st1 with SOCK_MORE => _ | _ => _ end).
  intros E. split_and!; [|intros Hst|done].
  - destruct st2; injection E as <- <-; apply Hr1.
  - destruct st2; injection E as <- <-; done.
Qed.

Lemma parse_body_lengths s st s' : in_body (reqPtr s) -> lengths_ok (reqPtr s) -> parse_body s = Some (st, s') ->
  (st = SOCK_MORE -> lengths_ok (reqPtr s') /\ (length_ (reqPtr s') = 0 \/ avail (reqPtr s') < length_ (reqPtr s'))) /\
  (st = SOCK_READY -> ready (reqPtr s')).
Proof.
  intros Hin Hl. unfold parse_body. destruct (line (reqPtr s)); [|by intros [= <- <-]].
  destruct (body_chunks_ok _ Hin) as (st1 & r & E & Hr & _ & _ & _ & Hrd). destruct (body_chunks_lengths _ _ _ Hin Hl E) as (Hc & Hne & Hsame).
  rewrite E. cbn [mbind option_bind]. destruct (decide (st1 = SOCK_READY)) as [->|Hst].
  - destruct (Z.ltb_spec (avail r) (length_ r)) as [Hlt|Hge].
    + intros [= <- <-]. split; [|done]. intros _. cbn [set_req reqPtr]. destruct (Hrd eq_refl) as [->|?]; [|lia]. auto.
    + destruct (complete r) as [r'|] eqn:Er; [|done]. cbn [mbind option_bind]. intros [= <- <-]. split; [done|]. intros _. by exists r.
  - specialize (Hne Hst). assert (Hz : length_ r = 0).
    { destruct (Z.eqb_spec (chunkStartOff (reqPtr s)) 0) as [Ez|Hnz].
      - unfold body_chunks in E. rewrite Ez in E. by injection E as <- <-.
      - unfold body_chunks in E. rewrite (proj2 (Z.eqb_neq _ _) Hnz) in E.
        pose proof Hin as (_ & _ & _ & _ & [?|(pre & dec & t & HH)]); [done|].
        destruct (ChunkedDecode_total _ _ _ _ HH) as (st2 & r2 & dec' & t' & E2 & Hsr & _). rewrite E2 in E. cbn [mbind option_bind] in E.
        assert (length_ r2 = 0) by (destruct Hsr as [-> _]; destruct Hl as (_ & _ & [?|?]); done).
        destruct st2; try (by injection E as <- <-). destruct (_ && _); by injection E as <- <-. }
    destruct st1; try done; intros [= <- <-]; (split; [|done]); intros Em; done || (split; [done|by left]).
Qed.

(** ** The invariant *)

Definition well_formed (d : Driver) (s : Sock) : Prop :=
  Z.of_nat (length (buffer (reqPtr s))) <= maxinput d /\
  (reqPtr s = cleared (buffer (reqPtr s)) \/
   reading (reqPtr s) /\ lengths_ok (reqPtr s) /\ (length_ (reqPtr s) = 0 \/ avail (reqPtr s) < length_ (reqPtr s))).

(** A call of [SockRead] ends, and what it leaves. *)
Definition read_ok (d : Driver) (x : option (SockState * Sock * list (list Z))) : Prop :=
  exists st s' net', x = Some (st, s', net') /\ (st = SOCK_MORE -> well_formed d s') /\
    (st = SOCK_READY -> ready (reqPtr s') /\ Z.of_nat (length (buffer (reqPtr s'))) <= maxinput d).

Lemma SockParse_read_ok d s net : reading (reqPtr s) -> lengths_ok (reqPtr s) -> Z.of_nat (length (buffer (reqPtr s))) <= maxinput d ->
  read_ok d ('(st, s') ← SockParse d s; Some (st, s', net)).
Proof.
  intros Hr Hl Hb. unfold SockParse. destruct (header_ok d s Hr) as (x & E & Hx). pose proof (header_loop_lengths d (S (Z.to_nat (avail (reqPtr s)))) s Hr Hl) as Hlx.
  unfold read_header in E. rewrite E in Hlx |- *. cbn [mbind option_bind]. destruct x as [st s'|s'].
  - destruct Hx as [Hnr Hm]. exists st, s', net. split_and!; [done| |done]. intros ->. destruct (Hm eq_refl) as [Hh Eb].
    split; [by rewrite Eb|]. right. split_and!; [by left|done|left; apply Hh].
  - destruct Hx as [Hin Eb]. destruct (parse_body_ok s' Hin) as (st & s2 & E2 & Hm & _ & Hlen). rewrite E2.
    destruct (parse_body_lengths _ _ _ Hin Hlx E2) as [Hmore Hready]. exists st, s2, net. rewrite Eb in Hlen. split_and!; [done| |].
    + intros ->. split; [by rewrite Hlen|]. right. split; [right; by apply Hm|]. by apply Hmore.
    + intros ->. rewrite Hlen. split; [by apply Hready|done].
Qed.

Lemma cleared_reading : reading (cleared []) /\ lengths_ok (cleared []).
Proof. split; [left|]; unfold in_header, offsets_ok, lengths_ok, UINT64_MAX; cbn; split_and!; done || lia || by left. Qed.

Lemma ssize_id z : 0 <= z < 2 ^ 63 -> ssize z = z.
Proof. intros Hz. unfold ssize. rewrite Z.mod_small by lia. lia. Qed.

Lemma SockRead_ok d s net : sizes_ok d -> well_formed d s -> read_ok d (SockRead d s net).
Proof.
  intros (Hbs & Hmi & Hsum & Hra & Hsum2) [Hb Hw]. unfold SockRead. cbv zeta. set (buflen := Z.of_nat (length (buffer (reqPtr s)))) in *.
  set (n0 := if length_ (reqPtr s) =? 0 then _ else _). set (full := maxinput d <? _). set (n := if full then _ else n0).
  destruct (full && (n =? 0)); [by exists SOCK_ERROR, s, net|]. destruct ((0 <? coff _) && _ && _) eqn:Esp; [by exists SOCK_SPOOL, s, net|].
  destruct (Z.ltb_spec 0 (leftover (reqPtr s))) as [Hleft|Hleft].
  - destruct Hw as [Er|(Hr & _)].
    2: { exfalso. destruct Hr as [((_ & _ & _ & _ & ?) & _)|((_ & _ & _ & _ & ?) & _)]; lia. }
    rewrite Er, take_leftover_cleared. destruct cleared_reading as [Hr0 Hl0]. unfold buflen in *.
    apply SockParse_read_ok; cbn [set_req reqPtr]; [apply arrive_reading; [done|cbn [cleared buffer app]; lia]|exact Hl0|cbn; lia].
  - assert (Hok : reading (reqPtr s) /\ lengths_ok (reqPtr s) /\ (length_ (reqPtr s) = 0 \/ avail (reqPtr s) < length_ (reqPtr s))).
    { destruct Hw as [Er|?]; [|done]. rewrite Er in Hleft |- *. cbn [cleared leftover] in Hleft.
      assert (buffer (reqPtr s) = []) as -> by (destruct (buffer (reqPtr s)); [done|cbn in Hleft; lia]). destruct cleared_reading. auto. }
    destruct Hok as (Hr & Hl & Hcase). destruct net as [|piece net].
    { exists SOCK_MORE, s, []. split_and!; [done| |done]. intros _. split; [done|by right]. }
    assert (Hn0 : 0 <= n0 /\ buflen + n0 < 2 ^ 63).
    { unfold n0. destruct (Z.eqb_spec (length_ (reqPtr s)) 0) as [|Hnz]; [lia|]. destruct Hcase as [?|Hlt]; [done|].
      destruct Hl as (_ & Hmax & [Hcs|?]); [|done]. destruct Hr as [Hh|(Ho & Hc & _)]; [exfalso; by destruct Hh as (_ & _ & _ & _ & ? & _)|].
      destruct Ho as (Ha & _). unfold UINT64_MAX in Hmax. rewrite wrap64_id by lia.
      rewrite Hcs, (proj2 (Z.ltb_lt 0 _) Hc) in Esp. cbn [Z.eqb andb] in Esp. apply Z.ltb_ge in Esp. lia. }
    assert (Hn : 0 <= n /\ buflen + n <= maxinput d).
    { unfold n. destruct full eqn:Ef; unfold full in Ef; [rewrite wrap64_id by lia; lia|].
      apply Z.ltb_ge in Ef. rewrite ssize_id in Ef by (unfold buflen in *; lia). lia. }
    assert (Ho : offsets_ok (reqPtr s)) by (destruct Hr as [(? & _)|(? & _)]; done).
    rewrite receive_arrive by (done || lens). cbn [mbind option_bind]. set (got := take _ piece).
    assert (Hg : Z.of_nat (length (buffer (reqPtr s) ++ got)) <= maxinput d) by (unfold got, buflen in *; lens).
    apply SockParse_read_ok; cbn [set_req reqPtr]; [apply arrive_reading; [done|lia]|exact Hl|exact Hg].
Qed.

Lemma complete_length r r' : complete r = Some r' -> length (buffer r') = length (buffer r) /\ contentLength r' = contentLength r /\ avail r' = avail r /\
  coff r' = coff r /\ length_ r' = length_ r.
Proof.
  unfold complete. destruct (0 <? length_ r); [|by intros [= <-]]. destruct (_ =? _); [by intros [= <-]|].
  destruct (aget _ _); [|done]. cbn [mbind option_bind]. unfold aset. destruct (_ && _); [|done]. cbn [mbind option_bind]. intros [= <-].
  cbn. by rewrite length_insert.
Qed.

Lemma aslice_within {A} (a : list A) i k : 0 <= i -> 0 <= k -> i + k <= Z.of_nat (length a) ->
  exists l, aslice a i k = Some l /\ Z.of_nat (length l) = k.
Proof. intros. unfold aslice. rewrite !(proj2 (Z.leb_le _ _)) by lia. cbn [andb]. eexists. split; [done|]. lens. Qed.

(** The content is there, and the next request is made ready. *)
Lemma ready_close s k : ready (reqPtr s) ->
  (exists c, content_of (reqPtr s) = Some c /\ Z.of_nat (length c) = length_ (reqPtr s)) /\
  exists s2, NsSockClose s k = Some s2 /\ reqPtr s2 = cleared (buffer (reqPtr s2)) /\ (length (buffer (reqPtr s2)) <= length (buffer (reqPtr s)))%nat.
Proof.
  intros (r0 & ((Ha & Hb & _) & Hc & Hcr & Hl & _) & Er & Hcl & Hle). destruct (complete_length _ _ Er) as (E1 & E2 & E3 & E4 & E5). split.
  - unfold content_of. apply aslice_within; lia.
  - unfold NsSockClose, RequestFree. cbn [set_keep keep reqPtr]. destruct k; cbn [andb]; [|eexists; split; [done|]; split; [done|cbn; lia]].
    rewrite E2, E3. destruct (Z.ltb_spec (contentLength r0) (avail r0)); [|eexists; split; [done|]; split; [done|cbn; lia]].
    destruct (aslice_within (buffer (reqPtr s)) (Z.of_nat (length (buffer (reqPtr s))) - (avail r0 - contentLength r0)) (avail r0 - contentLength r0))
      as (b & -> & Hbl); [lia..|]. cbn [mbind option_bind]. eexists. split; [done|]. cbn [set_req reqPtr cleared buffer].
    destruct (_ =? 0); rewrite ?length_insert; (split; [done|lia]).
Qed.

Lemma reaches_well_formed d s : sizes_ok d -> reaches d s -> well_formed d s.
Proof.
  intros Hd. induction 1 as [s Er|s net s' net' _ IH E|s net s1 net' k s2 _ IH E Ec].
  - split; [rewrite Er; destruct Hd as (? & ? & _); cbn; lia|left; by rewrite Er].
  - destruct (SockRead_ok d s net Hd IH) as (st & s1 & n1 & E1 & Hm & _). rewrite E in E1. injection E1 as <- <- <-. by apply Hm.
  - destruct (SockRead_ok d s net Hd IH) as (st & s' & n1 & E1 & _ & Hr). rewrite E in E1. injection E1 as <- <- <-.
    destruct (Hr eq_refl) as [Hrd Hb]. destruct (ready_close s1 k Hrd) as (_ & s3 & E3 & Er & Hle). rewrite Ec in E3. injection E3 as <-.
    split; [lia|by left].
Qed.

(** C7.  Every state that a connection can reach is well-formed, whatever the client sends
    in whatever pieces and whether connections are kept or not: reading always ends and
    stays within the buffer, which never gets longer than maxinput; the offsets of the
    request are consistent; and a request that is handed over has a content of the
    announced length inside the buffer and can be followed by the next one. *)
Theorem reachable_well_formed d s net : sizes_ok d -> reaches d s ->
  well_formed d s /\
  exists st s' net', SockRead d s net = Some (st, s', net') /\
    (st = SOCK_READY -> (exists c, content_of (reqPtr s') = Some c /\ Z.of_nat (length c) = length_ (reqPtr s')) /\
      forall k, exists s2, NsSockClose s' k = Some s2 /\ well_formed d s2).
Proof.
  intros Hd Hs. pose proof (reaches_well_formed d s Hd Hs) as Hw. split; [done|].
  destruct (SockRead_ok d s net Hd Hw) as (st & s' & net' & E & _ & Hr). exists st, s', net'. split; [done|]. intros Est.
  destruct (Hr Est) as [Hrd Hb]. split; [apply (ready_close s' true Hrd)|]. intros k.
  destruct (ready_close s' k Hrd) as (_ & s2 & E2 & Er & Hle). exists s2. split; [done|]. split; [lia|by left].
Qed.
End states.

(** ** The theorem at a concrete input *)

#[local] Existing Instance identity_encoding.
#[local] Instance connection_lines : RequestParser := Ns_ParseRequest_parser None.

Lemma reachable_well_formed_witness :
  exists s1 net1, SockRead ex_driver ex_sock ex_net = Some (SOCK_MORE, s1, net1) /\ well_formed ex_driver s1 /\ is_Some (SockRead ex_driver s1 net1).
Proof.
  assert (E : exists s1 net1, SockRead ex_driver ex_sock ex_net = Some (SOCK_MORE, s1, net1)) by (eexists _, _; vm_compute; reflexivity).
  destruct E as (s1 & net1 & E). exists s1, net1. split; [exact E|].
  destruct (reachable_well_formed ex_driver s1 net1) as (Hw & st & s' & net' & E2 & _).
  - unfold sizes_ok. cbn. lia.
  - exact (reaches_more ex_driver ex_sock ex_net s1 net1 (reaches_start ex_driver ex_sock eq_refl) E).
  - split; [exact Hw|]. eexists. exact E2.
Defined.
