(* ===== verification/Form.v ===== *)
(** * Form: parsing of URL-encoded queries (nsd/form.c), against [UrlEncode] and [NsSet]. *)

From S2P Require Import Prelude Utf8 Str UrlTables UrlEncode NsSet.

Section form.
Context `{TclEncoding} `{TclDString}.

(** Carriage returns removed from a C string, if [translate]. *)
Definition translated (translate : bool) (v : list Z) : list Z :=
  let v := before_nul v in if translate then filter (fun c : Z => c <> 13) v else v.

(** One round of the loop: [k] is the text up to the ampersand.  The status is the one
    of the last call of [Ns_UrlQueryDecode]. *)
Definition parse_field (k : list Z) (set : Ns_Set) (encoding : option Tcl_Encoding) (translate : bool) :
    outcome (option (Ns_Set * bool)) :=
  let '(k, v) := strchr 61 k in
  rk ← Ns_UrlQueryDecode [] k encoding;
  match rk with
  | None => Ret None
  | Some (k, result) =>
      rv ← (match v with
           | None => Ret (Some (None, result))
           | Some v => r ← Ns_UrlQueryDecode [] v encoding;
                       mret (match r with None => None | Some (v, ok) => Some (Some (translated translate v), ok) end)
           end : outcome (option (option (list Z) * bool)));
      match rv with
      | None => Ret None
      | Some (v, result) =>
          if (result : bool) then r ← Ns_SetPut set (before_nul k) v; mret (Some (r.1, result))
          else Ret (Some (set, result))
      end
  end.

(** [result] is the status after the rounds before. *)
Fixpoint parse_loop (fuel : nat) (p : list Z) (set : Ns_Set) (encoding : option Tcl_Encoding) (translate : bool) :
    outcome (option (Ns_Set * bool)) :=
  match fuel with
  | O => Ret None
  | S fuel =>
      let '(k, rest) := strchr 38 p in
      r ← parse_field k set encoding translate;
      match r with
      | None => Ret None
      | Some (set, result) =>
          match rest with
          | None => Ret (Some (set, result))
          | Some p => parse_loop fuel p set encoding translate
          end
      end
  end.

(** The set and whether the status is [NS_OK]. *)
Definition ParseQuery (form : list Z) (set : Ns_Set) (encoding : option Tcl_Encoding) (translate : bool) :
    outcome (option (Ns_Set * bool)) := parse_loop (S (length form)) form set encoding translate.

Definition Ns_QueryToSet query set encoding := ParseQuery query set encoding false.

(** [fallbackEncoding] is what [NsGetFallbackEncoding] returns. *)
Definition ParseQueryWithFallback (toParse : list Z) (set : Ns_Set) (encoding : option Tcl_Encoding) (translate : bool)
    (fallbackEncoding : option (option Tcl_Encoding)) : outcome (option (Ns_Set * bool)) :=
  r ← ParseQuery toParse set encoding translate;
  match r, fallbackEncoding with
  | Some (set, false), Some (Some e) =>
      if bool_decide (Some e = encoding) then Ret r
      else set ← Ns_SetTrunc set 0; ParseQuery toParse set (Some e) translate
  | _, _ => Ret r
  end.

End form.

(** ** Lemmas *)

Lemma allowed_q c : allowed ch_q c = true -> c <> 38 /\ c <> 61.
Proof. intros Ha. split; intros ->; by vm_compute in Ha. Qed.

Lemma ch_q_scheme : ch_q ∈ schemes.
Proof. apply list_elem_of_In. cbn. tauto. Qed.

Lemma escaped_no_delims up p : is_bytes p -> Forall (fun c => c <> 38 /\ c <> 61) (escaped ch_q up p).
Proof.
  intros Hp. induction Hp as [|c p Hc _ IH]; [constructor|]. unfold escaped in *. rewrite fmap_cons. cbn [concat].
  apply Forall_app. split; [|done]. pose proof (escape_allowed ch_q up c ch_q_scheme Hc) as Ha. rewrite forallb_forall in Ha.
  apply Forall_forall. intros x Hx. apply allowed_q, Ha. by apply list_elem_of_In.
Qed.

Section parsing.
Context `{TclEncoding} `{TclDStringLaws}.

(** Text that a query can carry: C strings of bytes that the encoding represents. *)
Definition field_text (e : option Tcl_Encoding) (s : list Z) : Prop :=
  is_bytes (external e s) /\ representable e s /\ cstring s.

Definition encoded (e : option Tcl_Encoding) (up : bool) (s : list Z) : list Z := escaped ch_q up (external e s).

Definition encoded_pair e up (t : list Z * list Z) : list Z := encoded e up t.1 ++ 61 :: encoded e up t.2.

Fixpoint joined e up (l : list (list Z * list Z)) : list Z :=
  match l with
  | [] => []
  | [t] => encoded_pair e up t
  | t :: l => encoded_pair e up t ++ 38 :: joined e up l
  end.

Definition flatten (l : list (list Z * list Z)) : list (list Z) := concat ((fun t => [t.1; t.2]) <$> l).

Lemma query_pairs_spec e up first ds l :
  Forall (fun t => field_text e t.1 /\ field_text e t.2) l -> l <> [] ->
  query_pairs first ds (flatten l) e up = Ret (ds ++ (if first then [] else [38]) ++ joined e up l).
Proof.
  intros Hl. revert first ds. induction Hl as [|[n v] l [Hn Hv] Hl IH]; intros first ds Hne; [done|].
  unfold flatten. cbn [fmap list_fmap concat app fst snd query_pairs]. cbn in Hn, Hv.
  rewrite UrlEncode_app by (apply ch_q_scheme || apply Hn). cbn [mbind outcome_bind].
  rewrite UrlEncode_app by (apply ch_q_scheme || apply Hv). cbn [mbind outcome_bind]. fold (flatten l).
  destruct l as [|t l].
  - cbn [flatten fmap list_fmap concat query_pairs joined]. unfold encoded_pair, encoded. cbn [fst snd]. destruct first; cbn [app]; rewrite <- ?app_assoc; done.
  - rewrite IH by done. cbn [joined]. unfold encoded_pair, encoded. cbn [fst snd].
    destruct first; cbn [app]; rewrite <- ?app_assoc; cbn [app]; rewrite <- ?app_assoc; done.
Qed.

Lemma UrlEncodeQuery_joined e up l :
  Forall (fun t => field_text e t.1 /\ field_text e t.2) l -> l <> [] ->
  UrlEncodeQuery [] (flatten l) e up = Ret (Some (joined e up l)).
Proof.
  intros Hl Hne. pose proof (query_pairs_spec e up true [] l Hl Hne) as E. cbn [app] in E. unfold UrlEncodeQuery.
  destruct l as [|[n v] l]; [done|]. unfold flatten in *. cbn [fmap list_fmap concat app fst snd] in *.
  assert (Nat.even (length (n :: v :: concat ((fun t => [t.1; t.2]) <$> l))) = true) as ->.
  { clear. cbn. induction l as [|t l IH]; [done|]. cbn. exact IH. }
  cbn [negb]. rewrite E. done.
Qed.

Lemma decode_encoded e up s : field_text e s -> Ns_UrlQueryDecode [] (encoded e up s) e = Ret (Some (s, true)).
Proof. intros (Hb & Hr & _). unfold Ns_UrlQueryDecode, encoded. by rewrite encode_decode by (apply ch_q_scheme || done). Qed.

Lemma parse_field_pair e up set l t :
  rep set l -> field_text e t.1 -> field_text e t.2 ->
  exists set', parse_field (encoded_pair e up t) set e false = Ret (Some (set', true)) /\
    rep set' (l ++ [(key_of (nocase set) t.1, Some t.2)]) /\ nocase set' = nocase set.
Proof.
  intros Hr Hn Hv. unfold parse_field, encoded_pair.
  assert (Forall (fun c => c <> 38 /\ c <> 61) (encoded e up t.1)) as Hd by apply escaped_no_delims, Hn.
  rewrite strchr_app by (eapply Forall_impl; [exact Hd|]; intros x Hx; apply Hx).
  rewrite decode_encoded by done. cbn [mbind outcome_bind]. rewrite decode_encoded by done. cbn [mbind outcome_bind mret outcome_ret].
  unfold translated. rewrite !before_nul_id by (apply Hn || apply Hv).
  destruct (SetPut_rep set l t.1 (Some t.2) Hr) as (set' & -> & Hr' & Hnc); [apply Hn|intros w [= <-]; apply Hv|].
  exists set'. split; [done|]. done.
Qed.

Lemma encoded_pair_no_amp e up t :
  field_text e t.1 -> field_text e t.2 -> Forall (fun c => c <> 38) (encoded_pair e up t).
Proof.
  intros Hn Hv. unfold encoded_pair. apply Forall_app. split; [|apply Forall_cons; split; [done|]];
    (eapply Forall_impl; [apply escaped_no_delims; (apply Hn || apply Hv)|intros x Hx; apply Hx]).
Qed.

Lemma parse_joined e up fuel set l pairs :
  Forall (fun t => field_text e t.1 /\ field_text e t.2) pairs -> pairs <> [] -> rep set l -> (length pairs <= fuel)%nat ->
  exists set', parse_loop fuel (joined e up pairs) set e false = Ret (Some (set', true)) /\
    rep set' (l ++ ((fun t => (key_of (nocase set) t.1, Some t.2)) <$> pairs)).
Proof.
  intros Hp. revert fuel set l. induction Hp as [|t pairs [Hn Hv] Hp IH]; intros fuel set l Hne Hr Hf; [done|].
  destruct fuel as [|fuel]; [cbn in Hf; lia|]. cbn [parse_loop].
  destruct (parse_field_pair e up set l t Hr Hn Hv) as (set1 & E1 & Hr1 & Hnc). destruct pairs as [|t2 pairs].
  - cbn [joined]. rewrite strchr_none by (by apply encoded_pair_no_amp). rewrite E1. cbn. by exists set1.
  - cbn [joined]. rewrite strchr_app by (by apply encoded_pair_no_amp). rewrite E1. cbn [mbind outcome_bind].
    destruct (IH fuel set1 _ ltac:(done) Hr1) as (set2 & E2 & Hr2); [cbn in *; lia|]. exists set2. split; [exact E2|].
    rewrite Hnc, <- app_assoc in Hr2. exact Hr2.
Qed.

Lemma joined_length e up l : (length l <= S (length (joined e up l)))%nat.
Proof.
  induction l as [|t l IH]; [cbn; lia|]. destruct l as [|t2 l]; [cbn; lia|].
  change (joined e up (t :: t2 :: l)) with (encoded_pair e up t ++ 38 :: joined e up (t2 :: l)).
  rewrite length_app. cbn [length] in *. unfold encoded_pair at 1. rewrite length_app. cbn [length]. lia.
Qed.

(** ** Theorems *)

(** Name/value pairs survive the way into a query string and back: [UrlEncodeQuery]
    and then [ParseQuery] append exactly the pairs to the set, in order, for every
    character set that represents them. *)
Theorem ParseQuery_roundtrip e up set l pairs :
  Forall (fun t => field_text e t.1 /\ field_text e t.2) pairs -> pairs <> [] -> rep set l ->
  exists query set', UrlEncodeQuery [] (flatten pairs) e up = Ret (Some query) /\
    ParseQuery query set e false = Ret (Some (set', true)) /\
    rep set' (l ++ ((fun t => (key_of (nocase set) t.1, Some t.2)) <$> pairs)).
Proof.
  intros Hp Hne Hr. destruct (parse_joined e up (S (length (joined e up pairs))) set l pairs Hp Hne Hr) as (set' & E & Hr');
    [apply joined_length|].
  exists (joined e up pairs), set'. split_and!; [by apply UrlEncodeQuery_joined|exact E|done].
Qed.

End parsing.

(** ** Concrete character set and buffer *)

#[local] Instance utf8_only : TclEncoding := {|
  Tcl_Encoding := bool;
  Tcl_Encoding_eq := bool_eq_dec;
  NS_utf8Encoding := true;
  Tcl_UtfToExternalDString := fun _ s => s;
  Tcl_ExternalToUtfDString := fun _ s => s;
|}.

#[local] Instance growing : TclDString := {|
  Tcl_DStringInit := mkDString 1000 [];
  Tcl_DStringAppend d s := mkDString (ds_string d + 100) (ds_bytes d ++ s);
  Tcl_DStringSetLength d n := mkDString (ds_string d) (take (Z.to_nat n) (ds_bytes d ++ replicate (Z.to_nat n) 0));
|}.

#[local] Instance growing_laws : TclDStringLaws.
Proof.
  split; [done|done| |done]. intros d n Hn. exists (replicate (Z.to_nat n) 0). cbn. split; [done|lens].
Qed.

Definition empty_set : Ns_Set := Ns_SetCreate None.

Lemma ascii_field_text s :
  forallb (fun c => (0 <? c) && (c <? 128)) s = true -> field_text (Some NS_utf8Encoding) s.
Proof.
  rewrite forallb_forall. intros Hs. assert (forall c, In c s -> 0 < c < 128) as Hr
    by (intros c Hc; apply Hs, andb_true_iff in Hc as [?%Z.ltb_lt ?%Z.ltb_lt]; lia).
  assert (cstring s) as Hc by (apply Forall_forall; intros c Hc%list_elem_of_In; apply Hr in Hc; lia).
  assert (is_bytes s) as Hb by (apply Forall_forall; intros c Hc'%list_elem_of_In; apply Hr in Hc'; unfold is_byte; lia).
  assert (external (Some NS_utf8Encoding) s = s) as He by (by apply before_nul_id).
  split; [by rewrite He|]. split; [|done]. split; [exact He|]. intros _. split; [done|].
  rewrite <- (app_nil_r s). apply utf8_ascii; [done| |apply utf8_nil].
  apply forallb_forall. intros c Hc'. apply Hr in Hc'. unfold ascii7. apply Z.ltb_lt. lia.
Qed.

Lemma ParseQuery_roundtrip_witness :
  exists query set', UrlEncodeQuery [] [bytes "a b"; bytes "x&y"] (Some NS_utf8Encoding) false = Ret (Some query) /\
    ParseQuery query empty_set (Some NS_utf8Encoding) false = Ret (Some (set', true)) /\
    rep set' [(bytes "a b", Some (bytes "x&y"))].
Proof.
  apply (ParseQuery_roundtrip (Some NS_utf8Encoding) false empty_set [] [(bytes "a b", bytes "x&y")]).
  - apply Forall_cons. split; [split; apply ascii_field_text; reflexivity|apply Forall_nil_2].
  - discriminate.
  - apply rep_empty; reflexivity.
Defined.

(** An undecodable field is reported only if it is the last one: each decoding
    overwrites the status, so a later valid field turns the error into success.  The
    query [a=%ff&b=1] parses successfully into a set without [a] (and the fallback
    character set is not tried), while [b=1&a=%ff] is an error. *)
Theorem ParseQuery_loses_error :
  exists set1 set2,
    ParseQueryWithFallback (bytes "a=%ff&b=1") empty_set (Some NS_utf8Encoding) false (Some (Some false)) = Ret (Some (set1, true)) /\
    rep set1 [(bytes "b", Some (bytes "1"))] /\
    ParseQuery (bytes "b=1&a=%ff") empty_set (Some NS_utf8Encoding) false = Ret (Some (set2, false)).
Proof.
  assert (exists s, set_run (set_with_flags false) [OpPut (bytes "b") (Some (bytes "1"))] = Ret s /\
    ParseQueryWithFallback (bytes "a=%ff&b=1") empty_set (Some NS_utf8Encoding) false (Some (Some false)) = Ret (Some (s, true)))
    as (s & E1 & E2) by (eexists; split; vm_compute; reflexivity).
  destruct (set_run_rep (set_with_flags false) [] [OpPut (bytes "b") (Some (bytes "1"))]) as (s' & E' & Hr & _).
  - by apply rep_empty.
  - repeat constructor; try discriminate. intros w [= <-]. repeat constructor; discriminate.
  - rewrite E1 in E'. injection E' as <-. eexists s, _. split_and!; [exact E2|exact Hr|vm_compute; reflexivity].
Qed.
