(* ===== verification/Sched.v ===== *)
(** * Sched: scheduled procedures and their priority queue (nsd/sched.c).

    Events live at addresses ([events]); [table] is the hash table from event ids to
    addresses and [queue] the binary heap, an array of addresses whose positions count
    from 1.  A position outside of the array or an address without an event is a
    fault.  The lock is held during every operation below, so the interleavings of
    threads are the sequences of these operations. *)

From S2P Require Import Prelude Time.

(** [hashed] is [hPtr != NULL]; the bits of [flags] are the fields [f_once] to
    [f_running]; [waslate] is [None] until it is first set. *)
Record Event := mkEvent {
  id : Z; hashed : bool; qid : Z;
  nextqueue : Ns_Time; lastqueue : Ns_Time; laststart : Ns_Time; lastend : Ns_Time;
  interval : Ns_Time; scheduled : Ns_Time;
  f_once : bool; f_thread : bool; f_daily : bool; f_weekly : bool; f_paused : bool; f_running : bool;
  waslate : option bool }.

Definition set_qid (q : Z) (e : Event) : Event :=
  mkEvent (id e) (hashed e) q (nextqueue e) (lastqueue e) (laststart e) (lastend e) (interval e) (scheduled e)
    (f_once e) (f_thread e) (f_daily e) (f_weekly e) (f_paused e) (f_running e) (waslate e).
Definition set_hashed (h : bool) (e : Event) : Event :=
  mkEvent (id e) h (qid e) (nextqueue e) (lastqueue e) (laststart e) (lastend e) (interval e) (scheduled e)
    (f_once e) (f_thread e) (f_daily e) (f_weekly e) (f_paused e) (f_running e) (waslate e).
Definition set_times (next sched : Ns_Time) (e : Event) : Event :=
  mkEvent (id e) (hashed e) (qid e) next (lastqueue e) (laststart e) (lastend e) (interval e) sched
    (f_once e) (f_thread e) (f_daily e) (f_weekly e) (f_paused e) (f_running e) (waslate e).
Definition set_lastqueue (t : Ns_Time) (e : Event) : Event :=
  mkEvent (id e) (hashed e) (qid e) (nextqueue e) t (laststart e) (lastend e) (interval e) (scheduled e)
    (f_once e) (f_thread e) (f_daily e) (f_weekly e) (f_paused e) (f_running e) (waslate e).
Definition set_paused (p : bool) (e : Event) : Event :=
  mkEvent (id e) (hashed e) (qid e) (nextqueue e) (lastqueue e) (laststart e) (lastend e) (interval e) (scheduled e)
    (f_once e) (f_thread e) (f_daily e) (f_weekly e) p (f_running e) (waslate e).
Definition start_run (now : Ns_Time) (e : Event) : Event :=
  mkEvent (id e) (hashed e) (qid e) (nextqueue e) (lastqueue e) now (lastend e) (interval e) (scheduled e)
    (f_once e) (f_thread e) (f_daily e) (f_weekly e) (f_paused e) true (waslate e).
Definition end_run (now : Ns_Time) (e : Event) : Event :=
  mkEvent (id e) (hashed e) (qid e) (nextqueue e) (lastqueue e) (laststart e) now (interval e) (scheduled e)
    (f_once e) (f_thread e) (f_daily e) (f_weekly e) (f_paused e) false (waslate e).

Definition set_waslate (l : bool) (e : Event) : Event :=
  mkEvent (id e) (hashed e) (qid e) (nextqueue e) (lastqueue e) (laststart e) (lastend e) (interval e) (scheduled e)
    (f_once e) (f_thread e) (f_daily e) (f_weekly e) (f_paused e) (f_running e) (Some l).

(** [firstEvents] is the list of events for the event threads, [ready] the list of
    those that the scheduler thread runs itself; [freed] records [FreeEvent]. *)
Record Sched := mkSched {
  events : gmap Z Event; table : gmap Z Z; queue : list Z; maxqueue : Z;
  nextId : Z; shutdownPending : bool; firstEvents : list Z; ready : list Z; freed : list Z }.

Definition with_events (s : Sched) (m : gmap Z Event) : Sched :=
  mkSched m (table s) (queue s) (maxqueue s) (nextId s) (shutdownPending s) (firstEvents s) (ready s) (freed s).
Definition with_queue (s : Sched) (q : list Z) (mx : Z) : Sched :=
  mkSched (events s) (table s) q mx (nextId s) (shutdownPending s) (firstEvents s) (ready s) (freed s).
Definition with_table (s : Sched) (t : gmap Z Z) (next : Z) : Sched :=
  mkSched (events s) t (queue s) (maxqueue s) next (shutdownPending s) (firstEvents s) (ready s) (freed s).
Definition with_lists (s : Sched) (f r : list Z) : Sched :=
  mkSched (events s) (table s) (queue s) (maxqueue s) (nextId s) (shutdownPending s) f r (freed s).

(** The number of queued events. *)
Definition nqueue (s : Sched) : nat := length (queue s).

(** [queue[k]]. *)
Definition at_pos (s : Sched) (k : nat) : outcome Z :=
  match k with O => Fault | S k => checked (queue s !! k) end.

Definition event (s : Sched) (a : Z) : outcome Event := checked (events s !! a).

Definition update (s : Sched) (a : Z) (f : Event -> Event) : outcome Sched :=
  e ← event s a; mret (with_events s (<[a := f e]> (events s))).

(** ** The heap *)

Definition Exchange (s : Sched) (i j : nat) : outcome Sched :=
  a ← at_pos s i;
  b ← at_pos s j;
  let s := with_queue s (<[(j - 1)%nat := a]> (<[(i - 1)%nat := b]> (queue s))) (maxqueue s) in
  a ← at_pos s i;
  s ← update s a (set_qid (Z.of_nat i));
  b ← at_pos s j;
  update s b (set_qid (Z.of_nat j)).

Definition Larger (s : Sched) (j k : nat) : outcome bool :=
  a ← at_pos s j;
  b ← at_pos s k;
  e1 ← event s a;
  e2 ← event s b;
  mret ((Ns_DiffTime (nextqueue e1) (nextqueue e2)).1 =? 1).

(** The loop of [QueueEvent]; [k] rounds are enough, as [k] is halved. *)
Fixpoint swim (fuel : nat) (s : Sched) (k : nat) : outcome Sched :=
  match fuel with
  | O => Ret s
  | S fuel =>
      if (1 <? k)%nat then
        l ← Larger s (k / 2) k;
        if (l : bool) then s ← Exchange s (k / 2) k; swim fuel s (k / 2) else mret s
      else Ret s
  end.

(** The loop of [DeQueueEvent]; [k] at least doubles in a round. *)
Fixpoint sink (fuel : nat) (s : Sched) (k : nat) : outcome Sched :=
  match fuel with
  | O => Ret s
  | S fuel =>
      let j := (2 * k)%nat in
      if (nqueue s <? j)%nat then Ret s
      else
        l ← (if (j <? nqueue s)%nat then Larger s j (j + 1) else mret false);
        let j := if (l : bool) then (j + 1)%nat else j in
        l ← Larger s k j;
        if negb l then mret s else s ← Exchange s k j; sink fuel s j
  end.

(** The event at the end of the array, placed where its time belongs.  The array has
    [maxqueue + 1] cells and is extended when [nqueue] reaches [maxqueue]. *)
Definition enqueue (s : Sched) (a : Z) : outcome Sched :=
  let n := S (nqueue s) in
  s ← update s a (set_qid (Z.of_nat n));
  let mx := if maxqueue s <=? Z.of_nat n then maxqueue s + 25 else maxqueue s in
  if mx <? Z.of_nat n then Fault
  else
    let s := with_queue s (queue s ++ [a]) mx in
    if (1 <? n)%nat then swim n s n else mret s.

(** The address of the removed event and the new state. *)
Definition DeQueueEvent (s : Sched) (k : nat) : outcome (Z * Sched) :=
  let n := nqueue s in
  s ← Exchange s k n;
  a ← at_pos s n;
  let s := with_queue s (take (n - 1) (queue s)) (maxqueue s) in
  s ← update s a (set_qid 0);
  s ← sink n s k;
  mret (a, s).

(** ** Times

    [ns_localtime] and [mktime] of the C library; [mktime] returns the seconds and the
    normalised date. *)

Record tm := mkTm { tm_sec : Z; tm_min : Z; tm_hour : Z; tm_mday : Z; tm_wday : Z; tm_rest : Z; tm_isdst : Z }.

Class Calendar := { ns_localtime : Z -> tm; mktime : tm -> Z * tm }.

Section sched.
Context `{Calendar}.

(** [now] is what [Ns_GetTime] returns. *)
Definition next_time (now : Ns_Time) (e : Event) : Event :=
  if f_daily e || f_weekly e then
    let tp := ns_localtime (sec (scheduled e)) in
    let mday := if f_weekly e then tm_mday tp - tm_wday tp else tm_mday tp in
    let tp := mkTm (sec (interval e)) 0 0 mday (tm_wday tp) (tm_rest tp) (-1) in
    let '(secs, tp) := mktime tp in
    let next := mkTime secs 0 in
    let d := (Ns_DiffTime next (scheduled e)).1 in
    let next := if d <=? 0 then
                  let mday := tm_mday tp + (if f_weekly e then 7 else 1) in
                  mkTime (mktime (mkTm (tm_sec tp) (tm_min tp) (tm_hour tp) mday (tm_wday tp) (tm_rest tp) (-1))).1 0
                else next in
    set_times next next e
  else
    let scheduled_next := Ns_IncrTime (scheduled e) (sec (interval e)) (usec (interval e)) in
    let cmp := (Ns_DiffTime scheduled_next now).1 in
    if (cmp =? 1) || (cmp =? 0) then set_times scheduled_next scheduled_next e
    else set_times (Ns_IncrTime now 0 10000) scheduled_next e.

Definition QueueEvent (now : Ns_Time) (s : Sched) (a : Z) : outcome Sched :=
  e ← event s a;
  if f_paused e then Ret s
  else s ← update s a (next_time now); enqueue s a.

(** ** The interface *)

(** The flags an event is created with. *)
Record Flags := mkFlags { once : bool; thread : bool; daily : bool; weekly : bool; paused : bool }.

(** The loop that looks for a free id; [nextId] wraps around after [INT_MAX]. *)
Fixpoint free_id (fuel : nat) (t : gmap Z Z) (next : Z) : option (Z * Z) :=
  match fuel with
  | O => None
  | S fuel =>
      let next' := if next =? 2 ^ 31 - 1 then 0 else next + 1 in
      match t !! next with
      | None => Some (next, next')
      | Some _ => free_id fuel t next'
      end
  end.

(** [a] is the address [ns_malloc] returned; the result is the id, or -1 for
    [NS_ERROR].  [qid] is not initialised by the code until the event is queued; it
    reads as [0] here. *)
Definition Ns_ScheduleProcEx (now : Ns_Time) (s : Sched) (a : Z) (fl : Flags) (iv : Ns_Time) : outcome (Z * Sched) :=
  if (sec iv <? 0) || (usec iv <? 0) then Ret (-1, s)
  else if shutdownPending s then Ret (-1, s)
  else
    r ← checked (free_id (S (size (table s))) (table s) (nextId s));
    let '(i, next) := r in
    let none := mkTime (-1) 0 in
    let e := mkEvent i true 0 (mkTime 0 0) none none none iv now
               (once fl) (thread fl) (daily fl) (weekly fl) (paused fl) false None in
    let s := with_table (with_events s (<[a := e]> (events s))) (<[i := a]> (table s)) next in
    s ← QueueEvent now s a;
    mret (i, s).

Definition Ns_After (now : Ns_Time) (s : Sched) (a : Z) (iv : Ns_Time) : outcome (Z * Sched) :=
  if (sec iv <? 0) || (usec iv <? 0) then Ret (-1, s)
  else Ns_ScheduleProcEx now s a (mkFlags true false false false false) iv.

Definition Ns_ScheduleDaily (now : Ns_Time) (s : Sched) (a : Z) (fl : Flags) (hour minute : Z) : outcome (Z * Sched) :=
  if (23 <? hour) || (hour <? 0) || (59 <? minute) || (minute <? 0) then Ret (-1, s)
  else Ns_ScheduleProcEx now s a (mkFlags (once fl) (thread fl) true (weekly fl) (paused fl))
         (mkTime (hour * 3600 + minute * 60) 0).

Definition Ns_ScheduleWeekly (now : Ns_Time) (s : Sched) (a : Z) (fl : Flags) (day hour minute : Z) : outcome (Z * Sched) :=
  if (day <? 0) || (6 <? day) || (23 <? hour) || (hour <? 0) || (59 <? minute) || (minute <? 0) then Ret (-1, s)
  else Ns_ScheduleProcEx now s a (mkFlags (once fl) (thread fl) (daily fl) true (paused fl))
         (mkTime ((day * 24 + hour) * 3600 + minute * 60) 0).

Definition FreeEvent (s : Sched) (a : Z) : outcome Sched :=
  _ ← event s a;
  mret (mkSched (delete a (events s)) (table s) (queue s) (maxqueue s) (nextId s) (shutdownPending s)
          (firstEvents s) (ready s) (freed s ++ [a])).

Definition Ns_Cancel (s : Sched) (i : Z) : outcome (bool * Sched) :=
  if shutdownPending s then Ret (false, s)
  else
    match table s !! i with
    | None => Ret (false, s)
    | Some a =>
        let s := with_table s (delete i (table s)) (nextId s) in
        s ← update s a (set_hashed false);
        e ← event s a;
        if 0 <? qid e then
          r ← DeQueueEvent s (Z.to_nat (qid e));
          s ← FreeEvent r.2 a;
          mret (true, s)
        else mret (false, s)
    end.

Definition Ns_Pause (s : Sched) (i : Z) : outcome (bool * Sched) :=
  if shutdownPending s then Ret (false, s)
  else
    match table s !! i with
    | None => Ret (false, s)
    | Some a =>
        e ← event s a;
        if f_paused e then Ret (false, s)
        else
          s ← update s a (set_paused true);
          s ← (if 0 <? qid e then r ← DeQueueEvent s (Z.to_nat (qid e)); mret r.2 else mret s);
          mret (true, s)
    end.

Definition Ns_Resume (now : Ns_Time) (s : Sched) (i : Z) : outcome (bool * Sched) :=
  if shutdownPending s then Ret (false, s)
  else
    match table s !! i with
    | None => Ret (false, s)
    | Some a =>
        e ← event s a;
        if f_paused e then
          s ← update s a (fun e => set_times (nextqueue e) now (set_paused false e));
          s ← QueueEvent now s a;
          mret (true, s)
        else Ret (false, s)
    end.

(** ** The scheduler thread *)

(** More than 100 ms after the nominal time.  The code also writes a warning, when
    [waslate] was not yet set. *)
Definition started_late (now : Ns_Time) (e : Event) : bool :=
  let '(d, late) := Ns_DiffTime now (scheduled e) in
  (d =? 1) && ((Ns_DiffTime late (mkTime 0 100000)).1 =? 1).

(** One round of the loop that takes due events off the queue. *)
Definition fire_event (now : Ns_Time) (s : Sched) : outcome Sched :=
  r ← DeQueueEvent s 1;
  let '(a, s) := r in
  e ← event s a;
  s ← update s a (set_waslate (started_late now e));
  s ← (if f_once e then update (with_table s (delete (id e) (table s)) (nextId s)) a (set_hashed false) else mret s);
  s ← update s a (set_lastqueue now);
  if f_thread e then s ← update s a (start_run now); mret (with_lists s (a :: firstEvents s) (ready s))
  else mret (with_lists s (firstEvents s) (a :: ready s)).

Definition due (now : Ns_Time) (s : Sched) : outcome bool :=
  match queue s with
  | [] => Ret false
  | a :: _ => e ← event s a; mret ((Ns_DiffTime (nextqueue e) now).1 <=? 0)
  end.

Fixpoint fire_loop (fuel : nat) (now : Ns_Time) (s : Sched) : outcome Sched :=
  match fuel with
  | O => Ret s
  | S fuel =>
      d ← due now s;
      if (d : bool) then s ← fire_event now s; fire_loop fuel now s else mret s
  end.

(** Every round removes an event from the queue. *)
Definition fire_due (now : Ns_Time) (s : Sched) : outcome Sched := fire_loop (nqueue s) now s.

(** The scheduler thread takes a ready event and starts it; the procedure runs without
    the lock, so that other operations can come before [finish_event]. *)
Definition start_ready (now : Ns_Time) (s : Sched) : outcome (option Z * Sched) :=
  match ready s with
  | [] => Ret (None, s)
  | a :: r => s ← update (with_lists s (firstEvents s) r) a (start_run now); mret (Some a, s)
  end.

(** After the run.  The scheduler thread looks at [hPtr] before it takes the lock again,
    so that another operation can come between the two parts; an event thread holds
    the lock throughout. *)
Definition check_hashed (s : Sched) (a : Z) : outcome (bool * Sched) :=
  e ← event s a;
  if hashed e then mret (true, s) else s ← FreeEvent s a; mret (false, s).

Definition requeue (now : Ns_Time) (s : Sched) (a : Z) : outcome Sched :=
  s ← update s a (end_run now);
  QueueEvent now s a.

Definition finish_event (now : Ns_Time) (s : Sched) (a : Z) : outcome Sched :=
  r ← check_hashed s a;
  if (r.1 : bool) then requeue now r.2 a else mret r.2.

(** At the start of the scheduler thread: overdue events become due now. *)
Definition rebase (now : Ns_Time) (e : Event) : Event :=
  if (Ns_DiffTime (nextqueue e) now).1 <=? 0 then set_lastqueue now (set_times now now e) else e.

Fixpoint rebase_queue (now : Ns_Time) (s : Sched) (q : list Z) : outcome Sched :=
  match q with
  | [] => Ret s
  | a :: q => s ← update s a (rebase now); rebase_queue now s q
  end.

End sched.

(** ** Heaps, on the keys of the positions 1..[n] *)

Definition heap (f : nat -> Z) (n : nat) : Prop := forall m, (2 <= m <= n)%nat -> f (m / 2)%nat <= f m.

Definition swapped (f : nat -> Z) (i j : nat) : nat -> Z :=
  fun m => if decide (m = i) then f j else if decide (m = j) then f i else f m.

(** A heap except at [k], whose key may be too small. *)
Definition heap_above (f : nat -> Z) (n k : nat) : Prop :=
  (forall m, (2 <= m <= n)%nat -> m <> k -> f (m / 2)%nat <= f m) /\
  (forall m, (2 <= m <= n)%nat -> (m / 2)%nat = k -> (2 <= k)%nat -> f (k / 2)%nat <= f m).

(** A heap except at [k], whose key may be too large. *)
Definition heap_below (f : nat -> Z) (n k : nat) : Prop :=
  (forall m, (2 <= m <= n)%nat -> (m / 2)%nat <> k -> f (m / 2)%nat <= f m) /\
  (forall m, (2 <= m <= n)%nat -> (m / 2)%nat = k -> (2 <= k)%nat -> f (k / 2)%nat <= f m).

Ltac half m :=
  let H1 := fresh in let H2 := fresh in
  pose proof (Nat.div_mod_eq m 2) as H1; pose proof (Nat.mod_upper_bound m 2 ltac:(lia)) as H2.

Lemma swim_done f n k : heap_above f n k -> (k <= 1)%nat \/ f (k / 2)%nat <= f k -> heap f n.
Proof.
  intros [H1 H2] Hk m Hm. destruct (decide (m = k)) as [->|]; [destruct Hk; [lia|done]|by apply H1].
Qed.

Lemma swapped_l f i j : swapped f i j i = f j.
Proof. unfold swapped. by rewrite decide_True. Qed.
Lemma swapped_r f i j : swapped f i j j = f i.
Proof. unfold swapped. case_decide as Hj; [by rewrite Hj|]. by rewrite decide_True. Qed.
Lemma swapped_ne f i j m : m <> i -> m <> j -> swapped f i j m = f m.
Proof. intros. unfold swapped. by rewrite !decide_False. Qed.

Lemma swim_step f n k j :
  heap_above f n k -> (2 <= k <= n)%nat -> (k / 2)%nat = j -> f k < f j -> heap_above (swapped f j k) n j.
Proof.
  intros [H1 H2] Hk Hj Hlt. half k. rewrite Hj in *. split.
  - intros m Hm Hmj. half m. destruct (decide (m = k)) as [->|Hmk]; [rewrite Hj, swapped_l, swapped_r; lia|].
    rewrite (swapped_ne f j k m) by done. specialize (H1 m Hm Hmk). destruct (decide ((m / 2)%nat = j)) as [E|E1].
    + rewrite E in *. rewrite swapped_l. lia.
    + destruct (decide ((m / 2)%nat = k)) as [E|E2]; [|by rewrite swapped_ne].
      rewrite E, swapped_r. by apply H2; [|done|lia].
  - intros m Hm Hmj Hj2. half j. specialize (H1 j ltac:(lia) ltac:(lia)) as Hjj.
    rewrite (swapped_ne f j k (j / 2)%nat) by lia. destruct (decide (m = k)) as [->|Hmk]; [by rewrite swapped_r|].
    half m. rewrite swapped_ne by lia. specialize (H1 m Hm Hmk). rewrite Hmj in H1. lia.
Qed.

Lemma sink_done f n k :
  heap_below f n k -> (forall m, (2 <= m <= n)%nat -> (m / 2)%nat = k -> f k <= f m) -> heap f n.
Proof.
  intros [H1 _] Hk m Hm. destruct (decide ((m / 2)%nat = k)) as [E|]; [rewrite E; by apply Hk|by apply H1].
Qed.

(** [c] is the smaller child of [k]. *)
Lemma sink_step f n k c :
  heap_below f n k -> (1 <= k)%nat -> (2 <= c <= n)%nat -> (c / 2)%nat = k ->
  (forall m, (2 <= m <= n)%nat -> (m / 2)%nat = k -> f c <= f m) -> f c < f k ->
  heap_below (swapped f k c) n c.
Proof.
  intros [H1 H2] Hk Hc Hck Hmin Hlt. half c. rewrite Hck in *. split.
  - intros m Hm Hmc. half m. destruct (decide (m = c)) as [->|Hne]; [rewrite Hck, swapped_l, swapped_r; lia|].
    destruct (decide (m = k)) as [->|Hmk].
    + rewrite swapped_l, swapped_ne by lia. apply H2; [done|done|lia].
    + rewrite (swapped_ne f k c m) by done. destruct (decide ((m / 2)%nat = k)) as [E|E1].
      * rewrite E, swapped_l. by apply Hmin.
      * rewrite swapped_ne by done. by apply H1.
  - intros m Hm Hmc _. half m. rewrite Hck, swapped_l, swapped_ne by lia.
    rewrite <- Hmc. apply H1; [done|lia].
Qed.

(** ** The queue and the events *)

Definition timed (e : Event) : Prop := normal (nextqueue e) /\ 0 <= tval (nextqueue e).

(** Every queued event knows its position, and only queued events have one. *)
Record wf (s : Sched) : Prop := {
  wf_queued i a : queue s !! i = Some a ->
    exists e, events s !! a = Some e /\ qid e = Z.of_nat (S i) /\ timed e;
  wf_position a e : events s !! a = Some e -> qid e = 0 \/ (1 <= qid e /\ queue s !! Z.to_nat (qid e - 1) = Some a);
}.

Definition key (s : Sched) (a : Z) : Z := match events s !! a with Some e => tval (nextqueue e) | None => 0 end.

(** The time of the event at position [m]. *)
Definition keys (s : Sched) (m : nat) : Z :=
  match m with O => 0 | S m => match queue s !! m with Some a => key s a | None => 0 end end.

(** Operations on the heap change nothing but the order of the queue and the [qid]s. *)
Definition same_but_qid (s s' : Sched) : Prop :=
  (forall a, set_qid 0 <$> events s' !! a = set_qid 0 <$> events s !! a) /\
  table s' = table s /\ nextId s' = nextId s /\ shutdownPending s' = shutdownPending s /\
  firstEvents s' = firstEvents s /\ ready s' = ready s /\ freed s' = freed s.

#[local] Instance same_but_qid_preorder : PreOrder same_but_qid.
Proof.
  split; [by intros s; split_and!|]. intros s1 s2 s3 (E1&?&?&?&?&?&?) (E2&?&?&?&?&?&?).
  split_and!; congruence.
Qed.

Lemma same_event s s' a e :
  same_but_qid s s' -> events s !! a = Some e -> exists q, events s' !! a = Some (set_qid q e).
Proof.
  intros [E _] Ha. specialize (E a). rewrite Ha in E. destruct (events s' !! a) as [e'|]; [|done]. cbn in E.
  exists (qid e'). f_equal. destruct e, e'. injection E. intros. by subst.
Qed.

Lemma same_but_qid_key s s' a : same_but_qid s s' -> key s' a = key s a.
Proof.
  intros [E _]. specialize (E a). unfold key. destruct (events s !! a) as [e|], (events s' !! a) as [e'|]; try done.
  destruct e, e'. injection E. intros. by subst.
Qed.

Lemma wf_nodup s i j a : wf s -> queue s !! i = Some a -> queue s !! j = Some a -> i = j.
Proof.
  intros Hw Hi Hj. destruct (wf_queued s Hw i a Hi) as (e & He & Hq & _), (wf_queued s Hw j a Hj) as (e' & He' & Hq' & _).
  rewrite He in He'. injection He' as <-. lia.
Qed.

Lemma update_Ret s a e f : events s !! a = Some e -> update s a f = Ret (with_events s (<[a := f e]> (events s))).
Proof. intros He. unfold update, event. by rewrite He. Qed.

Lemma Exchange_spec s i j a b :
  wf s -> queue s !! i = Some a -> queue s !! j = Some b ->
  exists s', Exchange s (S i) (S j) = Ret s' /\ wf s' /\ queue s' = <[j := a]> (<[i := b]> (queue s)) /\
    maxqueue s' = maxqueue s /\ same_but_qid s s'.
Proof.
  intros Hw Hi Hj. pose proof (lookup_lt_Some _ _ _ Hi) as Hil. pose proof (lookup_lt_Some _ _ _ Hj) as Hjl.
  destruct (wf_queued s Hw i a Hi) as (ea & Hea & Hqa & Hta), (wf_queued s Hw j b Hj) as (eb & Heb & Hqb & Htb).
  set (q := <[j := a]> (<[i := b]> (queue s))).
  assert (q !! j = Some a) as Hqj by (apply list_lookup_insert_eq; rewrite length_insert; done).
  assert (q !! i = Some b) as Hqi.
  { unfold q. destruct (decide (i = j)) as [->|]; [rewrite list_lookup_insert_eq by (rewrite length_insert; done); congruence|].
    rewrite list_lookup_insert_ne by done. by apply list_lookup_insert_eq. }
  unfold Exchange. cbn [at_pos]. rewrite Hi, Hj. cbn [checked mbind outcome_bind].
  replace (S j - 1)%nat with j by lia. replace (S i - 1)%nat with i by lia. fold q. cbn [at_pos with_queue queue]. rewrite Hqi.
  cbn [checked mbind outcome_bind]. rewrite (update_Ret _ b eb) by done. cbn [mbind outcome_bind at_pos with_events with_queue queue events].
  rewrite Hqj. cbn [checked mbind outcome_bind].
  assert (exists ea', <[b := set_qid (Z.of_nat (S i)) eb]> (events s) !! a = Some ea' /\ set_qid (Z.of_nat (S j)) ea' = set_qid (Z.of_nat (S j)) ea)
    as (ea' & Hea' & Eea).
  { destruct (decide (a = b)) as [<-|]; [rewrite lookup_insert_eq; eexists; split; [done|]; rewrite Hea in Heb; by injection Heb as <-|].
    rewrite lookup_insert_ne by done. by exists ea. }
  rewrite (update_Ret _ a ea') by done. eexists. split; [reflexivity|]. rewrite Eea. split; [|split; [done|split; [done|]]].
  - split; cbn [queue events with_events with_queue].
    + intros x c Hx. destruct (decide (x = j)) as [->|Hxj].
      { rewrite Hqj in Hx. injection Hx as <-. rewrite lookup_insert_eq. eexists. by split_and!. }
      unfold q in Hx. rewrite list_lookup_insert_ne in Hx by done. destruct (decide (x = i)) as [->|Hxi].
      { rewrite list_lookup_insert_eq in Hx by done. injection Hx as <-.
        rewrite lookup_insert_ne, lookup_insert_eq by (intros ->; by apply Hxj, (wf_nodup s _ _ b)). eexists. by split_and!. }
      rewrite list_lookup_insert_ne in Hx by done.
      rewrite lookup_insert_ne by (intros ->; by eapply Hxi, wf_nodup).
      rewrite lookup_insert_ne by (intros ->; by eapply Hxj, wf_nodup). by apply wf_queued.
    + intros c e He. destruct (decide (c = a)) as [->|Hca].
      { rewrite lookup_insert_eq in He. injection He as <-. right. cbn [qid set_qid]. split; [lia|].
        by replace (Z.to_nat (Z.of_nat (S j) - 1)) with j by lia. }
      rewrite lookup_insert_ne in He by done. destruct (decide (c = b)) as [->|Hcb].
      { rewrite lookup_insert_eq in He. injection He as <-. right. cbn [qid set_qid]. split; [lia|].
        by replace (Z.to_nat (Z.of_nat (S i) - 1)) with i by lia. }
      rewrite lookup_insert_ne in He by done. destruct (wf_position s Hw c e He) as [?|[H1 H2]]; [by left|right].
      split; [done|]. unfold q. rewrite !list_lookup_insert_ne; [done|congruence..].
  - split_and!; try done. intros c. cbn [events with_events with_queue]. destruct (decide (c = a)) as [->|].
    { by rewrite lookup_insert_eq, Hea. }
    rewrite lookup_insert_ne by done. destruct (decide (c = b)) as [->|]; [by rewrite lookup_insert_eq, Heb|].
    by rewrite lookup_insert_ne.
Qed.

(** What [swim] and [sink] do to the state. *)
Record reordered (s s' : Sched) : Prop := {
  ro_wf : wf s'; ro_perm : queue s' ≡ₚ queue s; ro_max : maxqueue s' = maxqueue s; ro_same : same_but_qid s s' }.

Lemma reordered_trans s1 s2 s3 : reordered s1 s2 -> reordered s2 s3 -> reordered s1 s3.
Proof. intros [W1 P1 M1 S1] [W2 P2 M2 S2]. split; [done|by rewrite P2|congruence|by etrans]. Qed.

Lemma reordered_n s s' : reordered s s' -> nqueue s' = nqueue s.
Proof. intros [_ P _ _]. by apply Permutation_length. Qed.

Lemma position s k : (1 <= k <= nqueue s)%nat -> exists i a, k = S i /\ queue s !! i = Some a /\ keys s k = key s a.
Proof.
  intros Hk. destruct (lookup_lt_is_Some_2 (queue s) (k - 1)) as [a Ha]; [unfold nqueue in Hk; lia|].
  exists (k - 1)%nat, a. split_and!; [lia|done|]. destruct k; [lia|]. cbn. replace (S k - 1)%nat with k in Ha by lia. by rewrite Ha.
Qed.

Lemma Exchange_keys s i j :
  wf s -> (1 <= i <= nqueue s)%nat -> (1 <= j <= nqueue s)%nat ->
  exists s', Exchange s i j = Ret s' /\ reordered s s' /\ forall m, keys s' m = swapped (keys s) i j m.
Proof.
  intros Hw Hi Hj. destruct (position s i Hi) as (i' & a & -> & Ha & Ka), (position s j Hj) as (j' & b & -> & Hb & Kb).
  destruct (Exchange_spec s i' j' a b Hw Ha Hb) as (s' & E & W & Q & M & S). exists s'. split; [done|]. split.
  { split; [done| |done..]. rewrite Q. by apply Permutation_insert_swap. }
  intros [|m]; [done|]. unfold keys at 1. rewrite Q. destruct (decide (m = j')) as [->|Hmj].
  { rewrite swapped_r, Ka, list_lookup_insert_eq by (rewrite length_insert; by eapply lookup_lt_Some). by apply same_but_qid_key. }
  rewrite list_lookup_insert_ne by done. destruct (decide (m = i')) as [->|Hmi].
  { rewrite swapped_l, Kb, list_lookup_insert_eq by (by eapply lookup_lt_Some). by apply same_but_qid_key. }
  rewrite list_lookup_insert_ne, swapped_ne by congruence. cbn. case_match; [by apply same_but_qid_key|done].
Qed.

Lemma Larger_spec s i j :
  wf s -> (1 <= i <= nqueue s)%nat -> (1 <= j <= nqueue s)%nat -> Larger s i j = Ret (keys s j <? keys s i).
Proof.
  intros Hw Hi Hj. destruct (position s i Hi) as (i' & a & -> & Ha & ->), (position s j Hj) as (j' & b & -> & Hb & ->).
  destruct (wf_queued s Hw i' a Ha) as (ea & Hea & _ & Na & Pa), (wf_queued s Hw j' b Hb) as (eb & Heb & _ & Nb & Pb).
  unfold Larger, event, key. cbn [at_pos]. rewrite Ha, Hb. cbn. rewrite Hea, Heb. cbn. f_equal.
  destruct (DiffTime_order (nextqueue ea) (nextqueue eb)) as [-> _]; [done..|]. zcases; lia.
Qed.

Lemma heap_above_ext f g n k : (forall m, f m = g m) -> heap_above f n k -> heap_above g n k.
Proof. intros E [H1 H2]. split; intros; rewrite <- !E; auto. Qed.
Lemma heap_below_ext f g n k : (forall m, f m = g m) -> heap_below f n k -> heap_below g n k.
Proof. intros E [H1 H2]. split; intros; rewrite <- !E; auto. Qed.

Lemma reordered_refl s : wf s -> reordered s s.
Proof. by split. Qed.

Lemma swim_spec fuel : forall s k,
  wf s -> (1 <= k <= nqueue s)%nat -> (k <= fuel)%nat -> heap_above (keys s) (nqueue s) k ->
  exists s', swim fuel s k = Ret s' /\ reordered s s' /\ heap (keys s') (nqueue s).
Proof.
  induction fuel as [|fuel IH]; intros s k Hw Hk Hf Ha; [lia|]. cbn [swim].
  destruct (Nat.ltb_spec 1 k) as [H1|H1].
  2: { exists s. split_and!; [done|by apply reordered_refl|]. eapply swim_done; [done|by left]. }
  half k. rewrite Larger_spec by (done || lia). cbn [mbind outcome_bind]. destruct (Z.ltb_spec (keys s k) (keys s (k / 2))) as [Hlt|Hge].
  2: { exists s. split_and!; [done|by apply reordered_refl|]. eapply swim_done; [done|by right]. }
  destruct (Exchange_keys s (k / 2) k) as (s1 & -> & R1 & K1); [done|lia..|]. cbn [mbind outcome_bind].
  pose proof (reordered_n _ _ R1) as Hn. destruct (IH s1 (k / 2)%nat) as (s2 & E2 & R2 & H2); [apply R1|lia..| |].
  - rewrite Hn. eapply heap_above_ext; [intros; symmetry; apply K1|]. by apply swim_step; [|lia| |].
  - exists s2. rewrite Hn in H2. split_and!; [done|by eapply reordered_trans|done].
Qed.

(** The child the loop of [DeQueueEvent] compares with. *)
Lemma smaller_child s k :
  wf s -> (1 <= k)%nat -> (2 * k <= nqueue s)%nat ->
  exists l c, (if (2 * k <? nqueue s)%nat then Larger s (2 * k) (2 * k + 1) else mret false) = Ret l /\
    c = (if (l : bool) then 2 * k + 1 else 2 * k)%nat /\ (2 <= c <= nqueue s)%nat /\ (c / 2)%nat = k /\
    forall m, (2 <= m <= nqueue s)%nat -> (m / 2)%nat = k -> keys s c <= keys s m.
Proof.
  intros Hw Hk Hn. half (2 * k)%nat. half (2 * k + 1)%nat.
  assert (forall m, (m / 2)%nat = k -> m = (2 * k)%nat \/ m = (2 * k + 1)%nat) as Hch by (intros m ?; half m; lia).
  destruct (Nat.ltb_spec (2 * k) (nqueue s)).
  - rewrite Larger_spec by (done || lia). do 2 eexists. split; [done|]. split; [done|].
    destruct (Z.ltb_spec (keys s (2 * k + 1)) (keys s (2 * k))).
    all: split_and!; [lia..|]; intros m ? [-> | ->]%Hch; lia.
  - exists false, (2 * k)%nat. split_and!; [done|done|lia..|]. intros m ? [-> | ->]%Hch; lia.
Qed.

Lemma sink_spec fuel : forall s k,
  wf s -> (1 <= k)%nat -> (nqueue s < k + fuel)%nat ->
  exists s', sink fuel s k = Ret s' /\ reordered s s' /\ (heap_below (keys s) (nqueue s) k -> heap (keys s') (nqueue s)).
Proof.
  induction fuel as [|fuel IH]; intros s k Hw Hk Hf.
  { exists s. split_and!; [done|by apply reordered_refl|]. intros Hb. eapply sink_done; [done|]. intros m ? ?. half m. lia. }
  cbn [sink]. destruct (Nat.ltb_spec (nqueue s) (2 * k)) as [H1|H1].
  { exists s. split_and!; [done|by apply reordered_refl|]. intros Hb. eapply sink_done; [done|]. intros m ? ?. half m. lia. }
  destruct (smaller_child s k) as (l & c & -> & -> & Hc & Hck & Hmin); [done..|].
  set (c := if l then _ else _) in *. cbn [mbind outcome_bind]. fold c. half c.
  rewrite Larger_spec by (done || lia). cbn [mbind outcome_bind]. destruct (Z.ltb_spec (keys s c) (keys s k)) as [Hlt|Hge]; cbn [negb].
  2: { exists s. split_and!; [done|by apply reordered_refl|]. intros Hb. eapply sink_done; [done|].
       intros m Hm1 Hm2. specialize (Hmin m Hm1 Hm2). lia. }
  destruct (Exchange_keys s k c) as (s1 & -> & R1 & K1); [done|lia..|]. cbn [mbind outcome_bind].
  pose proof (reordered_n _ _ R1) as Hn. destruct (IH s1 c) as (s2 & E2 & R2 & H2); [apply R1|lia..|].
  exists s2. rewrite Hn in H2. split_and!; [done|by eapply reordered_trans|]. intros Hb. apply H2.
  eapply heap_below_ext; [intros; symmetry; apply K1|]. by apply sink_step.
Qed.

(** ** The operations of the queue *)

(** The array has [maxqueue + 1] cells, the first of which is not used. *)
Record inv (s : Sched) : Prop := {
  inv_wf : wf s; inv_heap : heap (keys s) (nqueue s); inv_room : Z.of_nat (nqueue s) <= maxqueue s }.

(** The state after the new event is stored behind the last one. *)
Definition appended (s : Sched) (a : Z) (e : Event) (mx : Z) : Sched :=
  with_queue (with_events s (<[a := set_qid (Z.of_nat (S (nqueue s))) e]> (events s))) (queue s ++ [a]) mx.

Lemma appended_wf s a e mx : wf s -> events s !! a = Some e -> qid e = 0 -> timed e -> wf (appended s a e mx).
Proof.
  intros Hw Ha Hq Ht. assert (forall i, queue s !! i <> Some a) as Hnew.
  { intros i Hi. destruct (wf_queued s Hw i a Hi) as (e' & He' & Hq' & _). rewrite Ha in He'. injection He' as <-. lia. }
  split; cbn [queue events appended with_queue with_events].
  - intros i b. destruct (decide (i < nqueue s)%nat) as [Hi|Hi].
    + rewrite lookup_app_l by done. intros Hb. rewrite lookup_insert_ne by (intros <-; by eapply Hnew). by apply wf_queued.
    + rewrite lookup_app_r by (unfold nqueue in Hi; lia). intros [Ei <-]%list_lookup_singleton_Some. rewrite lookup_insert_eq.
      eexists. split_and!; [done| |done]. cbn [qid set_qid]. unfold nqueue in *. lia.
  - intros b f. destruct (decide (b = a)) as [->|Hne].
    + rewrite lookup_insert_eq. intros [= <-]. right. cbn [qid set_qid]. split; [lia|].
      rewrite lookup_app_r by (unfold nqueue; lia). unfold nqueue. by replace (Z.to_nat _ - _)%nat with 0%nat by lia.
    + rewrite lookup_insert_ne by done. intros [?|[? Hf]]%(wf_position s Hw); [by left|right]. split; [done|]. by apply lookup_app_l_Some.
Qed.

Lemma set_qid_same s a e q b :
  events s !! a = Some e -> set_qid 0 <$> <[a := set_qid q e]> (events s) !! b = set_qid 0 <$> events s !! b.
Proof. intros Ha. destruct (decide (b = a)) as [->|]; [by rewrite lookup_insert_eq, Ha|by rewrite lookup_insert_ne]. Qed.

Lemma appended_same s a e mx : events s !! a = Some e -> same_but_qid s (appended s a e mx).
Proof. intros Ha. split_and!; try done. intros b. by apply set_qid_same. Qed.

Lemma appended_heap s a e mx :
  events s !! a = Some e -> heap (keys s) (nqueue s) -> heap_above (keys (appended s a e mx)) (S (nqueue s)) (S (nqueue s)).
Proof.
  intros Ha Hh. assert (forall m, (m <= nqueue s)%nat -> keys (appended s a e mx) m = keys s m) as Hold.
  { intros [|m] Hm; [done|]. unfold keys, nqueue in *. cbn [queue appended with_queue]. rewrite lookup_app_l by lia.
    case_match; [by apply same_but_qid_key, appended_same|done]. }
  split; intros m Hm ?; half m; [|lia]. rewrite !Hold by lia. apply Hh. lia.
Qed.

Lemma enqueue_spec s a e :
  inv s -> events s !! a = Some e -> qid e = 0 -> timed e ->
  exists s', enqueue s a = Ret s' /\ inv s' /\ queue s' ≡ₚ a :: queue s /\ same_but_qid s s'.
Proof.
  intros [Hw Hh Hr] Ha Hq Ht. unfold enqueue. rewrite (update_Ret _ _ e) by done. cbn [mbind outcome_bind].
  set (mx := if _ <=? _ then _ else _).
  assert (Z.of_nat (S (nqueue s)) <= mx) as Hmx by (unfold mx; cbn [maxqueue with_events]; zcases; lia).
  destruct (Z.ltb_spec mx (Z.of_nat (S (nqueue s)))); [lia|].
  cbn [queue with_events]. change (with_queue _ _ mx) with (appended s a e mx).
  set (s1 := appended s a e mx). assert (nqueue s1 = S (nqueue s)) as Hn by (unfold nqueue; cbn; rewrite length_app; cbn; lia).
  pose proof (appended_wf s a e mx Hw Ha Hq Ht) as W1. pose proof (appended_heap s a e mx Ha Hh) as A1. fold s1 in W1, A1.
  assert (exists s', (if (1 <? S (nqueue s))%nat then swim (S (nqueue s)) s1 (S (nqueue s)) else mret s1) = Ret s' /\
    reordered s1 s' /\ heap (keys s') (nqueue s1)) as (s' & -> & R & H').
  { destruct (Nat.ltb_spec 1 (S (nqueue s))).
    - destruct (swim_spec (S (nqueue s)) s1 (S (nqueue s))) as (s' & E & R & H'); [done|lia..|by rewrite Hn|]. by exists s'.
    - exists s1. split_and!; [done|by apply reordered_refl|]. intros m ?. lia. }
  exists s'. pose proof (reordered_n _ _ R) as Hn'. destruct R as [W P M S]. split_and!; [done| | |].
  - split; [done|by rewrite Hn'|]. rewrite M. cbn. lia.
  - rewrite P. cbn. by rewrite Permutation_app_comm.
  - etrans; [by apply appended_same|done].
Qed.

(** The state after the event at position [k] is exchanged with the last one and cut off. *)
Lemma cut_wf s a e :
  wf s -> queue s !! (nqueue s - 1)%nat = Some a -> events s !! a = Some e ->
  wf (with_events (with_queue s (take (nqueue s - 1) (queue s)) (maxqueue s)) (<[a := set_qid 0 e]> (events s))).
Proof.
  intros Hw Hl Ha. split; cbn [queue events with_queue with_events].
  - intros i b [Hb Hi]%lookup_take_Some. rewrite lookup_insert_ne; [by apply wf_queued|]. intros <-.
    pose proof (wf_nodup _ _ _ _ Hw Hl Hb). lia.
  - intros b f. destruct (decide (b = a)) as [->|Hne]; [rewrite lookup_insert_eq; intros [= <-]; by left|].
    rewrite lookup_insert_ne by done. intros [?|[? Hf]]%(wf_position s Hw); [by left|right]. split; [done|].
    apply lookup_take_Some. split; [done|]. pose proof (lookup_lt_Some _ _ _ Hf). unfold nqueue in *.
    enough (Z.to_nat (qid f - 1) <> length (queue s) - 1)%nat by lia. intros E. rewrite E, Hl in Hf. congruence.
Qed.

Lemma cut_heap f g n k :
  heap f n -> (1 <= k <= n)%nat -> k = 1%nat \/ f (k / 2)%nat <= f n ->
  (forall m, (m < n)%nat -> g m = swapped f k n m) -> heap_below g (n - 1) k.
Proof.
  intros Hh Hk Hc Hg. half k. split; intros m Hm Hmk.
  - half m. rewrite !Hg by lia. rewrite (swapped_ne _ _ _ (m / 2)%nat) by lia. destruct (decide (m = k)) as [->|].
    + rewrite swapped_l. destruct Hc; [lia|done].
    + rewrite swapped_ne by lia. apply Hh. lia.
  - intros Hk2. half m. rewrite !Hg by lia. rewrite !swapped_ne by lia.
    transitivity (f k); [|rewrite <- Hmk]; apply Hh; lia.
Qed.

Lemma keys_cut s a e q n m :
  events s !! a = Some e -> (m <= n)%nat ->
  keys (with_events (with_queue s (take n (queue s)) (maxqueue s)) (<[a := set_qid q e]> (events s))) m = keys s m.
Proof.
  intros Ha Hm. destruct m as [|m]; [done|]. cbn. rewrite lookup_take_lt by lia. case_match; [|done].
  unfold key. cbn. apply (f_equal (fmap (fun e => tval (nextqueue e)))) in Ha. destruct (decide (z = a)) as [->|].
  - rewrite lookup_insert_eq. destruct (events s !! a); [|done]. by injection Ha.
  - by rewrite lookup_insert_ne.
Qed.

Lemma wf_NoDup s : wf s -> NoDup (queue s).
Proof. intros Hw. apply NoDup_alt. intros i j a. by apply wf_nodup. Qed.

Lemma not_queued s a e : wf s -> events s !! a = Some e -> a ∉ queue s -> qid e = 0.
Proof. intros Hw Ha Hn. destruct (wf_position s Hw a e Ha) as [?|[_ Hq]]; [done|]. by apply list_elem_of_lookup_2 in Hq. Qed.

Lemma DeQueueEvent_spec s k :
  inv s -> (1 <= k <= nqueue s)%nat ->
  exists a s', DeQueueEvent s k = Ret (a, s') /\ queue s !! (k - 1)%nat = Some a /\ queue s ≡ₚ a :: queue s' /\
    wf s' /\ same_but_qid s s' /\ Z.of_nat (nqueue s') <= maxqueue s' /\ (exists e, events s' !! a = Some e /\ qid e = 0) /\
    (k = 1%nat \/ keys s (k / 2) <= keys s (nqueue s) -> heap (keys s') (nqueue s')).
Proof.
  intros [Hw Hh Hr] Hk. destruct (position s k Hk) as (k' & a & Ek & Ha & _), (position s (nqueue s)) as (n' & b & En & Hb & _); [lia|].
  destruct (Exchange_spec s k' n' a b Hw Ha Hb) as (s1 & E1 & W1 & Q1 & M1 & S1).
  destruct (Exchange_keys s k (nqueue s)) as (s1' & E1' & R1 & K1); [done|lia..|]. unfold DeQueueEvent. rewrite E1'.
  rewrite Ek, En, E1 in E1'. injection E1' as <-. pose proof (reordered_n _ _ R1) as Hn. cbn [mbind outcome_bind].
  assert (queue s1 !! (nqueue s1 - 1)%nat = Some a) as Hl.
  { rewrite Hn, En, Q1. replace (S n' - 1)%nat with n' by lia. apply list_lookup_insert_eq. rewrite length_insert. by eapply lookup_lt_Some. }
  assert (at_pos s1 (nqueue s) = Ret a) as ->.
  { rewrite Hn, En in Hl. rewrite En. replace (S n' - 1)%nat with n' in Hl by lia. cbn [at_pos]. by rewrite Hl. }
  destruct (wf_queued s1 W1 _ a Hl) as (e & He & _). cbn [mbind outcome_bind].
  rewrite (update_Ret _ a e) by done. cbn [mbind outcome_bind]. rewrite <- Hn in *.
  pose proof (cut_wf s1 a e W1 Hl He) as W2. set (s2 := with_events _ _) in *. change (with_events _ _) with s2.
  assert (nqueue s2 = nqueue s1 - 1)%nat as Hn2 by (unfold nqueue, s2; cbn [queue with_events with_queue]; rewrite length_take; unfold nqueue; lia).
  destruct (sink_spec (nqueue s1) s2 k) as (s' & -> & R & H'); [done|lia..|]. cbn [mbind outcome_bind].
  assert (queue s ≡ₚ a :: queue s') as HP.
  { rewrite (ro_perm _ _ R), <- (ro_perm _ _ R1). cbn. rewrite Permutation_cons_append, <- (take_S_r _ _ _ Hl).
    unfold nqueue. by rewrite take_ge by lia. }
  assert (same_but_qid s s') as HS.
  { etrans; [done|]. etrans; [|apply R]. split_and!; try done. intros c. by apply set_qid_same. }
  exists a, s'. pose proof (reordered_n _ _ R) as Hn'. split_and!; [done| |done|apply R|done| | |].
  - by replace (k - 1)%nat with k' by lia.
  - rewrite (ro_max _ _ R). cbn. lia.
  - destruct (wf_queued s Hw k' a Ha) as (e0 & He0 & _). destruct (same_event _ _ _ _ HS He0) as [q Hq]. eexists. split; [done|].
    eapply not_queued; [apply R|done|]. pose proof (wf_NoDup s Hw) as ND. rewrite HP in ND. by inversion ND.
  - rewrite Hn', Hn2 in *. intros Hc. apply H'. eapply cut_heap; [by apply Hh|done|done|]. intros m Hm. rewrite <- K1. apply keys_cut; [done|lia].
Qed.

Lemma heap_min f n : heap f n -> forall m, (1 <= m <= n)%nat -> f 1%nat <= f m.
Proof.
  intros Hh. induction m as [m IH] using lt_wf_ind. intros Hm. destruct (decide (m = 1)%nat) as [->|]; [done|].
  half m. transitivity (f (m / 2)%nat); [apply IH; lia|apply Hh; lia].
Qed.

(** ** What the scheduler thread does not change *)

Definition info (e : Event) : Z * bool * bool * Ns_Time := (id e, f_once e, f_thread e, nextqueue e).
Definition same_info (s s' : Sched) : Prop := forall a, info <$> events s' !! a = info <$> events s !! a.

Definition key_of (s : Sched) (a : Z) : Z := from_option (fun i => tval i.2) 0 (info <$> events s !! a).
Definition threaded (s : Sched) (a : Z) : bool := from_option (fun i => i.1.2) false (info <$> events s !! a).
Definition once_id (s : Sched) (a : Z) : option Z :=
  match info <$> events s !! a with Some (i, true, _, _) => Some i | _ => None end.

Lemma key_of_key s a : key_of s a = key s a.
Proof. unfold key_of, key. by destruct (events s !! a). Qed.

Lemma same_but_qid_info s s' : same_but_qid s s' -> same_info s s'.
Proof.
  intros [E _] a. specialize (E a). destruct (events s !! a) as [[]|], (events s' !! a) as [[]|]; try done.
  injection E. intros. by subst.
Qed.

(** A change of an event that leaves its position and its [info] as they are. *)
Lemma inv_frame s s' :
  queue s' = queue s -> maxqueue s' = maxqueue s ->
  (forall a, (fun e => (qid e, info e)) <$> events s' !! a = (fun e => (qid e, info e)) <$> events s !! a) ->
  inv s -> inv s' /\ same_info s s'.
Proof.
  intros Q M E [[W1 W2] Hh Hr].
  assert (same_info s s') as SI.
  { intros a. specialize (E a). destruct (events s !! a) as [e|], (events s' !! a) as [e'|]; try done.
    cbn in *. apply (inj Some), pair_equal_spec in E as [_ E]. by rewrite E. }
  split; [|done]. split; [split| |].
  - intros i a. rewrite Q. intros (e & He & Hq & Ht)%W1. specialize (E a). rewrite He in E.
    destruct (events s' !! a) as [e'|]; [|done]. cbn in E. apply (inj Some), pair_equal_spec in E as [E1 E2]. exists e'. split_and!; [done|congruence|].
    unfold timed in *. by injection E2 as _ _ _ ->.
  - intros a e' He'. specialize (E a). rewrite He' in E. destruct (events s !! a) as [e|] eqn:He; [|done].
    cbn in E. apply (inj Some), pair_equal_spec in E as [E1 E2]. rewrite Q, E1. by apply W2.
  - unfold nqueue in *. rewrite Q. intros m Hm. enough (forall k, keys s' k = keys s k) as Hk by (rewrite !Hk; by apply Hh).
    intros [|k]; [done|]. cbn. rewrite Q. case_match; [|done]. rewrite <- !key_of_key. unfold key_of. by rewrite SI.
  - unfold nqueue in *. by rewrite Q, M.
Qed.

Definition fired_event (now : Ns_Time) (e : Event) : Event :=
  let e := set_waslate (started_late now e) e in
  let e := set_lastqueue now (if f_once e then set_hashed false e else e) in
  if f_thread e then start_run now e else e.

Definition expire (s : Sched) (t : gmap Z Z) (a : Z) : gmap Z Z :=
  match once_id s a with Some i => delete i t | None => t end.

Definition fired_state (now : Ns_Time) (s : Sched) (a : Z) (e : Event) : Sched :=
  with_lists (with_table (with_events s (<[a := fired_event now e]> (events s))) (expire s (table s) a) (nextId s))
    (if f_thread e then a :: firstEvents s else firstEvents s) (if f_thread e then ready s else a :: ready s).

Lemma fire_event_eq now s a s1 e :
  DeQueueEvent s 1 = Ret (a, s1) -> events s1 !! a = Some e -> fire_event now s = Ret (fired_state now s1 a e).
Proof.
  intros E He. unfold fire_event, fired_state, expire, once_id, fired_event. rewrite E. cbn [mbind outcome_bind].
  unfold event at 1. rewrite He. cbn. rewrite (update_Ret _ a e) by done. cbn. destruct (f_once e), (f_thread e) eqn:Hth; cbn.
  all: do 3 (try (erewrite update_Ret by apply lookup_insert_eq; cbn)); rewrite ?Hth, ?insert_insert_eq; done.
Qed.

Lemma inv_min s a q b : inv s -> queue s = a :: q -> b ∈ queue s -> key_of s a <= key_of s b.
Proof.
  intros Hi Hq [i Hib]%list_elem_of_lookup. rewrite !key_of_key. pose proof (heap_min _ _ (inv_heap s Hi) (S i)) as Hm.
  cbn [keys] in Hm. rewrite Hib, Hq in Hm. cbn in Hm. apply Hm. apply lookup_lt_Some in Hib. unfold nqueue. lia.
Qed.

Lemma fire_event_spec now s a q :
  inv s -> queue s = a :: q ->
  exists s', fire_event now s = Ret s' /\ inv s' /\ queue s ≡ₚ a :: queue s' /\ same_info s s' /\
    Forall (fun b => key_of s a <= key_of s b) (queue s') /\ table s' = expire s (table s) a /\
    firstEvents s' = (if threaded s a then a :: firstEvents s else firstEvents s) /\
    ready s' = (if threaded s a then ready s else a :: ready s).
Proof.
  intros Hi Hq. destruct (DeQueueEvent_spec s 1 Hi) as (a' & s1 & E & Ha & HP & W1 & S1 & R1 & (e & He & Hqe) & H1).
  { unfold nqueue. rewrite Hq. cbn. lia. }
  rewrite Hq in Ha. injection Ha as <-. rewrite (fire_event_eq now s a s1 e E He). eexists. split; [done|].
  assert (inv s1) as I1 by (split; [done|apply H1; by left|done]).
  destruct (inv_frame s1 (fired_state now s1 a e)) as [I2 SI2]; [done|done| |done|].
  { intros b. cbn. destruct (decide (b = a)) as [->|]; [|by rewrite lookup_insert_ne]. rewrite lookup_insert_eq, He. cbn.
    unfold fired_event, info. destruct e, f_once0, f_thread0; done. }
  pose proof (same_but_qid_info _ _ S1) as SI1. split_and!; [done|done| | | | |].
  - intros b. by rewrite SI2, SI1.
  - apply Forall_forall. intros b Hb. cbn in Hb. apply (inv_min s a q b); [done|done|]. rewrite HP. by right.
  - destruct S1 as (_ & ET & _). cbn. unfold expire, once_id. by rewrite SI1, ET.
  - destruct S1 as (_ & _ & _ & _ & EF & _). cbn. unfold threaded. rewrite <- SI1, He. cbn. by rewrite EF.
  - destruct S1 as (_ & _ & _ & _ & _ & ER & _). cbn. unfold threaded. rewrite <- SI1, He. cbn. by rewrite ER.
Qed.

Lemma due_spec now s a q :
  inv s -> normal now -> queue s = a :: q -> due now s = Ret (key_of s a <=? tval now).
Proof.
  intros Hi Hn Hq. unfold due, event. rewrite Hq, key_of_key.
  destruct (wf_queued s (inv_wf s Hi) 0 a) as (e & He & _ & N & P); [by rewrite Hq|]. unfold key. rewrite He. cbn. f_equal.
  destruct (DiffTime_order (nextqueue e) now) as [-> _]; [done..|]. zcases; lia.
Qed.

(** What a round of the scheduler thread does to the queue and to the lists of events
    to run, for the addresses [fired]. *)
Record fires (s : Sched) (fired : list Z) (s' : Sched) : Prop := {
  fires_inv : inv s'; fires_info : same_info s s';
  fires_queue : queue s ≡ₚ fired ++ queue s';
  fires_order : StronglySorted Z.le (key_of s <$> fired);
  fires_table : table s' = foldl (expire s) (table s) fired;
  fires_first : firstEvents s' = rev (List.filter (threaded s) fired) ++ firstEvents s;
  fires_ready : ready s' = rev (List.filter (fun a => negb (threaded s a)) fired) ++ ready s }.

Lemma fires_nil s : inv s -> fires s [] s.
Proof. intros Hi. split; try done. constructor. Qed.

Lemma same_info_fun s s' a :
  same_info s s' -> key_of s' a = key_of s a /\ threaded s' a = threaded s a /\ once_id s' a = once_id s a.
Proof. intros SI. unfold key_of, threaded, once_id. by rewrite SI. Qed.

(** One round before the others. *)
Lemma fires_cons s a s1 fired s' :
  same_info s s1 -> queue s ≡ₚ a :: queue s1 -> Forall (fun b => key_of s a <= key_of s b) (queue s1) ->
  table s1 = expire s (table s) a ->
  firstEvents s1 = (if threaded s a then a :: firstEvents s else firstEvents s) ->
  ready s1 = (if threaded s a then ready s else a :: ready s) ->
  fires s1 fired s' -> fires s (a :: fired) s'.
Proof.
  intros SI P1 Hmin T1 F1 R1 [I2 SI2 P2 O2 T2 F2 R2].
  assert (forall b, key_of s1 b = key_of s b) as EK by (intros; by apply same_info_fun).
  assert (forall b, threaded s1 b = threaded s b) as ET by (intros; by apply same_info_fun).
  assert (forall b, once_id s1 b = once_id s b) as EO by (intros; by apply same_info_fun).
  split; [done|intros b; by rewrite SI2, SI|by rewrite P1, P2| | | |].
  - cbn. rewrite (list_fmap_ext _ (key_of s) fired) in O2 by done. constructor; [done|].
    rewrite P2 in Hmin. apply Forall_app in Hmin as [Hmin _]. by apply Forall_fmap.
  - cbn. rewrite T2, <- T1. clear -EO. generalize (table s1). induction fired as [|b fired IH]; intros t; [done|].
    cbn. rewrite IH. unfold expire. by rewrite EO.
  - rewrite F2, F1, (List.filter_ext _ _ ET). cbn. destruct (threaded s a); cbn; [by rewrite <- app_assoc|done].
  - rewrite R2, R1, (List.filter_ext _ (fun a => negb (threaded s a))) by (intros; by rewrite ET).
    cbn. destruct (threaded s a); cbn; [done|by rewrite <- app_assoc].
Qed.

Lemma fire_loop_spec fuel now : normal now -> forall s,
  inv s -> (nqueue s <= fuel)%nat ->
  exists s' fired, fire_loop fuel now s = Ret s' /\ fires s fired s' /\
    Forall (fun a => key_of s a <= tval now) fired /\ Forall (fun a => tval now < key_of s a) (queue s').
Proof.
  intros Hn. induction fuel as [|fuel IH]; intros s Hi Hf.
  { exists s, []. split_and!; [done|by apply fires_nil|done|]. unfold nqueue in Hf. by destruct (queue s); cbn in *; [|lia]. }
  cbn [fire_loop]. destruct (queue s) as [|a q] eqn:Hq.
  { exists s, []. unfold due. rewrite Hq. cbn. split_and!; [done|by apply fires_nil|done|]. by rewrite ?Hq. }
  rewrite (due_spec now s a q) by done. cbn [mbind outcome_bind]. destruct (Z.leb_spec (key_of s a) (tval now)) as [Hd|Hd].
  2: { exists s, []. split_and!; [done|by apply fires_nil|done|]. 
       apply Forall_forall. intros b Hb. pose proof (inv_min s a q b Hi Hq Hb). lia. }
  destruct (fire_event_spec now s a q Hi Hq) as (s1 & -> & I1 & P1 & SI & Hmin & T1 & F1 & R1). cbn [mbind outcome_bind].
  destruct (IH s1 I1) as (s' & fired & -> & F2 & Hle & Hgt).
  { apply Permutation_length in P1. unfold nqueue in *. cbn in P1. lia. }
  exists s', (a :: fired). split_and!; [done|by eapply fires_cons| |].
  - constructor; [done|]. eapply Forall_impl; [done|]. intros b. cbn. by rewrite (proj1 (same_info_fun _ _ b SI)).
  - eapply Forall_impl; [done|]. intros b. cbn. by rewrite (proj1 (same_info_fun _ _ b SI)).
Qed.

(** An event that is not queued can be changed at will, or created. *)
Lemma inv_unqueued s a e' :
  inv s -> (forall e, events s !! a = Some e -> qid e = 0) -> qid e' = 0 -> inv (with_events s (<[a := e']> (events s))).
Proof.
  intros [[W1 W2] Hh Hr] He Hq'. assert (forall i b, queue s !! i = Some b -> b <> a) as Hne.
  { intros i b (e1 & He1 & Hq1 & _)%W1 ->. specialize (He e1 He1). lia. }
  split; [split| |done]; cbn [queue events with_events].
  - intros i b Hb. rewrite lookup_insert_ne by (intros <-; by eapply Hne). by apply W1.
  - intros b f. destruct (decide (b = a)) as [->|]; [rewrite lookup_insert_eq; intros [= <-]; by left|].
    rewrite lookup_insert_ne by done. apply W2.
  - intros m Hm. enough (forall k, keys (with_events s (<[a := e']> (events s))) k = keys s k) as Hk by (rewrite !Hk; by apply Hh).
    intros [|k]; [done|]. cbn. case_match eqn:Hk; [|done]. unfold key. cbn. rewrite lookup_insert_ne; [done|]. intros <-. by eapply Hne.
Qed.

Section interval.
Context `{Calendar}.

Lemma next_time_interval now e :
  f_daily e = false -> f_weekly e = false -> normal now -> 0 <= tval now ->
  normal (scheduled e) -> 0 <= tval (scheduled e) -> 0 <= sec (interval e) -> 0 <= usec (interval e) ->
  let due := tval (scheduled e) + sec (interval e) * 1000000 + usec (interval e) in
  let e' := next_time now e in
  tval (scheduled e') = due /\ normal (scheduled e') /\ timed e' /\
  tval (nextqueue e') = (if tval now <=? due then due else tval now + 10000) /\ qid e' = qid e.
Proof.
  intros Hd Hw Nn Pn Ns Ps Pi Pu due e'. unfold e', next_time. rewrite Hd, Hw. cbn [orb].
  destruct (IncrTime_val (scheduled e) (sec (interval e)) (usec (interval e))) as [V1 N1]; [done..|].
  destruct (IncrTime_val now 0 10000) as [V2 N2]; [done..|lia|lia|].
  set (nx := Ns_IncrTime (scheduled e) _ _) in *. assert (tval nx = due) as V by (unfold due; lia).
  destruct (DiffTime_order nx now) as [-> _]; [done..|lia|].
  destruct (Z.leb_spec (tval now) due); zcases; try lia; unfold timed;
    cbn [nextqueue scheduled set_times qid]; split_and!; done || lia.
Qed.

Lemma QueueEvent_spec now s a e :
  inv s -> events s !! a = Some e -> qid e = 0 -> f_paused e = false -> timed (next_time now e) -> qid (next_time now e) = 0 ->
  exists s', QueueEvent now s a = Ret s' /\ inv s' /\ queue s' ≡ₚ a :: queue s /\
    same_but_qid (with_events s (<[a := next_time now e]> (events s))) s'.
Proof.
  intros Hi He Hq Hp Ht Hq'. unfold QueueEvent, event. rewrite He. cbn. rewrite Hp, (update_Ret _ a e) by done. cbn.
  set (s0 := with_events s _). assert (inv s0) as I0.
  { apply inv_unqueued; [done| |done]. intros e0. rewrite He. by intros [= <-]. }
  destruct (enqueue_spec s0 a (next_time now e)) as (s' & -> & I' & P' & S'); [done|apply lookup_insert_eq|done..|].
  by exists s'.
Qed.
End interval.

(** ** Free ids *)

Lemma free_id_None fuel t : forall next,
  0 <= next < 2 ^ 31 -> free_id fuel t next = None -> forall k, (k < fuel)%nat -> is_Some (t !! ((next + Z.of_nat k) mod 2 ^ 31)).
Proof.
  induction fuel as [|fuel IH]; intros next Hn; cbn [free_id]; [lia|]. destruct (t !! next) as [a|] eqn:E; [|done].
  intros H [|k] Hk; [rewrite Z.add_0_r, Z.mod_small by done; by eexists|].
  apply (IH _) with (k := k) in H; [|zcases; lia|lia]. destruct (Z.eqb_spec next (2 ^ 31 - 1)) as [->|].
  - replace ((2 ^ 31 - 1 + Z.of_nat (S k)) mod 2 ^ 31) with ((0 + Z.of_nat k) mod 2 ^ 31); [done|].
    replace (2 ^ 31 - 1 + Z.of_nat (S k)) with (0 + Z.of_nat k + 1 * 2 ^ 31) by lia. by rewrite Z_mod_plus_full.
  - by replace (next + Z.of_nat (S k)) with (next + 1 + Z.of_nat k) by lia.
Qed.

Lemma free_id_Some fuel t : forall next i n, 0 <= next < 2 ^ 31 -> free_id fuel t next = Some (i, n) -> t !! i = None /\ 0 <= i < 2 ^ 31 /\ 0 <= n < 2 ^ 31.
Proof.
  induction fuel as [|fuel IH]; intros next i n Hn; cbn [free_id]; [done|]. destruct (t !! next) eqn:E.
  - apply IH. zcases; lia.
  - intros [= <- <-]. split_and!; [done|lia|lia|zcases; lia|zcases; lia].
Qed.

(** More ids than there are events are tried. *)
Lemma free_id_found t next :
  0 <= next < 2 ^ 31 -> Z.of_nat (size t) < 2 ^ 31 -> exists i n, free_id (S (size t)) t next = Some (i, n).
Proof.
  intros Hn Hs. destruct (free_id (S (size t)) t next) as [[i n]|] eqn:E; [by eexists _, _|exfalso].
  pose proof (free_id_None _ _ _ Hn E) as Hall. set (ids := (fun k => (next + Z.of_nat k) mod 2 ^ 31) <$> seq 0 (S (size t))).
  assert (NoDup ids) as Hd.
  { apply NoDup_fmap_2_strong; [|apply NoDup_seq]. intros x y Hx%elem_of_seq Hy%elem_of_seq Exy.
    assert ((Z.of_nat x - Z.of_nat y) mod 2 ^ 31 = 0) as Hm.
    { replace (Z.of_nat x - Z.of_nat y) with ((next + Z.of_nat x) - (next + Z.of_nat y)) by lia. by rewrite Zminus_mod, Exy, Z.sub_diag. }
    apply Z.mod_divide in Hm as [q Hq]; [|lia]. nia. }
  assert (list_to_set ids ⊆ dom t) as Hsub.
  { intros z (k & -> & Hk%elem_of_seq)%elem_of_list_to_set%list_elem_of_fmap. apply elem_of_dom, Hall. lia. }
  apply subseteq_size in Hsub. rewrite size_list_to_set, size_dom in Hsub by done. unfold ids in Hsub.
  rewrite length_fmap, length_seq in Hsub. lia.
Qed.

(** ** Samples *)

Definition no_sched : Sched := mkSched ∅ ∅ [] 0 0 false [] [] [].

Definition sample_event (i q secs iv : Z) (once thread : bool) : Event :=
  let t := mkTime (-1) 0 in
  mkEvent i true q (mkTime secs 0) t t t (mkTime iv 0) (mkTime secs 0) once thread false false false false None.

(** Three queued events and one that is not. *)
Definition sample : Sched :=
  mkSched {[ 1 := sample_event 0 1 900 60 true false; 2 := sample_event 1 2 950 60 false true;
             3 := sample_event 2 3 2000 60 false false; 4 := sample_event 3 0 980 60 false false ]}
    {[ 0 := 1; 1 := 2; 2 := 3; 3 := 4 ]} [1; 2; 3] 25 4 false [] [] [].

Lemma sample_inv : inv sample.
Proof.
  split; [split| |cbn; lia].
  - intros [|[|[|i]]] a; intros [= <-]; eexists; (split; [reflexivity|]); (split; [reflexivity|]);
      (split; [split; cbn; lia|vm_compute; discriminate]).
  - intros a e He. cbn [events sample] in He. repeat (apply lookup_insert_Some in He as [[<- <-]|[_ He]]; [cbn; (by left) || (right; split; [lia|done])|]).
    apply lookup_singleton_Some in He as [<- <-]. by left.
  - intros m Hm. change (nqueue sample) with 3%nat in Hm. assert (m = 2 \/ m = 3)%nat as [-> | ->] by lia; vm_compute; discriminate.
Qed.

(** A calendar in which a date is its seconds; it is used by daily and weekly events only. *)
Definition plain_calendar : Calendar :=
  {| ns_localtime := fun s => mkTm s 0 0 0 0 0 0; mktime := fun t => (tm_sec t + 86400 * tm_mday t, t) |}.

(** Events that run once, after the given intervals, at the addresses from [a] on. *)
Fixpoint schedule_all (now : Ns_Time) (s : Sched) (a : Z) (ivs : list Z) : outcome Sched :=
  match ivs with
  | [] => Ret s
  | iv :: ivs =>
      r ← @Ns_ScheduleProcEx plain_calendar now s a (mkFlags true false false false false) (mkTime iv 0);
      schedule_all now r.2 (a + 1) ivs
  end.

(** ** The properties *)

(** C25.  The queue of the scheduler (nsd/sched.c, [DeQueueEvent] at the root, called by
    [SchedThread]): one round of the scheduler thread takes exactly the events that are
    due off the queue, in the order of their times.  Threaded events are put on the list
    of the event threads and the others on the list the scheduler runs itself, events
    that run once leave the table of ids, nothing else of an event that the queue
    depends on changes, no access leaves the array and the queue is a heap again. *)
Theorem fire_due_correct now s :
  inv s -> normal now ->
  exists s' fired, fire_due now s = Ret s' /\ fires s fired s' /\
    Forall (fun a => key_of s a <= tval now) fired /\ Forall (fun a => tval now < key_of s a) (queue s').
Proof. intros Hi Hn. by apply fire_loop_spec. Qed.

Lemma fire_due_correct_witness :
  inv sample /\ normal (mkTime 1000 0) /\
  exists s' fired, fire_due (mkTime 1000 0) sample = Ret s' /\ fires sample fired s' /\
    Forall (fun a => key_of sample a <= 1000000000) fired /\ Forall (fun a => 1000000000 < key_of sample a) (queue s').
Proof.
  assert (normal (mkTime 1000 0)) as Hn by (split; cbn; lia).
  split; [apply sample_inv|]. split; [done|]. apply (fire_due_correct (mkTime 1000 0) sample sample_inv Hn).
Defined.

Section queue_event.
Context `{Calendar}.

(** Queuing an event with an interval ([QueueEvent]): the nominal time advances by
    exactly one interval, however late the call is, the event is queued for that time,
    or for 10 ms from now when it has passed, the array of the queue is extended in
    time, and the queue is a heap of the old events and the new one. *)
Theorem QueueEvent_correct now s a e :
  inv s -> events s !! a = Some e -> qid e = 0 -> f_paused e = false -> f_daily e = false -> f_weekly e = false ->
  normal now -> 0 <= tval now -> normal (scheduled e) -> 0 <= tval (scheduled e) ->
  0 <= sec (interval e) -> 0 <= usec (interval e) ->
  let due := tval (scheduled e) + sec (interval e) * 1000000 + usec (interval e) in
  exists s' e', QueueEvent now s a = Ret s' /\ inv s' /\ queue s' ≡ₚ a :: queue s /\
    events s' !! a = Some e' /\ tval (scheduled e') = due /\
    tval (nextqueue e') = (if tval now <=? due then due else tval now + 10000) /\
    (forall b, b <> a -> set_qid 0 <$> events s' !! b = set_qid 0 <$> events s !! b).
Proof.
  intros Hi He Hq Hp Hd Hw Nn Pn Ns Ps Pi Pu due.
  destruct (next_time_interval now e Hd Hw Nn Pn Ns Ps Pi Pu) as (T1 & _ & T2 & T3 & T4).
  destruct (QueueEvent_spec now s a e Hi He Hq Hp T2) as (s' & E & I' & P' & S'); [congruence|].
  destruct (same_event _ _ a (next_time now e) S') as [q Hq']; [apply lookup_insert_eq|].
  exists s', (set_qid q (next_time now e)). split_and!; [done..|]. intros b Hb. destruct S' as [E' _]. rewrite E'.
  cbn. by rewrite lookup_insert_ne.
Qed.

(** Scheduling a procedure with an interval ([Ns_ScheduleProcEx]): an id that no other
    event has is found, also after the counter has wrapped around, the id leads to the
    event, and the event is added to the queue for one interval from now.  A negative
    interval and a server that is shutting down change nothing. *)
Theorem ScheduleProcEx_correct now s a fl iv :
  inv s -> events s !! a = None -> 0 <= nextId s < 2 ^ 31 -> Z.of_nat (size (table s)) < 2 ^ 31 ->
  daily fl = false -> weekly fl = false -> paused fl = false -> normal now -> 0 <= tval now ->
  if (sec iv <? 0) || (usec iv <? 0) || shutdownPending s then Ns_ScheduleProcEx now s a fl iv = Ret (-1, s)
  else exists i s', Ns_ScheduleProcEx now s a fl iv = Ret (i, s') /\ inv s' /\ 0 <= i /\ 0 <= nextId s' < 2 ^ 31 /\
    table s !! i = None /\ table s' = <[i := a]> (table s) /\ queue s' ≡ₚ a :: queue s /\
    key_of s' a = tval now + sec iv * 1000000 + usec iv.
Proof.
  intros Hi Ha Hn Hsz Hd Hw Hp Nn Pn. unfold Ns_ScheduleProcEx.
  destruct (Z.ltb_spec (sec iv) 0), (Z.ltb_spec (usec iv) 0); cbn [orb]; [done..|]. destruct (shutdownPending s); [done|].
  destruct (free_id_found (table s) (nextId s) Hn Hsz) as (i & n & Ef). rewrite Ef. cbn [checked mbind outcome_bind].
  destruct (free_id_Some _ _ _ _ _ Hn Ef) as (Hfree & Hri & Hrn). set (e := mkEvent i true 0 _ _ _ _ iv now _ _ _ _ _ _ _).
  set (s1 := with_table _ _ n). assert (inv s1) as I1.
  { destruct (inv_frame (with_events s (<[a := e]> (events s))) s1) as [I1 _]; [done..| |done].
    apply inv_unqueued; [done| |done]. intros e'. by rewrite Ha. }
  destruct (next_time_interval now e Hd Hw Nn Pn Nn Pn) as (T1 & _ & T2 & T3 & T4); [done..|].
  destruct (QueueEvent_spec now s1 a e I1) as (s' & -> & I' & P' & S'); [apply lookup_insert_eq|done|done|done|done|].
  cbn [mbind outcome_bind]. destruct (same_event _ _ a (next_time now e) S') as [q Hq]; [apply lookup_insert_eq|].
  destruct S' as (_ & ET & EN & _). exists i, s'. split_and!; [done|done|lia|rewrite EN; cbn; lia|rewrite EN; cbn; lia|done|done|done|].
  unfold key_of. rewrite Hq. cbn. rewrite T3. cbn. destruct (Z.leb_spec (tval now) (tval now + sec iv * 1000000 + usec iv)); [done|lia].
Qed.
End queue_event.

Lemma ScheduleProcEx_correct_witness :
  exists i s', @Ns_ScheduleProcEx plain_calendar (mkTime 1000 0) sample 5 (mkFlags true false false false false) (mkTime 7 500) = Ret (i, s') /\
    inv s' /\ 0 <= i /\ 0 <= nextId s' < 2 ^ 31 /\
    table sample !! i = None /\ table s' = <[i := 5]> (table sample) /\ queue s' ≡ₚ 5 :: queue sample /\ key_of s' 5 = 1007000500.
Proof.
  apply (@ScheduleProcEx_correct plain_calendar (mkTime 1000 0) sample 5 (mkFlags true false false false false) (mkTime 7 500)).
  1: apply sample_inv. 1: reflexivity. 1: split; [discriminate|reflexivity]. 1-4: reflexivity.
  1-2: vm_compute; (discriminate || (split; [split|]; (reflexivity || discriminate))).
Defined.

Lemma QueueEvent_correct_witness :
  exists s' e', @QueueEvent plain_calendar (mkTime 1000 0) sample 4 = Ret s' /\ inv s' /\ queue s' ≡ₚ [4; 1; 2; 3] /\
    events s' !! 4 = Some e' /\ tval (scheduled e') = 1040000000 /\ tval (nextqueue e') = 1040000000 /\
    (forall b, b <> 4 -> set_qid 0 <$> events s' !! b = set_qid 0 <$> events sample !! b).
Proof.
  apply (@QueueEvent_correct plain_calendar (mkTime 1000 0) sample 4 (sample_event 3 0 980 60 false false)).
  1: apply sample_inv. 1-5: reflexivity. 1-6: vm_compute; (discriminate || (split; [split|]; (reflexivity || discriminate))).
Defined.

(** Removing the event at position [k] from the queue ([DeQueueEvent]): no access
    leaves the array, the event at [k] and nothing else leaves the queue, every event
    knows its new position; the queue stays a heap if [k] is the root or the last event
    is not earlier than the parent of [k]. *)
Theorem DeQueueEvent_correct s k :
  inv s -> (1 <= k <= nqueue s)%nat ->
  exists a s', DeQueueEvent s k = Ret (a, s') /\ queue s !! (k - 1)%nat = Some a /\ queue s ≡ₚ a :: queue s' /\
    wf s' /\ same_but_qid s s' /\ (k = 1%nat \/ keys s (k / 2) <= keys s (nqueue s) -> inv s').
Proof.
  intros Hi Hk. destruct (DeQueueEvent_spec s k Hi Hk) as (a & s' & E & Ha & P & W & S & R & _ & Hh).
  exists a, s'. split_and!; try done. intros Hc. by split; [|apply Hh|].
Qed.

Lemma DeQueueEvent_correct_witness :
  exists a s', DeQueueEvent sample 2 = Ret (a, s') /\ queue sample !! 1%nat = Some a /\ queue sample ≡ₚ a :: queue s' /\
    wf s' /\ same_but_qid sample s' /\ inv s'.
Proof.
  destruct (DeQueueEvent_correct sample 2 sample_inv ltac:(cbn; lia)) as (a & s' & E & Ha & P & W & S & Hc).
  exists a, s'. split_and!; try assumption. apply Hc. right. vm_compute. discriminate.
Defined.

(** [Ns_Cancel] and [Ns_Pause] can lose the order of the queue, since [DeQueueEvent]
    moves the last event down from the free position but never up: after seven events
    are scheduled for 3, 13, 5, 7, 10, 8 and 6 seconds and the second one is cancelled, the
    scheduler at the time of 6 seconds leaves an event in the queue that is due. *)
Theorem Cancel_misses_due_event :
  exists s s1 s2 a,
    schedule_all (mkTime 1000000 0) no_sched 1 [3; 13; 5; 7; 10; 8; 6] = Ret s /\
    Ns_Cancel s 1 = Ret (true, s1) /\ fire_due (mkTime 1000006 0) s1 = Ret s2 /\
    a ∈ queue s2 /\ key_of s2 a = tval (mkTime 1000006 0).
Proof.
  do 3 eexists. exists 7. do 3 (split; [vm_compute; reflexivity|]). split; [|vm_compute; reflexivity].
  apply list_elem_of_In. vm_compute. tauto.
Qed.

(** An event that is paused and resumed while it runs is queued twice: it is put on the
    queue by [Ns_Resume] and again when its procedure returns, as neither looks at
    [qid].  Here an event with an interval of one second runs at 1 s, and another
    thread pauses and resumes it before it ends. *)
Theorem Pause_Resume_queues_twice :
  let C := plain_calendar in
  let t n := mkTime (1000000 + n) 0 in
  exists s0 s1 s2 s3 s4 s5,
    @Ns_ScheduleProcEx C (t 0) no_sched 100 (mkFlags false false false false false) (mkTime 1 0) = Ret (0, s0) /\
    fire_due (t 1) s0 = Ret s1 /\ start_ready (t 1) s1 = Ret (Some 100, s2) /\
    Ns_Pause s2 0 = Ret (true, s3) /\ @Ns_Resume C (t 2) s3 0 = Ret (true, s4) /\
    @finish_event C (t 2) s4 100 = Ret s5 /\ queue s5 = [100; 100].
Proof. cbn zeta. do 6 eexists. do 6 (split; [vm_compute; reflexivity|]). reflexivity. Qed.

(** Cancelling a paused event reports that nothing was cancelled although it removes
    the event's id, and the event is not freed: no id, no queue and no list leads to it
    any more. *)
Theorem Cancel_paused_leaks :
  let C := plain_calendar in
  exists s0 s1 s2 e,
    @Ns_ScheduleProcEx C (mkTime 1000000 0) no_sched 100 (mkFlags false false false false false) (mkTime 1 0) = Ret (0, s0) /\
    Ns_Pause s0 0 = Ret (true, s1) /\ Ns_Cancel s1 0 = Ret (false, s2) /\
    events s2 !! 100 = Some e /\ table s2 = ∅ /\ queue s2 = [] /\ ready s2 = [] /\ firstEvents s2 = [] /\ freed s2 = [].
Proof. cbn zeta. do 4 eexists. do 3 (split; [vm_compute; reflexivity|]). split_and!; vm_compute; reflexivity. Qed.
