(* ===== verification/UrlSpace.v ===== *)
(** * UrlSpace: the data registered for sets of URLs, of nsd/urlspace.c.

    A junction holds channels, one per filter (the last part of a URL, with
    wildcards); a channel has a trie whose branches are the method and the parts of
    the URL, and whose nodes hold the registered data.  The tries of a junction live
    in a memory [tries] and are referred to by address; channels and branches do not
    change once they are created, so that the two indexes of a junction can share
    them as values.  [None] as the result of an operation is a dangling pointer or an
    access outside of an array.  The theorems are in UrlSpaceMap. *)

From S2P Require Import Prelude Index Sockaddr.

Definition NS_OP_NOINHERIT : Z := 0x02.
Definition NS_OP_NODELETE : Z := 0x04.
Definition NS_OP_RECURSE : Z := 0x08.
Definition NS_OP_ALLCONSTRAINTS : Z := 0x10.
Definition NS_OP_SEGMENT_MATCH : Z := 0x20.
Definition has (flags bit : Z) : bool := negb (Z.land flags bit =? 0).

(** ** Context constraints *)

Inductive SpecType := SpecTypeConjunction | SpecTypeIPv6 | SpecTypeIPv4 | SpecTypeHeader.
Definition type_code (t : SpecType) : Z :=
  match t with SpecTypeConjunction => 0 | SpecTypeIPv6 => 1 | SpecTypeIPv4 => 2 | SpecTypeHeader => 3 end.

(** A constraint on one header field or on the address of the client, or a
    conjunction of constraints. *)
Inductive ContextSpec :=
| Conjunction (list : list ContextSpec) (specificity : Z)
| Single (type : SpecType) (field patternString : list Z) (ip mask : sockaddr) (specificity : Z) (hasPattern : bool).

Definition spec_type (s : ContextSpec) : SpecType :=
  match s with Conjunction _ _ => SpecTypeConjunction | Single t _ _ _ _ _ _ => t end.
Definition spec_specificity (s : ContextSpec) : Z :=
  match s with Conjunction _ n => n | Single _ _ _ _ _ n _ => n end.
Definition spec_hasPattern (s : ContextSpec) : bool :=
  match s with Conjunction _ _ => false | Single _ _ _ _ _ _ b => b end.
(** The pattern of a conjunction is NULL; it is never compared. *)
Definition spec_patternString (s : ContextSpec) : list Z :=
  match s with Conjunction _ _ => [] | Single _ _ p _ _ _ _ => p end.
Definition spec_size (s : ContextSpec) : Z :=
  match s with Conjunction l _ => Z.of_nat (length l) | Single _ _ _ _ _ _ _ => 0 end.

Fixpoint CountNonWildcharChars (chars : list Z) : Z :=
  match chars with
  | [] => 0
  | c :: chars => (if negb (c =? 42) then 1 else 0) + CountNonWildcharChars chars
  end.

Section Specs.
Variable inet_pton : Z -> list Z -> option (list Z).

Definition header_spec (field patternString : list Z) (ip mask : sockaddr) : ContextSpec :=
  Single SpecTypeHeader field patternString ip mask ((CountNonWildcharChars patternString) mod 2 ^ 32)
    (bool_decide (42 ∈ patternString)).

Definition NsUrlSpaceContextSpecNew (field patternString : list Z) : ContextSpec :=
  if bool_decide (tolower <$> field = tolower <$> bytes "X-NS-ip") then
    let '(ok, ip, mask, nrBits) := Ns_SockaddrParseIPMask inet_pton patternString in
    if ok then
      Single (if sa_family mask =? AF_INET then SpecTypeIPv4 else SpecTypeIPv6) field patternString ip mask nrBits
        (bool_decide (47 ∈ patternString))
    else header_spec field patternString ip mask
  else header_spec field patternString zero_sockaddr zero_sockaddr.

(** The pairs of a list with an even number of elements; [None] is the error. *)
Fixpoint pairs {A} (l : list A) : option (list (A * A)) :=
  match l with
  | [] => Some []
  | x :: y :: l => (cons (x, y)) <$> pairs l
  | [_] => None
  end.

Definition NsObjToUrlSpaceContextSpec (ov : list (list Z)) : option ContextSpec :=
  l ← pairs ov;
  match l with
  | [(field, pattern)] => Some (NsUrlSpaceContextSpecNew field pattern)
  | _ =>
      let specs := (fun '(field, pattern) => NsUrlSpaceContextSpecNew field pattern) <$> l in
      Some (Conjunction specs (foldl (fun acc s => (acc + spec_specificity s) mod 2 ^ 32) 0 specs))
  end.
End Specs.

(** The context of a request: the header fields (by a lookup that ignores case) and
    the address of the client. *)
Record Context := mkContext {
  headers : option (list Z -> option (list Z));
  client : option sockaddr
}.

(** The order of the constraints at a node.  The patterns of equal specificity are
    compared with themselves, as in the source. *)
Definition CmpUrlSpaceContextSpecs (l r : ContextSpec) : Z :=
  if negb (type_code (spec_type l) =? type_code (spec_type r)) then
    if type_code (spec_type l) <? type_code (spec_type r) then -1 else 1
  else if spec_hasPattern l && spec_hasPattern r then
    let result := c_int (spec_specificity r) - c_int (spec_specificity l) in
    if result =? 0 then strcmp (spec_patternString l) (spec_patternString l) else result
  else if type_code (spec_type r) =? type_code SpecTypeConjunction then
    let result := c_int (spec_specificity r) - c_int (spec_specificity l) in
    if result =? 0 then
      if spec_size l =? spec_size r then 0 else if spec_size r <? spec_size l then -1 else 1
    else result
  else if negb (spec_hasPattern l) && negb (spec_hasPattern r) then
    strcmp (spec_patternString l) (spec_patternString l)
  else (if spec_hasPattern l then 1 else 0) - (if spec_hasPattern r then 1 else 0).

(** ** Data *)

(** A constraint with the data it guards. *)
Record Spec := mkSpec { spec : ContextSpec; spec_data : Z; dataFreeProc : option Z }.

Record Node := mkNode {
  dataInherit : option Z;
  dataNoInherit : option Z;
  deletefuncInherit : option Z;
  deletefuncNoInherit : option Z;
  specs : Ns_Index Spec
}.

Record Branch := mkBranch { word : list Z; sub : nat }.

Record Trie := mkTrie { branches : Ns_Index Branch; node : option Node }.

Record Channel := mkChannel { filter : list Z; trie : nat; flags : Z }.

(** What was freed: data with a cleanup function, or a constraint. *)
Inductive Freed := FreeData (proc : Z) (data : option Z) | FreeSpec (s : ContextSpec).

Record Junction := mkJunction {
  tries : list Trie;
  byname : Ns_Index Channel;
  byuse : Ns_Index Channel;
  freed : list Freed
}.

Definition set_tries (ts : list Trie) (j : Junction) : Junction := mkJunction ts (byname j) (byuse j) (freed j).
Definition add_freed (l : list Freed) (j : Junction) : Junction :=
  mkJunction (tries j) (byname j) (byuse j) (freed j ++ l).
Definition set_trie (a : nat) (t : Trie) (j : Junction) : Junction := set_tries (<[a := t]> (tries j)) j.

(** A call of a cleanup function, if there is one. *)
Definition call_free (proc : option Z) (data : option Z) : list Freed :=
  match proc with Some p => [FreeData p data] | None => [] end.

Fixpoint for_each {S A} (f : A -> S -> option S) (l : list A) (s : S) : option S :=
  match l with
  | [] => Some s
  | x :: l => s ← f x s; for_each f l s
  end.

(** The elements of an index, read by position. *)
Definition index_list {A} (ix : Ns_Index A) : option (list A) := mapM (Ns_IndexEl ix) (seqZ 0 (n ix)).

Definition CmpBranches (l r : Branch) : Z := strcmp (word l) (word r).
Definition CmpKeyWithBranch (key : list Z) (b : Branch) : Z := strcmp key (word b).
Definition CmpSpecs (l r : Spec) : Z := CmpUrlSpaceContextSpecs (spec l) (spec r).
Definition CmpChannelsAsStrings (l r : Channel) : Z := strcmp (filter l) (filter r).
Definition CmpKeyWithChannelAsStrings (key : list Z) (c : Channel) : Z := strcmp key (filter c).

Definition ContextFilterDestroy (ix : Ns_Index Spec) : option (list Freed) :=
  l ← index_list ix;
  Some (concat ((fun s => call_free (dataFreeProc s) (Some (spec_data s)) ++ [FreeSpec (spec s)]) <$> l)).

Definition NodeDestroy (nd : Node) : option (list Freed) :=
  l ← ContextFilterDestroy (specs nd);
  Some (call_free (deletefuncNoInherit nd) (dataNoInherit nd) ++ call_free (deletefuncInherit nd) (dataInherit nd) ++ l).

Definition TrieInit : Trie := mkTrie (Ns_IndexInit 25) None.

(** ** Sequences

    "key\0urltoken\0...\0\0" in a buffer.  The operations walk over the words of the
    sequence; an empty word is its end. *)

(** The loop over the directories of the URL; every round consumes a character. *)
Fixpoint mkseq_loop (fuel : nat) (url : list Z) : list Z :=
  match fuel, url with
  | S fuel, c :: rest =>
      if negb (c =? 47) then
        match strchr 47 url with
        | (w, Some rest) => w ++ [0] ++ mkseq_loop fuel rest
        | (w, None) => w ++ [0]
        end
      else mkseq_loop fuel rest
  | _, _ => []
  end.

Definition MkSeq (key url : list Z) : list Z := key ++ [0] ++ mkseq_loop (length url) url ++ [0].

(** [for (p = seq; p[l = strlen(p) + 1] != '\0'; p += l)]: the words from [p] on. *)
Fixpoint seq_words (fuel : nat) (p : list Z) : list (list Z) :=
  match fuel with
  | O => []
  | S fuel =>
      let w := before_nul p in
      match drop (length w + 1) p with
      | [] => [w]
      | c :: rest => if c =? 0 then [w] else w :: seq_words fuel (c :: rest)
      end
  end.

Definition words (seq : list Z) : list (list Z) := seq_words (length seq) seq.

(** The last word, and [*p = '\0'] on it. *)
Definition last_word (ws : list (list Z)) : list Z := List.last ws [].
Definition cut_last (ws : list (list Z)) : list (list Z) := removelast ws ++ [[]].

Section Space.
Context `{Bsearch}.

(** ** Tries *)

(** The end of [TrieAdd]: the node is created or updated. *)
Definition add_node (nd : option Node) (data : Z) (fl : Z) (deleteProc : option Z) (contextSpec : option ContextSpec)
  : option (Node * list Freed) :=
  let '(nd, frees) :=
    match nd with
    | None => (mkNode None None None None (Ns_IndexInit 10), [])
    | Some nd =>
        if negb (has fl NS_OP_NODELETE) then
          if has fl NS_OP_NOINHERIT then (nd, call_free (deletefuncNoInherit nd) (dataNoInherit nd))
          else
            match contextSpec, deletefuncInherit nd with
            | None, Some p => (mkNode None (dataNoInherit nd) (deletefuncInherit nd) (deletefuncNoInherit nd) (specs nd),
                               [FreeData p (dataInherit nd)])
            | _, _ => (nd, [])
            end
        else (nd, [])
    end in
  if has fl NS_OP_NOINHERIT
  then Some (mkNode (dataInherit nd) (Some data) (deletefuncInherit nd) deleteProc (specs nd), frees)
  else
    match contextSpec with
    | None => Some (mkNode (Some data) (dataNoInherit nd) deleteProc (deletefuncNoInherit nd) (specs nd), frees)
    | Some s =>
        ix ← Ns_IndexAdd CmpSpecs (specs nd) (mkSpec s data deleteProc);
        Some (mkNode (dataInherit nd) (dataNoInherit nd) (deletefuncInherit nd) (deletefuncNoInherit nd) ix, frees)
    end.

Fixpoint TrieAdd (seq : list (list Z)) (a : nat) (data fl : Z) (deleteProc : option Z)
    (contextSpec : option ContextSpec) (j : Junction) : option Junction :=
  t ← tries j !! a;
  match seq with
  | [] | [] :: _ =>
      '(nd, frees) ← add_node (node t) data fl deleteProc contextSpec;
      Some (add_freed frees (set_trie a (mkTrie (branches t) (Some nd)) j))
  | w :: seq =>
      b ← Ns_IndexFind CmpKeyWithBranch (branches t) w;
      match b with
      | Some b => TrieAdd seq (sub b) data fl deleteProc contextSpec j
      | None =>
          let new := length (tries j) in
          ix ← Ns_IndexAdd CmpBranches (branches t) (mkBranch w new);
          let j := set_trie a (mkTrie ix (node t)) j in
          TrieAdd seq new data fl deleteProc contextSpec (set_tries (tries j ++ [TrieInit]) j)
      end
  end.

(** The tries below [a] have larger addresses, so that the number of tries is enough
    fuel for the recursion. *)
Fixpoint TrieTrunc (fuel : nat) (a : nat) (j : Junction) : option Junction :=
  match fuel with
  | O => None
  | S fuel =>
      t ← tries j !! a;
      j ← for_each (fun i j => t ← tries j !! a; b ← Ns_IndexEl (branches t) i; TrieTrunc fuel (sub b) j)
            (seqZ 0 (n (branches t))) j;
      t ← tries j !! a;
      match node t with
      | Some nd => frees ← NodeDestroy nd; Some (add_freed frees (set_trie a (mkTrie (branches t) None) j))
      | None => Some j
      end
  end.

(** The result -1 (no such sequence) is ignored by the caller. *)
Fixpoint TrieTruncBranch (seq : list (list Z)) (a : nat) (j : Junction) : option Junction :=
  match seq with
  | [] | [] :: _ => TrieTrunc (S (length (tries j))) a j
  | w :: seq =>
      t ← tries j !! a;
      b ← Ns_IndexFind CmpKeyWithBranch (branches t) w;
      match b with Some b => TrieTruncBranch seq (sub b) j | None => Some j end
  end.

(** The function that decides whether a constraint holds is an argument of the search. *)
Section Find.
Variable proc : ContextSpec -> Context -> bool.

(** The data of a node: [at_end] when the whole sequence is consumed. *)
Definition node_data (nd : Node) (at_end : bool) (context : option Context) : option (option Z) :=
  match at_end, dataNoInherit nd with
  | true, Some d => Some (Some d)
  | _, _ =>
      match context with
      | None => Some (dataInherit nd)
      | Some ctx =>
          l ← index_list (specs nd);
          Some (match List.find (fun s => proc (spec s) ctx) l with
                | Some s => Some (spec_data s)
                | None => dataInherit nd
                end)
      end
  end.

Definition at_end (seq : list (list Z)) : bool := match seq with [] | [] :: _ => true | _ => false end.

(** The data and the depth of its node; [Some None] is NULL. *)
Fixpoint TrieFind (j : Junction) (seq : list (list Z)) (a : nat) (context : option Context) (depth : Z)
  : option (option (Z * Z)) :=
  t ← tries j !! a;
  data ← match node t with Some nd => node_data nd (at_end seq) context | None => Some None end;
  let here := (fun d => (d, depth)) <$> data in
  match seq with
  | [] | [] :: _ => Some here
  | w :: seq =>
      b ← Ns_IndexFind CmpKeyWithBranch (branches t) w;
      match b with
      | None => Some here
      | Some b =>
          p ← TrieFind j seq (sub b) context (depth + 1);
          Some (match p with Some _ => p | None => here end)
      end
  end.
End Find.

(** The data, and whether there is a node. *)
Fixpoint TrieFindExact (j : Junction) (seq : list (list Z)) (a : nat) (fl : Z) : option (option Z * bool) :=
  t ← tries j !! a;
  match seq with
  | [] | [] :: _ =>
      match node t with
      | Some nd => Some (if has fl NS_OP_NOINHERIT then dataNoInherit nd else dataInherit nd, true)
      | None => Some (None, false)
      end
  | w :: seq =>
      b ← Ns_IndexFind CmpKeyWithBranch (branches t) w;
      match b with Some b => TrieFindExact j seq (sub b) fl | None => Some (None, false) end
  end.

(** The end of [TrieDelete]: the data that is removed, and the new node. *)
Definition delete_node (nd : Node) (fl : Z) : option (option Z * Node * list Freed) :=
  let del := negb (has fl NS_OP_NODELETE) in
  let '(data, nd, frees) :=
    if has fl NS_OP_NOINHERIT then
      (dataNoInherit nd, mkNode (dataInherit nd) None (deletefuncInherit nd) None (specs nd),
       if del then call_free (deletefuncNoInherit nd) (dataNoInherit nd) else [])
    else
      (dataInherit nd, mkNode None (dataNoInherit nd) None (deletefuncNoInherit nd) (specs nd),
       if del then call_free (deletefuncInherit nd) (dataInherit nd) else []) in
  if has fl NS_OP_ALLCONSTRAINTS then
    l ← ContextFilterDestroy (specs nd);
    Some (data, mkNode (dataInherit nd) (dataNoInherit nd) (deletefuncInherit nd) (deletefuncNoInherit nd)
                  (Ns_IndexTrunc (specs nd)), frees ++ l)
  else Some (data, nd, frees).

Fixpoint TrieDelete (seq : list (list Z)) (a : nat) (fl : Z) (j : Junction) : option (option Z * Junction) :=
  t ← tries j !! a;
  match seq with
  | [] | [] :: _ =>
      match node t with
      | Some nd =>
          '(data, nd, frees) ← delete_node nd fl;
          Some (data, add_freed frees (set_trie a (mkTrie (branches t) (Some nd)) j))
      | None => Some (None, j)
      end
  | w :: seq =>
      b ← Ns_IndexFind CmpKeyWithBranch (branches t) w;
      match b with Some b => TrieDelete seq (sub b) fl j | None => Some (None, j) end
  end.

(** ** Junctions *)

(** [Tcl_StringMatch(str, pattern)] of the Tcl library. *)
Variable StringMatch : list Z -> list Z -> bool.

Definition CmpChannels (l r : Channel) : Z :=
  let lcontainsr := StringMatch (filter r) (filter l) in
  let rcontainsl := StringMatch (filter l) (filter r) in
  if lcontainsr && rcontainsl then 0 else if lcontainsr then 1 else if rcontainsl then -1 else 0.

(** [JunctionGet] on first access. *)
Definition new_junction : Junction := mkJunction [] (Ns_IndexInit 5) (Ns_IndexInit 5) [].

Definition is_wild (w : list Z) : bool := bool_decide (42 ∈ w) || bool_decide (63 ∈ w).
Definition STAR : list Z := [42].

(** The filter of a sequence, and the sequence without it. *)
Definition split_filter (ws : list (list Z)) : list Z * list (list Z) :=
  if (1 <? Z.of_nat (length ws)) && is_wild (last_word ws) then (last_word ws, cut_last ws) else (STAR, ws).

Definition JunctionAdd (ws : list (list Z)) (data fl : Z) (freeProc : option Z) (contextSpec : option ContextSpec)
    (j : Junction) : option Junction :=
  let '(dsFilter, ws) := split_filter ws in
  c ← Ns_IndexFind CmpKeyWithChannelAsStrings (byname j) dsFilter;
  match c with
  | Some c => TrieAdd ws (trie c) data fl freeProc contextSpec j
  | None =>
      let c := mkChannel dsFilter (length (tries j)) fl in
      use ← Ns_IndexAdd CmpChannels (byuse j) c;
      name ← Ns_IndexAdd CmpChannelsAsStrings (byname j) c;
      TrieAdd ws (trie c) data fl freeProc contextSpec (mkJunction (tries j ++ [TrieInit]) name use (freed j))
  end.

Definition JunctionTruncBranch (ws : list (list Z)) (j : Junction) : option Junction :=
  for_each (fun i j => c ← Ns_IndexEl (byuse j) i; TrieTruncBranch ws (trie c) j) (seqZ 0 (n (byuse j))) j.

Record MatchInfo := mkInfo { offset : Z; segmentLength : Z; isSegmentMatch : bool }.

(** The loop over the segments before the last one: the place of the last one that
    matches the filter. *)
Fixpoint segment_loop (ws : list (list Z)) (fil : list Z) (segmentOffset : Z) (found : option MatchInfo)
  : option MatchInfo :=
  match ws with
  | [] | [_] => found
  | segment :: ws =>
      let len := Z.of_nat (length segment) in
      segment_loop ws fil (segmentOffset + len + 1)
        (if StringMatch segment fil then Some (mkInfo segmentOffset len true) else found)
  end.

(** The candidate of a channel: where its filter matches. *)
Definition candidate (ws : list (list Z)) (c : Channel) : option MatchInfo :=
  let noFilter := bool_decide (filter c = STAR) in
  if noFilter || StringMatch (last_word ws) (filter c) then Some (mkInfo 0 0 false)
  else if has (flags c) NS_OP_SEGMENT_MATCH then segment_loop ws (filter c) 0 None
  else None.

(** Deeper nodes win; of equally deep ones the first in the order of use. *)
Definition better (cand best : option (Z * Z * MatchInfo)) : option (Z * Z * MatchInfo) :=
  match cand, best with
  | Some (_, candidateDepth, _), Some (_, depth, _) => if depth <? candidateDepth then cand else best
  | Some _, None => cand
  | None, _ => best
  end.

Fixpoint find_loop (proc : ContextSpec -> Context -> bool) (j : Junction) (ws : list (list Z))
    (context : option Context) (ids : list Z) (best : option (Z * Z * MatchInfo)) : option (option (Z * Z * MatchInfo)) :=
  match ids with
  | [] => Some best
  | i :: ids =>
      c ← Ns_IndexEl (byuse j) i;
      cand ← match candidate ws c with
             | Some info =>
                 p ← TrieFind proc j ws (trie c) context 0;
                 Some (match p with Some (d, depth) => Some (d, depth, info) | None => None end)
             | None => Some None
             end;
      find_loop proc j ws context ids (better cand best)
  end.

(** The data with its depth and the information on the match. *)
Definition JunctionFind (proc : ContextSpec -> Context -> bool) (j : Junction) (ws : list (list Z))
    (context : option Context) : option (option (Z * Z * MatchInfo)) :=
  find_loop proc j ws context (seqZ 0 (n (byuse j))) None.

(** The first channel in the order of use with the given filter. *)
Fixpoint channel_loop (j : Junction) (fil : list Z) (ids : list Z) : option (option Channel) :=
  match ids with
  | [] => Some None
  | i :: ids =>
      c ← Ns_IndexEl (byuse j) i;
      if bool_decide (fil = filter c) then Some (Some c) else channel_loop j fil ids
  end.

Definition JunctionFindExact (j : Junction) (ws : list (list Z)) (fl : Z) : option (option Z) :=
  let ids := seqZ 0 (n (byuse j)) in
  c ← channel_loop j (last_word ws) ids;
  match c with
  | Some c => fst <$> TrieFindExact j (cut_last ws) (trie c) fl
  | None =>
      c ← channel_loop j STAR ids;
      match c with
      | Some c => fst <$> TrieFindExact j ws (trie c) fl
      | None => Some None
      end
  end.

(** The loop over the channels until data is found; the sequence is cut when its last
    word is the filter of a channel. *)
Fixpoint delete_loop (fl : Z) (ids : list Z) (ws : list (list Z)) (j : Junction) : option (option Z * Junction) :=
  match ids with
  | [] => Some (None, j)
  | i :: ids =>
      c ← Ns_IndexEl (byuse j) i;
      let exact := bool_decide (last_word ws = filter c) in
      if exact || StringMatch (last_word ws) (filter c) then
        let ws := if exact then cut_last ws else ws in
        '(data, found) ← TrieFindExact j ws (trie c) fl;
        j ← (if (found : bool) then '(_, j) ← TrieDelete ws (trie c) fl j; Some j else Some j);
        match data with
        | Some _ => Some (data, j)
        | None => delete_loop fl ids ws j
        end
      else delete_loop fl ids ws j
  end.

Definition JunctionDeleteNode (ws : list (list Z)) (fl : Z) (j : Junction) : option (option Z * Junction) :=
  delete_loop fl (seqZ 0 (n (byuse j))) ws j.

(** ** The interface *)

Definition Ns_UrlSpecificSet2 (key url : list Z) (data fl : Z) (freeProc : option Z)
    (contextSpec : option ContextSpec) (j : Junction) : option Junction :=
  JunctionAdd (words (MkSeq key url)) data fl freeProc contextSpec j.

Definition Ns_UrlSpecificSet (key url : list Z) (data fl : Z) (freeProc : option Z) (j : Junction) : option Junction :=
  Ns_UrlSpecificSet2 key url data fl freeProc None j.

Inductive Ns_UrlSpaceOp := NS_URLSPACE_DEFAULT | NS_URLSPACE_FAST | NS_URLSPACE_EXACT.

Definition Ns_UrlSpecificGet (proc : ContextSpec -> Context -> bool) (key url : list Z) (fl : Z) (op : Ns_UrlSpaceOp)
    (context : option Context) (j : Junction) : option (option Z * option MatchInfo) :=
  let ws := words (MkSeq key url) in
  match op with
  | NS_URLSPACE_DEFAULT | NS_URLSPACE_FAST =>
      r ← JunctionFind proc j ws context;
      Some (match r with Some (d, _, info) => (Some d, Some info) | None => (None, None) end)
  | NS_URLSPACE_EXACT => d ← JunctionFindExact j ws fl; Some (d, None)
  end.

Definition Ns_UrlSpecificDestroy (key url : list Z) (fl : Z) (j : Junction) : option (option Z * Junction) :=
  let ws := words (MkSeq key url) in
  if has fl NS_OP_RECURSE then j ← JunctionTruncBranch ws j; Some (None, j)
  else JunctionDeleteNode ws fl j.

(** ** Evaluation of constraints *)

Fixpoint NsUrlSpaceContextFilterEval (s : ContextSpec) (ctx : Context) : bool :=
  match s with
  | Conjunction l _ =>
      (fix all (l : list ContextSpec) (success : bool) : bool :=
         match l with
         | [] => success
         | s :: l => if NsUrlSpaceContextFilterEval s ctx then all l true else false
         end) l false
  | Single SpecTypeHeader field pattern _ _ _ _ =>
      match headers ctx with
      | Some lookup => match lookup field with Some val => StringMatch val pattern | None => false end
      | None => false
      end
  | Single SpecTypeIPv4 _ _ ip mask _ _ | Single SpecTypeIPv6 _ _ ip mask _ _ =>
      match client ctx with
      | Some sa => Ns_SockaddrMaskedMatch false sa mask ip
      | None => false
      end
  | Single SpecTypeConjunction _ _ _ _ _ _ => false
  end.

End Space.
