(* ===== verification/UrlSpaceMap.v ===== *)
(** * UrlSpaceMap: the URL space as a table.

    The abstract specification of nsd/urlspace.c is a map from a filter and a path
    (the method and the parts of the URL) to a node, with the list of the channels in
    the order of use.  The theorems show that every sequence of operations on the
    tries, their indexes and the memory computes what the table computes, and draw the
    consequences for the data that is found. *)

From S2P Require Import Prelude Index Sockaddr UrlSpace.

(** ** Lemmas on strings and indexes *)

Definition nz (s : list Z) : Prop := Forall (fun c => c <> 0) s.

Lemma strcmp_eq s t : nz s -> nz t -> strcmp s t = 0 -> s = t.
Proof.
  intros Hs. revert t. induction Hs as [|x s Hx Hs IH]; intros [|y t] Ht; cbn; try done.
  - apply Forall_cons in Ht as [? _]. lia.
  - lia.
  - apply Forall_cons in Ht as [? Ht]. destruct (Z.eqb_spec x y) as [->|]; [|lia].
    destruct (Z.eqb_spec y 0); [done|]. intros. f_equal. by apply IH.
Qed.

Lemma strcmp_refl s : strcmp s s = 0.
Proof. induction s as [|x s IH]; cbn; [done|]. rewrite Z.eqb_refl. by destruct (x =? 0). Qed.

(** The orders of branches and channels are those of their strings. *)
Lemma CmpOrder_by {A B} (f : A -> B) (cmp : B -> B -> Z) `{!CmpOrder cmp} : CmpOrder (fun x y => cmp (f x) (f y)).
Proof. split; intros; [apply cmp_sym|by eapply cmp_trans]. Qed.

Lemma KeyOrder_by {A B} (f : A -> B) (cmp : B -> B -> Z) `{!CmpOrder cmp} :
  KeyOrder (fun x y => cmp (f x) (f y)) (fun k x => cmp k (f x)).
Proof. pose proof (CmpOrder_KeyOrder cmp) as [H1 H2]. split; intros; [by eapply H1|by eapply H2]. Qed.

#[export] Instance CmpBranches_order : CmpOrder CmpBranches := CmpOrder_by word strcmp.
#[export] Instance CmpKeyWithBranch_order : KeyOrder CmpBranches CmpKeyWithBranch := KeyOrder_by word strcmp.
#[export] Instance CmpChannelsAsStrings_order : CmpOrder CmpChannelsAsStrings := CmpOrder_by filter strcmp.
#[export] Instance CmpKeyWithChannel_order : KeyOrder CmpChannelsAsStrings CmpKeyWithChannelAsStrings :=
  KeyOrder_by filter strcmp.

Lemma repr_el {A} (ix : Ns_Index A) l i x : repr ix l -> l !! i = Some x -> Ns_IndexEl ix (Z.of_nat i) = Some x.
Proof. intros (Hc & _) Hx. unfold Ns_IndexEl. rewrite (cells_cell _ l) by (done || by eapply lookup_lt_Some). done. Qed.

Lemma repr_list {A} (ix : Ns_Index A) l : repr ix l -> index_list ix = Some l.
Proof.
  intros Hr. pose proof Hr as (_ & Hn & _). unfold index_list. rewrite Hn. apply mapM_Some_2.
  unfold seqZ. rewrite Nat2Z.id. apply Forall2_lookup. intros i. rewrite list_lookup_fmap.
  destruct (decide (i < length l)%nat) as [Hi|Hi].
  - destruct (lookup_lt_is_Some_2 l i Hi) as [x Hx]. rewrite lookup_seq_lt, Hx by done. cbn. constructor.
    rewrite Z.add_0_r. by apply repr_el with l.
  - rewrite lookup_seq_ge, (lookup_ge_None_2 l i) by lia. constructor.
Qed.

Lemma below_length (l : list nat) N : NoDup l -> (forall x, x ∈ l -> (x < N)%nat) -> (length l <= N)%nat.
Proof.
  intros Hn Hl. rewrite <- (length_seq N 0). apply submseteq_length, NoDup_submseteq; [done|].
  intros x Hx. apply elem_of_seq. specialize (Hl x Hx). lia.
Qed.

(** ** The abstract specification *)

Module table.

Record Node := mkNode {
  inherit : option Z;
  noinherit : option Z;
  delInherit : option Z;
  delNoInherit : option Z;
  specs : list Spec
}.

Definition empty_node : Node := mkNode None None None None [].

(** A filter and a path. *)
Abbreviation Key := (list Z * list (list Z))%type.

(** [use] are the filters with the flags of their channels, in the order in which
    they are tried. *)
Record Table := mkTable {
  use : list (list Z * Z);
  nodes : gmap Key Node;
  freed : list Freed
}.

Definition spec_frees (l : list Spec) : list Freed :=
  concat ((fun s => call_free (dataFreeProc s) (Some (spec_data s)) ++ [FreeSpec (spec s)]) <$> l).

Definition node_frees (nd : Node) : list Freed :=
  call_free (delNoInherit nd) (noinherit nd) ++ call_free (delInherit nd) (inherit nd) ++ spec_frees (specs nd).

(** Registering: the old data is freed unless it is to be kept. *)
Definition replaced (nd : option Node) (fl : Z) (contextSpec : option ContextSpec) : list Freed :=
  match nd with
  | None => []
  | Some nd =>
      if has fl NS_OP_NODELETE then []
      else if has fl NS_OP_NOINHERIT then call_free (delNoInherit nd) (noinherit nd)
      else match contextSpec with None => call_free (delInherit nd) (inherit nd) | Some _ => [] end
  end.

Definition add (nd : Node) (data fl : Z) (del : option Z) (contextSpec : option ContextSpec) : Node :=
  if has fl NS_OP_NOINHERIT then mkNode (inherit nd) (Some data) (delInherit nd) del (specs nd)
  else
    match contextSpec with
    | None => mkNode (Some data) (noinherit nd) del (delNoInherit nd) (specs nd)
    | Some s => mkNode (inherit nd) (noinherit nd) (delInherit nd) (delNoInherit nd)
                  (index_insert CmpSpecs (specs nd) (mkSpec s data del))
    end.

Definition set_node (k : Key) (data fl : Z) (del : option Z) (contextSpec : option ContextSpec) (T : Table) : Table :=
  let old := nodes T !! k in
  mkTable (use T) (<[k := add (default empty_node old) data fl del contextSpec]> (nodes T))
    (freed T ++ replaced old fl contextSpec).

Definition remove (nd : Node) (fl : Z) : Node :=
  let nd := if has fl NS_OP_NOINHERIT then mkNode (inherit nd) None (delInherit nd) None (specs nd)
            else mkNode None (noinherit nd) None (delNoInherit nd) (specs nd) in
  if has fl NS_OP_ALLCONSTRAINTS
  then mkNode (inherit nd) (noinherit nd) (delInherit nd) (delNoInherit nd) [] else nd.

Definition removed (nd : Node) (fl : Z) : list Freed :=
  (if has fl NS_OP_NODELETE then []
   else if has fl NS_OP_NOINHERIT then call_free (delNoInherit nd) (noinherit nd)
   else call_free (delInherit nd) (inherit nd)) ++
  (if has fl NS_OP_ALLCONSTRAINTS then spec_frees (specs nd) else []).

Definition exact (nd : Node) (fl : Z) : option Z := if has fl NS_OP_NOINHERIT then noinherit nd else inherit nd.

Definition delete_node (k : Key) (fl : Z) (T : Table) : Table :=
  match nodes T !! k with
  | None => T
  | Some nd => mkTable (use T) (<[k := remove nd fl]> (nodes T)) (freed T ++ removed nd fl)
  end.

(** The nodes at and below a key. *)
Definition below (k x : Key) : Prop := x.1 = k.1 /\ k.2 `prefix_of` x.2.
#[global] Instance below_dec k x : Decision (below k x).
Proof. unfold below. apply _. Defined.

Definition frees_of (m : gmap Key Node) : list Freed := concat ((fun x => node_frees x.2) <$> map_to_list m).

Definition trunc (k : Key) (T : Table) : Table :=
  mkTable (use T) (base.filter (fun x => ~ below k x.1) (nodes T))
    (freed T ++ frees_of (base.filter (fun x => below k x.1) (nodes T))).

(** ** Operations on the whole table *)

Section Channels.
Variable StringMatch : list Z -> list Z -> bool.

(** The order of use of two filters. *)
Definition CmpUse (l r : list Z * Z) : Z :=
  CmpChannels StringMatch (mkChannel l.1 0 l.2) (mkChannel r.1 0 r.2).

Definition with_channel (fil : list Z) (fl : Z) (T : Table) : Table :=
  if bool_decide (fil ∈ (use T).*1) then T
  else mkTable (index_insert CmpUse (use T) (fil, fl)) (nodes T) (freed T).

End Channels.

(** The words of a sequence up to its end. *)
Fixpoint path_of (seq : list (list Z)) : list (list Z) :=
  match seq with
  | [] | [] :: _ => []
  | w :: seq => w :: path_of seq
  end.

(** The key a sequence is registered under. *)
Definition key_of (ws : list (list Z)) : Key := let '(fil, ws) := split_filter ws in (fil, path_of ws).

Definition register (StringMatch : list Z -> list Z -> bool) (ws : list (list Z)) (data fl : Z) (del : option Z)
    (contextSpec : option ContextSpec) (T : Table) : Table :=
  set_node (key_of ws) data fl del contextSpec (with_channel StringMatch (key_of ws).1 fl T).

(** The data of a node for a request. *)
Definition data_of (proc : ContextSpec -> Context -> bool) (nd : Node) (end_ : bool) (context : option Context) : option Z :=
  match end_, noinherit nd with
  | true, Some d => Some d
  | _, _ =>
      match context with
      | None => inherit nd
      | Some ctx =>
          match List.find (fun s => proc (spec s) ctx) (specs nd) with
          | Some s => Some (spec_data s)
          | None => inherit nd
          end
      end
  end.

(** The data on the way from [(f, p)] along [seq] that is furthest away, with its depth. *)
Fixpoint deepest (proc : ContextSpec -> Context -> bool) (m : gmap Key Node) (f : list Z) (p : list (list Z))
    (seq : list (list Z)) (context : option Context) (depth : Z) : option (Z * Z) :=
  let here := (fun d => (d, depth)) <$> (m !! (f, p) ≫= fun nd => data_of proc nd (at_end seq) context) in
  match seq with
  | [] | [] :: _ => here
  | w :: seq =>
      match deepest proc m f (p ++ [w]) seq context (depth + 1) with
      | Some x => Some x
      | None => here
      end
  end.

(** The parts of a URL between slashes, without the empty ones. *)
Fixpoint split (l : list Z) : list (list Z) :=
  match l with
  | [] => [[]]
  | c :: l =>
      if c =? 47 then [] :: split l
      else match split l with w :: ws => (c :: w) :: ws | [] => [[c]] end
  end.
Definition segments (url : list Z) : list (list Z) := List.filter (fun w => negb (bool_decide (w = []))) (split url).

Definition truncate (ws : list (list Z)) (T : Table) : Table :=
  foldl (fun T c => trunc (c.1, path_of ws) T) T (use T).

(** What a channel has for a request. *)
Definition offer (proc : ContextSpec -> Context -> bool) (StringMatch : list Z -> list Z -> bool) (m : gmap Key Node)
    (ws : list (list Z)) (context : option Context) (c : list Z * Z) : option (Z * Z * MatchInfo) :=
  match candidate StringMatch ws (mkChannel c.1 0 c.2) with
  | Some info =>
      match deepest proc m c.1 [] ws context 0 with Some (d, depth) => Some (d, depth, info) | None => None end
  | None => None
  end.

Definition search (proc : ContextSpec -> Context -> bool) (StringMatch : list Z -> list Z -> bool) (ws : list (list Z))
    (context : option Context) (T : Table) : option (Z * Z * MatchInfo) :=
  foldl (fun best c => better (offer proc StringMatch (nodes T) ws context c) best) None (use T).

(** The key of an exact search. *)
Definition exact_key (ws : list (list Z)) (T : Table) : Key :=
  if bool_decide (last_word ws ∈ (use T).*1) then (last_word ws, path_of (cut_last ws)) else (STAR, path_of ws).

Definition search_exact (ws : list (list Z)) (fl : Z) (T : Table) : option Z :=
  nodes T !! exact_key ws T ≫= fun nd => exact nd fl.

Fixpoint unregister (StringMatch : list Z -> list Z -> bool) (fl : Z) (channels : list (list Z * Z))
    (ws : list (list Z)) (T : Table) : option Z * Table :=
  match channels with
  | [] => (None, T)
  | c :: channels =>
      let same := bool_decide (last_word ws = c.1) in
      if same || StringMatch (last_word ws) c.1 then
        let ws := if same then cut_last ws else ws in
        let k := (c.1, path_of ws) in
        let T' := delete_node k fl T in
        match nodes T !! k ≫= fun nd => exact nd fl with
        | Some d => (Some d, T')
        | None => unregister StringMatch fl channels ws T'
        end
      else unregister StringMatch fl channels ws T
  end.

End table.

Import table.

(** ** The invariant

    Every trie in memory has a label: the filter of its channel and its path.  Labels
    are unique, so that an update through one path does not change another one. *)

Definition node_rel (nd : UrlSpace.Node) (an : Node) : Prop :=
  dataInherit nd = inherit an /\ dataNoInherit nd = noinherit an /\
  deletefuncInherit nd = delInherit an /\ deletefuncNoInherit nd = delNoInherit an /\
  repr (UrlSpace.specs nd) (specs an).

(** The branches [bl] of the trie at [a], labelled [(f, p)]. *)
Record branches_ok (lab : list Key) (a : nat) (f : list Z) (p : list (list Z)) (bl : list Branch) : Prop := {
  bo_sorted : sorted CmpBranches bl;
  bo_nodup : NoDup (sub <$> bl);
  bo_child b : b ∈ bl -> nz (word b) /\ (a < sub b)%nat /\ lab !! sub b = Some (f, p ++ [word b]);
  bo_all w c : lab !! c = Some (f, p ++ [w]) -> mkBranch w c ∈ bl
}.

Record channels_ok (lab : list Key) (ln lu : list Channel) : Prop := {
  co_sorted : sorted CmpChannelsAsStrings ln;
  co_perm : lu ≡ₚ ln;
  co_nodup : NoDup (trie <$> lu);
  co_root c : c ∈ lu -> nz (filter c) /\ lab !! trie c = Some (filter c, []);
  co_all f a : lab !! a = Some (f, []) -> exists c, c ∈ lu /\ filter c = f /\ trie c = a
}.

Record Rep (j : Junction) (lab : list Key) (T : Table) : Prop := {
  r_len : length lab = length (tries j);
  r_nodup : NoDup lab;
  r_branches a t f p : tries j !! a = Some t -> lab !! a = Some (f, p) ->
    exists bl, repr (branches t) bl /\ branches_ok lab a f p bl;
  r_parent f p w : (f, p ++ [w]) ∈ lab -> (f, p) ∈ lab;
  r_node a t k : tries j !! a = Some t -> lab !! a = Some k -> option_Forall2 node_rel (node t) (nodes T !! k);
  r_dom k : k ∉ lab -> nodes T !! k = None;
  r_channels : exists ln lu, repr (byname j) ln /\ repr (byuse j) lu /\ channels_ok lab ln lu /\
    (fun c => (filter c, flags c)) <$> lu = use T;
  r_freed : UrlSpace.freed j ≡ₚ freed T
}.

Lemma lab_inj (lab : list Key) a b k : NoDup lab -> lab !! a = Some k -> lab !! b = Some k -> a = b.
Proof. intros Hn Ha Hb. by eapply NoDup_lookup. Qed.

Lemma branches_length lab a f p bl : branches_ok lab a f p bl -> (length bl <= length lab)%nat.
Proof.
  intros HB. rewrite <- (length_fmap sub bl). apply below_length; [by eapply bo_nodup|].
  intros x (b & -> & Hb)%list_elem_of_fmap. apply (bo_child _ _ _ _ _ HB) in Hb as (_ & _ & Hl). by eapply lookup_lt_Some.
Qed.

Lemma channels_length lab ln lu : channels_ok lab ln lu -> (length lu <= length lab)%nat.
Proof.
  intros HC. rewrite <- (length_fmap trie lu). apply below_length; [by eapply co_nodup|].
  intros x (c & -> & Hc)%list_elem_of_fmap. apply (co_root _ _ _ HC) in Hc as (_ & Hl). by eapply lookup_lt_Some.
Qed.

(** ** Sequences *)

Lemma split_strchr l :
  match strchr 47 l with
  | (w, Some rest) => split l = w :: split rest /\ (length rest < length l)%nat
  | (w, None) => split l = [w] /\ w = l
  end.
Proof.
  induction l as [|c l IH]; [done|]. cbn [strchr split]. destruct (Z.eqb_spec c 47) as [->|]; [split; [done|cbn; lia]|].
  destruct (strchr 47 l) as [w [rest|]]; destruct IH as [-> ?]; (split; [done|]); [cbn; lia|congruence].
Qed.

Definition encode (ws : list (list Z)) : list Z := concat ((fun w => w ++ [0]) <$> ws).

Lemma mkseq_spec fuel url : (length url <= fuel)%nat -> mkseq_loop fuel url = encode (segments url).
Proof.
  revert url. induction fuel as [|fuel IH]; intros [|c rest] Hf; cbn [length] in Hf; try lia; try done.
  cbn [mkseq_loop]. unfold segments. destruct (Z.eqb_spec c 47) as [->|Hc].
  - cbn [negb split Z.eqb Pos.eqb List.filter bool_decide]. rewrite bool_decide_eq_true_2 by done. cbn. apply IH. lia.
  - cbn [negb]. pose proof (split_strchr (c :: rest)) as HS. destruct (strchr 47 (c :: rest)) as [w [rest'|]] eqn:E.
    + destruct HS as [-> Hl]. assert (w <> []).
      { cbn [strchr] in E. destruct (Z.eqb_spec c 47); [done|]. destruct (strchr 47 rest). by injection E as <- _. }
      cbn [List.filter]. rewrite bool_decide_eq_false_2 by done. cbn [negb]. unfold encode. rewrite fmap_cons. cbn [concat].
      rewrite <- app_assoc. cbn [length] in Hl. rewrite IH by lia. done.
    + destruct HS as [-> ->]. cbn. by rewrite app_nil_r.
Qed.

Lemma segments_ok url : nz url -> Forall (fun w => nz w /\ w <> []) (segments url) /\ (length (segments url) <= length url)%nat.
Proof.
  intros Hu. assert (Forall nz (split url) /\ (length (segments url) <= length url)%nat) as [Hs Hl].
  { unfold segments. induction Hu as [|c l Hc Hu IH]; [by repeat constructor|]. cbn [split].
    destruct IH as [Hs Hl]. destruct (Z.eqb_spec c 47).
    - split; [constructor; [constructor|done]|cbn; lia].
    - destruct (split l) as [|w ws] eqn:E; [split; [by repeat constructor|cbn; lia]|]. inversion Hs as [|? ? Hw Hs']; subst.
      cbn [List.filter length] in *. rewrite (bool_decide_eq_false_2 (c :: w = [])) by done. cbn [negb length].
      split; [constructor; [by constructor|done]|]. case_bool_decide; cbn [negb length] in Hl; lia. }
  split; [|done]. apply Forall_forall. intros w Hw. unfold segments in Hw.
  apply list_elem_of_In, filter_In in Hw as [Hw%list_elem_of_In Hne].
  rewrite Forall_forall in Hs. split; [by apply Hs|]. by apply negb_true_iff, bool_decide_eq_false in Hne.
Qed.

Lemma drop_nul (k rest : list Z) : drop (length k + 1) (k ++ 0 :: rest) = rest.
Proof.
  replace (length k + 1)%nat with (length (k ++ [0])) by (rewrite length_app; cbn; lia).
  change (0 :: rest) with ([0] ++ rest). by rewrite (app_assoc k [0] rest), drop_app_length.
Qed.

Lemma seq_words_spec ws : Forall (fun w => nz w /\ w <> []) ws -> forall k fuel,
  nz k -> (length ws < fuel)%nat -> seq_words fuel (k ++ 0 :: encode ws ++ [0]) = k :: ws.
Proof.
  induction 1 as [|w ws [Hw Hne] _ IH]; intros k fuel Hk Hf; (destruct fuel as [|fuel]; [cbn in Hf; lia|]); cbn [seq_words].
  - by rewrite before_nul_stop, drop_nul.
  - rewrite before_nul_stop, drop_nul by done. destruct w as [|c w]; [done|].
    unfold encode. rewrite fmap_cons. cbn [concat app]. apply Forall_cons in Hw as [Hc Hw'].
    destruct (Z.eqb_spec c 0); [done|]. f_equal. rewrite <- !app_assoc.
    apply (IH (c :: w)); [by constructor|cbn in Hf; lia].
Qed.

(** The words of the sequence are the key and the parts of the URL. *)
Lemma MkSeq_words key url : nz key -> nz url ->
  words (MkSeq key url) = key :: segments url /\ Forall nz (words (MkSeq key url)) /\
  (length (words (MkSeq key url)) <= length url + 1)%nat.
Proof.
  intros Hk Hu. destruct (segments_ok url Hu) as [Hs Hl]. unfold words, MkSeq. rewrite mkseq_spec by done.
  assert (E : seq_words (length (key ++ [0] ++ encode (segments url) ++ [0])) (key ++ [0] ++ encode (segments url) ++ [0]) =
    key :: segments url).
  { apply seq_words_spec; [done..|]. assert (length (segments url) <= length (encode (segments url)))%nat.
    { unfold encode. clear. induction (segments url) as [|w ws IH]; [done|]. cbn. rewrite length_app, length_app. cbn. lia. }
    rewrite !length_app. cbn. lia. }
  rewrite E. split_and!; [done| |cbn; lia]. constructor; [done|]. eapply Forall_impl; [done|]. by intros w [? _].
Qed.

Section Refinement.
Context `{Bsearch}.

(** Searching a branch at a labelled trie. *)
Lemma find_branch lab a f p bl ix w :
  repr ix bl -> branches_ok lab a f p bl -> nz w ->
  (exists c, Ns_IndexFind CmpKeyWithBranch ix w = Some (Some (mkBranch w c)) /\ lab !! c = Some (f, p ++ [w]) /\ (a < c)%nat) \/
  (Ns_IndexFind CmpKeyWithBranch ix w = Some None /\ (f, p ++ [w]) ∉ lab).
Proof.
  intros Hr HB Hw. destruct (IndexFind_repr CmpBranches CmpKeyWithBranch ix bl w Hr (bo_sorted _ _ _ _ _ HB)) as (r & -> & Hr').
  destruct r as [[w' c]|]; [left|right].
  - destruct Hr' as [Hin E]. destruct (bo_child _ _ _ _ _ HB _ Hin) as (Hw' & Ha & Hl).
    unfold CmpKeyWithBranch in E. cbn in *. apply strcmp_eq in E as ->; [|done..]. by exists c.
  - split; [done|]. intros (c & Hc)%list_elem_of_lookup. apply (bo_all _ _ _ _ _ HB) in Hc.
    rewrite Forall_forall in Hr'. apply (Hr' _ Hc). unfold CmpKeyWithBranch. cbn. apply strcmp_refl.
Qed.

(** The trie at a label. *)
Lemma rep_trie j lab T a f p :
  Rep j lab T -> lab !! a = Some (f, p) ->
  exists t bl, tries j !! a = Some t /\ repr (branches t) bl /\ branches_ok lab a f p bl.
Proof.
  intros HR Ha. destruct (lookup_lt_is_Some_2 (tries j) a) as [t Ht].
  { rewrite <- (r_len _ _ _ HR). by eapply lookup_lt_Some. }
  destruct (r_branches _ _ _ HR _ _ _ _ Ht Ha) as (bl & Hr & HB). by exists t, bl.
Qed.

(** Replacing the node at a label. *)
Lemma rep_set_node j lab T a k t nd and frees :
  Rep j lab T -> lab !! a = Some k -> tries j !! a = Some t -> option_Forall2 node_rel nd and ->
  Rep (add_freed frees (set_trie a (mkTrie (branches t) nd) j)) lab
    (mkTable (use T) (partial_alter (fun _ => and) k (nodes T)) (freed T ++ frees)).
Proof.
  intros HR Ha Ht Hnd. pose proof (lookup_lt_Some _ _ _ Ht) as Hlt. split; cbn.
  - rewrite length_insert. by apply r_len with T.
  - by eapply r_nodup.
  - intros b t' f p Hb Hl. destruct (decide (a = b)) as [<-|Hne].
    + rewrite list_lookup_insert_eq in Hb by done. simplify_eq. cbn. by eapply r_branches.
    + rewrite list_lookup_insert_ne in Hb by done. by eapply r_branches.
  - by eapply r_parent.
  - intros b t' k' Hb Hl. destruct (decide (a = b)) as [<-|Hne].
    + rewrite list_lookup_insert_eq in Hb by done. simplify_eq. cbn. by rewrite lookup_partial_alter_eq.
    + rewrite list_lookup_insert_ne in Hb by done. rewrite lookup_partial_alter_ne; [by eapply r_node|].
      intros ->. apply Hne. by eapply lab_inj; [eapply r_nodup|..].
  - intros k' Hk'. rewrite lookup_partial_alter_ne; [by eapply r_dom|]. intros ->. apply Hk'. by eapply list_elem_of_lookup_2.
  - by eapply r_channels.
  - by rewrite (r_freed _ _ _ HR).
Qed.

(** Branches do not change when a trie with another label is created. *)
Lemma branches_ok_app lab a f p bl k :
  branches_ok lab a f p bl -> (forall w, k <> (f, p ++ [w])) -> branches_ok (lab ++ [k]) a f p bl.
Proof.
  intros [Hs Hn Hc Hall] Hk. split; try done.
  - intros b Hb. destruct (Hc b Hb) as (? & ? & Hl). split_and!; [done..|]. rewrite lookup_app_l; [done|by eapply lookup_lt_Some].
  - intros w c Hl. apply lookup_app_Some in Hl as [Hl|[_ Hl]]; [by apply Hall|].
    apply list_lookup_singleton_Some in Hl as [_ ->]. by destruct (Hk w).
Qed.

Lemma channels_ok_app lab ln lu f p w :
  channels_ok lab ln lu -> channels_ok (lab ++ [(f, p ++ [w])]) ln lu.
Proof.
  intros [Hs Hp Hn Hr Hall]. split; try done.
  - intros c Hc. destruct (Hr c Hc). split; [done|]. rewrite lookup_app_l; [done|by eapply lookup_lt_Some].
  - intros f' a Hl. apply lookup_app_Some in Hl as [Hl|[_ Hl]]; [by apply Hall|].
    apply list_lookup_singleton_Some in Hl as [_ [= _ E]]. by destruct p.
Qed.

Lemma fresh_branches lab f p : (forall w, (f, p ++ [w]) ∉ lab) -> branches_ok lab (length lab - 1) f p [].
Proof.
  intros Hf. split; cbn; try by constructor.
  - intros b Hb. by apply elem_of_nil in Hb.
  - intros w c Hc. destruct (Hf w). by eapply list_elem_of_lookup_2.
Qed.

(** The branches after an insertion. *)
Lemma branches_ok_insert lab a f p bl w :
  branches_ok lab a f p bl -> nz w -> (f, p ++ [w]) ∉ lab -> (a < length lab)%nat ->
  branches_ok (lab ++ [(f, p ++ [w])]) a f p (index_insert CmpBranches bl (mkBranch w (length lab))).
Proof.
  intros [Hs Hn Hc Hall] Hw Hk Ha. pose proof (index_insert_perm CmpBranches bl (mkBranch w (length lab))) as HP. split.
  - by apply index_insert_sorted; [apply _|].
  - rewrite HP. cbn. constructor; [|done]. intros (b & Eb & Hb)%list_elem_of_fmap.
    destruct (Hc b Hb) as (_ & _ & Hl%lookup_lt_Some). lia.
  - intros b. rewrite HP. intros [->|Hb]%elem_of_cons; cbn.
    + split_and!; [done|done|]. by rewrite lookup_app_r, Nat.sub_diag by lia.
    + destruct (Hc b Hb) as (? & ? & Hl). split_and!; [done..|]. rewrite lookup_app_l; [done|by eapply lookup_lt_Some].
  - intros w' c Hl. rewrite HP. apply elem_of_cons. apply lookup_app_Some in Hl as [Hl|[Hge Hl]]; [right; by apply Hall|left].
    apply list_lookup_singleton_Some in Hl as [? [= E%app_inj_tail]]. destruct E as [_ ->]. f_equal. lia.
Qed.

(** A new trie below the one at [a]. *)
Lemma rep_alloc j lab T a f p t bl w ix' :
  Rep j lab T -> lab !! a = Some (f, p) -> tries j !! a = Some t -> branches_ok lab a f p bl ->
  nz w -> (f, p ++ [w]) ∉ lab -> repr ix' (index_insert CmpBranches bl (mkBranch w (length (tries j)))) ->
  Rep (set_tries (<[a := mkTrie ix' (node t)]> (tries j) ++ [TrieInit]) j) (lab ++ [(f, p ++ [w])]) T.
Proof.
  intros HR Ha Ht HB Hw Hk Hix. pose proof (r_len _ _ _ HR) as Hlen. pose proof (r_nodup _ _ _ HR) as Hnd.
  rewrite <- Hlen in Hix. pose proof (lookup_lt_Some _ _ _ Ha) as Hlt.
  assert (Hfresh : forall w', (f, (p ++ [w]) ++ [w']) ∉ lab ++ [(f, p ++ [w])]).
  { intros w' [Hin|Hin]%elem_of_app; [by apply (r_parent _ _ _ HR) in Hin|]. apply list_elem_of_singleton in Hin.
    injection Hin as E%(f_equal length). rewrite length_app in E; cbn in E. lia. }
  split; cbn.
  - rewrite !length_app, length_insert, Hlen. done.
  - apply NoDup_app. split_and!; [done|set_solver|apply NoDup_singleton].
  - intros b t' f' p' Hb Hl. apply lookup_app_Some in Hb as [Hb|[Hge Hb]].
    + destruct (decide (a = b)) as [<-|Hne].
      * rewrite list_lookup_insert_eq in Hb by lia. rewrite lookup_app_l in Hl by lia. simplify_eq. cbn.
        eexists. split; [done|]. by apply branches_ok_insert.
      * pose proof (lookup_lt_Some _ _ _ Hb) as Hbl. rewrite length_insert in Hbl.
        rewrite list_lookup_insert_ne in Hb by done. rewrite lookup_app_l in Hl by lia.
        destruct (r_branches _ _ _ HR _ _ _ _ Hb Hl) as (bl' & Hr' & HB'). exists bl'. split; [done|].
        apply branches_ok_app; [done|]. intros w' [= -> [-> ->]%app_inj_tail]. apply Hne. by eapply lab_inj.
    + rewrite length_insert in Hge, Hb. apply list_lookup_singleton_Some in Hb as [E <-].
      assert (b = length lab) as -> by lia. rewrite lookup_app_r, Nat.sub_diag in Hl by lia. injection Hl as <- <-.
      exists []. split; [by apply IndexInit_repr|].
      replace (length lab) with (length (lab ++ [(f, p ++ [w])]) - 1)%nat by (rewrite length_app; cbn; lia).
      by apply fresh_branches.
  - intros f' p' w' [Hin|Hin]%elem_of_app; [apply elem_of_app; left; by eapply r_parent|].
    apply list_elem_of_singleton in Hin. injection Hin as -> [-> _]%app_inj_tail.
    apply elem_of_app. left. by eapply list_elem_of_lookup_2.
  - intros b t' k Hb Hl. apply lookup_app_Some in Hb as [Hb|[Hge Hb]].
    + pose proof (lookup_lt_Some _ _ _ Hb) as Hbl. rewrite length_insert in Hbl. rewrite lookup_app_l in Hl by lia.
      destruct (decide (a = b)) as [<-|Hne].
      * rewrite list_lookup_insert_eq in Hb by lia. simplify_eq. cbn. by eapply r_node.
      * rewrite list_lookup_insert_ne in Hb by done. by eapply r_node.
    + rewrite length_insert in Hge, Hb. apply list_lookup_singleton_Some in Hb as [E <-].
      assert (b = length lab) as -> by lia. rewrite lookup_app_r, Nat.sub_diag in Hl by lia. injection Hl as <-.
      cbn. rewrite (r_dom _ _ _ HR) by done. constructor.
  - intros k Hkn. apply (r_dom _ _ _ HR). set_solver.
  - destruct (r_channels _ _ _ HR) as (ln & lu & ? & ? & HC & ?). exists ln, lu. split_and!; [done..| |done].
    by apply channels_ok_app.
  - by apply (r_freed _ _ _ HR).
Qed.

(** The number of constraints at a node. *)
Definition specs_below (K : Z) (T : Table) : Prop :=
  forall k nd, nodes T !! k = Some nd -> Z.of_nat (length (specs nd)) <= K.

Lemma add_node_rel nd and data fl del cs :
  option_Forall2 node_rel nd and -> (forall an, and = Some an -> Z.of_nat (length (specs an)) < 2 ^ 31) ->
  exists nd', add_node nd data fl del cs = Some (nd', replaced and fl cs) /\
    node_rel nd' (add (default empty_node and) data fl del cs).
Proof.
  intros Hrel Hsz. unfold add_node, replaced, add.
  assert (HI : forall ix l, repr ix l -> Z.of_nat (length l) < 2 ^ 31 -> forall e : Spec,
    exists ix', Ns_IndexAdd CmpSpecs ix e = Some ix' /\ repr ix' (index_insert CmpSpecs l e)).
  { intros ix l Hr Hl e. apply IndexAdd_any; [done|]. by destruct Hr as (_ & -> & _). }
  destruct Hrel as [nd an (E1 & E2 & E3 & E4 & Hr)|]; cbn [default].
  - rewrite <- E1, <- E2, <- E3, <- E4. destruct (has fl NS_OP_NODELETE), (has fl NS_OP_NOINHERIT); cbn [negb].
    + eexists. split; [done|]. by split_and!.
    + destruct cs as [s|]; [|eexists; split; [done|by split_and!]].
      destruct (HI _ _ Hr (Hsz _ eq_refl) (mkSpec s data del)) as (ix' & -> & Hr'). cbn. eexists. split; [done|]. by split_and!.
    + eexists. split; [done|]. by split_and!.
    + destruct cs as [s|].
      * destruct (HI _ _ Hr (Hsz _ eq_refl) (mkSpec s data del)) as (ix' & -> & Hr'). cbn. eexists. split; [done|]. by split_and!.
      * destruct (deletefuncInherit nd) eqn:Ed; cbn [call_free]; (eexists; split; [done|]); split_and!; cbn; done || by rewrite <- ?E3.
  - pose proof (IndexInit_repr (A:=Spec) 10 ltac:(lia)) as Hr. destruct (has fl NS_OP_NOINHERIT).
    + eexists. split; [done|]. by split_and!.
    + destruct cs as [s|]; [|eexists; split; [done|by split_and!]].
      destruct (HI _ _ Hr ltac:(cbn; lia) (mkSpec s data del)) as (ix' & E & Hr'). cbn [UrlSpace.specs]. rewrite E. cbn.
      eexists. split; [done|]. by split_and!.
Qed.

Lemma TrieAdd_end data fl del cs j lab T a f p :
  Rep j lab T -> lab !! a = Some (f, p) ->
  (forall nd, nodes T !! (f, p) = Some nd -> Z.of_nat (length (specs nd)) < 2 ^ 31) ->
  exists j', (t ← tries j !! a;
              '(nd, frees) ← add_node (node t) data fl del cs;
              Some (add_freed frees (set_trie a (mkTrie (branches t) (Some nd)) j))) = Some j' /\
    Rep j' lab (set_node (f, p) data fl del cs T).
Proof.
  intros HR Ha Hsz. destruct (rep_trie _ _ _ _ _ _ HR Ha) as (t & bl & Ht & _). rewrite Ht. cbn [mbind option_bind].
  pose proof (r_node _ _ _ HR _ _ _ Ht Ha) as Hrel.
  destruct (add_node_rel _ _ data fl del cs Hrel Hsz) as (nd' & -> & Hnd). cbn [mbind option_bind].
  eexists. split; [done|]. apply (rep_set_node j lab T a (f, p) t (Some nd') (Some _)); [done..|]. by constructor.
Qed.

Lemma TrieAdd_spec seq data fl del cs : Forall nz seq -> forall j lab T a f p,
  Rep j lab T -> lab !! a = Some (f, p) ->
  (forall nd, nodes T !! (f, p ++ path_of seq) = Some nd -> Z.of_nat (length (specs nd)) < 2 ^ 31) ->
  Z.of_nat (length lab) + Z.of_nat (length seq) < 2 ^ 31 ->
  exists j' lab', TrieAdd seq a data fl del cs j = Some j' /\
    Rep j' lab' (set_node (f, p ++ path_of seq) data fl del cs T) /\ (length lab' <= length lab + length seq)%nat.
Proof.
  induction 1 as [|w seq Hw Hseq IH]; intros j lab T a f p HR Ha Hsz Hb.
  - cbn [path_of] in *. rewrite app_nil_r in *. destruct (TrieAdd_end data fl del cs _ _ _ _ _ _ HR Ha Hsz) as (j' & E & HR').
    exists j', lab. split_and!; [exact E|done|lia].
  - destruct w as [|c w].
    + cbn [path_of] in *. rewrite app_nil_r in *. destruct (TrieAdd_end data fl del cs _ _ _ _ _ _ HR Ha Hsz) as (j' & E & HR').
      exists j', lab. split_and!; [exact E|done|cbn; lia].
    + set (v := c :: w) in *. change (path_of (v :: seq)) with (v :: path_of seq) in *.
      assert (Hstep : TrieAdd (v :: seq) a data fl del cs j =
        (t ← tries j !! a;
         b ← Ns_IndexFind CmpKeyWithBranch (branches t) v;
         match b with
         | Some b => TrieAdd seq (sub b) data fl del cs j
         | None =>
             let new := length (tries j) in
             ix ← Ns_IndexAdd CmpBranches (branches t) (mkBranch v new);
             let j := set_trie a (mkTrie ix (node t)) j in
             TrieAdd seq new data fl del cs (set_tries (tries j ++ [TrieInit]) j)
         end)) by done.
      rewrite Hstep. clear Hstep. destruct (rep_trie _ _ _ _ _ _ HR Ha) as (t & bl & Ht & Hr & HB).
      rewrite Ht. cbn [mbind option_bind]. rewrite cons_middle, app_assoc in Hsz |- *.
      destruct (find_branch _ _ _ _ _ _ v Hr HB Hw) as [(b & -> & Hlb & _)|[-> Hk]]; cbn [mbind option_bind sub].
      * destruct (IH j lab T b f (p ++ [v]) HR Hlb Hsz) as (j' & lab' & -> & HR' & Hl'); [cbn in Hb; lia|].
        exists j', lab'. split_and!; [done..|cbn; lia].
      * pose proof (branches_length _ _ _ _ _ HB) as Hbl.
        destruct (IndexAdd_any CmpBranches (branches t) bl (mkBranch v (length (tries j))) Hr) as (ix' & -> & Hix).
        { destruct Hr as (_ & -> & _). lia. }
        cbn [mbind option_bind]. pose proof (rep_alloc j lab T a f p t bl v ix' HR Ha Ht HB Hw Hk Hix) as HR1.
        destruct (IH _ _ T (length (tries j)) f (p ++ [v]) HR1) as (j' & lab' & E & HR' & Hl').
        -- rewrite <- (r_len _ _ _ HR), lookup_app_r, Nat.sub_diag by lia. done.
        -- done.
        -- rewrite length_app. cbn in *. lia.
        -- exists j', lab'. split_and!; [exact E|done|]. rewrite length_app in Hl'. cbn in *. lia.
Qed.

(** A new channel with an empty trie. *)
Lemma channels_ok_insert (cmp : Channel -> Channel -> Z) lab ln lu fil fl :
  channels_ok lab ln lu -> nz fil -> (fil, []) ∉ lab ->
  let c := mkChannel fil (length lab) fl in
  channels_ok (lab ++ [(fil, [])]) (index_insert CmpChannelsAsStrings ln c) (index_insert cmp lu c).
Proof.
  intros [Hs Hp Hn Hr Hall] Hf Hk c.
  assert (Hin : forall x, x ∈ index_insert cmp lu c <-> x = c \/ x ∈ lu).
  { intros x. by rewrite (index_insert_perm cmp lu c), elem_of_cons. }
  split.
  - by apply index_insert_sorted; [apply _|].
  - by rewrite !index_insert_perm, Hp.
  - rewrite index_insert_perm. cbn. constructor; [|done]. intros (x & Ex & Hx)%list_elem_of_fmap.
    destruct (Hr x Hx) as [_ Hl%lookup_lt_Some]. cbn in Ex. lia.
  - intros x [->|Hx]%Hin; cbn.
    + split; [done|]. by rewrite lookup_app_r, Nat.sub_diag by lia.
    + destruct (Hr x Hx). split; [done|]. rewrite lookup_app_l; [done|by eapply lookup_lt_Some].
  - intros f a Hl. apply lookup_app_Some in Hl as [Hl|[Hge Hl]].
    + destruct (Hall f a Hl) as (x & Hx & ?). exists x. by rewrite Hin; auto.
    + apply list_lookup_singleton_Some in Hl as [? [= <-]]. exists c. rewrite Hin. split_and!; [by left|done|]. cbn. lia.
Qed.

Lemma rep_channel (cmp : Channel -> Channel -> Z) j lab T ln lu fil fl name use' :
  Rep j lab T -> channels_ok lab ln lu -> (fun c => (filter c, flags c)) <$> lu = use T -> nz fil -> (fil, []) ∉ lab ->
  let c := mkChannel fil (length (tries j)) fl in
  repr name (index_insert CmpChannelsAsStrings ln c) -> repr use' (index_insert cmp lu c) ->
  Rep (mkJunction (tries j ++ [TrieInit]) name use' (UrlSpace.freed j)) (lab ++ [(fil, [])])
    (mkTable ((fun c => (filter c, flags c)) <$> index_insert cmp lu c) (nodes T) (freed T)).
Proof.
  intros HR HC Huse Hf Hk c Hname Huse'. pose proof (r_len _ _ _ HR) as Hlen. pose proof (r_nodup _ _ _ HR) as Hnd.
  assert (Hfresh : forall p w, (fil, p ++ [w]) ∉ lab).
  { intros p w Hin. revert w Hin. induction p as [|w' p IH] using rev_ind; intros w Hin; apply (r_parent _ _ _ HR) in Hin; [done|].
    by eapply IH. }
  split; cbn.
  - rewrite !length_app, Hlen. done.
  - apply NoDup_app. split_and!; [done|set_solver|apply NoDup_singleton].
  - intros b t f p Hb Hl. apply lookup_app_Some in Hb as [Hb|[Hge Hb]].
    + pose proof (lookup_lt_Some _ _ _ Hb). rewrite lookup_app_l in Hl by lia.
      destruct (r_branches _ _ _ HR _ _ _ _ Hb Hl) as (bl & Hr & HB). exists bl. split; [done|].
      apply branches_ok_app; [done|]. intros w [= _ E]. by destruct p.
    + apply list_lookup_singleton_Some in Hb as [E <-]. assert (b = length lab) as -> by lia.
      rewrite lookup_app_r, Nat.sub_diag in Hl by lia. injection Hl as <- <-.
      exists []. split; [by apply IndexInit_repr|].
      replace (length lab) with (length (lab ++ [(fil, [] : list (list Z))]) - 1)%nat by (rewrite length_app; cbn; lia).
      apply fresh_branches. intros w [Hin|Hin]%elem_of_app; [by apply (Hfresh [] w)|]. apply list_elem_of_singleton in Hin. done.
  - intros f p w [Hin|Hin]%elem_of_app; [apply elem_of_app; left; by eapply r_parent|].
    apply list_elem_of_singleton in Hin. injection Hin as _ E. by destruct p.
  - intros b t k Hb Hl. apply lookup_app_Some in Hb as [Hb|[Hge Hb]].
    + pose proof (lookup_lt_Some _ _ _ Hb). rewrite lookup_app_l in Hl by lia. by eapply r_node.
    + apply list_lookup_singleton_Some in Hb as [E <-]. assert (b = length lab) as -> by lia.
      rewrite lookup_app_r, Nat.sub_diag in Hl by lia. injection Hl as <-. cbn. rewrite (r_dom _ _ _ HR) by done. constructor.
  - intros k Hkn. apply (r_dom _ _ _ HR). set_solver.
  - eexists _, _. split_and!; [done..| |done]. unfold c. rewrite <- Hlen. by apply channels_ok_insert.
  - by apply (r_freed _ _ _ HR).
Qed.

(** Nothing is registered below a path that does not exist. *)
Lemma no_nodes_below j lab T f p q : Rep j lab T -> (f, p) ∉ lab -> nodes T !! (f, p ++ q) = None.
Proof.
  intros HR Hp. apply (r_dom _ _ _ HR). intros Hin. apply Hp. clear Hp.
  induction q as [|w q IH] using rev_ind; [by rewrite app_nil_r in Hin|]. rewrite app_assoc in Hin.
  apply IH. by eapply r_parent.
Qed.

Lemma deepest_none proc m f p seq ctx depth :
  (forall q, m !! (f, p ++ q) = None) -> deepest proc m f p seq ctx depth = None.
Proof.
  revert p depth. induction seq as [|w seq IH]; intros p depth Hq.
  - cbn. pose proof (Hq []) as E. rewrite app_nil_r in E. by rewrite E.
  - pose proof (Hq []) as E. rewrite app_nil_r in E. destruct w as [|c w]; cbn [deepest]; [by rewrite E|].
    rewrite IH; [by rewrite E|]. intros q. rewrite <- app_assoc. apply Hq.
Qed.

Lemma node_data_rel proc nd an end_ ctx :
  node_rel nd an -> node_data proc nd end_ ctx = Some (data_of proc an end_ ctx).
Proof.
  intros (E1 & E2 & _ & _ & Hr). unfold node_data, data_of. rewrite E1, E2.
  destruct end_, (noinherit an), ctx; try done; by rewrite (repr_list _ _ Hr).
Qed.

Lemma TrieFind_spec proc j lab T seq ctx : Rep j lab T -> Forall nz seq -> forall a f p depth,
  lab !! a = Some (f, p) ->
  TrieFind proc j seq a ctx depth = Some (deepest proc (nodes T) f p seq ctx depth).
Proof.
  intros HR. induction 1 as [|w seq Hw Hseq IH]; intros a f p depth Ha;
    destruct (rep_trie _ _ _ _ _ _ HR Ha) as (t & bl & Ht & Hr & HB);
    assert (Hd : forall seq, (match node t with Some nd => node_data proc nd (at_end seq) ctx | None => Some None end) =
      Some (nodes T !! (f, p) ≫= fun nd => data_of proc nd (at_end seq) ctx))
      by (intros s; pose proof (r_node _ _ _ HR _ _ _ Ht Ha) as [nd an Hnd|]; [by rewrite (node_data_rel _ _ _ _ _ Hnd)|done]).
  - cbn [TrieFind deepest]. rewrite Ht. cbn [mbind option_bind]. rewrite Hd. done.
  - destruct w as [|c w]; cbn [TrieFind deepest]; rewrite Ht; cbn [mbind option_bind]; rewrite Hd; [done|].
    cbn [mbind option_bind].
    destruct (find_branch _ _ _ _ _ _ (c :: w) Hr HB Hw) as [(b & -> & Hlb & _)|[-> Hk]]; cbn [mbind option_bind sub].
    + rewrite (IH _ _ _ _ Hlb). cbn [mbind option_bind]. by destruct (deepest _ _ _ _ _ _ _).
    + rewrite deepest_none; [done|]. intros q. by apply no_nodes_below with j lab.
Qed.

Lemma path_of_cons c w seq : path_of ((c :: w) :: seq) = (c :: w) :: path_of seq.
Proof. done. Qed.

Lemma TrieFindExact_spec j lab T fl seq : Rep j lab T -> Forall nz seq -> forall a f p,
  lab !! a = Some (f, p) ->
  TrieFindExact j seq a fl =
    Some (match nodes T !! (f, p ++ path_of seq) with Some nd => (exact nd fl, true) | None => (None, false) end).
Proof.
  intros HR. induction 1 as [|w seq Hw Hseq IH]; intros a f p Ha;
    destruct (rep_trie _ _ _ _ _ _ HR Ha) as (t & bl & Ht & Hr & HB); pose proof (r_node _ _ _ HR _ _ _ Ht Ha) as Hnd.
  - cbn [TrieFindExact path_of]. rewrite app_nil_r, Ht. cbn [mbind option_bind].
    destruct Hnd as [nd an (E1 & E2 & _)|]; [|done]. unfold exact. by rewrite E1, E2.
  - destruct w as [|c w]; cbn [TrieFindExact]; rewrite Ht; cbn [mbind option_bind].
    { cbn [path_of]. rewrite app_nil_r. destruct Hnd as [nd an (E1 & E2 & _)|]; [|done]. unfold exact. by rewrite E1, E2. }
    rewrite path_of_cons, cons_middle, app_assoc.
    destruct (find_branch _ _ _ _ _ _ (c :: w) Hr HB Hw) as [(b & -> & Hlb & _)|[-> Hk]]; cbn [mbind option_bind sub].
    + by apply IH.
    + by rewrite (no_nodes_below j lab T f (p ++ [c :: w])).
Qed.

Lemma ContextFilterDestroy_spec ix l : repr ix l -> ContextFilterDestroy ix = Some (spec_frees l).
Proof. intros Hr. unfold ContextFilterDestroy. by rewrite (repr_list _ _ Hr). Qed.

Lemma delete_node_rel nd an fl :
  node_rel nd an ->
  exists nd', UrlSpace.delete_node nd fl = Some (exact an fl, nd', removed an fl) /\ node_rel nd' (remove an fl).
Proof.
  intros (E1 & E2 & E3 & E4 & Hr). unfold UrlSpace.delete_node, exact, removed, remove.
  rewrite E1, E2, E3, E4. destruct (has fl NS_OP_NOINHERIT), (has fl NS_OP_ALLCONSTRAINTS); cbn [UrlSpace.specs];
    rewrite ?(ContextFilterDestroy_spec _ _ Hr); cbn [mbind option_bind]; destruct (has fl NS_OP_NODELETE); cbn [negb];
    eexists; (split; [rewrite ?app_nil_r; reflexivity|]); split_and!; cbn; try done; by eapply IndexTrunc_repr.
Qed.

Definition same_branches (j j' : Junction) : Prop :=
  (branches <$> tries j') = (branches <$> tries j) /\ byuse j' = byuse j /\ byname j' = byname j.

Lemma same_branches_trie j j' a t :
  same_branches j j' -> tries j !! a = Some t -> exists t', tries j' !! a = Some t' /\ branches t' = branches t.
Proof.
  intros [Hb _] Ht. assert ((branches <$> tries j') !! a = Some (branches t)) as Hl by by rewrite Hb, list_lookup_fmap, Ht.
  rewrite list_lookup_fmap in Hl. destruct (tries j' !! a) as [t'|]; [|done]. injection Hl. by exists t'.
Qed.

Lemma same_branches_set a t nd j frees :
  tries j !! a = Some t -> same_branches j (add_freed frees (set_trie a (mkTrie (branches t) nd) j)).
Proof.
  intros Ht. split; [|done]. cbn. rewrite list_fmap_insert. cbn. apply list_insert_id. by rewrite list_lookup_fmap, Ht.
Qed.

Lemma same_branches_trans j1 j2 j3 : same_branches j1 j2 -> same_branches j2 j3 -> same_branches j1 j3.
Proof. intros (E1 & E2 & E3) (F1 & F2 & F3). split_and!; congruence. Qed.

Lemma TrieDelete_spec j lab T fl seq : Rep j lab T -> Forall nz seq -> forall a f p,
  lab !! a = Some (f, p) ->
  exists d j', TrieDelete seq a fl j = Some (d, j') /\ Rep j' lab (delete_node (f, p ++ path_of seq) fl T) /\
    same_branches j j'.
Proof.
  intros HR. assert (Hend : forall a f p, lab !! a = Some (f, p) ->
    exists d j', (t ← tries j !! a; match node t with
      | Some nd => '(data, nd, frees) ← UrlSpace.delete_node nd fl;
          Some (data, add_freed frees (set_trie a (mkTrie (branches t) (Some nd)) j))
      | None => Some (None, j) end) = Some (d, j') /\ Rep j' lab (delete_node (f, p) fl T) /\ same_branches j j').
  { intros a f p Ha. destruct (rep_trie _ _ _ _ _ _ HR Ha) as (t & bl & Ht & _).
    pose proof (r_node _ _ _ HR _ _ _ Ht Ha) as Hnd. rewrite Ht. cbn [mbind option_bind]. unfold delete_node.
    remember (nodes T !! (f, p)) as an eqn:Ean. destruct Hnd as [nd an Hnd|]; [|by eexists _, _].
    destruct (delete_node_rel nd an fl Hnd) as (nd' & -> & Hnd'). cbn [mbind option_bind].
    eexists _, _. split; [done|]. split; [|by apply same_branches_set].
    apply (rep_set_node j lab T a (f, p) t (Some nd') (Some _)); [done..|]. by constructor. }
  induction 1 as [|w seq Hw Hseq IH]; intros a f p Ha.
  - cbn [path_of]. rewrite app_nil_r. by apply Hend.
  - destruct w as [|c w]; [cbn [path_of]; rewrite app_nil_r; by apply Hend|].
    cbn [TrieDelete]. destruct (rep_trie _ _ _ _ _ _ HR Ha) as (t & bl & Ht & Hr & HB). rewrite Ht. cbn [mbind option_bind].
    rewrite path_of_cons, cons_middle, app_assoc.
    destruct (find_branch _ _ _ _ _ _ (c :: w) Hr HB Hw) as [(b & -> & Hlb & _)|[-> Hk]]; cbn [mbind option_bind sub].
    + by apply IH.
    + eexists _, _. split; [done|]. unfold delete_node. by rewrite (no_nodes_below j lab T f (p ++ [c :: w])).
Qed.

(** *** Truncation *)

Lemma frees_of_insert k nd m : m !! k = None -> frees_of (<[k := nd]> m) ≡ₚ node_frees nd ++ frees_of m.
Proof. intros Hk. unfold frees_of. by rewrite (map_to_list_insert _ _ _ Hk). Qed.

Lemma frees_of_split (P : Key * Node -> Prop) `{!forall x, Decision (P x)} m :
  frees_of m ≡ₚ frees_of (base.filter P m) ++ frees_of (base.filter (fun x => ~ P x) m).
Proof.
  induction m as [|k nd m Hk IH] using map_ind.
  - rewrite !map_filter_empty. unfold frees_of. by rewrite map_to_list_empty.
  - assert (Hf : forall (Q : Key * Node -> Prop) `{!forall x, Decision (Q x)}, base.filter Q m !! k = None).
    { intros Q ?. apply map_lookup_filter_None. by left. }
    rewrite frees_of_insert by done. destruct (decide (P (k, nd))) as [HP|HP].
    + rewrite map_filter_insert_True, map_filter_insert_not' by naive_solver. rewrite frees_of_insert by apply Hf. by rewrite IH, app_assoc.
    + rewrite (map_filter_insert_not' P), map_filter_insert_True by naive_solver.
      rewrite frees_of_insert by apply Hf. by rewrite IH, Permutation_app_swap_app.
Qed.

(** Truncation at the children [ws] of a key, one after the other. *)
Definition trunc_all (k : Key) (ws : list (list Z)) (T : Table) : Table :=
  foldl (fun T w => trunc (k.1, k.2 ++ [w]) T) T ws.

Definition under (k : Key) (ws : list (list Z)) (x : Key) : Prop := Exists (fun w => below (k.1, k.2 ++ [w]) x) ws.
#[local] Instance under_dec k ws x : Decision (under k ws x).
Proof. unfold under. apply _. Defined.

Lemma trunc_all_spec k ws T :
  use (trunc_all k ws T) = use T /\
  nodes (trunc_all k ws T) = base.filter (fun x => ~ under k ws x.1) (nodes T) /\
  freed (trunc_all k ws T) ≡ₚ freed T ++ frees_of (base.filter (fun x => under k ws x.1) (nodes T)).
Proof.
  revert T. induction ws as [|w ws IH]; intros T; cbn [trunc_all foldl].
  - split_and!; [done| |].
    + symmetry. apply map_filter_id. intros i x _ Hu. by apply Exists_nil in Hu.
    + assert (base.filter (fun x : Key * Node => under k [] x.1) (nodes T) = ∅) as ->.
      { apply map_eq. intros i. rewrite lookup_empty. apply map_lookup_filter_None. right. intros x _ Hu. by apply Exists_nil in Hu. }
      unfold frees_of. by rewrite map_to_list_empty, app_nil_r.
  - fold (trunc_all k ws (trunc (k.1, k.2 ++ [w]) T)). destruct (IH (trunc (k.1, k.2 ++ [w]) T)) as (-> & -> & ->).
    cbn [trunc use nodes freed]. split_and!; [done| |].
    + apply map_filter_strong_ext. intros i x. rewrite map_lookup_filter_Some. cbn. unfold under. rewrite Exists_cons. tauto.
    + rewrite <- app_assoc. apply Permutation_app_head.
      rewrite (frees_of_split (fun x => below (k.1, k.2 ++ [w]) x.1) (base.filter (fun x => under k (w :: ws) x.1) _)).
      apply Permutation_app; apply Permutation_refl', (f_equal frees_of), map_filter_strong_ext; intros i x;
        rewrite !map_lookup_filter_Some; cbn; unfold under; rewrite Exists_cons; tauto.
Qed.

(** Removing the children and then the node is the truncation. *)
Lemma trunc_children k ws T :
  (forall x, is_Some (nodes T !! x) -> below k x -> x = k \/ under k ws x) ->
  nodes (trunc k T) = delete k (nodes (trunc_all k ws T)) /\
  freed (trunc k T) ≡ₚ freed (trunc_all k ws T) ++ match nodes T !! k with Some nd => node_frees nd | None => [] end.
Proof.
  intros Hall. destruct (trunc_all_spec k ws T) as (_ & En & Ef).
  assert (Hup : forall x, under k ws x -> below k x /\ x <> k).
  { intros x (w & _ & [E Hp])%Exists_exists. cbn in *. split.
    - split; [done|]. etrans; [|done]. by apply prefix_app_r.
    - intros ->. apply prefix_length in Hp. rewrite length_app in Hp. cbn in Hp. lia. }
  split.
  - rewrite En. apply map_eq. intros x. cbn [trunc nodes]. destruct (decide (x = k)) as [->|Hne].
    + rewrite lookup_delete_eq. apply map_lookup_filter_None. right. intros nd _ Hb. apply Hb. by split.
    + rewrite lookup_delete_ne by done. apply option_eq. intros nd. rewrite !map_lookup_filter_Some. cbn.
      split; intros [Hl Hb]; (split; [done|]).
      * intros Hu. by apply Hb, Hup.
      * intros Hbe. destruct (Hall x ltac:(eauto) Hbe); naive_solver.
  - rewrite Ef. cbn [trunc freed]. rewrite <- app_assoc. apply Permutation_app_head.
    rewrite (frees_of_split (fun x => under k ws x.1) (base.filter (fun x => below k x.1) (nodes T))).
    apply Permutation_app.
    + apply Permutation_refl', (f_equal frees_of), map_filter_strong_ext. intros i x. rewrite map_lookup_filter_Some. cbn.
      split; [tauto|]. intros [Hu ?]. split_and!; [done..|]. by apply Hup.
    + assert (E : base.filter (fun x => ~ under k ws x.1) (base.filter (fun x => below k x.1) (nodes T)) =
        match nodes T !! k with Some nd => {[k := nd]} | None => ∅ end).
      { apply map_eq. intros x. apply option_eq. intros nd. rewrite !map_lookup_filter_Some. cbn. split.
        - intros [[Hl Hbe] Hu]. destruct (Hall x ltac:(eauto) Hbe) as [->|]; [|done]. rewrite Hl. apply lookup_singleton_eq.
        - destruct (nodes T !! k) as [nd'|] eqn:Ek; [|by rewrite lookup_empty].
          intros [<- <-]%lookup_singleton_Some. split_and!; [done|by split|]. intros Hu. by apply Hup in Hu as [_ ?]. }
      rewrite E. unfold frees_of. destruct (nodes T !! k); [|by rewrite map_to_list_empty].
      rewrite map_to_list_singleton. cbn. by rewrite app_nil_r.
Qed.

Lemma rep_ext j lab T T' :
  Rep j lab T -> use T' = use T -> nodes T' = nodes T -> freed T' ≡ₚ freed T -> Rep j lab T'.
Proof.
  intros HR Hu Hn Hf. split; try by apply HR.
  - intros. rewrite Hn. by eapply r_node.
  - intros. rewrite Hn. by eapply r_dom.
  - rewrite Hu. by eapply r_channels.
  - rewrite Hf. by eapply r_freed.
Qed.

(** Every node below a trie is below one of its branches. *)
Lemma nodes_under j lab T a f p bl x :
  Rep j lab T -> branches_ok lab a f p bl -> is_Some (nodes T !! x) -> below (f, p) x ->
  x = (f, p) \/ under (f, p) (word <$> bl) x.
Proof.
  intros HR HB [nd Hx] [E (q & Eq)]. destruct x as [f' p']. cbn in *. subst f' p'.
  destruct q as [|w q]; [left; by rewrite app_nil_r|right].
  destruct (decide ((f, p ++ [w]) ∈ lab)) as [(c & Hc)%list_elem_of_lookup|Hn].
  - apply (bo_all _ _ _ _ _ HB) in Hc. apply Exists_exists. exists w. split.
    + apply list_elem_of_fmap. by exists (mkBranch w c).
    + split; [done|]. cbn. exists q. by rewrite <- app_assoc.
  - pose proof (no_nodes_below j lab T f (p ++ [w]) q HR Hn) as E. rewrite <- app_assoc in E. cbn [app] in E. by rewrite E in Hx.
Qed.

Lemma NodeDestroy_rel nd an : node_rel nd an -> NodeDestroy nd = Some (node_frees an).
Proof.
  intros (E1 & E2 & E3 & E4 & Hr). unfold NodeDestroy, node_frees.
  rewrite (ContextFilterDestroy_spec _ _ Hr), E1, E2, E3, E4. done.
Qed.

(** The end of [TrieTrunc]: the node itself. *)
Lemma trunc_node j lab T a k t :
  Rep j lab T -> lab !! a = Some k -> tries j !! a = Some t ->
  exists j', (match node t with
              | Some nd => frees ← NodeDestroy nd; Some (add_freed frees (set_trie a (mkTrie (branches t) None) j))
              | None => Some j
              end) = Some j' /\
    Rep j' lab (mkTable (use T) (delete k (nodes T))
                  (freed T ++ match nodes T !! k with Some nd => node_frees nd | None => [] end)) /\
    same_branches j j'.
Proof.
  intros HR Ha Ht. pose proof (r_node _ _ _ HR _ _ _ Ht Ha) as Hnd. remember (nodes T !! k) as an eqn:Ean.
  destruct Hnd as [nd an Hnd|].
  - rewrite (NodeDestroy_rel _ _ Hnd). cbn [mbind option_bind]. eexists. split; [done|].
    split; [|by apply same_branches_set]. apply (rep_set_node j lab T a k t None None); [done..|constructor].
  - exists j. split_and!; [done| |done]. apply (rep_ext j lab T); [done|done|cbn; by apply delete_id|cbn; by rewrite app_nil_r].
Qed.

Lemma TrieTrunc_spec fuel : forall j lab T a f p,
  Rep j lab T -> lab !! a = Some (f, p) -> (length lab - a < fuel)%nat ->
  exists j', TrieTrunc fuel a j = Some j' /\ Rep j' lab (trunc (f, p) T) /\ same_branches j j'.
Proof.
  induction fuel as [|fuel IH]; intros j lab T a f p HR Ha Hf; [lia|].
  destruct (rep_trie _ _ _ _ _ _ HR Ha) as (t & bl & Ht & Hr & HB). cbn [TrieTrunc]. rewrite Ht. cbn [mbind option_bind].
  set (F := fun i j => t ← tries j !! a; b ← Ns_IndexEl (branches t) i; TrieTrunc fuel (sub b) j).
  assert (Hloop : forall l1 l2 j1 T1, bl = l1 ++ l2 -> Rep j1 lab T1 -> same_branches j j1 ->
    exists j', for_each F (seqZ (Z.of_nat (length l1)) (Z.of_nat (length l2))) j1 = Some j' /\
      Rep j' lab (trunc_all (f, p) (word <$> l2) T1) /\ same_branches j j').
  { intros l1 l2. revert l1. induction l2 as [|b l2 IH2]; intros l1 j1 T1 Hbl HR1 Hs1; [by exists j1|].
    rewrite seqZ_cons by (cbn; lia). cbn [for_each].
    change (F (Z.of_nat (length l1)) j1) with
      (t ← tries j1 !! a; b ← Ns_IndexEl (branches t) (Z.of_nat (length l1)); TrieTrunc fuel (sub b) j1).
    destruct (same_branches_trie _ _ _ _ Hs1 Ht) as (t1 & -> & Eb). cbn [mbind option_bind]. rewrite Eb.
    rewrite (repr_el _ bl _ b Hr) by (rewrite Hbl; by apply list_lookup_middle). cbn [mbind option_bind].
    destruct (bo_child _ _ _ _ _ HB b) as (_ & Hlt & Hlb); [rewrite Hbl; set_solver|].
    pose proof (lookup_lt_Some _ _ _ Hlb).
    destruct (IH j1 lab T1 (sub b) f (p ++ [word b]) HR1 Hlb) as (j2 & -> & HR2 & Hs2); [lia|]. cbn [mbind option_bind].
    destruct (IH2 (l1 ++ [b]) j2 _ ltac:(by rewrite <- app_assoc) HR2 (same_branches_trans _ _ _ Hs1 Hs2)) as (j' & E & ?).
    exists j'. split; [|done]. rewrite <- E. f_equal. f_equal; rewrite ?length_app; cbn; lia. }
  destruct (Hloop [] bl j T eq_refl HR) as (j1 & E1 & HR1 & Hs1); [by split_and!|].
  destruct Hr as (Hr1 & Hn & Hr2). rewrite Hn. change (Z.of_nat (length [])) with 0 in E1. rewrite E1. cbn [mbind option_bind].
  destruct (same_branches_trie _ _ _ _ Hs1 Ht) as (t1 & Ht1 & _). rewrite Ht1. cbn [mbind option_bind].
  destruct (trunc_node _ _ _ _ _ _ HR1 Ha Ht1) as (j' & -> & HR' & Hs'). exists j'. split; [done|].
  split; [|by eapply same_branches_trans].
  destruct (trunc_children (f, p) (word <$> bl) T) as [En Ef]; [intros x; by apply nodes_under with j lab a|].
  destruct (trunc_all_spec (f, p) (word <$> bl) T) as (Eu & Enn & _).
  assert (Hk : nodes (trunc_all (f, p) (word <$> bl) T) !! (f, p) = nodes T !! (f, p)).
  { rewrite Enn. destruct (nodes T !! (f, p)) as [nd|] eqn:En'.
    - apply map_lookup_filter_Some. split; [done|]. intros (w & _ & [_ Hp%prefix_length])%Exists_exists.
      cbn in Hp. rewrite length_app in Hp. cbn in Hp. lia.
    - apply map_lookup_filter_None. by left. }
  apply (rep_ext _ _ _ _ HR'); cbn [use nodes freed]; [by rewrite Eu|done|]. by rewrite Ef, Hk.
Qed.

Lemma trunc_absent j lab T f p q : Rep j lab T -> (f, p) ∉ lab -> Rep j lab (trunc (f, p ++ q) T).
Proof.
  intros HR Hn. assert (Hb : forall x, is_Some (nodes T !! x) -> ~ below (f, p ++ q) x).
  { intros [f' p'] [nd Hx] [E (r & Er)]. cbn in *. subst f' p'. rewrite <- app_assoc in Hx.
    by rewrite (no_nodes_below j lab T f p (q ++ r) HR Hn) in Hx. }
  apply (rep_ext _ _ _ _ HR); cbn [trunc use nodes freed]; [done| |].
  - apply map_filter_id. intros x nd Hx. apply Hb. eauto.
  - assert (base.filter (fun x : Key * Node => below (f, p ++ q) x.1) (nodes T) = ∅) as ->.
    { apply map_eq. intros x. rewrite lookup_empty. apply map_lookup_filter_None. right. intros nd Hx. apply Hb. eauto. }
    unfold frees_of. by rewrite map_to_list_empty, app_nil_r.
Qed.

Lemma TrieTruncBranch_spec seq : Forall nz seq -> forall j lab T a f p,
  Rep j lab T -> lab !! a = Some (f, p) ->
  exists j', TrieTruncBranch seq a j = Some j' /\ Rep j' lab (trunc (f, p ++ path_of seq) T) /\ same_branches j j'.
Proof.
  assert (Hend : forall j lab T a f p, Rep j lab T -> lab !! a = Some (f, p) ->
    exists j', TrieTrunc (S (length (tries j))) a j = Some j' /\ Rep j' lab (trunc (f, p ++ []) T) /\ same_branches j j').
  { intros j lab T a f p HR Ha. rewrite app_nil_r. apply TrieTrunc_spec; [done..|]. rewrite <- (r_len _ _ _ HR). lia. }
  induction 1 as [|w seq Hw Hseq IH]; intros j lab T a f p HR Ha; [by apply Hend|].
  destruct w as [|c w]; [by apply Hend|]. cbn [TrieTruncBranch].
  destruct (rep_trie _ _ _ _ _ _ HR Ha) as (t & bl & Ht & Hr & HB). rewrite Ht. cbn [mbind option_bind].
  rewrite path_of_cons, cons_middle, app_assoc.
  destruct (find_branch _ _ _ _ _ _ (c :: w) Hr HB Hw) as [(b & -> & Hlb & _)|[-> Hk]]; cbn [mbind option_bind sub].
  - by apply IH.
  - exists j. split_and!; [done|by apply trunc_absent|done].
Qed.

Section Junctions.
Variable StringMatch : list Z -> list Z -> bool.

Lemma last_word_app l x : last_word (l ++ [x]) = x.
Proof. apply last_last. Qed.
Lemma cut_last_app l x : cut_last (l ++ [x]) = l ++ [[]].
Proof. unfold cut_last. by rewrite removelast_last. Qed.

Lemma split_filter_nz ws fil ws' : Forall nz ws -> split_filter ws = (fil, ws') ->
  nz fil /\ Forall nz ws' /\ (length ws' <= length ws)%nat.
Proof.
  intros Hws. unfold split_filter. destruct (_ && _) eqn:E; intros [= <- <-]; [|split_and!; [by repeat constructor|done|done]].
  assert (Hne : ws <> []) by by destruct ws.
  destruct (exists_last Hne) as (l & x & ->). rewrite last_word_app, cut_last_app.
  apply Forall_app in Hws as [Hl Hx]. inversion Hx; subst.
  split_and!; [done|apply Forall_app; split; [done|by repeat constructor]|lens].
Qed.

(** Searching a channel by name. *)
Lemma find_channel j lab T fil :
  Rep j lab T -> nz fil ->
  exists ln lu, repr (byname j) ln /\ repr (byuse j) lu /\ channels_ok lab ln lu /\
    (fun c => (filter c, flags c)) <$> lu = use T /\
    ((exists c, Ns_IndexFind CmpKeyWithChannelAsStrings (byname j) fil = Some (Some c) /\ c ∈ lu /\ filter c = fil /\
        fil ∈ (use T).*1) \/
     (Ns_IndexFind CmpKeyWithChannelAsStrings (byname j) fil = Some None /\ (fil, []) ∉ lab /\ fil ∉ (use T).*1)).
Proof.
  intros HR Hf. destruct (r_channels _ _ _ HR) as (ln & lu & Hn & Hu & HC & Huse). exists ln, lu. split_and!; [done..|].
  assert (Hel : forall f, f ∈ (use T).*1 <-> exists c, c ∈ lu /\ filter c = f).
  { intros f. rewrite <- Huse, <- list_fmap_compose, list_elem_of_fmap. split; intros (c & ? & ?); exists c; split; done || congruence. }
  destruct (IndexFind_repr CmpChannelsAsStrings CmpKeyWithChannelAsStrings (byname j) ln fil Hn (co_sorted _ _ _ HC)) as (r & -> & Hr).
  destruct r as [c|]; [left|right].
  - destruct Hr as [Hin E]. rewrite <- (co_perm _ _ _ HC) in Hin. destruct (co_root _ _ _ HC c Hin) as [Hcf _].
    apply strcmp_eq in E; [|done..]. exists c. split_and!; [done..|]. rewrite Hel. by exists c.
  - assert (Hno : forall c, c ∈ lu -> filter c <> fil).
    { intros c Hc <-. rewrite (co_perm _ _ _ HC) in Hc. rewrite Forall_forall in Hr. apply (Hr c Hc). apply strcmp_refl. }
    split_and!; [done| |].
    + intros (a & Ha)%list_elem_of_lookup. destruct (co_all _ _ _ HC _ _ Ha) as (c & Hc & Hcf & _). by apply (Hno c).
    + rewrite Hel. intros (c & Hc & Hcf). by apply (Hno c).
Qed.

Lemma JunctionAdd_spec ws data fl del cs j lab T :
  Rep j lab T -> Forall nz ws ->
  (forall k nd, nodes T !! k = Some nd -> Z.of_nat (length (specs nd)) < 2 ^ 31) ->
  Z.of_nat (length lab) + Z.of_nat (length ws) + 1 < 2 ^ 31 ->
  exists j' lab', JunctionAdd StringMatch ws data fl del cs j = Some j' /\
    Rep j' lab' (register StringMatch ws data fl del cs T) /\ (length lab' <= length lab + length ws + 1)%nat.
Proof.
  intros HR Hws Hsz Hb. unfold JunctionAdd, register, key_of. destruct (split_filter ws) as [fil ws'] eqn:Esp.
  destruct (split_filter_nz _ _ _ Hws Esp) as (Hf & Hws' & Hlen). cbn [fst]. unfold with_channel.
  destruct (find_channel j lab T fil HR Hf) as (ln & lu & Hn & Hu & HC & Huse & [(c & -> & Hc & Hcf & Hin)|(-> & Hk & Hin)]);
    cbn [mbind option_bind].
  - rewrite bool_decide_eq_true_2 by done. destruct (co_root _ _ _ HC c Hc) as [_ Hl]. rewrite Hcf in Hl.
    destruct (TrieAdd_spec ws' data fl del cs Hws' j lab T (trie c) fil [] HR Hl) as (j' & lab' & -> & HR' & Hl'); [by apply Hsz|lia|].
    exists j', lab'. split_and!; [done..|lia].
  - rewrite bool_decide_eq_false_2 by done. pose proof (channels_length _ _ _ HC) as Hcl. pose proof (r_len _ _ _ HR) as Hlt.
    set (c := mkChannel fil (length (tries j)) fl).
    destruct (IndexAdd_any (CmpChannels StringMatch) (byuse j) lu c Hu) as (use' & -> & Hu').
    { destruct Hu as (_ & -> & _). lia. }
    destruct (IndexAdd_any CmpChannelsAsStrings (byname j) ln c Hn) as (name & -> & Hn').
    { destruct Hn as (_ & -> & _). rewrite <- (co_perm _ _ _ HC). lia. }
    cbn [mbind option_bind]. pose proof (rep_channel _ j lab T ln lu fil fl name use' HR HC Huse Hf Hk Hn' Hu') as HR1.
    rewrite (index_insert_fmap _ _ (CmpUse StringMatch)), Huse in HR1 by done.
    destruct (TrieAdd_spec ws' data fl del cs Hws' _ _ _ (length (tries j)) fil [] HR1) as (j' & lab' & E & HR' & Hl').
    + by rewrite <- Hlt, lookup_app_r, Nat.sub_diag by lia.
    + by apply Hsz.
    + rewrite length_app. cbn. lia.
    + exists j', lab'. split_and!; [exact E|exact HR'|]. rewrite length_app in Hl'. cbn in Hl'. lia.
Qed.

(** *** Loops over the channels in the order of use *)

Lemma rep_use j lab T : Rep j lab T -> exists lu, repr (byuse j) lu /\
  (fun c => (filter c, flags c)) <$> lu = use T /\ Forall (fun c => lab !! trie c = Some (filter c, [])) lu.
Proof.
  intros HR. destruct (r_channels _ _ _ HR) as (ln & lu & _ & Hu & HC & Huse). exists lu. split_and!; [done..|].
  apply Forall_forall. intros c Hc. by apply (co_root _ _ _ HC).
Qed.

(** The rest of a loop over the index: the next element and the remaining positions. *)
Lemma use_head (ix : Ns_Index Channel) l1 c l2 :
  repr ix (l1 ++ c :: l2) ->
  seqZ (Z.of_nat (length l1)) (Z.of_nat (length (c :: l2))) =
    Z.of_nat (length l1) :: seqZ (Z.of_nat (length (l1 ++ [c]))) (Z.of_nat (length l2)) /\
  Ns_IndexEl ix (Z.of_nat (length l1)) = Some c.
Proof.
  intros Hr. split.
  - rewrite seqZ_cons by (cbn; lia). f_equal. f_equal; rewrite ?length_app; cbn; lia.
  - apply (repr_el ix _ _ c Hr). by apply list_lookup_middle.
Qed.

Lemma JunctionTruncBranch_spec ws j lab T :
  Rep j lab T -> Forall nz ws ->
  exists j', JunctionTruncBranch ws j = Some j' /\ Rep j' lab (truncate ws T).
Proof.
  intros HR Hws. destruct (rep_use _ _ _ HR) as (lu & Hu & Huse & Hroot). unfold JunctionTruncBranch, truncate.
  pose proof Hu as (_ & -> & _). rewrite <- Huse. clear Huse.
  assert (Hloop : forall l2 l1 j1 T1, lu = l1 ++ l2 -> Rep j1 lab T1 -> byuse j1 = byuse j ->
    exists j', for_each (fun i j => c ← Ns_IndexEl (byuse j) i; TrieTruncBranch ws (trie c) j)
        (seqZ (Z.of_nat (length l1)) (Z.of_nat (length l2))) j1 = Some j' /\
      Rep j' lab (foldl (fun T c => trunc (c.1, path_of ws) T) T1 ((fun c => (filter c, flags c)) <$> l2))); [|by apply (Hloop lu [])].
  induction l2 as [|c l2 IH]; intros l1 j1 T1 Hl HR1 Eu; [by exists j1|]. subst lu.
  destruct (use_head (byuse j) l1 c l2 Hu) as [-> Ec]. cbn [for_each]. rewrite Eu, Ec. cbn [mbind option_bind].
  assert (Hlc : lab !! trie c = Some (filter c, [])) by (rewrite Forall_forall in Hroot; apply Hroot; set_solver).
  destruct (TrieTruncBranch_spec ws Hws j1 lab T1 (trie c) (filter c) [] HR1 Hlc) as (j2 & -> & HR2 & Hs2).
  cbn [mbind option_bind]. apply (IH (l1 ++ [c])); [by rewrite <- app_assoc|done|]. destruct Hs2 as (_ & -> & _). done.
Qed.

Lemma JunctionFind_spec proc ws ctx j lab T :
  Rep j lab T -> Forall nz ws -> JunctionFind StringMatch proc j ws ctx = Some (search proc StringMatch ws ctx T).
Proof.
  intros HR Hws. destruct (rep_use _ _ _ HR) as (lu & Hu & Huse & Hroot). unfold JunctionFind, search.
  pose proof Hu as (_ & -> & _). rewrite <- Huse. clear Huse.
  assert (Hloop : forall l2 l1 best, lu = l1 ++ l2 ->
    find_loop StringMatch proc j ws ctx (seqZ (Z.of_nat (length l1)) (Z.of_nat (length l2))) best =
    Some (foldl (fun best c => better (offer proc StringMatch (nodes T) ws ctx c) best) best
      ((fun c => (filter c, flags c)) <$> l2))); [|by apply (Hloop lu [])].
  induction l2 as [|c l2 IH]; intros l1 best Hl; [done|]. subst lu.
  destruct (use_head (byuse j) l1 c l2 Hu) as [-> Ec]. cbn [find_loop]. rewrite Ec. cbn [mbind option_bind].
  assert (Hlc : lab !! trie c = Some (filter c, [])) by (rewrite Forall_forall in Hroot; apply Hroot; set_solver).
  rewrite fmap_cons. cbn [foldl]. rewrite <- (IH (l1 ++ [c])) by (by rewrite <- app_assoc).
  unfold offer. cbn [fst snd]. change (candidate StringMatch ws (mkChannel (filter c) 0 (flags c))) with (candidate StringMatch ws c).
  destruct (candidate StringMatch ws c) as [info|]; [|done].
  rewrite (TrieFind_spec proc j lab T ws ctx HR Hws _ _ _ 0 Hlc). cbn [mbind option_bind]. by destruct (deepest _ _ _ _ _ _ _) as [[??]|].
Qed.

Lemma channel_loop_spec j lab T fil :
  Rep j lab T -> exists r, channel_loop j fil (seqZ 0 (n (byuse j))) = Some r /\
    match r with
    | Some c => lab !! trie c = Some (fil, []) /\ fil ∈ (use T).*1
    | None => fil ∉ (use T).*1
    end.
Proof.
  intros HR. destruct (rep_use _ _ _ HR) as (lu & Hu & Huse & Hroot). pose proof Hu as (_ & -> & _). rewrite <- Huse. clear Huse.
  assert (Hloop : forall l2 l1, lu = l1 ++ l2 ->
    exists r, channel_loop j fil (seqZ (Z.of_nat (length l1)) (Z.of_nat (length l2))) = Some r /\
      match r with
      | Some c => lab !! trie c = Some (fil, []) /\ fil ∈ ((fun c => (filter c, flags c)) <$> l2).*1
      | None => fil ∉ ((fun c => (filter c, flags c)) <$> l2).*1
      end); [|by apply (Hloop lu [])].
  induction l2 as [|c l2 IH]; intros l1 Hl; [exists None; split; [done|set_solver]|]. subst lu.
  destruct (use_head (byuse j) l1 c l2 Hu) as [-> Ec]. cbn [channel_loop]. rewrite Ec. cbn [mbind option_bind].
  case_bool_decide as Hf.
  - exists (Some c). split; [done|]. subst fil. split; [|cbn; set_solver]. rewrite Forall_forall in Hroot. apply Hroot. set_solver.
  - destruct (IH (l1 ++ [c])) as (r & -> & Hr); [by rewrite <- app_assoc|]. exists r. split; [done|].
    rewrite !fmap_cons. cbn [fst]. destruct r as [c'|].
    + destruct Hr as [? Hr]. split; [done|]. by right.
    + intros [|]%elem_of_cons; done.
Qed.

Lemma cut_last_nz ws : Forall nz ws -> Forall nz (cut_last ws).
Proof.
  intros Hws. unfold cut_last. apply Forall_app. split; [|by repeat constructor].
  destruct (decide (ws = [])) as [->|Hne]; [constructor|]. destruct (exists_last Hne) as (l & x & ->).
  rewrite removelast_last. by apply Forall_app in Hws as [? _].
Qed.

Lemma JunctionFindExact_spec ws fl j lab T :
  Rep j lab T -> Forall nz ws -> JunctionFindExact j ws fl = Some (search_exact ws fl T).
Proof.
  intros HR Hws. unfold JunctionFindExact, search_exact, exact_key.
  destruct (channel_loop_spec j lab T (last_word ws) HR) as (r & -> & Hr). cbn [mbind option_bind]. destruct r as [c|].
  - destruct Hr as [Hl Hin]. rewrite bool_decide_eq_true_2 by done.
    rewrite (TrieFindExact_spec j lab T fl _ HR (cut_last_nz _ Hws) _ _ _ Hl). cbn [app]. by destruct (nodes T !! _).
  - rewrite bool_decide_eq_false_2 by done.
    destruct (channel_loop_spec j lab T STAR HR) as (r & -> & Hr'). cbn [mbind option_bind]. destruct r as [c|].
    + destruct Hr' as [Hl Hin]. rewrite (TrieFindExact_spec j lab T fl _ HR Hws _ _ _ Hl). cbn [app]. by destruct (nodes T !! _).
    + pose proof (no_nodes_below j lab T STAR [] (path_of ws) HR) as E. cbn [app] in E. rewrite E; [done|].
      intros (a & Ha)%list_elem_of_lookup. destruct (r_channels _ _ _ HR) as (ln & lu & _ & _ & HC & Huse).
      destruct (co_all _ _ _ HC _ _ Ha) as (c & Hc & Hcf & _). apply Hr'. rewrite <- Huse, <- list_fmap_compose.
      apply list_elem_of_fmap. by exists c.
Qed.

Lemma JunctionDeleteNode_spec ws fl j lab T :
  Rep j lab T -> Forall nz ws ->
  exists j', JunctionDeleteNode StringMatch ws fl j = Some ((unregister StringMatch fl (use T) ws T).1, j') /\
    Rep j' lab (unregister StringMatch fl (use T) ws T).2.
Proof.
  intros HR Hws. destruct (rep_use _ _ _ HR) as (lu & Hu & Huse & Hroot). unfold JunctionDeleteNode.
  pose proof Hu as (_ & -> & _). rewrite <- Huse. clear Huse.
  assert (Hloop : forall l2 l1 ws j1 T1, lu = l1 ++ l2 -> Forall nz ws -> Rep j1 lab T1 -> byuse j1 = byuse j ->
    let r := unregister StringMatch fl ((fun c => (filter c, flags c)) <$> l2) ws T1 in
    exists j', delete_loop StringMatch fl (seqZ (Z.of_nat (length l1)) (Z.of_nat (length l2))) ws j1 = Some (r.1, j') /\
      Rep j' lab r.2); [|by apply (Hloop lu [])].
  clear ws Hws. induction l2 as [|c l2 IH]; intros l1 ws j1 T1 Hl Hws HR1 Eu; [by exists j1|]. subst lu.
  destruct (use_head (byuse j) l1 c l2 Hu) as [-> Ec]. cbn [delete_loop]. rewrite Eu, Ec. cbn [mbind option_bind].
  assert (Hlc : lab !! trie c = Some (filter c, [])) by (rewrite Forall_forall in Hroot; apply Hroot; set_solver).
  rewrite fmap_cons. cbn [unregister fst]. destruct (_ || _); [|apply (IH (l1 ++ [c])); [by rewrite <- app_assoc|done..]].
  set (ws' := if bool_decide (last_word ws = filter c) then cut_last ws else ws).
  assert (Hws' : Forall nz ws') by (unfold ws'; case_bool_decide; [by apply cut_last_nz|done]).
  rewrite (TrieFindExact_spec j1 lab T1 fl _ HR1 Hws' _ _ _ Hlc). cbn [mbind option_bind app].
  destruct (nodes T1 !! (filter c, path_of ws')) as [nd|] eqn:En; cbn [mbind option_bind].
  - destruct (TrieDelete_spec j1 lab T1 fl ws' HR1 Hws' _ _ _ Hlc) as (d & j2 & -> & HR2 & (_ & Eu2 & _)). cbn [mbind option_bind app] in *.
    destruct (exact nd fl); [by exists j2|]. apply (IH (l1 ++ [c])); [by rewrite <- app_assoc|done|done|congruence].
  - unfold delete_node. rewrite En. apply (IH (l1 ++ [c])); [by rewrite <- app_assoc|done..].
Qed.

(** ** Sequences of operations *)

Variable proc : ContextSpec -> Context -> bool.

Inductive op :=
| OpSet (key url : list Z) (data fl : Z) (freeProc : option Z) (contextSpec : option ContextSpec)
| OpGet (key url : list Z) (fl : Z) (how : Ns_UrlSpaceOp) (context : option Context)
| OpDestroy (key url : list Z) (fl : Z).

Definition op_key (o : op) : list Z := match o with OpSet k _ _ _ _ _ | OpGet k _ _ _ _ | OpDestroy k _ _ => k end.
Definition op_url (o : op) : list Z := match o with OpSet _ u _ _ _ _ | OpGet _ u _ _ _ | OpDestroy _ u _ => u end.

(** C strings. *)
Definition op_ok (o : op) : Prop := nz (op_key o) /\ nz (op_url o).

(** What an operation returns: the data, and the information on the match. *)
Definition step (j : Junction) (o : op) : option (option Z * option MatchInfo * Junction) :=
  match o with
  | OpSet key url data fl freeProc cs =>
      j ← Ns_UrlSpecificSet2 StringMatch key url data fl freeProc cs j; Some (None, None, j)
  | OpGet key url fl how context =>
      '(d, info) ← Ns_UrlSpecificGet StringMatch proc key url fl how context j; Some (d, info, j)
  | OpDestroy key url fl => '(d, j) ← Ns_UrlSpecificDestroy StringMatch key url fl j; Some (d, None, j)
  end.

Fixpoint run (j : Junction) (ops : list op) : option (list (option Z * option MatchInfo) * Junction) :=
  match ops with
  | [] => Some ([], j)
  | o :: ops => '(d, info, j) ← step j o; '(rs, j) ← run j ops; Some ((d, info) :: rs, j)
  end.

Definition empty_table : Table := mkTable [] ∅ [].

(** The same on the table. *)
Definition table_step (T : Table) (o : op) : option Z * option MatchInfo * Table :=
  let ws := op_key o :: segments (op_url o) in
  match o with
  | OpSet _ _ data fl freeProc cs => (None, None, register StringMatch ws data fl freeProc cs T)
  | OpGet _ _ fl NS_URLSPACE_EXACT _ => (search_exact ws fl T, None, T)
  | OpGet _ _ _ _ context =>
      match search proc StringMatch ws context T with
      | Some (d, _, info) => (Some d, Some info, T)
      | None => (None, None, T)
      end
  | OpDestroy _ _ fl =>
      if has fl NS_OP_RECURSE then (None, None, truncate ws T)
      else let '(d, T) := unregister StringMatch fl (use T) ws T in (d, None, T)
  end.

Fixpoint table_run (T : Table) (ops : list op) : list (option Z * option MatchInfo) * Table :=
  match ops with
  | [] => ([], T)
  | o :: ops => let '(d, info, T) := table_step T o in let '(rs, T) := table_run T ops in ((d, info) :: rs, T)
  end.

(** The space an operation can need. *)
Definition weight (o : op) : Z := Z.of_nat (length (op_url o)) + 3.
Definition total (ops : list op) : Z := foldr (fun o acc => weight o + acc) 0 ops.

Lemma total_ge ops : Z.of_nat (length ops) <= total ops.
Proof. unfold total. induction ops as [|o ops IH]; cbn [foldr length]; [lia|]. unfold weight at 1. lia. Qed.

Lemma add_specs nd data fl del cs : (length (specs (add nd data fl del cs)) <= S (length (specs nd)))%nat.
Proof.
  unfold add. destruct (has fl NS_OP_NOINHERIT); [cbn; lia|]. destruct cs; cbn; [|lia]. by rewrite index_insert_length.
Qed.

Lemma remove_specs nd fl : (length (specs (remove nd fl)) <= length (specs nd))%nat.
Proof. unfold remove. destruct (has fl NS_OP_ALLCONSTRAINTS), (has fl NS_OP_NOINHERIT); cbn; lia. Qed.

Lemma delete_node_specs K k fl T : specs_below K T -> specs_below K (delete_node k fl T).
Proof.
  intros HK. unfold delete_node. destruct (nodes T !! k) as [nd|] eqn:E; [|done]. intros k' nd'. cbn [nodes].
  rewrite lookup_insert_Some. intros [[<- <-]|[_ ?]]; [|by eapply HK]. pose proof (remove_specs nd fl). apply HK in E. lia.
Qed.

Lemma unregister_specs K fl cs : forall ws T, specs_below K T -> specs_below K (unregister StringMatch fl cs ws T).2.
Proof.
  induction cs as [|c cs IH]; intros ws T HK; cbn [unregister]; [done|]. destruct (_ || _); [|by apply IH].
  case_match; [|apply IH]; by apply delete_node_specs.
Qed.

Lemma truncate_specs K ws T : specs_below K T -> specs_below K (truncate ws T).
Proof.
  intros HK. unfold truncate. generalize (use T) as l. intros l. revert T HK. induction l as [|c l IH]; intros T HK; [done|].
  cbn [foldl]. apply IH. intros k nd. cbn [trunc nodes]. rewrite map_lookup_filter_Some. intros [? _]. by eapply HK.
Qed.

Lemma step_specs K T o : 0 <= K -> specs_below K T -> specs_below (K + 1) (table_step T o).2.
Proof.
  intros H0 HK. assert (HK1 : specs_below (K + 1) T) by (intros k nd Hk; apply HK in Hk; lia). unfold table_step.
  destruct o as [key url data fl del cs|key url fl how ctx|key url fl].
  - assert (HC : forall fil, specs_below K (with_channel StringMatch fil fl T)).
    { intros fil k nd. unfold with_channel. by case_bool_decide; intros Hk; eapply HK. }
    intros k nd. cbn [snd register set_node nodes]. set (k0 := key_of _). set (T0 := with_channel _ _ _ _).
    rewrite lookup_insert_Some. intros [[_ <-]|[_ Hk]]; [|apply (HC k0.1) in Hk; lia].
    pose proof (add_specs (default empty_node (nodes T0 !! k0)) data fl del cs) as Ha.
    destruct (nodes T0 !! k0) as [nd|] eqn:E; cbn [default id specs empty_node length] in *; [apply (HC k0.1) in E|]; lia.
  - destruct how; [by repeat case_match..|done].
  - destruct (has fl NS_OP_RECURSE); [by apply truncate_specs|].
    pose proof (unregister_specs (K + 1) fl (use T) (op_key (OpDestroy key url fl) :: segments (op_url (OpDestroy key url fl))) T HK1) as HU.
    by destruct (unregister _ _ _ _ _).
Qed.

Lemma step_spec j lab T o K :
  Rep j lab T -> op_ok o -> specs_below K T -> K < 2 ^ 31 -> Z.of_nat (length lab) + weight o < 2 ^ 31 ->
  exists j' lab', step j o = Some ((table_step T o).1, j') /\ Rep j' lab' (table_step T o).2 /\
    Z.of_nat (length lab') <= Z.of_nat (length lab) + weight o.
Proof.
  intros HR [Hk Hu] HK HK31 Hb. destruct (MkSeq_words _ _ Hk Hu) as (Ews & Hws & Hlw). rewrite Ews in Hws, Hlw.
  unfold weight in *. destruct o as [key url data fl del cs|key url fl how ctx|key url fl]; cbn [step table_step op_key op_url] in *.
  - unfold Ns_UrlSpecificSet2. rewrite Ews.
    destruct (JunctionAdd_spec (key :: segments url) data fl del cs j lab T HR Hws) as (j' & lab' & -> & HR' & Hl').
    { intros k nd Hkn. apply HK in Hkn. lia. }
    { lia. }
    exists j', lab'. split_and!; [done..|lia].
  - unfold Ns_UrlSpecificGet. rewrite Ews, (JunctionFind_spec proc _ ctx j lab T HR Hws), (JunctionFindExact_spec _ fl j lab T HR Hws).
    cbn [mbind option_bind]. exists j, lab. split_and!; [|by destruct how; repeat case_match|lia].
    destruct how; [by destruct (search _ _ _ _ _) as [[[??]?]|]..|done].
  - unfold Ns_UrlSpecificDestroy. rewrite Ews. destruct (has fl NS_OP_RECURSE).
    + destruct (JunctionTruncBranch_spec _ j lab T HR Hws) as (j' & -> & HR'). exists j', lab. split_and!; [done..|lia].
    + destruct (JunctionDeleteNode_spec (key :: segments url) fl j lab T HR Hws) as (j' & -> & HR'). exists j', lab.
      destruct (unregister _ _ _ _ _) as [d T']. split_and!; [done..|lia].
Qed.

Lemma run_spec ops : forall j lab T K,
  Rep j lab T -> Forall op_ok ops -> specs_below K T -> 0 <= K -> K + Z.of_nat (length ops) < 2 ^ 31 ->
  Z.of_nat (length lab) + total ops < 2 ^ 31 ->
  exists j' lab', run j ops = Some ((table_run T ops).1, j') /\ Rep j' lab' (table_run T ops).2 /\
    specs_below (K + Z.of_nat (length ops)) (table_run T ops).2 /\ Z.of_nat (length lab') <= Z.of_nat (length lab) + total ops.
Proof.
  induction ops as [|o ops IH]; intros j lab T K HR Hok HK H0 HK31 Hb.
  - exists j, lab. cbn in *. split_and!; [done|done| |lia]. by rewrite Z.add_0_r.
  - apply Forall_cons in Hok as [Ho Hok]. cbn [total foldr] in Hb. fold (total ops) in Hb. cbn [length] in HK31.
    pose proof (total_ge ops).
    destruct (step_spec j lab T o K HR Ho HK) as (j1 & lab1 & E1 & HR1 & Hl1); [lia|lia|].
    pose proof (step_specs K T o H0 HK) as HK1. cbn [run table_run]. rewrite E1.
    destruct (table_step T o) as [[d info] T1]. cbn [mbind option_bind fst snd] in *.
    destruct (IH j1 lab1 T1 (K + 1) HR1 Hok HK1) as (j' & lab' & -> & HR' & HK' & Hl'); [lia..|].
    exists j', lab'. cbn [mbind option_bind]. destruct (table_run T1 ops) as [rs T']. cbn [fst snd] in *.
    split_and!; [done|done| |cbn [total foldr]; fold (total ops); lia].
    replace (K + Z.of_nat (length (o :: ops))) with (K + 1 + Z.of_nat (length ops)) by (cbn; lia). done.
Qed.

Lemma rep_new : Rep new_junction [] empty_table.
Proof.
  split; cbn; try done.
  - constructor.
  - intros f p w Hin. by apply elem_of_nil in Hin.
  - exists [], []. split_and!; [by apply IndexInit_repr..| |done].
    split; [constructor|done|constructor|intros c Hc; by apply elem_of_nil in Hc|done].
Qed.

(** The state after a sequence of operations on a new junction. *)
Lemma run_new ops : Forall op_ok ops -> total ops < 2 ^ 31 ->
  exists j lab, run new_junction ops = Some ((table_run empty_table ops).1, j) /\ Rep j lab (table_run empty_table ops).2 /\
    specs_below (Z.of_nat (length ops)) (table_run empty_table ops).2 /\ Z.of_nat (length lab) <= total ops.
Proof.
  intros Hok Hb. destruct (run_spec ops new_junction [] empty_table 0 rep_new Hok) as (j & lab & H1 & H2 & H3 & H4).
  - intros k nd. cbn. by rewrite lookup_empty.
  - lia.
  - pose proof (total_ge ops). lia.
  - cbn. lia.
  - exists j, lab. by split_and!.
Qed.

End Junctions.
End Refinement.

(** C2.  The URL space refines a table: every sequence of registrations, searches and
    removals on a new junction follows no dangling pointer, stays within the indexes,
    ends, gives the results the table gives, and calls the cleanup functions with the
    same data, each as often as the table says. *)
Theorem UrlSpace_refines `{Bsearch} StringMatch proc ops :
  Forall op_ok ops -> total ops < 2 ^ 31 ->
  exists j, run StringMatch proc new_junction ops = Some ((table_run StringMatch proc empty_table ops).1, j) /\
    UrlSpace.freed j ≡ₚ freed (table_run StringMatch proc empty_table ops).2.
Proof.
  intros Hok Hb. destruct (run_new StringMatch proc ops Hok Hb) as (j & lab & E & HR & _). exists j. split; [done|]. by eapply r_freed.
Qed.
