(* ===== verification/UrlSpaceGet.v ===== *)
(** * UrlSpaceGet: what is found in the URL space.

    Consequences of the refinement in UrlSpaceMap for the searches of nsd/urlspace.c:
    the most specific registration wins, an exact search gives back what was
    registered, and two ways in which the code does not do what it means to. *)

From S2P Require Import Prelude Index Sockaddr UrlSpace UrlSpaceMap.
Import table.

(** ** The most specific data *)

(** The data registered for the filter [f] and the path [q] that a request sees, when
    [rest] is what follows [q] in the path of the request. *)
Definition visible (proc : ContextSpec -> Context -> bool) (m : gmap Key Node) (context : option Context)
    (f : list Z) (q rest : list (list Z)) : option Z :=
  m !! (f, q) ≫= fun nd => data_of proc nd (bool_decide (rest = [])) context.

Lemma at_end_path seq : at_end seq = bool_decide (path_of seq = []).
Proof. destruct seq as [|[|c w] seq]; [done..|]. symmetry. by apply bool_decide_eq_false. Qed.

Section Deepest.
Context (proc : ContextSpec -> Context -> bool) (m : gmap Key Node) (context : option Context) (f : list Z).
Abbreviation vis := (visible proc m context f).

Lemma deepest_spec seq : forall p k,
  match deepest proc m f p seq context k with
  | Some (d, depth) => exists q r, path_of seq = q ++ r /\ depth = k + Z.of_nat (length q) /\ vis (p ++ q) r = Some d /\
      forall q' r' d', path_of seq = q' ++ r' -> vis (p ++ q') r' = Some d' -> (length q' <= length q)%nat
  | None => forall q r, path_of seq = q ++ r -> vis (p ++ q) r = None
  end.
Proof.
  assert (Hhere : forall p k seq, path_of seq = [] ->
    match ((fun d => (d, k)) <$> (m !! (f, p) ≫= fun nd => data_of proc nd (at_end seq) context)) with
    | Some (d, depth) => exists q r, [] = q ++ r /\ depth = k + Z.of_nat (length q) /\ vis (p ++ q) r = Some d /\
        forall q' r' d', [] = q' ++ r' -> vis (p ++ q') r' = Some d' -> (length q' <= length q)%nat
    | None => forall q r, [] = q ++ r -> vis (p ++ q) r = None
    end).
  { intros p k s Hs. rewrite at_end_path, Hs. change (m !! (f, p) ≫= _) with (vis p []).
    destruct (vis p []) as [d|] eqn:E; cbn [fmap option_fmap option_map].
    - exists [], []. split_and!; [done|cbn; lia|by rewrite app_nil_r|]. intros q' r' d' [-> ->]%eq_sym%app_nil _. done.
    - intros q r [-> ->]%eq_sym%app_nil. by rewrite app_nil_r. }
  induction seq as [|w seq IH]; intros p k; [exact (Hhere p k [] eq_refl)|].
  destruct w as [|c w]; [exact (Hhere p k ([] :: seq) eq_refl)|]. cbn [deepest]. change (path_of ((c :: w) :: seq)) with ((c :: w) :: path_of seq).
  set (v := c :: w). specialize (IH (p ++ [v]) (k + 1)).
  assert (Hshift : forall q r, vis ((p ++ [v]) ++ q) r = vis (p ++ v :: q) r) by (intros; by rewrite <- app_assoc).
  destruct (deepest proc m f (p ++ [v]) seq context (k + 1)) as [[d depth]|].
  - destruct IH as (q & r & Hp & -> & Hd & Hmax). exists (v :: q), r. split_and!; [by rewrite Hp|cbn; lia|by rewrite <- Hshift|].
    intros [|v' q'] r' d' Hq Hd'; [cbn; lia|]. injection Hq as <- Hq. cbn [length]. rewrite <- Hshift in Hd'.
    pose proof (Hmax _ _ _ Hq Hd'). lia.
  - change (at_end (v :: seq)) with false.
    assert (Hv : forall r, r <> [] -> vis p r = (m !! (f, p) ≫= fun nd => data_of proc nd false context)).
    { intros r Hr. unfold visible. by rewrite bool_decide_eq_false_2. }
    rewrite <- (Hv (v :: path_of seq)) by done. destruct (vis p (v :: path_of seq)) as [d|] eqn:E; cbn [fmap option_fmap option_map].
    + exists [], (v :: path_of seq). rewrite app_nil_r. split_and!; [done|cbn; lia|done|].
      intros [|v' q'] r' d' Hq Hd'; [done|]. injection Hq as <- Hq. rewrite <- Hshift, (IH _ _ Hq) in Hd'. done.
    + intros [|v' q'] r' Hq; [|injection Hq as <- Hq; by rewrite <- Hshift, (IH _ _ Hq)]. rewrite app_nil_r. cbn in Hq. by subst r'.
Qed.
End Deepest.

Section Search.
Context (StringMatch : list Z -> list Z -> bool) (proc : ContextSpec -> Context -> bool).

(** The filter of a channel matches the request. *)
Definition applies (ws : list (list Z)) (c : list Z * Z) : Prop :=
  is_Some (candidate StringMatch ws (mkChannel c.1 0 c.2)).

Lemma search_best (offers : list Z * Z -> option (Z * Z * MatchInfo)) l :
  match foldl (fun best c => better (offers c) best) None l with
  | Some x => exists l1 c l2, l = l1 ++ c :: l2 /\ offers c = Some x /\
      (forall c' y, c' ∈ l -> offers c' = Some y -> y.1.2 <= x.1.2) /\
      (forall c' y, c' ∈ l1 -> offers c' = Some y -> y.1.2 < x.1.2)
  | None => forall c, c ∈ l -> offers c = None
  end.
Proof.
  induction l as [|c l IH] using rev_ind; [cbn; intros c Hc; by apply elem_of_nil in Hc|]. rewrite foldl_app. cbn [foldl].
  assert (Hin : forall x, x ∈ l ++ [c] <-> x ∈ l \/ x = c) by (intros; rewrite elem_of_app, list_elem_of_singleton; done).
  destruct (foldl _ None l) as [[[d k] i]|].
  - destruct IH as (l1 & c0 & l2 & -> & Hc0 & Hmax & Hfirst).
    destruct (offers c) as [[[d' k'] i']|] eqn:Ec; cbn [better].
    + destruct (Z.ltb_spec k k').
      * exists (l1 ++ c0 :: l2), c, []. split_and!; [done|done| |].
        -- intros c' y [Hc'| ->]%Hin Hy; [|by rewrite Ec in Hy; simplify_eq]. specialize (Hmax c' y Hc' Hy). cbn in *. lia.
        -- intros c' y Hc' Hy. specialize (Hmax c' y Hc' Hy). cbn in *. lia.
      * exists l1, c0, (l2 ++ [c]). split_and!; [by rewrite <- app_assoc|done| |done].
        intros c' y [Hc'| ->]%Hin Hy; [by apply (Hmax c')|]. rewrite Ec in Hy. simplify_eq. done.
    + exists l1, c0, (l2 ++ [c]). split_and!; [by rewrite <- app_assoc|done| |done].
      intros c' y [Hc'| ->]%Hin Hy; [by apply (Hmax c')|]. by rewrite Ec in Hy.
  - destruct (offers c) as [[[d k] i]|] eqn:Ec; cbn [better].
    + exists l, c, []. split_and!; [done|done| |].
      * intros c' y [Hc'| ->]%Hin Hy; [by rewrite IH in Hy|]. rewrite Ec in Hy. by simplify_eq.
      * intros c' y Hc' Hy. by rewrite IH in Hy.
    + intros c' [Hc'| ->]%Hin; [by apply IH|done].
Qed.

(** The most specific registration of a table. *)
Definition most_specific (T : Table) (ws : list (list Z)) (context : option Context) (r : option Z) : Prop :=
  let sees c q rest := visible proc (nodes T) context c.1 q rest in
  match r with
  | Some d => exists l1 c l2 q rest, use T = l1 ++ c :: l2 /\ applies ws c /\ path_of ws = q ++ rest /\ sees c q rest = Some d /\
      forall c' q' rest' d', c' ∈ use T -> applies ws c' -> path_of ws = q' ++ rest' -> sees c' q' rest' = Some d' ->
        (length q' <= length q)%nat /\ (c' ∈ l1 -> (length q' < length q)%nat)
  | None => forall c q rest, c ∈ use T -> applies ws c -> path_of ws = q ++ rest -> sees c q rest = None
  end.

Lemma search_most_specific T ws context :
  most_specific T ws context (match search proc StringMatch ws context T with Some (d, _, _) => Some d | None => None end).
Proof.
  unfold search. pose proof (search_best (offer proc StringMatch (nodes T) ws context) (use T)) as HS.
  assert (Hoff : forall c, offer proc StringMatch (nodes T) ws context c = None -> applies ws c ->
    forall q r, path_of ws = q ++ r -> visible proc (nodes T) context c.1 q r = None).
  { intros c Ho [info Hi] q r Hq. unfold offer in Ho. rewrite Hi in Ho.
    pose proof (deepest_spec proc (nodes T) context c.1 ws [] 0) as HD. destruct (deepest _ _ _ _ _ _ _) as [[??]|]; [done|]. by apply HD. }
  assert (Hof : forall c d k i, offer proc StringMatch (nodes T) ws context c = Some (d, k, i) ->
    applies ws c /\ exists q r, path_of ws = q ++ r /\ k = Z.of_nat (length q) /\ visible proc (nodes T) context c.1 q r = Some d /\
      forall q' r' d', path_of ws = q' ++ r' -> visible proc (nodes T) context c.1 q' r' = Some d' -> (length q' <= length q)%nat).
  { intros c d k i Ho. unfold offer in Ho. destruct (candidate _ _ _) as [info|] eqn:Hc; [|done]. split; [by eexists|].
    pose proof (deepest_spec proc (nodes T) context c.1 ws [] 0) as HD. destruct (deepest _ _ _ _ _ _ _) as [[d' k']|]; [|done].
    injection Ho as -> -> _. destruct HD as (q & r & ? & -> & ? & ?). exists q, r. split_and!; [done|lia|done|done]. }
  destruct (foldl _ None (use T)) as [[[d k] i]|].
  - destruct HS as (l1 & c & l2 & Hu & Hc & Hmax & Hfirst). destruct (Hof _ _ _ _ Hc) as (Ha & q & r & Hq & -> & Hd & _).
    exists l1, c, l2, q, r. split_and!; [done..|]. intros c' q' r' d' Hc' Ha' Hq' Hd'.
    destruct (offer proc StringMatch (nodes T) ws context c') as [[[d2 k2] i2]|] eqn:Ho; [|by rewrite (Hoff c' Ho Ha' _ _ Hq') in Hd'].
    destruct (Hof _ _ _ _ Ho) as (_ & q2 & r2 & _ & -> & _ & Hm2). pose proof (Hm2 _ _ _ Hq' Hd').
    pose proof (Hmax c' _ Hc' Ho) as Hle. cbn in Hle. split; [lia|]. intros Hin. pose proof (Hfirst c' _ Hin Ho) as Hlt. cbn in Hlt. lia.
  - intros c q r Hc Ha Hq. by apply (Hoff c (HS c Hc)).
Qed.
End Search.

(** C27.  A search finds the most specific registration: of all data whose filter matches
    the request and whose path is a beginning of the path of the request, and that the
    request sees (its context constraints hold, and data that is not inherited is at the
    end of the path), the one with the longest path, and among equally long ones the one
    whose filter comes first in the order of use; nothing is found only if there is no
    such data. *)
Theorem get_most_specific `{Bsearch} StringMatch proc ops key url fl context :
  Forall op_ok ops -> total ops < 2 ^ 31 -> nz key -> nz url ->
  exists rs j d info, run StringMatch proc new_junction ops = Some (rs, j) /\
    Ns_UrlSpecificGet StringMatch proc key url fl NS_URLSPACE_DEFAULT context j = Some (d, info) /\
    most_specific StringMatch proc (table_run StringMatch proc empty_table ops).2 (key :: segments url) context d.
Proof.
  intros Hok Hb Hk Hu. destruct (run_new StringMatch proc ops Hok Hb) as (j & lab & E & HR & _).
  destruct (MkSeq_words key url Hk Hu) as (Ews & Hws & _).
  set (T := (table_run StringMatch proc empty_table ops).2) in *.
  pose proof (JunctionFind_spec StringMatch proc _ context j lab T HR Hws) as HF. rewrite Ews in HF.
  pose proof (search_most_specific StringMatch proc T (key :: segments url) context) as HM.
  exists (table_run StringMatch proc empty_table ops).1, j. unfold Ns_UrlSpecificGet. rewrite Ews, HF. cbn [mbind option_bind].
  destruct (search proc StringMatch (key :: segments url) context T) as [[[d k] info]|]; eexists _, _; split_and!; done.
Qed.

(** ** Exact searches *)

(** Wildcards as documented: only in the last part of a URL. *)
Definition plain (key url : list Z) : Prop :=
  key <> [] /\ is_wild key = false /\ Forall (fun w => is_wild w = false) (removelast (segments url)).
Definition plain_op (o : op) : Prop := plain (op_key o) (op_url o).

(** The filters of a table have wildcards, and the paths of its nodes have none. *)
Record TInv (T : Table) : Prop := {
  t_wild f : f ∈ (use T).*1 -> is_wild f = true;
  t_use f p : is_Some (nodes T !! (f, p)) -> f ∈ (use T).*1;
  t_path f p : is_Some (nodes T !! (f, p)) -> Forall (fun w => is_wild w = false) p
}.

Lemma path_of_id ws : Forall (fun w => w <> []) ws -> path_of ws = ws.
Proof. induction 1 as [|w ws Hw _ IH]; [done|]. destruct w; [done|]. by rewrite <- IH at 2. Qed.

Lemma path_of_cut l : Forall (fun w => w <> []) l -> path_of (l ++ [[]]) = l.
Proof. induction 1 as [|w l Hw _ IH]; [done|]. destruct w; [done|]. cbn [app]. by rewrite <- IH at 2. Qed.

Lemma segments_nonempty url : Forall (fun w => w <> []) (segments url).
Proof.
  apply Forall_forall. intros w Hw. unfold segments in Hw. apply list_elem_of_In, filter_In in Hw as [_ Hne].
  by apply negb_true_iff, bool_decide_eq_false in Hne.
Qed.

(** The key of a plain URL: with a wildcard at its end, or without. *)
Lemma key_of_cases key url : plain key url ->
  let ws := key :: segments url in
  (exists l x, ws = l ++ [x] /\ is_wild x = true /\ key_of ws = (x, l) /\ Forall (fun w => is_wild w = false) l /\
     path_of (cut_last ws) = l /\ Forall (fun w => w <> []) ws) \/
  (key_of ws = (STAR, ws) /\ is_wild (last_word ws) = false /\ Forall (fun w => is_wild w = false) ws /\ path_of ws = ws).
Proof.
  intros (Hk & Hw & Hs) ws. assert (Hne : Forall (fun w => w <> []) ws) by (constructor; [done|apply segments_nonempty]).
  subst ws. unfold key_of, split_filter. destruct (decide (segments url = [])) as [E|E].
  - rewrite E. cbn [length]. right. cbn [Z.of_nat Pos.of_succ_nat Z.ltb Z.compare Pos.compare Pos.compare_cont andb last_word List.last].
    change (1 <? Z.of_nat 1) with false. cbn [andb]. assert (path_of [key] = [key]) as -> by by destruct key.
    split_and!; [done|done|by repeat constructor|done].
  - destruct (exists_last E) as (l & x & El). rewrite El in *. rewrite removelast_last in Hs.
    change (key :: l ++ [x]) with ((key :: l) ++ [x]) in *. rewrite last_word_app, cut_last_app.
    destruct (Z.ltb_spec 1 (Z.of_nat (length ((key :: l) ++ [x])))) as [_|Hlt]; [|rewrite length_app in Hlt; cbn in Hlt; lia].
    apply Forall_app in Hne as [Hne Hx]. destruct (is_wild x) eqn:Ex; cbn [andb]; [left|right].
    + exists (key :: l), x. rewrite path_of_cut by done. split_and!; [done..|by constructor|done|by apply Forall_app].
    + rewrite path_of_id by (by apply Forall_app). split_and!; [done|done| |done].
      apply Forall_app. split; [by constructor|by repeat constructor].
Qed.

Section Exact.
Context (StringMatch : list Z -> list Z -> bool) (proc : ContextSpec -> Context -> bool).

Lemma use_with_channel fil fl T f :
  f ∈ (use (with_channel StringMatch fil fl T)).*1 <-> f = fil \/ f ∈ (use T).*1.
Proof.
  unfold with_channel. case_bool_decide as Hin; cbn [use]; [naive_solver|].
  rewrite (index_insert_perm (CmpUse StringMatch) (use T) (fil, fl)). cbn. by rewrite elem_of_cons.
Qed.

Lemma nodes_with_channel fil fl T : nodes (with_channel StringMatch fil fl T) = nodes T.
Proof. unfold with_channel. by case_bool_decide. Qed.

(** Operations that only change or remove nodes. *)
Lemma tinv_shrink T T' : TInv T -> use T' = use T -> (forall k, is_Some (nodes T' !! k) -> is_Some (nodes T !! k)) -> TInv T'.
Proof. intros [H1 H2 H3] Hu Hn. split; rewrite ?Hu; [done|intros f p Hk; eapply H2; by apply Hn|intros f p Hk; eapply H3; by apply Hn]. Qed.

Lemma delete_node_shrink k fl T : use (delete_node k fl T) = use T /\
  forall k', is_Some (nodes (delete_node k fl T) !! k') -> is_Some (nodes T !! k').
Proof.
  unfold delete_node. destruct (nodes T !! k) as [nd|] eqn:E; [|done]. split; [done|]. intros k'. cbn [nodes].
  destruct (decide (k = k')) as [<-|Hne]; [by rewrite E|by rewrite lookup_insert_ne].
Qed.

Lemma unregister_shrink fl cs : forall ws T, use (unregister StringMatch fl cs ws T).2 = use T /\
  forall k, is_Some (nodes (unregister StringMatch fl cs ws T).2 !! k) -> is_Some (nodes T !! k).
Proof.
  induction cs as [|c cs IH]; intros ws T; cbn [unregister]; [done|]. destruct (_ || _); [|apply IH].
  set (ws' := if bool_decide _ then _ else _). destruct (delete_node_shrink (c.1, path_of ws') fl T) as [Hu Hn].
  case_match; [done|]. destruct (IH ws' (delete_node (c.1, path_of ws') fl T)) as [Hu' Hn']. split; [congruence|auto].
Qed.

Lemma truncate_shrink ws T : use (truncate ws T) = use T /\ forall k, is_Some (nodes (truncate ws T) !! k) -> is_Some (nodes T !! k).
Proof.
  unfold truncate. generalize (use T) at 1 3 as l. intros l. revert T. induction l as [|c l IH]; intros T; [done|]. cbn [foldl].
  destruct (IH (trunc (c.1, path_of ws) T)) as [Hu Hn]. split; [done|]. intros k Hk%Hn. cbn [trunc nodes] in Hk.
  destruct Hk as [nd [Hk _]%map_lookup_filter_Some]. eauto.
Qed.

Lemma tinv_register ws key url data fl del cs T :
  ws = key :: segments url -> plain key url -> TInv T -> TInv (register StringMatch ws data fl del cs T).
Proof.
  intros -> Hp [H1 H2 H3]. unfold register, set_node. set (T1 := with_channel _ _ _ _).
  set (k := key_of (key :: segments url)) in *.
  assert (Hk : is_wild k.1 = true /\ Forall (fun w => is_wild w = false) k.2).
  { unfold k. destruct (key_of_cases key url Hp) as [(l & x & _ & Hx & -> & Hl & _)|(-> & _ & Hl & _)]; [done|].
    split; [vm_compute; reflexivity|done]. }
  destruct Hk as [Hk1 Hk2]. split; cbn [use nodes].
  - intros f [->|Hf]%use_with_channel; [done|by apply H1].
  - intros f p. unfold T1. rewrite nodes_with_channel, use_with_channel, lookup_insert_is_Some.
    intros [E|[_ Hs]]; [left; by rewrite E|right; by eapply H2].
  - intros f p. unfold T1. rewrite nodes_with_channel, lookup_insert_is_Some. intros [E|[_ Hs]]; [by rewrite E in Hk2|by eapply H3].
Qed.

Lemma tinv_run ops : forall T, Forall plain_op ops -> TInv T -> TInv (table_run StringMatch proc T ops).2.
Proof.
  induction ops as [|o ops IH]; intros T Hp HT; [done|]. apply Forall_cons in Hp as [Ho Hp]. cbn [table_run].
  assert (H1 : TInv (table_step StringMatch proc T o).2).
  { unfold table_step. destruct o as [key url data fl del cs|key url fl how ctx|key url fl]; cbn [op_key op_url].
    - by eapply tinv_register.
    - destruct how; [by repeat case_match..|done].
    - destruct (has fl NS_OP_RECURSE); [destruct (truncate_shrink (key :: segments url) T); by eapply tinv_shrink|].
      destruct (unregister_shrink fl (use T) (key :: segments url) T) as [Hu Hn].
      destruct (unregister _ _ _ _ _) as [d T']. by eapply tinv_shrink. }
  destruct (table_step StringMatch proc T o) as [[d info] T1]. specialize (IH T1 Hp H1). by destruct (table_run _ _ T1 ops).
Qed.

Lemma tinv_empty : TInv empty_table.
Proof. split; cbn; [intros f Hf; by apply elem_of_nil in Hf|intros f p; rewrite lookup_empty; by intros []..]. Qed.

(** An exact search is a lookup in the table. *)
Lemma search_exact_lookup key url fl T : TInv T -> plain key url ->
  search_exact (key :: segments url) fl T = nodes T !! key_of (key :: segments url) ≫= fun nd => exact nd fl.
Proof.
  intros HT Hp. unfold search_exact, exact_key.
  destruct (key_of_cases key url Hp) as [(l & x & El & Hx & Ek & Hl & Hc & Hne)|(Ek & Hw & _ & Hpath)]; rewrite Ek.
  - rewrite Hc, El, last_word_app. case_bool_decide as Hin; [done|].
    assert (nodes T !! (x, l) = None) as ->.
    { apply eq_None_not_Some. intros Hs. apply Hin. by eapply t_use. }
    rewrite path_of_id by (by rewrite <- El).
    assert (nodes T !! (STAR, l ++ [x]) = None) as ->; [|done].
    apply eq_None_not_Some. intros Hs%(t_path _ HT). apply Forall_app in Hs as [_ Hs]. inversion Hs. congruence.
  - rewrite bool_decide_eq_false_2; [by rewrite Hpath|]. intros Hin%(t_wild _ HT). congruence.
Qed.

(** Registration and exact search. *)
Lemma register_exact key url key' url' data fl fl' del T :
  TInv T -> plain key url -> plain key' url' ->
  let ws := key :: segments url in
  let ws' := key' :: segments url' in
  search_exact ws' fl' (register StringMatch ws data fl del None T) =
    if bool_decide (key_of ws' = key_of ws) && Bool.eqb (has fl' NS_OP_NOINHERIT) (has fl NS_OP_NOINHERIT)
    then Some data else search_exact ws' fl' T.
Proof.
  intros HT Hp Hp'. cbv zeta.
  rewrite (search_exact_lookup key' url' fl' _ (tinv_register _ key url data fl del None T eq_refl Hp HT) Hp').
  rewrite (search_exact_lookup key' url' fl' T HT Hp'). set (ws := key :: segments url). set (ws' := key' :: segments url'). unfold register, set_node. cbn [nodes].
  rewrite nodes_with_channel. case_bool_decide as E; cbn [andb].
  - rewrite E, lookup_insert_eq. cbn [mbind option_bind]. unfold exact, add.
    destruct (has fl NS_OP_NOINHERIT), (has fl' NS_OP_NOINHERIT); cbn [Bool.eqb inherit noinherit]; try done;
      by destruct (nodes T !! key_of ws).
  - by rewrite lookup_insert_ne.
Qed.
End Exact.

(** What is registered is found by an exact search, and nothing else changes: after
    any operations, registering data for a URL makes the exact search for it return the
    data, and leaves every exact search for another URL, or with the other inheritance,
    as it was (wildcards being in last parts only, as documented). *)
Theorem set_get_exact `{Bsearch} StringMatch proc ops key url data fl del :
  Forall op_ok ops -> Forall plain_op ops -> nz key -> nz url -> plain key url ->
  total ops + weight (OpSet key url data fl del None) < 2 ^ 31 ->
  exists rs j j', run StringMatch proc new_junction ops = Some (rs, j) /\
    Ns_UrlSpecificSet StringMatch key url data fl del j = Some j' /\
    forall key' url' fl', nz key' -> nz url' -> plain key' url' ->
      Ns_UrlSpecificGet StringMatch proc key' url' fl' NS_URLSPACE_EXACT None j' =
      if bool_decide (key_of (key' :: segments url') = key_of (key :: segments url)) &&
         Bool.eqb (has fl' NS_OP_NOINHERIT) (has fl NS_OP_NOINHERIT)
      then Some (Some data, None)
      else Ns_UrlSpecificGet StringMatch proc key' url' fl' NS_URLSPACE_EXACT None j.
Proof.
  intros Hok Hpl Hk Hu Hp Hb. set (o := OpSet key url data fl del None). fold o in Hb.
  destruct (run_new StringMatch proc ops Hok) as (j & lab & E & HR & HS & HL); [unfold weight in Hb; lia|].
  pose proof (total_ge ops) as Hlen. set (T := (table_run StringMatch proc empty_table ops).2) in *.
  destruct (step_spec StringMatch proc j lab T o (Z.of_nat (length ops)) HR) as (j' & lab' & Es & HR' & _);
    [done|done|unfold weight in Hb; lia|lia|].
  cbn [step o table_step fst snd op_key op_url] in Es, HR'. exists (table_run StringMatch proc empty_table ops).1, j, j'.
  unfold Ns_UrlSpecificSet. destruct (Ns_UrlSpecificSet2 _ _ _ _ _ _ _ _) as [j1|]; [|done]. cbn in Es. injection Es as ->.
  split_and!; [done..|]. intros key' url' fl' Hk' Hu' Hp'. destruct (MkSeq_words key' url' Hk' Hu') as (Ews & Hws & _).
  unfold Ns_UrlSpecificGet. rewrite (JunctionFindExact_spec _ fl' j lab T HR Hws), (JunctionFindExact_spec _ fl' j' lab' _ HR' Hws), Ews.
  rewrite (register_exact StringMatch) by (done || (apply tinv_run; [done|apply tinv_empty])). cbn [mbind option_bind].
  by destruct (_ && _).
Qed.

(** ** Where the code does not do what it means to *)

(** The documented behaviour of [Tcl_StringMatch] for ASCII strings and patterns without
    character classes and backslashes. *)
Fixpoint glob (p : list Z) (s : list Z) : bool :=
  match p with
  | [] => match s with [] => true | _ => false end
  | c :: p =>
      if c =? 42 then (fix any s := glob p s || match s with [] => false | _ :: s => any s end) s
      else match s with
           | [] => false
           | c' :: s => ((c =? 63) || (c =? c')) && glob p s
           end
  end.

Definition ascii_only (s : list Z) : bool := forallb (fun c => (0 <? c) && (c <? 128)) s.
Definition no_class (p : list Z) : bool := forallb (fun c => negb ((c =? 91) || (c =? 92))) p.

Class TclStringMatch (StringMatch : list Z -> list Z -> bool) : Prop :=
  StringMatch_glob s p : ascii_only s = true -> ascii_only p = true -> no_class p = true -> StringMatch s p = glob p s.

#[export] Instance glob_TclStringMatch : TclStringMatch (fun s p => glob p s).
Proof. by intros s p _ _ _. Qed.

(** Operations with the key [s], no flags, no cleanup and no constraints. *)
Definition set_ (url : string) (data : Z) : op := OpSet (bytes "s") (bytes url) data 0 None None.
Definition get_ (how : Ns_UrlSpaceOp) (url : string) : op := OpGet (bytes "s") (bytes url) 0 how None.
Definition unset_ (url : string) : op := OpDestroy (bytes "s") (bytes url) 0.

Section Mistakes.
Context `{Bsearch} {StringMatch : list Z -> list Z -> bool} `{!TclStringMatch StringMatch}
  (proc : ContextSpec -> Context -> bool).

(** What a run returns is what the table returns. *)
Lemma run_results ops : Forall op_ok ops -> total ops < 2 ^ 31 ->
  fst <$> run StringMatch proc new_junction ops = Some (table_run StringMatch proc empty_table ops).1.
Proof. intros Hok Hb. by destruct (run_new StringMatch proc ops Hok Hb) as (j & lab & -> & _). Qed.

Lemma table_run_cons T o ops : (table_run StringMatch proc T (o :: ops)).1 =
  let '(r, T) := table_step StringMatch proc T o in r :: (table_run StringMatch proc T ops).1.
Proof.
  cbn [table_run]. destruct (table_step StringMatch proc T o) as [[d info] T']. by destruct (table_run StringMatch proc T' ops).
Qed.
End Mistakes.

(** Evaluation of a concrete run on the table, operation by operation: [StringMatch] is
    replaced by its documented value where it is applied. *)
Ltac eval_match :=
  match goal with |- context [?m ?s ?p] =>
    match goal with H : TclStringMatch m |- _ =>
      let v := eval vm_compute in (glob p s) in
      let E := fresh in
      assert (E : m s p = v) by exact (H s p eq_refl eq_refl eq_refl);
      rewrite E; clear E; cbv beta iota
    end
  end.
Ltac eval_op :=
  rewrite table_run_cons;
  match goal with |- context [table_step ?m ?p ?T ?o] =>
    let E := fresh in
    eassert (E : table_step m p T o = _) by (vm_compute; repeat eval_match; reflexivity);
    rewrite E; clear E; cbv beta iota
  end.
Ltac eval_run :=
  rewrite run_results; [repeat eval_op; reflexivity|repeat constructor; vm_compute; discriminate|vm_compute; reflexivity].

(** What a run of operations returns: the data of each. *)
Definition results `{Bsearch} StringMatch proc (ops : list op) : option (list (option Z)) :=
  map fst <$> (fst <$> run StringMatch proc new_junction ops).

(** Removing the data of a wildcard URL can remove other data: with data for the
    directory /x and for /y/*.html, removing /x/*.html, for which there is no data, removes
    and returns the data of /x. *)
Theorem unset_deletes_directory `{Bsearch} StringMatch `{!TclStringMatch StringMatch} proc d d' :
  results StringMatch proc
    [set_ "/x" d; set_ "/y/*.html" d'; get_ NS_URLSPACE_EXACT "/x"; get_ NS_URLSPACE_EXACT "/x/*.html";
     unset_ "/x/*.html"; get_ NS_URLSPACE_EXACT "/x"] =
  Some [None; None; Some d; None; Some d; None].
Proof. unfold results. eval_run. Qed.

(** The order of use is not from specific to general for all filters: when b* is
    registered between a*.html and *.html, the more general *.html comes before a*.html,
    so that a request for /a.html gets the data of *.html; without b* it gets that of
    a*.html. *)
Theorem channel_order_lost `{Bsearch} StringMatch `{!TclStringMatch StringMatch} proc d1 d2 d3 :
  results StringMatch proc [set_ "/a*.html" d1; set_ "/b*" d2; set_ "/*.html" d3; get_ NS_URLSPACE_DEFAULT "/a.html"] =
    Some [None; None; None; Some d3] /\
  results StringMatch proc [set_ "/a*.html" d1; set_ "/*.html" d3; get_ NS_URLSPACE_DEFAULT "/a.html"] =
    Some [None; None; Some d1].
Proof. unfold results. split; eval_run. Qed.

(** ** The theorems at concrete inputs *)

Definition eval_glob := NsUrlSpaceContextFilterEval (fun s p => glob p s).
Definition some_ops : list op :=
  [OpSet (bytes "s") (bytes "/x/*.html") 1 0 (Some 7) None; OpSet (bytes "s") (bytes "/x") 2 NS_OP_NOINHERIT (Some 8) None;
   OpDestroy (bytes "s") (bytes "/x/*.html") 0].

Lemma some_ops_ok : Forall op_ok some_ops /\ Forall plain_op some_ops.
Proof.
  split; repeat constructor; try (vm_compute; congruence); try reflexivity; vm_compute; repeat constructor.
Qed.

Lemma UrlSpace_refines_witness : exists j,
  run (fun s p => glob p s) eval_glob new_junction some_ops =
    Some ((table_run (fun s p => glob p s) eval_glob empty_table some_ops).1, j) /\
  UrlSpace.freed j ≡ₚ table.freed (table_run (fun s p => glob p s) eval_glob empty_table some_ops).2.
Proof. apply (UrlSpace_refines (fun s p => glob p s) eval_glob some_ops); [apply some_ops_ok|vm_compute; reflexivity]. Defined.

Lemma get_most_specific_witness : exists rs j d info,
  run (fun s p => glob p s) eval_glob new_junction some_ops = Some (rs, j) /\
  Ns_UrlSpecificGet (fun s p => glob p s) eval_glob (bytes "s") (bytes "/x") 0 NS_URLSPACE_DEFAULT None j = Some (d, info) /\
  most_specific (fun s p => glob p s) eval_glob (table_run (fun s p => glob p s) eval_glob empty_table some_ops).2
    (bytes "s" :: segments (bytes "/x")) None d.
Proof.
  apply (get_most_specific (fun s p => glob p s) eval_glob some_ops (bytes "s") (bytes "/x") 0 None);
    [apply some_ops_ok|vm_compute; reflexivity|repeat constructor; vm_compute; congruence..].
Defined.

Lemma set_get_exact_witness : exists rs j j',
  run (fun s p => glob p s) eval_glob new_junction some_ops = Some (rs, j) /\
  Ns_UrlSpecificSet (fun s p => glob p s) (bytes "s") (bytes "/y/*.adp") 5 0 None j = Some j' /\
  Ns_UrlSpecificGet (fun s p => glob p s) eval_glob (bytes "s") (bytes "/y/*.adp") 0 NS_URLSPACE_EXACT None j' = Some (Some 5, None).
Proof.
  destruct (set_get_exact (fun s p => glob p s) eval_glob some_ops (bytes "s") (bytes "/y/*.adp") 5 0 None) as (rs & j & j' & E & Es & Hg);
    [apply some_ops_ok..|repeat constructor; vm_compute; congruence|repeat constructor; vm_compute; congruence| |vm_compute; reflexivity|].
  - repeat constructor; try reflexivity; vm_compute; try congruence; repeat constructor.
  - exists rs, j, j'. split_and!; [done..|]. rewrite Hg; [reflexivity|repeat constructor; vm_compute; congruence..|].
    repeat constructor; try reflexivity; vm_compute; try congruence; repeat constructor.
Defined.

Lemma unset_deletes_directory_witness :
  results (fun s p => glob p s) eval_glob
    [set_ "/x" 1; set_ "/y/*.html" 2; get_ NS_URLSPACE_EXACT "/x"; get_ NS_URLSPACE_EXACT "/x/*.html";
     unset_ "/x/*.html"; get_ NS_URLSPACE_EXACT "/x"] =
  Some [None; None; Some 1; None; Some 1; None].
Proof. exact (unset_deletes_directory (fun s p => glob p s) eval_glob 1 2). Defined.

Lemma channel_order_lost_witness :
  results (fun s p => glob p s) eval_glob
    [set_ "/a*.html" 1; set_ "/b*" 2; set_ "/*.html" 3; get_ NS_URLSPACE_DEFAULT "/a.html"] = Some [None; None; None; Some 3] /\
  results (fun s p => glob p s) eval_glob [set_ "/a*.html" 1; set_ "/*.html" 3; get_ NS_URLSPACE_DEFAULT "/a.html"] =
    Some [None; None; Some 1].
Proof. exact (channel_order_lost (fun s p => glob p s) eval_glob 1 2 3). Defined.
