(* ===== verification/Dispatch.v ===== *)
(** * Dispatch: filters, authorization and request procedures (nsd/filter.c, nsd/auth.c, nsd/op.c, nsd/queue.c).

    What a connection thread does with a request: [ConnRun] with the filters, the
    authorization, the procedure that is registered for the URL, the traces and the
    cleanups.  The callbacks and the replies act on the connection, whose type is a
    parameter; the model keeps a log of what is called. *)

From S2P Require Import Prelude UrlSpace ReqLine SockRead.

Inductive Ns_ReturnCode := NS_OK | NS_ERROR | NS_TIMEOUT | NS_UNAUTHORIZED | NS_FORBIDDEN | NS_FILTER_BREAK | NS_FILTER_RETURN.
#[export] Instance Ns_ReturnCode_eq : EqDecision Ns_ReturnCode.
Proof. solve_decision. Defined.

Inductive Ns_FilterType := NS_FILTER_PRE_AUTH | NS_FILTER_POST_AUTH | NS_FILTER_TRACE | NS_FILTER_VOID_TRACE.
#[export] Instance Ns_FilterType_eq : EqDecision Ns_FilterType.
Proof. solve_decision. Defined.

(** The result code a Tcl authorization callback continues with. *)
Inductive continuation := TCL_OK | TCL_BREAK | TCL_RETURN.
#[export] Instance continuation_eq : EqDecision continuation.
Proof. solve_decision. Defined.

(** The responses the core itself gives. *)
Inductive Reply := EntityTooLarge | RequestURITooLong | HeaderLineTooLong | BadRequest | InvalidMethod | Forbidden | Unauthorized | InternalError | NotFound.

(** ** Registration *)

(** A callback with its argument is a number. *)
Record Filter := mkFilter { f_proc : nat; f_method : list Z; f_url : list Z; ctxFilterSpec : option ContextSpec; when : Ns_FilterType }.
Record Trace := mkTrace { t_proc : nat; t_arg : nat }.

Record NsServer := mkServer {
  filters : list Filter; server_traces : list Trace; cleanups : list Trace; requestAuths : list nat; proxies : list (list Z * nat)
}.

Definition add {A} (first : bool) (x : A) (l : list A) : list A := if first then x :: l else l ++ [x].

Definition Ns_RegisterFilter2 (f : Filter) (first : bool) (s : NsServer) : NsServer :=
  mkServer (add first f (filters s)) (server_traces s) (cleanups s) (requestAuths s) (proxies s).

Definition Ns_RegisterServerTrace (t : Trace) (s : NsServer) : NsServer :=
  mkServer (filters s) (server_traces s ++ [t]) (cleanups s) (requestAuths s) (proxies s).

Definition RegisterCleanup (t : Trace) (s : NsServer) : NsServer :=
  mkServer (filters s) (server_traces s) (t :: cleanups s) (requestAuths s) (proxies s).

Definition RegisterAuth (a : nat) (first : bool) (s : NsServer) : NsServer :=
  mkServer (filters s) (server_traces s) (cleanups s) (add first a (requestAuths s)) (proxies s).

(** ** The connection *)

(** What the core reads of a connection, and what callbacks and replies do with it. *)
Class Connection (W : Type) := {
  request_method : W -> option (list Z);
  request_url : W -> option (list Z);
  request_protocol : W -> list Z;
  request_type : W -> Ns_RequestType;
  conn_flags : W -> Z;
  set_conn_flags : Z -> W -> W;
  sock_open : W -> bool;
  conn_closed : W -> bool;
  FilterContextInit : W -> UrlSpace.Context * W;
  filter_proc : nat -> Ns_FilterType -> W -> Ns_ReturnCode * W;
  auth_proc : nat -> W -> Ns_ReturnCode * continuation * W;
  request_proc : nat -> W -> Ns_ReturnCode * W;
  trace_proc : Trace -> W -> W;
  send_reply : Reply -> W -> Ns_ReturnCode * W;
  Ns_SetRequestUrl : list Z -> W -> Ns_ReturnCode * W
}.

Inductive event :=
| EvFilter (why : Ns_FilterType) (proc : nat) (result : Ns_ReturnCode)
| EvAuth (proc : nat)
| EvAuthorized (result : Ns_ReturnCode)
| EvRequest (proc : nat)
| EvDriver (proc : nat)
| EvProxy (proc : nat)
| EvReply (r : Reply)
| EvTrace (t : Trace)
| EvCleanup (t : Trace)
| EvClose.

Section run.
Context {W : Type} `{Connection W}.
(** Tcl's glob matching; the data that the URL space has for a method and a URL. *)
Context (Tcl_StringMatch : list Z -> list Z -> bool) (find : W -> list Z -> list Z -> option nat) (nslog : option nat) (driverProc : option nat) (servPtr : NsServer).

(** The connection and what was called so far. *)
Definition state : Type := W * list event.

Definition log (e : event) (st : state) : state := (st.1, st.2 ++ [e]).

Definition reply (r : Reply) (st : state) : Ns_ReturnCode * state := let '(rc, w) := send_reply r st.1 in (rc, log (EvReply r) (w, st.2)).

Definition Ns_ConnTryReturnInternalError (status : Ns_ReturnCode) (st : state) : Ns_ReturnCode * state :=
  if conn_closed st.1 then (status, st) else reply InternalError st.

(** *** Filters *)

Definition filter_matches (why : Ns_FilterType) (ctx : UrlSpace.Context) (w : W) (f : Filter) : bool :=
  bool_decide (when f = why) &&
  match request_method w, request_url w with
  | Some m, Some u => Tcl_StringMatch m (f_method f) && Tcl_StringMatch u (f_url f)
  | _, _ => false
  end &&
  match ctxFilterSpec f with None => true | Some spec => NsUrlSpaceContextFilterEval Tcl_StringMatch spec ctx end.

(** The loop over the filters. *)
Fixpoint filter_loop (why : Ns_FilterType) (ctx : UrlSpace.Context) (fs : list Filter) (st : state) : Ns_ReturnCode * state :=
  match fs with
  | [] => (NS_OK, st)
  | f :: fs =>
      if filter_matches why ctx st.1 f then
        let '(rc, w) := filter_proc (f_proc f) why st.1 in
        let st := log (EvFilter why (f_proc f) rc) (w, st.2) in
        match rc with NS_OK => filter_loop why ctx fs st | _ => (rc, st) end
      else filter_loop why ctx fs st
  end.

Definition NsRunFilters (why : Ns_FilterType) (st : state) : Ns_ReturnCode * state :=
  let '(ctx, w) := FilterContextInit st.1 in
  let st := (w, st.2) in
  match request_method w, request_url w with
  | Some _, Some _ =>
      let '(filter_status, st) := filter_loop why ctx (filters servPtr) st in
      (if bool_decide (filter_status = NS_FILTER_BREAK) || (bool_decide (why = NS_FILTER_TRACE) && bool_decide (filter_status = NS_FILTER_RETURN))
       then NS_OK else filter_status, st)
  | _, _ => (NS_OK, st)
  end.

(** *** Traces *)

Fixpoint RunTraces (ev : Trace -> event) (ts : list Trace) (st : state) : state :=
  match ts with
  | [] => st
  | t :: ts => RunTraces ev ts (log (ev t) (trace_proc t st.1, st.2))
  end.

Definition NsRunTraces : state -> state := RunTraces EvTrace (server_traces servPtr).
Definition NsRunCleanups : state -> state := RunTraces EvCleanup (cleanups servPtr).

Fixpoint RunSelectedTraces (traceProc : nat) (ts : list Trace) (st : state) : state :=
  match ts with
  | [] => st
  | t :: ts => if bool_decide (t_proc t = traceProc) then RunSelectedTraces traceProc ts (log (EvTrace t) (trace_proc t st.1, st.2)) else st
  end.

(** [NsAddNslogEntry] for a connection, with [NsRunSelectedTraces]: nothing without the module nslog. *)
Definition NsAddNslogEntry (st : state) : state :=
  match nslog with Some traceProc => RunSelectedTraces traceProc (server_traces servPtr) st | None => st end.

(** *** Authorization *)

Fixpoint auth_loop (l : list nat) (status : Ns_ReturnCode) (c : continuation) (st : state) : Ns_ReturnCode * continuation * state :=
  match l with
  | [] => (status, c, st)
  | a :: l =>
      if bool_decide (c = TCL_OK) then
        let '(status, c, w) := auth_proc a st.1 in auth_loop l status c (log (EvAuth a) (w, st.2))
      else (status, c, st)
  end.

Definition Ns_AuthorizeRequest (st : state) : Ns_ReturnCode * state :=
  let '(status, c, st) := auth_loop (requestAuths servPtr) NS_OK TCL_OK st in
  let status := if bool_decide (c = TCL_RETURN) then NS_FILTER_RETURN else status in
  (status, log (EvAuthorized status) st).

(** *** Requests *)

Definition has_flag (fl : Z) (w : W) : bool := negb (Z.land (conn_flags w) fl =? 0).
Definition clear_flag (fl : Z) (st : state) : state := (set_conn_flags (Z.ldiff (conn_flags st.1) fl) st.1, st.2).

Definition Ns_ConnRunRequest (st : state) : Ns_ReturnCode * state :=
  if has_flag NS_CONN_ENTITYTOOLARGE st.1 then reply EntityTooLarge (clear_flag NS_CONN_ENTITYTOOLARGE st)
  else if has_flag NS_CONN_REQUESTURITOOLONG st.1 then reply RequestURITooLong (clear_flag NS_CONN_REQUESTURITOOLONG st)
  else if has_flag NS_CONN_LINETOOLONG st.1 then reply HeaderLineTooLong (clear_flag NS_CONN_LINETOOLONG st)
  else
    match request_method st.1, request_url st.1 with
    | Some m, Some u =>
        match find st.1 m u with
        | None => if bool_decide (m = bytes "BAD") then reply BadRequest st else reply InvalidMethod st
        | Some reg => let '(rc, w) := request_proc reg st.1 in (rc, log (EvRequest reg) (w, st.2))
        end
    | _, _ => (NS_OK, st)
    end.

Definition Ns_ConnRedirect (url : list Z) (st : state) : Ns_ReturnCode * state :=
  let '(status, w) := Ns_SetRequestUrl url st.1 in
  let st := (w, st.2) in
  let '(status, st) := match status with NS_OK => Ns_AuthorizeRequest st | _ => (status, st) end in
  match status with
  | NS_OK => Ns_ConnRunRequest st
  | NS_FORBIDDEN => reply Forbidden st
  | NS_UNAUTHORIZED => reply Unauthorized st
  | NS_ERROR | NS_FILTER_BREAK | NS_FILTER_RETURN | NS_TIMEOUT => Ns_ConnTryReturnInternalError status st
  end.

Fixpoint assoc (k : list Z) (l : list (list Z * nat)) : option nat :=
  match l with [] => None | (k', v) :: l => if bool_decide (k' = k) then Some v else assoc k l end.

(** The key of a proxy request: appending ends at a null pointer. *)
Definition proxy_key (w : W) : list Z := match request_method w with Some m => m ++ request_protocol w | None => [] end.

Definition NsConnRunProxyRequest (st : state) : Ns_ReturnCode * state :=
  match assoc (proxy_key st.1) (proxies servPtr) with
  | None => reply NotFound st
  | Some reg => let '(rc, w) := request_proc reg st.1 in (rc, log (EvProxy reg) (w, st.2))
  end.

(** *** The connection thread *)

(** The classical HTTP request. *)
Definition run_classical (st : state) : Ns_ReturnCode * state :=
  let '(status, st) := NsRunFilters NS_FILTER_PRE_AUTH st in
  let status := if sock_open st.1 then status else NS_FILTER_RETURN in
  match status with
  | NS_OK =>
      let '(status, st) := Ns_AuthorizeRequest st in
      match status with
      | NS_OK | NS_FILTER_BREAK =>
          let '(status, st) := NsRunFilters NS_FILTER_POST_AUTH st in
          if bool_decide (status = NS_OK) && sock_open st.1 then Ns_ConnRunRequest st else (status, st)
      | NS_FORBIDDEN => (status, (reply Forbidden st).2)
      | NS_UNAUTHORIZED => (status, (reply Unauthorized st).2)
      | NS_FILTER_RETURN => (status, st)
      | NS_ERROR | NS_TIMEOUT => (status, (Ns_ConnTryReturnInternalError status st).2)
      end
  | NS_FILTER_RETURN => (status, st)
  | _ => (NS_FILTER_RETURN, (Ns_ConnTryReturnInternalError status st).2)
  end.

Definition run_request (st : state) : Ns_ReturnCode * state :=
  match driverProc with
  | Some p => let '(rc, w) := request_proc p st.1 in (rc, log (EvDriver p) (w, st.2))
  | None =>
      if bool_decide (request_type st.1 = NS_REQUEST_TYPE_PROXY) || bool_decide (request_type st.1 = NS_REQUEST_TYPE_CONNECT)
      then NsConnRunProxyRequest st else run_classical st
  end.

(** The filters and traces after the request. *)
Definition run_traces (status : Ns_ReturnCode) (st : state) : state :=
  match status with
  | NS_OK | NS_FILTER_RETURN =>
      let '(status, st) := NsRunFilters NS_FILTER_TRACE st in
      if bool_decide (status = NS_OK) then NsRunTraces (NsRunFilters NS_FILTER_VOID_TRACE st).2 else st
  | _ => NsAddNslogEntry st
  end.

(** From the request to the end of the connection. *)
Definition ConnRun (w : W) : state :=
  let '(status, st) := run_request (w, []) in
  log EvClose (NsRunCleanups (run_traces status st)).
End run.

(** ** The order of what is called *)

(** Before the authorization, after it was granted, after the request, cleaning up, closed. *)
Inductive phase := Before | Granted | After | Cleaning | Closed.

Definition early (p : phase) : bool := match p with Before | Granted | After => true | _ => false end.

Definition granted (s : Ns_ReturnCode) : bool := match s with NS_OK | NS_FILTER_BREAK => true | _ => false end.

(** What may be called in a phase: filters and authorization before, filters after the
    authorization and the request only when it was granted, traces and cleanups at the end. *)
Definition next_phase (p : phase) (e : event) : option phase :=
  match p, e with
  | Before, EvFilter NS_FILTER_PRE_AUTH _ _ | Before, EvAuth _ => Some Before
  | Before, EvAuthorized s => Some (if granted s then Granted else After)
  | Before, EvDriver _ | Before, EvProxy _ => Some After
  | Granted, EvFilter NS_FILTER_POST_AUTH _ _ => Some Granted
  | Granted, EvRequest _ => Some After
  | Closed, _ => None
  | _, EvCleanup _ => Some Cleaning
  | _, EvClose => Some Closed
  | Cleaning, _ => None
  | _, EvReply _ => Some p
  | _, EvFilter NS_FILTER_TRACE _ _ | _, EvFilter NS_FILTER_VOID_TRACE _ _ | _, EvTrace _ => Some After
  | _, _ => None
  end.

Fixpoint phases (p : phase) (l : list event) : option phase :=
  match l with [] => Some p | e :: l => p ← next_phase p e; phases p l end.

Lemma phases_app p l1 l2 : phases p (l1 ++ l2) = p' ← phases p l1; phases p' l2.
Proof.
  revert p. induction l1 as [|e l1 IH]; intros p; [done|]. cbn. destruct (next_phase p e) as [p'|]; [|done]. cbn. apply IH.
Qed.

Section order.
Context {W : Type} `{Connection W}.
Context (Tcl_StringMatch : list Z -> list Z -> bool) (find : W -> list Z -> list Z -> option nat) (nslog : option nat) (driverProc : option nat) (servPtr : NsServer).

Notation run_filters := (NsRunFilters Tcl_StringMatch servPtr).

(** The events a step adds. *)
Definition adds (P : list event -> Prop) (st st' : state (W := W)) : Prop := exists l, st'.2 = st.2 ++ l /\ P l.

Lemma adds_log e (P : list event -> Prop) (st : state) (w : W) : P [e] -> adds P st (log e (w, st.2)).
Proof. intros HP. by exists [e]. Qed.

Definition only (P : event -> Prop) (l : list event) : Prop := Forall P l.

Lemma adds_nothing (P : event -> Prop) (st : state) (w : W) : adds (only P) st (w, st.2).
Proof. exists []. split; [by rewrite app_nil_r|constructor]. Qed.

Lemma adds_trans (P : event -> Prop) (st1 st2 st3 : state) : adds (only P) st1 st2 -> adds (only P) st2 st3 -> adds (only P) st1 st3.
Proof. intros (l1 & E1 & H1) (l2 & E2 & H2). exists (l1 ++ l2). split; [by rewrite E2, E1, app_assoc|by apply Forall_app]. Qed.

Definition is_filter (why : Ns_FilterType) (e : event) : Prop := exists p rc, e = EvFilter why p rc.

Lemma filter_loop_adds why ctx fs : forall st, adds (only (is_filter why)) st (filter_loop Tcl_StringMatch why ctx fs st).2.
Proof.
  induction fs as [|f fs IH]; intros st; cbn [filter_loop]; [destruct st; apply adds_nothing|]. destruct (filter_matches _ _ _ _ _); [|apply IH].
  destruct (filter_proc (f_proc f) why st.1) as [rc w].
  assert (Ha : adds (only (is_filter why)) st (log (EvFilter why (f_proc f) rc) (w, st.2))) by (apply adds_log; repeat constructor; by eexists _, _).
  destruct rc; try exact Ha. eapply adds_trans; [exact Ha|apply IH].
Qed.

Lemma run_filters_adds why st : adds (only (is_filter why)) st (run_filters why st).2.
Proof.
  unfold NsRunFilters. destruct (FilterContextInit st.1) as [ctx w]. pose proof (adds_nothing (is_filter why) st w) as H0.
  destruct (request_method w); [|exact H0]. destruct (request_url w); [|exact H0]. pose proof (filter_loop_adds why ctx (filters servPtr) (w, st.2)) as Hl.
  destruct (filter_loop _ _ _ _ _) as [rc st']. eapply adds_trans; [exact H0|exact Hl].
Qed.

Lemma RunTraces_log ev ts : forall st : state, (RunTraces ev ts st).2 = st.2 ++ (ev <$> ts).
Proof. induction ts as [|t ts IH]; intros st; cbn [RunTraces fmap list_fmap]; [by rewrite app_nil_r|]. rewrite IH. cbn. by rewrite <- app_assoc. Qed.

Definition is_trace (e : event) : Prop := exists t, e = EvTrace t.

Lemma selected_adds p ts : forall st, adds (only is_trace) st (RunSelectedTraces p ts st).
Proof.
  induction ts as [|t ts IH]; intros st; cbn [RunSelectedTraces]; [destruct st; apply adds_nothing|]. case_bool_decide; [|destruct st; apply adds_nothing].
  eapply adds_trans; [|apply IH]. apply adds_log. repeat constructor. by exists t.
Qed.

Lemma auth_loop_adds l : forall status c st, adds (only (fun e => exists a, e = EvAuth a)) st (auth_loop l status c st).2.
Proof.
  induction l as [|a l IH]; intros status c st; cbn [auth_loop]; [destruct st; apply adds_nothing|]. case_bool_decide; [|destruct st; apply adds_nothing].
  destruct (auth_proc a st.1) as [[s' c'] w]. eapply adds_trans; [|apply IH]. apply adds_log. repeat constructor. by exists a.
Qed.

(** From a phase to a phase. *)
Definition leads (st st' : state (W := W)) (p p' : phase) : Prop := adds (fun l => phases p l = Some p') st st'.

Lemma leads_refl st p (w : W) : leads st (w, st.2) p p.
Proof. exists []. by rewrite app_nil_r. Qed.

Lemma leads_trans st1 st2 st3 p1 p2 p3 : leads st1 st2 p1 p2 -> leads st2 st3 p2 p3 -> leads st1 st3 p1 p3.
Proof. intros (l1 & E1 & H1) (l2 & E2 & H2). exists (l1 ++ l2). rewrite E2, E1, app_assoc. split; [done|]. by rewrite phases_app, H1. Qed.

Lemma leads_stay (P : event -> Prop) st st' p : adds (only P) st st' -> (forall e, P e -> next_phase p e = Some p) -> leads st st' p p.
Proof.
  intros (l & E & Hl) HP. exists l. split; [done|]. clear E. induction Hl as [|e l He _ IH]; [done|]. cbn. by rewrite (HP e He).
Qed.

Lemma leads_reply r st p : early p = true -> leads st (reply r st).2 p p.
Proof. intros Hp. unfold reply. destruct (send_reply r st.1) as [rc w]. apply adds_log. by destruct p. Qed.

Lemma leads_internal status st p : early p = true -> leads st (Ns_ConnTryReturnInternalError status st).2 p p.
Proof. intros Hp. unfold Ns_ConnTryReturnInternalError. destruct (conn_closed st.1); [destruct st; apply leads_refl|by apply leads_reply]. Qed.

Lemma leads_filters why p st : (forall a b, next_phase p (EvFilter why a b) = Some p) -> leads st (run_filters why st).2 p p.
Proof. intros Hp. eapply leads_stay; [apply run_filters_adds|]. intros e (a & b & ->). apply Hp. Qed.

Lemma leads_authorize st : leads st (Ns_AuthorizeRequest servPtr st).2 Before (if granted (Ns_AuthorizeRequest servPtr st).1 then Granted else After).
Proof.
  unfold Ns_AuthorizeRequest. pose proof (auth_loop_adds (requestAuths servPtr) NS_OK TCL_OK st) as Ha. destruct (auth_loop _ _ _ _) as [[status c] st'].
  cbn [fst snd] in *. eapply leads_trans; [eapply leads_stay; [exact Ha|]; intros e (a & ->); done|]. destruct st' as [w l]. by apply adds_log.
Qed.

Lemma leads_run_request st : exists p, (p = Granted \/ p = After) /\ leads st (Ns_ConnRunRequest find st).2 Granted p.
Proof.
  unfold Ns_ConnRunRequest. assert (Hr : forall r st', st'.2 = st.2 -> exists p, (p = Granted \/ p = After) /\ leads st (reply r st').2 Granted p).
  { intros r st' E. exists Granted. split; [by left|]. unfold leads, adds. rewrite <- E. by apply leads_reply. }
  destruct (has_flag _ _); [by apply Hr|]. destruct (has_flag _ _); [by apply Hr|]. destruct (has_flag _ _); [by apply Hr|].
  assert (H0 : exists p, (p = Granted \/ p = After) /\ leads st st Granted p) by (exists Granted; split; [by left|destruct st; apply leads_refl]).
  destruct (request_method st.1); [|exact H0]. destruct (request_url st.1); [|exact H0]. destruct (find _ _ _) as [reg|].
  - destruct (request_proc reg st.1) as [rc w]. exists After. split; [by right|]. by apply adds_log.
  - case_bool_decide; by apply Hr.
Qed.

Lemma leads_classical st : exists p, early p = true /\ leads st (run_classical Tcl_StringMatch find servPtr st).2 Before p.
Proof.
  unfold run_classical. pose proof (leads_filters NS_FILTER_PRE_AUTH Before st ltac:(done)) as Hpre. destruct (run_filters NS_FILTER_PRE_AUTH st) as [rc st1]. cbn [snd] in Hpre.
  assert (Hint : forall s, exists p, early p = true /\ leads st (Ns_ConnTryReturnInternalError s st1).2 Before p)
    by (intros s; exists Before; split; [done|]; eapply leads_trans; [exact Hpre|by apply leads_internal]).
  destruct (if sock_open st1.1 then rc else NS_FILTER_RETURN); try apply Hint; [|by exists Before].
  pose proof (leads_authorize st1) as Ha. destruct (Ns_AuthorizeRequest servPtr st1) as [s st2]. cbn [fst snd] in Ha. pose proof (leads_trans _ _ _ _ _ _ Hpre Ha) as H2.
  assert (Hpost : granted s = true -> exists p, early p = true /\ leads st (let '(status, st3) := run_filters NS_FILTER_POST_AUTH st2 in
    if bool_decide (status = NS_OK) && sock_open st3.1 then Ns_ConnRunRequest find st3 else (status, st3)).2 Before p).
  { intros Hg. rewrite Hg in H2. pose proof (leads_filters NS_FILTER_POST_AUTH Granted st2 ltac:(done)) as Hpost. destruct (run_filters NS_FILTER_POST_AUTH st2) as [s3 st3]. cbn [snd] in Hpost.
    pose proof (leads_trans _ _ _ _ _ _ H2 Hpost) as H3. destruct (_ && _); [|by exists Granted].
    destruct (leads_run_request st3) as (p & Hp & Hl). exists p. split; [by destruct Hp as [->| ->]|by eapply leads_trans]. }
  destruct s; cbn [granted] in *; try (by apply Hpost); [exists After; split; [done|]; cbn [snd]; (exact H2 || (eapply leads_trans; [exact H2|]))..]; by apply leads_internal || by apply leads_reply.
Qed.
Lemma leads_request w : exists p, early p = true /\ leads (w, []) (run_request Tcl_StringMatch find driverProc servPtr (w, [])).2 Before p.
Proof.
  unfold run_request. destruct driverProc as [d|].
  - cbn [fst]. destruct (request_proc d w) as [rc w']. exists After. split; [done|]. by apply (adds_log _ _ (w, [])).
  - destruct (_ || _); [|apply leads_classical]. unfold NsConnRunProxyRequest. destruct (assoc _ _) as [reg|].
    + cbn [fst]. destruct (request_proc reg w) as [rc w']. exists After. split; [done|]. by apply (adds_log _ _ (w, [])).
    + exists Before. split; [done|]. by apply leads_reply.
Qed.

(** Events of the end of a request. *)
Definition is_late (e : event) : Prop := is_trace e \/ is_filter NS_FILTER_TRACE e \/ is_filter NS_FILTER_VOID_TRACE e.

Lemma adds_impl (P Q : event -> Prop) (st st' : state (W := W)) : (forall e, P e -> Q e) -> adds (only P) st st' -> adds (only Q) st st'.
Proof. intros HPQ (l & E & Hl). exists l. split; [done|]. eapply Forall_impl; [exact Hl|exact HPQ]. Qed.

Lemma run_traces_adds status st : adds (only is_late) st (run_traces Tcl_StringMatch nslog servPtr status st).
Proof.
  assert (Hf : forall why st, why = NS_FILTER_TRACE \/ why = NS_FILTER_VOID_TRACE -> adds (only is_late) st (run_filters why st).2).
  { intros why st0 Hw. eapply adds_impl; [|apply run_filters_adds]. unfold is_late. destruct Hw as [->| ->]; auto. }
  assert (Hn : adds (only is_late) st (NsAddNslogEntry nslog servPtr st)).
  { unfold NsAddNslogEntry. destruct nslog; [|destruct st; apply adds_nothing]. eapply adds_impl; [|apply selected_adds]. unfold is_late. auto. }
  assert (Ht : adds (only is_late) st (let '(status, st) := run_filters NS_FILTER_TRACE st in
    if bool_decide (status = NS_OK) then NsRunTraces servPtr (run_filters NS_FILTER_VOID_TRACE st).2 else st)).
  { pose proof (Hf NS_FILTER_TRACE st ltac:(auto)) as H1. destruct (run_filters NS_FILTER_TRACE st) as [s st1]. cbn [snd] in H1. case_bool_decide; [|done].
    eapply adds_trans; [exact H1|]. eapply adds_trans; [apply Hf; auto|]. exists (EvTrace <$> server_traces servPtr). split; [apply RunTraces_log|].
    apply Forall_fmap, Forall_true. intros t. left. by exists t. }
  unfold run_traces. destruct status; assumption.
Qed.

Lemma late_phase p e : early p = true -> is_late e -> next_phase p e = Some After.
Proof. intros Hp [(t & ->)|[(a & b & ->)|(a & b & ->)]]; by destruct p. Qed.

Lemma leads_late (P : event -> Prop) st st' p : early p = true -> adds (only P) st st' -> (forall q e, early q = true -> P e -> next_phase q e = Some After) ->
  exists q, early q = true /\ leads st st' p q.
Proof.
  intros Hp (l & E & Hl) HP. enough (Hq : exists q, early q = true /\ phases p l = Some q) by (destruct Hq as (q & Hq & Hph); exists q; split; [done|by exists l]).
  clear E. revert p Hp. induction Hl as [|e l He _ IH]; intros p Hp; [by exists p|]. cbn. rewrite (HP p e Hp He). cbn. by apply IH.
Qed.

(** C10.  What a connection thread calls for a request is in order: pre-auth filters and the
    authorization come first; post-auth filters and the procedure registered for the URL
    run only after the authorization was granted, the procedure at most once; traces and
    cleanups come after that, and the connection is closed at the end.  This holds for all
    callbacks and whatever they return. *)
Theorem ConnRun_order w : phases Before (ConnRun Tcl_StringMatch find nslog driverProc servPtr w).2 = Some Closed.
Proof.
  unfold ConnRun. destruct (leads_request w) as (p & Hp & Hl). destruct (run_request Tcl_StringMatch find driverProc servPtr (w, [])) as [status st]. cbn [snd] in Hl.
  destruct (leads_late is_late st _ p Hp (run_traces_adds status st) late_phase) as (q & Hq & Ht). pose proof (leads_trans _ _ _ _ _ _ Hl Ht) as (l & E & Hph).
  unfold log, NsRunCleanups. cbn [snd] in *. rewrite RunTraces_log, E. cbn [app]. rewrite !phases_app, Hph. cbn [mbind option_bind].
  assert (Hc : exists r, r <> Closed /\ phases q (EvCleanup <$> cleanups servPtr) = Some r).
  { clear -Hq. assert (Hq' : q <> Closed) by (by destruct q). clear Hq. revert q Hq'. induction (cleanups servPtr) as [|t ts IH]; intros q Hq; [by exists q|].
    cbn. destruct q; try done; by apply IH. }
  destruct Hc as (r & Hr & ->). by destruct r.
Qed.

Definition is_cleanup (e : event) : bool := match e with EvCleanup _ => true | _ => false end.

(** Nothing is cleaned up in an early phase. *)
Lemma early_no_cleanup l : forall p q, phases p l = Some q -> early q = true -> List.filter is_cleanup l = [] /\ early p = true.
Proof.
  induction l as [|e l IH]; intros p q; cbn; [by intros [= ->]|]. destruct (next_phase p e) as [p'|] eqn:E; [|done]. cbn. intros Hl Hq.
  destruct (IH p' q Hl Hq) as [Hf Hp]. destruct p, e as [[] ? ?| | | | | | | | |]; cbn in E; simplify_eq; done.
Qed.

Lemma ConnRun_cleanup_log w : List.filter is_cleanup (ConnRun Tcl_StringMatch find nslog driverProc servPtr w).2 = EvCleanup <$> cleanups servPtr.
Proof.
  unfold ConnRun. destruct (leads_request w) as (p & Hp & Hl). destruct (run_request Tcl_StringMatch find driverProc servPtr (w, [])) as [status st]. cbn [snd] in Hl.
  destruct (leads_late is_late st _ p Hp (run_traces_adds status st) late_phase) as (q & Hq & Ht). pose proof (leads_trans _ _ _ _ _ _ Hl Ht) as (l & E & Hph).
  destruct (early_no_cleanup l Before q Hph Hq) as [Hf _]. unfold log, NsRunCleanups. cbn [snd] in *. rewrite RunTraces_log, E, <- app_assoc, !List.filter_app. cbn [app].
  rewrite Hf. cbn [app List.filter is_cleanup]. rewrite app_nil_r. induction (cleanups servPtr) as [|t ts IH]; [done|]. cbn. by rewrite IH.
Qed.

(** After an internal redirect the procedure for the new URL runs only if the authorization was granted again. *)
Lemma ConnRedirect_order url st : exists p, leads st (Ns_ConnRedirect find servPtr url st).2 Before p.
Proof.
  unfold Ns_ConnRedirect. destruct (Ns_SetRequestUrl url st.1) as [status w]. pose proof (leads_authorize (w, st.2)) as Ha. change (leads (w, st.2)) with (leads st) in Ha.
  assert (Hn : leads st (w, st.2) Before Before) by apply leads_refl.
  assert (Hi : forall s st' p, early p = true -> leads st st' Before p -> exists p, leads st (Ns_ConnTryReturnInternalError s st').2 Before p)
    by (intros s st' p Hp Hl; exists p; eapply leads_trans; [exact Hl|by apply leads_internal]).
  assert (Hr : forall r st' p, early p = true -> leads st st' Before p -> exists p, leads st (reply r st').2 Before p)
    by (intros r st' p Hp Hl; exists p; eapply leads_trans; [exact Hl|by apply leads_reply]).
  destruct status; try (by apply (Hi _ _ Before)); try (by apply (Hr _ _ Before)). destruct (Ns_AuthorizeRequest servPtr (w, st.2)) as [s st']. cbn [fst snd] in Ha.
  destruct s; cbn [granted] in Ha; try by (eapply Hi; [|exact Ha]). 2, 3: by (eapply Hr; [|exact Ha]).
  destruct (leads_run_request st') as (p & _ & Hp). exists p. exact (leads_trans _ _ _ _ _ _ Ha Hp).
Qed.

(** ** Requests that are not answered, and requests that are not logged *)

(** A filter after the authorization that ends with an error leaves the request without
    a reply: neither it nor a procedure is called after the filters, and no error message is
    sent, as it is when a filter before the authorization fails. *)
Theorem post_auth_error_unanswered st st1 st2 st3 : NsRunFilters Tcl_StringMatch servPtr NS_FILTER_PRE_AUTH st = (NS_OK, st1) -> sock_open st1.1 = true ->
  Ns_AuthorizeRequest servPtr st1 = (NS_OK, st2) -> NsRunFilters Tcl_StringMatch servPtr NS_FILTER_POST_AUTH st2 = (NS_ERROR, st3) ->
  run_classical Tcl_StringMatch find servPtr st = (NS_ERROR, st3) /\ Forall (fun e => match e with EvReply _ | EvRequest _ => False | _ => True end) (drop (length st.2) st3.2).
Proof.
  intros H1 Ho H2 H3. split; [unfold run_classical; by rewrite H1, Ho, H2, H3|].
  pose proof (run_filters_adds NS_FILTER_PRE_AUTH st) as (l1 & E1 & F1). rewrite H1 in E1. cbn [snd] in E1.
  pose proof (run_filters_adds NS_FILTER_POST_AUTH st2) as (l3 & E3 & F3). rewrite H3 in E3. cbn [snd] in E3.
  unfold Ns_AuthorizeRequest in H2. pose proof (auth_loop_adds (requestAuths servPtr) NS_OK TCL_OK st1) as (l2 & E2 & F2).
  destruct (auth_loop _ _ _ _) as [[s c] st2']. cbn [snd] in E2. injection H2 as _ <-. unfold log in E3. cbn [snd] in E3.
  rewrite E3, E2, E1, <- !app_assoc, drop_app_length. rewrite !Forall_app. split_and!; [| |by repeat constructor|].
  1,3: eapply Forall_impl; [eassumption|]; by intros e (a & b & ->).
  eapply Forall_impl; [exact F2|]. by intros e (a & ->).
Qed.

(** A request that is refused or failed is not written to the access log when another
    trace was registered before the one of the log: the search for the traces of the log ends
    at the first trace of another procedure. *)
Theorem refused_not_logged status t ts st traceProc : server_traces servPtr = t :: ts -> t_proc t <> traceProc -> nslog = Some traceProc ->
  status <> NS_OK -> status <> NS_FILTER_RETURN -> run_traces Tcl_StringMatch nslog servPtr status st = st.
Proof.
  intros Ht Hp -> H1 H2. unfold run_traces, NsAddNslogEntry. rewrite Ht. cbn [RunSelectedTraces]. rewrite bool_decide_eq_false_2 by done. by destruct status.
Qed.
End order.

(** What is registered while the server starts. *)
Inductive Registration := RegFilter (f : Filter) (first : bool) | RegServerTrace (t : Trace) | RegCleanup (t : Trace) | RegAuth (a : nat) (first : bool).

Definition register (s : NsServer) (r : Registration) : NsServer :=
  match r with
  | RegFilter f first => Ns_RegisterFilter2 f first s
  | RegServerTrace t => Ns_RegisterServerTrace t s
  | RegCleanup t => RegisterCleanup t s
  | RegAuth a first => RegisterAuth a first s
  end.

Definition cleanup_of (r : Registration) : option Trace := match r with RegCleanup t => Some t | _ => None end.

Lemma cleanups_registered regs s : cleanups (fold_left register regs s) = reverse (omap cleanup_of regs) ++ cleanups s.
Proof.
  revert s. induction regs as [|r regs IH]; intros s; [done|]. cbn [fold_left]. rewrite IH. destruct r; try done. cbn [register RegisterCleanup cleanups].
  change (omap cleanup_of (RegCleanup t :: regs)) with (t :: omap cleanup_of regs). by rewrite reverse_cons, <- app_assoc.
Qed.

(** C32.  After any sequence of registrations of filters, traces, cleanups and authorizations, whatever happens with
    a request, every cleanup that was registered runs exactly once in it, the last registered one first, before those
    the server had already. *)
Theorem ConnRun_cleanups {W : Type} `{Connection W} Tcl_StringMatch find nslog driverProc s regs w :
  List.filter is_cleanup (ConnRun Tcl_StringMatch find nslog driverProc (fold_left register regs s) w).2 =
    (EvCleanup <$> reverse (omap cleanup_of regs)) ++ (EvCleanup <$> cleanups s).
Proof. by rewrite ConnRun_cleanup_log, cleanups_registered, fmap_app. Qed.

(** ** A connection *)

(** The flags, the number of replies, the URL; procedure 0 answers a request, filter 7 fails, authorization 3 forbids. *)
Record SampleConn := mkSample { sample_url : list Z; sample_flags : Z; replies : nat }.

Definition answer (w : SampleConn) : SampleConn := mkSample (sample_url w) (sample_flags w) (S (replies w)).

#[export] Instance sample_connection : Connection SampleConn := {
  request_method _ := Some (bytes "GET");
  request_url w := Some (sample_url w);
  request_protocol _ := [];
  request_type _ := NS_REQUEST_TYPE_PLAIN;
  conn_flags := sample_flags;
  set_conn_flags fl w := mkSample (sample_url w) fl (replies w);
  sock_open _ := true;
  conn_closed _ := false;
  FilterContextInit w := (mkContext None None, w);
  filter_proc p _ w := (if bool_decide (p = 7%nat) then NS_ERROR else NS_OK, w);
  auth_proc a w := (if bool_decide (a = 3%nat) then NS_FORBIDDEN else NS_OK, TCL_OK, w);
  request_proc _ w := (NS_OK, answer w);
  trace_proc _ w := w;
  send_reply _ w := (NS_OK, answer w);
  Ns_SetRequestUrl u w := (NS_OK, mkSample u (sample_flags w) (replies w))
}.

Definition any_match (_ _ : list Z) : bool := true.
Definition sample_find (_ : SampleConn) (_ _ : list Z) : option nat := Some 0%nat.
Definition sample_filter (proc : nat) (why : Ns_FilterType) : Filter := mkFilter proc (bytes "*") (bytes "*") None why.
Definition sample_server (fs : list Filter) (auths : list nat) : NsServer := mkServer fs [mkTrace 4 0; mkTrace 5 0] [mkTrace 6 0] auths [].
Definition sample_conn : SampleConn := mkSample (bytes "/") 0 0.

Lemma post_auth_error_unanswered_witness :
  let s := sample_server [sample_filter 7 NS_FILTER_POST_AUTH] [] in
  run_classical any_match sample_find s (sample_conn, []) = (NS_ERROR, (sample_conn, [EvAuthorized NS_OK; EvFilter NS_FILTER_POST_AUTH 7 NS_ERROR])).
Proof. cbv zeta. eapply (post_auth_error_unanswered any_match sample_find _ (sample_conn, [])); vm_compute; reflexivity. Defined.

Lemma refused_not_logged_witness : run_traces any_match (Some 5%nat) (sample_server [] []) NS_FORBIDDEN (sample_conn, []) = (sample_conn, []).
Proof. by eapply (refused_not_logged any_match (Some 5%nat) (sample_server [] []) NS_FORBIDDEN (mkTrace 4 0)). Defined.

(** A request as it should be: filters, authorization, the procedure, traces, cleanups. *)
Example ConnRun_sample :
  (ConnRun any_match sample_find None None (sample_server [sample_filter 1 NS_FILTER_TRACE; sample_filter 2 NS_FILTER_PRE_AUTH] [1%nat]) sample_conn).2 =
  [EvFilter NS_FILTER_PRE_AUTH 2 NS_OK; EvAuth 1; EvAuthorized NS_OK; EvRequest 0; EvFilter NS_FILTER_TRACE 1 NS_OK; EvTrace (mkTrace 4 0); EvTrace (mkTrace 5 0);
   EvCleanup (mkTrace 6 0); EvClose].
Proof. reflexivity. Qed.

(** A request that is refused. *)
Example ConnRun_forbidden :
  (ConnRun any_match sample_find None None (sample_server [] [3%nat]) sample_conn).2 = [EvAuth 3; EvAuthorized NS_FORBIDDEN; EvReply Forbidden; EvCleanup (mkTrace 6 0); EvClose].
Proof. reflexivity. Qed.
