(* ===== verification/Procs.v ===== *)
(** * Procs: reference counts of registered procedures (nsd/op.c).

    The procedures registered for proxy requests, which any thread registers and replaces
    while others run them.  The operations that hold the lock are the steps; their
    interleaving, and the addresses that [ns_malloc] gives, are arbitrary.  Access to a
    structure that is not allocated gives no state. *)

From stdpp Require Import gmap.
From S2P Require Import Prelude.

Record RegisteredProc := mkReg { proc : nat; deleteCallback : option nat; arg : nat; refcnt : Z }.

(** The structures by address, the hash table, the structures that threads run at present,
    and the calls of delete callbacks so far with their argument. *)
Record Procs := mkProcs {
  heap : gmap nat RegisteredProc; proxy : gmap (list Z) nat; running : list nat; called : list (nat * nat)
}.

Definition no_procs : Procs := mkProcs ∅ ∅ [] [].

Definition set_refcnt (n : Z) (r : RegisteredProc) : RegisteredProc := mkReg (proc r) (deleteCallback r) (arg r) n.

Definition delete_call (r : RegisteredProc) : list (nat * nat) := match deleteCallback r with Some d => [(d, arg r)] | None => [] end.

Definition RegisteredProcDecrRef (p : nat) (s : Procs) : option Procs :=
  regPtr ← heap s !! p;
  let n := refcnt regPtr - 1 in
  if n =? 0 then Some (mkProcs (delete p (heap s)) (proxy s) (running s) (called s ++ delete_call regPtr))
  else Some (mkProcs (<[p := set_refcnt n regPtr]> (heap s)) (proxy s) (running s) (called s)).

(** [p] is the address that [ns_malloc] gives. *)
Definition Ns_RegisterProxyRequest (p : nat) (method protocol : list Z) (pr : nat) (del : option nat) (a : nat) (s : Procs) : option Procs :=
  let key := method ++ protocol in
  let s := mkProcs (<[p := mkReg pr del a 1]> (heap s)) (proxy s) (running s) (called s) in
  s ← match proxy s !! key with Some old => RegisteredProcDecrRef old s | None => Some s end;
  Some (mkProcs (heap s) (<[key := p]> (proxy s)) (running s) (called s)).

Definition Ns_UnRegisterProxyRequest (method protocol : list Z) (s : Procs) : option Procs :=
  let key := method ++ protocol in
  match proxy s !! key with
  | Some old =>
      s ← RegisteredProcDecrRef old s;
      Some (mkProcs (heap s) (delete key (proxy s)) (running s) (called s))
  | None => Some s
  end.

(** The two parts of [NsConnRunProxyRequest] that hold the lock: before the procedure runs,
    with the procedure that is called, and after it. *)
Definition proxy_begin (method protocol : list Z) (s : Procs) : option Procs :=
  match proxy s !! (method ++ protocol) with
  | Some p =>
      regPtr ← heap s !! p;
      Some (mkProcs (<[p := set_refcnt (refcnt regPtr + 1) regPtr]> (heap s)) (proxy s) (p :: running s) (called s))
  | None => Some s
  end.

Definition remove_one (p : nat) : list nat -> list nat :=
  fix go l := match l with [] => [] | q :: l => if Nat.eqb q p then l else q :: go l end.

Definition proxy_end (p : nat) (s : Procs) : option Procs :=
  s ← RegisteredProcDecrRef p s;
  Some (mkProcs (heap s) (proxy s) (remove_one p (running s)) (called s)).

Inductive op :=
| Register (p : nat) (method protocol : list Z) (pr : nat) (del : option nat) (a : nat)
| UnRegister (method protocol : list Z)
| Begin (method protocol : list Z)
| End (p : nat).

Definition exec (o : op) (s : Procs) : option Procs :=
  match o with
  | Register p m pro pr del a => Ns_RegisterProxyRequest p m pro pr del a s
  | UnRegister m pro => Ns_UnRegisterProxyRequest m pro s
  | Begin m pro => proxy_begin m pro s
  | End p => proxy_end p s
  end.

(** An address that is given is free, and only a procedure that runs can end. *)
Definition may (o : op) (s : Procs) : Prop :=
  match o with Register p _ _ _ _ _ => heap s !! p = None | End p => p ∈ running s | _ => True end.

Inductive reachable : Procs -> list (nat * nat) -> Prop :=
| reachable_nil : reachable no_procs []
| reachable_step o s s' regs : reachable s regs -> may o s -> exec o s = Some s' ->
    reachable s' (regs ++ match o with Register _ _ _ _ (Some d) a => [(d, a)] | _ => [] end).

(** ** The invariant *)

Definition in_table (p : nat) (m : gmap (list Z) nat) : nat := size (filter (fun kv : list Z * nat => kv.2 = p) m).
Definition in_run (p : nat) (l : list nat) : nat := count_occ Nat.eq_dec l p.

(** The references of a table and of threads to a structure. *)
Definition refs (p : nat) (s : Procs) : Z := Z.of_nat (in_table p (proxy s) + in_run p (running s)).

(** The callbacks of the structures that are allocated. *)
Definition pending (h : gmap nat RegisteredProc) : list (nat * nat) := concat ((fun x => delete_call x.2) <$> map_to_list h).

(** Structures are allocated exactly while there are references to them, [f] says how many,
    which their counts say, and what was registered is either pending or was called. *)
Record Bal (f : nat -> Z) (s : Procs) (regs : list (nat * nat)) : Prop := {
  bal_count : forall p r, heap s !! p = Some r -> refcnt r = f p /\ 0 < refcnt r;
  bal_live : forall p, 0 < f p -> is_Some (heap s !! p);
  bal_calls : regs ≡ₚ pending (heap s) ++ called s
}.

Definition Inv (s : Procs) : list (nat * nat) -> Prop := Bal (fun p => refs p s) s.

Lemma pending_insert h p r : h !! p = None -> pending (<[p := r]> h) ≡ₚ delete_call r ++ pending h.
Proof. intros Hp. unfold pending. rewrite (map_to_list_insert h p r Hp). done. Qed.

Lemma pending_delete h p r : h !! p = Some r -> pending h ≡ₚ delete_call r ++ pending (delete p h).
Proof. intros Hp. rewrite <- (insert_delete_id h p r Hp) at 1. apply pending_insert, lookup_delete_eq. Qed.

Lemma pending_replace h p r n : h !! p = Some r -> pending (<[p := set_refcnt n r]> h) ≡ₚ pending h.
Proof. intros Hp. rewrite <- insert_delete_eq, pending_insert by apply lookup_delete_eq. by rewrite (pending_delete h p r Hp). Qed.

Lemma in_table_insert m k p q : m !! k = None -> in_table q (<[k := p]> m) = (in_table q m + if Nat.eqb p q then 1 else 0)%nat.
Proof.
  intros Hk. unfold in_table. destruct (Nat.eqb_spec p q) as [->|Hne].
  - rewrite map_filter_insert_True, map_size_insert_None by (done || (apply map_lookup_filter_None_2; by left)). lia.
  - rewrite map_filter_insert_False, delete_id by (done || (apply map_lookup_filter_None_2; by left)). lia.
Qed.

Lemma in_table_delete m k p q : m !! k = Some p -> in_table q m = (in_table q (delete k m) + if Nat.eqb p q then 1 else 0)%nat.
Proof. intros Hk. rewrite <- (insert_delete_id m k p Hk) at 1. apply in_table_insert, lookup_delete_eq. Qed.

Lemma in_run_remove l p q : p ∈ l -> in_run q l = (in_run q (remove_one p l) + if Nat.eqb p q then 1 else 0)%nat.
Proof.
  unfold in_run. induction l as [|x l IH]; [by intros ?%not_elem_of_nil|]. intros Hp. cbn.
  destruct (Nat.eqb_spec x p) as [->|Hx].
  - destruct (Nat.eqb_spec p q), (Nat.eq_dec p q); lia.
  - apply elem_of_cons in Hp as [->|Hp]; [done|]. cbn. destruct (Nat.eq_dec x q); rewrite IH by done; lia.
Qed.

Definition one (p q : nat) : Z := if Nat.eqb p q then 1 else 0.

Lemma one_same p : one p p = 1.
Proof. unfold one. by rewrite Nat.eqb_refl. Qed.

Lemma one_other p q : p <> q -> one p q = 0.
Proof. intros Hne. unfold one. by rewrite (proj2 (Nat.eqb_neq p q)). Qed.

(** A reference less. *)
Lemma decr_ok f p s regs : Bal f s regs -> 0 < f p ->
  exists s', RegisteredProcDecrRef p s = Some s' /\ proxy s' = proxy s /\ running s' = running s /\ Bal (fun q => f q - one p q) s' regs.
Proof.
  intros [Hc Hl Hd] Hp. destruct (Hl p Hp) as [r Hr]. destruct (Hc p r Hr) as [Er Hpos]. unfold RegisteredProcDecrRef. rewrite Hr. cbn [mbind option_bind].
  destruct (Z.eqb_spec (refcnt r - 1) 0) as [E|E]; eexists; (split; [done|]); (split; [done|]); (split; [done|]); split; cbn [heap called].
  - intros q r' Hq. apply lookup_delete_Some in Hq as [Hne Hq]. rewrite one_other by done. destruct (Hc q r' Hq). lia.
  - intros q Hq. destruct (decide (p = q)) as [<-|Hne]; [rewrite one_same in Hq; lia|]. rewrite one_other in Hq by done. rewrite lookup_delete_ne by done. apply Hl. lia.
  - rewrite Hd, (pending_delete _ _ _ Hr). solve_Permutation.
  - intros q r' Hq. apply lookup_insert_Some in Hq as [[<- <-]|[Hne Hq]]; [rewrite one_same; cbn; lia|].
    rewrite one_other by done. destruct (Hc q r' Hq). lia.
  - intros q Hq. apply lookup_insert_is_Some'. destruct (decide (p = q)) as [<-|Hne]; [by left|]. rewrite one_other in Hq by done. right. apply Hl. lia.
  - by rewrite (pending_replace _ _ _ _ Hr).
Qed.

(** A reference more. *)
Lemma incr_ok f p r s regs tab run : Bal f s regs -> heap s !! p = Some r ->
  Bal (fun q => f q + one p q) (mkProcs (<[p := set_refcnt (refcnt r + 1) r]> (heap s)) tab run (called s)) regs.
Proof.
  intros [Hc Hl Hd] Hr. destruct (Hc p r Hr) as [Er Hpos]. split; cbn [heap called].
  - intros q r' Hq. apply lookup_insert_Some in Hq as [[<- <-]|[Hne Hq]]; [rewrite one_same; cbn; lia|].
    rewrite one_other by done. destruct (Hc q r' Hq). lia.
  - intros q Hq. apply lookup_insert_is_Some'. destruct (decide (p = q)) as [<-|Hne]; [by left|]. rewrite one_other in Hq by done. right. apply Hl. lia.
  - by rewrite (pending_replace _ _ _ _ Hr).
Qed.

(** A new structure. *)
Lemma alloc_ok f p r s regs tab run : Bal f s regs -> heap s !! p = None -> refcnt r = 1 -> f p = 0 ->
  Bal (fun q => f q + one p q) (mkProcs (<[p := r]> (heap s)) tab run (called s)) (regs ++ delete_call r).
Proof.
  intros [Hc Hl Hd] Hp Hr Hf. split; cbn [heap called].
  - intros q r' Hq. apply lookup_insert_Some in Hq as [[<- <-]|[Hne Hq]]; [rewrite one_same; lia|].
    rewrite one_other by done. destruct (Hc q r' Hq). lia.
  - intros q Hq. apply lookup_insert_is_Some'. destruct (decide (p = q)) as [<-|Hne]; [by left|]. rewrite one_other in Hq by done. right. apply Hl. lia.
  - rewrite pending_insert, Hd by done. solve_Permutation.
Qed.

Lemma bal_ext f g s s' regs : Bal f s regs -> heap s' = heap s -> called s' = called s -> (forall q, f q = g q) -> Bal g s' regs.
Proof. intros [Hc Hl Hd] Eh Ec Hfg. split; rewrite ?Eh, ?Ec; [|intros q; rewrite <- Hfg; auto|done]. intros q r Hq. rewrite <- Hfg. auto. Qed.

Lemma table_has m k p : m !! k = Some p -> (0 < in_table p m)%nat.
Proof. intros Hk. rewrite (in_table_delete m k p p Hk), Nat.eqb_refl. lia. Qed.

Lemma run_has l p : p ∈ l -> (0 < in_run p l)%nat.
Proof. intros Hp. rewrite (in_run_remove l p p Hp), Nat.eqb_refl. lia. Qed.

Lemma register_inv p m pro pr del a s regs : Inv s regs -> heap s !! p = None ->
  exists s', Ns_RegisterProxyRequest p m pro pr del a s = Some s' /\ Inv s' (regs ++ match del with Some d => [(d, a)] | None => [] end).
Proof.
  intros HI Hp. assert (H0 : refs p s = 0) by (destruct (Z.lt_trichotomy (refs p s) 0) as [?|[?|Hpos]]; [unfold refs in *; lia|done|]; destruct (bal_live _ _ _ HI p Hpos); congruence).
  pose proof (alloc_ok _ p (mkReg pr del a 1) s regs (proxy s) (running s) HI Hp eq_refl H0) as HA.
  unfold Ns_RegisterProxyRequest. cbn [proxy]. destruct (proxy s !! (m ++ pro)) as [old|] eqn:Eo.
  - pose proof (table_has _ _ _ Eo) as Ht. destruct (decr_ok _ old _ _ HA) as (s' & E & Epr & Erun & HB); [unfold refs, one; destruct (Nat.eqb p old); lia|].
    rewrite E. cbn [mbind option_bind]. eexists. split; [done|]. eapply bal_ext; [exact HB|done|done|]. intros q. unfold refs, one. cbn [proxy running] in *.
    rewrite Epr, Erun. rewrite <- insert_delete_eq, in_table_insert by apply lookup_delete_eq. rewrite (in_table_delete _ _ _ q Eo).
    destruct (Nat.eqb p q), (Nat.eqb old q); lia.
  - cbn [mbind option_bind]. eexists. split; [done|]. eapply bal_ext; [exact HA|done|done|]. intros q. unfold refs, one. cbn [proxy running].
    rewrite in_table_insert by done. destruct (Nat.eqb p q); lia.
Qed.

Lemma unregister_inv m pro s regs : Inv s regs -> exists s', Ns_UnRegisterProxyRequest m pro s = Some s' /\ Inv s' regs.
Proof.
  intros HI. unfold Ns_UnRegisterProxyRequest. destruct (proxy s !! (m ++ pro)) as [old|] eqn:Eo; [|by eexists].
  pose proof (table_has _ _ _ Eo) as Ht. destruct (decr_ok _ old _ _ HI) as (s' & E & Epr & Erun & HB); [unfold refs; lia|].
  rewrite E. cbn [mbind option_bind]. eexists. split; [done|]. eapply bal_ext; [exact HB|done|done|]. intros q. unfold refs, one. cbn [proxy running].
  rewrite Epr, Erun, (in_table_delete _ _ _ q Eo). destruct (Nat.eqb old q); lia.
Qed.

Lemma begin_inv m pro s regs : Inv s regs -> exists s', proxy_begin m pro s = Some s' /\ Inv s' regs.
Proof.
  intros HI. unfold proxy_begin. destruct (proxy s !! (m ++ pro)) as [p|] eqn:Eo; [|by eexists].
  pose proof (table_has _ _ _ Eo) as Ht. destruct (bal_live _ _ _ HI p) as [r Hr]; [unfold refs; lia|]. rewrite Hr. cbn [mbind option_bind]. eexists. split; [done|].
  eapply bal_ext; [exact (incr_ok _ p r s regs (proxy s) (p :: running s) HI Hr)|done|done|]. intros q. unfold refs, one, in_run. cbn.
  destruct (Nat.eqb_spec p q), (Nat.eq_dec p q); lia.
Qed.

Lemma end_inv p s regs : Inv s regs -> p ∈ running s -> exists s', proxy_end p s = Some s' /\ Inv s' regs.
Proof.
  intros HI Hp. pose proof (run_has _ _ Hp) as Ht. unfold proxy_end. destruct (decr_ok _ p _ _ HI) as (s' & E & Epr & Erun & HB); [unfold refs; lia|].
  rewrite E. cbn [mbind option_bind]. eexists. split; [done|]. eapply bal_ext; [exact HB|done|done|]. intros q. unfold refs, one. cbn [proxy running].
  rewrite Epr, Erun, (in_run_remove _ _ q Hp). destruct (Nat.eqb p q); lia.
Qed.

(** Every operation that may happen succeeds and keeps the invariant. *)
Lemma exec_inv o s regs : Inv s regs -> may o s ->
  exists s', exec o s = Some s' /\ Inv s' (regs ++ match o with Register _ _ _ _ (Some d) a => [(d, a)] | _ => [] end).
Proof.
  intros HI Hm. destruct o as [p m pro pr del a|m pro|m pro|p]; cbn [exec may] in *; rewrite ?app_nil_r; [|by apply unregister_inv|by apply begin_inv|by apply end_inv].
  by apply register_inv.
Qed.

Lemma reachable_inv s regs : reachable s regs -> Inv s regs.
Proof.
  induction 1 as [|o s s' regs Hr IH Hm He]; [by split|]. destruct (exec_inv o s regs IH Hm) as (s'' & E & HI). rewrite He in E. by injection E as <-.
Qed.

(** C11.  However threads interleave registering, replacing and running procedures for proxy
    requests: no operation touches a structure that was freed; a structure is allocated
    exactly while the table or a running thread refers to it, and its count is the number of
    these references; and of the delete callbacks that were registered, each is either still
    to be called, for an allocated structure, or was called once. *)
Theorem procs_counted s regs o : reachable s regs -> may o s ->
  is_Some (exec o s) /\
  (forall p, is_Some (heap s !! p) <-> p ∈ running s \/ exists key, proxy s !! key = Some p) /\
  (forall p r, heap s !! p = Some r -> refcnt r = refs p s) /\
  regs ≡ₚ pending (heap s) ++ called s.
Proof.
  intros Hr Hm. pose proof (reachable_inv s regs Hr) as HI. destruct (exec_inv o s regs HI Hm) as (s' & E & _). split_and!; [by eexists| |apply HI|apply HI].
  intros p. split.
  - intros [r Hp]. destruct (bal_count _ _ _ HI p r Hp) as [Ec Hpos]. unfold refs in Ec.
    destruct (decide (p ∈ running s)) as [?|Hn]; [by left|]. right. assert (Hz : in_run p (running s) = 0%nat).
    { unfold in_run. apply count_occ_not_In. by rewrite <- list_elem_of_In. }
    destruct (decide (filter (fun kv : list Z * nat => kv.2 = p) (proxy s) = ∅)) as [E0|Hne]; [unfold in_table in Ec; rewrite E0, map_size_empty in Ec; lia|].
    apply map_choose in Hne as (key & q & Hk). apply map_lookup_filter_Some in Hk as [Hk Hq]. cbn in Hq. subst q. by exists key.
  - intros Hp. apply (bal_live _ _ _ HI). unfold refs. destruct Hp as [?%run_has|[key ?%table_has]]; lia.
Qed.

(** A procedure that is replaced while it runs: its delete callback is called at the end of the run. *)
Definition after (o : op) (s : Procs) : Procs := default s (exec o s).
Definition first_proc : op := Register 1 (bytes "GET") (bytes "http") 0 (Some 8%nat) 5.
Definition run_it : op := Begin (bytes "GET") (bytes "http").
Definition second_proc : op := Register 2 (bytes "GET") (bytes "http") 0 None 6.
Definition replaced_while_running : Procs := after second_proc (after run_it (after first_proc no_procs)).

Lemma procs_counted_witness : called replaced_while_running = [] /\ called (after (End 1) replaced_while_running) = [(8%nat, 5%nat)] /\
  is_Some (exec (End 1) replaced_while_running) /\ [(8%nat, 5%nat)] ≡ₚ pending (heap replaced_while_running) ++ called replaced_while_running.
Proof.
  split; [reflexivity|]. split; [vm_compute; reflexivity|].
  assert (Hr : reachable replaced_while_running ((([] ++ [(8, 5)]) ++ []) ++ [])%nat).
  { apply (reachable_step second_proc (after run_it (after first_proc no_procs))); [|vm_compute; reflexivity|vm_compute; reflexivity].
    apply (reachable_step run_it (after first_proc no_procs)); [|exact I|vm_compute; reflexivity].
    apply (reachable_step first_proc no_procs); [constructor|vm_compute; reflexivity|vm_compute; reflexivity]. }
  destruct (procs_counted _ _ (End 1) Hr) as (H1 & _ & _ & H2); [by left|]. split; [exact H1|exact H2].
Defined.
