(* ===== verification/Cbor.v ===== *)
(** * Cbor: decoding of CBOR (nsd/tclcbor.c) and encoded byte strings (nsd/tclobjv.c).

    The decoder reads one data item of RFC 8949 from a buffer.  The specification has data
    items, their encodings (of any length of the argument) and the Tcl values they stand
    for, and the decoder is shown to accept exactly the encodings of items without tags,
    floats and indefinite lengths.  The buffer is a list of bytes; [p] is what is left.

    The text of an encoded byte string is written to a [Tcl_DString] whose length was set before.
    [space] is the number of bytes that are there for a length, of which Tcl documents that it
    is at least the length and the byte of the NUL; writing more is an [Overrun]. *)

From S2P Require Import Prelude Base64.

Definition CBOR_MAX_DEPTH : Z := 64.
Definition WIDE_INT_MAX : Z := 2 ^ 63 - 1.

(** ** The decoder *)

(** The outcome of a function that returns [TCL_ERROR] with a message.  [Overrun] is an access
    behind the buffer, and [NoFuel] is for loops that are cut off. *)
Inductive cbor (A : Type) := Ok (a : A) | Error (message : string) | Overrun | NoFuel.
Arguments Ok {A} _.
Arguments Error {A} _%_string.
Arguments Overrun {A}.
Arguments NoFuel {A}.

#[export] Instance cbor_ret : MRet cbor := fun A a => Ok a.
#[export] Instance cbor_bind : MBind cbor := fun A B f m => match m with Ok a => f a | Error e => Error e | Overrun => Overrun | NoFuel => NoFuel end.

Inductive Ns_BinaryEncoding := NS_OBJ_ENCODING_HEX | NS_OBJ_ENCODING_BASE64URL | NS_OBJ_ENCODING_BASE64 | NS_OBJ_ENCODING_BINARY.

#[export] Instance BinaryEncoding_eq : EqDecision Ns_BinaryEncoding.
Proof. solve_decision. Defined.

(** The Tcl values the decoder makes. *)
Inductive Tcl_Obj :=
| WideInt (w : Z) | ByteArray (octets : list Z) | StringObj (s : list Z) | BooleanObj (b : bool) | EmptyObj
| ListObj (l : list Tcl_Obj) | DictObj (d : list (Tcl_Obj * Tcl_Obj)).

Definition CborNeed (p : list Z) (n : Z) : cbor unit := if Z.of_nat (length p) <? n then Error "CBOR truncated input" else Ok tt.

(** [p[i]]; the functions below check the length first. *)
Definition at_ (p : list Z) (i : nat) : Z := nth i p 0.

Definition CborReadU8 (p : list Z) : cbor (Z * list Z) :=
  _ ← CborNeed p 1; Ok (at_ p 0, drop 1 p).

Definition CborReadBE16 (p : list Z) : cbor (Z * list Z) :=
  _ ← CborNeed p 2; Ok ((Z.lor (Z.shiftl (at_ p 0) 8) (at_ p 1)) mod 2 ^ 16, drop 2 p).

Definition CborReadBE32 (p : list Z) : cbor (Z * list Z) :=
  _ ← CborNeed p 4;
  Ok (Z.lor (Z.lor (Z.lor (Z.shiftl (at_ p 0) 24) (Z.shiftl (at_ p 1) 16)) (Z.shiftl (at_ p 2) 8)) (at_ p 3), drop 4 p).

Definition CborReadBE64 (p : list Z) : cbor (Z * list Z) :=
  _ ← CborNeed p 8;
  Ok (Z.lor (Z.lor (Z.lor (Z.lor (Z.lor (Z.lor (Z.lor (Z.shiftl (at_ p 0) 56) (Z.shiftl (at_ p 1) 48)) (Z.shiftl (at_ p 2) 40)) (Z.shiftl (at_ p 3) 32))
        (Z.shiftl (at_ p 4) 24)) (Z.shiftl (at_ p 5) 16)) (Z.shiftl (at_ p 6) 8)) (at_ p 7), drop 8 p).

Definition CborReadArg (ai : Z) (p : list Z) : cbor (Z * list Z) :=
  if ai <? 24 then Ok (ai, p)
  else if ai =? 24 then CborReadU8 p
  else if ai =? 25 then CborReadBE16 p
  else if ai =? 26 then CborReadBE32 p
  else if ai =? 27 then CborReadBE64 p
  else Error (if ai =? 31 then "CBOR indefinite-length items not supported" else "CBOR invalid additional-info").

Definition hex_chars : list Z := bytes "0123456789abcdef".

(** [Ns_HexString] with lower-case digits. *)
Definition Ns_HexString (octets : list Z) : list Z :=
  concat ((fun c => [nth (Z.to_nat (Z.shiftr c 4)) hex_chars 0; nth (Z.to_nat (Z.land c 0xF)) hex_chars 0]) <$> octets).

Definition NsEncodedObj (octets : list Z) (encoding : Ns_BinaryEncoding) : Tcl_Obj :=
  match encoding with
  | NS_OBJ_ENCODING_BINARY => ByteArray octets
  | NS_OBJ_ENCODING_BASE64URL => StringObj (Ns_HtuuEncode2 octets 1)
  | NS_OBJ_ENCODING_BASE64 => StringObj (Ns_HtuuEncode2 octets 0)
  | NS_OBJ_ENCODING_HEX => StringObj (Ns_HexString octets)
  end.

(** The length the caller asks for, as the size type of Tcl, an [int] before Tcl 9. *)
Definition NsEncodedObjScratchSize (encoding : Ns_BinaryEncoding) (octetLength : Z) : Z :=
  match encoding with
  | NS_OBJ_ENCODING_BINARY => c_int octetLength
  | NS_OBJ_ENCODING_BASE64URL | NS_OBJ_ENCODING_BASE64 => c_int (4 * ((octetLength + 2) / 3) + 1)
  | NS_OBJ_ENCODING_HEX => c_int (2 * octetLength + 1)
  end.

Section decoder.
Context (Tcl_GetString : Tcl_Obj -> list Z).

(** Tcl's [Tcl_DictObjPut]: keys are equal when their strings are. *)
Fixpoint Tcl_DictObjPut (d : list (Tcl_Obj * Tcl_Obj)) (k v : Tcl_Obj) : list (Tcl_Obj * Tcl_Obj) :=
  match d with
  | [] => [(k, v)]
  | (k', v') :: d => if bool_decide (Tcl_GetString k' = Tcl_GetString k) then (k', v) :: d else (k', v') :: Tcl_DictObjPut d k v
  end.

(** [Tcl_NewByteArrayObj] and [Tcl_NewStringObj] of [len] bytes at [p]; a negative length
    reads up to a null byte, which may be behind the buffer. *)
Definition new_obj (make : list Z -> Tcl_Obj) (p : list Z) (len : Z) : cbor Tcl_Obj :=
  if len <? 0 then Overrun else Ok (make (take (Z.to_nat len) p)).

Context (space : Z -> Z).

(** The length of what [NsEncodedObj] writes to the scratch space, with the NUL. *)
Definition written (octets : list Z) (encoding : Ns_BinaryEncoding) : Z :=
  match NsEncodedObj octets encoding with StringObj text => Z.of_nat (length text) + 1 | _ => 0 end.

(** [Tcl_DStringSetLength] takes a negative length for 0. *)
Definition CborMakeBstrObj (p : list Z) (len : Z) (encoding : Ns_BinaryEncoding) : cbor Tcl_Obj :=
  match encoding with
  | NS_OBJ_ENCODING_BINARY => new_obj ByteArray p (c_int len)
  | _ =>
      let need := NsEncodedObjScratchSize encoding len in
      let octets := take (Z.to_nat len) p in
      if written octets encoding <=? space (Z.max 0 need) then Ok (NsEncodedObj octets encoding) else Overrun
  end.

Context (encoding : Ns_BinaryEncoding).

Fixpoint CborDecodeAny (fuel : nat) (depth : Z) (p : list Z) : cbor (Tcl_Obj * list Z) :=
  match fuel with
  | O => NoFuel
  | S fuel =>
      if CBOR_MAX_DEPTH <? depth then Error "CBOR nesting too deep"
      else
        '(ib, p) ← CborReadU8 p;
        let major := Z.shiftr ib 5 in
        let ai := Z.land ib 0x1F in
        if major =? 0 then
          '(arg, p) ← CborReadArg ai p;
          if WIDE_INT_MAX <? arg then Error "CBOR integer too large for Tcl wide int" else Ok (WideInt arg, p)
        else if major =? 1 then
          '(arg, p) ← CborReadArg ai p;
          if WIDE_INT_MAX <? arg then Error "CBOR negative integer too small for Tcl wide int" else Ok (WideInt (-1 - arg), p)
        else if major =? 2 then
          '(arg, p) ← CborReadArg ai p;
          _ ← CborNeed p arg;
          o ← CborMakeBstrObj p arg encoding;
          Ok (o, drop (Z.to_nat arg) p)
        else if major =? 3 then
          '(arg, p) ← CborReadArg ai p;
          _ ← CborNeed p arg;
          o ← new_obj StringObj p (c_int arg);
          Ok (o, drop (Z.to_nat arg) p)
        else if major =? 4 then
          '(arg, p) ← CborReadArg ai p;
          '(l, p) ← array_loop fuel depth arg 0 [] p;
          Ok (ListObj l, p)
        else if major =? 5 then
          '(arg, p) ← CborReadArg ai p;
          '(d, p) ← map_loop fuel depth arg 0 [] p;
          Ok (DictObj d, p)
        else if major =? 6 then Error "CBOR tags not supported"
        else if major =? 7 then
          if ai =? 20 then Ok (BooleanObj false, p)
          else if ai =? 21 then Ok (BooleanObj true, p)
          else if ai =? 22 then Ok (EmptyObj, p)
          else if ai =? 23 then Ok (EmptyObj, p)
          else Error "CBOR simple/float value not supported"
        else Error "CBOR invalid major type"
  end
with array_loop (fuel : nat) (depth arg i : Z) (listObj : list Tcl_Obj) (p : list Z) : cbor (list Tcl_Obj * list Z) :=
  match fuel with
  | O => NoFuel
  | S fuel =>
      if i <? arg then
        '(elem, p) ← CborDecodeAny fuel (depth + 1) p;
        array_loop fuel depth arg (i + 1) (listObj ++ [elem]) p
      else Ok (listObj, p)
  end
with map_loop (fuel : nat) (depth arg i : Z) (dictObj : list (Tcl_Obj * Tcl_Obj)) (p : list Z) : cbor (list (Tcl_Obj * Tcl_Obj) * list Z) :=
  match fuel with
  | O => NoFuel
  | S fuel =>
      if i <? arg then
        '(k, p) ← CborDecodeAny fuel (depth + 1) p;
        '(v, p) ← CborDecodeAny fuel (depth + 1) p;
        map_loop fuel depth arg (i + 1) (Tcl_DictObjPut dictObj k v) p
      else Ok (dictObj, p)
  end.

(** "ns_cbor parse": the value and, for -scan, the number of bytes consumed. *)
Definition CborParseObjCmd (start : list Z) : cbor (Tcl_Obj * Z) :=
  '(o, p) ← CborDecodeAny (2 * length start + 1) 0 start;
  Ok (o, Z.of_nat (length start) - Z.of_nat (length p)).
End decoder.

(** ** The specification: data items and their encodings *)

Inductive item :=
| IInt (z : Z) | IBytes (b : list Z) | IText (b : list Z) | IArray (l : list item) | IMap (l : list (item * item))
| IFalse | ITrue | INull | IUndefined.

(** The number of big-endian bytes. *)
Definition beval (l : list Z) : Z := fold_left (fun acc c => acc * 256 + c) l 0.

(** The first byte with the major type, and the bytes of the argument. *)
Inductive head (major arg : Z) : list Z -> Prop :=
| head_direct : 0 <= arg < 24 -> head major arg [32 * major + arg]
| head_bytes k l : 0 <= k < 4 -> is_bytes l -> Z.of_nat (length l) = 2 ^ k -> arg = beval l -> head major arg ((32 * major + 24 + k) :: l).

(** [encodes fits d i e]: the bytes [e] are an encoding of [i], whose items are nested up to [d]
    and whose byte strings are all of the kind [fits]. *)
Inductive encodes (fits : list Z -> Prop) : nat -> item -> list Z -> Prop :=
| enc_uint d n h : n <= WIDE_INT_MAX -> head 0 n h -> encodes fits d (IInt n) h
| enc_nint d n h : n <= WIDE_INT_MAX -> head 1 n h -> encodes fits d (IInt (-1 - n)) h
| enc_bytes d b h : fits b -> head 2 (Z.of_nat (length b)) h -> encodes fits d (IBytes b) (h ++ b)
| enc_text d b h : head 3 (Z.of_nat (length b)) h -> encodes fits d (IText b) (h ++ b)
| enc_array d l h e : head 4 (Z.of_nat (length l)) h -> encodes_all fits d l e -> encodes fits d (IArray l) (h ++ e)
| enc_map d l h e : head 5 (Z.of_nat (length l)) h -> encodes_pairs fits d l e -> encodes fits d (IMap l) (h ++ e)
| enc_false d : encodes fits d IFalse [0xf4]
| enc_true d : encodes fits d ITrue [0xf5]
| enc_null d : encodes fits d INull [0xf6]
| enc_undefined d : encodes fits d IUndefined [0xf7]
with encodes_all (fits : list Z -> Prop) : nat -> list item -> list Z -> Prop :=
| all_nil d : encodes_all fits d [] []
| all_cons d i l a e : encodes fits d i a -> encodes_all fits (S d) l e -> encodes_all fits (S d) (i :: l) (a ++ e)
with encodes_pairs (fits : list Z -> Prop) : nat -> list (item * item) -> list Z -> Prop :=
| pairs_nil d : encodes_pairs fits d [] []
| pairs_cons d k v l a b e : encodes fits d k a -> encodes fits d v b -> encodes_pairs fits (S d) l e -> encodes_pairs fits (S d) ((k, v) :: l) (a ++ b ++ e).

Scheme encodes_mut := Minimality for encodes Sort Prop
  with encodes_all_mut := Minimality for encodes_all Sort Prop
  with encodes_pairs_mut := Minimality for encodes_pairs Sort Prop.
Combined Scheme encodes_ind3 from encodes_mut, encodes_all_mut, encodes_pairs_mut.

(** The Tcl value of an item. *)
Fixpoint obj_of (str : Tcl_Obj -> list Z) (encoding : Ns_BinaryEncoding) (i : item) : Tcl_Obj :=
  match i with
  | IInt z => WideInt z
  | IBytes b => NsEncodedObj b encoding
  | IText b => StringObj b
  | IArray l => ListObj (obj_of str encoding <$> l)
  | IMap l => DictObj (fold_left (fun d kv => match kv with (k, v) => Tcl_DictObjPut str d (obj_of str encoding k) (obj_of str encoding v) end) l [])
  | IFalse => BooleanObj false
  | ITrue => BooleanObj true
  | INull | IUndefined => EmptyObj
  end.

(** ** Reading numbers *)

Lemma lor_disjoint a b k : 0 <= k -> 0 <= b < 2 ^ k -> Z.lor (a * 2 ^ k) b = a * 2 ^ k + b.
Proof.
  intros Hk Hb. symmetry. apply Z.add_nocarry_lor, Z.bits_inj'. intros i Hi. rewrite Z.land_spec, Z.bits_0. destruct (Z.lt_ge_cases i k) as [Hlt|Hge].
  - by rewrite Z.mul_pow2_bits_low by lia.
  - destruct (Z.eq_dec b 0) as [->|Hb0]; [by rewrite Z.bits_0, andb_false_r|].
    rewrite (Z.bits_above_log2 b i), andb_false_r; [done|lia|]. apply Z.log2_lt_pow2; [lia|].
    eapply Z.lt_le_trans; [apply Hb|]. apply Z.pow_le_mono_r; lia.
Qed.

(** A byte more to the right: the bytes so far are shifted, a smaller part follows. *)
Lemma lor_shiftl a b k j : 0 <= j <= k -> is_byte b -> k = j + 8 -> Z.lor (Z.shiftl a k) (Z.shiftl b j) = Z.shiftl (a * 256 + b) j.
Proof.
  intros Hj [Hb0 Hb1] ->. rewrite !Z.shiftl_mul_pow2 by lia.
  assert (Hs : b * 2 ^ j < 2 ^ (j + 8)) by (rewrite Z.pow_add_r by lia; pose proof (Z.pow_pos_nonneg 2 j); nia).
  rewrite lor_disjoint; [|lia|split; [apply Z.mul_nonneg_nonneg; [done|apply Z.pow_nonneg; lia]|done]]. rewrite Z.pow_add_r by lia. change (2 ^ 8) with 256. lia.
Qed.

Lemma lor_last a b : is_byte b -> Z.lor (Z.shiftl a 8) b = a * 256 + b.
Proof. intros Hb. rewrite <- (Z.shiftl_0_r b) at 1. rewrite (lor_shiftl a b 8 0) by (done || lia). apply Z.shiftl_0_r. Qed.

(** Reading [n] bytes as a number. *)
Definition reads (n : nat) (p : list Z) : cbor (Z * list Z) :=
  if (length p <? n)%nat then Error "CBOR truncated input" else Ok (beval (take n p), drop n p).

(** The cases of a list of at least [n] bytes. *)
Ltac peel p Hp := destruct p as [|? p]; [done|apply Forall_cons in Hp as [? Hp]].

Lemma U8_reads p : is_bytes p -> CborReadU8 p = reads 1 p.
Proof.
  intros Hp. peel p Hp. unfold CborReadU8, reads, CborNeed. cbn [length]. rewrite (proj2 (Z.ltb_ge _ _)), (proj2 (Nat.ltb_ge _ _)) by lia. done.
Qed.

Lemma BE16_reads p : is_bytes p -> CborReadBE16 p = reads 2 p.
Proof.
  intros Hp. do 2 peel p Hp. unfold CborReadBE16, reads, CborNeed. cbn [length]. rewrite (proj2 (Z.ltb_ge _ _)), (proj2 (Nat.ltb_ge _ _)) by lia.
  cbn [mbind cbor_bind at_ nth take drop beval fold_left]. rewrite lor_last by done. unfold is_byte in *. rewrite Z.mod_small by lia. done.
Qed.

Lemma BE32_reads p : is_bytes p -> CborReadBE32 p = reads 4 p.
Proof.
  intros Hp. do 4 peel p Hp. unfold CborReadBE32, reads, CborNeed. cbn [length]. rewrite (proj2 (Z.ltb_ge _ _)), (proj2 (Nat.ltb_ge _ _)) by lia.
  cbn [mbind cbor_bind at_ nth take drop beval fold_left]. rewrite (lor_shiftl _ _ 24 16), (lor_shiftl _ _ 16 8), lor_last by (done || lia). done.
Qed.

Lemma BE64_reads p : is_bytes p -> CborReadBE64 p = reads 8 p.
Proof.
  intros Hp. do 8 peel p Hp. unfold CborReadBE64, reads, CborNeed. cbn [length]. rewrite (proj2 (Z.ltb_ge _ _)), (proj2 (Nat.ltb_ge _ _)) by lia.
  cbn [mbind cbor_bind at_ nth take drop beval fold_left].
  rewrite (lor_shiftl _ _ 56 48), (lor_shiftl _ _ 48 40), (lor_shiftl _ _ 40 32), (lor_shiftl _ _ 32 24), (lor_shiftl _ _ 24 16), (lor_shiftl _ _ 16 8), lor_last by (done || lia). done.
Qed.

(** An argument is direct, or read from 1, 2, 4 or 8 bytes. *)
Lemma ReadArg_cases ai p : 0 <= ai < 32 -> is_bytes p ->
  (ai < 24 /\ CborReadArg ai p = Ok (ai, p)) \/
  (exists k, 0 <= k < 4 /\ ai = 24 + k /\ CborReadArg ai p = reads (Z.to_nat (2 ^ k)) p) \/
  (27 < ai /\ exists e, CborReadArg ai p = Error e).
Proof.
  intros Hai Hp. unfold CborReadArg. destruct (Z.ltb_spec ai 24); [by left|]. right.
  destruct (Z.eqb_spec ai 24); [left; exists 0; by rewrite U8_reads|]. destruct (Z.eqb_spec ai 25); [left; exists 1; by rewrite BE16_reads|].
  destruct (Z.eqb_spec ai 26); [left; exists 2; by rewrite BE32_reads|]. destruct (Z.eqb_spec ai 27); [left; exists 3; by rewrite BE64_reads|].
  right. split; [lia|by eexists].
Qed.

Lemma ReadArg_ends ai p : 0 <= ai < 32 -> is_bytes p -> (exists r, CborReadArg ai p = Ok r) \/ (exists e, CborReadArg ai p = Error e).
Proof.
  intros Hai Hp. destruct (ReadArg_cases ai p Hai Hp) as [[_ ->]|[(k & _ & _ & ->)|[_ [e ->]]]]; eauto. unfold reads. destruct (_ <? _)%nat; eauto.
Qed.

Lemma first_byte major ai : 0 <= ai < 32 -> Z.shiftr (32 * major + ai) 5 = major /\ Z.land (32 * major + ai) 0x1F = ai.
Proof.
  intros Hai. rewrite Z.shiftr_div_pow2 by lia. change 0x1F with (Z.ones 5). rewrite Z.land_ones by lia. change (2 ^ 5) with 32. split.
  - rewrite Z.mul_comm, Z.div_add_l, Z.div_small; lia.
  - rewrite Z.mul_comm, Z.add_comm, Z.mod_add, Z.mod_small; lia.
Qed.

Lemma split_byte ib : is_byte ib -> ib = 32 * Z.shiftr ib 5 + Z.land ib 0x1F /\ 0 <= Z.land ib 0x1F < 32 /\ 0 <= Z.shiftr ib 5 < 8.
Proof.
  intros [H0 H1]. rewrite Z.shiftr_div_pow2 by lia. change 0x1F with (Z.ones 5). rewrite Z.land_ones by lia. change (2 ^ 5) with 32.
  pose proof (Z.div_mod ib 32 ltac:(lia)). pose proof (Z.mod_pos_bound ib 32 ltac:(lia)). split_and!; lia.
Qed.

Lemma reads_app l rest : reads (length l) (l ++ rest) = Ok (beval l, rest).
Proof. unfold reads. rewrite (proj2 (Nat.ltb_ge _ _)) by (rewrite length_app; lia). by rewrite take_app_length, drop_app_length. Qed.

Lemma U8_cons c p : CborReadU8 (c :: p) = Ok (c, p).
Proof. unfold CborReadU8, CborNeed. cbn [length]. rewrite (proj2 (Z.ltb_ge _ _)) by lia. done. Qed.

(** A head is read back. *)
Lemma head_read major arg h rest : head major arg h -> is_bytes rest ->
  exists ib t, h = ib :: t /\ Z.shiftr ib 5 = major /\ CborReadU8 (h ++ rest) = Ok (ib, t ++ rest) /\ CborReadArg (Z.land ib 0x1F) (t ++ rest) = Ok (arg, rest).
Proof.
  intros Hh Hr. destruct Hh as [Ha|k l Hk Hl Hlen ->].
  - destruct (first_byte major arg) as [E1 E2]; [lia|]. eexists _, []. split_and!; [done|done|apply U8_cons|]. rewrite E2. unfold CborReadArg. by rewrite (proj2 (Z.ltb_lt _ _)) by lia.
  - rewrite <- Z.add_assoc. destruct (first_byte major (24 + k)) as [E1 E2]; [lia|]. eexists _, l. split_and!; [done|done|apply U8_cons|]. rewrite E2.
    assert (Hp : is_bytes (l ++ rest)) by (by apply Forall_app).
    destruct (ReadArg_cases (24 + k) (l ++ rest) ltac:(lia) Hp) as [[? _]|[(k' & Hk' & Ek & ->)|[? _]]]; [lia| |lia].
    assert (k' = k) as -> by lia. rewrite <- Hlen, Nat2Z.id. apply reads_app.
Qed.

(** What is read is a head. *)
Lemma read_head p ib p1 arg p2 : is_bytes p -> CborReadU8 p = Ok (ib, p1) -> CborReadArg (Z.land ib 0x1F) p1 = Ok (arg, p2) ->
  exists h, p = h ++ p2 /\ head (Z.shiftr ib 5) arg h.
Proof.
  intros Hp H1 H2. destruct p as [|c p]; [done|]. rewrite U8_cons in H1. injection H1 as <- <-. apply Forall_cons in Hp as [Hc Hp].
  destruct (split_byte c Hc) as (Ec & Hai & _).
  destruct (ReadArg_cases (Z.land c 31) p Hai Hp) as [[Hlt E]|[(k & Hk & Ek & E)|[_ [e E]]]]; rewrite E in H2; [| |done].
  - injection H2 as <- <-. exists [c]. split; [done|]. pose proof (head_direct (Z.shiftr c 5) (Z.land c 31) ltac:(lia)) as Hd. by rewrite <- Ec in Hd.
  - unfold reads in H2. destruct (Nat.ltb_spec (length p) (Z.to_nat (2 ^ k))); [done|]. injection H2 as <- <-.
    exists (c :: take (Z.to_nat (2 ^ k)) p). split; [cbn; by rewrite take_drop|].
    assert (Hd : head (Z.shiftr c 5) (beval (take (Z.to_nat (2 ^ k)) p)) ((32 * Z.shiftr c 5 + 24 + k) :: take (Z.to_nat (2 ^ k)) p)).
    { constructor; [done|by apply Forall_take| |done]. rewrite length_take_le by done. rewrite Z2Nat.id; [done|apply Z.pow_nonneg; lia]. }
    by rewrite <- Z.add_assoc, <- Ek, <- Ec in Hd.
Qed.

Lemma head_nonempty major arg h : head major arg h -> (1 <= length h)%nat.
Proof. by destruct 1; cbn; lia. Qed.

Lemma head_bytes_ok major arg h : 0 <= major < 8 -> head major arg h -> is_bytes h /\ 0 <= arg.
Proof.
  intros Hm [Ha|k l Hk Hl _ ->]; (split; [constructor; [unfold is_byte; lia|first [constructor|done]]|]); [lia|].
  unfold beval. enough (Hf : forall acc, 0 <= acc -> 0 <= fold_left (fun acc c => acc * 256 + c) l acc) by (by apply Hf). induction Hl as [|c l [Hc _] _ IH]; intros acc Hacc; [exact Hacc|]. cbn [fold_left]. apply IH. lia.
Qed.

Lemma need_app b rest : CborNeed (b ++ rest) (Z.of_nat (length b)) = Ok tt.
Proof. unfold CborNeed. rewrite length_app, (proj2 (Z.ltb_ge _ _)) by lia. done. Qed.

(** A byte string whose text fits the space. *)
Definition fits_in (space : Z -> Z) (encoding : Ns_BinaryEncoding) (b : list Z) : Prop :=
  match encoding with
  | NS_OBJ_ENCODING_BINARY => True
  | _ => written b encoding <= space (Z.max 0 (NsEncodedObjScratchSize encoding (Z.of_nat (length b))))
  end.

Section exact.
Context (str : Tcl_Obj -> list Z) (space : Z -> Z) (encoding : Ns_BinaryEncoding).

Notation decode := (CborDecodeAny str space encoding).
Notation arrays := (array_loop str space encoding).
Notation maps := (map_loop str space encoding).
Notation obj := (obj_of str encoding).

Notation fits := (fits_in space encoding).

Definition put (d : list (Tcl_Obj * Tcl_Obj)) (kv : item * item) : list (Tcl_Obj * Tcl_Obj) := Tcl_DictObjPut str d (obj kv.1) (obj kv.2).

Lemma obj_map l : obj (IMap l) = DictObj (fold_left put l []).
Proof. cbn. f_equal. generalize (@nil (Tcl_Obj * Tcl_Obj)). induction l as [|[k v] l IH]; intros d; [done|]. cbn. apply IH. Qed.

(** The decoder after a head. *)
Lemma decode_head fuel depth major arg h rest : head major arg h -> is_bytes rest -> depth <= CBOR_MAX_DEPTH -> 0 <= major < 6 ->
  decode (S fuel) depth (h ++ rest) =
  if major =? 0 then if WIDE_INT_MAX <? arg then Error "CBOR integer too large for Tcl wide int" else Ok (WideInt arg, rest)
  else if major =? 1 then if WIDE_INT_MAX <? arg then Error "CBOR negative integer too small for Tcl wide int" else Ok (WideInt (-1 - arg), rest)
  else if major =? 2 then _ ← CborNeed rest arg; o ← CborMakeBstrObj space rest arg encoding; Ok (o, drop (Z.to_nat arg) rest)
  else if major =? 3 then _ ← CborNeed rest arg; o ← new_obj StringObj rest (c_int arg); Ok (o, drop (Z.to_nat arg) rest)
  else if major =? 4 then '(l, p) ← arrays fuel depth arg 0 [] rest; Ok (ListObj l, p)
  else '(d, p) ← maps fuel depth arg 0 [] rest; Ok (DictObj d, p).
Proof.
  intros Hh Hr Hd Hm. destruct (head_read major arg h rest Hh Hr) as (ib & t & Eh & Em & E1 & E2).
  cbn [CborDecodeAny]. rewrite (proj2 (Z.ltb_ge _ _)) by done. rewrite E1. cbn [mbind cbor_bind]. rewrite Em, E2. cbn [mbind cbor_bind].
  destruct (Z.eqb_spec major 0); [done|]. destruct (Z.eqb_spec major 1); [done|]. destruct (Z.eqb_spec major 2); [done|]. destruct (Z.eqb_spec major 3); [done|].
  destruct (Z.eqb_spec major 4); [done|]. destruct (Z.eqb_spec major 5); [done|]. lia.
Qed.

(** *** Encodings are accepted *)

Lemma bstr_cases b rest : (Z.of_nat (length b) < 2 ^ 31) ->
  (fits b /\ CborMakeBstrObj space (b ++ rest) (Z.of_nat (length b)) encoding = Ok (NsEncodedObj b encoding)) \/
  (~ fits b /\ CborMakeBstrObj space (b ++ rest) (Z.of_nat (length b)) encoding = Overrun).
Proof.
  intros Hl. unfold CborMakeBstrObj, new_obj, fits, fits_in. destruct encoding; rewrite ?c_int_id, ?Nat2Z.id, ?take_app_length by lia.
  4: { left. split; [done|]. by rewrite (proj2 (Z.ltb_ge _ _)) by lia. }
  all: match goal with |- context [?x <=? ?y] => destruct (Z.leb_spec x y) end; [by left|right]; (split; [lia|done]).
Qed.

Lemma bstr_ok b rest : fits b -> (Z.of_nat (length b) < 2 ^ 31) -> CborMakeBstrObj space (b ++ rest) (Z.of_nat (length b)) encoding = Ok (NsEncodedObj b encoding).
Proof. intros Hf Hl. by destruct (bstr_cases b rest Hl) as [[_ E]|[Hn _]]. Qed.

Lemma text_ok b rest : (Z.of_nat (length b) < 2 ^ 31) -> new_obj StringObj (b ++ rest) (c_int (Z.of_nat (length b))) = Ok (StringObj b).
Proof. intros Hl. unfold new_obj. rewrite c_int_id by lia. rewrite (proj2 (Z.ltb_ge _ _)) by lia. by rewrite Nat2Z.id, take_app_length. Qed.

Lemma encodes_nonempty d i e : encodes fits d i e -> (1 <= length e)%nat.
Proof. destruct 1; rewrite ?length_app; repeat match goal with H : head _ _ _ |- _ => apply head_nonempty in H end; cbn [length] in *; lia. Qed.

Definition accepted (d : nat) (i : item) (e : list Z) : Prop := forall fuel depth rest, (2 * length e + 1 <= fuel)%nat -> depth + Z.of_nat d <= CBOR_MAX_DEPTH ->
  Z.of_nat (length e) < 2 ^ 31 -> is_bytes (e ++ rest) -> decode fuel depth (e ++ rest) = Ok (obj i, rest).

Definition accepted_all (d : nat) (l : list item) (e : list Z) : Prop := forall fuel depth rest acc i, (2 * length e + 2 <= fuel)%nat -> depth + Z.of_nat d <= CBOR_MAX_DEPTH ->
  Z.of_nat (length e) < 2 ^ 31 -> is_bytes (e ++ rest) -> arrays fuel depth (i + Z.of_nat (length l)) i acc (e ++ rest) = Ok (acc ++ (obj <$> l), rest).

Definition accepted_pairs (d : nat) (l : list (item * item)) (e : list Z) : Prop := forall fuel depth rest acc i, (2 * length e + 2 <= fuel)%nat ->
  depth + Z.of_nat d <= CBOR_MAX_DEPTH -> Z.of_nat (length e) < 2 ^ 31 -> is_bytes (e ++ rest) ->
  maps fuel depth (i + Z.of_nat (length l)) i acc (e ++ rest) = Ok (fold_left put l acc, rest).

Lemma arrays_S fuel depth arg i acc p : arrays (S fuel) depth arg i acc p =
  if i <? arg then '(elem, p) ← decode fuel (depth + 1) p; arrays fuel depth arg (i + 1) (acc ++ [elem]) p else Ok (acc, p).
Proof. reflexivity. Qed.

Lemma maps_S fuel depth arg i acc p : maps (S fuel) depth arg i acc p =
  if i <? arg then '(k, p) ← decode fuel (depth + 1) p; '(v, p) ← decode fuel (depth + 1) p; maps fuel depth arg (i + 1) (Tcl_DictObjPut str acc k v) p else Ok (acc, p).
Proof. reflexivity. Qed.

(** With a head first, for each major type. *)
Ltac by_head := intros fuel depth rest Hf Hd Hl Hb; (destruct fuel as [|fuel]; [lia|]); rewrite <- ?app_assoc in *;
  (erewrite decode_head; [|eassumption|(apply Forall_app in Hb; apply Hb)|lia|lia]); cbn [Z.eqb Pos.eqb].

Ltac by_simple := intros d [|fuel] depth rest Hf Hd Hl Hb; [lia|]; cbn [CborDecodeAny app]; rewrite (proj2 (Z.ltb_ge _ _)), U8_cons by lia; done.

Lemma all_accepted :
  (forall d i e, encodes fits d i e -> accepted d i e) /\ (forall d l e, encodes_all fits d l e -> accepted_all d l e) /\ (forall d l e, encodes_pairs fits d l e -> accepted_pairs d l e).
Proof.
  apply encodes_ind3; unfold accepted, accepted_all, accepted_pairs.
  - intros d n h Hn Hh. by_head. rewrite (proj2 (Z.ltb_ge _ _)) by done. done.
  - intros d n h Hn Hh. by_head. rewrite (proj2 (Z.ltb_ge _ _)) by done. done.
  - intros d b h Hfit Hh. by_head. rewrite need_app. rewrite length_app in Hl. cbn [mbind cbor_bind]. rewrite bstr_ok by (done || lia). cbn [mbind cbor_bind]. by rewrite Nat2Z.id, drop_app_length.
  - intros d b h Hh. by_head. rewrite need_app. rewrite length_app in Hl. cbn [mbind cbor_bind]. rewrite text_ok by lia. cbn [mbind cbor_bind]. by rewrite Nat2Z.id, drop_app_length.
  - intros d l h e Hh He IH. pose proof (head_nonempty _ _ _ Hh). by_head. rewrite length_app in *. apply Forall_app in Hb as [_ Hb].
    rewrite <- (Z.add_0_l (Z.of_nat (length l))), IH by (done || lia). done.
  - intros d l h e Hh He IH. pose proof (head_nonempty _ _ _ Hh). by_head. rewrite length_app in *. apply Forall_app in Hb as [_ Hb].
    rewrite <- (Z.add_0_l (Z.of_nat (length l))), IH by (done || lia). cbn [mbind cbor_bind]. by rewrite obj_map.
  - by_simple.
  - by_simple.
  - by_simple.
  - by_simple.
  - intros d [|fuel] depth rest acc i Hf Hd Hl Hb; [lia|]. rewrite arrays_S. cbn [length]. rewrite (proj2 (Z.ltb_ge _ _)) by lia. cbn. by rewrite app_nil_r.
  - intros d x l a e Hx IHx Hl' IHl [|fuel] depth rest acc i Hf Hd Hl Hb; [lia|]. pose proof (encodes_nonempty _ _ _ Hx). rewrite length_app in *. rewrite <- app_assoc in *.
    rewrite arrays_S. cbn [length]. rewrite (proj2 (Z.ltb_lt _ _)) by lia. rewrite IHx by (done || lia). cbn [mbind cbor_bind].
    replace (i + Z.of_nat (S (length l))) with (i + 1 + Z.of_nat (length l)) by lia. apply Forall_app in Hb as [_ Hb].
    rewrite IHl by (done || lia). cbn. by rewrite <- app_assoc.
  - intros d [|fuel] depth rest acc i Hf Hd Hl Hb; [lia|]. rewrite maps_S. cbn [length]. rewrite (proj2 (Z.ltb_ge _ _)) by lia. done.
  - intros d k v l a b e Hk IHk Hv IHv Hl' IHl [|fuel] depth rest acc i Hf Hd Hl Hb; [lia|]. pose proof (encodes_nonempty _ _ _ Hk). pose proof (encodes_nonempty _ _ _ Hv).
    rewrite !length_app in *. rewrite <- !app_assoc in *. rewrite maps_S. cbn [length]. rewrite (proj2 (Z.ltb_lt _ _)) by lia. rewrite IHk by (done || lia). cbn [mbind cbor_bind].
    apply Forall_app in Hb as [_ Hb]. rewrite IHv by (done || lia). cbn [mbind cbor_bind].
    replace (i + Z.of_nat (S (length l))) with (i + 1 + Z.of_nat (length l)) by lia. apply Forall_app in Hb as [_ Hb]. rewrite IHl by (done || lia). done.
Qed.

(** *** What is accepted is an encoding *)

(** The decoder fails, or reads a head, or reads a simple value. *)
Lemma decode_cases fuel depth p : is_bytes p ->
  (exists e, decode (S fuel) depth p = Error e) \/
  (depth <= CBOR_MAX_DEPTH /\ exists major arg h rest, p = h ++ rest /\ head major arg h /\ 0 <= major < 6) \/
  (depth <= CBOR_MAX_DEPTH /\ exists c i rest, p = c :: rest /\ decode (S fuel) depth p = Ok (obj i, rest) /\ forall d, encodes fits d i [c]).
Proof.
  intros Hp. cbn [CborDecodeAny]. destruct (Z.ltb_spec CBOR_MAX_DEPTH depth); [left; by eexists|]. destruct p as [|c p]; [left; by eexists|].
  rewrite U8_cons. cbn [mbind cbor_bind]. pose proof Hp as [Hc Hp']%Forall_cons. destruct (split_byte c Hc) as (Ec & Hai & Hm).
  destruct (Z.lt_ge_cases (Z.shiftr c 5) 6) as [Hlt|Hge].
  - destruct (ReadArg_ends _ p Hai Hp') as [[[arg rest] Ea]|[e Ea]]; rewrite Ea.
    + right. left. split; [done|]. destruct (read_head (c :: p) c p arg rest Hp (U8_cons c p) Ea) as (h & Eh & Hh). eexists _, arg, h, rest. split; [done|]. split; [done|lia].
    + left. exists e. zcases; try done; lia.
  - repeat (rewrite (proj2 (Z.eqb_neq (Z.shiftr c 5) _)) by lia). destruct (Z.eqb_spec (Z.shiftr c 5) 6); [left; by eexists|].
    assert (E7 : Z.shiftr c 5 = 7) by lia. rewrite E7 in *. cbn [Z.eqb Pos.eqb].
    destruct (Z.eqb_spec (Z.land c 31) 20) as [E|]; [right; right; split; [done|]; exists c, IFalse, p; rewrite Ec, E; repeat (split; [done|]); constructor|].
    destruct (Z.eqb_spec (Z.land c 31) 21) as [E|]; [right; right; split; [done|]; exists c, ITrue, p; rewrite Ec, E; repeat (split; [done|]); constructor|].
    destruct (Z.eqb_spec (Z.land c 31) 22) as [E|]; [right; right; split; [done|]; exists c, INull, p; rewrite Ec, E; repeat (split; [done|]); constructor|].
    destruct (Z.eqb_spec (Z.land c 31) 23) as [E|]; [right; right; split; [done|]; exists c, IUndefined, p; rewrite Ec, E; repeat (split; [done|]); constructor|].
    left. by eexists.
Qed.

Lemma need_ok p arg : 0 <= arg -> CborNeed p arg = Ok tt -> exists b rest, p = b ++ rest /\ arg = Z.of_nat (length b).
Proof.
  intros Ha. unfold CborNeed. destruct (Z.ltb_spec (Z.of_nat (length p)) arg); [done|]. intros _. exists (take (Z.to_nat arg) p), (drop (Z.to_nat arg) p).
  split; [by rewrite take_drop|]. rewrite length_take_le; lia.
Qed.

(** Nested items may go as deep as is left. *)
Definition left_ (depth : Z) : nat := Z.to_nat (CBOR_MAX_DEPTH - depth).

Definition sound (fuel : nat) : Prop := forall depth p o rest, decode fuel depth p = Ok (o, rest) -> 0 <= depth -> is_bytes p -> Z.of_nat (length p) < 2 ^ 31 ->
  depth <= CBOR_MAX_DEPTH /\ exists i e, p = e ++ rest /\ encodes fits (left_ depth) i e /\ o = obj i.

Definition sound_all (fuel : nat) : Prop := forall depth arg i acc p l' rest, arrays fuel depth arg i acc p = Ok (l', rest) -> 0 <= depth -> i <= arg ->
  is_bytes p -> Z.of_nat (length p) < 2 ^ 31 ->
  exists l e, p = e ++ rest /\ i + Z.of_nat (length l) = arg /\ encodes_all fits (left_ depth) l e /\ l' = acc ++ (obj <$> l).

Definition sound_pairs (fuel : nat) : Prop := forall depth arg i acc p d' rest, maps fuel depth arg i acc p = Ok (d', rest) -> 0 <= depth -> i <= arg ->
  is_bytes p -> Z.of_nat (length p) < 2 ^ 31 ->
  exists l e, p = e ++ rest /\ i + Z.of_nat (length l) = arg /\ encodes_pairs fits (left_ depth) l e /\ d' = fold_left put l acc.

Lemma sound_step fuel : sound_all fuel -> sound_pairs fuel -> sound (S fuel).
Proof.
  intros IHa IHm depth p o rest E Hd Hp Hlen. destruct (decode_cases fuel depth p Hp) as [[e E']|[(Hmax & major & arg & h & r & -> & Hh & Hm)|(Hmax & c & i & r & -> & E' & Hi)]]; [congruence| |].
  - split; [done|]. apply Forall_app in Hp as [_ Hr]. rewrite (decode_head _ _ _ _ _ _ Hh Hr Hmax Hm) in E. rewrite length_app in Hlen. destruct (head_bytes_ok major arg h ltac:(lia) Hh) as [_ Harg].
    destruct (Z.eqb_spec major 0) as [->|]; [destruct (Z.ltb_spec WIDE_INT_MAX arg); [done|]; simplify_eq; by eexists _, h; repeat split; constructor|].
    destruct (Z.eqb_spec major 1) as [->|]; [destruct (Z.ltb_spec WIDE_INT_MAX arg); [done|]; simplify_eq; by eexists _, h; repeat split; constructor|].
    destruct (Z.eqb_spec major 2) as [->|]; [|destruct (Z.eqb_spec major 3) as [->|]; [|destruct (Z.eqb_spec major 4) as [->|]]].
    + destruct (CborNeed r arg) as [[]| | |] eqn:En; try done. destruct (need_ok r arg Harg En) as (b & r' & -> & ->). rewrite length_app in Hlen. cbn [mbind cbor_bind] in E.
      destruct (bstr_cases b r' ltac:(lia)) as [[Hfit Eb]|[_ Eb]]; rewrite Eb in E; [|done]. cbn [mbind cbor_bind] in E. rewrite Nat2Z.id, drop_app_length in E. simplify_eq. exists (IBytes b), (h ++ b). rewrite app_assoc. by repeat split; constructor.
    + destruct (CborNeed r arg) as [[]| | |] eqn:En; try done. destruct (need_ok r arg Harg En) as (b & r' & -> & ->). rewrite length_app in Hlen. cbn [mbind cbor_bind] in E.
      rewrite text_ok in E by lia. cbn [mbind cbor_bind] in E. rewrite Nat2Z.id, drop_app_length in E. simplify_eq. exists (IText b), (h ++ b). rewrite app_assoc. by repeat split; constructor.
    + destruct (arrays fuel depth arg 0 [] r) as [[l r']| | |] eqn:Ea; try done. cbn [mbind cbor_bind] in E. simplify_eq.
      destruct (IHa _ _ _ _ _ _ _ Ea Hd Harg Hr ltac:(lia)) as (l' & e & -> & Hl & He & ->). exists (IArray l'), (h ++ e). rewrite app_assoc. repeat split. constructor; [|done]. rewrite Z.add_0_l in Hl. by rewrite Hl.
    + assert (major = 5) as -> by lia. destruct (maps fuel depth arg 0 [] r) as [[l r']| | |] eqn:Ea; try done. cbn [mbind cbor_bind] in E. simplify_eq.
      destruct (IHm _ _ _ _ _ _ _ Ea Hd Harg Hr ltac:(lia)) as (l' & e & -> & Hl & He & ->). exists (IMap l'), (h ++ e). rewrite app_assoc, obj_map. repeat split. constructor; [|done]. rewrite Z.add_0_l in Hl. by rewrite Hl.
  - split; [done|]. rewrite E' in E. simplify_eq. exists i, [c]. by repeat split.
Qed.

Lemma left_S depth : depth + 1 <= CBOR_MAX_DEPTH -> left_ depth = S (left_ (depth + 1)).
Proof. unfold left_, CBOR_MAX_DEPTH. lia. Qed.

Lemma all_sound fuel : sound fuel /\ sound_all fuel /\ sound_pairs fuel.
Proof.
  induction fuel as [|fuel (IH & IHa & IHm)]; [by split_and!|]. split_and!; [by apply sound_step| |].
  - intros depth arg i acc p l' rest E Hd Hi Hp Hlen. rewrite arrays_S in E. destruct (Z.ltb_spec i arg).
    + destruct (decode fuel (depth + 1) p) as [[x p1]| | |] eqn:Ex; try done. cbn [mbind cbor_bind] in E.
      destruct (IH _ _ _ _ Ex ltac:(lia) Hp Hlen) as (Hmax & it & a & -> & Ha & ->). rewrite length_app in Hlen. apply Forall_app in Hp as [_ Hp].
      destruct (IHa _ _ _ _ _ _ _ E Hd ltac:(lia) Hp ltac:(lia)) as (l & e & -> & Hl & He & ->). exists (it :: l), (a ++ e). rewrite app_assoc. cbn [length fmap list_fmap].
      split_and!; [done|lia| |by rewrite <- app_assoc]. rewrite (left_S depth) in * by lia. by constructor.
    + simplify_eq. exists [], []. split_and!; [done|cbn; lia|constructor|by rewrite app_nil_r].
  - intros depth arg i acc p l' rest E Hd Hi Hp Hlen. rewrite maps_S in E. destruct (Z.ltb_spec i arg).
    + destruct (decode fuel (depth + 1) p) as [[x p1]| | |] eqn:Ex; try done. cbn [mbind cbor_bind] in E.
      destruct (IH _ _ _ _ Ex ltac:(lia) Hp Hlen) as (Hmax & it & a & -> & Ha & ->). rewrite length_app in Hlen. apply Forall_app in Hp as [_ Hp].
      destruct (decode fuel (depth + 1) p1) as [[y p2]| | |] eqn:Ey; try done. cbn [mbind cbor_bind] in E.
      destruct (IH _ _ _ _ Ey ltac:(lia) Hp ltac:(lia)) as (_ & it2 & b & -> & Hb & ->). rewrite length_app in Hlen. apply Forall_app in Hp as [_ Hp].
      destruct (IHm _ _ _ _ _ _ _ E Hd ltac:(lia) Hp ltac:(lia)) as (l & e & -> & Hl & He & ->). exists ((it, it2) :: l), (a ++ b ++ e). rewrite !app_assoc. cbn [length].
      split_and!; [done|lia| |done]. rewrite (left_S depth) in * by lia. rewrite <- app_assoc. by constructor.
    + simplify_eq. exists [], []. split_and!; [done|cbn; lia|constructor|done].
Qed.

(** *** Every input is decoded or refused *)

(** Byte strings of up to [N] bytes fit, unless an overrun is possible. *)
Context (N : nat) (over : Prop) (Hover : forall b, (length b <= N)%nat -> fits b \/ over).

(** The outcome is an error, or a value with a part of the input left. *)
Definition ends {A} (n : nat) (p : list Z) (r : cbor (A * list Z)) : Prop :=
  match r with Ok (_, rest) => exists b, p = b ++ rest /\ (n <= length b)%nat | Error _ => True | Overrun => over | NoFuel => False end.

Definition small (n : nat) (fuel : nat) (p : list Z) : Prop := is_bytes p /\ (Z.of_nat (length p) < 2 ^ 31 /\ (length p <= N)%nat) /\ (2 * length p + n <= fuel)%nat.

Lemma small_rest n b q m fuel fuel' : small n fuel (b ++ q) -> (fuel <= fuel' + 1)%nat -> (m + 1 <= 2 * length b + n)%nat -> small m fuel' q.
Proof. intros (Hp & [Hl HN] & Hf) H1 H2. rewrite length_app in *. apply Forall_app in Hp as [_ Hp]. split_and!; [done|lia|lia|lia]. Qed.

(** After [b] was read, the rest decides. *)
Lemma ends_bind {A B} n m k b q (r : cbor (A * list Z)) (f : A * list Z -> cbor (B * list Z)) : ends n q r -> (k <= length b + n + m)%nat ->
  (forall x b' q', q = b' ++ q' -> (n <= length b')%nat -> ends m q' (f (x, q'))) -> ends k (b ++ q) (r ≫= f).
Proof.
  destruct r as [[x q']|e| |]; cbn; [|done|done|done]. intros (b' & -> & Hb) Hk Hf. specialize (Hf x b' q' eq_refl Hb). destruct (f (x, q')) as [[y q2]|e| |]; cbn in *; try done.
  destruct Hf as (b2 & -> & Hb2). exists (b ++ b' ++ b2). rewrite <- !app_assoc. split; [done|]. rewrite !length_app. lia.
Qed.

Lemma ends_ok {A} (x : A) n b q : (n <= length b)%nat -> ends n (b ++ q) (Ok (x, q)).
Proof. intros Hn. by exists b. Qed.

Lemma ends_string k h arg p (mk : Z -> cbor Tcl_Obj) : (k <= length h)%nat -> 0 <= arg -> Z.of_nat (length p) < 2 ^ 31 ->
  (forall b q, p = b ++ q -> arg = Z.of_nat (length b) -> (exists o, mk arg = Ok o) \/ (mk arg = Overrun /\ over)) ->
  ends k (h ++ p) (_ ← CborNeed p arg; o ← mk arg; Ok (o, drop (Z.to_nat arg) p)).
Proof.
  intros Hk Ha Hl Hmk. destruct (CborNeed p arg) as [[]| | |] eqn:En; try done; try (unfold CborNeed in En; by destruct (_ <? _)).
  destruct (need_ok p arg Ha En) as (b & q & -> & ->). destruct (Hmk b q eq_refl eq_refl) as [[o Eo]|[Eo Ho]]; cbn [mbind cbor_bind]; rewrite Eo; [|exact Ho]. cbn [mbind cbor_bind].
  rewrite Nat2Z.id, drop_app_length, app_assoc. apply ends_ok. rewrite length_app. lia.
Qed.

Definition all_end (fuel : nat) : Prop := 
  (forall depth p, small 1 fuel p -> ends 1 p (decode fuel depth p)) /\
  (forall depth arg i acc p, small 2 fuel p -> ends 0 p (arrays fuel depth arg i acc p)) /\
  (forall depth arg i acc p, small 2 fuel p -> ends 0 p (maps fuel depth arg i acc p)).

Lemma decode_ends fuel depth p : all_end fuel -> small 1 (S fuel) p -> ends 1 p (decode (S fuel) depth p).
Proof.
  intros (_ & IHa & IHm) Hs. pose proof Hs as (Hp & [Hl HN] & Hf).
  destruct (decode_cases fuel depth p Hp) as [[e ->]|[(Hmax & major & arg & h & r & -> & Hh & Hm)|(Hmax & c & i & r & -> & -> & _)]]; [done| |by exists [c]].
  pose proof (head_nonempty _ _ _ Hh) as Hne. destruct (head_bytes_ok major arg h ltac:(lia) Hh) as [_ Harg].
  assert (Hr : small 2 fuel r) by (eapply small_rest; [exact Hs|lia|lia]). pose proof Hr as (Hb & [Hrl HrN] & _).
  rewrite (decode_head _ _ _ _ _ _ Hh Hb Hmax Hm). destruct (major =? 0); [destruct (_ <? _); [done|by apply ends_ok]|]. destruct (major =? 1); [destruct (_ <? _); [done|by apply ends_ok]|].
  destruct (major =? 2); [|destruct (major =? 3); [|destruct (major =? 4)]].
  - apply (ends_string 1 h arg r (fun a => CborMakeBstrObj space r a encoding)); [done|done|done|]. intros b q -> ->. rewrite length_app in Hrl, HrN. destruct (bstr_cases b q ltac:(lia)) as [[_ E]|[Hn E]]; [left; by eexists|right]. split; [done|]. by destruct (Hover b ltac:(lia)).
  - apply (ends_string 1 h arg r (fun a => new_obj StringObj r (c_int a))); [done|done|done|]. intros b q -> ->. rewrite length_app in Hrl. left. eexists. apply text_ok. lia.
  - eapply (ends_bind 0 0); [by apply IHa|lia|]. intros x b q' _ _. by apply (ends_ok _ 0 []).
  - eapply (ends_bind 0 0); [by apply IHm|lia|]. intros x b q' _ _. by apply (ends_ok _ 0 []).
Qed.

Lemma all_ends fuel : all_end fuel.
Proof.
  induction fuel as [|fuel IH]; [split_and!; unfold small; intros; lia|]. pose proof IH as (IHd & IHa & IHm). split_and!.
  - intros depth p Hs. by apply decode_ends.
  - intros depth arg i acc p Hs. rewrite arrays_S. destruct (i <? arg); [|by apply (ends_ok _ 0 [])].
    apply (ends_bind 1 0 _ [] p); [apply IHd; apply (small_rest 2 [] p 1 (S fuel)); [done|lia|cbn; lia]|lia|]. intros x b q -> Hb. apply IHa. eapply small_rest; [exact Hs|lia|lia].
  - intros depth arg i acc p Hs. rewrite maps_S. destruct (i <? arg); [|by apply (ends_ok _ 0 [])].
    apply (ends_bind 1 0 _ [] p); [apply IHd; apply (small_rest 2 [] p 1 (S fuel)); [done|lia|cbn; lia]|lia|]. intros x b q -> Hb.
    assert (Hq : small 2 fuel q) by (eapply small_rest; [exact Hs|lia|lia]).
    apply (ends_bind 1 0 _ [] q); [apply IHd; destruct Hq as (? & [? ?] & ?); split_and!; [done|done|done|lia]|lia|]. intros y b' q' -> Hb'. apply IHm.
    destruct Hq as (Hq1 & [Hq2 HqN] & Hq3). rewrite length_app in *. apply Forall_app in Hq1 as [_ Hq1]. split_and!; [done|lia|lia|lia].
Qed.
End exact.

(** ** The space for encoded byte strings *)

Lemma ceil_step n : 0 <= n -> (n + 3 + 2) / 3 = (n + 2) / 3 + 1.
Proof. intros. replace (n + 3 + 2) with (n + 2 + 1 * 3) by lia. by rewrite Z.div_add. Qed.

(** The newlines that are put before the full groups of three bytes, when [k] groups of four characters are in the line. *)
Definition newlines (k n : Z) : Z := if n <? 3 then 0 else (k + n / 3 - 1) / 15.

Lemma newlines_step k n : 0 <= k <= 15 -> 0 <= n -> newlines k (n + 3) = (if k =? 15 then 1 else 0) + newlines ((if k =? 15 then 0 else k) + 1) n.
Proof.
  intros Hk Hn. unfold newlines. rewrite (proj2 (Z.ltb_ge (n + 3) 3)) by lia. replace (n + 3) with (n + 1 * 3) by lia. rewrite Z.div_add by lia.
  destruct (Z.ltb_spec n 3).
  - rewrite (Z.div_small n 3) by lia. destruct (Z.eqb_spec k 15) as [->|]; [done|]. rewrite Z.div_small; lia.
  - destruct (Z.eqb_spec k 15) as [->|]; [|rewrite Z.add_0_l; f_equal; lia].
    replace (15 + (n / 3 + 1) - 1) with (n / 3 + 1 * 15) by lia. rewrite Z.div_add, Z.add_comm by lia. do 2 f_equal. lia.
Qed.

Lemma encode_length_60 fuel : forall octets k, (length octets <= fuel)%nat -> 0 <= k <= 15 ->
  Z.of_nat (length (Base64.encode_loop 0 60 (4 * k) octets)) = 4 * ((Z.of_nat (length octets) + 2) / 3) + newlines k (Z.of_nat (length octets)).
Proof.
  induction fuel as [|fuel IH]; intros octets k Hf Hk; [by destruct octets; [|cbn in Hf; lia]|].
  destruct octets as [|a [|b [|c octets]]]; [done|done|done|]. cbn [Base64.encode_loop length] in *. rewrite !length_app, length_fmap, !Nat2Z.inj_add.
  replace (Z.of_nat (S (S (S (length octets))))) with (Z.of_nat (length octets) + 3) by lia. rewrite ceil_step, newlines_step by lia.
  assert (Ew : (0 <? 60) && (60 <=? 4 * k) = (k =? 15)) by (cbn; destruct (Z.leb_spec 60 (4 * k)), (Z.eqb_spec k 15); done || lia). rewrite Ew.
  replace ((if k =? 15 then 0 else 4 * k) + 4) with (4 * ((if k =? 15 then 0 else k) + 1)) by (destruct (k =? 15); lia).
  rewrite IH; [|lia|destruct (Z.eqb_spec k 15); lia]. destruct (k =? 15); cbn [length sextets]; lia.
Qed.

Lemma encode_length_url fuel : forall octets L, (length octets <= fuel)%nat ->
  Z.of_nat (length (Base64.encode_loop 1 0 L octets)) <= 4 * ((Z.of_nat (length octets) + 2) / 3).
Proof.
  induction fuel as [|fuel IH]; intros octets L Hf; [by destruct octets; [|cbn in Hf; lia]|].
  destruct octets as [|a [|b [|c octets]]]; [done|done|done|]. cbn [Base64.encode_loop length] in *. rewrite !length_app, length_fmap, !Nat2Z.inj_add.
  replace (Z.of_nat (S (S (S (length octets))))) with (Z.of_nat (length octets) + 3) by lia. rewrite ceil_step by lia.
  specialize (IH octets (L + 4) ltac:(lia)). cbn [length sextets andb Z.ltb Z.compare]. lia.
Qed.

Lemma hex_length octets : Z.of_nat (length (Ns_HexString octets)) = 2 * Z.of_nat (length octets).
Proof.
  unfold Ns_HexString. induction octets as [|c l IH]; [done|]. rewrite fmap_cons. cbn [concat app length]. lia.
Qed.

(** The text of a byte string and its NUL fit the length that is asked for, and the NUL of the
    [Tcl_DString], for hex and base64url; for base64, which is broken into lines, exactly when
    the byte string is shorter than 93 bytes. *)
Lemma written_url octets : let n := Z.of_nat (length octets) in n < 2 ^ 30 ->
  written octets NS_OBJ_ENCODING_HEX <= NsEncodedObjScratchSize NS_OBJ_ENCODING_HEX n /\ 0 <= NsEncodedObjScratchSize NS_OBJ_ENCODING_HEX n /\
  written octets NS_OBJ_ENCODING_BASE64URL <= NsEncodedObjScratchSize NS_OBJ_ENCODING_BASE64URL n /\ 0 <= NsEncodedObjScratchSize NS_OBJ_ENCODING_BASE64URL n.
Proof.
  cbv zeta. intros Hn. unfold written, NsEncodedObj, NsEncodedObjScratchSize. rewrite hex_length.
  assert (H3 : 0 <= (Z.of_nat (length octets) + 2) / 3 < 2 ^ 29) by (split; [apply Z.div_pos; lia|apply Z.div_lt_upper_bound; lia]).
  rewrite !c_int_id by lia. pose proof (encode_length_url (length octets) octets 0 ltac:(lia)). unfold Ns_HtuuEncode2, Ns_Base64Encode. cbn [Z.eqb Pos.eqb]. lia.
Qed.

Lemma written_base64 octets : let n := Z.of_nat (length octets) in n < 2 ^ 30 ->
  0 <= NsEncodedObjScratchSize NS_OBJ_ENCODING_BASE64 n /\
  (written octets NS_OBJ_ENCODING_BASE64 <= NsEncodedObjScratchSize NS_OBJ_ENCODING_BASE64 n + 1 <-> n < 93).
Proof.
  cbv zeta. intros Hn. unfold written, NsEncodedObj, NsEncodedObjScratchSize.
  assert (H3 : 0 <= (Z.of_nat (length octets) + 2) / 3 < 2 ^ 29) by (split; [apply Z.div_pos; lia|apply Z.div_lt_upper_bound; lia]).
  rewrite c_int_id by lia. pose proof (encode_length_60 (length octets) octets 0 ltac:(lia) ltac:(lia)) as E. unfold Ns_HtuuEncode2, Ns_Base64Encode. cbn [Z.eqb].
  change (4 * 0) with 0 in E. rewrite E. split; [lia|]. unfold newlines. destruct (Z.ltb_spec (Z.of_nat (length octets)) 3); [lia|]. split; intros Hs.
  - apply Z.lt_nge. intros Hge. assert (31 <= Z.of_nat (length octets) / 3) by (apply Z.div_le_lower_bound; lia).
    assert (2 <= (0 + Z.of_nat (length octets) / 3 - 1) / 15) by (apply Z.div_le_lower_bound; lia). lia.
  - assert (Z.of_nat (length octets) / 3 < 31) by (apply Z.div_lt_upper_bound; lia).
    assert ((0 + Z.of_nat (length octets) / 3 - 1) / 15 < 2) by (apply Z.div_lt_upper_bound; lia). lia.
Qed.

(** What Tcl documents of a [Tcl_DString]: there is a byte for the NUL behind the length. *)
Definition has_space (space : Z -> Z) : Prop := forall n, 0 <= n -> n + 1 <= space n.

Lemma short_fits space encoding b : has_space space -> Z.of_nat (length b) < 2 ^ 30 -> encoding <> NS_OBJ_ENCODING_BASE64 \/ Z.of_nat (length b) < 93 -> fits_in space encoding b.
Proof.
  intros Hs Hl Hc. pose proof (written_url b Hl) as (H1 & H2 & H3 & H4). pose proof (written_base64 b Hl) as (H5 & H6). unfold fits_in.
  destruct encoding; [|..|done]; rewrite Z.max_r by lia.
  - pose proof (Hs _ H2). lia.
  - pose proof (Hs _ H4). lia.
  - destruct Hc as [|Hc]; [done|]. pose proof (Hs _ H5). apply H6 in Hc. lia.
Qed.

(** C14.  "ns_cbor parse" of fewer than 2^30 bytes accepts exactly the encodings of CBOR data
    items whose byte strings fit the scratch space, and gives the Tcl value of the item and the
    length of its encoding.  The items are integers of 64 bits, byte and text strings, arrays and maps of
    known length, nested at most 64 deep, and false, true, null and undefined: tags, floats,
    other simple values and indefinite lengths are refused.  Every other input is refused
    with a message, without an access behind the input or the scratch space, except that
    with the encoding base64 an input of 93 bytes or more may write behind the scratch space. *)
Theorem Cbor_exact str space encoding buf : is_bytes buf -> Z.of_nat (length buf) < 2 ^ 30 -> has_space space ->
  (forall o n, CborParseObjCmd str space encoding buf = Ok (o, n) <->
    exists i e rest, buf = e ++ rest /\ encodes (fits_in space encoding) 64 i e /\ o = obj_of str encoding i /\ n = Z.of_nat (length e)) /\
  ((exists r, CborParseObjCmd str space encoding buf = Ok r) \/ (exists message, CborParseObjCmd str space encoding buf = Error message) \/
   (CborParseObjCmd str space encoding buf = Overrun /\ encoding = NS_OBJ_ENCODING_BASE64 /\ 93 <= Z.of_nat (length buf))) /\
  (forall b, (length b <= length buf)%nat -> encoding <> NS_OBJ_ENCODING_BASE64 \/ Z.of_nat (length b) < 93 -> fits_in space encoding b).
Proof.
  intros Hb Hl Hs. assert (Hfit : forall b, (length b <= length buf)%nat -> encoding <> NS_OBJ_ENCODING_BASE64 \/ Z.of_nat (length b) < 93 -> fits_in space encoding b)
    by (intros b Hlb; apply short_fits; [done|lia]).
  unfold CborParseObjCmd. split; [|split; [|done]].
  - intros o n. split.
    + destruct (CborDecodeAny str space encoding (2 * length buf + 1) 0 buf) as [[x p]| | |] eqn:E; try done. cbn. intros [= <- <-].
      destruct (all_sound str space encoding (2 * length buf + 1)) as (Hso & _). destruct (Hso _ _ _ _ E ltac:(done) Hb ltac:(lia)) as (_ & i & e & -> & He & ->).
      exists i, e, p. rewrite length_app. split_and!; [done|done|done|lia].
    + intros (i & e & rest & -> & He & -> & ->). destruct (all_accepted str space encoding) as (Ha & _). rewrite length_app in *.
      rewrite (Ha 64%nat i e He) by (done || lia). cbn. do 2 f_equal. lia.
  - destruct (all_ends str space encoding (length buf) (encoding = NS_OBJ_ENCODING_BASE64 /\ 93 <= Z.of_nat (length buf))) with (fuel := (2 * length buf + 1)%nat) as (Hd & _).
    { intros b Hlb. destruct (decide (encoding = NS_OBJ_ENCODING_BASE64 /\ 93 <= Z.of_nat (length buf))) as [|Hn]; [by right|left]. apply Hfit; [done|].
      destruct (decide (encoding = NS_OBJ_ENCODING_BASE64)); [right|by left]. destruct (Z.lt_ge_cases (Z.of_nat (length b)) 93); [done|]. destruct Hn. split; [done|lia]. }
    specialize (Hd 0 buf ltac:(split_and!; (done || lia))).
    destruct (CborDecodeAny str space encoding (2 * length buf + 1) 0 buf) as [[x p]|e| |]; cbn; [left|right; left|right; right|done]; [by eexists|by eexists|by split].
Qed.

(** A byte string of 93 bytes or more, decoded with the encoding base64 into a scratch space
    with no more than the documented bytes, is written behind it. *)
Theorem base64_overrun str space h b rest : head 2 (Z.of_nat (length b)) h -> is_bytes (b ++ rest) -> 93 <= Z.of_nat (length b) < 2 ^ 30 ->
  (forall n, space n = n + 1) -> CborParseObjCmd str space NS_OBJ_ENCODING_BASE64 (h ++ b ++ rest) = Overrun.
Proof.
  intros Hh Hb Hl Hs. unfold CborParseObjCmd. replace (2 * length (h ++ b ++ rest) + 1)%nat with (S (2 * length (h ++ b ++ rest))) by lia.
  rewrite (decode_head str space _ _ _ _ _ _ _ Hh Hb) by (unfold CBOR_MAX_DEPTH; lia). cbn [Z.eqb Pos.eqb]. rewrite need_app. cbn [mbind cbor_bind].
  destruct (bstr_cases space NS_OBJ_ENCODING_BASE64 b rest ltac:(lia)) as [[Hf _]|[_ ->]]; [|done]. exfalso.
  destruct (written_base64 b ltac:(lia)) as [H0 H1]. unfold fits_in in Hf. rewrite Hs, Z.max_r in Hf by done. apply H1 in Hf. lia.
Qed.

Lemma base64_overrun_witness : CborParseObjCmd (fun _ => []) (fun n => n + 1) NS_OBJ_ENCODING_BASE64 ([0x58; 93] ++ replicate 93 7 ++ []) = Overrun.
Proof.
  apply base64_overrun; [|apply (bool_decide_eq_true_1 (Forall _ _)); vm_compute; reflexivity|rewrite length_replicate; lia|done].
  apply (head_bytes 2 93 0 [93]); [lia|repeat constructor; lia|reflexivity|reflexivity].
Defined.

(** ** Examples *)

Definition int_string (o : Tcl_Obj) : list Z := match o with StringObj s => s | WideInt z => dec z | _ => [] end.

Lemma Cbor_exact_witness : CborParseObjCmd int_string (fun n => n + 1) NS_OBJ_ENCODING_HEX [0x82; 0x18; 0xff; 0x41; 0x2a; 0x00] = Ok (ListObj [WideInt 255; StringObj (bytes "2a")], 5).
Proof.
  apply Cbor_exact; [repeat constructor; done|reflexivity|intros n Hn; lia|]. exists (IArray [IInt 255; IBytes [0x2a]]), [0x82; 0x18; 0xff; 0x41; 0x2a], [0x00]. split_and!; [reflexivity| |reflexivity|reflexivity].
  apply (enc_array _ 64 _ [0x82] [0x18; 0xff; 0x41; 0x2a]); [by apply (head_direct 4 2)|]. apply (all_cons _ 63 _ _ [0x18; 0xff] [0x41; 0x2a]).
  - apply enc_uint; [done|]. by apply (head_bytes 0 255 0 [0xff]); [|repeat constructor| |].
  - apply (all_cons _ 63 _ _ [0x41; 0x2a] []); [|constructor]. apply (enc_bytes _ 63 [0x2a] [0x41]); [discriminate|]. by apply (head_direct 2 1).
Defined.

(** The keys 1 and "1" of a map are one key of the dict. *)
Example keys_collide : CborParseObjCmd int_string (fun n => n + 1) NS_OBJ_ENCODING_HEX [0xa2; 0x01; 0x05; 0x61; 0x31; 0x06] = Ok (DictObj [(WideInt 1, WideInt 6)], 6).
Proof. reflexivity. Qed.
