(* ===== verification/Locks.v ===== *)
(** * Locks: critical sections, semaphores and read-write locks (nsthread/cslock.c, sema.c, rwlock.c).

    Each of these is a monitor: a structure guarded by a mutex, with condition variables.  What
    a thread does between taking the mutex and releasing it, or waiting, is one step.  A
    condition variable is the list of the threads that wait and of those that were woken and
    have to take the mutex again; a signal wakes any of the waiting threads, and threads may
    wake up without a signal.  The read-write lock is the one for systems without that of
    POSIX. *)

From S2P Require Import Prelude.

(** ** Condition variables *)

Record Ns_Cond := mkCond { waits : list nat; woken : list nat }.

Definition no_threads : Ns_Cond := mkCond [] [].

Definition threads (c : Ns_Cond) : list nat := waits c ++ woken c.

(** A thread releases the mutex and waits. *)
Definition Ns_CondWait (t : nat) (c : Ns_Cond) : Ns_Cond := mkCond (t :: waits c) (woken c).

(** A thread is woken, by a signal or without. *)
Inductive wakes (c : Ns_Cond) : Ns_Cond -> Prop :=
| wake l1 t l2 : waits c = l1 ++ t :: l2 -> wakes c (mkCond (l1 ++ l2) (t :: woken c)).

(** A signal wakes a thread if there is one. *)
Definition Ns_CondSignal (c c' : Ns_Cond) : Prop := (waits c = [] /\ c' = c) \/ wakes c c'.

Definition Ns_CondBroadcast (c : Ns_Cond) : Ns_Cond := mkCond [] (waits c ++ woken c).

(** A woken thread has the mutex again. *)
Inductive resumes (c : Ns_Cond) (t : nat) : Ns_Cond -> Prop :=
| resume l1 l2 : woken c = l1 ++ t :: l2 -> resumes c t (mkCond (waits c) (l1 ++ l2)).

Lemma wakes_threads c c' : wakes c c' -> threads c' ≡ₚ threads c.
Proof. destruct 1 as [l1 t l2 E]. unfold threads. cbn. rewrite E. solve_Permutation. Qed.

Lemma signal_threads c c' : Ns_CondSignal c c' -> threads c' ≡ₚ threads c.
Proof. intros [[_ ->]|Hw]; [done|by apply wakes_threads]. Qed.

Lemma broadcast_threads c : threads (Ns_CondBroadcast c) ≡ₚ threads c.
Proof. done. Qed.

Lemma resumes_threads c t c' : resumes c t c' -> threads c ≡ₚ t :: threads c' /\ length (woken c) = S (length (woken c')).
Proof. destruct 1 as [l1 l2 E]. unfold threads. cbn. rewrite E. split; [solve_Permutation|]. rewrite !length_app. cbn. lia. Qed.

(** After a signal there is a woken thread, if there is any. *)
Lemma signal_woken c c' : Ns_CondSignal c c' -> threads c <> [] -> woken c' <> [].
Proof. intros [[E ->]|[l1 t l2 E]] Hne; [|done]. unfold threads in Hne. by rewrite E in Hne. Qed.

(** ** Critical sections *)

Module Cs.

Record CsLock := mkCs { cond : Ns_Cond; tid : nat; count : Z }.

(** The test of the loop, and what follows when it is left. *)
Definition must_wait (t : nat) (l : CsLock) : bool := (0 <? count l) && negb (Nat.eqb (tid l) t).
Definition acquire (t : nat) (l : CsLock) : CsLock := mkCs (cond l) t (count l + 1).
Definition Ns_CsEnter (t : nat) (l : CsLock) : CsLock :=
  if must_wait t l then mkCs (Ns_CondWait t (cond l)) (tid l) (count l) else acquire t l.

Definition with_cond (c : Ns_Cond) (l : CsLock) : CsLock := mkCs c (tid l) (count l).

Definition Ns_CsLeave (l l' : CsLock) : Prop :=
  if count l - 1 =? 0 then exists c, Ns_CondSignal (cond l) c /\ l' = mkCs c (tid l) 0
  else l' = mkCs (cond l) (tid l) (count l - 1).

(** The lock with the number of times each thread has entered and not left; [tid] is not initialized. *)
Record State := mkState { lock : CsLock; depth : nat -> Z }.

Definition add (t : nat) (n : Z) (f : nat -> Z) : nat -> Z := fun u => if Nat.eqb u t then f u + n else f u.

(** A thread enters for the first time or again after it was woken; it is inside if it does not wait. *)
Definition entered (t : nat) (l : CsLock) (f : nat -> Z) : nat -> Z := if must_wait t l then f else add t 1 f.

Inductive step : State -> State -> Prop :=
| step_enter t l f : t ∉ threads (cond l) -> step (mkState l f) (mkState (Ns_CsEnter t l) (entered t l f))
| step_resume t l f c : resumes (cond l) t c -> step (mkState l f) (mkState (Ns_CsEnter t (with_cond c l)) (entered t l f))
| step_wake l f c : wakes (cond l) c -> step (mkState l f) (mkState (with_cond c l) f)
| step_leave t l f l' : 0 < f t -> Ns_CsLeave l l' -> step (mkState l f) (mkState l' (add t (-1) f)).

Inductive reachable : State -> Prop :=
| reach_init t : reachable (mkState (mkCs no_threads t 0) (fun _ => 0))
| reach_step s s' : reachable s -> step s s' -> reachable s'.

(** The count is how often the owner is inside; nobody else is; a free lock has a woken thread if any wait. *)
Record Inv (s : State) : Prop := {
  inv_owner : depth s (tid (lock s)) = count (lock s);
  inv_others : forall t, t <> tid (lock s) -> depth s t = 0;
  inv_count : 0 <= count (lock s);
  inv_progress : count (lock s) = 0 -> threads (cond (lock s)) <> [] -> woken (cond (lock s)) <> []
}.

Lemma add_same t n f : add t n f t = f t + n.
Proof. unfold add. by rewrite Nat.eqb_refl. Qed.

Lemma add_other t u n f : u <> t -> add t n f u = f u.
Proof. intros Hne. unfold add. by rewrite (proj2 (Nat.eqb_neq u t)). Qed.

(** Entering keeps the invariant, whatever the condition variable is when a thread is inside. *)
Lemma enter_inv t l f c : Inv (mkState l f) -> Inv (mkState (Ns_CsEnter t (with_cond c l)) (entered t l f)).
Proof.
  intros [Ho Ht Hc Hp]. unfold Ns_CsEnter, entered, must_wait in *. cbn in *. destruct (Z.ltb_spec 0 (count l)) as [Hpos|Hz], (Nat.eqb_spec (tid l) t) as [E|Hne]; cbn.
  - split; cbn; [rewrite E, add_same in *; subst; lia|intros u Hu; rewrite add_other by done; apply Ht; congruence|lia|lia].
  - split; cbn; [done|done|done|lia].
  - split; cbn; [rewrite E, add_same in *; subst; lia|intros u Hu; rewrite add_other by done; apply Ht; congruence|lia|lia].
  - assert (E0 : count l = 0) by lia. split; cbn; [rewrite add_same, Ht by congruence; lia| |lia|lia].
    intros u Hu. rewrite add_other by done. destruct (decide (u = tid l)) as [->|Hn]; [lia|by apply Ht].
Qed.

Lemma Cs_step_inv s s' : step s s' -> Inv s -> Inv s'.
Proof.
  destruct 1 as [t l f Hn|t l f c Hr|l f c Hw|t l f l' Hf Hl]; intros HI.
  - pose proof (enter_inv t l f (cond l) HI) as H. by destruct l; apply H.
  - by apply enter_inv.
  - destruct HI as [Ho Ht Hc Hp]. split; cbn in *; [done|done|done|]. intros _ _. by destruct Hw.
  - destruct HI as [Ho Ht Hc Hp]. cbn in *. assert (E : t = tid l) by (destruct (decide (t = tid l)); [done|rewrite Ht in Hf by done; lia]). subst t.
    unfold Ns_CsLeave in Hl. destruct (Z.eqb_spec (count l - 1) 0).
    + destruct Hl as (c & Hs & ->). split; cbn; [rewrite add_same; lia|intros u Hu; rewrite add_other by done; auto|done|].
      intros _ Hne. apply (signal_woken (cond l) c Hs). intros E. apply Hne. apply Permutation_nil_r. by rewrite <- E, (signal_threads _ _ Hs).
    + subst l'. split; cbn; [rewrite add_same; lia|intros u Hu; rewrite add_other by done; auto|lia|lia].
Qed.

Lemma Cs_reachable_inv s : reachable s -> Inv s.
Proof. induction 1 as [t|s s' _ IH Hs]; [by split|by eapply Cs_step_inv]. Qed.

(** A critical section: in every reachable state at most one thread is inside, which may
    have entered several times, and the count says how often; and when the section is free
    while threads wait, one of them was woken, and enters when it runs. *)
Theorem Cs_exclusive s : reachable s ->
  (forall t u, 0 < depth s t -> 0 < depth s u -> t = u) /\
  (forall t, 0 < depth s t -> tid (lock s) = t /\ count (lock s) = depth s t) /\
  (count (lock s) = 0 -> threads (cond (lock s)) <> [] -> exists t c s', resumes (cond (lock s)) t c /\ step s s' /\ 0 < depth s' t).
Proof.
  intros Hr. destruct (Cs_reachable_inv s Hr) as [Ho Ht Hc Hp].
  assert (Hown : forall t, 0 < depth s t -> tid (lock s) = t) by (intros t Hpos; destruct (decide (t = tid (lock s))) as [->|Hn]; [done|rewrite Ht in Hpos by done; lia]).
  split_and!.
  - intros t u H1 H2. by rewrite <- (Hown t H1), <- (Hown u H2).
  - intros t Hpos. split; [by apply Hown|]. rewrite <- Ho. by rewrite (Hown t Hpos).
  - intros E0 Hne. specialize (Hp E0 Hne). destruct (woken (cond (lock s))) as [|t l] eqn:Ew; [done|]. exists t, (mkCond (waits (cond (lock s))) l), (mkState (acquire t (with_cond (mkCond (waits (cond (lock s))) l) (lock s))) (add t 1 (depth s))).
    assert (Hres : resumes (cond (lock s)) t (mkCond (waits (cond (lock s))) l)) by (by apply (resume _ _ [])). split; [done|]. split.
    + destruct s as [lk f]. cbn in *. pose proof (step_resume t lk f _ Hres) as Hs. unfold Ns_CsEnter, entered, must_wait in Hs. cbn in Hs. by rewrite E0 in Hs.
    + cbn. rewrite add_same. destruct (decide (t = tid (lock s))) as [->|Hn]; [lia|rewrite Ht by done; lia].
Qed.

Definition idle : State := mkState (mkCs no_threads 0 0) (fun _ => 0).
Definition contended : State := mkState (Ns_CsEnter 2 (Ns_CsEnter 1 (lock idle))) (add 1 1 (depth idle)).

(** Thread 1 is inside, thread 2 waits. *)
Lemma Cs_exclusive_witness : waits (cond (lock contended)) = [2%nat] /\ tid (lock contended) = 1%nat.
Proof.
  split; [reflexivity|]. eapply (Cs_exclusive contended); [|vm_compute; reflexivity].
  apply (reach_step (mkState (Ns_CsEnter 1 (lock idle)) (add 1 1 (depth idle)))).
  - apply (reach_step idle); [constructor|]. apply (step_enter 1 (lock idle) (depth idle)). by apply not_elem_of_nil.
  - apply (step_enter 2 (Ns_CsEnter 1 (lock idle)) (add 1 1 (depth idle))). by apply not_elem_of_nil.
Defined.
End Cs.

(** ** Semaphores *)

Module Semaphore.

Record Sema := mkSema { cond : Ns_Cond; count : Z }.

(** A thread waits, or takes one; again when it was woken. *)
Definition Ns_SemaWait (t : nat) (s : Sema) : Sema :=
  if count s =? 0 then mkSema (Ns_CondWait t (cond s)) (count s) else mkSema (cond s) (count s - 1).

Definition Ns_SemaPost (n : Z) (s s' : Sema) : Prop :=
  exists c, s' = mkSema c (count s + n) /\ if n =? 1 then Ns_CondSignal (cond s) c else c = Ns_CondBroadcast (cond s).

(** With the number posted, the initial count included, and the number taken. *)
Record State := mkState { sema : Sema; posted : Z; taken : Z }.

Definition took (s : Sema) (n : Z) : Z := if count s =? 0 then n else n + 1.

Inductive step : State -> State -> Prop :=
| step_wait t s p k : t ∉ threads (cond s) -> step (mkState s p k) (mkState (Ns_SemaWait t s) p (took s k))
| step_resume t s p k c : resumes (cond s) t c -> step (mkState s p k) (mkState (Ns_SemaWait t (mkSema c (count s))) p (took s k))
| step_wake s p k c : wakes (cond s) c -> step (mkState s p k) (mkState (mkSema c (count s)) p k)
| step_post n s p k s' : 0 <= n -> Ns_SemaPost n s s' -> step (mkState s p k) (mkState s' (p + n) k).

Inductive reachable : State -> Prop :=
| reach_init n : 0 <= n -> reachable (mkState (mkSema no_threads n) n 0)
| reach_step s s' : reachable s -> step s s' -> reachable s'.

(** While threads wait unwoken, there are at least as many woken ones as the count. *)
Record Inv (s : State) : Prop := {
  inv_count : count (sema s) = posted s - taken s;
  inv_pos : 0 <= count (sema s);
  inv_woken : waits (cond (sema s)) <> [] -> count (sema s) <= Z.of_nat (length (woken (cond (sema s))))
}.

Lemma Semaphore_step_inv s s' : step s s' -> Inv s -> Inv s'.
Proof.
  destruct 1 as [t s p k Hn|t s p k c Hr|s p k c Hw|n s p k s' Hn Hp]; intros [Hc H0 Hw']; cbn in *.
  - unfold Ns_SemaWait, took. destruct (Z.eqb_spec (count s) 0); split; cbn; try lia. intros Hne. specialize (Hw' Hne). lia.
  - destruct (resumes_threads _ _ _ Hr) as [_ El]. destruct Hr as [l1 l2 E]. unfold Ns_SemaWait, took. cbn. destruct (Z.eqb_spec (count s) 0); split; cbn in *; try lia.
    intros Hne. specialize (Hw' Hne). lia.
  - split; cbn; [done|done|]. destruct Hw as [l1 t l2 E]. cbn. intros _. specialize (Hw' ltac:(rewrite E; by destruct l1)). lia.
  - destruct Hp as (c & -> & Hc'). split; cbn; [lia|lia|]. destruct (Z.eqb_spec n 1) as [->|_]; [|by subst c]. destruct Hc' as [[E ->]|[l1 t l2 E]]; [by rewrite E|].
    cbn. intros _. specialize (Hw' ltac:(rewrite E; by destruct l1)). lia.
Qed.

Lemma Semaphore_reachable_inv s : reachable s -> Inv s.
Proof. induction 1 as [n Hn|s s' _ IH Hs]; [split; cbn; [lia|lia|done]|by eapply Semaphore_step_inv]. Qed.

(** A semaphore: never more is taken than was posted, the count is the difference; and no
    post is lost: while it is positive and threads wait, one of them was woken, and takes one
    when it runs. *)
Theorem Sema_counts s : reachable s ->
  taken s <= posted s /\ count (sema s) = posted s - taken s /\
  (0 < count (sema s) -> waits (cond (sema s)) <> [] -> exists t c s', resumes (cond (sema s)) t c /\ step s s' /\ taken s' = taken s + 1).
Proof.
  intros Hr. destruct (Semaphore_reachable_inv s Hr) as [Hc H0 Hw]. split_and!; [lia|done|]. intros Hpos Hne. specialize (Hw Hne).
  destruct (woken (cond (sema s))) as [|t l] eqn:Ew; [cbn in Hw; lia|]. destruct s as [m p k]. cbn in *.
  exists t, (mkCond (waits (cond m)) l). eexists. split; [by apply (resume _ _ [])|]. split; [apply step_resume; by apply (resume _ _ [])|]. cbn. unfold took. by rewrite (proj2 (Z.eqb_neq _ _)) by lia.
Qed.

(** Two are posted and one is taken. *)
Lemma Sema_counts_witness : count (mkSema no_threads 1) = 2 - 1.
Proof.
  apply (Sema_counts (mkState (mkSema no_threads 1) 2 1)). apply (reach_step (mkState (mkSema no_threads 2) 2 0)); [by constructor|].
  apply (step_wait 7 (mkSema no_threads 2) 2 0). by apply not_elem_of_nil.
Defined.
End Semaphore.

(** ** Read-write locks *)

Module Rw.

Record RwLock := mkRw { rcond : Ns_Cond; wcond : Ns_Cond; nreaders : Z; nwriters : Z; lockcnt : Z }.

(** The tests of the loops; a thread that waits is counted. *)
Definition reader_waits (l : RwLock) : bool := (lockcnt l <? 0) || (0 <? nwriters l).
Definition writer_waits (l : RwLock) : bool := negb (lockcnt l =? 0).

Definition Ns_RWLockRdLock (t : nat) (l : RwLock) : RwLock :=
  if reader_waits l then mkRw (Ns_CondWait t (rcond l)) (wcond l) (nreaders l + 1) (nwriters l) (lockcnt l)
  else mkRw (rcond l) (wcond l) (nreaders l) (nwriters l) (lockcnt l + 1).

Definition Ns_RWLockWrLock (t : nat) (l : RwLock) : RwLock :=
  if writer_waits l then mkRw (rcond l) (Ns_CondWait t (wcond l)) (nreaders l) (nwriters l + 1) (lockcnt l)
  else mkRw (rcond l) (wcond l) (nreaders l) (nwriters l) (-1).

Definition Ns_RWLockUnlock (l l' : RwLock) : Prop :=
  let n := if lockcnt l - 1 <? 0 then 0 else lockcnt l - 1 in
  if negb (nwriters l =? 0) then exists c, Ns_CondSignal (wcond l) c /\ l' = mkRw (rcond l) c (nreaders l) (nwriters l) n
  else if negb (nreaders l =? 0) then l' = mkRw (Ns_CondBroadcast (rcond l)) (wcond l) (nreaders l) (nwriters l) n
  else l' = mkRw (rcond l) (wcond l) (nreaders l) (nwriters l) n.

(** A woken thread has left the wait and is not counted any more. *)
Definition reader_back (c : Ns_Cond) (l : RwLock) : RwLock := mkRw c (wcond l) (nreaders l - 1) (nwriters l) (lockcnt l).
Definition writer_back (c : Ns_Cond) (l : RwLock) : RwLock := mkRw (rcond l) c (nreaders l) (nwriters l - 1) (lockcnt l).

(** With the threads that hold the lock for reading and for writing. *)
Record State := mkState { lock : RwLock; readers : list nat; writers : list nat }.

Definition add_reader (t : nat) (l : RwLock) (r : list nat) : list nat := if reader_waits l then r else t :: r.
Definition add_writer (t : nat) (l : RwLock) (w : list nat) : list nat := if writer_waits l then w else t :: w.

Inductive step : State -> State -> Prop :=
| step_rd t l r w : step (mkState l r w) (mkState (Ns_RWLockRdLock t l) (add_reader t l r) w)
| step_rd_back t l r w c : resumes (rcond l) t c ->
    step (mkState l r w) (mkState (Ns_RWLockRdLock t (reader_back c l)) (add_reader t (reader_back c l) r) w)
| step_rd_wake l r w c : wakes (rcond l) c -> step (mkState l r w) (mkState (mkRw c (wcond l) (nreaders l) (nwriters l) (lockcnt l)) r w)
| step_wr t l r w : step (mkState l r w) (mkState (Ns_RWLockWrLock t l) r (add_writer t l w))
| step_wr_back t l r w c : resumes (wcond l) t c ->
    step (mkState l r w) (mkState (Ns_RWLockWrLock t (writer_back c l)) r (add_writer t (writer_back c l) w))
| step_wr_wake l r w c : wakes (wcond l) c -> step (mkState l r w) (mkState (mkRw (rcond l) c (nreaders l) (nwriters l) (lockcnt l)) r w)
| step_unlock_rd t l l' r1 r2 w : Ns_RWLockUnlock l l' -> step (mkState l (r1 ++ t :: r2) w) (mkState l' (r1 ++ r2) w)
| step_unlock_wr t l l' r w1 w2 : Ns_RWLockUnlock l l' -> step (mkState l r (w1 ++ t :: w2)) (mkState l' r (w1 ++ w2)).

Inductive reachable : State -> Prop :=
| reach_init : reachable (mkState (mkRw no_threads no_threads 0 0 0) [] [])
| reach_step s s' : reachable s -> step s s' -> reachable s'.

(** The counts, and: a free lock has a woken writer if writers wait, and a woken reader if only readers wait. *)
Record Inv (s : State) : Prop := {
  inv_nreaders : nreaders (lock s) = Z.of_nat (length (threads (rcond (lock s))));
  inv_nwriters : nwriters (lock s) = Z.of_nat (length (threads (wcond (lock s))));
  inv_held : (writers s = [] /\ lockcnt (lock s) = Z.of_nat (length (readers s))) \/ (readers s = [] /\ length (writers s) = 1%nat /\ lockcnt (lock s) = -1);
  inv_writers : lockcnt (lock s) = 0 -> threads (wcond (lock s)) <> [] -> woken (wcond (lock s)) <> [];
  inv_readers : 0 <= lockcnt (lock s) -> threads (wcond (lock s)) = [] -> waits (rcond (lock s)) = []
}.

Lemma nonempty_length {A} (l : list A) : l <> [] -> 0 < Z.of_nat (length l).
Proof. destruct l; [done|cbn; lia]. Qed.













End Rw.
