(* ===== verification/Output.v ===== *)
(** * Output: writing a response (nsd/connio.c, nsd/return.c).

    The header block, the decision how the body is framed, and the writing of the body in one
    piece or in chunks.  The bytes that are sent are [wire]; what the network or the writer
    thread takes of them is a parameter, as are the date and C's formatting of the version.
    Output goes out as it is given ([compress] is 0 and there is no output encoding), over
    HTTP/1.  Output headers are the list of fields that NsSet.v shows a set to be. *)

From Stdlib Require Import SpecFloat.
From S2P Require Import Prelude Str AcceptEncoding Chunked NsSet Header ReqLine SockRead.

(** ** The connection *)

(** Flags are bits of a word. *)
Definition SKIPHDRS : Z := 1.
Definition SKIPBODY : Z := 2.
Definition SENTHDRS : Z := 4.
Definition STREAM : Z := 6.
Definition STREAM_CLOSE : Z := 7.
Definition CHUNK : Z := 8.
Definition SENT_LAST_CHUNK : Z := 9.

Record Out := mkOut { o_flags : Z; o_keep : Z; o_responseLength : Z; o_headers : list header; o_wire : list Z }.

Definition set_flag (b : Z) (o : Out) : Out := mkOut (Z.setbit (o_flags o) b) (o_keep o) (o_responseLength o) (o_headers o) (o_wire o).
Definition unset_flag (b : Z) (o : Out) : Out := mkOut (Z.clearbit (o_flags o) b) (o_keep o) (o_responseLength o) (o_headers o) (o_wire o).
Definition flag (b : Z) (o : Out) : bool := Z.testbit (o_flags o) b.
Definition keep_as (k : Z) (o : Out) : Out := mkOut (o_flags o) k (o_responseLength o) (o_headers o) (o_wire o).
Definition with_headers (hs : list header) (o : Out) : Out := mkOut (o_flags o) (o_keep o) (o_responseLength o) hs (o_wire o).

(** [Ns_SetPut], [Ns_SetIUpdate] and [Ns_SetIMerge] on a set that ignores case. *)
Definition set_put (name v : list Z) (hs : list header) : list header := hs ++ [(tolower <$> name, v)].

Fixpoint set_iupdate (name v : list Z) (hs : list header) : list header :=
  match hs with
  | [] => [(tolower <$> name, v)]
  | h :: hs => if bool_decide (tolower <$> h.1 = tolower <$> name) then (h.1, v) :: hs else h :: set_iupdate name v hs
  end.

Definition has_header (name : list Z) (hs : list header) : bool := existsb (fun h => bool_decide (tolower <$> h.1 = tolower <$> name)) hs.

Definition Ns_SetIMerge (high low : list header) : list header :=
  fold_left (fun hs h => if has_header h.1 hs then hs else set_put h.1 h.2 hs) low high.

Section response.
(** The driver's and the request's part of [CheckKeep]. *)
Context (keepwait : Z * Z) (keepmaxuploadsize keepmaxdownloadsize : Z) (line_ : option (list Z)) (version_ : double) (headers_ : list header) (contentLength_ : Z).
(** The status line, the date, the name of the server, fields of TLS connections, of the server and of the driver. *)
Context (printf_version : double -> list Z) (responseStatus : Z) (statusPhrase : Z -> list Z) (date : list Z) (serverName : option (list Z))
  (NsTLSAddOutputHeaders : list header -> list header) (altSvc : option (list Z)) (extraHeaders driverHeaders : list header).
(** How many of the bytes go out. *)
Context (accepts : list Z -> list Z -> nat).

Definition conn_of (o : Out) : Conn :=
  mkConn keepwait keepmaxuploadsize keepmaxdownloadsize (o_keep o) line_ version_ headers_ contentLength_ (o_responseLength o) (flag CHUNK o) (o_headers o).

(** ** The header *)

Definition Ns_ConnSetLengthHeader (len : Z) (o : Out) : Out :=
  mkOut (o_flags o) (o_keep o) len (set_iupdate (bytes "content-length") (dec len) (o_headers o)) (o_wire o).

Definition HdrPlanFraming (bodyLength flags : Z) (o : Out) : Out :=
  let o :=
    if Z.testbit flags STREAM then
      let o := set_flag STREAM o in
      if (o_responseLength o <? 0) && dlt (lit "1.0") version_ && negb (o_keep o =? 0) && negb (HdrEq (o_headers o) (bytes "content-type") (bytes "multipart/byteranges"))
      then set_flag CHUNK o else o
    else if o_responseLength o <? 0 then Ns_ConnSetLengthHeader bodyLength o else o in
  let o := keep_as (if CheckKeep (conn_of o) then 1 else 0) o in
  let o := with_headers (set_put (bytes "connection") (if negb (o_keep o =? 0) then bytes "keep-alive" else bytes "close") (o_headers o)) o in
  if flag CHUNK o then with_headers (set_put (bytes "transfer-encoding") (bytes "chunked") (o_headers o)) o else o.

Definition HdrMergeExtra (hs : list header) : list header :=
  let hs := set_iupdate (bytes "date") date hs in
  let hs := match serverName with Some s => set_iupdate (bytes "server") s hs | None => hs end in
  Ns_SetIMerge (Ns_SetIMerge (NsTLSAddOutputHeaders hs) extraHeaders) driverHeaders.

(** A tab after each newline. *)
Fixpoint HdrSanitizeValue (v : list Z) : list Z :=
  match v with
  | [] => []
  | c :: v => if c =? 10 then 10 :: 9 :: HdrSanitizeValue v else c :: HdrSanitizeValue v
  end.

Definition print_field (h : header) : list Z := h.1 ++ bytes ": " ++ HdrSanitizeValue h.2 ++ CRLF.

Definition min_version : double := if dlt version_ (lit "1.1") then version_ else lit "1.1".

Definition h1_headersEncodeProc (merged : list header) : list Z :=
  bytes "HTTP/" ++ printf_version min_version ++ [32] ++ dec responseStatus ++ [32] ++ statusPhrase responseStatus ++ CRLF ++
  default [] altSvc ++ concat (print_field <$> merged) ++ CRLF.

(** The connection, and the header block if there is one. *)
Definition Ns_FinalizeResponseHeaders (bodyLength flags : Z) (o : Out) : Out * option (list Z) :=
  if flag SKIPHDRS o then (if dlt version_ (lit "1.0") then keep_as 0 o else o, None)
  else
    let o := HdrPlanFraming bodyLength flags o in
    let o := with_headers (HdrMergeExtra (o_headers o)) o in
    (o, Some (h1_headersEncodeProc (o_headers o))).

(** ** The body *)

(** [Ns_ConnSend]: the number of bytes sent. *)
Definition Ns_ConnSend (bufs : list (list Z)) (o : Out) : Z * Out :=
  if bool_decide (bufs = []) then (0, o)
  else
    let data := concat bufs in
    let sent := Nat.min (accepts (o_wire o) data) (length data) in
    (Z.of_nat sent, mkOut (o_flags o) (o_keep o) (o_responseLength o) (o_headers o) (o_wire o ++ take sent data)).

(** The digits of a number in base 16. *)
Fixpoint hex_digits (fuel : nat) (n : Z) (acc : list Z) : list Z :=
  match fuel with
  | O => acc
  | S fuel =>
      let d := n mod 16 in
      let acc := (if d <? 10 then 48 + d else 87 + d) :: acc in
      if n <? 16 then acc else hex_digits fuel (n / 16) acc
  end.
Definition hex (n : Z) : list Z := hex_digits 16 n [].

Definition sum_vec (bufs : list (list Z)) : Z := Z.of_nat (length (concat bufs)).

(** Vectors are stored in an array of [cap] elements; [None] behind its end. *)
Definition set_vecs (cap : Z) (vs : list (list Z)) (l : list (list Z)) : option (list (list Z)) :=
  if Z.of_nat (length l) + Z.of_nat (length vs) <=? cap then Some (l ++ vs) else None.

(** The size of the array: on the stack, or allocated. *)
Definition vec_capacity (nbufs : Z) : Z := let neededBufs := nbufs + 2 + 1 in if 32 <? neededBufs then neededBufs else 32.

(** The vectors of the body, behind that of the header if there is one. *)
Definition body_vectors (cap : Z) (bufs : list (list Z)) (flags : Z) (o : Out) (sbufs : list (list Z)) (toWrite : Z) : option (Out * list (list Z) * Z) :=
  let bodyLength := sum_vec bufs in
  if negb (flag SKIPBODY o) then
    if negb (flag CHUNK o) then
      if bool_decide (sbufs = []) then Some (o, bufs, toWrite + bodyLength)
      else sbufs ← set_vecs cap bufs sbufs; Some (o, sbufs, toWrite + bodyLength)
    else
      '(sbufs, toWrite) ←
        (if 0 <? bodyLength then
           let hdr := hex bodyLength ++ CRLF in
           sbufs ← set_vecs cap [hdr] sbufs; sbufs ← set_vecs cap bufs sbufs; sbufs ← set_vecs cap [CRLF] sbufs;
           Some (sbufs, toWrite + Z.of_nat (length hdr) + bodyLength + 2)
         else Some (sbufs, toWrite));
      if Z.testbit flags STREAM_CLOSE then
        sbufs ← set_vecs cap [[48; 13; 10; 13; 10]] sbufs;
        Some (set_flag SENT_LAST_CHUNK (unset_flag STREAM o), sbufs, toWrite + 5)
      else Some (o, sbufs, toWrite)
  else Some (o, sbufs, toWrite).

Definition Ns_ConnWriteVData (bufs : list (list Z)) (flags : Z) (o : Out) : option (bool * Out) :=
  let cap := vec_capacity (Z.of_nat (length bufs)) in
  let bodyLength := sum_vec bufs in
  let o := if Z.testbit flags STREAM then set_flag STREAM o else o in
  '(o, sbufs, toWrite) ←
    (if negb (flag SENTHDRS o) then
       let '(o, head) := Ns_FinalizeResponseHeaders bodyLength flags (set_flag SENTHDRS o) in
       match head with
       | Some ds => sbufs ← set_vecs cap [ds] []; Some (o, sbufs, Z.of_nat (length ds))
       | None => Some (o, [], 0)
       end
     else Some (o, [], 0));
  '(o, sbufs, toWrite) ← body_vectors cap bufs flags o sbufs toWrite;
  let '(nwrote, o) := Ns_ConnSend sbufs o in
  Some (negb (nwrote <? toWrite), o).

(** What [Ns_ConnClose] writes at the end of a stream. *)
Definition ConnClose_write (o : Out) : option Out :=
  if flag STREAM o && flag CHUNK o then '(_, o) ← Ns_ConnWriteVData [] (2 ^ STREAM_CLOSE) o; Some o else Some o.

(** A stream: writes one after the other, and the end. *)
Fixpoint stream (writes : list (list (list Z))) (o : Out) : option Out :=
  match writes with
  | [] => ConnClose_write o
  | bufs :: writes => '(_, o) ← Ns_ConnWriteVData bufs (2 ^ STREAM) o; stream writes o
  end.
End response.

(** ** Numbers in base 16 *)

Lemma value_acc base ds : forall a, foldl (fun a c => a * base + default 0 (digit_val base c)) a ds = a * base ^ Z.of_nat (length ds) + value base ds.
Proof.
  unfold value. induction ds as [|d ds IH]; intros a; cbn [foldl length]; [by rewrite Z.pow_0_r; lia|]. rewrite IH, (IH (0 * base + _)), Nat2Z.inj_succ, Z.pow_succ_r by lia. lia.
Qed.

Lemma hex_digit_val d : 0 <= d < 16 -> digit_val 16 (if d <? 10 then 48 + d else 87 + d) = Some d.
Proof.
  intros Hd. assert (Hc : d = 0 \/ d = 1 \/ d = 2 \/ d = 3 \/ d = 4 \/ d = 5 \/ d = 6 \/ d = 7 \/ d = 8 \/ d = 9 \/ d = 10 \/ d = 11 \/ d = 12 \/ d = 13 \/ d = 14 \/ d = 15) by lia.
  repeat (destruct Hc as [->|Hc]; [reflexivity|]). by subst d.
Qed.

Lemma hex_digits_S fuel n acc : hex_digits (S fuel) n acc =
  let acc := (if n mod 16 <? 10 then 48 + n mod 16 else 87 + n mod 16) :: acc in if n <? 16 then acc else hex_digits fuel (n / 16) acc.
Proof. reflexivity. Qed.

Lemma hex_digits_spec fuel : forall n acc, 0 <= n < 16 ^ Z.of_nat (S fuel) -> Forall (is_digit 16) acc ->
  numeral 16 (hex_digits (S fuel) n acc) /\ value 16 (hex_digits (S fuel) n acc) = n * 16 ^ Z.of_nat (length acc) + value 16 acc.
Proof.
  induction fuel as [|fuel IH]; intros n acc Hn Ha; rewrite hex_digits_S; cbv zeta; pose proof (Z.mod_pos_bound n 16 ltac:(lia)) as Hm; pose proof (hex_digit_val (n mod 16) Hm) as Hv;
    set (c := if n mod 16 <? 10 then 48 + n mod 16 else 87 + n mod 16) in *.
  1,2: assert (Hca : Forall (is_digit 16) (c :: acc)) by (constructor; [by eexists|done]).
  1,2: assert (Ev : value 16 (c :: acc) = n mod 16 * 16 ^ Z.of_nat (length acc) + value 16 acc) by (unfold value at 1; cbn [foldl]; rewrite value_acc, Hv; cbn; lia).
  - rewrite (proj2 (Z.ltb_lt _ _)) by (cbn in Hn; lia). split; [by split|]. rewrite Ev, Z.mod_small by (cbn in Hn; lia). done.
  - destruct (Z.ltb_spec n 16); [split; [by split|]; by rewrite Ev, Z.mod_small by lia|].
    destruct (IH (n / 16) (c :: acc)) as [Hnum E]; [|done|].
    { rewrite Nat2Z.inj_succ, Z.pow_succ_r in Hn by lia. split; [apply Z.div_pos; lia|apply Z.div_lt_upper_bound; lia]. }
    split; [exact Hnum|]. rewrite E, Ev. cbn [length]. rewrite Nat2Z.inj_succ, Z.pow_succ_r by lia. rewrite (Z.div_mod n 16) at 3 by lia. ring.
Qed.

Lemma hex_spec n : 0 <= n < 2 ^ 63 -> numeral 16 (hex n) /\ value 16 (hex n) = n.
Proof. intros Hn. destruct (hex_digits_spec 15 n []) as [H1 H2]; [cbn; lia|constructor|]. split; [exact H1|]. unfold hex. rewrite H2. cbn. lia. Qed.

Lemma hex_size_line n : 0 <= n < 2 ^ 63 -> size_line (hex n) n.
Proof. intros Hn. destruct (hex_spec n Hn) as [H1 H2]. exists (hex n), []. rewrite app_nil_r. split_and!; [done|done|done|lia|constructor|by left]. Qed.

(** ** Flags and vectors *)

Lemma flag_set b o : 0 <= b -> flag b (set_flag b o) = true.
Proof. intros Hb. unfold flag, set_flag. cbn. by rewrite Z.setbit_eq. Qed.

Lemma flag_set_other b b' o : 0 <= b' -> b <> b' -> flag b (set_flag b' o) = flag b o.
Proof. intros Hb Hne. unfold flag, set_flag. cbn. by rewrite Z.setbit_neq. Qed.

Lemma flag_unset b o : flag b (unset_flag b o) = false.
Proof. unfold flag, unset_flag. cbn. by rewrite Z.clearbit_eq. Qed.

Lemma flag_unset_other b b' o : b <> b' -> flag b (unset_flag b' o) = flag b o.
Proof. intros Hne. unfold flag, unset_flag. cbn. by rewrite Z.clearbit_neq. Qed.

Lemma set_vecs_ok cap vs l : Z.of_nat (length l) + Z.of_nat (length vs) <= cap -> set_vecs cap vs l = Some (l ++ vs).
Proof. intros Hc. unfold set_vecs. by rewrite (proj2 (Z.leb_le _ _)). Qed.

Lemma capacity_ge n : n + 3 <= vec_capacity n /\ 32 <= vec_capacity n.
Proof. unfold vec_capacity. cbv zeta. destruct (Z.ltb_spec 32 (n + 2 + 1)); lia. Qed.

Section sent.
Context (keepwait : Z * Z) (keepmaxuploadsize keepmaxdownloadsize : Z) (line_ : option (list Z)) (version_ : double) (headers_ : list header) (contentLength_ : Z).
Context (printf_version : double -> list Z) (responseStatus : Z) (statusPhrase : Z -> list Z) (date : list Z) (serverName : option (list Z))
  (NsTLSAddOutputHeaders : list header -> list header) (altSvc : option (list Z)) (extraHeaders driverHeaders : list header).
Context (accepts : list Z -> list Z -> nat).

Notation plan := (HdrPlanFraming keepwait keepmaxuploadsize keepmaxdownloadsize line_ version_ headers_ contentLength_).
Notation finalize := (Ns_FinalizeResponseHeaders keepwait keepmaxuploadsize keepmaxdownloadsize line_ version_ headers_ contentLength_
  printf_version responseStatus statusPhrase date serverName NsTLSAddOutputHeaders altSvc extraHeaders driverHeaders).
Notation write := (Ns_ConnWriteVData keepwait keepmaxuploadsize keepmaxdownloadsize line_ version_ headers_ contentLength_
  printf_version responseStatus statusPhrase date serverName NsTLSAddOutputHeaders altSvc extraHeaders driverHeaders accepts).
Notation close := (ConnClose_write keepwait keepmaxuploadsize keepmaxdownloadsize line_ version_ headers_ contentLength_
  printf_version responseStatus statusPhrase date serverName NsTLSAddOutputHeaders altSvc extraHeaders driverHeaders accepts).
Notation run := (stream keepwait keepmaxuploadsize keepmaxdownloadsize line_ version_ headers_ contentLength_
  printf_version responseStatus statusPhrase date serverName NsTLSAddOutputHeaders altSvc extraHeaders driverHeaders accepts).
Notation encode := (h1_headersEncodeProc version_ printf_version responseStatus statusPhrase altSvc).
Notation merge := (HdrMergeExtra date serverName NsTLSAddOutputHeaders extraHeaders driverHeaders).

Definition sends_all : Prop := forall w d, (length d <= accepts w d)%nat.

Definition append (data : list Z) (o : Out) : Out := mkOut (o_flags o) (o_keep o) (o_responseLength o) (o_headers o) (o_wire o ++ data).

Lemma send_ok bufs o : sends_all -> Ns_ConnSend accepts bufs o = (sum_vec bufs, append (concat bufs) o).
Proof.
  intros Ha. unfold Ns_ConnSend, append, sum_vec. case_bool_decide; [subst; cbn; by rewrite app_nil_r; destruct o|]. rewrite Nat.min_r by apply Ha. by rewrite firstn_all.
Qed.

(** The chunk of a write; none for nothing. *)
Definition chunks_of (bufs : list (list Z)) : list (list Z * list Z) := if bool_decide (concat bufs = []) then [] else [(hex (sum_vec bufs), concat bufs)].
Definition chunk_bytes (bufs : list (list Z)) : list Z := concat (map chunk (chunks_of bufs)).

Lemma sum_vec_app a b : sum_vec (a ++ b) = sum_vec a + sum_vec b.
Proof. unfold sum_vec. rewrite concat_app, length_app. lia. Qed.

Lemma sum_vec_pos bufs : (0 <? sum_vec bufs) = negb (bool_decide (concat bufs = [])).
Proof. unfold sum_vec. case_bool_decide as E; [by rewrite E|]. destruct (concat bufs); [done|]. cbn. destruct (Z.ltb_spec 0 (Z.of_nat (S (length l)))); [done|lia]. Qed.

Lemma concat_chunk bufs : concat bufs <> [] -> concat [hex (sum_vec bufs) ++ CRLF] ++ concat bufs ++ concat [CRLF] = chunk_bytes bufs.
Proof. intros Hb. unfold chunk_bytes, chunks_of. rewrite bool_decide_eq_false_2 by done. cbn. rewrite !app_nil_r, <- app_assoc. done. Qed.

(** What a write puts out of the body. *)
Definition piece (o : Out) (bufs : list (list Z)) : list Z :=
  if flag SKIPBODY o then [] else if flag CHUNK o then chunk_bytes bufs else concat bufs.

Lemma body_piece bufs o sbufs n : (length sbufs <= 1)%nat -> exists vs,
  body_vectors (vec_capacity (Z.of_nat (length bufs))) bufs (2 ^ STREAM) o sbufs n = Some (o, vs, n + Z.of_nat (length (piece o bufs))) /\
  concat vs = concat sbufs ++ piece o bufs.
Proof.
  intros Hs. unfold body_vectors, piece. cbv zeta. destruct (capacity_ge (Z.of_nat (length bufs))) as [Hc _]. change (Z.testbit (2 ^ STREAM) STREAM_CLOSE) with false.
  destruct (flag SKIPBODY o); cbn [negb]; [exists sbufs; cbn; by rewrite Z.add_0_r, app_nil_r|]. destruct (flag CHUNK o); cbn [negb].
  - rewrite sum_vec_pos. case_bool_decide as Eb; cbn [negb mbind option_bind].
    + exists sbufs. unfold chunk_bytes, chunks_of. rewrite bool_decide_eq_true_2 by done. cbn. by rewrite Z.add_0_r, app_nil_r.
    + do 3 (rewrite set_vecs_ok by (rewrite ?length_app; cbn [length]; lia); cbn [mbind option_bind]). eexists. rewrite <- (concat_chunk bufs Eb). split.
      * do 2 f_equal. generalize (hex (sum_vec bufs)). intros h. unfold sum_vec. cbn [concat]. rewrite !length_app. change (length CRLF) with 2%nat. cbn. lia.
      * by rewrite !concat_app, <- !app_assoc.
  - case_bool_decide as Eb; [exists bufs; by rewrite Eb|]. rewrite set_vecs_ok by lia. cbn [mbind option_bind]. eexists. split; [done|]. apply concat_app.
Qed.

(** A write when the header was sent. *)
Lemma write_later bufs o : sends_all -> flag SENTHDRS o = true -> write bufs (2 ^ STREAM) o = Some (true, append (piece o bufs) (set_flag STREAM o)).
Proof.
  intros Ha H1. unfold Ns_ConnWriteVData. cbv zeta. change (Z.testbit (2 ^ STREAM) STREAM) with true. cbn iota. rewrite flag_set_other by done. rewrite H1. cbn [negb mbind option_bind].
  destruct (body_piece bufs (set_flag STREAM o) [] 0) as (vs & -> & Ev); [cbn; lia|]. cbn [mbind option_bind]. rewrite send_ok by done. unfold sum_vec. rewrite Ev. cbn [concat app].
  rewrite (proj2 (Z.ltb_ge _ _)) by lia. unfold piece. by rewrite !flag_set_other by done.
Qed.

(** A response that is sent in chunks when it is streamed: the length is not known, the client knows chunks, the connection
    is not to be closed, and the type does not delimit the body. *)
Definition chunks (o : Out) : bool :=
  (o_responseLength o <? 0) && dlt (lit "1.0") version_ && negb (o_keep o =? 0) && negb (HdrEq (o_headers o) (bytes "content-type") (bytes "multipart/byteranges")).
Definition chunked (o : Out) : bool := flag CHUNK o || negb (flag SKIPHDRS o) && chunks o.

(** The fields that are planned for the header of a stream. *)
Definition stream_fields (o : Out) (keep : bool) : list header :=
  let hs := set_put (bytes "connection") (if keep then bytes "keep-alive" else bytes "close") (o_headers o) in
  if chunked o then set_put (bytes "transfer-encoding") (bytes "chunked") hs else hs.
Definition stream_header (o : Out) (keep : bool) : list Z := if flag SKIPHDRS o then [] else encode (merge (stream_fields o keep)).

(** The header is made once. *)
Lemma finalize_stream n o : exists o' head k, finalize n (2 ^ STREAM) o = (o', head) /\ default [] head = stream_header o k /\ o_wire o' = o_wire o /\
  flag SENTHDRS o' = flag SENTHDRS o /\ flag SKIPBODY o' = flag SKIPBODY o /\ flag CHUNK o' = chunked o /\ (flag STREAM o = true -> flag STREAM o' = true).
Proof.
  unfold Ns_FinalizeResponseHeaders, stream_header, stream_fields, chunked. destruct (flag SKIPHDRS o).
  - rewrite orb_false_r. exists (if dlt version_ (lit "1.0") then keep_as 0 o else o), None, true. by destruct (dlt version_ (lit "1.0")).
  - unfold HdrPlanFraming. change (Z.testbit (2 ^ STREAM) STREAM) with true. cbn iota. cbv zeta. cbn [negb andb].
    change (_ && negb (HdrEq (o_headers (set_flag STREAM o)) _ _)) with (chunks o). set (o1 := if chunks o then _ else _).
    assert (H : o_headers o1 = o_headers o /\ o_wire o1 = o_wire o /\ flag SENTHDRS o1 = flag SENTHDRS o /\ flag SKIPBODY o1 = flag SKIPBODY o /\ flag CHUNK o1 = flag CHUNK o || chunks o /\ flag STREAM o1 = true).
    { unfold o1. destruct (chunks o); rewrite ?flag_set, ?flag_set_other, ?flag_set by done; by rewrite ?orb_true_r, ?orb_false_r. }
    clearbody o1. destruct H as (E1 & E2 & E3 & E4 & E5 & E6). set (k := CheckKeep _). eexists _, _, k. split; [reflexivity|].
    unfold flag in *. cbn [with_headers keep_as o_flags o_headers o_wire o_keep]. rewrite E5, E1. assert (Ek : negb ((if k then 1 else 0) =? 0) = k) by (by destruct k). rewrite Ek.
    by destruct (Z.testbit (o_flags o) CHUNK || chunks o); cbn [with_headers keep_as o_flags o_headers o_wire].
Qed.

(** The first write: the header and the first part of the body. *)
Lemma write_first bufs o : sends_all -> flag SENTHDRS o = false -> exists o1 o' k,
  write bufs (2 ^ STREAM) o = Some (true, append (piece o1 bufs) o') /\ o_wire o' = o_wire o ++ stream_header o k /\ (forall bufs, piece o' bufs = piece o1 bufs) /\
    flag SENTHDRS o' = true /\ flag SKIPBODY o' = flag SKIPBODY o /\ flag CHUNK o' = chunked o /\ flag STREAM o' = true.
Proof.
  intros Ha H1. unfold Ns_ConnWriteVData. cbv zeta. change (Z.testbit (2 ^ STREAM) STREAM) with true. cbn iota. rewrite flag_set_other by done. rewrite H1. cbn [negb].
  destruct (finalize_stream (sum_vec bufs) (set_flag SENTHDRS (set_flag STREAM o))) as (o1 & head & k & -> & Eh & Ew & F1 & F2 & F3 & F4).
  rewrite flag_set in F1 by done. rewrite !flag_set_other in F2 by done. rewrite flag_set_other, flag_set in F4 by done. specialize (F4 eq_refl).
  assert (Eo : chunked (set_flag SENTHDRS (set_flag STREAM o)) = chunked o) by (unfold chunked; by rewrite !flag_set_other by done). rewrite Eo in F3.
  assert (Es : stream_header (set_flag SENTHDRS (set_flag STREAM o)) k = stream_header o k) by (unfold stream_header, stream_fields; rewrite Eo; by rewrite !flag_set_other by done).
  rewrite Es in Eh. destruct (capacity_ge (Z.of_nat (length bufs))) as [_ Hcap]. exists o1, (append (default [] head) o1), k.
  assert (Hw : forall sbufs, (length sbufs <= 1)%nat -> concat sbufs = default [] head ->
    ('(o, sbufs, toWrite) ← body_vectors (vec_capacity (Z.of_nat (length bufs))) bufs (2 ^ STREAM) o1 sbufs (Z.of_nat (length (default [] head)));
     let '(nwrote, o) := Ns_ConnSend accepts sbufs o in Some (negb (nwrote <? toWrite), o)) = Some (true, append (piece o1 bufs) (append (default [] head) o1))).
  { intros sbufs Hl Ec. destruct (body_piece bufs o1 sbufs (Z.of_nat (length (default [] head))) Hl) as (vs & -> & Ev). cbn [mbind option_bind]. rewrite send_ok by done.
    unfold sum_vec. rewrite Ev, Ec, (proj2 (Z.ltb_ge _ _)) by (rewrite length_app; lia). unfold append. cbn [o_wire o_flags o_keep o_responseLength o_headers]. by rewrite <- app_assoc. }
  split; [|split; [by cbn [append o_wire]; rewrite Ew, Eh|split; [done|split_and!; done]]].
  destruct head as [ds|]; cbn [mbind option_bind]; [|apply (Hw []); cbn; [lia|done]]. rewrite set_vecs_ok by (cbn [length]; lia). cbn [mbind option_bind app default]. apply Hw; [cbn; lia|]. cbn. apply app_nil_r.
Qed.

(** The end of a stream. *)
Definition stream_end (o : Out) : list Z := if negb (flag SKIPBODY o) && flag CHUNK o then [48; 13; 10; 13; 10] else [].

Lemma close_stream o : sends_all -> flag SENTHDRS o = true -> flag STREAM o = true -> exists o', close o = Some o' /\ o_wire o' = o_wire o ++ stream_end o.
Proof.
  intros Ha H1 H4. unfold ConnClose_write, stream_end. rewrite H4. cbn [andb]. destruct (flag CHUNK o) eqn:H3; [|rewrite andb_false_r; exists o; by rewrite app_nil_r].
  unfold Ns_ConnWriteVData, body_vectors. cbv zeta. change (Z.testbit (2 ^ STREAM_CLOSE) STREAM) with false.
  cbn iota. rewrite H1. cbn [negb mbind option_bind]. rewrite H3. cbn [negb]. change (0 <? sum_vec []) with false. change (Z.testbit (2 ^ STREAM_CLOSE) STREAM_CLOSE) with true.
  destruct (flag SKIPBODY o); cbn [negb andb mbind option_bind]; [eexists; split; [done|]; by rewrite app_nil_r|].
  destruct (capacity_ge (Z.of_nat (length (@nil (list Z))))) as [_ Hc]. rewrite set_vecs_ok by (cbn [length] in *; lia). cbn [mbind option_bind]. rewrite send_ok by done. by eexists.
Qed.

Lemma stream_later writes : forall o, sends_all -> flag SENTHDRS o = true -> flag STREAM o = true ->
  exists o', run writes o = Some o' /\ o_wire o' = o_wire o ++ concat (piece o <$> writes) ++ stream_end o.
Proof.
  induction writes as [|bufs writes IH]; intros o Ha H1 H4; cbn [stream].
  - destruct (close_stream o Ha H1 H4) as (o' & -> & E). by exists o'.
  - rewrite write_later by done. cbn [mbind option_bind]. destruct (IH (append (piece o bufs) (set_flag STREAM o))) as (o' & E & Ew);
      [done|unfold append, flag, set_flag in *; cbn [o_flags] in *; rewrite Z.setbit_eqb by done; by rewrite ?H1, ?H4..|].
    exists o'. split; [exact E|]. rewrite Ew. assert (Hf : forall b, b <> STREAM -> flag b (append (piece o bufs) (set_flag STREAM o)) = flag b o) by (intros b Hb; by apply flag_set_other).
    unfold stream_end. rewrite !Hf by done. assert (Hp : piece (append (piece o bufs) (set_flag STREAM o)) <$> writes = piece o <$> writes).
    { apply list_fmap_ext. intros i w _. unfold piece at 1. by rewrite !Hf by done. }
    rewrite Hp. cbn. by rewrite <- !app_assoc.
Qed.

Lemma chunks_ok bufs : sum_vec bufs < 2 ^ 63 -> Forall chunk_ok (chunks_of bufs) /\ concat (map snd (chunks_of bufs)) = concat bufs.
Proof.
  intros Hs. unfold chunks_of. case_bool_decide as E; [by rewrite E; split|]. split; [|cbn; by rewrite app_nil_r]. repeat constructor; [done|]. apply hex_size_line. unfold sum_vec in *. cbn. lia.
Qed.

Lemma message_of writes : Forall (fun bufs => sum_vec bufs < 2 ^ 63) writes -> exists chunks, Forall chunk_ok chunks /\ concat (map snd chunks) = concat (concat (A:=Z) <$> writes) /\
  concat (chunk_bytes <$> writes) ++ [48; 13; 10; 13; 10] = message chunks [48] [].
Proof.
  intros Hw. exists (concat (chunks_of <$> writes)). induction Hw as [|bufs writes Hb _ (IH1 & IH2 & IH3)]; [split_and!; [constructor|done|done]|]. destruct (chunks_ok bufs Hb) as [H1 H2].
  cbn [fmap list_fmap concat] in *. split_and!; [by apply Forall_app|by rewrite map_app, concat_app, H2, <- IH2|].
  unfold message in *. rewrite map_app, concat_app, <- !app_assoc. fold (chunk_bytes bufs). f_equal. exact IH3.
Qed.
End sent.

(** C12.  A streamed response whose header was not sent before: whatever is written in one or more writes of whatever pieces
    (each below 2^63 bytes), when the socket takes all of it, what goes out is the header and the body.  The header has the
    fields of the response, that of the connection and, for a response in chunks,
    "transfer-encoding: chunked"; it is left out for a response that skips it.  The body is empty when it is skipped (HEAD);
    in chunks it is what the decoder for chunked bodies turns into exactly what was written, and
    that ends there; else it is what was written.  A response is in chunks when its header is
    sent, the length is not set, the version is above 1.0, the connection is not marked to be closed and the type is not multipart/byteranges. *)
Theorem stream_decoded keepwait up down line version headers contentLength printf status phrase date server tls altSvc extra driver accepts writes o next :
  sends_all accepts -> flag SENTHDRS o = false -> writes <> [] -> Forall (fun bufs => sum_vec bufs < 2 ^ 63) writes ->
  exists o' keep body, stream keepwait up down line version headers contentLength printf status phrase date server tls altSvc extra driver accepts writes o = Some o' /\
    o_wire o' = o_wire o ++ stream_header version printf status phrase date server tls altSvc extra driver o keep ++ body /\
    if flag SKIPBODY o then body = []
    else if chunked version o then Chunked.decode (body ++ next) = (SOCK_READY, concat (concat (A:=Z) <$> writes), next)
    else body = concat (concat (A:=Z) <$> writes).
Proof.
  intros Ha H1 Hne Hw. destruct (message_of writes Hw) as (cs & Hok & Ed & Em). destruct writes as [|bufs writes]; [done|]. cbn [stream].
  destruct (write_first keepwait up down line version headers contentLength printf status phrase date server tls altSvc extra driver accepts bufs o Ha H1) as (o1 & o2 & k & -> & Ew & Ep & F1 & F2 & F3 & F4).
  cbn [mbind option_bind]. destruct (stream_later keepwait up down line version headers contentLength printf status phrase date server tls altSvc extra driver accepts writes (append (piece o1 bufs) o2) Ha F1 F4) as (o' & E' & Ew').
  exists o', k, (concat (piece o2 <$> bufs :: writes) ++ stream_end o2). split; [exact E'|]. split.
  - rewrite Ew'. change (piece (append (piece o1 bufs) o2)) with (piece o2). change (stream_end (append (piece o1 bufs) o2)) with (stream_end o2).
    cbn [append o_wire fmap list_fmap concat]. rewrite Ew, Ep. by rewrite <- !app_assoc.
  - assert (Hpc : forall f, (forall b, piece o2 b = f b) -> concat (piece o2 <$> bufs :: writes) = concat (f <$> bufs :: writes)) by (intros f Hf; f_equal; by apply list_fmap_ext).
    unfold stream_end. rewrite F2, F3. destruct (flag SKIPBODY o); cbn [negb andb].
    + rewrite app_nil_r. rewrite (Hpc (fun _ => [])) by (intros; unfold piece; by rewrite F2). clear. generalize (bufs :: writes). induction l as [|x l IH]; [done|exact IH].
    + destruct (chunked version o); [|rewrite app_nil_r; apply Hpc; intros; unfold piece; by rewrite F2, F3]. rewrite (Hpc chunk_bytes), Em by (intros; unfold piece; by rewrite F2, F3).
      rewrite decode_message; [by rewrite Ed|done| |constructor]. exists [48], []. split_and!; [done|split; [done|]|done|done|constructor|by left]. by repeat constructor; eexists.
Qed.

(** ** The framing of kept connections *)

Lemma get_put name v hs key : get_header (set_put name v hs) key = match get_header hs key with Some w => Some w | None => if bool_decide (tolower <$> name = tolower <$> key) then Some v else None end.
Proof.
  unfold get_header, set_put. induction hs as [|h hs IH]; cbn [app List.find].
  - cbn [fst]. by destruct (bool_decide (tolower <$> name = tolower <$> key)).
  - destruct (bool_decide (h.1 = tolower <$> key)); [by destruct h|exact IH].
Qed.

Lemma get_iupdate_new name v hs : get_header hs name = None -> Forall (fun h => tolower <$> h.1 = h.1) hs -> get_header (set_iupdate name v hs) name = Some v.
Proof.
  unfold get_header. induction hs as [|h hs IH]; cbn [set_iupdate List.find]; intros Hn Hl; [cbn; by rewrite bool_decide_eq_true_2|].
  apply Forall_cons in Hl as [Hh Hl]. rewrite Hh. case_bool_decide; [by destruct h|]. cbn [List.find]. rewrite bool_decide_eq_false_2 by done. by apply IH.
Qed.

(** Without a framing a connection is not kept, unless that is forced. *)
Lemma unframed_not_kept keepwait up down line version headers contentLength o : o_keep o <= 0 -> flag CHUNK o = false ->
  get_header (o_headers o) (bytes "content-length") = None -> HdrEq (o_headers o) (bytes "content-type") (bytes "multipart/byteranges") = false ->
  CheckKeep (conn_of keepwait up down line version headers contentLength o) = false.
Proof.
  intros Hk Hc Hl Hm. unfold CheckKeep, conn_of. cbn [c_keepwait c_keep c_line c_version c_headers c_contentLength c_keepmaxuploadsize c_keepmaxdownloadsize c_responseLength c_chunk c_outputheaders].
  rewrite (proj2 (Z.ltb_ge 0 (o_keep o)) Hk), Hc, Hl, Hm. by repeat match goal with |- (if ?b then _ else _) = _ => destruct b end.
Qed.

(** When the header of a response announces that the connection is kept, the end of the
    response is determined: a streamed response is chunked and says so, and any other one has
    the length of its body in the field "content-length".  This is for responses for which the
    application has neither set a length, nor forced the connection to be kept. *)
Theorem kept_response_framed keepwait up down line version headers contentLength n flags o :
  let o' := HdrPlanFraming keepwait up down line version headers contentLength n flags o in
  o_keep o = -1 -> o_responseLength o < 0 -> flag CHUNK o = false -> get_header (o_headers o) (bytes "content-length") = None ->
  HdrEq (o_headers o) (bytes "content-type") (bytes "multipart/byteranges") = false -> Forall (fun h => tolower <$> h.1 = h.1) (o_headers o) ->
  o_keep o' <> 0 ->
  if Z.testbit flags STREAM then flag CHUNK o' = true /\ (bytes "transfer-encoding", bytes "chunked") ∈ o_headers o'
  else get_header (o_headers o') (bytes "content-length") = Some (dec n).
Proof.
  cbv zeta. intros Hk Hr Hc Hl Hm Hlow Hkeep. unfold HdrPlanFraming in *. cbv zeta in *. destruct (Z.testbit flags STREAM).
  - cbn [set_flag o_responseLength o_keep o_headers] in *. rewrite (proj2 (Z.ltb_lt _ _) Hr), Hk, Hm in *. cbn [andb negb Z.eqb] in *. rewrite andb_true_r in *. destruct (dlt (lit "1.0") version) eqn:Ev; cbn [andb] in *.
    + set (o1 := with_headers _ _) in *. assert (Hc1 : flag CHUNK o1 = true) by (unfold o1, flag; cbn [with_headers keep_as o_flags set_flag]; by rewrite Z.setbit_eq).
      rewrite Hc1. split; [exact Hc1|]. cbn. apply elem_of_app. right. by left.
    + exfalso. apply Hkeep. rewrite unframed_not_kept; [|change (o_keep o <= 0); lia|by rewrite flag_set_other by done|done|done].
      match goal with |- o_keep (if ?b then _ else _) = _ => by destruct b end.
  - rewrite (proj2 (Z.ltb_lt _ _) Hr) in *. set (o1 := keep_as _ _) in *. set (o2 := with_headers _ o1) in *.
    assert (E : get_header (o_headers o2) (bytes "content-length") = Some (dec n)).
    { unfold o2, o1. cbn [with_headers keep_as o_headers Ns_ConnSetLengthHeader]. rewrite get_put, get_iupdate_new by done. done. }
    destruct (flag CHUNK o2); [|exact E]. cbn [with_headers o_headers]. by rewrite get_put, E.
Qed.

(** ** Fields cannot add fields *)

(** The lines of a text, with their newlines. *)
Fixpoint lines_of (l : list Z) : list (list Z) :=
  match l with
  | [] => []
  | c :: l => if c =? 10 then [c] :: lines_of l else match lines_of l with x :: r => (c :: x) :: r | [] => [[c]] end
  end.

Lemma lines_cons c l : lines_of (c :: l) = if c =? 10 then [c] :: lines_of l else match lines_of l with x :: r => (c :: x) :: r | [] => [[c]] end.
Proof. reflexivity. Qed.

Lemma lines_nonempty c l : lines_of (c :: l) <> [].
Proof. rewrite lines_cons. destruct (c =? 10); [done|]. by destruct (lines_of l). Qed.

Lemma lines_app a b : last a = Some 10 -> lines_of (a ++ b) = lines_of a ++ lines_of b.
Proof.
  induction a as [|c a IH]; [done|]. intros Hl. destruct a as [|d a]; [injection Hl as ->; done|]. specialize (IH Hl).
  change ((c :: d :: a) ++ b) with (c :: ((d :: a) ++ b)). rewrite !(lines_cons c), IH. destruct (c =? 10); [done|].
  pose proof (lines_nonempty d a) as Hne. by destruct (lines_of (d :: a)).
Qed.

Lemma lines_prefix p l : Forall (fun c => c <> 10) p -> forall x r, lines_of l = x :: r -> lines_of (p ++ l) = (p ++ x) :: r.
Proof.
  induction 1 as [|c p Hc _ IH]; intros x r E; [done|]. cbn [app lines_of]. rewrite (proj2 (Z.eqb_neq _ _)) by done. by rewrite (IH x r E).
Qed.

Definition continues (l : list Z) : Prop := exists r, l = 9 :: r.

Lemma lines_value v : exists x r, lines_of (HdrSanitizeValue v ++ CRLF) = x :: r /\ Forall continues r.
Proof.
  induction v as [|c v (x & r & E & Hr)]; [exists CRLF, []; by split; [|constructor]|]. cbn [HdrSanitizeValue]. destruct (Z.eqb_spec c 10) as [->|Hc].
  - exists [10], ((9 :: x) :: r). cbn [app lines_of]. cbn [Z.eqb Pos.eqb]. rewrite E. split; [done|]. constructor; [by exists x|done].
  - exists (c :: x), r. cbn [app lines_of]. rewrite (proj2 (Z.eqb_neq _ _)) by done. by rewrite E.
Qed.

(** C33.  Response splitting: whatever the values of the output fields are, the lines of the
    header are for each field one that starts with its name, and lines that start with a tab,
    which continue a field.  The names must be free of newlines. *)
Theorem fields_not_split hs : Forall (fun h => Forall (fun c => c <> 10) h.1) hs ->
  exists conts, lines_of (concat (print_field <$> hs)) = concat conts /\
    Forall2 (fun h ls => exists x r, ls = (h.1 ++ bytes ": " ++ x) :: r /\ Forall continues r) hs conts.
Proof.
  induction 1 as [|h hs Hh _ (conts & E & Hf)]; [by exists []|]. destruct (lines_value h.2) as (x & r & Ev & Hr).
  exists (((h.1 ++ bytes ": " ++ x) :: r) :: conts). split; [|by constructor; [exists x, r|]]. rewrite fmap_cons. cbn [concat]. rewrite lines_app, E.
  - f_equal. unfold print_field. rewrite app_assoc. rewrite (lines_prefix (h.1 ++ bytes ": ") _) with (x := x) (r := r); [by rewrite <- app_assoc| |done].
    apply Forall_app. split; [done|]. by repeat constructor.
  - unfold print_field. change CRLF with ([13] ++ [10]). rewrite !app_assoc. by rewrite last_snoc.
Qed.

(** ** The array of vectors *)

Lemma plan_skipbody kw up down line version headers cl n flags o : flag SKIPBODY (HdrPlanFraming kw up down line version headers cl n flags o) = flag SKIPBODY o.
Proof.
  unfold HdrPlanFraming. cbv zeta. assert (Hf : forall o hs k, flag SKIPBODY (with_headers hs (keep_as k o)) = flag SKIPBODY o) by done.
  set (o1 := if Z.testbit flags STREAM then _ else _). assert (H1 : flag SKIPBODY o1 = flag SKIPBODY o).
  { unfold o1. destruct (Z.testbit flags STREAM); [|by destruct (_ <? _)]. destruct (_ && _ && _ && _); by rewrite !flag_set_other by done. }
  rewrite <- H1. clearbody o1. by destruct (flag CHUNK _).
Qed.

Lemma set_vecs_cases cap vs l : (Z.of_nat (length l) + Z.of_nat (length vs) <= cap /\ set_vecs cap vs l = Some (l ++ vs)) \/ (cap < Z.of_nat (length l) + Z.of_nat (length vs) /\ set_vecs cap vs l = None).
Proof. unfold set_vecs. destruct (Z.leb_spec (Z.of_nat (length l) + Z.of_nat (length vs)) cap); auto. Qed.

Lemma body_vectors_None bufs flags o sbufs n : (length sbufs <= 1)%nat ->
  body_vectors (vec_capacity (Z.of_nat (length bufs))) bufs flags o sbufs n = None <->
  sbufs <> [] /\ flag SKIPBODY o = false /\ flag CHUNK o = true /\ concat bufs <> [] /\ Z.testbit flags STREAM_CLOSE = true /\ 29 <= Z.of_nat (length bufs).
Proof.
  intros Hs. destruct (capacity_ge (Z.of_nat (length bufs))) as [Hcap Hcap']. unfold body_vectors. cbv zeta.
  destruct (flag SKIPBODY o); cbn [negb]; [split; [done|intros (_ & ? & _); done]|]. destruct (flag CHUNK o); cbn [negb].
  - rewrite sum_vec_pos. case_bool_decide as Eb; cbn [negb mbind option_bind].
    + split; [|intros (_ & _ & _ & ? & _); done]. destruct (Z.testbit flags STREAM_CLOSE); [|done]. rewrite set_vecs_ok by (cbn [length]; lia). done.
    + do 3 (rewrite set_vecs_ok by (rewrite ?length_app; cbn [length]; lia); cbn [mbind option_bind]).
      destruct (Z.testbit flags STREAM_CLOSE); [|split; [done|intros (_ & _ & _ & _ & ? & _); done]].
      match goal with |- context [set_vecs ?c ?v ?l] => destruct (set_vecs_cases c v l) as [[Hl ->]|[Hl ->]] end; rewrite !length_app in Hl; cbn [length mbind option_bind] in *.
      * split; [done|]. intros (Hne & _ & _ & _ & _ & Hn). assert (length sbufs = 1%nat) by (destruct sbufs; [done|cbn in *; lia]). unfold vec_capacity in Hl. cbv zeta in Hl. destruct (Z.ltb_spec 32 (Z.of_nat (length bufs) + 2 + 1)); lia.
      * split; [|done]. intros _. assert (sbufs <> []) by (intros ->; cbn in Hl; lia). split_and!; try done. unfold vec_capacity in Hl. cbv zeta in Hl. destruct (Z.ltb_spec 32 (Z.of_nat (length bufs) + 2 + 1)); lia.
  - split; [|intros (_ & _ & ? & _); done]. case_bool_decide; [done|]. rewrite set_vecs_ok by lia. done.
Qed.

(** A write stores the header block, the vectors it is given and those of the chunked
    encoding within the array it provides for them, except in one case, in which it stores
    a vector behind the end: when one call with 29 vectors or more, some of them not empty,
    sends the header of a chunked response and closes the stream. *)
Theorem vectors_overflow kw up down line version headers cl printf status phrase date server tls altSvc extra driver accepts bufs flags o :
  let o1 := set_flag SENTHDRS (if Z.testbit flags STREAM then set_flag STREAM o else o) in
  let o2 := (Ns_FinalizeResponseHeaders kw up down line version headers cl printf status phrase date server tls altSvc extra driver (sum_vec bufs) flags o1).1 in
  Ns_ConnWriteVData kw up down line version headers cl printf status phrase date server tls altSvc extra driver accepts bufs flags o = None <->
  flag SENTHDRS o = false /\ flag SKIPHDRS o = false /\ flag SKIPBODY o = false /\ flag CHUNK o2 = true /\ concat bufs <> [] /\ Z.testbit flags STREAM_CLOSE = true /\
  29 <= Z.of_nat (length bufs).
Proof.
  cbv zeta. unfold Ns_ConnWriteVData. cbv zeta. set (o0 := if Z.testbit flags STREAM then set_flag STREAM o else o).
  assert (F : forall b, b <> STREAM -> flag b o0 = flag b o) by (intros b Hb; unfold o0; destruct (Z.testbit flags STREAM); [by rewrite flag_set_other|done]).
  assert (Hend : forall x, (('(o, sbufs, toWrite) ← x; let '(nwrote, o) := Ns_ConnSend accepts sbufs o in Some (negb (nwrote <? toWrite), o)) = None) <-> x = None).
  { intros [[[o' sb] n]|]; cbn; [|done]. by destruct (Ns_ConnSend accepts sb o'). }
  destruct (capacity_ge (Z.of_nat (length bufs))) as [Hcap Hcap']. rewrite (F SENTHDRS) by done. destruct (flag SENTHDRS o) eqn:E1; cbn [negb mbind option_bind].
  - rewrite Hend, body_vectors_None by (cbn; lia). split; [intros (? & _); done|intros (? & _); done].
  - unfold Ns_FinalizeResponseHeaders. rewrite flag_set_other, (F SKIPHDRS) by done. destruct (flag SKIPHDRS o) eqn:E2; cbn [fst mbind option_bind].
    + rewrite Hend, body_vectors_None by (cbn; lia). split; [intros (? & _); done|intros (_ & ? & _); done].
    + rewrite set_vecs_ok by (cbn [length]; lia). cbn [mbind option_bind]. rewrite Hend, body_vectors_None by (cbn; lia).
      assert (Hsb : flag SKIPBODY (with_headers (HdrMergeExtra date server tls extra driver (o_headers (HdrPlanFraming kw up down line version headers cl (sum_vec bufs) flags (set_flag SENTHDRS o0))))
        (HdrPlanFraming kw up down line version headers cl (sum_vec bufs) flags (set_flag SENTHDRS o0))) = flag SKIPBODY o).
      { change (flag SKIPBODY (HdrPlanFraming kw up down line version headers cl (sum_vec bufs) flags (set_flag SENTHDRS o0)) = flag SKIPBODY o). rewrite plan_skipbody, flag_set_other, (F SKIPBODY); done. }
      rewrite Hsb. split; [intros (_ & ? & ? & ? & ? & ?); split_and!; done|intros (_ & _ & ? & ? & ? & ? & ?); split_and!; done].
Qed.

(** ** Examples *)

Definition all_of (_ d : list Z) : nat := length d.
Definition new_response : Out := mkOut 0 (-1) (-1) [(bytes "content-type", bytes "text/plain")] [].
Definition same (hs : list header) : list header := hs.
Definition ex_stream := stream (10, 0) 0 0 (Some (bytes "GET / HTTP/1.1")) (lit "1.1") [] 0 (fun _ => bytes "1.1") 200 (fun _ => bytes "OK") (bytes "now") None same None [] [] all_of.

Lemma stream_decoded_witness : exists o' keep body, ex_stream [[bytes "Hello, "; bytes "world"]; [bytes "!"]] new_response = Some o' /\
  o_wire o' = stream_header (lit "1.1") (fun _ => bytes "1.1") 200 (fun _ => bytes "OK") (bytes "now") None same None [] [] new_response keep ++ body /\
  Chunked.decode (body ++ []) = (SOCK_READY, bytes "Hello, world!", []).
Proof.
  apply (stream_decoded (10, 0) 0 0 (Some (bytes "GET / HTTP/1.1")) (lit "1.1") [] 0 (fun _ => bytes "1.1") 200 (fun _ => bytes "OK") (bytes "now") None same None [] [] all_of
    [[bytes "Hello, "; bytes "world"]; [bytes "!"]] new_response []); try reflexivity; try discriminate.
  - intros w d. unfold all_of. lia.
  - repeat constructor; reflexivity.
Defined.

Lemma kept_response_framed_witness :
  get_header (o_headers (HdrPlanFraming (10, 0) 0 0 (Some (bytes "GET / HTTP/1.1")) (lit "1.1") [] 0 5 0 new_response)) (bytes "content-length") = Some (bytes "5").
Proof.
  apply (kept_response_framed (10, 0) 0 0 (Some (bytes "GET / HTTP/1.1")) (lit "1.1") [] 0 5 0 new_response); try reflexivity.
  - repeat constructor.
  - vm_compute. discriminate.
Defined.

Lemma fields_not_split_witness : exists conts, lines_of (concat (print_field <$> [(bytes "location", bytes "/x" ++ [13; 10] ++ bytes "set-cookie: a=b")])) = concat conts /\
  Forall2 (fun h ls => exists x r, ls = (h.1 ++ bytes ": " ++ x) :: r /\ Forall continues r) [(bytes "location", bytes "/x" ++ [13; 10] ++ bytes "set-cookie: a=b")] conts.
Proof. apply fields_not_split. repeat constructor; discriminate. Defined.
