(* ===== verification/Cookies.v ===== *)
(** * Cookies: cookies of requests and responses (nsd/cookies.c).

    A header set is the list of its fields, a C string the list of its bytes before the NUL, a
    pointer into a string what it points to.  Searching in the headers of a request, in those
    of the response, setting, replacing and expiring cookies, and the commands [ns_setcookie],
    [ns_getcookie] and [ns_deletecookie] behind the parsing of their arguments.  Values are
    encoded with UrlEncode.v; the set of output headers is that of Output.v. *)

From S2P Require Import Prelude Str UrlEncode Header Output.

(** ** Reading *)

(** Code that may run out of fuel ([None]). *)
Definition obind {A B} (m : outcome (option A)) (k : A -> outcome (option B)) : outcome (option B) :=
  r ← m; match r with Some a => k a | None => Ret None end.
Notation "x ⇐ m ; k" := (obind m (fun x => k)) (at level 20, m at level 100, k at level 200, right associativity).

(** The value up to a quote, a semicolon or the end, and what follows. *)
Fixpoint value_span (q : list Z) : list Z * list Z :=
  match q with
  | [] => ([], [])
  | c :: q' => if (c =? 34) || (c =? 59) then ([], q) else let '(v, r) := value_span q' in (c :: v, r)
  end.

Fixpoint skip_delimiters (q : list Z) : list Z :=
  match q with
  | [] => []
  | c :: q' => if (c =? 34) || (c =? 59) then skip_delimiters q' else q
  end.

Fixpoint skip_white (p : list Z) : list Z :=
  match p with
  | [] => []
  | c :: p' => if isspace c then skip_white p' else p
  end.

(** Behind the next semicolon, or the end. *)
Fixpoint behind_semicolon (p : list Z) : list Z :=
  match p with
  | [] => []
  | c :: p => if c =? 59 then p else behind_semicolon p
  end.

(** [strncmp] with the length of the name, and an equals sign: what follows it. *)
Fixpoint full_match (toParse name : list Z) : option (list Z) :=
  match name, toParse with
  | [], c :: q => if c =? 61 then Some q else None
  | n :: name, c :: q => if c =? n then full_match q name else None
  | _, [] => None
  end.

Section cookies.
Context `{TclEncoding}.

(** The dstring and the position behind the value. *)
Definition CopyCookieValue (dest valueStart : list Z) : outcome (option (list Z * list Z)) :=
  let valueStart := match valueStart with c :: v => if c =? 34 then v else valueStart | [] => [] end in
  let '(value, q) := value_span valueStart in
  d ⇐ Ns_CookieDecode dest value None;
  Ret (Some (d.1, skip_delimiters q)).

(** A parser gives the dstring ([None] is [NULL]), whether the cookie was found and [*nextPtr]. *)
Definition CookieParser : Type := option (list Z) -> list Z -> list Z -> outcome (option (option (list Z) * bool * list Z)).

(** The cookie was found and [q] is its value. *)
Definition found (dest : option (list Z)) (q : list Z) : outcome (option (option (list Z) * bool * list Z)) :=
  match dest with
  | None => Ret (Some (None, true, q))
  | Some d => r ⇐ CopyCookieValue d q; Ret (Some (Some r.1, true, r.2))
  end.

Fixpoint cookie_header_loop (fuel : nat) (dest : option (list Z)) (toParse name : list Z) :
    outcome (option (option (list Z) * bool * list Z)) :=
  match toParse with
  | [] => Ret (Some (dest, false, []))
  | _ =>
      match fuel with
      | O => Ret None
      | S fuel =>
          match skip_white toParse with
          | [] => Ret (Some (dest, false, []))
          | toParse =>
              match full_match toParse name with
              | Some q => found dest q
              | None => cookie_header_loop fuel dest (behind_semicolon toParse) name
              end
          end
      end
  end.

Definition GetFromCookieHeader : CookieParser := fun dest chars name => cookie_header_loop (length chars) dest chars name.

Definition GetFromSetCookieHeader : CookieParser := fun dest chars name =>
  let toParse := skip_white chars in
  match full_match toParse name with
  | Some q => found dest q
  | None => Ret (Some (dest, false, toParse))
  end.

Definition cookieParser (setName : list Z) : CookieParser :=
  if nth 0 setName 0 =? 99 then GetFromCookieHeader else GetFromSetCookieHeader.

Definition is_field (setName : list Z) (h : header) : bool := bool_decide (tolower <$> h.1 = tolower <$> setName).

(** The dstring and the index of the field, or -1. *)
Fixpoint first_loop (parser : CookieParser) (i : Z) (dest : option (list Z)) (hdrs : list header) (setName name : list Z) :
    outcome (option (option (list Z) * Z)) :=
  match hdrs with
  | [] => Ret (Some (dest, -1))
  | h :: hdrs =>
      if is_field setName h then
        r ⇐ parser dest h.2 name;
        if r.1.2 then Ret (Some (r.1.1, i)) else first_loop parser (i + 1) r.1.1 hdrs setName name
      else first_loop parser (i + 1) dest hdrs setName name
  end.

Definition GetFirstNamedCookie (dest : option (list Z)) (hdrs : list header) (setName name : list Z) :=
  first_loop (cookieParser setName) 0 dest hdrs setName name.

(** The loop over a field; the elements of the Tcl list are C strings. *)
Fixpoint all_loop (fuel : nat) (parser : CookieParser) (count : Z) (values : list (list Z)) (toParse name : list Z) :
    outcome (option (Z * list (list Z))) :=
  match toParse with
  | [] => Ret (Some (count, values))
  | _ =>
      match fuel with
      | O => Ret None
      | S fuel =>
          r ⇐ parser (Some []) toParse name;
          if r.1.2 then all_loop fuel parser (count + 1) (values ++ [before_nul (default [] r.1.1)]) r.2 name
          else all_loop fuel parser count values r.2 name
      end
  end.

Definition GetAllNamedCookies (hdrs : list header) (setName name : list Z) : outcome (option (Z * list (list Z))) :=
  match List.find (is_field setName) hdrs with
  | Some h => all_loop (length h.2) (cookieParser setName) 0 [] h.2 name
  | None => Ret (Some (0, []))
  end.

(** [Ns_ConnGetCookie]: [None] inside is [NULL]. *)
Definition Ns_ConnGetCookie (dest : list Z) (headers : list header) (name : list Z) : outcome (option (option (list Z))) :=
  r ⇐ GetFirstNamedCookie (Some dest) headers (bytes "cookie") name;
  Ret (Some (if negb (r.2 =? -1) then r.1 else None)).

(** ** Setting *)

(** [Ns_SetDelete] with the index of a field. *)
Fixpoint delete_loop (fuel : nat) (success : bool) (hdrs : list header) (setName name : list Z) : outcome (option (list header * bool)) :=
  match fuel with
  | O => Ret None
  | S fuel =>
      r ⇐ GetFirstNamedCookie None hdrs setName name;
      if negb (r.2 =? -1) then delete_loop fuel true (delete (Z.to_nat r.2) hdrs) setName name else Ret (Some (hdrs, success))
  end.

Definition DeleteNamedCookies (hdrs : list header) (setName name : list Z) : outcome (option (list header * bool)) :=
  delete_loop (S (length hdrs)) false hdrs setName name.

Definition NS_COOKIE_SECURE : Z := 0x01.
Definition NS_COOKIE_SCRIPTABLE : Z := 0x02.
Definition NS_COOKIE_DISCARD : Z := 0x04.
Definition NS_COOKIE_REPLACE : Z := 0x08.
Definition NS_COOKIE_EXPIRENOW : Z := 0x10.
Definition NS_COOKIE_SAMESITE_STRICT : Z := 0x20.
Definition NS_COOKIE_SAMESITE_LAX : Z := 0x40.
Definition NS_COOKIE_SAMESITE_NONE : Z := 0x80.

Definition TIME_T_MAX : Z := 2 ^ 63 - 1.

Definition cookie_flag (flags bit : Z) : bool := negb (Z.land flags bit =? 0).

(** What follows the closing quote. *)
Definition cookie_attributes (maxage : Z) (domain path : option (list Z)) (flags : Z) : list Z :=
  (if cookie_flag flags NS_COOKIE_EXPIRENOW then bytes "; Expires=Fri, 01-Jan-1980 01:00:00 GMT"
   else if maxage =? TIME_T_MAX then bytes "; Expires=Fri, 01-Jan-2035 01:00:00 GMT"
   else if 0 <? maxage then bytes "; Max-Age=" ++ dec maxage else []) ++
  match domain with Some (c :: d) => bytes "; Domain=" ++ c :: d | _ => [] end ++
  match path with Some p => bytes "; Path=" ++ p | None => [] end ++
  (if cookie_flag flags NS_COOKIE_SECURE then bytes "; Secure" else []) ++
  (if cookie_flag flags NS_COOKIE_DISCARD then bytes "; Discard" else []) ++
  (if cookie_flag flags NS_COOKIE_SCRIPTABLE then [] else bytes "; HttpOnly") ++
  (if cookie_flag flags NS_COOKIE_SAMESITE_STRICT then bytes "; SameSite=Strict"
   else if cookie_flag flags NS_COOKIE_SAMESITE_LAX then bytes "; SameSite=Lax"
   else if cookie_flag flags NS_COOKIE_SAMESITE_NONE then bytes "; SameSite=None" else []).

(** The output headers afterwards. *)
Definition Ns_ConnSetCookieEx (outputheaders : list header) (name : list Z) (value : option (list Z)) (maxage : Z)
    (domain path : option (list Z)) (flags : Z) : outcome (option (list header)) :=
  hdrs ⇐ (if cookie_flag flags NS_COOKIE_REPLACE then DeleteNamedCookies outputheaders (bytes "set-cookie") name
          else Ret (Some (outputheaders, false)));
  cookie ← (match value with Some v => Ns_CookieEncode (name ++ [61; 34]) v None | None => Ret (name ++ [61; 34]) end);
  Ret (Some (set_put (bytes "set-cookie") (cookie ++ [34] ++ cookie_attributes maxage domain path flags) hdrs.1)).

Definition Ns_ConnSetCookie out name value maxage := Ns_ConnSetCookieEx out name value maxage None None 0.
Definition Ns_ConnSetSecureCookie out name value maxage := Ns_ConnSetCookieEx out name value maxage None None NS_COOKIE_SECURE.
Definition Ns_ConnDeleteCookie out name domain path := Ns_ConnSetCookieEx out name None 0 domain path NS_COOKIE_EXPIRENOW.
Definition Ns_ConnDeleteSecureCookie out name domain path :=
  Ns_ConnSetCookieEx out name None 0 domain path (Z.lor NS_COOKIE_EXPIRENOW NS_COOKIE_SECURE).

(** ** The commands *)

(** The values of [samesiteValues]. *)
Variant SameSite := Strict | Lax | NoSameSite.
#[export] Instance SameSite_eq_dec : EqDecision SameSite.
Proof. solve_decision. Defined.

Definition if_flag (b : bool) (bit flags : Z) : Z := if b then Z.lor flags bit else flags.

(** "none" needs a secure cookie. *)
Definition samesite_flag (samesite : SameSite) (secure : bool) (flags : Z) : Z :=
  match (if bool_decide (samesite = NoSameSite) && negb secure then Lax else samesite) with
  | Strict => Z.lor flags NS_COOKIE_SAMESITE_STRICT
  | Lax => Z.lor flags NS_COOKIE_SAMESITE_LAX
  | NoSameSite => Z.lor flags NS_COOKIE_SAMESITE_NONE
  end.

(** [now] and [expires] are seconds. *)
Definition cookie_maxage (now : Z) (expires : option Z) : Z :=
  match expires with
  | None => 0
  | Some sec => if sec <? 0 then TIME_T_MAX else if now <? sec then sec - now else sec
  end.

Definition NsTclSetCookieObjCmd (out : list header) (now : Z) (discard replace scriptable secure : bool) (samesite : SameSite)
    (domain path : option (list Z)) (expires : option Z) (name data : list Z) : outcome (option (list header)) :=
  let flags := if_flag replace NS_COOKIE_REPLACE (if_flag discard NS_COOKIE_DISCARD
                 (if_flag scriptable NS_COOKIE_SCRIPTABLE (if_flag secure NS_COOKIE_SECURE 0))) in
  Ns_ConnSetCookieEx out name (Some data) (cookie_maxage now expires) domain path (samesite_flag samesite secure flags).

Definition NsTclDeleteCookieObjCmd (out : list header) (replace secure : bool) (samesite : SameSite)
    (domain path : option (list Z)) (name : list Z) : outcome (option (list header)) :=
  let flags := if_flag secure NS_COOKIE_SECURE (if_flag replace NS_COOKIE_REPLACE 0) in
  Ns_ConnSetCookieEx out name None 0 domain path (Z.lor NS_COOKIE_EXPIRENOW (samesite_flag samesite secure flags)).

(** The result of [ns_getcookie]: a value, a list of values, the default, an error. *)
Inductive cookie_result := CookieValue (v : list Z) | CookieList (l : list (list Z)) | CookieDefault (d : list Z) | CookieError (msg : list Z).

Definition no_cookie (defaultObj : option (list Z)) : cookie_result :=
  match defaultObj with Some d => CookieDefault d | None => CookieError (bytes "no such cookie") end.

Definition NsTclGetCookieObjCmd (outputheaders headers : list header) (withSetCookies withAll : bool) (name : list Z)
    (defaultObj : option (list Z)) : outcome (option cookie_result) :=
  if withSetCookies && withAll then Ret (Some (CookieError (bytes "invalid combination of flags -include_set_cookies and -all")))
  else if withAll then
    r ⇐ GetAllNamedCookies headers (bytes "cookie") name;
    Ret (Some (if negb (r.1 =? -1) then CookieList r.2 else no_cookie defaultObj))
  else
    r ⇐ (if withSetCookies then GetFirstNamedCookie (Some []) outputheaders (bytes "set-cookie") name else Ret (Some (Some [], -1)));
    r ⇐ (if r.2 =? -1 then GetFirstNamedCookie r.1 headers (bytes "cookie") name else Ret (Some r));
    Ret (Some (if negb (r.2 =? -1) then CookieValue (default [] r.1) else no_cookie defaultObj)).

End cookies.

(** ** Parsing and printing of one cookie *)

(** Names have no semicolon, equals sign or white space. *)
Definition cookie_name (n : list Z) : Prop := Forall (fun c => c <> 59 /\ c <> 61 /\ isspace c = false) n.

(** Values are C strings. *)
Definition cookie_value (v : list Z) : Prop := Forall (fun c => 0 < c < 256) v.

(** A cookie is a name and a value; how it is printed. *)
Definition print_cookie (c : list Z * list Z) : list Z := c.1 ++ [61; 34] ++ escaped ch_c false c.2 ++ [34].
Definition cookie_ok (c : list Z * list Z) : Prop := cookie_name c.1 /\ cookie_value c.2.

Definition delimiter (c : Z) : bool := (c =? 34) || (c =? 59).

Lemma value_bytes v : cookie_value v -> is_bytes v.
Proof. intros Hv. eapply Forall_impl; [exact Hv|]. unfold is_byte. cbn. lia. Qed.

Lemma ch_c_scheme : ch_c ∈ schemes.
Proof. apply list_elem_of_In. cbn. tauto. Qed.

Lemma allowed_delimiter c : allowed ch_c c = true -> delimiter c = false.
Proof.
  unfold delimiter. destruct (Z.eqb_spec c 34) as [->|]; [by vm_compute|]. by destruct (Z.eqb_spec c 59) as [->|]; [vm_compute|].
Qed.

Lemma escaped_no_delimiter v : cookie_value v -> forallb (fun c => negb (delimiter c)) (escaped ch_c false v) = true.
Proof.
  intros Hv. apply value_bytes in Hv. induction Hv as [|c v Hc _ IH]; [done|]. unfold escaped in *. rewrite fmap_cons. cbn [concat].
  rewrite forallb_app, IH, andb_true_r. pose proof (escape_allowed ch_c false c ch_c_scheme Hc) as Ha.
  rewrite forallb_forall in *. intros x Hx. by rewrite allowed_delimiter by auto.
Qed.

Lemma value_span_app v r : forallb (fun c => negb (delimiter c)) v = true -> value_span (v ++ 34 :: r) = (v, 34 :: r).
Proof.
  induction v as [|c v IH]; [done|]. cbn [forallb app value_span]. rewrite andb_true_iff, negb_true_iff. unfold delimiter.
  intros [-> Hv]. by rewrite IH.
Qed.

Lemma full_match_name n name r : Forall (fun c => c <> 61) n -> Forall (fun c => c <> 61) name ->
  full_match (n ++ 61 :: r) name = if bool_decide (n = name) then Some r else None.
Proof.
  intros Hn. revert name. induction Hn as [|c n Hc _ IH]; intros [|x name] Hx; cbn [app full_match]; [done| | |].
  - inv Hx. destruct (Z.eqb_spec 61 x); [congruence|]. by rewrite bool_decide_eq_false_2.
  - destruct (Z.eqb_spec c 61); [done|]. by rewrite bool_decide_eq_false_2.
  - inv Hx. destruct (Z.eqb_spec c x) as [->|]; [|by rewrite bool_decide_eq_false_2 by congruence].
    rewrite IH by done. do 2 case_bool_decide; congruence.
Qed.

Lemma name_no_equals n : cookie_name n -> Forall (fun c => c <> 61) n.
Proof. intros Hn. eapply Forall_impl; [exact Hn|]. cbn. tauto. Qed.

Lemma skip_white_id c p : isspace c = false -> skip_white (c :: p) = c :: p.
Proof. intros Hc. cbn. by rewrite Hc. Qed.

Lemma skip_white_cookie c r : cookie_ok c -> skip_white (print_cookie c ++ r) = print_cookie c ++ r.
Proof.
  intros [Hn _]. unfold print_cookie. destruct c as [[|x n] v]; cbn [fst snd app] in *; apply skip_white_id; [done|].
  inv Hn. tauto.
Qed.

Section parsing.
Context `{TclEncoding}.

Lemma copy_value d v r : cookie_value v ->
  CopyCookieValue d (34 :: escaped ch_c false v ++ 34 :: r) = Ret (Some (d ++ v, skip_delimiters r)).
Proof.
  intros Hv. unfold CopyCookieValue. cbn [Z.eqb Pos.eqb]. rewrite value_span_app by (by apply escaped_no_delimiter).
  unfold Ns_CookieDecode. pose proof (encode_decode ch_c false v None d ch_c_scheme) as E. cbn [external] in E.
  rewrite E by (done || by apply value_bytes). done.
Qed.

(** What a parser finds in front of [r]. *)
Definition found_cookie (dest : option (list Z)) (v r : list Z) : option (list Z) * bool * list Z :=
  match dest with
  | Some d => (Some (d ++ v), true, skip_delimiters r)
  | None => (None, true, 34 :: escaped ch_c false v ++ 34 :: r)
  end.

Lemma match_cookie dest c name r : cookie_ok c -> cookie_name name ->
  full_match (print_cookie c ++ r) name = (if bool_decide (c.1 = name) then Some (34 :: escaped ch_c false c.2 ++ 34 :: r) else None) /\
  found dest (34 :: escaped ch_c false c.2 ++ 34 :: r) = Ret (Some (found_cookie dest c.2 r)).
Proof.
  intros [Hn Hv] Hname. split.
  - unfold print_cookie. rewrite <- !app_assoc. cbn [app]. apply full_match_name; by apply name_no_equals.
  - unfold found, found_cookie. destruct dest as [d|]; [|done]. by rewrite copy_value.
Qed.

Lemma set_cookie_field dest c name attrs : cookie_ok c -> cookie_name name ->
  exists r, GetFromSetCookieHeader dest (print_cookie c ++ attrs) name = Ret (Some r) /\
    r.1.2 = bool_decide (c.1 = name) /\ r.1.1 = if bool_decide (c.1 = name) then (fun d => d ++ c.2) <$> dest else dest.
Proof.
  intros Hc Hname. unfold GetFromSetCookieHeader. rewrite skip_white_cookie by done.
  destruct (match_cookie dest c name attrs Hc Hname) as [-> E]. case_bool_decide; [|by eexists].
  rewrite E. eexists. split; [done|]. by destruct dest.
Qed.

(** ** The cookies in the output headers *)

(** The fields of the set-cookie headers are those of the cookies, in order. *)
Inductive carries : list header -> list (list Z * list Z) -> Prop :=
| carries_nil : carries [] []
| carries_other h hs jar : is_field (bytes "set-cookie") h = false -> carries hs jar -> carries (h :: hs) jar
| carries_cookie h hs c jar attrs : is_field (bytes "set-cookie") h = true -> cookie_ok c ->
    h.2 = print_cookie c ++ attrs -> head attrs = None \/ head attrs = Some 59 -> carries hs jar -> carries (h :: hs) (c :: jar).

Definition named (name : list Z) (c : list Z * list Z) : Prop := c.1 = name.
#[local] Instance named_dec name c : Decision (named name c).
Proof. unfold named. apply _. Defined.

(** The first cookie of a name. *)
Definition first_value (name : list Z) (jar : list (list Z * list Z)) : option (list Z) :=
  snd <$> head (filter (named name) jar).

Lemma first_set_cookie i dest hs jar name : 0 <= i -> carries hs jar -> cookie_name name ->
  exists d idx, first_loop GetFromSetCookieHeader i dest hs (bytes "set-cookie") name = Ret (Some (d, idx)) /\
    match first_value name jar with
    | None => d = dest /\ idx = -1
    | Some v => d = (fun d => d ++ v) <$> dest /\
        exists k jar', idx = i + Z.of_nat k /\ (k < length hs)%nat /\ carries (delete k hs) jar' /\
          filter (fun c => ~ named name c) jar' = filter (fun c => ~ named name c) jar
    end.
Proof.
  intros Hi Hc Hname. revert i dest Hi. induction Hc as [|h hs jar Hh Hc IH|h hs c jar attrs Hh Hok Hv Ha Hc IH]; intros i dest Hi.
  { by exists dest, (-1). }
  all: cbn [first_loop]; rewrite Hh.
  - destruct (IH (i + 1) dest ltac:(lia)) as (d & idx & -> & Hr). exists d, idx. split; [done|].
    destruct (first_value name jar) as [v|]; [|done]. destruct Hr as (-> & k & jar' & -> & Hk & Hd & Hf). split; [done|].
    exists (S k), jar'. split; [lia|]. split; [cbn; lia|]. split; [|done]. by constructor.
  - rewrite Hv. destruct (set_cookie_field dest c name attrs Hok Hname) as ([[d f] n] & E & Hf & Hd). cbn [fst snd] in Hf, Hd.
    rewrite E. cbn [obind mbind outcome_bind fst snd]. subst f. unfold first_value. rewrite filter_cons.
    case_bool_decide as Hn.
    + rewrite decide_True by done. cbn [head fmap option_fmap option_map]. exists d, i. split; [done|]. split; [done|].
      exists 0%nat, jar. split; [lia|]. split; [cbn [length]; lia|]. split; [done|]. rewrite filter_cons. by rewrite decide_False by tauto.
    + rewrite decide_False by done. subst d. destruct (IH (i + 1) dest ltac:(lia)) as (d & idx & -> & Hr). exists d, idx. split; [done|].
      unfold first_value in Hr. destruct (snd <$> head (filter (named name) jar)) as [v|]; [|done].
      destruct Hr as (-> & k & jar' & -> & Hk & Hd & Hf). split; [done|].
      exists (S k), (c :: jar'). split; [lia|]. split; [cbn; lia|]. split; [by eapply carries_cookie|].
      rewrite !filter_cons. by rewrite Hf.
Qed.

Lemma carries_app hs hs' jar jar' : carries hs jar -> carries hs' jar' -> carries (hs ++ hs') (jar ++ jar').
Proof. induction 1; intros; [done|..]; cbn [app]; [apply carries_other; auto|eapply carries_cookie; eauto]. Qed.

Lemma filter_not_named name jar : filter (named name) jar = [] -> filter (fun c => ~ named name c) jar = jar.
Proof.
  induction jar as [|c jar IH]; [done|]. rewrite !filter_cons. intros Hf.
  destruct (decide (named name c)) as [Hc|Hc]; [done|]. rewrite decide_True by done. by rewrite IH.
Qed.

Lemma delete_named fuel b hs jar name : carries hs jar -> cookie_name name -> (length hs < fuel)%nat ->
  exists hs' b', delete_loop fuel b hs (bytes "set-cookie") name = Ret (Some (hs', b')) /\
    carries hs' (filter (fun c => ~ named name c) jar).
Proof.
  intros Hc Hname. revert b hs jar Hc. induction fuel as [|fuel IH]; intros b hs jar Hc Hl; [lia|]. cbn [delete_loop].
  unfold GetFirstNamedCookie. change (cookieParser (bytes "set-cookie")) with GetFromSetCookieHeader.
  destruct (first_set_cookie 0 None hs jar name ltac:(lia) Hc Hname) as (d & idx & -> & Hr). cbn [obind mbind outcome_bind snd].
  destruct (first_value name jar) as [v|] eqn:Ev.
  - destruct Hr as (_ & k & jar' & -> & Hk & Hd & Hf). destruct (Z.eqb_spec (0 + Z.of_nat k) (-1)); [lia|]. cbn [negb].
    rewrite Z.add_0_l, Nat2Z.id. rewrite <- Hf. apply IH; [done|]. rewrite length_delete by (apply lookup_lt_is_Some; lia). lia.
  - destruct Hr as [_ ->]. cbn [Z.eqb negb Pos.eqb]. exists hs, b. split; [done|]. rewrite filter_not_named; [done|].
    unfold first_value in Ev. by destruct (filter (named name) jar).
Qed.

(** ** Setting cookies *)

(** A call of [Ns_ConnSetCookieEx]. *)
Record set_op := SetOp { op_name : list Z; op_value : option (list Z); op_maxage : Z; op_domain : option (list Z); op_path : option (list Z); op_flags : Z }.

Definition run_op (out : list header) (op : set_op) : outcome (option (list header)) :=
  Ns_ConnSetCookieEx out (op_name op) (op_value op) (op_maxage op) (op_domain op) (op_path op) (op_flags op).

Fixpoint set_cookies (out : list header) (ops : list set_op) : outcome (option (list header)) :=
  match ops with
  | [] => Ret (Some out)
  | op :: ops => out ⇐ run_op out op; set_cookies out ops
  end.

(** What is promised of it: a list of cookies. *)
Definition jar_set (jar : list (list Z * list Z)) (op : set_op) : list (list Z * list Z) :=
  (if cookie_flag (op_flags op) NS_COOKIE_REPLACE then filter (fun c => ~ named (op_name op) c) jar else jar) ++
  [(op_name op, default [] (op_value op))].

Definition op_ok (op : set_op) : Prop := cookie_name (op_name op) /\ cookie_value (default [] (op_value op)).

Lemma attributes_head maxage domain path flags :
  head (cookie_attributes maxage domain path flags) = None \/ head (cookie_attributes maxage domain path flags) = Some 59.
Proof.
  unfold cookie_attributes.
  repeat match goal with
         | |- context [(if ?b then _ else _) ++ _] => destruct b; [cbn; tauto|]
         end; try (cbn; tauto).
  all: destruct domain as [[|? ?]|], path as [?|]; cbn [app];
  repeat match goal with
         | |- context [if ?b then _ else _] => destruct b; cbn [app]; try (cbn; tauto)
         | |- _ => cbn; tauto
         end.
Qed.

Lemma run_op_carries out jar op : carries out jar -> op_ok op ->
  exists out', run_op out op = Ret (Some out') /\ carries out' (jar_set jar op).
Proof.
  intros Hc [Hn Hv]. unfold run_op, Ns_ConnSetCookieEx, jar_set.
  assert (exists hs b, (if cookie_flag (op_flags op) NS_COOKIE_REPLACE then DeleteNamedCookies out (bytes "set-cookie") (op_name op) else Ret (Some (out, false))) = Ret (Some (hs, b)) /\
    carries hs (if cookie_flag (op_flags op) NS_COOKIE_REPLACE then filter (fun c => ~ named (op_name op) c) jar else jar)) as (hs & b & -> & Hh).
  { destruct (cookie_flag _ _); [|by exists out, false]. apply delete_named; [done..|lia]. }
  cbn [obind mbind outcome_bind fst].
  assert ((match op_value op with Some v => Ns_CookieEncode (op_name op ++ [61; 34]) v None | None => Ret (op_name op ++ [61; 34]) end) =
    Ret (op_name op ++ [61; 34] ++ escaped ch_c false (default [] (op_value op)))) as ->.
  { destruct (op_value op) as [v|]; [|done]. unfold Ns_CookieEncode. rewrite UrlEncode_app by (apply ch_c_scheme || by apply value_bytes).
    cbn [external default]. by rewrite <- app_assoc. }
  cbn [mbind outcome_bind]. eexists. split; [done|]. unfold set_put. apply carries_app; [done|].
  eapply carries_cookie with (attrs := cookie_attributes (op_maxage op) (op_domain op) (op_path op) (op_flags op)); [done|done| |apply attributes_head|constructor].
  unfold print_cookie. cbn [fst snd]. by rewrite <- !app_assoc.
Qed.

Lemma set_cookies_carries out jar ops : carries out jar -> Forall op_ok ops ->
  exists out', set_cookies out ops = Ret (Some out') /\ carries out' (foldl jar_set jar ops).
Proof.
  intros Hc Ho. revert out jar Hc. induction Ho as [|op ops Hop _ IH]; intros out jar Hc; [by exists out|]. cbn [set_cookies foldl].
  destruct (run_op_carries out jar op Hc Hop) as (out' & -> & Hc'). by apply IH.
Qed.

(** ** The user agent *)

(** It takes what is in front of the first semicolon of a set-cookie field for the cookie, and
    sends all it has, separated by a semicolon and a space. *)
Fixpoint before_semicolon (p : list Z) : list Z :=
  match p with
  | [] => []
  | c :: p => if c =? 59 then [] else c :: before_semicolon p
  end.

Definition cookie_tail (cookies : list (list Z)) : list Z := concat ((fun c => [59; 32] ++ c) <$> cookies).
Definition cookie_string (cookies : list (list Z)) : list Z :=
  match cookies with [] => [] | c :: cookies => c ++ cookie_tail cookies end.

Definition user_agent (out : list header) : list Z :=
  cookie_string (before_semicolon ∘ snd <$> filter (fun h => is_field (bytes "set-cookie") h = true) out).

Definition no_semicolon (p : list Z) : Prop := Forall (fun c => c <> 59) p.

Lemma print_no_semicolon c : cookie_ok c -> no_semicolon (print_cookie c).
Proof.
  intros [Hn Hv]. unfold print_cookie, no_semicolon. rewrite !Forall_app. split_and!; [|by repeat constructor| |by repeat constructor].
  - eapply Forall_impl; [exact Hn|]. cbn. tauto.
  - apply escaped_no_delimiter in Hv. rewrite forallb_forall in Hv. apply Forall_forall. intros x Hx ->.
    apply list_elem_of_In, Hv in Hx. done.
Qed.

Lemma before_semicolon_stop p r : no_semicolon p -> head r = None \/ head r = Some 59 -> before_semicolon (p ++ r) = p.
Proof.
  intros Hp Hr. induction Hp as [|c p Hc _ IH]; cbn [app before_semicolon].
  - destruct r as [|x r]; [done|]. destruct Hr as [?|[= ->]]; [done|]. done.
  - destruct (Z.eqb_spec c 59); [done|]. by rewrite IH.
Qed.

Lemma behind_semicolon_app p r : no_semicolon p -> behind_semicolon (p ++ r) = behind_semicolon r.
Proof. induction 1 as [|c p Hc _ IH]; [done|]. cbn. by destruct (Z.eqb_spec c 59). Qed.

Lemma carries_user_agent out jar : carries out jar -> Forall cookie_ok jar /\ user_agent out = cookie_string (print_cookie <$> jar).
Proof.
  intros Hc. enough (Forall cookie_ok jar /\ before_semicolon ∘ snd <$> filter (fun h => is_field (bytes "set-cookie") h = true) out = print_cookie <$> jar) as [? E].
  { unfold user_agent. by rewrite E. }
  induction Hc as [|h hs jar Hh Hc IH|h hs c jar attrs Hh Hok Hv Ha Hc IH]; [done| |]; rewrite filter_cons.
  - by rewrite decide_False by congruence.
  - rewrite decide_True by done. destruct IH as [IH1 IH2]. split; [by constructor|]. rewrite !fmap_cons, IH2. f_equal. cbn. rewrite Hv.
    apply before_semicolon_stop; [by apply print_no_semicolon|done].
Qed.

(** ** The cookies of a request *)

(** Behind the delimiters of a value. *)
Definition behind (cookies : list (list Z)) : list Z := match cookies with [] => [] | _ => 32 :: cookie_string cookies end.

Lemma skip_tail cookies : skip_delimiters (cookie_tail cookies) = behind cookies /\ behind_semicolon (cookie_tail cookies) = behind cookies.
Proof. by destruct cookies. Qed.

(** The value of the first cookie of a name and the cookies after it. *)
Fixpoint find_from (name : list Z) (jar : list (list Z * list Z)) : option (list Z * list (list Z * list Z)) :=
  match jar with
  | [] => None
  | c :: jar => if decide (named name c) then Some (c.2, jar) else find_from name jar
  end.

Lemma find_from_spec name jar :
  match find_from name jar with
  | None => filter (named name) jar = []
  | Some (v, rest) => filter (named name) jar = (name, v) :: filter (named name) rest /\ exists pre, jar = pre ++ (name, v) :: rest
  end.
Proof.
  induction jar as [|[n v] jar IH]; [done|]. cbn [find_from]. rewrite filter_cons. case_decide as Hn.
  - unfold named in Hn. cbn in Hn |- *. subst n. split; [done|]. by exists [].
  - destruct (find_from name jar) as [[w rest]|]; [|done]. destruct IH as (-> & pre & ->). split; [done|]. by exists ((n, v) :: pre).
Qed.

Lemma length_string cookies : (length (cookie_tail cookies) <= 2 + length (cookie_string cookies))%nat /\
  (length (behind cookies) <= S (length (cookie_string cookies)))%nat /\ (length (behind cookies) <= length (cookie_tail cookies))%nat.
Proof. destruct cookies as [|c cookies]; [cbn; lia|]. unfold cookie_tail, cookie_string, behind. rewrite fmap_cons. cbn [concat]. cbn [cookie_string]. unfold cookie_tail. lens. Qed.

Lemma length_tail_app a b : (length (cookie_tail b) <= length (cookie_tail (a ++ b)))%nat.
Proof. unfold cookie_tail. rewrite fmap_app, concat_app. lens. Qed.

Lemma length_print c : (3 <= length (print_cookie c))%nat.
Proof. unfold print_cookie. lens. Qed.

Lemma header_loop fuel dest sp jar name : Forall cookie_ok jar -> cookie_name name -> sp = [] \/ sp = [32] ->
  (length (sp ++ cookie_string (print_cookie <$> jar)) <= fuel)%nat ->
  cookie_header_loop fuel dest (sp ++ cookie_string (print_cookie <$> jar)) name =
  Ret (Some (match find_from name jar with
             | None => (dest, false, [])
             | Some (v, rest) => found_cookie dest v (cookie_tail (print_cookie <$> rest))
             end)).
Proof.
  intros Hj Hname. revert sp jar Hj. induction fuel as [|fuel IH]; intros sp jar Hj Hsp Hl.
  { destruct jar as [|c jar]; [|pose proof (length_print c); rewrite fmap_cons in Hl; cbn [cookie_string] in Hl; rewrite !length_app in Hl; lia].
    destruct sp; [done|cbn in Hl; lia]. }
  destruct Hj as [|c jar Hc Hj]; [by destruct Hsp as [->| ->]|]. rewrite fmap_cons in *. cbn [cookie_string find_from] in *.
  destruct (sp ++ print_cookie c ++ cookie_tail (print_cookie <$> jar)) as [|x t] eqn:Et.
  { apply (f_equal length) in Et. rewrite !length_app in Et. pose proof (length_print c). cbn in Et. lia. }
  cbn [cookie_header_loop]. rewrite <- Et.
  assert (skip_white (sp ++ print_cookie c ++ cookie_tail (print_cookie <$> jar)) = print_cookie c ++ cookie_tail (print_cookie <$> jar)) as ->.
  { destruct Hsp as [->| ->]; cbn [app]; [by apply skip_white_cookie|]. cbn [skip_white]. by apply skip_white_cookie. }
  destruct (match_cookie dest c name (cookie_tail (print_cookie <$> jar)) Hc Hname) as [Hm Hf].
  destruct (print_cookie c ++ cookie_tail (print_cookie <$> jar)) as [|y u] eqn:Eu.
  { apply (f_equal length) in Eu. rewrite !length_app in Eu. pose proof (length_print c). cbn in Eu. lia. }
  rewrite <- Eu in *. rewrite Hm. destruct (decide (named name c)) as [Hn|Hn]; unfold named in Hn.
  { rewrite bool_decide_eq_true_2 by done. exact Hf. }
  rewrite bool_decide_eq_false_2 by done. rewrite behind_semicolon_app by (by apply print_no_semicolon).
  rewrite (proj2 (skip_tail _)). rewrite <- Et in Hl. pose proof (length_print c). pose proof (length_string (print_cookie <$> jar)).
  rewrite !length_app in Hl. destruct jar as [|c' jar].
  - destruct fuel; done.
  - apply (IH [32] (c' :: jar) Hj); [by right|]. cbn [app length] in *. unfold behind in *. cbn [fmap list_fmap] in *. cbn [length] in *. lia.
Qed.

Lemma cookie_header dest sp jar name : Forall cookie_ok jar -> cookie_name name -> sp = [] \/ sp = [32] ->
  GetFromCookieHeader dest (sp ++ cookie_string (print_cookie <$> jar)) name =
  Ret (Some (match find_from name jar with
             | None => (dest, false, [])
             | Some (v, rest) => found_cookie dest v (cookie_tail (print_cookie <$> rest))
             end)).
Proof. intros Hj Hname Hsp. by apply header_loop. Qed.

Lemma all_loop_spec fuel count values sp jar name : Forall cookie_ok jar -> cookie_name name -> sp = [] \/ (sp = [32] /\ jar <> []) ->
  (length (sp ++ cookie_string (print_cookie <$> jar)) <= fuel)%nat ->
  all_loop fuel GetFromCookieHeader count values (sp ++ cookie_string (print_cookie <$> jar)) name =
  Ret (Some (count + Z.of_nat (length (filter (named name) jar)), values ++ (snd <$> filter (named name) jar))).
Proof.
  intros Hj Hname. revert count values sp jar Hj. induction fuel as [|fuel IH]; intros count values sp jar Hj Hsp Hl.
  all: destruct (decide (jar = [])) as [->|Hne];
    [destruct Hsp as [->|[_ ?]]; [cbn; by rewrite Z.add_0_r, app_nil_r|done]|].
  all: assert (0 < length (sp ++ cookie_string (print_cookie <$> jar)))%nat as Hpos
    by (destruct jar as [|c jar]; [done|]; pose proof (length_print c); cbn [fmap list_fmap cookie_string]; rewrite !length_app; lia).
  { lia. }
  pose proof (cookie_header (Some []) sp jar name Hj Hname ltac:(tauto)) as Hh.
  destruct (sp ++ cookie_string (print_cookie <$> jar)) as [|x t] eqn:Et; [cbn in Hpos; lia|]. cbn [all_loop]. rewrite Hh.
  cbn [obind mbind outcome_bind]. pose proof (find_from_spec name jar) as Hs. destruct (find_from name jar) as [[v rest]|]; cbn [found_cookie fst snd].
  - destruct Hs as (-> & pre & ->). rewrite Forall_app, Forall_cons in Hj. destruct Hj as (_ & [Hc Hv] & Hrest).
    rewrite (proj1 (skip_tail _)). cbn [app default from_option]; unfold id. cbn [snd] in Hv.
    rewrite before_nul_id by (eapply Forall_impl; [exact Hv|]; cbn; lia).
    assert (length (behind (print_cookie <$> rest)) < length (x :: t))%nat as Hlt.
    { rewrite <- Et. pose proof (length_string (print_cookie <$> rest)). rewrite fmap_app. destruct pre as [|p pre]; cbn [fmap list_fmap app cookie_string].
      - pose proof (length_print (name, v)). rewrite !length_app. lia.
      - pose proof (length_tail_app ((print_cookie <$> pre) ++ [print_cookie (name, v)]) (print_cookie <$> rest)) as Ht.
        rewrite <- app_assoc in Ht. pose proof (length_print p). rewrite !length_app. cbn [app] in Ht. unfold fmap in *. lia. }
    cbn [length] in Hl, Hlt. rewrite !fmap_cons. cbn [length].
    destruct rest as [|c rest].
    + cbn [behind fmap list_fmap filter list_filter]. destruct fuel; cbn [all_loop length]; repeat f_equal; lia.
    + specialize (IH (count + 1) (values ++ [v]) [32] (c :: rest) Hrest). rewrite fmap_cons in *. cbn [behind] in *. cbn [app] in IH. rewrite IH.
      * rewrite <- app_assoc. cbn [snd app]. do 3 f_equal. lia.
      * by right.
      * lia.
  - rewrite Hs. destruct fuel; cbn; by rewrite Z.add_0_r, app_nil_r.
Qed.

Lemma first_skip (parser : CookieParser) i dest pre hs setName name : Forall (fun h => is_field setName h = false) pre ->
  first_loop parser i dest (pre ++ hs) setName name = first_loop parser (i + Z.of_nat (length pre)) dest hs setName name.
Proof.
  intros Hp. revert i. induction Hp as [|h pre Hh _ IH]; intros i; [by rewrite Z.add_0_r|]. cbn [app first_loop length]. rewrite Hh, IH. f_equal. lia.
Qed.

Lemma find_skip (P : header -> bool) pre hs : Forall (fun h => P h = false) pre -> List.find P (pre ++ hs) = List.find P hs.
Proof. induction 1 as [|h pre Hh _ IH]; [done|]. cbn. by rewrite Hh. Qed.

(** A request with the cookies, among other fields. *)
Definition cookie_request (cookies : list Z) (headers : list header) : Prop :=
  exists pre k post, headers = pre ++ (k, cookies) :: post /\ is_field (bytes "cookie") (k, cookies) = true /\
    Forall (fun h => is_field (bytes "cookie") h = false) pre /\ Forall (fun h => is_field (bytes "cookie") h = false) post.

Lemma first_request dest jar headers name : cookie_request (cookie_string (print_cookie <$> jar)) headers ->
  Forall cookie_ok jar -> cookie_name name ->
  exists idx, GetFirstNamedCookie (Some dest) headers (bytes "cookie") name =
    Ret (Some (match first_value name jar with Some v => Some (dest ++ v) | None => Some dest end, idx)) /\
    (idx = -1 <-> first_value name jar = None).
Proof.
  intros (pre & k & post & -> & Hk & Hpre & Hpost) Hj Hname. unfold GetFirstNamedCookie.
  change (cookieParser (bytes "cookie")) with GetFromCookieHeader. rewrite first_skip by done. cbn [first_loop]. rewrite Hk. cbn [snd].
  pose proof (cookie_header (Some dest) [] jar name Hj Hname ltac:(tauto)) as Hh. cbn [app] in Hh. rewrite Hh.
  pose proof (find_from_spec name jar) as Hs. unfold first_value.
  destruct (find_from name jar) as [[v rest]|]; cbn [obind mbind outcome_bind found_cookie fst snd].
  - destruct Hs as [-> _]. cbn [head fmap option_fmap option_map snd]. eexists. split; [done|]. split; [lia|done].
  - rewrite Hs. cbn. exists (-1). split; [|done]. rewrite <- (app_nil_r post), first_skip by done. done.
Qed.

Lemma all_request jar headers name : cookie_request (cookie_string (print_cookie <$> jar)) headers -> Forall cookie_ok jar -> cookie_name name ->
  GetAllNamedCookies headers (bytes "cookie") name =
  Ret (Some (Z.of_nat (length (filter (named name) jar)), snd <$> filter (named name) jar)).
Proof.
  intros (pre & k & post & -> & Hk & Hpre & Hpost) Hj Hname. unfold GetAllNamedCookies. rewrite find_skip by done. cbn [List.find]. rewrite Hk.
  change (cookieParser (bytes "cookie")) with GetFromCookieHeader. cbn [snd].
  by apply (all_loop_spec _ 0 [] [] jar name Hj Hname); [left|].
Qed.

(** C13.  Cookies that are set on a response, replacing others of the name where this is asked for, and
    come back from the user agent in a request are read with the values they were set to: the first
    one of the name, all of them, and, in the same request, those in the output headers; neither
    attributes nor values, whatever is in them, are taken for other cookies. *)
Theorem cookies_roundtrip out ops headers : Forall (fun h => is_field (bytes "set-cookie") h = false) out -> Forall op_ok ops ->
  exists out', set_cookies out ops = Ret (Some out') /\
    (cookie_request (user_agent out') headers ->
     forall name def other, cookie_name name ->
       let values := snd <$> filter (named name) (foldl jar_set [] ops) in
       NsTclGetCookieObjCmd other headers false true name def = Ret (Some (CookieList values)) /\
       NsTclGetCookieObjCmd other headers false false name def = Ret (Some (match values with v :: _ => CookieValue v | [] => no_cookie def end)) /\
       forall v values', values = v :: values' -> NsTclGetCookieObjCmd out' other true false name def = Ret (Some (CookieValue v))).
Proof.
  intros Hout Hops. assert (carries out []) as Hc0 by (induction Hout; [constructor|by apply carries_other]).
  destruct (set_cookies_carries out [] ops Hc0 Hops) as (out' & -> & Hc). exists out'. split; [done|].
  set (jar := foldl jar_set [] ops) in *. destruct (carries_user_agent out' jar Hc) as [Hj ->]. intros Hr name def other Hname. cbn zeta.
  unfold NsTclGetCookieObjCmd. cbn [andb]. split_and!.
  - rewrite (all_request jar) by done. cbn [obind mbind outcome_bind fst snd]. by destruct (Z.eqb_spec (Z.of_nat (length (filter (named name) jar))) (-1)); [lia|].
  - cbn [obind mbind outcome_bind fst snd]. cbn [Z.eqb Pos.eqb]. destruct (first_request [] jar headers name Hr Hj Hname) as (idx & -> & Hi).
    cbn [obind mbind outcome_bind fst snd]. unfold first_value in *. destruct (filter (named name) jar) as [|c l]; cbn in *.
    + destruct Hi as [_ ->]; done.
    + destruct (Z.eqb_spec idx (-1)) as [E|]; [by apply Hi in E|done].
  - intros v values' Hv. unfold GetFirstNamedCookie. change (cookieParser (bytes "set-cookie")) with GetFromSetCookieHeader.
    destruct (first_set_cookie 0 (Some []) out' jar name ltac:(lia) Hc Hname) as (d & idx & -> & Hi). cbn [obind mbind outcome_bind fst snd].
    unfold first_value in Hi. destruct (filter (named name) jar) as [|c l]; [done|]. cbn in Hv, Hi. injection Hv as <- _.
    destruct Hi as (-> & k & _ & -> & _). destruct (Z.eqb_spec (0 + Z.of_nat k) (-1)); [lia|]. cbn [obind mbind outcome_bind negb fst snd].
    by destruct (Z.eqb_spec (0 + Z.of_nat k) (-1)); [lia|].
Qed.

(** ** Any request *)

Lemma suffix_bytes p q : p `suffix_of` q -> is_bytes q -> is_bytes p.
Proof. intros [k ->]. unfold is_bytes. rewrite Forall_app. tauto. Qed.

Lemma skip_delimiters_suffix q : skip_delimiters q `suffix_of` q.
Proof. induction q as [|c q IH]; [done|]. cbn. destruct (_ || _); [by apply suffix_cons_r|done]. Qed.

Lemma skip_white_suffix q : skip_white q `suffix_of` q.
Proof. induction q as [|c q IH]; [done|]. cbn. destruct (isspace c); [by apply suffix_cons_r|done]. Qed.

Lemma behind_semicolon_suffix c q : behind_semicolon (c :: q) `suffix_of` q.
Proof.
  revert c. induction q as [|x q IH]; intros c; cbn [behind_semicolon]; destruct (c =? 59); try done.
  destruct (Z.eqb_spec x 59) as [->|Hx]; [by apply suffix_cons_r|]. specialize (IH x). cbn [behind_semicolon] in IH.
  destruct (Z.eqb_spec x 59); [done|]. by apply suffix_cons_r.
Qed.

Lemma full_match_suffix name toParse q : full_match toParse name = Some q -> q `suffix_of` toParse /\ (length q < length toParse)%nat.
Proof.
  revert toParse. induction name as [|n name IH]; intros [|c toParse] E; cbn [full_match] in E; try done.
  - destruct (c =? 61); [|done]. injection E as <-. split; [by apply suffix_cons_r|cbn; lia].
  - destruct (c =? n); [|done]. apply IH in E as [Hs Hl]. split; [by apply suffix_cons_r|cbn; lia].
Qed.

Lemma value_span_split q : q = (value_span q).1 ++ (value_span q).2.
Proof. induction q as [|c q IH]; [done|]. cbn. destruct (_ || _); [done|]. destruct (value_span q); cbn in *. by rewrite IH at 1. Qed.

Lemma copy_total d q : is_bytes q -> exists d' next, CopyCookieValue d q = Ret (Some (d', next)) /\ next `suffix_of` q.
Proof.
  intros Hq. unfold CopyCookieValue.
  set (v := match q with c :: v => if c =? 34 then v else q | [] => [] end).
  assert (v `suffix_of` q) as Hv by (subst v; destruct q as [|c q]; [done|]; destruct (c =? 34); [by apply suffix_cons_r|done]).
  pose proof (value_span_split v) as Es. destruct (value_span v) as [value r]. cbn [fst snd] in Es.
  pose proof (suffix_bytes _ _ Hv Hq) as Hb. rewrite Es in Hb. apply Forall_app in Hb as [Hb _].
  destruct (PercentDecode_total value ch_c Hb) as (o & Ho & _). unfold Ns_CookieDecode. rewrite (UrlDecode_result d value None ch_c o) by done.
  cbn [obind mbind outcome_bind]. eexists _, _. split; [done|]. etrans; [apply skip_delimiters_suffix|]. etrans; [|exact Hv]. rewrite Es. by exists value.
Qed.

Lemma found_total dest q : is_bytes q -> exists d next, found dest q = Ret (Some (d, true, next)) /\ next `suffix_of` q.
Proof.
  intros Hq. unfold found. destruct dest as [d|]; [|by eexists _, _]. destruct (copy_total d q Hq) as (d' & next & -> & Hn).
  by eexists _, _.
Qed.

Lemma header_loop_total fuel dest p name : is_bytes p -> (length p <= fuel)%nat ->
  exists d b next, cookie_header_loop fuel dest p name = Ret (Some (d, b, next)) /\ next `suffix_of` p /\ (p <> [] -> length next < length p)%nat.
Proof.
  revert p. induction fuel as [|fuel IH]; intros [|c p] Hp Hl; cbn [cookie_header_loop]; try (by eexists _, _, _); [cbn in Hl; lia|].
  pose proof (skip_white_suffix (c :: p)) as Hw. pose proof (suffix_bytes _ _ Hw Hp) as Hb. pose proof (suffix_length _ _ Hw) as Hlw.
  destruct (skip_white (c :: p)) as [|x t]; [by eexists _, _, _; split_and!; [done|apply suffix_nil|cbn; lia]|].
  destruct (full_match (x :: t) name) as [q|] eqn:Eq.
  - apply full_match_suffix in Eq as [Hs Hq]. destruct (found_total dest q (suffix_bytes _ _ Hs Hb)) as (d & next & -> & Hn).
    eexists _, _, _. split; [done|]. apply suffix_length in Hn as Hln. split; [|lia]. etrans; [exact Hn|]. by etrans.
  - pose proof (behind_semicolon_suffix x t) as Hs. pose proof (suffix_length _ _ Hs) as Hls. cbn [length] in *.
    destruct (IH (behind_semicolon (x :: t))) as (d & b & next & -> & Hn & _); [eapply suffix_bytes; [exact Hs|by inv Hb]|lia|].
    eexists _, _, _. split; [done|]. apply suffix_length in Hn as Hln. split; [|lia]. etrans; [exact Hn|]. etrans; [exact Hs|]. etrans; [|exact Hw]. by apply suffix_cons_r.
Qed.

Lemma parser_total setName dest p name : is_bytes p -> exists r, cookieParser setName dest p name = Ret (Some r).
Proof.
  intros Hp. unfold cookieParser. destruct (_ =? _).
  - destruct (header_loop_total (length p) dest p name Hp) as (d & b & next & E & _); [done|]. by eexists.
  - unfold GetFromSetCookieHeader. destruct (full_match _ _) as [q|] eqn:Eq; [|by eexists]. apply full_match_suffix in Eq as [Hs _].
    destruct (found_total dest q) as (d & next & -> & _); [|by eexists]. eapply suffix_bytes; [|exact Hp]. etrans; [exact Hs|apply skip_white_suffix].
Qed.

Lemma all_loop_total fuel count values p name : 0 <= count -> is_bytes p -> (length p <= fuel)%nat ->
  exists count' values', all_loop fuel GetFromCookieHeader count values p name = Ret (Some (count', values')) /\ 0 <= count'.
Proof.
  revert count values p. induction fuel as [|fuel IH]; intros count values [|c p] Hc Hp Hl; cbn [all_loop]; try (by eexists _, _); [cbn in Hl; lia|].
  destruct (header_loop_total (length (c :: p)) (Some []) (c :: p) name Hp ltac:(done)) as (d & b & next & E & Hs & Hlt).
  unfold GetFromCookieHeader at 1 2. rewrite E. cbn [obind mbind outcome_bind fst snd]. specialize (Hlt ltac:(done)). cbn [length] in *.
  pose proof (suffix_bytes _ _ Hs Hp). destruct b; apply IH; (done || lia).
Qed.

Lemma first_total setName i dest hs name : 0 <= i -> Forall (fun h => is_bytes h.2) hs ->
  exists r, first_loop (cookieParser setName) i dest hs setName name = Ret (Some r).
Proof.
  intros Hi Hh. revert i dest Hi. induction Hh as [|h hs Hb _ IH]; intros i dest Hi; cbn [first_loop]; [by eexists|].
  destruct (is_field setName h); [|apply IH; lia]. destruct (parser_total setName dest h.2 name Hb) as [r ->]. cbn [obind mbind outcome_bind].
  destruct r.1.2; [by eexists|]. apply IH. lia.
Qed.

(** Whatever a client sends in its cookie fields, [ns_getcookie] ends with a result, without
    reading behind a field; with [-all], this is a list even if there is no such cookie, never the
    default that was given or the error. *)
Theorem getcookie_total out headers withSet withAll name def :
  Forall (fun h => is_bytes h.2) out -> Forall (fun h => is_bytes h.2) headers ->
  exists r, NsTclGetCookieObjCmd out headers withSet withAll name def = Ret (Some r) /\
    (withAll = true -> withSet = false -> exists l, r = CookieList l).
Proof.
  intros Ho Hh. unfold NsTclGetCookieObjCmd. destruct withAll; [destruct withSet; cbn [andb]; [by eexists|]|rewrite andb_false_r].
  - unfold GetAllNamedCookies. change (cookieParser (bytes "cookie")) with GetFromCookieHeader.
    assert (exists c l, match List.find (is_field (bytes "cookie")) headers with
      | Some h => all_loop (length h.2) GetFromCookieHeader 0 [] h.2 name | None => Ret (Some (0, [])) end = Ret (Some (c, l)) /\ 0 <= c) as (c & l & -> & Hc).
    { destruct (List.find (is_field (bytes "cookie")) headers) as [h|] eqn:Ef; [|by eexists _, _]. apply all_loop_total; [done| |done].
      apply List.find_some in Ef as [Hin _]. rewrite Forall_forall in Hh. apply Hh. by apply list_elem_of_In. }
    cbn [obind mbind outcome_bind fst snd]. destruct (Z.eqb_spec c (-1)); [lia|]. eexists. split; [done|]. by eexists.
  - assert (exists d i, (if withSet then GetFirstNamedCookie (Some []) out (bytes "set-cookie") name else Ret (Some (Some [], -1))) = Ret (Some (d, i))) as (d & i & ->).
    { destruct withSet; [|by eexists _, _]. destruct (first_total (bytes "set-cookie") 0 (Some []) out name ltac:(lia) Ho) as [[d i] E]. by exists d, i. }
    cbn [obind mbind outcome_bind fst snd].
    assert (exists r, (if i =? -1 then GetFirstNamedCookie d headers (bytes "cookie") name else Ret (Some (d, i))) = Ret (Some r)) as (r & ->).
    { destruct (i =? -1); [|by eexists]. by apply first_total. }
    by eexists.
Qed.

End parsing.

(** ** Witnesses *)

#[local] Instance no_encodings : TclEncoding := {|
  Tcl_Encoding := unit;
  Tcl_Encoding_eq := unit_eq_dec;
  NS_utf8Encoding := tt;
  Tcl_UtfToExternalDString := fun _ s => s;
  Tcl_ExternalToUtfDString := fun _ s => s;
|}.

Definition ex_ops : list set_op :=
  [SetOp (bytes "a") (Some (bytes "1; b=2")) 0 None (Some (bytes "/x;y=3")) 0;
   SetOp (bytes "b") (Some [34]) 3600 None None NS_COOKIE_SECURE;
   SetOp (bytes "a") (Some (bytes "4")) 0 None None NS_COOKIE_REPLACE].

Lemma cookies_roundtrip_witness : exists out', set_cookies [] ex_ops = Ret (Some out') /\
  NsTclGetCookieObjCmd [] [(bytes "Cookie", user_agent out')] false true (bytes "b") None = Ret (Some (CookieList [[34]])).
Proof.
  destruct (cookies_roundtrip [] ex_ops []) as (out' & E & _); [constructor| |].
  { repeat (apply Forall_cons_2; [split; vm_compute; repeat constructor; congruence|]). apply Forall_nil_2. }
  destruct (cookies_roundtrip [] ex_ops [(bytes "Cookie", user_agent out')]) as (out2 & E2 & H2); [constructor| |].
  { repeat (apply Forall_cons_2; [split; vm_compute; repeat constructor; congruence|]). apply Forall_nil_2. }
  assert (out2 = out') as -> by congruence. exists out'. split; [exact E|].
  destruct (H2 (ex_intro _ [] (ex_intro _ (bytes "Cookie") (ex_intro _ [] (conj eq_refl (conj eq_refl (conj (Forall_nil_2 _) (Forall_nil_2 _)))))))
    (bytes "b") None []) as [Hall _]; [vm_compute; repeat constructor; congruence|]. exact Hall.
Defined.

Lemma getcookie_total_witness : exists r, NsTclGetCookieObjCmd [] [(bytes "cookie", bytes "a=1")] false true (bytes "b") (Some (bytes "default")) = Ret (Some r) /\ r = CookieList [].
Proof.
  destruct (getcookie_total [] [(bytes "cookie", bytes "a=1")] false true (bytes "b") (Some (bytes "default"))) as (r & E & _);
    [constructor|repeat constructor; vm_compute; congruence|]. exists r. split; [exact E|]. vm_compute in E. congruence.
Defined.
