(* ===== verification/DbPool.v ===== *)
(** * DbPool: the handles of a database pool (nsdb/dbinit.c).

    The free handles of a pool are a linked list in memory.  A thread that wants handles waits
    for its turn ([waitCond]), collects them one by one as they are returned ([getCond]),
    connects them outside of the lock, and gives all back when this fails; handles go back to
    the pool one by one, and a check takes the whole list, closes what is stale, and returns
    it.  What happens between two operations on the mutex of the pool is a step; the condition
    variables are those of Locks.v, and a wait with a timeout may end at any time, also when
    the thread was woken by a signal.  Times are seconds; whether a database can be opened is
    a parameter of the step; statistics and session numbers are left out. *)

From S2P Require Import Prelude Locks.

Record Handle := mkHandle {
  connected : bool; otime : Z; atime : Z; stale : bool; h_stale_on_close : Z; used : bool; active : bool; nextPtr : option nat }.

Record Pool := mkPool {
  waiting : Z; nhandles : Z; firstPtr : option nat; lastPtr : option nat; maxidle : Z; maxopen : Z; stale_on_close : Z;
  waitCond : Ns_Cond; getCond : Ns_Cond }.

Definition set_next (n : option nat) (h : Handle) : Handle :=
  mkHandle (connected h) (otime h) (atime h) (stale h) (h_stale_on_close h) (used h) (active h) n.
Definition set_list (f l : option nat) (p : Pool) : Pool :=
  mkPool (waiting p) (nhandles p) f l (maxidle p) (maxopen p) (stale_on_close p) (waitCond p) (getCond p).
Definition set_waiting (w : Z) (p : Pool) : Pool :=
  mkPool w (nhandles p) (firstPtr p) (lastPtr p) (maxidle p) (maxopen p) (stale_on_close p) (waitCond p) (getCond p).
Definition set_waitCond (c : Ns_Cond) (p : Pool) : Pool :=
  mkPool (waiting p) (nhandles p) (firstPtr p) (lastPtr p) (maxidle p) (maxopen p) (stale_on_close p) c (getCond p).
Definition set_getCond (c : Ns_Cond) (p : Pool) : Pool :=
  mkPool (waiting p) (nhandles p) (firstPtr p) (lastPtr p) (maxidle p) (maxopen p) (stale_on_close p) (waitCond p) c.

(** ** Handles *)

Definition IsStale (p : Pool) (h : Handle) (now : Z) : bool :=
  connected h &&
  (((0 <? maxidle p) && (atime h <? now - maxidle p)) || ((0 <? maxopen p) && (otime h <? now - maxopen p)) ||
   stale h || (h_stale_on_close h <? stale_on_close p)).

Definition NsDbDisconnect (h : Handle) : Handle :=
  mkHandle false 0 0 false (h_stale_on_close h) (used h) false (nextPtr h).

(** [opened] is the result of [NsDbOpen]. *)
Definition Connect (now : Z) (opened : bool) (h : Handle) : Handle :=
  if opened then mkHandle true now now (stale h) (h_stale_on_close h) (used h) (active h) (nextPtr h)
  else mkHandle false 0 0 false (h_stale_on_close h) (used h) (active h) (nextPtr h).

(** The part of [Ns_DbPoolPutHandle] outside of the lock. *)
Definition put_handle (p : Pool) (now : Z) (h : Handle) : Handle :=
  let h := mkHandle (connected h) (otime h) (atime h) (stale h) (h_stale_on_close h) (used h) false (nextPtr h) in
  if IsStale p h now then NsDbDisconnect h
  else mkHandle (connected h) (otime h) now (stale h) (h_stale_on_close h) (used h) (active h) (nextPtr h).

(** ** The list of free handles; [None] is an access through a bad pointer *)

Notation memory := (gmap nat Handle).

Definition ReturnHandle (a : nat) (m : memory) (p : Pool) : option (memory * Pool) :=
  h ← m !! a;
  match firstPtr p with
  | None => Some (<[a := set_next None h]> m, set_list (Some a) (Some a) p)
  | Some f =>
      if connected h then Some (<[a := set_next (Some f) h]> m, set_list (Some a) (lastPtr p) p)
      else
        l ← lastPtr p; hl ← m !! l;
        h ← <[l := set_next (Some a) hl]> m !! a;
        Some (<[a := set_next None h]> (<[l := set_next (Some a) hl]> m), set_list (firstPtr p) (Some a) p)
  end.

(** The first handle is taken off. *)
Definition take_first (a : nat) (m : memory) (p : Pool) : option (memory * Pool) :=
  h ← m !! a;
  let p := set_list (nextPtr h) (if bool_decide (lastPtr p = Some a) then None else lastPtr p) p in
  Some (<[a := mkHandle (connected h) (otime h) (atime h) (stale h) (h_stale_on_close h) true (active h) None]> m, p).

(** Handles are taken until [n] more are there or the list is empty. *)
Fixpoint take_handles (n : nat) (got : list nat) (m : memory) (p : Pool) : option (list nat * memory * Pool) :=
  match n, firstPtr p with
  | S n, Some a => '(m, p) ← take_first a m p; take_handles n (got ++ [a]) m p
  | _, _ => Some (got, m, p)
  end.

(** [ReturnHandle] for each of the handles, the last one first. *)
Fixpoint return_handles (rgot : list nat) (m : memory) (p : Pool) : option (memory * Pool) :=
  match rgot with
  | [] => Some (m, p)
  | a :: rgot => '(m, p) ← ReturnHandle a m p; return_handles rgot m p
  end.

(** The addresses of a chain. *)
Fixpoint walk (fuel : nat) (m : memory) (q : option nat) : option (list nat) :=
  match q, fuel with
  | None, _ => Some []
  | Some a, S fuel => h ← m !! a; l ← walk fuel m (nextPtr h); Some (a :: l)
  | Some _, O => None
  end.

(** The loop over the handles that are not connected, until one cannot be opened. *)
Fixpoint connect_handles (now : Z) (opens : nat -> bool) (got : list nat) (m : memory) : option (bool * memory) :=
  match got with
  | [] => Some (true, m)
  | a :: got =>
      h ← m !! a;
      if connected h then connect_handles now opens got m
      else if opens a then connect_handles now opens got (<[a := Connect now true h]> m)
      else Some (false, <[a := Connect now false h]> m)
  end.

(** The loop of [CheckPool] over the handles it has taken; they are chained the other way round. *)
Fixpoint check_handles (now : Z) (p : Pool) (l checked : list nat) (m : memory) : option (list nat * memory) :=
  match l with
  | [] => Some (checked, m)
  | a :: l =>
      h ← m !! a;
      let h := if IsStale p h now then NsDbDisconnect h else h in
      check_handles now p l (a :: checked) (<[a := set_next (head checked) h]> m)
  end.

(** The loop of [Ns_DbBouncePool]; [n] is the new [stale_on_close]. *)
Fixpoint mark_handles (n : Z) (l : list nat) (m : memory) : option memory :=
  match l with
  | [] => Some m
  | a :: l =>
      h ← m !! a;
      mark_handles n l (<[a := mkHandle (connected h) (otime h) (atime h) (if connected h then true else stale h) n (used h) (active h) (nextPtr h)]> m)
  end.

(** The handles of a new pool; what [ns_malloc] leaves in the members that are not set is [garbage]. *)
Fixpoint create_handles (i n : nat) (garbage : nat -> Handle) (m : memory) (p : Pool) : option (memory * Pool) :=
  match n with
  | O => Some (m, p)
  | S n =>
      let h := mkHandle false 0 0 false 0 (used (garbage i)) (active (garbage i)) (nextPtr (garbage i)) in
      '(m, p) ← ReturnHandle i (<[i := h]> m) p; create_handles (S i) n garbage m p
  end.

Definition CreatePool (n : nat) (maxidle_ maxopen_ : Z) (garbage : nat -> Handle) : option (memory * Pool) :=
  create_handles 0 n garbage ∅ (mkPool 0 (Z.of_nat n) None None maxidle_ maxopen_ 0 no_threads no_threads).

(** ** Threads *)

(** Where a thread is: elsewhere, waiting for its turn, collecting handles, behind the first
    part of [Ns_DbPoolTimedGetMultipleHandles] with its status, in [CheckPool]. *)
Inductive Pc := Idle | Turn (nwant : nat) | Collecting (nwant : nat) (got : list nat) | Done (nwant : nat) (got : list nat) (ok : bool) | Checking (l : list nat).

(** [owned] are the handles it has got, [count] is what [IncrCount] counts. *)
Record Thread := mkThread { pc : Pc; owned : list nat; count : Z }.

Record State := mkState { mem : memory; pool : Pool; thr : nat -> Thread }.

Definition at_pc (c : Pc) (th : Thread) : Thread := mkThread c (owned th) (count th).
Definition upd (t : nat) (x : Thread) (f : nat -> Thread) : nat -> Thread := fun u => if Nat.eqb u t then x else f u.

(** A thread that has the turn goes on; [ok] is false after a timeout. *)
Definition leave_turn (t nwant : nat) (got : list nat) (ok : bool) (m : memory) (p : Pool) (f : nat -> Thread) (s' : State) : Prop :=
  exists c, Ns_CondSignal (waitCond p) c /\
    s' = mkState m (set_waitCond c (set_waiting 0 p)) (upd t (at_pc (Done nwant got (ok || Nat.eqb (length got) nwant)) (f t)) f).

Definition collect (t nwant : nat) (got : list nat) (m : memory) (p : Pool) (f : nat -> Thread) (s' : State) : Prop :=
  exists got' m' p', take_handles (nwant - length got) got m p = Some (got', m', p') /\
    if (length got' <? nwant)%nat
    then s' = mkState m' (set_getCond (Ns_CondWait t (getCond p')) p') (upd t (at_pc (Collecting nwant got') (f t)) f)
    else leave_turn t nwant got' true m' p' f s'.

Definition take_turn (t nwant : nat) (m : memory) (p : Pool) (f : nat -> Thread) (s' : State) : Prop :=
  if waiting p =? 0 then collect t nwant [] m (set_waiting 1 p) f s'
  else s' = mkState m (set_waitCond (Ns_CondWait t (waitCond p)) p) (upd t (at_pc (Turn nwant) (f t)) f).

(** The wait of a thread ends with a timeout, whether it was woken or not. *)
Inductive times_out (c : Ns_Cond) (t : nat) : Ns_Cond -> Prop :=
| time_out_waiting l1 l2 : waits c = l1 ++ t :: l2 -> times_out c t (mkCond (l1 ++ l2) (woken c))
| time_out_woken l1 l2 : woken c = l1 ++ t :: l2 -> times_out c t (mkCond (waits c) (l1 ++ l2)).

Definition signal_getter (p : Pool) (c : Ns_Cond) : Prop :=
  if waiting p =? 0 then c = getCond p else Ns_CondSignal (getCond p) c.

Section steps.
(** The threads that wait with a timeout. *)
Context (timed : nat -> bool).

Inductive step : State -> State -> Prop :=
| step_refused m p f t (nwant : nat) : pc (f t) = Idle -> nhandles p < Z.of_nat nwant \/ 0 < count (f t) -> step (mkState m p f) (mkState m p f)
| step_get m p f t (nwant : nat) s' : pc (f t) = Idle -> Z.of_nat nwant <= nhandles p -> count (f t) = 0 ->
    take_turn t nwant m p (upd t (mkThread Idle (owned (f t)) (Z.of_nat nwant)) f) s' -> step (mkState m p f) s'
| step_turn m p f t nwant c s' : pc (f t) = Turn nwant -> resumes (waitCond p) t c -> take_turn t nwant m (set_waitCond c p) f s' -> step (mkState m p f) s'
| step_turn_timeout m p f t nwant c : timed t = true -> pc (f t) = Turn nwant -> times_out (waitCond p) t c ->
    step (mkState m p f) (mkState m (set_waitCond c p) (upd t (at_pc (Done nwant [] (Nat.eqb nwant 0)) (f t)) f))
| step_collect m p f t nwant got c s' : pc (f t) = Collecting nwant got -> resumes (getCond p) t c -> collect t nwant got m (set_getCond c p) f s' ->
    step (mkState m p f) s'
| step_collect_timeout m p f t nwant got c got' m' p' s' : timed t = true -> pc (f t) = Collecting nwant got -> times_out (getCond p) t c ->
    take_handles 1 got m (set_getCond c p) = Some (got', m', p') -> leave_turn t nwant got' false m' p' f s' -> step (mkState m p f) s'
| step_got m p f t nwant got now opens m' : pc (f t) = Done nwant got true -> connect_handles now opens got m = Some (true, m') ->
    step (mkState m p f) (mkState m' p (upd t (mkThread Idle (owned (f t) ++ got) (count (f t))) f))
| step_failed m p f t nwant got ok now opens m1 m2 p2 c : pc (f t) = Done nwant got ok ->
    (if ok then connect_handles now opens got m = Some (false, m1) else m1 = m) ->
    return_handles (rev got) m1 p = Some (m2, p2) -> signal_getter p2 c ->
    step (mkState m p f) (mkState m2 (set_getCond c p2) (upd t (mkThread Idle (owned (f t)) (count (f t) - Z.of_nat nwant)) f))
| step_put m p f t l1 a l2 now h m' p' c : pc (f t) = Idle -> owned (f t) = l1 ++ a :: l2 -> m !! a = Some h ->
    ReturnHandle a (<[a := put_handle p now h]> m) p = Some (m', p') -> signal_getter p' c ->
    step (mkState m p f) (mkState m' (set_getCond c p') (upd t (mkThread Idle (l1 ++ l2) (count (f t) - 1)) f))
| step_bounce m p f l m' : walk (size m) m (firstPtr p) = Some l -> mark_handles (stale_on_close p + 1) l m = Some m' ->
    step (mkState m p f) (mkState m' (mkPool (waiting p) (nhandles p) (firstPtr p) (lastPtr p) (maxidle p) (maxopen p) (stale_on_close p + 1) (waitCond p) (getCond p)) f)
| step_check m p f t l : pc (f t) = Idle -> walk (size m) m (firstPtr p) = Some l ->
    step (mkState m p f) (mkState m (set_list None None p) (upd t (at_pc (Checking l) (f t)) f))
| step_checked m p f t l now checked m1 m2 p2 c : pc (f t) = Checking l -> check_handles now p l [] m = Some (checked, m1) ->
    return_handles checked m1 p = Some (m2, p2) -> (if bool_decide (l = []) then c = getCond p2 else signal_getter p2 c) ->
    step (mkState m p f) (mkState m2 (set_getCond c p2) (upd t (at_pc Idle (f t)) f))
| step_wake_turn m p f c : wakes (waitCond p) c -> step (mkState m p f) (mkState m (set_waitCond c p) f)
| step_wake_getter m p f c : wakes (getCond p) c -> step (mkState m p f) (mkState m (set_getCond c p) f).

Inductive reachable : State -> Prop :=
| reach_init n i o garbage m p : CreatePool n i o garbage = Some (m, p) -> reachable (mkState m p (fun _ => mkThread Idle [] 0))
| reach_step s s' : reachable s -> step s s' -> reachable s'.

End steps.

(** ** The list in memory *)

Fixpoint lseg (m : memory) (q : option nat) (l : list nat) : Prop :=
  match l with
  | [] => q = None
  | a :: l => q = Some a /\ exists h, m !! a = Some h /\ lseg m (nextPtr h) l
  end.

Record FreeList (m : memory) (p : Pool) (l : list nat) : Prop := {
  fl_seg : lseg m (firstPtr p) l;
  fl_last : lastPtr p = last l;
  fl_nodup : NoDup l
}.

(** Everything but the list. *)
Definition same_pool (p p' : Pool) : Prop :=
  exists f l, p' = set_list f l p.

Lemma same_pool_refl p : same_pool p p.
Proof. exists (firstPtr p), (lastPtr p). by destruct p. Qed.

Lemma same_pool_trans p q r : same_pool p q -> same_pool q r -> same_pool p r.
Proof. intros (f & l & ->) (f' & l' & ->). by exists f', l'. Qed.

Lemma lseg_frame m q l a h : a ∉ l -> lseg m q l -> lseg (<[a := h]> m) q l.
Proof.
  revert q. induction l as [|b l IH]; intros q Ha; [done|]. apply not_elem_of_cons in Ha as [Hne Ha]. intros (-> & hb & Hb & Hl).
  split; [done|]. exists hb. rewrite lookup_insert_ne by done. split; [done|]. by apply IH.
Qed.

Lemma lseg_next m q l a h h' : m !! a = Some h -> nextPtr h' = nextPtr h -> lseg m q l -> lseg (<[a := h']> m) q l.
Proof.
  intros Ha Hn. revert q. induction l as [|b l IH]; intros q; [done|]. intros (-> & hb & Hb & Hl). split; [done|].
  destruct (decide (b = a)) as [->|Hne].
  - exists h'. rewrite lookup_insert_eq. split; [done|]. rewrite Hn. replace h with hb by congruence. by apply IH.
  - exists hb. rewrite lookup_insert_ne by done. split; [done|]. by apply IH.
Qed.

Lemma lseg_dom m q l a : lseg m q l -> a ∈ l -> is_Some (m !! a).
Proof.
  revert q. induction l as [|b l IH]; intros q; [by intros _ ?%elem_of_nil|]. intros (-> & h & Hb & Hl) [->|Ha]%elem_of_cons; [by eexists|by eapply IH].
Qed.

Lemma lseg_snoc m q l z a hz h : lseg m q (l ++ [z]) -> NoDup (l ++ [z]) -> a ∉ l ++ [z] -> m !! z = Some hz ->
  lseg (<[a := set_next None h]> (<[z := set_next (Some a) hz]> m)) q (l ++ [z; a]).
Proof.
  revert q. induction l as [|b l IH]; intros q; cbn [app]; rewrite ?not_elem_of_cons.
  - intros (-> & h' & Hz' & Hn) _ [Hne _] Hz. split; [done|]. exists (set_next (Some a) hz). rewrite lookup_insert_ne, lookup_insert_eq by done.
    split; [done|]. split; [done|]. exists (set_next None h). by rewrite lookup_insert_eq.
  - intros (-> & hb & Hb & Hl) [Hnb Hnd]%NoDup_cons [Hab Ha] Hz. split; [done|]. exists hb.
    assert (b <> z) by (intros ->; apply Hnb, elem_of_app; right; by apply list_elem_of_singleton).
    rewrite !lookup_insert_ne by done. split; [done|]. by apply IH.
Qed.

(** The same handles, with the same marks of bounces. *)
Definition same_marks (m m' : memory) : Prop := forall b, h_stale_on_close <$> m' !! b = h_stale_on_close <$> m !! b.

Lemma marks_dom m m' b : same_marks m m' -> is_Some (m !! b) -> is_Some (m' !! b).
Proof. intros Hm [h Hh]. specialize (Hm b). rewrite Hh in Hm. destruct (m' !! b); [by eexists|done]. Qed.

Lemma marks_insert m a h h' : m !! a = Some h -> h_stale_on_close h' = h_stale_on_close h -> same_marks m (<[a := h']> m).
Proof.
  intros Ha Hh b. destruct (decide (b = a)) as [->|Hne]; [rewrite lookup_insert_eq, Ha; cbn; by rewrite Hh|by rewrite lookup_insert_ne].
Qed.

Lemma marks_trans m m' m'' : same_marks m m' -> same_marks m' m'' -> same_marks m m''.
Proof. intros H1 H2 b. by rewrite H2, H1. Qed.

Lemma free_frame m p l a h : a ∉ l -> FreeList m p l -> FreeList (<[a := h]> m) p l.
Proof. intros Ha []. split; [by apply lseg_frame|done..]. Qed.

Lemma return_spec m p l a h : FreeList m p l -> a ∉ l -> m !! a = Some h ->
  exists m' p' l', ReturnHandle a m p = Some (m', p') /\ FreeList m' p' l' /\ l' ≡ₚ a :: l /\ same_pool p p' /\ same_marks m m'.
Proof.
  intros [Hs Hl Hn] Ha Eh. unfold ReturnHandle. rewrite Eh. cbn [mbind option_bind].
  destruct l as [|f l]; [cbn in Hs; rewrite Hs|destruct Hs as [Hf Hs]; rewrite Hf; destruct (connected h) eqn:Ec].
  - eexists _, _, [a]. split; [done|]. split_and!; [|done|by eexists _, _|by eapply marks_insert].
    split; cbn; [|done|apply NoDup_singleton]. split; [done|]. exists (set_next None h). by rewrite lookup_insert_eq.
  - eexists _, _, (a :: f :: l). split; [done|]. split_and!; [|done|by eexists _, _|by eapply marks_insert].
    split; cbn [firstPtr lastPtr set_list]; [|by rewrite Hl, last_cons_cons|by apply NoDup_cons]. split; [done|]. exists (set_next (Some f) h). rewrite lookup_insert_eq. split; [done|].
      apply (lseg_frame m (Some f) (f :: l)); [done|]. by split.
  - destruct (exists_last (l := f :: l) ltac:(done)) as (l0 & z & E). rewrite Hl, E, last_snoc. cbn [mbind option_bind].
    assert (lseg m (Some f) (l0 ++ [z])) as Hseg by (rewrite <- E; by split).
    destruct (lseg_dom _ _ _ z Hseg) as [hz Hz]; [set_solver|]. rewrite Hz. cbn [mbind option_bind].
    assert (a <> z) as Haz by (intros ->; apply Ha; rewrite E; set_solver). rewrite lookup_insert_ne, Eh by done. cbn [mbind option_bind].
    eexists _, _, (l0 ++ [z; a]). split; [done|]. split_and!.
    + split; cbn [firstPtr lastPtr set_list].
      * apply lseg_snoc; [done|by rewrite <- E|by rewrite <- E|done].
      * change [z; a] with ([z] ++ [a]). by rewrite app_assoc, last_snoc.
      * change [z; a] with ([z] ++ [a]). rewrite app_assoc, <- E. apply NoDup_app. split_and!; [done| |apply NoDup_singleton]. set_solver.
    + change [z; a] with ([z] ++ [a]). rewrite app_assoc. by rewrite <- Permutation_cons_append.
    + by eexists _, _.
    + eapply marks_trans; [by apply (marks_insert m z hz (set_next (Some a) hz))|]. eapply marks_insert; [rewrite lookup_insert_ne by done; exact Eh|done].
Qed.

Lemma return_all_spec rgot : forall m p l, FreeList m p l -> NoDup rgot -> (forall a, a ∈ rgot -> a ∉ l /\ is_Some (m !! a)) ->
  exists m' p' l', return_handles rgot m p = Some (m', p') /\ FreeList m' p' l' /\ l' ≡ₚ rgot ++ l /\ same_pool p p' /\ same_marks m m'.
Proof.
  induction rgot as [|a rgot IH]; intros m p l Hf Hn Ha; [eexists m, p, l; split_and!; [done|done|done|apply same_pool_refl|done]|].
  apply NoDup_cons in Hn as [Hna Hn]. destruct (Ha a) as [Hal [h Hh]]; [by left|]. cbn [return_handles].
  destruct (return_spec m p l a h Hf Hal Hh) as (m1 & p1 & l1 & -> & Hf1 & Hp1 & Hs1 & Hm1). cbn [mbind option_bind].
  destruct (IH m1 p1 l1 Hf1 Hn) as (m2 & p2 & l2 & -> & Hf2 & Hp2 & Hs2 & Hm2).
  { intros b Hb. destruct (Ha b) as [Hbl Hd]; [by right|]. split; [|by eapply marks_dom]. rewrite Hp1, not_elem_of_cons. split; [|done]. by intros ->. }
  eexists m2, p2, l2. split_and!; [done|done| |by eapply same_pool_trans|by eapply marks_trans]. rewrite Hp2, Hp1. solve_Permutation.
Qed.

Lemma take_first_spec m p a l : FreeList m p (a :: l) ->
  exists m' p', take_first a m p = Some (m', p') /\ FreeList m' p' l /\ same_pool p p' /\ same_marks m m'.
Proof.
  intros [(Hf & h & Hh & Hs) Hl Hn]. unfold take_first. rewrite Hh. cbn [mbind option_bind]. apply NoDup_cons in Hn as [Ha Hn].
  eexists _, _. split; [done|]. split_and!; [|by eexists _, _|by eapply marks_insert]. split; cbn; [by apply lseg_frame| |done].
  rewrite Hl. destruct l as [|b l]; [by rewrite bool_decide_eq_true_2|]. rewrite last_cons_cons. rewrite bool_decide_eq_false_2; [done|].
  intros E. apply Ha. by apply last_Some_elem_of.
Qed.

Lemma take_spec n : forall got m p l, FreeList m p l ->
  exists m' p', take_handles n got m p = Some (got ++ take n l, m', p') /\ FreeList m' p' (drop n l) /\ same_pool p p' /\ same_marks m m'.
Proof.
  induction n as [|n IH]; intros got m p l Hf.
  { eexists m, p. rewrite take_0, app_nil_r, drop_0. split_and!; [by destruct (firstPtr p)|done|apply same_pool_refl|done]. }
  cbn [take_handles]. destruct l as [|a l].
  { pose proof (fl_seg _ _ _ Hf) as Hs. cbn in Hs. rewrite Hs, app_nil_r. eexists m, p. split_and!; [done|done|apply same_pool_refl|done]. }
  destruct (take_first_spec m p a l Hf) as (m1 & p1 & E & Hf1 & Hs1 & Hm1). destruct (fl_seg _ _ _ Hf) as [Hfp _]. rewrite Hfp, E. cbn [mbind option_bind].
  destruct (IH (got ++ [a]) m1 p1 l Hf1) as (m2 & p2 & -> & Hf2 & Hs2 & Hm2). cbn [take drop]. eexists m2, p2. rewrite <- app_assoc.
  split_and!; [done|done|by eapply same_pool_trans|by eapply marks_trans].
Qed.

Lemma walk_spec m : forall l q fuel, lseg m q l -> (length l <= fuel)%nat -> walk fuel m q = Some l.
Proof.
  induction l as [|a l IH]; intros q fuel; cbn [lseg].
  - intros ->. by destruct fuel.
  - intros (-> & h & Hh & Hs) Hl. destruct fuel as [|fuel]; [cbn in Hl; lia|]. cbn [walk]. rewrite Hh. cbn [mbind option_bind].
    rewrite (IH _ fuel Hs) by (cbn in Hl; lia). done.
Qed.

Lemma free_length m p l : FreeList m p l -> (length l <= size m)%nat.
Proof.
  intros [Hs _ Hn]. rewrite <- size_dom. rewrite <- (size_list_to_set (C := gset nat) l) by done. apply subseteq_size. intros a Ha.
  apply elem_of_list_to_set in Ha. apply elem_of_dom. by eapply lseg_dom.
Qed.

Lemma walk_free m p l : FreeList m p l -> walk (size m) m (firstPtr p) = Some l.
Proof. intros Hf. apply walk_spec; [apply (fl_seg _ _ _ Hf)|by eapply free_length]. Qed.

(** Handles that are not in the list are changed. *)
Lemma connect_spec now opens got : forall m p l, FreeList m p l -> (forall a, a ∈ got -> a ∉ l /\ is_Some (m !! a)) ->
  exists b m', connect_handles now opens got m = Some (b, m') /\ FreeList m' p l /\ same_marks m m'.
Proof.
  induction got as [|a got IH]; intros m p l Hf Ha; [by eexists true, m|]. destruct (Ha a) as [Hal [h Hh]]; [by left|]. cbn [connect_handles]. rewrite Hh. cbn [mbind option_bind].
  assert (forall b, same_marks m (<[a := Connect now b h]> m)) as Hc by (intros b; eapply marks_insert; [done|by destruct b]).
  destruct (connected h); [|destruct (opens a)].
  - apply IH; [done|]. intros b Hb. apply Ha. by right.
  - destruct (IH (<[a := Connect now true h]> m) p l) as (b & m' & -> & Hf' & Hm'); [by apply free_frame| |].
    { intros b Hb. destruct (Ha b) as [Hbl Hd]; [by right|]. split; [done|]. by eapply marks_dom. }
    eexists b, m'. split_and!; [done|done|]. by eapply marks_trans.
  - eexists false, _. split_and!; [done|by apply free_frame|done].
Qed.

Lemma check_spec now p l : forall checked m p' free, FreeList m p' free -> (forall a, a ∈ l -> a ∉ free /\ is_Some (m !! a)) ->
  exists m', check_handles now p l checked m = Some (rev l ++ checked, m') /\ FreeList m' p' free /\ same_marks m m'.
Proof.
  induction l as [|a l IH]; intros checked m p' free Hf Ha; [by eexists m|]. destruct (Ha a) as [Hal [h Hh]]; [by left|]. cbn [check_handles]. rewrite Hh. cbn [mbind option_bind].
  set (h' := set_next (head checked) (if IsStale p h now then NsDbDisconnect h else h)).
  assert (same_marks m (<[a := h']> m)) as Hc by (eapply marks_insert; [done|]; subst h'; by destruct (IsStale p h now)).
  destruct (IH (a :: checked) (<[a := h']> m) p' free) as (m' & -> & Hf' & Hm'); [by apply free_frame| |].
  { intros b Hb. destruct (Ha b) as [Hbl Hd]; [by right|]. split; [done|]. by eapply marks_dom. }
  eexists m'. cbn [rev]. rewrite <- app_assoc. split_and!; [done|done|]. by eapply marks_trans.
Qed.

Lemma mark_spec n l : forall m p free, FreeList m p free -> NoDup l -> (forall a, a ∈ l -> is_Some (m !! a)) ->
  exists m', mark_handles n l m = Some m' /\ FreeList m' p free /\ dom m' = dom m /\
    forall b, h_stale_on_close <$> m' !! b = if decide (b ∈ l) then Some n else h_stale_on_close <$> m !! b.
Proof.
  induction l as [|a l IH]; intros m p free Hf Hn Ha.
  { eexists m. split_and!; [done..|]. intros b. by rewrite decide_False by apply not_elem_of_nil. }
  apply NoDup_cons in Hn as [Hna Hn]. destruct (Ha a) as [h Hh]; [by left|]. cbn [mark_handles]. rewrite Hh. cbn [mbind option_bind].
  set (h' := mkHandle _ _ _ _ _ _ _ _).
  assert (dom (<[a := h']> m) = dom m) as Hd by (rewrite dom_insert_L; apply elem_of_dom_2 in Hh; set_solver).
  destruct (IH (<[a := h']> m) p free) as (m' & -> & Hf' & Hd' & Hm'); [|done| |].
  { destruct Hf as [Hs ? ?]. split; [|done..]. by eapply lseg_next. }
  { intros b Hb. rewrite lookup_insert_ne by (by intros ->). apply Ha. by right. }
  eexists m'. split_and!; [done|done|congruence|]. intros b. rewrite Hm'. destruct (decide (b = a)) as [->|Hne].
  - rewrite (decide_False (P := a ∈ l)) by done. rewrite (decide_True (P := a ∈ a :: l)) by (by left). by rewrite lookup_insert_eq.
  - rewrite lookup_insert_ne by done. destruct (decide (b ∈ l)) as [Hb|Hb], (decide (b ∈ a :: l)) as [Hc|Hc]; try done; set_solver.
Qed.

Lemma create_spec n garbage : forall i m p l, FreeList m p l -> (forall a, is_Some (m !! a) <-> (a < i)%nat) -> l ≡ₚ seq 0 i ->
  exists m' p' l', create_handles i n garbage m p = Some (m', p') /\ FreeList m' p' l' /\ l' ≡ₚ seq 0 (i + n) /\ same_pool p p' /\
    (forall a, is_Some (m' !! a) <-> (a < i + n)%nat).
Proof.
  induction n as [|n IH]; intros i m p l Hf Hd Hl; cbn [create_handles].
  { rewrite Nat.add_0_r. eexists m, p, l. split_and!; [done|done|done|apply same_pool_refl|done]. }
  set (h := mkHandle _ _ _ _ _ _ _ _). assert (i ∉ l) as Hi by (rewrite Hl, elem_of_seq; lia).
  destruct (return_spec (<[i := h]> m) p l i h) as (m1 & p1 & l1 & -> & Hf1 & Hl1 & Hs1 & Hm1); [by apply free_frame|done|apply lookup_insert_eq|]. cbn [mbind option_bind].
  destruct (IH (S i) m1 p1 l1 Hf1) as (m2 & p2 & l2 & -> & Hf2 & Hl2 & Hs2 & Hd2).
  { intros a. specialize (Hm1 a). destruct (decide (a = i)) as [->|Hne].
    - rewrite lookup_insert_eq in Hm1. destruct (m1 !! i); [|done]. split; [lia|by eexists].
    - rewrite lookup_insert_ne in Hm1 by done. transitivity (is_Some (m !! a)); [|rewrite Hd; lia].
      destruct (m1 !! a), (m !! a); try done; split; by eexists. }
  { rewrite Hl1, Hl. rewrite seq_S. cbn. by rewrite <- Permutation_cons_append. }
  eexists m2, p2, l2. rewrite <- Nat.add_succ_comm. split_and!; [done|done|done|by eapply same_pool_trans|done].
Qed.

(** ** Who has which handle *)

Definition held (th : Thread) : list nat :=
  owned th ++ match pc th with Collecting _ got | Done _ got _ => got | Checking l => l | _ => [] end.

Record Own (m : memory) (free : list nat) (f : nat -> Thread) : Prop := {
  own_all : forall a, is_Some (m !! a) <-> a ∈ free \/ exists t, a ∈ held (f t);
  own_nodup : forall t, NoDup (free ++ held (f t));
  own_apart : forall t u a, t <> u -> a ∈ held (f t) -> a ∉ held (f u)
}.

Lemma upd_same t x f : upd t x f t = x.
Proof. unfold upd. by rewrite Nat.eqb_refl. Qed.

Lemma upd_other t u x f : u <> t -> upd t x f u = f u.
Proof. intros Hne. unfold upd. by rewrite (proj2 (Nat.eqb_neq u t)). Qed.

(** Handles move between a thread and the list. *)
Lemma own_move m m' free free' f t x : Own m free f -> (forall a, is_Some (m' !! a) <-> is_Some (m !! a)) ->
  free' ++ held x ≡ₚ free ++ held (f t) -> Own m' free' (upd t x f).
Proof.
  intros [Ha Hn Hd] Hm Hp. assert (forall a, a ∈ free' \/ a ∈ held x <-> a ∈ free \/ a ∈ held (f t)) as He by (intros a; rewrite <- !elem_of_app; by rewrite Hp).
  assert (forall u a, u <> t -> a ∈ held (f u) -> a ∉ free' /\ a ∉ held x) as Hu.
  { intros u a Hne Hu. assert (a ∉ free) by (intros Hf; specialize (Hn u); apply NoDup_app in Hn as (_ & Hn & _); by apply (Hn a)).
    assert (a ∉ held (f t)) by (by apply (Hd u t)). specialize (He a). tauto. }
  split.
  - intros a. rewrite Hm, Ha. split.
    + intros [Hf|[u Hu']]; [destruct (proj2 (He a) (or_introl Hf)) as [?|?]; [by left|right; exists t; by rewrite upd_same]|].
      destruct (decide (u = t)) as [->|Hne]; [destruct (proj2 (He a) (or_intror Hu')) as [?|?]; [by left|right; exists t; by rewrite upd_same]|].
      right. exists u. by rewrite upd_other.
    + intros [Hf|[u Hu']]; [destruct (proj1 (He a) (or_introl Hf)) as [?|?]; [by left|right; by exists t]|].
      destruct (decide (u = t)) as [->|Hne]; [rewrite upd_same in Hu'; destruct (proj1 (He a) (or_intror Hu')) as [?|?]; [by left|right; by exists t]|].
      right. exists u. by rewrite upd_other in Hu'.
  - intros u. destruct (decide (u = t)) as [->|Hne]; [by rewrite upd_same, Hp|]. rewrite upd_other by done. apply NoDup_app. split_and!.
    + specialize (Hn t). rewrite <- Hp in Hn. apply NoDup_app in Hn. tauto.
    + intros a Hf Hh. destruct (Hu u a Hne Hh). tauto.
    + specialize (Hn u). apply NoDup_app in Hn. tauto.
  - intros u v a Hne. destruct (decide (u = t)) as [->|Hut], (decide (v = t)) as [->|Hvt]; rewrite ?upd_same, ?upd_other by done; [done| | |by apply Hd].
    + intros Hx Hv. destruct (Hu v a Hvt Hv). tauto.
    + intros Hv Hx. destruct (Hu u a Hut Hv). tauto.
Qed.

(** ** Whose turn it is *)

(** What a thread has asked for and what it has. *)
Definition wanted (c : Pc) : nat := match c with Turn n | Collecting n _ | Done n _ _ => n | _ => 0 end.

Definition thread_ok (th : Thread) : Prop :=
  count th = Z.of_nat (length (owned th) + wanted (pc th)) /\
  match pc th with Collecting n got => (length got < n)%nat | Done n got true => length got = n | _ => True end.

Definition turning (c : Pc) : Prop := exists n, c = Turn n.
Definition collecting (c : Pc) : Prop := exists n got, c = Collecting n got.

(** The threads on the condition variables are those that wait there, without [skip], which has the mutex. *)
Record Conds (skip : nat -> Prop) (p : Pool) (f : nat -> Thread) : Prop := {
  cd_wait : forall t, t ∈ threads (waitCond p) <-> ~ skip t /\ turning (pc (f t));
  cd_nodup : NoDup (threads (waitCond p));
  cd_get : forall t, t ∈ threads (getCond p) <-> ~ skip t /\ collecting (pc (f t));
  cd_one : (length (threads (getCond p)) <= 1)%nat
}.

Definition nobody (t : nat) : Prop := False.
Definition only (t u : nat) : Prop := u = t.

Record Inv_at (s : State) (free : list nat) : Prop := {
  inv_free : FreeList (mem s) (pool s) free;
  inv_own : Own (mem s) free (thr s);
  inv_conds : Conds nobody (pool s) (thr s);
  inv_turn : waiting (pool s) = Z.of_nat (length (threads (getCond (pool s))));
  inv_getter : waits (getCond (pool s)) <> [] -> free = [];
  inv_threads : forall t, thread_ok (thr s t)
}.

Definition Inv (s : State) : Prop := exists free, Inv_at s free.

(** A thread takes the mutex: it was elsewhere, or it leaves a condition variable. *)
Lemma conds_enter t p f : Conds nobody p f -> ~ turning (pc (f t)) -> ~ collecting (pc (f t)) -> Conds (only t) p f.
Proof.
  intros [Hw Hn Hg H1] Ht Hc. split; [|done| |done]; intros u; rewrite ?Hw, ?Hg; unfold nobody, only; (split; [intros [_ ?]; split; [by intros ->|done]|tauto]).
Qed.

Lemma conds_enter_wait t p f c : Conds nobody p f -> threads (waitCond p) ≡ₚ t :: threads c -> Conds (only t) (set_waitCond c p) f.
Proof.
  intros [Hw Hn Hg H1] Hp. assert (turning (pc (f t))) as [n Ht] by (apply Hw; rewrite Hp; by left). rewrite Hp in Hn. apply NoDup_cons in Hn as [Hnt Hn].
  split; cbn; [| done| |done]; intros u; unfold nobody, only in *.
  - specialize (Hw u). rewrite Hp, elem_of_cons in Hw. split; [intros Hu; split; [by intros ->|apply Hw; by right]|]. intros [Hne Hu]. destruct (proj2 Hw) as [?|?]; [tauto|done|done].
  - rewrite Hg. split; [|tauto]. intros [_ Hu]. split; [|done]. intros ->. destruct Hu as (? & ? & Hu). congruence.
Qed.

Lemma conds_enter_get t p f c : Conds nobody p f -> threads (getCond p) ≡ₚ t :: threads c -> Conds (only t) (set_getCond c p) f /\ threads c = [].
Proof.
  intros [Hw Hn Hg H1] Hp. assert (collecting (pc (f t))) as (n & got & Ht) by (apply Hg; rewrite Hp; by left).
  assert (threads c = []) as Hc by (apply Permutation_length in Hp; cbn in Hp; apply length_zero_iff_nil; lia). split; [|done].
  split; cbn; [|done| |by rewrite Hc; cbn; lia]; intros u; unfold nobody, only in *.
  - rewrite Hw. split; [|tauto]. intros [_ Hu]. split; [|done]. intros ->. destruct Hu as (? & Hu). congruence.
  - rewrite Hc. specialize (Hg u). rewrite Hp, Hc in Hg. split; [by intros ?%elem_of_nil|]. intros [Hne Hu]. exfalso. apply Hne. apply list_elem_of_singleton. apply Hg. tauto.
Qed.

(** It leaves the mutex: it is elsewhere, or waits. *)
Lemma conds_leave t p p' f x : Conds (only t) p f -> ~ turning (pc x) -> ~ collecting (pc x) ->
  threads (waitCond p') ≡ₚ threads (waitCond p) -> threads (getCond p') ≡ₚ threads (getCond p) -> Conds nobody p' (upd t x f).
Proof.
  intros [Hw Hn Hg H1] Ht Hc Ew Eg. split; [|by rewrite Ew| |by rewrite Eg]; intros u; rewrite ?Ew, ?Eg, ?Hw, ?Hg; unfold nobody, only;
    (destruct (decide (u = t)) as [->|Hne]; [rewrite upd_same; tauto|rewrite upd_other by done; tauto]).
Qed.

Lemma conds_leave_wait t p p' f x : Conds (only t) p f -> turning (pc x) ->
  threads (waitCond p') ≡ₚ t :: threads (waitCond p) -> threads (getCond p') ≡ₚ threads (getCond p) -> Conds nobody p' (upd t x f).
Proof.
  intros [Hw Hn Hg H1] Ht Ew Eg. assert (~ collecting (pc x)) as Hc by (destruct Ht as [n ->]; by intros (? & ? & ?)).
  split; [| | |by rewrite Eg].
  - intros u. rewrite Ew, elem_of_cons, Hw. unfold nobody, only. destruct (decide (u = t)) as [->|Hne]; [rewrite upd_same; tauto|rewrite upd_other by done; tauto].
  - rewrite Ew. apply NoDup_cons. split; [|done]. rewrite Hw. unfold only. tauto.
  - intros u. rewrite Eg, Hg. unfold nobody, only. destruct (decide (u = t)) as [->|Hne]; [rewrite upd_same; tauto|rewrite upd_other by done; tauto].
Qed.

Lemma conds_leave_get t p p' f x : Conds (only t) p f -> collecting (pc x) -> threads (getCond p) = [] ->
  threads (waitCond p') ≡ₚ threads (waitCond p) -> threads (getCond p') ≡ₚ [t] -> Conds nobody p' (upd t x f).
Proof.
  intros [Hw Hn Hg H1] Hc Hnil Ew Eg. assert (~ turning (pc x)) as Ht by (destruct Hc as (n & got & ->); by intros (? & ?)).
  split; [|by rewrite Ew| |by rewrite Eg]; intros u.
  - rewrite Ew, Hw. unfold nobody, only. destruct (decide (u = t)) as [->|Hne]; [rewrite upd_same; tauto|rewrite upd_other by done; tauto].
  - rewrite Eg, list_elem_of_singleton. specialize (Hg u). rewrite Hnil in Hg. unfold nobody, only in *. destruct (decide (u = t)) as [->|Hne]; [rewrite upd_same; tauto|rewrite upd_other by done].
    split; [done|]. intros [_ Hu]. exfalso. apply (not_elem_of_nil u). apply Hg. tauto.
Qed.

Lemma times_out_threads c t c' : times_out c t c' -> threads c ≡ₚ t :: threads c'.
Proof. unfold threads. destruct 1 as [l1 l2 E|l1 l2 E]; cbn; rewrite E; solve_Permutation. Qed.

Lemma threads_ok_upd t x f : (forall u, u <> t -> thread_ok (f u)) -> thread_ok x -> forall u, thread_ok (upd t x f u).
Proof. intros Hf Hx u. destruct (decide (u = t)) as [->|Hne]; [by rewrite upd_same|rewrite upd_other by done; auto]. Qed.

Lemma marks_is_Some m m' : same_marks m m' -> forall a, is_Some (m' !! a) <-> is_Some (m !! a).
Proof. intros Hm a. specialize (Hm a). destruct (m' !! a), (m !! a); try done; split; by eexists. Qed.

Lemma free_pool m p p' l : firstPtr p' = firstPtr p -> lastPtr p' = lastPtr p -> FreeList m p l -> FreeList m p' l.
Proof. intros E1 E2 [Hs Hl Hn]. split; [by rewrite E1|by rewrite E2|done]. Qed.

(** ** A thread with the turn *)

(** It has the mutex and will hold [got]; the others are in order. *)
Record Ready (t nwant : nat) (got : list nat) (m : memory) (p : Pool) (f : nat -> Thread) (free : list nat) : Prop := {
  rd_free : FreeList m p free;
  rd_own : forall x, held x ≡ₚ owned (f t) ++ got -> Own m free (upd t x f);
  rd_conds : Conds (only t) p f;
  rd_count : count (f t) = Z.of_nat (length (owned (f t)) + nwant);
  rd_threads : forall u, u <> t -> thread_ok (f u)
}.

Lemma own_ext m free f g : (forall u, f u = g u) -> Own m free f -> Own m free g.
Proof.
  intros E [Ha Hn Hd]. split.
  - intros a. rewrite Ha. setoid_rewrite E. done.
  - intros u. rewrite <- E. apply Hn.
  - intros u v a. rewrite <- !E. apply Hd.
Qed.

Lemma upd_upd t x y f u : upd t x (upd t y f) u = upd t x f u.
Proof. unfold upd. by destruct (Nat.eqb u t). Qed.

(** Taking handles off the list. *)
Lemma ready_take t nwant got m p f free n : Ready t nwant got m p f free ->
  exists m' p', take_handles n got m p = Some (got ++ take n free, m', p') /\ Ready t nwant (got ++ take n free) m' p' f (drop n free) /\
    same_pool p p' /\ same_marks m m'.
Proof.
  intros [Hf Ho Hc Hcount Hth]. destruct (take_spec n got m p free Hf) as (m1 & p1 & -> & Hf1 & Hs & Hm1). exists m1, p1. split_and!; [done| |done|done].
  split; [done| | |done|done].
  - intros x Hx. pose proof (Ho (mkThread (Collecting nwant got) (owned (f t)) 0) ltac:(done)) as Ho'.
    eapply own_ext; [apply upd_upd|]. eapply own_move; [exact Ho'|by apply marks_is_Some|]. rewrite upd_same, Hx. unfold held. cbn.
    rewrite <- (take_drop n free) at 3. solve_Permutation.
  - destruct Hs as (g1 & g2 & ->). destruct Hc. by split.
Qed.

Lemma leave_inv t nwant got ok m p f free s' : Ready t nwant got m p f free -> threads (getCond p) = [] ->
  (ok = true -> length got = nwant) -> leave_turn t nwant got ok m p f s' -> Inv s'.
Proof.
  intros [Hf Ho Hc Hcount Hth] Hg Hok (c & Hs & ->). exists free. split; cbn.
  - by eapply free_pool; [..|exact Hf].
  - by apply Ho.
  - apply (conds_leave t p); [done|by intros (? & ?)|by intros (? & ? & ?)|by apply signal_threads|done].
  - by rewrite Hg.
  - intros Hne. unfold threads in Hg. by destruct (waits (getCond p)).
  - apply threads_ok_upd; [done|]. split; [done|]. cbn. destruct ok; cbn; [by apply Hok|]. destruct (Nat.eqb_spec (length got) nwant); done.
Qed.

Lemma collect_inv t nwant got m p f free s' : Ready t nwant got m p f free -> waiting p = 1 -> threads (getCond p) = [] -> (length got <= nwant)%nat ->
  collect t nwant got m p f s' -> Inv s'.
Proof.
  intros Hr Hw Hg Hl (got' & m' & p' & Et & Hs).
  destruct (ready_take t nwant got m p f free (nwant - length got) Hr) as (m1 & p1 & Et' & Hr1 & (g1 & g2 & ->) & Hm1).
  rewrite Et in Et'. injection Et' as -> -> ->.
  set (k := (nwant - length got)%nat) in *. set (got2 := got ++ take k free) in *.
  destruct (Nat.ltb_spec (length got2) nwant) as [Hlt|Hge].
  - subst s'. exists []. assert (drop k free = []) as Hd.
    { apply drop_ge. subst got2 k. rewrite length_app, length_take in Hlt. lia. }
    rewrite Hd in *. destruct Hr1 as [Hf1 Ho1 Hc1 Hcount Hth]. split; cbn.
    + by eapply free_pool; [..|exact Hf1].
    + by apply Ho1.
    + apply (conds_leave_get t _ _ _ _ Hc1); [by eexists _, _|done|done|]. unfold threads in *. cbn. by destruct (waits (getCond p)), (woken (getCond p)).
    + unfold threads in *. cbn. destruct (waits (getCond p)), (woken (getCond p)); cbn in *; try done.
    + done.
    + by apply threads_ok_upd.
  - eapply leave_inv; [exact Hr1|done| |exact Hs].
    intros _. subst got2 k. rewrite length_app, length_take in *. lia.
Qed.

Lemma take_turn_inv t nwant m p f free s' : Ready t nwant [] m p f free -> waiting p = Z.of_nat (length (threads (getCond p))) ->
  (waits (getCond p) <> [] -> free = []) -> take_turn t nwant m p f s' -> Inv s'.
Proof.
  intros Hr Hw Hg. unfold take_turn. destruct (Z.eqb_spec (waiting p) 0) as [E|E].
  - assert (threads (getCond p) = []) as Hnil by (apply length_zero_iff_nil; lia). apply (collect_inv t nwant [] m _ f free); [|done|done|cbn; lia].
    destruct Hr as [Hf Ho Hc Hcount Hth]. split; [by eapply free_pool; [..|exact Hf]|done| |done|done]. destruct Hc. by split.
  - intros ->. exists free. destruct Hr as [Hf Ho Hc Hcount Hth]. split; cbn.
    + by eapply free_pool; [..|exact Hf].
    + by apply Ho.
    + apply (conds_leave_wait t p); [done|by eexists|done|done].
    + done.
    + done.
    + by apply threads_ok_upd.
Qed.

(** ** The steps *)

Lemma conds_pc skip p f g : (forall u, pc (g u) = pc (f u)) -> Conds skip p f -> Conds skip p g.
Proof. intros E [Hw Hn Hg H1]. split; [|done| |done]; intros u; rewrite ?Hw, ?Hg, E; done. Qed.

(** A thread of the invariant takes the mutex. *)
Lemma ready_enter t nwant got m p p' f free : Inv_at (mkState m p f) free -> firstPtr p' = firstPtr p -> lastPtr p' = lastPtr p -> Conds (only t) p' f ->
  held (f t) = owned (f t) ++ got -> count (f t) = Z.of_nat (length (owned (f t)) + nwant) -> Ready t nwant got m p' f free.
Proof.
  intros [Hf Ho Hc Ht Hg Hth] E1 E2 Hc' Hh Hcount. split; [by eapply free_pool|  |done|done|intros u _; apply Hth].
  intros x Hx. eapply own_move; [exact Ho|done|]. cbn. by rewrite Hh, Hx.
Qed.

Lemma signal_getter_spec p c : waiting p = Z.of_nat (length (threads (getCond p))) -> (length (threads (getCond p)) <= 1)%nat -> signal_getter p c ->
  threads c ≡ₚ threads (getCond p) /\ waits c = [].
Proof.
  intros Hw Hl. unfold signal_getter. destruct (Z.eqb_spec (waiting p) 0) as [E|E].
  - intros ->. split; [done|]. assert (threads (getCond p) = []) as Hn by (apply length_zero_iff_nil; lia). unfold threads in Hn. by destruct (waits (getCond p)).
  - intros Hs. pose proof (signal_threads _ _ Hs) as Hp. split; [done|]. assert (threads (getCond p) <> []) as Hne by (intros En; rewrite En in Hw; cbn in Hw; lia).
    pose proof (signal_woken _ _ Hs Hne) as Hwk. apply Permutation_length in Hp. unfold threads in Hp, Hl. rewrite !length_app in *.
    destruct (waits c); [done|]. destruct (woken c); [done|]. cbn in Hp. lia.
Qed.

(** Handles come back to the list. *)
Lemma give_back_inv t x rgot m m1 m2 p p2 f free c : Inv_at (mkState m p f) free -> Conds (only t) p f -> (forall a, is_Some (m1 !! a) <-> is_Some (m !! a)) ->
  FreeList m1 p free -> held (f t) ≡ₚ rgot ++ held x -> ~ turning (pc x) -> ~ collecting (pc x) -> thread_ok x ->
  return_handles rgot m1 p = Some (m2, p2) -> signal_getter p2 c -> Inv (mkState m2 (set_getCond c p2) (upd t x f)).
Proof.
  intros [Hf Ho Hc Ht Hg Hth] Hc' Hd Hf1 Hh Hnt Hnc Hx Er Hs. cbn in *.
  pose proof (own_nodup _ _ _ Ho t) as Hn. rewrite Hh in Hn. apply NoDup_app in Hn as (_ & Hn1 & Hn2). apply NoDup_app in Hn2 as (Hn2 & _ & _).
  destruct (return_all_spec rgot m1 p free Hf1 Hn2) as (m2' & p2' & l' & Er' & Hf2 & Hl2 & (g1 & g2 & ->) & Hm2).
  { intros a Ha. split; [intros Hfr; apply (Hn1 a Hfr); set_solver|]. apply Hd, (own_all _ _ _ Ho). right. exists t. rewrite Hh. set_solver. }
  rewrite Er in Er'. injection Er' as -> ->. destruct (signal_getter_spec _ c Ht (cd_one _ _ _ Hc) Hs) as [Hp Hw]. cbn in Hp.
  exists l'. split; cbn.
  - by eapply free_pool; [..|exact Hf2].
  - eapply own_move; [exact Ho|intros a; by rewrite (marks_is_Some _ _ Hm2), Hd|]. rewrite Hl2, Hh. solve_Permutation.
  - by apply (conds_leave t p).
  - rewrite Ht. by rewrite (Permutation_length Hp).
  - by rewrite Hw.
  - by apply threads_ok_upd.
Qed.

Lemma held_owned (th : Thread) : pc th = Idle \/ turning (pc th) -> held th = owned th ++ [].
Proof. intros [E|[n E]]; unfold held; by rewrite E. Qed.

Lemma get_inv m p f t nwant s' : Inv (mkState m p f) -> pc (f t) = Idle -> count (f t) = 0 ->
  take_turn t nwant m p (upd t (mkThread Idle (owned (f t)) (Z.of_nat nwant)) f) s' -> Inv s'.
Proof.
  intros [free Hi] Epc Ecount. destruct (inv_threads _ _ Hi t) as [Hcnt _]. cbn in Hcnt. rewrite Epc, Ecount in Hcnt. cbn in Hcnt.
  apply (take_turn_inv t nwant m p _ free); [|apply (inv_turn _ _ Hi)|apply (inv_getter _ _ Hi)].
  assert (Conds (only t) p f) as Hc by (apply conds_enter; [apply (inv_conds _ _ Hi)|rewrite Epc; by intros (? & ?)|rewrite Epc; by intros (? & ? & ?)]).
  destruct Hi as [Hf Ho _ _ _ Hth]. split; [done| | | |].
  - rewrite upd_same. cbn. intros x Hx. eapply own_ext; [intros u; symmetry; apply upd_upd|]. eapply own_move; [exact Ho|done|]. cbn. rewrite (held_owned (f t)) by (by left). by rewrite Hx.
  - eapply conds_pc; [|exact Hc]. intros u. destruct (decide (u = t)) as [->|Hne]; [by rewrite upd_same|by rewrite upd_other].
  - rewrite upd_same. cbn. lia.
  - intros u Hne. rewrite upd_other by done. apply Hth.
Qed.

Lemma turn_inv m p f t nwant c s' : Inv (mkState m p f) -> pc (f t) = Turn nwant -> resumes (waitCond p) t c ->
  take_turn t nwant m (set_waitCond c p) f s' -> Inv s'.
Proof.
  intros [free Hi] Epc Hr. destruct (inv_threads _ _ Hi t) as [Hcnt _]. cbn in Hcnt. rewrite Epc in Hcnt. destruct (resumes_threads _ _ _ Hr) as [Hp _].
  apply (take_turn_inv t nwant m _ _ free); [|apply (inv_turn _ _ Hi)|apply (inv_getter _ _ Hi)].
  eapply ready_enter; [exact Hi|done|done|by apply conds_enter_wait, Hp; apply (inv_conds _ _ Hi)|apply held_owned; right; by eexists|done].
Qed.

Lemma turn_timeout_inv m p f t nwant c : Inv (mkState m p f) -> pc (f t) = Turn nwant -> times_out (waitCond p) t c ->
  Inv (mkState m (set_waitCond c p) (upd t (at_pc (Done nwant [] (Nat.eqb nwant 0)) (f t)) f)).
Proof.
  intros [free Hi] Epc Hr. destruct (inv_threads _ _ Hi t) as [Hcnt _]. cbn in Hcnt. rewrite Epc in Hcnt. apply times_out_threads in Hr.
  pose proof (conds_enter_wait t p f c (inv_conds _ _ Hi) Hr) as Hc. destruct Hi as [Hf Ho _ Ht Hg Hth]. cbn in *.
  exists free. split; cbn; [by eapply free_pool; [..|exact Hf]| | |done|done|].
  - eapply own_move; [exact Ho|done|]. rewrite (held_owned (f t)) by (right; by eexists). done.
  - apply (conds_leave t (set_waitCond c p)); [done|by intros (? & ?)|by intros (? & ? & ?)|done|done].
  - apply threads_ok_upd; [by intros ? _|]. split; [done|]. cbn. by destruct (Nat.eqb_spec nwant 0).
Qed.

Lemma collecting_ready m p f t nwant got c free : Inv_at (mkState m p f) free -> pc (f t) = Collecting nwant got -> threads (getCond p) ≡ₚ t :: threads c ->
  Ready t nwant got m (set_getCond c p) f free /\ waiting p = 1 /\ threads c = [] /\ (length got < nwant)%nat.
Proof.
  intros Hi Epc Hp. destruct (inv_threads _ _ Hi t) as [Hcnt Hlt]. cbn in Hcnt, Hlt. rewrite Epc in Hcnt, Hlt.
  destruct (conds_enter_get t p f c (inv_conds _ _ Hi) Hp) as [Hc Hnil]. split_and!; [|pose proof (inv_turn _ _ Hi) as Ht; cbn in Ht; by rewrite Ht, Hp, Hnil|done|done].
  eapply ready_enter; [exact Hi|done|done|done|unfold held; by rewrite Epc|done].
Qed.

Lemma got_inv m p f t nwant got now opens m' : Inv (mkState m p f) -> pc (f t) = Done nwant got true -> connect_handles now opens got m = Some (true, m') ->
  Inv (mkState m' p (upd t (mkThread Idle (owned (f t) ++ got) (count (f t))) f)).
Proof.
  intros [free Hi] Epc Ec. destruct (inv_threads _ _ Hi t) as [Hcnt Hl]. cbn in Hcnt, Hl. rewrite Epc in Hcnt, Hl. cbn in Hcnt.
  assert (Conds (only t) p f) as Hc by (apply conds_enter; [apply (inv_conds _ _ Hi)|rewrite Epc; by intros (? & ?)|rewrite Epc; by intros (? & ? & ?)]).
  destruct Hi as [Hf Ho _ Ht Hg Hth]. cbn in *. assert (held (f t) = owned (f t) ++ got) as Hh by (unfold held; by rewrite Epc).
  destruct (connect_spec now opens got m p free Hf) as (b & m1 & Ec' & Hf1 & Hm1).
  { intros a Ha. pose proof (own_nodup _ _ _ Ho t) as Hn. apply NoDup_app in Hn as (_ & Hn & _). split; [intros Hfr; apply (Hn a Hfr); rewrite Hh; set_solver|].
    apply (own_all _ _ _ Ho). right. exists t. rewrite Hh. set_solver. }
  rewrite Ec in Ec'. injection Ec' as <- <-. exists free. split; cbn; [done| | |done|done|].
  - eapply own_move; [exact Ho|by apply marks_is_Some|]. rewrite Hh. unfold held. cbn. by rewrite app_nil_r.
  - apply (conds_leave t p); [done|by intros (? & ?)|by intros (? & ? & ?)|done|done].
  - apply threads_ok_upd; [by intros ? _|]. split; [|done]. cbn. rewrite length_app. lia.
Qed.

Lemma held_apart m p f t free a : Inv_at (mkState m p f) free -> a ∈ held (f t) -> a ∉ free /\ is_Some (m !! a).
Proof.
  intros Hi Ha. pose proof (inv_own _ _ Hi) as Ho. cbn in Ho. split.
  - intros Hfr. pose proof (own_nodup _ _ _ Ho t) as Hn. apply NoDup_app in Hn as (_ & Hn & _). by apply (Hn a Hfr).
  - apply (own_all _ _ _ Ho). right. by exists t.
Qed.

Lemma conds_idle m p f t free : Inv_at (mkState m p f) free -> ~ turning (pc (f t)) -> ~ collecting (pc (f t)) -> Conds (only t) p f.
Proof. intros Hi. apply conds_enter. apply (inv_conds _ _ Hi). Qed.

Ltac no_wait Epc := rewrite ?Epc; unfold turning, collecting; cbn; naive_solver.

Lemma failed_inv m p f t nwant got ok now opens m1 m2 p2 c : Inv (mkState m p f) -> pc (f t) = Done nwant got ok ->
  (if ok then connect_handles now opens got m = Some (false, m1) else m1 = m) -> return_handles (rev got) m1 p = Some (m2, p2) -> signal_getter p2 c ->
  Inv (mkState m2 (set_getCond c p2) (upd t (mkThread Idle (owned (f t)) (count (f t) - Z.of_nat nwant)) f)).
Proof.
  intros [free Hi] Epc Hm1 Er Hs. destruct (inv_threads _ _ Hi t) as [Hcnt _]. cbn in Hcnt. rewrite Epc in Hcnt. cbn in Hcnt.
  assert (held (f t) = owned (f t) ++ got) as Hh by (unfold held; by rewrite Epc).
  assert (FreeList m1 p free /\ same_marks m m1) as [Hf1 Hm].
  { destruct ok; [|subst m1; split; [apply (inv_free _ _ Hi)|done]].
    destruct (connect_spec now opens got m p free (inv_free _ _ Hi)) as (b & m' & E & Hf & Hm); [|rewrite Hm1 in E; by injection E as <- <-].
    intros a Ha. apply (held_apart m p f t); [done|]. rewrite Hh. set_solver. }
  eapply give_back_inv; [exact Hi|eapply conds_idle; [exact Hi|no_wait Epc..]|by apply marks_is_Some|done| | | | |exact Er|exact Hs].
  - rewrite Hh. unfold held. cbn. rewrite <- Permutation_rev. solve_Permutation.
  - by intros (? & ?).
  - by intros (? & ? & ?).
  - split; [|done]. cbn. lia.
Qed.

Lemma put_inv m p f t l1 a l2 now h m' p' c : Inv (mkState m p f) -> pc (f t) = Idle -> owned (f t) = l1 ++ a :: l2 -> m !! a = Some h ->
  ReturnHandle a (<[a := put_handle p now h]> m) p = Some (m', p') -> signal_getter p' c ->
  Inv (mkState m' (set_getCond c p') (upd t (mkThread Idle (l1 ++ l2) (count (f t) - 1)) f)).
Proof.
  intros [free Hi] Epc Eo Hh Er Hs. destruct (inv_threads _ _ Hi t) as [Hcnt _]. cbn in Hcnt. rewrite Epc, Eo in Hcnt. rewrite length_app in Hcnt. cbn in Hcnt.
  assert (held (f t) = l1 ++ a :: l2) as Hd by (unfold held; by rewrite Epc, Eo, app_nil_r).
  destruct (held_apart m p f t free a Hi) as [Haf _]; [rewrite Hd; set_solver|].
  eapply (give_back_inv t _ [a] m (<[a := put_handle p now h]> m)); [exact Hi|eapply conds_idle; [exact Hi|no_wait Epc..]| | | | | | | |exact Hs].
  - apply marks_is_Some. eapply marks_insert; [done|]. unfold put_handle. cbn. by destruct (IsStale _ _ _).
  - by apply free_frame; [|apply (inv_free _ _ Hi)].
  - rewrite Hd. unfold held. cbn. rewrite app_nil_r. solve_Permutation.
  - by intros (? & ?).
  - by intros (? & ? & ?).
  - split; [|done]. cbn. rewrite length_app. lia.
  - cbn [return_handles]. by rewrite Er.
Qed.

Lemma own_dom m m' free f : (forall a, is_Some (m' !! a) <-> is_Some (m !! a)) -> Own m free f -> Own m' free f.
Proof. intros Hd [Ha Hn Hp]. split; [|done|done]. intros a. by rewrite Hd, Ha. Qed.

Lemma bounce_inv m p f l m' : Inv (mkState m p f) -> walk (size m) m (firstPtr p) = Some l -> mark_handles (stale_on_close p + 1) l m = Some m' ->
  Inv (mkState m' (mkPool (waiting p) (nhandles p) (firstPtr p) (lastPtr p) (maxidle p) (maxopen p) (stale_on_close p + 1) (waitCond p) (getCond p)) f).
Proof.
  intros [free [Hf Ho Hc Ht Hg Hth]] Ew Em. cbn in *. rewrite (walk_free _ _ _ Hf) in Ew. injection Ew as <-.
  destruct (mark_spec (stale_on_close p + 1) free m p free Hf (fl_nodup _ _ _ Hf)) as (m1 & Em' & Hf1 & Hd & _); [intros a Ha; by eapply lseg_dom; [apply (fl_seg _ _ _ Hf)|]|].
  rewrite Em in Em'. injection Em' as ->. exists free. split; cbn; [by eapply free_pool; [..|exact Hf1]| | |done|done|done].
  - eapply own_dom; [|exact Ho]. intros a. by rewrite <- !elem_of_dom, Hd.
  - destruct Hc. by split.
Qed.

Lemma check_inv m p f t l : Inv (mkState m p f) -> pc (f t) = Idle -> walk (size m) m (firstPtr p) = Some l ->
  Inv (mkState m (set_list None None p) (upd t (at_pc (Checking l) (f t)) f)).
Proof.
  intros [free Hi] Epc Ew. destruct (inv_threads _ _ Hi t) as [Hcnt _]. cbn in Hcnt. rewrite Epc in Hcnt.
  assert (Conds (only t) p f) as Hc by (eapply conds_idle; [exact Hi|no_wait Epc..]). destruct Hi as [Hf Ho _ Ht Hg Hth]. cbn in *.
  rewrite (walk_free _ _ _ Hf) in Ew. injection Ew as <-. exists []. split; cbn; [split; [done|done|apply NoDup_nil_2]| | |done|done|].
  - eapply own_move; [exact Ho|done|]. rewrite (held_owned (f t)) by (by left). unfold held. cbn. solve_Permutation.
  - apply (conds_leave t p); [done|by intros (? & ?)|by intros (? & ? & ?)|done|done].
  - by apply threads_ok_upd.
Qed.

Lemma checked_inv m p f t l now checked m1 m2 p2 c : Inv (mkState m p f) -> pc (f t) = Checking l -> check_handles now p l [] m = Some (checked, m1) ->
  return_handles checked m1 p = Some (m2, p2) -> (if bool_decide (l = []) then c = getCond p2 else signal_getter p2 c) ->
  Inv (mkState m2 (set_getCond c p2) (upd t (at_pc Idle (f t)) f)).
Proof.
  intros [free Hi] Epc Ec Er Hs. destruct (inv_threads _ _ Hi t) as [Hcnt _]. cbn in Hcnt. rewrite Epc in Hcnt.
  assert (Conds (only t) p f) as Hc by (eapply conds_idle; [exact Hi|no_wait Epc..]). assert (held (f t) = owned (f t) ++ l) as Hh by (unfold held; by rewrite Epc).
  case_bool_decide as El.
  - subst. cbn in Ec. injection Ec as <- <-. cbn in Er. injection Er as <- <-. exists free. destruct Hi as [Hf Ho _ Ht Hg Hth]. cbn in *.
    split; cbn; [by eapply free_pool; [..|exact Hf]| | |done|done|].
    + eapply own_move; [exact Ho|done|]. by rewrite Hh.
    + apply (conds_leave t p); [done|by intros (? & ?)|by intros (? & ? & ?)|done|done].
    + by apply threads_ok_upd.
  - destruct (check_spec now p l [] m p free (inv_free _ _ Hi)) as (m' & Ec' & Hf1 & Hm).
    { intros a Ha. apply (held_apart m p f t); [done|]. rewrite Hh. set_solver. }
    rewrite Ec in Ec'. injection Ec' as -> ->. rewrite app_nil_r in Er.
    eapply give_back_inv; [exact Hi|done|by apply marks_is_Some|exact Hf1| | | | |exact Er|exact Hs].
    + rewrite Hh. unfold held. cbn. rewrite <- Permutation_rev. solve_Permutation.
    + by intros (? & ?).
    + by intros (? & ? & ?).
    + by split.
Qed.

Lemma conds_perm p p' f : Conds nobody p f -> threads (waitCond p') ≡ₚ threads (waitCond p) -> threads (getCond p') ≡ₚ threads (getCond p) -> Conds nobody p' f.
Proof. intros [Hw Hn Hg H1] Ew Eg. split; [intros u; by rewrite Ew|by rewrite Ew|intros u; by rewrite Eg|by rewrite Eg]. Qed.

Lemma collect_step_inv m p f t nwant got c s' : Inv (mkState m p f) -> pc (f t) = Collecting nwant got -> resumes (getCond p) t c ->
  collect t nwant got m (set_getCond c p) f s' -> Inv s'.
Proof.
  intros [free Hi] Epc Hr. destruct (resumes_threads _ _ _ Hr) as [Hp _]. destruct (collecting_ready _ _ _ _ _ _ _ _ Hi Epc Hp) as (Hrd & Hw & Hnil & Hl).
  apply (collect_inv t nwant got m _ f free); [done|done|done|lia].
Qed.

Lemma collect_timeout_inv m p f t nwant got c got' m' p' s' : Inv (mkState m p f) -> pc (f t) = Collecting nwant got -> times_out (getCond p) t c ->
  take_handles 1 got m (set_getCond c p) = Some (got', m', p') -> leave_turn t nwant got' false m' p' f s' -> Inv s'.
Proof.
  intros [free Hi] Epc Hr Et. apply times_out_threads in Hr. destruct (collecting_ready _ _ _ _ _ _ _ _ Hi Epc Hr) as (Hrd & Hw & Hnil & Hl).
  destruct (ready_take t nwant got m _ f free 1 Hrd) as (m1 & p1 & Et' & Hr1 & (g1 & g2 & ->) & _). rewrite Et in Et'. injection Et' as -> -> ->.
  by apply (leave_inv t nwant _ false m1 _ f (drop 1 free)).
Qed.

Lemma wake_turn_inv m p f c : Inv (mkState m p f) -> wakes (waitCond p) c -> Inv (mkState m (set_waitCond c p) f).
Proof.
  intros [free [Hf Ho Hc Ht Hg Hth]] Hw. exists free. split; cbn in *; [by eapply free_pool; [..|exact Hf]|done| |done|done|done].
  apply (conds_perm p); [done|by apply wakes_threads|done].
Qed.

Lemma wake_getter_inv m p f c : Inv (mkState m p f) -> wakes (getCond p) c -> Inv (mkState m (set_getCond c p) f).
Proof.
  intros [free [Hf Ho Hc Ht Hg Hth]] Hw. pose proof (wakes_threads _ _ Hw) as Hp. exists free. split; cbn in *; [by eapply free_pool; [..|exact Hf]|done| | | |done].
  - by apply (conds_perm p).
  - by rewrite Ht, (Permutation_length Hp).
  - intros _. apply Hg. destruct Hw as [l1 t l2 E]. rewrite E. by destruct l1.
Qed.

Lemma DbPool_step_inv timed s s' : step timed s s' -> Inv s -> Inv s'.
Proof.
  destruct 1; intros Hi;
    [done|eapply get_inv|eapply turn_inv|eapply turn_timeout_inv|eapply collect_step_inv|eapply collect_timeout_inv|eapply got_inv|eapply failed_inv
    |eapply put_inv|eapply bounce_inv|eapply check_inv|eapply checked_inv|eapply wake_turn_inv|eapply wake_getter_inv]; eassumption.
Qed.

Lemma DbPool_reachable_inv timed s : reachable timed s -> Inv s.
Proof.
  induction 1 as [n i o garbage m p Ec|s s' _ IH Hs]; [|by eapply DbPool_step_inv]. unfold CreatePool in Ec.
  destruct (create_spec n garbage 0 ∅ (mkPool 0 (Z.of_nat n) None None i o 0 no_threads no_threads) []) as (m' & p' & l' & E & Hf & Hl & (g1 & g2 & ->) & Hd).
  - split; [done|done|apply NoDup_nil_2].
  - intros a. rewrite lookup_empty. split; [by intros [? ?]|lia].
  - done.
  - rewrite E in Ec. injection Ec as <- <-. exists l'. split; cbn; [done| | |done|done|by intros t].
    + split.
      * intros a. rewrite Hd, Hl, elem_of_seq. unfold held. cbn. split; [intros ?; left; lia|]. intros [?|[_ ?%elem_of_nil]]; [lia|done].
      * intros t. cbn. rewrite app_nil_r. apply (fl_nodup _ _ _ Hf).
      * intros t u a _ ?%elem_of_nil. done.
    + split; cbn; [|apply NoDup_nil_2| |lia]; intros t; (split; [by intros ?%elem_of_nil|]).
      * by intros (_ & ? & ?).
      * by intros (_ & ? & ? & ?).
Qed.

(** ** Turns are not lost without timeouts *)

Definition Progress (s : State) : Prop := waiting (pool s) = 0 -> waits (waitCond (pool s)) <> [] -> woken (waitCond (pool s)) <> [].

Lemma leave_progress t nwant got ok m p f s' : leave_turn t nwant got ok m p f s' -> Progress s'.
Proof.
  intros (c & Hs & ->) _ Hw. cbn in *. apply (signal_woken _ _ Hs). intros E. apply Hw.
  pose proof (signal_threads _ _ Hs) as Hp. rewrite E in Hp. apply Permutation_nil_r in Hp. unfold threads in Hp. by destruct (waits c).
Qed.

Lemma take_handles_pool n : forall got m p got' m' p', take_handles n got m p = Some (got', m', p') -> same_pool p p'.
Proof.
  induction n as [|n IH]; intros got m p got' m' p' E; cbn [take_handles] in E; destruct (firstPtr p) as [a|] eqn:Ef; try (injection E as <- <- <-; apply same_pool_refl).
  unfold take_first in E. destruct (m !! a) as [h|]; [|done]. cbn [mbind option_bind] in E. apply IH in E. eapply same_pool_trans; [|exact E]. by eexists _, _.
Qed.

Lemma collect_progress t nwant got m p f s' : waiting p = 1 -> collect t nwant got m p f s' -> Progress s'.
Proof.
  intros Hw (got' & m' & p' & Et & Hs). destruct (take_handles_pool _ _ _ _ _ _ _ Et) as (g1 & g2 & ->). destruct (_ <? _)%nat; [subst s'|by eapply leave_progress].
  intros E. cbn in E. lia.
Qed.

Lemma take_turn_progress t nwant m p f s' : take_turn t nwant m p f s' -> Progress s'.
Proof.
  unfold take_turn. destruct (Z.eqb_spec (waiting p) 0); [by apply collect_progress|]. intros ->. by intros E.
Qed.

Lemma return_handles_pool rgot : forall m p m' p', return_handles rgot m p = Some (m', p') -> same_pool p p'.
Proof.
  induction rgot as [|a rgot IH]; intros m p m' p' E; cbn [return_handles] in E; [injection E as <- <-; apply same_pool_refl|].
  destruct (ReturnHandle a m p) as [[m1 p1]|] eqn:Er; [|done]. cbn [mbind option_bind] in E. apply IH in E. eapply same_pool_trans; [|exact E]. clear E.
  unfold ReturnHandle in Er. destruct (m !! a) as [h|]; [|done]. cbn [mbind option_bind] in Er. destruct (firstPtr p) as [f|]; [destruct (connected h)|]; try (injection Er as <- <-; by eexists _, _).
  destruct (lastPtr p) as [l|]; [|done]. cbn [mbind option_bind] in Er. destruct (m !! l) as [hl|]; [|done]. cbn [mbind option_bind] in Er. destruct (_ !! a); [|done]. injection Er as <- <-. by eexists _, _.
Qed.

Lemma DbPool_progress timed s : (forall t, timed t = false) -> reachable timed s -> Progress s.
Proof.
  intros Hno Hr. induction Hr as [n i o garbage m p Ec|s s' Hr IH Hs].
  { destruct (DbPool_reachable_inv timed _ (reach_init timed n i o garbage m p Ec)) as [free [_ _ Hc _ _ _]]. cbn in Hc. intros _ Hw.
    exfalso. destruct (waits (waitCond p)) as [|t l] eqn:E; [done|]. assert (t ∈ threads (waitCond p)) as Ht by (unfold threads; cbn; rewrite E; set_solver). apply (cd_wait _ _ _ Hc) in Ht as [_ [? ?]]. done. }
  destruct Hs;
    repeat match goal with
      | H : timed _ = true |- _ => by rewrite Hno in H
      | H : take_turn _ _ _ _ _ _ |- _ => by eapply take_turn_progress
      | H : return_handles _ _ _ = Some _ |- _ => destruct (return_handles_pool _ _ _ _ _ H) as (g1 & g2 & ->); exact IH
      | H : ReturnHandle ?a ?m ?p = Some (?m', ?p') |- _ =>
          destruct (return_handles_pool [a] m p m' p' ltac:(cbn [return_handles]; by rewrite H)) as (g1 & g2 & ->); exact IH
      | H : wakes (waitCond _) _ |- _ => intros _ _; cbn; by destruct H
      end; try done.
  destruct (DbPool_reachable_inv _ _ Hr) as [free Hi].
  match goal with H : resumes _ _ _ |- _ => destruct (resumes_threads _ _ _ H) as [Hp _] end. eapply collect_progress; [|eassumption]. cbn.
  pose proof (inv_turn _ _ Hi) as Ht. cbn in Ht. pose proof (cd_one _ _ _ (inv_conds _ _ Hi)) as H1'. cbn in H1'. rewrite Hp in Ht, H1'. cbn in Ht, H1'. lia.
Qed.

(** ** Marks of bounces *)

Lemma marks_refl m : same_marks m m.
Proof. done. Qed.

Lemma take_marks n : forall got m p got' m' p', take_handles n got m p = Some (got', m', p') -> same_marks m m'.
Proof.
  induction n as [|n IH]; intros got m p got' m' p' E; cbn [take_handles] in E; destruct (firstPtr p) as [a|]; try (by injection E as <- <- <-).
  unfold take_first in E. destruct (m !! a) as [h|] eqn:Eh; [|done]. cbn [mbind option_bind] in E. apply IH in E. eapply marks_trans; [|exact E]. by eapply marks_insert.
Qed.

Lemma return_marks a m p m' p' : ReturnHandle a m p = Some (m', p') -> same_marks m m'.
Proof.
  unfold ReturnHandle. destruct (m !! a) as [h|] eqn:Eh; [|done]. cbn [mbind option_bind]. intros E.
  destruct (firstPtr p) as [f|]; [destruct (connected h)|]; try (injection E as <- <-; by eapply marks_insert).
  destruct (lastPtr p) as [l|]; [|done]. cbn [mbind option_bind] in E. destruct (m !! l) as [hl|] eqn:El; [|done]. cbn [mbind option_bind] in E.
  destruct (<[l:=set_next (Some a) hl]> m !! a) as [h'|] eqn:Eh'; [|done]. injection E as <- <-.
  eapply marks_trans; [by apply (marks_insert m l hl (set_next (Some a) hl))|by eapply marks_insert].
Qed.

Lemma return_all_marks rgot : forall m p m' p', return_handles rgot m p = Some (m', p') -> same_marks m m'.
Proof.
  induction rgot as [|a rgot IH]; intros m p m' p' E; cbn [return_handles] in E; [by injection E as <- <-|].
  destruct (ReturnHandle a m p) as [[m1 p1]|] eqn:Er; [|done]. eapply marks_trans; [by eapply return_marks|by eapply IH].
Qed.

Lemma connect_marks now opens got : forall m b m', connect_handles now opens got m = Some (b, m') -> same_marks m m'.
Proof.
  induction got as [|a got IH]; intros m b m' E; cbn [connect_handles] in E; [by injection E as <- <-|]. destruct (m !! a) as [h|] eqn:Eh; [|done]. cbn [mbind option_bind] in E.
  destruct (connected h); [by eapply IH|]. destruct (opens a); [apply IH in E; eapply marks_trans; [|exact E]; by eapply marks_insert|]. injection E as <- <-. by eapply marks_insert.
Qed.

Lemma check_marks now p l : forall checked m r m', check_handles now p l checked m = Some (r, m') -> same_marks m m'.
Proof.
  induction l as [|a l IH]; intros checked m r m' E; cbn [check_handles] in E; [by injection E as <- <-|]. destruct (m !! a) as [h|] eqn:Eh; [|done]. cbn [mbind option_bind] in E.
  apply IH in E. eapply marks_trans; [|exact E]. eapply marks_insert; [done|]. by destruct (IsStale p h now).
Qed.

(** The marks of the handles and of the pool are the same before and after. *)
Definition marks_kept (s s' : State) : Prop := same_marks (mem s) (mem s') /\ stale_on_close (pool s') = stale_on_close (pool s).

Lemma collect_marks t nwant got m p f f' s' : collect t nwant got m p f s' -> marks_kept (mkState m p f') s'.
Proof.
  intros (got' & m' & p' & Et & Hs). pose proof (take_marks _ _ _ _ _ _ _ Et) as Hm. destruct (take_handles_pool _ _ _ _ _ _ _ Et) as (g1 & g2 & ->).
  destruct (_ <? _)%nat; [by subst s'|]. destruct Hs as (c & _ & ->). done.
Qed.

Lemma take_turn_marks t nwant m p f f' s' : take_turn t nwant m p f s' -> marks_kept (mkState m p f') s'.
Proof. unfold take_turn. destruct (waiting p =? 0); [by intros H%(collect_marks _ _ _ _ _ _ f')|by intros ->]. Qed.

(** A bounce marks the free handles and the pool, no other step changes a mark. *)
Lemma step_marks timed s s' : step timed s s' -> marks_kept s s' \/
  (stale_on_close (pool s') = stale_on_close (pool s) + 1 /\ (thr s' = thr s) /\ exists l, walk (size (mem s)) (mem s) (firstPtr (pool s)) = Some l /\ mark_handles (stale_on_close (pool s) + 1) l (mem s) = Some (mem s')).
Proof.
  destruct 1; try (left; done);
    try (match goal with H : take_turn _ _ _ _ _ _ |- _ => left; exact (take_turn_marks _ _ _ _ _ f _ H) end);
    try (match goal with H : collect _ _ _ _ _ _ _ |- _ => left; exact (collect_marks _ _ _ _ _ _ f _ H) end).
  - left. match goal with H : take_handles _ _ _ _ = _, H' : leave_turn _ _ _ _ _ _ _ _ |- _ => pose proof (take_marks _ _ _ _ _ _ _ H); destruct (take_handles_pool _ _ _ _ _ _ _ H) as (g1 & g2 & ->); by destruct H' as (? & _ & ->) end.
  - left. split; [by eapply connect_marks|done].
  - left. match goal with H : return_handles _ _ _ = _ |- _ => destruct (return_handles_pool _ _ _ _ _ H) as (g1 & g2 & ->); apply return_all_marks in H end. split; [|done]. cbn.
    eapply marks_trans; [|done]. destruct ok; [by eapply connect_marks|by subst m1].
  - left. match goal with H : ReturnHandle _ _ _ = _ |- _ => destruct (return_handles_pool [a] _ _ m' p' ltac:(cbn [return_handles]; by rewrite H)) as (g1 & g2 & ->); apply return_marks in H end. split; [|done]. cbn.
    eapply marks_trans; [|done]. eapply marks_insert; [done|]. unfold put_handle. by destruct (IsStale _ _ _).
  - right. cbn. split_and!; [done|done|]. by eexists.
  - left. match goal with H : return_handles _ _ _ = _ |- _ => destruct (return_handles_pool _ _ _ _ _ H) as (g1 & g2 & ->); apply return_all_marks in H end. split; [|done]. cbn.
    eapply marks_trans; [by eapply check_marks|done].
Qed.

(** No handle has a mark that the pool does not have yet. *)
Definition Marked (s : State) : Prop := forall a n, h_stale_on_close <$> mem s !! a = Some n -> n <= stale_on_close (pool s).

Lemma marked_reachable timed s : reachable timed s -> Marked s.
Proof.
  induction 1 as [n i o garbage m p Ec|s s' Hr IH Hs].
  - unfold CreatePool in Ec.
    assert (forall n j m0 p0, create_handles j n garbage m0 p0 = Some (m, p) -> stale_on_close p0 = 0 -> (forall a x, h_stale_on_close <$> m0 !! a = Some x -> x = 0) ->
      stale_on_close p = 0 /\ forall a x, h_stale_on_close <$> m !! a = Some x -> x = 0) as Hcr.
    { clear. induction n as [|n IH]; intros j m0 p0 E Hp Hm; cbn [create_handles] in E; [by injection E as <- <-|].
      destruct (ReturnHandle _ _ _) as [[m1 p1]|] eqn:Er; [|done]. cbn [mbind option_bind] in E. apply IH in E; [done| |].
      - destruct (return_handles_pool [j] _ _ m1 p1 ltac:(cbn [return_handles]; by rewrite Er)) as (g1 & g2 & ->). done.
      - intros a x. rewrite (return_marks _ _ _ _ _ Er a). destruct (decide (a = j)) as [->|Hne]; [rewrite lookup_insert_eq; cbn; by intros [= <-]|rewrite lookup_insert_ne by done; apply Hm]. }
    apply Hcr in Ec as [Hp Hm]; [|done|intros a x; by rewrite lookup_empty]. intros a x Hx. apply Hm in Hx. cbn. lia.
  - destruct (DbPool_reachable_inv _ _ Hr) as [free Hi]. destruct (step_marks _ _ _ Hs) as [[Hm Hp]|(Hp & _ & l & Hw & Em)].
    + intros a n. rewrite Hp, (Hm a). apply IH.
    + rewrite (walk_free _ _ _ (inv_free _ _ Hi)) in Hw. injection Hw as <-.
      destruct (mark_spec (stale_on_close (pool s) + 1) free (mem s) (pool s) free (inv_free _ _ Hi)) as (m1 & Em' & _ & _ & Hm); [apply (fl_nodup _ _ _ (inv_free _ _ Hi))|intros a Ha; eapply lseg_dom; [apply (fl_seg _ _ _ (inv_free _ _ Hi))|done]|].
      rewrite Em in Em'. injection Em' as <-. intros a n. rewrite Hp, Hm. destruct (decide (a ∈ free)); [intros [= <-]; lia|]. intros Hn. apply IH in Hn. lia.
Qed.

(** ** Theorems *)

(** C18.  For any number of threads and any interleaving of getting, returning, checking and bouncing:
    every handle of the pool is in the list of free handles or with exactly one thread, the list
    is well-formed, so that no operation on it goes through a bad pointer, a thread that is done
    with getting has as many handles as it asked for, and as its count says, and a thread that
    waits for handles is woken when there are free ones. *)
Theorem handles_exclusive timed s : reachable timed s -> exists free,
  walk (size (mem s)) (mem s) (firstPtr (pool s)) = Some free /\ NoDup free /\
  (forall a, is_Some (mem s !! a) <-> a ∈ free \/ exists t, a ∈ held (thr s t)) /\
  (forall t a, a ∈ held (thr s t) -> a ∉ free /\ is_Some (ReturnHandle a (mem s) (pool s)) /\ forall u, a ∈ held (thr s u) -> u = t) /\
  (forall n got, is_Some (take_handles n got (mem s) (pool s))) /\
  (forall t, pc (thr s t) = Idle -> count (thr s t) = Z.of_nat (length (owned (thr s t)))) /\
  (forall t n got, pc (thr s t) = Done n got true -> length got = n) /\
  (waits (getCond (pool s)) <> [] -> free = []).
Proof.
  intros Hr. destruct (DbPool_reachable_inv _ _ Hr) as [free Hi]. destruct s as [m p f]. exists free. pose proof Hi as [Hf Ho Hc Ht Hg Hth]. cbn in *.
  split_and!; [by apply walk_free|apply (fl_nodup _ _ _ Hf)|apply (own_all _ _ _ Ho)| | | | |done].
  - intros t a Ha. destruct (held_apart m p f t free a Hi Ha) as [Haf [h Hh]]. split_and!; [done| |].
    + destruct (return_spec m p free a h Hf Haf Hh) as (m' & p' & l' & -> & _). by eexists.
    + intros u Hu. destruct (decide (u = t)) as [|Hne]; [done|]. by destruct (own_apart _ _ _ Ho u t a Hne Hu).
  - intros n got. destruct (take_spec n got m p free Hf) as (m' & p' & -> & _). by eexists.
  - intros t Epc. destruct (Hth t) as [Hcnt _]. rewrite Epc in Hcnt. cbn in Hcnt. by rewrite Nat.add_0_r in Hcnt.
  - intros t n got Epc. destruct (Hth t) as [_ Hl]. by rewrite Epc in Hl.
Qed.

Lemma signal_exists c : exists c', Ns_CondSignal c c'.
Proof. destruct c as [[|t l] w]; [eexists; by left|]. exists (mkCond l (t :: w)). right. by apply (wake (mkCond (t :: l) w) []). Qed.

(** When no thread waits with a timeout, turns are not lost: whenever no thread is collecting
    handles and some wait for their turn, one of them was woken, and has the turn when it runs. *)
Theorem turns_not_lost timed s : (forall t, timed t = false) -> reachable timed s -> waiting (pool s) = 0 -> waits (waitCond (pool s)) <> [] ->
  exists t c s', resumes (waitCond (pool s)) t c /\ step timed s s' /\ turning (pc (thr s t)) /\ ~ turning (pc (thr s' t)).
Proof.
  intros Hno Hr Hw Hne. pose proof (DbPool_progress _ _ Hno Hr Hw Hne) as Hwk. destruct (DbPool_reachable_inv _ _ Hr) as [free Hi]. destruct s as [m p f]. cbn in *.
  destruct (woken (waitCond p)) as [|t l] eqn:Ew; [done|]. set (c := mkCond (waits (waitCond p)) l).
  assert (resumes (waitCond p) t c) as Hres by (by apply (resume _ _ [])). destruct (resumes_threads _ _ _ Hres) as [Hp _].
  destruct (cd_wait _ _ _ (inv_conds _ _ Hi) t) as [Ht _]. destruct Ht as [_ [nwant Ht]]; [cbn; rewrite Hp; by left|]. cbn in Ht.
  assert (FreeList m (set_waiting 1 (set_waitCond c p)) free) as Hf by (eapply free_pool; [..|exact (inv_free _ _ Hi)]; done).
  destruct (take_spec (nwant - 0) [] m _ free Hf) as (m1 & p1 & Et & _ & (g1 & g2 & ->) & _).
  assert (exists s', take_turn t nwant m (set_waitCond c p) f s' /\ ~ turning (pc (thr s' t))) as (s' & Hs & Hpc).
  { unfold take_turn. cbn. rewrite Hw. cbn. unfold collect. destruct (Nat.ltb_spec (length ([] ++ take (nwant - 0) free)) nwant) as [Hlt|Hge].
    - eexists. split; [eexists _, _, _; split; [exact Et|]; rewrite (proj2 (Nat.ltb_lt _ _) Hlt); reflexivity|]. cbn. rewrite upd_same. by intros (? & ?).
    - destruct (signal_exists c) as [c' Hc'].
      eexists. split; [eexists _, _, _; split; [exact Et|]; rewrite (proj2 (Nat.ltb_ge _ _) Hge); exists c'; split; [exact Hc'|reflexivity]|]. cbn. rewrite upd_same. by intros (? & ?). }
  exists t, c, s'. split_and!; [done| |by eexists|done]. by eapply step_turn.
Qed.

(** A handle that a thread has when the pool is bounced is closed each time it is returned to the
    pool from then on, up to the next bounce, however often it was connected again since. *)
Theorem bounced_handle_closed timed s s1 s2 t a : reachable timed s -> a ∈ held (thr s t) ->
  step timed s s1 -> stale_on_close (pool s1) = stale_on_close (pool s) + 1 ->
  rtc (fun x y => step timed x y /\ stale_on_close (pool y) = stale_on_close (pool x)) s1 s2 ->
  forall h, mem s2 !! a = Some h -> connected h = true -> forall now, IsStale (pool s2) h now = true /\ connected (put_handle (pool s2) now h) = false.
Proof.
  intros Hr Ha Hs Hb Hrtc. assert (forall n, h_stale_on_close <$> mem s2 !! a = Some n -> n < stale_on_close (pool s2)) as Hm.
  { destruct (DbPool_reachable_inv _ _ Hr) as [free Hi].
    assert (forall n, h_stale_on_close <$> mem s1 !! a = Some n -> n < stale_on_close (pool s1)) as H1.
    { destruct (step_marks _ _ _ Hs) as [[_ Hp]|(Hp & _ & l & Hw & Em)]; [lia|]. rewrite (walk_free _ _ _ (inv_free _ _ Hi)) in Hw. injection Hw as <-.
      destruct (mark_spec (stale_on_close (pool s) + 1) free (mem s) (pool s) free (inv_free _ _ Hi)) as (m1 & Em' & _ & _ & Hm); [apply (fl_nodup _ _ _ (inv_free _ _ Hi))|intros b Hb'; eapply lseg_dom; [apply (fl_seg _ _ _ (inv_free _ _ Hi))|done]|].
      rewrite Em in Em'. injection Em' as <-. intros n. rewrite Hp, Hm, decide_False by (destruct s as [m p f]; by destruct (held_apart m p f t free a Hi Ha)).
      intros Hn. apply (marked_reachable _ _ Hr) in Hn. lia. }
    clear Hs Hb. induction Hrtc as [x|x y z [Hxy Hk] _ IH]; [done|]. apply IH. intros n. destruct (step_marks _ _ _ Hxy) as [[Hmk _]|[Hp _]]; [|lia]. rewrite (Hmk a), Hk. apply H1. }
  intros h Hh Hc now. rewrite Hh in Hm. specialize (Hm _ eq_refl).
  assert (forall h', connected h' = true -> h_stale_on_close h' = h_stale_on_close h -> IsStale (pool s2) h' now = true) as Hst.
  { intros h' Hc' Hm'. unfold IsStale. rewrite Hc', Hm'. cbn [andb]. rewrite (proj2 (Z.ltb_lt _ _) Hm). by rewrite orb_true_r. }
  split; [by apply Hst|]. unfold put_handle. by rewrite Hst.
Qed.

(** ** A pool with one handle and four threads *)

Definition ex_handle (c u : bool) (t : Z) : Handle := mkHandle c t t false 0 u false None.
Definition ex_pool (w : Z) (q : option nat) (cw cg : Ns_Cond) : Pool := mkPool w 1 q q 0 0 0 cw cg.
Definition nobody_there : nat -> Thread := fun _ => mkThread Idle [] 0.

Lemma ex_init timed : reachable timed (mkState {[0%nat := ex_handle false false 0]} (ex_pool 0 (Some 0%nat) no_threads no_threads) nobody_there).
Proof. apply (reach_init timed 1 0 0 (fun _ => ex_handle false false 0)). vm_compute. reflexivity. Qed.

(** Thread 1 has the handle. *)
Lemma ex_got timed : exists f, reachable timed (mkState {[0%nat := ex_handle true true 7]} (ex_pool 0 None no_threads no_threads) f) /\
  f 1%nat = mkThread Idle [0%nat] 1 /\ forall u, u <> 1%nat -> f u = mkThread Idle [] 0.
Proof.
  set (f1 := upd 1 (mkThread (Done 1 [0%nat] true) [] 1) (upd 1 (mkThread Idle [] 1) nobody_there)).
  exists (upd 1 (mkThread Idle [0%nat] 1) f1). split; [|split; [done|]].
  - eapply (reach_step _ (mkState {[0%nat := ex_handle false true 0]} (ex_pool 0 None no_threads no_threads) f1)).
    + eapply reach_step; [apply ex_init|]. eapply (step_get _ _ _ _ 1 1); [done|done|done|]. unfold take_turn. cbn [waiting ex_pool Z.eqb].
      eexists _, _, _. split; [reflexivity|]. cbn [length app Nat.ltb Nat.leb]. exists no_threads. split; [by left|]. vm_compute. reflexivity.
    + apply (step_got _ _ _ f1 1 1 [0%nat] 7 (fun _ => true)); [done|vm_compute; reflexivity].
  - intros u Hu. unfold f1. by rewrite !upd_other.
Qed.

(** Thread 2 had its turn, thread 3 was woken for the next, and thread 4 waits. *)
Lemma ex_contended timed : exists f, reachable timed (mkState {[0%nat := ex_handle true true 7]} (ex_pool 0 None (mkCond [4%nat] [3%nat]) no_threads) f) /\
  f 2%nat = mkThread (Done 1 [0%nat] true) [] 1 /\ f 3%nat = mkThread (Turn 1) [] 1 /\ f 4%nat = mkThread (Turn 1) [] 1 /\
  forall u, u <> 2%nat -> u <> 3%nat -> u <> 4%nat -> f u = mkThread Idle [] 0.
Proof.
  destruct (ex_got timed) as (f & Hr & E1 & Ef).
  set (want := fun (t : nat) (g : nat -> Thread) => upd t (mkThread Idle (owned (g t)) (Z.of_nat 1)) g).
  set (f3 := upd 2 (at_pc (Collecting 1 []) (want 2%nat f 2%nat)) (want 2%nat f)).
  assert (reachable timed (mkState {[0%nat := ex_handle true true 7]} (ex_pool 1 None no_threads (mkCond [2%nat] [])) f3)) as R3.
  { eapply reach_step; [exact Hr|]. eapply (step_get _ _ _ _ 2 1); [by rewrite Ef|done|by rewrite Ef|]. eexists _, _, _. split; reflexivity. }
  set (f4 := upd 3 (at_pc (Turn 1) (want 3%nat f3 3%nat)) (want 3%nat f3)).
  assert (reachable timed (mkState {[0%nat := ex_handle true true 7]} (ex_pool 1 None (mkCond [3%nat] []) (mkCond [2%nat] [])) f4)) as R4.
  { eapply reach_step; [exact R3|]. apply (step_get _ _ _ _ 3 1); [by change (f3 3%nat) with (f 3%nat); rewrite Ef|done|by change (f3 3%nat) with (f 3%nat); rewrite Ef|reflexivity]. }
  set (f5 := upd 4 (at_pc (Turn 1) (want 4%nat f4 4%nat)) (want 4%nat f4)).
  assert (reachable timed (mkState {[0%nat := ex_handle true true 7]} (ex_pool 1 None (mkCond [4%nat; 3%nat] []) (mkCond [2%nat] [])) f5)) as R5.
  { eapply reach_step; [exact R4|]. apply (step_get _ _ _ _ 4 1); [by change (f4 4%nat) with (f 4%nat); rewrite Ef|done|by change (f4 4%nat) with (f 4%nat); rewrite Ef|reflexivity]. }
  set (f6 := upd 1 (mkThread Idle [] 0) f5).
  assert (reachable timed (mkState {[0%nat := ex_handle true true 7]} (ex_pool 1 (Some 0%nat) (mkCond [4%nat; 3%nat] []) (mkCond [] [2%nat])) f6)) as R6.
  { eapply reach_step; [exact R5|]. pose proof (step_put timed {[0%nat := ex_handle true true 7]} (ex_pool 1 None (mkCond [4%nat; 3%nat] []) (mkCond [2%nat] [])) f5 1 [] 0 [] 7 (ex_handle true true 7)
      {[0%nat := ex_handle true true 7]} (ex_pool 1 (Some 0%nat) (mkCond [4%nat; 3%nat] []) (mkCond [2%nat] [])) (mkCond [] [2%nat])) as Hs.
    change (f5 1%nat) with (f 1%nat) in Hs. rewrite E1 in Hs. apply Hs; [done|done|done|vm_compute; reflexivity|]. right. by apply (wake (mkCond [2%nat] []) [] 2%nat []). }
  set (f7 := upd 2 (at_pc (Done 1 [0%nat] true) (f6 2%nat)) f6).
  exists f7. split; [|split_and!].
  - eapply reach_step; [exact R6|]. eapply (step_collect _ _ _ _ 2 1 [] no_threads); [reflexivity|by apply (resume (mkCond [] [2%nat]) 2 [] [])|].
    eexists _, _, _. split; [reflexivity|]. cbn [length app Nat.ltb Nat.leb]. exists (mkCond [4%nat] [3%nat]). split; [right; by apply (wake (mkCond [4%nat; 3%nat] []) [4%nat] 3%nat [])|].
    vm_compute. reflexivity.
  - unfold f7, f6, f5, f4, f3, want, at_pc, upd. cbn. by rewrite Ef.
  - unfold f7, f6, f5, f4, f3, want, at_pc, upd. cbn. by rewrite Ef.
  - unfold f7, f6, f5, f4, f3, want, at_pc, upd. cbn. by rewrite Ef.
  - intros u H2 H3 H4. unfold f7, f6, f5, f4, f3, want. destruct (decide (u = 1%nat)) as [->|H1]; [done|]. rewrite !upd_other by done. by apply Ef.
Qed.

(** A turn is lost when a thread that was woken for it gives up at the same time because of its
    timeout: all other threads are done, the handle is free, and a thread waits for its turn
    without a timeout, not woken. *)
Theorem turn_lost : exists timed s, reachable timed s /\ timed 4%nat = false /\ waiting (pool s) = 0 /\ firstPtr (pool s) = Some 0%nat /\
  waitCond (pool s) = mkCond [4%nat] [] /\ turning (pc (thr s 4%nat)) /\ forall u, u <> 4%nat -> thr s u = mkThread Idle [] 0.
Proof.
  set (timed := fun t => Nat.eqb t 3). destruct (ex_contended timed) as (f & Hr & E2 & E3 & E4 & Ef).
  set (f8 := upd 3 (at_pc (Done 1 [] false) (f 3%nat)) f).
  assert (reachable timed (mkState {[0%nat := ex_handle true true 7]} (ex_pool 0 None (mkCond [4%nat] []) no_threads) f8)) as R8.
  { eapply reach_step; [exact Hr|]. apply (step_turn_timeout timed {[0%nat := ex_handle true true 7]} (ex_pool 0 None (mkCond [4%nat] [3%nat]) no_threads) f 3 1 (mkCond [4%nat] [])); [done|by rewrite E3|]. by apply (time_out_woken (mkCond [4%nat] [3%nat]) 3 [] []). }
  set (f9 := upd 3 (mkThread Idle [] 0) f8).
  assert (reachable timed (mkState {[0%nat := ex_handle true true 7]} (ex_pool 0 None (mkCond [4%nat] []) no_threads) f9)) as R9.
  { eapply reach_step; [exact R8|]. pose proof (step_failed timed {[0%nat := ex_handle true true 7]} (ex_pool 0 None (mkCond [4%nat] []) no_threads) f8 3 1 [] false 0 (fun _ => true)
      {[0%nat := ex_handle true true 7]} {[0%nat := ex_handle true true 7]} (ex_pool 0 None (mkCond [4%nat] []) no_threads) no_threads) as Hs.
    change (f8 3%nat) with (at_pc (Done 1 [] false) (f 3%nat)) in Hs. rewrite E3 in Hs. by apply Hs. }
  set (f10 := upd 2 (mkThread Idle [0%nat] 1) f9).
  assert (reachable timed (mkState {[0%nat := ex_handle true true 7]} (ex_pool 0 None (mkCond [4%nat] []) no_threads) f10)) as R10.
  { eapply reach_step; [exact R9|]. pose proof (step_got timed {[0%nat := ex_handle true true 7]} (ex_pool 0 None (mkCond [4%nat] []) no_threads) f9 2 1 [0%nat] 0 (fun _ => true) {[0%nat := ex_handle true true 7]}) as Hs.
    change (f9 2%nat) with (f 2%nat) in Hs. rewrite E2 in Hs. by apply Hs. }
  exists timed, (mkState {[0%nat := ex_handle true true 7]} (ex_pool 0 (Some 0%nat) (mkCond [4%nat] []) no_threads) (upd 2 (mkThread Idle [] 0) f10)). split_and!; try done.
  - eapply reach_step; [exact R10|]. pose proof (step_put timed {[0%nat := ex_handle true true 7]} (ex_pool 0 None (mkCond [4%nat] []) no_threads) f10 2 [] 0 [] 7 (ex_handle true true 7)
      {[0%nat := ex_handle true true 7]} (ex_pool 0 (Some 0%nat) (mkCond [4%nat] []) no_threads) no_threads) as Hs. apply Hs; [done|done|done|vm_compute; reflexivity|done].
  - cbn. unfold f10, f9, f8, upd. cbn. rewrite E4. by eexists.
  - intros u H4. cbn. destruct (decide (u = 2%nat)) as [->|H2]; [done|]. destruct (decide (u = 3%nat)) as [->|H3]; [done|]. unfold f10, f9, f8. rewrite !upd_other by done. by apply Ef.
Qed.

Lemma handles_exclusive_witness : exists s free, reachable (fun _ => false) s /\ walk (size (mem s)) (mem s) (firstPtr (pool s)) = Some free /\ held (thr s 1%nat) = [0%nat].
Proof.
  destruct (ex_got (fun _ => false)) as (f & Hr & E1 & _). eexists. destruct (handles_exclusive (fun _ => false) _ Hr) as (free & Hw & _).
  exists free. split; [exact Hr|]. split; [exact Hw|]. unfold held. cbn. rewrite E1. reflexivity.
Defined.

Lemma turns_not_lost_witness : exists s t c s', resumes (waitCond (pool s)) t c /\ step (fun _ => false) s s' /\ ~ turning (pc (thr s' t)).
Proof.
  destruct (ex_contended (fun _ => false)) as (f & Hr & _). eexists.
  destruct (turns_not_lost (fun _ => false) _ (fun _ => eq_refl) Hr) as (t & c & s' & H1 & H2 & _ & H3); [reflexivity|cbn; congruence|]. exists t, c, s'. split; [exact H1|]. split; assumption.
Defined.

Lemma bounced_handle_closed_witness : exists s h, mem s !! 0%nat = Some h /\ IsStale (pool s) h 8 = true.
Proof.
  destruct (ex_got (fun _ => false)) as (f & Hr & E1 & _).
  set (s1 := mkState {[0%nat := ex_handle true true 7]} (mkPool 0 1 None None 0 0 1 no_threads no_threads) f).
  exists s1, (ex_handle true true 7). split; [reflexivity|].
  destruct (bounced_handle_closed (fun _ => false) (mkState {[0%nat := ex_handle true true 7]} (ex_pool 0 None no_threads no_threads) f) s1 s1 1 0 Hr) with (h := ex_handle true true 7) (now := 8) as [H _];
    [| |reflexivity|apply rtc_refl|reflexivity|reflexivity|exact H].
  - unfold held. cbn. rewrite E1. cbn. by left.
  - by apply (step_bounce _ _ (ex_pool 0 None no_threads no_threads) f [] {[0%nat := ex_handle true true 7]}).
Defined.
