(* ===== verification/ConnQueue.v ===== *)
(** * ConnQueue: how requests get to the connection threads of a pool (nsd/queue.c).

    A pool has a list of free connections, a queue of waiting ones, and a stack of idle
    threads.  A driver thread takes a free connection for a request, and gives it to the
    thread on top of the stack, which it then signals, or appends it to the queue; it may
    create a thread.  A connection thread takes the first waiting connection or puts itself on
    the stack and waits, runs the request, and puts the connection on the free list.

    Each of the three has a lock of its own, and some accesses are made without one: what a
    thread does between two of these is a step.  Linked lists are lists of connections or of
    thread slots, with [wait.num] as the length of the queue; the fields of a request in the
    connection, statistics, the counter of idle threads, which nothing depends on, and the
    shutdown are left out; assertions are compiled out.  A wait with a timeout may end at any
    time, also for a thread that was signalled. *)

From S2P Require Import Prelude.

Inductive ConnThreadState := connThread_free | connThread_initial | connThread_warmup | connThread_ready | connThread_idle | connThread_busy | connThread_dead.
#[export] Instance ConnThreadState_eq_dec : EqDecision ConnThreadState.
Proof. solve_decision. Defined.

Record ConnThreadArg := mkArg { state : ConnThreadState; connPtr : option nat }.

Definition set_state (x : ConnThreadState) (a : ConnThreadArg) : ConnThreadArg := mkArg x (connPtr a).
Definition set_conn (c : option nat) (a : ConnThreadArg) : ConnThreadArg := mkArg (state a) c.

(** [wait] is the queue, [tqueue] the stack of thread slots. *)
Record ConnPool := mkPool { freePtr : list nat; wait : list nat; tqueue : list nat; current : Z; creating : Z }.

Definition set_free (l : list nat) (p : ConnPool) : ConnPool := mkPool l (wait p) (tqueue p) (current p) (creating p).
Definition set_wait (l : list nat) (p : ConnPool) : ConnPool := mkPool (freePtr p) l (tqueue p) (current p) (creating p).
Definition set_tqueue (l : list nat) (p : ConnPool) : ConnPool := mkPool (freePtr p) (wait p) l (current p) (creating p).
Definition set_counts (c n : Z) (p : ConnPool) : ConnPool := mkPool (freePtr p) (wait p) (tqueue p) c n.

Definition num (p : ConnPool) : Z := Z.of_nat (length (wait p)).

(** Where a driver is in [NsQueueConn]: outside, with a connection, with a thread taken off the
    stack, having found no thread, before the signal, before the creation of a thread, before
    the choice of a slot, before the start of a thread in its slot. *)
Inductive DriverPc :=
  DIdle | DHave (c : nat) | DPopped (c i : nat) | DQueue (c : nat) | DSignal (i : nat) (create : bool) | DCount | DSlot | DInit (i : nat).

(** Where a connection thread is in [NsConnThread], with its [ncons]. *)
Inductive ThreadPc :=
  NoThread | Starting | Counting | WarmingUp | Ready (ncons : Z) | GoIdle (ncons : Z) | Waiting (ncons : Z) | Woken (ncons : Z) | LeftOk (ncons : Z) | LeftTimeout
  | Running (c : nat) (ncons : Z) | Finished (c : nat) (ncons : Z) | Exiting | Ending.

Record State := mkState { pool : ConnPool; args : nat -> ConnThreadArg; thr : nat -> ThreadPc; drv : nat -> DriverPc }.

Definition upd {A} (i : nat) (x : A) (f : nat -> A) : nat -> A := fun j => if Nat.eqb j i then x else f j.

Section queue.
(** The settings of the pool, and whether threads wait with a timeout. *)
Context (min max lowwatermark highwatermark connsperthread : Z) (timed : bool).

Definition neededAdditionalConnectionThreads (p : ConnPool) : bool :=
  ((creating p =? 0) || (highwatermark <? num p)) && ((current p <? min) || (lowwatermark <? num p)) && (current p <? max).

(** The first free slot. *)
Definition find_slot (a : nat -> ConnThreadArg) : option nat :=
  List.find (fun i => bool_decide (state (a i) = connThread_free)) (seq 0 (Z.to_nat max)).

(** Where a thread goes on after a request; [n] is [ncons]. *)
Definition after_request (p : ConnPool) (n : Z) : ThreadPc :=
  if 0 <? connsperthread then
    let n := n - 1 in
    if (0 <? num p) && ((0 <? n) || (lowwatermark <? num p) || (current p <=? 1)) then Ready n
    else if n <=? 0 then Exiting else Ready n
  else Ready n.

Definition then_create (create : bool) : DriverPc := if create then DCount else DIdle.

(** A thread that waits is woken. *)
Definition signalled (t : ThreadPc) : ThreadPc := match t with Waiting n => Woken n | _ => t end.

Inductive step : State -> State -> Prop :=
(* drivers *)
| step_take p a t d k c fr : d k = DIdle -> freePtr p = c :: fr -> step (mkState p a t d) (mkState (set_free fr p) a t (upd k (DHave c) d))
| step_pop p a t d k c i tq : d k = DHave c -> tqueue p = i :: tq -> step (mkState p a t d) (mkState (set_tqueue tq p) a t (upd k (DPopped c i) d))
| step_no_thread p a t d k c : d k = DHave c -> tqueue p = [] -> step (mkState p a t d) (mkState p a t (upd k (DQueue c) d))
| step_assign p a t d k c i : d k = DPopped c i ->
    step (mkState p a t d) (mkState p (upd i (set_conn (Some c) (a i)) a) t (upd k (DSignal i (neededAdditionalConnectionThreads p)) d))
| step_signal p a t d k i b : d k = DSignal i b -> step (mkState p a t d) (mkState p a (upd i (signalled (t i)) t) (upd k (then_create b) d))
| step_queue p a t d k c : d k = DQueue c ->
    step (mkState p a t d) (mkState (set_wait (wait p ++ [c]) p) a t (upd k (then_create (neededAdditionalConnectionThreads (set_wait (wait p ++ [c]) p))) d))
| step_ensure p a t d k : d k = DIdle -> neededAdditionalConnectionThreads p = true ->
    step (mkState p a t d) (mkState (set_counts (current p + 1) (creating p + 1) p) a t (upd k DSlot d))
| step_count p a t d k : d k = DCount -> step (mkState p a t d) (mkState (set_counts (current p + 1) (creating p + 1) p) a t (upd k DSlot d))
| step_slot p a t d k i : d k = DSlot -> find_slot a = Some i ->
    step (mkState p a t d) (mkState p (upd i (set_state connThread_initial (a i)) a) t (upd k (DInit i) d))
| step_no_slot p a t d k : d k = DSlot -> find_slot a = None -> step (mkState p a t d) (mkState (set_counts (current p - 1) (creating p - 1) p) a t (upd k DIdle d))
| step_init p a t d k i : d k = DInit i -> step (mkState p a t d) (mkState p (upd i (set_conn None (a i)) a) (upd i Starting t) (upd k DIdle d))
(* connection threads *)
| step_warmup p a t d i : t i = Starting -> step (mkState p a t d) (mkState p (upd i (set_state connThread_warmup (a i)) a) (upd i Counting t) d)
| step_counted p a t d i : t i = Counting ->
    step (mkState p a t d) (mkState (set_counts (current p) (if 0 <? creating p then creating p - 1 else creating p) p) a (upd i WarmingUp t) d)
| step_start p a t d i : t i = WarmingUp ->
    step (mkState p a t d) (mkState p (upd i (set_state connThread_ready (a i)) a) (upd i (Ready connsperthread) t) d)
| step_dequeue p a t d i n c q : t i = Ready n -> wait p = c :: q ->
    step (mkState p a t d) (mkState (set_wait q p) (upd i (set_conn (Some c) (a i)) a) (upd i (Running c n) t) d)
| step_nothing p a t d i n : t i = Ready n -> wait p = [] ->
    step (mkState p a t d) (mkState p a (upd i (match connPtr (a i) with Some c => Running c n | None => GoIdle n end) t) d)
| step_raced p a t d i n : t i = Ready n -> wait p = [] ->
    step (mkState p a t d) (mkState p (upd i (set_conn None (a i)) a) (upd i (GoIdle n) t) d)
| step_idle p a t d i n : t i = GoIdle n ->
    step (mkState p a t d) (mkState (set_tqueue (i :: tqueue p) p) (upd i (set_state connThread_idle (a i)) a) (upd i (Waiting n) t) d)
| step_spurious p a t d i n : t i = Waiting n -> step (mkState p a t d) (mkState p a (upd i (Woken n) t) d)
| step_woken p a t d i n : t i = Woken n ->
    step (mkState p a t d) (mkState p a (upd i (match connPtr (a i) with Some _ => LeftOk n | None => Waiting n end) t) d)
| step_timeout p a t d i n : timed = true -> t i = Waiting n \/ t i = Woken n ->
    step (mkState p a t d) (mkState p a (upd i (match connPtr (a i) with Some _ => LeftOk n | None => if current p <=? min then Waiting n else LeftTimeout end) t) d)
| step_busy p a t d i n c : t i = LeftOk n -> connPtr (a i) = Some c ->
    step (mkState p a t d) (mkState p (upd i (set_state connThread_busy (a i)) a) (upd i (Running c n) t) d)
| step_gone p a t d i : t i = LeftTimeout ->
    step (mkState p a t d) (mkState (match connPtr (a i) with None => set_tqueue (filter (fun j => j <> i) (tqueue p)) p | Some _ => p end)
      (upd i (set_state connThread_busy (a i)) a) (upd i Exiting t) d)
| step_done p a t d i c n : t i = Running c n ->
    step (mkState p a t d) (mkState p (upd i (mkArg connThread_ready None) a) (upd i (Finished c n) t) d)
| step_release p a t d i c n : t i = Finished c n ->
    step (mkState p a t d) (mkState (set_free (c :: freePtr p) p) a (upd i (after_request p n) t) d)
| step_exit p a t d i : t i = Exiting ->
    step (mkState p a t d) (mkState (set_counts (current p - 1) (creating p) p) (upd i (set_state connThread_dead (a i)) a) (upd i Ending t) d)
| step_ended p a t d i : t i = Ending -> step (mkState p a t d) (mkState p (upd i (set_state connThread_free (a i)) a) (upd i NoThread t) d).

(** After [NsStartServer], with [maxconns] connections: [min] threads are started. *)
Definition started (maxconns : nat) : State :=
  mkState (mkPool (seq 0 maxconns) [] [] min min)
    (fun i => if Z.of_nat i <? min then mkArg connThread_initial None else mkArg connThread_free None)
    (fun i => if Z.of_nat i <? min then Starting else NoThread) (fun _ => DIdle).

Inductive reachable (maxconns : nat) : State -> Prop :=
| reach_init : reachable maxconns (started maxconns)
| reach_step s s' : reachable maxconns s -> step s s' -> reachable maxconns s'.

End queue.

(** ** Where connections are *)

Lemma upd_eq {A} i (x : A) f : upd i x f i = x.
Proof. unfold upd. by rewrite Nat.eqb_refl. Qed.

Lemma upd_ne {A} i j (x : A) f : j <> i -> upd i x f j = f j.
Proof. intros Hne. unfold upd. by rewrite (proj2 (Nat.eqb_neq j i)). Qed.

Lemma upd_cases {A} i j (x : A) f : (j = i /\ upd i x f j = x) \/ (j <> i /\ upd i x f j = f j).
Proof. destruct (decide (j = i)) as [->|Hne]; [left; by rewrite upd_eq|right; by rewrite upd_ne]. Qed.

Inductive place := PFree | PWait | PDriver (k : nat) | PThread (i : nat).

Definition carried (d : DriverPc) : option nat := match d with DHave c | DPopped c _ | DQueue c => Some c | _ => None end.
Definition served (t : ThreadPc) : option nat := match t with Running c _ | Finished c _ => Some c | _ => None end.

(** A connection of a thread is in its slot, or it is what it runs. *)
Definition at_place (s : State) (c : nat) (q : place) : Prop :=
  match q with
  | PFree => c ∈ freePtr (pool s)
  | PWait => c ∈ wait (pool s)
  | PDriver k => carried (drv s k) = Some c
  | PThread i => connPtr (args s i) = Some c \/ served (thr s i) = Some c
  end.

Record Unique (s : State) : Prop := {
  un_free : NoDup (freePtr (pool s));
  un_wait : NoDup (wait (pool s));
  un_place : forall c q q', at_place s c q -> at_place s c q' -> q = q';
  un_finished : forall i c n, thr s i = Finished c n -> connPtr (args s i) <> Some c
}.

(** At most one connection moves. *)
Lemma unique_move s s' c q0 q1 : Unique s -> NoDup (freePtr (pool s')) -> NoDup (wait (pool s')) -> at_place s c q0 ->
  (forall c' q, at_place s' c' q -> (at_place s c' q /\ (c' = c -> q = q0 -> q = q1)) \/ (c' = c /\ q = q1)) ->
  (forall i c n, thr s' i = Finished c n -> connPtr (args s' i) <> Some c) -> Unique s'.
Proof.
  intros [Hf Hw Hu _] Hf' Hw' Hc Hm Hfin. split; [done|done| |done]. intros c' q q' H1 H2.
  destruct (Hm _ _ H1) as [[A1 B1]|[E1 E1']], (Hm _ _ H2) as [[A2 B2]|[E2 E2']].
  - by apply (Hu c').
  - subst c' q'. assert (q = q0) as -> by (by apply (Hu c)). by apply B1.
  - subst c' q. assert (q' = q0) as -> by (by apply (Hu c)). symmetry. by apply B2.
  - congruence.
Qed.

(** No connection moves. *)
Lemma unique_stay s s' : Unique s -> freePtr (pool s') = freePtr (pool s) -> wait (pool s') = wait (pool s) ->
  (forall k, carried (drv s' k) = carried (drv s k) \/ carried (drv s' k) = None) ->
  (forall i, connPtr (args s' i) = connPtr (args s i) \/ connPtr (args s' i) = None) ->
  (forall i c, served (thr s' i) = Some c -> served (thr s i) = Some c \/ connPtr (args s i) = Some c) ->
  (forall i c n, thr s' i = Finished c n -> connPtr (args s' i) <> Some c) -> Unique s'.
Proof.
  intros [Hf Hw Hu _] Ef Ew Ed Ea Et Hfin. split; [by rewrite Ef|by rewrite Ew| |done].
  assert (forall c q, at_place s' c q -> at_place s c q) as Hm.
  { intros c [| |k|i]; cbn; [by rewrite Ef|by rewrite Ew|destruct (Ed k) as [->| ->]; done|]. intros [H|H]; [destruct (Ea i) as [E|E]; rewrite E in H; [by left|done]|]. destruct (Et i c H); tauto. }
  intros c q q' H1 H2. by apply (Hu c); apply Hm.
Qed.

(** Case analysis on whether an index is the one that was updated. *)
Ltac upd_case j := match goal with
  | |- context [upd ?i ?x ?f j] => destruct (upd_cases i j x f) as [[? ->]|[? ->]]; [subst j|]
  | H : context [upd ?i ?x ?f j] |- _ => let E := fresh in destruct (upd_cases i j x f) as [[? E]|[? E]]; rewrite E in *; clear E; [subst j|]
  end.

Ltac stay Hu := apply (unique_stay _ _ Hu); cbn in *;
  [done|done|intros k'; try upd_case k'|intros i'; try upd_case i'|intros i' c'; try upd_case i'|intros i' c' n'; repeat upd_case i'];
  cbn in *; repeat match goal with H : _ = _ |- _ => rewrite H end; cbn; eauto.

Section unique.
Context (min max lowwatermark highwatermark connsperthread : Z) (timed : bool).

Lemma take_unique p a t d k c fr : Unique (mkState p a t d) -> d k = DIdle -> freePtr p = c :: fr -> Unique (mkState (set_free fr p) a t (upd k (DHave c) d)).
Proof.
  intros Hu Hk Hf. pose proof (un_free _ Hu) as Hn. cbn in Hn. rewrite Hf in Hn. apply NoDup_cons in Hn as [Hc Hn].
  apply (unique_move (mkState p a t d) _ c PFree (PDriver k)); [done|done|apply (un_wait _ Hu)|cbn; rewrite Hf; by left| |apply (un_finished _ Hu)].
  intros c' [| |k'|i]; cbn.
  - intros Hin. left. split; [rewrite Hf; by right|]. intros -> _. done.
  - intros Hin. left. by split.
  - upd_case k'; cbn; [intros [= <-]; by right|]. intros Hin. left. by split.
  - intros Hin. left. by split.
Qed.

Lemma assign_unique p a t d k c i b : Unique (mkState p a t d) -> d k = DPopped c i ->
  Unique (mkState p (upd i (set_conn (Some c) (a i)) a) t (upd k (DSignal i b) d)).
Proof.
  intros Hu Hk. assert (at_place (mkState p a t d) c (PDriver k)) as Hc by (cbn; by rewrite Hk).
  apply (unique_move (mkState p a t d) _ c (PDriver k) (PThread i)); [done|apply (un_free _ Hu)|apply (un_wait _ Hu)|done| |].
  - intros c' [| |k'|i']; cbn; [intros Hin; left; by split..| |].
    + upd_case k'; cbn; [done|]. intros Hin. left. split; [done|]. intros -> [= ->]. done.
    + upd_case i'; cbn; [|intros Hin; left; by split]. intros [[= <-]|Hs]; [by right|]. left. split; [by right|done].
  - intros i' c' n. cbn. upd_case i'; cbn; [|apply (un_finished _ Hu)]. intros Hf [= <-]. assert (at_place (mkState p a t d) c (PThread i)) as Hc' by (cbn; right; by rewrite Hf).
    by pose proof (un_place _ Hu c _ _ Hc Hc').
Qed.

Lemma queue_unique p a t d k c b : Unique (mkState p a t d) -> d k = DQueue c -> Unique (mkState (set_wait (wait p ++ [c]) p) a t (upd k (then_create b) d)).
Proof.
  intros Hu Hk. assert (at_place (mkState p a t d) c (PDriver k)) as Hc by (cbn; by rewrite Hk). pose proof (un_wait _ Hu) as Hn. cbn in Hn.
  apply (unique_move (mkState p a t d) _ c (PDriver k) PWait); [done|apply (un_free _ Hu)| |done| |apply (un_finished _ Hu)].
  - cbn. apply NoDup_app. split_and!; [done| |apply NoDup_singleton]. intros x Hx ->%list_elem_of_singleton. by pose proof (un_place _ Hu c PWait _ Hx Hc).
  - intros c' [| |k'|i']; cbn; [intros Hin; left; by split| | |intros Hin; left; by split].
    + rewrite elem_of_app, list_elem_of_singleton. intros [Hin| ->]; [left; by split|by right].
    + upd_case k'; [unfold then_create; by destruct b|]. intros Hin. left. split; [done|]. by intros -> [= ->].
Qed.

Lemma dequeue_unique p a t d i n c q : Unique (mkState p a t d) -> t i = Ready n -> wait p = c :: q ->
  Unique (mkState (set_wait q p) (upd i (set_conn (Some c) (a i)) a) (upd i (Running c n) t) d).
Proof.
  intros Hu Ht Hw. pose proof (un_wait _ Hu) as Hn. cbn in Hn. rewrite Hw in Hn. apply NoDup_cons in Hn as [Hc Hn].
  apply (unique_move (mkState p a t d) _ c PWait (PThread i)); [done|apply (un_free _ Hu)|done|cbn; rewrite Hw; by left| |].
  - intros c' [| |k'|i']; cbn; [intros Hin; left; by split| |intros Hin; left; by split|].
    + intros Hin. left. split; [rewrite Hw; by right|]. intros -> _. done.
    + destruct (upd_cases i i' (set_conn (Some c) (a i)) a) as [[-> E]|[Hne E]]; rewrite E; [|rewrite upd_ne by done; intros Hin; left; by split].
      rewrite upd_eq. cbn. intros [[= <-]|[= <-]]; by right.
  - intros i' c' n'. cbn. destruct (decide (i' = i)) as [->|Hne]; [by rewrite upd_eq|]. rewrite !upd_ne by done. apply (un_finished _ Hu).
Qed.

Lemma release_unique p a t d i c n : Unique (mkState p a t d) -> t i = Finished c n ->
  Unique (mkState (set_free (c :: freePtr p) p) a (upd i (after_request lowwatermark connsperthread p n) t) d).
Proof.
  intros Hu Ht. assert (at_place (mkState p a t d) c (PThread i)) as Hc by (cbn; right; by rewrite Ht). pose proof (un_finished _ Hu i c n Ht) as Hfin. cbn in Hfin.
  assert (exists x, after_request lowwatermark connsperthread p n = x /\ served x = None) as (x & -> & Hx) by (unfold after_request; repeat case_match; by eexists).
  apply (unique_move (mkState p a t d) _ c (PThread i) PFree); [done| |apply (un_wait _ Hu)|done| |].
  - cbn. apply NoDup_cons. split; [|apply (un_free _ Hu)]. intros Hin. by pose proof (un_place _ Hu c PFree _ Hin Hc).
  - intros c' [| |k'|i']; cbn; [|intros Hin; left; by split..|].
    + rewrite elem_of_cons. intros [->|Hin]; [by right|left; by split].
    + upd_case i'; [rewrite Hx|intros Hin; left; split; [done|]; by intros _ [= ->]]. intros [Hin|]; [|done]. left. split; [by left|]. intros -> _. done.
  - intros i' c' n'. cbn. upd_case i'; [intros ->; done|apply (un_finished _ Hu)].
Qed.

Lemma step_unique s s' : step min max lowwatermark highwatermark connsperthread timed s s' -> Unique s -> Unique s'.
Proof.
  destruct 1; intros Hu; pose proof (un_finished _ Hu) as Hfin; cbn in Hfin;
    try (by eapply take_unique); try (by eapply assign_unique); try (by eapply queue_unique); try (by eapply dequeue_unique); try (by eapply release_unique);
    try (by stay Hu).
  - stay Hu; [unfold then_create; destruct b; by right|by destruct (t i); cbn; auto|destruct (t i) eqn:E; cbn; try done; intros [= <- <-]; by eapply Hfin].
  - stay Hu; [destruct (connPtr (a i)); cbn; auto|by destruct (connPtr (a i))].
  - stay Hu; by destruct (connPtr (a i)).
  - stay Hu; destruct (connPtr (a i)); try done; by destruct (_ <=? _).
  - destruct (connPtr (a i)) eqn:E; stay Hu.
  - stay Hu. by rewrite upd_eq.
Qed.

Lemma reachable_unique maxconns s : reachable min max lowwatermark highwatermark connsperthread timed maxconns s -> Unique s.
Proof.
  induction 1 as [|s s' _ IH Hs]; [|by eapply step_unique]. split; cbn.
  - apply NoDup_seq.
  - apply NoDup_nil_2.
  - assert (forall c q, at_place (started min maxconns) c q -> q = PFree) as Hp.
    { intros c [| |k|i]; cbn; [done|by intros ?%elem_of_nil|done|]. by destruct (Z.of_nat i <? min); intros [?|?]. }
    intros c q q' H1 H2. by rewrite (Hp c q H1), (Hp c q' H2).
  - intros i c n. by destruct (Z.of_nat i <? min).
Qed.
End unique.

(** ** Without timeouts *)

Definition avail (t : ThreadPc) : bool := match t with Waiting _ | Woken _ => true | _ => false end.

(** What the slot of a thread holds. *)
Definition slot_ok (t : ThreadPc) (c : option nat) : Prop :=
  match t with
  | Running c' _ => c = Some c'
  | LeftOk _ => c <> None
  | Waiting _ | Woken _ => True
  | LeftTimeout => False
  | _ => c = None
  end.

Record Kept (s : State) : Prop := {
  k_nodup : NoDup (tqueue (pool s));
  k_stack : forall i, i ∈ tqueue (pool s) -> avail (thr s i) = true /\ connPtr (args s i) = None;
  k_popped : forall k c i, drv s k = DPopped c i -> avail (thr s i) = true /\ connPtr (args s i) = None /\ i ∉ tqueue (pool s);
  k_one : forall k k' c c' i, drv s k = DPopped c i -> drv s k' = DPopped c' i -> k = k';
  k_slot : forall i, slot_ok (thr s i) (connPtr (args s i));
  k_avail : forall i, avail (thr s i) = true -> connPtr (args s i) = None -> i ∈ tqueue (pool s) \/ exists k c, drv s k = DPopped c i;
  k_signal : forall i n c, thr s i = Waiting n -> connPtr (args s i) = Some c -> exists k b, drv s k = DSignal i b;
  k_free : forall i, state (args s i) = connThread_free -> thr s i = NoThread;
  k_init : forall k i, drv s k = DInit i -> state (args s i) = connThread_initial /\ thr s i = NoThread;
  k_init_one : forall k k' i, drv s k = DInit i -> drv s k' = DInit i -> k = k'
}.

Section kept.
Context (min max lowwatermark highwatermark connsperthread : Z).

(** A driver goes on elsewhere. *)
Lemma kept_driver p p' a t d k x : Kept (mkState p a t d) -> tqueue p' = tqueue p ->
  match d k with DPopped _ _ | DSignal _ _ | DInit _ => False | _ => True end -> match x with DPopped _ _ | DInit _ => False | _ => True end ->
  Kept (mkState p' a t (upd k x d)).
Proof.
  intros [K1 K2 K3 K4 K5 K6 K7 K8 K9 K10] Ep Hk Hx. split; cbn in *; rewrite ?Ep; try done.
  - intros k' c i. upd_case k'; [by destruct x|apply K3].
  - intros k1 k2 c c' i. upd_case k1; [by destruct x|]. upd_case k2; [by destruct x|apply K4].
  - intros i H1 H2. destruct (K6 i H1 H2) as [?|(k' & c & E)]; [by left|right]. exists k', c. rewrite upd_ne; [done|]. intros ->. by rewrite E in Hk.
  - intros i n c H1 H2. destruct (K7 i n c H1 H2) as (k' & b & E). exists k', b. rewrite upd_ne; [done|]. intros ->. by rewrite E in Hk.
  - intros k' i. upd_case k'; [by destruct x|apply K9].
  - intros k1 k2 i. upd_case k1; [by destruct x|]. upd_case k2; [by destruct x|apply K10].
Qed.

(** A thread that is not on the stack, or that has got a connection, goes on elsewhere. *)
Lemma kept_thread p p' a t d i ai x : Kept (mkState p a t d) -> tqueue p' = tqueue p -> avail (t i) = false \/ connPtr (a i) <> None -> t i <> NoThread ->
  avail x = false -> slot_ok x (connPtr ai) -> (state ai = connThread_free -> x = NoThread) -> Kept (mkState p' (upd i ai a) (upd i x t) d).
Proof.
  intros [K1 K2 K3 K4 K5 K6 K7 K8 K9 K10] Ep Hav Ht Hx Hs Hf. cbn in *.
  assert (i ∉ tqueue p) as Hi by (intros Hi; destruct (K2 i Hi), Hav; congruence).
  assert (forall k c, d k <> DPopped c i) as Hd by (intros k c Hk; destruct (K3 k c i Hk) as (? & ? & _), Hav; congruence).
  split; cbn; rewrite ?Ep; try done.
  - intros j Hj. assert (j <> i) by congruence. rewrite !upd_ne by done. by apply K2.
  - intros k c j Hk. assert (j <> i) by (intros ->; by apply (Hd k c)). rewrite !upd_ne by done. by apply (K3 k c).
  - intros j. destruct (decide (j = i)) as [->|Hne]; [by rewrite !upd_eq|rewrite !upd_ne by done; apply K5].
  - intros j. destruct (decide (j = i)) as [->|Hne]; [rewrite !upd_eq; congruence|rewrite !upd_ne by done; apply K6].
  - intros j n c. destruct (decide (j = i)) as [->|Hne]; [rewrite !upd_eq; intros ->; done|rewrite !upd_ne by done; apply K7].
  - intros j. destruct (decide (j = i)) as [->|Hne]; [by rewrite !upd_eq|rewrite !upd_ne by done; apply K8].
  - intros k j Hk. assert (j <> i) by (intros ->; destruct (K9 k i Hk); done). rewrite !upd_ne by done. by apply (K9 k).
Qed.

Lemma pop_kept p a t d k c i tq : Kept (mkState p a t d) -> d k = DHave c -> tqueue p = i :: tq -> Kept (mkState (set_tqueue tq p) a t (upd k (DPopped c i) d)).
Proof.
  intros [K1 K2 K3 K4 K5 K6 K7 K8 K9 K10] Hk Ep. cbn in *. rewrite Ep in *. apply NoDup_cons in K1 as [Hi Hn].
  assert (forall k' c', d k' <> DPopped c' i) as Hd by (intros k' c' E; destruct (K3 _ _ _ E) as (_ & _ & Hni); apply Hni; by left).
  split; cbn; try done.
  - intros j Hj. apply K2. by right.
  - intros k' c' j. upd_case k'; [intros [= <- <-]; destruct (K2 i); [by left|done]|]. intros E. destruct (K3 _ _ _ E) as (? & ? & Hni). split_and!; [done|done|]. set_solver.
  - intros k1 k2 c1 c2 j. upd_case k1; upd_case k2; try done; [intros [= <- <-] E; by destruct (Hd _ _ E)|intros E [= <- <-]; by destruct (Hd _ _ E)|apply K4].
  - intros j H1 H2. destruct (K6 j H1 H2) as [[->|?]%elem_of_cons|(k' & c' & E)]; [right; exists k, c; by rewrite upd_eq|by left|right]. exists k', c'. rewrite upd_ne; [done|congruence].
  - intros j n c' H1 H2. destruct (K7 j n c' H1 H2) as (k' & b & E). exists k', b. rewrite upd_ne; [done|congruence].
  - intros k' j. upd_case k'; [done|apply K9].
  - intros k1 k2 j. upd_case k1; [done|]. upd_case k2; [done|apply K10].
Qed.

Lemma assign_kept p a t d k c i b : Kept (mkState p a t d) -> d k = DPopped c i -> Kept (mkState p (upd i (set_conn (Some c) (a i)) a) t (upd k (DSignal i b) d)).
Proof.
  intros [K1 K2 K3 K4 K5 K6 K7 K8 K9 K10] Hk. cbn in *. destruct (K3 _ _ _ Hk) as (Hav & Hc & Hi). split; cbn; try done.
  - intros j Hj. assert (j <> i) by congruence. rewrite upd_ne by done. by apply K2.
  - intros k' c' j. upd_case k'; [done|]. intros E. assert (j <> i) by (intros ->; by pose proof (K4 _ _ _ _ _ Hk E)). rewrite upd_ne by done. by apply (K3 k' c').
  - intros k1 k2 c1 c2 j. upd_case k1; [done|]. upd_case k2; [done|apply K4].
  - intros j. upd_case j; [|apply K5]. cbn. destruct (t i); done.
  - intros j. upd_case j; [done|]. intros H1 H2. destruct (K6 j H1 H2) as [?|(k' & c' & E)]; [by left|right]. exists k', c'. rewrite upd_ne; [done|congruence].
  - intros j n c'. destruct (decide (j = i)) as [->|Hne]; [intros _ _; exists k, b; by rewrite upd_eq|]. rewrite upd_ne by done. intros H1 H2.
    destruct (K7 j n c' H1 H2) as (k' & b' & E). exists k', b'. rewrite upd_ne; [done|congruence].
  - intros j. upd_case j; [apply K8|apply K8].
  - intros k' j. upd_case k'; [done|]. intros E. destruct (K9 _ _ E) as [? ?]. by upd_case j.
  - intros k1 k2 j. upd_case k1; [done|]. upd_case k2; [done|apply K10].
Qed.

Lemma signal_kept p a t d k i b : Kept (mkState p a t d) -> d k = DSignal i b -> Kept (mkState p a (upd i (signalled (t i)) t) (upd k (then_create b) d)).
Proof.
  intros [K1 K2 K3 K4 K5 K6 K7 K8 K9 K10] Hk. cbn in *.
  assert (forall j, avail (upd i (signalled (t i)) t j) = avail (t j)) as Ha by (intros j; upd_case j; [by destruct (t i)|done]).
  assert (forall c j, then_create b <> DPopped c j) as Hp by (by destruct b). assert (forall j, then_create b <> DInit j) as Hi by (by destruct b).
  split; cbn; try done.
  - intros j. rewrite Ha. apply K2.
  - intros k' c j. rewrite Ha. upd_case k'; [intros E; by destruct (Hp _ _ E)|apply K3].
  - intros k1 k2 c1 c2 j. upd_case k1; [intros E; by destruct (Hp _ _ E)|]. upd_case k2; [intros _ E; by destruct (Hp _ _ E)|apply K4].
  - intros j. upd_case j; [|apply K5]. specialize (K5 i). by destruct (t i).
  - intros j. rewrite Ha. intros H1 H2. destruct (K6 j H1 H2) as [?|(k' & c' & E)]; [by left|right]. exists k', c'. rewrite upd_ne; [done|congruence].
  - intros j n c. upd_case j; [by destruct (t i)|]. intros H1 H2. destruct (K7 j n c H1 H2) as (k' & b' & E). exists k', b'. rewrite upd_ne; [done|]. intros ->. congruence.
  - intros j Hf. specialize (K8 j Hf). upd_case j; [by rewrite K8|done].
  - intros k' j. upd_case k'; [intros E; by destruct (Hi _ E)|]. intros E. destruct (K9 _ _ E) as [? E']. split; [done|]. upd_case j; [by rewrite E'|done].
  - intros k1 k2 j. upd_case k1; [intros E; by destruct (Hi _ E)|]. upd_case k2; [intros _ E; by destruct (Hi _ E)|apply K10].
Qed.

Lemma slot_kept p a t d k i : Kept (mkState p a t d) -> d k = DSlot -> find_slot max a = Some i ->
  Kept (mkState p (upd i (set_state connThread_initial (a i)) a) t (upd k (DInit i) d)).
Proof.
  intros [K1 K2 K3 K4 K5 K6 K7 K8 K9 K10] Hk Hs. cbn in *. apply List.find_some in Hs as [_ Hs%bool_decide_eq_true_1].
  assert (forall j, connPtr (upd i (set_state connThread_initial (a i)) a j) = connPtr (a j)) as Hc by (intros j; by upd_case j).
  assert (forall k', d k' <> DInit i) as Hd by (intros k' E; destruct (K9 _ _ E); congruence).
  split; cbn; try done.
  - intros j. rewrite Hc. apply K2.
  - intros k' c j. rewrite Hc. upd_case k'; [done|apply K3].
  - intros k1 k2 c1 c2 j. upd_case k1; [done|]. upd_case k2; [done|apply K4].
  - intros j. rewrite Hc. apply K5.
  - intros j. rewrite Hc. intros H1 H2. destruct (K6 j H1 H2) as [?|(k' & c' & E)]; [by left|right]. exists k', c'. rewrite upd_ne; [done|congruence].
  - intros j n c. rewrite Hc. intros H1 H2. destruct (K7 j n c H1 H2) as (k' & b' & E). exists k', b'. rewrite upd_ne; [done|congruence].
  - intros j. upd_case j; [done|apply K8].
  - intros k' j. upd_case k'; [intros [= <-]; rewrite upd_eq; split; [done|by apply K8]|]. intros E. destruct (K9 _ _ E) as [? ?]. by upd_case j.
  - intros k1 k2 j. upd_case k1; upd_case k2; try done; [intros [= <-] E; by destruct (Hd _ E)|intros E [= <-]; by destruct (Hd _ E)|apply K10].
Qed.

Lemma init_kept p a t d k i : Kept (mkState p a t d) -> d k = DInit i -> Kept (mkState p (upd i (set_conn None (a i)) a) (upd i Starting t) (upd k DIdle d)).
Proof.
  intros [K1 K2 K3 K4 K5 K6 K7 K8 K9 K10] Hk. cbn in *. destruct (K9 _ _ Hk) as [Hst Ht].
  assert (i ∉ tqueue p) as Hi by (intros Hi; destruct (K2 i Hi) as [E _]; by rewrite Ht in E).
  assert (forall k' c, d k' <> DPopped c i) as Hd by (intros k' c E; destruct (K3 _ _ _ E) as (E' & _); by rewrite Ht in E').
  split; cbn; try done.
  - intros j Hj. assert (j <> i) by congruence. rewrite !upd_ne by done. by apply K2.
  - intros k' c j. upd_case k'; [done|]. intros E. assert (j <> i) by (intros ->; by apply (Hd k' c)). rewrite !upd_ne by done. by apply (K3 k' c).
  - intros k1 k2 c1 c2 j. upd_case k1; [done|]. upd_case k2; [done|apply K4].
  - intros j. destruct (decide (j = i)) as [->|Hne]; [by rewrite !upd_eq|rewrite !upd_ne by done; apply K5].
  - intros j. destruct (decide (j = i)) as [->|Hne]; [by rewrite !upd_eq|rewrite !(upd_ne i) by done]. intros H1 H2. destruct (K6 j H1 H2) as [?|(k' & c' & E)]; [by left|right]. exists k', c'. rewrite upd_ne; [done|congruence].
  - intros j n c. destruct (decide (j = i)) as [->|Hne]; [by rewrite !upd_eq|rewrite !(upd_ne i) by done]. intros H1 H2. destruct (K7 j n c H1 H2) as (k' & b' & E). exists k', b'. rewrite upd_ne; [done|congruence].
  - intros j. destruct (decide (j = i)) as [->|Hne]; [rewrite !upd_eq; cbn; congruence|rewrite !upd_ne by done; apply K8].
  - intros k' j. upd_case k'; [done|]. intros E. assert (j <> i) by (intros ->; by pose proof (K10 _ _ _ Hk E)). rewrite !upd_ne by done. by apply (K9 k').
  - intros k1 k2 j. upd_case k1; [done|]. upd_case k2; [done|apply K10].
Qed.

Lemma idle_kept p a t d i n : Kept (mkState p a t d) -> t i = GoIdle n ->
  Kept (mkState (set_tqueue (i :: tqueue p) p) (upd i (set_state connThread_idle (a i)) a) (upd i (Waiting n) t) d).
Proof.
  intros [K1 K2 K3 K4 K5 K6 K7 K8 K9 K10] Ht. cbn in *. assert (connPtr (a i) = None) as Hc by (specialize (K5 i); by rewrite Ht in K5).
  assert (i ∉ tqueue p) as Hi by (intros Hi; destruct (K2 i Hi) as [E _]; by rewrite Ht in E).
  assert (forall k' c, d k' <> DPopped c i) as Hd by (intros k' c E; destruct (K3 _ _ _ E) as (E' & _); by rewrite Ht in E').
  split; cbn; try done.
  - by apply NoDup_cons.
  - intros j. rewrite elem_of_cons. destruct (decide (j = i)) as [->|Hne]; [by rewrite !upd_eq|]. rewrite !upd_ne by done. intros [?|?]; [done|by apply K2].
  - intros k' c j E. assert (j <> i) by (intros ->; by apply (Hd k' c)). rewrite !upd_ne by done. destruct (K3 _ _ _ E) as (? & ? & ?). split_and!; [done|done|]. by rewrite not_elem_of_cons.
  - intros j. destruct (decide (j = i)) as [->|Hne]; [by rewrite !upd_eq|rewrite !upd_ne by done; apply K5].
  - intros j. rewrite elem_of_cons. destruct (decide (j = i)) as [->|Hne]; [by left; left|rewrite !upd_ne by done]. intros H1 H2. destruct (K6 j H1 H2); auto.
  - intros j n' c. destruct (decide (j = i)) as [->|Hne]; [rewrite !upd_eq; cbn; congruence|rewrite !upd_ne by done; apply K7].
  - intros j. destruct (decide (j = i)) as [->|Hne]; [by rewrite !upd_eq|rewrite !upd_ne by done; apply K8].
  - intros k' j E. destruct (K9 _ _ E) as [? E']. assert (j <> i) by congruence. by rewrite !upd_ne.
Qed.

(** A thread on the stack wakes up, or waits again. *)
Lemma wake_kept p a t d i x : Kept (mkState p a t d) -> avail (t i) = true -> avail x = true -> (forall n, x = Waiting n -> connPtr (a i) = None) ->
  Kept (mkState p a (upd i x t) d).
Proof.
  intros [K1 K2 K3 K4 K5 K6 K7 K8 K9 K10] Ht Hx Hn. cbn in *.
  assert (forall j, avail (upd i x t j) = avail (t j)) as Ha by (intros j; upd_case j; congruence).
  split; cbn; try done.
  - intros j. rewrite Ha. apply K2.
  - intros k' c j. rewrite Ha. apply K3.
  - intros j. upd_case j; [by destruct x|apply K5].
  - intros j. rewrite Ha. apply K6.
  - intros j n c. upd_case j; [intros ->; by rewrite (Hn n)|apply K7].
  - intros j Hf. specialize (K8 j Hf). upd_case j; [by rewrite K8 in Ht|done].
  - intros k' j E. destruct (K9 _ _ E) as [? E']. split; [done|]. upd_case j; [by rewrite E' in Ht|done].
Qed.

(** The slot is not changed. *)
Lemma kept_args p a a' t d : (forall j, a' j = a j) -> Kept (mkState p a' t d) -> Kept (mkState p a t d).
Proof.
  intros E [K1 K2 K3 K4 K5 K6 K7 K8 K9 K10]. split; cbn in *; try done; intros; rewrite <- ?E in *; eauto.
Qed.

Lemma upd_id {A} i (f : nat -> A) j : upd i (f i) f j = f j.
Proof. by upd_case j. Qed.

Lemma kept_pc p p' a t d i x : Kept (mkState p a t d) -> tqueue p' = tqueue p -> avail (t i) = false \/ connPtr (a i) <> None -> t i <> NoThread ->
  avail x = false -> slot_ok x (connPtr (a i)) -> x <> NoThread -> Kept (mkState p' a (upd i x t) d).
Proof.
  intros HK Ep Hav Ht Hx Hs Hn. apply (kept_args _ _ (upd i (a i) a)); [apply upd_id|]. eapply kept_thread; [done..|]. intros E. pose proof (k_free _ HK i E). done.
Qed.

Lemma after_request_pc p n : avail (after_request lowwatermark connsperthread p n) = false /\ after_request lowwatermark connsperthread p n <> NoThread /\
  forall c, slot_ok (after_request lowwatermark connsperthread p n) c <-> c = None.
Proof. unfold after_request. repeat case_match; done. Qed.

Lemma step_kept s s' : step min max lowwatermark highwatermark connsperthread false s s' -> Kept s -> Kept s'.
Proof.
  destruct 1; intros HK; try done; pose proof (k_slot _ HK) as K5; cbn in K5.
  - eapply kept_driver; [done|done|by rewrite H|done].
  - by eapply pop_kept.
  - eapply kept_driver; [done|done|by rewrite H|done].
  - by eapply assign_kept.
  - by eapply signal_kept.
  - eapply kept_driver; [done|done|by rewrite H|by destruct (neededAdditionalConnectionThreads _ _ _ _ _)].
  - eapply kept_driver; [done|done|by rewrite H|done].
  - eapply kept_driver; [done|done|by rewrite H|done].
  - by eapply slot_kept.
  - eapply kept_driver; [done|done|by rewrite H|done].
  - by eapply init_kept.
  - specialize (K5 i). rewrite H in K5. eapply kept_thread; [done|done|left; by rewrite H|by rewrite H|done|done|done].
  - specialize (K5 i). rewrite H in K5. eapply kept_pc; [done|done|left; by rewrite H|by rewrite H|done|done|done].
  - specialize (K5 i). rewrite H in K5. eapply kept_thread; [done|done|left; by rewrite H|by rewrite H|done|done|done].
  - eapply kept_thread; [done|done|left; by rewrite H|by rewrite H|done|done|]. intros E. cbn in E. pose proof (k_free _ HK i E) as E'. cbn in E'. congruence.
  - specialize (K5 i). rewrite H in K5. cbn in K5. rewrite K5. eapply kept_pc; [done|done|left; by rewrite H|by rewrite H|done|done|done].
  - eapply kept_thread; [done|done|left; by rewrite H|by rewrite H|done|done|]. intros E. cbn in E. pose proof (k_free _ HK i E) as E'. cbn in E'. congruence.
  - by eapply idle_kept.
  - eapply wake_kept; [done|by rewrite H|done|done].
  - destruct (connPtr (a i)) as [c|] eqn:Ec.
    + eapply kept_pc; [done|done|right; by rewrite Ec|by rewrite H|done|cbn; by rewrite Ec|done].
    + eapply wake_kept; [done|by rewrite H|done|done].
  - eapply kept_thread; [done|done|left; by rewrite H|by rewrite H|done|done|done].
  - specialize (K5 i). by rewrite H in K5.
  - eapply kept_thread; [done|done|left; by rewrite H|by rewrite H|done|done|done].
  - specialize (K5 i). rewrite H in K5. destruct (after_request_pc p n) as (H1 & H2 & H3). eapply kept_pc; [done|done|left; by rewrite H|by rewrite H|done|by apply H3|done].
  - specialize (K5 i). rewrite H in K5. eapply kept_thread; [done|done|left; by rewrite H|by rewrite H|done|done|done].
  - specialize (K5 i). rewrite H in K5. eapply kept_thread; [done|done|left; by rewrite H|by rewrite H|done|done|done].
Qed.

Lemma reachable_kept maxconns s : reachable min max lowwatermark highwatermark connsperthread false maxconns s -> Kept s.
Proof.
  induction 1 as [|s s' _ IH Hs]; [|by eapply step_kept]. split; cbn; try done; try (intros i; destruct (Z.of_nat i <? min); done); [apply NoDup_nil_2|by intros i ?%elem_of_nil].
Qed.

(** No connection is lost. *)
Definition somewhere (s : State) (c : nat) : Prop := exists q, at_place s c q.

(** Everything stays where it is. *)
Lemma somewhere_stay p p' a a' t t' d d' c : (forall x, x ∈ freePtr p -> x ∈ freePtr p') -> (forall x, x ∈ wait p -> x ∈ wait p') ->
  (forall k, carried (d k) = Some c -> carried (d' k) = Some c) -> (forall i, connPtr (a i) = Some c -> connPtr (a' i) = Some c \/ served (t' i) = Some c) ->
  (forall i, served (t i) = Some c -> connPtr (a' i) = Some c \/ served (t' i) = Some c) -> somewhere (mkState p a t d) c -> somewhere (mkState p' a' t' d') c.
Proof.
  intros Hf Hw Hd Ha Ht [[| |k|i] Hq]; cbn in Hq; [exists PFree|exists PWait|exists (PDriver k)|exists (PThread i)]; cbn; auto. destruct Hq; auto.
Qed.

Ltac upd_all j := repeat (upd_case j); cbn in *.

Lemma step_somewhere s s' c0 : step min max lowwatermark highwatermark connsperthread false s s' -> Kept s -> somewhere s c0 -> somewhere s' c0.
Proof.
  destruct 1; intros HK; try done; pose proof (k_slot _ HK) as K5; cbn in K5.
  - (* take *) destruct (decide (c = c0)) as [->|Hne]; [intros _; exists (PDriver k); cbn; by rewrite upd_eq|].
    intros [[| |k'|i'] Hq]; cbn in Hq; [exists PFree|exists PWait|exists (PDriver k')|exists (PThread i')]; cbn; try done; [rewrite H0 in Hq; set_solver|]. upd_case k'; [by rewrite H in Hq|done].
  - apply somewhere_stay; cbn; auto. intros k'. upd_case k'; [by rewrite H|done].
  - apply somewhere_stay; cbn; auto. intros k'. upd_case k'; [by rewrite H|done].
  - (* assign *) destruct (decide (c = c0)) as [->|Hne]; [intros _; exists (PThread i); cbn; left; by rewrite upd_eq|].
    destruct (k_popped _ HK _ _ _ H) as (_ & Hc & _). cbn in Hc.
    apply somewhere_stay; cbn; auto.
    + intros k'. upd_case k'; [rewrite H; cbn; congruence|done].
    + intros i'. upd_case i'; [congruence|auto].
  - apply somewhere_stay; cbn; auto; [intros k'; upd_case k'; [by rewrite H|done]|]. intros i'. upd_case i'; [destruct (t i); auto|auto].
  - (* queue *) destruct (decide (c = c0)) as [->|Hne]; [intros _; exists PWait; cbn; set_solver|].
    apply somewhere_stay; cbn; auto; [set_solver|]. intros k'. upd_case k'; [rewrite H; cbn; congruence|done].
  - apply somewhere_stay; cbn; auto. intros k'. upd_case k'; [by rewrite H|done].
  - apply somewhere_stay; cbn; auto. intros k'. upd_case k'; [by rewrite H|done].
  - apply somewhere_stay; cbn; auto; [intros k'; upd_case k'; [by rewrite H|done]|..]; intros i'; upd_case i'; auto.
  - apply somewhere_stay; cbn; auto. intros k'. upd_case k'; [by rewrite H|done].
  - destruct (k_init _ HK _ _ H) as [_ Ht]. cbn in Ht. specialize (K5 i). rewrite Ht in K5. cbn in K5.
    apply somewhere_stay; cbn; auto; [intros k'; upd_case k'; [by rewrite H|done]|..]; intros i'; (destruct (decide (i' = i)) as [->|Hne]; [rewrite ?upd_eq, ?K5, ?Ht; done|rewrite !upd_ne by done; auto]).
  - apply somewhere_stay; cbn; auto; intros i'; (destruct (decide (i' = i)) as [->|Hne]; [rewrite ?upd_eq, ?H; cbn; auto; done|rewrite !upd_ne by done; auto]).
  - apply somewhere_stay; cbn; auto. intros i'. upd_case i'; [by rewrite H|auto].
  - apply somewhere_stay; cbn; auto; intros i'; (destruct (decide (i' = i)) as [->|Hne]; [rewrite ?upd_eq, ?H; cbn; auto; done|rewrite !upd_ne by done; auto]).
  - (* dequeue *) specialize (K5 i). rewrite H in K5. cbn in K5. destruct (decide (c = c0)) as [->|Hne]; [intros _; exists (PThread i); cbn; right; by rewrite upd_eq|].
    intros [[| |k'|i'] Hq]; cbn in Hq; [exists PFree|exists PWait|exists (PDriver k')|exists (PThread i')]; cbn; try done; [rewrite H0 in Hq; set_solver|].
    destruct (decide (i' = i)) as [->|Hni]; [rewrite K5, H in Hq; by destruct Hq|by rewrite !upd_ne].
  - specialize (K5 i). rewrite H in K5. cbn in K5. rewrite K5. apply somewhere_stay; cbn; auto. intros i'. upd_case i'; [by rewrite H|auto].
  - specialize (K5 i). rewrite H in K5. cbn in K5. apply somewhere_stay; cbn; auto; intros i'; (destruct (decide (i' = i)) as [->|Hne]; [rewrite ?upd_eq, ?H, ?K5; cbn; auto; done|rewrite !upd_ne by done; auto]).
  - apply somewhere_stay; cbn; auto; intros i'; (destruct (decide (i' = i)) as [->|Hne]; [rewrite ?upd_eq, ?H; cbn; auto; done|rewrite !upd_ne by done; auto]).
  - apply somewhere_stay; cbn; auto. intros i'. upd_case i'; [by rewrite H|auto].
  - apply somewhere_stay; cbn; auto. intros i'. upd_case i'; [by rewrite H|auto].
  - apply somewhere_stay; cbn; auto; intros i'; (destruct (decide (i' = i)) as [->|Hne]; [rewrite ?upd_eq, ?H; cbn; auto; done|rewrite !upd_ne by done; auto]).
  - specialize (K5 i). by rewrite H in K5.
  - specialize (K5 i). rewrite H in K5. cbn in K5. apply somewhere_stay; cbn; auto; intros i'; (destruct (decide (i' = i)) as [->|Hne]; [rewrite ?upd_eq, ?H, ?K5; cbn; auto|rewrite !upd_ne by done; auto]).
  - (* release *) destruct (decide (c = c0)) as [->|Hne]; [intros _; exists PFree; cbn; set_solver|]. specialize (K5 i). rewrite H in K5. cbn in K5.
    apply somewhere_stay; cbn; auto; [set_solver|]. intros i'. upd_case i'; [rewrite H; cbn; congruence|auto].
  - apply somewhere_stay; cbn; auto; intros i'; (destruct (decide (i' = i)) as [->|Hne]; [rewrite ?upd_eq, ?H; cbn; auto; done|rewrite !upd_ne by done; auto]).
  - apply somewhere_stay; cbn; auto; intros i'; (destruct (decide (i' = i)) as [->|Hne]; [rewrite ?upd_eq, ?H; cbn; auto; done|rewrite !upd_ne by done; auto]).
Qed.

Lemma reachable_somewhere maxconns s c : reachable min max lowwatermark highwatermark connsperthread false maxconns s -> (c < maxconns)%nat -> somewhere s c.
Proof.
  intros Hr Hc. induction Hr as [|s s' Hr IH Hs]; [exists PFree; cbn; apply elem_of_seq; lia|]. eapply step_somewhere; [done|by eapply reachable_kept|done].
Qed.
End kept.

(** ** Theorems *)

(** C16.  For any number of drivers and threads, any interleaving, and also with timeouts: a connection
    is in one place, on the free list, in the queue, with a driver or with a thread; so it is
    never used for another request while it is in use, and never run by two threads. *)
Theorem conn_exclusive min max low high cpt timed maxconns s : reachable min max low high cpt timed maxconns s ->
  NoDup (freePtr (pool s)) /\ NoDup (wait (pool s)) /\ (forall c q q', at_place s c q -> at_place s c q' -> q = q') /\
  (forall i j c n m, thr s i = Running c n -> thr s j = Running c m -> i = j /\ c ∉ freePtr (pool s) /\ c ∉ wait (pool s)).
Proof.
  intros Hr. destruct (reachable_unique _ _ _ _ _ _ _ _ Hr) as [Hf Hw Hu _]. split_and!; [done|done|done|]. intros i j c n m Hi Hj.
  assert (at_place s c (PThread i)) as Hc by (cbn; right; by rewrite Hi). split_and!.
  - assert (at_place s c (PThread j)) as Hc' by (cbn; right; by rewrite Hj). by injection (Hu c _ _ Hc Hc').
  - intros Hin. by pose proof (Hu c PFree _ Hin Hc).
  - intros Hin. by pose proof (Hu c PWait _ Hin Hc).
Qed.

(** C17.  When threads wait without a timeout, nothing is lost between drivers and threads: every
    connection is somewhere, a thread that waits with a connection in its slot is about to be
    signalled, one that waits without is on the stack or was just taken off it, and a thread
    never ends with a connection in its slot. *)
Theorem requests_kept min max low high cpt maxconns s : reachable min max low high cpt false maxconns s ->
  (forall c, (c < maxconns)%nat -> exists q, at_place s c q) /\
  (forall i n c, thr s i = Waiting n -> connPtr (args s i) = Some c -> exists k b, drv s k = DSignal i b) /\
  (forall i, avail (thr s i) = true -> connPtr (args s i) = None -> i ∈ tqueue (pool s) \/ exists k c, drv s k = DPopped c i) /\
  (forall i, thr s i = Exiting \/ thr s i = Ending \/ thr s i = NoThread -> connPtr (args s i) = None).
Proof.
  intros Hr. pose proof (reachable_kept _ _ _ _ _ _ _ Hr) as HK. split_and!.
  - intros c Hc. by eapply reachable_somewhere.
  - apply (k_signal _ HK).
  - apply (k_avail _ HK).
  - intros i Hi. pose proof (k_slot _ HK i) as Hs. by destruct Hi as [E|[E|E]]; rewrite E in Hs.
Qed.

(** One more step of a run. *)
Ltac go R tac := let H := fresh in eassert (reachable _ _ _ _ _ _ _ _) as H; [eapply reach_step; [exact R|tac]|]; clear R; rename H into R; cbn in R.

(** C34.  A thread whose wait has timed out ends even when a driver has given it a connection before it
    could take itself off the stack: there are runs in which a request is lost, and its connection
    with it, with all drivers done. *)
Theorem request_lost : exists s, reachable 1 2 0 0 0 true 3 s /\ (forall k, drv s k = DIdle) /\ ~ exists q, at_place s 1 q.
Proof.
  pose proof (reach_init 1 2 0 0 0 true 3) as R.
  go R ltac:(eapply (step_warmup _ _ _ _ _ _ _ _ _ _ 0); reflexivity).
  go R ltac:(eapply (step_counted _ _ _ _ _ _ _ _ _ _ 0); reflexivity).
  go R ltac:(eapply (step_start _ _ _ _ _ _ _ _ _ _ 0); reflexivity).
  go R ltac:(eapply (step_take _ _ _ _ _ _ _ _ _ _ 0); reflexivity).
  go R ltac:(eapply (step_no_thread _ _ _ _ _ _ _ _ _ _ 0); reflexivity).
  go R ltac:(eapply (step_queue _ _ _ _ _ _ _ _ _ _ 0); reflexivity).
  go R ltac:(eapply (step_count _ _ _ _ _ _ _ _ _ _ 0); reflexivity).
  go R ltac:(eapply (step_slot _ _ _ _ _ _ _ _ _ _ 0); reflexivity).
  go R ltac:(eapply (step_init _ _ _ _ _ _ _ _ _ _ 0); reflexivity).
  go R ltac:(eapply (step_warmup _ _ _ _ _ _ _ _ _ _ 1); reflexivity).
  go R ltac:(eapply (step_counted _ _ _ _ _ _ _ _ _ _ 1); reflexivity).
  go R ltac:(eapply (step_start _ _ _ _ _ _ _ _ _ _ 1); reflexivity).
  go R ltac:(eapply (step_dequeue _ _ _ _ _ _ _ _ _ _ 0); reflexivity).
  go R ltac:(eapply (step_nothing _ _ _ _ _ _ _ _ _ _ 1); reflexivity).
  go R ltac:(eapply (step_idle _ _ _ _ _ _ _ _ _ _ 1); reflexivity).
  go R ltac:(eapply (step_timeout _ _ _ _ _ _ _ _ _ _ 1); [reflexivity|left; reflexivity]).
  go R ltac:(eapply (step_take _ _ _ _ _ _ _ _ _ _ 0); reflexivity).
  go R ltac:(eapply (step_pop _ _ _ _ _ _ _ _ _ _ 0); reflexivity).
  go R ltac:(eapply (step_assign _ _ _ _ _ _ _ _ _ _ 0); reflexivity).
  go R ltac:(eapply (step_signal _ _ _ _ _ _ _ _ _ _ 0); reflexivity).
  go R ltac:(eapply (step_gone _ _ _ _ _ _ _ _ _ _ 1); reflexivity).
  go R ltac:(eapply (step_exit _ _ _ _ _ _ _ _ _ _ 1); reflexivity).
  go R ltac:(eapply (step_ended _ _ _ _ _ _ _ _ _ _ 1); reflexivity).
  go R ltac:(eapply (step_done _ _ _ _ _ _ _ _ _ _ 0); reflexivity).
  go R ltac:(eapply (step_release _ _ _ _ _ _ _ _ _ _ 0); reflexivity).
  go R ltac:(eapply (step_take _ _ _ _ _ _ _ _ _ _ 0); reflexivity).
  go R ltac:(eapply (step_no_thread _ _ _ _ _ _ _ _ _ _ 0); reflexivity).
  go R ltac:(eapply (step_queue _ _ _ _ _ _ _ _ _ _ 0); reflexivity).
  go R ltac:(eapply (step_count _ _ _ _ _ _ _ _ _ _ 0); reflexivity).
  go R ltac:(eapply (step_slot _ _ _ _ _ _ _ _ _ _ 0); reflexivity).
  go R ltac:(eapply (step_init _ _ _ _ _ _ _ _ _ _ 0); reflexivity).
  eexists. split; [exact R|]. split; [intros [|k]; reflexivity|]. intros [[| |k|i] Hq].
  - vm_compute in Hq. apply list_elem_of_In in Hq. cbn in Hq. lia.
  - vm_compute in Hq. apply list_elem_of_In in Hq. cbn in Hq. lia.
  - by destruct k.
  - destruct i as [|[|i]]; cbn in Hq; [by destruct Hq|by destruct Hq|].
    by destruct (Z.of_nat (S (S i)) <? 1); destruct Hq.
Qed.

(** A request is in the queue, the only thread waits for a driver, and no driver is at work. *)
Record Stuck (s : State) : Prop := {
  st_wait : wait (pool s) = [0%nat];
  st_thread : avail (thr s 0%nat) = true;
  st_slot : connPtr (args s 0%nat) = None;
  st_others : forall i, i <> 0%nat -> thr s i = NoThread;
  st_drivers : forall k, drv s k = DIdle;
  st_current : current (pool s) = 1
}.

Lemma stuck_step s s' : step 1 10 9 72 10000 true s s' -> (forall k, drv s' k = DIdle) -> Stuck s -> Stuck s'.
Proof.
  intros Hs Hq [Sw St Ss So Sd Sc]. assert (forall t i x, (forall i, i <> 0%nat -> t i = NoThread) -> t i = x -> x <> NoThread -> i = 0%nat) as Hi.
  { intros t i x Ht E Hx. destruct (decide (i = 0%nat)) as [|Hne]; [done|]. rewrite Ht in E by done. congruence. }
  destruct Hs; cbn in *;
    try (match goal with H : ?d ?k = _, Sd : forall k, ?d k = DIdle |- _ => rewrite (Sd k) in H; by inversion H end);
    try (match goal with H : ?t ?i = ?x, So : forall i, i <> 0%nat -> ?t i = NoThread |- _ => pose proof (Hi t i x So H ltac:(done)) as ->; try (by rewrite H in St) end).
  - specialize (Hq k). by rewrite upd_eq in Hq.
  - split; cbn; try done. intros j Hj. rewrite upd_ne by done. by apply So.
  - rewrite Ss. split; cbn; try done. intros j Hj. rewrite upd_ne by done. by apply So.
  - assert (i = 0%nat) as -> by (destruct (decide (i = 0%nat)); [done|match goal with H : _ \/ _ |- _ => rewrite So in H by done; by destruct H end]).
    rewrite Ss, Sc. split; cbn; try done. intros j Hj. rewrite upd_ne by done. by apply So.
Qed.

(** A driver that finds no idle thread and appends a request to the queue does not notice a thread
    that has found the queue empty in the meantime and goes to wait: with the default settings
    there are runs after which a request waits in the queue, although a thread is idle, and stays
    there, whatever the threads do, also when they time out, until another request arrives. *)
Theorem request_stuck : exists s, reachable 1 10 9 72 10000 true 100 s /\ Stuck s /\
  forall s', rtc (fun x y => step 1 10 9 72 10000 true x y /\ forall k, drv y k = DIdle) s s' -> Stuck s'.
Proof.
  assert (exists s, reachable 1 10 9 72 10000 true 100 s /\ Stuck s) as (s & Hr & Hs).
  { pose proof (reach_init 1 10 9 72 10000 true 100) as R.
    go R ltac:(eapply (step_warmup _ _ _ _ _ _ _ _ _ _ 0); reflexivity).
    go R ltac:(eapply (step_counted _ _ _ _ _ _ _ _ _ _ 0); reflexivity).
    go R ltac:(eapply (step_start _ _ _ _ _ _ _ _ _ _ 0); reflexivity).
    go R ltac:(eapply (step_take _ _ _ _ _ _ _ _ _ _ 0); reflexivity).
    go R ltac:(eapply (step_nothing _ _ _ _ _ _ _ _ _ _ 0); reflexivity).
    go R ltac:(eapply (step_no_thread _ _ _ _ _ _ _ _ _ _ 0); reflexivity).
    go R ltac:(eapply (step_idle _ _ _ _ _ _ _ _ _ _ 0); reflexivity).
    go R ltac:(eapply (step_queue _ _ _ _ _ _ _ _ _ _ 0); reflexivity).
    eexists. split; [exact R|]. split; [reflexivity|reflexivity|reflexivity| |intros [|k]; reflexivity|reflexivity].
    intros [|i] Hi; [done|]. cbn [thr]. rewrite !upd_ne by done. cbn [thr started]. by rewrite (proj2 (Z.ltb_ge _ _)) by lia. }
  exists s. split; [done|]. split; [done|]. intros s' Hrtc. induction Hrtc as [x|x y z [Hxy Hq] _ IH]; [done|]. apply IH; [by eapply reach_step|]. by eapply stuck_step.
Qed.

(** ** Witnesses *)

Lemma conn_exclusive_witness : NoDup (freePtr (pool (started 1 100))) /\ exists s, reachable 1 10 9 72 10000 true 100 s /\ forall c q q', at_place s c q -> at_place s c q' -> q = q'.
Proof.
  split; [apply (conn_exclusive 1 10 9 72 10000 true 100 (started 1 100)); constructor|].
  exists (started 1 100). split; [constructor|]. apply (conn_exclusive 1 10 9 72 10000 true 100 (started 1 100)). constructor.
Defined.

Lemma requests_kept_witness : exists q, at_place (started 1 100) 7 q.
Proof. apply (requests_kept 1 10 9 72 10000 100 (started 1 100)); [constructor|lia]. Defined.
