(* ===== verification/Adp.v ===== *)
(** * Adp: pages with embedded Tcl (nsd/adpparse.c, the execution of nsd/adpeval.c).

    A page is a C string [b]; pointers into it are positions, and an access behind its NUL is a
    [Fault].  The parser goes from one "<" to the next; it takes texts, scripts between "<%"
    and "%>", script elements and registered tags apart into blocks.  The members of
    [AdpCode] are the text of all blocks, their lengths, negative for scripts, and lines.  The
    NUL that the code puts behind an attribute for a while is written out as the end of the
    string it reads; the variables that a state of the parser uses are its arguments.

    Tcl's list elements ([Tcl_DStringAppendElement]) and case conversion ([Tcl_UtfToLower])
    are parameters. *)

From S2P Require Import Prelude.

(** ** C strings *)

(** [*p] *)
Definition at_ (b : list Z) (i : nat) : outcome Z :=
  match b !! i with Some c => Ret c | None => if (i =? length b)%nat then Ret 0 else Fault end.

Fixpoint prefix_len (p : Z -> bool) (l : list Z) : nat :=
  match l with c :: l => if p c then S (prefix_len p l) else O | [] => O end.

(** [while (p( *s)) s++], for a [p] that is false for NUL *)
Definition while_str (p : Z -> bool) (b : list Z) (s : nat) : nat := (s + prefix_len p (drop s b))%nat.

(** [while (s < e && p( *s)) s++] *)
Definition while_to (p : Z -> bool) (b : list Z) (s e : nat) : nat := (s + prefix_len p (drop s (take e b)))%nat.

(** The bytes from [s] up to [e]. *)
Definition slice (b : list Z) (s e : nat) : list Z := take (e - s) (drop s b).

Fixpoint find_str (w l : list Z) : option nat :=
  if bool_decide (take (length w) l = w) then Some O else match l with [] => None | _ :: l => S <$> find_str w l end.

(** [strstr], and [strchr] for a single character *)
Definition strstr (w : list Z) (b : list Z) (s : nat) : outcome (option nat) :=
  if (s <=? length b)%nat then Ret (Nat.add s <$> find_str w (drop s b)) else Fault.

Definition STRIEQ (a b : list Z) : bool := bool_decide (tolower <$> a = tolower <$> b).

Definition is_quote (c : Z) : bool := (c =? 34) || (c =? 39).

(** ** Data *)

Definition ADP_SAFE : Z := 0x1.
Definition ADP_SINGLE : Z := 0x2.
Definition ADP_CACHE : Z := 0x10.
Definition ADP_TCLFILE : Z := 0x10000.
Definition adp_flag (flags f : Z) : bool := negb (Z.land flags f =? 0).

Inductive TagType := TAG_ADP | TAG_PROC | TAG_SCRIPT.

Record Tag := mkTag { type : TagType; tag : list Z; endtag : option (list Z); content : list Z }.

Notation tag_table := (gmap (list Z) Tag).

(** [fallback]: whether the table of the server is used for tags that are not in the set. *)
Record AdpTagSet := mkTagSet { set_tags : tag_table; fallback : bool }.
Record AdpServer := mkServer { tags : tag_table; tagsets : gmap (list Z) AdpTagSet }.

Record AdpCode := mkCode { nblocks : nat; nscripts : nat; len : list Z; line : list Z; text : list Z }.
Record Parse := mkParse { codePtr : AdpCode; parse_line : Z; lengths : list Z; lines : list Z }.

Definition set_text (t : list Z) (c : AdpCode) : AdpCode := mkCode (nblocks c) (nscripts c) (len c) (line c) t.

Inductive TagParseState :=
| TagInlineCode
| TagNext
| TagScript (level : nat) (script : nat) (stream : bool)
| TagReg (level : nat) (tagPtr : Tag) (as_ ae : nat).

(** The types ["t"], ["s"] and ["S"] of blocks. *)
Inductive BlockType := BText | BScript | BAppend.

(** ** Names of tags *)

Definition TagValidFirstChar (c : Z) : bool :=
  ((97 <=? c) && (c <=? 122)) || ((65 <=? c) && (c <=? 90)) || ((48 <=? c) && (c <=? 57)).

Definition TagValidChar (c : Z) : bool :=
  ((97 <=? c) && (c <=? 122)) || ((65 <=? c) && (c <=? 90)) || ((48 <=? c) && (c <=? 57)) || (c =? 58) || (c =? 45) || (c =? 95).

Fixpoint validate_rest (t : list Z) : option Z :=
  match t with [] => None | c :: t => if TagValidChar c then validate_rest t else Some c end.

(** [None]: the name is valid; [Some c]: [c] is invalid, 0 for an empty name. *)
Definition TagNameValidate (t : list Z) : option Z :=
  match t with
  | [] => Some 0
  | c :: t => if TagValidFirstChar c then validate_rest t else Some c
  end.

(** ** The end of a tag *)

(** The attributes of a well-formed start tag; [None] is the jump to [legacy]. *)
Fixpoint tag_end_loop (fuel : nat) (b : list Z) (str : nat) : outcome (option nat) :=
  match fuel with
  | O => Fault
  | S fuel =>
      let str := while_str isspace b str in
      c ← at_ b str;
      if c =? 62 then Ret (Some str)
      else if negb (TagValidFirstChar c) then Ret None
      else
        let str := while_str isspace b (while_str TagValidChar b (str + 1)) in
        c ← at_ b str;
        if c =? 62 then Ret (Some str)
        else if negb (c =? 61) then Ret None
        else
          let str := while_str isspace b (str + 1) in
          c ← at_ b str;
          if is_quote c then
            let str := while_str (fun x => negb (x =? c)) b (str + 1) in
            x ← at_ b str;
            if x =? 0 then Ret None else tag_end_loop fuel b (str + 1)
          else if negb (TagValidFirstChar c) then Ret None
          else tag_end_loop fuel b (while_str TagValidChar b (str + 1))
  end.

Definition NsParseTagEnd (b : list Z) (startTagStr : nat) : outcome (option nat) :=
  c ← at_ b (startTagStr + 1);
  r ← (if negb (TagValidFirstChar c) then Ret None
       else
         let str := while_str TagValidChar b (startTagStr + 2) in
         c ← at_ b str;
         if negb (c =? 62) && negb (isspace c) then Ret None else tag_end_loop (S (length b)) b str);
  match r with Some str => Ret (Some str) | None => strstr [62] b startTagStr end.

(** ** Attributes *)

(** A name, its value, and whether it is not the name itself. *)
Notation attribute := (list Z * list Z * bool)%type.

(** The C string from [vs] on, when there is a NUL at [ve]. *)
Definition cut_string (b : list Z) (vs ve : nat) : list Z := if (vs <=? ve)%nat then slice b vs ve else drop vs b.

(** The first part of a round of [ParseAtts], from [as] on: where the name ends, and where it
    goes on. *)
Definition att_name (b : list Z) (as_ e : nat) : outcome (nat * nat) :=
  c ← at_ b as_;
  let ae := if is_quote c then S (while_to (fun x => negb (x =? c)) b (S as_) e)
            else while_to (fun x => negb (isspace x) && negb (x =? 61)) b as_ e in
  Ret (ae, while_to isspace b ae e).

(** Trimming spaces and quotes of a value behind the equal sign at [s]. *)
Definition att_value (b : list Z) (s e : nat) : outcome (nat * nat * nat) :=
  let vs := while_to isspace b (S s) e in
  c ← at_ b vs;
  let ve := if is_quote c then S (while_to (fun x => negb (x =? c)) b (S vs) e) else while_to (fun x => negb (isspace x)) b vs e in
  if ((c =? 61) || is_quote c) && (vs <? ve)%nat then
    x ← at_ b (ve - 1);
    if x =? c then Ret (S vs, (ve - 1)%nat, ve) else Ret (vs, ve, ve)
  else Ret (vs, ve, ve).

(** A round; [None] when there is no further attribute. *)
Definition parse_att (b : list Z) (s e : nat) : outcome (option (attribute * nat)) :=
  let as_ := while_to isspace b s e in
  if (as_ =? e)%nat then Ret None
  else
    '(ae, s) ← att_name b as_ e;
    c ← at_ b s;
    if negb (c =? 61) then
      _ ← at_ b ae;
      Ret (Some (cut_string b as_ ae, cut_string b as_ ae, false, s))
    else
      '(vs, ve, s) ← att_value b s e;
      _ ← at_ b ve; _ ← at_ b ae;
      Ret (Some (cut_string b as_ ae, cut_string b vs ve, true, s)).

Fixpoint att_loop (fuel : nat) (b : list Z) (s e : nat) : outcome (list attribute) :=
  if (s <? e)%nat then
    match fuel with
    | O => Fault
    | S fuel =>
        r ← parse_att b s e;
        match r with
        | None => Ret []
        | Some (a, s) => l ← att_loop fuel b s e; Ret (a :: l)
        end
    end
  else Ret [].

(** The attributes between [s] and [e] in order; what [ParseAtts] does with each of them follows. *)
Definition ParseAtts (b : list Z) (s e : nat) : outcome (list attribute) := att_loop (S e) b s e.

Definition has_att (name : string) (value : list Z -> bool) (a : attribute) : bool :=
  a.2 && STRIEQ a.1.1 (bytes name) && value a.1.2.

(** The flags SCRIPT_TAG_SERV_RUNAT, NOTTCL and STREAM. *)
Definition is_runat : attribute -> bool := has_att "runat" (fun v => STRIEQ v (bytes "server")).
Definition is_nottcl : attribute -> bool := has_att "language" (fun v => negb (STRIEQ v (bytes "tcl"))).
Definition is_stream : attribute -> bool := has_att "stream" (fun v => STRIEQ v (bytes "on")).

(** ** The parser *)

Definition no_code : AdpCode := mkCode 0 0 [] [] [].

Section parser.
Context (Tcl_UtfToLower : list Z -> list Z) (Tcl_DStringAppendElement : list Z -> list Z -> list Z).

Definition APPEND : list Z := bytes "ns_adp_append ".

Definition newlines (s : list Z) : Z := Z.of_nat (length (filter (fun c => c = 10) s)).

(** [s] are the bytes of the block. *)
Definition AppendBlock (p : Parse) (s : list Z) (ty : BlockType) (flags : Z) : Parse :=
  if bool_decide (s = []) then p
  else
    let c := codePtr p in
    if adp_flag flags ADP_SINGLE then
      let t := match ty with
               | BAppend => text c ++ APPEND ++ s
               | BText => Tcl_DStringAppendElement (text c ++ APPEND) s
               | BScript => text c ++ s
               end in
      mkParse (set_text (t ++ [10]) c) (parse_line p) (lengths p) (lines p)
    else
      let s' := match ty with BAppend => APPEND ++ s | _ => s end in
      let l := Z.of_nat (length s') in
      mkParse (mkCode (S (nblocks c)) (match ty with BText => nscripts c | _ => S (nscripts c) end) (len c) (line c) (text c ++ s'))
        (parse_line p + newlines s) (lengths p ++ [match ty with BText => l | _ => - l end]) (lines p ++ [parse_line p]).

(** The name of a tag in lower case, and where its attributes start. *)
Definition GetTag (b : list Z) (s e : nat) : list Z * nat :=
  let t := while_to isspace b (S s) e in
  let s := while_to (fun x => negb (isspace x) && negb (x =? 60)) b t e in
  (Tcl_UtfToLower (slice b t s), while_to isspace b s e).

(** [None]: not a script element for the server; otherwise whether it asks for streaming. *)
Definition GetScript (b : list Z) (name : list Z) (a e : nat) : outcome (option bool) :=
  if (a <? e)%nat && STRIEQ name (bytes "script") then
    atts ← ParseAtts b a e;
    Ret (if existsb is_runat atts && negb (existsb is_nottcl atts) then Some (existsb is_stream atts) else None)
  else Ret None.

Definition append_atts (names : bool) (atts : list attribute) (script : list Z) : list Z :=
  foldl (fun ds a => Tcl_DStringAppendElement (if names then Tcl_DStringAppendElement ds a.1.1 else ds) a.1.2) script atts.

(** [se] is the start of the closing tag. *)
Definition AppendTag (p : Parse) (t : Tag) (b : list Z) (as_ ae : nat) (se : option nat) (flags : Z) : outcome Parse :=
  let script := bytes "ns_adp_append [" in
  let script := match type t with TAG_ADP => script ++ bytes "ns_adp_parse -- " | _ => script end in
  let script := Tcl_DStringAppendElement script (content t) in
  script ← (match type t with TAG_PROC => atts ← ParseAtts b as_ ae; Ret (append_atts false atts script) | _ => Ret script end);
  let script := match se with
                | Some se => if (ae <? se)%nat then Tcl_DStringAppendElement script (slice b (ae + 1) se) else script
                | None => script
                end in
  script ← (match type t with
            | TAG_PROC => Ret script
            | _ => atts ← ParseAtts b as_ ae;
                   Ret (append_atts true atts (Tcl_DStringAppendElement (script ++ bytes " [ns_set create") (tag t)) ++ bytes "]")
            end);
  Ret (AppendBlock p (script ++ bytes "]") BScript flags).

(** The variables of [AdpParseAdp]. *)
Record Vars := mkVars { parse : Parse; state : TagParseState; adp : nat; text_at : nat; scriptStreamDone : bool }.

(** The search for the "%>" that belongs to the "<%" before [n]. *)
Fixpoint inline_end (fuel : nat) (b : list Z) (n e : nat) : outcome (option nat) :=
  match fuel with
  | O => Fault
  | S fuel =>
      r ← strstr [60; 37] b n;
      match r with
      | Some n =>
          if (n <? e)%nat then
            r ← strstr [37; 62] b (e + 2);
            match r with Some e => inline_end fuel b (n + 2) e | None => Ret None end
          else Ret (Some e)
      | None => Ret (Some e)
      end
  end.

(** The cases of the switch, at the "<" at [s]; [false] leaves the loop. *)
Definition inline_code (b : list Z) (flags : Z) (v : Vars) (s : nat) : outcome (bool * Vars) :=
  r ← strstr [37; 62] b s;
  match r with
  | None => Ret (false, v)
  | Some e =>
      r ← inline_end (S (length b)) b (s + 2) e;
      match r with
      | None =>
          let p := AppendBlock (parse v) (slice b (text_at v) (s + 2)) BText flags in
          Ret (true, mkVars p TagNext (s + 2) (s + 2) (scriptStreamDone v))
      | Some e =>
          let p := AppendBlock (parse v) (slice b (text_at v) s) BText flags in
          c ← at_ b (s + 2);
          let p := if adp_flag flags ADP_SAFE then p
                   else if negb (c =? 61) then AppendBlock p (slice b (s + 2) e) BScript flags
                   else AppendBlock p (slice b (s + 3) e) BAppend flags in
          Ret (true, mkVars p TagNext (e + 2) (e + 2) (scriptStreamDone v))
      end
  end.

(** A start tag, in the state [TagNext]; [find_tag] looks a tag up. *)
Definition start_tag (b : list Z) (find_tag : list Z -> option Tag) (flags : Z) (v : Vars) (s e : nat) : outcome (bool * Vars) :=
  let '(name, a) := GetTag b s e in
  let next := (s + length name + 1)%nat in
  r ← GetScript b name a e;
  match r with
  | Some stream =>
      let p := AppendBlock (parse v) (slice b (text_at v) s) BText flags in
      Ret (true, mkVars p (TagScript 1 (e + 1) stream) next (text_at v) (scriptStreamDone v))
  | None =>
      match find_tag name with
      | None => Ret (true, mkVars (parse v) TagNext next (text_at v) (scriptStreamDone v))
      | Some t =>
          let p := AppendBlock (parse v) (slice b (text_at v) s) BText flags in
          match endtag t with
          | None =>
              p ← AppendTag p t b a e None flags;
              Ret (true, mkVars p TagNext next (e + 1) (scriptStreamDone v))
          | Some _ => Ret (true, mkVars p (TagReg 1 t a e) next (text_at v) (scriptStreamDone v))
          end
      end
  end.

Definition tag_next (b : list Z) (find_tag : list Z -> option Tag) (flags : Z) (v : Vars) (s : nat) : outcome (bool * Vars) :=
  c ← at_ b (s + 1);
  inline ← (if c =? 37 then c ← at_ b (s + 2); Ret (negb (c =? 62)) else Ret false);
  if (inline : bool) then Ret (true, mkVars (parse v) TagInlineCode (adp v) (text_at v) (scriptStreamDone v))
  else if negb (TagValidFirstChar c) then Ret (true, mkVars (parse v) TagNext (s + 1) (text_at v) (scriptStreamDone v))
  else
    r ← NsParseTagEnd b s;
    match r with
    | None => Ret (false, v)
    | Some e => start_tag b find_tag flags v s e
    end.

(** The blocks of a script element that ends at [s]. *)
Definition script_blocks (b : list Z) (flags : Z) (v : Vars) (script s : nat) (stream : bool) : Parse * bool :=
  if adp_flag flags ADP_SAFE then (parse v, scriptStreamDone v)
  else
    let '(p, streamed) := if stream && negb (scriptStreamDone v) then (AppendBlock (parse v) (bytes "ns_adp_ctl stream on") BScript flags, true)
                          else (parse v, scriptStreamDone v) in
    (AppendBlock p (slice b script s) BScript flags, streamed).

Definition in_script (b : list Z) (flags : Z) (v : Vars) (level script : nat) (stream : bool) (s : nat) : outcome (bool * Vars) :=
  r ← strstr [62] b s;
  match r with
  | None => Ret (false, v)
  | Some e =>
      let name := (GetTag b s e).1 in
      let next := (s + length name + 1)%nat in
      if bool_decide (name = bytes "script") then Ret (true, mkVars (parse v) (TagScript (S level) script stream) next (text_at v) (scriptStreamDone v))
      else if bool_decide (name = bytes "/script") then
        if (level - 1 =? 0)%nat then
          let '(p, streamed) := script_blocks b flags v script s stream in
          Ret (true, mkVars p TagNext next (e + 1) streamed)
        else Ret (true, mkVars (parse v) (TagScript (level - 1) script stream) next (text_at v) (scriptStreamDone v))
      else Ret (true, mkVars (parse v) (state v) next (text_at v) (scriptStreamDone v))
  end.

Definition in_registered (b : list Z) (flags : Z) (v : Vars) (level : nat) (t : Tag) (as_ ae s : nat) : outcome (bool * Vars) :=
  r ← strstr [62] b s;
  match r with
  | None => Ret (false, v)
  | Some e =>
      let name := (GetTag b s e).1 in
      if bool_decide (name = tag t) then Ret (true, mkVars (parse v) (TagReg (S level) t as_ ae) (s + length name + 1) (text_at v) (scriptStreamDone v))
      else if bool_decide (Some name = endtag t) then
        if (level - 1 =? 0)%nat then
          p ← AppendTag (parse v) t b as_ ae (Some s) flags;
          Ret (true, mkVars p TagNext (s + length name + 2) (e + 1) (scriptStreamDone v))
        else Ret (true, mkVars (parse v) (TagReg (level - 1) t as_ ae) (s + length name + 2) (text_at v) (scriptStreamDone v))
      else Ret (true, mkVars (parse v) (state v) (s + 1) (text_at v) (scriptStreamDone v))
  end.

Definition adp_step (b : list Z) (find_tag : list Z -> option Tag) (flags : Z) (v : Vars) : outcome (bool * Vars) :=
  r ← strstr [60] b (adp v);
  match r with
  | None => Ret (false, v)
  | Some s =>
      match state v with
      | TagInlineCode => inline_code b flags v s
      | TagNext => tag_next b find_tag flags v s
      | TagScript level script stream => in_script b flags v level script stream s
      | TagReg level t as_ ae => in_registered b flags v level t as_ ae s
      end
  end.

Fixpoint adp_loop (fuel : nat) (b : list Z) (find_tag : list Z -> option Tag) (flags : Z) (v : Vars) : outcome Vars :=
  match fuel with
  | O => Fault
  | S fuel =>
      '(go, v) ← adp_step b find_tag flags v;
      if (go : bool) then adp_loop fuel b find_tag flags v else Ret v
  end.

(** The arrays behind the text; [n] is the number of elements provided. *)
Definition AppendLengths (c : AdpCode) (ls lns : list Z) : AdpCode :=
  mkCode (nblocks c) (nscripts c) (take (nblocks c) ls) (take (nblocks c) lns) (text c).

Definition AdpParseAdp (b : list Z) (find_tag : list Z -> option Tag) (flags : Z) : outcome AdpCode :=
  v ← adp_loop (2 * length b + 2) b find_tag flags (mkVars (mkParse no_code 0 [] []) TagNext 0 0 false);
  _ ← at_ b (text_at v);
  let p := AppendBlock (parse v) (drop (text_at v) b) BText flags in
  let c := codePtr p in
  Ret (if adp_flag flags ADP_SINGLE then AppendLengths (mkCode 1 1 (len c) (line c) (text c)) [- Z.of_nat (length (text c))] [0]
       else AppendLengths c (lengths p) (lines p)).

Definition AdpParseTclFile (adp : list Z) (flags : Z) (file : list Z) : AdpCode :=
  let t := if negb (adp_flag flags ADP_CACHE) then adp
           else bytes "ns_adp_append {<%if {[info proc adp:" ++ file ++ bytes "] == {}} {  proc adp:" ++ file ++ bytes " {} { uplevel [for {"
                ++ adp ++ bytes "} {0} {} {}]}}" ++ [10] ++ bytes "adp:" ++ file ++ bytes " %>}" in
  AppendLengths (mkCode 1 1 [] [] t) [- Z.of_nat (length t)] [0].

Definition NsAdpParse (b : list Z) (find_tag : list Z -> option Tag) (flags : Z) (file : list Z) : outcome AdpCode :=
  if adp_flag flags ADP_TCLFILE then Ret (AdpParseTclFile b flags file) else AdpParseAdp b find_tag flags.

(** ** Registered tags *)

(** The tables of an interpreter with an effective tag set, or without one. *)
Definition find_in (sv : AdpServer) (effective : option AdpTagSet) (name : list Z) : option Tag :=
  match effective with
  | None => tags sv !! name
  | Some ts =>
      match set_tags ts !! name with
      | Some t => Some t
      | None => if fallback ts then tags sv !! name else None
      end
  end.

Inductive registered := TCL_OK (sv : AdpServer) | TCL_ERROR (msg : string).

Definition register_tag (ty : TagType) (t : list Z) (end_ : option (list Z)) (cont : list Z) (table : tag_table) : registered + tag_table :=
  match TagNameValidate t with
  | Some c => inl (TCL_ERROR (if c =? 0 then "tag name must not be empty" else "contains invalid character"))
  | None =>
      if match end_ with Some e => bool_decide (e = 47 :: t) | None => true end then
        let key := Tcl_UtfToLower t in
        inr (<[key := mkTag ty key (Tcl_UtfToLower <$> end_) (Tcl_UtfToLower cont)]> table)
      else inl (TCL_ERROR "invalid end tag")
  end.

(** The tag, its closing tag and its content in the arguments of a command. *)
Definition tag_args (args : list (list Z)) : option (list Z * option (list Z) * list Z) :=
  match args with
  | [t; c] => Some (t, None, c)
  | [t; e; c] => Some (t, Some e, c)
  | _ => None
  end.

(** [args] are the arguments behind the name of the command. *)
Definition RegisterObjCmd (ty : TagType) (args : list (list Z)) (sv : AdpServer) : registered :=
  let set_default r := match r with inl e => e | inr m => TCL_OK (mkServer m (tagsets sv)) end in
  match args with
  | (45 :: _ as o) :: name :: rest =>
      match tag_args rest with
      | None => TCL_ERROR "wrong # args"
      | Some (t, e, c) =>
          if negb (bool_decide (o = bytes "-tagset")) then TCL_ERROR "unknown option"
          else if bool_decide (name = bytes "default") then set_default (register_tag ty t e c (tags sv))
          else
            match tagsets sv !! name with
            | None => TCL_ERROR "unknown ADP tagset"
            | Some ts =>
                match register_tag ty t e c (set_tags ts) with
                | inl e => e
                | inr m => TCL_OK (mkServer (tags sv) (<[name := mkTagSet m (fallback ts)]> (tagsets sv)))
                end
            end
      end
  | (45 :: _) :: _ => TCL_ERROR "wrong # args"
  | _ =>
      match tag_args args with
      | None => TCL_ERROR "wrong # args"
      | Some (t, e, c) => set_default (register_tag ty t e c (tags sv))
      end
  end.

End parser.

(** ** Execution *)

Inductive AdpResult := ADP_OK | ADP_BREAK | ADP_ABORT | ADP_RETURN | ADP_TIMEOUT.
#[export] Instance AdpResult_eq_dec : EqDecision AdpResult.
Proof. solve_decision. Defined.

Definition ADP_STRICT : Z := 0x100.
Definition ADP_ERRLOGGED : Z := 0x1000.
Definition ADP_STREAM : Z := 0x8000.

(** An interpreter: its exception, flags, the size and the content of the output buffer, and what
    scripts work on.  Results of Tcl are its codes, 0 for TCL_OK and 1 for TCL_ERROR. *)
Record NsInterp (W : Type) := mkInterp { exception : AdpResult; iflags : Z; bufsize : Z; output : list Z; world : W }.
Arguments mkInterp {W} _ _ _ _ _.
Arguments exception {W} _.
Arguments iflags {W} _.
Arguments bufsize {W} _.
Arguments output {W} _.
Arguments world {W} _.

Section exec.
Context {W : Type} (NsAdpFlush : NsInterp W -> Z * NsInterp W) (Tcl_Eval : list Z -> NsInterp W -> Z * NsInterp W)
  (NsTclTimeoutException : NsInterp W -> bool) (NsAdpLogError : NsInterp W -> NsInterp W).

Definition set_exception (x : AdpResult) (it : NsInterp W) : NsInterp W := mkInterp x (iflags it) (bufsize it) (output it) (world it).
Definition set_iflags (f : Z) (it : NsInterp W) : NsInterp W := mkInterp (exception it) f (bufsize it) (output it) (world it).

Definition NsAdpAppend (buf : list Z) (it : NsInterp W) : Z * NsInterp W :=
  let it := mkInterp (exception it) (iflags it) (bufsize it) (output it ++ buf) (world it) in
  if adp_flag (iflags it) ADP_STREAM || (bufsize it <? Z.of_nat (length (output it))) then
    let '(status, it) := NsAdpFlush it in (if status =? 0 then 0 else 1, it)
  else (0, it).

(** What a block does: text is appended, a script is evaluated. *)
Definition run_block (is_text : bool) (s : list Z) (it : NsInterp W) : Z * NsInterp W :=
  if is_text then NsAdpAppend s it
  else
    let '(result, it) := Tcl_Eval s it in
    (result, if (result =? 1) && NsTclTimeoutException it then set_exception ADP_TIMEOUT it else it).

(** What happens after a block; [true] leaves the loop. *)
Definition after_block (result : Z) (it : NsInterp W) : bool * NsInterp W :=
  if negb (result =? 0) && bool_decide (exception it = ADP_OK) then
    let it := if adp_flag (iflags it) ADP_ERRLOGGED then it else NsAdpLogError it in
    if adp_flag (iflags it) ADP_STRICT then (true, set_iflags (Z.lor (iflags it) ADP_ERRLOGGED) it) else (false, it)
  else (false, it).

(** The loop over the lengths, with the rest of the text at [ptr]. *)
Fixpoint exec_loop (lens : list Z) (ptr : list Z) (result : Z) (it : NsInterp W) : outcome (Z * NsInterp W) :=
  match lens with
  | [] => Ret (result, it)
  | l :: lens =>
      if negb (bool_decide (exception it = ADP_OK)) then Ret (result, it)
      else
        s ← checked (aslice ptr 0 (Z.abs l));
        let '(result, it) := run_block (0 <? l) s it in
        let '(stop, it) := after_block result it in
        if stop then Ret (result, it) else exec_loop lens (drop (Z.to_nat (Z.abs l)) ptr) result it
  end.

(** The exception of a page is cleared or hides its result. *)
Definition leave_page (x : Z * NsInterp W) : Z * NsInterp W :=
  let '(result, it) := x in
  match exception it with
  | ADP_OK => (result, it)
  | ADP_RETURN => (0, set_exception ADP_OK it)
  | _ => (0, it)
  end.

Definition AdpExec (c : AdpCode) (it : NsInterp W) : outcome (Z * NsInterp W) :=
  x ← exec_loop (take (nblocks c) (len c)) (text c) 0 it; Ret (leave_page x).
End exec.
