(* ===== verification/AdpSafe.v ===== *)
(** * AdpSafe: the parser of pages ends and stays inside the page.

    Every round of the parser gets on, every pointer stays within the page with its NUL, and
    the blocks it makes fit the text.  There is one exception: a page that ends with
    a greater sign, an equal sign and a quote, behind a tag with a quote that is not closed,
    is read and written one byte behind its NUL. *)

From S2P Require Import Prelude Adp.

(** ** Strings *)

Lemma at_ok b i : (i <= length b)%nat -> exists c, at_ b i = Ret c.
Proof.
  intros Hi. unfold at_. destruct (b !! i) as [c|] eqn:E; [by eexists|]. apply lookup_ge_None in E.
  rewrite (proj2 (Nat.eqb_eq _ _)) by lia. by eexists.
Qed.

Lemma at_lookup b i c : b !! i = Some c -> at_ b i = Ret c.
Proof. intros E. unfold at_. by rewrite E. Qed.

(** A character that is not the NUL is inside of the string. *)
Lemma at_inside b i c : at_ b i = Ret c -> c <> 0 -> b !! i = Some c.
Proof. unfold at_. destruct (b !! i); [congruence|]. by destruct (_ =? _)%nat; intros [= <-]. Qed.

Lemma at_bound b i c : at_ b i = Ret c -> (i <= length b)%nat.
Proof.
  unfold at_. destruct (b !! i) eqn:E; [apply lookup_lt_Some in E; lia|]. destruct (Nat.eqb_spec i (length b)); [lia|done].
Qed.

Lemma prefix_len_le p l : (prefix_len p l <= length l)%nat.
Proof. induction l as [|c l IH]; cbn; [lia|]. destruct (p c); lia. Qed.

Lemma while_str_bound p b s : (s <= length b -> s <= while_str p b s <= length b)%nat.
Proof. unfold while_str. pose proof (prefix_len_le p (drop s b)). lens. Qed.

Lemma while_to_bound p b s e : (e <= length b -> s <= while_to p b s e <= s `max` e)%nat.
Proof. unfold while_to. pose proof (prefix_len_le p (drop s (take e b))). lens. Qed.

Lemma while_to_past p b s e : (e <= s)%nat -> while_to p b s e = s.
Proof. intros. unfold while_to. rewrite drop_ge by lens. cbn. lia. Qed.

Lemma prefix_len_stop p l c : l !! prefix_len p l = Some c -> p c = false.
Proof. induction l as [|x l IH]; cbn; [done|]. destruct (p x) eqn:E; cbn; [done|]. congruence. Qed.

(** What stops a scan. *)
Lemma while_to_stop p b s e i c : while_to p b s e = i -> (i < e)%nat -> b !! i = Some c -> p c = false.
Proof.
  intros <-. unfold while_to. intros Hlt Hc. apply (prefix_len_stop p (drop s (take e b))). by rewrite lookup_drop, lookup_take, decide_True by done.
Qed.

Lemma find_str_Some w l i : find_str w l = Some i -> take (length w) (drop i l) = w /\ (i + length w <= length l)%nat.
Proof.
  revert i. induction l as [|c l IH]; intros i; cbn [find_str]; case_bool_decide as E.
  - intros [= <-]. rewrite drop_0. split; [done|]. apply (f_equal length) in E. lens.
  - done.
  - intros [= <-]. rewrite drop_0. split; [done|]. apply (f_equal length) in E. lens.
  - destruct (find_str w l) as [j|]; [|done]. intros [= <-]. destruct (IH j eq_refl) as [? ?]. split; [done|lens].
Qed.

Lemma strstr_ok w b s : (s <= length b)%nat -> exists r, strstr w b s = Ret r.
Proof. intros Hs. unfold strstr. rewrite (proj2 (Nat.leb_le _ _)) by done. by eexists. Qed.

Lemma strstr_Some w b s i : strstr w b s = Ret (Some i) -> (s <= i /\ i + length w <= length b)%nat /\ take (length w) (drop i b) = w.
Proof.
  unfold strstr. destruct (Nat.leb_spec s (length b)) as [Hs|]; [|done]. destruct (find_str w (drop s b)) as [j|] eqn:E; [|done]. cbn. intros [= <-].
  apply find_str_Some in E as [E El]. rewrite drop_drop in E. split; [lens|done].
Qed.

Lemma strchr_Some c b s i : strstr [c] b s = Ret (Some i) -> (s <= i < length b)%nat /\ b !! i = Some c.
Proof.
  intros H. apply strstr_Some in H as [H E]. cbn in *. split; [lia|]. destruct (drop i b) as [|x l] eqn:Ed; [done|]. injection E as ->.
  by rewrite <- (Nat.add_0_r i), <- lookup_drop, Ed.
Qed.

(** ** The end of a tag *)

Lemma tag_end_ok fuel b str : (str <= length b)%nat -> (length b - str < fuel)%nat -> exists r, tag_end_loop fuel b str = Ret r /\
  forall e, r = Some e -> (str <= e)%nat /\ b !! e = Some 62.
Proof.
  revert str. induction fuel as [|fuel IH]; intros str Hs Hf; [lia|]. cbn [tag_end_loop].
  pose proof (while_str_bound isspace b str Hs) as H1. set (s1 := while_str isspace b str) in *. destruct (at_ok b s1) as [c E1]; [lia|]. rewrite E1. cbn [mbind outcome_bind].
  destruct (Z.eqb_spec c 62) as [->|Hc]; [eexists; split; [done|]; intros e [= <-]; split; [lia|by apply at_inside]|].
  destruct (TagValidFirstChar c) eqn:Ev; cbn [negb]; [|eexists; split; [done|]; by intros].
  assert (s1 < length b)%nat as Hs1. { apply lookup_lt_is_Some_1. eexists. apply at_inside; [done|]. intros ->. by vm_compute in Ev. }
  pose proof (while_str_bound TagValidChar b (s1 + 1) ltac:(lia)) as H2. pose proof (while_str_bound isspace b (while_str TagValidChar b (s1 + 1)) ltac:(lia)) as H3.
  set (s2 := while_str isspace b (while_str TagValidChar b (s1 + 1))) in *. destruct (at_ok b s2) as [c2 E2]; [lia|]. rewrite E2. cbn [mbind outcome_bind].
  destruct (Z.eqb_spec c2 62) as [->|Hc2]; [eexists; split; [done|]; intros e [= <-]; split; [lia|by apply at_inside]|].
  destruct (Z.eqb_spec c2 61) as [->|Hc2']; cbn [negb]; [|eexists; split; [done|]; by intros].
  assert (s2 < length b)%nat as Hs2 by (apply lookup_lt_is_Some_1; eexists; by apply at_inside).
  pose proof (while_str_bound isspace b (s2 + 1) ltac:(lia)) as H4. set (s3 := while_str isspace b (s2 + 1)) in *. destruct (at_ok b s3) as [c3 E3]; [lia|]. rewrite E3. cbn [mbind outcome_bind].
  destruct (is_quote c3) eqn:Eq.
  - assert (s3 < length b)%nat as Hs3. { apply lookup_lt_is_Some_1. eexists. apply at_inside; [done|]. intros ->. by vm_compute in Eq. }
    pose proof (while_str_bound (fun x => negb (x =? c3)) b (s3 + 1) ltac:(lia)) as H5. set (s4 := while_str _ b (s3 + 1)) in *. destruct (at_ok b s4) as [c4 E4]; [lia|]. rewrite E4. cbn [mbind outcome_bind].
    destruct (Z.eqb_spec c4 0) as [->|Hc4]; [eexists; split; [done|]; by intros|].
    assert (s4 < length b)%nat as Hs4 by (apply lookup_lt_is_Some_1; eexists; by apply at_inside).
    destruct (IH (s4 + 1)%nat) as (r & -> & Hr); [lia|lia|]. eexists. split; [done|]. intros e He. destruct (Hr e He). split; [lia|done].
  - destruct (TagValidFirstChar c3) eqn:Ev3; cbn [negb]; [|eexists; split; [done|]; by intros].
    assert (s3 < length b)%nat as Hs3. { apply lookup_lt_is_Some_1. eexists. apply at_inside; [done|]. intros ->. by vm_compute in Ev3. }
    pose proof (while_str_bound TagValidChar b (s3 + 1) ltac:(lia)) as H5.
    destruct (IH (while_str TagValidChar b (s3 + 1))) as (r & -> & Hr); [lia|lia|]. eexists. split; [done|]. intros e He. destruct (Hr e He). split; [lia|done].
Qed.

Lemma NsParseTagEnd_ok b s c : b !! s = Some c -> exists r, NsParseTagEnd b s = Ret r /\ forall e, r = Some e -> (s <= e)%nat /\ b !! e = Some 62.
Proof.
  intros Hs. pose proof (lookup_lt_Some _ _ _ Hs) as Hl. unfold NsParseTagEnd. destruct (at_ok b (s + 1)) as [c1 E1]; [lia|]. rewrite E1. cbn [mbind outcome_bind].
  assert (exists r, strstr [62] b s = Ret r /\ forall e, r = Some e -> (s <= e)%nat /\ b !! e = Some 62) as Hleg.
  { destruct (strstr_ok [62] b s) as [r E]; [lia|]. rewrite E. eexists. split; [done|]. intros e ->. apply strchr_Some in E as [? ?]. split; [lia|done]. }
  destruct (TagValidFirstChar c1) eqn:Ev; cbn [negb]; [|done].
  assert (s + 1 < length b)%nat as Hs1. { apply lookup_lt_is_Some_1. eexists. apply at_inside; [done|]. intros ->. by vm_compute in Ev. }
  pose proof (while_str_bound TagValidChar b (s + 2) ltac:(lia)) as H2. destruct (at_ok b (while_str TagValidChar b (s + 2))) as [c2 E2]; [lia|]. rewrite E2. cbn [mbind outcome_bind].
  destruct (negb (c2 =? 62) && negb (isspace c2)); [done|].
  destruct (tag_end_ok (S (length b)) b (while_str TagValidChar b (s + 2))) as (r & -> & Hr); [lia|lia|]. cbn [mbind outcome_bind].
  destruct r as [e|]; [|done]. eexists. split; [done|]. intros e' [= <-]. destruct (Hr e eq_refl). split; [lia|done].
Qed.

(** ** Attributes *)

(** The page does not end with a greater sign, an equal sign and a quote. *)
Definition att_safe (b : list Z) : Prop := forall i c, b !! i = Some 62 -> b !! S i = Some 61 -> b !! S (S i) = Some c -> is_quote c = true -> S (S (S i)) <> length b.

Lemma quote_cases c : is_quote c = true -> c = 34 \/ c = 39.
Proof. unfold is_quote. zcases; [auto..|done]. Qed.

Section attributes.
Context (b : list Z) (e : nat) (Hsafe : att_safe b) (He : b !! e = Some 62).

Lemma e_inside : (e < length b)%nat.
Proof. by eapply lookup_lt_Some. Qed.

Lemma att_name_ok as_ : (as_ < e)%nat -> exists ae s, att_name b as_ e = Ret (ae, s) /\ (as_ <= ae /\ ae <= s <= S e)%nat /\ ((as_ < s)%nat \/ b !! s = Some 61).
Proof.
  intros Ha. pose proof e_inside as Hl. destruct (lookup_lt_is_Some_2 b as_) as [c Hc]; [lia|]. unfold att_name. rewrite (at_lookup _ _ _ Hc). cbn [mbind outcome_bind].
  destruct (is_quote c) eqn:Eq.
  - pose proof (while_to_bound (fun x => negb (x =? c)) b (S as_) e ltac:(lia)) as H1. set (ae := S (while_to _ b (S as_) e)).
    pose proof (while_to_bound isspace b ae e ltac:(lia)) as H2. eexists _, _. split; [done|]. subst ae. lia.
  - set (p := fun x => negb (isspace x) && negb (x =? 61)). pose proof (while_to_bound p b as_ e ltac:(lia)) as H1. set (ae := while_to p b as_ e) in *.
    pose proof (while_to_bound isspace b ae e ltac:(lia)) as H2. eexists _, _. split; [done|]. split; [lia|]. set (s := while_to isspace b ae e) in *.
    destruct (decide (as_ < s)%nat) as [|Hs]; [by left|right]. assert (ae = as_) as Ea by lia. assert (s = as_) as Es by lia.
    assert (p c = false) as Hp by (by apply (while_to_stop p b as_ e as_)).
    assert (isspace c = false) as Hsp by (apply (while_to_stop isspace b ae e as_); [done|lia|done]).
    rewrite Es, Hc. unfold p in Hp. rewrite Hsp in Hp. cbn in Hp. destruct (Z.eqb_spec c 61); [congruence|done].
Qed.

Lemma att_value_ok s : (s <= S e)%nat -> b !! s = Some 61 -> exists vs ve s', att_value b s e = Ret (vs, ve, s') /\ (s < s' /\ ve <= length b)%nat.
Proof.
  intros Hs Hc. pose proof e_inside as Hl. pose proof (lookup_lt_Some _ _ _ Hc) as Hs'. unfold att_value.
  assert (s <> e) as Hne by congruence. pose proof (while_to_bound isspace b (S s) e ltac:(lia)) as H1. set (vs := while_to isspace b (S s) e) in *.
  destruct (at_ok b vs) as [c Ec]; [lia|]. rewrite Ec. cbn [mbind outcome_bind].
  set (ve := if is_quote c then _ else _).
  assert (S s <= ve /\ (ve <= length b \/ (is_quote c = true /\ s = S e /\ vs = S (S e) /\ ve = S (S (S (S e))))))%nat as [Hve Hveb].
  { subst ve. destruct (is_quote c) eqn:Eq.
    - assert (b !! vs = Some c) as Hvc by (apply at_inside; [done|]; intros ->; by vm_compute in Eq). pose proof (lookup_lt_Some _ _ _ Hvc) as Hvl.
      pose proof (while_to_bound (fun x => negb (x =? c)) b (S vs) e ltac:(lia)) as H2. split; [lia|]. destruct (decide (vs < e)%nat) as [Hlt|Hge]; [left; lia|].
      assert (vs <> e) as Hve by (intros ->; rewrite He in Hvc; injection Hvc as <-; by vm_compute in Eq).
      right. split_and!; [done|lia|lia|]. rewrite while_to_past by lia. lia.
    - pose proof (while_to_bound (fun x => negb (isspace x)) b vs e ltac:(lia)) as H2. pose proof (at_bound _ _ _ Ec). lia. }
  destruct (((c =? 61) || is_quote c) && (vs <? ve)%nat) eqn:Et.
  - assert (exists x, at_ b (ve - 1) = Ret x) as [x Ex].
    { apply at_ok. destruct Hveb as [|(Eq & -> & Ev & ->)]; [lia|]. assert (b !! vs = Some c) as Hvc by (apply at_inside; [done|]; intros ->; by vm_compute in Eq). apply lookup_lt_Some in Hvc. lia. }
    rewrite Ex. cbn [mbind outcome_bind]. destruct (Z.eqb_spec x c) as [->|Hxc].
    + eexists _, _, _. split; [done|]. apply at_bound in Ex. lia.
    + eexists _, _, _. split; [done|]. split; [lia|]. destruct Hveb as [|(Eq & Es & Ev & E4)]; [done|].
      assert (b !! vs = Some c) as Hvc by (apply at_inside; [done|]; intros ->; by vm_compute in Eq). apply at_bound in Ex.
      rewrite Ev in Hvc. rewrite Es in Hc. rewrite E4 in Ex. pose proof (Hsafe e c He Hc Hvc Eq). lia.
  - eexists _, _, _. split; [done|]. split; [lia|]. destruct Hveb as [|(Eq & Es & Ev & E4)]; [done|]. exfalso. rewrite Eq, orb_true_r, andb_true_l in Et.
    apply Nat.ltb_ge in Et. lia.
Qed.

Lemma parse_att_ok s : (s < e)%nat -> exists r, parse_att b s e = Ret r /\ forall a s', r = Some (a, s') -> (s < s')%nat.
Proof.
  intros Hs. pose proof e_inside as Hl. unfold parse_att. pose proof (while_to_bound isspace b s e ltac:(lia)) as H1. set (as_ := while_to isspace b s e) in *.
  destruct (Nat.eqb_spec as_ e) as [|Hne]; [eexists; split; [done|by intros]|].
  destruct (att_name_ok as_) as (ae & s1 & -> & Hb & Hp); [lia|]. cbn [mbind outcome_bind].
  destruct (at_ok b s1) as [c Ec]; [lia|]. rewrite Ec. cbn [mbind outcome_bind]. destruct (at_ok b ae) as [x Ex]; [lia|].
  destruct (Z.eqb_spec c 61) as [->|Hc]; cbn [negb].
  - destruct (att_value_ok s1) as (vs & ve & s2 & -> & Hv); [lia|by apply at_inside|]. cbn [mbind outcome_bind]. destruct (at_ok b ve) as [y Ey]; [lia|]. rewrite Ey, Ex. cbn [mbind outcome_bind].
    eexists. split; [done|]. intros a s' [= _ <-]. lia.
  - rewrite Ex. cbn [mbind outcome_bind]. eexists. split; [done|]. intros a s' [= _ <-]. destruct Hp as [|Hp]; [lia|]. apply at_lookup in Hp. congruence.
Qed.

Lemma ParseAtts_ok s : exists atts, ParseAtts b s e = Ret atts.
Proof.
  unfold ParseAtts. assert (forall fuel s, (e - s < fuel)%nat -> exists atts, att_loop fuel b s e = Ret atts) as H; [|apply H; lia].
  clear s. induction fuel as [|fuel IH]; intros s Hf; [lia|]. cbn [att_loop]. destruct (Nat.ltb_spec s e) as [Hs|]; [|by eexists].
  destruct (parse_att_ok s Hs) as (r & -> & Hr). cbn [mbind outcome_bind]. destruct r as [[a s']|]; [|by eexists].
  specialize (Hr _ _ eq_refl). destruct (IH s') as [l ->]; [lia|]. cbn. by eexists.
Qed.
End attributes.

(** ** Rounds of the parser *)

(** What Tcl documents of [Tcl_UtfToLower]: the string does not get longer, and ASCII letters
    are converted. *)
Class TclCase (lower : list Z -> list Z) : Prop := {
  lower_length l : (length (lower l) <= length l)%nat;
  lower_ascii l : Forall (fun c => 0 < c < 128) l -> lower l = tolower <$> l
}.

(** Takes a result of monadic code apart. *)
Ltac binds H := repeat (cbn [mbind outcome_bind] in H; match type of H with
  | (match ?m with Ret _ => _ | Fault => _ | Fatal => _ end) = Ret _ => let E := fresh "E" in destruct m eqn:E; [|discriminate H..]
  | mbind _ ?m = Ret _ => let E := fresh "E" in destruct m eqn:E; cbn [mbind outcome_bind] in H; [|discriminate H..]
  | outcome_bind _ _ _ ?m = Ret _ => let E := fresh "E" in destruct m eqn:E; cbn [mbind outcome_bind] in H; [|discriminate H..]
  end).

Section rounds.
Context (lower : list Z -> list Z) (element : list Z -> list Z -> list Z) (b : list Z) (find_tag : list Z -> option Tag) (flags : Z).

Notation adp_step := (adp_step lower element b find_tag flags).
Notation adp_loop := (fun fuel => adp_loop lower element fuel b find_tag flags).

(** How far the parser is from the end. *)
Definition measure (v : Vars) : nat := (2 * (length b - adp v) + match state v with TagInlineCode => 0 | _ => 1 end)%nat.

Lemma inline_end_after fuel n e e' : inline_end fuel b n e = Ret (Some e') -> (e <= e')%nat.
Proof.
  revert n e. induction fuel as [|fuel IH]; intros n e H; [done|]. cbn [inline_end] in H. binds H. destruct a as [n'|]; [|injection H as <-; lia].
  destruct (n' <? e)%nat; [|injection H as <-; lia]. binds H. destruct a as [e1|]; [|done]. apply IH in H. apply strstr_Some in E0 as [[? _] _]. lia.
Qed.

Lemma step_measure v v' : adp_step v = Ret (true, v') -> (measure v' < measure v)%nat.
Proof.
  unfold Adp.adp_step. intros H. binds H. destruct a as [s|]; [|done]. apply strchr_Some in E as [Hs _].
  assert (forall x, (s + 1 <= adp x)%nat -> state v <> TagInlineCode -> measure x < measure v)%nat as Hlt.
  { intros x Hx Hne. unfold measure. destruct (state v); [done|..]; destruct (state x); lia. }
  assert (forall x, (s + 2 <= adp x)%nat -> measure x < measure v)%nat as Hlt2 by (intros x Hx; unfold measure; destruct (state x), (state v); lia).
  destruct (state v) as [| |level script stream|level t as_ ae] eqn:Est.
  - unfold inline_code in H. binds H. destruct a as [e|]; [|done]. apply strstr_Some in E as [[? _] _]. binds H. destruct a as [e'|].
    + binds H. injection H as <-. apply Hlt2. apply inline_end_after in E. cbn. lia.
    + injection H as <-. apply Hlt2. cbn. lia.
  - unfold tag_next in H. binds H. destruct a0; [injection H as <-; unfold measure; cbn; rewrite Est; lia|].
    destruct (negb (TagValidFirstChar a)); [injection H as <-; apply Hlt; cbn; [lia|done]|]. binds H. destruct a0 as [e|]; [|done].
    unfold start_tag in H. destruct (GetTag lower b s e) as [name at_a]. binds H. destruct a0 as [st|]; [injection H as <-; apply Hlt; cbn; [lia|done]|].
    destruct (find_tag name) as [t|]; [|injection H as <-; apply Hlt; cbn; [lia|done]]. destruct (endtag t); [injection H as <-; apply Hlt; cbn; [lia|done]|].
    binds H. injection H as <-; apply Hlt; cbn; [lia|done].
  - unfold in_script in H. binds H. destruct a as [e|]; [|done]. repeat case_match; injection H as <-; apply Hlt; cbn; try lia; done.
  - unfold in_registered in H. binds H. destruct a as [e|]; [|done]. destruct (bool_decide _); [injection H as <-; apply Hlt; cbn; [lia|done]|].
    destruct (bool_decide _); [|injection H as <-; apply Hlt; cbn; [lia|done]]. destruct (_ =? 0)%nat; [binds H|]; injection H as <-; apply Hlt; cbn; try lia; done.
Qed.

(** A run of the parser, one round after the other. *)
Definition goes (v v' : Vars) : Prop := adp_step v = Ret (true, v').

Lemma loop_ends v v' w fuel : rtc goes v v' -> adp_step v' = Ret (false, w) -> (measure v < fuel)%nat -> adp_loop fuel v = Ret w.
Proof.
  intros Hr Hw. revert fuel. induction Hr as [v|v v1 v' Hs _ IH]; intros [|fuel] Hf; [lia|cbn; by rewrite Hw|lia|].
  cbn. pose proof (step_measure _ _ Hs). unfold goes in Hs. rewrite Hs. cbn. apply IH; [done|lia].
Qed.
End rounds.

Section total.
Context (lower : list Z -> list Z) (element : list Z -> list Z -> list Z) `{!TclCase lower} (b : list Z) (find_tag : list Z -> option Tag) (flags : Z).

Notation adp_step := (adp_step lower element b find_tag flags).

(** The pointers of the parser are inside of the page; a tag whose end is looked for ends with
    a greater sign, and inline code starts with a percent sign. *)
Record Vars_ok (v : Vars) : Prop := {
  ok_adp : (adp v <= length b)%nat;
  ok_text : (text_at v <= length b)%nat;
  ok_state : match state v with
    | TagInlineCode => exists s, strstr [60] b (adp v) = Ret (Some s) /\ b !! (s + 1)%nat = Some 37
    | TagReg _ _ _ ae => b !! ae = Some 62
    | _ => True
    end
}.

Lemma GetTag_length s e : (s < e < length b)%nat -> (s + length (GetTag lower b s e).1 + 1 <= e)%nat.
Proof.
  intros Hs. unfold GetTag. cbv zeta. cbn [fst]. pose proof (while_to_bound isspace b (S s) e ltac:(lia)) as H1. set (t := while_to isspace b (S s) e) in *.
  pose proof (while_to_bound (fun x => negb (isspace x) && negb (x =? 60)) b t e ltac:(lia)) as H2. set (s2 := while_to _ b t e) in *.
  pose proof (lower_length (slice b t s2)) as H3. unfold slice in H3 at 2. rewrite length_take, length_drop in H3. lia.
Qed.

Lemma inline_end_ok fuel n e : (n <= length b)%nat -> (e + 2 <= length b)%nat -> (length b - n < fuel)%nat ->
  exists r, inline_end fuel b n e = Ret r /\ forall e', r = Some e' -> (e' + 2 <= length b)%nat.
Proof.
  revert n e. induction fuel as [|fuel IH]; intros n e Hn He Hf; [lia|]. cbn [inline_end].
  destruct (strstr_ok [60; 37] b n Hn) as [r Er]. rewrite Er. cbn [mbind outcome_bind]. destruct r as [n'|]; [|eexists; split; [done|]; by intros e' [= <-]].
  destruct (n' <? e)%nat; [|eexists; split; [done|]; by intros e' [= <-]]. apply strstr_Some in Er as [Hn' _]. cbn in Hn'.
  destruct (strstr_ok [37; 62] b (e + 2) He) as [r Er]. rewrite Er. cbn [mbind outcome_bind]. destruct r as [e'|]; [|eexists; split; [done|by intros]].
  apply strstr_Some in Er as [He' _]. cbn in He'. apply IH; lia.
Qed.

Lemma inline_code_ok v s : Vars_ok v -> state v = TagInlineCode -> strstr [60] b (adp v) = Ret (Some s) ->
  exists go v', inline_code element b flags v s = Ret (go, v') /\ Vars_ok v'.
Proof.
  intros [Ha Ht Hst] Est Es. rewrite Est in Hst. destruct Hst as (s' & Es' & Hp). rewrite Es in Es'. injection Es' as <-.
  pose proof Es as Es'. apply strchr_Some in Es' as [Hs _]. pose proof (lookup_lt_Some _ _ _ Hp) as Hl. unfold inline_code.
  destruct (strstr_ok [37; 62] b s ltac:(lia)) as [r Er]. rewrite Er. cbn [mbind outcome_bind]. destruct r as [e|]; [|eexists _, _; split; [done|split; [done|done|]]; rewrite Est; by exists s].
  apply strstr_Some in Er as [He _]. cbn in He. destruct (inline_end_ok (S (length b)) (s + 2) e) as (r & -> & Hr); [lia|lia|lia|]. cbn [mbind outcome_bind].
  destruct r as [e'|].
  - specialize (Hr _ eq_refl). destruct (at_ok b (s + 2)) as [c ->]; [lia|]. cbn [mbind outcome_bind]. eexists _, _. split; [done|]. by split.
  - eexists _, _. split; [done|]. split; cbn; [lia|lia|done].
Qed.

Context (Hsafe : att_safe b).

Lemma AppendTag_ok p t as_ ae se : b !! ae = Some 62 -> exists p', AppendTag element p t b as_ ae se flags = Ret p'.
Proof.
  intros He. unfold AppendTag. destruct (ParseAtts_ok b ae Hsafe He as_) as [atts ->]. destruct (type t); cbn; by eexists.
Qed.

Lemma start_tag_ok v s e : Vars_ok v -> (s < e)%nat -> b !! e = Some 62 -> exists go v', start_tag lower element b find_tag flags v s e = Ret (go, v') /\ Vars_ok v'.
Proof.
  intros [Ha Ht _] Hs He. pose proof (lookup_lt_Some _ _ _ He) as Hl. unfold start_tag. pose proof (GetTag_length s e ltac:(lia)) as Hg.
  destruct (GetTag lower b s e) as [name a]. cbn in Hg. unfold GetScript.
  assert (exists r, (if (a <? e)%nat && STRIEQ name (bytes "script") then atts ← ParseAtts b a e; Ret (if existsb is_runat atts && negb (existsb is_nottcl atts) then Some (existsb is_stream atts) else None) else Ret None) = Ret r) as [r ->].
  { destruct (_ && _); [|by eexists]. destruct (ParseAtts_ok b e Hsafe He a) as [atts ->]. by eexists. }
  cbn [mbind outcome_bind]. destruct r as [st|]; [eexists _, _; split; [done|]; by split; cbn; [lia|..]|].
  destruct (find_tag name) as [t|]; [|eexists _, _; split; [done|]; by split; cbn; [lia|..]]. destruct (endtag t); [eexists _, _; split; [done|]; by split; cbn; [lia|..]|].
  match goal with |- context [AppendTag element ?p t b a e None flags] => destruct (AppendTag_ok p t a e None He) as [p' ->] end. cbn [mbind outcome_bind].
  eexists _, _. split; [done|]. split; cbn; [lia|lia|done].
Qed.

Lemma tag_next_ok v s : Vars_ok v -> strstr [60] b (adp v) = Ret (Some s) -> exists go v', tag_next lower element b find_tag flags v s = Ret (go, v') /\ Vars_ok v'.
Proof.
  intros Hv Es. pose proof Hv as [Ha Ht Hst]. pose proof Es as Es'. apply strchr_Some in Es' as [Hs Hc]. unfold tag_next. destruct (at_ok b (s + 1)) as [c Ec]; [lia|]. rewrite Ec. cbn [mbind outcome_bind].
  assert (exists inline : bool, (if c =? 37 then c ← at_ b (s + 2); Ret (negb (c =? 62)) else Ret false) = Ret inline /\ (inline = true -> b !! (s + 1)%nat = Some 37)) as (inline & -> & Hi).
  { destruct (Z.eqb_spec c 37) as [->|]; [|by eexists]. apply at_inside in Ec; [|done]. pose proof (lookup_lt_Some _ _ _ Ec). destruct (at_ok b (s + 2)) as [c2 ->]; [lia|]. by eexists. }
  cbn [mbind outcome_bind]. destruct inline.
  - eexists _, _. split; [done|]. split; cbn; [done|done|]. exists s. split; [done|by apply Hi].
  - destruct (negb (TagValidFirstChar c)); [eexists _, _; split; [done|]; by split; cbn; [lia|..]|].
    destruct (NsParseTagEnd_ok b s _ Hc) as (r & -> & Hr). cbn [mbind outcome_bind]. destruct r as [e|]; [|by eexists _, _].
    destruct (Hr e eq_refl) as [Hse He]. apply start_tag_ok; [done| |done]. destruct (decide (s = e)) as [->|]; [congruence|lia].
Qed.

Lemma in_script_ok v s level script stream : Vars_ok v -> state v = TagScript level script stream -> strstr [60] b (adp v) = Ret (Some s) ->
  exists go v', in_script lower element b flags v level script stream s = Ret (go, v') /\ Vars_ok v'.
Proof.
  intros Hv Est Es. pose proof Hv as [Ha Ht _]. apply strchr_Some in Es as [Hs Hc]. unfold in_script. destruct (strstr_ok [62] b s) as [r Er]; [lia|]. rewrite Er. cbn [mbind outcome_bind].
  destruct r as [e|]; [|by eexists _, _]. apply strchr_Some in Er as [He Hce]. assert (s <> e) by congruence. pose proof (GetTag_length s e ltac:(lia)) as Hg. set (name := (GetTag lower b s e).1) in *. clearbody name.
  destruct (script_blocks element b flags v script s stream) as [p streamed].
  repeat case_match; eexists _, _; (split; [done|]); split; cbn; try lia; try done; by rewrite Est.
Qed.

Lemma in_registered_ok v s level t as_ ae : Vars_ok v -> state v = TagReg level t as_ ae -> strstr [60] b (adp v) = Ret (Some s) ->
  exists go v', in_registered lower element b flags v level t as_ ae s = Ret (go, v') /\ Vars_ok v'.
Proof.
  intros Hv Est Es. pose proof Hv as [Ha Ht Hst]. rewrite Est in Hst. apply strchr_Some in Es as [Hs Hc]. unfold in_registered. destruct (strstr_ok [62] b s) as [r Er]; [lia|]. rewrite Er. cbn [mbind outcome_bind].
  destruct r as [e|]; [|by eexists _, _]. apply strchr_Some in Er as [He Hce]. assert (s <> e) by congruence. pose proof (GetTag_length s e ltac:(lia)) as Hg. set (name := (GetTag lower b s e).1) in *. clearbody name.
  destruct (bool_decide _); [eexists _, _; split; [done|]; by split; cbn; [lia|..]|].
  destruct (bool_decide _); [|eexists _, _; split; [done|]; split; cbn; [lia|done|by rewrite Est]].
  destruct (_ =? 0)%nat; [|eexists _, _; split; [done|]; by split; cbn; [lia|..]].
  destruct (AppendTag_ok (parse v) t as_ ae (Some s) Hst) as [p' ->]. cbn [mbind outcome_bind]. eexists _, _. split; [done|]. split; cbn; [lia|lia|done].
Qed.

Lemma adp_step_ok v : Vars_ok v -> exists go v', adp_step v = Ret (go, v') /\ Vars_ok v'.
Proof.
  intros Hv. unfold Adp.adp_step. destruct (strstr_ok [60] b (adp v) (ok_adp _ Hv)) as [r Er]. rewrite Er. cbn [mbind outcome_bind]. destruct r as [s|]; [|by eexists _, _].
  destruct (state v) eqn:Est; [by apply inline_code_ok|by apply tag_next_ok|by apply in_script_ok|by apply in_registered_ok].
Qed.

Lemma adp_loop_ok fuel v : Vars_ok v -> (measure b v < fuel)%nat -> exists v', adp_loop lower element fuel b find_tag flags v = Ret v' /\ Vars_ok v'.
Proof.
  revert v. induction fuel as [|fuel IH]; intros v Hv Hf; [lia|]. cbn [adp_loop]. destruct (adp_step_ok v Hv) as (go & v' & Es & Hv'). rewrite Es. cbn [mbind outcome_bind].
  destruct go; [|by eexists]. apply IH; [done|]. pose proof (step_measure _ _ _ _ _ _ _ Es). lia.
Qed.

Lemma AdpParseAdp_ok : exists c, AdpParseAdp lower element b find_tag flags = Ret c.
Proof.
  unfold AdpParseAdp. destruct (adp_loop_ok (2 * length b + 2) (mkVars (mkParse no_code 0 [] []) TagNext 0 0 false)) as (v & -> & Hv);
    [split; cbn; [lia|lia|done]|unfold measure; cbn; lia|]. cbn [mbind outcome_bind]. destruct (at_ok b (text_at v) (ok_text _ Hv)) as [c ->]. by eexists.
Qed.
End total.

(** ** Blocks *)

Definition is_script_len (l : Z) : bool := l <=? 0.
Definition scripts (ls : list Z) : nat := length (filter (fun l => is_script_len l = true) ls).
Definition total_len (ls : list Z) : Z := foldr (fun l n => Z.abs l + n) 0 ls.
Arguments scripts _ : simpl never.
Arguments total_len _ : simpl never.

Lemma total_len_app l1 l2 : total_len (l1 ++ l2) = total_len l1 + total_len l2.
Proof. induction l1 as [|l l1 IH]; [done|]. change (Z.abs l + total_len (l1 ++ l2) = Z.abs l + total_len l1 + total_len l2). lia. Qed.

(** There are as many lengths and lines as blocks, the scripts are counted, and the blocks are the text. *)
Record Code_ok (c : AdpCode) : Prop := {
  code_len : length (len c) = nblocks c;
  code_line : length (line c) = nblocks c;
  code_scripts : scripts (len c) = nscripts c;
  code_text : total_len (len c) = Z.of_nat (length (text c))
}.

Definition Parse_ok (p : Parse) : Prop := Code_ok (AppendLengths (codePtr p) (lengths p) (lines p)) /\ length (lengths p) = nblocks (codePtr p) /\ length (lines p) = nblocks (codePtr p).

Lemma append_ok element p s ty flags : adp_flag flags ADP_SINGLE = false -> Parse_ok p -> Parse_ok (AppendBlock element p s ty flags).
Proof.
  intros Hf ([Hl Hn Hs Ht] & H1 & H2). unfold AppendBlock. rewrite Hf. case_bool_decide as Es; [by repeat split|]. destruct p as [[nb ns ln li tx] pl ls lns]. cbn in *.
  rewrite !take_ge in * by lia. assert (0 < length s)%nat as Hpos by (destruct s; [done|cbn; lia]).
  split; [|cbn; rewrite !length_app; cbn; lia]. unfold AppendLengths. cbn. rewrite !take_ge by (rewrite length_app; cbn; lia).
  split; cbn; [rewrite length_app; cbn; lia..| |].
  - unfold scripts in *. rewrite filter_app, length_app, Hs. destruct ty; cbn [filter list_filter]; rewrite ?length_app; (case_decide as Ed; unfold is_script_len in Ed; cbn; zcases; lia || done).
  - rewrite total_len_app, Ht, length_app. unfold total_len. cbn [foldr]. destruct ty; rewrite ?length_app; lia.
Qed.

Lemma step_parse lower element b find_tag flags (P : Parse -> Prop) v go v' : (forall p s ty, P p -> P (AppendBlock element p s ty flags)) -> P (parse v) ->
  adp_step lower element b find_tag flags v = Ret (go, v') -> P (parse v').
Proof.
  intros HP Hv H. assert (forall p t as_ ae se p', P p -> AppendTag element p t b as_ ae se flags = Ret p' -> P p') as HT.
  { intros p t as_ ae se p' Hp Ht. unfold AppendTag in Ht. binds Ht. injection Ht as <-. by apply HP. }
  unfold adp_step in H. binds H. destruct a as [s|]; [|by injection H as _ <-]. destruct (state v) as [| |level script stream|level t as_ ae].
  - unfold inline_code in H. binds H. destruct a as [e|]; [|by injection H as _ <-]. binds H. destruct a as [e'|]; [binds H|]; injection H as _ <-; cbn; repeat case_match; auto.
  - unfold tag_next in H. binds H. destruct a0; [by injection H as _ <-|]. destruct (negb _); [by injection H as _ <-|]. binds H. destruct a0 as [e|]; [|by injection H as _ <-].
    unfold start_tag in H. destruct (GetTag lower b s e) as [name a0]. binds H. destruct a1; [injection H as _ <-; cbn; auto|].
    destruct (find_tag name) as [t|]; [|by injection H as _ <-]. destruct (endtag t); [injection H as _ <-; cbn; auto|]. binds H. injection H as _ <-. cbn. eapply HT; [|done]. auto.
  - unfold in_script in H. binds H. destruct a as [e|]; [|by injection H as _ <-]. unfold script_blocks in H. repeat case_match; simplify_eq; cbn [parse]; auto.
  - unfold in_registered in H. binds H. destruct a as [e|]; [|by injection H as _ <-]. destruct (bool_decide _); [by injection H as _ <-|].
    destruct (bool_decide _); [|by injection H as _ <-]. destruct (_ =? 0)%nat; [binds H|]; injection H as _ <-; [by eapply HT|done].
Qed.

Lemma loop_parse lower element b find_tag flags (P : Parse -> Prop) fuel v v' : (forall p s ty, P p -> P (AppendBlock element p s ty flags)) -> P (parse v) ->
  adp_loop lower element fuel b find_tag flags v = Ret v' -> P (parse v').
Proof.
  intros HP. revert v. induction fuel as [|fuel IH]; intros v Hv H; [done|]. cbn [adp_loop] in H. binds H. destruct a as [go w]. pose proof (step_parse _ _ _ _ _ _ _ _ _ HP Hv E) as Hw.
  destruct go; [by eapply IH|by injection H as <-].
Qed.

Lemma single_ok t : Code_ok (AppendLengths (mkCode 1 1 [] [] t) [- Z.of_nat (length t)] [0]).
Proof. split; cbn; [done|done| |unfold total_len; cbn [foldr]; lia]. unfold scripts, is_script_len. cbn. rewrite decide_True by (apply Z.leb_le; lia). done. Qed.

Lemma AdpParseAdp_code lower element b find_tag flags c : AdpParseAdp lower element b find_tag flags = Ret c -> Code_ok c.
Proof.
  unfold AdpParseAdp. intros H. binds H. injection H as <-. destruct (adp_flag flags ADP_SINGLE) eqn:Ef; [apply single_ok|].
  assert (Parse_ok (parse a)) as Hp.
  { eapply (loop_parse _ _ _ _ _ Parse_ok); [intros p s ty; by apply append_ok| |done]. by repeat split. }
  apply (append_ok element _ (drop (text_at a) b) BText flags Ef) in Hp. apply Hp.
Qed.

(** ** Theorems *)

(** C20.  For every page that does not end with a greater sign, an equal sign and a quote, and any
    registered tags, the parser ends without leaving the page, and the blocks it makes are
    consistent: as many lengths and lines as it counted blocks, as many scripts as it counted,
    and lengths that add up to the text. *)
Theorem NsAdpParse_total lower element b find_tag flags file : TclCase lower -> att_safe b -> exists c, NsAdpParse lower element b find_tag flags file = Ret c /\ Code_ok c.
Proof.
  intros Hlow Hsafe. unfold NsAdpParse. destruct (adp_flag flags ADP_TCLFILE).
  - eexists. split; [done|]. unfold AdpParseTclFile. apply single_ok.
  - destruct (AdpParseAdp_ok lower element b find_tag flags Hsafe) as [c E]. exists c. split; [done|]. by eapply AdpParseAdp_code.
Qed.

(** ** Witness *)

Definition ex_lower (l : list Z) : list Z := tolower <$> l.
Definition ex_element (ds s : list Z) : list Z := ds ++ [32; 123] ++ s ++ [125].
Definition ex_server : AdpServer := mkServer (<[bytes "box" := mkTag TAG_PROC (bytes "box") (Some (bytes "/box")) (bytes "draw")]> ∅) ∅.
#[export] Instance ex_lower_case : TclCase ex_lower.
Proof. split; [intros l; unfold ex_lower; by rewrite length_fmap|done]. Qed.

Lemma NsAdpParse_total_witness : exists c, NsAdpParse ex_lower ex_element (bytes "<% x %> <box a=b") (find_in ex_server None) 0 [] = Ret c /\ Code_ok c.
Proof.
  apply (NsAdpParse_total ex_lower ex_element (bytes "<% x %> <box a=b") (find_in ex_server None) 0 []); [apply ex_lower_case|].
  intros i c H1 H2 H3 Hq Hl. assert (i = 13)%nat as -> by (change (length (bytes "<% x %> <box a=b")) with 16%nat in Hl; lia). by vm_compute in H1.
Defined.
