(* ===== verification/AdpPage.v ===== *)
(** * AdpPage: what a page means (nsd/adpparse.c, [AdpExec] of nsd/adpeval.c).

    A page is a list of items: texts with markup and scripts for the client, inline scripts, which may nest, and
    expressions, script elements for the server, and registered tags with attributes, with or without
    content, in which tags of the same name may nest.  The parser turns a printed page into exactly the blocks of its items, and the
    execution of these blocks appends the texts and evaluates the scripts in order. *)

From S2P Require Import Prelude Adp AdpSafe.

(** ** Scans, by what is behind a pointer *)

Section scans.
Context (b : list Z).

Lemma drop_at (s : nat) w r : drop s b = w ++ r -> drop (s + length w) b = r.
Proof. intros E. by rewrite <- drop_drop, E, drop_app_length. Qed.

Lemma at_drop (s : nat) c r : drop s b = c :: r -> at_ b s = Ret c.
Proof. intros E. apply at_lookup. by rewrite <- (Nat.add_0_r s), <- lookup_drop, E. Qed.

Lemma drop_inside (s : nat) c r : drop s b = c :: r -> (s < length b)%nat.
Proof. intros E. apply (f_equal length) in E. rewrite length_drop in E. cbn in E. lia. Qed.

Lemma slice_at (s e : nat) w r : drop s b = w ++ r -> e = (s + length w)%nat -> slice b s e = w.
Proof. intros E ->. unfold slice. rewrite E. replace (s + length w - s)%nat with (length w) by lia. by rewrite take_app_length. Qed.

Lemma prefix_len_app p w r : Forall (fun c => p c = true) w -> match r with c :: _ => p c = false | [] => True end -> prefix_len p (w ++ r) = length w.
Proof. intros Hw Hr. induction Hw as [|c w Hc _ IH]; cbn; [destruct r; [done|]; cbn; by rewrite Hr|]. by rewrite Hc, IH. Qed.

Lemma while_str_at p (s : nat) w r : drop s b = w ++ r -> Forall (fun c => p c = true) w -> match r with c :: _ => p c = false | [] => True end ->
  while_str p b s = (s + length w)%nat.
Proof. intros E Hw Hr. unfold while_str. by rewrite E, prefix_len_app. Qed.

Lemma while_to_at p (s e : nat) w r : drop s b = w ++ r -> Forall (fun c => p c = true) w -> match r with c :: _ => p c = false | [] => True end ->
  (s + length w <= e)%nat -> while_to p b s e = (s + length w)%nat.
Proof.
  intros E Hw Hr He. unfold while_to. rewrite skipn_firstn_comm, E, take_app_ge by lia. rewrite prefix_len_app; [done|done|].
  destruct r as [|c r]; [by rewrite take_nil|]. by destruct (e - s - length w)%nat.
Qed.

Lemma while_to_end p (s e : nat) w r : drop s b = w ++ r -> Forall (fun c => p c = true) w -> e = (s + length w)%nat -> while_to p b s e = e.
Proof.
  intros E Hw ->. unfold while_to. rewrite skipn_firstn_comm, E, take_app_ge by lia. replace (s + length w - s - length w)%nat with O by lia.
  rewrite take_0, prefix_len_app by done. done.
Qed.

Lemma strchr_at c (s : nat) w r : drop s b = w ++ c :: r -> Forall (fun x => x <> c) w -> strstr [c] b s = Ret (Some (s + length w)%nat).
Proof.
  intros E Hw. unfold strstr. rewrite (proj2 (Nat.leb_le _ _)), E.
  2: { apply (f_equal length) in E. rewrite length_drop, length_app in E. cbn in E. lia. }
  assert (find_str [c] (w ++ c :: r) = Some (length w)) as ->; [|done]. clear E. induction Hw as [|x w Hx _ IH].
  - cbn. by rewrite bool_decide_true.
  - cbn [app find_str length take]. rewrite bool_decide_false by (intros [= ?]; done). by rewrite IH.
Qed.

Lemma strchr_absent c (s : nat) : (s <= length b)%nat -> Forall (fun x => x <> c) (drop s b) -> strstr [c] b s = Ret None.
Proof.
  intros Hs Hw. unfold strstr. rewrite (proj2 (Nat.leb_le _ _)) by done. induction Hw as [|x w Hx _ IH]; [done|].
  cbn [find_str length take]. rewrite bool_decide_false by (intros [= ?]; done). destruct (find_str [c] w); [done|]. done.
Qed.
End scans.

(** ** The end of inline code *)

(** Code in which every "<%" has its "%>", with [d] more of these. *)
Fixpoint closed (d : nat) (l : list Z) : bool :=
  match l with
  | [] => (d =? 0)%nat
  | c :: r =>
      match r with
      | x :: r' =>
          if (c =? 60) && (x =? 37) then match r' with y :: _ => negb (y =? 62) | [] => true end && closed (S d) r'
          else if (c =? 37) && (x =? 62) then match d with O => false | S d => closed d r' end
          else closed d r
      | [] => negb (c =? 60) && closed d r
      end
  end.

(** Where the [d]-th "%>" is. *)
Fixpoint nth_close (d : nat) (l : list Z) : option nat :=
  match d with
  | O => find_str [37; 62] l
  | S d => i ← find_str [37; 62] l; j ← nth_close d (drop (i + 2) l); Some (i + 2 + j)%nat
  end.

Lemma find_str_cons w c l : take (length w) (c :: l) <> w -> find_str w (c :: l) = S <$> find_str w l.
Proof. intros Hne. cbn [find_str]. by rewrite bool_decide_false by done. Qed.

Lemma nth_close_cons d c l : take 2 (c :: l) <> [37; 62] -> nth_close d (c :: l) = S <$> nth_close d l.
Proof.
  intros Hne. destruct d as [|d]; [by apply (find_str_cons [37; 62])|]. cbn [nth_close]. rewrite (find_str_cons [37; 62]) by done.
  destruct (find_str [37; 62] l) as [i|]; [|done]. cbn. by destruct (nth_close d (drop (i + 2) l)).
Qed.

Lemma nth_close_close d l : nth_close (S d) (37 :: 62 :: l) = (fun k => S (S k)) <$> nth_close d l.
Proof. cbn [nth_close find_str take length]. rewrite bool_decide_true by done. cbn. rewrite drop_0. by destruct (nth_close d l). Qed.

Lemma nth_close_next d l k : nth_close d l = Some k -> nth_close (S d) l = Nat.add (k + 2) <$> find_str [37; 62] (drop (k + 2) l).
Proof.
  revert l k. induction d as [|d IH]; intros l k Hk.
  - cbn in Hk |- *. rewrite Hk. cbn. destruct (find_str [37; 62] (drop (k + 2) l)) as [j|]; [|done]. cbn. done.
  - cbn [nth_close] in Hk. change (nth_close (S (S d)) l) with (i ← find_str [37; 62] l; j ← nth_close (S d) (drop (i + 2) l); Some (i + 2 + j)%nat).
    destruct (find_str [37; 62] l) as [i|]; [|done]. cbn [mbind option_bind] in *. destruct (nth_close d (drop (i + 2) l)) as [j|] eqn:Ej; [|done]. injection Hk as <-.
    rewrite (IH _ _ Ej), drop_drop. replace (i + 2 + (j + 2))%nat with (i + 2 + j + 2)%nat by lia. destruct (find_str _ _) as [x|]; [|done]. cbn. f_equal. lia.
Qed.

(** The cases of [closed]. *)
Lemma closed_ind (P : nat -> list Z -> Prop) :
  P O [] ->
  (forall d c l, closed d l = true -> P d l -> (forall r, take 2 (c :: l ++ 37 :: 62 :: r) <> [60; 37] /\ take 2 (c :: l ++ 37 :: 62 :: r) <> [37; 62]) -> P d (c :: l)) ->
  (forall d l, closed (S d) l = true -> P (S d) l -> (forall r, take 2 (37 :: l ++ 37 :: 62 :: r) <> [37; 62]) -> P d (60 :: 37 :: l)) ->
  (forall d l, closed d l = true -> P d l -> P (S d) (37 :: 62 :: l)) ->
  forall d l, closed d l = true -> P d l.
Proof.
  intros H1 H2 H3 H4 d l. remember (length l) as n eqn:En. revert d l En. induction n as [n IH] using lt_wf_ind. intros d l -> Hc.
  assert (forall l' d', closed d' l' = true -> (length l' < length l)%nat -> P d' l') as IH' by (intros l' d' Hl' Hlt; by eapply IH). clear IH.
  destruct l as [|c [|x r']]; cbn [closed] in Hc.
  - apply Nat.eqb_eq in Hc as ->. done.
  - apply andb_true_iff in Hc as [Hn Hc]. apply H2; [done|apply IH'; [done|cbn; lia]|]. intros r. cbn. split; [|done]. intros [= ->]. done.
  - destruct ((c =? 60) && (x =? 37)) eqn:E1.
    + apply andb_true_iff in E1 as [->%Z.eqb_eq ->%Z.eqb_eq]. apply andb_true_iff in Hc as [Hy Hc]. apply H3; [done|apply IH'; [done|cbn; lia]|].
      intros r. destruct r' as [|y r']; cbn; [done|]. intros [= ->]. done.
    + destruct ((c =? 37) && (x =? 62)) eqn:E2.
      * apply andb_true_iff in E2 as [->%Z.eqb_eq ->%Z.eqb_eq]. destruct d as [|d]; [done|]. apply H4; [done|apply IH'; [done|cbn; lia]].
      * apply H2; [done|apply IH'; [done|cbn; lia]|]. intros r. cbn. split; intros [= -> ->]; done.
Qed.

Lemma nth_close_pred d l : is_Some (nth_close (S d) l) -> is_Some (nth_close d l).
Proof.
  revert l. induction d as [|d IH]; intros l [k Hk].
  - cbn [nth_close] in Hk |- *. destruct (find_str [37; 62] l); [by eexists|done].
  - change (nth_close (S (S d)) l) with (i ← find_str [37; 62] l; j ← nth_close (S d) (drop (i + 2) l); Some (i + 2 + j)%nat) in Hk. cbn [nth_close].
    destruct (find_str [37; 62] l) as [i|]; [|done]. cbn [mbind option_bind] in *. destruct (nth_close (S d) (drop (i + 2) l)) eqn:Ej; [|done].
    destruct (IH (drop (i + 2) l)) as [j ->]; [by eexists|by eexists].
Qed.

Lemma closed_close d l r : closed d l = true -> is_Some (nth_close d (l ++ 37 :: 62 :: r)).
Proof.
  revert d l. apply closed_ind.
  - cbn [nth_close app find_str take length]. rewrite bool_decide_true by done. by eexists.
  - intros d c l _ [k Hk] Hne. cbn [app]. rewrite nth_close_cons, Hk by apply Hne. by eexists.
  - intros d l _ [k Hk]%nth_close_pred Hne. cbn [app]. rewrite !nth_close_cons, Hk by (apply Hne || done). by eexists.
  - intros d l _ [k Hk]. cbn [app]. rewrite nth_close_close, Hk. by eexists.
Qed.

Section inline.
Context (b : list Z).

Lemma inline_end_skip fuel n e c r : drop n b = c :: r -> take 2 (c :: r) <> [60; 37] -> inline_end fuel b n e = inline_end fuel b (S n) e.
Proof.
  intros Ed Hne. destruct fuel as [|fuel]; [done|]. cbn [inline_end]. pose proof (drop_inside _ _ _ _ Ed) as Hl.
  assert (strstr [60; 37] b n = strstr [60; 37] b (S n)) as ->; [|done]. unfold strstr. rewrite !(proj2 (Nat.leb_le _ _)) by lia. rewrite Ed, (find_str_cons [60; 37]) by done.
  replace (S n) with (n + length [c])%nat by (cbn; lia). rewrite (drop_at b n [c] r Ed).
  destruct (find_str [60; 37] r); cbn; [|done]. do 2 f_equal. lia.
Qed.

(** The loop finds the end of closed code, however deep scripts are nested in it. *)
Lemma inline_end_closed d l : closed d l = true -> forall fuel n k r, drop n b = l ++ 37 :: 62 :: r -> nth_close d (l ++ 37 :: 62 :: r) = Some k -> (length b - n < fuel)%nat ->
  inline_end fuel b n (n + k) = Ret (Some (n + length l)%nat).
Proof.
  revert d l. apply (closed_ind (fun d l => forall fuel n k r, drop n b = l ++ 37 :: 62 :: r -> nth_close d (l ++ 37 :: 62 :: r) = Some k -> (length b - n < fuel)%nat ->
    inline_end fuel b n (n + k) = Ret (Some (n + length l)%nat))).
  - intros [|fuel] n k r Ed Hk Hf; [lia|]. cbn [nth_close app find_str take length] in Hk. rewrite bool_decide_true in Hk by done. injection Hk as <-. cbn [inline_end].
    pose proof (drop_inside _ _ _ _ Ed). destruct (strstr_ok [60; 37] b n) as [x Ex]; [lia|]. rewrite Ex. cbn [mbind outcome_bind]. destruct x as [n'|]; [|done].
    apply strstr_Some in Ex as [[? _] _]. by rewrite (proj2 (Nat.ltb_ge _ _)) by lia.
  - intros d c l _ IH Hne fuel n k r Ed Hk Hf. cbn [app] in Ed, Hk. destruct (Hne r) as [Hn1 Hn2]. rewrite nth_close_cons in Hk by done.
    destruct (nth_close d (l ++ 37 :: 62 :: r)) as [k'|] eqn:Ek; [|done]. injection Hk as <-. rewrite (inline_end_skip _ _ _ _ _ Ed) by done.
    pose proof (drop_inside _ _ _ _ Ed). replace (n + S k')%nat with (S n + k')%nat by lia. rewrite (IH _ _ _ r); [do 2 f_equal; cbn; lia| |done|lia].
    replace (S n) with (n + 1)%nat by lia. by apply (drop_at b n [c]).
  - intros d l Hc IH Hne [|fuel] n k r Ed Hk Hf; [lia|]. cbn [app] in Ed, Hk. rewrite !nth_close_cons in Hk by (apply Hne || done).
    destruct (nth_close d (l ++ 37 :: 62 :: r)) as [k1|] eqn:Ek1; [|done]. injection Hk as <-. destruct (closed_close _ _ r Hc) as [k2 Ek2].
    pose proof Ek2 as Ek2'. rewrite (nth_close_next _ _ _ Ek1) in Ek2'. destruct (find_str [37; 62] (drop (k1 + 2) (l ++ 37 :: 62 :: r))) as [j|] eqn:Ej; [|done]. injection Ek2' as <-.
    assert (drop (n + 2) b = l ++ 37 :: 62 :: r) as Ed2 by (by apply (drop_at b n [60; 37])). pose proof (drop_inside _ _ _ _ Ed) as Hl.
    assert (strstr [60; 37] b n = Ret (Some n)) as En.
    { unfold strstr. rewrite (proj2 (Nat.leb_le _ _)), Ed by lia. cbn [find_str take length]. rewrite bool_decide_true by done. cbn. by rewrite Nat.add_0_r. }
    cbn [inline_end]. rewrite En. cbn [mbind outcome_bind]. rewrite (proj2 (Nat.ltb_lt _ _)) by lia.
    assert (strstr [37; 62] b (n + S (S k1) + 2) = Ret (Some (n + 2 + (k1 + 2 + j))%nat)) as ->.
    { pose proof (f_equal length Ed2) as Hlen. rewrite length_drop in Hlen. apply find_str_Some in Ej as Hj. destruct Hj as [_ Hj]. rewrite length_drop in Hj. cbn [length] in Hj.
      unfold strstr. rewrite (proj2 (Nat.leb_le _ _)) by lia. replace (n + S (S k1) + 2)%nat with (n + 2 + (k1 + 2))%nat by lia. rewrite <- drop_drop, Ed2, Ej. cbn. do 2 f_equal. lia. }
    cbn [mbind outcome_bind]. rewrite (IH fuel (n + 2)%nat _ r Ed2 Ek2) by lia. do 2 f_equal. cbn. lia.
  - intros d l _ IH fuel n k r Ed Hk Hf. cbn [app] in Ed, Hk. rewrite nth_close_close in Hk. destruct (nth_close d (l ++ 37 :: 62 :: r)) as [k'|] eqn:Ek; [|done]. injection Hk as <-.
    assert (drop (S n) b = 62 :: l ++ 37 :: 62 :: r) as Ed1 by (replace (S n) with (n + 1)%nat by lia; by apply (drop_at b n [37])).
    rewrite (inline_end_skip _ _ _ _ _ Ed), (inline_end_skip _ _ _ _ _ Ed1) by done. pose proof (drop_inside _ _ _ _ Ed1).
    replace (n + S (S k'))%nat with (S (S n) + k')%nat by lia. rewrite (IH _ _ _ r); [do 2 f_equal; cbn; lia| |done|lia].
    replace (S (S n)) with (S n + 1)%nat by lia. by apply (drop_at b (S n) [62]).
Qed.
End inline.

(** ** Tags with attributes *)

(** A value is between quotes of either kind, or a bare word. *)
Inductive quoting := Quote (c : Z) | Bare.
Notation att := (list Z * quoting * list Z)%type.

Definition print_value (k : quoting) (v : list Z) : list Z := match k with Quote c => c :: v ++ [c] | Bare => v end.
Definition print_att (a : att) : list Z := 32 :: a.1.1 ++ 61 :: print_value a.1.2 a.2.
Definition print_atts (atts : list att) : list Z := mjoin (print_att <$> atts).
Definition value_ok (k : quoting) (v : list Z) : Prop :=
  match k with Quote c => is_quote c = true /\ Forall (fun x => x <> c /\ x <> 60) v | Bare => TagNameValidate v = None end.
Definition att_ok (a : att) : Prop := TagNameValidate a.1.1 = None /\ value_ok a.1.2 a.2.
Definition as_attribute (a : att) : list Z * list Z * bool := (a.1.1, a.2, true).

Lemma print_atts_length atts : (length atts <= length (print_atts atts))%nat.
Proof. induction atts as [|a atts IH]; [done|]. change (print_atts (a :: atts)) with (print_att a ++ print_atts atts). rewrite length_app. cbn. lia. Qed.

Lemma valid_not_special c : TagValidChar c = true -> isspace c = false /\ c <> 61 /\ c <> 62 /\ c <> 60 /\ is_quote c = false /\ 0 < c < 128 /\ c <> 37 /\ c <> 47.
Proof.
  unfold TagValidChar. rewrite !orb_true_iff, !andb_true_iff, !Z.leb_le, !Z.eqb_eq. intros Hc. split_and!; try lia; [unfold isspace|unfold is_quote]; zcases; done || lia.
Qed.

Lemma first_valid c : TagValidFirstChar c = true -> TagValidChar c = true.
Proof. unfold TagValidFirstChar, TagValidChar. intros ->. done. Qed.

Lemma valid_name n : TagNameValidate n = None -> exists c t, n = c :: t /\ TagValidFirstChar c = true /\ Forall (fun x => TagValidChar x = true) t.
Proof.
  destruct n as [|c t]; [done|]. cbn. destruct (TagValidFirstChar c) eqn:Ec; [|done]. intros Ht. exists c, t. split_and!; [done|done|].
  induction t as [|x t IH]; [done|]. cbn in Ht. destruct (TagValidChar x) eqn:Ex; [|done]. constructor; [done|by apply IH].
Qed.

Lemma name_chars n : TagNameValidate n = None -> Forall (fun x => TagValidChar x = true) n.
Proof. intros (c & t & -> & Hc & Ht)%valid_name. constructor; [by apply first_valid|done]. Qed.

(** Concatenations to the right. *)
Ltac flat H := repeat (rewrite <- app_assoc in H; cbn [app] in H).

Ltac flat_goal := cbn [app]; repeat (rewrite <- app_assoc; cbn [app]).

Section tags.
Context (b : list Z).

Lemma quote_chars c : is_quote c = true -> c <> 0 /\ c <> 60 /\ isspace c = false.
Proof. unfold is_quote, isspace. rewrite orb_true_iff, !Z.eqb_eq. intros [-> | ->]; done. Qed.

(** The end of a value, in the search for the end of a tag. *)
Lemma value_end k v r p fuel : value_ok k v -> drop p b = print_value k v ++ r -> match r with x :: _ => TagValidChar x = false | [] => True end ->
  (let str := while_str isspace b p in
   c ← at_ b str;
   if is_quote c then
     let str := while_str (fun x => negb (x =? c)) b (str + 1) in
     x ← at_ b str;
     if x =? 0 then Ret None else tag_end_loop fuel b (str + 1)
   else if negb (TagValidFirstChar c) then Ret None
   else tag_end_loop fuel b (while_str TagValidChar b (str + 1))) = tag_end_loop fuel b (p + length (print_value k v)).
Proof.
  intros Hv Ed Hr. cbv zeta. destruct k as [c|]; cbn [value_ok print_value] in *.
  - destruct Hv as [Hq Hv]. destruct (quote_chars c Hq) as (H0 & _ & Hs). cbn [app] in Ed. rewrite <- app_assoc in Ed. rewrite (while_str_at b isspace p [] _ Ed) by done.
    cbn [length]. rewrite Nat.add_0_r, (at_drop b _ _ _ Ed). cbn [mbind outcome_bind]. rewrite Hq. apply (drop_at b _ [c]) in Ed. cbn [length] in Ed.
    rewrite (while_str_at b _ _ v (c :: _) Ed);
      [|eapply Forall_impl; [exact Hv|]; cbn; intros x [Hx _]; by rewrite (proj2 (Z.eqb_neq _ _))|by rewrite Z.eqb_refl].
    apply (drop_at b _ v) in Ed. rewrite (at_drop b _ _ _ Ed). cbn [mbind outcome_bind]. rewrite (proj2 (Z.eqb_neq c 0)) by done. f_equal. rewrite length_app. cbn. lia.
  - destruct (valid_name v Hv) as (c & t & -> & Hc & Ht). pose proof (valid_not_special c (first_valid c Hc)) as (Hs & _ & _ & _ & Hq & _). cbn [app] in Ed.
    rewrite (while_str_at b isspace p [] _ Ed) by done. cbn [length]. rewrite Nat.add_0_r, (at_drop b _ _ _ Ed). cbn [mbind outcome_bind]. rewrite Hq, Hc. cbn [negb].
    apply (drop_at b _ [c]) in Ed. cbn [length] in Ed. rewrite (while_str_at b TagValidChar _ t _ Ed) by done. f_equal. lia.
Qed.

(** What is behind an attribute. *)
Lemma atts_next atts r : exists x y, print_atts atts ++ 62 :: r = x :: y /\ TagValidChar x = false /\ (isspace x = true \/ atts = []).
Proof. destruct atts as [|a atts]; eexists _, _; (split; [reflexivity|]); auto. Qed.

Lemma tag_end_printed atts r fuel str : Forall att_ok atts -> drop str b = print_atts atts ++ 62 :: r -> (length atts < fuel)%nat ->
  tag_end_loop fuel b str = Ret (Some (str + length (print_atts atts))%nat).
Proof.
  intros Ha. revert fuel str. induction Ha as [|[[n k] v] atts [Hn Hv] _ IH]; intros [|fuel] str Ed Hf; [cbn in Hf; lia| |cbn in Hf; lia|]; cbn [tag_end_loop].
  - rewrite (while_str_at b isspace str [] (62 :: r)) by done. cbn [length]. rewrite Nat.add_0_r, (at_drop b _ _ _ Ed). cbn. by rewrite Nat.add_0_r.
  - cbn [fst snd] in *. change (print_atts ((n, k, v) :: atts)) with (print_att (n, k, v) ++ print_atts atts) in *. unfold print_att in *. cbn [fst snd] in *.
    destruct (valid_name n Hn) as (c & t & -> & Hc & Ht). pose proof (valid_not_special c (first_valid c Hc)) as Hcs. set (w := print_value k v) in *.
    flat Ed.
    rewrite (while_str_at b isspace str [32] _ Ed) by (try (by repeat constructor); apply Hcs). cbn [length].
    apply (drop_at b str [32]) in Ed. cbn [length] in Ed. rewrite (at_drop b _ _ _ Ed). cbn [mbind outcome_bind]. rewrite (proj2 (Z.eqb_neq c 62)), Hc by apply Hcs. cbn [negb].
    apply (drop_at b _ [c]) in Ed. cbn [length] in Ed. rewrite (while_str_at b TagValidChar _ t _ Ed) by done.
    apply (drop_at b _ t) in Ed. rewrite (while_str_at b isspace _ [] _ Ed) by done. cbn [length]. rewrite Nat.add_0_r, (at_drop b _ _ _ Ed). cbn [mbind outcome_bind Z.eqb Pos.eqb negb].
    apply (drop_at b _ [61]) in Ed. cbn [length] in Ed. destruct (atts_next atts r) as (x & y & Exy & Hx & _).
    etransitivity; [apply (value_end k v _ _ fuel Hv Ed); by rewrite Exy|]. fold w. apply drop_at in Ed.
    rewrite IH by (done || (cbn in Hf; lia)). do 2 f_equal. cbn [app length]. rewrite !length_app. cbn [length]. lia.
Qed.

(** The value of an attribute, with its quotes trimmed. *)
Lemma att_value_printed k v x y s e : value_ok k v -> drop (S s) b = print_value k v ++ x :: y -> let w := length (print_value k v) in
  (S s + w <= e)%nat -> isspace x = true \/ (S s + w)%nat = e -> exists vs ve z, att_value b s e = Ret (vs, ve, (S s + w)%nat) /\ cut_string b vs ve = v /\ at_ b ve = Ret z.
Proof.
  intros Hv Ed w He Hx. unfold att_value. destruct k as [c|]; cbn [value_ok print_value] in *.
  - destruct Hv as [Hq Hv]. destruct (quote_chars c Hq) as (_ & _ & Hs). assert (w = length v + 2)%nat as Ew by (subst w; cbn; rewrite length_app; cbn; lia). clearbody w. subst w.
    cbn [app] in Ed. rewrite <- app_assoc in Ed. rewrite (while_to_at b isspace _ e [] _ Ed) by (done || (cbn; lia)). cbn [length]. rewrite Nat.add_0_r, (at_drop b _ _ _ Ed). cbn [mbind outcome_bind].
    rewrite Hq, orb_true_r. apply (drop_at b _ [c]) in Ed. cbn [length] in Ed. replace (S (S s)) with (S s + 1)%nat by lia.
    rewrite (while_to_at b _ _ e v (c :: _) Ed); [|eapply Forall_impl; [exact Hv|]; cbn; intros u [Hu _]; by rewrite (proj2 (Z.eqb_neq _ _))|by rewrite Z.eqb_refl|lia].
    rewrite (proj2 (Nat.ltb_lt _ _)) by lia. cbn [andb]. pose proof Ed as Ed2. apply drop_at in Ed. replace (S (S s + 1 + length v) - 1)%nat with (S s + 1 + length v)%nat by lia.
    rewrite (at_drop b _ _ _ Ed). cbn [mbind outcome_bind]. rewrite Z.eqb_refl. eexists _, _, c. split; [do 2 f_equal; lia|]. split; [|by apply (at_drop b _ _ _ Ed)].
    unfold cut_string. rewrite (proj2 (Nat.leb_le _ _)) by lia. by apply (slice_at b _ _ v _ Ed2).
  - destruct (valid_name v Hv) as (c & t & Ev & Hc & _). pose proof (valid_not_special c (first_valid c Hc)) as (Hs & H61 & _ & _ & Hq & _).
    assert (Hns : Forall (fun u => negb (isspace u) = true) v) by (eapply Forall_impl; [exact (name_chars v Hv)|]; intros u Hu; by destruct (valid_not_special u Hu) as (-> & _)).
    rewrite (while_to_at b isspace _ e [] _ Ed); [|done|by rewrite Ev|cbn; lia]. cbn [length]. rewrite Nat.add_0_r, (at_drop b (S s) c (t ++ x :: y)) by (by rewrite Ed, Ev). cbn [mbind outcome_bind].
    rewrite Hq, (proj2 (Z.eqb_neq c 61)) by done. cbn [orb andb].
    assert (while_to (fun u => negb (isspace u)) b (S s) e = (S s + w)%nat) as ->.
    { destruct Hx as [Hx|Hx]; [apply (while_to_at b _ _ e v (x :: y) Ed); [done|by rewrite Hx|done]|]. rewrite Hx. by apply (while_to_end b _ _ e v (x :: y)). }
    eexists _, _, x. split; [done|]. split; [|eapply at_drop; by apply drop_at in Ed]. unfold cut_string. rewrite (proj2 (Nat.leb_le _ _)) by lia. by apply (slice_at b _ _ v _ Ed).
Qed.

Lemma parse_att_printed sp n k v x y s e : Forall (fun x => isspace x = true) sp -> att_ok (n, k, v) -> drop s b = sp ++ n ++ 61 :: print_value k v ++ x :: y ->
  let q := (s + length sp + length n + 1 + length (print_value k v))%nat in
  (q <= e)%nat -> isspace x = true \/ q = e -> parse_att b s e = Ret (Some (as_attribute (n, k, v), q)).
Proof.
  intros Hsp [Hn Hv] Ed q He Hx. cbn [fst snd] in *. pose proof (name_chars n Hn) as Hnc. destruct (valid_name n Hn) as (c & t & En & Hc & _). pose proof (valid_not_special c (first_valid c Hc)) as Hcs.
  unfold parse_att. rewrite (while_to_at b isspace s e sp _ Ed) by (done || (rewrite En; cbn; apply Hcs) || lia). apply drop_at in Ed. set (a := (s + length sp)%nat) in *.
  assert (0 < length n)%nat by (rewrite En; cbn; lia). rewrite (proj2 (Nat.eqb_neq _ _)) by lia. unfold att_name. rewrite (at_drop b a c (t ++ 61 :: print_value k v ++ x :: y)) by (rewrite Ed, En; done).
  cbn [mbind outcome_bind]. destruct Hcs as (_ & _ & _ & _ & Hq & _). rewrite Hq.
  rewrite (while_to_at b _ a e n (61 :: _) Ed); [|eapply Forall_impl; [exact Hnc|]; cbn; intros u Hu; destruct (valid_not_special u Hu) as (-> & Hu61 & _); by rewrite (proj2 (Z.eqb_neq _ _))|done|lia].
  pose proof Ed as Ed0. apply drop_at in Ed. rewrite (while_to_at b isspace _ e [] (61 :: _) Ed) by (done || (cbn; lia)). cbn [length mbind outcome_bind]. rewrite Nat.add_0_r. set (ae := (a + length n)%nat) in *.
  rewrite (at_drop b _ _ _ Ed). cbn [mbind outcome_bind Z.eqb Pos.eqb negb]. pose proof Ed as Ed1. apply (drop_at b _ [61]) in Ed. cbn [length] in Ed. replace (ae + 1)%nat with (S ae) in Ed by lia.
  destruct (att_value_printed k v x y ae e Hv Ed) as (vs & ve & z & -> & Ec & Ez); [lia|destruct Hx; [by left|right; lia]|]. cbn [mbind outcome_bind]. rewrite Ez. cbn [mbind outcome_bind]. rewrite Ec.
  unfold cut_string. rewrite (proj2 (Nat.leb_le _ _)) by lia. rewrite (slice_at b a ae n _ Ed0) by lia. unfold as_attribute. cbn [fst snd]. do 3 f_equal. lia.
Qed.

Lemma att_loop_printed atts r s e fuel : Forall att_ok atts -> drop s b = print_atts atts ++ 62 :: r -> e = (s + length (print_atts atts))%nat -> (length atts <= fuel)%nat ->
  att_loop fuel b s e = Ret (as_attribute <$> atts).
Proof.
  intros Ha. revert s fuel. induction Ha as [|[[n k] v] atts Hnv _ IH]; intros s fuel Ed Ee Hf.
  - destruct fuel; cbn [att_loop]; by rewrite (proj2 (Nat.ltb_ge _ _)) by (cbn in Ee; lia).
  - destruct fuel as [|fuel]; [cbn in Hf; lia|]. change (print_atts ((n, k, v) :: atts)) with (print_att (n, k, v) ++ print_atts atts) in *. cbn [att_loop].
    destruct (atts_next atts r) as (x & y & Exy & _ & Hx). rewrite <- app_assoc in Ed. pose proof Ed as Ed1. apply drop_at in Ed1. rewrite Exy in Ed. unfold print_att in *. cbn [fst snd] in *.
    assert (drop s b = [32] ++ n ++ 61 :: print_value k v ++ x :: y) as Ed' by (rewrite Ed; flat_goal; done).
    set (w := length (32 :: n ++ 61 :: print_value k v)) in *. assert (w = 1 + length n + 1 + length (print_value k v))%nat as Ew by (subst w; cbn; rewrite length_app; cbn; lia).
    rewrite length_app in Ee. fold w in Ee. clearbody w. rewrite (proj2 (Nat.ltb_lt _ _)) by lia.
    rewrite (parse_att_printed [32] n k v x y s e ltac:(by repeat constructor) Hnv Ed'); [|cbn; lia|destruct Hx as [Hx| ->]; [by left|right; cbn in *; lia]]. cbn [mbind outcome_bind].
    replace (s + length [32%Z] + length n + 1 + length (print_value k v))%nat with (s + w)%nat by (cbn; lia).
    rewrite (IH (s + w)%nat); [done|done|lia|cbn in Hf; lia].
Qed.

(** Where the first attribute starts. *)
Definition atts_start (s : nat) (atts : list att) : nat := match atts with [] => s | _ => S s end.

Lemma ParseAtts_printed atts r s e : Forall att_ok atts -> drop s b = print_atts atts ++ 62 :: r -> e = (s + length (print_atts atts))%nat ->
  while_to isspace b s e = atts_start s atts /\ ParseAtts b (atts_start s atts) e = Ret (as_attribute <$> atts).
Proof.
  intros Ha Ed ->. destruct Ha as [|[[n k] v] atts Hnv Ha]; cbn [atts_start].
  - rewrite while_to_past by (cbn; lia). split; [done|]. by apply (att_loop_printed [] r); [..|cbn; lia].
  - change (print_atts ((n, k, v) :: atts)) with (print_att (n, k, v) ++ print_atts atts) in *.
    destruct (valid_name n (proj1 Hnv)) as (c & t & En & Hc & _). pose proof (valid_not_special c (first_valid c Hc)) as Hcs.
    destruct (atts_next atts r) as (x & y & Exy & _ & Hx). rewrite <- app_assoc in Ed. pose proof Ed as Ed1. apply drop_at in Ed1. rewrite Exy in Ed. unfold print_att in *. cbn [fst snd] in *.
    assert (drop s b = [32] ++ n ++ 61 :: print_value k v ++ x :: y) as Ed' by (rewrite Ed; flat_goal; done).
    set (w := length (32 :: n ++ 61 :: print_value k v)) in *. assert (w = 1 + length n + 1 + length (print_value k v))%nat as Ew by (subst w; cbn; rewrite length_app; cbn; lia).
    rewrite length_app. fold w. clearbody w. split; [rewrite (while_to_at b isspace s _ [32] _ Ed'); [cbn; lia|by repeat constructor|rewrite En; apply Hcs|cbn; lia]|].
    unfold ParseAtts. cbn [att_loop]. rewrite (proj2 (Nat.ltb_lt _ _)) by lia. apply (drop_at b s [32]) in Ed'. cbn [length] in Ed'. replace (S s) with (s + 1)%nat by lia.
    rewrite (parse_att_printed [] n k v x y (s + 1) _ ltac:(by constructor) Hnv Ed'); [|cbn; lia|destruct Hx as [Hx| ->]; [by left|right; cbn in *; lia]]. cbn [mbind outcome_bind length].
    replace (s + 1 + 0 + length n + 1 + length (print_value k v))%nat with (s + w)%nat by lia. rewrite (att_loop_printed atts r); [done|done|done|lia|].
    pose proof (print_atts_length atts). lia.
Qed.
End tags.

(** ** Pages *)

(** Text: a character, a "<" that starts no tag, an element of HTML, a script tag that is not for the server. *)
Inductive piece := PChar (c : Z) | PLt (c : Z) | PHtml (name rest : list Z) | PScript (name : list Z) (atts : list att).

Inductive item :=
| IText (ps : list piece)
| ICode (code : list Z)
| IExpr (code : list Z)
| IEmpty (name : list Z) (atts : list att)
| IPair (name : list Z) (atts : list att) (content : list Z) (name2 : list Z)
| IServer (name : list Z) (atts : list att) (code : list Z) (name2 : list Z).

Definition print_piece (x : piece) : list Z :=
  match x with PChar c => [c] | PLt c => [60; c] | PHtml n r => 60 :: n ++ r ++ [62] | PScript n atts => 60 :: n ++ print_atts atts ++ [62] end.
Definition print_pieces (ps : list piece) : list Z := mjoin (print_piece <$> ps).

Definition print_item (i : item) : list Z :=
  match i with
  | IText ps => print_pieces ps
  | ICode c => 60 :: 37 :: c ++ [37; 62]
  | IExpr c => 60 :: 37 :: 61 :: c ++ [37; 62]
  | IEmpty n atts => 60 :: n ++ print_atts atts ++ [62]
  | IPair n atts c n2 => 60 :: n ++ print_atts atts ++ 62 :: c ++ 60 :: 47 :: n2 ++ [62]
  | IServer n atts c n2 => 60 :: n ++ print_atts atts ++ 62 :: c ++ 60 :: 47 :: n2 ++ [62]
  end.
Definition print_page (its : list item) : list Z := mjoin (print_item <$> its).

Definition starts_with_space (r : list Z) : Prop := match r with c :: _ => isspace c = true | [] => True end.

(** The word behind a "<", of which [GetTag] makes the name of a tag. *)
Definition tag_word (l : list Z) : list Z :=
  let l := drop (prefix_len isspace l) l in take (prefix_len (fun x => negb (isspace x) && negb (x =? 60) && negb (x =? 62)) l) l.

(** Content in which the tags [open] and [close] are balanced, with [d] of them open; no "<" follows the name in a closing
    tag at once. *)
Fixpoint nested (lower : list Z -> list Z) (open close : list Z) (d : nat) (c : list Z) : bool :=
  match c with
  | [] => (d =? 0)%nat
  | x :: s =>
      if x =? 60 then
        let w := lower (tag_word s) in
        if bool_decide (w = open) then nested lower open close (S d) s
        else if bool_decide (w = close) then
          match d with
          | O => false
          | S d => (length w <? length s)%nat && forallb (fun y => negb (y =? 60)) (take (S (length w)) s) && nested lower open close d s
          end
        else nested lower open close d s
      else nested lower open close d s
  end.

Section pages.
Context (lower : list Z -> list Z) (element : list Z -> list Z -> list Z) (find_tag : list Z -> option Tag) (flags : Z).

Definition is_script_name (n : list Z) : Prop := tolower <$> n = bytes "script".

Definition piece_ok (x : piece) : Prop :=
  match x with
  | PChar c => c <> 60
  | PLt c => c <> 60 /\ c <> 37 /\ TagValidFirstChar c = false
  | PHtml n r => TagNameValidate n = None /\ find_tag (lower n) = None /\ ~ is_script_name n /\ starts_with_space r /\ Forall (fun c => c <> 60) r
  | PScript n atts => is_script_name n /\ find_tag (lower n) = None /\ Forall att_ok atts /\
      existsb is_runat (as_attribute <$> atts) && negb (existsb is_nottcl (as_attribute <$> atts)) = false
  end.

Definition item_ok (i : item) : Prop :=
  match i with
  | IText ps => Forall piece_ok ps
  | ICode c => closed 0 c = true /\ match c with x :: _ => x <> 61 /\ x <> 62 | [] => True end
  | IExpr c => closed 0 (61 :: c) = true
  | IEmpty n atts => TagNameValidate n = None /\ ~ is_script_name n /\ Forall att_ok atts /\ exists t, find_tag (lower n) = Some t /\ endtag t = None
  | IPair n atts c n2 => TagNameValidate n = None /\ ~ is_script_name n /\ Forall att_ok atts /\ TagNameValidate n2 = None /\
      exists t, find_tag (lower n) = Some t /\ endtag t = Some (lower (47 :: n2)) /\ lower (47 :: n2) <> tag t /\ nested lower (tag t) (lower (47 :: n2)) 0 c = true
  | IServer n atts c n2 => TagNameValidate n = None /\ is_script_name n /\ Forall att_ok atts /\ is_script_name n2 /\ nested lower (bytes "script") (bytes "/script") 0 c = true /\
      existsb is_runat (as_attribute <$> atts) = true /\ existsb is_nottcl (as_attribute <$> atts) = false
  end.

(** The script of a registered tag: its procedure with the values of the attributes and the
    content, or its content and a set of the attributes. *)
Definition tag_script (t : Tag) (atts : list att) (inner : option (list Z)) : list Z :=
  let inside script := match inner with Some x => element script x | None => script end in
  let set script := append_atts element true (as_attribute <$> atts) (element (script ++ bytes " [ns_set create") (tag t)) ++ bytes "]" in
  match type t with
  | TAG_PROC => inside (append_atts element false (as_attribute <$> atts) (element (bytes "ns_adp_append [") (content t)))
  | TAG_SCRIPT => set (inside (element (bytes "ns_adp_append [") (content t)))
  | TAG_ADP => set (inside (element (bytes "ns_adp_append [" ++ bytes "ns_adp_parse -- ") (content t)))
  end ++ bytes "]".

(** The blocks of an item behind the text [pending], the text that is left, and whether streaming
    was turned on. *)
Definition item_blocks (pending : list Z) (streamed : bool) (i : item) : list (BlockType * list Z) * list Z * bool :=
  match i with
  | IText ps => ([], pending ++ print_pieces ps, streamed)
  | ICode c => ((BText, pending) :: (if adp_flag flags ADP_SAFE then [] else [(BScript, c)]), [], streamed)
  | IExpr c => ((BText, pending) :: (if adp_flag flags ADP_SAFE then [] else [(BAppend, c)]), [], streamed)
  | IEmpty n atts => ((BText, pending) :: match find_tag (lower n) with Some t => [(BScript, tag_script t atts None)] | None => [] end, [], streamed)
  | IPair n atts c n2 =>
      ((BText, pending) :: match find_tag (lower n) with Some t => [(BScript, tag_script t atts (Some c))] | None => [] end, [], streamed)
  | IServer n atts c n2 =>
      if adp_flag flags ADP_SAFE then ([(BText, pending)], [], streamed)
      else
        let stream := existsb is_stream (as_attribute <$> atts) && negb streamed in
        ((BText, pending) :: (if stream then [(BScript, bytes "ns_adp_ctl stream on")] else []) ++ [(BScript, c)], [], stream || streamed)
  end.

Fixpoint page_blocks (pending : list Z) (streamed : bool) (its : list item) : list (BlockType * list Z) :=
  match its with
  | [] => [(BText, pending)]
  | i :: its => let '(l, pending, streamed) := item_blocks pending streamed i in l ++ page_blocks pending streamed its
  end.

Definition append_blocks (p : Parse) (l : list (BlockType * list Z)) : Parse := foldl (fun p x => AppendBlock element p x.2 x.1 flags) p l.

End pages.

(** ** Tags in a page *)

Section find.
Context (b : list Z).

Lemma drop_slice (s q : nat) : (s <= q)%nat -> drop s b = slice b s q ++ drop q b.
Proof. intros Hs. unfold slice. rewrite <- (take_drop (q - s) (drop s b)) at 1. by rewrite drop_drop, Nat.add_sub_assoc, Nat.add_comm, Nat.add_sub by lia. Qed.

Lemma strchr_exists c (s : nat) w r : drop s b = w ++ c :: r -> strstr [c] b s <> Ret None.
Proof.
  intros E. unfold strstr. rewrite (proj2 (Nat.leb_le _ _)), E.
  2: { apply (f_equal length) in E. rewrite length_drop, length_app in E. cbn in E. lia. }
  assert (find_str [c] (w ++ c :: r) <> None) as Hf; [|by destruct (find_str [c] (w ++ c :: r))]. clear E. induction w as [|x w IH].
  - cbn. by rewrite bool_decide_true.
  - cbn [app find_str]. case_bool_decide; [done|]. by destruct (find_str [c] (w ++ c :: r)).
Qed.

Lemma lookup_drop_app (s i : nat) w r c : drop s b = w ++ r -> (s <= i < s + length w)%nat -> b !! i = Some c -> c ∈ w.
Proof.
  intros E Hi Hc. replace i with (s + (i - s))%nat in Hc by lia. rewrite <- lookup_drop, E, lookup_app_l in Hc by lia. by eapply list_elem_of_lookup_2.
Qed.

(** A start tag with any text before the next greater sign has an end behind its name. *)
Lemma html_end s n w r : TagNameValidate n = None -> drop s b = 60 :: n ++ w ++ 62 :: r ->
  exists e, NsParseTagEnd b s = Ret (Some e) /\ (s + 1 + length n <= e < length b)%nat /\ b !! e = Some 62.
Proof.
  intros Hn Ed. assert (b !! s = Some 60) as Hs by (by rewrite <- (Nat.add_0_r s), <- lookup_drop, Ed).
  destruct (NsParseTagEnd_ok b s _ Hs) as (x & Ex & Hx). destruct x as [e|].
  - destruct (Hx e eq_refl) as [Hle He]. exists e. split_and!; [done| |by eapply lookup_lt_Some|done].
    destruct (decide (s + 1 + length n <= e)%nat) as [|Hgt]; [done|]. exfalso. apply (lookup_drop_app s e (60 :: n) (w ++ 62 :: r)) in He; [|done|cbn; lia].
    apply elem_of_cons in He as [|He]; [done|]. pose proof (name_chars n Hn) as Hc. rewrite Forall_forall in Hc. by destruct (valid_not_special 62 (Hc _ He)) as (_ & _ & ? & _).
  - exfalso. unfold NsParseTagEnd in Ex. binds Ex. destruct a0; [done|]. apply (strchr_exists 62 s (60 :: n ++ w) r) in Ex; [done|]. rewrite Ed. flat_goal. done.
Qed.

(** The end of a tag with attributes. *)
Lemma printed_end s n atts r : TagNameValidate n = None -> Forall att_ok atts -> drop s b = 60 :: n ++ print_atts atts ++ 62 :: r ->
  NsParseTagEnd b s = Ret (Some (s + 1 + length n + length (print_atts atts))%nat).
Proof.
  intros Hn Ha Ed. destruct (valid_name n Hn) as (c & t & -> & Hc & Ht). unfold NsParseTagEnd. pose proof Ed as Ed0. apply (drop_at b s [60]) in Ed. cbn [length app] in Ed.
  rewrite (at_drop b _ _ _ Ed). cbn [mbind outcome_bind]. rewrite Hc. cbn [negb]. apply (drop_at b _ [c]) in Ed. cbn [length] in Ed. replace (s + 2)%nat with (s + 1 + 1)%nat by lia.
  rewrite (while_str_at b TagValidChar _ t _ Ed); [|done|destruct atts; done]. apply drop_at in Ed.
  assert (exists x y, print_atts atts ++ 62 :: r = x :: y /\ (x = 62 \/ isspace x = true)) as (x & y & Exy & Hx) by (destruct atts as [|a atts]; eexists _, _; (split; [reflexivity|]); auto).
  rewrite (at_drop b _ x y) by (by rewrite Ed). cbn [mbind outcome_bind].
  assert (negb (x =? 62) && negb (isspace x) = false) as -> by (destruct Hx as [->|Hx]; [done|by rewrite Hx, andb_false_r]).
  rewrite (tag_end_printed b atts r) by (done || (pose proof (f_equal length Ed0) as Hl; rewrite length_drop in Hl; cbn [length] in Hl; rewrite !length_app in Hl;
    pose proof (print_atts_length atts); lia)).
  cbn [mbind outcome_bind length]. do 2 f_equal. lia.
Qed.

Lemma GetTag_named lower s e n r : drop s b = 60 :: n ++ r -> n <> [] -> Forall (fun c => isspace c = false /\ c <> 60) n -> (s + 1 + length n <= e)%nat ->
  e = (s + 1 + length n)%nat \/ match r with c :: _ => isspace c = true | [] => False end ->
  GetTag lower b s e = (lower n, while_to isspace b (s + 1 + length n) e).
Proof.
  intros Ed Hne Hn He Hr. unfold GetTag. replace (S s) with (s + 1)%nat by lia. apply (drop_at b s [60]) in Ed. cbn [length] in Ed.
  rewrite (while_to_at b isspace (s + 1) e [] (n ++ r)); [|done|done|destruct Hn as [|c n Hc _]; [done|apply Hc]|cbn; lia]. cbn [length]. rewrite Nat.add_0_r.
  assert (while_to (fun x => negb (isspace x) && negb (x =? 60)) b (s + 1) e = (s + 1 + length n)%nat) as ->.
  { assert (Forall (fun c => negb (isspace c) && negb (c =? 60) = true) n) as Hp by (eapply Forall_impl; [exact Hn|]; cbn; intros x [-> Hx]; by rewrite (proj2 (Z.eqb_neq _ _))).
    destruct Hr as [Hr|Hr]; [rewrite <- Hr; by eapply (while_to_end b _ _ _ n r)|]. apply (while_to_at b _ _ _ n r); [done|done| |done]. destruct r as [|c r]; [done|]. by rewrite Hr. }
  by rewrite (slice_at b (s + 1) _ n r).
Qed.

Lemma prefix_len_before p u c v : p c = false -> prefix_len p (u ++ c :: v) = prefix_len p u.
Proof. intros Hc. induction u as [|x u IH]; cbn; [by rewrite Hc|]. by rewrite IH. Qed.

Lemma prefix_len_Forall p l : Forall (fun c => p c = true) (take (prefix_len p l) l).
Proof. induction l as [|c l IH]; cbn; [done|]. destruct (p c) eqn:E; [by constructor|done]. Qed.

Lemma tag_word_stop s c t : c = 60 \/ c = 62 -> tag_word (s ++ c :: t) = tag_word s.
Proof.
  intros Hc. unfold tag_word. cbv zeta. rewrite (prefix_len_before isspace) by (by destruct Hc as [-> | ->]). pose proof (prefix_len_le isspace s). rewrite drop_app_le by done.
  rewrite prefix_len_before by (destruct Hc as [-> | ->]; done). pose proof (prefix_len_le (fun x => negb (isspace x) && negb (x =? 60) && negb (x =? 62)) (drop (prefix_len isspace s) s)).
  by rewrite take_app_le.
Qed.

(** As many bytes as the word has contain no "<". *)
Lemma tag_word_clear l n : (n <= length (tag_word l))%nat -> Forall (fun c => c <> 60) (take n l).
Proof.
  intros Hn. set (k := prefix_len isspace l). set (w := tag_word l) in *. assert (exists r, l = take k l ++ w ++ r) as [r El].
  { unfold w, tag_word. cbv zeta. fold k. eexists. by rewrite (take_drop _ (drop k l)), take_drop. }
  assert (Forall (fun c => c <> 60) (take k l ++ w)) as Hc.
  { apply Forall_app. split; [eapply Forall_impl; [apply prefix_len_Forall|]; cbn; intros c Hc ->; done|]. unfold w, tag_word. cbv zeta.
    eapply Forall_impl; [apply prefix_len_Forall|]. cbn. intros c Hc ->. by rewrite andb_false_r in Hc. }
  rewrite El, app_assoc, take_app_le by (rewrite length_app; lia). by apply Forall_take.
Qed.

(** The name of a tag is the word behind its "<". *)
Lemma GetTag_word lower q l : drop q b = 60 :: l -> 62 ∈ l ->
  exists e, strstr [62] b q = Ret (Some e) /\ (GetTag lower b q e).1 = lower (tag_word l).
Proof.
  intros Ed Hin. apply list_elem_of_split_l in Hin as (u & v & -> & Hu).
  assert (Forall (fun x => x <> 62) u) as Hu' by (apply Forall_forall; intros x Hx ->; done).
  exists (q + length (60%Z :: u))%nat. split; [apply (strchr_at b 62 q (60 :: u) v); [done|by constructor]|]. rewrite (tag_word_stop u 62 v) by auto.
  unfold GetTag, while_to. cbn [fst length]. f_equal. pose proof Ed as Ed1. apply (drop_at b q [60]) in Ed1. cbn [length] in Ed1. replace (q + 1)%nat with (S q) in Ed1 by lia.
  assert (drop (S q) (take (q + S (length u)) b) = u) as Eu by (rewrite skipn_firstn_comm, Ed1; replace (q + S (length u) - S q)%nat with (length u) by lia; by rewrite take_app_length).
  rewrite Eu. unfold tag_word. cbv zeta. set (k := prefix_len isspace u). pose proof (prefix_len_le isspace u) as Hk. fold k in Hk.
  assert (drop (S q + k) (take (q + S (length u)) b) = drop k u) as Ek by (by rewrite <- drop_drop, Eu). rewrite Ek.
  assert (prefix_len (fun x => negb (isspace x) && negb (x =? 60) && negb (x =? 62)) (drop k u) = prefix_len (fun x => negb (isspace x) && negb (x =? 60)) (drop k u)) as ->.
  { assert (Forall (fun x => x <> 62) (drop k u)) as Hd by (by apply Forall_drop). clear -Hd. generalize dependent (drop k u). intros w Hd. induction Hd as [|x w Hx _ IH]; [done|].
    cbn [prefix_len]. rewrite (proj2 (Z.eqb_neq x 62)), andb_true_r, IH by done. done. }
  set (n := prefix_len _ (drop k u)). pose proof (prefix_len_le (fun x => negb (isspace x) && negb (x =? 60)) (drop k u)) as Hn. fold n in Hn.
  unfold slice. replace (S q + k + n - (S q + k))%nat with n by lia. rewrite <- drop_drop, Ed1, drop_app_le by done. by rewrite take_app_le.
Qed.

Lemma strstr_clear (s : nat) w r : drop s b = w ++ r -> Forall (fun c => c <> 60) w -> strstr [60] b (s + length w) = strstr [60] b s.
Proof.
  intros Ed Hw. destruct w as [|x w]; [by rewrite Nat.add_0_r|]. pose proof (f_equal length Ed) as Hl. rewrite length_drop, length_app in Hl. cbn [length] in Hl.
  unfold strstr. rewrite !(proj2 (Nat.leb_le _ _)) by (cbn; lia). rewrite (drop_at b s _ _ Ed), Ed. f_equal. clear Ed Hl. generalize (x :: w), Hw. clear x w Hw. intros w Hw.
  assert (find_str [60] (w ++ r) = Nat.add (length w) <$> find_str [60] r) as ->; [|destruct (find_str [60] r); [|done]; cbn; f_equal; lia].
  induction Hw as [|x w Hx _ IH]; [cbn [app]; by destruct (find_str [60] r)|]. cbn [app find_str take length]. rewrite bool_decide_false by (intros [= ?]; done). rewrite IH. by destruct (find_str [60] r).
Qed.
End find.

(** ** The parser on a page *)

Section walk.
Context (lower : list Z -> list Z) (element : list Z -> list Z -> list Z) `{!TclCase lower} (find_tag : list Z -> option Tag) (flags : Z) (b : list Z).

Notation adp_step := (adp_step lower element b find_tag flags).
Notation goes := (goes lower element b find_tag flags).

(** The parser looks for the next tag, at [q] or before with no "<" up to [q], and the text
    that was not appended yet is [pending]. *)
Record At (v : Vars) (q : nat) (pending : list Z) : Prop := {
  at_state : state v = TagNext;
  at_adp : (adp v <= q <= length b)%nat;
  at_clear : Forall (fun c => c <> 60) (slice b (adp v) q);
  at_text : (text_at v + length pending = q)%nat;
  at_pending : slice b (text_at v) q = pending
}.

Lemma slice_app (s q q' : nat) w r : (s <= q)%nat -> drop q b = w ++ r -> q' = (q + length w)%nat -> slice b s q' = slice b s q ++ w.
Proof.
  intros Hs Ed ->. unfold slice. replace (q + length w - s)%nat with (q - s + length w)%nat by lia. rewrite <- take_take_drop. f_equal.
  rewrite drop_drop. replace (s + (q - s))%nat with q by lia. by rewrite Ed, take_app_length.
Qed.

Lemma drop_le (q : nat) w r : drop q b = w ++ r -> w <> [] -> (q + length w <= length b)%nat.
Proof. intros E Hw. apply (f_equal length) in E. rewrite length_drop, length_app in E. destruct w; [done|]. cbn in *. lia. Qed.

(** Going over text without tags. *)
Lemma at_chars v q pending w r : At v q pending -> drop q b = w ++ r -> Forall (fun c => c <> 60) w -> At v (q + length w) (pending ++ w).
Proof.
  intros [H1 H2 H3 H4 H5] Ed Hw. destruct w as [|c w]; [by rewrite Nat.add_0_r, app_nil_r; split|]. pose proof (drop_le q _ _ Ed ltac:(done)) as Hl. split.
  - done.
  - lia.
  - rewrite (slice_app (adp v) q _ (c :: w) r) by (done || lia). by apply Forall_app.
  - rewrite length_app. lia.
  - rewrite (slice_app (text_at v) q _ (c :: w) r) by (done || lia). by rewrite H5.
Qed.

Lemma at_lt v q pending r : At v q pending -> drop q b = 60 :: r -> strstr [60] b (adp v) = Ret (Some q).
Proof.
  intros [H1 H2 H3 H4 H5] Ed. rewrite (strchr_at b 60 (adp v) (slice b (adp v) q) r); [|by rewrite (drop_slice b (adp v) q), Ed by lia|done].
  unfold slice. rewrite length_take, length_drop. do 2 f_equal. lia.
Qed.

(** A round that only moves on within the tag at [q], over [w] behind which it was looked for. *)
Lemma at_moved v q pending w r a : At v q pending -> drop q b = w ++ r -> w <> [] -> (q < a <= q + length w)%nat -> Forall (fun c => c <> 60) (tail w) ->
  At (mkVars (parse v) TagNext a (text_at v) (scriptStreamDone v)) (q + length w) (pending ++ w).
Proof.
  intros [H1 H2 H3 H4 H5] Ed Hw Ha Hc. pose proof (drop_le q _ _ Ed Hw) as Hl. split; cbn.
  - done.
  - lia.
  - apply Forall_forall. intros x Hx. rewrite Forall_forall in Hc. apply Hc. destruct w as [|y w]; [done|]. cbn [length tail] in *.
    unfold slice in Hx. replace a with (q + 1 + (a - q - 1))%nat in Hx by lia. rewrite <- drop_drop in Hx. apply (drop_at b q [y] (w ++ r)) in Ed. cbn [length] in Ed. rewrite Ed in Hx.
    apply list_elem_of_lookup in Hx as [i Hi]. apply lookup_take_Some in Hi as [Hi Hlt]. rewrite lookup_drop, lookup_app_l in Hi by lia. by eapply list_elem_of_lookup_2.
  - rewrite length_app. lia.
  - rewrite (slice_app (text_at v) q _ w r) by (done || lia). by rewrite H5.
Qed.

Lemma lower_name n : TagNameValidate n = None -> lower n = tolower <$> n.
Proof. intros Hn. apply lower_ascii. eapply Forall_impl; [exact (name_chars n Hn)|]. intros c Hc. by destruct (valid_not_special c Hc) as (_ & _ & _ & _ & _ & ? & _). Qed.

Lemma tolower_twice (n : list Z) : tolower <$> (tolower <$> n) = tolower <$> n.
Proof. induction n as [|c n IH]; [done|]. cbn. f_equal; [|done]. unfold tolower, isupper. zcases; lia. Qed.

Lemma STRIEQ_script n : TagNameValidate n = None -> STRIEQ (lower n) (bytes "script") = bool_decide (is_script_name n).
Proof. intros Hn. unfold STRIEQ, is_script_name. rewrite lower_name, tolower_twice by done. apply bool_decide_ext. by vm_compute (tolower <$> bytes "script"). Qed.

Lemma name_nonspace n : TagNameValidate n = None -> n <> [] /\ Forall (fun c => isspace c = false /\ c <> 60) n.
Proof.
  intros Hn. split; [by destruct n|]. eapply Forall_impl; [exact (name_chars n Hn)|]. intros c Hc. by destruct (valid_not_special c Hc) as (? & _ & _ & ? & _).
Qed.

(** The first tests of a start tag. *)
Lemma tag_next_start v q pending n r e : At v q pending -> TagNameValidate n = None -> drop q b = 60 :: n ++ r -> NsParseTagEnd b q = Ret (Some e) ->
  adp_step v = start_tag lower element b find_tag flags v q e.
Proof.
  intros Hv Hn Ed He. unfold Adp.adp_step. rewrite (at_lt v q pending _ Hv Ed). cbn [mbind outcome_bind]. rewrite (at_state _ _ _ Hv). unfold tag_next.
  destruct (valid_name n Hn) as (c & t & -> & Hc & _). apply (drop_at b q [60]) in Ed. cbn [length app] in Ed. rewrite (at_drop b _ _ _ Ed). cbn [mbind outcome_bind].
  rewrite (proj2 (Z.eqb_neq c 37)) by apply (valid_not_special c (first_valid c Hc)). cbn [mbind outcome_bind]. rewrite Hc. cbn [negb]. by rewrite He.
Qed.

(** A start tag with attributes, up to the search in the table. *)
Lemma start_printed v q pending n atts r : At v q pending -> TagNameValidate n = None -> Forall att_ok atts -> drop q b = 60 :: n ++ print_atts atts ++ 62 :: r ->
  let s := (q + 1 + length n)%nat in let e := (s + length (print_atts atts))%nat in
  adp_step v = start_tag lower element b find_tag flags v q e /\ GetTag lower b q e = (lower n, atts_start s atts) /\
  drop s b = print_atts atts ++ 62 :: r /\ drop (e + 1) b = r /\ (e < length b)%nat /\ length (lower n) = length n.
Proof.
  intros Hv Hn Ha Ed s e. destruct (name_nonspace n Hn) as [Hne Hnn]. assert (drop s b = print_atts atts ++ 62 :: r) as Eds.
  { subst s. replace (q + 1 + length n)%nat with (q + length (60%Z :: n))%nat by (cbn; lia). by apply drop_at. }
  pose proof Eds as Ede. apply drop_at in Ede. fold e in Ede. split_and!.
  - eapply tag_next_start; [done|done|done|]. by rewrite (printed_end b q n atts r).
  - rewrite (GetTag_named b lower q e n _ Ed); [|done|done|lia|destruct atts; [left; cbn in e; subst e; lia|by right]]. f_equal. by apply (ParseAtts_printed b atts r).
  - done.
  - by apply (drop_at b e [62]).
  - by eapply drop_inside.
  - by rewrite lower_name, length_fmap.
Qed.

Lemma atts_clear atts : Forall att_ok atts -> Forall (fun c => c <> 60) (print_atts atts).
Proof.
  assert (forall n, TagNameValidate n = None -> Forall (fun c => c <> 60) n) as Hname by (intros n Hn; eapply Forall_impl; [exact (proj2 (name_nonspace n Hn))|]; by intros x [_ ?]).
  induction 1 as [|[[n k] v] atts [Hn Hv] _ IH]; [done|]. change (print_atts ((n, k, v) :: atts)) with (print_att (n, k, v) ++ print_atts atts). apply Forall_app. split; [|done].
  unfold print_att. cbn [fst snd] in *. constructor; [done|]. rewrite Forall_app. split; [by apply Hname|]. constructor; [done|]. destruct k as [c|]; cbn [print_value value_ok] in *; [|by apply Hname].
  destruct Hv as [Hq Hv]. destruct (quote_chars c Hq) as (_ & H60 & _). constructor; [done|]. apply Forall_app. split; [|by repeat constructor]. eapply Forall_impl; [exact Hv|]. by intros x [_ ?].
Qed.

Lemma is_script_valid n : is_script_name n -> TagNameValidate n = None.
Proof.
  unfold is_script_name. intros Hn. assert (Forall (fun c => TagValidFirstChar c = true) n) as Hf.
  { apply Forall_forall. intros c Hc. assert (tolower c ∈ bytes "script") as Hi by (rewrite <- Hn; by apply list_elem_of_fmap_2).
    change (bytes "script") with [115; 99; 114; 105; 112; 116] in Hi. apply list_elem_of_In in Hi. cbn [In] in Hi. unfold tolower, isupper in Hi. unfold TagValidFirstChar. zcases; try done; lia. }
  destruct Hf as [|c n Hc Hf]; [done|]. cbn. rewrite Hc. clear Hn. induction Hf as [|x n Hx _ IH]; [done|]. cbn. by rewrite (first_valid _ Hx).
Qed.

Lemma piece_walk v q pending x r : At v q pending -> piece_ok lower find_tag x -> drop q b = print_piece x ++ r ->
  exists v', rtc goes v v' /\ parse v' = parse v /\ scriptStreamDone v' = scriptStreamDone v /\ At v' (q + length (print_piece x)) (pending ++ print_piece x).
Proof.
  intros Hv Hx Ed. destruct x as [c|c|n w|n atts]; cbn [print_piece piece_ok] in *.
  - exists v. split_and!; [done|done|done|]. eapply at_chars; [done|done|]. by repeat constructor.
  - destruct Hx as (H60 & H37 & Hf). eexists. split_and!; [apply rtc_once| | |eapply (at_moved v q pending [60; c] r (q + 1)); [done|done|done|cbn; lia|by repeat constructor]].
    + unfold AdpSafe.goes, Adp.adp_step. rewrite (at_lt v q pending _ Hv Ed). cbn [mbind outcome_bind]. rewrite (at_state _ _ _ Hv). unfold tag_next.
      apply (drop_at b q [60]) in Ed. cbn [length app] in Ed. rewrite (at_drop b _ _ _ Ed). cbn [mbind outcome_bind]. rewrite (proj2 (Z.eqb_neq c 37)) by done. cbn [mbind outcome_bind]. by rewrite Hf.
    + done.
    + done.
  - destruct Hx as (Hn & Hft & Hns & Hw & Hw60). assert (drop q b = 60 :: n ++ w ++ 62 :: r) as Ed' by (rewrite Ed; flat_goal; done).
    destruct (html_end b q n w r Hn Ed') as (e & He & Hle & Hc). destruct (name_nonspace n Hn) as [Hne Hnn].
    assert (exists a, GetTag lower b q e = (lower n, a)) as [a Eg].
    { eexists. eapply GetTag_named; [exact Ed'|done|done|lia|]. destruct w as [|c w]; [left|by right].
      cbn [app] in Ed'. pose proof (printed_end b q n [] r Hn ltac:(done) Ed') as He'. rewrite He in He'. injection He' as ->. cbn. lia. }
    eexists. split_and!; [apply rtc_once; unfold AdpSafe.goes; rewrite (tag_next_start v q pending n _ e Hv Hn Ed' He); unfold start_tag; rewrite Eg; unfold GetScript;
      rewrite STRIEQ_script, bool_decide_false, andb_false_r by done; cbn [mbind outcome_bind]; rewrite Hft; reflexivity|done|done|].
    apply (at_moved v q pending _ r); [done|done|done| |].
    + rewrite lower_name, length_fmap by done. cbn [length]. rewrite !length_app. cbn. lia.
    + cbn [tail]. rewrite !Forall_app. split_and!; [eapply Forall_impl; [exact Hnn|]; by intros x [_ ?]|done|by repeat constructor].
  - destruct Hx as (Hsn & Hft & Ha & Hcl). pose proof (is_script_valid n Hsn) as Hn. assert (drop q b = 60 :: n ++ print_atts atts ++ 62 :: r) as Ed' by (rewrite Ed; flat_goal; done).
    destruct (start_printed v q pending n atts r Hv Hn Ha Ed') as (S1 & Hg & Eds & _ & _ & Hlen). cbn zeta in *. set (s := (q + 1 + length n)%nat) in *. set (e := (s + length (print_atts atts))%nat) in *.
    assert (GetScript b (lower n) (atts_start s atts) e = Ret None) as Hgs.
    { unfold GetScript. rewrite (proj2 (ParseAtts_printed b atts r s e Ha Eds eq_refl)). cbn [mbind outcome_bind]. rewrite Hcl. by destruct ((atts_start s atts <? e)%nat && _). }
    eexists. split_and!; [apply rtc_once; unfold AdpSafe.goes; rewrite S1; unfold start_tag; rewrite Hg, Hgs; cbn [mbind outcome_bind]; rewrite Hft; reflexivity|done|done|].
    apply (at_moved v q pending _ r); [done|done|done| |].
    + rewrite Hlen. cbn [length]. rewrite !length_app. cbn. lia.
    + cbn [tail]. rewrite !Forall_app. split_and!; [eapply Forall_impl; [exact (proj2 (name_nonspace n Hn))|]; by intros x [_ ?]|by apply atts_clear|by repeat constructor].
Qed.

Lemma pieces_walk ps v q pending r : At v q pending -> Forall (piece_ok lower find_tag) ps -> drop q b = print_pieces ps ++ r ->
  exists v', rtc goes v v' /\ parse v' = parse v /\ scriptStreamDone v' = scriptStreamDone v /\ At v' (q + length (print_pieces ps)) (pending ++ print_pieces ps).
Proof.
  intros Hv Hps. revert v q pending Hv. induction Hps as [|x ps Hx _ IH]; intros v q pending Hv Ed.
  - exists v. cbn. rewrite app_nil_r, Nat.add_0_r. done.
  - change (print_pieces (x :: ps)) with (print_piece x ++ print_pieces ps) in *. rewrite <- app_assoc in Ed. destruct (piece_walk v q pending x _ Hv Hx Ed) as (v1 & R1 & P1 & S1 & H1).
    apply drop_at in Ed. destruct (IH _ _ _ H1 Ed) as (v2 & R2 & P2 & S2 & H2). exists v2. split_and!; [by etrans|congruence|congruence|].
    by rewrite length_app, Nat.add_assoc, app_assoc.
Qed.

(** Behind an item, with nothing pending. *)
Lemma at_behind v q' w r : state v = TagNext -> drop (adp v) b = w ++ r -> Forall (fun c => c <> 60) w -> q' = (adp v + length w)%nat -> (q' <= length b)%nat -> text_at v = q' ->
  At v q' [].
Proof.
  intros Hst Ed Hw Hq Hl Ht. split; [done|lia| |cbn; lia|rewrite Ht; unfold slice; by rewrite Nat.sub_diag]. by rewrite (slice_at b _ _ w r).
Qed.

Lemma inline_walk v q pending code r : At v q pending -> closed 0 code = true -> match code with x :: _ => x <> 62 | [] => True end -> drop q b = 60 :: 37 :: code ++ 37 :: 62 :: r ->
  exists c, at_ b (q + 2) = Ret c /\ match code with x :: _ => c = x | [] => c = 37 end /\
  let p := AppendBlock element (parse v) pending BText flags in
  let p := if adp_flag flags ADP_SAFE then p else if negb (c =? 61) then AppendBlock element p code BScript flags else AppendBlock element p (tail code) BAppend flags in
  exists v', rtc goes v v' /\ parse v' = p /\ scriptStreamDone v' = scriptStreamDone v /\ At v' (q + 2 + length code + 2) [].
Proof.
  intros Hv Hcl Hhd Ed. pose proof Ed as Ed0. assert (drop (q + 2) b = code ++ 37 :: 62 :: r) as Ed2 by (by apply (drop_at b q [60; 37])).
  assert (exists c, at_ b (q + 2) = Ret c /\ (c =? 62) = false /\ match code with x :: _ => c = x | [] => c = 37 end) as (c & Ec & Hc62 & Hc).
  { destruct code as [|x code]; eexists; (split; [eapply at_drop; exact Ed2|]); [done|]. split; [by apply Z.eqb_neq|done]. }
  exists c. split; [done|]. split; [done|]. intros p0 p. destruct (closed_close 0 code r Hcl) as [k Hk]. pose proof (at_lt v q pending _ Hv Ed) as Hlt.
  set (v1 := mkVars (parse v) TagInlineCode (adp v) (text_at v) (scriptStreamDone v)).
  assert (adp_step v = Ret (true, v1)) as S1.
  { unfold Adp.adp_step. rewrite Hlt. cbn [mbind outcome_bind]. rewrite (at_state _ _ _ Hv). unfold tag_next. apply (drop_at b q [60]) in Ed. cbn [length] in Ed. rewrite (at_drop b _ _ _ Ed). cbn [mbind outcome_bind Z.eqb Pos.eqb].
    rewrite Ec. cbn [mbind outcome_bind]. by rewrite Hc62. }
  assert (strstr [37; 62] b q = Ret (Some (q + 2 + k)%nat)) as Hs.
  { pose proof (drop_inside _ _ _ _ Ed0). unfold strstr. rewrite (proj2 (Nat.leb_le _ _)), Ed0 by lia. rewrite (find_str_cons [37; 62] 60), (find_str_cons [37; 62] 37) by (destruct code as [|x code]; cbn; [done|]; congruence || done).
    cbn [nth_close] in Hk. rewrite Hk. cbn. do 2 f_equal. lia. }
  pose proof (drop_inside _ _ _ _ Ed0) as Hin.
  set (e := (q + 2 + length code)%nat). assert (adp_step v1 = Ret (true, mkVars p TagNext (e + 2) (e + 2) (scriptStreamDone v))) as S2.
  { unfold Adp.adp_step. cbn [adp v1]. rewrite Hlt. cbn [mbind outcome_bind state v1]. unfold inline_code. rewrite Hs. cbn [mbind outcome_bind].
    rewrite (inline_end_closed b 0 code Hcl (S (length b)) (q + 2) k r Ed2 Hk) by lia. cbn [mbind outcome_bind]. rewrite Ec. cbn [mbind outcome_bind parse text_at scriptStreamDone v1]. fold e.
    rewrite (at_pending v q pending Hv), (slice_at b (q + 2) e code _ Ed2) by done. subst p p0. destruct (adp_flag flags ADP_SAFE); [done|]. destruct (negb (c =? 61)) eqn:E61; [done|].
    destruct code as [|x code]; [by subst c|]. cbn [tail]. rewrite (slice_at b (q + 3) e code (37 :: 62 :: r)); [done| |unfold e; cbn; lia].
    replace (q + 3)%nat with (q + 2 + 1)%nat by lia. by apply (drop_at b (q + 2) [x]). }
  eexists. split; [|split; [|split]]; [eapply rtc_l; [exact S1|apply rtc_once; exact S2]|done|done|].
  apply drop_at in Ed2. fold e in Ed2. assert (e + 2 <= length b)%nat as Hle by (apply (f_equal length) in Ed2; rewrite length_drop in Ed2; cbn in Ed2; lia).
  apply (at_behind _ _ [] (drop (e + 2) b)); cbn; done || lia.
Qed.

Lemma AppendTag_script p t atts r s e se : Forall att_ok atts -> drop s b = print_atts atts ++ 62 :: r -> e = (s + length (print_atts atts))%nat ->
  match se with Some q => (e < q)%nat | None => True end ->
  AppendTag element p t b (atts_start s atts) e se flags =
  Ret (AppendBlock element p (tag_script element t atts (match se with Some q => Some (slice b (e + 1) q) | None => None end)) BScript flags).
Proof.
  intros Ha Ed He Hse. destruct (ParseAtts_printed b atts r s e Ha Ed He) as [_ Hp]. unfold AppendTag, tag_script. rewrite Hp.
  destruct (type t), se as [q|]; cbn [mbind outcome_bind]; rewrite ?(proj2 (Nat.ltb_lt _ _)) by done; done.
Qed.

Lemma empty_walk v q pending n atts r t : At v q pending -> TagNameValidate n = None -> ~ is_script_name n -> Forall att_ok atts -> find_tag (lower n) = Some t -> endtag t = None ->
  drop q b = 60 :: n ++ print_atts atts ++ 62 :: r ->
  exists v', rtc goes v v' /\ parse v' = append_blocks element flags (parse v) [(BText, pending); (BScript, tag_script element t atts None)] /\
    scriptStreamDone v' = scriptStreamDone v /\ At v' (q + 1 + length n + length (print_atts atts) + 1) [].
Proof.
  intros Hv Hn Hns Ha Ht Het Ed. destruct (start_printed v q pending n atts r Hv Hn Ha Ed) as (S1 & Hg & Eds & Ede & Hle & Hlen). cbn zeta in *. set (s := (q + 1 + length n)%nat) in *. set (e := (s + length (print_atts atts))%nat) in *.
  eexists. split_and!.
  - apply rtc_once. unfold AdpSafe.goes. rewrite S1. unfold start_tag. rewrite Hg. unfold GetScript. rewrite STRIEQ_script, bool_decide_false, andb_false_r by done. cbn [mbind outcome_bind].
    rewrite Ht, Het, (AppendTag_script _ t atts r s e None) by done. cbn [mbind outcome_bind]. rewrite (at_pending v q pending Hv). reflexivity.
  - done.
  - done.
  - apply (at_behind _ _ (print_atts atts ++ [62]) r); cbn [state adp text_at].
    + done.
    + rewrite Hlen. replace (q + length n + 1)%nat with s by lia. rewrite Eds. flat_goal. done.
    + apply Forall_app. split; [by apply atts_clear|by repeat constructor].
    + rewrite length_app, Hlen. cbn. lia.
    + lia.
    + done.
Qed.

(** What a round makes of the tag at [q] in content in which tags are nested: [st] is the state for a level. *)
Definition counts (st : nat -> TagParseState) (open close : list Z) : Prop := forall v level q l,
  state v = st level -> strstr [60] b (adp v) = Ret (Some q) -> drop q b = 60 :: l -> 62 ∈ l -> let w := lower (tag_word l) in
  (1 < level)%nat \/ w = open \/ w <> close ->
  exists k, (k <= length w + (if bool_decide (w = close) then 1 else 0))%nat /\
    goes v (mkVars (parse v) (st (if bool_decide (w = open) then S level else if bool_decide (w = close) then level - 1 else level)%nat) (q + 1 + k) (text_at v) (scriptStreamDone v)).

(** Going over nested content, to the closing tag behind it. *)
Lemma nested_walk st open close c t : counts st open close -> open <> close -> 62 ∈ t -> forall d v q, state v = st (S d) -> strstr [60] b (adp v) = strstr [60] b q -> nested lower open close d c = true ->
  drop q b = c ++ 60 :: t -> exists v', rtc goes v v' /\ parse v' = parse v /\ text_at v' = text_at v /\ scriptStreamDone v' = scriptStreamDone v /\
    state v' = st 1%nat /\ strstr [60] b (adp v') = Ret (Some (q + length c)%nat).
Proof.
  intros Hst Hoc Ht. induction c as [|x s IH]; intros d v q Es Ea Hb Ed; cbn [nested app] in *.
  { apply Nat.eqb_eq in Hb as ->. exists v. rewrite Ea, (strchr_at b 60 q [] t Ed) by done. done. }
  pose proof Ed as Ed1. apply (drop_at b q [x]) in Ed1. cbn [length] in Ed1.
  assert (forall d v', rtc goes v v' -> parse v' = parse v -> text_at v' = text_at v -> scriptStreamDone v' = scriptStreamDone v -> state v' = st (S d) ->
    strstr [60] b (adp v') = strstr [60] b (q + 1) -> nested lower open close d s = true -> exists v', rtc goes v v' /\ parse v' = parse v /\ text_at v' = text_at v /\ scriptStreamDone v' = scriptStreamDone v /\
    state v' = st 1%nat /\ strstr [60] b (adp v') = Ret (Some (q + S (length s))%nat)) as Hgo.
  { intros d' v1 R1 P1 T1 D1 E1 A1 B1. destruct (IH d' v1 (q + 1)%nat E1 A1 B1 Ed1) as (v2 & R2 & P2 & T2 & D2 & E2 & A2). exists v2.
    split_and!; [by etrans|congruence|congruence|congruence|done|]. rewrite A2. do 2 f_equal. lia. }
  destruct (Z.eqb_spec x 60) as [->|Hx].
  2: { apply (Hgo d v); try done. rewrite Ea. symmetry. apply (strstr_clear b q [x] _ Ed). by repeat constructor. }
  assert (strstr [60] b q = Ret (Some q)) as Eq by (rewrite (strchr_at b 60 q [] _ Ed) by done; by rewrite Nat.add_0_r). rewrite Eq in Ea.
  assert (62 ∈ s ++ 60 :: t) as Hin by (apply elem_of_app; right; by apply elem_of_cons; right).
  pose proof (Hst v (S d) q _ Es Ea Ed Hin) as H. rewrite (tag_word_stop s 60 t) in H by auto. set (w := lower (tag_word s)) in *.
  assert (forall k, (k <= length w)%nat \/ ((k <= S (length w))%nat /\ (length w < length s)%nat /\ Forall (fun y => y <> 60) (take (S (length w)) s)) -> strstr [60] b (q + 1 + k) = strstr [60] b (q + 1)) as Hclear.
  { intros k Hk. pose proof (lower_length (tag_word s)) as Hll. fold w in Hll. assert ((k <= length s)%nat /\ Forall (fun y => y <> 60) (take k s)) as [Hks Hkc].
    { destruct Hk as [Hk|(Hk & Hs & Hf)].
      - split; [|apply tag_word_clear; lia]. assert (length (tag_word s) <= length s)%nat by (unfold tag_word; cbv zeta; rewrite length_take, length_drop; lia). lia.
      - split; [lia|].  replace (take k s) with (take k (take (S (length w)) s)) by (rewrite take_take; f_equal; lia). by apply Forall_take. }
    rewrite <- (length_take_le s k) at 1 by done. apply (strstr_clear b (q + 1) (take k s) (drop k s ++ 60 :: t)); [|done]. by rewrite app_assoc, take_drop. }
  case_bool_decide as Ew; [|case_bool_decide as Ec].
  - destruct H as (k & Hk & Hgs); [by auto|]. rewrite (bool_decide_false (w = close)) in Hk by congruence. rewrite Nat.add_0_r in Hk. rewrite (bool_decide_true (w = open)) in Hgs by done. eapply (Hgo (S d)); [apply rtc_once; exact Hgs|done..| |done]. apply Hclear. by left.
  - destruct d as [|d]; [done|]. apply andb_true_iff in Hb as [[Hl%Nat.ltb_lt Hf]%andb_true_iff Hb]. destruct H as (k & Hk & Hgs); [left; lia|]. rewrite (bool_decide_true (w = close)) in Hk, Hgs by done. rewrite (bool_decide_false (w = open)) in Hgs by done. cbn in Hgs.
    eapply (Hgo d); [apply rtc_once; exact Hgs|done..| |done]. apply Hclear. right. split_and!; [lia|done|]. apply Forall_forall. intros y Hy. rewrite forallb_forall in Hf.
    apply list_elem_of_In in Hy. apply Hf in Hy. by apply negb_true_iff, Z.eqb_neq in Hy.
  - destruct H as (k & Hk & Hgs); [by auto|]. rewrite (bool_decide_false (w = close)) in Hk, Hgs by done. rewrite (bool_decide_false (w = open)) in Hgs by done. rewrite Nat.add_0_r in Hk. eapply (Hgo d); [apply rtc_once; exact Hgs|done..| |done]. apply Hclear. by left.
Qed.

Lemma in_script_counts a str : counts (fun level => TagScript level a str) (bytes "script") (bytes "/script").
Proof.
  intros v level q l Es Ea Ed Hin w Hw. destruct (GetTag_word b lower q l Ed Hin) as (e & He & Hg). exists (length w). split; [lia|].
  unfold AdpSafe.goes, Adp.adp_step. rewrite Ea. cbn [mbind outcome_bind]. rewrite Es. unfold in_script. rewrite He. cbn [mbind outcome_bind]. rewrite Hg. fold w.
  replace (q + length w + 1)%nat with (q + 1 + length w)%nat by lia. case_bool_decide as E1; [done|]. case_bool_decide as E2; [|by rewrite Es]. destruct Hw as [Hl|[Hw|Hw]]; [|done|done].
  by rewrite (proj2 (Nat.eqb_neq (level - 1) 0)) by lia.
Qed.

Lemma in_registered_counts t a e0 close : endtag t = Some close -> counts (fun level => TagReg level t a e0) (tag t) close.
Proof.
  intros Het v level q l Es Ea Ed Hin w Hw. destruct (GetTag_word b lower q l Ed Hin) as (e & He & Hg).
  unfold AdpSafe.goes, Adp.adp_step. rewrite Ea. cbn [mbind outcome_bind]. rewrite Es. unfold in_registered. rewrite He. cbn [mbind outcome_bind]. rewrite Hg, Het. fold w.
  destruct (decide (w = tag t)) as [E1|E1]; [rewrite !(bool_decide_true (w = tag t)) by done; exists (length w); split; [lia|]; by replace (q + length w + 1)%nat with (q + 1 + length w)%nat by lia|].
  rewrite !(bool_decide_false (w = tag t)) by done. destruct (decide (w = close)) as [E2|E2].
  - rewrite (bool_decide_true (w = close)), (bool_decide_true (Some w = Some close)) by congruence. destruct Hw as [Hl|[Hw|Hw]]; [|done|done]. rewrite (proj2 (Nat.eqb_neq (level - 1) 0)) by lia.
    exists (length w + 1)%nat. split; [lia|]. by replace (q + length w + 2)%nat with (q + 1 + (length w + 1))%nat by lia.
  - rewrite (bool_decide_false (w = close)), (bool_decide_false (Some w = Some close)) by congruence. exists O. split; [lia|]. rewrite Es. by replace (q + 1 + 0)%nat with (q + 1)%nat by lia.
Qed.

(** The closing tag at [q]. *)
Lemma close_tag q n2 r : TagNameValidate n2 = None -> drop q b = 60 :: 47 :: n2 ++ 62 :: r ->
  let e := (q + 2 + length n2)%nat in
  strstr [62] b q = Ret (Some e) /\ (GetTag lower b q e).1 = lower (47 :: n2) /\ lower (47 :: n2) = 47 :: (tolower <$> n2) /\ drop (e + 1) b = r /\ (e < length b)%nat.
Proof.
  intros Hn Ed e. destruct (name_nonspace n2 Hn) as [_ Hnn]. pose proof (name_chars n2 Hn) as Hc.
  assert (drop e b = 62 :: r) as Ede by (replace e with (q + length (60%Z :: 47%Z :: n2))%nat by (cbn; lia); by apply drop_at). split_and!.
  - replace e with (q + length (60%Z :: 47%Z :: n2))%nat by (cbn; lia). apply (strchr_at b 62 q _ r); [done|]. repeat constructor; [done..|].
    eapply Forall_impl; [exact Hc|]. intros c Hv. by destruct (valid_not_special c Hv) as (_ & _ & ? & _).
  - rewrite (GetTag_named b lower q e (47 :: n2) (62 :: r)); [done|done|done|by constructor|cbn; lia|left; cbn; lia].
  - rewrite lower_ascii; [done|]. constructor; [done|]. eapply Forall_impl; [exact Hc|]. intros c Hv. by destruct (valid_not_special c Hv) as (_ & _ & _ & _ & _ & ? & _).
  - by apply (drop_at b e [62]).
  - by eapply drop_inside.
Qed.

(** The search for tags goes on behind the name of a tag, where its attributes have no "<". *)
Lemma tag_behind v s atts r e : Forall att_ok atts -> drop s b = print_atts atts ++ 62 :: r -> e = (s + length (print_atts atts))%nat -> adp v = s -> strstr [60] b (adp v) = strstr [60] b (e + 1).
Proof.
  intros Ha Ed -> ->. symmetry. replace (s + length (print_atts atts) + 1)%nat with (s + length (print_atts atts ++ [62%Z]))%nat by (rewrite length_app; cbn; lia).
  apply (strstr_clear b s _ r); [by rewrite <- app_assoc|]. apply Forall_app. split; [by apply atts_clear|by repeat constructor].
Qed.

Lemma pair_walk v q pending n atts cs n2 r t : At v q pending -> TagNameValidate n = None -> ~ is_script_name n -> Forall att_ok atts -> TagNameValidate n2 = None ->
  find_tag (lower n) = Some t -> endtag t = Some (lower (47 :: n2)) -> lower (47 :: n2) <> tag t -> nested lower (tag t) (lower (47 :: n2)) 0 cs = true ->
  drop q b = 60 :: n ++ print_atts atts ++ 62 :: cs ++ 60 :: 47 :: n2 ++ 62 :: r ->
  exists v', rtc goes v v' /\ parse v' = append_blocks element flags (parse v) [(BText, pending); (BScript, tag_script element t atts (Some cs))] /\
    scriptStreamDone v' = scriptStreamDone v /\ At v' (q + 1 + length n + length (print_atts atts) + 1 + length cs + 3 + length n2) [].
Proof.
  intros Hv Hn Hns Ha Hn2 Ht Het Hdiff Hcs Ed. destruct (start_printed v q pending n atts _ Hv Hn Ha Ed) as (S1 & Hg & Eds & Ede & Hle & Hlen). cbn zeta in *.
  set (s := (q + 1 + length n)%nat) in *. set (e := (s + length (print_atts atts))%nat) in *.
  set (v1 := mkVars (AppendBlock element (parse v) pending BText flags) (TagReg 1 t (atts_start s atts) e) (q + length n + 1) (text_at v) (scriptStreamDone v)).
  assert (adp_step v = Ret (true, v1)) as Hv1.
  { rewrite S1. unfold start_tag. rewrite Hg. unfold GetScript. rewrite STRIEQ_script, bool_decide_false, andb_false_r by done. cbn [mbind outcome_bind]. rewrite Ht, Het, Hlen, (at_pending v q pending Hv). done. }
  set (q2 := (e + 1 + length cs)%nat). assert (drop q2 b = 60 :: 47 :: n2 ++ 62 :: r) as Ed2 by (by apply drop_at in Ede).
  destruct (nested_walk _ _ _ cs (47 :: n2 ++ 62 :: r) (in_registered_counts t (atts_start s atts) e _ Het) ltac:(congruence) ltac:(set_solver) 0 v1 (e + 1) eq_refl (tag_behind v1 s atts _ e Ha Eds eq_refl ltac:(cbn; lia)) Hcs Ede)
    as (v2 & R2 & P2 & T2 & D2 & E2 & A2). fold q2 in A2.
  destruct (close_tag q2 n2 r Hn2 Ed2) as (He2 & Hg2 & Hl2 & Ed3 & Hle2). cbn zeta in *. set (e2 := (q2 + 2 + length n2)%nat) in *.
  set (v3 := mkVars (AppendBlock element (AppendBlock element (parse v) pending BText flags) (tag_script element t atts (Some cs)) BScript flags) TagNext (e2 + 1) (e2 + 1) (scriptStreamDone v)).
  assert (adp_step v2 = Ret (true, v3)) as Hv3.
  { unfold Adp.adp_step. rewrite A2. cbn [mbind outcome_bind]. rewrite E2. unfold in_registered. rewrite He2. cbn [mbind outcome_bind]. rewrite Hg2.
    rewrite bool_decide_false, Het, bool_decide_true by done. change (1 - 1 =? 0)%nat with true. cbn iota.
    rewrite (AppendTag_script _ t atts (cs ++ 60 :: 47 :: n2 ++ 62 :: r) s e (Some q2)) by (done || lia). cbn [mbind outcome_bind].
    rewrite (slice_at b (e + 1) q2 cs _ Ede) by done. rewrite P2, D2. cbn [parse scriptStreamDone v1]. unfold v3. do 3 f_equal. rewrite Hl2. cbn [length]. rewrite length_fmap. lia. }
  exists v3. split_and!; [eapply rtc_l; [exact Hv1|]; etrans; [exact R2|by apply rtc_once]|done|done|].
  apply (at_behind v3 _ [] (drop (e2 + 1) b)); cbn [state adp text_at v3]; [done|done|done|cbn; lia|lia|lia].
Qed.

Lemma server_walk v q pending n atts c n2 r : At v q pending -> TagNameValidate n = None -> is_script_name n -> Forall att_ok atts -> is_script_name n2 -> nested lower (bytes "script") (bytes "/script") 0 c = true ->
  existsb is_runat (as_attribute <$> atts) = true -> existsb is_nottcl (as_attribute <$> atts) = false ->
  drop q b = 60 :: n ++ print_atts atts ++ 62 :: c ++ 60 :: 47 :: n2 ++ 62 :: r ->
  let '(l, _, streamed) := item_blocks lower element find_tag flags pending (scriptStreamDone v) (IServer n atts c n2) in
  exists v', rtc goes v v' /\ parse v' = append_blocks element flags (parse v) l /\ scriptStreamDone v' = streamed /\
    At v' (q + 1 + length n + length (print_atts atts) + 1 + length c + 3 + length n2) [].
Proof.
  intros Hv Hn Hsn Ha Hn2 Hc Hrun Htcl Ed. pose proof (is_script_valid n2 Hn2) as Hn2v. destruct (start_printed v q pending n atts _ Hv Hn Ha Ed) as (S1 & Hg & Eds & Ede & Hle & Hlen). cbn zeta in *.
  set (s := (q + 1 + length n)%nat) in *. set (e := (s + length (print_atts atts))%nat) in *. set (st := existsb is_stream (as_attribute <$> atts)).
  set (v1 := mkVars (AppendBlock element (parse v) pending BText flags) (TagScript 1 (e + 1) st) (q + length n + 1) (text_at v) (scriptStreamDone v)).
  assert (adp_step v = Ret (true, v1)) as Hv1.
  { rewrite S1. unfold start_tag. rewrite Hg. unfold GetScript. rewrite STRIEQ_script, bool_decide_true by done. rewrite (proj2 (ParseAtts_printed b atts _ s e Ha Eds eq_refl)).
    rewrite (proj2 (Nat.ltb_lt _ _)). 2: { destruct atts as [|a atts]; [done|]. cbn [atts_start]. change (print_atts (a :: atts)) with (print_att a ++ print_atts atts) in e. subst e. rewrite length_app. cbn. rewrite length_app. cbn. lia. }
    cbn [andb mbind outcome_bind]. rewrite Hrun, Htcl. cbn [andb negb]. rewrite Hlen, (at_pending v q pending Hv). done. }
  set (q2 := (e + 1 + length c)%nat). assert (drop q2 b = 60 :: 47 :: n2 ++ 62 :: r) as Ed2 by (by apply drop_at in Ede).
  destruct (close_tag q2 n2 r Hn2v Ed2) as (He2 & Hg2 & Hl2 & Ed3 & Hle2). cbn zeta in *. set (e2 := (q2 + 2 + length n2)%nat) in *.
  destruct (nested_walk _ _ _ c (47 :: n2 ++ 62 :: r) (in_script_counts (e + 1) st) ltac:(discriminate) ltac:(set_solver) 0 v1 (e + 1) eq_refl (tag_behind v1 s atts _ e Ha Eds eq_refl ltac:(cbn; lia)) Hc Ede)
    as (v2 & R2 & P2 & T2 & D2 & E2 & A2). fold q2 in A2.
  destruct (script_blocks element b flags v2 (e + 1) q2 st) as [p streamed] eqn:Esb.
  assert (adp_step v2 = Ret (true, mkVars p TagNext (q2 + 2 + length n2) (e2 + 1) streamed)) as Hv2.
  { unfold Adp.adp_step. rewrite A2. cbn [mbind outcome_bind]. rewrite E2. unfold in_script. rewrite He2. cbn [mbind outcome_bind]. rewrite Hg2, Hl2, Hn2.
    rewrite bool_decide_false, bool_decide_true by done. change (1 - 1 =? 0)%nat with true. cbn iota. rewrite Esb, <- Hn2. cbn [length]. rewrite length_fmap. by replace (q2 + S (length n2) + 1)%nat with (q2 + 2 + length n2)%nat by lia. }
  assert (rtc goes v (mkVars p TagNext (q2 + 2 + length n2) (e2 + 1) streamed)) as R by (eapply rtc_l; [exact Hv1|]; etrans; [exact R2|by apply rtc_once]).
  assert (At (mkVars p TagNext (q2 + 2 + length n2) (e2 + 1) streamed) (e2 + 1) []) as Hat.
  { apply (at_behind _ _ [62] r); cbn [state adp text_at]; [done| |by repeat constructor|cbn; lia|lia|done].
    replace (q2 + 2 + length n2)%nat with (q2 + length (60%Z :: 47%Z :: n2))%nat by (cbn; lia). by apply drop_at. }
  replace (q2 + 3 + length n2)%nat with (e2 + 1)%nat by lia.
  unfold script_blocks in Esb. rewrite P2, D2 in Esb. cbn [parse scriptStreamDone v1] in Esb. rewrite (slice_at b (e + 1) q2 c _ Ede) in Esb by done. unfold item_blocks. fold st.
  destruct (adp_flag flags ADP_SAFE); [injection Esb as <- <-; eexists; split_and!; [exact R|done|done|done]|].
  destruct (st && negb (scriptStreamDone v)); injection Esb as <- <-; (eexists; split_and!; [exact R|done|done|done]).
Qed.

Lemma item_walk v q pending i r : At v q pending -> item_ok lower find_tag i -> drop q b = print_item i ++ r ->
  let '(l, pending', streamed) := item_blocks lower element find_tag flags pending (scriptStreamDone v) i in
  exists v', rtc goes v v' /\ parse v' = append_blocks element flags (parse v) l /\ scriptStreamDone v' = streamed /\ At v' (q + length (print_item i)) pending'.
Proof.
  intros Hv Hi Ed. destruct i as [ps|c|c|n atts|n atts cs n2|n atts c n2]; cbn [item_ok print_item] in *.
  - by apply (pieces_walk ps v q pending r).
  - destruct Hi as [Hcl Hhd]. assert (drop q b = 60 :: 37 :: c ++ 37 :: 62 :: r) as Ed' by (rewrite Ed; flat_goal; done).
    destruct (inline_walk v q pending c r Hv Hcl ltac:(destruct c; tauto) Ed') as (x & Ex & Hx & v' & R & P & D & A). cbn [item_blocks].
    exists v'. split_and!; [done| |done|]. 2: { replace (length (60 :: 37 :: c ++ [37; 62])) with (2 + length c + 2)%nat by (cbn; rewrite length_app; cbn; lia). by rewrite !Nat.add_assoc. }
    rewrite P. assert (negb (x =? 61) = true) as -> by (destruct c as [|y c]; [by subst x|]; subst x; rewrite (proj2 (Z.eqb_neq _ _)); [done|tauto]). by destruct (adp_flag flags ADP_SAFE).
  - assert (drop q b = 60 :: 37 :: (61 :: c) ++ 37 :: 62 :: r) as Ed' by (rewrite Ed; flat_goal; done).
    destruct (inline_walk v q pending (61 :: c) r Hv Hi ltac:(done) Ed') as (x & Ex & -> & v' & R & P & D & A). cbn [item_blocks].
    exists v'. split_and!; [done| |done|]. 2: { replace (length (60 :: 37 :: 61 :: c ++ [37; 62])) with (2 + length (61%Z :: c) + 2)%nat by (cbn; rewrite length_app; cbn; lia). by rewrite !Nat.add_assoc. }
    rewrite P. cbn [Z.eqb Pos.eqb negb tail]. by destruct (adp_flag flags ADP_SAFE).
  - destruct Hi as (Hn & Hns & Ha & t & Ht & Het). cbn [item_blocks]. rewrite Ht. assert (drop q b = 60 :: n ++ print_atts atts ++ 62 :: r) as Ed' by (rewrite Ed; flat_goal; done).
    replace (length (60 :: n ++ print_atts atts ++ [62])) with (1 + length n + length (print_atts atts) + 1)%nat by (cbn; rewrite !length_app; cbn; lia). rewrite !Nat.add_assoc. by apply (empty_walk v q pending n atts r t).
  - destruct Hi as (Hn & Hns & Ha & Hn2 & t & Ht & Het & Hd & Hcs). cbn [item_blocks]. rewrite Ht.
    assert (drop q b = 60 :: n ++ print_atts atts ++ 62 :: cs ++ 60 :: 47 :: n2 ++ 62 :: r) as Ed' by (rewrite Ed; flat_goal; done).
    replace (length (60 :: n ++ print_atts atts ++ 62 :: cs ++ 60 :: 47 :: n2 ++ [62]))
      with (1 + length n + length (print_atts atts) + 1 + length (cs) + 3 + length n2)%nat by (cbn; rewrite !length_app; cbn; rewrite !length_app; cbn; rewrite !length_app; cbn; lia).
    rewrite !Nat.add_assoc. by apply (pair_walk v q pending n atts cs n2 r t).
  - destruct Hi as (Hn & Hsn & Ha & Hn2 & Hc & Hrun & Htcl). assert (drop q b = 60 :: n ++ print_atts atts ++ 62 :: c ++ 60 :: 47 :: n2 ++ 62 :: r) as Ed' by (rewrite Ed; flat_goal; done).
    replace (length (60 :: n ++ print_atts atts ++ 62 :: c ++ 60 :: 47 :: n2 ++ [62]))
      with (1 + length n + length (print_atts atts) + 1 + length c + 3 + length n2)%nat by (cbn; rewrite !length_app; cbn; rewrite !length_app; cbn; rewrite !length_app; cbn; lia).
    rewrite !Nat.add_assoc. pose proof (server_walk v q pending n atts c n2 r Hv Hn Hsn Ha Hn2 Hc Hrun Htcl Ed') as H. cbn [item_blocks] in *. destruct (adp_flag flags ADP_SAFE); exact H.
Qed.

Lemma page_walk its v q pending : At v q pending -> Forall (item_ok lower find_tag) its -> drop q b = print_page its ->
  exists v', rtc goes v v' /\ adp_step v' = Ret (false, v') /\ (text_at v' <= length b)%nat /\
    AppendBlock element (parse v') (drop (text_at v') b) BText flags = append_blocks element flags (parse v) (page_blocks lower element find_tag flags pending (scriptStreamDone v) its).
Proof.
  intros Hv Hits. revert v q pending Hv. induction Hits as [|i its Hi _ IH]; intros v q pending Hv Ed.
  - pose proof Hv as [H1 H2 H3 H4 H5]. exists v. assert (drop q b = []) as Eq by done. split_and!; [done| |lia|].
    + unfold Adp.adp_step. rewrite (strchr_absent b 60 (adp v)); [done|lia|]. by rewrite (drop_slice b (adp v) q), Eq, app_nil_r by lia.
    + rewrite (drop_slice b (text_at v) q), Eq, app_nil_r, H5 by lia. done.
  - change (print_page (i :: its)) with (print_item i ++ print_page its) in Ed. pose proof (item_walk v q pending i _ Hv Hi Ed) as Hw. cbn [page_blocks].
    destruct (item_blocks lower element find_tag flags pending (scriptStreamDone v) i) as [[l p'] st]. destruct Hw as (v1 & R1 & P1 & D1 & H1). apply drop_at in Ed.
    destruct (IH _ _ _ H1 Ed) as (v2 & R2 & S2 & T2 & B2). exists v2. split_and!; [by etrans|done|done|]. rewrite B2, P1, D1. unfold append_blocks. by rewrite foldl_app.
Qed.
End walk.

(** ** Execution of blocks *)

(** A block as it is in the text. *)
Definition block_bytes (x : BlockType * list Z) : list Z := match x.1 with BAppend => APPEND ++ x.2 | _ => x.2 end.
Definition is_text (x : BlockType * list Z) : bool := match x.1 with BText => true | _ => false end.

(** Empty blocks are left out. *)
Definition live (l : list (BlockType * list Z)) : list (BlockType * list Z) := filter (fun x => x.2 <> []) l.

Definition block_len (x : BlockType * list Z) : Z := let l := Z.of_nat (length (block_bytes x)) in if is_text x then l else - l.

Section run.
Context {W : Type} (flush : NsInterp W -> Z * NsInterp W) (eval : list Z -> NsInterp W -> Z * NsInterp W) (timeout : NsInterp W -> bool) (log : NsInterp W -> NsInterp W).

(** The meaning of a list of blocks: each is run, until there is an exception or, if errors are
    strict, an error. *)
Fixpoint run_blocks (l : list (BlockType * list Z)) (result : Z) (it : NsInterp W) : Z * NsInterp W :=
  match l with
  | [] => (result, it)
  | x :: l =>
      if bool_decide (exception it = ADP_OK) then
        let '(result, it) := run_block flush eval timeout (is_text x) (block_bytes x) it in
        let '(stop, it) := after_block log result it in
        if (stop : bool) then (result, it) else run_blocks l result it
      else (result, it)
  end.

Lemma exec_run l r it : Forall (fun x => x.1 = BText -> x.2 <> []) l -> exec_loop flush eval timeout log (block_len <$> l) (mjoin (block_bytes <$> l)) r it = Ret (run_blocks l r it).
Proof.
  intros Hl. revert r it. induction Hl as [|x l Hx _ IH]; intros r it; [done|]. cbn [fmap list_fmap exec_loop run_blocks mjoin list_join].
  destruct (bool_decide (exception it = ADP_OK)); [|done]. cbn [negb]. assert ((0 <? block_len x) = is_text x) as ->.
  { destruct x as [[| |] t]; unfold block_len, is_text, block_bytes; cbn in *; [|zcases; done || lia..]. specialize (Hx eq_refl). destruct t; [done|]. by zcases. }
  assert (Z.abs (block_len x) = Z.of_nat (length (block_bytes x))) as -> by (unfold block_len; destruct (is_text x); lia).
  rewrite aslice_prefix by done. cbn [checked mbind outcome_bind]. destruct (run_block flush eval timeout (is_text x) (block_bytes x) it) as [r1 it1].
  destruct (after_block log r1 it1) as [stop it2]. destruct stop; [done|]. rewrite Nat2Z.id, drop_app_length. apply IH.
Qed.
End run.

Lemma append_blocks_code element flags l p : adp_flag flags ADP_SINGLE = false -> let p' := append_blocks element flags p l in
  lengths p' = lengths p ++ (block_len <$> live l) /\ text (codePtr p') = text (codePtr p) ++ mjoin (block_bytes <$> live l).
Proof.
  intros Hf. revert p. induction l as [|[ty s] l IH]; intros p; cbn zeta; [cbn; by rewrite !app_nil_r|]. unfold append_blocks, live. cbn [foldl filter list_filter snd fst].
  change (foldl (fun p x => AppendBlock element p x.2 x.1 flags) ?q l) with (append_blocks element flags q l). destruct (IH (AppendBlock element p s ty flags)) as [-> ->].
  unfold AppendBlock. rewrite Hf. destruct (decide (s = [])) as [->|Hs]; [rewrite bool_decide_true, decide_False by (done || auto); done|]. rewrite bool_decide_false, decide_True by done.
  cbn [codePtr text lengths fmap list_fmap mjoin list_join]. unfold block_len, block_bytes, is_text. cbn [fst snd]. rewrite <- !app_assoc. by destruct ty.
Qed.

(** The script of a page that is a single script: the texts are arguments of [ns_adp_append]. *)
Definition single_script (element : list Z -> list Z -> list Z) (l : list (BlockType * list Z)) : list Z :=
  foldl (fun t x => match x.1 with BAppend => t ++ APPEND ++ x.2 | BText => element (t ++ APPEND) x.2 | BScript => t ++ x.2 end ++ [10]) [] (live l).

(** What is run for the blocks of a page. *)
Definition code_blocks (element : list Z -> list Z -> list Z) (flags : Z) (l : list (BlockType * list Z)) : list (BlockType * list Z) :=
  if adp_flag flags ADP_SINGLE then [(BScript, single_script element l)] else live l.

Lemma append_blocks_single element flags l : adp_flag flags ADP_SINGLE = true -> text (codePtr (append_blocks element flags (mkParse no_code 0 [] []) l)) = single_script element l.
Proof.
  intros Hf. unfold single_script. set (add := fun t x => _).
  assert (forall p, text (codePtr (append_blocks element flags p l)) = foldl add (text (codePtr p)) (live l)) as H; [|apply H]. unfold append_blocks, live.
  induction l as [|[ty s] l IH]; intros p; [done|]. cbn [foldl filter list_filter snd fst]. rewrite IH. unfold AppendBlock. rewrite Hf.
  destruct (decide (s = [])) as [->|Hs]; [rewrite bool_decide_true, decide_False by (done || auto); done|]. rewrite bool_decide_false, decide_True by done. by destruct ty.
Qed.

Lemma page_code lower element find_tag flags its : TclCase lower -> Forall (item_ok lower find_tag) its ->
  AdpParseAdp lower element (print_page its) find_tag flags =
  Ret (let p := append_blocks element flags (mkParse no_code 0 [] []) (page_blocks lower element find_tag flags [] false its) in
       let c := codePtr p in
       if adp_flag flags ADP_SINGLE then AppendLengths (mkCode 1 1 (len c) (line c) (text c)) [- Z.of_nat (length (text c))] [0] else AppendLengths c (lengths p) (lines p)).
Proof.
  intros Hlow Hits. set (b := print_page its). set (v0 := mkVars (mkParse no_code 0 [] []) TagNext 0 0 false).
  assert (At b v0 0 []) as Hv by (split; cbn; [done|lia|done|done|done]).
  destruct (page_walk lower element find_tag flags b its v0 0 [] Hv Hits eq_refl) as (v & Hr & Hs & Ht & Hb). unfold AdpParseAdp. fold v0.
  rewrite (loop_ends _ _ _ _ _ _ _ _ _ Hr Hs) by (unfold measure; cbn; lia). cbn [mbind outcome_bind]. destruct (at_ok b (text_at v) Ht) as [c ->]. cbn [mbind outcome_bind]. by rewrite Hb.
Qed.

(** ** Theorems *)

(** A page made of texts with markup, inline scripts and expressions, script elements and
    registered tags is parsed into exactly the blocks of these items, in order: the texts
    between them as they are, the scripts however they are nested, and for a registered tag
    the call with its attributes and content; in safe mode the scripts of the page are left out. *)
Theorem page_parsed lower element find_tag flags its : TclCase lower -> Forall (item_ok lower find_tag) its ->
  AdpParseAdp lower element (print_page its) find_tag flags =
  Ret (let p := append_blocks element flags (mkParse no_code 0 [] []) (page_blocks lower element find_tag flags [] false its) in
       let c := codePtr p in
       if adp_flag flags ADP_SINGLE then AppendLengths (mkCode 1 1 (len c) (line c) (text c)) [- Z.of_nat (length (text c))] [0] else AppendLengths c (lengths p) (lines p)).
Proof. apply page_code. Qed.

(** C19.  Running the parsed page runs its items: the texts are appended to the output and the scripts
    evaluated in the order of the page, until an exception or a strict error, without an
    access outside of the text; in the mode with a single script, this script is evaluated, in
    which the texts are arguments of [ns_adp_append].

    A page is a list of items ([item_ok]).  A text has characters, a "<" in front of a character other than "<", "%", a letter or
    a digit, tags that are neither registered nor script tags and have no "<" inside, and script tags that are not for the
    server.  Inline scripts "<% %>" and "<%= %>" are balanced and do not start with ">".  Registered tags and
    script elements for the server have attributes, each with a value in double or single quotes,
    without "<", or a bare word; in their content, the tags of the same name are balanced, also those within strings
    of a script, and no "<" follows the name in an inner closing tag at once.  Not among these pages: attributes without a value, unbalanced tags, the empty script "<%>". *)
Theorem page_runs {W} lower element find_tag flags its (flush : NsInterp W -> Z * NsInterp W) eval timeout log : TclCase lower ->
  Forall (item_ok lower find_tag) its -> exists c, AdpParseAdp lower element (print_page its) find_tag flags = Ret c /\
  forall it, AdpExec flush eval timeout log c it =
    Ret (leave_page (run_blocks flush eval timeout log (code_blocks element flags (page_blocks lower element find_tag flags [] false its)) 0 it)).
Proof.
  intros Hlow Hits. rewrite page_code by done. eexists. split; [done|]. intros it. cbn zeta. set (l := page_blocks _ _ _ _ _ _ _). unfold code_blocks. destruct (adp_flag flags ADP_SINGLE) eqn:Hf.
  - rewrite append_blocks_single by done. unfold AdpExec, AppendLengths. cbn [nblocks len text take].
    pose proof (exec_run flush eval timeout log [(BScript, single_script element l)] 0 it ltac:(repeat constructor; done)) as H.
    unfold block_len, block_bytes, is_text in H. cbn [fst snd fmap list_fmap mjoin list_join] in H. rewrite app_nil_r in H. by rewrite H.
  - destruct (append_blocks_code element flags l (mkParse no_code 0 [] []) Hf) as [Hl Ht]. cbn zeta in Hl, Ht. set (p := append_blocks element flags _ l) in *.
    assert (Parse_ok p) as (Hc & Hn & _). { subst p. clear Hl Ht. assert (forall q, Parse_ok q -> Parse_ok (append_blocks element flags q l)) as H; [|apply H; by repeat split].
      induction l as [|x l IH]; intros q Hq; [done|]. apply IH. by apply append_ok. }
    unfold AdpExec, AppendLengths. cbn [nblocks len text]. rewrite take_take, Nat.min_id, take_ge, Hl, Ht by lia. cbn [app lengths no_code text codePtr].
    rewrite exec_run; [done|]. apply Forall_forall. intros x Hx _. by apply list_elem_of_filter in Hx as [? _].
Qed.

(** The access that [AdpSafe.NsAdpParse_total] excludes, on the smallest page that has it: with a script tag whose quote is not
    closed and a greater sign, an equal sign and a quote at the end of the page, the parser goes behind the end. *)
Theorem attribute_overrun lower element find_tag flags : TclCase lower -> AdpParseAdp lower element (bytes "<script " ++ [34] ++ bytes "x>=" ++ [34]) find_tag flags = Fault.
Proof.
  intros Hlow. set (b := bytes "<script " ++ _). unfold AdpParseAdp. replace (2 * length b + 2)%nat with (S 27) by done. cbn [adp_loop].
  assert (GetTag lower b 0 10 = (bytes "script", 8%nat)) as Hg.
  { change (GetTag lower b 0 10) with (lower (bytes "script"), 8%nat). rewrite lower_ascii; [done|]. change (bytes "script") with [115; 99; 114; 105; 112; 116]. repeat constructor; lia. }
  assert (adp_step lower element b find_tag flags (mkVars (mkParse no_code 0 [] []) TagNext 0 0 false) = Fault) as ->; [|done].
  unfold adp_step. change (strstr [60] b (adp _)) with (Ret (A:=option nat) (Some 0%nat)). cbn [mbind outcome_bind state]. unfold tag_next. change (at_ b (0 + 1)) with (Ret 115). cbn [mbind outcome_bind Z.eqb Pos.eqb].
  change (TagValidFirstChar 115) with true. cbn [negb]. assert (NsParseTagEnd b 0 = Ret (Some 10%nat)) as -> by reflexivity. cbn [mbind outcome_bind]. unfold start_tag. rewrite Hg. reflexivity.
Qed.

(** When the value of an attribute is an equal sign, it is taken off as if it were a pair of
    quotes, and the value is the rest of the page behind it. *)
Theorem equal_sign_value pre n rest e : TagNameValidate n = None -> (length pre + length n + 2 <= e <= length pre + length n + 3 + length rest)%nat ->
  parse_att (pre ++ n ++ [61; 61; 32] ++ rest) (length pre) e = Ret (Some (n, 32 :: rest, true, (length pre + length n + 2)%nat)).
Proof.
  intros Hn He. set (b := pre ++ n ++ [61; 61; 32] ++ rest). assert (drop (length pre) b = n ++ 61 :: 61 :: 32 :: rest) as Ed by (unfold b; by rewrite drop_app_length).
  assert (length b = length pre + length n + 3 + length rest)%nat as Hb by (unfold b; rewrite !length_app; cbn; rewrite ?length_app; lia). pose proof (name_chars n Hn) as Hnc.
  destruct (valid_name n Hn) as (c & t & En & Hc & _). pose proof (valid_not_special c (first_valid c Hc)) as (Hsp & _ & _ & _ & Hq & _).
  unfold parse_att. rewrite (while_to_at b isspace (length pre) e [] _ Ed) by (done || (rewrite En; exact Hsp) || (cbn; lia)). cbn [length]. rewrite Nat.add_0_r.
  rewrite (proj2 (Nat.eqb_neq _ _)) by (rewrite En in He; cbn in He; lia). unfold att_name. rewrite (at_drop b _ c (t ++ 61 :: 61 :: 32 :: rest)) by (by rewrite Ed, En). cbn [mbind outcome_bind]. rewrite Hq.
  rewrite (while_to_at b _ _ e n (61 :: _) Ed); [|eapply Forall_impl; [exact Hnc|]; cbn; intros x Hx; destruct (valid_not_special x Hx) as (-> & Hx61 & _); by rewrite (proj2 (Z.eqb_neq _ _))|done|lia].
  pose proof Ed as Ed0. apply drop_at in Ed. rewrite (while_to_at b isspace _ e [] (61 :: _) Ed) by (done || (cbn; lia)). cbn [length mbind outcome_bind]. rewrite Nat.add_0_r. set (ae := (length pre + length n)%nat) in *.
  rewrite (at_drop b _ _ _ Ed). cbn [mbind outcome_bind Z.eqb Pos.eqb negb]. apply (drop_at b _ [61]) in Ed. cbn [length] in Ed.
  unfold att_value. replace (S ae) with (ae + 1)%nat by lia. rewrite (while_to_at b isspace _ e [] (61 :: _) Ed) by (done || (cbn; lia)). cbn [length]. rewrite Nat.add_0_r, (at_drop b _ _ _ Ed). cbn [mbind outcome_bind].
  change (is_quote 61) with false. cbn iota. rewrite (while_to_at b _ _ e [61] (32 :: rest) Ed) by (done || (cbn; lia) || by repeat constructor). cbn [Z.eqb Pos.eqb orb length].
  rewrite (proj2 (Nat.ltb_lt _ _)) by lia. cbn [andb]. replace (ae + 1 + 1 - 1)%nat with (ae + 1)%nat by lia. rewrite (at_drop b _ _ _ Ed). cbn [mbind outcome_bind Z.eqb Pos.eqb]. rewrite (at_drop b _ _ _ Ed). cbn [mbind outcome_bind].
  unfold cut_string. rewrite (proj2 (Nat.leb_le _ _)), (proj2 (Nat.leb_gt _ _)) by lia. rewrite (slice_at b _ ae n _ Ed0) by done. apply (drop_at b _ [61]) in Ed. cbn [length] in Ed.
  replace (S (ae + 1)) with (ae + 1 + 1)%nat by lia. rewrite Ed. do 3 f_equal. lia.
Qed.

(** ** Registered tags *)

Lemma tolower_first c : TagValidFirstChar (tolower c) = TagValidFirstChar c.
Proof. unfold TagValidFirstChar, tolower, isupper. zcases; done || lia. Qed.

Lemma tolower_char c : TagValidChar (tolower c) = TagValidChar c.
Proof. unfold TagValidChar, tolower, isupper. zcases; done || lia. Qed.

Lemma validate_case (n t : list Z) : tolower <$> n = tolower <$> t -> TagNameValidate t = None -> TagNameValidate n = None.
Proof.
  assert (forall n t : list Z, tolower <$> n = tolower <$> t -> validate_rest t = None -> validate_rest n = None) as Hr.
  { clear. intros n t. revert n. induction t as [|y t IH]; intros [|x n] E; try done. injection E as Ex E. cbn. rewrite <- (tolower_char x), Ex, tolower_char. destruct (TagValidChar y); [by apply IH|done]. }
  destruct n as [|x n], t as [|y t]; try done. intros [= Ex E]. cbn. rewrite <- (tolower_first x), Ex, tolower_first. destruct (TagValidFirstChar y); [by apply Hr|done].
Qed.

(** A tag that was registered, with or without a closing tag, is found by the parser in any mix
    of cases, so that pages can use it; tags that are not valid, or whose closing tag is not
    the same name behind a slash, are not registered. *)
Theorem registered_tag_found lower ty t end_ c sv sv' : TclCase lower ->
  RegisterObjCmd lower ty (t :: match end_ with Some e => [e; c] | None => [c] end) sv = TCL_OK sv' ->
  TagNameValidate t = None /\ (end_ = None \/ end_ = Some (47 :: t)) /\
  forall n n2 atts cs, tolower <$> n = tolower <$> t -> tolower <$> n2 = tolower <$> t -> ~ is_script_name n -> Forall att_ok atts ->
    find_in sv' None (lower n) = Some (mkTag ty (tolower <$> t) (lower <$> end_) (lower c)) /\
    match end_ with
    | None => item_ok lower (find_in sv' None) (IEmpty n atts)
    | Some _ => nested lower (tolower <$> t) (lower (47 :: n2)) 0 cs = true -> item_ok lower (find_in sv' None) (IPair n atts cs n2)
    end.
Proof.
  intros Hlow Hr. assert (exists m, register_tag lower ty t end_ c (tags sv) = inr m /\ sv' = mkServer m (tagsets sv)) as (m & Em & ->).
  { unfold RegisterObjCmd in Hr.
    destruct t as [|x t]; [destruct end_; discriminate Hr|]. destruct (decide (x = 45)) as [->|Hx]; [destruct end_; discriminate Hr|].
    assert ((match register_tag lower ty (x :: t) end_ c (tags sv) with inl e => e | inr m => TCL_OK (mkServer m (tagsets sv)) end) = TCL_OK sv') as Hr'.
    { destruct end_; cbn in Hr; repeat case_match; done. }
    destruct (register_tag lower ty (x :: t) end_ c (tags sv)) as [e|m] eqn:Em; [|injection Hr' as <-; by exists m].
    unfold register_tag in Em. repeat case_match; simplify_eq. }
  unfold register_tag in Em. destruct (TagNameValidate t) eqn:Hv; [done|]. assert (end_ = None \/ end_ = Some (47 :: t)) as He by (destruct end_; [|by left]; right; case_bool_decide; [by subst|done]).
  split; [done|]. split; [done|]. assert (m = <[lower t := mkTag ty (lower t) (lower <$> end_) (lower c)]> (tags sv)) as ->.
  { destruct He as [-> | ->]; [by injection Em as <-|]. rewrite bool_decide_true in Em by done. by injection Em as <-. }
  intros n n2 atts cs Hn Hn2 Hns Ha. pose proof (validate_case n t Hn Hv) as Hnv. pose proof (validate_case n2 t Hn2 Hv) as Hn2v.
  assert (find_in (mkServer (<[lower t := mkTag ty (lower t) (lower <$> end_) (lower c)]> (tags sv)) (tagsets sv)) None (lower n) = Some (mkTag ty (tolower <$> t) (lower <$> end_) (lower c))) as Hf.
  { cbn [find_in tags]. rewrite (lower_name _ n Hnv), Hn, <- (lower_name lower t Hv). apply lookup_insert_eq. }
  split; [done|]. destruct He as [-> | ->]; cbn [item_ok].
  { split_and!; [done..|]. eexists. split; [exact Hf|done]. }
  intros Hcs. split_and!; [done..|]. eexists. split_and!; [exact Hf| | |done]; cbn [endtag tag fmap option_fmap option_map].
  - assert (forall x : list Z, TagNameValidate x = None -> lower (47 :: x) = 47 :: (tolower <$> x)) as H47; [|by rewrite !H47, Hn2].
    intros x Hx. rewrite lower_ascii; [done|]. constructor; [done|]. eapply Forall_impl; [exact (name_chars x Hx)|]. intros y Hy. by destruct (valid_not_special y Hy) as (_ & _ & _ & _ & _ & ? & _).
  - intros E. assert (TagNameValidate (tolower <$> t) = None) as Hlt by (apply (validate_case _ t); [apply tolower_twice|done]). rewrite <- E in Hlt. rewrite lower_ascii in Hlt; [done|].
    constructor; [done|]. eapply Forall_impl; [exact (name_chars n2 Hn2v)|]. intros y Hy. by destruct (valid_not_special y Hy) as (_ & _ & _ & _ & _ & ? & _).
Qed.

(** ** Witnesses *)

Definition ex_page : list item :=
  [IText (PChar <$> bytes "Hi "); IText [PHtml (bytes "b") []; PLt 47]; ICode (bytes " set x <% 1 %> "); IExpr (bytes "$x");
   IPair (bytes "Box") [(bytes "w", Quote 34, bytes "3 > 2"); (bytes "h", Bare, bytes "5")] (bytes "<i>A</i><box>b</box>") (bytes "BOX"); IServer (bytes "script") [(bytes "runat", Quote 39, bytes "server")] (bytes "if {$x < 3} {ns_adp_puts <b>}") (bytes "SCRIPT"); IText [PScript (bytes "script") [(bytes "src", Quote 39, bytes "a.js")]; PLt 47; PChar 115]].

Lemma ex_page_ok : Forall (item_ok ex_lower (find_in ex_server None)) ex_page.
Proof.
  assert (forall ps, Forall (piece_ok ex_lower (find_in ex_server None)) ps -> item_ok ex_lower (find_in ex_server None) (IText ps)) as Ht by done.
  unfold ex_page. rewrite !Forall_cons. refine (conj _ (conj _ (conj _ (conj _ (conj _ (conj _ (conj _ (Forall_nil_2 _)))))))).
  - apply Ht. cbn. repeat constructor; done.
  - apply Ht. repeat apply Forall_cons_2; [|done|by apply Forall_nil_2]. split_and!; [done|done|intros H; by vm_compute in H|done|by apply Forall_nil_2].
  - split; [done|]. done.
  - vm_compute. reflexivity.
  - split_and!; [done|intros H; by vm_compute in H| |done|].
    + repeat apply Forall_cons_2; [split; [done|split; [done|]]|split; done|by apply Forall_nil_2]. cbn. repeat constructor; done.
    + eexists. split; [reflexivity|]. split; [done|]. split; [intros H; by vm_compute in H|vm_compute; reflexivity].
  - split_and!; [done|done| |done|vm_compute; reflexivity|done|done]. apply Forall_cons_2; [|by apply Forall_nil_2]. split; [done|]. split; [done|]. cbn. repeat constructor; done.
  - apply Ht. repeat apply Forall_cons_2; [|done|done|by apply Forall_nil_2]. split_and!; [done|done| |vm_compute; reflexivity]. apply Forall_cons_2; [|by apply Forall_nil_2]. split; [done|]. split; [done|]. cbn. repeat constructor; done.
Qed.

Lemma page_parsed_witness : exists c, AdpParseAdp ex_lower ex_element (print_page ex_page) (find_in ex_server None) 0 = Ret c /\ len c = [8; -15; -16; -58; -29; 22].
Proof. eexists. split; [apply (page_parsed ex_lower ex_element (find_in ex_server None) 0 ex_page); [apply ex_lower_case|apply ex_page_ok]|]. vm_compute. reflexivity. Defined.

Lemma page_runs_witness : exists c, AdpParseAdp ex_lower ex_element (print_page ex_page) (find_in ex_server None) 0 = Ret c /\
  forall it, AdpExec (fun it => (0, it)) (fun s it => (0, it)) (fun _ => false) (fun it => it) c it =
    Ret (leave_page (run_blocks (W := unit) (fun it => (0, it)) (fun s it => (0, it)) (fun _ => false) (fun it => it) (code_blocks ex_element 0 (page_blocks ex_lower ex_element (find_in ex_server None) 0 [] false ex_page)) 0 it)).
Proof. apply (page_runs ex_lower ex_element (find_in ex_server None) 0 ex_page); [apply ex_lower_case|apply ex_page_ok]. Defined.

Lemma attribute_overrun_witness : AdpParseAdp ex_lower ex_element (bytes "<script " ++ [34] ++ bytes "x>=" ++ [34]) (find_in ex_server None) 0 = Fault.
Proof. apply (attribute_overrun ex_lower ex_element (find_in ex_server None) 0). apply ex_lower_case. Defined.

Lemma equal_sign_value_witness : parse_att (bytes "<box a== b=c>rest of the page") 5 12 = Ret (Some (bytes "a", bytes " b=c>rest of the page", true, 8%nat)).
Proof. apply (equal_sign_value (bytes "<box ") (bytes "a") (bytes "b=c>rest of the page") 12); [done|vm_compute; lia]. Defined.

Lemma registered_tag_found_witness : exists sv, RegisterObjCmd ex_lower TAG_PROC [bytes "Box"; bytes "/Box"; bytes "draw"] (mkServer ∅ ∅) = TCL_OK sv /\
  find_in sv None (ex_lower (bytes "bOx")) = Some (mkTag TAG_PROC (bytes "box") (Some (bytes "/box")) (bytes "draw")).
Proof.
  eexists. split; [reflexivity|].
  destruct (registered_tag_found ex_lower TAG_PROC (bytes "Box") (Some (bytes "/Box")) (bytes "draw") (mkServer ∅ ∅) _ ex_lower_case eq_refl) as (_ & _ & H).
  destruct (H (bytes "bOx") (bytes "box") [] []) as [Hf _]; [done|done|intros E; by vm_compute in E|done|exact Hf].
Defined.
