(* ===== verification/HtmlEntities.v ===== *)
(** * HtmlEntities: the tables of named entities (nsd/quotehtml.c).

    Entities with their names, the lengths of these, the UTF-8 bytes they stand for and the
    numbers of these, as in the source.  [namedEntities] has those of HTML5 that end with a
    semicolon, [namedLegacyEntities] those that may go without.  The first is written in
    sections, one for each first character of the names. *)

From S2P Require Import Prelude.

Record namedEntity_t := mkEntity { name : list Z; ent_length : Z; value : list Z; outputLength : Z }.

Definition entities_A : list namedEntity_t := [
  mkEntity (bytes "AElig") 5 [0xc3; 0x86] 2;
  mkEntity (bytes "AMP") 3 [0x26] 1;
  mkEntity (bytes "Aacute") 6 [0xc3; 0x81] 2;
  mkEntity (bytes "Abreve") 6 [0xc4; 0x82] 2;
  mkEntity (bytes "Acirc") 5 [0xc3; 0x82] 2;
  mkEntity (bytes "Acy") 3 [0xd0; 0x90] 2;
  mkEntity (bytes "Afr") 3 [0xf0; 0x9d; 0x94; 0x84] 4;
  mkEntity (bytes "Agrave") 6 [0xc3; 0x80] 2;
  mkEntity (bytes "Alpha") 5 [0xce; 0x91] 2;
  mkEntity (bytes "Amacr") 5 [0xc4; 0x80] 2;
  mkEntity (bytes "And") 3 [0xe2; 0xa9; 0x93] 3;
  mkEntity (bytes "Aogon") 5 [0xc4; 0x84] 2;
  mkEntity (bytes "Aopf") 4 [0xf0; 0x9d; 0x94; 0xb8] 4;
  mkEntity (bytes "ApplyFunction") 13 [0xe2; 0x81; 0xa1] 3;
  mkEntity (bytes "Aring") 5 [0xc3; 0x85] 2;
  mkEntity (bytes "Ascr") 4 [0xf0; 0x9d; 0x92; 0x9c] 4;
  mkEntity (bytes "Assign") 6 [0xe2; 0x89; 0x94] 3;
  mkEntity (bytes "Atilde") 6 [0xc3; 0x83] 2;
  mkEntity (bytes "Auml") 4 [0xc3; 0x84] 2
].

Definition entities_B : list namedEntity_t := [
  mkEntity (bytes "Backslash") 9 [0xe2; 0x88; 0x96] 3;
  mkEntity (bytes "Barv") 4 [0xe2; 0xab; 0xa7] 3;
  mkEntity (bytes "Barwed") 6 [0xe2; 0x8c; 0x86] 3;
  mkEntity (bytes "Bcy") 3 [0xd0; 0x91] 2;
  mkEntity (bytes "Because") 7 [0xe2; 0x88; 0xb5] 3;
  mkEntity (bytes "Bernoullis") 10 [0xe2; 0x84; 0xac] 3;
  mkEntity (bytes "Beta") 4 [0xce; 0x92] 2;
  mkEntity (bytes "Bfr") 3 [0xf0; 0x9d; 0x94; 0x85] 4;
  mkEntity (bytes "Bopf") 4 [0xf0; 0x9d; 0x94; 0xb9] 4;
  mkEntity (bytes "Breve") 5 [0xcb; 0x98] 2;
  mkEntity (bytes "Bscr") 4 [0xe2; 0x84; 0xac] 3;
  mkEntity (bytes "Bumpeq") 6 [0xe2; 0x89; 0x8e] 3
].

Definition entities_C : list namedEntity_t := [
  mkEntity (bytes "CHcy") 4 [0xd0; 0xa7] 2;
  mkEntity (bytes "COPY") 4 [0xc2; 0xa9] 2;
  mkEntity (bytes "Cacute") 6 [0xc4; 0x86] 2;
  mkEntity (bytes "Cap") 3 [0xe2; 0x8b; 0x92] 3;
  mkEntity (bytes "CapitalDifferentialD") 20 [0xe2; 0x85; 0x85] 3;
  mkEntity (bytes "Cayleys") 7 [0xe2; 0x84; 0xad] 3;
  mkEntity (bytes "Ccaron") 6 [0xc4; 0x8c] 2;
  mkEntity (bytes "Ccedil") 6 [0xc3; 0x87] 2;
  mkEntity (bytes "Ccirc") 5 [0xc4; 0x88] 2;
  mkEntity (bytes "Cconint") 7 [0xe2; 0x88; 0xb0] 3;
  mkEntity (bytes "Cdot") 4 [0xc4; 0x8a] 2;
  mkEntity (bytes "Cedilla") 7 [0xc2; 0xb8] 2;
  mkEntity (bytes "CenterDot") 9 [0xc2; 0xb7] 2;
  mkEntity (bytes "Cfr") 3 [0xe2; 0x84; 0xad] 3;
  mkEntity (bytes "Chi") 3 [0xce; 0xa7] 2;
  mkEntity (bytes "CircleDot") 9 [0xe2; 0x8a; 0x99] 3;
  mkEntity (bytes "CircleMinus") 11 [0xe2; 0x8a; 0x96] 3;
  mkEntity (bytes "CirclePlus") 10 [0xe2; 0x8a; 0x95] 3;
  mkEntity (bytes "CircleTimes") 11 [0xe2; 0x8a; 0x97] 3;
  mkEntity (bytes "ClockwiseContourIntegral") 24 [0xe2; 0x88; 0xb2] 3;
  mkEntity (bytes "CloseCurlyDoubleQuote") 21 [0xe2; 0x80; 0x9d] 3;
  mkEntity (bytes "CloseCurlyQuote") 15 [0xe2; 0x80; 0x99] 3;
  mkEntity (bytes "Colon") 5 [0xe2; 0x88; 0xb7] 3;
  mkEntity (bytes "Colone") 6 [0xe2; 0xa9; 0xb4] 3;
  mkEntity (bytes "Congruent") 9 [0xe2; 0x89; 0xa1] 3;
  mkEntity (bytes "Conint") 6 [0xe2; 0x88; 0xaf] 3;
  mkEntity (bytes "ContourIntegral") 15 [0xe2; 0x88; 0xae] 3;
  mkEntity (bytes "Copf") 4 [0xe2; 0x84; 0x82] 3;
  mkEntity (bytes "Coproduct") 9 [0xe2; 0x88; 0x90] 3;
  mkEntity (bytes "CounterClockwiseContourIntegral") 31 [0xe2; 0x88; 0xb3] 3;
  mkEntity (bytes "Cross") 5 [0xe2; 0xa8; 0xaf] 3;
  mkEntity (bytes "Cscr") 4 [0xf0; 0x9d; 0x92; 0x9e] 4;
  mkEntity (bytes "Cup") 3 [0xe2; 0x8b; 0x93] 3;
  mkEntity (bytes "CupCap") 6 [0xe2; 0x89; 0x8d] 3
].

Definition entities_D : list namedEntity_t := [
  mkEntity (bytes "DD") 2 [0xe2; 0x85; 0x85] 3;
  mkEntity (bytes "DDotrahd") 8 [0xe2; 0xa4; 0x91] 3;
  mkEntity (bytes "DJcy") 4 [0xd0; 0x82] 2;
  mkEntity (bytes "DScy") 4 [0xd0; 0x85] 2;
  mkEntity (bytes "DZcy") 4 [0xd0; 0x8f] 2;
  mkEntity (bytes "Dagger") 6 [0xe2; 0x80; 0xa1] 3;
  mkEntity (bytes "Darr") 4 [0xe2; 0x86; 0xa1] 3;
  mkEntity (bytes "Dashv") 5 [0xe2; 0xab; 0xa4] 3;
  mkEntity (bytes "Dcaron") 6 [0xc4; 0x8e] 2;
  mkEntity (bytes "Dcy") 3 [0xd0; 0x94] 2;
  mkEntity (bytes "Del") 3 [0xe2; 0x88; 0x87] 3;
  mkEntity (bytes "Delta") 5 [0xce; 0x94] 2;
  mkEntity (bytes "Dfr") 3 [0xf0; 0x9d; 0x94; 0x87] 4;
  mkEntity (bytes "DiacriticalAcute") 16 [0xc2; 0xb4] 2;
  mkEntity (bytes "DiacriticalDot") 14 [0xcb; 0x99] 2;
  mkEntity (bytes "DiacriticalDoubleAcute") 22 [0xcb; 0x9d] 2;
  mkEntity (bytes "DiacriticalGrave") 16 [0x60] 1;
  mkEntity (bytes "DiacriticalTilde") 16 [0xcb; 0x9c] 2;
  mkEntity (bytes "Diamond") 7 [0xe2; 0x8b; 0x84] 3;
  mkEntity (bytes "DifferentialD") 13 [0xe2; 0x85; 0x86] 3;
  mkEntity (bytes "Dopf") 4 [0xf0; 0x9d; 0x94; 0xbb] 4;
  mkEntity (bytes "Dot") 3 [0xc2; 0xa8] 2;
  mkEntity (bytes "DotDot") 6 [0xe2; 0x83; 0x9c] 3;
  mkEntity (bytes "DotEqual") 8 [0xe2; 0x89; 0x90] 3;
  mkEntity (bytes "DoubleContourIntegral") 21 [0xe2; 0x88; 0xaf] 3;
  mkEntity (bytes "DoubleDot") 9 [0xc2; 0xa8] 2;
  mkEntity (bytes "DoubleDownArrow") 15 [0xe2; 0x87; 0x93] 3;
  mkEntity (bytes "DoubleLeftArrow") 15 [0xe2; 0x87; 0x90] 3;
  mkEntity (bytes "DoubleLeftRightArrow") 20 [0xe2; 0x87; 0x94] 3;
  mkEntity (bytes "DoubleLeftTee") 13 [0xe2; 0xab; 0xa4] 3;
  mkEntity (bytes "DoubleLongLeftArrow") 19 [0xe2; 0x9f; 0xb8] 3;
  mkEntity (bytes "DoubleLongLeftRightArrow") 24 [0xe2; 0x9f; 0xba] 3;
  mkEntity (bytes "DoubleLongRightArrow") 20 [0xe2; 0x9f; 0xb9] 3;
  mkEntity (bytes "DoubleRightArrow") 16 [0xe2; 0x87; 0x92] 3;
  mkEntity (bytes "DoubleRightTee") 14 [0xe2; 0x8a; 0xa8] 3;
  mkEntity (bytes "DoubleUpArrow") 13 [0xe2; 0x87; 0x91] 3;
  mkEntity (bytes "DoubleUpDownArrow") 17 [0xe2; 0x87; 0x95] 3;
  mkEntity (bytes "DoubleVerticalBar") 17 [0xe2; 0x88; 0xa5] 3;
  mkEntity (bytes "DownArrow") 9 [0xe2; 0x86; 0x93] 3;
  mkEntity (bytes "DownArrowBar") 12 [0xe2; 0xa4; 0x93] 3;
  mkEntity (bytes "DownArrowUpArrow") 16 [0xe2; 0x87; 0xb5] 3;
  mkEntity (bytes "DownBreve") 9 [0xcc; 0x91] 2;
  mkEntity (bytes "DownLeftRightVector") 19 [0xe2; 0xa5; 0x90] 3;
  mkEntity (bytes "DownLeftTeeVector") 17 [0xe2; 0xa5; 0x9e] 3;
  mkEntity (bytes "DownLeftVector") 14 [0xe2; 0x86; 0xbd] 3;
  mkEntity (bytes "DownLeftVectorBar") 17 [0xe2; 0xa5; 0x96] 3;
  mkEntity (bytes "DownRightTeeVector") 18 [0xe2; 0xa5; 0x9f] 3;
  mkEntity (bytes "DownRightVector") 15 [0xe2; 0x87; 0x81] 3;
  mkEntity (bytes "DownRightVectorBar") 18 [0xe2; 0xa5; 0x97] 3;
  mkEntity (bytes "DownTee") 7 [0xe2; 0x8a; 0xa4] 3;
  mkEntity (bytes "DownTeeArrow") 12 [0xe2; 0x86; 0xa7] 3;
  mkEntity (bytes "Downarrow") 9 [0xe2; 0x87; 0x93] 3;
  mkEntity (bytes "Dscr") 4 [0xf0; 0x9d; 0x92; 0x9f] 4;
  mkEntity (bytes "Dstrok") 6 [0xc4; 0x90] 2
].

Definition entities_E : list namedEntity_t := [
  mkEntity (bytes "ENG") 3 [0xc5; 0x8a] 2;
  mkEntity (bytes "ETH") 3 [0xc3; 0x90] 2;
  mkEntity (bytes "Eacute") 6 [0xc3; 0x89] 2;
  mkEntity (bytes "Ecaron") 6 [0xc4; 0x9a] 2;
  mkEntity (bytes "Ecirc") 5 [0xc3; 0x8a] 2;
  mkEntity (bytes "Ecy") 3 [0xd0; 0xad] 2;
  mkEntity (bytes "Edot") 4 [0xc4; 0x96] 2;
  mkEntity (bytes "Efr") 3 [0xf0; 0x9d; 0x94; 0x88] 4;
  mkEntity (bytes "Egrave") 6 [0xc3; 0x88] 2;
  mkEntity (bytes "Element") 7 [0xe2; 0x88; 0x88] 3;
  mkEntity (bytes "Emacr") 5 [0xc4; 0x92] 2;
  mkEntity (bytes "EmptySmallSquare") 16 [0xe2; 0x97; 0xbb] 3;
  mkEntity (bytes "EmptyVerySmallSquare") 20 [0xe2; 0x96; 0xab] 3;
  mkEntity (bytes "Eogon") 5 [0xc4; 0x98] 2;
  mkEntity (bytes "Eopf") 4 [0xf0; 0x9d; 0x94; 0xbc] 4;
  mkEntity (bytes "Epsilon") 7 [0xce; 0x95] 2;
  mkEntity (bytes "Equal") 5 [0xe2; 0xa9; 0xb5] 3;
  mkEntity (bytes "EqualTilde") 10 [0xe2; 0x89; 0x82] 3;
  mkEntity (bytes "Equilibrium") 11 [0xe2; 0x87; 0x8c] 3;
  mkEntity (bytes "Escr") 4 [0xe2; 0x84; 0xb0] 3;
  mkEntity (bytes "Esim") 4 [0xe2; 0xa9; 0xb3] 3;
  mkEntity (bytes "Eta") 3 [0xce; 0x97] 2;
  mkEntity (bytes "Euml") 4 [0xc3; 0x8b] 2;
  mkEntity (bytes "Exists") 6 [0xe2; 0x88; 0x83] 3;
  mkEntity (bytes "ExponentialE") 12 [0xe2; 0x85; 0x87] 3
].

Definition entities_F : list namedEntity_t := [
  mkEntity (bytes "Fcy") 3 [0xd0; 0xa4] 2;
  mkEntity (bytes "Ffr") 3 [0xf0; 0x9d; 0x94; 0x89] 4;
  mkEntity (bytes "FilledSmallSquare") 17 [0xe2; 0x97; 0xbc] 3;
  mkEntity (bytes "FilledVerySmallSquare") 21 [0xe2; 0x96; 0xaa] 3;
  mkEntity (bytes "Fopf") 4 [0xf0; 0x9d; 0x94; 0xbd] 4;
  mkEntity (bytes "ForAll") 6 [0xe2; 0x88; 0x80] 3;
  mkEntity (bytes "Fouriertrf") 10 [0xe2; 0x84; 0xb1] 3;
  mkEntity (bytes "Fscr") 4 [0xe2; 0x84; 0xb1] 3
].

Definition entities_G : list namedEntity_t := [
  mkEntity (bytes "GJcy") 4 [0xd0; 0x83] 2;
  mkEntity (bytes "GT") 2 [0x3e] 1;
  mkEntity (bytes "Gamma") 5 [0xce; 0x93] 2;
  mkEntity (bytes "Gammad") 6 [0xcf; 0x9c] 2;
  mkEntity (bytes "Gbreve") 6 [0xc4; 0x9e] 2;
  mkEntity (bytes "Gcedil") 6 [0xc4; 0xa2] 2;
  mkEntity (bytes "Gcirc") 5 [0xc4; 0x9c] 2;
  mkEntity (bytes "Gcy") 3 [0xd0; 0x93] 2;
  mkEntity (bytes "Gdot") 4 [0xc4; 0xa0] 2;
  mkEntity (bytes "Gfr") 3 [0xf0; 0x9d; 0x94; 0x8a] 4;
  mkEntity (bytes "Gg") 2 [0xe2; 0x8b; 0x99] 3;
  mkEntity (bytes "Gopf") 4 [0xf0; 0x9d; 0x94; 0xbe] 4;
  mkEntity (bytes "GreaterEqual") 12 [0xe2; 0x89; 0xa5] 3;
  mkEntity (bytes "GreaterEqualLess") 16 [0xe2; 0x8b; 0x9b] 3;
  mkEntity (bytes "GreaterFullEqual") 16 [0xe2; 0x89; 0xa7] 3;
  mkEntity (bytes "GreaterGreater") 14 [0xe2; 0xaa; 0xa2] 3;
  mkEntity (bytes "GreaterLess") 11 [0xe2; 0x89; 0xb7] 3;
  mkEntity (bytes "GreaterSlantEqual") 17 [0xe2; 0xa9; 0xbe] 3;
  mkEntity (bytes "GreaterTilde") 12 [0xe2; 0x89; 0xb3] 3;
  mkEntity (bytes "Gscr") 4 [0xf0; 0x9d; 0x92; 0xa2] 4;
  mkEntity (bytes "Gt") 2 [0xe2; 0x89; 0xab] 3
].

Definition entities_H : list namedEntity_t := [
  mkEntity (bytes "HARDcy") 6 [0xd0; 0xaa] 2;
  mkEntity (bytes "Hacek") 5 [0xcb; 0x87] 2;
  mkEntity (bytes "Hat") 3 [0x5e] 1;
  mkEntity (bytes "Hcirc") 5 [0xc4; 0xa4] 2;
  mkEntity (bytes "Hfr") 3 [0xe2; 0x84; 0x8c] 3;
  mkEntity (bytes "HilbertSpace") 12 [0xe2; 0x84; 0x8b] 3;
  mkEntity (bytes "Hopf") 4 [0xe2; 0x84; 0x8d] 3;
  mkEntity (bytes "HorizontalLine") 14 [0xe2; 0x94; 0x80] 3;
  mkEntity (bytes "Hscr") 4 [0xe2; 0x84; 0x8b] 3;
  mkEntity (bytes "Hstrok") 6 [0xc4; 0xa6] 2;
  mkEntity (bytes "HumpDownHump") 12 [0xe2; 0x89; 0x8e] 3;
  mkEntity (bytes "HumpEqual") 9 [0xe2; 0x89; 0x8f] 3
].

Definition entities_I : list namedEntity_t := [
  mkEntity (bytes "IEcy") 4 [0xd0; 0x95] 2;
  mkEntity (bytes "IJlig") 5 [0xc4; 0xb2] 2;
  mkEntity (bytes "IOcy") 4 [0xd0; 0x81] 2;
  mkEntity (bytes "Iacute") 6 [0xc3; 0x8d] 2;
  mkEntity (bytes "Icirc") 5 [0xc3; 0x8e] 2;
  mkEntity (bytes "Icy") 3 [0xd0; 0x98] 2;
  mkEntity (bytes "Idot") 4 [0xc4; 0xb0] 2;
  mkEntity (bytes "Ifr") 3 [0xe2; 0x84; 0x91] 3;
  mkEntity (bytes "Igrave") 6 [0xc3; 0x8c] 2;
  mkEntity (bytes "Im") 2 [0xe2; 0x84; 0x91] 3;
  mkEntity (bytes "Imacr") 5 [0xc4; 0xaa] 2;
  mkEntity (bytes "ImaginaryI") 10 [0xe2; 0x85; 0x88] 3;
  mkEntity (bytes "Implies") 7 [0xe2; 0x87; 0x92] 3;
  mkEntity (bytes "Int") 3 [0xe2; 0x88; 0xac] 3;
  mkEntity (bytes "Integral") 8 [0xe2; 0x88; 0xab] 3;
  mkEntity (bytes "Intersection") 12 [0xe2; 0x8b; 0x82] 3;
  mkEntity (bytes "InvisibleComma") 14 [0xe2; 0x81; 0xa3] 3;
  mkEntity (bytes "InvisibleTimes") 14 [0xe2; 0x81; 0xa2] 3;
  mkEntity (bytes "Iogon") 5 [0xc4; 0xae] 2;
  mkEntity (bytes "Iopf") 4 [0xf0; 0x9d; 0x95; 0x80] 4;
  mkEntity (bytes "Iota") 4 [0xce; 0x99] 2;
  mkEntity (bytes "Iscr") 4 [0xe2; 0x84; 0x90] 3;
  mkEntity (bytes "Itilde") 6 [0xc4; 0xa8] 2;
  mkEntity (bytes "Iukcy") 5 [0xd0; 0x86] 2;
  mkEntity (bytes "Iuml") 4 [0xc3; 0x8f] 2
].

Definition entities_J : list namedEntity_t := [
  mkEntity (bytes "Jcirc") 5 [0xc4; 0xb4] 2;
  mkEntity (bytes "Jcy") 3 [0xd0; 0x99] 2;
  mkEntity (bytes "Jfr") 3 [0xf0; 0x9d; 0x94; 0x8d] 4;
  mkEntity (bytes "Jopf") 4 [0xf0; 0x9d; 0x95; 0x81] 4;
  mkEntity (bytes "Jscr") 4 [0xf0; 0x9d; 0x92; 0xa5] 4;
  mkEntity (bytes "Jsercy") 6 [0xd0; 0x88] 2;
  mkEntity (bytes "Jukcy") 5 [0xd0; 0x84] 2
].

Definition entities_K : list namedEntity_t := [
  mkEntity (bytes "KHcy") 4 [0xd0; 0xa5] 2;
  mkEntity (bytes "KJcy") 4 [0xd0; 0x8c] 2;
  mkEntity (bytes "Kappa") 5 [0xce; 0x9a] 2;
  mkEntity (bytes "Kcedil") 6 [0xc4; 0xb6] 2;
  mkEntity (bytes "Kcy") 3 [0xd0; 0x9a] 2;
  mkEntity (bytes "Kfr") 3 [0xf0; 0x9d; 0x94; 0x8e] 4;
  mkEntity (bytes "Kopf") 4 [0xf0; 0x9d; 0x95; 0x82] 4;
  mkEntity (bytes "Kscr") 4 [0xf0; 0x9d; 0x92; 0xa6] 4
].

Definition entities_L : list namedEntity_t := [
  mkEntity (bytes "LJcy") 4 [0xd0; 0x89] 2;
  mkEntity (bytes "LT") 2 [0x3c] 1;
  mkEntity (bytes "Lacute") 6 [0xc4; 0xb9] 2;
  mkEntity (bytes "Lambda") 6 [0xce; 0x9b] 2;
  mkEntity (bytes "Lang") 4 [0xe2; 0x9f; 0xaa] 3;
  mkEntity (bytes "Laplacetrf") 10 [0xe2; 0x84; 0x92] 3;
  mkEntity (bytes "Larr") 4 [0xe2; 0x86; 0x9e] 3;
  mkEntity (bytes "Lcaron") 6 [0xc4; 0xbd] 2;
  mkEntity (bytes "Lcedil") 6 [0xc4; 0xbb] 2;
  mkEntity (bytes "Lcy") 3 [0xd0; 0x9b] 2;
  mkEntity (bytes "LeftAngleBracket") 16 [0xe2; 0x9f; 0xa8] 3;
  mkEntity (bytes "LeftArrow") 9 [0xe2; 0x86; 0x90] 3;
  mkEntity (bytes "LeftArrowBar") 12 [0xe2; 0x87; 0xa4] 3;
  mkEntity (bytes "LeftArrowRightArrow") 19 [0xe2; 0x87; 0x86] 3;
  mkEntity (bytes "LeftCeiling") 11 [0xe2; 0x8c; 0x88] 3;
  mkEntity (bytes "LeftDoubleBracket") 17 [0xe2; 0x9f; 0xa6] 3;
  mkEntity (bytes "LeftDownTeeVector") 17 [0xe2; 0xa5; 0xa1] 3;
  mkEntity (bytes "LeftDownVector") 14 [0xe2; 0x87; 0x83] 3;
  mkEntity (bytes "LeftDownVectorBar") 17 [0xe2; 0xa5; 0x99] 3;
  mkEntity (bytes "LeftFloor") 9 [0xe2; 0x8c; 0x8a] 3;
  mkEntity (bytes "LeftRightArrow") 14 [0xe2; 0x86; 0x94] 3;
  mkEntity (bytes "LeftRightVector") 15 [0xe2; 0xa5; 0x8e] 3;
  mkEntity (bytes "LeftTee") 7 [0xe2; 0x8a; 0xa3] 3;
  mkEntity (bytes "LeftTeeArrow") 12 [0xe2; 0x86; 0xa4] 3;
  mkEntity (bytes "LeftTeeVector") 13 [0xe2; 0xa5; 0x9a] 3;
  mkEntity (bytes "LeftTriangle") 12 [0xe2; 0x8a; 0xb2] 3;
  mkEntity (bytes "LeftTriangleBar") 15 [0xe2; 0xa7; 0x8f] 3;
  mkEntity (bytes "LeftTriangleEqual") 17 [0xe2; 0x8a; 0xb4] 3;
  mkEntity (bytes "LeftUpDownVector") 16 [0xe2; 0xa5; 0x91] 3;
  mkEntity (bytes "LeftUpTeeVector") 15 [0xe2; 0xa5; 0xa0] 3;
  mkEntity (bytes "LeftUpVector") 12 [0xe2; 0x86; 0xbf] 3;
  mkEntity (bytes "LeftUpVectorBar") 15 [0xe2; 0xa5; 0x98] 3;
  mkEntity (bytes "LeftVector") 10 [0xe2; 0x86; 0xbc] 3;
  mkEntity (bytes "LeftVectorBar") 13 [0xe2; 0xa5; 0x92] 3;
  mkEntity (bytes "Leftarrow") 9 [0xe2; 0x87; 0x90] 3;
  mkEntity (bytes "Leftrightarrow") 14 [0xe2; 0x87; 0x94] 3;
  mkEntity (bytes "LessEqualGreater") 16 [0xe2; 0x8b; 0x9a] 3;
  mkEntity (bytes "LessFullEqual") 13 [0xe2; 0x89; 0xa6] 3;
  mkEntity (bytes "LessGreater") 11 [0xe2; 0x89; 0xb6] 3;
  mkEntity (bytes "LessLess") 8 [0xe2; 0xaa; 0xa1] 3;
  mkEntity (bytes "LessSlantEqual") 14 [0xe2; 0xa9; 0xbd] 3;
  mkEntity (bytes "LessTilde") 9 [0xe2; 0x89; 0xb2] 3;
  mkEntity (bytes "Lfr") 3 [0xf0; 0x9d; 0x94; 0x8f] 4;
  mkEntity (bytes "Ll") 2 [0xe2; 0x8b; 0x98] 3;
  mkEntity (bytes "Lleftarrow") 10 [0xe2; 0x87; 0x9a] 3;
  mkEntity (bytes "Lmidot") 6 [0xc4; 0xbf] 2;
  mkEntity (bytes "LongLeftArrow") 13 [0xe2; 0x9f; 0xb5] 3;
  mkEntity (bytes "LongLeftRightArrow") 18 [0xe2; 0x9f; 0xb7] 3;
  mkEntity (bytes "LongRightArrow") 14 [0xe2; 0x9f; 0xb6] 3;
  mkEntity (bytes "Longleftarrow") 13 [0xe2; 0x9f; 0xb8] 3;
  mkEntity (bytes "Longleftrightarrow") 18 [0xe2; 0x9f; 0xba] 3;
  mkEntity (bytes "Longrightarrow") 14 [0xe2; 0x9f; 0xb9] 3;
  mkEntity (bytes "Lopf") 4 [0xf0; 0x9d; 0x95; 0x83] 4;
  mkEntity (bytes "LowerLeftArrow") 14 [0xe2; 0x86; 0x99] 3;
  mkEntity (bytes "LowerRightArrow") 15 [0xe2; 0x86; 0x98] 3;
  mkEntity (bytes "Lscr") 4 [0xe2; 0x84; 0x92] 3;
  mkEntity (bytes "Lsh") 3 [0xe2; 0x86; 0xb0] 3;
  mkEntity (bytes "Lstrok") 6 [0xc5; 0x81] 2;
  mkEntity (bytes "Lt") 2 [0xe2; 0x89; 0xaa] 3
].

Definition entities_M : list namedEntity_t := [
  mkEntity (bytes "Map") 3 [0xe2; 0xa4; 0x85] 3;
  mkEntity (bytes "Mcy") 3 [0xd0; 0x9c] 2;
  mkEntity (bytes "MediumSpace") 11 [0xe2; 0x81; 0x9f] 3;
  mkEntity (bytes "Mellintrf") 9 [0xe2; 0x84; 0xb3] 3;
  mkEntity (bytes "Mfr") 3 [0xf0; 0x9d; 0x94; 0x90] 4;
  mkEntity (bytes "MinusPlus") 9 [0xe2; 0x88; 0x93] 3;
  mkEntity (bytes "Mopf") 4 [0xf0; 0x9d; 0x95; 0x84] 4;
  mkEntity (bytes "Mscr") 4 [0xe2; 0x84; 0xb3] 3;
  mkEntity (bytes "Mu") 2 [0xce; 0x9c] 2
].

Definition entities_N : list namedEntity_t := [
  mkEntity (bytes "NJcy") 4 [0xd0; 0x8a] 2;
  mkEntity (bytes "Nacute") 6 [0xc5; 0x83] 2;
  mkEntity (bytes "Ncaron") 6 [0xc5; 0x87] 2;
  mkEntity (bytes "Ncedil") 6 [0xc5; 0x85] 2;
  mkEntity (bytes "Ncy") 3 [0xd0; 0x9d] 2;
  mkEntity (bytes "NegativeMediumSpace") 19 [0xe2; 0x80; 0x8b] 3;
  mkEntity (bytes "NegativeThickSpace") 18 [0xe2; 0x80; 0x8b] 3;
  mkEntity (bytes "NegativeThinSpace") 17 [0xe2; 0x80; 0x8b] 3;
  mkEntity (bytes "NegativeVeryThinSpace") 21 [0xe2; 0x80; 0x8b] 3;
  mkEntity (bytes "NestedGreaterGreater") 20 [0xe2; 0x89; 0xab] 3;
  mkEntity (bytes "NestedLessLess") 14 [0xe2; 0x89; 0xaa] 3;
  mkEntity (bytes "NewLine") 7 [0x0a] 1;
  mkEntity (bytes "Nfr") 3 [0xf0; 0x9d; 0x94; 0x91] 4;
  mkEntity (bytes "NoBreak") 7 [0xe2; 0x81; 0xa0] 3;
  mkEntity (bytes "NonBreakingSpace") 16 [0xc2; 0xa0] 2;
  mkEntity (bytes "Nopf") 4 [0xe2; 0x84; 0x95] 3;
  mkEntity (bytes "Not") 3 [0xe2; 0xab; 0xac] 3;
  mkEntity (bytes "NotCongruent") 12 [0xe2; 0x89; 0xa2] 3;
  mkEntity (bytes "NotCupCap") 9 [0xe2; 0x89; 0xad] 3;
  mkEntity (bytes "NotDoubleVerticalBar") 20 [0xe2; 0x88; 0xa6] 3;
  mkEntity (bytes "NotElement") 10 [0xe2; 0x88; 0x89] 3;
  mkEntity (bytes "NotEqual") 8 [0xe2; 0x89; 0xa0] 3;
  mkEntity (bytes "NotEqualTilde") 13 [0xe2; 0x89; 0x82; 0xcc; 0xb8] 5;
  mkEntity (bytes "NotExists") 9 [0xe2; 0x88; 0x84] 3;
  mkEntity (bytes "NotGreater") 10 [0xe2; 0x89; 0xaf] 3;
  mkEntity (bytes "NotGreaterEqual") 15 [0xe2; 0x89; 0xb1] 3;
  mkEntity (bytes "NotGreaterFullEqual") 19 [0xe2; 0x89; 0xa7; 0xcc; 0xb8] 5;
  mkEntity (bytes "NotGreaterGreater") 17 [0xe2; 0x89; 0xab; 0xcc; 0xb8] 5;
  mkEntity (bytes "NotGreaterLess") 14 [0xe2; 0x89; 0xb9] 3;
  mkEntity (bytes "NotGreaterSlantEqual") 20 [0xe2; 0xa9; 0xbe; 0xcc; 0xb8] 5;
  mkEntity (bytes "NotGreaterTilde") 15 [0xe2; 0x89; 0xb5] 3;
  mkEntity (bytes "NotHumpDownHump") 15 [0xe2; 0x89; 0x8e; 0xcc; 0xb8] 5;
  mkEntity (bytes "NotHumpEqual") 12 [0xe2; 0x89; 0x8f; 0xcc; 0xb8] 5;
  mkEntity (bytes "NotLeftTriangle") 15 [0xe2; 0x8b; 0xaa] 3;
  mkEntity (bytes "NotLeftTriangleBar") 18 [0xe2; 0xa7; 0x8f; 0xcc; 0xb8] 5;
  mkEntity (bytes "NotLeftTriangleEqual") 20 [0xe2; 0x8b; 0xac] 3;
  mkEntity (bytes "NotLess") 7 [0xe2; 0x89; 0xae] 3;
  mkEntity (bytes "NotLessEqual") 12 [0xe2; 0x89; 0xb0] 3;
  mkEntity (bytes "NotLessGreater") 14 [0xe2; 0x89; 0xb8] 3;
  mkEntity (bytes "NotLessLess") 11 [0xe2; 0x89; 0xaa; 0xcc; 0xb8] 5;
  mkEntity (bytes "NotLessSlantEqual") 17 [0xe2; 0xa9; 0xbd; 0xcc; 0xb8] 5;
  mkEntity (bytes "NotLessTilde") 12 [0xe2; 0x89; 0xb4] 3;
  mkEntity (bytes "NotNestedGreaterGreater") 23 [0xe2; 0xaa; 0xa2; 0xcc; 0xb8] 5;
  mkEntity (bytes "NotNestedLessLess") 17 [0xe2; 0xaa; 0xa1; 0xcc; 0xb8] 5;
  mkEntity (bytes "NotPrecedes") 11 [0xe2; 0x8a; 0x80] 3;
  mkEntity (bytes "NotPrecedesEqual") 16 [0xe2; 0xaa; 0xaf; 0xcc; 0xb8] 5;
  mkEntity (bytes "NotPrecedesSlantEqual") 21 [0xe2; 0x8b; 0xa0] 3;
  mkEntity (bytes "NotReverseElement") 17 [0xe2; 0x88; 0x8c] 3;
  mkEntity (bytes "NotRightTriangle") 16 [0xe2; 0x8b; 0xab] 3;
  mkEntity (bytes "NotRightTriangleBar") 19 [0xe2; 0xa7; 0x90; 0xcc; 0xb8] 5;
  mkEntity (bytes "NotRightTriangleEqual") 21 [0xe2; 0x8b; 0xad] 3;
  mkEntity (bytes "NotSquareSubset") 15 [0xe2; 0x8a; 0x8f; 0xcc; 0xb8] 5;
  mkEntity (bytes "NotSquareSubsetEqual") 20 [0xe2; 0x8b; 0xa2] 3;
  mkEntity (bytes "NotSquareSuperset") 17 [0xe2; 0x8a; 0x90; 0xcc; 0xb8] 5;
  mkEntity (bytes "NotSquareSupersetEqual") 22 [0xe2; 0x8b; 0xa3] 3;
  mkEntity (bytes "NotSubset") 9 [0xe2; 0x8a; 0x82; 0xe2; 0x83; 0x92] 6;
  mkEntity (bytes "NotSubsetEqual") 14 [0xe2; 0x8a; 0x88] 3;
  mkEntity (bytes "NotSucceeds") 11 [0xe2; 0x8a; 0x81] 3;
  mkEntity (bytes "NotSucceedsEqual") 16 [0xe2; 0xaa; 0xb0; 0xcc; 0xb8] 5;
  mkEntity (bytes "NotSucceedsSlantEqual") 21 [0xe2; 0x8b; 0xa1] 3;
  mkEntity (bytes "NotSucceedsTilde") 16 [0xe2; 0x89; 0xbf; 0xcc; 0xb8] 5;
  mkEntity (bytes "NotSuperset") 11 [0xe2; 0x8a; 0x83; 0xe2; 0x83; 0x92] 6;
  mkEntity (bytes "NotSupersetEqual") 16 [0xe2; 0x8a; 0x89] 3;
  mkEntity (bytes "NotTilde") 8 [0xe2; 0x89; 0x81] 3;
  mkEntity (bytes "NotTildeEqual") 13 [0xe2; 0x89; 0x84] 3;
  mkEntity (bytes "NotTildeFullEqual") 17 [0xe2; 0x89; 0x87] 3;
  mkEntity (bytes "NotTildeTilde") 13 [0xe2; 0x89; 0x89] 3;
  mkEntity (bytes "NotVerticalBar") 14 [0xe2; 0x88; 0xa4] 3;
  mkEntity (bytes "Nscr") 4 [0xf0; 0x9d; 0x92; 0xa9] 4;
  mkEntity (bytes "Ntilde") 6 [0xc3; 0x91] 2;
  mkEntity (bytes "Nu") 2 [0xce; 0x9d] 2
].

Definition entities_O : list namedEntity_t := [
  mkEntity (bytes "OElig") 5 [0xc5; 0x92] 2;
  mkEntity (bytes "Oacute") 6 [0xc3; 0x93] 2;
  mkEntity (bytes "Ocirc") 5 [0xc3; 0x94] 2;
  mkEntity (bytes "Ocy") 3 [0xd0; 0x9e] 2;
  mkEntity (bytes "Odblac") 6 [0xc5; 0x90] 2;
  mkEntity (bytes "Ofr") 3 [0xf0; 0x9d; 0x94; 0x92] 4;
  mkEntity (bytes "Ograve") 6 [0xc3; 0x92] 2;
  mkEntity (bytes "Omacr") 5 [0xc5; 0x8c] 2;
  mkEntity (bytes "Omega") 5 [0xce; 0xa9] 2;
  mkEntity (bytes "Omicron") 7 [0xce; 0x9f] 2;
  mkEntity (bytes "Oopf") 4 [0xf0; 0x9d; 0x95; 0x86] 4;
  mkEntity (bytes "OpenCurlyDoubleQuote") 20 [0xe2; 0x80; 0x9c] 3;
  mkEntity (bytes "OpenCurlyQuote") 14 [0xe2; 0x80; 0x98] 3;
  mkEntity (bytes "Or") 2 [0xe2; 0xa9; 0x94] 3;
  mkEntity (bytes "Oscr") 4 [0xf0; 0x9d; 0x92; 0xaa] 4;
  mkEntity (bytes "Oslash") 6 [0xc3; 0x98] 2;
  mkEntity (bytes "Otilde") 6 [0xc3; 0x95] 2;
  mkEntity (bytes "Otimes") 6 [0xe2; 0xa8; 0xb7] 3;
  mkEntity (bytes "Ouml") 4 [0xc3; 0x96] 2;
  mkEntity (bytes "OverBar") 7 [0xe2; 0x80; 0xbe] 3;
  mkEntity (bytes "OverBrace") 9 [0xe2; 0x8f; 0x9e] 3;
  mkEntity (bytes "OverBracket") 11 [0xe2; 0x8e; 0xb4] 3;
  mkEntity (bytes "OverParenthesis") 15 [0xe2; 0x8f; 0x9c] 3
].

Definition entities_P : list namedEntity_t := [
  mkEntity (bytes "PartialD") 8 [0xe2; 0x88; 0x82] 3;
  mkEntity (bytes "Pcy") 3 [0xd0; 0x9f] 2;
  mkEntity (bytes "Pfr") 3 [0xf0; 0x9d; 0x94; 0x93] 4;
  mkEntity (bytes "Phi") 3 [0xce; 0xa6] 2;
  mkEntity (bytes "Pi") 2 [0xce; 0xa0] 2;
  mkEntity (bytes "PlusMinus") 9 [0xc2; 0xb1] 2;
  mkEntity (bytes "Poincareplane") 13 [0xe2; 0x84; 0x8c] 3;
  mkEntity (bytes "Popf") 4 [0xe2; 0x84; 0x99] 3;
  mkEntity (bytes "Pr") 2 [0xe2; 0xaa; 0xbb] 3;
  mkEntity (bytes "Precedes") 8 [0xe2; 0x89; 0xba] 3;
  mkEntity (bytes "PrecedesEqual") 13 [0xe2; 0xaa; 0xaf] 3;
  mkEntity (bytes "PrecedesSlantEqual") 18 [0xe2; 0x89; 0xbc] 3;
  mkEntity (bytes "PrecedesTilde") 13 [0xe2; 0x89; 0xbe] 3;
  mkEntity (bytes "Prime") 5 [0xe2; 0x80; 0xb3] 3;
  mkEntity (bytes "Product") 7 [0xe2; 0x88; 0x8f] 3;
  mkEntity (bytes "Proportion") 10 [0xe2; 0x88; 0xb7] 3;
  mkEntity (bytes "Proportional") 12 [0xe2; 0x88; 0x9d] 3;
  mkEntity (bytes "Pscr") 4 [0xf0; 0x9d; 0x92; 0xab] 4;
  mkEntity (bytes "Psi") 3 [0xce; 0xa8] 2
].

Definition entities_Q : list namedEntity_t := [
  mkEntity (bytes "QUOT") 4 [0x22] 1;
  mkEntity (bytes "Qfr") 3 [0xf0; 0x9d; 0x94; 0x94] 4;
  mkEntity (bytes "Qopf") 4 [0xe2; 0x84; 0x9a] 3;
  mkEntity (bytes "Qscr") 4 [0xf0; 0x9d; 0x92; 0xac] 4
].

Definition entities_R : list namedEntity_t := [
  mkEntity (bytes "RBarr") 5 [0xe2; 0xa4; 0x90] 3;
  mkEntity (bytes "REG") 3 [0xc2; 0xae] 2;
  mkEntity (bytes "Racute") 6 [0xc5; 0x94] 2;
  mkEntity (bytes "Rang") 4 [0xe2; 0x9f; 0xab] 3;
  mkEntity (bytes "Rarr") 4 [0xe2; 0x86; 0xa0] 3;
  mkEntity (bytes "Rarrtl") 6 [0xe2; 0xa4; 0x96] 3;
  mkEntity (bytes "Rcaron") 6 [0xc5; 0x98] 2;
  mkEntity (bytes "Rcedil") 6 [0xc5; 0x96] 2;
  mkEntity (bytes "Rcy") 3 [0xd0; 0xa0] 2;
  mkEntity (bytes "Re") 2 [0xe2; 0x84; 0x9c] 3;
  mkEntity (bytes "ReverseElement") 14 [0xe2; 0x88; 0x8b] 3;
  mkEntity (bytes "ReverseEquilibrium") 18 [0xe2; 0x87; 0x8b] 3;
  mkEntity (bytes "ReverseUpEquilibrium") 20 [0xe2; 0xa5; 0xaf] 3;
  mkEntity (bytes "Rfr") 3 [0xe2; 0x84; 0x9c] 3;
  mkEntity (bytes "Rho") 3 [0xce; 0xa1] 2;
  mkEntity (bytes "RightAngleBracket") 17 [0xe2; 0x9f; 0xa9] 3;
  mkEntity (bytes "RightArrow") 10 [0xe2; 0x86; 0x92] 3;
  mkEntity (bytes "RightArrowBar") 13 [0xe2; 0x87; 0xa5] 3;
  mkEntity (bytes "RightArrowLeftArrow") 19 [0xe2; 0x87; 0x84] 3;
  mkEntity (bytes "RightCeiling") 12 [0xe2; 0x8c; 0x89] 3;
  mkEntity (bytes "RightDoubleBracket") 18 [0xe2; 0x9f; 0xa7] 3;
  mkEntity (bytes "RightDownTeeVector") 18 [0xe2; 0xa5; 0x9d] 3;
  mkEntity (bytes "RightDownVector") 15 [0xe2; 0x87; 0x82] 3;
  mkEntity (bytes "RightDownVectorBar") 18 [0xe2; 0xa5; 0x95] 3;
  mkEntity (bytes "RightFloor") 10 [0xe2; 0x8c; 0x8b] 3;
  mkEntity (bytes "RightTee") 8 [0xe2; 0x8a; 0xa2] 3;
  mkEntity (bytes "RightTeeArrow") 13 [0xe2; 0x86; 0xa6] 3;
  mkEntity (bytes "RightTeeVector") 14 [0xe2; 0xa5; 0x9b] 3;
  mkEntity (bytes "RightTriangle") 13 [0xe2; 0x8a; 0xb3] 3;
  mkEntity (bytes "RightTriangleBar") 16 [0xe2; 0xa7; 0x90] 3;
  mkEntity (bytes "RightTriangleEqual") 18 [0xe2; 0x8a; 0xb5] 3;
  mkEntity (bytes "RightUpDownVector") 17 [0xe2; 0xa5; 0x8f] 3;
  mkEntity (bytes "RightUpTeeVector") 16 [0xe2; 0xa5; 0x9c] 3;
  mkEntity (bytes "RightUpVector") 13 [0xe2; 0x86; 0xbe] 3;
  mkEntity (bytes "RightUpVectorBar") 16 [0xe2; 0xa5; 0x94] 3;
  mkEntity (bytes "RightVector") 11 [0xe2; 0x87; 0x80] 3;
  mkEntity (bytes "RightVectorBar") 14 [0xe2; 0xa5; 0x93] 3;
  mkEntity (bytes "Rightarrow") 10 [0xe2; 0x87; 0x92] 3;
  mkEntity (bytes "Ropf") 4 [0xe2; 0x84; 0x9d] 3;
  mkEntity (bytes "RoundImplies") 12 [0xe2; 0xa5; 0xb0] 3;
  mkEntity (bytes "Rrightarrow") 11 [0xe2; 0x87; 0x9b] 3;
  mkEntity (bytes "Rscr") 4 [0xe2; 0x84; 0x9b] 3;
  mkEntity (bytes "Rsh") 3 [0xe2; 0x86; 0xb1] 3;
  mkEntity (bytes "RuleDelayed") 11 [0xe2; 0xa7; 0xb4] 3
].

Definition entities_S : list namedEntity_t := [
  mkEntity (bytes "SHCHcy") 6 [0xd0; 0xa9] 2;
  mkEntity (bytes "SHcy") 4 [0xd0; 0xa8] 2;
  mkEntity (bytes "SOFTcy") 6 [0xd0; 0xac] 2;
  mkEntity (bytes "Sacute") 6 [0xc5; 0x9a] 2;
  mkEntity (bytes "Sc") 2 [0xe2; 0xaa; 0xbc] 3;
  mkEntity (bytes "Scaron") 6 [0xc5; 0xa0] 2;
  mkEntity (bytes "Scedil") 6 [0xc5; 0x9e] 2;
  mkEntity (bytes "Scirc") 5 [0xc5; 0x9c] 2;
  mkEntity (bytes "Scy") 3 [0xd0; 0xa1] 2;
  mkEntity (bytes "Sfr") 3 [0xf0; 0x9d; 0x94; 0x96] 4;
  mkEntity (bytes "ShortDownArrow") 14 [0xe2; 0x86; 0x93] 3;
  mkEntity (bytes "ShortLeftArrow") 14 [0xe2; 0x86; 0x90] 3;
  mkEntity (bytes "ShortRightArrow") 15 [0xe2; 0x86; 0x92] 3;
  mkEntity (bytes "ShortUpArrow") 12 [0xe2; 0x86; 0x91] 3;
  mkEntity (bytes "Sigma") 5 [0xce; 0xa3] 2;
  mkEntity (bytes "SmallCircle") 11 [0xe2; 0x88; 0x98] 3;
  mkEntity (bytes "Sopf") 4 [0xf0; 0x9d; 0x95; 0x8a] 4;
  mkEntity (bytes "Sqrt") 4 [0xe2; 0x88; 0x9a] 3;
  mkEntity (bytes "Square") 6 [0xe2; 0x96; 0xa1] 3;
  mkEntity (bytes "SquareIntersection") 18 [0xe2; 0x8a; 0x93] 3;
  mkEntity (bytes "SquareSubset") 12 [0xe2; 0x8a; 0x8f] 3;
  mkEntity (bytes "SquareSubsetEqual") 17 [0xe2; 0x8a; 0x91] 3;
  mkEntity (bytes "SquareSuperset") 14 [0xe2; 0x8a; 0x90] 3;
  mkEntity (bytes "SquareSupersetEqual") 19 [0xe2; 0x8a; 0x92] 3;
  mkEntity (bytes "SquareUnion") 11 [0xe2; 0x8a; 0x94] 3;
  mkEntity (bytes "Sscr") 4 [0xf0; 0x9d; 0x92; 0xae] 4;
  mkEntity (bytes "Star") 4 [0xe2; 0x8b; 0x86] 3;
  mkEntity (bytes "Sub") 3 [0xe2; 0x8b; 0x90] 3;
  mkEntity (bytes "Subset") 6 [0xe2; 0x8b; 0x90] 3;
  mkEntity (bytes "SubsetEqual") 11 [0xe2; 0x8a; 0x86] 3;
  mkEntity (bytes "Succeeds") 8 [0xe2; 0x89; 0xbb] 3;
  mkEntity (bytes "SucceedsEqual") 13 [0xe2; 0xaa; 0xb0] 3;
  mkEntity (bytes "SucceedsSlantEqual") 18 [0xe2; 0x89; 0xbd] 3;
  mkEntity (bytes "SucceedsTilde") 13 [0xe2; 0x89; 0xbf] 3;
  mkEntity (bytes "SuchThat") 8 [0xe2; 0x88; 0x8b] 3;
  mkEntity (bytes "Sum") 3 [0xe2; 0x88; 0x91] 3;
  mkEntity (bytes "Sup") 3 [0xe2; 0x8b; 0x91] 3;
  mkEntity (bytes "Superset") 8 [0xe2; 0x8a; 0x83] 3;
  mkEntity (bytes "SupersetEqual") 13 [0xe2; 0x8a; 0x87] 3;
  mkEntity (bytes "Supset") 6 [0xe2; 0x8b; 0x91] 3
].

Definition entities_T : list namedEntity_t := [
  mkEntity (bytes "THORN") 5 [0xc3; 0x9e] 2;
  mkEntity (bytes "TRADE") 5 [0xe2; 0x84; 0xa2] 3;
  mkEntity (bytes "TSHcy") 5 [0xd0; 0x8b] 2;
  mkEntity (bytes "TScy") 4 [0xd0; 0xa6] 2;
  mkEntity (bytes "Tab") 3 [0x09] 1;
  mkEntity (bytes "Tau") 3 [0xce; 0xa4] 2;
  mkEntity (bytes "Tcaron") 6 [0xc5; 0xa4] 2;
  mkEntity (bytes "Tcedil") 6 [0xc5; 0xa2] 2;
  mkEntity (bytes "Tcy") 3 [0xd0; 0xa2] 2;
  mkEntity (bytes "Tfr") 3 [0xf0; 0x9d; 0x94; 0x97] 4;
  mkEntity (bytes "Therefore") 9 [0xe2; 0x88; 0xb4] 3;
  mkEntity (bytes "Theta") 5 [0xce; 0x98] 2;
  mkEntity (bytes "ThickSpace") 10 [0xe2; 0x81; 0x9f; 0xe2; 0x80; 0x8a] 6;
  mkEntity (bytes "ThinSpace") 9 [0xe2; 0x80; 0x89] 3;
  mkEntity (bytes "Tilde") 5 [0xe2; 0x88; 0xbc] 3;
  mkEntity (bytes "TildeEqual") 10 [0xe2; 0x89; 0x83] 3;
  mkEntity (bytes "TildeFullEqual") 14 [0xe2; 0x89; 0x85] 3;
  mkEntity (bytes "TildeTilde") 10 [0xe2; 0x89; 0x88] 3;
  mkEntity (bytes "Topf") 4 [0xf0; 0x9d; 0x95; 0x8b] 4;
  mkEntity (bytes "TripleDot") 9 [0xe2; 0x83; 0x9b] 3;
  mkEntity (bytes "Tscr") 4 [0xf0; 0x9d; 0x92; 0xaf] 4;
  mkEntity (bytes "Tstrok") 6 [0xc5; 0xa6] 2
].

Definition entities_U : list namedEntity_t := [
  mkEntity (bytes "Uacute") 6 [0xc3; 0x9a] 2;
  mkEntity (bytes "Uarr") 4 [0xe2; 0x86; 0x9f] 3;
  mkEntity (bytes "Uarrocir") 8 [0xe2; 0xa5; 0x89] 3;
  mkEntity (bytes "Ubrcy") 5 [0xd0; 0x8e] 2;
  mkEntity (bytes "Ubreve") 6 [0xc5; 0xac] 2;
  mkEntity (bytes "Ucirc") 5 [0xc3; 0x9b] 2;
  mkEntity (bytes "Ucy") 3 [0xd0; 0xa3] 2;
  mkEntity (bytes "Udblac") 6 [0xc5; 0xb0] 2;
  mkEntity (bytes "Ufr") 3 [0xf0; 0x9d; 0x94; 0x98] 4;
  mkEntity (bytes "Ugrave") 6 [0xc3; 0x99] 2;
  mkEntity (bytes "Umacr") 5 [0xc5; 0xaa] 2;
  mkEntity (bytes "UnderBar") 8 [0x5f] 1;
  mkEntity (bytes "UnderBrace") 10 [0xe2; 0x8f; 0x9f] 3;
  mkEntity (bytes "UnderBracket") 12 [0xe2; 0x8e; 0xb5] 3;
  mkEntity (bytes "UnderParenthesis") 16 [0xe2; 0x8f; 0x9d] 3;
  mkEntity (bytes "Union") 5 [0xe2; 0x8b; 0x83] 3;
  mkEntity (bytes "UnionPlus") 9 [0xe2; 0x8a; 0x8e] 3;
  mkEntity (bytes "Uogon") 5 [0xc5; 0xb2] 2;
  mkEntity (bytes "Uopf") 4 [0xf0; 0x9d; 0x95; 0x8c] 4;
  mkEntity (bytes "UpArrow") 7 [0xe2; 0x86; 0x91] 3;
  mkEntity (bytes "UpArrowBar") 10 [0xe2; 0xa4; 0x92] 3;
  mkEntity (bytes "UpArrowDownArrow") 16 [0xe2; 0x87; 0x85] 3;
  mkEntity (bytes "UpDownArrow") 11 [0xe2; 0x86; 0x95] 3;
  mkEntity (bytes "UpEquilibrium") 13 [0xe2; 0xa5; 0xae] 3;
  mkEntity (bytes "UpTee") 5 [0xe2; 0x8a; 0xa5] 3;
  mkEntity (bytes "UpTeeArrow") 10 [0xe2; 0x86; 0xa5] 3;
  mkEntity (bytes "Uparrow") 7 [0xe2; 0x87; 0x91] 3;
  mkEntity (bytes "Updownarrow") 11 [0xe2; 0x87; 0x95] 3;
  mkEntity (bytes "UpperLeftArrow") 14 [0xe2; 0x86; 0x96] 3;
  mkEntity (bytes "UpperRightArrow") 15 [0xe2; 0x86; 0x97] 3;
  mkEntity (bytes "Upsi") 4 [0xcf; 0x92] 2;
  mkEntity (bytes "Upsilon") 7 [0xce; 0xa5] 2;
  mkEntity (bytes "Uring") 5 [0xc5; 0xae] 2;
  mkEntity (bytes "Uscr") 4 [0xf0; 0x9d; 0x92; 0xb0] 4;
  mkEntity (bytes "Utilde") 6 [0xc5; 0xa8] 2;
  mkEntity (bytes "Uuml") 4 [0xc3; 0x9c] 2
].

Definition entities_V : list namedEntity_t := [
  mkEntity (bytes "VDash") 5 [0xe2; 0x8a; 0xab] 3;
  mkEntity (bytes "Vbar") 4 [0xe2; 0xab; 0xab] 3;
  mkEntity (bytes "Vcy") 3 [0xd0; 0x92] 2;
  mkEntity (bytes "Vdash") 5 [0xe2; 0x8a; 0xa9] 3;
  mkEntity (bytes "Vdashl") 6 [0xe2; 0xab; 0xa6] 3;
  mkEntity (bytes "Vee") 3 [0xe2; 0x8b; 0x81] 3;
  mkEntity (bytes "Verbar") 6 [0xe2; 0x80; 0x96] 3;
  mkEntity (bytes "Vert") 4 [0xe2; 0x80; 0x96] 3;
  mkEntity (bytes "VerticalBar") 11 [0xe2; 0x88; 0xa3] 3;
  mkEntity (bytes "VerticalLine") 12 [0x7c] 1;
  mkEntity (bytes "VerticalSeparator") 17 [0xe2; 0x9d; 0x98] 3;
  mkEntity (bytes "VerticalTilde") 13 [0xe2; 0x89; 0x80] 3;
  mkEntity (bytes "VeryThinSpace") 13 [0xe2; 0x80; 0x8a] 3;
  mkEntity (bytes "Vfr") 3 [0xf0; 0x9d; 0x94; 0x99] 4;
  mkEntity (bytes "Vopf") 4 [0xf0; 0x9d; 0x95; 0x8d] 4;
  mkEntity (bytes "Vscr") 4 [0xf0; 0x9d; 0x92; 0xb1] 4;
  mkEntity (bytes "Vvdash") 6 [0xe2; 0x8a; 0xaa] 3
].

Definition entities_W : list namedEntity_t := [
  mkEntity (bytes "Wcirc") 5 [0xc5; 0xb4] 2;
  mkEntity (bytes "Wedge") 5 [0xe2; 0x8b; 0x80] 3;
  mkEntity (bytes "Wfr") 3 [0xf0; 0x9d; 0x94; 0x9a] 4;
  mkEntity (bytes "Wopf") 4 [0xf0; 0x9d; 0x95; 0x8e] 4;
  mkEntity (bytes "Wscr") 4 [0xf0; 0x9d; 0x92; 0xb2] 4
].

Definition entities_X : list namedEntity_t := [
  mkEntity (bytes "Xfr") 3 [0xf0; 0x9d; 0x94; 0x9b] 4;
  mkEntity (bytes "Xi") 2 [0xce; 0x9e] 2;
  mkEntity (bytes "Xopf") 4 [0xf0; 0x9d; 0x95; 0x8f] 4;
  mkEntity (bytes "Xscr") 4 [0xf0; 0x9d; 0x92; 0xb3] 4
].

Definition entities_Y : list namedEntity_t := [
  mkEntity (bytes "YAcy") 4 [0xd0; 0xaf] 2;
  mkEntity (bytes "YIcy") 4 [0xd0; 0x87] 2;
  mkEntity (bytes "YUcy") 4 [0xd0; 0xae] 2;
  mkEntity (bytes "Yacute") 6 [0xc3; 0x9d] 2;
  mkEntity (bytes "Ycirc") 5 [0xc5; 0xb6] 2;
  mkEntity (bytes "Ycy") 3 [0xd0; 0xab] 2;
  mkEntity (bytes "Yfr") 3 [0xf0; 0x9d; 0x94; 0x9c] 4;
  mkEntity (bytes "Yopf") 4 [0xf0; 0x9d; 0x95; 0x90] 4;
  mkEntity (bytes "Yscr") 4 [0xf0; 0x9d; 0x92; 0xb4] 4;
  mkEntity (bytes "Yuml") 4 [0xc5; 0xb8] 2
].

Definition entities_Z : list namedEntity_t := [
  mkEntity (bytes "ZHcy") 4 [0xd0; 0x96] 2;
  mkEntity (bytes "Zacute") 6 [0xc5; 0xb9] 2;
  mkEntity (bytes "Zcaron") 6 [0xc5; 0xbd] 2;
  mkEntity (bytes "Zcy") 3 [0xd0; 0x97] 2;
  mkEntity (bytes "Zdot") 4 [0xc5; 0xbb] 2;
  mkEntity (bytes "ZeroWidthSpace") 14 [0xe2; 0x80; 0x8b] 3;
  mkEntity (bytes "Zeta") 4 [0xce; 0x96] 2;
  mkEntity (bytes "Zfr") 3 [0xe2; 0x84; 0xa8] 3;
  mkEntity (bytes "Zopf") 4 [0xe2; 0x84; 0xa4] 3;
  mkEntity (bytes "Zscr") 4 [0xf0; 0x9d; 0x92; 0xb5] 4
].

Definition entities_a : list namedEntity_t := [
  mkEntity (bytes "aacute") 6 [0xc3; 0xa1] 2;
  mkEntity (bytes "abreve") 6 [0xc4; 0x83] 2;
  mkEntity (bytes "ac") 2 [0xe2; 0x88; 0xbe] 3;
  mkEntity (bytes "acE") 3 [0xe2; 0x88; 0xbe; 0xcc; 0xb3] 5;
  mkEntity (bytes "acd") 3 [0xe2; 0x88; 0xbf] 3;
  mkEntity (bytes "acirc") 5 [0xc3; 0xa2] 2;
  mkEntity (bytes "acute") 5 [0xc2; 0xb4] 2;
  mkEntity (bytes "acy") 3 [0xd0; 0xb0] 2;
  mkEntity (bytes "aelig") 5 [0xc3; 0xa6] 2;
  mkEntity (bytes "af") 2 [0xe2; 0x81; 0xa1] 3;
  mkEntity (bytes "afr") 3 [0xf0; 0x9d; 0x94; 0x9e] 4;
  mkEntity (bytes "agrave") 6 [0xc3; 0xa0] 2;
  mkEntity (bytes "alefsym") 7 [0xe2; 0x84; 0xb5] 3;
  mkEntity (bytes "aleph") 5 [0xe2; 0x84; 0xb5] 3;
  mkEntity (bytes "alpha") 5 [0xce; 0xb1] 2;
  mkEntity (bytes "amacr") 5 [0xc4; 0x81] 2;
  mkEntity (bytes "amalg") 5 [0xe2; 0xa8; 0xbf] 3;
  mkEntity (bytes "amp") 3 [0x26] 1;
  mkEntity (bytes "and") 3 [0xe2; 0x88; 0xa7] 3;
  mkEntity (bytes "andand") 6 [0xe2; 0xa9; 0x95] 3;
  mkEntity (bytes "andd") 4 [0xe2; 0xa9; 0x9c] 3;
  mkEntity (bytes "andslope") 8 [0xe2; 0xa9; 0x98] 3;
  mkEntity (bytes "andv") 4 [0xe2; 0xa9; 0x9a] 3;
  mkEntity (bytes "ang") 3 [0xe2; 0x88; 0xa0] 3;
  mkEntity (bytes "ange") 4 [0xe2; 0xa6; 0xa4] 3;
  mkEntity (bytes "angle") 5 [0xe2; 0x88; 0xa0] 3;
  mkEntity (bytes "angmsd") 6 [0xe2; 0x88; 0xa1] 3;
  mkEntity (bytes "angmsdaa") 8 [0xe2; 0xa6; 0xa8] 3;
  mkEntity (bytes "angmsdab") 8 [0xe2; 0xa6; 0xa9] 3;
  mkEntity (bytes "angmsdac") 8 [0xe2; 0xa6; 0xaa] 3;
  mkEntity (bytes "angmsdad") 8 [0xe2; 0xa6; 0xab] 3;
  mkEntity (bytes "angmsdae") 8 [0xe2; 0xa6; 0xac] 3;
  mkEntity (bytes "angmsdaf") 8 [0xe2; 0xa6; 0xad] 3;
  mkEntity (bytes "angmsdag") 8 [0xe2; 0xa6; 0xae] 3;
  mkEntity (bytes "angmsdah") 8 [0xe2; 0xa6; 0xaf] 3;
  mkEntity (bytes "angrt") 5 [0xe2; 0x88; 0x9f] 3;
  mkEntity (bytes "angrtvb") 7 [0xe2; 0x8a; 0xbe] 3;
  mkEntity (bytes "angrtvbd") 8 [0xe2; 0xa6; 0x9d] 3;
  mkEntity (bytes "angsph") 6 [0xe2; 0x88; 0xa2] 3;
  mkEntity (bytes "angst") 5 [0xc3; 0x85] 2;
  mkEntity (bytes "angzarr") 7 [0xe2; 0x8d; 0xbc] 3;
  mkEntity (bytes "aogon") 5 [0xc4; 0x85] 2;
  mkEntity (bytes "aopf") 4 [0xf0; 0x9d; 0x95; 0x92] 4;
  mkEntity (bytes "ap") 2 [0xe2; 0x89; 0x88] 3;
  mkEntity (bytes "apE") 3 [0xe2; 0xa9; 0xb0] 3;
  mkEntity (bytes "apacir") 6 [0xe2; 0xa9; 0xaf] 3;
  mkEntity (bytes "ape") 3 [0xe2; 0x89; 0x8a] 3;
  mkEntity (bytes "apid") 4 [0xe2; 0x89; 0x8b] 3;
  mkEntity (bytes "apos") 4 [0x27] 1;
  mkEntity (bytes "approx") 6 [0xe2; 0x89; 0x88] 3;
  mkEntity (bytes "approxeq") 8 [0xe2; 0x89; 0x8a] 3;
  mkEntity (bytes "aring") 5 [0xc3; 0xa5] 2;
  mkEntity (bytes "ascr") 4 [0xf0; 0x9d; 0x92; 0xb6] 4;
  mkEntity (bytes "ast") 3 [0x2a] 1;
  mkEntity (bytes "asymp") 5 [0xe2; 0x89; 0x88] 3;
  mkEntity (bytes "asympeq") 7 [0xe2; 0x89; 0x8d] 3;
  mkEntity (bytes "atilde") 6 [0xc3; 0xa3] 2;
  mkEntity (bytes "auml") 4 [0xc3; 0xa4] 2;
  mkEntity (bytes "awconint") 8 [0xe2; 0x88; 0xb3] 3;
  mkEntity (bytes "awint") 5 [0xe2; 0xa8; 0x91] 3
].

Definition entities_b : list namedEntity_t := [
  mkEntity (bytes "bNot") 4 [0xe2; 0xab; 0xad] 3;
  mkEntity (bytes "backcong") 8 [0xe2; 0x89; 0x8c] 3;
  mkEntity (bytes "backepsilon") 11 [0xcf; 0xb6] 2;
  mkEntity (bytes "backprime") 9 [0xe2; 0x80; 0xb5] 3;
  mkEntity (bytes "backsim") 7 [0xe2; 0x88; 0xbd] 3;
  mkEntity (bytes "backsimeq") 9 [0xe2; 0x8b; 0x8d] 3;
  mkEntity (bytes "barvee") 6 [0xe2; 0x8a; 0xbd] 3;
  mkEntity (bytes "barwed") 6 [0xe2; 0x8c; 0x85] 3;
  mkEntity (bytes "barwedge") 8 [0xe2; 0x8c; 0x85] 3;
  mkEntity (bytes "bbrk") 4 [0xe2; 0x8e; 0xb5] 3;
  mkEntity (bytes "bbrktbrk") 8 [0xe2; 0x8e; 0xb6] 3;
  mkEntity (bytes "bcong") 5 [0xe2; 0x89; 0x8c] 3;
  mkEntity (bytes "bcy") 3 [0xd0; 0xb1] 2;
  mkEntity (bytes "bdquo") 5 [0xe2; 0x80; 0x9e] 3;
  mkEntity (bytes "becaus") 6 [0xe2; 0x88; 0xb5] 3;
  mkEntity (bytes "because") 7 [0xe2; 0x88; 0xb5] 3;
  mkEntity (bytes "bemptyv") 7 [0xe2; 0xa6; 0xb0] 3;
  mkEntity (bytes "bepsi") 5 [0xcf; 0xb6] 2;
  mkEntity (bytes "bernou") 6 [0xe2; 0x84; 0xac] 3;
  mkEntity (bytes "beta") 4 [0xce; 0xb2] 2;
  mkEntity (bytes "beth") 4 [0xe2; 0x84; 0xb6] 3;
  mkEntity (bytes "between") 7 [0xe2; 0x89; 0xac] 3;
  mkEntity (bytes "bfr") 3 [0xf0; 0x9d; 0x94; 0x9f] 4;
  mkEntity (bytes "bigcap") 6 [0xe2; 0x8b; 0x82] 3;
  mkEntity (bytes "bigcirc") 7 [0xe2; 0x97; 0xaf] 3;
  mkEntity (bytes "bigcup") 6 [0xe2; 0x8b; 0x83] 3;
  mkEntity (bytes "bigodot") 7 [0xe2; 0xa8; 0x80] 3;
  mkEntity (bytes "bigoplus") 8 [0xe2; 0xa8; 0x81] 3;
  mkEntity (bytes "bigotimes") 9 [0xe2; 0xa8; 0x82] 3;
  mkEntity (bytes "bigsqcup") 8 [0xe2; 0xa8; 0x86] 3;
  mkEntity (bytes "bigstar") 7 [0xe2; 0x98; 0x85] 3;
  mkEntity (bytes "bigtriangledown") 15 [0xe2; 0x96; 0xbd] 3;
  mkEntity (bytes "bigtriangleup") 13 [0xe2; 0x96; 0xb3] 3;
  mkEntity (bytes "biguplus") 8 [0xe2; 0xa8; 0x84] 3;
  mkEntity (bytes "bigvee") 6 [0xe2; 0x8b; 0x81] 3;
  mkEntity (bytes "bigwedge") 8 [0xe2; 0x8b; 0x80] 3;
  mkEntity (bytes "bkarow") 6 [0xe2; 0xa4; 0x8d] 3;
  mkEntity (bytes "blacklozenge") 12 [0xe2; 0xa7; 0xab] 3;
  mkEntity (bytes "blacksquare") 11 [0xe2; 0x96; 0xaa] 3;
  mkEntity (bytes "blacktriangle") 13 [0xe2; 0x96; 0xb4] 3;
  mkEntity (bytes "blacktriangledown") 17 [0xe2; 0x96; 0xbe] 3;
  mkEntity (bytes "blacktriangleleft") 17 [0xe2; 0x97; 0x82] 3;
  mkEntity (bytes "blacktriangleright") 18 [0xe2; 0x96; 0xb8] 3;
  mkEntity (bytes "blank") 5 [0xe2; 0x90; 0xa3] 3;
  mkEntity (bytes "blk12") 5 [0xe2; 0x96; 0x92] 3;
  mkEntity (bytes "blk14") 5 [0xe2; 0x96; 0x91] 3;
  mkEntity (bytes "blk34") 5 [0xe2; 0x96; 0x93] 3;
  mkEntity (bytes "block") 5 [0xe2; 0x96; 0x88] 3;
  mkEntity (bytes "bne") 3 [0x3d; 0xe2; 0x83; 0xa5] 4;
  mkEntity (bytes "bnequiv") 7 [0xe2; 0x89; 0xa1; 0xe2; 0x83; 0xa5] 6;
  mkEntity (bytes "bnot") 4 [0xe2; 0x8c; 0x90] 3;
  mkEntity (bytes "bopf") 4 [0xf0; 0x9d; 0x95; 0x93] 4;
  mkEntity (bytes "bot") 3 [0xe2; 0x8a; 0xa5] 3;
  mkEntity (bytes "bottom") 6 [0xe2; 0x8a; 0xa5] 3;
  mkEntity (bytes "bowtie") 6 [0xe2; 0x8b; 0x88] 3;
  mkEntity (bytes "boxDL") 5 [0xe2; 0x95; 0x97] 3;
  mkEntity (bytes "boxDR") 5 [0xe2; 0x95; 0x94] 3;
  mkEntity (bytes "boxDl") 5 [0xe2; 0x95; 0x96] 3;
  mkEntity (bytes "boxDr") 5 [0xe2; 0x95; 0x93] 3;
  mkEntity (bytes "boxH") 4 [0xe2; 0x95; 0x90] 3;
  mkEntity (bytes "boxHD") 5 [0xe2; 0x95; 0xa6] 3;
  mkEntity (bytes "boxHU") 5 [0xe2; 0x95; 0xa9] 3;
  mkEntity (bytes "boxHd") 5 [0xe2; 0x95; 0xa4] 3;
  mkEntity (bytes "boxHu") 5 [0xe2; 0x95; 0xa7] 3;
  mkEntity (bytes "boxUL") 5 [0xe2; 0x95; 0x9d] 3;
  mkEntity (bytes "boxUR") 5 [0xe2; 0x95; 0x9a] 3;
  mkEntity (bytes "boxUl") 5 [0xe2; 0x95; 0x9c] 3;
  mkEntity (bytes "boxUr") 5 [0xe2; 0x95; 0x99] 3;
  mkEntity (bytes "boxV") 4 [0xe2; 0x95; 0x91] 3;
  mkEntity (bytes "boxVH") 5 [0xe2; 0x95; 0xac] 3;
  mkEntity (bytes "boxVL") 5 [0xe2; 0x95; 0xa3] 3;
  mkEntity (bytes "boxVR") 5 [0xe2; 0x95; 0xa0] 3;
  mkEntity (bytes "boxVh") 5 [0xe2; 0x95; 0xab] 3;
  mkEntity (bytes "boxVl") 5 [0xe2; 0x95; 0xa2] 3;
  mkEntity (bytes "boxVr") 5 [0xe2; 0x95; 0x9f] 3;
  mkEntity (bytes "boxbox") 6 [0xe2; 0xa7; 0x89] 3;
  mkEntity (bytes "boxdL") 5 [0xe2; 0x95; 0x95] 3;
  mkEntity (bytes "boxdR") 5 [0xe2; 0x95; 0x92] 3;
  mkEntity (bytes "boxdl") 5 [0xe2; 0x94; 0x90] 3;
  mkEntity (bytes "boxdr") 5 [0xe2; 0x94; 0x8c] 3;
  mkEntity (bytes "boxh") 4 [0xe2; 0x94; 0x80] 3;
  mkEntity (bytes "boxhD") 5 [0xe2; 0x95; 0xa5] 3;
  mkEntity (bytes "boxhU") 5 [0xe2; 0x95; 0xa8] 3;
  mkEntity (bytes "boxhd") 5 [0xe2; 0x94; 0xac] 3;
  mkEntity (bytes "boxhu") 5 [0xe2; 0x94; 0xb4] 3;
  mkEntity (bytes "boxminus") 8 [0xe2; 0x8a; 0x9f] 3;
  mkEntity (bytes "boxplus") 7 [0xe2; 0x8a; 0x9e] 3;
  mkEntity (bytes "boxtimes") 8 [0xe2; 0x8a; 0xa0] 3;
  mkEntity (bytes "boxuL") 5 [0xe2; 0x95; 0x9b] 3;
  mkEntity (bytes "boxuR") 5 [0xe2; 0x95; 0x98] 3;
  mkEntity (bytes "boxul") 5 [0xe2; 0x94; 0x98] 3;
  mkEntity (bytes "boxur") 5 [0xe2; 0x94; 0x94] 3;
  mkEntity (bytes "boxv") 4 [0xe2; 0x94; 0x82] 3;
  mkEntity (bytes "boxvH") 5 [0xe2; 0x95; 0xaa] 3;
  mkEntity (bytes "boxvL") 5 [0xe2; 0x95; 0xa1] 3;
  mkEntity (bytes "boxvR") 5 [0xe2; 0x95; 0x9e] 3;
  mkEntity (bytes "boxvh") 5 [0xe2; 0x94; 0xbc] 3;
  mkEntity (bytes "boxvl") 5 [0xe2; 0x94; 0xa4] 3;
  mkEntity (bytes "boxvr") 5 [0xe2; 0x94; 0x9c] 3;
  mkEntity (bytes "bprime") 6 [0xe2; 0x80; 0xb5] 3;
  mkEntity (bytes "breve") 5 [0xcb; 0x98] 2;
  mkEntity (bytes "brvbar") 6 [0xc2; 0xa6] 2;
  mkEntity (bytes "bscr") 4 [0xf0; 0x9d; 0x92; 0xb7] 4;
  mkEntity (bytes "bsemi") 5 [0xe2; 0x81; 0x8f] 3;
  mkEntity (bytes "bsim") 4 [0xe2; 0x88; 0xbd] 3;
  mkEntity (bytes "bsime") 5 [0xe2; 0x8b; 0x8d] 3;
  mkEntity (bytes "bsol") 4 [0x5c] 1;
  mkEntity (bytes "bsolb") 5 [0xe2; 0xa7; 0x85] 3;
  mkEntity (bytes "bsolhsub") 8 [0xe2; 0x9f; 0x88] 3;
  mkEntity (bytes "bull") 4 [0xe2; 0x80; 0xa2] 3;
  mkEntity (bytes "bullet") 6 [0xe2; 0x80; 0xa2] 3;
  mkEntity (bytes "bump") 4 [0xe2; 0x89; 0x8e] 3;
  mkEntity (bytes "bumpE") 5 [0xe2; 0xaa; 0xae] 3;
  mkEntity (bytes "bumpe") 5 [0xe2; 0x89; 0x8f] 3;
  mkEntity (bytes "bumpeq") 6 [0xe2; 0x89; 0x8f] 3
].

Definition entities_c : list namedEntity_t := [
  mkEntity (bytes "cacute") 6 [0xc4; 0x87] 2;
  mkEntity (bytes "cap") 3 [0xe2; 0x88; 0xa9] 3;
  mkEntity (bytes "capand") 6 [0xe2; 0xa9; 0x84] 3;
  mkEntity (bytes "capbrcup") 8 [0xe2; 0xa9; 0x89] 3;
  mkEntity (bytes "capcap") 6 [0xe2; 0xa9; 0x8b] 3;
  mkEntity (bytes "capcup") 6 [0xe2; 0xa9; 0x87] 3;
  mkEntity (bytes "capdot") 6 [0xe2; 0xa9; 0x80] 3;
  mkEntity (bytes "caps") 4 [0xe2; 0x88; 0xa9; 0xef; 0xb8; 0x80] 6;
  mkEntity (bytes "caret") 5 [0xe2; 0x81; 0x81] 3;
  mkEntity (bytes "caron") 5 [0xcb; 0x87] 2;
  mkEntity (bytes "ccaps") 5 [0xe2; 0xa9; 0x8d] 3;
  mkEntity (bytes "ccaron") 6 [0xc4; 0x8d] 2;
  mkEntity (bytes "ccedil") 6 [0xc3; 0xa7] 2;
  mkEntity (bytes "ccirc") 5 [0xc4; 0x89] 2;
  mkEntity (bytes "ccups") 5 [0xe2; 0xa9; 0x8c] 3;
  mkEntity (bytes "ccupssm") 7 [0xe2; 0xa9; 0x90] 3;
  mkEntity (bytes "cdot") 4 [0xc4; 0x8b] 2;
  mkEntity (bytes "cedil") 5 [0xc2; 0xb8] 2;
  mkEntity (bytes "cemptyv") 7 [0xe2; 0xa6; 0xb2] 3;
  mkEntity (bytes "cent") 4 [0xc2; 0xa2] 2;
  mkEntity (bytes "centerdot") 9 [0xc2; 0xb7] 2;
  mkEntity (bytes "cfr") 3 [0xf0; 0x9d; 0x94; 0xa0] 4;
  mkEntity (bytes "chcy") 4 [0xd1; 0x87] 2;
  mkEntity (bytes "check") 5 [0xe2; 0x9c; 0x93] 3;
  mkEntity (bytes "checkmark") 9 [0xe2; 0x9c; 0x93] 3;
  mkEntity (bytes "chi") 3 [0xcf; 0x87] 2;
  mkEntity (bytes "cir") 3 [0xe2; 0x97; 0x8b] 3;
  mkEntity (bytes "cirE") 4 [0xe2; 0xa7; 0x83] 3;
  mkEntity (bytes "circ") 4 [0xcb; 0x86] 2;
  mkEntity (bytes "circeq") 6 [0xe2; 0x89; 0x97] 3;
  mkEntity (bytes "circlearrowleft") 15 [0xe2; 0x86; 0xba] 3;
  mkEntity (bytes "circlearrowright") 16 [0xe2; 0x86; 0xbb] 3;
  mkEntity (bytes "circledR") 8 [0xc2; 0xae] 2;
  mkEntity (bytes "circledS") 8 [0xe2; 0x93; 0x88] 3;
  mkEntity (bytes "circledast") 10 [0xe2; 0x8a; 0x9b] 3;
  mkEntity (bytes "circledcirc") 11 [0xe2; 0x8a; 0x9a] 3;
  mkEntity (bytes "circleddash") 11 [0xe2; 0x8a; 0x9d] 3;
  mkEntity (bytes "cire") 4 [0xe2; 0x89; 0x97] 3;
  mkEntity (bytes "cirfnint") 8 [0xe2; 0xa8; 0x90] 3;
  mkEntity (bytes "cirmid") 6 [0xe2; 0xab; 0xaf] 3;
  mkEntity (bytes "cirscir") 7 [0xe2; 0xa7; 0x82] 3;
  mkEntity (bytes "clubs") 5 [0xe2; 0x99; 0xa3] 3;
  mkEntity (bytes "clubsuit") 8 [0xe2; 0x99; 0xa3] 3;
  mkEntity (bytes "colon") 5 [0x3a] 1;
  mkEntity (bytes "colone") 6 [0xe2; 0x89; 0x94] 3;
  mkEntity (bytes "coloneq") 7 [0xe2; 0x89; 0x94] 3;
  mkEntity (bytes "comma") 5 [0x2c] 1;
  mkEntity (bytes "commat") 6 [0x40] 1;
  mkEntity (bytes "comp") 4 [0xe2; 0x88; 0x81] 3;
  mkEntity (bytes "compfn") 6 [0xe2; 0x88; 0x98] 3;
  mkEntity (bytes "complement") 10 [0xe2; 0x88; 0x81] 3;
  mkEntity (bytes "complexes") 9 [0xe2; 0x84; 0x82] 3;
  mkEntity (bytes "cong") 4 [0xe2; 0x89; 0x85] 3;
  mkEntity (bytes "congdot") 7 [0xe2; 0xa9; 0xad] 3;
  mkEntity (bytes "conint") 6 [0xe2; 0x88; 0xae] 3;
  mkEntity (bytes "copf") 4 [0xf0; 0x9d; 0x95; 0x94] 4;
  mkEntity (bytes "coprod") 6 [0xe2; 0x88; 0x90] 3;
  mkEntity (bytes "copy") 4 [0xc2; 0xa9] 2;
  mkEntity (bytes "copysr") 6 [0xe2; 0x84; 0x97] 3;
  mkEntity (bytes "crarr") 5 [0xe2; 0x86; 0xb5] 3;
  mkEntity (bytes "cross") 5 [0xe2; 0x9c; 0x97] 3;
  mkEntity (bytes "cscr") 4 [0xf0; 0x9d; 0x92; 0xb8] 4;
  mkEntity (bytes "csub") 4 [0xe2; 0xab; 0x8f] 3;
  mkEntity (bytes "csube") 5 [0xe2; 0xab; 0x91] 3;
  mkEntity (bytes "csup") 4 [0xe2; 0xab; 0x90] 3;
  mkEntity (bytes "csupe") 5 [0xe2; 0xab; 0x92] 3;
  mkEntity (bytes "ctdot") 5 [0xe2; 0x8b; 0xaf] 3;
  mkEntity (bytes "cudarrl") 7 [0xe2; 0xa4; 0xb8] 3;
  mkEntity (bytes "cudarrr") 7 [0xe2; 0xa4; 0xb5] 3;
  mkEntity (bytes "cuepr") 5 [0xe2; 0x8b; 0x9e] 3;
  mkEntity (bytes "cuesc") 5 [0xe2; 0x8b; 0x9f] 3;
  mkEntity (bytes "cularr") 6 [0xe2; 0x86; 0xb6] 3;
  mkEntity (bytes "cularrp") 7 [0xe2; 0xa4; 0xbd] 3;
  mkEntity (bytes "cup") 3 [0xe2; 0x88; 0xaa] 3;
  mkEntity (bytes "cupbrcap") 8 [0xe2; 0xa9; 0x88] 3;
  mkEntity (bytes "cupcap") 6 [0xe2; 0xa9; 0x86] 3;
  mkEntity (bytes "cupcup") 6 [0xe2; 0xa9; 0x8a] 3;
  mkEntity (bytes "cupdot") 6 [0xe2; 0x8a; 0x8d] 3;
  mkEntity (bytes "cupor") 5 [0xe2; 0xa9; 0x85] 3;
  mkEntity (bytes "cups") 4 [0xe2; 0x88; 0xaa; 0xef; 0xb8; 0x80] 6;
  mkEntity (bytes "curarr") 6 [0xe2; 0x86; 0xb7] 3;
  mkEntity (bytes "curarrm") 7 [0xe2; 0xa4; 0xbc] 3;
  mkEntity (bytes "curlyeqprec") 11 [0xe2; 0x8b; 0x9e] 3;
  mkEntity (bytes "curlyeqsucc") 11 [0xe2; 0x8b; 0x9f] 3;
  mkEntity (bytes "curlyvee") 8 [0xe2; 0x8b; 0x8e] 3;
  mkEntity (bytes "curlywedge") 10 [0xe2; 0x8b; 0x8f] 3;
  mkEntity (bytes "curren") 6 [0xc2; 0xa4] 2;
  mkEntity (bytes "curvearrowleft") 14 [0xe2; 0x86; 0xb6] 3;
  mkEntity (bytes "curvearrowright") 15 [0xe2; 0x86; 0xb7] 3;
  mkEntity (bytes "cuvee") 5 [0xe2; 0x8b; 0x8e] 3;
  mkEntity (bytes "cuwed") 5 [0xe2; 0x8b; 0x8f] 3;
  mkEntity (bytes "cwconint") 8 [0xe2; 0x88; 0xb2] 3;
  mkEntity (bytes "cwint") 5 [0xe2; 0x88; 0xb1] 3;
  mkEntity (bytes "cylcty") 6 [0xe2; 0x8c; 0xad] 3
].

Definition entities_d : list namedEntity_t := [
  mkEntity (bytes "dArr") 4 [0xe2; 0x87; 0x93] 3;
  mkEntity (bytes "dHar") 4 [0xe2; 0xa5; 0xa5] 3;
  mkEntity (bytes "dagger") 6 [0xe2; 0x80; 0xa0] 3;
  mkEntity (bytes "daleth") 6 [0xe2; 0x84; 0xb8] 3;
  mkEntity (bytes "darr") 4 [0xe2; 0x86; 0x93] 3;
  mkEntity (bytes "dash") 4 [0xe2; 0x80; 0x90] 3;
  mkEntity (bytes "dashv") 5 [0xe2; 0x8a; 0xa3] 3;
  mkEntity (bytes "dbkarow") 7 [0xe2; 0xa4; 0x8f] 3;
  mkEntity (bytes "dblac") 5 [0xcb; 0x9d] 2;
  mkEntity (bytes "dcaron") 6 [0xc4; 0x8f] 2;
  mkEntity (bytes "dcy") 3 [0xd0; 0xb4] 2;
  mkEntity (bytes "dd") 2 [0xe2; 0x85; 0x86] 3;
  mkEntity (bytes "ddagger") 7 [0xe2; 0x80; 0xa1] 3;
  mkEntity (bytes "ddarr") 5 [0xe2; 0x87; 0x8a] 3;
  mkEntity (bytes "ddotseq") 7 [0xe2; 0xa9; 0xb7] 3;
  mkEntity (bytes "deg") 3 [0xc2; 0xb0] 2;
  mkEntity (bytes "delta") 5 [0xce; 0xb4] 2;
  mkEntity (bytes "demptyv") 7 [0xe2; 0xa6; 0xb1] 3;
  mkEntity (bytes "dfisht") 6 [0xe2; 0xa5; 0xbf] 3;
  mkEntity (bytes "dfr") 3 [0xf0; 0x9d; 0x94; 0xa1] 4;
  mkEntity (bytes "dharl") 5 [0xe2; 0x87; 0x83] 3;
  mkEntity (bytes "dharr") 5 [0xe2; 0x87; 0x82] 3;
  mkEntity (bytes "diam") 4 [0xe2; 0x8b; 0x84] 3;
  mkEntity (bytes "diamond") 7 [0xe2; 0x8b; 0x84] 3;
  mkEntity (bytes "diamondsuit") 11 [0xe2; 0x99; 0xa6] 3;
  mkEntity (bytes "diams") 5 [0xe2; 0x99; 0xa6] 3;
  mkEntity (bytes "die") 3 [0xc2; 0xa8] 2;
  mkEntity (bytes "digamma") 7 [0xcf; 0x9d] 2;
  mkEntity (bytes "disin") 5 [0xe2; 0x8b; 0xb2] 3;
  mkEntity (bytes "div") 3 [0xc3; 0xb7] 2;
  mkEntity (bytes "divide") 6 [0xc3; 0xb7] 2;
  mkEntity (bytes "divideontimes") 13 [0xe2; 0x8b; 0x87] 3;
  mkEntity (bytes "divonx") 6 [0xe2; 0x8b; 0x87] 3;
  mkEntity (bytes "djcy") 4 [0xd1; 0x92] 2;
  mkEntity (bytes "dlcorn") 6 [0xe2; 0x8c; 0x9e] 3;
  mkEntity (bytes "dlcrop") 6 [0xe2; 0x8c; 0x8d] 3;
  mkEntity (bytes "dollar") 6 [0x24] 1;
  mkEntity (bytes "dopf") 4 [0xf0; 0x9d; 0x95; 0x95] 4;
  mkEntity (bytes "dot") 3 [0xcb; 0x99] 2;
  mkEntity (bytes "doteq") 5 [0xe2; 0x89; 0x90] 3;
  mkEntity (bytes "doteqdot") 8 [0xe2; 0x89; 0x91] 3;
  mkEntity (bytes "dotminus") 8 [0xe2; 0x88; 0xb8] 3;
  mkEntity (bytes "dotplus") 7 [0xe2; 0x88; 0x94] 3;
  mkEntity (bytes "dotsquare") 9 [0xe2; 0x8a; 0xa1] 3;
  mkEntity (bytes "doublebarwedge") 14 [0xe2; 0x8c; 0x86] 3;
  mkEntity (bytes "downarrow") 9 [0xe2; 0x86; 0x93] 3;
  mkEntity (bytes "downdownarrows") 14 [0xe2; 0x87; 0x8a] 3;
  mkEntity (bytes "downharpoonleft") 15 [0xe2; 0x87; 0x83] 3;
  mkEntity (bytes "downharpoonright") 16 [0xe2; 0x87; 0x82] 3;
  mkEntity (bytes "drbkarow") 8 [0xe2; 0xa4; 0x90] 3;
  mkEntity (bytes "drcorn") 6 [0xe2; 0x8c; 0x9f] 3;
  mkEntity (bytes "drcrop") 6 [0xe2; 0x8c; 0x8c] 3;
  mkEntity (bytes "dscr") 4 [0xf0; 0x9d; 0x92; 0xb9] 4;
  mkEntity (bytes "dscy") 4 [0xd1; 0x95] 2;
  mkEntity (bytes "dsol") 4 [0xe2; 0xa7; 0xb6] 3;
  mkEntity (bytes "dstrok") 6 [0xc4; 0x91] 2;
  mkEntity (bytes "dtdot") 5 [0xe2; 0x8b; 0xb1] 3;
  mkEntity (bytes "dtri") 4 [0xe2; 0x96; 0xbf] 3;
  mkEntity (bytes "dtrif") 5 [0xe2; 0x96; 0xbe] 3;
  mkEntity (bytes "duarr") 5 [0xe2; 0x87; 0xb5] 3;
  mkEntity (bytes "duhar") 5 [0xe2; 0xa5; 0xaf] 3;
  mkEntity (bytes "dwangle") 7 [0xe2; 0xa6; 0xa6] 3;
  mkEntity (bytes "dzcy") 4 [0xd1; 0x9f] 2;
  mkEntity (bytes "dzigrarr") 8 [0xe2; 0x9f; 0xbf] 3
].

Definition entities_e : list namedEntity_t := [
  mkEntity (bytes "eDDot") 5 [0xe2; 0xa9; 0xb7] 3;
  mkEntity (bytes "eDot") 4 [0xe2; 0x89; 0x91] 3;
  mkEntity (bytes "eacute") 6 [0xc3; 0xa9] 2;
  mkEntity (bytes "easter") 6 [0xe2; 0xa9; 0xae] 3;
  mkEntity (bytes "ecaron") 6 [0xc4; 0x9b] 2;
  mkEntity (bytes "ecir") 4 [0xe2; 0x89; 0x96] 3;
  mkEntity (bytes "ecirc") 5 [0xc3; 0xaa] 2;
  mkEntity (bytes "ecolon") 6 [0xe2; 0x89; 0x95] 3;
  mkEntity (bytes "ecy") 3 [0xd1; 0x8d] 2;
  mkEntity (bytes "edot") 4 [0xc4; 0x97] 2;
  mkEntity (bytes "ee") 2 [0xe2; 0x85; 0x87] 3;
  mkEntity (bytes "efDot") 5 [0xe2; 0x89; 0x92] 3;
  mkEntity (bytes "efr") 3 [0xf0; 0x9d; 0x94; 0xa2] 4;
  mkEntity (bytes "eg") 2 [0xe2; 0xaa; 0x9a] 3;
  mkEntity (bytes "egrave") 6 [0xc3; 0xa8] 2;
  mkEntity (bytes "egs") 3 [0xe2; 0xaa; 0x96] 3;
  mkEntity (bytes "egsdot") 6 [0xe2; 0xaa; 0x98] 3;
  mkEntity (bytes "el") 2 [0xe2; 0xaa; 0x99] 3;
  mkEntity (bytes "elinters") 8 [0xe2; 0x8f; 0xa7] 3;
  mkEntity (bytes "ell") 3 [0xe2; 0x84; 0x93] 3;
  mkEntity (bytes "els") 3 [0xe2; 0xaa; 0x95] 3;
  mkEntity (bytes "elsdot") 6 [0xe2; 0xaa; 0x97] 3;
  mkEntity (bytes "emacr") 5 [0xc4; 0x93] 2;
  mkEntity (bytes "empty") 5 [0xe2; 0x88; 0x85] 3;
  mkEntity (bytes "emptyset") 8 [0xe2; 0x88; 0x85] 3;
  mkEntity (bytes "emptyv") 6 [0xe2; 0x88; 0x85] 3;
  mkEntity (bytes "emsp") 4 [0xe2; 0x80; 0x83] 3;
  mkEntity (bytes "emsp13") 6 [0xe2; 0x80; 0x84] 3;
  mkEntity (bytes "emsp14") 6 [0xe2; 0x80; 0x85] 3;
  mkEntity (bytes "eng") 3 [0xc5; 0x8b] 2;
  mkEntity (bytes "ensp") 4 [0xe2; 0x80; 0x82] 3;
  mkEntity (bytes "eogon") 5 [0xc4; 0x99] 2;
  mkEntity (bytes "eopf") 4 [0xf0; 0x9d; 0x95; 0x96] 4;
  mkEntity (bytes "epar") 4 [0xe2; 0x8b; 0x95] 3;
  mkEntity (bytes "eparsl") 6 [0xe2; 0xa7; 0xa3] 3;
  mkEntity (bytes "eplus") 5 [0xe2; 0xa9; 0xb1] 3;
  mkEntity (bytes "epsi") 4 [0xce; 0xb5] 2;
  mkEntity (bytes "epsilon") 7 [0xce; 0xb5] 2;
  mkEntity (bytes "epsiv") 5 [0xcf; 0xb5] 2;
  mkEntity (bytes "eqcirc") 6 [0xe2; 0x89; 0x96] 3;
  mkEntity (bytes "eqcolon") 7 [0xe2; 0x89; 0x95] 3;
  mkEntity (bytes "eqsim") 5 [0xe2; 0x89; 0x82] 3;
  mkEntity (bytes "eqslantgtr") 10 [0xe2; 0xaa; 0x96] 3;
  mkEntity (bytes "eqslantless") 11 [0xe2; 0xaa; 0x95] 3;
  mkEntity (bytes "equals") 6 [0x3d] 1;
  mkEntity (bytes "equest") 6 [0xe2; 0x89; 0x9f] 3;
  mkEntity (bytes "equiv") 5 [0xe2; 0x89; 0xa1] 3;
  mkEntity (bytes "equivDD") 7 [0xe2; 0xa9; 0xb8] 3;
  mkEntity (bytes "eqvparsl") 8 [0xe2; 0xa7; 0xa5] 3;
  mkEntity (bytes "erDot") 5 [0xe2; 0x89; 0x93] 3;
  mkEntity (bytes "erarr") 5 [0xe2; 0xa5; 0xb1] 3;
  mkEntity (bytes "escr") 4 [0xe2; 0x84; 0xaf] 3;
  mkEntity (bytes "esdot") 5 [0xe2; 0x89; 0x90] 3;
  mkEntity (bytes "esim") 4 [0xe2; 0x89; 0x82] 3;
  mkEntity (bytes "eta") 3 [0xce; 0xb7] 2;
  mkEntity (bytes "eth") 3 [0xc3; 0xb0] 2;
  mkEntity (bytes "euml") 4 [0xc3; 0xab] 2;
  mkEntity (bytes "euro") 4 [0xe2; 0x82; 0xac] 3;
  mkEntity (bytes "excl") 4 [0x21] 1;
  mkEntity (bytes "exist") 5 [0xe2; 0x88; 0x83] 3;
  mkEntity (bytes "expectation") 11 [0xe2; 0x84; 0xb0] 3;
  mkEntity (bytes "exponentiale") 12 [0xe2; 0x85; 0x87] 3
].

Definition entities_f : list namedEntity_t := [
  mkEntity (bytes "fallingdotseq") 13 [0xe2; 0x89; 0x92] 3;
  mkEntity (bytes "fcy") 3 [0xd1; 0x84] 2;
  mkEntity (bytes "female") 6 [0xe2; 0x99; 0x80] 3;
  mkEntity (bytes "ffilig") 6 [0xef; 0xac; 0x83] 3;
  mkEntity (bytes "fflig") 5 [0xef; 0xac; 0x80] 3;
  mkEntity (bytes "ffllig") 6 [0xef; 0xac; 0x84] 3;
  mkEntity (bytes "ffr") 3 [0xf0; 0x9d; 0x94; 0xa3] 4;
  mkEntity (bytes "filig") 5 [0xef; 0xac; 0x81] 3;
  mkEntity (bytes "fjlig") 5 [0x66; 0x6a] 2;
  mkEntity (bytes "flat") 4 [0xe2; 0x99; 0xad] 3;
  mkEntity (bytes "fllig") 5 [0xef; 0xac; 0x82] 3;
  mkEntity (bytes "fltns") 5 [0xe2; 0x96; 0xb1] 3;
  mkEntity (bytes "fnof") 4 [0xc6; 0x92] 2;
  mkEntity (bytes "fopf") 4 [0xf0; 0x9d; 0x95; 0x97] 4;
  mkEntity (bytes "forall") 6 [0xe2; 0x88; 0x80] 3;
  mkEntity (bytes "fork") 4 [0xe2; 0x8b; 0x94] 3;
  mkEntity (bytes "forkv") 5 [0xe2; 0xab; 0x99] 3;
  mkEntity (bytes "fpartint") 8 [0xe2; 0xa8; 0x8d] 3;
  mkEntity (bytes "frac12") 6 [0xc2; 0xbd] 2;
  mkEntity (bytes "frac13") 6 [0xe2; 0x85; 0x93] 3;
  mkEntity (bytes "frac14") 6 [0xc2; 0xbc] 2;
  mkEntity (bytes "frac15") 6 [0xe2; 0x85; 0x95] 3;
  mkEntity (bytes "frac16") 6 [0xe2; 0x85; 0x99] 3;
  mkEntity (bytes "frac18") 6 [0xe2; 0x85; 0x9b] 3;
  mkEntity (bytes "frac23") 6 [0xe2; 0x85; 0x94] 3;
  mkEntity (bytes "frac25") 6 [0xe2; 0x85; 0x96] 3;
  mkEntity (bytes "frac34") 6 [0xc2; 0xbe] 2;
  mkEntity (bytes "frac35") 6 [0xe2; 0x85; 0x97] 3;
  mkEntity (bytes "frac38") 6 [0xe2; 0x85; 0x9c] 3;
  mkEntity (bytes "frac45") 6 [0xe2; 0x85; 0x98] 3;
  mkEntity (bytes "frac56") 6 [0xe2; 0x85; 0x9a] 3;
  mkEntity (bytes "frac58") 6 [0xe2; 0x85; 0x9d] 3;
  mkEntity (bytes "frac78") 6 [0xe2; 0x85; 0x9e] 3;
  mkEntity (bytes "frasl") 5 [0xe2; 0x81; 0x84] 3;
  mkEntity (bytes "frown") 5 [0xe2; 0x8c; 0xa2] 3;
  mkEntity (bytes "fscr") 4 [0xf0; 0x9d; 0x92; 0xbb] 4
].

Definition entities_g : list namedEntity_t := [
  mkEntity (bytes "gE") 2 [0xe2; 0x89; 0xa7] 3;
  mkEntity (bytes "gEl") 3 [0xe2; 0xaa; 0x8c] 3;
  mkEntity (bytes "gacute") 6 [0xc7; 0xb5] 2;
  mkEntity (bytes "gamma") 5 [0xce; 0xb3] 2;
  mkEntity (bytes "gammad") 6 [0xcf; 0x9d] 2;
  mkEntity (bytes "gap") 3 [0xe2; 0xaa; 0x86] 3;
  mkEntity (bytes "gbreve") 6 [0xc4; 0x9f] 2;
  mkEntity (bytes "gcirc") 5 [0xc4; 0x9d] 2;
  mkEntity (bytes "gcy") 3 [0xd0; 0xb3] 2;
  mkEntity (bytes "gdot") 4 [0xc4; 0xa1] 2;
  mkEntity (bytes "ge") 2 [0xe2; 0x89; 0xa5] 3;
  mkEntity (bytes "gel") 3 [0xe2; 0x8b; 0x9b] 3;
  mkEntity (bytes "geq") 3 [0xe2; 0x89; 0xa5] 3;
  mkEntity (bytes "geqq") 4 [0xe2; 0x89; 0xa7] 3;
  mkEntity (bytes "geqslant") 8 [0xe2; 0xa9; 0xbe] 3;
  mkEntity (bytes "ges") 3 [0xe2; 0xa9; 0xbe] 3;
  mkEntity (bytes "gescc") 5 [0xe2; 0xaa; 0xa9] 3;
  mkEntity (bytes "gesdot") 6 [0xe2; 0xaa; 0x80] 3;
  mkEntity (bytes "gesdoto") 7 [0xe2; 0xaa; 0x82] 3;
  mkEntity (bytes "gesdotol") 8 [0xe2; 0xaa; 0x84] 3;
  mkEntity (bytes "gesl") 4 [0xe2; 0x8b; 0x9b; 0xef; 0xb8; 0x80] 6;
  mkEntity (bytes "gesles") 6 [0xe2; 0xaa; 0x94] 3;
  mkEntity (bytes "gfr") 3 [0xf0; 0x9d; 0x94; 0xa4] 4;
  mkEntity (bytes "gg") 2 [0xe2; 0x89; 0xab] 3;
  mkEntity (bytes "ggg") 3 [0xe2; 0x8b; 0x99] 3;
  mkEntity (bytes "gimel") 5 [0xe2; 0x84; 0xb7] 3;
  mkEntity (bytes "gjcy") 4 [0xd1; 0x93] 2;
  mkEntity (bytes "gl") 2 [0xe2; 0x89; 0xb7] 3;
  mkEntity (bytes "glE") 3 [0xe2; 0xaa; 0x92] 3;
  mkEntity (bytes "gla") 3 [0xe2; 0xaa; 0xa5] 3;
  mkEntity (bytes "glj") 3 [0xe2; 0xaa; 0xa4] 3;
  mkEntity (bytes "gnE") 3 [0xe2; 0x89; 0xa9] 3;
  mkEntity (bytes "gnap") 4 [0xe2; 0xaa; 0x8a] 3;
  mkEntity (bytes "gnapprox") 8 [0xe2; 0xaa; 0x8a] 3;
  mkEntity (bytes "gne") 3 [0xe2; 0xaa; 0x88] 3;
  mkEntity (bytes "gneq") 4 [0xe2; 0xaa; 0x88] 3;
  mkEntity (bytes "gneqq") 5 [0xe2; 0x89; 0xa9] 3;
  mkEntity (bytes "gnsim") 5 [0xe2; 0x8b; 0xa7] 3;
  mkEntity (bytes "gopf") 4 [0xf0; 0x9d; 0x95; 0x98] 4;
  mkEntity (bytes "grave") 5 [0x60] 1;
  mkEntity (bytes "gscr") 4 [0xe2; 0x84; 0x8a] 3;
  mkEntity (bytes "gsim") 4 [0xe2; 0x89; 0xb3] 3;
  mkEntity (bytes "gsime") 5 [0xe2; 0xaa; 0x8e] 3;
  mkEntity (bytes "gsiml") 5 [0xe2; 0xaa; 0x90] 3;
  mkEntity (bytes "gt") 2 [0x3e] 1;
  mkEntity (bytes "gtcc") 4 [0xe2; 0xaa; 0xa7] 3;
  mkEntity (bytes "gtcir") 5 [0xe2; 0xa9; 0xba] 3;
  mkEntity (bytes "gtdot") 5 [0xe2; 0x8b; 0x97] 3;
  mkEntity (bytes "gtlPar") 6 [0xe2; 0xa6; 0x95] 3;
  mkEntity (bytes "gtquest") 7 [0xe2; 0xa9; 0xbc] 3;
  mkEntity (bytes "gtrapprox") 9 [0xe2; 0xaa; 0x86] 3;
  mkEntity (bytes "gtrarr") 6 [0xe2; 0xa5; 0xb8] 3;
  mkEntity (bytes "gtrdot") 6 [0xe2; 0x8b; 0x97] 3;
  mkEntity (bytes "gtreqless") 9 [0xe2; 0x8b; 0x9b] 3;
  mkEntity (bytes "gtreqqless") 10 [0xe2; 0xaa; 0x8c] 3;
  mkEntity (bytes "gtrless") 7 [0xe2; 0x89; 0xb7] 3;
  mkEntity (bytes "gtrsim") 6 [0xe2; 0x89; 0xb3] 3;
  mkEntity (bytes "gvertneqq") 9 [0xe2; 0x89; 0xa9; 0xef; 0xb8; 0x80] 6;
  mkEntity (bytes "gvnE") 4 [0xe2; 0x89; 0xa9; 0xef; 0xb8; 0x80] 6
].

Definition entities_h : list namedEntity_t := [
  mkEntity (bytes "hArr") 4 [0xe2; 0x87; 0x94] 3;
  mkEntity (bytes "hairsp") 6 [0xe2; 0x80; 0x8a] 3;
  mkEntity (bytes "half") 4 [0xc2; 0xbd] 2;
  mkEntity (bytes "hamilt") 6 [0xe2; 0x84; 0x8b] 3;
  mkEntity (bytes "hardcy") 6 [0xd1; 0x8a] 2;
  mkEntity (bytes "harr") 4 [0xe2; 0x86; 0x94] 3;
  mkEntity (bytes "harrcir") 7 [0xe2; 0xa5; 0x88] 3;
  mkEntity (bytes "harrw") 5 [0xe2; 0x86; 0xad] 3;
  mkEntity (bytes "hbar") 4 [0xe2; 0x84; 0x8f] 3;
  mkEntity (bytes "hcirc") 5 [0xc4; 0xa5] 2;
  mkEntity (bytes "hearts") 6 [0xe2; 0x99; 0xa5] 3;
  mkEntity (bytes "heartsuit") 9 [0xe2; 0x99; 0xa5] 3;
  mkEntity (bytes "hellip") 6 [0xe2; 0x80; 0xa6] 3;
  mkEntity (bytes "hercon") 6 [0xe2; 0x8a; 0xb9] 3;
  mkEntity (bytes "hfr") 3 [0xf0; 0x9d; 0x94; 0xa5] 4;
  mkEntity (bytes "hksearow") 8 [0xe2; 0xa4; 0xa5] 3;
  mkEntity (bytes "hkswarow") 8 [0xe2; 0xa4; 0xa6] 3;
  mkEntity (bytes "hoarr") 5 [0xe2; 0x87; 0xbf] 3;
  mkEntity (bytes "homtht") 6 [0xe2; 0x88; 0xbb] 3;
  mkEntity (bytes "hookleftarrow") 13 [0xe2; 0x86; 0xa9] 3;
  mkEntity (bytes "hookrightarrow") 14 [0xe2; 0x86; 0xaa] 3;
  mkEntity (bytes "hopf") 4 [0xf0; 0x9d; 0x95; 0x99] 4;
  mkEntity (bytes "horbar") 6 [0xe2; 0x80; 0x95] 3;
  mkEntity (bytes "hscr") 4 [0xf0; 0x9d; 0x92; 0xbd] 4;
  mkEntity (bytes "hslash") 6 [0xe2; 0x84; 0x8f] 3;
  mkEntity (bytes "hstrok") 6 [0xc4; 0xa7] 2;
  mkEntity (bytes "hybull") 6 [0xe2; 0x81; 0x83] 3;
  mkEntity (bytes "hyphen") 6 [0xe2; 0x80; 0x90] 3
].

Definition entities_i : list namedEntity_t := [
  mkEntity (bytes "iacute") 6 [0xc3; 0xad] 2;
  mkEntity (bytes "ic") 2 [0xe2; 0x81; 0xa3] 3;
  mkEntity (bytes "icirc") 5 [0xc3; 0xae] 2;
  mkEntity (bytes "icy") 3 [0xd0; 0xb8] 2;
  mkEntity (bytes "iecy") 4 [0xd0; 0xb5] 2;
  mkEntity (bytes "iexcl") 5 [0xc2; 0xa1] 2;
  mkEntity (bytes "iff") 3 [0xe2; 0x87; 0x94] 3;
  mkEntity (bytes "ifr") 3 [0xf0; 0x9d; 0x94; 0xa6] 4;
  mkEntity (bytes "igrave") 6 [0xc3; 0xac] 2;
  mkEntity (bytes "ii") 2 [0xe2; 0x85; 0x88] 3;
  mkEntity (bytes "iiiint") 6 [0xe2; 0xa8; 0x8c] 3;
  mkEntity (bytes "iiint") 5 [0xe2; 0x88; 0xad] 3;
  mkEntity (bytes "iinfin") 6 [0xe2; 0xa7; 0x9c] 3;
  mkEntity (bytes "iiota") 5 [0xe2; 0x84; 0xa9] 3;
  mkEntity (bytes "ijlig") 5 [0xc4; 0xb3] 2;
  mkEntity (bytes "imacr") 5 [0xc4; 0xab] 2;
  mkEntity (bytes "image") 5 [0xe2; 0x84; 0x91] 3;
  mkEntity (bytes "imagline") 8 [0xe2; 0x84; 0x90] 3;
  mkEntity (bytes "imagpart") 8 [0xe2; 0x84; 0x91] 3;
  mkEntity (bytes "imath") 5 [0xc4; 0xb1] 2;
  mkEntity (bytes "imof") 4 [0xe2; 0x8a; 0xb7] 3;
  mkEntity (bytes "imped") 5 [0xc6; 0xb5] 2;
  mkEntity (bytes "in") 2 [0xe2; 0x88; 0x88] 3;
  mkEntity (bytes "incare") 6 [0xe2; 0x84; 0x85] 3;
  mkEntity (bytes "infin") 5 [0xe2; 0x88; 0x9e] 3;
  mkEntity (bytes "infintie") 8 [0xe2; 0xa7; 0x9d] 3;
  mkEntity (bytes "inodot") 6 [0xc4; 0xb1] 2;
  mkEntity (bytes "int") 3 [0xe2; 0x88; 0xab] 3;
  mkEntity (bytes "intcal") 6 [0xe2; 0x8a; 0xba] 3;
  mkEntity (bytes "integers") 8 [0xe2; 0x84; 0xa4] 3;
  mkEntity (bytes "intercal") 8 [0xe2; 0x8a; 0xba] 3;
  mkEntity (bytes "intlarhk") 8 [0xe2; 0xa8; 0x97] 3;
  mkEntity (bytes "intprod") 7 [0xe2; 0xa8; 0xbc] 3;
  mkEntity (bytes "iocy") 4 [0xd1; 0x91] 2;
  mkEntity (bytes "iogon") 5 [0xc4; 0xaf] 2;
  mkEntity (bytes "iopf") 4 [0xf0; 0x9d; 0x95; 0x9a] 4;
  mkEntity (bytes "iota") 4 [0xce; 0xb9] 2;
  mkEntity (bytes "iprod") 5 [0xe2; 0xa8; 0xbc] 3;
  mkEntity (bytes "iquest") 6 [0xc2; 0xbf] 2;
  mkEntity (bytes "iscr") 4 [0xf0; 0x9d; 0x92; 0xbe] 4;
  mkEntity (bytes "isin") 4 [0xe2; 0x88; 0x88] 3;
  mkEntity (bytes "isinE") 5 [0xe2; 0x8b; 0xb9] 3;
  mkEntity (bytes "isindot") 7 [0xe2; 0x8b; 0xb5] 3;
  mkEntity (bytes "isins") 5 [0xe2; 0x8b; 0xb4] 3;
  mkEntity (bytes "isinsv") 6 [0xe2; 0x8b; 0xb3] 3;
  mkEntity (bytes "isinv") 5 [0xe2; 0x88; 0x88] 3;
  mkEntity (bytes "it") 2 [0xe2; 0x81; 0xa2] 3;
  mkEntity (bytes "itilde") 6 [0xc4; 0xa9] 2;
  mkEntity (bytes "iukcy") 5 [0xd1; 0x96] 2;
  mkEntity (bytes "iuml") 4 [0xc3; 0xaf] 2
].

Definition entities_j : list namedEntity_t := [
  mkEntity (bytes "jcirc") 5 [0xc4; 0xb5] 2;
  mkEntity (bytes "jcy") 3 [0xd0; 0xb9] 2;
  mkEntity (bytes "jfr") 3 [0xf0; 0x9d; 0x94; 0xa7] 4;
  mkEntity (bytes "jmath") 5 [0xc8; 0xb7] 2;
  mkEntity (bytes "jopf") 4 [0xf0; 0x9d; 0x95; 0x9b] 4;
  mkEntity (bytes "jscr") 4 [0xf0; 0x9d; 0x92; 0xbf] 4;
  mkEntity (bytes "jsercy") 6 [0xd1; 0x98] 2;
  mkEntity (bytes "jukcy") 5 [0xd1; 0x94] 2
].

Definition entities_k : list namedEntity_t := [
  mkEntity (bytes "kappa") 5 [0xce; 0xba] 2;
  mkEntity (bytes "kappav") 6 [0xcf; 0xb0] 2;
  mkEntity (bytes "kcedil") 6 [0xc4; 0xb7] 2;
  mkEntity (bytes "kcy") 3 [0xd0; 0xba] 2;
  mkEntity (bytes "kfr") 3 [0xf0; 0x9d; 0x94; 0xa8] 4;
  mkEntity (bytes "kgreen") 6 [0xc4; 0xb8] 2;
  mkEntity (bytes "khcy") 4 [0xd1; 0x85] 2;
  mkEntity (bytes "kjcy") 4 [0xd1; 0x9c] 2;
  mkEntity (bytes "kopf") 4 [0xf0; 0x9d; 0x95; 0x9c] 4;
  mkEntity (bytes "kscr") 4 [0xf0; 0x9d; 0x93; 0x80] 4
].

Definition entities_l : list namedEntity_t := [
  mkEntity (bytes "lAarr") 5 [0xe2; 0x87; 0x9a] 3;
  mkEntity (bytes "lArr") 4 [0xe2; 0x87; 0x90] 3;
  mkEntity (bytes "lAtail") 6 [0xe2; 0xa4; 0x9b] 3;
  mkEntity (bytes "lBarr") 5 [0xe2; 0xa4; 0x8e] 3;
  mkEntity (bytes "lE") 2 [0xe2; 0x89; 0xa6] 3;
  mkEntity (bytes "lEg") 3 [0xe2; 0xaa; 0x8b] 3;
  mkEntity (bytes "lHar") 4 [0xe2; 0xa5; 0xa2] 3;
  mkEntity (bytes "lacute") 6 [0xc4; 0xba] 2;
  mkEntity (bytes "laemptyv") 8 [0xe2; 0xa6; 0xb4] 3;
  mkEntity (bytes "lagran") 6 [0xe2; 0x84; 0x92] 3;
  mkEntity (bytes "lambda") 6 [0xce; 0xbb] 2;
  mkEntity (bytes "lang") 4 [0xe2; 0x9f; 0xa8] 3;
  mkEntity (bytes "langd") 5 [0xe2; 0xa6; 0x91] 3;
  mkEntity (bytes "langle") 6 [0xe2; 0x9f; 0xa8] 3;
  mkEntity (bytes "lap") 3 [0xe2; 0xaa; 0x85] 3;
  mkEntity (bytes "laquo") 5 [0xc2; 0xab] 2;
  mkEntity (bytes "larr") 4 [0xe2; 0x86; 0x90] 3;
  mkEntity (bytes "larrb") 5 [0xe2; 0x87; 0xa4] 3;
  mkEntity (bytes "larrbfs") 7 [0xe2; 0xa4; 0x9f] 3;
  mkEntity (bytes "larrfs") 6 [0xe2; 0xa4; 0x9d] 3;
  mkEntity (bytes "larrhk") 6 [0xe2; 0x86; 0xa9] 3;
  mkEntity (bytes "larrlp") 6 [0xe2; 0x86; 0xab] 3;
  mkEntity (bytes "larrpl") 6 [0xe2; 0xa4; 0xb9] 3;
  mkEntity (bytes "larrsim") 7 [0xe2; 0xa5; 0xb3] 3;
  mkEntity (bytes "larrtl") 6 [0xe2; 0x86; 0xa2] 3;
  mkEntity (bytes "lat") 3 [0xe2; 0xaa; 0xab] 3;
  mkEntity (bytes "latail") 6 [0xe2; 0xa4; 0x99] 3;
  mkEntity (bytes "late") 4 [0xe2; 0xaa; 0xad] 3;
  mkEntity (bytes "lates") 5 [0xe2; 0xaa; 0xad; 0xef; 0xb8; 0x80] 6;
  mkEntity (bytes "lbarr") 5 [0xe2; 0xa4; 0x8c] 3;
  mkEntity (bytes "lbbrk") 5 [0xe2; 0x9d; 0xb2] 3;
  mkEntity (bytes "lbrace") 6 [0x7b] 1;
  mkEntity (bytes "lbrack") 6 [0x5b] 1;
  mkEntity (bytes "lbrke") 5 [0xe2; 0xa6; 0x8b] 3;
  mkEntity (bytes "lbrksld") 7 [0xe2; 0xa6; 0x8f] 3;
  mkEntity (bytes "lbrkslu") 7 [0xe2; 0xa6; 0x8d] 3;
  mkEntity (bytes "lcaron") 6 [0xc4; 0xbe] 2;
  mkEntity (bytes "lcedil") 6 [0xc4; 0xbc] 2;
  mkEntity (bytes "lceil") 5 [0xe2; 0x8c; 0x88] 3;
  mkEntity (bytes "lcub") 4 [0x7b] 1;
  mkEntity (bytes "lcy") 3 [0xd0; 0xbb] 2;
  mkEntity (bytes "ldca") 4 [0xe2; 0xa4; 0xb6] 3;
  mkEntity (bytes "ldquo") 5 [0xe2; 0x80; 0x9c] 3;
  mkEntity (bytes "ldquor") 6 [0xe2; 0x80; 0x9e] 3;
  mkEntity (bytes "ldrdhar") 7 [0xe2; 0xa5; 0xa7] 3;
  mkEntity (bytes "ldrushar") 8 [0xe2; 0xa5; 0x8b] 3;
  mkEntity (bytes "ldsh") 4 [0xe2; 0x86; 0xb2] 3;
  mkEntity (bytes "le") 2 [0xe2; 0x89; 0xa4] 3;
  mkEntity (bytes "leftarrow") 9 [0xe2; 0x86; 0x90] 3;
  mkEntity (bytes "leftarrowtail") 13 [0xe2; 0x86; 0xa2] 3;
  mkEntity (bytes "leftharpoondown") 15 [0xe2; 0x86; 0xbd] 3;
  mkEntity (bytes "leftharpoonup") 13 [0xe2; 0x86; 0xbc] 3;
  mkEntity (bytes "leftleftarrows") 14 [0xe2; 0x87; 0x87] 3;
  mkEntity (bytes "leftrightarrow") 14 [0xe2; 0x86; 0x94] 3;
  mkEntity (bytes "leftrightarrows") 15 [0xe2; 0x87; 0x86] 3;
  mkEntity (bytes "leftrightharpoons") 17 [0xe2; 0x87; 0x8b] 3;
  mkEntity (bytes "leftrightsquigarrow") 19 [0xe2; 0x86; 0xad] 3;
  mkEntity (bytes "leftthreetimes") 14 [0xe2; 0x8b; 0x8b] 3;
  mkEntity (bytes "leg") 3 [0xe2; 0x8b; 0x9a] 3;
  mkEntity (bytes "leq") 3 [0xe2; 0x89; 0xa4] 3;
  mkEntity (bytes "leqq") 4 [0xe2; 0x89; 0xa6] 3;
  mkEntity (bytes "leqslant") 8 [0xe2; 0xa9; 0xbd] 3;
  mkEntity (bytes "les") 3 [0xe2; 0xa9; 0xbd] 3;
  mkEntity (bytes "lescc") 5 [0xe2; 0xaa; 0xa8] 3;
  mkEntity (bytes "lesdot") 6 [0xe2; 0xa9; 0xbf] 3;
  mkEntity (bytes "lesdoto") 7 [0xe2; 0xaa; 0x81] 3;
  mkEntity (bytes "lesdotor") 8 [0xe2; 0xaa; 0x83] 3;
  mkEntity (bytes "lesg") 4 [0xe2; 0x8b; 0x9a; 0xef; 0xb8; 0x80] 6;
  mkEntity (bytes "lesges") 6 [0xe2; 0xaa; 0x93] 3;
  mkEntity (bytes "lessapprox") 10 [0xe2; 0xaa; 0x85] 3;
  mkEntity (bytes "lessdot") 7 [0xe2; 0x8b; 0x96] 3;
  mkEntity (bytes "lesseqgtr") 9 [0xe2; 0x8b; 0x9a] 3;
  mkEntity (bytes "lesseqqgtr") 10 [0xe2; 0xaa; 0x8b] 3;
  mkEntity (bytes "lessgtr") 7 [0xe2; 0x89; 0xb6] 3;
  mkEntity (bytes "lesssim") 7 [0xe2; 0x89; 0xb2] 3;
  mkEntity (bytes "lfisht") 6 [0xe2; 0xa5; 0xbc] 3;
  mkEntity (bytes "lfloor") 6 [0xe2; 0x8c; 0x8a] 3;
  mkEntity (bytes "lfr") 3 [0xf0; 0x9d; 0x94; 0xa9] 4;
  mkEntity (bytes "lg") 2 [0xe2; 0x89; 0xb6] 3;
  mkEntity (bytes "lgE") 3 [0xe2; 0xaa; 0x91] 3;
  mkEntity (bytes "lhard") 5 [0xe2; 0x86; 0xbd] 3;
  mkEntity (bytes "lharu") 5 [0xe2; 0x86; 0xbc] 3;
  mkEntity (bytes "lharul") 6 [0xe2; 0xa5; 0xaa] 3;
  mkEntity (bytes "lhblk") 5 [0xe2; 0x96; 0x84] 3;
  mkEntity (bytes "ljcy") 4 [0xd1; 0x99] 2;
  mkEntity (bytes "ll") 2 [0xe2; 0x89; 0xaa] 3;
  mkEntity (bytes "llarr") 5 [0xe2; 0x87; 0x87] 3;
  mkEntity (bytes "llcorner") 8 [0xe2; 0x8c; 0x9e] 3;
  mkEntity (bytes "llhard") 6 [0xe2; 0xa5; 0xab] 3;
  mkEntity (bytes "lltri") 5 [0xe2; 0x97; 0xba] 3;
  mkEntity (bytes "lmidot") 6 [0xc5; 0x80] 2;
  mkEntity (bytes "lmoust") 6 [0xe2; 0x8e; 0xb0] 3;
  mkEntity (bytes "lmoustache") 10 [0xe2; 0x8e; 0xb0] 3;
  mkEntity (bytes "lnE") 3 [0xe2; 0x89; 0xa8] 3;
  mkEntity (bytes "lnap") 4 [0xe2; 0xaa; 0x89] 3;
  mkEntity (bytes "lnapprox") 8 [0xe2; 0xaa; 0x89] 3;
  mkEntity (bytes "lne") 3 [0xe2; 0xaa; 0x87] 3;
  mkEntity (bytes "lneq") 4 [0xe2; 0xaa; 0x87] 3;
  mkEntity (bytes "lneqq") 5 [0xe2; 0x89; 0xa8] 3;
  mkEntity (bytes "lnsim") 5 [0xe2; 0x8b; 0xa6] 3;
  mkEntity (bytes "loang") 5 [0xe2; 0x9f; 0xac] 3;
  mkEntity (bytes "loarr") 5 [0xe2; 0x87; 0xbd] 3;
  mkEntity (bytes "lobrk") 5 [0xe2; 0x9f; 0xa6] 3;
  mkEntity (bytes "longleftarrow") 13 [0xe2; 0x9f; 0xb5] 3;
  mkEntity (bytes "longleftrightarrow") 18 [0xe2; 0x9f; 0xb7] 3;
  mkEntity (bytes "longmapsto") 10 [0xe2; 0x9f; 0xbc] 3;
  mkEntity (bytes "longrightarrow") 14 [0xe2; 0x9f; 0xb6] 3;
  mkEntity (bytes "looparrowleft") 13 [0xe2; 0x86; 0xab] 3;
  mkEntity (bytes "looparrowright") 14 [0xe2; 0x86; 0xac] 3;
  mkEntity (bytes "lopar") 5 [0xe2; 0xa6; 0x85] 3;
  mkEntity (bytes "lopf") 4 [0xf0; 0x9d; 0x95; 0x9d] 4;
  mkEntity (bytes "loplus") 6 [0xe2; 0xa8; 0xad] 3;
  mkEntity (bytes "lotimes") 7 [0xe2; 0xa8; 0xb4] 3;
  mkEntity (bytes "lowast") 6 [0xe2; 0x88; 0x97] 3;
  mkEntity (bytes "lowbar") 6 [0x5f] 1;
  mkEntity (bytes "loz") 3 [0xe2; 0x97; 0x8a] 3;
  mkEntity (bytes "lozenge") 7 [0xe2; 0x97; 0x8a] 3;
  mkEntity (bytes "lozf") 4 [0xe2; 0xa7; 0xab] 3;
  mkEntity (bytes "lpar") 4 [0x28] 1;
  mkEntity (bytes "lparlt") 6 [0xe2; 0xa6; 0x93] 3;
  mkEntity (bytes "lrarr") 5 [0xe2; 0x87; 0x86] 3;
  mkEntity (bytes "lrcorner") 8 [0xe2; 0x8c; 0x9f] 3;
  mkEntity (bytes "lrhar") 5 [0xe2; 0x87; 0x8b] 3;
  mkEntity (bytes "lrhard") 6 [0xe2; 0xa5; 0xad] 3;
  mkEntity (bytes "lrm") 3 [0xe2; 0x80; 0x8e] 3;
  mkEntity (bytes "lrtri") 5 [0xe2; 0x8a; 0xbf] 3;
  mkEntity (bytes "lsaquo") 6 [0xe2; 0x80; 0xb9] 3;
  mkEntity (bytes "lscr") 4 [0xf0; 0x9d; 0x93; 0x81] 4;
  mkEntity (bytes "lsh") 3 [0xe2; 0x86; 0xb0] 3;
  mkEntity (bytes "lsim") 4 [0xe2; 0x89; 0xb2] 3;
  mkEntity (bytes "lsime") 5 [0xe2; 0xaa; 0x8d] 3;
  mkEntity (bytes "lsimg") 5 [0xe2; 0xaa; 0x8f] 3;
  mkEntity (bytes "lsqb") 4 [0x5b] 1;
  mkEntity (bytes "lsquo") 5 [0xe2; 0x80; 0x98] 3;
  mkEntity (bytes "lsquor") 6 [0xe2; 0x80; 0x9a] 3;
  mkEntity (bytes "lstrok") 6 [0xc5; 0x82] 2;
  mkEntity (bytes "lt") 2 [0x3c] 1;
  mkEntity (bytes "ltcc") 4 [0xe2; 0xaa; 0xa6] 3;
  mkEntity (bytes "ltcir") 5 [0xe2; 0xa9; 0xb9] 3;
  mkEntity (bytes "ltdot") 5 [0xe2; 0x8b; 0x96] 3;
  mkEntity (bytes "lthree") 6 [0xe2; 0x8b; 0x8b] 3;
  mkEntity (bytes "ltimes") 6 [0xe2; 0x8b; 0x89] 3;
  mkEntity (bytes "ltlarr") 6 [0xe2; 0xa5; 0xb6] 3;
  mkEntity (bytes "ltquest") 7 [0xe2; 0xa9; 0xbb] 3;
  mkEntity (bytes "ltrPar") 6 [0xe2; 0xa6; 0x96] 3;
  mkEntity (bytes "ltri") 4 [0xe2; 0x97; 0x83] 3;
  mkEntity (bytes "ltrie") 5 [0xe2; 0x8a; 0xb4] 3;
  mkEntity (bytes "ltrif") 5 [0xe2; 0x97; 0x82] 3;
  mkEntity (bytes "lurdshar") 8 [0xe2; 0xa5; 0x8a] 3;
  mkEntity (bytes "luruhar") 7 [0xe2; 0xa5; 0xa6] 3;
  mkEntity (bytes "lvertneqq") 9 [0xe2; 0x89; 0xa8; 0xef; 0xb8; 0x80] 6;
  mkEntity (bytes "lvnE") 4 [0xe2; 0x89; 0xa8; 0xef; 0xb8; 0x80] 6
].

Definition entities_m : list namedEntity_t := [
  mkEntity (bytes "mDDot") 5 [0xe2; 0x88; 0xba] 3;
  mkEntity (bytes "macr") 4 [0xc2; 0xaf] 2;
  mkEntity (bytes "male") 4 [0xe2; 0x99; 0x82] 3;
  mkEntity (bytes "malt") 4 [0xe2; 0x9c; 0xa0] 3;
  mkEntity (bytes "maltese") 7 [0xe2; 0x9c; 0xa0] 3;
  mkEntity (bytes "map") 3 [0xe2; 0x86; 0xa6] 3;
  mkEntity (bytes "mapsto") 6 [0xe2; 0x86; 0xa6] 3;
  mkEntity (bytes "mapstodown") 10 [0xe2; 0x86; 0xa7] 3;
  mkEntity (bytes "mapstoleft") 10 [0xe2; 0x86; 0xa4] 3;
  mkEntity (bytes "mapstoup") 8 [0xe2; 0x86; 0xa5] 3;
  mkEntity (bytes "marker") 6 [0xe2; 0x96; 0xae] 3;
  mkEntity (bytes "mcomma") 6 [0xe2; 0xa8; 0xa9] 3;
  mkEntity (bytes "mcy") 3 [0xd0; 0xbc] 2;
  mkEntity (bytes "mdash") 5 [0xe2; 0x80; 0x94] 3;
  mkEntity (bytes "measuredangle") 13 [0xe2; 0x88; 0xa1] 3;
  mkEntity (bytes "mfr") 3 [0xf0; 0x9d; 0x94; 0xaa] 4;
  mkEntity (bytes "mho") 3 [0xe2; 0x84; 0xa7] 3;
  mkEntity (bytes "micro") 5 [0xc2; 0xb5] 2;
  mkEntity (bytes "mid") 3 [0xe2; 0x88; 0xa3] 3;
  mkEntity (bytes "midast") 6 [0x2a] 1;
  mkEntity (bytes "midcir") 6 [0xe2; 0xab; 0xb0] 3;
  mkEntity (bytes "middot") 6 [0xc2; 0xb7] 2;
  mkEntity (bytes "minus") 5 [0xe2; 0x88; 0x92] 3;
  mkEntity (bytes "minusb") 6 [0xe2; 0x8a; 0x9f] 3;
  mkEntity (bytes "minusd") 6 [0xe2; 0x88; 0xb8] 3;
  mkEntity (bytes "minusdu") 7 [0xe2; 0xa8; 0xaa] 3;
  mkEntity (bytes "mlcp") 4 [0xe2; 0xab; 0x9b] 3;
  mkEntity (bytes "mldr") 4 [0xe2; 0x80; 0xa6] 3;
  mkEntity (bytes "mnplus") 6 [0xe2; 0x88; 0x93] 3;
  mkEntity (bytes "models") 6 [0xe2; 0x8a; 0xa7] 3;
  mkEntity (bytes "mopf") 4 [0xf0; 0x9d; 0x95; 0x9e] 4;
  mkEntity (bytes "mp") 2 [0xe2; 0x88; 0x93] 3;
  mkEntity (bytes "mscr") 4 [0xf0; 0x9d; 0x93; 0x82] 4;
  mkEntity (bytes "mstpos") 6 [0xe2; 0x88; 0xbe] 3;
  mkEntity (bytes "mu") 2 [0xce; 0xbc] 2;
  mkEntity (bytes "multimap") 8 [0xe2; 0x8a; 0xb8] 3;
  mkEntity (bytes "mumap") 5 [0xe2; 0x8a; 0xb8] 3
].

Definition entities_n : list namedEntity_t := [
  mkEntity (bytes "nGg") 3 [0xe2; 0x8b; 0x99; 0xcc; 0xb8] 5;
  mkEntity (bytes "nGt") 3 [0xe2; 0x89; 0xab; 0xe2; 0x83; 0x92] 6;
  mkEntity (bytes "nGtv") 4 [0xe2; 0x89; 0xab; 0xcc; 0xb8] 5;
  mkEntity (bytes "nLeftarrow") 10 [0xe2; 0x87; 0x8d] 3;
  mkEntity (bytes "nLeftrightarrow") 15 [0xe2; 0x87; 0x8e] 3;
  mkEntity (bytes "nLl") 3 [0xe2; 0x8b; 0x98; 0xcc; 0xb8] 5;
  mkEntity (bytes "nLt") 3 [0xe2; 0x89; 0xaa; 0xe2; 0x83; 0x92] 6;
  mkEntity (bytes "nLtv") 4 [0xe2; 0x89; 0xaa; 0xcc; 0xb8] 5;
  mkEntity (bytes "nRightarrow") 11 [0xe2; 0x87; 0x8f] 3;
  mkEntity (bytes "nVDash") 6 [0xe2; 0x8a; 0xaf] 3;
  mkEntity (bytes "nVdash") 6 [0xe2; 0x8a; 0xae] 3;
  mkEntity (bytes "nabla") 5 [0xe2; 0x88; 0x87] 3;
  mkEntity (bytes "nacute") 6 [0xc5; 0x84] 2;
  mkEntity (bytes "nang") 4 [0xe2; 0x88; 0xa0; 0xe2; 0x83; 0x92] 6;
  mkEntity (bytes "nap") 3 [0xe2; 0x89; 0x89] 3;
  mkEntity (bytes "napE") 4 [0xe2; 0xa9; 0xb0; 0xcc; 0xb8] 5;
  mkEntity (bytes "napid") 5 [0xe2; 0x89; 0x8b; 0xcc; 0xb8] 5;
  mkEntity (bytes "napos") 5 [0xc5; 0x89] 2;
  mkEntity (bytes "napprox") 7 [0xe2; 0x89; 0x89] 3;
  mkEntity (bytes "natur") 5 [0xe2; 0x99; 0xae] 3;
  mkEntity (bytes "natural") 7 [0xe2; 0x99; 0xae] 3;
  mkEntity (bytes "naturals") 8 [0xe2; 0x84; 0x95] 3;
  mkEntity (bytes "nbsp") 4 [0xc2; 0xa0] 2;
  mkEntity (bytes "nbump") 5 [0xe2; 0x89; 0x8e; 0xcc; 0xb8] 5;
  mkEntity (bytes "nbumpe") 6 [0xe2; 0x89; 0x8f; 0xcc; 0xb8] 5;
  mkEntity (bytes "ncap") 4 [0xe2; 0xa9; 0x83] 3;
  mkEntity (bytes "ncaron") 6 [0xc5; 0x88] 2;
  mkEntity (bytes "ncedil") 6 [0xc5; 0x86] 2;
  mkEntity (bytes "ncong") 5 [0xe2; 0x89; 0x87] 3;
  mkEntity (bytes "ncongdot") 8 [0xe2; 0xa9; 0xad; 0xcc; 0xb8] 5;
  mkEntity (bytes "ncup") 4 [0xe2; 0xa9; 0x82] 3;
  mkEntity (bytes "ncy") 3 [0xd0; 0xbd] 2;
  mkEntity (bytes "ndash") 5 [0xe2; 0x80; 0x93] 3;
  mkEntity (bytes "ne") 2 [0xe2; 0x89; 0xa0] 3;
  mkEntity (bytes "neArr") 5 [0xe2; 0x87; 0x97] 3;
  mkEntity (bytes "nearhk") 6 [0xe2; 0xa4; 0xa4] 3;
  mkEntity (bytes "nearr") 5 [0xe2; 0x86; 0x97] 3;
  mkEntity (bytes "nearrow") 7 [0xe2; 0x86; 0x97] 3;
  mkEntity (bytes "nedot") 5 [0xe2; 0x89; 0x90; 0xcc; 0xb8] 5;
  mkEntity (bytes "nequiv") 6 [0xe2; 0x89; 0xa2] 3;
  mkEntity (bytes "nesear") 6 [0xe2; 0xa4; 0xa8] 3;
  mkEntity (bytes "nesim") 5 [0xe2; 0x89; 0x82; 0xcc; 0xb8] 5;
  mkEntity (bytes "nexist") 6 [0xe2; 0x88; 0x84] 3;
  mkEntity (bytes "nexists") 7 [0xe2; 0x88; 0x84] 3;
  mkEntity (bytes "nfr") 3 [0xf0; 0x9d; 0x94; 0xab] 4;
  mkEntity (bytes "ngE") 3 [0xe2; 0x89; 0xa7; 0xcc; 0xb8] 5;
  mkEntity (bytes "nge") 3 [0xe2; 0x89; 0xb1] 3;
  mkEntity (bytes "ngeq") 4 [0xe2; 0x89; 0xb1] 3;
  mkEntity (bytes "ngeqq") 5 [0xe2; 0x89; 0xa7; 0xcc; 0xb8] 5;
  mkEntity (bytes "ngeqslant") 9 [0xe2; 0xa9; 0xbe; 0xcc; 0xb8] 5;
  mkEntity (bytes "nges") 4 [0xe2; 0xa9; 0xbe; 0xcc; 0xb8] 5;
  mkEntity (bytes "ngsim") 5 [0xe2; 0x89; 0xb5] 3;
  mkEntity (bytes "ngt") 3 [0xe2; 0x89; 0xaf] 3;
  mkEntity (bytes "ngtr") 4 [0xe2; 0x89; 0xaf] 3;
  mkEntity (bytes "nhArr") 5 [0xe2; 0x87; 0x8e] 3;
  mkEntity (bytes "nharr") 5 [0xe2; 0x86; 0xae] 3;
  mkEntity (bytes "nhpar") 5 [0xe2; 0xab; 0xb2] 3;
  mkEntity (bytes "ni") 2 [0xe2; 0x88; 0x8b] 3;
  mkEntity (bytes "nis") 3 [0xe2; 0x8b; 0xbc] 3;
  mkEntity (bytes "nisd") 4 [0xe2; 0x8b; 0xba] 3;
  mkEntity (bytes "niv") 3 [0xe2; 0x88; 0x8b] 3;
  mkEntity (bytes "njcy") 4 [0xd1; 0x9a] 2;
  mkEntity (bytes "nlArr") 5 [0xe2; 0x87; 0x8d] 3;
  mkEntity (bytes "nlE") 3 [0xe2; 0x89; 0xa6; 0xcc; 0xb8] 5;
  mkEntity (bytes "nlarr") 5 [0xe2; 0x86; 0x9a] 3;
  mkEntity (bytes "nldr") 4 [0xe2; 0x80; 0xa5] 3;
  mkEntity (bytes "nle") 3 [0xe2; 0x89; 0xb0] 3;
  mkEntity (bytes "nleftarrow") 10 [0xe2; 0x86; 0x9a] 3;
  mkEntity (bytes "nleftrightarrow") 15 [0xe2; 0x86; 0xae] 3;
  mkEntity (bytes "nleq") 4 [0xe2; 0x89; 0xb0] 3;
  mkEntity (bytes "nleqq") 5 [0xe2; 0x89; 0xa6; 0xcc; 0xb8] 5;
  mkEntity (bytes "nleqslant") 9 [0xe2; 0xa9; 0xbd; 0xcc; 0xb8] 5;
  mkEntity (bytes "nles") 4 [0xe2; 0xa9; 0xbd; 0xcc; 0xb8] 5;
  mkEntity (bytes "nless") 5 [0xe2; 0x89; 0xae] 3;
  mkEntity (bytes "nlsim") 5 [0xe2; 0x89; 0xb4] 3;
  mkEntity (bytes "nlt") 3 [0xe2; 0x89; 0xae] 3;
  mkEntity (bytes "nltri") 5 [0xe2; 0x8b; 0xaa] 3;
  mkEntity (bytes "nltrie") 6 [0xe2; 0x8b; 0xac] 3;
  mkEntity (bytes "nmid") 4 [0xe2; 0x88; 0xa4] 3;
  mkEntity (bytes "nopf") 4 [0xf0; 0x9d; 0x95; 0x9f] 4;
  mkEntity (bytes "not") 3 [0xc2; 0xac] 2;
  mkEntity (bytes "notin") 5 [0xe2; 0x88; 0x89] 3;
  mkEntity (bytes "notinE") 6 [0xe2; 0x8b; 0xb9; 0xcc; 0xb8] 5;
  mkEntity (bytes "notindot") 8 [0xe2; 0x8b; 0xb5; 0xcc; 0xb8] 5;
  mkEntity (bytes "notinva") 7 [0xe2; 0x88; 0x89] 3;
  mkEntity (bytes "notinvb") 7 [0xe2; 0x8b; 0xb7] 3;
  mkEntity (bytes "notinvc") 7 [0xe2; 0x8b; 0xb6] 3;
  mkEntity (bytes "notni") 5 [0xe2; 0x88; 0x8c] 3;
  mkEntity (bytes "notniva") 7 [0xe2; 0x88; 0x8c] 3;
  mkEntity (bytes "notnivb") 7 [0xe2; 0x8b; 0xbe] 3;
  mkEntity (bytes "notnivc") 7 [0xe2; 0x8b; 0xbd] 3;
  mkEntity (bytes "npar") 4 [0xe2; 0x88; 0xa6] 3;
  mkEntity (bytes "nparallel") 9 [0xe2; 0x88; 0xa6] 3;
  mkEntity (bytes "nparsl") 6 [0xe2; 0xab; 0xbd; 0xe2; 0x83; 0xa5] 6;
  mkEntity (bytes "npart") 5 [0xe2; 0x88; 0x82; 0xcc; 0xb8] 5;
  mkEntity (bytes "npolint") 7 [0xe2; 0xa8; 0x94] 3;
  mkEntity (bytes "npr") 3 [0xe2; 0x8a; 0x80] 3;
  mkEntity (bytes "nprcue") 6 [0xe2; 0x8b; 0xa0] 3;
  mkEntity (bytes "npre") 4 [0xe2; 0xaa; 0xaf; 0xcc; 0xb8] 5;
  mkEntity (bytes "nprec") 5 [0xe2; 0x8a; 0x80] 3;
  mkEntity (bytes "npreceq") 7 [0xe2; 0xaa; 0xaf; 0xcc; 0xb8] 5;
  mkEntity (bytes "nrArr") 5 [0xe2; 0x87; 0x8f] 3;
  mkEntity (bytes "nrarr") 5 [0xe2; 0x86; 0x9b] 3;
  mkEntity (bytes "nrarrc") 6 [0xe2; 0xa4; 0xb3; 0xcc; 0xb8] 5;
  mkEntity (bytes "nrarrw") 6 [0xe2; 0x86; 0x9d; 0xcc; 0xb8] 5;
  mkEntity (bytes "nrightarrow") 11 [0xe2; 0x86; 0x9b] 3;
  mkEntity (bytes "nrtri") 5 [0xe2; 0x8b; 0xab] 3;
  mkEntity (bytes "nrtrie") 6 [0xe2; 0x8b; 0xad] 3;
  mkEntity (bytes "nsc") 3 [0xe2; 0x8a; 0x81] 3;
  mkEntity (bytes "nsccue") 6 [0xe2; 0x8b; 0xa1] 3;
  mkEntity (bytes "nsce") 4 [0xe2; 0xaa; 0xb0; 0xcc; 0xb8] 5;
  mkEntity (bytes "nscr") 4 [0xf0; 0x9d; 0x93; 0x83] 4;
  mkEntity (bytes "nshortmid") 9 [0xe2; 0x88; 0xa4] 3;
  mkEntity (bytes "nshortparallel") 14 [0xe2; 0x88; 0xa6] 3;
  mkEntity (bytes "nsim") 4 [0xe2; 0x89; 0x81] 3;
  mkEntity (bytes "nsime") 5 [0xe2; 0x89; 0x84] 3;
  mkEntity (bytes "nsimeq") 6 [0xe2; 0x89; 0x84] 3;
  mkEntity (bytes "nsmid") 5 [0xe2; 0x88; 0xa4] 3;
  mkEntity (bytes "nspar") 5 [0xe2; 0x88; 0xa6] 3;
  mkEntity (bytes "nsqsube") 7 [0xe2; 0x8b; 0xa2] 3;
  mkEntity (bytes "nsqsupe") 7 [0xe2; 0x8b; 0xa3] 3;
  mkEntity (bytes "nsub") 4 [0xe2; 0x8a; 0x84] 3;
  mkEntity (bytes "nsubE") 5 [0xe2; 0xab; 0x85; 0xcc; 0xb8] 5;
  mkEntity (bytes "nsube") 5 [0xe2; 0x8a; 0x88] 3;
  mkEntity (bytes "nsubset") 7 [0xe2; 0x8a; 0x82; 0xe2; 0x83; 0x92] 6;
  mkEntity (bytes "nsubseteq") 9 [0xe2; 0x8a; 0x88] 3;
  mkEntity (bytes "nsubseteqq") 10 [0xe2; 0xab; 0x85; 0xcc; 0xb8] 5;
  mkEntity (bytes "nsucc") 5 [0xe2; 0x8a; 0x81] 3;
  mkEntity (bytes "nsucceq") 7 [0xe2; 0xaa; 0xb0; 0xcc; 0xb8] 5;
  mkEntity (bytes "nsup") 4 [0xe2; 0x8a; 0x85] 3;
  mkEntity (bytes "nsupE") 5 [0xe2; 0xab; 0x86; 0xcc; 0xb8] 5;
  mkEntity (bytes "nsupe") 5 [0xe2; 0x8a; 0x89] 3;
  mkEntity (bytes "nsupset") 7 [0xe2; 0x8a; 0x83; 0xe2; 0x83; 0x92] 6;
  mkEntity (bytes "nsupseteq") 9 [0xe2; 0x8a; 0x89] 3;
  mkEntity (bytes "nsupseteqq") 10 [0xe2; 0xab; 0x86; 0xcc; 0xb8] 5;
  mkEntity (bytes "ntgl") 4 [0xe2; 0x89; 0xb9] 3;
  mkEntity (bytes "ntilde") 6 [0xc3; 0xb1] 2;
  mkEntity (bytes "ntlg") 4 [0xe2; 0x89; 0xb8] 3;
  mkEntity (bytes "ntriangleleft") 13 [0xe2; 0x8b; 0xaa] 3;
  mkEntity (bytes "ntrianglelefteq") 15 [0xe2; 0x8b; 0xac] 3;
  mkEntity (bytes "ntriangleright") 14 [0xe2; 0x8b; 0xab] 3;
  mkEntity (bytes "ntrianglerighteq") 16 [0xe2; 0x8b; 0xad] 3;
  mkEntity (bytes "nu") 2 [0xce; 0xbd] 2;
  mkEntity (bytes "num") 3 [0x23] 1;
  mkEntity (bytes "numero") 6 [0xe2; 0x84; 0x96] 3;
  mkEntity (bytes "numsp") 5 [0xe2; 0x80; 0x87] 3;
  mkEntity (bytes "nvDash") 6 [0xe2; 0x8a; 0xad] 3;
  mkEntity (bytes "nvHarr") 6 [0xe2; 0xa4; 0x84] 3;
  mkEntity (bytes "nvap") 4 [0xe2; 0x89; 0x8d; 0xe2; 0x83; 0x92] 6;
  mkEntity (bytes "nvdash") 6 [0xe2; 0x8a; 0xac] 3;
  mkEntity (bytes "nvge") 4 [0xe2; 0x89; 0xa5; 0xe2; 0x83; 0x92] 6;
  mkEntity (bytes "nvgt") 4 [0x3e; 0xe2; 0x83; 0x92] 4;
  mkEntity (bytes "nvinfin") 7 [0xe2; 0xa7; 0x9e] 3;
  mkEntity (bytes "nvlArr") 6 [0xe2; 0xa4; 0x82] 3;
  mkEntity (bytes "nvle") 4 [0xe2; 0x89; 0xa4; 0xe2; 0x83; 0x92] 6;
  mkEntity (bytes "nvlt") 4 [0x3c; 0xe2; 0x83; 0x92] 4;
  mkEntity (bytes "nvltrie") 7 [0xe2; 0x8a; 0xb4; 0xe2; 0x83; 0x92] 6;
  mkEntity (bytes "nvrArr") 6 [0xe2; 0xa4; 0x83] 3;
  mkEntity (bytes "nvrtrie") 7 [0xe2; 0x8a; 0xb5; 0xe2; 0x83; 0x92] 6;
  mkEntity (bytes "nvsim") 5 [0xe2; 0x88; 0xbc; 0xe2; 0x83; 0x92] 6;
  mkEntity (bytes "nwArr") 5 [0xe2; 0x87; 0x96] 3;
  mkEntity (bytes "nwarhk") 6 [0xe2; 0xa4; 0xa3] 3;
  mkEntity (bytes "nwarr") 5 [0xe2; 0x86; 0x96] 3;
  mkEntity (bytes "nwarrow") 7 [0xe2; 0x86; 0x96] 3;
  mkEntity (bytes "nwnear") 6 [0xe2; 0xa4; 0xa7] 3
].

Definition entities_o : list namedEntity_t := [
  mkEntity (bytes "oS") 2 [0xe2; 0x93; 0x88] 3;
  mkEntity (bytes "oacute") 6 [0xc3; 0xb3] 2;
  mkEntity (bytes "oast") 4 [0xe2; 0x8a; 0x9b] 3;
  mkEntity (bytes "ocir") 4 [0xe2; 0x8a; 0x9a] 3;
  mkEntity (bytes "ocirc") 5 [0xc3; 0xb4] 2;
  mkEntity (bytes "ocy") 3 [0xd0; 0xbe] 2;
  mkEntity (bytes "odash") 5 [0xe2; 0x8a; 0x9d] 3;
  mkEntity (bytes "odblac") 6 [0xc5; 0x91] 2;
  mkEntity (bytes "odiv") 4 [0xe2; 0xa8; 0xb8] 3;
  mkEntity (bytes "odot") 4 [0xe2; 0x8a; 0x99] 3;
  mkEntity (bytes "odsold") 6 [0xe2; 0xa6; 0xbc] 3;
  mkEntity (bytes "oelig") 5 [0xc5; 0x93] 2;
  mkEntity (bytes "ofcir") 5 [0xe2; 0xa6; 0xbf] 3;
  mkEntity (bytes "ofr") 3 [0xf0; 0x9d; 0x94; 0xac] 4;
  mkEntity (bytes "ogon") 4 [0xcb; 0x9b] 2;
  mkEntity (bytes "ograve") 6 [0xc3; 0xb2] 2;
  mkEntity (bytes "ogt") 3 [0xe2; 0xa7; 0x81] 3;
  mkEntity (bytes "ohbar") 5 [0xe2; 0xa6; 0xb5] 3;
  mkEntity (bytes "ohm") 3 [0xce; 0xa9] 2;
  mkEntity (bytes "oint") 4 [0xe2; 0x88; 0xae] 3;
  mkEntity (bytes "olarr") 5 [0xe2; 0x86; 0xba] 3;
  mkEntity (bytes "olcir") 5 [0xe2; 0xa6; 0xbe] 3;
  mkEntity (bytes "olcross") 7 [0xe2; 0xa6; 0xbb] 3;
  mkEntity (bytes "oline") 5 [0xe2; 0x80; 0xbe] 3;
  mkEntity (bytes "olt") 3 [0xe2; 0xa7; 0x80] 3;
  mkEntity (bytes "omacr") 5 [0xc5; 0x8d] 2;
  mkEntity (bytes "omega") 5 [0xcf; 0x89] 2;
  mkEntity (bytes "omicron") 7 [0xce; 0xbf] 2;
  mkEntity (bytes "omid") 4 [0xe2; 0xa6; 0xb6] 3;
  mkEntity (bytes "ominus") 6 [0xe2; 0x8a; 0x96] 3;
  mkEntity (bytes "oopf") 4 [0xf0; 0x9d; 0x95; 0xa0] 4;
  mkEntity (bytes "opar") 4 [0xe2; 0xa6; 0xb7] 3;
  mkEntity (bytes "operp") 5 [0xe2; 0xa6; 0xb9] 3;
  mkEntity (bytes "oplus") 5 [0xe2; 0x8a; 0x95] 3;
  mkEntity (bytes "or") 2 [0xe2; 0x88; 0xa8] 3;
  mkEntity (bytes "orarr") 5 [0xe2; 0x86; 0xbb] 3;
  mkEntity (bytes "ord") 3 [0xe2; 0xa9; 0x9d] 3;
  mkEntity (bytes "order") 5 [0xe2; 0x84; 0xb4] 3;
  mkEntity (bytes "orderof") 7 [0xe2; 0x84; 0xb4] 3;
  mkEntity (bytes "ordf") 4 [0xc2; 0xaa] 2;
  mkEntity (bytes "ordm") 4 [0xc2; 0xba] 2;
  mkEntity (bytes "origof") 6 [0xe2; 0x8a; 0xb6] 3;
  mkEntity (bytes "oror") 4 [0xe2; 0xa9; 0x96] 3;
  mkEntity (bytes "orslope") 7 [0xe2; 0xa9; 0x97] 3;
  mkEntity (bytes "orv") 3 [0xe2; 0xa9; 0x9b] 3;
  mkEntity (bytes "oscr") 4 [0xe2; 0x84; 0xb4] 3;
  mkEntity (bytes "oslash") 6 [0xc3; 0xb8] 2;
  mkEntity (bytes "osol") 4 [0xe2; 0x8a; 0x98] 3;
  mkEntity (bytes "otilde") 6 [0xc3; 0xb5] 2;
  mkEntity (bytes "otimes") 6 [0xe2; 0x8a; 0x97] 3;
  mkEntity (bytes "otimesas") 8 [0xe2; 0xa8; 0xb6] 3;
  mkEntity (bytes "ouml") 4 [0xc3; 0xb6] 2;
  mkEntity (bytes "ovbar") 5 [0xe2; 0x8c; 0xbd] 3
].

Definition entities_p : list namedEntity_t := [
  mkEntity (bytes "par") 3 [0xe2; 0x88; 0xa5] 3;
  mkEntity (bytes "para") 4 [0xc2; 0xb6] 2;
  mkEntity (bytes "parallel") 8 [0xe2; 0x88; 0xa5] 3;
  mkEntity (bytes "parsim") 6 [0xe2; 0xab; 0xb3] 3;
  mkEntity (bytes "parsl") 5 [0xe2; 0xab; 0xbd] 3;
  mkEntity (bytes "part") 4 [0xe2; 0x88; 0x82] 3;
  mkEntity (bytes "pcy") 3 [0xd0; 0xbf] 2;
  mkEntity (bytes "percnt") 6 [0x25] 1;
  mkEntity (bytes "period") 6 [0x2e] 1;
  mkEntity (bytes "permil") 6 [0xe2; 0x80; 0xb0] 3;
  mkEntity (bytes "perp") 4 [0xe2; 0x8a; 0xa5] 3;
  mkEntity (bytes "pertenk") 7 [0xe2; 0x80; 0xb1] 3;
  mkEntity (bytes "pfr") 3 [0xf0; 0x9d; 0x94; 0xad] 4;
  mkEntity (bytes "phi") 3 [0xcf; 0x86] 2;
  mkEntity (bytes "phiv") 4 [0xcf; 0x95] 2;
  mkEntity (bytes "phmmat") 6 [0xe2; 0x84; 0xb3] 3;
  mkEntity (bytes "phone") 5 [0xe2; 0x98; 0x8e] 3;
  mkEntity (bytes "pi") 2 [0xcf; 0x80] 2;
  mkEntity (bytes "pitchfork") 9 [0xe2; 0x8b; 0x94] 3;
  mkEntity (bytes "piv") 3 [0xcf; 0x96] 2;
  mkEntity (bytes "planck") 6 [0xe2; 0x84; 0x8f] 3;
  mkEntity (bytes "planckh") 7 [0xe2; 0x84; 0x8e] 3;
  mkEntity (bytes "plankv") 6 [0xe2; 0x84; 0x8f] 3;
  mkEntity (bytes "plus") 4 [0x2b] 1;
  mkEntity (bytes "plusacir") 8 [0xe2; 0xa8; 0xa3] 3;
  mkEntity (bytes "plusb") 5 [0xe2; 0x8a; 0x9e] 3;
  mkEntity (bytes "pluscir") 7 [0xe2; 0xa8; 0xa2] 3;
  mkEntity (bytes "plusdo") 6 [0xe2; 0x88; 0x94] 3;
  mkEntity (bytes "plusdu") 6 [0xe2; 0xa8; 0xa5] 3;
  mkEntity (bytes "pluse") 5 [0xe2; 0xa9; 0xb2] 3;
  mkEntity (bytes "plusmn") 6 [0xc2; 0xb1] 2;
  mkEntity (bytes "plussim") 7 [0xe2; 0xa8; 0xa6] 3;
  mkEntity (bytes "plustwo") 7 [0xe2; 0xa8; 0xa7] 3;
  mkEntity (bytes "pm") 2 [0xc2; 0xb1] 2;
  mkEntity (bytes "pointint") 8 [0xe2; 0xa8; 0x95] 3;
  mkEntity (bytes "popf") 4 [0xf0; 0x9d; 0x95; 0xa1] 4;
  mkEntity (bytes "pound") 5 [0xc2; 0xa3] 2;
  mkEntity (bytes "pr") 2 [0xe2; 0x89; 0xba] 3;
  mkEntity (bytes "prE") 3 [0xe2; 0xaa; 0xb3] 3;
  mkEntity (bytes "prap") 4 [0xe2; 0xaa; 0xb7] 3;
  mkEntity (bytes "prcue") 5 [0xe2; 0x89; 0xbc] 3;
  mkEntity (bytes "pre") 3 [0xe2; 0xaa; 0xaf] 3;
  mkEntity (bytes "prec") 4 [0xe2; 0x89; 0xba] 3;
  mkEntity (bytes "precapprox") 10 [0xe2; 0xaa; 0xb7] 3;
  mkEntity (bytes "preccurlyeq") 11 [0xe2; 0x89; 0xbc] 3;
  mkEntity (bytes "preceq") 6 [0xe2; 0xaa; 0xaf] 3;
  mkEntity (bytes "precnapprox") 11 [0xe2; 0xaa; 0xb9] 3;
  mkEntity (bytes "precneqq") 8 [0xe2; 0xaa; 0xb5] 3;
  mkEntity (bytes "precnsim") 8 [0xe2; 0x8b; 0xa8] 3;
  mkEntity (bytes "precsim") 7 [0xe2; 0x89; 0xbe] 3;
  mkEntity (bytes "prime") 5 [0xe2; 0x80; 0xb2] 3;
  mkEntity (bytes "primes") 6 [0xe2; 0x84; 0x99] 3;
  mkEntity (bytes "prnE") 4 [0xe2; 0xaa; 0xb5] 3;
  mkEntity (bytes "prnap") 5 [0xe2; 0xaa; 0xb9] 3;
  mkEntity (bytes "prnsim") 6 [0xe2; 0x8b; 0xa8] 3;
  mkEntity (bytes "prod") 4 [0xe2; 0x88; 0x8f] 3;
  mkEntity (bytes "profalar") 8 [0xe2; 0x8c; 0xae] 3;
  mkEntity (bytes "profline") 8 [0xe2; 0x8c; 0x92] 3;
  mkEntity (bytes "profsurf") 8 [0xe2; 0x8c; 0x93] 3;
  mkEntity (bytes "prop") 4 [0xe2; 0x88; 0x9d] 3;
  mkEntity (bytes "propto") 6 [0xe2; 0x88; 0x9d] 3;
  mkEntity (bytes "prsim") 5 [0xe2; 0x89; 0xbe] 3;
  mkEntity (bytes "prurel") 6 [0xe2; 0x8a; 0xb0] 3;
  mkEntity (bytes "pscr") 4 [0xf0; 0x9d; 0x93; 0x85] 4;
  mkEntity (bytes "psi") 3 [0xcf; 0x88] 2;
  mkEntity (bytes "puncsp") 6 [0xe2; 0x80; 0x88] 3
].

Definition entities_q : list namedEntity_t := [
  mkEntity (bytes "qfr") 3 [0xf0; 0x9d; 0x94; 0xae] 4;
  mkEntity (bytes "qint") 4 [0xe2; 0xa8; 0x8c] 3;
  mkEntity (bytes "qopf") 4 [0xf0; 0x9d; 0x95; 0xa2] 4;
  mkEntity (bytes "qprime") 6 [0xe2; 0x81; 0x97] 3;
  mkEntity (bytes "qscr") 4 [0xf0; 0x9d; 0x93; 0x86] 4;
  mkEntity (bytes "quaternions") 11 [0xe2; 0x84; 0x8d] 3;
  mkEntity (bytes "quatint") 7 [0xe2; 0xa8; 0x96] 3;
  mkEntity (bytes "quest") 5 [0x3f] 1;
  mkEntity (bytes "questeq") 7 [0xe2; 0x89; 0x9f] 3;
  mkEntity (bytes "quot") 4 [0x22] 1
].

Definition entities_r : list namedEntity_t := [
  mkEntity (bytes "rAarr") 5 [0xe2; 0x87; 0x9b] 3;
  mkEntity (bytes "rArr") 4 [0xe2; 0x87; 0x92] 3;
  mkEntity (bytes "rAtail") 6 [0xe2; 0xa4; 0x9c] 3;
  mkEntity (bytes "rBarr") 5 [0xe2; 0xa4; 0x8f] 3;
  mkEntity (bytes "rHar") 4 [0xe2; 0xa5; 0xa4] 3;
  mkEntity (bytes "race") 4 [0xe2; 0x88; 0xbd; 0xcc; 0xb1] 5;
  mkEntity (bytes "racute") 6 [0xc5; 0x95] 2;
  mkEntity (bytes "radic") 5 [0xe2; 0x88; 0x9a] 3;
  mkEntity (bytes "raemptyv") 8 [0xe2; 0xa6; 0xb3] 3;
  mkEntity (bytes "rang") 4 [0xe2; 0x9f; 0xa9] 3;
  mkEntity (bytes "rangd") 5 [0xe2; 0xa6; 0x92] 3;
  mkEntity (bytes "range") 5 [0xe2; 0xa6; 0xa5] 3;
  mkEntity (bytes "rangle") 6 [0xe2; 0x9f; 0xa9] 3;
  mkEntity (bytes "raquo") 5 [0xc2; 0xbb] 2;
  mkEntity (bytes "rarr") 4 [0xe2; 0x86; 0x92] 3;
  mkEntity (bytes "rarrap") 6 [0xe2; 0xa5; 0xb5] 3;
  mkEntity (bytes "rarrb") 5 [0xe2; 0x87; 0xa5] 3;
  mkEntity (bytes "rarrbfs") 7 [0xe2; 0xa4; 0xa0] 3;
  mkEntity (bytes "rarrc") 5 [0xe2; 0xa4; 0xb3] 3;
  mkEntity (bytes "rarrfs") 6 [0xe2; 0xa4; 0x9e] 3;
  mkEntity (bytes "rarrhk") 6 [0xe2; 0x86; 0xaa] 3;
  mkEntity (bytes "rarrlp") 6 [0xe2; 0x86; 0xac] 3;
  mkEntity (bytes "rarrpl") 6 [0xe2; 0xa5; 0x85] 3;
  mkEntity (bytes "rarrsim") 7 [0xe2; 0xa5; 0xb4] 3;
  mkEntity (bytes "rarrtl") 6 [0xe2; 0x86; 0xa3] 3;
  mkEntity (bytes "rarrw") 5 [0xe2; 0x86; 0x9d] 3;
  mkEntity (bytes "ratail") 6 [0xe2; 0xa4; 0x9a] 3;
  mkEntity (bytes "ratio") 5 [0xe2; 0x88; 0xb6] 3;
  mkEntity (bytes "rationals") 9 [0xe2; 0x84; 0x9a] 3;
  mkEntity (bytes "rbarr") 5 [0xe2; 0xa4; 0x8d] 3;
  mkEntity (bytes "rbbrk") 5 [0xe2; 0x9d; 0xb3] 3;
  mkEntity (bytes "rbrace") 6 [0x7d] 1;
  mkEntity (bytes "rbrack") 6 [0x5d] 1;
  mkEntity (bytes "rbrke") 5 [0xe2; 0xa6; 0x8c] 3;
  mkEntity (bytes "rbrksld") 7 [0xe2; 0xa6; 0x8e] 3;
  mkEntity (bytes "rbrkslu") 7 [0xe2; 0xa6; 0x90] 3;
  mkEntity (bytes "rcaron") 6 [0xc5; 0x99] 2;
  mkEntity (bytes "rcedil") 6 [0xc5; 0x97] 2;
  mkEntity (bytes "rceil") 5 [0xe2; 0x8c; 0x89] 3;
  mkEntity (bytes "rcub") 4 [0x7d] 1;
  mkEntity (bytes "rcy") 3 [0xd1; 0x80] 2;
  mkEntity (bytes "rdca") 4 [0xe2; 0xa4; 0xb7] 3;
  mkEntity (bytes "rdldhar") 7 [0xe2; 0xa5; 0xa9] 3;
  mkEntity (bytes "rdquo") 5 [0xe2; 0x80; 0x9d] 3;
  mkEntity (bytes "rdquor") 6 [0xe2; 0x80; 0x9d] 3;
  mkEntity (bytes "rdsh") 4 [0xe2; 0x86; 0xb3] 3;
  mkEntity (bytes "real") 4 [0xe2; 0x84; 0x9c] 3;
  mkEntity (bytes "realine") 7 [0xe2; 0x84; 0x9b] 3;
  mkEntity (bytes "realpart") 8 [0xe2; 0x84; 0x9c] 3;
  mkEntity (bytes "reals") 5 [0xe2; 0x84; 0x9d] 3;
  mkEntity (bytes "rect") 4 [0xe2; 0x96; 0xad] 3;
  mkEntity (bytes "reg") 3 [0xc2; 0xae] 2;
  mkEntity (bytes "rfisht") 6 [0xe2; 0xa5; 0xbd] 3;
  mkEntity (bytes "rfloor") 6 [0xe2; 0x8c; 0x8b] 3;
  mkEntity (bytes "rfr") 3 [0xf0; 0x9d; 0x94; 0xaf] 4;
  mkEntity (bytes "rhard") 5 [0xe2; 0x87; 0x81] 3;
  mkEntity (bytes "rharu") 5 [0xe2; 0x87; 0x80] 3;
  mkEntity (bytes "rharul") 6 [0xe2; 0xa5; 0xac] 3;
  mkEntity (bytes "rho") 3 [0xcf; 0x81] 2;
  mkEntity (bytes "rhov") 4 [0xcf; 0xb1] 2;
  mkEntity (bytes "rightarrow") 10 [0xe2; 0x86; 0x92] 3;
  mkEntity (bytes "rightarrowtail") 14 [0xe2; 0x86; 0xa3] 3;
  mkEntity (bytes "rightharpoondown") 16 [0xe2; 0x87; 0x81] 3;
  mkEntity (bytes "rightharpoonup") 14 [0xe2; 0x87; 0x80] 3;
  mkEntity (bytes "rightleftarrows") 15 [0xe2; 0x87; 0x84] 3;
  mkEntity (bytes "rightleftharpoons") 17 [0xe2; 0x87; 0x8c] 3;
  mkEntity (bytes "rightrightarrows") 16 [0xe2; 0x87; 0x89] 3;
  mkEntity (bytes "rightsquigarrow") 15 [0xe2; 0x86; 0x9d] 3;
  mkEntity (bytes "rightthreetimes") 15 [0xe2; 0x8b; 0x8c] 3;
  mkEntity (bytes "ring") 4 [0xcb; 0x9a] 2;
  mkEntity (bytes "risingdotseq") 12 [0xe2; 0x89; 0x93] 3;
  mkEntity (bytes "rlarr") 5 [0xe2; 0x87; 0x84] 3;
  mkEntity (bytes "rlhar") 5 [0xe2; 0x87; 0x8c] 3;
  mkEntity (bytes "rlm") 3 [0xe2; 0x80; 0x8f] 3;
  mkEntity (bytes "rmoust") 6 [0xe2; 0x8e; 0xb1] 3;
  mkEntity (bytes "rmoustache") 10 [0xe2; 0x8e; 0xb1] 3;
  mkEntity (bytes "rnmid") 5 [0xe2; 0xab; 0xae] 3;
  mkEntity (bytes "roang") 5 [0xe2; 0x9f; 0xad] 3;
  mkEntity (bytes "roarr") 5 [0xe2; 0x87; 0xbe] 3;
  mkEntity (bytes "robrk") 5 [0xe2; 0x9f; 0xa7] 3;
  mkEntity (bytes "ropar") 5 [0xe2; 0xa6; 0x86] 3;
  mkEntity (bytes "ropf") 4 [0xf0; 0x9d; 0x95; 0xa3] 4;
  mkEntity (bytes "roplus") 6 [0xe2; 0xa8; 0xae] 3;
  mkEntity (bytes "rotimes") 7 [0xe2; 0xa8; 0xb5] 3;
  mkEntity (bytes "rpar") 4 [0x29] 1;
  mkEntity (bytes "rpargt") 6 [0xe2; 0xa6; 0x94] 3;
  mkEntity (bytes "rppolint") 8 [0xe2; 0xa8; 0x92] 3;
  mkEntity (bytes "rrarr") 5 [0xe2; 0x87; 0x89] 3;
  mkEntity (bytes "rsaquo") 6 [0xe2; 0x80; 0xba] 3;
  mkEntity (bytes "rscr") 4 [0xf0; 0x9d; 0x93; 0x87] 4;
  mkEntity (bytes "rsh") 3 [0xe2; 0x86; 0xb1] 3;
  mkEntity (bytes "rsqb") 4 [0x5d] 1;
  mkEntity (bytes "rsquo") 5 [0xe2; 0x80; 0x99] 3;
  mkEntity (bytes "rsquor") 6 [0xe2; 0x80; 0x99] 3;
  mkEntity (bytes "rthree") 6 [0xe2; 0x8b; 0x8c] 3;
  mkEntity (bytes "rtimes") 6 [0xe2; 0x8b; 0x8a] 3;
  mkEntity (bytes "rtri") 4 [0xe2; 0x96; 0xb9] 3;
  mkEntity (bytes "rtrie") 5 [0xe2; 0x8a; 0xb5] 3;
  mkEntity (bytes "rtrif") 5 [0xe2; 0x96; 0xb8] 3;
  mkEntity (bytes "rtriltri") 8 [0xe2; 0xa7; 0x8e] 3;
  mkEntity (bytes "ruluhar") 7 [0xe2; 0xa5; 0xa8] 3;
  mkEntity (bytes "rx") 2 [0xe2; 0x84; 0x9e] 3
].

Definition entities_s : list namedEntity_t := [
  mkEntity (bytes "sacute") 6 [0xc5; 0x9b] 2;
  mkEntity (bytes "sbquo") 5 [0xe2; 0x80; 0x9a] 3;
  mkEntity (bytes "sc") 2 [0xe2; 0x89; 0xbb] 3;
  mkEntity (bytes "scE") 3 [0xe2; 0xaa; 0xb4] 3;
  mkEntity (bytes "scap") 4 [0xe2; 0xaa; 0xb8] 3;
  mkEntity (bytes "scaron") 6 [0xc5; 0xa1] 2;
  mkEntity (bytes "sccue") 5 [0xe2; 0x89; 0xbd] 3;
  mkEntity (bytes "sce") 3 [0xe2; 0xaa; 0xb0] 3;
  mkEntity (bytes "scedil") 6 [0xc5; 0x9f] 2;
  mkEntity (bytes "scirc") 5 [0xc5; 0x9d] 2;
  mkEntity (bytes "scnE") 4 [0xe2; 0xaa; 0xb6] 3;
  mkEntity (bytes "scnap") 5 [0xe2; 0xaa; 0xba] 3;
  mkEntity (bytes "scnsim") 6 [0xe2; 0x8b; 0xa9] 3;
  mkEntity (bytes "scpolint") 8 [0xe2; 0xa8; 0x93] 3;
  mkEntity (bytes "scsim") 5 [0xe2; 0x89; 0xbf] 3;
  mkEntity (bytes "scy") 3 [0xd1; 0x81] 2;
  mkEntity (bytes "sdot") 4 [0xe2; 0x8b; 0x85] 3;
  mkEntity (bytes "sdotb") 5 [0xe2; 0x8a; 0xa1] 3;
  mkEntity (bytes "sdote") 5 [0xe2; 0xa9; 0xa6] 3;
  mkEntity (bytes "seArr") 5 [0xe2; 0x87; 0x98] 3;
  mkEntity (bytes "searhk") 6 [0xe2; 0xa4; 0xa5] 3;
  mkEntity (bytes "searr") 5 [0xe2; 0x86; 0x98] 3;
  mkEntity (bytes "searrow") 7 [0xe2; 0x86; 0x98] 3;
  mkEntity (bytes "sect") 4 [0xc2; 0xa7] 2;
  mkEntity (bytes "semi") 4 [0x3b] 1;
  mkEntity (bytes "seswar") 6 [0xe2; 0xa4; 0xa9] 3;
  mkEntity (bytes "setminus") 8 [0xe2; 0x88; 0x96] 3;
  mkEntity (bytes "setmn") 5 [0xe2; 0x88; 0x96] 3;
  mkEntity (bytes "sext") 4 [0xe2; 0x9c; 0xb6] 3;
  mkEntity (bytes "sfr") 3 [0xf0; 0x9d; 0x94; 0xb0] 4;
  mkEntity (bytes "sfrown") 6 [0xe2; 0x8c; 0xa2] 3;
  mkEntity (bytes "sharp") 5 [0xe2; 0x99; 0xaf] 3;
  mkEntity (bytes "shchcy") 6 [0xd1; 0x89] 2;
  mkEntity (bytes "shcy") 4 [0xd1; 0x88] 2;
  mkEntity (bytes "shortmid") 8 [0xe2; 0x88; 0xa3] 3;
  mkEntity (bytes "shortparallel") 13 [0xe2; 0x88; 0xa5] 3;
  mkEntity (bytes "shy") 3 [0xc2; 0xad] 2;
  mkEntity (bytes "sigma") 5 [0xcf; 0x83] 2;
  mkEntity (bytes "sigmaf") 6 [0xcf; 0x82] 2;
  mkEntity (bytes "sigmav") 6 [0xcf; 0x82] 2;
  mkEntity (bytes "sim") 3 [0xe2; 0x88; 0xbc] 3;
  mkEntity (bytes "simdot") 6 [0xe2; 0xa9; 0xaa] 3;
  mkEntity (bytes "sime") 4 [0xe2; 0x89; 0x83] 3;
  mkEntity (bytes "simeq") 5 [0xe2; 0x89; 0x83] 3;
  mkEntity (bytes "simg") 4 [0xe2; 0xaa; 0x9e] 3;
  mkEntity (bytes "simgE") 5 [0xe2; 0xaa; 0xa0] 3;
  mkEntity (bytes "siml") 4 [0xe2; 0xaa; 0x9d] 3;
  mkEntity (bytes "simlE") 5 [0xe2; 0xaa; 0x9f] 3;
  mkEntity (bytes "simne") 5 [0xe2; 0x89; 0x86] 3;
  mkEntity (bytes "simplus") 7 [0xe2; 0xa8; 0xa4] 3;
  mkEntity (bytes "simrarr") 7 [0xe2; 0xa5; 0xb2] 3;
  mkEntity (bytes "slarr") 5 [0xe2; 0x86; 0x90] 3;
  mkEntity (bytes "smallsetminus") 13 [0xe2; 0x88; 0x96] 3;
  mkEntity (bytes "smashp") 6 [0xe2; 0xa8; 0xb3] 3;
  mkEntity (bytes "smeparsl") 8 [0xe2; 0xa7; 0xa4] 3;
  mkEntity (bytes "smid") 4 [0xe2; 0x88; 0xa3] 3;
  mkEntity (bytes "smile") 5 [0xe2; 0x8c; 0xa3] 3;
  mkEntity (bytes "smt") 3 [0xe2; 0xaa; 0xaa] 3;
  mkEntity (bytes "smte") 4 [0xe2; 0xaa; 0xac] 3;
  mkEntity (bytes "smtes") 5 [0xe2; 0xaa; 0xac; 0xef; 0xb8; 0x80] 6;
  mkEntity (bytes "softcy") 6 [0xd1; 0x8c] 2;
  mkEntity (bytes "sol") 3 [0x2f] 1;
  mkEntity (bytes "solb") 4 [0xe2; 0xa7; 0x84] 3;
  mkEntity (bytes "solbar") 6 [0xe2; 0x8c; 0xbf] 3;
  mkEntity (bytes "sopf") 4 [0xf0; 0x9d; 0x95; 0xa4] 4;
  mkEntity (bytes "spades") 6 [0xe2; 0x99; 0xa0] 3;
  mkEntity (bytes "spadesuit") 9 [0xe2; 0x99; 0xa0] 3;
  mkEntity (bytes "spar") 4 [0xe2; 0x88; 0xa5] 3;
  mkEntity (bytes "sqcap") 5 [0xe2; 0x8a; 0x93] 3;
  mkEntity (bytes "sqcaps") 6 [0xe2; 0x8a; 0x93; 0xef; 0xb8; 0x80] 6;
  mkEntity (bytes "sqcup") 5 [0xe2; 0x8a; 0x94] 3;
  mkEntity (bytes "sqcups") 6 [0xe2; 0x8a; 0x94; 0xef; 0xb8; 0x80] 6;
  mkEntity (bytes "sqsub") 5 [0xe2; 0x8a; 0x8f] 3;
  mkEntity (bytes "sqsube") 6 [0xe2; 0x8a; 0x91] 3;
  mkEntity (bytes "sqsubset") 8 [0xe2; 0x8a; 0x8f] 3;
  mkEntity (bytes "sqsubseteq") 10 [0xe2; 0x8a; 0x91] 3;
  mkEntity (bytes "sqsup") 5 [0xe2; 0x8a; 0x90] 3;
  mkEntity (bytes "sqsupe") 6 [0xe2; 0x8a; 0x92] 3;
  mkEntity (bytes "sqsupset") 8 [0xe2; 0x8a; 0x90] 3;
  mkEntity (bytes "sqsupseteq") 10 [0xe2; 0x8a; 0x92] 3;
  mkEntity (bytes "squ") 3 [0xe2; 0x96; 0xa1] 3;
  mkEntity (bytes "square") 6 [0xe2; 0x96; 0xa1] 3;
  mkEntity (bytes "squarf") 6 [0xe2; 0x96; 0xaa] 3;
  mkEntity (bytes "squf") 4 [0xe2; 0x96; 0xaa] 3;
  mkEntity (bytes "srarr") 5 [0xe2; 0x86; 0x92] 3;
  mkEntity (bytes "sscr") 4 [0xf0; 0x9d; 0x93; 0x88] 4;
  mkEntity (bytes "ssetmn") 6 [0xe2; 0x88; 0x96] 3;
  mkEntity (bytes "ssmile") 6 [0xe2; 0x8c; 0xa3] 3;
  mkEntity (bytes "sstarf") 6 [0xe2; 0x8b; 0x86] 3;
  mkEntity (bytes "star") 4 [0xe2; 0x98; 0x86] 3;
  mkEntity (bytes "starf") 5 [0xe2; 0x98; 0x85] 3;
  mkEntity (bytes "straightepsilon") 15 [0xcf; 0xb5] 2;
  mkEntity (bytes "straightphi") 11 [0xcf; 0x95] 2;
  mkEntity (bytes "strns") 5 [0xc2; 0xaf] 2;
  mkEntity (bytes "sub") 3 [0xe2; 0x8a; 0x82] 3;
  mkEntity (bytes "subE") 4 [0xe2; 0xab; 0x85] 3;
  mkEntity (bytes "subdot") 6 [0xe2; 0xaa; 0xbd] 3;
  mkEntity (bytes "sube") 4 [0xe2; 0x8a; 0x86] 3;
  mkEntity (bytes "subedot") 7 [0xe2; 0xab; 0x83] 3;
  mkEntity (bytes "submult") 7 [0xe2; 0xab; 0x81] 3;
  mkEntity (bytes "subnE") 5 [0xe2; 0xab; 0x8b] 3;
  mkEntity (bytes "subne") 5 [0xe2; 0x8a; 0x8a] 3;
  mkEntity (bytes "subplus") 7 [0xe2; 0xaa; 0xbf] 3;
  mkEntity (bytes "subrarr") 7 [0xe2; 0xa5; 0xb9] 3;
  mkEntity (bytes "subset") 6 [0xe2; 0x8a; 0x82] 3;
  mkEntity (bytes "subseteq") 8 [0xe2; 0x8a; 0x86] 3;
  mkEntity (bytes "subseteqq") 9 [0xe2; 0xab; 0x85] 3;
  mkEntity (bytes "subsetneq") 9 [0xe2; 0x8a; 0x8a] 3;
  mkEntity (bytes "subsetneqq") 10 [0xe2; 0xab; 0x8b] 3;
  mkEntity (bytes "subsim") 6 [0xe2; 0xab; 0x87] 3;
  mkEntity (bytes "subsub") 6 [0xe2; 0xab; 0x95] 3;
  mkEntity (bytes "subsup") 6 [0xe2; 0xab; 0x93] 3;
  mkEntity (bytes "succ") 4 [0xe2; 0x89; 0xbb] 3;
  mkEntity (bytes "succapprox") 10 [0xe2; 0xaa; 0xb8] 3;
  mkEntity (bytes "succcurlyeq") 11 [0xe2; 0x89; 0xbd] 3;
  mkEntity (bytes "succeq") 6 [0xe2; 0xaa; 0xb0] 3;
  mkEntity (bytes "succnapprox") 11 [0xe2; 0xaa; 0xba] 3;
  mkEntity (bytes "succneqq") 8 [0xe2; 0xaa; 0xb6] 3;
  mkEntity (bytes "succnsim") 8 [0xe2; 0x8b; 0xa9] 3;
  mkEntity (bytes "succsim") 7 [0xe2; 0x89; 0xbf] 3;
  mkEntity (bytes "sum") 3 [0xe2; 0x88; 0x91] 3;
  mkEntity (bytes "sung") 4 [0xe2; 0x99; 0xaa] 3;
  mkEntity (bytes "sup") 3 [0xe2; 0x8a; 0x83] 3;
  mkEntity (bytes "sup1") 4 [0xc2; 0xb9] 2;
  mkEntity (bytes "sup2") 4 [0xc2; 0xb2] 2;
  mkEntity (bytes "sup3") 4 [0xc2; 0xb3] 2;
  mkEntity (bytes "supE") 4 [0xe2; 0xab; 0x86] 3;
  mkEntity (bytes "supdot") 6 [0xe2; 0xaa; 0xbe] 3;
  mkEntity (bytes "supdsub") 7 [0xe2; 0xab; 0x98] 3;
  mkEntity (bytes "supe") 4 [0xe2; 0x8a; 0x87] 3;
  mkEntity (bytes "supedot") 7 [0xe2; 0xab; 0x84] 3;
  mkEntity (bytes "suphsol") 7 [0xe2; 0x9f; 0x89] 3;
  mkEntity (bytes "suphsub") 7 [0xe2; 0xab; 0x97] 3;
  mkEntity (bytes "suplarr") 7 [0xe2; 0xa5; 0xbb] 3;
  mkEntity (bytes "supmult") 7 [0xe2; 0xab; 0x82] 3;
  mkEntity (bytes "supnE") 5 [0xe2; 0xab; 0x8c] 3;
  mkEntity (bytes "supne") 5 [0xe2; 0x8a; 0x8b] 3;
  mkEntity (bytes "supplus") 7 [0xe2; 0xab; 0x80] 3;
  mkEntity (bytes "supset") 6 [0xe2; 0x8a; 0x83] 3;
  mkEntity (bytes "supseteq") 8 [0xe2; 0x8a; 0x87] 3;
  mkEntity (bytes "supseteqq") 9 [0xe2; 0xab; 0x86] 3;
  mkEntity (bytes "supsetneq") 9 [0xe2; 0x8a; 0x8b] 3;
  mkEntity (bytes "supsetneqq") 10 [0xe2; 0xab; 0x8c] 3;
  mkEntity (bytes "supsim") 6 [0xe2; 0xab; 0x88] 3;
  mkEntity (bytes "supsub") 6 [0xe2; 0xab; 0x94] 3;
  mkEntity (bytes "supsup") 6 [0xe2; 0xab; 0x96] 3;
  mkEntity (bytes "swArr") 5 [0xe2; 0x87; 0x99] 3;
  mkEntity (bytes "swarhk") 6 [0xe2; 0xa4; 0xa6] 3;
  mkEntity (bytes "swarr") 5 [0xe2; 0x86; 0x99] 3;
  mkEntity (bytes "swarrow") 7 [0xe2; 0x86; 0x99] 3;
  mkEntity (bytes "swnwar") 6 [0xe2; 0xa4; 0xaa] 3;
  mkEntity (bytes "szlig") 5 [0xc3; 0x9f] 2
].

Definition entities_t : list namedEntity_t := [
  mkEntity (bytes "target") 6 [0xe2; 0x8c; 0x96] 3;
  mkEntity (bytes "tau") 3 [0xcf; 0x84] 2;
  mkEntity (bytes "tbrk") 4 [0xe2; 0x8e; 0xb4] 3;
  mkEntity (bytes "tcaron") 6 [0xc5; 0xa5] 2;
  mkEntity (bytes "tcedil") 6 [0xc5; 0xa3] 2;
  mkEntity (bytes "tcy") 3 [0xd1; 0x82] 2;
  mkEntity (bytes "tdot") 4 [0xe2; 0x83; 0x9b] 3;
  mkEntity (bytes "telrec") 6 [0xe2; 0x8c; 0x95] 3;
  mkEntity (bytes "tfr") 3 [0xf0; 0x9d; 0x94; 0xb1] 4;
  mkEntity (bytes "there4") 6 [0xe2; 0x88; 0xb4] 3;
  mkEntity (bytes "therefore") 9 [0xe2; 0x88; 0xb4] 3;
  mkEntity (bytes "theta") 5 [0xce; 0xb8] 2;
  mkEntity (bytes "thetasym") 8 [0xcf; 0x91] 2;
  mkEntity (bytes "thetav") 6 [0xcf; 0x91] 2;
  mkEntity (bytes "thickapprox") 11 [0xe2; 0x89; 0x88] 3;
  mkEntity (bytes "thicksim") 8 [0xe2; 0x88; 0xbc] 3;
  mkEntity (bytes "thinsp") 6 [0xe2; 0x80; 0x89] 3;
  mkEntity (bytes "thkap") 5 [0xe2; 0x89; 0x88] 3;
  mkEntity (bytes "thksim") 6 [0xe2; 0x88; 0xbc] 3;
  mkEntity (bytes "thorn") 5 [0xc3; 0xbe] 2;
  mkEntity (bytes "tilde") 5 [0xcb; 0x9c] 2;
  mkEntity (bytes "times") 5 [0xc3; 0x97] 2;
  mkEntity (bytes "timesb") 6 [0xe2; 0x8a; 0xa0] 3;
  mkEntity (bytes "timesbar") 8 [0xe2; 0xa8; 0xb1] 3;
  mkEntity (bytes "timesd") 6 [0xe2; 0xa8; 0xb0] 3;
  mkEntity (bytes "tint") 4 [0xe2; 0x88; 0xad] 3;
  mkEntity (bytes "toea") 4 [0xe2; 0xa4; 0xa8] 3;
  mkEntity (bytes "top") 3 [0xe2; 0x8a; 0xa4] 3;
  mkEntity (bytes "topbot") 6 [0xe2; 0x8c; 0xb6] 3;
  mkEntity (bytes "topcir") 6 [0xe2; 0xab; 0xb1] 3;
  mkEntity (bytes "topf") 4 [0xf0; 0x9d; 0x95; 0xa5] 4;
  mkEntity (bytes "topfork") 7 [0xe2; 0xab; 0x9a] 3;
  mkEntity (bytes "tosa") 4 [0xe2; 0xa4; 0xa9] 3;
  mkEntity (bytes "tprime") 6 [0xe2; 0x80; 0xb4] 3;
  mkEntity (bytes "trade") 5 [0xe2; 0x84; 0xa2] 3;
  mkEntity (bytes "triangle") 8 [0xe2; 0x96; 0xb5] 3;
  mkEntity (bytes "triangledown") 12 [0xe2; 0x96; 0xbf] 3;
  mkEntity (bytes "triangleleft") 12 [0xe2; 0x97; 0x83] 3;
  mkEntity (bytes "trianglelefteq") 14 [0xe2; 0x8a; 0xb4] 3;
  mkEntity (bytes "triangleq") 9 [0xe2; 0x89; 0x9c] 3;
  mkEntity (bytes "triangleright") 13 [0xe2; 0x96; 0xb9] 3;
  mkEntity (bytes "trianglerighteq") 15 [0xe2; 0x8a; 0xb5] 3;
  mkEntity (bytes "tridot") 6 [0xe2; 0x97; 0xac] 3;
  mkEntity (bytes "trie") 4 [0xe2; 0x89; 0x9c] 3;
  mkEntity (bytes "triminus") 8 [0xe2; 0xa8; 0xba] 3;
  mkEntity (bytes "triplus") 7 [0xe2; 0xa8; 0xb9] 3;
  mkEntity (bytes "trisb") 5 [0xe2; 0xa7; 0x8d] 3;
  mkEntity (bytes "tritime") 7 [0xe2; 0xa8; 0xbb] 3;
  mkEntity (bytes "trpezium") 8 [0xe2; 0x8f; 0xa2] 3;
  mkEntity (bytes "tscr") 4 [0xf0; 0x9d; 0x93; 0x89] 4;
  mkEntity (bytes "tscy") 4 [0xd1; 0x86] 2;
  mkEntity (bytes "tshcy") 5 [0xd1; 0x9b] 2;
  mkEntity (bytes "tstrok") 6 [0xc5; 0xa7] 2;
  mkEntity (bytes "twixt") 5 [0xe2; 0x89; 0xac] 3;
  mkEntity (bytes "twoheadleftarrow") 16 [0xe2; 0x86; 0x9e] 3;
  mkEntity (bytes "twoheadrightarrow") 17 [0xe2; 0x86; 0xa0] 3
].

Definition entities_u : list namedEntity_t := [
  mkEntity (bytes "uArr") 4 [0xe2; 0x87; 0x91] 3;
  mkEntity (bytes "uHar") 4 [0xe2; 0xa5; 0xa3] 3;
  mkEntity (bytes "uacute") 6 [0xc3; 0xba] 2;
  mkEntity (bytes "uarr") 4 [0xe2; 0x86; 0x91] 3;
  mkEntity (bytes "ubrcy") 5 [0xd1; 0x9e] 2;
  mkEntity (bytes "ubreve") 6 [0xc5; 0xad] 2;
  mkEntity (bytes "ucirc") 5 [0xc3; 0xbb] 2;
  mkEntity (bytes "ucy") 3 [0xd1; 0x83] 2;
  mkEntity (bytes "udarr") 5 [0xe2; 0x87; 0x85] 3;
  mkEntity (bytes "udblac") 6 [0xc5; 0xb1] 2;
  mkEntity (bytes "udhar") 5 [0xe2; 0xa5; 0xae] 3;
  mkEntity (bytes "ufisht") 6 [0xe2; 0xa5; 0xbe] 3;
  mkEntity (bytes "ufr") 3 [0xf0; 0x9d; 0x94; 0xb2] 4;
  mkEntity (bytes "ugrave") 6 [0xc3; 0xb9] 2;
  mkEntity (bytes "uharl") 5 [0xe2; 0x86; 0xbf] 3;
  mkEntity (bytes "uharr") 5 [0xe2; 0x86; 0xbe] 3;
  mkEntity (bytes "uhblk") 5 [0xe2; 0x96; 0x80] 3;
  mkEntity (bytes "ulcorn") 6 [0xe2; 0x8c; 0x9c] 3;
  mkEntity (bytes "ulcorner") 8 [0xe2; 0x8c; 0x9c] 3;
  mkEntity (bytes "ulcrop") 6 [0xe2; 0x8c; 0x8f] 3;
  mkEntity (bytes "ultri") 5 [0xe2; 0x97; 0xb8] 3;
  mkEntity (bytes "umacr") 5 [0xc5; 0xab] 2;
  mkEntity (bytes "uml") 3 [0xc2; 0xa8] 2;
  mkEntity (bytes "uogon") 5 [0xc5; 0xb3] 2;
  mkEntity (bytes "uopf") 4 [0xf0; 0x9d; 0x95; 0xa6] 4;
  mkEntity (bytes "uparrow") 7 [0xe2; 0x86; 0x91] 3;
  mkEntity (bytes "updownarrow") 11 [0xe2; 0x86; 0x95] 3;
  mkEntity (bytes "upharpoonleft") 13 [0xe2; 0x86; 0xbf] 3;
  mkEntity (bytes "upharpoonright") 14 [0xe2; 0x86; 0xbe] 3;
  mkEntity (bytes "uplus") 5 [0xe2; 0x8a; 0x8e] 3;
  mkEntity (bytes "upsi") 4 [0xcf; 0x85] 2;
  mkEntity (bytes "upsih") 5 [0xcf; 0x92] 2;
  mkEntity (bytes "upsilon") 7 [0xcf; 0x85] 2;
  mkEntity (bytes "upuparrows") 10 [0xe2; 0x87; 0x88] 3;
  mkEntity (bytes "urcorn") 6 [0xe2; 0x8c; 0x9d] 3;
  mkEntity (bytes "urcorner") 8 [0xe2; 0x8c; 0x9d] 3;
  mkEntity (bytes "urcrop") 6 [0xe2; 0x8c; 0x8e] 3;
  mkEntity (bytes "uring") 5 [0xc5; 0xaf] 2;
  mkEntity (bytes "urtri") 5 [0xe2; 0x97; 0xb9] 3;
  mkEntity (bytes "uscr") 4 [0xf0; 0x9d; 0x93; 0x8a] 4;
  mkEntity (bytes "utdot") 5 [0xe2; 0x8b; 0xb0] 3;
  mkEntity (bytes "utilde") 6 [0xc5; 0xa9] 2;
  mkEntity (bytes "utri") 4 [0xe2; 0x96; 0xb5] 3;
  mkEntity (bytes "utrif") 5 [0xe2; 0x96; 0xb4] 3;
  mkEntity (bytes "uuarr") 5 [0xe2; 0x87; 0x88] 3;
  mkEntity (bytes "uuml") 4 [0xc3; 0xbc] 2;
  mkEntity (bytes "uwangle") 7 [0xe2; 0xa6; 0xa7] 3
].

Definition entities_v : list namedEntity_t := [
  mkEntity (bytes "vArr") 4 [0xe2; 0x87; 0x95] 3;
  mkEntity (bytes "vBar") 4 [0xe2; 0xab; 0xa8] 3;
  mkEntity (bytes "vBarv") 5 [0xe2; 0xab; 0xa9] 3;
  mkEntity (bytes "vDash") 5 [0xe2; 0x8a; 0xa8] 3;
  mkEntity (bytes "vangrt") 6 [0xe2; 0xa6; 0x9c] 3;
  mkEntity (bytes "varepsilon") 10 [0xcf; 0xb5] 2;
  mkEntity (bytes "varkappa") 8 [0xcf; 0xb0] 2;
  mkEntity (bytes "varnothing") 10 [0xe2; 0x88; 0x85] 3;
  mkEntity (bytes "varphi") 6 [0xcf; 0x95] 2;
  mkEntity (bytes "varpi") 5 [0xcf; 0x96] 2;
  mkEntity (bytes "varpropto") 9 [0xe2; 0x88; 0x9d] 3;
  mkEntity (bytes "varr") 4 [0xe2; 0x86; 0x95] 3;
  mkEntity (bytes "varrho") 6 [0xcf; 0xb1] 2;
  mkEntity (bytes "varsigma") 8 [0xcf; 0x82] 2;
  mkEntity (bytes "varsubsetneq") 12 [0xe2; 0x8a; 0x8a; 0xef; 0xb8; 0x80] 6;
  mkEntity (bytes "varsubsetneqq") 13 [0xe2; 0xab; 0x8b; 0xef; 0xb8; 0x80] 6;
  mkEntity (bytes "varsupsetneq") 12 [0xe2; 0x8a; 0x8b; 0xef; 0xb8; 0x80] 6;
  mkEntity (bytes "varsupsetneqq") 13 [0xe2; 0xab; 0x8c; 0xef; 0xb8; 0x80] 6;
  mkEntity (bytes "vartheta") 8 [0xcf; 0x91] 2;
  mkEntity (bytes "vartriangleleft") 15 [0xe2; 0x8a; 0xb2] 3;
  mkEntity (bytes "vartriangleright") 16 [0xe2; 0x8a; 0xb3] 3;
  mkEntity (bytes "vcy") 3 [0xd0; 0xb2] 2;
  mkEntity (bytes "vdash") 5 [0xe2; 0x8a; 0xa2] 3;
  mkEntity (bytes "vee") 3 [0xe2; 0x88; 0xa8] 3;
  mkEntity (bytes "veebar") 6 [0xe2; 0x8a; 0xbb] 3;
  mkEntity (bytes "veeeq") 5 [0xe2; 0x89; 0x9a] 3;
  mkEntity (bytes "vellip") 6 [0xe2; 0x8b; 0xae] 3;
  mkEntity (bytes "verbar") 6 [0x7c] 1;
  mkEntity (bytes "vert") 4 [0x7c] 1;
  mkEntity (bytes "vfr") 3 [0xf0; 0x9d; 0x94; 0xb3] 4;
  mkEntity (bytes "vltri") 5 [0xe2; 0x8a; 0xb2] 3;
  mkEntity (bytes "vnsub") 5 [0xe2; 0x8a; 0x82; 0xe2; 0x83; 0x92] 6;
  mkEntity (bytes "vnsup") 5 [0xe2; 0x8a; 0x83; 0xe2; 0x83; 0x92] 6;
  mkEntity (bytes "vopf") 4 [0xf0; 0x9d; 0x95; 0xa7] 4;
  mkEntity (bytes "vprop") 5 [0xe2; 0x88; 0x9d] 3;
  mkEntity (bytes "vrtri") 5 [0xe2; 0x8a; 0xb3] 3;
  mkEntity (bytes "vscr") 4 [0xf0; 0x9d; 0x93; 0x8b] 4;
  mkEntity (bytes "vsubnE") 6 [0xe2; 0xab; 0x8b; 0xef; 0xb8; 0x80] 6;
  mkEntity (bytes "vsubne") 6 [0xe2; 0x8a; 0x8a; 0xef; 0xb8; 0x80] 6;
  mkEntity (bytes "vsupnE") 6 [0xe2; 0xab; 0x8c; 0xef; 0xb8; 0x80] 6;
  mkEntity (bytes "vsupne") 6 [0xe2; 0x8a; 0x8b; 0xef; 0xb8; 0x80] 6;
  mkEntity (bytes "vzigzag") 7 [0xe2; 0xa6; 0x9a] 3
].

Definition entities_w : list namedEntity_t := [
  mkEntity (bytes "wcirc") 5 [0xc5; 0xb5] 2;
  mkEntity (bytes "wedbar") 6 [0xe2; 0xa9; 0x9f] 3;
  mkEntity (bytes "wedge") 5 [0xe2; 0x88; 0xa7] 3;
  mkEntity (bytes "wedgeq") 6 [0xe2; 0x89; 0x99] 3;
  mkEntity (bytes "weierp") 6 [0xe2; 0x84; 0x98] 3;
  mkEntity (bytes "wfr") 3 [0xf0; 0x9d; 0x94; 0xb4] 4;
  mkEntity (bytes "wopf") 4 [0xf0; 0x9d; 0x95; 0xa8] 4;
  mkEntity (bytes "wp") 2 [0xe2; 0x84; 0x98] 3;
  mkEntity (bytes "wr") 2 [0xe2; 0x89; 0x80] 3;
  mkEntity (bytes "wreath") 6 [0xe2; 0x89; 0x80] 3;
  mkEntity (bytes "wscr") 4 [0xf0; 0x9d; 0x93; 0x8c] 4
].

Definition entities_x : list namedEntity_t := [
  mkEntity (bytes "xcap") 4 [0xe2; 0x8b; 0x82] 3;
  mkEntity (bytes "xcirc") 5 [0xe2; 0x97; 0xaf] 3;
  mkEntity (bytes "xcup") 4 [0xe2; 0x8b; 0x83] 3;
  mkEntity (bytes "xdtri") 5 [0xe2; 0x96; 0xbd] 3;
  mkEntity (bytes "xfr") 3 [0xf0; 0x9d; 0x94; 0xb5] 4;
  mkEntity (bytes "xhArr") 5 [0xe2; 0x9f; 0xba] 3;
  mkEntity (bytes "xharr") 5 [0xe2; 0x9f; 0xb7] 3;
  mkEntity (bytes "xi") 2 [0xce; 0xbe] 2;
  mkEntity (bytes "xlArr") 5 [0xe2; 0x9f; 0xb8] 3;
  mkEntity (bytes "xlarr") 5 [0xe2; 0x9f; 0xb5] 3;
  mkEntity (bytes "xmap") 4 [0xe2; 0x9f; 0xbc] 3;
  mkEntity (bytes "xnis") 4 [0xe2; 0x8b; 0xbb] 3;
  mkEntity (bytes "xodot") 5 [0xe2; 0xa8; 0x80] 3;
  mkEntity (bytes "xopf") 4 [0xf0; 0x9d; 0x95; 0xa9] 4;
  mkEntity (bytes "xoplus") 6 [0xe2; 0xa8; 0x81] 3;
  mkEntity (bytes "xotime") 6 [0xe2; 0xa8; 0x82] 3;
  mkEntity (bytes "xrArr") 5 [0xe2; 0x9f; 0xb9] 3;
  mkEntity (bytes "xrarr") 5 [0xe2; 0x9f; 0xb6] 3;
  mkEntity (bytes "xscr") 4 [0xf0; 0x9d; 0x93; 0x8d] 4;
  mkEntity (bytes "xsqcup") 6 [0xe2; 0xa8; 0x86] 3;
  mkEntity (bytes "xuplus") 6 [0xe2; 0xa8; 0x84] 3;
  mkEntity (bytes "xutri") 5 [0xe2; 0x96; 0xb3] 3;
  mkEntity (bytes "xvee") 4 [0xe2; 0x8b; 0x81] 3;
  mkEntity (bytes "xwedge") 6 [0xe2; 0x8b; 0x80] 3
].

Definition entities_y : list namedEntity_t := [
  mkEntity (bytes "yacute") 6 [0xc3; 0xbd] 2;
  mkEntity (bytes "yacy") 4 [0xd1; 0x8f] 2;
  mkEntity (bytes "ycirc") 5 [0xc5; 0xb7] 2;
  mkEntity (bytes "ycy") 3 [0xd1; 0x8b] 2;
  mkEntity (bytes "yen") 3 [0xc2; 0xa5] 2;
  mkEntity (bytes "yfr") 3 [0xf0; 0x9d; 0x94; 0xb6] 4;
  mkEntity (bytes "yicy") 4 [0xd1; 0x97] 2;
  mkEntity (bytes "yopf") 4 [0xf0; 0x9d; 0x95; 0xaa] 4;
  mkEntity (bytes "yscr") 4 [0xf0; 0x9d; 0x93; 0x8e] 4;
  mkEntity (bytes "yucy") 4 [0xd1; 0x8e] 2;
  mkEntity (bytes "yuml") 4 [0xc3; 0xbf] 2
].

Definition entities_z : list namedEntity_t := [
  mkEntity (bytes "zacute") 6 [0xc5; 0xba] 2;
  mkEntity (bytes "zcaron") 6 [0xc5; 0xbe] 2;
  mkEntity (bytes "zcy") 3 [0xd0; 0xb7] 2;
  mkEntity (bytes "zdot") 4 [0xc5; 0xbc] 2;
  mkEntity (bytes "zeetrf") 6 [0xe2; 0x84; 0xa8] 3;
  mkEntity (bytes "zeta") 4 [0xce; 0xb6] 2;
  mkEntity (bytes "zfr") 3 [0xf0; 0x9d; 0x94; 0xb7] 4;
  mkEntity (bytes "zhcy") 4 [0xd0; 0xb6] 2;
  mkEntity (bytes "zigrarr") 7 [0xe2; 0x87; 0x9d] 3;
  mkEntity (bytes "zopf") 4 [0xf0; 0x9d; 0x95; 0xab] 4;
  mkEntity (bytes "zscr") 4 [0xf0; 0x9d; 0x93; 0x8f] 4;
  mkEntity (bytes "zwj") 3 [0xe2; 0x80; 0x8d] 3;
  mkEntity (bytes "zwnj") 4 [0xe2; 0x80; 0x8c] 3
].

Definition namedEntities : list namedEntity_t := mjoin [
  entities_A; entities_B; entities_C; entities_D; entities_E; entities_F; entities_G; entities_H;
  entities_I; entities_J; entities_K; entities_L; entities_M; entities_N; entities_O; entities_P;
  entities_Q; entities_R; entities_S; entities_T; entities_U; entities_V; entities_W; entities_X;
  entities_Y; entities_Z; entities_a; entities_b; entities_c; entities_d; entities_e; entities_f;
  entities_g; entities_h; entities_i; entities_j; entities_k; entities_l; entities_m; entities_n;
  entities_o; entities_p; entities_q; entities_r; entities_s; entities_t; entities_u; entities_v;
  entities_w; entities_x; entities_y; entities_z
].

Definition namedLegacyEntities : list namedEntity_t := [
  mkEntity (bytes "AElig") 5 [0xc3; 0x86] 2;
  mkEntity (bytes "AMP") 3 [0x26] 1;
  mkEntity (bytes "Aacute") 6 [0xc3; 0x81] 2;
  mkEntity (bytes "Acirc") 5 [0xc3; 0x82] 2;
  mkEntity (bytes "Agrave") 6 [0xc3; 0x80] 2;
  mkEntity (bytes "Aring") 5 [0xc3; 0x85] 2;
  mkEntity (bytes "Atilde") 6 [0xc3; 0x83] 2;
  mkEntity (bytes "Auml") 4 [0xc3; 0x84] 2;
  mkEntity (bytes "COPY") 4 [0xc2; 0xa9] 2;
  mkEntity (bytes "Ccedil") 6 [0xc3; 0x87] 2;
  mkEntity (bytes "ETH") 3 [0xc3; 0x90] 2;
  mkEntity (bytes "Eacute") 6 [0xc3; 0x89] 2;
  mkEntity (bytes "Ecirc") 5 [0xc3; 0x8a] 2;
  mkEntity (bytes "Egrave") 6 [0xc3; 0x88] 2;
  mkEntity (bytes "Euml") 4 [0xc3; 0x8b] 2;
  mkEntity (bytes "GT") 2 [0x3e] 1;
  mkEntity (bytes "Iacute") 6 [0xc3; 0x8d] 2;
  mkEntity (bytes "Icirc") 5 [0xc3; 0x8e] 2;
  mkEntity (bytes "Igrave") 6 [0xc3; 0x8c] 2;
  mkEntity (bytes "Iuml") 4 [0xc3; 0x8f] 2;
  mkEntity (bytes "LT") 2 [0x3c] 1;
  mkEntity (bytes "Ntilde") 6 [0xc3; 0x91] 2;
  mkEntity (bytes "Oacute") 6 [0xc3; 0x93] 2;
  mkEntity (bytes "Ocirc") 5 [0xc3; 0x94] 2;
  mkEntity (bytes "Ograve") 6 [0xc3; 0x92] 2;
  mkEntity (bytes "Oslash") 6 [0xc3; 0x98] 2;
  mkEntity (bytes "Otilde") 6 [0xc3; 0x95] 2;
  mkEntity (bytes "Ouml") 4 [0xc3; 0x96] 2;
  mkEntity (bytes "QUOT") 4 [0x22] 1;
  mkEntity (bytes "REG") 3 [0xc2; 0xae] 2;
  mkEntity (bytes "THORN") 5 [0xc3; 0x9e] 2;
  mkEntity (bytes "Uacute") 6 [0xc3; 0x9a] 2;
  mkEntity (bytes "Ucirc") 5 [0xc3; 0x9b] 2;
  mkEntity (bytes "Ugrave") 6 [0xc3; 0x99] 2;
  mkEntity (bytes "Uuml") 4 [0xc3; 0x9c] 2;
  mkEntity (bytes "Yacute") 6 [0xc3; 0x9d] 2;
  mkEntity (bytes "aacute") 6 [0xc3; 0xa1] 2;
  mkEntity (bytes "acirc") 5 [0xc3; 0xa2] 2;
  mkEntity (bytes "acute") 5 [0xc2; 0xb4] 2;
  mkEntity (bytes "aelig") 5 [0xc3; 0xa6] 2;
  mkEntity (bytes "agrave") 6 [0xc3; 0xa0] 2;
  mkEntity (bytes "amp") 3 [0x26] 1;
  mkEntity (bytes "aring") 5 [0xc3; 0xa5] 2;
  mkEntity (bytes "atilde") 6 [0xc3; 0xa3] 2;
  mkEntity (bytes "auml") 4 [0xc3; 0xa4] 2;
  mkEntity (bytes "brvbar") 6 [0xc2; 0xa6] 2;
  mkEntity (bytes "ccedil") 6 [0xc3; 0xa7] 2;
  mkEntity (bytes "cedil") 5 [0xc2; 0xb8] 2;
  mkEntity (bytes "cent") 4 [0xc2; 0xa2] 2;
  mkEntity (bytes "copy") 4 [0xc2; 0xa9] 2;
  mkEntity (bytes "curren") 6 [0xc2; 0xa4] 2;
  mkEntity (bytes "deg") 3 [0xc2; 0xb0] 2;
  mkEntity (bytes "divide") 6 [0xc3; 0xb7] 2;
  mkEntity (bytes "eacute") 6 [0xc3; 0xa9] 2;
  mkEntity (bytes "ecirc") 5 [0xc3; 0xaa] 2;
  mkEntity (bytes "egrave") 6 [0xc3; 0xa8] 2;
  mkEntity (bytes "eth") 3 [0xc3; 0xb0] 2;
  mkEntity (bytes "euml") 4 [0xc3; 0xab] 2;
  mkEntity (bytes "frac12") 6 [0xc2; 0xbd] 2;
  mkEntity (bytes "frac14") 6 [0xc2; 0xbc] 2;
  mkEntity (bytes "frac34") 6 [0xc2; 0xbe] 2;
  mkEntity (bytes "gt") 2 [0x3e] 1;
  mkEntity (bytes "iacute") 6 [0xc3; 0xad] 2;
  mkEntity (bytes "icirc") 5 [0xc3; 0xae] 2;
  mkEntity (bytes "iexcl") 5 [0xc2; 0xa1] 2;
  mkEntity (bytes "igrave") 6 [0xc3; 0xac] 2;
  mkEntity (bytes "iquest") 6 [0xc2; 0xbf] 2;
  mkEntity (bytes "iuml") 4 [0xc3; 0xaf] 2;
  mkEntity (bytes "laquo") 5 [0xc2; 0xab] 2;
  mkEntity (bytes "lt") 2 [0x3c] 1;
  mkEntity (bytes "macr") 4 [0xc2; 0xaf] 2;
  mkEntity (bytes "micro") 5 [0xc2; 0xb5] 2;
  mkEntity (bytes "middot") 6 [0xc2; 0xb7] 2;
  mkEntity (bytes "nbsp") 4 [0xc2; 0xa0] 2;
  mkEntity (bytes "not") 3 [0xc2; 0xac] 2;
  mkEntity (bytes "ntilde") 6 [0xc3; 0xb1] 2;
  mkEntity (bytes "oacute") 6 [0xc3; 0xb3] 2;
  mkEntity (bytes "ocirc") 5 [0xc3; 0xb4] 2;
  mkEntity (bytes "ograve") 6 [0xc3; 0xb2] 2;
  mkEntity (bytes "ordf") 4 [0xc2; 0xaa] 2;
  mkEntity (bytes "ordm") 4 [0xc2; 0xba] 2;
  mkEntity (bytes "oslash") 6 [0xc3; 0xb8] 2;
  mkEntity (bytes "otilde") 6 [0xc3; 0xb5] 2;
  mkEntity (bytes "ouml") 4 [0xc3; 0xb6] 2;
  mkEntity (bytes "para") 4 [0xc2; 0xb6] 2;
  mkEntity (bytes "plusmn") 6 [0xc2; 0xb1] 2;
  mkEntity (bytes "pound") 5 [0xc2; 0xa3] 2;
  mkEntity (bytes "quot") 4 [0x22] 1;
  mkEntity (bytes "raquo") 5 [0xc2; 0xbb] 2;
  mkEntity (bytes "reg") 3 [0xc2; 0xae] 2;
  mkEntity (bytes "sect") 4 [0xc2; 0xa7] 2;
  mkEntity (bytes "shy") 3 [0xc2; 0xad] 2;
  mkEntity (bytes "sup1") 4 [0xc2; 0xb9] 2;
  mkEntity (bytes "sup2") 4 [0xc2; 0xb2] 2;
  mkEntity (bytes "sup3") 4 [0xc2; 0xb3] 2;
  mkEntity (bytes "szlig") 5 [0xc3; 0x9f] 2;
  mkEntity (bytes "thorn") 5 [0xc3; 0xbe] 2;
  mkEntity (bytes "times") 5 [0xc3; 0x97] 2;
  mkEntity (bytes "uacute") 6 [0xc3; 0xba] 2;
  mkEntity (bytes "ucirc") 5 [0xc3; 0xbb] 2;
  mkEntity (bytes "ugrave") 6 [0xc3; 0xb9] 2;
  mkEntity (bytes "uml") 3 [0xc2; 0xa8] 2;
  mkEntity (bytes "uuml") 4 [0xc3; 0xbc] 2;
  mkEntity (bytes "yacute") 6 [0xc3; 0xbd] 2;
  mkEntity (bytes "yen") 3 [0xc2; 0xa5] 2;
  mkEntity (bytes "yuml") 4 [0xc3; 0xbf] 2
].
