(* ===== verification/Html.v ===== *)
(** * Html: quoting, entities and tags of HTML (nsd/quotehtml.c).

    Strings are C strings, pointers into them are the rest of the string from there.
    [EntityDecode] gives the bytes of an entity, whether they need encoding, and where the
    caller goes on, if it moved there.  The conversion of the result when it needs encoding is
    Tcl's and not part of the results here; they have the bytes before it and the flag.  A
    pointer that passes the NUL and an entity with more bytes than its caller made room for are
    faults.  The theorems: quoting is undone by ns_unquotehtml and leaves no markup,
    the index of first characters finds what a search of the whole table finds, both loops end
    within the string and the room on every input, and ns_striphtml gives the texts of a page. *)

From S2P Require Import Prelude Str Utf8 HtmlEntities.

(** ** Quoting *)

Definition htmlQuoteChars : list Z := [60; 62; 38; 39; 34].

Definition quote_char (c : Z) : list Z :=
  match c with
  | 60 => bytes "&lt;"
  | 62 => bytes "&gt;"
  | 38 => bytes "&amp;"
  | 39 => bytes "&#39;"
  | 34 => bytes "&#34;"
  | _ => []
  end.

(** [QuoteHtml], from the search for the next character that is quoted. *)
Fixpoint quote_loop (fuel : nat) (ds toProcess : list Z) : option (list Z) :=
  match fuel with
  | O => None
  | S fuel =>
      match strpbrk htmlQuoteChars toProcess with
      | (prefix, []) => Some (ds ++ prefix)
      | (prefix, c :: rest) => quote_loop fuel (ds ++ prefix ++ quote_char c) rest
      end
  end.

Definition Ns_QuoteHtml (ds htmlString : list Z) : option (list Z) :=
  match htmlString with
  | [] => Some ds
  | _ =>
      match strpbrk htmlQuoteChars htmlString with
      | (_, []) => Some (ds ++ htmlString)
      | _ => quote_loop (S (length htmlString)) ds htmlString
      end
  end.

(** The result of ns_quotehtml. *)
Definition NsTclQuoteHtmlObjCmd (htmlString : list Z) : option (list Z) :=
  match htmlString with
  | [] => Some []
  | _ =>
      match strpbrk htmlQuoteChars htmlString with
      | (_, []) => Some htmlString
      | _ => quote_loop (S (length htmlString)) [] htmlString
      end
  end.

(** ** Entities *)

Fixpoint word_length (word : list Z) : nat :=
  match word with c :: word => if (c =? 32) || (c =? 59) || (c =? 38) then O else S (word_length word) | [] => O end.

Definition WordEndsInSemi (word : list Z) : Z * bool :=
  let word := match word with c :: w => if c =? 38 then w else word | [] => word end in
  let n := word_length word in
  (Z.of_nat n, match drop n word with c :: _ => c =? 59 | [] => false end).

Definition chr_at (s : list Z) (i : nat) : Z := default 0 (s !! i).

Fixpoint init_loop (i : nat) (lastChar : Z) (t : list namedEntity_t) (idx : gmap Z nat) : gmap Z nat :=
  match t with
  | [] => idx
  | e :: t =>
      let firstChar := chr_at (name e) 0 in
      if lastChar =? firstChar then init_loop (S i) lastChar t idx else init_loop (S i) firstChar t (<[firstChar := S i]> idx)
  end.

(** The tables that [InitOnce] fills. *)
Definition entityIndexTable : gmap Z nat := init_loop 0 0 namedEntities ∅.
Definition legacyEntityIndexTable : gmap Z nat := init_loop 0 0 namedLegacyEntities ∅.

Definition strncmp_eq (a b : list Z) (n : Z) : bool := bool_decide (take (Z.to_nat n) a = take (Z.to_nat n) b).

Fixpoint named_loop (entity : list Z) (len : Z) (t : list namedEntity_t) : option namedEntity_t :=
  match t with
  | [] => None
  | e :: t =>
      if chr_at entity 0 =? chr_at (name e) 0 then
        if (len =? ent_length e) && (chr_at entity 1 =? chr_at (name e) 1) && strncmp_eq entity (name e) len then Some e
        else named_loop entity len t
      else None
  end.

Fixpoint legacy_loop (entity : list Z) (len : Z) (t : list namedEntity_t) : option namedEntity_t :=
  match t with
  | [] => None
  | e :: t =>
      if chr_at entity 0 =? chr_at (name e) 0 then
        if (ent_length e <=? len) && (chr_at entity 1 =? chr_at (name e) 1) && strncmp_eq entity (name e) (ent_length e) then Some e
        else legacy_loop entity len t
      else None
  end.

Definition output (e : namedEntity_t) : list Z := take (Z.to_nat (outputLength e)) (value e).

(** The value of a numeric entity; 0 if it is invalid. *)
Definition numeric_value (entity : list Z) (length : Z) : outcome Z :=
  dec ← (if isdigit (chr_at entity 1) then Ns_StrToULongNStrict (drop 1 entity) (length - 1) 10 else Ret None);
  match dec with
  | Some v => Ret v
  | None =>
      hex ← (if (chr_at entity 1 =? 120) && (3 <=? length) && (length <=? 8) then Ns_StrToULongNStrict (drop 2 entity) (length - 2) 16 else Ret None);
      Ret (match hex with Some v => v | None => 0 end)
  end.

(** [Fatal] is a failing assertion. *)
Definition EntityDecode (entity : list Z) (length : Z) : outcome (list Z * bool * option (list Z)) :=
  if negb (length =? 0) && (chr_at entity 0 =? 0) then Fatal
  else if (chr_at entity 0 =? 35) && (0 <? length) then
    value ← numeric_value entity length;
    let toParse := Some (drop (Z.to_nat length) entity) in
    Ret (if (32 <=? value) && (value <=? 0x10FFFF) then
           let decoded := Ns_Utf8FromCodePoint value in
           (decoded, negb (bool_decide (decoded = [])) && (127 <? value), toParse)
         else ([], false, toParse))
  else
    let i := default O (entityIndexTable !! chr_at entity 0) in
    if (0 <? length) && (0 <? i)%nat then
      Ret (match named_loop entity length (drop (i - 1) namedEntities) with
           | Some e => (output e, false, Some (drop (Z.to_nat length) entity))
           | None => ([], false, None)
           end)
    else
      let i := default O (legacyEntityIndexTable !! chr_at entity 0) in
      if (0 <? i)%nat then
        if length <? 0 then
          Ret (match legacy_loop entity (- length) (drop (i - 1) namedLegacyEntities) with
               | Some e => (output e, false, Some (drop (Z.to_nat (ent_length e) - 1) entity))
               | None => ([], false, None)
               end)
        else Fatal
      else Ret ([], false, None).

(** A call of [EntityDecode] with [room] bytes behind [outPtr]. *)
Definition decode_into (room : nat) (entity : list Z) (length : Z) : outcome (list Z * bool * option (list Z)) :=
  '(dec, enc, tp) ← EntityDecode entity length;
  if (List.length dec <=? room)%nat then Ret (dec, enc, tp) else Fault.

(** An entity behind the "&" at [amp]: with a semicolon, and if this gives nothing, without.  [second]
    is the "&" of the second attempt. *)
Definition decode_at (room : nat) (amp : list Z) (second : list Z -> list Z) : outcome (list Z * bool * list Z) :=
  let '(n, semi) := WordEndsInSemi amp in
  '(dec, enc, hs) ← (if semi then '(dec, enc, tp) ← decode_into room (drop 1 amp) n; Ret (dec, enc, default amp tp) else Ret ([], false, amp));
  if bool_decide (dec = []) then
    let entity := drop 1 (second hs) in
    '(dec, enc2, tp) ← decode_into room entity (- Z.of_nat (length entity));
    Ret (dec, enc || enc2, default hs tp)
  else Ret (dec, enc, hs).

(** [htmlString++] *)
Definition next_char (s : list Z) : outcome (list Z) := match s with [] => Fault | _ :: s => Ret s end.

Fixpoint unquote_loop (fuel : nat) (ds htmlString : list Z) (needEncode : bool) : outcome (list Z * bool) :=
  match fuel with
  | O => Fault
  | S fuel =>
      match strpbrk [38] htmlString with
      | (_, []) => Ret (ds ++ htmlString, needEncode)
      | (prefix, amp) =>
          '(dec, enc, hs) ← decode_at 8 amp (fun _ => amp);
          hs ← next_char hs;
          unquote_loop fuel (ds ++ prefix ++ (if bool_decide (dec = []) then [38] else dec)) hs (needEncode || enc)
      end
  end.

Definition NsTclUnquoteHtmlObjCmd (htmlString : list Z) : outcome (list Z * bool) := unquote_loop (S (length htmlString)) [] htmlString false.

(** ** Stripping tags *)

Definition starts (w s : list Z) : bool := bool_decide (take (length w) s = w).

Fixpoint strip_loop (fuel : nat) (out inPtr : list Z) (intag incomment needEncode : bool) : outcome (list Z * bool) :=
  match inPtr with
  | [] => Ret (out, needEncode)
  | c :: rest =>
      match fuel with
      | O => Fault
      | S fuel =>
          if c =? 60 then strip_loop fuel out rest true (incomment || starts [60; 33; 45; 45] inPtr) needEncode
          else if incomment then strip_loop fuel out rest intag (negb (starts [45; 45; 62] inPtr)) needEncode
          else if intag && (c =? 62) then strip_loop fuel out rest false incomment needEncode
          else if negb intag then
            if c =? 38 then
              '(dec, enc, hs) ← decode_at 6 inPtr (fun hs => hs);
              hs ← next_char hs;
              strip_loop fuel (out ++ (if bool_decide (dec = []) then [38] else dec)) hs intag incomment (needEncode || enc)
            else strip_loop fuel (out ++ [c]) rest intag incomment needEncode
          else strip_loop fuel out rest intag incomment needEncode
      end
  end.

Definition NsTclStripHtmlObjCmd (htmlString : list Z) : outcome (list Z * bool) := strip_loop (length htmlString) [] htmlString false false false.

(** ** Quoting: lemmas *)

Definition special (c : Z) : bool := existsb (Z.eqb c) htmlQuoteChars.
Definition quote1 (c : Z) : list Z := if special c then quote_char c else [c].

Lemma quote1_plain p : Forall (fun c => special c = false) p -> concat (quote1 <$> p) = p.
Proof. induction 1 as [|c p Hc _ IH]; [done|]. cbn [fmap list_fmap concat]. unfold quote1 at 1. by rewrite Hc, IH. Qed.

Lemma quote_loop_spec fuel ds s : (length s < fuel)%nat -> quote_loop fuel ds s = Some (ds ++ concat (quote1 <$> s)).
Proof.
  revert ds s. induction fuel as [|fuel IH]; intros ds s Hf; [lia|]. cbn [quote_loop].
  pose proof (strpbrk_spec htmlQuoteChars s) as H. destruct (strpbrk htmlQuoteChars s) as [p [|c q]]; destruct H as (-> & Hp & Hq).
  - by rewrite app_nil_r, quote1_plain.
  - rewrite IH by lens. rewrite fmap_app, concat_app, (quote1_plain p) by done. cbn [fmap list_fmap concat].
    unfold quote1 at 2, special. by rewrite Hq, !app_assoc.
Qed.

Lemma no_quote s p : strpbrk htmlQuoteChars s = (p, []) -> concat (quote1 <$> s) = s.
Proof. intros E. pose proof (strpbrk_spec htmlQuoteChars s) as H. rewrite E in H. destruct H as (-> & Hp & _). rewrite app_nil_r. by apply quote1_plain. Qed.

Lemma QuoteHtml_spec ds s : Ns_QuoteHtml ds s = Some (ds ++ concat (quote1 <$> s)).
Proof.
  unfold Ns_QuoteHtml. destruct s as [|c s]; [by rewrite app_nil_r|]. destruct (strpbrk _ _) as [p [|d q]] eqn:E.
  - by rewrite (no_quote _ _ E).
  - apply quote_loop_spec. lia.
Qed.

Lemma QuoteHtmlObjCmd_spec s : NsTclQuoteHtmlObjCmd s = Some (concat (quote1 <$> s)).
Proof.
  unfold NsTclQuoteHtmlObjCmd. destruct s as [|c s]; [done|]. destruct (strpbrk _ _) as [p [|d q]] eqn:E.
  - by rewrite (no_quote _ _ E).
  - rewrite quote_loop_spec; [done|lia].
Qed.

Lemma quote1_cases c : (c = 60 \/ c = 62 \/ c = 38 \/ c = 39 \/ c = 34) \/ (quote1 c = [c] /\ c <> 60 /\ c <> 62 /\ c <> 38 /\ c <> 39 /\ c <> 34).
Proof. unfold quote1, special. cbn. zcases; try (right; split; [done|lia]); left; lia. Qed.

Lemma special_cases c : special c = true -> c = 60 \/ c = 62 \/ c = 38 \/ c = 39 \/ c = 34.
Proof. unfold special. cbn. lia. Qed.

(** ** Entities: lemmas *)

Lemma StrToULong_app w r base : Ns_StrToULongNStrict (w ++ r) (Z.of_nat (length w)) base = Ns_StrToULongNStrict w (Z.of_nat (length w)) base.
Proof.
  unfold Ns_StrToULongNStrict. rewrite (aslice_prefix w r) by done.
  pose proof (aslice_prefix w [] _ eq_refl) as H. rewrite app_nil_r in H. by rewrite H.
Qed.

Lemma EntityDecode_numeric entity n : chr_at entity 0 = 35 -> 0 < n ->
  EntityDecode entity n =
    (v ← numeric_value entity n;
     Ret (if (32 <=? v) && (v <=? 0x10FFFF) then (Ns_Utf8FromCodePoint v, negb (bool_decide (Ns_Utf8FromCodePoint v = [])) && (127 <? v), Some (drop (Z.to_nat n) entity))
          else ([], false, Some (drop (Z.to_nat n) entity)))).
Proof. intros H Hn. unfold EntityDecode. rewrite H, (proj2 (Z.ltb_lt 0 n) Hn), andb_false_r. done. Qed.

(** The entity of a quoted character is read back to it, whatever follows. *)
Lemma decode_lt r : EntityDecode (108 :: 116 :: 59 :: r) 2 = Ret ([60], false, Some (59 :: r)).
Proof. vm_compute. reflexivity. Qed.
Lemma decode_gt r : EntityDecode (103 :: 116 :: 59 :: r) 2 = Ret ([62], false, Some (59 :: r)).
Proof. vm_compute. reflexivity. Qed.
Lemma decode_amp r : EntityDecode (97 :: 109 :: 112 :: 59 :: r) 3 = Ret ([38], false, Some (59 :: r)).
Proof. vm_compute. reflexivity. Qed.

Lemma decode_decimal w r : isdigit (chr_at w 0) = true ->
  EntityDecode (35 :: w ++ r) (1 + Z.of_nat (length w)) =
    (dec ← Ns_StrToULongNStrict w (Z.of_nat (length w)) 10;
     let v := default 0 dec in
     Ret (if (32 <=? v) && (v <=? 0x10FFFF) then (Ns_Utf8FromCodePoint v, negb (bool_decide (Ns_Utf8FromCodePoint v = [])) && (127 <? v), Some r)
          else ([], false, Some r))).
Proof.
  intros Hd. destruct w as [|a w]; [done|]. cbn in Hd. rewrite EntityDecode_numeric by (cbn; lia || done).
  assert (chr_at (35 :: (a :: w) ++ r) 1 = a) as Ha by done. unfold numeric_value. rewrite Ha, Hd.
  replace (1 + Z.of_nat (length (a :: w)) - 1) with (Z.of_nat (length (a :: w))) by lia. change (drop 1 (35 :: (a :: w) ++ r)) with ((a :: w) ++ r). rewrite StrToULong_app.
  replace (Z.to_nat (1 + Z.of_nat (length (a :: w)))) with (S (length (a :: w))) by lia. change (drop (S (length (a :: w))) (35 :: (a :: w) ++ r)) with (drop (length (a :: w)) ((a :: w) ++ r)). rewrite drop_app_length.
  assert ((a =? 120) = false) as -> by (unfold isdigit in Hd; zcases; lia || done).
  destruct (Ns_StrToULongNStrict (a :: w) _ _) as [[v|]| |]; done.
Qed.

Lemma decode_quoted c r second room : (1 <= room)%nat -> special c = true ->
  decode_at room (quote_char c ++ r) second = Ret ([c], false, 59 :: r).
Proof.
  intros Hr Hs. assert (c = 60 \/ c = 62 \/ c = 38 \/ c = 39 \/ c = 34) as H by by apply special_cases.
  destruct room as [|room]; [lia|]. unfold decode_at, decode_into, WordEndsInSemi. destruct H as [->|[->|[->|[->| ->]]]].
  - cbn -[EntityDecode]. by rewrite decode_lt.
  - cbn -[EntityDecode]. by rewrite decode_gt.
  - cbn -[EntityDecode]. by rewrite decode_amp.
  - change (quote_char 39) with [38; 35; 51; 57; 59]. pose proof (decode_decimal [51; 57] (59 :: r) eq_refl) as E. change (1 + _) with 3 in E. cbn [app] in E. cbn -[EntityDecode]. change (Z.of_nat 3) with 3. by rewrite E.
  - change (quote_char 34) with [38; 35; 51; 52; 59]. pose proof (decode_decimal [51; 52] (59 :: r) eq_refl) as E. change (1 + _) with 3 in E. cbn [app] in E. cbn -[EntityDecode]. change (Z.of_nat 3) with 3. by rewrite E.
Qed.

Lemma special_quote c : special c = true -> exists e, quote_char c = 38 :: e.
Proof. intros H. destruct (special_cases c H) as [->|[->|[->|[->| ->]]]]; eexists; reflexivity. Qed.

Lemma strpbrk_at set p c r : Forall (fun c => existsb (Z.eqb c) set = false) p -> existsb (Z.eqb c) set = true -> strpbrk set (p ++ c :: r) = (p, c :: r).
Proof. induction 1 as [|a p Ha _ IH]; intros Hc; cbn; [by rewrite Hc|]. by rewrite Ha, IH. Qed.

Lemma strpbrk_none set p : Forall (fun c => existsb (Z.eqb c) set = false) p -> strpbrk set p = (p, []).
Proof. induction 1 as [|a p Ha _ IH]; cbn; [done|]. by rewrite Ha, IH. Qed.

Lemma plain_amp p : Forall (fun c => special c = false) p -> Forall (fun c => existsb (Z.eqb c) [38] = false) p.
Proof. intros H. eapply Forall_impl; [exact H|]. unfold special. intros c. cbn. lia. Qed.

Lemma unquote_quoted fuel ds s enc : (length (concat (quote1 <$> s)) < fuel)%nat -> unquote_loop fuel ds (concat (quote1 <$> s)) enc = Ret (ds ++ s, enc).
Proof.
  revert ds s enc. induction fuel as [|fuel IH]; intros ds s enc Hf; [lia|].
  pose proof (strpbrk_spec htmlQuoteChars s) as H. destruct (strpbrk htmlQuoteChars s) as [p [|c q]]; destruct H as (-> & Hp & Hq).
  - rewrite app_nil_r, quote1_plain in * by done. cbn [unquote_loop]. by rewrite strpbrk_none by by apply plain_amp.
  - rewrite fmap_app, concat_app, (quote1_plain p) in * by done. cbn [fmap list_fmap concat] in *. unfold quote1 at 1 in Hf. unfold quote1 at 1.
    change (existsb (Z.eqb c) htmlQuoteChars) with (special c) in Hq. rewrite Hq in *. destruct (special_quote c Hq) as [e He].
    cbn [unquote_loop]. pose proof (decode_quoted c (concat (quote1 <$> q)) (fun _ => quote_char c ++ concat (quote1 <$> q)) 8 ltac:(lia) Hq) as Hd.
    rewrite He in *. cbn [app] in *. rewrite strpbrk_at by (done || by apply plain_amp). rewrite Hd.
    cbn [mbind outcome_bind next_char]. rewrite IH by lens. rewrite bool_decide_eq_false_2 by done. by rewrite orb_false_r, <- !app_assoc.
Qed.

(** ** The tables *)

Definition entity_ok (e : namedEntity_t) : Prop :=
  ent_length e = Z.of_nat (length (name e)) /\ 2 <= ent_length e /\ outputLength e = Z.of_nat (length (value e)) /\ 1 <= outputLength e <= 6 /\ chr_at (name e) 0 <> 0.

#[local] Instance entity_ok_dec e : Decision (entity_ok e).
Proof. unfold entity_ok. apply _. Defined.

Lemma entities_ok : Forall entity_ok namedEntities.
Proof. apply (bool_decide_eq_true_1 (Forall entity_ok namedEntities)). vm_compute. reflexivity. Qed.

Lemma legacy_ok : Forall entity_ok namedLegacyEntities.
Proof. apply (bool_decide_eq_true_1 (Forall entity_ok namedLegacyEntities)). vm_compute. reflexivity. Qed.

(** Every character with legacy entities has entities with a semicolon. *)
Lemma index_legacy c : entityIndexTable !! c = None -> legacyEntityIndexTable !! c = None.
Proof.
  intros H. apply not_elem_of_dom. apply not_elem_of_dom in H. intros Hl. apply H.
  assert (dom legacyEntityIndexTable ⊆ dom entityIndexTable) as Hs; [|by apply Hs].
  apply (bool_decide_eq_true_1 (dom legacyEntityIndexTable ⊆ dom entityIndexTable)). vm_compute. reflexivity.
Qed.

Lemma index_positive c i : entityIndexTable !! c = Some i -> i <> O.
Proof.
  assert (map_Forall (fun _ j => j <> O) entityIndexTable) as T; [|apply T].
  apply (bool_decide_eq_true_1 (map_Forall (fun _ j => j <> O) entityIndexTable)). vm_compute. reflexivity.
Qed.

(** The entities from the index of a character on, up to the first with another character. *)
Fixpoint block (c : Z) (t : list namedEntity_t) : list namedEntity_t :=
  match t with e :: t => if c =? chr_at (name e) 0 then e :: block c t else [] | [] => [] end.

Definition entities_of (c : Z) : list namedEntity_t := base.filter (fun e => chr_at (name e) 0 = c) namedEntities.

#[local] Instance namedEntity_eq : EqDecision namedEntity_t.
Proof. solve_decision. Defined.

Lemma index_block c i : entityIndexTable !! c = Some i -> block c (drop (i - 1) namedEntities) = entities_of c.
Proof.
  assert (map_Forall (fun c i => block c (drop (i - 1) namedEntities) = entities_of c) entityIndexTable) as T; [|apply T].
  apply (bool_decide_eq_true_1 (map_Forall (fun c i => block c (drop (i - 1) namedEntities) = entities_of c) entityIndexTable)). vm_compute. reflexivity.
Qed.

Lemma index_all e : e ∈ namedEntities -> entityIndexTable !! chr_at (name e) 0 <> None.
Proof.
  revert e. apply Forall_forall.
  apply (bool_decide_eq_true_1 (Forall (fun e => entityIndexTable !! chr_at (name e) 0 <> None) namedEntities)). vm_compute. reflexivity.
Qed.

Lemma legacy_first : legacyEntityIndexTable !! 0 = None /\ legacyEntityIndexTable !! 59 = None.
Proof. split; vm_compute; reflexivity. Qed.

Lemma named_loop_in entity len t e : named_loop entity len t = Some e -> e ∈ t.
Proof. induction t as [|a t IH]; cbn; [done|]. do 2 (case_match; try done); [intros [= ->]; left|intros H'; right; auto]. Qed.

Lemma legacy_loop_in entity len t e : legacy_loop entity len t = Some e -> e ∈ t /\ ent_length e <= len.
Proof.
  induction t as [|a t IH]; cbn; [done|]. case_match; [|done]. case_match eqn:E; [|intros H'; destruct (IH H'); split; [by right|done]].
  intros [= ->]. split; [left|]. rewrite !andb_true_iff, Z.leb_le in E. tauto.
Qed.

Lemma named_loop_ok entity len i e : named_loop entity len (drop i namedEntities) = Some e -> entity_ok e.
Proof. intros H%named_loop_in. pose proof entities_ok as T. rewrite Forall_forall in T. apply T. rewrite <- (take_drop i namedEntities). apply elem_of_app. by right. Qed.

Lemma legacy_loop_ok entity len i e : legacy_loop entity len (drop i namedLegacyEntities) = Some e -> entity_ok e /\ ent_length e <= len.
Proof.
  intros [H Hl]%legacy_loop_in. split; [|done]. pose proof legacy_ok as T. rewrite Forall_forall in T. apply T.
  rewrite <- (take_drop i namedLegacyEntities). apply elem_of_app. by right.
Qed.

Lemma output_length e : entity_ok e -> (1 <= length (output e) <= 6)%nat.
Proof. intros (_ & _ & Ho & Hr & _). unfold output. rewrite length_take. lia. Qed.

#[local] Opaque namedEntities namedLegacyEntities entityIndexTable legacyEntityIndexTable.

(** ** No fault *)

Lemma StrToULong_ok s len base : 0 <= len <= Z.of_nat (length s) -> exists o, Ns_StrToULongNStrict s len base = Ret o.
Proof.
  intros H. unfold Ns_StrToULongNStrict. case_match; [by eexists|]. unfold aslice.
  replace ((0 <=? 0) && (0 <=? len) && (0 + len <=? Z.of_nat (length s))) with true by (symmetry; rewrite !andb_true_iff, !Z.leb_le; lia).
  cbn [checked mbind outcome_bind]. destruct (strtoul _ _) as [[v ep] er]. by eexists.
Qed.

Lemma numeric_value_ok entity n : 0 < n <= Z.of_nat (length entity) -> exists v, numeric_value entity n = Ret v.
Proof.
  intros H. unfold numeric_value.
  assert (exists o, (if isdigit (chr_at entity 1) then Ns_StrToULongNStrict (drop 1 entity) (n - 1) 10 else Ret None) = Ret o) as [o ->].
  { case_match; [|by eexists]. apply StrToULong_ok. rewrite length_drop. lia. }
  destruct o as [v|]; cbn; [by eexists|].
  assert (exists o, (if (chr_at entity 1 =? 120) && (3 <=? n) && (n <=? 8) then Ns_StrToULongNStrict (drop 2 entity) (n - 2) 16 else Ret None) = Ret o) as [o ->].
  { case_match eqn:E; [|by eexists]. rewrite !andb_true_iff, !Z.leb_le in E. apply StrToULong_ok. rewrite length_drop. lia. }
  by eexists.
Qed.

Lemma FromCodePoint_length v : (length (Ns_Utf8FromCodePoint v) <= 4)%nat.
Proof. unfold Ns_Utf8FromCodePoint. repeat case_match; cbn; lia. Qed.

(** Where the caller goes on is within the entity: at its semicolon, or at the last character of a legacy name. *)
Lemma EntityDecode_ok entity n :
  n <= Z.of_nat (length entity) -> - Z.of_nat (length entity) <= n -> Forall (fun c => c <> 0) entity ->
  (n = 0 -> legacyEntityIndexTable !! chr_at entity 0 = None) ->
  exists dec enc tp, EntityDecode entity n = Ret (dec, enc, tp) /\ (length dec <= 6)%nat /\ (tp = None -> dec = [] /\ enc = false) /\
    forall t, tp = Some t -> (0 < n /\ t = drop (Z.to_nat n) entity) \/ (n < 0 /\ dec <> [] /\ exists k, t = drop k entity /\ (k < length entity)%nat).
Proof.
  intros Hn Hl Hz H0. unfold EntityDecode.
  destruct (negb (n =? 0) && (chr_at entity 0 =? 0)) eqn:Ea.
  { exfalso. destruct entity as [|c entity]; cbn in *; [zcases; lia|]. inversion Hz. zcases; lia || done. }
  destruct ((chr_at entity 0 =? 35) && (0 <? n)) eqn:E.
  { rewrite andb_true_iff, Z.ltb_lt in E. destruct (numeric_value_ok entity n) as [v ->]; [lia|]. cbn [mbind outcome_bind].
    pose proof (FromCodePoint_length v). case_match; do 3 eexists; (split; [reflexivity|]); (split; [cbn; lia|]); (split; [done|]); intros t [= <-]; left; (split; [lia|done]). }
  destruct ((0 <? n) && (0 <? default O (entityIndexTable !! chr_at entity 0))%nat) eqn:E1.
  { rewrite andb_true_iff, Z.ltb_lt in E1. destruct (named_loop _ _ _) as [e|] eqn:El.
    - apply named_loop_ok, output_length in El. do 3 eexists. split; [reflexivity|]. split; [lia|]. split; [done|]. intros t [= <-]. left. split; [lia|done].
    - do 3 eexists. split; [reflexivity|]. split; [cbn; lia|]. split; [auto|discriminate]. }
  destruct (0 <? default O (legacyEntityIndexTable !! chr_at entity 0))%nat eqn:E2; [|do 3 eexists; split; [reflexivity|]; split; [cbn; lia|]; split; done].
  destruct (legacyEntityIndexTable !! chr_at entity 0) as [i|] eqn:Ei; [|done].
  assert (n < 0) as Hneg.
  { destruct (Z.lt_total n 0) as [|[->|]]; [done|by specialize (H0 eq_refl)|]. exfalso. rewrite (proj2 (Z.ltb_lt 0 n)) in E1 by lia.
    destruct (entityIndexTable !! chr_at entity 0) as [j|] eqn:Ej; [|rewrite (index_legacy _ Ej) in Ei; discriminate]. destruct j; [exact (index_positive _ _ Ej eq_refl)|discriminate]. }
  rewrite (proj2 (Z.ltb_lt n 0) Hneg). destruct (legacy_loop _ _ _) as [e|] eqn:El.
  - apply legacy_loop_ok in El as [Ho Hle]. pose proof (output_length e Ho). destruct Ho as (_ & Ho & _). do 3 eexists. split; [reflexivity|]. split; [lia|]. split; [done|].
    intros t [= <-]. right. split; [done|]. split; [by intros Hnil; rewrite Hnil in *; cbn in *; lia|]. exists (Z.to_nat (ent_length e) - 1)%nat. split; [done|lia].
  - do 3 eexists. split; [reflexivity|]. split; [cbn; lia|]. split; done.
Qed.

Lemma word_length_le w : (word_length w <= length w)%nat.
Proof. induction w as [|c w IH]; cbn; [lia|]. case_match; lia. Qed.

Lemma char_at_drop (w : list Z) n c t : drop n w = c :: t -> chr_at w n = c /\ (n < length w)%nat.
Proof.
  intros H. assert (w !! n = Some c) as E by (rewrite <- (Nat.add_0_r n), <- lookup_drop, H; done).
  unfold chr_at. rewrite E. split; [done|]. apply lookup_lt_Some in E. lia.
Qed.

Lemma decode_into_ok room entity n :
  (6 <= room)%nat -> n <= Z.of_nat (length entity) -> - Z.of_nat (length entity) <= n -> Forall (fun c => c <> 0) entity ->
  (n = 0 -> legacyEntityIndexTable !! chr_at entity 0 = None) ->
  exists dec enc tp, decode_into room entity n = Ret (dec, enc, tp) /\ (tp = None -> dec = [] /\ enc = false) /\
    forall t, tp = Some t -> (0 < n /\ t = drop (Z.to_nat n) entity) \/ (n < 0 /\ dec <> [] /\ exists k, t = drop k entity /\ (k < length entity)%nat).
Proof.
  intros Hr Hn Hl Hz H0. destruct (EntityDecode_ok entity n Hn Hl Hz H0) as (dec & enc & tp & E & Hd & Hrest).
  exists dec, enc, tp. split; [|exact Hrest]. unfold decode_into. rewrite E. cbn [mbind outcome_bind]. by rewrite (proj2 (Nat.leb_le _ _)) by lia.
Qed.

Definition suffix_in (hs amp : list Z) : Prop := exists k, hs = drop k amp /\ (k < length amp)%nat.

Lemma suffix_in_amp c r : suffix_in (c :: r) (c :: r).
Proof. exists O. cbn. split; [done|lia]. Qed.

Lemma suffix_in_drop hs amp k : suffix_in hs amp -> (k < length hs)%nat -> suffix_in (drop k hs) amp.
Proof. intros (j & -> & Hj) Hk. rewrite length_drop in Hk. exists (j + k)%nat. rewrite drop_drop. split; [done|lia]. Qed.

Lemma decode_at_ok room r second :
  (6 <= room)%nat -> Forall (fun c => c <> 0) r -> (forall hs, second hs = 38 :: r \/ second hs = hs) ->
  exists dec enc hs, decode_at room (38 :: r) second = Ret (dec, enc, hs) /\ suffix_in hs (38 :: r).
Proof.
  intros Hr Hz Hs. unfold decode_at, WordEndsInSemi. cbn [Z.eqb Pos.eqb]. set (n := word_length r).
  assert (exists dec enc hs, (if match drop n r with c :: _ => c =? 59 | [] => false end
     then '(dec, enc, tp) ← decode_into room (drop 1 (38 :: r)) (Z.of_nat n); Ret (dec, enc, default (38 :: r) tp) else Ret ([], false, 38 :: r)) = Ret (dec, enc, hs) /\
     suffix_in hs (38 :: r)) as (dec & enc & hs & -> & Hh).
  { destruct (drop n r) as [|c t] eqn:Ed; [do 3 eexists; split; [reflexivity|apply suffix_in_amp]|]. apply char_at_drop in Ed as Hc.
    destruct (Z.eqb_spec c 59) as [->|]; [|do 3 eexists; split; [reflexivity|apply suffix_in_amp]].
    change (drop 1 (38 :: r)) with r. destruct (decode_into_ok room r (Z.of_nat n)) as (dec & enc & tp & -> & _ & Ht); [done|lia|lia|done| |].
    { intros Hn. replace n with O in Hc by lia. destruct Hc as [-> _]. apply legacy_first. }
    cbn [mbind outcome_bind]. do 3 eexists. split; [reflexivity|]. destruct tp as [t'|]; [|apply suffix_in_amp]. cbn.
    destruct (Ht t' eq_refl) as [[_ ->]|[? _]]; [|lia]. rewrite Nat2Z.id. exists (S n). cbn. split; [done|lia]. }
  cbn [mbind outcome_bind]. case_match; [|do 3 eexists; split; [reflexivity|done]].
  set (entity := drop 1 (second hs)).
  assert (suffix_in (second hs) (38 :: r)) as Hsec by (destruct (Hs hs) as [->| ->]; [apply suffix_in_amp|done]).
  assert (Forall (fun c => c <> 0) entity) as Hze.
  { unfold entity. apply Forall_drop. destruct Hsec as (k & -> & _). apply Forall_drop. by constructor. }
  destruct (decode_into_ok room entity (- Z.of_nat (length entity))) as (dec' & enc' & tp & -> & _ & Ht); [done|lia|lia|done| |].
  { intros E0. assert (entity = []) as -> by (apply nil_length_inv; lia). apply legacy_first. }
  cbn [mbind outcome_bind]. do 3 eexists. split; [reflexivity|]. destruct tp as [t'|]; [|done]. cbn.
  destruct (Ht t' eq_refl) as [[? _]|(_ & _ & k & -> & Hk)]; [lia|]. unfold entity in *. rewrite drop_drop in *. apply suffix_in_drop; [done|].
  rewrite length_drop in Hk. lia.
Qed.

Lemma advance_ok hs amp : suffix_in hs amp -> Forall (fun c => c <> 0) amp -> exists s, next_char hs = Ret s /\ (length s < length amp)%nat /\ Forall (fun c => c <> 0) s.
Proof.
  intros (k & -> & Hk) Hz. assert (Forall (fun c => c <> 0) (drop k amp)) as Hz' by by apply Forall_drop.
  pose proof (length_drop amp k) as Hl. destruct (drop k amp) as [|c t] eqn:E; cbn [length] in Hl; [lia|]. exists t. inversion Hz'. split_and!; [done|lia|done].
Qed.

Lemma unquote_loop_ok fuel ds s enc : (length s < fuel)%nat -> Forall (fun c => c <> 0) s -> exists r, unquote_loop fuel ds s enc = Ret r.
Proof.
  revert ds s enc. induction fuel as [|fuel IH]; intros ds s enc Hf Hz; [lia|]. cbn [unquote_loop].
  pose proof (strpbrk_spec [38] s) as H. destruct (strpbrk [38] s) as [p [|c q]]; destruct H as (-> & _ & Hq); [by eexists|].
  assert (c = 38) as -> by (cbn in Hq; lia). apply Forall_app in Hz as [_ Hz]. inversion Hz as [|? ? ? Hz'].
  destruct (decode_at_ok 8 q (fun _ => 38 :: q)) as (dec & e & hs & -> & Hs); [lia|done|auto|]. cbn [mbind outcome_bind].
  destruct (advance_ok _ _ Hs Hz) as (t & -> & Ht & Hzt). apply IH; [lens|done].
Qed.

Lemma strip_loop_ok fuel out s intag incomment enc : (length s <= fuel)%nat -> Forall (fun c => c <> 0) s -> exists r, strip_loop fuel out s intag incomment enc = Ret r.
Proof.
  revert out s intag incomment enc. induction fuel as [|fuel IH]; intros out s intag incomment enc Hf Hz; (destruct s as [|c s]; [by eexists|]); cbn [length] in Hf; [lia|].
  inversion Hz as [|? ? Hc Hz']. subst. cbn [strip_loop]. repeat (case_match; try (apply IH; [lia|done])).
  assert (c = 38) as -> by lia. destruct (decode_at_ok 6 s (fun hs => hs)) as (dec & e & hs & -> & Hs); [lia|done|auto|]. cbn [mbind outcome_bind].
  destruct (advance_ok _ _ Hs Hz) as (t & -> & Ht & Hzt). apply IH; [cbn in Ht; lia|done].
Qed.

(** ** Entities with a semicolon *)

Definition named_match (entity : list Z) (len : Z) (e : namedEntity_t) : bool :=
  (len =? ent_length e) && (chr_at entity 1 =? chr_at (name e) 1) && strncmp_eq entity (name e) len.

Lemma named_loop_block entity len t : named_loop entity len t = List.find (named_match entity len) (block (chr_at entity 0) t).
Proof. induction t as [|e t IH]; cbn; [done|]. case_match; [|done]. cbn. unfold named_match at 1. by case_match. Qed.

Lemma find_filter c (p : namedEntity_t -> bool) t :
  Forall (fun e => p e = true -> chr_at (name e) 0 = c) t ->
  List.find p (base.filter (fun e => chr_at (name e) 0 = c) t) = List.find p t.
Proof.
  induction 1 as [|e t He _ IH]; [done|]. rewrite filter_cons. cbn [List.find]. case_decide; cbn [List.find]; [by rewrite IH|].
  destruct (p e) eqn:E; [by specialize (He eq_refl)|done].
Qed.

Lemma find_ext (p q : namedEntity_t -> bool) t : Forall (fun e => p e = q e) t -> List.find p t = List.find q t.
Proof. induction 1 as [|e t He _ IH]; cbn; [done|]. by rewrite He, IH. Qed.

Lemma named_match_name w r e : entity_ok e -> named_match (w ++ 59 :: r) (Z.of_nat (length w)) e = bool_decide (name e = w).
Proof.
  intros (Hl & H2 & _). unfold named_match, strncmp_eq. rewrite Nat2Z.id, take_app_length. destruct (Z.eqb_spec (Z.of_nat (length w)) (ent_length e)) as [E|E].
  - rewrite take_ge by lia. case_bool_decide as Hn; [subst w|by rewrite andb_false_r, bool_decide_eq_false_2 by congruence].
    rewrite bool_decide_eq_true_2 by done. destruct (name e) as [|a [|b n]]; cbn in Hl; [lia|lia|]. unfold chr_at. cbn. by rewrite Z.eqb_refl.
  - cbn. symmetry. apply bool_decide_eq_false_2. intros <-. lia.
Qed.

Lemma find_named c w r : chr_at w 0 = c -> w <> [] ->
  List.find (named_match (w ++ 59 :: r) (Z.of_nat (length w))) (entities_of c) = List.find (fun e => bool_decide (name e = w)) namedEntities.
Proof.
  intros Hc Hw. pose proof entities_ok as T. unfold entities_of. rewrite (find_ext _ (fun e => bool_decide (name e = w))).
  - apply find_filter. eapply Forall_impl; [exact T|]. intros e _ E%bool_decide_eq_true. by rewrite E.
  - apply Forall_forall. intros e [_ He]%list_elem_of_filter. rewrite Forall_forall in T. by apply named_match_name, T.
Qed.

Lemma not_named w : entityIndexTable !! chr_at w 0 = None -> List.find (fun e => bool_decide (name e = w)) namedEntities = None.
Proof.
  intros H. destruct (List.find _ _) as [e|] eqn:E; [|done]. apply find_some in E as [Hin Hn]. apply bool_decide_eq_true in Hn. subst w.
  exfalso. exact (index_all e (proj2 (list_elem_of_In _ _) Hin) H).
Qed.

Lemma output_value e : entity_ok e -> output e = value e.
Proof. intros (_ & _ & Ho & _). unfold output. rewrite Ho, Nat2Z.id. by rewrite take_ge by lia. Qed.

(** ** Stripping: lemmas *)

(** A page: quoted texts, other texts, tags and comments. *)
Inductive part :=
| Text (s : list Z)
| Raw (s : list Z)
| Markup (t : list Z)
| Remark (t : list Z).

Definition print_part (p : part) : list Z :=
  match p with
  | Text s => concat (quote1 <$> s)
  | Raw s => s
  | Markup t => 60 :: t ++ [62]
  | Remark t => 60 :: (bytes "!--" ++ t) ++ bytes "-->"
  end.

Definition plain_part (p : part) : list Z := match p with Text s | Raw s => s | _ => [] end.

(** Other text has no "<" and no "&".  A tag ends with its first ">" and has no "<!--" in it; a comment
    ends with its first "-->". *)
Definition part_ok (p : part) : Prop :=
  match p with
  | Text _ => True
  | Raw s => Forall (fun c => c <> 60 /\ c <> 38) s
  | Markup t => Forall (fun c => c <> 62) t /\ forall p q, 60 :: t <> p ++ bytes "<!--" ++ q
  | Remark t => forall p q, (bytes "!--" ++ t) ++ bytes "-->" = p ++ bytes "-->" ++ q -> q = []
  end.

Lemma starts_app w s : starts w s = true -> exists q, s = w ++ q.
Proof. unfold starts. intros H%bool_decide_eq_true. exists (drop (length w) s). rewrite <- H at 1. by rewrite take_drop. Qed.

Lemma strip_raw fuel out s r : Forall (fun c => c <> 60 /\ c <> 38) s -> (length (s ++ r) <= fuel)%nat ->
  exists fuel', (length r <= fuel')%nat /\ strip_loop fuel out (s ++ r) false false false = strip_loop fuel' (out ++ s) r false false false.
Proof.
  intros Hs. revert fuel out. induction Hs as [|c s [H60 H38] _ IH]; intros fuel out Hf; [exists fuel; by rewrite app_nil_r|].
  destruct fuel as [|fuel]; [cbn in Hf; lia|]. cbn [app strip_loop]. rewrite (proj2 (Z.eqb_neq c 60)), (proj2 (Z.eqb_neq c 38)) by done. cbn [negb andb].
  destruct (IH fuel (out ++ [c])) as (f & Hl & Hq); [cbn in Hf; lia|]. exists f. split; [done|]. by rewrite Hq, <- app_assoc.
Qed.

Lemma strip_text fuel out s r : (length (concat (quote1 <$> s) ++ r) <= fuel)%nat ->
  exists fuel', (length r <= fuel')%nat /\ strip_loop fuel out (concat (quote1 <$> s) ++ r) false false false = strip_loop fuel' (out ++ s) r false false false.
Proof.
  revert fuel out. induction s as [|c s IH]; intros fuel out Hf.
  { exists fuel. rewrite app_nil_r. cbn in *. split; [done|done]. }
  cbn [fmap list_fmap concat] in *. destruct fuel as [|fuel]; [exfalso; destruct (special c) eqn:E|].
  { unfold quote1 at 1 in Hf. rewrite E in Hf. destruct (special_quote c E) as [e He]. rewrite He in Hf. cbn in Hf. lia. }
  { unfold quote1 at 1 in Hf. rewrite E in Hf. cbn in Hf. lia. }
  rewrite <- app_assoc. unfold quote1 at 1 in Hf. unfold quote1 at 1. destruct (special c) eqn:E.
  - pose proof (decode_quoted c (concat (quote1 <$> s) ++ r) (fun hs => hs) 6 ltac:(lia) E) as Hd. destruct (special_quote c E) as [e He]. rewrite He in *. cbn [app] in *.
    cbn [strip_loop]. change (38 =? 60) with false. change (38 =? 38) with true. cbn [negb andb orb]. cbv iota. rewrite Hd. cbn [mbind outcome_bind next_char].
    destruct (IH fuel (out ++ [c])) as (f & Hl & Hs); [lens|]. exists f. split; [done|]. rewrite bool_decide_eq_false_2 by done.
    by rewrite Hs, <- app_assoc.
  - cbn [app strip_loop] in *. unfold special in E. cbn in E. rewrite (proj2 (Z.eqb_neq c 60)) by lia. rewrite (proj2 (Z.eqb_neq c 38)) by lia.
    cbn [negb andb]. destruct (IH fuel (out ++ [c])) as (f & Hl & Hs); [lens|]. exists f. split; [done|]. by rewrite Hs, <- app_assoc.
Qed.

Lemma strip_in_tag fuel out t r enc : Forall (fun c => c <> 62) t -> (forall p q, t <> p ++ [60; 33; 45; 45] ++ q) -> (length (t ++ 62%Z :: r) <= fuel)%nat ->
  exists fuel', (length r <= fuel')%nat /\ strip_loop fuel out (t ++ 62 :: r) true false enc = strip_loop fuel' out r false false enc.
Proof.
  intros Ht. revert fuel. induction Ht as [|c t Hc Ht IH]; intros fuel Hn Hf; (destruct fuel as [|fuel]; [cbn in Hf; lia|]); cbn [app strip_loop].
  { exists fuel. split; [cbn in Hf; lia|done]. }
  destruct (IH fuel) as (f & Hl & Hs); [intros p q E; apply (Hn (c :: p) q); by rewrite E|cbn in Hf; lia|]. exists f. split; [done|].
  rewrite (proj2 (Z.eqb_neq c 62)) by done. cbn [negb andb orb]. rewrite <- Hs. destruct (Z.eqb_spec c 60) as [->|]; [|done]. f_equal.
  destruct (starts [60; 33; 45; 45] (60 :: t ++ 62 :: r)) eqn:E; [exfalso|done]. apply starts_app in E as [q E].
  destruct t as [|a [|b [|d t]]]; cbn in E; [congruence|congruence|congruence|]. apply (Hn [] t). cbn. congruence.
Qed.

Lemma strip_in_comment fuel out u r enc : (forall p q, u ++ [45; 45; 62] = p ++ [45; 45; 62] ++ q -> q = []) -> (length (u ++ [45; 45; 62]%Z ++ r) <= fuel)%nat ->
  exists fuel', (length r <= fuel')%nat /\ strip_loop fuel out (u ++ [45; 45; 62] ++ r) true true enc = strip_loop fuel' out r false false enc.
Proof.
  revert fuel. induction u as [|c u IH]; intros fuel Hu Hf; (destruct fuel as [|fuel]; [cbn in Hf; lia|]).
  - cbn in Hf. destruct fuel as [|[|fuel]]; [lia|lia|]. exists fuel. split; [lia|done].
  - cbn [app strip_loop]. cbn [app length] in Hf. destruct (IH fuel) as (f & Hl & Hs); [intros p q E; apply (Hu (c :: p) q); cbn; by rewrite E|cbn; lia|].
    exists f. split; [done|]. case_match; [exact Hs|]. rewrite <- Hs. f_equal. apply negb_true_iff.
    destruct (starts [45; 45; 62] (c :: u ++ 45 :: 45 :: 62 :: r)) eqn:E; [exfalso|done]. apply starts_app in E as [q E].
    destruct u as [|a [|b u]]; cbn in E; [congruence|congruence|]. assert (u ++ [45; 45; 62] = []) as Hnil; [|by destruct u].
    apply (Hu [] (u ++ [45; 45; 62])). cbn. congruence.
Qed.

Lemma strip_part fuel out p r : part_ok p -> (length (print_part p ++ r) <= fuel)%nat ->
  exists fuel', (length r <= fuel')%nat /\ strip_loop fuel out (print_part p ++ r) false false false = strip_loop fuel' (out ++ plain_part p) r false false false.
Proof.
  destruct p as [s|s|t|t]; cbn [part_ok print_part plain_part]; intros Hok Hf.
  - by apply strip_text.
  - by apply strip_raw.
  - destruct Hok as [Ht Hs]. change (bytes "<!--") with [60; 33; 45; 45] in Hs. rewrite app_nil_r. destruct fuel as [|fuel]; [cbn in Hf; lia|]. cbn [app strip_loop]. change (60 =? 60) with true. cbv iota.
    assert (starts [60; 33; 45; 45] (60 :: (t ++ [62]) ++ r) = false) as ->.
    { destruct (starts _ _) eqn:E; [exfalso|done]. apply starts_app in E as [q E]. destruct t as [|a [|b [|c t]]]; cbn in E; [congruence|congruence|congruence|].
      apply (Hs [] t). cbn. congruence. }
    rewrite <- app_assoc. apply strip_in_tag; [done| |lens]. intros p q E. apply (Hs (60 :: p) q). by rewrite E.
  - rewrite app_nil_r. destruct fuel as [|fuel]; [cbn in Hf; lia|]. change (bytes "!--") with [33; 45; 45] in *. change (bytes "-->") with [45; 45; 62] in *. set (u := [33; 45; 45] ++ t) in *.
    cbn [app strip_loop]. change (60 =? 60) with true. cbv iota.
    assert (starts [60; 33; 45; 45] (60 :: (u ++ [45; 45; 62]) ++ r) = true) as -> by (unfold starts; by apply bool_decide_eq_true_2).
    cbn [orb]. rewrite <- app_assoc. apply strip_in_comment; [done|lens].
Qed.

Lemma strip_parts fuel out l : Forall part_ok l -> (length (concat (print_part <$> l)) <= fuel)%nat ->
  strip_loop fuel out (concat (print_part <$> l)) false false false = Ret (out ++ concat (plain_part <$> l), false).
Proof.
  intros Hl. revert fuel out. induction Hl as [|p l Hp _ IH]; intros fuel out Hf; cbn [fmap list_fmap concat] in *.
  - destruct fuel; by rewrite app_nil_r.
  - destruct (strip_part fuel out p (concat (print_part <$> l)) Hp Hf) as (f & Hf' & ->). rewrite IH by done. by rewrite app_assoc.
Qed.

(** ** Theorems *)

(** C22.  What ns_quotehtml makes of any text, ns_unquotehtml makes back to it, and the result needs no
    conversion; [Ns_QuoteHtml] appends the same to its buffer. *)
Theorem unquote_quote s ds :
  exists q, NsTclQuoteHtmlObjCmd s = Some q /\ Ns_QuoteHtml ds s = Some (ds ++ q) /\ NsTclUnquoteHtmlObjCmd q = Ret (s, false).
Proof.
  exists (concat (quote1 <$> s)). split; [apply QuoteHtmlObjCmd_spec|]. split; [apply QuoteHtml_spec|].
  unfold NsTclUnquoteHtmlObjCmd. rewrite unquote_quoted by lia. done.
Qed.

Lemma quoted_plain s : Forall (fun c => c <> 60 /\ c <> 62 /\ c <> 39 /\ c <> 34) (concat (quote1 <$> s)).
Proof.
  induction s as [|c s IH]; cbn [fmap list_fmap concat]; [constructor|]. apply Forall_app. split; [|done].
  destruct (quote1_cases c) as [[->|[->|[->|[->| ->]]]]|(-> & H)]; [apply (bool_decide_eq_true_1 (Forall _ _)); reflexivity..|]. constructor; [lia|constructor].
Qed.

Lemma app_eq_at (x : list Z) p c r t : x ++ t = p ++ c :: r -> c ∉ x -> exists p', p = x ++ p' /\ t = p' ++ c :: r.
Proof.
  revert p. induction x as [|a x IH]; intros p E Hc; [by exists p|]. destruct p as [|b p]; cbn in E; injection E as -> E; [by destruct Hc; left|].
  destruct (IH p E) as (p' & -> & ->); [by intros ?; apply Hc; right|]. by exists p'.
Qed.

(** C40.  The result of ns_quotehtml has no angle bracket and no quote, and every "&" of it starts one of the
    five entities that stand for a character, so that it is text wherever it is put in a page. *)
Theorem quoted_is_text s :
  exists q, NsTclQuoteHtmlObjCmd s = Some q /\ Forall (fun c => c <> 60 /\ c <> 62 /\ c <> 39 /\ c <> 34) q /\
    forall p r, q = p ++ 38 :: r -> exists c t, c ∈ htmlQuoteChars /\ 38 :: r = quote_char c ++ t.
Proof.
  exists (concat (quote1 <$> s)). split; [apply QuoteHtmlObjCmd_spec|]. split; [apply quoted_plain|].
  induction s as [|c s IH]; cbn [fmap list_fmap concat]; intros p r E; [by destruct p|].
  assert (exists e, 38 ∉ e /\ (quote1 c = e \/ (quote1 c = 38 :: e /\ c ∈ htmlQuoteChars /\ quote_char c = 38 :: e))) as (e & He & Hq).
  { destruct (quote1_cases c) as [H|(Hq & H)]; [|exists [c]; split; [intros ?%list_elem_of_singleton; lia|by left]].
    assert (special c = true) as Hs by (unfold special; cbn; lia). destruct (special_quote c Hs) as [e Ee]. exists e. split.
    - destruct H as [->|[->|[->|[->| ->]]]]; injection Ee as <-; apply (bool_decide_eq_true_1 (38 ∉ _)); reflexivity.
    - right. unfold quote1. rewrite Hs. split_and!; [done| |done]. apply list_elem_of_In. cbn. lia. }
  destruct Hq as [Hq|(Hq & Hin & Hc)]; rewrite Hq in E.
  - destruct (app_eq_at _ _ _ _ _ E He) as (p' & -> & E'). by apply (IH p').
  - destruct p as [|a p]; cbn in E; [injection E as E2; exists c, (concat (quote1 <$> s)); rewrite Hc; split; [done|]; cbn; congruence|]. injection E as _ E2.
    destruct (app_eq_at _ _ _ _ _ E2 He) as (p' & -> & E'). by apply (IH p').
Qed.

(** C36.  With the index of first characters [EntityDecode] finds, for a name with a semicolon, exactly what a
    search of the whole table of HTML5 entities finds, and nothing for any other name. *)
Theorem EntityDecode_named w r : w <> [] -> chr_at w 0 <> 35 -> chr_at w 0 <> 0 ->
  EntityDecode (w ++ 59 :: r) (Z.of_nat (length w)) =
    Ret (match List.find (fun e => bool_decide (name e = w)) namedEntities with
         | Some e => (value e, false, Some (59 :: r))
         | None => ([], false, None)
         end).
Proof.
  intros Hw H35 H0. assert (chr_at (w ++ 59 :: r) 0 = chr_at w 0) as Hc by by destruct w.
  assert (0 < Z.of_nat (length w)) as Hn by (destruct w; [done|cbn; lia]).
  unfold EntityDecode. rewrite Hc, (proj2 (Z.eqb_neq _ _) H35), (proj2 (Z.eqb_neq _ _) H0), andb_false_r, (proj2 (Z.ltb_lt _ _) Hn). cbn [andb].
  destruct (entityIndexTable !! chr_at w 0) as [i|] eqn:Ei.
  - change (default O (Some i)) with i. pose proof (index_positive _ _ Ei) as Hi. rewrite (proj2 (Nat.ltb_lt 0 i)) by (cbn in *; lia).
    rewrite named_loop_block, Hc, (index_block _ _ Ei), find_named by done. rewrite Nat2Z.id, drop_app_length.
    destruct (List.find _ _) as [e|] eqn:Ef; [|done]. apply find_some in Ef as [Hin _]. rewrite output_value; [done|].
    pose proof entities_ok as T. rewrite Forall_forall in T. by apply T, list_elem_of_In.
  - rewrite (index_legacy _ Ei), not_named by done. done.
Qed.

Lemma EntityDecode_named_witness : EntityDecode (bytes "nGt;") 3 = Ret ([0xe2; 0x89; 0xab; 0xe2; 0x83; 0x92], false, Some (bytes ";")).
Proof. etransitivity; [apply (EntityDecode_named (bytes "nGt") []); discriminate|vm_compute; reflexivity]. Defined.

(** C39.  ns_unquotehtml and ns_striphtml end on every string, whatever entities, tags and comments it has or
    leaves open, without a failing assertion, without moving behind the end of the string and without writing
    more bytes for an entity than they made room for. *)
Theorem unquote_strip_total s : Forall (fun c => c <> 0) s ->
  exists u t, NsTclUnquoteHtmlObjCmd s = Ret u /\ NsTclStripHtmlObjCmd s = Ret t.
Proof.
  intros Hz. destruct (unquote_loop_ok (S (length s)) [] s false) as [u Hu]; [lia|done|].
  destruct (strip_loop_ok (length s) [] s false false false) as [t Ht]; [lia|done|]. by exists u, t.
Qed.

Lemma unquote_strip_total_witness : exists u t, NsTclUnquoteHtmlObjCmd (bytes "a&nGt&#x;<!--&") = Ret u /\ NsTclStripHtmlObjCmd (bytes "a&nGt&#x;<!--&") = Ret t.
Proof. apply unquote_strip_total. repeat (constructor; [discriminate|]). constructor. Defined.

(** C37.  A page is a sequence of quoted texts, of other texts without "<" and "&", of tags that end with their first
    ">" and have no "<!--" in them, and of comments that end with their first "-->".  From it ns_striphtml gives the
    texts, the quoted ones unquoted, and nothing else.  A ">" in a quoted value of an attribute ends the tag: what
    follows it is text. *)
Theorem strip_page l : Forall part_ok l -> NsTclStripHtmlObjCmd (concat (print_part <$> l)) = Ret (concat (plain_part <$> l), false).
Proof. intros Hl. unfold NsTclStripHtmlObjCmd. by rewrite strip_parts by (done || lia). Qed.

(** The conditions on tags and comments, as tests. *)
Lemma absent w s : existsb (fun k => starts w (drop k s)) (seq 0 (S (length s))) = false -> forall p q, s <> p ++ w ++ q.
Proof.
  intros He p q ->. enough (existsb (fun k => starts w (drop k (p ++ w ++ q))) (seq 0 (S (length (p ++ w ++ q)))) = true) by congruence.
  apply existsb_exists. exists (length p). split; [apply in_seq; rewrite !length_app; lia|]. rewrite drop_app_length. unfold starts. by rewrite take_app_length, bool_decide_eq_true_2.
Qed.

Lemma ends_first w u : existsb (fun k => starts w (drop k (u ++ w))) (seq 0 (length u)) = false -> forall p q, u ++ w = p ++ w ++ q -> q = [].
Proof.
  intros He p q E. destruct q as [|c q]; [done|exfalso]. enough (existsb (fun k => starts w (drop k (u ++ w))) (seq 0 (length u)) = true) by congruence.
  apply existsb_exists. exists (length p). split; [apply in_seq; apply (f_equal length) in E; rewrite !length_app in E; cbn in E; lia|].
  rewrite E, drop_app_length. unfold starts. by rewrite take_app_length, bool_decide_eq_true_2.
Qed.

Lemma strip_page_witness : NsTclStripHtmlObjCmd (bytes "x &lt; y<a title='<b>c'><!-- <i> - > --> &amp; z</a>") = Ret (bytes "x < yc'> & z", false).
Proof.
  apply (strip_page [Text (bytes "x < y"); Markup (bytes "a title='<b"); Raw (bytes "c'>"); Remark (bytes " <i> - > "); Text (bytes " & z"); Markup (bytes "/a")]).
  repeat match goal with |- Forall _ [] => constructor | |- Forall _ (_ :: _) => constructor end; cbn [part_ok]; try exact I; try split; try (apply (bool_decide_eq_true_1 (Forall _ _)); reflexivity).
  - apply absent. reflexivity.
  - apply ends_first. reflexivity.
  - apply absent. reflexivity.
Defined.

(** After an invalid numeric entity the position is behind it although nothing was decoded: ns_unquotehtml
    drops its text and keeps the "&", and ns_striphtml takes what follows as a name without semicolon. *)
Theorem invalid_numeric_lost :
  NsTclUnquoteHtmlObjCmd (bytes "a&#0;b") = Ret (bytes "a&b", false) /\
  NsTclStripHtmlObjCmd (bytes "a&#0;lt b") = Ret (bytes "a< b", false).
Proof. split; vm_compute; reflexivity. Qed.
