(* ===== verification/HtmlParse.v ===== *)
(** * HtmlParse: the elements of a page, ns_parsehtml (nsd/quotehtml.c).

    The string of a tag is the rest of the page from its name on and its length, positions are
    indexes.  Reading at the end of the string gives the NUL.  A position behind it is a fault, as
    is a loop that uses up its fuel, the number of characters left. *)

From S2P Require Import Prelude Str JsonParse Html.

(** ** Tags *)

(** [while (i<length && p(string[i])) i++] for [n] = [length] - [i]. *)
Fixpoint scan_while (p : Z -> bool) (string : list Z) (n i : nat) : nat :=
  match n with O => i | S n => if p (chr_at string i) then scan_while p string n (S i) else i end.

Definition scan_to (p : Z -> bool) (string : list Z) (length i : nat) : nat := scan_while p string (length - i) i.

Definition skip_blank (string : list Z) (length i : nat) : nat := scan_to isspace string length i.

Definition sub (string : list Z) (a b : nat) : list Z := take (b - a) (drop a string).

(** The name, without a quote or an ampersand behind its first character. *)
Fixpoint tag_name (string : list Z) (n i : nat) : option nat :=
  match n with
  | O => Some i
  | S n =>
      let c := chr_at string i in
      if isspace c || (c =? 47) then Some i
      else if (c =? 39) || (c =? 34) || (c =? 38) then None
      else tag_name string n (S i)
  end.

Definition att_name_char (c : Z) : bool := negb (isspace c) && negb (c =? 34) && negb (c =? 39) && negb (c =? 61) && negb (c =? 47).

Record Atts := mkAtts { attributesObj : list (list Z * list Z); incorrectSyntax : bool }.

(** The value from the equal sign at [i] on: the end of the attribute, the value, and whether its quote is missing. *)
Definition att_value_at (string : list Z) (length i : nat) : nat * list Z * bool :=
  let i := skip_blank string length (S i) in
  let c := chr_at string i in
  let quoted := (c =? 39) || (c =? 34) in
  let i := if quoted then S i else i in
  if (i <? length)%nat then
    let valueEnd := if quoted then scan_to (fun d => negb (d =? c)) string length i
                    else scan_to (fun d => negb (isspace d)) string length i in
    (S valueEnd, sub string i valueEnd, quoted && negb (chr_at string valueEnd =? c))
  else (i, [], false).

(** One attribute, from [i] on. *)
Definition att_step (string : list Z) (length attributeStart : nat) (st : Atts) : nat * Atts :=
  let attributeNameEnd := scan_to att_name_char string length attributeStart in
  let name := sub string attributeStart attributeNameEnd in
  let i := skip_blank string length attributeNameEnd in
  let '(i, st) :=
    if chr_at string i =? 61 then
      let '(i, value, missing) := att_value_at string length i in
      let bad := incorrectSyntax st || missing in
      (i, mkAtts (if bad then attributesObj st else dict_put (attributesObj st) name value) bad)
    else if negb (chr_at string i =? 47) then
      (i, if incorrectSyntax st then st else mkAtts (dict_put (attributesObj st) name []) false)
    else (S i, st) in
  let i := skip_blank string length i in
  ((if i =? attributeStart then S i else i)%nat, st).

Fixpoint atts_loop (fuel : nat) (string : list Z) (length i : nat) (st : Atts) : outcome Atts :=
  if (i <? length)%nat then
    match fuel with
    | O => Fault
    | S fuel => let '(i, st) := att_step string length i st in atts_loop fuel string length i st
    end
  else Ret st.

(** A name, with attributes if the tag is not an end tag. *)
Definition tag_content : Type := list Z * option (list (list Z * list Z)).

Definition HtmlParseTagAtts (string : list Z) (length : nat) : outcome (option tag_content) :=
  let i := if (0 <? length)%nat && negb (isspace (chr_at string 0)) then 1%nat else O in
  match tag_name string (length - i) i with
  | None => Ret None
  | Some i =>
      let nameObj := sub string 0 i in
      let i := skip_blank string length i in
      if negb (chr_at string 0 =? 47) then
        st ← atts_loop (length - i) string length i (mkAtts [] false);
        Ret (if incorrectSyntax st then None else Some (nameObj, Some (attributesObj st)))
      else Ret (Some (nameObj, None))
  end.

(** ** Elements *)

Inductive what_t := WComment | WPi | WText | WTag.

(** An element of the result: what it is, its characters and its content, or with -onlytags the content alone. *)
Inductive element :=
| Elem (what : what_t) (chars : list Z) (content : option tag_content)
| Only (content : tag_content).

Definition HtmlFinishElement (listObj : list element) (html : list Z) (what : what_t) (lastStart currentPtr : nat)
    (noAngle onlyTags : bool) (contentObj : option tag_content) : outcome (list element) :=
  if onlyTags then Ret (match contentObj with Some c => listObj ++ [Only c] | None => listObj end)
  else
    if noAngle then
      if (0 <? lastStart)%nat && (currentPtr <? length html)%nat
      then Ret (listObj ++ [Elem what (sub html (lastStart - 1) (currentPtr + 1)) contentObj]) else Fault
    else if (currentPtr <=? length html)%nat then Ret (listObj ++ [Elem what (sub html lastStart currentPtr) contentObj]) else Fault.

Record Scan := mkScan { inTag : bool; inComment : bool; inPi : bool; ptr : nat; lastStart : nat; listObj : list element }.

Definition parse_step (html : list Z) (noAngle onlyTags : bool) (s : Scan) : outcome Scan :=
  let at_ k := chr_at html (ptr s + k) in
  let finish what st p angle content := HtmlFinishElement (listObj s) html what st p angle onlyTags content in
  let next p := mkScan (inTag s) (inComment s) (inPi s) (S p) (lastStart s) (listObj s) in
  if inComment s then
    if (at_ 0%nat =? 45) && (at_ 1%nat =? 45) && (at_ 2%nat =? 62) then
      let p := (ptr s + 2)%nat in
      l ← finish WComment (lastStart s) p noAngle None;
      Ret (mkScan (inTag s) false (inPi s) (S p) (S p) l)
    else Ret (next (ptr s))
  else if inPi s then
    if (at_ 0%nat =? 63) && (at_ 1%nat =? 62) then
      let p := (ptr s + 1)%nat in
      l ← finish WPi (lastStart s) p noAngle None;
      Ret (mkScan (inTag s) (inComment s) false (S p) (S p) l)
    else Ret (next (ptr s))
  else if inTag s then
    if at_ 0%nat =? 62 then
      contentObj ← HtmlParseTagAtts (drop (lastStart s) html) (ptr s - lastStart s);
      l ← (match contentObj with
           | None => finish WText (lastStart s - 1)%nat (ptr s + 1)%nat false None
           | Some _ => finish WTag (lastStart s) (ptr s) noAngle contentObj
           end);
      Ret (mkScan false (inComment s) (inPi s) (S (ptr s)) (S (ptr s)) l)
    else Ret (next (ptr s))
  else if (at_ 0%nat =? 60) && negb (isspace (at_ 1%nat)) && existsb (Z.eqb 62) (drop (ptr s) html) then
    let nextChar := at_ 1%nat in
    l ← (if (ptr s =? lastStart s)%nat then Ret (listObj s) else finish WText (lastStart s) (ptr s) false None);
    Ret (if (nextChar =? 33) && (at_ 2%nat =? 45) && (at_ 3%nat =? 45) then mkScan false true (inPi s) (ptr s + 2) (S (ptr s)) l
         else if nextChar =? 63 then mkScan false (inComment s) true (ptr s + 2) (S (ptr s)) l
         else if (nextChar =? 47) || islower nextChar || isupper nextChar then mkScan true (inComment s) (inPi s) (ptr s + 2) (S (ptr s)) l
         else mkScan (inTag s) (inComment s) (inPi s) (S (ptr s)) (ptr s) l)
  else Ret (next (ptr s)).

Fixpoint elements_loop (fuel : nat) (html : list Z) (noAngle onlyTags : bool) (s : Scan) : outcome (list element) :=
  if (length html <? ptr s)%nat then Fault
  else if (ptr s =? length html)%nat then
    if (ptr s =? lastStart s)%nat then Ret (listObj s)
    else HtmlFinishElement (listObj s) html WText (lastStart s) (ptr s) false onlyTags None
  else
    match fuel with
    | O => Fault
    | S fuel => s ← parse_step html noAngle onlyTags s; elements_loop fuel html noAngle onlyTags s
    end.

(** [None] is the error for both options. *)
Definition NsTclParseHtmlObjCmd (withNoAngleOption onlyTagsOption : bool) (html : list Z) : outcome (option (list element)) :=
  if withNoAngleOption && onlyTagsOption then Ret None
  else l ← elements_loop (length html) html (negb withNoAngleOption) onlyTagsOption (mkScan false false false 0 0 []); Ret (Some l).


(** ** Positions: lemmas *)

Lemma scan_bounds p string n i : (i <= scan_while p string n i <= i + n)%nat.
Proof. revert i. induction n as [|n IH]; intros i; cbn; [lia|]. case_match; [|lia]. specialize (IH (S i)). lia. Qed.

Lemma scan_to_ge p string length i : (i <= scan_to p string length i)%nat.
Proof. apply scan_bounds. Qed.

Lemma att_value_ge string length i : (i < (att_value_at string length i).1.1)%nat.
Proof.
  unfold att_value_at, skip_blank. set (j := scan_to isspace string length (S i)).
  assert (S i <= j)%nat by apply scan_to_ge. destruct ((chr_at string j =? 39) || (chr_at string j =? 34)); case_match; cbn [fst]; try lia.
  - match goal with |- context [scan_to ?p string length ?k] => pose proof (scan_to_ge p string length k) end. lia.
  - match goal with |- context [scan_to ?p string length ?k] => pose proof (scan_to_ge p string length k) end. lia.
Qed.

(** The safety belt: every round gets on. *)
Lemma att_step_gt string length i st : (i < (att_step string length i st).1)%nat.
Proof.
  unfold att_step. set (e := scan_to att_name_char string length i). assert (i <= e)%nat by apply scan_to_ge.
  set (j := skip_blank string length e). assert (e <= j)%nat by apply scan_to_ge. pose proof (att_value_ge string length j) as Hv.
  match goal with |- context [let '(_, _) := ?x in _] => assert (j <= x.1)%nat as Hx; [|destruct x as [k st']; cbn [fst] in Hx] end.
  { repeat case_match; cbn in *; lia. }
  cbn [fst]. assert (k <= skip_blank string length k)%nat by apply scan_to_ge. destruct (Nat.eqb_spec (skip_blank string length k) i); lia.
Qed.

Lemma atts_loop_ok fuel string length i st : (length - i <= fuel)%nat -> exists st', atts_loop fuel string length i st = Ret st'.
Proof.
  revert i st. induction fuel as [|fuel IH]; intros i st Hf; cbn [atts_loop]; destruct (Nat.ltb_spec i length); try (by eexists); [lia|].
  pose proof (att_step_gt string length i st) as H'. destruct (att_step string length i st) as [j st']. cbn in H'. apply IH. lia.
Qed.

Lemma HtmlParseTagAtts_ok string length : exists o, HtmlParseTagAtts string length = Ret o.
Proof.
  unfold HtmlParseTagAtts. destruct (tag_name _ _ _) as [i|]; [|by eexists]. case_match; [|by eexists].
  match goal with |- context [atts_loop ?f ?s ?l ?i ?t] => destruct (atts_loop_ok f s l i t) as [st' ->]; [lia|] end. by eexists.
Qed.

Lemma take_sub (html : list Z) a b : (a <= b)%nat -> take a html ++ sub html a b = take b html.
Proof. intros H. unfold sub. rewrite take_take_drop. f_equal. lia. Qed.

Lemma char_at_lt s i c : chr_at s i = c -> c <> 0 -> (i < length s)%nat /\ s !! i = Some c.
Proof. unfold chr_at. destruct (s !! i) as [d|] eqn:E; cbn; [intros -> _|done]. apply lookup_lt_Some in E as ?. done. Qed.

(** ** The loop *)

Definition chars_of (l : list element) : list Z := concat ((fun e => match e with Elem _ c _ => c | Only _ => [] end) <$> l).

Definition open (s : Scan) : bool := inTag s || inComment s || inPi s.
Definition base_of (s : Scan) : nat := if open s then lastStart s - 1 else lastStart s.

Definition not_at (w : list Z) (html : list Z) (a b : nat) : Prop := forall j, (a <= j < b)%nat -> starts w (drop j html) = false.

Record scan_ok (html : list Z) (s : Scan) : Prop := mkScanOk {
  so_ptr : (lastStart s <= ptr s <= length html)%nat;
  so_one : (inTag s = true -> inComment s = false /\ inPi s = false) /\ (inComment s = true -> inPi s = false);
  so_open : open s = true -> (1 <= lastStart s)%nat /\ html !! (lastStart s - 1)%nat = Some 60;
  so_tag : inTag s = true -> existsb (Z.eqb 62) (drop (ptr s) html) = true;
  so_comment : inComment s = true -> starts (bytes "!--") (drop (lastStart s) html) = true /\ not_at (bytes "-->") html (S (lastStart s)) (ptr s);
  so_pi : inPi s = true -> starts (bytes "?") (drop (lastStart s) html) = true /\ not_at (bytes "?>") html (S (lastStart s)) (ptr s)
}.

(** A step of the loop: the state stays well formed and the elements stay those of the characters before the last start. *)
Definition step_post (html : list Z) (noAngle onlyTags : bool) (s s' : Scan) : Prop :=
  scan_ok html s' /\ (ptr s < ptr s')%nat /\
  (noAngle = true -> onlyTags = false -> chars_of (listObj s) = take (base_of s) html -> chars_of (listObj s') = take (base_of s') html).

Lemma chars_of_snoc l e : chars_of (l ++ [e]) = chars_of l ++ match e with Elem _ c _ => c | Only _ => [] end.
Proof. unfold chars_of. rewrite fmap_app, concat_app. cbn. by rewrite app_nil_r. Qed.

Lemma finish_ok l html what ls p (na ot : bool) content : (if na then (0 < ls)%nat /\ (p < length html)%nat else (p <= length html)%nat) ->
  exists l', HtmlFinishElement l html what ls p na ot content = Ret l' /\
    (ot = false -> chars_of l' = chars_of l ++ if na then sub html (ls - 1) (p + 1) else sub html ls p).
Proof.
  intros H. unfold HtmlFinishElement. destruct ot; [by eexists|]. destruct na.
  - rewrite (proj2 (Nat.ltb_lt _ _)), (proj2 (Nat.ltb_lt _ _)) by lia. eexists. split; [reflexivity|]. intros _. apply chars_of_snoc.
  - rewrite (proj2 (Nat.leb_le _ _)) by lia. eexists. split; [reflexivity|]. intros _. apply chars_of_snoc.
Qed.

Lemma char_at_plus s j k : chr_at s (j + k) = chr_at (drop j s) k.
Proof. unfold chr_at. by rewrite lookup_drop. Qed.

Lemma starts_chars (w s : list Z) : Forall (fun c => c <> 0) w -> starts w s = forallb (fun p : nat * Z => chr_at s p.1 =? p.2) (zip (seq 0 (length w)) w).
Proof.
  unfold starts. intros Hw. revert s. induction Hw as [|c w Hc Hw IH]; intros s; [done|]. cbn [length seq zip zip_with forallb fst snd].
  rewrite <- fmap_S_seq. destruct s as [|d s]; cbn [take].
  - rewrite bool_decide_eq_false_2 by done. change (chr_at [] 0) with 0. by rewrite (proj2 (Z.eqb_neq 0 c)) by done.
  - change (chr_at (d :: s) 0) with d. assert (forall (l : list nat) (v : list Z), forallb (fun p : nat * Z => chr_at (d :: s) p.1 =? p.2) (zip (S <$> l) v) = forallb (fun p : nat * Z => chr_at s p.1 =? p.2) (zip l v)) as E.
    { induction l as [|i l IHl]; intros [|x v]; cbn; [done|done|done|]. by rewrite IHl. }
    rewrite E, <- IH. destruct (Z.eqb_spec d c) as [->|]; cbn [andb]; [|by rewrite bool_decide_eq_false_2 by congruence].
    apply bool_decide_ext. split; [by intros [= ->]|by intros ->].
Qed.

Lemma starts_at (w html : list Z) (j : nat) : Forall (fun c => c <> 0) w -> starts w (drop j html) = forallb (fun p : nat * Z => chr_at html (j + p.1) =? p.2) (zip (seq 0 (length w)) w).
Proof. intros Hw. rewrite starts_chars by done. induction (zip _ _) as [|x l IH]; cbn; [done|]. by rewrite char_at_plus, IH. Qed.

Lemma starts_comment html j : starts (bytes "-->") (drop j html) = (chr_at html (j + 0) =? 45) && (chr_at html (j + 1) =? 45) && (chr_at html (j + 2) =? 62).
Proof. rewrite starts_at by (repeat constructor; done). cbn. by rewrite andb_true_r, andb_assoc. Qed.

Lemma starts_pi html j : starts (bytes "?>") (drop j html) = (chr_at html (j + 0) =? 63) && (chr_at html (j + 1) =? 62).
Proof. rewrite starts_at by (repeat constructor; done). cbn. by rewrite andb_true_r. Qed.

Lemma not_at_next w html a b : not_at w html a b -> starts w (drop b html) = false -> not_at w html a (S b).
Proof. intros H Hb j Hj. destruct (Nat.eq_dec j b) as [->|]; [done|]. apply H. lia. Qed.

Lemma not_at_nil w html a b : (b <= a)%nat -> not_at w html a b.
Proof. intros H j Hj. lia. Qed.

(** A position behind a closed element. *)
Lemma closed_ok html p l : (p <= length html)%nat -> scan_ok html (mkScan false false false p p l).
Proof. intros Hp. constructor; cbn; try done; lia. Qed.

Section steps.
Context (html : list Z) (na ot : bool).

(** An element that ends at [p] and starts at the last start is appended to the elements before. *)
Lemma finish_post (s : Scan) what p content : scan_ok html s -> open s = true -> (lastStart s <= p < length html)%nat ->
  exists l, HtmlFinishElement (listObj s) html what (lastStart s) p na ot content = Ret l /\
    (na = true -> ot = false -> chars_of (listObj s) = take (base_of s) html -> chars_of l = take (S p) html).
Proof.
  intros Hs Ho Hp. destruct (so_open _ _ Hs Ho) as [H1 _].
  destruct (finish_ok (listObj s) html what (lastStart s) p na ot content) as (l & E & Hl); [destruct na; lia|]. exists l. split; [done|].
  intros -> -> Hc. rewrite Hl, Hc by done. unfold base_of. rewrite Ho, take_sub by lia. f_equal. lia.
Qed.

Lemma in_comment_step s : scan_ok html s -> (ptr s < length html)%nat -> inComment s = true -> exists s', parse_step html na ot s = Ret s' /\ step_post html na ot s s'.
Proof.
  intros Hs Hp Hc. destruct (so_one _ _ Hs) as [Ht Hpi]. specialize (Hpi Hc). assert (inTag s = false) as Hnt by (destruct (inTag s); [destruct Ht; congruence|done]).
  assert (open s = true) as Ho by (unfold open; rewrite Hc; by destruct (inTag s)). pose proof (so_ptr _ _ Hs).
  unfold parse_step. rewrite Hc. destruct (so_comment _ _ Hs Hc) as [Hst Hno]. rewrite <- starts_comment.
  destruct (starts (bytes "-->") (drop (ptr s) html)) eqn:E.
  - rewrite starts_comment, !andb_true_iff, !Z.eqb_eq in E. destruct E as [_ E]. apply char_at_lt in E as [E _]; [|done].
    destruct (finish_post s WComment (ptr s + 2) None Hs Ho) as (l & -> & Hl); [lia|]. cbn [mbind outcome_bind]. eexists. split; [reflexivity|]. rewrite Hnt, Hpi.
    split; [apply closed_ok; lia|]. split; [cbn; lia|exact Hl].
  - eexists. split; [reflexivity|]. split; [|split; [cbn; lia|unfold base_of, open; cbn; by rewrite Hc]]. constructor; cbn; rewrite ?Hnt, ?Hpi, ?Hc; try done; try lia.
    + intros _. apply (so_open _ _ Hs Ho).
    + intros _. split; [done|]. by apply not_at_next.
Qed.

Lemma in_pi_step s : scan_ok html s -> (ptr s < length html)%nat -> inComment s = false -> inPi s = true -> exists s', parse_step html na ot s = Ret s' /\ step_post html na ot s s'.
Proof.
  intros Hs Hp Hc Hpi. destruct (so_one _ _ Hs) as [Ht _]. assert (inTag s = false) as Hnt by (destruct (inTag s); [destruct Ht; congruence|done]).
  assert (open s = true) as Ho by (unfold open; rewrite Hpi; by rewrite orb_true_r). pose proof (so_ptr _ _ Hs).
  unfold parse_step. rewrite Hc, Hpi. destruct (so_pi _ _ Hs Hpi) as [Hst Hno]. rewrite <- starts_pi.
  destruct (starts (bytes "?>") (drop (ptr s) html)) eqn:E.
  - rewrite starts_pi, !andb_true_iff, !Z.eqb_eq in E. destruct E as [_ E]. apply char_at_lt in E as [E _]; [|done].
    destruct (finish_post s WPi (ptr s + 1) None Hs Ho) as (l & -> & Hl); [lia|]. cbn [mbind outcome_bind]. eexists. split; [reflexivity|]. rewrite Hnt.
    split; [apply closed_ok; lia|]. split; [cbn; lia|exact Hl].
  - eexists. split; [reflexivity|]. split; [|split; [cbn; lia|unfold base_of, open; cbn; by rewrite Hc, Hpi]]. constructor; cbn; rewrite ?Hnt, ?Hpi, ?Hc; try done; try lia.
    + intros _. apply (so_open _ _ Hs Ho).
    + intros _. split; [done|]. by apply not_at_next.
Qed.

Lemma exists_next i c : html !! i = Some c -> c <> 62 -> existsb (Z.eqb 62) (drop i html) = true -> existsb (Z.eqb 62) (drop (S i) html) = true.
Proof. intros Hi Hc. rewrite (drop_S _ _ _ Hi). cbn [existsb]. destruct (Z.eqb_spec 62 c); [congruence|done]. Qed.

Lemma in_tag_step s : scan_ok html s -> (ptr s < length html)%nat -> inComment s = false -> inPi s = false -> inTag s = true ->
  exists s', parse_step html na ot s = Ret s' /\ step_post html na ot s s'.
Proof.
  intros Hs Hp Hc Hpi Ht. assert (open s = true) as Ho by (unfold open; by rewrite Ht). pose proof (so_ptr _ _ Hs) as Hptr. destruct (so_open _ _ Hs Ho) as [H1 H60].
  unfold parse_step. rewrite Hc, Hpi, Ht, Nat.add_0_r. destruct (Z.eqb_spec (chr_at html (ptr s)) 62) as [E|E].
  - destruct (HtmlParseTagAtts_ok (drop (lastStart s) html) (ptr s - lastStart s)) as [content ->]. cbn [mbind outcome_bind].
    assert (exists l, match content with None => HtmlFinishElement (listObj s) html WText (lastStart s - 1) (ptr s + 1) false ot None
      | Some _ => HtmlFinishElement (listObj s) html WTag (lastStart s) (ptr s) na ot content end = Ret l /\
      (na = true -> ot = false -> chars_of (listObj s) = take (base_of s) html -> chars_of l = take (S (ptr s)) html)) as (l & -> & Hl).
    { destruct content as [content|]; [apply finish_post; done || lia|].
      destruct (finish_ok (listObj s) html WText (lastStart s - 1) (ptr s + 1) false ot None) as (l & El & Hl); [lia|]. exists l. split; [done|].
      intros _ -> Hch. rewrite Hl, Hch by done. unfold base_of. rewrite Ho, take_sub by lia. f_equal. lia. }
    eexists. split; [reflexivity|]. split; [apply closed_ok; lia|]. split; [cbn; lia|exact Hl].
  - eexists. split; [reflexivity|]. split; [|split; [cbn; lia|unfold base_of, open; cbn; by rewrite Ht]].
    destruct (lookup_lt_is_Some_2 html (ptr s) Hp) as [c Hc']. assert (c <> 62) by (intros ->; apply E; unfold chr_at; by rewrite Hc').
    constructor; cbn; rewrite ?Ht, ?Hpi, ?Hc; try done; try lia. intros _. apply (exists_next _ c); [done|done|]. by apply (so_tag _ _ Hs).
Qed.

Lemma text_post s : scan_ok html s -> open s = false ->
  exists l, (if (ptr s =? lastStart s)%nat then Ret (listObj s) else HtmlFinishElement (listObj s) html WText (lastStart s) (ptr s) false ot None) = Ret l /\
    (na = true -> ot = false -> chars_of (listObj s) = take (base_of s) html -> chars_of l = take (ptr s) html).
Proof.
  intros Hs Ho. pose proof (so_ptr _ _ Hs). unfold base_of. rewrite Ho. destruct (Nat.eqb_spec (ptr s) (lastStart s)) as [->|]; [by eexists|].
  destruct (finish_ok (listObj s) html WText (lastStart s) (ptr s) false ot None) as (l & E & Hl); [lia|]. exists l. split; [done|].
  intros _ -> Hc. rewrite Hl, Hc by done. apply take_sub. lia.
Qed.

(** What a "<" opens. *)
Lemma opened_ok p c t k i l : html !! p = Some 60 -> (S (S p) <= length html)%nat ->
  (t = true -> k = false /\ i = false) -> (k = true -> i = false) ->
  (t = true -> chr_at html (S p) <> 62 /\ existsb (Z.eqb 62) (drop p html) = true) ->
  (k = true -> starts (bytes "!--") (drop (S p) html) = true) -> (i = true -> starts (bytes "?") (drop (S p) html) = true) ->
  c = (p + 2)%nat -> scan_ok html (mkScan t k i c (S p) l).
Proof.
  intros H60 Hl Ht Hk Htag Hcom Hpi ->. constructor; cbn; [lia|done|intros _; rewrite Nat.sub_0_r; split; [lia|done]| | |].
  - intros Et. destruct (Htag Et) as [Hn Hex]. destruct (lookup_lt_is_Some_2 html (S p)) as [d Hd]; [lia|]. unfold chr_at in Hn. rewrite Hd in Hn.
    replace (p + 2)%nat with (S (S p)) by lia. apply (exists_next _ d); [done|done|]. by apply (exists_next _ 60).
  - intros Ek. split; [auto|]. apply not_at_nil. lia.
  - intros Ei. split; [auto|]. apply not_at_nil. lia.
Qed.

Lemma outside_step s : scan_ok html s -> (ptr s < length html)%nat -> open s = false -> exists s', parse_step html na ot s = Ret s' /\ step_post html na ot s s'.
Proof.
  intros Hs Hp Ho. pose proof (so_ptr _ _ Hs). destruct (text_post s Hs Ho) as (l & El & Hl). unfold parse_step. unfold open in Ho. apply orb_false_iff in Ho as [[Ht Hc]%orb_false_iff Hpi].
  rewrite Ht, Hc, Hpi. destruct ((chr_at html (ptr s + 0) =? 60) && negb (isspace (chr_at html (ptr s + 1))) && existsb (Z.eqb 62) (drop (ptr s) html)) eqn:E.
  - rewrite !andb_true_iff, Z.eqb_eq, Nat.add_0_r in E. destruct E as [[E60 _] Hex]. apply char_at_lt in E60 as [_ E60]; [|done]. rewrite El. cbn [mbind outcome_bind].
    set (n := chr_at html (ptr s + 1)).
    assert (forall v, v <> 0 -> n = v -> (S (S (ptr s)) <= length html)%nat) as Hin by (intros v Hv <-; destruct (char_at_lt html (ptr s + 1) n eq_refl Hv); lia).
    assert (chr_at html (S (ptr s)) = n) as Hn by (unfold n; f_equal; lia).
    destruct ((n =? 33) && (chr_at html (ptr s + 2) =? 45) && (chr_at html (ptr s + 3) =? 45)) eqn:E1; [|destruct (Z.eqb_spec n 63) as [E2|E2];
      [|destruct ((n =? 47) || islower n || isupper n) eqn:E3]]; (eexists; split; [reflexivity|]; split; [|split; [cbn; lia|]]).
    + rewrite !andb_true_iff, !Z.eqb_eq in E1. destruct E1 as [[E1 E2] E3]. apply opened_ok; try done; [by apply (Hin 33)|].
      intros _. rewrite starts_at by (repeat constructor; done). cbn. rewrite !Nat.add_succ_r, Nat.add_0_r in *. rewrite Hn, E1. by rewrite E2, E3.
    + unfold base_of. cbn. by rewrite Nat.sub_0_r.
    + apply opened_ok; try done; [by apply (Hin 63)|]. intros _. rewrite starts_at by (repeat constructor; done). cbn. rewrite Nat.add_0_r. by rewrite Hn, E2.
    + unfold base_of. cbn. by rewrite Nat.sub_0_r.
    + apply opened_ok; try done; [apply (Hin n); [|done]; unfold islower, isupper in E3; lia|]. intros _. split; [|done]. rewrite Hn. unfold islower, isupper in E3. lia.
    + unfold base_of. cbn. by rewrite Nat.sub_0_r.
    + constructor; cbn; try done; lia.
    + unfold base_of at 2. cbn. exact Hl.
  - eexists. split; [reflexivity|]. split; [|split; [cbn; lia|unfold base_of, open; cbn; by rewrite Ht, Hc, Hpi]]. constructor; cbn; try done; lia.
Qed.

Lemma parse_step_ok s : scan_ok html s -> (ptr s < length html)%nat -> exists s', parse_step html na ot s = Ret s' /\ step_post html na ot s s'.
Proof.
  intros Hs Hp. destruct (inComment s) eqn:Hc; [by apply in_comment_step|]. destruct (inPi s) eqn:Hpi; [by apply in_pi_step|].
  destruct (inTag s) eqn:Ht; [by apply in_tag_step|]. apply outside_step; [done|done|]. unfold open. by rewrite Ht, Hc, Hpi.
Qed.

(** The rest of the page is an open comment or processing instruction. *)
Definition unclosed (r : list Z) : Prop :=
  (starts (bytes "!--") r = true /\ forall k, (1 <= k)%nat -> starts (bytes "-->") (drop k r) = false) \/
  (starts (bytes "?") r = true /\ forall k, (1 <= k)%nat -> starts (bytes "?>") (drop k r) = false).

Definition parsed_chars (l : list element) : Prop :=
  chars_of l = html \/ exists p r, html = p ++ 60 :: r /\ chars_of l = p ++ r /\ unclosed r.

Lemma not_at_end w p : w <> [] -> not_at w html (S p) (length html) -> forall k, (1 <= k)%nat -> starts w (drop k (drop p html)) = false.
Proof.
  intros Hw H k Hk. rewrite drop_drop. destruct (decide (p + k < length html)%nat); [apply H; lia|]. rewrite drop_ge by lia.
  unfold starts. rewrite take_nil. by apply bool_decide_eq_false_2.
Qed.

Lemma parse_end s : scan_ok html s -> ptr s = length html ->
  exists l, (if (ptr s =? lastStart s)%nat then Ret (listObj s) else HtmlFinishElement (listObj s) html WText (lastStart s) (ptr s) false ot None) = Ret l /\
    (na = true -> ot = false -> chars_of (listObj s) = take (base_of s) html -> parsed_chars l).
Proof.
  intros Hs Hp. destruct (open s) eqn:Ho.
  2: { destruct (text_post s Hs Ho) as (l & E & Hl). exists l. split; [done|]. intros Hn Hot Hch. left. rewrite (Hl Hn Hot Hch), Hp. by rewrite take_ge by lia. }
  pose proof (so_ptr _ _ Hs). destruct (so_open _ _ Hs Ho) as [H1 H60].
  assert (unclosed (drop (lastStart s) html)) as Hu.
  { unfold open in Ho. destruct (inTag s) eqn:Et; [pose proof (so_tag _ _ Hs Et) as Hx; rewrite Hp, drop_ge in Hx by lia; done|].
    destruct (inComment s) eqn:Ec; [left; destruct (so_comment _ _ Hs Ec) as [Ha Hb]|right; destruct (so_pi _ _ Hs Ho) as [Ha Hb]].
    all: split; [done|]; rewrite Hp in Hb; by apply not_at_end. }
  exists (if (ptr s =? lastStart s)%nat then listObj s else if ot then listObj s else listObj s ++ [Elem WText (sub html (lastStart s) (ptr s)) None]). split.
  { destruct (Nat.eqb_spec (ptr s) (lastStart s)); [done|]. unfold HtmlFinishElement. destruct ot; [done|]. by rewrite (proj2 (Nat.leb_le _ _)) by lia. }
  intros _ -> Hch. right. exists (take (lastStart s - 1) html), (drop (lastStart s) html). unfold base_of in Hch. rewrite Ho in Hch. split; [|split; [|done]].
  - rewrite <- (take_drop (lastStart s - 1) html) at 1. f_equal. rewrite (drop_S _ _ _ H60). f_equal. f_equal. lia.
  - destruct (Nat.eqb_spec (ptr s) (lastStart s)) as [Ep|Ep].
    + rewrite drop_ge by lia. by rewrite app_nil_r.
    + rewrite chars_of_snoc, Hch. f_equal. unfold sub. apply take_ge. rewrite length_drop. lia.
Qed.

Lemma parse_loop_ok fuel s : scan_ok html s -> (length html - ptr s <= fuel)%nat ->
  exists l, elements_loop fuel html na ot s = Ret l /\ (na = true -> ot = false -> chars_of (listObj s) = take (base_of s) html -> parsed_chars l).
Proof.
  revert s. induction fuel as [|fuel IH]; intros s Hs Hf; pose proof (so_ptr _ _ Hs); cbn [elements_loop]; rewrite (proj2 (Nat.ltb_ge _ _)) by lia;
    (destruct (Nat.eqb_spec (ptr s) (length html)); [by apply parse_end|]); [lia|].
  destruct (parse_step_ok s Hs) as (s' & -> & Hs' & Hlt & Hch); [lia|]. cbn [mbind outcome_bind].
  destruct (IH s' Hs') as (l & -> & Hl); [lia|]. exists l. split; [done|]. auto.
Qed.
End steps.

(** ** Theorems *)

(** C21.  ns_parsehtml ends on every page, stays within it, and its elements, put together, are the page, but for the
    "<" of a comment or processing instruction that is not closed. *)
Theorem parse_lossless html :
  exists l, NsTclParseHtmlObjCmd false false html = Ret (Some l) /\ parsed_chars html l.
Proof.
  unfold NsTclParseHtmlObjCmd. cbn [andb negb]. destruct (parse_loop_ok html true false (length html) (mkScan false false false 0 0 [])) as (l & -> & Hl).
  - apply closed_ok. lia.
  - cbn. lia.
  - exists l. split; [done|]. by apply Hl.
Qed.

(** ** Options *)

Definition relist (f : list element -> list element) (s : Scan) : Scan :=
  mkScan (inTag s) (inComment s) (inPi s) (ptr s) (lastStart s) (f (listObj s)).

(** Two runs with different options whose elements are related by [f]. *)
Section options.
Context (html : list Z) (f : list element -> list element) (na1 ot1 na2 ot2 : bool).
Context (Htext : forall l l1 a b, HtmlFinishElement l html WText a b false ot1 None = Ret l1 -> HtmlFinishElement (f l) html WText a b false ot2 None = Ret (f l1)).
Context (Helem : forall l l1 w a p c, w <> WText -> (1 <= a <= p)%nat -> html !! (a - 1)%nat = Some 60 -> html !! p = Some 62 ->
  HtmlFinishElement l html w a p na1 ot1 c = Ret l1 -> HtmlFinishElement (f l) html w a p na2 ot2 c = Ret (f l1)).

Lemma parse_step_options s s' : scan_ok html s -> parse_step html na1 ot1 s = Ret s' -> parse_step html na2 ot2 (relist f s) = Ret (relist f s').
Proof.
  intros Hs. pose proof (so_ptr _ _ Hs). unfold parse_step. cbn [inTag inComment inPi ptr lastStart listObj relist].
  destruct (inComment s) eqn:Hc; [|destruct (inPi s) eqn:Hpi; [|destruct (inTag s) eqn:Ht]].
  - destruct (so_open _ _ Hs) as [H1 H60]; [unfold open; rewrite Hc; by destruct (inTag s)|]. destruct (_ && _) eqn:E; [|by intros [= <-]].
    rewrite !andb_true_iff, !Z.eqb_eq in E. destruct E as [_ E]. apply char_at_lt in E as [_ E]; [|done].
    destruct (HtmlFinishElement _ _ _ _ _ _ _ _) as [l| |] eqn:El; [|done|done]. cbn [mbind outcome_bind]. intros [= <-]. by rewrite (fun A B => Helem _ _ _ _ _ _ A B H60 E El) by (done || lia).
  - destruct (so_open _ _ Hs) as [H1 H60]; [unfold open; rewrite Hpi; by rewrite orb_true_r|]. destruct (_ && _) eqn:E; [|by intros [= <-]].
    rewrite !andb_true_iff, !Z.eqb_eq in E. destruct E as [_ E]. apply char_at_lt in E as [_ E]; [|done].
    destruct (HtmlFinishElement _ _ _ _ _ _ _ _) as [l| |] eqn:El; [|done|done]. cbn [mbind outcome_bind]. intros [= <-]. by rewrite (fun A B => Helem _ _ _ _ _ _ A B H60 E El) by (done || lia).
  - destruct (so_open _ _ Hs) as [H1 H60]; [unfold open; by rewrite Ht|]. destruct (Z.eqb_spec (chr_at html (ptr s + 0)) 62) as [E|E]; [|by intros [= <-]].
    rewrite Nat.add_0_r in E. apply char_at_lt in E as [_ E]; [|done]. destruct (HtmlParseTagAtts _ _) as [[c|]| |]; cbn [mbind outcome_bind]; try done.
    all: destruct (HtmlFinishElement _ _ _ _ _ _ _ _) as [l| |] eqn:El; [|done|done]; cbn [mbind outcome_bind]; intros [= <-].
    + by rewrite (fun A B => Helem _ _ _ _ _ _ A B H60 E El) by (done || lia).
    + by rewrite (Htext _ _ _ _ El).
  - destruct (_ && existsb _ _); [|by intros [= <-]]. destruct (_ =? lastStart s)%nat; cbn [mbind outcome_bind].
    + intros [= <-]. by repeat case_match.
    + destruct (HtmlFinishElement _ _ _ _ _ _ _ _) as [l| |] eqn:El; [|done|done]. rewrite (Htext _ _ _ _ El). cbn [mbind outcome_bind]. intros [= <-]. by repeat case_match.
Qed.

Lemma parse_loop_options fuel s l : scan_ok html s -> elements_loop fuel html na1 ot1 s = Ret l -> elements_loop fuel html na2 ot2 (relist f s) = Ret (f l).
Proof.
  revert s. induction fuel as [|fuel IH]; intros s Hs; cbn [elements_loop ptr lastStart listObj relist]; (case_match; [done|]); (case_match eqn:E; [case_match; [by intros [= <-]|apply Htext]|]); [done|].
  destruct (parse_step html na1 ot1 s) as [s'| |] eqn:Es; [|done|done]. cbn [mbind outcome_bind]. intros Hl. rewrite (parse_step_options _ _ Hs Es). cbn [mbind outcome_bind].
  apply IH; [|done]. destruct (parse_step_ok html na1 ot1 s Hs) as (s2 & E2 & Hok & _); [pose proof (so_ptr _ _ Hs); apply Nat.eqb_neq in E; lia|]. congruence.
Qed.
End options.

Definition only (l : list element) : list element := omap (fun e => match e with Elem _ _ (Some c) => Some (Only c) | _ => None end) l.

Definition angled (e : element) : element := match e with Elem WText c x => Elem WText c x | Elem w c x => Elem w (60 :: c ++ [62]) x | Only c => Only c end.

Lemma finish_only html l l1 w a b na c : HtmlFinishElement l html w a b na false c = Ret l1 -> HtmlFinishElement (only l) html w a b na true c = Ret (only l1).
Proof.
  unfold HtmlFinishElement, only. intros H. assert (exists x, l1 = l ++ [Elem w x c]) as [x ->] by (repeat case_match; try done; injection H as <-; eauto).
  rewrite omap_app. destruct c as [c|]; cbn; [done|]. by rewrite app_nil_r.
Qed.

Lemma sub_angles html a p : (1 <= a <= p)%nat -> html !! (a - 1)%nat = Some 60 -> html !! p = Some 62 -> sub html (a - 1) (p + 1) = 60 :: sub html a p ++ [62].
Proof.
  intros Ha H60 H62. unfold sub. rewrite (drop_S _ _ _ H60). replace (p + 1 - (a - 1))%nat with (S (S (p - a))) by lia. replace (S (a - 1)) with a by lia.
  change (take (S (S (p - a))) (60 :: drop a html)) with (60 :: take (S (p - a)) (drop a html)). f_equal. apply take_S_r. rewrite lookup_drop. replace (a + (p - a))%nat with p by lia. done.
Qed.

Lemma finish_angled html l l1 w a p c : w <> WText -> (1 <= a <= p)%nat -> html !! (a - 1)%nat = Some 60 -> html !! p = Some 62 ->
  HtmlFinishElement l html w a p false false c = Ret l1 -> HtmlFinishElement (angled <$> l) html w a p true false c = Ret (angled <$> l1).
Proof.
  intros Hw Ha H60 H62. apply lookup_lt_Some in H62 as Hp. unfold HtmlFinishElement. rewrite (proj2 (Nat.leb_le _ _)) by lia. intros [= <-].
  rewrite (proj2 (Nat.ltb_lt _ _)), (proj2 (Nat.ltb_lt _ _)) by lia. cbn [andb]. rewrite (sub_angles _ _ _ Ha H60 H62), fmap_app. by destruct w.
Qed.

Lemma finish_text_angled html l l1 a b : HtmlFinishElement l html WText a b false false None = Ret l1 -> HtmlFinishElement (angled <$> l) html WText a b false false None = Ret (angled <$> l1).
Proof. unfold HtmlFinishElement. case_match; [|done]. intros [= <-]. by rewrite fmap_app. Qed.

(** The options of ns_parsehtml: with -noangle the same elements without the angle brackets of tags, comments and
    processing instructions, with -onlytags the contents of the tags alone, in order, with both an error. *)
Theorem parse_options html :
  exists l l', NsTclParseHtmlObjCmd false false html = Ret (Some l) /\ NsTclParseHtmlObjCmd true false html = Ret (Some l') /\ l = angled <$> l' /\
    NsTclParseHtmlObjCmd false true html = Ret (Some (only l)) /\ NsTclParseHtmlObjCmd true true html = Ret None.
Proof.
  unfold NsTclParseHtmlObjCmd. cbn [andb negb]. assert (scan_ok html (mkScan false false false 0 0 [])) as H0 by (apply closed_ok; lia).
  destruct (parse_loop_ok html false false (length html) (mkScan false false false 0 0 []) H0) as (l' & E' & _); [cbn; lia|].
  assert (elements_loop (length html) html true false (mkScan false false false 0 0 []) = Ret (angled <$> l')) as E.
  { refine (parse_loop_options html (fmap angled) false false true false _ _ _ _ _ H0 E'); [apply finish_text_angled|intros ? ? ? ? ? ?; apply finish_angled]. }
  exists (angled <$> l'), l'. rewrite E, E'. split_and!; [done|done|done| |done].
  assert (elements_loop (length html) html true true (mkScan false false false 0 0 []) = Ret (only (angled <$> l'))) as ->; [|done].
  refine (parse_loop_options html only true false true true _ _ _ _ _ H0 E); [intros ? ? ? ?; apply finish_only|intros ? ? ? ? ? ? _ _ _ _; apply finish_only].
Qed.

(** ** Printed tags *)

Lemma drop_past {A} (s w t : list A) i : drop i s = w ++ t -> drop (i + length w) s = t.
Proof. intros H. by rewrite <- drop_drop, H, drop_app_length. Qed.

Lemma sub_at s w t i : drop i s = w ++ t -> sub s i (i + length w) = w.
Proof. intros H. unfold sub. rewrite H. replace (i + length w - i)%nat with (length w) by lia. apply take_app_length. Qed.

Definition stops (p : Z -> bool) (t : list Z) : Prop := match t with c :: _ => p c = false | [] => True end.

Lemma scan_at p s n i w t : drop i s = w ++ t -> forallb p w = true -> (length w <= n)%nat -> length w = n \/ stops p t /\ t <> [] -> scan_while p s n i = (i + length w)%nat.
Proof.
  revert n i. induction w as [|c w IH]; intros n i Hd Hp Hn Hs.
  - destruct n as [|n]; [cbn; lia|]. destruct Hs as [?|[Hs Ht]]; [done|]. destruct t as [|c t]; [done|]. cbn in Hs. apply char_at_drop in Hd as [Hc _]. cbn. rewrite Hc, Hs. lia.
  - destruct n as [|n]; [cbn in Hn; lia|]. cbn [forallb] in Hp. apply andb_true_iff in Hp as [Hc Hp]. cbn [app] in Hd. destruct (char_at_drop _ _ _ _ Hd) as [Ec _].
    cbn [scan_while length]. rewrite Ec, Hc, IH; [lia| |done|cbn in Hn; lia|destruct Hs as [Hs|Hs]; [left; cbn in Hs; lia|by right]].
    replace (S i) with (i + length [c])%nat by (cbn; lia). by apply drop_past.
Qed.

Lemma scan_to_at p s len i w t : drop i s = w ++ t -> forallb p w = true -> (i + length w <= len)%nat -> (i + length w)%nat = len \/ stops p t /\ t <> [] ->
  scan_to p s len i = (i + length w)%nat.
Proof. intros Hd Hp Hn Hs. apply (scan_at p s _ _ w t); [done|done|lia|]. destruct Hs as [Hs|Hs]; [left; lia|by right]. Qed.

Lemma no_space s len i c t : drop i s = c :: t -> isspace c = false -> (i <= len)%nat -> skip_blank s len i = i.
Proof. intros Hd Hc Hi. unfold skip_blank. rewrite (scan_to_at isspace s len i [] (c :: t)); [cbn; lia|done|done|cbn; lia|]. right. by split. Qed.

Definition print_att (kv : list Z * list Z) : list Z := 32 :: kv.1 ++ 61 :: 34 :: kv.2 ++ [34].
Definition print_tag (name : list Z) (atts : list (list Z * list Z)) : list Z := name ++ concat (print_att <$> atts).

Definition att_ok (kv : list Z * list Z) : Prop := kv.1 <> [] /\ forallb att_name_char kv.1 = true /\ Forall (fun c => c <> 34) kv.2.
Definition name_char (c : Z) : bool := negb (isspace c || (c =? 47) || ((c =? 39) || (c =? 34) || (c =? 38))).

Definition put_att (st : Atts) (kv : list Z * list Z) : Atts := mkAtts (dict_put (attributesObj st) kv.1 kv.2) (incorrectSyntax st).

Lemma print_att_length kv : length (print_att kv) = (length kv.1 + length kv.2 + 4)%nat.
Proof. unfold print_att. lens. Qed.

Lemma value_printed s len i v t : drop i s = 61 :: 34 :: v ++ 34 :: t -> (i + 3 + length v <= len)%nat -> Forall (fun c => c <> 34) v ->
  att_value_at s len i = ((i + 3 + length v)%nat, v, false).
Proof.
  intros Hd Hl Hv. pose proof (drop_past _ [61] _ _ Hd) as H1. pose proof (drop_past _ [61; 34] _ _ Hd) as H2. cbn [length] in *. unfold att_value_at.
  rewrite Nat.add_1_r in H1. rewrite (no_space s len (S i) 34 (v ++ 34 :: t)) by (done || lia). destruct (char_at_drop _ _ _ _ H1) as [-> _]. cbn [Z.eqb Pos.eqb orb].
  replace (i + 2)%nat with (S (S i)) in H2 by lia. rewrite (proj2 (Nat.ltb_lt _ _)) by lia.
  rewrite (scan_to_at _ s len (S (S i)) v (34 :: t)); [|done|by rewrite forallb_forall; intros c Hc%list_elem_of_In; rewrite Forall_forall in Hv; apply Hv in Hc; rewrite (proj2 (Z.eqb_neq _ _) Hc)|lia|by right].
  rewrite (sub_at _ _ _ _ H2). destruct (char_at_drop _ _ _ _ (drop_past _ v _ _ H2)) as [-> _]. rewrite Z.eqb_refl. f_equal. f_equal. lia.
Qed.

Lemma key_spaces k : k <> [] -> forallb att_name_char k = true -> exists c k', k = c :: k' /\ isspace c = false.
Proof. destruct k as [|c k]; [done|]. intros _ [Hc _]%andb_true_iff. exists c, k. split; [done|]. unfold att_name_char in Hc. destruct (isspace c); [done|done]. Qed.

Lemma att_step_printed s len i k v t st : att_ok (k, v) -> incorrectSyntax st = false ->
  drop i s = k ++ 61 :: 34 :: v ++ 34 :: t -> (i + length k + 3 + length v <= len)%nat ->
  att_step s len i st = (skip_blank s len (i + length k + 3 + length v), put_att st (k, v)).
Proof.
  intros (Hk & Hkc & Hv) Hst Hd Hl. cbn [fst snd] in *. unfold att_step.
  rewrite (scan_to_at att_name_char s len i k (61 :: 34 :: v ++ 34 :: t)) by (done || lia || by right).
  rewrite (sub_at _ _ _ _ Hd). pose proof (drop_past _ _ _ _ Hd) as H1. rewrite (no_space _ _ _ _ _ H1) by (done || lia). destruct (char_at_drop _ _ _ _ H1) as [-> _].
  cbn [Z.eqb Pos.eqb]. rewrite (value_printed _ _ _ _ _ H1) by (done || lia). rewrite Hst. cbn [orb].
  assert (i + length k + 3 + length v <= skip_blank s len (i + length k + 3 + length v))%nat by apply scan_to_ge.
  destruct (Nat.eqb_spec (skip_blank s len (i + length k + 3 + length v)) i); [lia|]. unfold put_att. by rewrite Hst.
Qed.

Lemma atts_printed s len r l : Forall att_ok l -> forall fuel i st, incorrectSyntax st = false ->
  drop i s = concat (print_att <$> l) ++ 62 :: r -> (i + length (concat (print_att <$> l)))%nat = len -> (len - skip_blank s len i <= fuel)%nat ->
  atts_loop fuel s len (skip_blank s len i) st = Ret (fold_left put_att l st).
Proof.
  induction 1 as [|[k v] l Hkv _ IH]; intros fuel i st Hst Hd Hl Hf.
  { assert (len <= skip_blank s len i)%nat by (cbn in Hl; assert (i <= skip_blank s len i)%nat by apply scan_to_ge; lia).
    destruct fuel; cbn [atts_loop]; by rewrite (proj2 (Nat.ltb_ge _ _)) by lia. }
  destruct Hkv as (Hk & Hkc & Hv) eqn:Eq. cbn [fst snd] in *. destruct (key_spaces k Hk Hkc) as (c & k' & Ek & Hc).
  assert (drop i s = [32] ++ k ++ 61 :: 34 :: v ++ 34 :: concat (print_att <$> l) ++ 62 :: r) as Hd'.
  { rewrite Hd. cbn [fmap list_fmap concat]. unfold print_att at 1. cbn [fst snd]. cbn [app]. rewrite <- !app_assoc. cbn [app]. by rewrite <- !app_assoc. }
  assert (S i + length k + 3 + length v + length (concat (print_att <$> l)) = len)%nat as Hl'.
  { rewrite <- Hl. cbn [fmap list_fmap concat]. rewrite length_app, print_att_length. cbn [fst snd]. lia. }
  assert (skip_blank s len i = S i) as Hs.
  { unfold skip_blank. rewrite (scan_to_at isspace s len i [32] _ Hd'); [cbn; lia|done|cbn; lia|]. right. rewrite Ek. by split. }
  pose proof (drop_past _ _ _ _ Hd') as H1. cbn [length] in H1. rewrite Nat.add_1_r in H1. rewrite Hs in *. destruct fuel as [|fuel]; [lia|]. cbn [atts_loop].
  rewrite (proj2 (Nat.ltb_lt _ _)) by lia. rewrite (att_step_printed s len (S i) k v (concat (print_att <$> l) ++ 62 :: r) st) by (done || lia). cbn [fold_left].
  assert (S i + length k + 3 + length v <= skip_blank s len (S i + length k + 3 + length v))%nat by apply scan_to_ge.
  apply IH; [done| |lia|lia].
  replace (S i + length k + 3 + length v)%nat with (S i + length (k ++ 61%Z :: 34%Z :: v ++ [34%Z]))%nat by lens.
  apply drop_past. rewrite H1, <- app_assoc. cbn [app]. by rewrite <- app_assoc.
Qed.

Lemma put_atts l st : fold_left put_att l st = mkAtts (fold_left (fun d kv => dict_put d kv.1 kv.2) l (attributesObj st)) (incorrectSyntax st).
Proof. revert st. induction l as [|kv l IH]; intros [d b]; [done|]. cbn [fold_left]. by rewrite IH. Qed.

Lemma tag_name_at s n i w t : drop i s = w ++ t -> forallb name_char w = true -> (length w <= n)%nat ->
  length w = n \/ (exists t', t = 32 :: t') -> tag_name s n i = Some (i + length w)%nat.
Proof.
  revert n i. induction w as [|c w IH]; intros n i Hd Hp Hn Hs.
  - destruct n as [|n]; [cbn; f_equal; lia|]. destruct Hs as [?|[t' ->]]; [done|]. apply char_at_drop in Hd as [Hc _]. cbn [tag_name]. rewrite Hc. cbn. f_equal. lia.
  - destruct n as [|n]; [cbn in Hn; lia|]. cbn [forallb] in Hp. apply andb_true_iff in Hp as [Hc Hp]. cbn [app] in Hd. destruct (char_at_drop _ _ _ _ Hd) as [Ec _].
    unfold name_char in Hc. apply negb_true_iff in Hc. apply orb_false_iff in Hc as [Hc1 Hc2]. cbn [tag_name length]. rewrite Ec, Hc1, Hc2.
    rewrite IH; [f_equal; lia| |done|cbn in Hn; lia|destruct Hs as [Hs|Hs]; [left; cbn in Hs; lia|by right]].
    replace (S i) with (i + length [c])%nat by (cbn; lia). by apply drop_past.
Qed.

(** C38.  A tag printed from its name and attributes is parsed back to them; of attributes with the same name the last
    value is kept, at the place of the first. *)
Theorem tag_roundtrip c name atts r :
  name_char c = true -> forallb name_char name = true -> Forall att_ok atts ->
  HtmlParseTagAtts (print_tag (c :: name) atts ++ 62 :: r) (length (print_tag (c :: name) atts)) =
    Ret (Some (c :: name, Some (fold_left (fun d kv => dict_put d kv.1 kv.2) atts []))).
Proof.
  intros Hc Hn Ha. set (s := print_tag (c :: name) atts ++ 62 :: r). set (len := length (print_tag (c :: name) atts)).
  assert (s = (c :: name) ++ concat (print_att <$> atts) ++ 62 :: r) as Es by (unfold s, print_tag; by rewrite <- app_assoc).
  assert (len = length (c :: name) + length (concat (print_att <$> atts)))%nat as El by (unfold len, print_tag; apply length_app).
  assert (isspace c = false /\ c <> 47) as [Hsp H47] by (apply negb_true_iff, orb_false_iff in Hc as [[? ?%Z.eqb_neq]%orb_false_iff _]; done).
  clearbody s len. cbn [length] in El. assert (chr_at s 0 = c) as E0 by by rewrite Es. unfold HtmlParseTagAtts. rewrite E0, Hsp, (proj2 (Nat.ltb_lt 0 len)) by lia. cbn [andb negb].
  rewrite (tag_name_at s (len - 1) 1 name (concat (print_att <$> atts) ++ 62 :: r)); [|by rewrite Es|done|lia|].
  2: { destruct atts as [|kv atts]; [left; cbn in El; lia|right; eexists; reflexivity]. }
  change (1 + length name)%nat with (length (c :: name)). assert (drop 0 s = (c :: name) ++ concat (print_att <$> atts) ++ 62 :: r) as Hd by by rewrite Es.
  rewrite (proj2 (Z.eqb_neq c 47)) by done. cbn [negb].
  rewrite (atts_printed s len r atts Ha _ _ (mkAtts [] false)); [|done|apply (drop_past _ _ _ O Hd)|cbn [length]; lia|lia].
  cbn [mbind outcome_bind]. rewrite put_atts. cbn [incorrectSyntax attributesObj]. pose proof (sub_at _ _ _ O Hd) as Hsub. rewrite Nat.add_0_l in Hsub. by rewrite Hsub.
Qed.

Lemma tag_roundtrip_witness : HtmlParseTagAtts (map (fun c => if c =? 36 then 34 else c) (bytes "a href=$/x$ id=$1$ href=$/y z$>t")) 30 =
  Ret (Some (bytes "a", Some [(bytes "href", bytes "/y z"); (bytes "id", bytes "1")])).
Proof.
  apply (tag_roundtrip 97 [] [(bytes "href", bytes "/x"); (bytes "id", bytes "1"); (bytes "href", bytes "/y z")] (bytes "t")); [reflexivity|reflexivity|].
  repeat constructor; try discriminate; try reflexivity.
Defined.

(** The "<" of an open comment or processing instruction is lost when a ">" follows. *)
Lemma bracket_lost :
  NsTclParseHtmlObjCmd false false (bytes "a<!-- b>") = Ret (Some [Elem WText (bytes "a") None; Elem WText (bytes "!-- b>") None]) /\
  NsTclParseHtmlObjCmd false false (bytes "<?x b>") = Ret (Some [Elem WText (bytes "?x b>") None]).
Proof. split; vm_compute; reflexivity. Qed.
